(* ===== verification/_CoqProject ===== *)
-Q . S2P
Prelude.v
GoStrings.v
Sha256.v
Json.v
RoomTypes.v
Projection.v
Ports.v
Coordinator.v
CoordinatorSafety.v
CoordinatorFlow.v
StoreSchema.v
StoreBase.v
StoreTasks.v
StoreRepository.v
StoreRecovery.v
StoreAdmission.v
StoreInvariant.v
StoreOps.v
StoreSafety.v
StorePort.v
StoreAdmissionSafety.v
CoordinatorStore.v
Hub.v
JsonFacts.v
StrictJson.v
StrictFacts.v
Wire.v
WireSafety.v
Messages.v
Session.v
SessionSafety.v
GoDecode.v
Jsonrpc.v
RpcClient.v
RpcSafety.v
Adapter.v
AdapterSafety.v
Process.v
OwnedSafety.v
Supervisor.v
SupervisorSafety.v
CodexRuntime.v
CodexRuntimeSafety.v
Workgroup.v
WorkgroupRun.v
WorkgroupSafety.v
TerminalText.v
TerminalView.v
TerminalMirror.v
TerminalPrint.v
Terminal.v
TerminalLogic.v
TerminalSafety.v
TerminalBook.v
TerminalDelivery.v
GoUrl.v
ResourceRequest.v
PersonalBroker.v
PersonalSafety.v
Programs.v
Executors.v
Documents.v
ExecutorSafety.v
ExecutorEvidence.v
DocumentEvidence.v
CommitProgram.v
CommitEvidence.v
Workspace.v
RemoteWorkers.v
RemoteSafety.v
Questions.v
NetworkWire.v
NetworkHost.v
NetworkSafety.v
CodexIsolated.v
NetworkClient.v
ChatBot.v
ApprovalWindow.v
ChatWindow.v
Dashboard.v
