(* ===== verification/Prelude.v ===== *)
(** * agent_room: verification library

    agent_room is a daemon through which several people share one coding agent.
    A room has one agent thread; what people submit is queued, stored in SQLite
    and given to the agent one task at a time; everything that happens is a
    numbered event that every connected client receives.  Around this core members
    connect over the network, lend agents of their own machines, let the agent
    write under their accounts after they agreed, and follow the room in a terminal,
    on a page or in a chat.  This library models these parts, written in Go under
    [src/internal], and proves what makes them correct.  All paths below are
    relative to [src/internal].

    ** Parts of the program and of this library

    - Prelude ([Prelude.v], this file): results and errors, the transaction monad
      [Tx] of the store with its weakest preconditions [wp], the procedure monad
      [Proc] of the coordinator, lists, ordered queries, automation.
    - Go's standard library as the source uses it: strings, UTF-8 and hexadecimal
      ([GoStrings.v]), SHA-256 ([Sha256.v]), JSON ([Json.v]), times ([GoStrings.v]).
    - Domain types ([RoomTypes.v] for [room/types.go]): states, inputs, events,
      errors and validators.
    - Live projection ([Projection.v] for [room/projection.go]): partial output of
      the running turn under a byte budget.
    - Ports ([Ports.v] for [room/ports.go], [questions.go], [workgroup.go]): the
      repository and the agent as type classes; [Ports.v] is the contract the
      coordinator relies on, stated on an abstract view of a room.
    - Coordinator ([Coordinator.v] for [room/coordinator.go], [recovery.go],
      [questions.go], [commands.go]): one goroutine owns the room's state and
      handles one command or agent event at a time.  A handler is a procedure on
      a [World]: repository, agent, coordinator and the trace of what it did to
      the outside.  [CoordinatorFlow.v] and [CoordinatorSafety.v] hold its
      theorems.
    - Store ([StoreSchema.v] for the tables of [store/schema] and the transactions
      of [store/sqlite.go]; [StoreBase.v], [StoreRepository.v] for
      [store/repository.go]; [StoreRecovery.v] for [store/recovery.go],
      [admin.go], [private_turns.go], [unused_thread.go]; [StoreTasks.v] for
      [store/tasks.go]): a database is a record of tables, a table a list of rows
      in insertion order, a transaction body a function of [Tx] that fails
      without effect.  [StoreInvariant.v] and [StoreOps.v] prove the
      well-formedness invariant and the history order for every operation;
      [StoreSafety.v] holds the theorems, [StorePort.v] the effect of every body
      on the coordinator's view.
    - Admission ([StoreAdmission.v] for [store/admission.go], [roles.go],
      [members.go], [personal.go]): join requests under the hash of a token, the
      decisions of the host, roles; [StoreAdmissionSafety.v] proves whom a token
      speaks for.
    - The two together ([CoordinatorStore.v]): the store is an instance of the
      repository class and keeps its laws, for every clock, every failure of a
      call and every interleaved call of the rest of the daemon; the
      coordinator's theorems hold on it across process lifetimes.
    - Hub ([Hub.v] for [daemon/hub.go]): bounded buffers of live events.
    - Wire protocol ([StrictJson.v] for [protocol/validation.go]; [Wire.v] for
      [protocol/envelope.go], [framing.go] and the handshake, [Messages.v] for the
      bodies of [protocol/messages.go]): envelopes as length-prefixed JSON on
      streams that deliver and accept bytes piecewise, decoded strictly.
      [JsonFacts.v] proves that marshalled text is compacted to itself and parsed
      back, [StrictFacts.v] what the strict scans accept, [WireSafety.v] the
      theorems about frames.
    - Sessions ([Session.v] for [daemon/session.go], [replay.go], [bot.go] and the
      configuration of [server.go]): one connected member, from the handshake over
      the replay of the log to the loop that forwards and answers, against an
      environment that acts on database and hub before each of its accesses, the
      publication of old events included.  [SessionSafety.v] proves what it
      delivers and what a request can do.
    - Codex client ([Jsonrpc.v] and [RpcClient.v] for [codex/jsonrpc.go], the first
      for lines and messages, the second for the client: its goroutines are moves
      on one record, and what reached the pipe is a list of chunks with the call
      that wrote each; [GoDecode.v] decodes JSON into the structures of Go).
      [RpcSafety.v] holds the theorems about calls and bytes.
    - Codex adapter ([Adapter.v] for [codex/adapter.go], [requests.go],
      [protocol.go], [compat.go], [missing_thread.go]): the agent port on top of
      the client, with the mapping of notifications to agent events.
      [AdapterSafety.v] proves what its answers mean.  [CodexIsolated.v] is
      [codex/questions.go] and [resources.go]: read-only turns, and isolated models
      that are given their text only after the process said what it has loaded.
    - Codex processes ([Process.v] for the errors and specifications of
      [codex/process.go] and the identities of [process_linux.go];
      [OwnedSafety.v] for the record of a child in [codex/process.go], its observer
      and those who stop it, with every use of its process id in a log).
    - Codex supervision ([Supervisor.v] for [codex/supervisor.go], [CodexRuntime.v]
      for [codex/runtime.go]): the process is recorded in the store before it is
      used, and restarted by an owner that [Start] and [Close] meet.
      [SupervisorSafety.v] keeps a ledger of what the trace shows,
      [CodexRuntimeSafety.v] holds the theorems.
    - Terminal client ([TerminalText.v] for [client/commands.go], [submission.go],
      [cursor.go], [answers.go], [ssh.go] and the text of [render.go];
      [TerminalView.v] for the partial output of [render.go]; [Terminal.v] for
      [client/client.go]): a run over all its reconnections, each round of the loop
      a function of what the [select] takes.  [TerminalLogic.v] is its program
      logic; [TerminalSafety.v] is about what is shown and saved, [TerminalBook.v]
      about requests, [TerminalPrint.v] about what reaches the terminal,
      [TerminalMirror.v] relates its view to [Projection.v], and
      [TerminalDelivery.v] joins it with [Session.v].
    - Work group ([Workgroup.v] for [workgroup/config.go], [plan.go] and the reply
      of [planner.go]: the directory of agents, routing, plans of dependent steps;
      [WorkgroupRun.v] for [workgroup/runtime.go] and the question to the planner:
      the run of a plan, against an environment that answers for workers, planner,
      database and cancellation).  [WorkgroupSafety.v] holds their theorems.
    - Remote agents ([Workspace.v] for [workgroup/workspace.go], snapshots and
      changes with their theorems; [RemoteWorkers.v] for [workgroup/remote.go], the
      broker as moves on one record whose acts are logged; [RemoteSafety.v]).
    - Personal writes ([GoUrl.v] for [net/url]; [ResourceRequest.v] for the requests
      and receipts of [resources] and [gitpush/types.go]; [PersonalBroker.v] for
      [personal/broker.go], [push.go] and [git.go]; [PersonalSafety.v]): the broker
      between the agent and the client of the member whose turn it is.
      [Programs.v] is a free monad of what a writing program asks of the machine,
      with its logic; [Executors.v] the push of [gitpush], [Documents.v] the
      documents of [resources/create.go] and [append.go], [CommitProgram.v] the
      commit of [personal/git.go].  [ExecutorSafety.v] interleaves executors over
      one ledger; [ExecutorEvidence.v], [DocumentEvidence.v] and
      [CommitEvidence.v] say what a write rests on.
    - Questions ([Questions.v] for [questions/service.go]): the table of private
      questions, each answered by one generation of the model.
    - Network ([NetworkWire.v] for frames and names of [network]; [NetworkHost.v]
      for the host: store, connections, brokers, questions and uploads in one
      record, and every stretch of a handler between two places where it lets go of
      what it shares is a move of its own; [NetworkSafety.v]; [NetworkClient.v] for
      the other end).
    - Chat bot ([ChatBot.v] for [feishubot]): a command of a chat message, with a
      ledger and crashes between its steps.
    - Windows of a member ([ApprovalWindow.v] for the decisions, the loop and the
      guards of [answerwindow/personal.go], [push.go], [resources.go];
      [ChatWindow.v] for [window.go], [history.go], [progress.go] and [chat.go]:
      what a page keeps and shows of the room).
    - Dashboard ([Dashboard.v] for [dashboard/server.go], [agents.go],
      [agent_health.go]): the connections of a machine to rooms and the agents that
      work on it, a point per wait of their goroutines.

    ** What the theorems show

    - One task at a time, oldest first, across crashes and restarts
      ([CoordinatorStore.room_single_flight_across_restarts], and
      [CoordinatorSafety.coordinator_single_flight] for any repository that keeps
      the contract).  The dispatch loop ends ([CoordinatorFlow]).
    - The database is well formed after any calls and failures; events, messages,
      members and rooms are only ever added to; repeated commands are idempotent
      ([StoreSafety]).  A token stands for one member, who was admitted by a
      decision under that token, and for nobody after a revocation
      ([StoreAdmissionSafety]).
    - Envelopes arrive as they were sent, whatever the chunks; strict decoding
      accepts exactly the objects of a type ([WireSafety]).
    - Between subscription and replay no event is lost: a client applies the log
      after its cursor without gaps or repetitions, also when old events are
      published again, and gets everything once the room is still; a request acts
      only with the rights and the name of its member and is answered once
      ([SessionSafety]).  This holds down to what a terminal hands on
      ([TerminalDelivery]); its view of the running turn is that of the room
      ([TerminalMirror]), which keeps its budget ([Projection]).
    - However the goroutines of the Codex client interleave, its calls behave like
      a table from ids to calls, where each is answered at most once and by the
      response with its id ([RpcSafety]).  When the adapter reports that a turn was
      not sent, no byte of the request reached the agent, so the coordinator may
      queue the task again ([AdapterSafety]).  A process is launched only when none
      may be alive, is asked nothing before it is recorded ([CodexRuntimeSafety]),
      and is signalled and reaped only while its id is its own ([OwnedSafety]).
    - A step of a plan gets exactly the results it depends on; a turn ends as
      complete only when there was a plan, the message's own or the planner's
      validated answer, and every step of it was worked ([WorkgroupSafety]).
    - Work for a member's machine goes to that member once, and what a run returns
      is what they reported ([RemoteSafety], and over connections [NetworkSafety]);
      an agent of a machine keeps its protocol as long as jobs are named
      ([Dashboard]); differences of snapshots apply to what they were made for
      ([Workspace]).
    - A write under a member's account was asked for in their turn, handed to one
      of their clients, agreed to on their page, done at most once and as it was
      shown, and reported complete only on evidence ([PersonalSafety],
      [ApprovalWindow], [ExecutorEvidence], [DocumentEvidence], [CommitEvidence]);
      whoever waits for it is let go ([PersonalSafety]).
    - On a host each act is done for a member who is admitted with the role it
      takes at that moment, although roles are read without the lock of what
      follows ([NetworkSafety]).
    - The bot acts on a chat message at most once ([ChatBot]); a page shows only
      what is public, within its bounds, and its history can be read to the end
      ([ChatWindow]).

    ** Choices and bounds

    - Integers that the source wraps or bounds are kept at their width
      ([Projection.u64], SHA-256 words); [int64] sequence numbers and row ids are
      [Z], since a room would have to reach 2^63 events to overflow.
    - [Coordinator.dispatch_fuel] has the length of the queue as fuel, which is
      enough ([CoordinatorFlow.dispatch_terminates]); JSON and UTF-8 scanners have
      the length of their input or a small multiple of it ([StrictJson.fuel_of]);
      [Wire.writeFull] has a round per byte, and [Session.replay_pages] a round per
      missing event.  The theorems of [WireSafety] show that this is enough for
      every marshalled value and every write.
    - Errors keep the source's texts and sentinels.  Errors of the SQL engine are
      one constraint error, a failing commit hook and a failing commit; the text
      the engine gives a violated constraint is not modelled.  A cancelled context
      shows as a failed call.
    - A call reads the clock once, its timestamps are nanoseconds, and a stored
      timestamp is either such a number or a text that does not parse.  In the
      brokers and in the chat bot the clock only advances; the bot compares the
      texts of times, as its queries do.
    - The order in which Go ranges over a map never matters in what is modelled;
      the one place where it picks a representative ([Hub.Members]) is stated for
      the uids only.
    - Code outside the repository and the world are arguments: of the step they
      answer ([Terminal], [Questions], [ChatBot], [NetworkClient], [Dashboard]), of
      an environment indexed by the number of the call ([CoordinatorStore],
      [WorkgroupRun], [Supervisor]), or of the history of a program's effects
      ([Programs]).  For coordinator and store the agent is an arbitrary state with
      arbitrary answers; the Codex client has the agent process as its
      environment, which answers, stalls or ends as it likes.
    - Concurrency is interleaving: a move is what a goroutine does between two
      points where it can block or lets go of a lock ([RpcClient], [OwnedSafety],
      [CodexRuntime], [PersonalBroker], [RemoteWorkers], [NetworkHost],
      [ApprovalWindow], [Dashboard]); theorems hold for every list of moves.  What
      such a system did is a log, with the truth at that moment where a property is
      about a moment.
    - Tables of Unicode that name an uploaded file safely are an argument
      ([NetworkClient]).

    ** Not modelled

    Serving pages, drafts and files of the windows and of [hostview], the command
    line ([cli], [admin], [config], [identity], [bridge], [observability]), schema
    migrations and TLS; sockets, HTTP, files, pipes and processes as such, which are
    arguments of what uses them; the providers of the work group that run programs
    and their health probe, the view of a repository ([gitview]), and the command
    line tools that are run for documents, git and the chat service. *)
From Stdlib Require Export Ascii String.
From stdpp Require Export base tactics option list gmap strings sorting pretty.
From Stdlib Require Export ZArith Lia.

Global Set Default Goal Selector "!".

Declare Scope go_scope.
Delimit Scope go_scope with go.
Global Open Scope string_scope.
Global Open Scope list_scope.
Global Open Scope Z_scope.

(** ** Go's [(T, error)] results *)

Inductive result (E A : Type) : Type :=
| Ok (a : A)
| Err (e : E).
Arguments Ok {E A} a.
Arguments Err {E A} e.

Definition is_ok {E A} (r : result E A) : bool :=
  match r with Ok _ => true | Err _ => false end.

Definition result_map {E A B} (f : A -> B) (r : result E A) : result E B :=
  match r with Ok a => Ok (f a) | Err e => Err e end.

Definition result_bind {E A B} (r : result E A) (k : A -> result E B) : result E B :=
  match r with Ok a => k a | Err e => Err e end.

(** [if err := c; err != nil { return err }] for pure checks. *)
Notation "'let?' x := c 'in' k" := (result_bind c (fun x => k))
  (at level 10, x pattern, c at level 100, k at level 200) : go_scope.
Global Open Scope go_scope.

(** ** Fallible state transformers

    [Tx S E A] is the body of a SQL transaction, or any other code that threads
    a state and may return an error: the error carries no state, because the
    caller rolls back (see [StoreSchema.transact]). *)

Definition Tx (S E A : Type) : Type := S -> result E (A * S).

#[export] Instance Tx_ret {S E} : MRet (Tx S E) := fun _ a s => Ok (a, s).
#[export] Instance Tx_bind {S E} : MBind (Tx S E) := fun _ _ k m s =>
  match m s with
  | Ok (a, s') => k a s'
  | Err e => Err e
  end.

Definition tx_fail {S E A} (e : E) : Tx S E A := fun _ => Err e.
Definition tx_get {S E} : Tx S E S := fun s => Ok (s, s).
Definition tx_modify {S E} (f : S -> S) : Tx S E unit := fun s => Ok (tt, f s).
(** A guard: [if !b { return e }]. *)
Definition tx_guard {S E} (b : bool) (e : E) : Tx S E unit :=
  if b then mret tt else tx_fail e.
(** A pure check inside a transaction. *)
Definition tx_lift {S E A} (r : result E A) : Tx S E A :=
  match r with Ok a => mret a | Err e => tx_fail e end.

(** [if err != nil { return e }] after a call whose error is replaced. *)
Definition tx_onerror {S E A} (e : E) (m : Tx S E A) : Tx S E A := fun s =>
  match m s with Ok r => Ok r | Err _ => Err e end.

(** Weakest precondition of a transaction body, for its successful outcome:
    what it returns and leaves satisfies [Q]. *)
Definition wp {S E A} (m : Tx S E A) (Q : A -> S -> Prop) (s : S) : Prop :=
  match m s with Ok (a, s') => Q a s' | Err _ => True end.

Section wp_rules.
Context {S E : Type}.

Lemma wp_ret {A} (a : A) (Q : A -> S -> Prop) s : Q a s -> wp (E:=E) (mret a) Q s.
Proof. done. Qed.

Lemma wp_bind {A B} (m : Tx S E A) (k : A -> Tx S E B) Q s :
  wp m (fun a s' => wp (k a) Q s') s -> wp (m ≫= k) Q s.
Proof. unfold wp, mbind, Tx_bind. by destruct (m s) as [[a s']|e]. Qed.

Lemma wp_fail {A} (e : E) (Q : A -> S -> Prop) s : wp (tx_fail e) Q s.
Proof. done. Qed.

Lemma wp_get (Q : S -> S -> Prop) s : Q s s -> wp (E:=E) tx_get Q s.
Proof. done. Qed.

Lemma wp_modify f (Q : unit -> S -> Prop) s : Q tt (f s) -> wp (E:=E) (tx_modify f) Q s.
Proof. done. Qed.

Lemma wp_guard b e (Q : unit -> S -> Prop) s :
  (b = true -> Q tt s) -> wp (E:=E) (tx_guard b e) Q s.
Proof. destruct b; unfold wp; simpl; auto. Qed.

Lemma wp_lift {A} (r : result E A) (Q : A -> S -> Prop) s :
  (forall a, r = Ok a -> Q a s) -> wp (tx_lift r) Q s.
Proof. destruct r; unfold wp; simpl; auto. Qed.

Lemma wp_onerror {A} (e : E) (m : Tx S E A) (Q : A -> S -> Prop) s : wp m Q s -> wp (tx_onerror e m) Q s.
Proof. unfold wp, tx_onerror. by destruct (m s) as [[a s']|e']. Qed.

Lemma wp_mono {A} (m : Tx S E A) (Q R : A -> S -> Prop) s :
  wp m Q s -> (forall a s', Q a s' -> R a s') -> wp m R s.
Proof. unfold wp. destruct (m s) as [[a s']|e]; auto. Qed.

Lemma wp_and {A} (m : Tx S E A) (Q R : A -> S -> Prop) s :
  wp m Q s -> wp m R s -> wp m (fun a s' => Q a s' /\ R a s') s.
Proof. unfold wp. destruct (m s) as [[a s']|e]; auto. Qed.

Lemma wp_ok {A} (m : Tx S E A) (Q : A -> S -> Prop) s a s' :
  wp m Q s -> m s = Ok (a, s') -> Q a s'.
Proof. unfold wp. intros H Hm. by rewrite Hm in H. Qed.

Lemma wp_intro {A} (m : Tx S E A) (Q : A -> S -> Prop) s :
  (forall a s', m s = Ok (a, s') -> Q a s') -> wp m Q s.
Proof. unfold wp. destruct (m s) as [[a s']|e]; auto. Qed.

Lemma bind_ok {A B} (m : Tx S E A) (k : A -> Tx S E B) s b s' :
  (m ≫= k) s = Ok (b, s') <-> exists a s1, m s = Ok (a, s1) /\ k a s1 = Ok (b, s').
Proof.
  unfold mbind, Tx_bind. destruct (m s) as [[a s1]|e]; split.
  - intros H. by exists a, s1.
  - intros (? & ? & [= <- <-] & H). done.
  - done.
  - by intros (? & ? & ? & _).
Qed.
End wp_rules.

Create HintDb wp discriminated.
#[export] Hint Resolve wp_ret wp_fail wp_get wp_modify : wp.

(** One step of a proof about a transaction body: peel a bind, or apply the
    rule of the primitive in head position. *)
Ltac wp_step :=
  lazymatch goal with
  | |- wp (mbind _ _) _ _ => apply wp_bind
  | |- wp (mret _) _ _ => apply wp_ret
  | |- wp (tx_fail _) _ _ => apply wp_fail
  | |- wp tx_get _ _ => apply wp_get
  | |- wp (tx_modify _) _ _ => apply wp_modify
  | |- wp (tx_guard _ _) _ _ => apply wp_guard; intros ?
  | |- wp (tx_lift _) _ _ => apply wp_lift; intros ? ?
  | |- wp (tx_onerror _ _) _ _ => apply wp_onerror
  | |- wp (match ?x with _ => _ end) _ _ => destruct x eqn:?
  end.
Ltac wp_steps := repeat (wp_step; cbv beta).

(** Split the boolean guards of the context into their conjuncts. *)
Ltac bool_props :=
  repeat match goal with
  | H : _ && _ = true |- _ => apply andb_prop in H; destruct H
  | H : _ || _ = false |- _ => apply orb_false_elim in H; destruct H
  | H : negb _ = true |- _ => apply negb_true_iff in H
  | H : negb _ = false |- _ => apply negb_false_iff in H
  | H : bool_decide _ = true |- _ => apply bool_decide_eq_true_1 in H
  | H : bool_decide _ = false |- _ => apply bool_decide_eq_false_1 in H
  | H : (_ =? _)%Z = true |- _ => apply Z.eqb_eq in H
  | H : (_ =? _)%Z = false |- _ => apply Z.eqb_neq in H
  | H : (_ <? _)%Z = true |- _ => apply Z.ltb_lt in H
  | H : (_ <? _)%Z = false |- _ => apply Z.ltb_ge in H
  | H : (_ <=? _)%Z = true |- _ => apply Z.leb_le in H
  | H : (_ <=? _)%Z = false |- _ => apply Z.leb_gt in H
  end.

(** ** Stateful procedures

    [Proc S A] is a procedure on a state that a caller sees even when an error is
    returned: nothing is rolled back. *)

Definition Proc (S A : Type) : Type := S -> S * A.
#[export] Instance Proc_ret {S} : MRet (Proc S) := fun _ a s => (s, a).
#[export] Instance Proc_bind {S} : MBind (Proc S) := fun _ _ k m s => let '(s', a) := m s in k a s'.
Definition proc_get {S} : Proc S S := fun s => (s, s).
Definition proc_modify {S} (f : S -> S) : Proc S unit := fun s => (f s, tt).

(** [x, err := m; if err != nil { return err }; k] *)
Definition try_bind {S E A B} (m : Proc S (result E A)) (k : A -> Proc S (result E B)) : Proc S (result E B) := fun s =>
  match m s with
  | (s', Ok a) => k a s'
  | (s', Err e) => (s', Err e)
  end.
Notation "'let!' x := c 'in' k" := (try_bind c (fun x => k))
  (at level 10, x pattern, c at level 100, k at level 200) : go_scope.

(** ** Ordered queries

    [ORDER BY key]; keys are distinct in every use, so ties do not matter. *)
Definition key_le {A} (key : A -> Z) (a b : A) : Prop := key a <= key b.
Definition key_lt {A} (key : A -> Z) (a b : A) : Prop := key a < key b.
#[export] Instance key_le_dec {A} (key : A -> Z) : RelDecision (key_le key).
Proof. intros a b. unfold key_le. apply _. Defined.
#[export] Instance key_le_total {A} (key : A -> Z) : Total (key_le key).
Proof. intros a b. unfold key_le. lia. Qed.
#[export] Instance key_le_trans {A} (key : A -> Z) : Transitive (key_le key).
Proof. intros a b c. unfold key_le. lia. Qed.
#[export] Instance key_lt_trans {A} (key : A -> Z) : Transitive (key_lt key).
Proof. intros a b c. unfold key_lt. lia. Qed.

Definition order_by {A} (key : A -> Z) (l : list A) : list A := merge_sort (key_le key) l.

Section order_by.
Context {A : Type} (key : A -> Z).

Lemma order_by_Permutation (l : list A) : order_by key l ≡ₚ l.
Proof. apply merge_sort_Permutation. Qed.

Lemma StronglySorted_lt_le (l : list A) : StronglySorted (key_lt key) l -> StronglySorted (key_le key) l.
Proof.
  induction 1 as [|x l H IH Hf]; constructor; [done|].
  eapply Forall_impl; [done|]. unfold key_lt, key_le. intros; lia.
Qed.

Lemma StronglySorted_lt_inj (l : list A) x y :
  StronglySorted (key_lt key) l -> x ∈ l -> y ∈ l -> key x = key y -> x = y.
Proof.
  induction 1 as [|z l H IH Hf]; intros Hx Hy E; [by apply not_elem_of_nil in Hx|].
  rewrite Forall_forall in Hf. unfold key_lt in Hf.
  apply elem_of_cons in Hx as [->|Hx], Hy as [->|Hy]; auto.
  - specialize (Hf y Hy). lia.
  - specialize (Hf x Hx). lia.
Qed.

(** A table already in key order is returned as it is. *)
Lemma order_by_sorted (l : list A) : StronglySorted (key_lt key) l -> order_by key l = l.
Proof.
  intros H. apply (StronglySorted_unique_strong (key_le key)).
  - intros x y Hx Hy H1 H2. unfold order_by in Hx. rewrite merge_sort_Permutation in Hx.
    apply (StronglySorted_lt_inj l); [done..|]. unfold key_le in *. lia.
  - apply StronglySorted_merge_sort; apply _.
  - by apply StronglySorted_lt_le.
  - apply merge_sort_Permutation.
Qed.
End order_by.

(** ** Lists *)

Lemma filter_elem_of {A} (p : A -> bool) (l : list A) x : x ∈ List.filter p l <-> x ∈ l /\ p x = true.
Proof. rewrite !list_elem_of_In. apply filter_In. Qed.

Lemma StronglySorted_bfilter {A} (R : relation A) (p : A -> bool) (l : list A) :
  StronglySorted R l -> StronglySorted R (List.filter p l).
Proof.
  induction 1 as [|x l H IH Hf]; simpl; [constructor|]. destruct (p x); [|done].
  constructor; [done|]. rewrite Forall_forall in Hf |- *.
  intros y [Hy _]%filter_elem_of. by apply Hf.
Qed.

Lemma StronglySorted_snoc {A} (R : relation A) (l : list A) x :
  StronglySorted R l -> (forall y, y ∈ l -> R y x) -> StronglySorted R (l ++ [x]).
Proof.
  induction 1 as [|y l H IH Hf]; intros Hx; simpl; [by repeat constructor|]. constructor.
  - apply IH. intros z Hz. apply Hx. by right.
  - apply Forall_app. split; [done|]. constructor; [apply Hx; left|done].
Qed.

Lemma NoDup_snoc {A} (l : list A) x : NoDup l -> x ∉ l -> NoDup (l ++ [x]).
Proof.
  intros H Hx. apply NoDup_app. split_and!; [done| |apply NoDup_singleton].
  intros y Hy E%list_elem_of_singleton. congruence.
Qed.

Lemma bfilter_ext {A} (p q : A -> bool) (l : list A) :
  (forall x, x ∈ l -> p x = q x) -> List.filter p l = List.filter q l.
Proof.
  induction l as [|x l IH]; intros H; simpl; [done|].
  rewrite (H x) by left. rewrite IH by (intros y Hy; apply H; by right). done.
Qed.

(** Table updates ([UPDATE .. WHERE]). *)
Definition update_where {A} (p : A -> bool) (f : A -> A) (l : list A) : list A :=
  map (fun x => if p x then f x else x) l.
Definition count_where {A} (p : A -> bool) (l : list A) : nat := length (List.filter p l).

Section update_where.
Context {A : Type} (p : A -> bool) (f : A -> A).

Lemma update_where_length l : length (update_where p f l) = length l.
Proof. apply length_map. Qed.

Lemma elem_of_update_where l y :
  y ∈ update_where p f l <-> exists x, x ∈ l /\ y = if p x then f x else x.
Proof.
  unfold update_where. rewrite list_elem_of_In, in_map_iff. split.
  - intros (x & <- & Hx). exists x. split; [by apply list_elem_of_In|done].
  - intros (x & Hx & ->). exists x. split; [done|by apply list_elem_of_In].
Qed.

Lemma update_where_fmap {B} (g : A -> B) l :
  (forall x, g (f x) = g x) -> g <$> update_where p f l = g <$> l.
Proof.
  intros Hg. induction l as [|x l IH]; [done|].
  change (g (if p x then f x else x) :: (g <$> update_where p f l) = g x :: (g <$> l)).
  rewrite IH. f_equal. by destruct (p x).
Qed.

Lemma update_where_filter (q : A -> bool) l :
  (forall x, q (f x) = q x) -> List.filter q (update_where p f l) = update_where p f (List.filter q l).
Proof.
  intros Hq. induction l as [|x l IH]; simpl; [done|]. rewrite IH.
  destruct (p x) eqn:E; rewrite ?Hq; destruct (q x); simpl; by rewrite ?E.
Qed.

Lemma update_where_sorted (key : A -> Z) l :
  (forall x, key (f x) = key x) ->
  StronglySorted (key_lt key) l -> StronglySorted (key_lt key) (update_where p f l).
Proof.
  intros Hk. induction 1 as [|x l H IH Hf]; simpl; constructor; [done|].
  rewrite Forall_forall in Hf |- *. intros y (z & Hz & ->)%elem_of_update_where.
  specialize (Hf z Hz). unfold key_lt in *. destruct (p x), (p z); rewrite ?Hk; done.
Qed.

Lemma update_where_Forall2 (R : A -> A -> Prop) l :
  (forall x, x ∈ l -> R x (if p x then f x else x)) -> Forall2 R l (update_where p f l).
Proof.
  induction l as [|x l IH]; intros H; simpl; constructor.
  - apply H. left.
  - apply IH. intros y Hy. apply H. by right.
Qed.

Lemma update_where_id l : (forall x, x ∈ l -> p x = false) -> update_where p f l = l.
Proof.
  induction l as [|x l IH]; intros H; simpl; [done|].
  rewrite (H x) by left. rewrite IH by (intros y Hy; apply H; by right). done.
Qed.
End update_where.

Lemma count_where_zero {A} (p : A -> bool) l : count_where p l = O <-> forall x, x ∈ l -> p x = false.
Proof.
  unfold count_where. induction l as [|x l IH]; simpl.
  - split; [|done]. intros _ x Hx. by apply not_elem_of_nil in Hx.
  - destruct (p x) eqn:E; simpl.
    + split; [done|]. intros H. rewrite (H x) in E; [done|left].
    + rewrite IH. split; intros H y Hy; [|apply H; by right].
      apply elem_of_cons in Hy as [->|Hy]; auto.
Qed.

Lemma existsb_elem {A} (p : A -> bool) l : existsb p l = true <-> exists x, x ∈ l /\ p x = true.
Proof.
  rewrite existsb_exists. by setoid_rewrite <- list_elem_of_In.
Qed.

Lemma existsb_false {A} (p : A -> bool) l : existsb p l = false <-> forall x, x ∈ l -> p x = false.
Proof.
  induction l as [|x l IH]; simpl.
  - split; [|done]. intros _ x Hx. by apply not_elem_of_nil in Hx.
  - rewrite orb_false_iff, IH. split.
    + intros [H1 H2] y [->|Hy]%elem_of_cons; auto.
    + intros H. split; [apply H; left|]. intros y Hy. apply H. by right.
Qed.

Lemma find_some_elem {A} (p : A -> bool) l x : List.find p l = Some x -> x ∈ l /\ p x = true.
Proof. intros H. apply find_some in H as [H1 H2]. split; [by apply list_elem_of_In|done]. Qed.

Lemma find_none_elem {A} (p : A -> bool) l : List.find p l = None <-> forall x, x ∈ l -> p x = false.
Proof.
  split.
  - intros H x Hx. eapply find_none; [done|]. by apply list_elem_of_In.
  - intros H. destruct (List.find p l) as [x|] eqn:E; [|done].
    apply find_some_elem in E as [H1 H2]. by rewrite (H x H1) in H2.
Qed.

(** A key identifies at most one element. *)
Lemma NoDup_fmap_inj {A B} (g : A -> B) (l : list A) x y :
  NoDup (g <$> l) -> x ∈ l -> y ∈ l -> g x = g y -> x = y.
Proof.
  induction l as [|z l IH]; intros Hn Hx Hy E; [by apply not_elem_of_nil in Hx|].
  apply NoDup_cons in Hn as [Hni Hn].
  apply elem_of_cons in Hx as [->|Hx], Hy as [->|Hy]; auto;
    exfalso; apply Hni; apply list_elem_of_fmap; eauto.
Qed.

(** Keys of a mapped and of a filtered list. *)
Lemma StronglySorted_fmap_key {A B} (f : A -> B) (key : A -> Z) (key' : B -> Z) l :
  (forall x, key' (f x) = key x) -> StronglySorted (key_lt key) l -> StronglySorted (key_lt key') (f <$> l).
Proof.
  intros Hk. induction 1 as [|x l H IH F]; constructor; [exact IH|]. apply Forall_fmap. eapply Forall_impl; [exact F|].
  intros y Hy. unfold key_lt in *. simpl. by rewrite !Hk.
Qed.
Lemma NoDup_fmap_filter {A B C} (g : A -> B) (h : A -> C) (p : A -> bool) l :
  NoDup (g <$> l) -> (forall x y, p x = true -> p y = true -> h x = h y -> g x = g y) -> NoDup (h <$> List.filter p l).
Proof.
  intros N H. induction l as [|x l IH]; [constructor|]. rewrite fmap_cons in N. apply NoDup_cons in N as [Hx N].
  cbn. destruct (p x) eqn:Px; [|auto]. rewrite fmap_cons. apply NoDup_cons. split; [|auto].
  intros (y & E & [Hy Py]%list_elem_of_In%List.filter_In)%list_elem_of_fmap.
  apply Hx. rewrite (H x y) by done. apply list_elem_of_fmap_2. by apply list_elem_of_In.
Qed.
