(* ===== verification/GoStrings.v ===== *)
(** * Go strings

    A Go [string] is a sequence of bytes, here a Rocq [string] (one [ascii] per
    byte).  This file holds what the source uses of the packages [strings],
    [unicode/utf8], [encoding/hex] and [fmt]. *)
From S2P Require Import Prelude.

(** ** Bytes *)

Definition code (c : ascii) : Z := Z.of_N (N_of_ascii c).
Definition chr (z : Z) : ascii := ascii_of_N (Z.to_N z).
Definition len (s : string) : Z := Z.of_nat (String.length s).
Definition between (lo hi x : Z) : bool := (lo <=? x) && (x <=? hi).

Fixpoint bytes (s : string) : list ascii :=
  match s with "" => [] | String c r => c :: bytes r end.
Fixpoint of_bytes (l : list ascii) : string :=
  match l with [] => "" | c :: r => String c (of_bytes r) end.
(** A line feed. *)
Definition nl : string := String (chr 10) "".

Definition str_rev (s : string) : string := of_bytes (rev (bytes s)).

Definition str_forallb (p : ascii -> bool) (s : string) : bool := forallb p (bytes s).

Fixpoint concat_strings (l : list string) : string :=
  match l with [] => "" | s :: r => s +:+ concat_strings r end.

(** [strings.Join] *)
Fixpoint join (sep : string) (l : list string) : string :=
  match l with
  | [] => ""
  | [s] => s
  | s :: r => s +:+ sep +:+ join sep r
  end.

Lemma of_bytes_bytes s : of_bytes (bytes s) = s.
Proof. induction s as [|c s IH]; simpl; congruence. Qed.
Lemma bytes_of_bytes l : bytes (of_bytes l) = l.
Proof. induction l as [|c l IH]; simpl; congruence. Qed.
Lemma bytes_app s t : bytes (s +:+ t) = bytes s ++ bytes t.
Proof. induction s as [|c s IH]; simpl; [done|]. by rewrite IH. Qed.
Lemma bytes_length s : length (bytes s) = String.length s.
Proof. induction s; simpl; congruence. Qed.
Lemma len_app s t : len (s +:+ t) = len s + len t.
Proof. unfold len. rewrite <- !bytes_length, bytes_app, length_app. lia. Qed.
Lemma len_nonneg s : 0 <= len s.
Proof. unfold len. lia. Qed.
Lemma code_bounds c : 0 <= code c < 256.
Proof.
  unfold code. pose proof (N_ascii_bounded c). split; [lia|].
  change 256 with (Z.of_N 256). by apply N2Z.inj_lt.
Qed.
Lemma chr_code c : chr (code c) = c.
Proof. unfold chr, code. by rewrite N2Z.id, ascii_N_embedding. Qed.
Lemma code_chr z : 0 <= z < 256 -> code (chr z) = z.
Proof.
  intros H. unfold chr, code. rewrite N_ascii_embedding; [lia|].
  apply N2Z.inj_lt. change (Z.of_N 256) with 256. lia.
Qed.

(** ** [strings.TrimSpace]

    [unicode.IsSpace] holds of U+0009..U+000D, U+0020, U+0085, U+00A0, U+1680,
    U+2000..U+200A, U+2028, U+2029, U+202F, U+205F and U+3000; the tests below
    are on the one, two and three byte UTF-8 encodings of these runes. *)

Definition space1 (a : ascii) : bool := between 9 13 (code a) || (code a =? 32).
Definition space2 (a b : ascii) : bool :=
  (code a =? 0xC2) && ((code b =? 0x85) || (code b =? 0xA0)).
Definition space3 (a b c : ascii) : bool :=
  ((code a =? 0xE1) && (code b =? 0x9A) && (code c =? 0x80))
  || ((code a =? 0xE2) && (code b =? 0x80)
      && (between 0x80 0x8A (code c) || (code c =? 0xA8) || (code c =? 0xA9) || (code c =? 0xAF)))
  || ((code a =? 0xE2) && (code b =? 0x81) && (code c =? 0x9F))
  || ((code a =? 0xE3) && (code b =? 0x80) && (code c =? 0x80)).

Fixpoint trim_left (s : string) : string :=
  match s with
  | "" => ""
  | String a r =>
      if space1 a then trim_left r else
      match r with
      | "" => s
      | String b r' =>
          if space2 a b then trim_left r' else
          match r' with
          | "" => s
          | String c r'' => if space3 a b c then trim_left r'' else s
          end
      end
  end.

(** The same on a reversed string: the last rune is the one whose encoding,
    read backwards, starts it. *)
Fixpoint trim_left_rev (s : string) : string :=
  match s with
  | "" => ""
  | String a r =>
      if space1 a then trim_left_rev r else
      match r with
      | "" => s
      | String b r' =>
          if space2 b a then trim_left_rev r' else
          match r' with
          | "" => s
          | String c r'' => if space3 c b a then trim_left_rev r'' else s
          end
      end
  end.

Definition TrimSpace (s : string) : string := str_rev (trim_left_rev (str_rev (trim_left s))).
(** [strings.TrimSpace(s) == ""], the blank test used all over the source. *)
Definition blank (s : string) : bool := String.eqb (TrimSpace s) "".

Example TrimSpace_ex : TrimSpace (of_bytes (map chr [9; 227; 128; 128; 32; 97; 32; 98; 32])) = "a b".
Proof. reflexivity. Qed.

Definition HasPrefix (s p : string) : bool := String.prefix p s.
(** [strings.TrimPrefix] *)
Definition TrimPrefix (s p : string) : string :=
  if HasPrefix s p then String.substring (String.length p) (String.length s - String.length p) s else s.

(** Go's [<] on strings: bytewise lexicographic. *)
Fixpoint str_ltb (s t : string) : bool :=
  match s, t with
  | String a s', String b t' => (code a <? code b) || ((code a =? code b) && str_ltb s' t')
  | "", String _ _ => true
  | _, "" => false
  end.

Lemma code_inj a b : code a = code b -> a = b.
Proof. intros H. by rewrite <- (chr_code a), H, chr_code. Qed.

Lemma str_ltb_trans s t u : str_ltb s t = true -> str_ltb t u = true -> str_ltb s u = true.
Proof.
  revert t u. induction s as [|a s IH]; intros [|b t] [|c u]; simpl; try done.
  specialize (IH t u).
  destruct (str_ltb s t), (str_ltb t u), (str_ltb s u); try specialize (IH eq_refl eq_refl);
    try done; rewrite ?andb_true_r, ?andb_false_r; lia.
Qed.

Lemma str_ltb_irrefl s : str_ltb s s = false.
Proof. induction s as [|a s IH]; simpl; [done|]. rewrite IH. lia. Qed.

Lemma str_ltb_total s t : str_ltb s t = false -> str_ltb t s = false -> s = t.
Proof.
  revert t. induction s as [|a s IH]; intros [|b t]; simpl; try done.
  intros H1 H2. assert (code a = code b) as E by lia.
  rewrite E, Z.ltb_irrefl, Z.eqb_refl in H1, H2. simpl in H1, H2.
  by rewrite (IH t H1 H2), (code_inj _ _ E).
Qed.

(** ** Hexadecimal *)

Definition is_lower_hex (c : ascii) : bool := between 48 57 (code c) || between 97 102 (code c).
Definition hex_digit (z : Z) : ascii := if z <? 10 then chr (48 + z) else chr (87 + z).
(** [encoding/hex] accepts both cases. *)
Definition hex_value (c : ascii) : option Z :=
  let z := code c in
  if between 48 57 z then Some (z - 48)
  else if between 97 102 z then Some (z - 87)
  else if between 65 70 z then Some (z - 55)
  else None.
Fixpoint hex_EncodeToString (s : string) : string :=
  match s with
  | "" => ""
  | String c r => String (hex_digit (code c / 16)) (String (hex_digit (code c mod 16)) (hex_EncodeToString r))
  end.
Fixpoint hex_DecodeString (s : string) : option string :=
  match s with
  | "" => Some ""
  | String a (String b r) =>
      match hex_value a, hex_value b, hex_DecodeString r with
      | Some x, Some y, Some t => Some (String (chr (16 * x + y)) t)
      | _, _, _ => None
      end
  | String _ "" => None
  end.

(** ** [unicode/utf8] *)

(** Number of bytes of the valid UTF-8 encoding at the head of the string, or
    [None] where [utf8.DecodeRuneInString] returns [RuneError] with width 1. *)
Definition is_cont (c : ascii) : bool := between 0x80 0xBF (code c).
Definition utf8_width (s : string) : option nat :=
  match s with
  | "" => None
  | String a r =>
      let x := code a in
      if x <? 0x80 then Some 1%nat else
      match r with
      | "" => None
      | String b r1 =>
          let y := code b in
          if between 0xC2 0xDF x then (if is_cont b then Some 2%nat else None) else
          match r1 with
          | "" => None
          | String c r2 =>
              if between 0xE0 0xEF x then
                let lo := if x =? 0xE0 then 0xA0 else 0x80 in
                let hi := if x =? 0xED then 0x9F else 0xBF in
                if between lo hi y && is_cont c then Some 3%nat else None
              else
              match r2 with
              | "" => None
              | String d _ =>
                  if between 0xF0 0xF4 x then
                    let lo := if x =? 0xF0 then 0x90 else 0x80 in
                    let hi := if x =? 0xF4 then 0x8F else 0xBF in
                    if between lo hi y && is_cont c && is_cont d then Some 4%nat else None
                  else None
              end
          end
      end
  end.

Fixpoint drop_bytes (n : nat) (s : string) : string :=
  match n, s with
  | S n', String _ r => drop_bytes n' r
  | _, _ => s
  end.
Fixpoint take_bytes (n : nat) (s : string) : string :=
  match n, s with
  | S n', String c r => String c (take_bytes n' r)
  | _, _ => ""
  end.

Fixpoint utf8_valid_fuel (fuel : nat) (s : string) : bool :=
  match s with
  | "" => true
  | _ =>
      match fuel, utf8_width s with
      | S fuel', Some n => utf8_valid_fuel fuel' (drop_bytes n s)
      | _, _ => false
      end
  end.
(** [utf8.ValidString]; one unit of fuel per rune, at most one rune per byte. *)
Definition utf8_valid (s : string) : bool := utf8_valid_fuel (String.length s) s.

Example utf8_ok : utf8_valid "协作 plan" = true. Proof. reflexivity. Qed.
Example utf8_bad : utf8_valid (String (chr 0xC3) "(") = false. Proof. reflexivity. Qed.

(** ** Runes *)

(** The code point of a valid UTF-8 encoding. *)
Definition rune_value (s : string) : Z :=
  match code <$> bytes s with
  | [a] => a
  | [a; b] => (a - 0xC0) * 64 + (b - 0x80)
  | [a; b; c] => (a - 0xE0) * 4096 + (b - 0x80) * 64 + (c - 0x80)
  | [a; b; c; d] => (a - 0xF0) * 262144 + (b - 0x80) * 4096 + (c - 0x80) * 64 + (d - 0x80)
  | _ => 0xFFFD
  end.
(** What [range] over a string yields; each rune takes a byte at least. *)
Fixpoint runes_from (fuel : nat) (s : string) : list Z :=
  match fuel, s with
  | O, _ | _, "" => []
  | S f, _ =>
      match utf8_width s with
      | Some n => rune_value (take_bytes n s) :: runes_from f (drop_bytes n s)
      | None => 0xFFFD :: runes_from f (drop_bytes 1 s)
      end
  end.
Definition runes (s : string) : list Z := runes_from (String.length s) s.
(** [unicode.IsControl] *)
Definition IsControl (r : Z) : bool := (r <? 0x20) || between 0x7F 0x9F r.
(** [unicode.Is(unicode.Cf, r)] *)
Definition IsFormat (r : Z) : bool :=
  existsb (fun x => between x.1 x.2 r)
    [(0xAD, 0xAD); (0x600, 0x605); (0x61C, 0x61C); (0x6DD, 0x6DD); (0x70F, 0x70F); (0x890, 0x891); (0x8E2, 0x8E2);
     (0x180E, 0x180E); (0x200B, 0x200F); (0x202A, 0x202E); (0x2060, 0x2064); (0x2066, 0x206F); (0xFEFF, 0xFEFF);
     (0xFFF9, 0xFFFB); (0x110BD, 0x110BD); (0x110CD, 0x110CD); (0x13430, 0x1343F); (0x1BCA0, 0x1BCA3);
     (0x1D173, 0x1D17A); (0xE0001, 0xE0001); (0xE0020, 0xE007F)].

(** [strings.Fields(s)[0]], the empty string when there is none. *)
Fixpoint until_space (s : string) : string :=
  match s with
  | "" => ""
  | String a r =>
      let more := String a (until_space r) in
      if space1 a then "" else
      match r with
      | "" => more
      | String b r' =>
          if space2 a b then "" else
          match r' with
          | "" => more
          | String c _ => if space3 a b c then "" else more
          end
      end
  end.
Definition first_field (s : string) : string := until_space (trim_left s).

(** [strings.Fields] *)
Fixpoint fields_fuel (fuel : nat) (s : string) : list string :=
  match fuel with
  | O => []
  | S f =>
      let t := trim_left s in
      match t with
      | "" => []
      | _ => let w := until_space t in w :: fields_fuel f (drop_bytes (String.length w) t)
      end
  end.
Definition Fields (s : string) : list string := fields_fuel (String.length s) s.
Example Fields_ex : Fields " ab  c	d " = ["ab"; "c"; "d"]. Proof. reflexivity. Qed.

(** [filepath.Clean] of an absolute path: [seen] are the elements kept, the last
    first. *)
Fixpoint split_slash (acc : string) (s : string) : list string :=
  match s with
  | "" => [acc]
  | String c r => if code c =? 47 then acc :: split_slash "" r else split_slash (acc +:+ String c "") r
  end.
Definition clean_step (seen : list string) (e : string) : list string :=
  if String.eqb e "" || String.eqb e "." then seen else if String.eqb e ".." then tail seen else e :: seen.
Definition clean_abs (s : string) : string := "/" +:+ join "/" (rev (foldl clean_step [] (split_slash "" s))).
Example clean_ex : clean_abs "/a//b/./../c/" = "/a/c" /\ clean_abs "/../" = "/". Proof. split; reflexivity. Qed.

(** ** Decimal printing ([fmt] verb [%d]) *)
Definition itoa (z : Z) : string := pretty z.
Example itoa_ex : itoa (-120) = "-120". Proof. reflexivity. Qed.

(** [strconv.ParseUint(s, 10, 64)] and [strconv.Atoi] *)
Fixpoint digits (acc : Z) (s : string) : option Z :=
  match s with
  | "" => Some acc
  | String c r => if between 48 57 (code c) then digits (10 * acc + (code c - 48)) r else None
  end.
Definition ParseUint (s : string) : option Z :=
  match s with
  | "" => None
  | _ => match digits 0 s with Some n => if n <? 2 ^ 64 then Some n else None | None => None end
  end.
Definition Atoi (s : string) : option Z :=
  let '(neg, t) := match s with
                   | String c r => if code c =? 45 then (true, r) else if code c =? 43 then (false, r) else (false, s)
                   | "" => (false, s)
                   end in
  match ParseUint t with
  | Some n => let v := if neg : bool then - n else n in if (- 2 ^ 63 <=? v) && (v <? 2 ^ 63) then Some v else None
  | None => None
  end.
Example Atoi_ex : Atoi "-120" = Some (-120) /\ Atoi "+" = None /\ Atoi "9223372036854775808" = None. Proof. repeat split. Qed.

(** ** Go times

    A [time.Time] in UTC is a number of nanoseconds since the Unix epoch.  This
    file holds its text in the layout [time.RFC3339Nano], which is also its JSON
    form. *)

Definition second_ns : Z := 1000000000.
Definition day_seconds : Z := 86400.

(** Year, month and day of a number of days since 1970-01-01: the year is counted
    from the first of March of year 0, in cycles of 400 years. *)
Definition civil (days : Z) : Z * Z * Z :=
  let z := days + 719468 in
  let cycle := z / 146097 in
  let n := z mod 146097 in
  let y := (n - n / 1460 + n / 36524 - n / 146096) / 365 in
  let of_year := n - (365 * y + y / 4 - y / 100) in
  let mp := (5 * of_year + 2) / 153 in
  let month := if mp <? 10 then mp + 3 else mp - 9 in
  (y + cycle * 400 + (if month <=? 2 then 1 else 0), month, of_year - (153 * mp + 2) / 5 + 1).

(** A number in at least [n] digits. *)
Definition zeros (n : nat) : string := concat_strings (replicate n "0").
Definition padded (n : nat) (z : Z) : string := zeros (n - String.length (itoa z)) +:+ itoa z.
Fixpoint drop_zeros (l : list ascii) : list ascii :=
  match l with c :: r => if code c =? 48 then drop_zeros r else l | [] => [] end.
(** Fraction of a second without trailing zeros. *)
Definition fraction (ns : Z) : string :=
  if ns =? 0 then "" else "." +:+ of_bytes (rev (drop_zeros (rev (bytes (padded 9 ns))))).

Definition year_of (t : Z) : Z := (civil (t / second_ns / day_seconds)).1.1.
Definition format_time (t : Z) : string :=
  let s := t / second_ns in
  let '(y, mo, d) := civil (s / day_seconds) in
  let r := s mod day_seconds in
  padded 4 y +:+ "-" +:+ padded 2 mo +:+ "-" +:+ padded 2 d +:+ "T" +:+ padded 2 (r / 3600) +:+ ":"
  +:+ padded 2 (r / 60 mod 60) +:+ ":" +:+ padded 2 (r mod 60) +:+ fraction (t mod second_ns) +:+ "Z".
(** [Time.MarshalJSON] refuses years that do not have four digits. *)
Definition marshals_time (t : Z) : bool := between 0 9999 (year_of t).

Example time_epoch : format_time 0 = "1970-01-01T00:00:00Z".
Proof. vm_compute. reflexivity. Qed.
Example time_leap : format_time (951782400 * second_ns + 50) = "2000-02-29T00:00:00.00000005Z".
Proof. vm_compute. reflexivity. Qed.
Example time_late : format_time (1767225599 * second_ns + 123000000) = "2025-12-31T23:59:59.123Z".
Proof. vm_compute. reflexivity. Qed.
