(* ===== verification/Sha256.v ===== *)
(** * SHA-256

    Go's [crypto/sha256.Sum256] (FIPS 180-4), used for payload hashes, error
    digests and admission tokens.  Words are [Z] kept below 2^32. *)
From S2P Require Import Prelude GoStrings.

Module Sha256.

Definition w32 (x : Z) : Z := Z.land x 0xFFFFFFFF.
Definition add32 (x y : Z) : Z := w32 (x + y).
Definition rotr (n x : Z) : Z := Z.lor (Z.shiftr x n) (w32 (Z.shiftl x (32 - n))).
Definition xor3 (a b c : Z) : Z := Z.lxor a (Z.lxor b c).
Definition not32 (x : Z) : Z := Z.lxor x 0xFFFFFFFF.

(** The constants of the standard: the first 32 bits of the fractional parts of
    the cube roots of the first 64 primes and of the square roots of the first 8. *)
Definition is_prime (n : nat) : bool := forallb (fun d => negb (Nat.eqb (Nat.modulo n d) 0)) (seq 2 (n - 2)).
Definition first_primes (k : nat) : list Z := Z.of_nat <$> take k (List.filter is_prime (seq 2 400)).
(** The largest [r] with [r ^ 3 <= n], one bit at a time. *)
Fixpoint cube_root (bits : nat) (r n : Z) : Z :=
  match bits with
  | O => r
  | S b => let r' := r + Z.shiftl 1 (Z.of_nat b) in cube_root b (if r' ^ 3 <=? n then r' else r) n
  end.
Definition K : list Z := Eval vm_compute in ((fun p => w32 (cube_root 36 0 (Z.shiftl p 96))) <$> first_primes 64).
Definition H0 : list Z := Eval vm_compute in ((fun p => w32 (Z.sqrt (Z.shiftl p 64))) <$> first_primes 8).

(** Message schedule, kept newest first: [w_{t-2}], [w_{t-7}], [w_{t-15}], [w_{t-16}]. *)
Fixpoint schedule (n : nat) (w : list Z) : list Z :=
  match n with
  | O => w
  | S n' =>
      let at_ k := nth k w 0 in
      let x := at_ 1%nat in let y := at_ 14%nat in
      let s1 := xor3 (rotr 17 x) (rotr 19 x) (Z.shiftr x 10) in
      let s0 := xor3 (rotr 7 y) (rotr 18 y) (Z.shiftr y 3) in
      schedule n' (w32 (s1 + at_ 6%nat + s0 + at_ 15%nat) :: w)
  end.

Definition round (st : list Z) (kw : Z * Z) : list Z :=
  match st with
  | [a; b; c; d; e; f; g; h] =>
      let s1 := xor3 (rotr 6 e) (rotr 11 e) (rotr 25 e) in
      let ch := Z.lxor (Z.land e f) (Z.land (not32 e) g) in
      let t1 := h + s1 + ch + kw.1 + kw.2 in
      let s0 := xor3 (rotr 2 a) (rotr 13 a) (rotr 22 a) in
      let maj := xor3 (Z.land a b) (Z.land a c) (Z.land b c) in
      [w32 (t1 + s0 + maj); a; b; c; add32 d t1; e; f; g]
  | _ => st
  end.

Definition compress (st block : list Z) : list Z :=
  zip_with add32 st (foldl round st (zip K (rev (schedule 48 (rev block))))).

Definition be_bytes (n : nat) (x : Z) : list Z :=
  (fun i => Z.land (Z.shiftr x (8 * Z.of_nat i)) 0xFF) <$> rev (seq 0 n).

Fixpoint words (l : list Z) : list Z :=
  match l with
  | a :: b :: c :: d :: r =>
      Z.lor (Z.shiftl a 24) (Z.lor (Z.shiftl b 16) (Z.lor (Z.shiftl c 8) d)) :: words r
  | _ => []
  end.

Definition pad (l : list Z) : list Z :=
  let n := Z.of_nat (length l) in
  l ++ [0x80] ++ replicate (Z.to_nat ((55 - n) mod 64)) 0 ++ be_bytes 8 (8 * n).

Fixpoint blocks (fuel : nat) (st l : list Z) : list Z :=
  match fuel, l with
  | S f, _ :: _ => blocks f (compress st (take 16 l)) (drop 16 l)
  | _, _ => st
  end.

(** [sha256.Sum256] *)
Definition Sum256 (s : string) : string :=
  let ws := words (pad (code <$> bytes s)) in
  of_bytes (chr <$> concat (be_bytes 4 <$> blocks (length ws) H0 ws)).

End Sha256.

(** [fmt.Sprintf("%x", sha256.Sum256(s))] *)
Definition sha256_hex (s : string) : string := hex_EncodeToString (Sha256.Sum256 s).

Example sha256_empty :
  sha256_hex "" = "e3b0c44298fc1c149afbf4c8996fb92427ae41e4649b934ca495991b7852b855".
Proof. vm_compute. reflexivity. Qed.
Example sha256_abc :
  sha256_hex "abcdbcdecdefdefgefghfghighijhijkijkljklmklmnlmnomnopnopq"
  = "248d6a61d20638b8e5c026930c3e6039a33ce45964ff2167f6ecedd419db06c1".
Proof. vm_compute. reflexivity. Qed.

Section digest_length.
Import Sha256.

Lemma round_length st kw : length (round st kw) = length st.
Proof. do 9 (destruct st as [|? st]; [done|]). done. Qed.

Lemma compress_length st block : length (compress st block) = length st.
Proof.
  unfold compress. rewrite length_zip_with.
  enough (forall l s0, length (foldl round s0 l) = length s0) as -> by lia.
  induction l as [|kw l IH]; intros s0; simpl; [done|]. by rewrite IH, round_length.
Qed.

Lemma blocks_length fuel st l : length (blocks fuel st l) = length st.
Proof.
  revert st l. induction fuel as [|f IH]; intros st l; simpl; [done|].
  destruct l; [done|]. by rewrite IH, compress_length.
Qed.

Lemma Sum256_length s : String.length (Sum256 s) = 32%nat.
Proof.
  unfold Sum256. rewrite <- bytes_length, bytes_of_bytes, length_fmap, length_concat.
  set (ws := words _).
  assert (Hb : forall l : list Z, sum_list (length <$> (be_bytes 4 <$> l)) = (4 * length l)%nat).
  { induction l as [|x l IH]; [done|]. rewrite !fmap_cons.
    change (sum_list (?x :: ?l)) with (x + sum_list l)%nat.
    rewrite IH. simpl. lia. }
  rewrite Hb, blocks_length. done.
Qed.
End digest_length.

#[global] Opaque Sha256.Sum256.

Lemma hex_digit_lower z : 0 <= z < 16 -> is_lower_hex (hex_digit z) = true.
Proof.
  intros H. unfold is_lower_hex, hex_digit, between.
  case_match eqn:E; bool_props; rewrite code_chr by lia; lia.
Qed.

Lemma hex_encode_lower s : str_forallb is_lower_hex (hex_EncodeToString s) = true.
Proof.
  unfold str_forallb. induction s as [|c s IH]; simpl; [done|].
  pose proof (code_bounds c).
  rewrite !hex_digit_lower, IH; [done| |].
  - apply Z.mod_pos_bound. lia.
  - split; [apply Z.div_pos; lia|apply Z.div_lt_upper_bound; lia].
Qed.

Lemma hex_encode_length s : String.length (hex_EncodeToString s) = (2 * String.length s)%nat.
Proof. induction s as [|c s IH]; simpl; [done|]. rewrite IH. lia. Qed.

Lemma sha256_hex_length s : len (sha256_hex s) = 64.
Proof. unfold len, sha256_hex. by rewrite hex_encode_length, Sum256_length. Qed.

Lemma sha256_hex_lower s : str_forallb is_lower_hex (sha256_hex s) = true.
Proof. apply hex_encode_lower. Qed.
