(* ===== verification/Json.v ===== *)
(** * JSON as the source uses it

    A model of what the source uses of Go's [encoding/json]: the text a value is
    marshalled to (with HTML escaping), validity, compaction and decoding of a
    raw message, and the paths SQLite's [json_extract] reads.

    A [json] tree stands for a Go value about to be marshalled: [JRaw] is a
    [json.RawMessage] field, whose text is embedded after compaction. *)
From S2P Require Import Prelude GoStrings.

Unset Elimination Schemes.
Inductive json : Type :=
| JNull
| JBool (b : bool)
| JNum (lit : string)
| JStr (s : string)
| JArr (l : list json)
| JObj (fields : list (string * json))
| JRaw (text : string).
Set Elimination Schemes.

(** ** Marshalling strings ([encodeState.string] with [escapeHTML]) *)

Definition hex4 (z : Z) : string :=
  String (hex_digit (z / 4096 mod 16)) (String (hex_digit (z / 256 mod 16))
    (String (hex_digit (z / 16 mod 16)) (String (hex_digit (z mod 16)) ""))).
Definition u_escape (z : Z) : string := "\u" +:+ hex4 z.

Definition quote_ascii (c : ascii) : string :=
  let z := code c in
  if z =? 34 then of_bytes [chr 92; chr 34] else if z =? 92 then "\\"
  else if z =? 8 then "\b" else if z =? 12 then "\f" else if z =? 10 then "\n"
  else if z =? 13 then "\r" else if z =? 9 then "\t"
  else if (z <? 32) || (z =? 60) || (z =? 62) || (z =? 38) then u_escape z
  else String c "".

Definition is_2028 (s : string) : option Z :=
  match s with
  | String a (String b (String c "")) =>
      if (code a =? 0xE2) && (code b =? 0x80) && ((code c =? 0xA8) || (code c =? 0xA9))
      then Some (0x2028 + (code c - 0xA8)) else None
  | _ => None
  end.

Fixpoint quote_body (fuel : nat) (s : string) : string :=
  match fuel, s with
  | S f, String c r =>
      if code c <? 0x80 then quote_ascii c +:+ quote_body f r
      else match utf8_width s with
           | None => "\ufffd" +:+ quote_body f r
           | Some n =>
               let rune := take_bytes n s in
               match is_2028 rune with
               | Some z => u_escape z
               | None => rune
               end +:+ quote_body f (drop_bytes n s)
           end
  | _, _ => ""
  end.
Definition dquote : string := String (chr 34) "".
Definition quote (s : string) : string := dquote +:+ quote_body (String.length s) s +:+ dquote.

(** ** Tokens of a raw message *)

Inductive token : Type :=
| TPunct (c : ascii)
| TStr (raw : string)
| TNum (lit : string)
| TWord (w : string).

Definition is_ws (c : ascii) : bool :=
  let z := code c in (z =? 32) || (z =? 9) || (z =? 10) || (z =? 13).
Definition is_digit (c : ascii) : bool := between 48 57 (code c).
Definition is_lower (c : ascii) : bool := between 97 122 (code c).
Definition is_upper (c : ascii) : bool := between 65 90 (code c).
Definition is_hex (c : ascii) : bool := match hex_value c with Some _ => true | None => false end.
Definition is_punct (c : ascii) : bool :=
  existsb (fun d => code c =? d) [123; 125; 91; 93; 58; 44].

(** The inside of a string literal, up to its closing quote, escapes kept. *)
Fixpoint lex_str (s : string) : option (string * string) :=
  match s with
  | "" => None
  | String c r =>
      if code c =? 34 then Some ("", r)
      else if code c =? 92 then
        match r with
        | String e r1 =>
            if existsb (fun d => code e =? d) [34; 92; 47; 98; 102; 110; 114; 116] then
              match lex_str r1 with
              | Some (w, rest) => Some (String c (String e w), rest)
              | None => None
              end
            else if code e =? 117 then
              match r1 with
              | String h1 (String h2 (String h3 (String h4 r2))) =>
                  if is_hex h1 && is_hex h2 && is_hex h3 && is_hex h4 then
                    match lex_str r2 with
                    | Some (w, rest) =>
                        Some (String c (String e (String h1 (String h2 (String h3 (String h4 w))))), rest)
                    | None => None
                    end
                  else None
              | _ => None
              end
            else None
        | "" => None
        end
      else if code c <? 32 then None
      else match lex_str r with
           | Some (w, rest) => Some (String c w, rest)
           | None => None
           end
  end.

Fixpoint span (p : ascii -> bool) (s : string) : string * string :=
  match s with
  | "" => ("", "")
  | String c r => if p c then let '(a, b) := span p r in (String c a, b) else ("", s)
  end.

Definition lex_num (s : string) : option (string * string) :=
  let '(sign, s1) := match s with
                     | String c r => if code c =? 45 then (String c "", r) else ("", s)
                     | "" => ("", "") end in
  let '(int, s2) := match s1 with
                    | String c r => if code c =? 48 then (String c "", r) else span is_digit s1
                    | "" => ("", "") end in
  if String.eqb int "" then None else
  let frac := match s2 with
              | String c r =>
                  if code c =? 46 then
                    let '(d, s3) := span is_digit r in
                    if String.eqb d "" then None else Some (String c d, s3)
                  else Some ("", s2)
              | "" => Some ("", "") end in
  match frac with
  | None => None
  | Some (fr, s3) =>
      match s3 with
      | String c r =>
          if (code c =? 101) || (code c =? 69) then
            let '(sg, r1) := match r with
                             | String d r' => if (code d =? 43) || (code d =? 45) then (String d "", r') else ("", r)
                             | "" => ("", "") end in
            let '(d, s4) := span is_digit r1 in
            if String.eqb d "" then None
            else Some (sign +:+ int +:+ fr +:+ String c "" +:+ sg +:+ d, s4)
          else Some (sign +:+ int +:+ fr, s3)
      | "" => Some (sign +:+ int +:+ fr, "")
      end
  end.

Definition is_alpha (c : ascii) : bool := between 97 122 (code c).

Fixpoint lex (fuel : nat) (s : string) : option (list token) :=
  match fuel, s with
  | _, "" => Some []
  | O, _ => None
  | S f, String c r =>
      if is_ws c then lex f r
      else if is_punct c then cons (TPunct c) <$> lex f r
      else if code c =? 34 then
        match lex_str r with
        | Some (w, rest) => cons (TStr w) <$> lex f rest
        | None => None
        end
      else if is_alpha c then
        let '(w, rest) := span is_alpha s in
        if existsb (String.eqb w) ["true"; "false"; "null"]
        then cons (TWord w) <$> lex f rest else None
      else match lex_num s with
           | Some (w, rest) => cons (TNum w) <$> lex f rest
           | None => None
           end
  end.
Definition tokens (s : string) : option (list token) := lex (String.length s) s.

(** ** Unquoting string literals *)

Definition hexval4 (a b c d : ascii) : Z :=
  let v x := match hex_value x with Some z => z | None => 0 end in
  4096 * v a + 256 * v b + 16 * v c + v d.

Definition encode_rune (z : Z) : string :=
  if z <? 0x80 then of_bytes [chr z]
  else if z <? 0x800 then of_bytes (chr <$> [0xC0 + z / 64; 0x80 + z mod 64])
  else if z <? 0x10000 then of_bytes (chr <$> [0xE0 + z / 4096; 0x80 + z / 64 mod 64; 0x80 + z mod 64])
  else of_bytes (chr <$> [0xF0 + z / 262144; 0x80 + z / 4096 mod 64; 0x80 + z / 64 mod 64; 0x80 + z mod 64]).
Definition rune_error : string := encode_rune 0xFFFD.

Definition unescape1 (e : ascii) : string :=
  let z := code e in
  of_bytes [chr (if z =? 98 then 8 else if z =? 102 then 12 else if z =? 110 then 10
                 else if z =? 114 then 13 else if z =? 116 then 9 else z)].

Fixpoint unquote_fuel (fuel : nat) (s : string) : string :=
  match fuel, s with
  | S f, String c r =>
      if code c =? 92 then
        match r with
        | String e r1 =>
            if code e =? 117 then
              match r1 with
              | String h1 (String h2 (String h3 (String h4 r2))) =>
                  let z := hexval4 h1 h2 h3 h4 in
                  if between 0xD800 0xDFFF z then
                    match r2 with
                    | String b (String u (String g1 (String g2 (String g3 (String g4 r3))))) =>
                        let y := hexval4 g1 g2 g3 g4 in
                        if (code b =? 92) && (code u =? 117) && between 0xD800 0xDBFF z && between 0xDC00 0xDFFF y
                        then encode_rune (0x10000 + (z - 0xD800) * 1024 + (y - 0xDC00)) +:+ unquote_fuel f r3
                        else rune_error +:+ unquote_fuel f r2
                    | _ => rune_error +:+ unquote_fuel f r2
                    end
                  else encode_rune z +:+ unquote_fuel f r2
              | _ => ""
              end
            else unescape1 e +:+ unquote_fuel f r1
        | "" => ""
        end
      else if code c <? 0x80 then String c (unquote_fuel f r)
      else match utf8_width s with
           | None => rune_error +:+ unquote_fuel f r
           | Some n => take_bytes n s +:+ unquote_fuel f (drop_bytes n s)
           end
  | _, _ => ""
  end.
Definition unquote (raw : string) : string := unquote_fuel (String.length raw) raw.

(** ** Parsing *)

Definition max_nesting_depth : Z := 10000.
Definition is_p (z : Z) (c : ascii) : bool := code c =? z.

(** [parse_value]: one value; [parse_elems] and [parse_members]: the rest of an
    array or object after its first element.  One unit of fuel per token. *)
Fixpoint parse_value (fuel : nat) (depth : Z) (ts : list token) {struct fuel} : option (json * list token) :=
  match fuel with
  | O => None
  | S f =>
      match ts with
      | TWord w :: r =>
          Some (if String.eqb w "null" then JNull else JBool (String.eqb w "true"), r)
      | TNum l :: r => Some (JNum l, r)
      | TStr raw :: r => Some (JStr (unquote raw), r)
      | TPunct c :: r =>
          if max_nesting_depth <? depth + 1 then None
          else if is_p 91 c then
            match r with
            | TPunct d :: r' =>
                if is_p 93 d then Some (JArr [], r') else parse_elems f (depth + 1) [] r
            | _ => parse_elems f (depth + 1) [] r
            end
          else if is_p 123 c then
            match r with
            | TPunct d :: r' =>
                if is_p 125 d then Some (JObj [], r') else None
            | _ => parse_members f (depth + 1) [] r
            end
          else None
      | [] => None
      end
  end
with parse_elems (fuel : nat) (depth : Z) (acc : list json) (ts : list token) {struct fuel} :=
  match fuel with
  | O => None
  | S f =>
      match parse_value f depth ts with
      | Some (v, TPunct c :: r) =>
          if is_p 93 c then Some (JArr (rev (v :: acc)), r)
          else if is_p 44 c then parse_elems f depth (v :: acc) r
          else None
      | _ => None
      end
  end
with parse_members (fuel : nat) (depth : Z) (acc : list (string * json)) (ts : list token) {struct fuel} :=
  match fuel with
  | O => None
  | S f =>
      match ts with
      | TStr raw :: TPunct c :: r =>
          if is_p 58 c then
            match parse_value f depth r with
            | Some (v, TPunct d :: r') =>
                if is_p 125 d then Some (JObj (rev ((unquote raw, v) :: acc)), r')
                else if is_p 44 d then parse_members f depth ((unquote raw, v) :: acc) r'
                else None
            | _ => None
            end
          else None
      | _ => None
      end
  end.

(** A whole document. *)
Definition parse (s : string) : option json :=
  match tokens s with
  | Some ts =>
      match parse_value (2 * length ts) 0 ts with
      | Some (v, []) => Some v
      | _ => None
      end
  | None => None
  end.
Definition json_Valid (s : string) : bool := match parse s with Some _ => true | None => false end.

(** ** Compaction

    [compact_body]: [in_str] inside a string literal, [esc] just after a
    backslash in it; [html] replaces [<], [>], [&] and U+2028/U+2029. *)
Fixpoint compact_body (html in_str esc : bool) (s : string) : string :=
  match s with
  | "" => ""
  | String c r =>
      let z := code c in
      if html && ((z =? 60) || (z =? 62) || (z =? 38)) then u_escape z +:+ compact_body html in_str false r
      else
        let ls := match r with
                  | String b (String d r2) =>
                      if html && (z =? 0xE2) && (code b =? 0x80) && ((code d =? 0xA8) || (code d =? 0xA9))
                      then Some (u_escape (0x2028 + (code d - 0xA8)) +:+ compact_body html in_str false r2)
                      else None
                  | _ => None
                  end in
        match ls with
        | Some t => t
        | None =>
            if in_str then
              String c (compact_body html (negb ((z =? 34) && negb esc)) ((z =? 92) && negb esc) r)
            else if is_ws c then compact_body html false false r
            else String c (compact_body html (z =? 34) false r)
        end
  end.
(** [json.Compact] *)
Definition json_Compact (s : string) : option string :=
  if json_Valid s then Some (compact_body false false false s) else None.
(** [json.Marshal] of a [json.RawMessage] *)
Definition marshal_raw (s : string) : option string :=
  if json_Valid s then Some (compact_body true false false s) else None.

(** ** Marshalling values *)
Fixpoint marshal (j : json) : string :=
  match j with
  | JNull => "null"
  | JBool b => if b then "true" else "false"
  | JNum l => l
  | JStr s => quote s
  | JArr l => "[" +:+ join "," (map marshal l) +:+ "]"
  | JObj fs => "{" +:+ join "," (map (fun '(k, v) => quote k +:+ ":" +:+ marshal v) fs) +:+ "}"
  | JRaw t => compact_body true false false t
  end.
Definition JInt (z : Z) : json := JNum (itoa z).

(** ** Reading values *)

(** Struct fields are matched up to case folding: besides ASCII, U+017F folds
    to [s] and U+212A to [k]. *)
Fixpoint fold_name (s : string) : string :=
  match s with
  | "" => ""
  | String a r =>
      let keep := String (if between 65 90 (code a) then chr (code a + 32) else a) (fold_name r) in
      match r with
      | String b r1 =>
          if (code a =? 0xC5) && (code b =? 0xBF) then String (chr 115) (fold_name r1)
          else match r1 with
               | String c r2 =>
                   if (code a =? 0xE2) && (code b =? 0x84) && (code c =? 0xAA)
                   then String (chr 107) (fold_name r2) else keep
               | "" => keep
               end
      | "" => keep
      end
  end.
Definition EqualFold (s t : string) : bool := String.eqb (fold_name s) (fold_name t).

(** [json.Unmarshal] into a struct with a [string] field [name]: the last
    matching key wins, [null] leaves the field as it was, any other type is an
    error ([None]). *)
Fixpoint string_field_from (name acc : string) (fs : list (string * json)) : option string :=
  match fs with
  | [] => Some acc
  | (k, v) :: r =>
      if EqualFold k name then
        match v with
        | JStr s => string_field_from name s r
        | JNull => string_field_from name acc r
        | _ => None
        end
      else string_field_from name acc r
  end.
Definition string_field (name : string) (j : json) : option string :=
  match j with
  | JObj fs => string_field_from name "" fs
  | JNull => Some ""
  | _ => None
  end.

(** A marshalled value read back: [JRaw] leaves are parsed on demand. *)
Definition force (j : json) : json :=
  match j with JRaw t => default JNull (parse t) | _ => j end.
Fixpoint first_key (k : string) (fs : list (string * json)) : option json :=
  match fs with
  | [] => None
  | (k', v) :: r => if String.eqb k k' then Some v else first_key k r
  end.
(** [json_extract(payload, '$.a.b')] where the result is a text. *)
Fixpoint extract (path : list string) (j : json) : option string :=
  match path with
  | [] => match force j with JStr s => Some s | _ => None end
  | k :: r =>
      match force j with
      | JObj fs => match first_key k fs with Some v => extract r v | None => None end
      | _ => None
      end
  end.

(** Writing JSON texts in this development: a backquote stands for a double quote. *)
Definition bq (s : string) : string :=
  of_bytes ((fun c => if code c =? 96 then chr 34 else c) <$> bytes s).

Example marshal_ex :
  marshal (JObj [("text", JStr "a<b"); ("n", JInt 7); ("raw", JRaw (bq " { `x` : [ 1 , true ] } "))])
  = bq "{`text`:`a\u003cb`,`n`:7,`raw`:{`x`:[1,true]}}".
Proof. vm_compute. reflexivity. Qed.
Example parse_ex :
  parse (bq "{`a`:[1.5e3,`x\u00e9\n`,null]}")
  = Some (JObj [("a", JArr [JNum "1.5e3"; JStr ("xé" +:+ of_bytes [chr 10]); JNull])]).
Proof. vm_compute. reflexivity. Qed.
Example valid_ex : json_Valid (bq "{`a`:01}") = false.
Proof. vm_compute. reflexivity. Qed.
