(* ===== verification/RoomTypes.v ===== *)
(** * Room domain types ([internal/room/types.go])

    The request, status and control enumerations, the command inputs with their
    validation, and the records the coordinator, the store and the agent
    exchange.  Go's string-typed enumerations are inductive types with one
    constructor per declared constant and an [..Other] constructor for the
    strings no constant names; [.._string] gives the text. *)
From S2P Require Import Prelude GoStrings Sha256 Json.

Abbreviation UID := Z (only parsing).
Abbreviation Seq := Z (only parsing).
Abbreviation RoomID := string (only parsing).
Abbreviation ClientMessageID := string (only parsing).
Abbreviation ThreadID := string (only parsing).
Abbreviation TurnID := string (only parsing).
Abbreviation ItemID := string (only parsing).
Abbreviation ConnectionID := string (only parsing).

(** ** Enumerations *)

Inductive RequestState :=
| RequestQueued | RequestDispatching | RequestRunning | RequestCompleted
| RequestFailed | RequestInterrupted | RequestNeedsReview
| RequestOther (raw : string).
#[export] Instance RequestState_eq_dec : EqDecision RequestState.
Proof. solve_decision. Defined.
Definition RequestState_string (s : RequestState) : string :=
  match s with
  | RequestQueued => "queued" | RequestDispatching => "dispatching" | RequestRunning => "running"
  | RequestCompleted => "completed" | RequestFailed => "failed" | RequestInterrupted => "interrupted"
  | RequestNeedsReview => "needs-review" | RequestOther raw => raw
  end.

Inductive RoomStatus := RoomReady | RoomRecovering | RoomThreadNeedsRepair | RoomStatusOther (raw : string).
#[export] Instance RoomStatus_eq_dec : EqDecision RoomStatus.
Proof. solve_decision. Defined.
Definition RoomStatus_string (s : RoomStatus) : string :=
  match s with
  | RoomReady => "ready" | RoomRecovering => "recovering"
  | RoomThreadNeedsRepair => "thread-needs-repair" | RoomStatusOther raw => raw
  end.

Inductive ControlKind := ControlSteer | ControlCancel | ControlOther (raw : string).
#[export] Instance ControlKind_eq_dec : EqDecision ControlKind.
Proof. solve_decision. Defined.

Inductive RecoveryAction := RecoveryRetry | RecoverySkip | RecoveryContinue | RecoveryOther (raw : string).
#[export] Instance RecoveryAction_eq_dec : EqDecision RecoveryAction.
Proof. solve_decision. Defined.
Definition RecoveryAction_string (a : RecoveryAction) : string :=
  match a with
  | RecoveryRetry => "retry" | RecoverySkip => "skip" | RecoveryContinue => "continue"
  | RecoveryOther raw => raw
  end.

Inductive RetryKind := RetryPrompt | RetrySteer | RetryCancel.
#[export] Instance RetryKind_eq_dec : EqDecision RetryKind.
Proof. solve_decision. Defined.

Inductive DeliveryCertainty := DeliveryNotSent | DeliveryUnknown.
#[export] Instance DeliveryCertainty_eq_dec : EqDecision DeliveryCertainty.
Proof. solve_decision. Defined.

Inductive RuntimeProcessState := RuntimeProcessRunning | RuntimeProcessStopped | RuntimeProcessOther (raw : string).
#[export] Instance RuntimeProcessState_eq_dec : EqDecision RuntimeProcessState.
Proof. solve_decision. Defined.

(** ** Errors

    [Sentinel] is a package-level [errors.New] variable, [ErrText] an error
    built in place, [ErrPrefix]/[ErrSuffix] a [fmt.Errorf] that wraps with [%w],
    [ErrMutation] a [*room.MutationError]. *)

Inductive sentinel :=
| ErrBlankMessage | ErrInvalidClientMessageID | ErrInvalidConnectionID | ErrExpectedTurnID
| ErrInvalidControlKind | ErrInvalidRecovery
| ErrStaleTurn | ErrAgentRuntimeClosed | ErrDeliveryNotSent | ErrDeliveryUnknown | ErrStaleRecovery
| ErrAlreadyInitialized | ErrConnectionNotFound | ErrCorruptStore | ErrIdempotencyConflict
| ErrInvalidInput | ErrInvalidState | ErrMemberNotFound | ErrMessageNotFound | ErrRoomNotFound
| ErrAdmission | ErrNoRows | ErrContextCanceled | ErrDeadlineExceeded.
#[export] Instance sentinel_eq_dec : EqDecision sentinel.
Proof. solve_decision. Defined.

Definition sentinel_text (s : sentinel) : string :=
  match s with
  | ErrBlankMessage => "message text is blank"
  | ErrInvalidClientMessageID => "client message id must be 32 lowercase hexadecimal characters"
  | ErrInvalidConnectionID => "connection id must be 32 lowercase hexadecimal characters"
  | ErrExpectedTurnID => "expected turn id is required"
  | ErrInvalidControlKind => "invalid control kind"
  | ErrInvalidRecovery => "invalid recovery input"
  | ErrStaleTurn => "expected turn is no longer active"
  | ErrAgentRuntimeClosed => "agent runtime event stream closed"
  | ErrDeliveryNotSent => "agent mutation was not sent"
  | ErrDeliveryUnknown => "agent mutation delivery is uncertain"
  | ErrStaleRecovery => "recovery target is no longer awaiting review"
  | ErrAlreadyInitialized => "store is already initialized"
  | ErrConnectionNotFound => "connection not found"
  | ErrCorruptStore => "corrupt store data"
  | ErrIdempotencyConflict => "idempotency key conflicts with stored command"
  | ErrInvalidInput => "invalid store input"
  | ErrInvalidState => "invalid state transition"
  | ErrMemberNotFound => "room member not found"
  | ErrMessageNotFound => "message not found"
  | ErrRoomNotFound => "room not found"
  | ErrAdmission => "admission unavailable or not approved"
  | ErrNoRows => "sql: no rows in result set"
  | ErrContextCanceled => "context canceled"
  | ErrDeadlineExceeded => "context deadline exceeded"
  end.

Inductive error :=
| Sentinel (s : sentinel)
| ErrText (text : string)
| ErrPrefix (prefix : string) (e : error)
| ErrSuffix (e : error) (suffix : string)
| ErrMutation (operation : string) (certainty : DeliveryCertainty) (e : error).
#[export] Instance error_eq_dec : EqDecision error.
Proof. solve_decision. Defined.

Fixpoint error_text (e : error) : string :=
  match e with
  | Sentinel s => sentinel_text s
  | ErrText t => t
  | ErrPrefix p e => p +:+ error_text e
  | ErrSuffix e s => error_text e +:+ s
  | ErrMutation op _ e => op +:+ ": " +:+ error_text e
  end.

(** [errors.Is(err, sentinel)] *)
Fixpoint errors_Is (e : error) (target : sentinel) : bool :=
  match e with
  | Sentinel s => bool_decide (s = target)
  | ErrText _ => false
  | ErrPrefix _ e | ErrSuffix e _ | ErrMutation _ _ e => errors_Is e target
  end.

(** [errors.As(err, *MutationError)]: the outermost one. *)
Fixpoint errors_As_mutation (e : error) : option (string * DeliveryCertainty * error) :=
  match e with
  | Sentinel _ | ErrText _ => None
  | ErrPrefix _ e | ErrSuffix e _ => errors_As_mutation e
  | ErrMutation op c e => Some (op, c, e)
  end.

(** ** Command inputs *)

Record Actor := { ac_UID : UID; ac_Name : string }.
#[export] Instance Actor_eq_dec : EqDecision Actor.
Proof. solve_decision. Defined.

Record SubmitInput := { si_TaskID : Z; si_ClientMessageID : ClientMessageID; si_Text : string }.
#[export] Instance SubmitInput_eq_dec : EqDecision SubmitInput.
Proof. solve_decision. Defined.

Record SteerInput :=
  { st_ClientMessageID : ClientMessageID; st_ExpectedTurnID : TurnID; st_Text : string }.
Record CancelInput := { ca_ClientMessageID : ClientMessageID; ca_ExpectedTurnID : TurnID }.
Record ControlInput :=
  { ci_ClientMessageID : ClientMessageID; ci_Kind : ControlKind; ci_ExpectedTurnID : TurnID; ci_Text : string }.
Record RecoverInput :=
  { ri_ClientMessageID : ClientMessageID; ri_TargetMessageID : ClientMessageID; ri_Action : RecoveryAction;
    ri_ReplacementMessageID : ClientMessageID; ri_Instruction : string }.

(** [validHexID] *)
Definition validHexID (id : string) : bool := (len id =? 32) && str_forallb is_lower_hex id.
Definition ValidClientMessageID (id : ClientMessageID) : bool := validHexID id.
Definition ValidConnectionID (id : ConnectionID) : bool := validHexID id.

Definition check (b : bool) (e : error) : result error unit := if b then Ok tt else Err e.

Definition SubmitInput_Validate (i : SubmitInput) : result error unit :=
  let? _ := check (negb (si_TaskID i <? 0)) (ErrText "invalid task id") in
  let? _ := check (ValidClientMessageID (si_ClientMessageID i)) (Sentinel ErrInvalidClientMessageID) in
  check (negb (blank (si_Text i))) (Sentinel ErrBlankMessage).

Definition SteerInput_Validate (i : SteerInput) : result error unit :=
  let? _ := check (ValidClientMessageID (st_ClientMessageID i)) (Sentinel ErrInvalidClientMessageID) in
  let? _ := check (negb (blank (st_ExpectedTurnID i))) (Sentinel ErrExpectedTurnID) in
  check (negb (blank (st_Text i))) (Sentinel ErrBlankMessage).

Definition CancelInput_Validate (i : CancelInput) : result error unit :=
  let? _ := check (ValidClientMessageID (ca_ClientMessageID i)) (Sentinel ErrInvalidClientMessageID) in
  check (negb (blank (ca_ExpectedTurnID i))) (Sentinel ErrExpectedTurnID).

Definition ControlInput_Validate (i : ControlInput) : result error unit :=
  let? _ := check (ValidClientMessageID (ci_ClientMessageID i)) (Sentinel ErrInvalidClientMessageID) in
  let? _ := check (negb (blank (ci_ExpectedTurnID i))) (Sentinel ErrExpectedTurnID) in
  match ci_Kind i with
  | ControlSteer => check (negb (blank (ci_Text i))) (Sentinel ErrBlankMessage)
  | ControlCancel => check (String.eqb (ci_Text i) "") (Sentinel ErrInvalidControlKind)
  | ControlOther _ => Err (Sentinel ErrInvalidControlKind)
  end.

Definition RecoverInput_Validate (i : RecoverInput) : result error unit :=
  let? _ := check (ValidClientMessageID (ri_ClientMessageID i) && ValidClientMessageID (ri_TargetMessageID i))
                  (Sentinel ErrInvalidClientMessageID) in
  match ri_Action i with
  | RecoveryRetry | RecoverySkip =>
      check (String.eqb (ri_ReplacementMessageID i) "" && String.eqb (ri_Instruction i) "")
            (Sentinel ErrInvalidRecovery)
  | RecoveryContinue =>
      let? _ := check (ValidClientMessageID (ri_ReplacementMessageID i)
                       && negb (String.eqb (ri_ReplacementMessageID i) (ri_ClientMessageID i))
                       && negb (String.eqb (ri_ReplacementMessageID i) (ri_TargetMessageID i)))
                      (Sentinel ErrInvalidRecovery) in
      check (negb (blank (ri_Instruction i))) (Sentinel ErrBlankMessage)
  | RecoveryOther _ => Err (Sentinel ErrInvalidRecovery)
  end.

(** ** Events and results *)

Record Member := { mb_UID : UID; mb_Name : string }.
#[export] Instance Member_eq_dec : EqDecision Member.
Proof. solve_decision. Defined.

(** The payload is kept as the value that was marshalled into the column. *)
Record DurableEvent :=
  { ev_Seq : Seq; ev_Kind : string; ev_ActorUID : UID; ev_Payload : json; ev_CreatedAt : Z }.

Record Acceptance :=
  { acc_MessageID : Z; acc_ClientMessageID : ClientMessageID; acc_Seq : Seq; acc_State : RequestState;
    acc_ErrorCode : string; acc_Duplicate : bool; acc_Event : DurableEvent }.

Record RetryCommand :=
  { rc_Kind : RetryKind; rc_ClientMessageID : ClientMessageID; rc_Actor : Actor;
    rc_ExpectedTurnID : TurnID; rc_Text : string }.
Record RecoveryResult :=
  { rr_Duplicate : bool; rr_Events : list DurableEvent; rr_Retry : option RetryCommand }.

Record TransientEvent :=
  { te_Revision : Z; te_Kind : string; te_ThreadID : ThreadID; te_TurnID : TurnID; te_ItemID : ItemID;
    te_Delta : string }.
#[export] Instance TransientEvent_eq_dec : EqDecision TransientEvent.
Proof. solve_decision. Defined.

(** [Payload] is the raw JSON text. *)
Record CompletedItem :=
  { it_ThreadID : ThreadID; it_TurnID : TurnID; it_ItemID : ItemID; it_Payload : string }.
#[export] Instance CompletedItem_eq_dec : EqDecision CompletedItem.
Proof. solve_decision. Defined.

Record TurnSnapshot := { ts_ID : TurnID; ts_State : RequestState; ts_Items : list CompletedItem }.
Record ThreadSnapshot := { th_ID : ThreadID; th_CWD : string; th_Turns : list TurnSnapshot }.
Record TurnBinding := { tb_MessageID : ClientMessageID; tb_TurnID : TurnID; tb_State : RequestState }.
#[export] Instance TurnBinding_eq_dec : EqDecision TurnBinding.
Proof. solve_decision. Defined.

Record QueuedMessage := { q_Input : SubmitInput; q_Actor : Actor; q_AcceptedSeq : Seq }.
#[export] Instance QueuedMessage_eq_dec : EqDecision QueuedMessage.
Proof. solve_decision. Defined.

Record RuntimeCheckpoint :=
  { cp_State : RuntimeProcessState; cp_Generation : string; cp_PID : Z; cp_PGID : Z;
    cp_ProcessStart : string; cp_CodexVersion : string; cp_SchemaSHA256 : string }.
(** The zero value of the struct. *)
Definition zero_checkpoint : RuntimeCheckpoint :=
  {| cp_State := RuntimeProcessOther ""; cp_Generation := ""; cp_PID := 0; cp_PGID := 0;
     cp_ProcessStart := ""; cp_CodexVersion := ""; cp_SchemaSHA256 := "" |}.

Record RecoveryImage :=
  { im_Status : RoomStatus; im_ThreadID : ThreadID; im_Active : option TurnBinding;
    im_PendingControls : list TurnBinding; im_Queue : list QueuedMessage; im_Checkpoint : RuntimeCheckpoint }.

Record FailureOutcome := { fo_State : RequestState; fo_ErrorCode : string; fo_ErrorDigest : string }.
Record ControlOutcome := { co_State : RequestState; co_ErrorCode : string; co_ErrorDigest : string }.
Record FinishTurnInput :=
  { ft_TurnID : TurnID; ft_State : RequestState; ft_ErrorCode : string; ft_ErrorDigest : string }.
Record ReviewReason := { rv_Code : string; rv_DetailDigest : string }.
Record RepairReason := { rp_Code : string; rp_DetailDigest : string }.

Record AgentEvent :=
  { ae_Kind : string; ae_ThreadID : ThreadID; ae_TurnID : TurnID; ae_ItemID : ItemID; ae_Delta : string;
    ae_Completed : option CompletedItem; ae_Error : option error }.

Record LiveItemSnapshot := { li_ThreadID : ThreadID; li_TurnID : TurnID; li_ItemID : ItemID; li_Partial : string }.
#[export] Instance LiveItemSnapshot_eq_dec : EqDecision LiveItemSnapshot.
Proof. solve_decision. Defined.

(** The connection record; [None] is a nil [DisconnectedAt], and a time of [0]
    is Go's zero time. *)
Record ConnectionRecord :=
  { cr_ID : ConnectionID; cr_RoomID : RoomID; cr_UID : UID; cr_ConnectedAt : Z;
    cr_DisconnectedAt : option Z; cr_LastAck : Seq }.
Definition ConnectionRecord_Validate (r : ConnectionRecord) : result error unit :=
  check (ValidConnectionID (cr_ID r)) (Sentinel ErrInvalidConnectionID).

(** ** Facts about validation *)

Lemma check_ok b e : check b e = Ok tt <-> b = true.
Proof. destruct b; simpl; split; congruence. Qed.

Lemma result_bind_ok {E A B} (r : result E A) (k : A -> result E B) b :
  result_bind r k = Ok b <-> exists a, r = Ok a /\ k a = Ok b.
Proof.
  destruct r; simpl; split.
  - intros H. by eexists.
  - by intros (? & [= <-] & ?).
  - done.
  - by intros (? & ? & _).
Qed.

Lemma SubmitInput_Validate_ok i :
  SubmitInput_Validate i = Ok tt <->
  0 <= si_TaskID i /\ ValidClientMessageID (si_ClientMessageID i) = true /\ blank (si_Text i) = false.
Proof.
  unfold SubmitInput_Validate, check.
  destruct (si_TaskID i <? 0) eqn:E1, (ValidClientMessageID _), (blank _); simpl; bool_props;
    split; try done; try (intros (?&?&?); done || lia); auto.
Qed.

Lemma RecoverInput_Validate_action i :
  RecoverInput_Validate i = Ok tt -> forall raw, ri_Action i <> RecoveryOther raw.
Proof.
  unfold RecoverInput_Validate. intros H raw E. rewrite E in H.
  destruct (check _ _); done.
Qed.
