(* ===== verification/Projection.v ===== *)
(** * Live projection ([internal/room/projection.go])

    The bounded in-memory picture of the running turn's partial output: deltas
    accumulate per item, a completed item suppresses its late deltas, and a byte
    budget of one MiB (charging six bytes per input byte) truncates it. *)
From S2P Require Import Prelude GoStrings RoomTypes.

Module Projection.

Definition LiveProjectionBudget : Z := Z.shiftl 1 20.
Definition LiveItemCost (thread turn item partial : string) : Z :=
  256 + 6 * (len thread + len turn + len item + len partial).

(** [uint64] arithmetic. *)
Definition u64 (x : Z) : Z := x mod 2 ^ 64.

Record ProjectedItem := { pi_Partial : string; pi_Completed : option CompletedItem }.
Definition zero_item : ProjectedItem := {| pi_Partial := ""; pi_Completed := None |}.

Record ProjectionUpdate := { pu_Transient : option TransientEvent; pu_Durable : option CompletedItem }.
Definition no_update : ProjectionUpdate := {| pu_Transient := None; pu_Durable := None |}.

(** Thread, turn and item. *)
Abbreviation projectionKey := (string * string * string)%type.

Record Projection := mkProjection
  { revision : Z; items : gmap projectionKey ProjectedItem; used : Z; truncated : bool }.

Definition NewProjection : Projection := mkProjection 0 ∅ 0 false.

(** [key_cost k partial] is what an item charges to the budget. *)
Definition key_cost (k : projectionKey) (partial : string) : Z :=
  LiveItemCost k.1.1 k.1.2 k.2 partial.

Definition transient (rev : Z) (kind thread turn item delta : string) : TransientEvent :=
  {| te_Revision := rev; te_Kind := kind; te_ThreadID := thread; te_TurnID := turn;
     te_ItemID := item; te_Delta := delta |}.

Definition Apply_delta (p : Projection) (e : AgentEvent) : Projection * ProjectionUpdate :=
  if truncated p then (p, no_update) else
  let key := (ae_ThreadID e, ae_TurnID e, ae_ItemID e) in
  let current := default zero_item (items p !! key) in
  let exists_ := match items p !! key with Some _ => true | None => false end in
  match pi_Completed current with
  | Some _ => (p, no_update)
  | None =>
      let cost := 6 * len (ae_Delta e) + (if exists_ then 0 else key_cost key "") in
      let rev := u64 (revision p + 1) in
      if LiveProjectionBudget - used p <? cost then
        (mkProjection rev (items p) (used p) true,
         {| pu_Transient := Some (transient rev "projection-truncated" (ae_ThreadID e) (ae_TurnID e) "" "");
            pu_Durable := None |})
      else
        (mkProjection rev
           (<[key := {| pi_Partial := pi_Partial current +:+ ae_Delta e; pi_Completed := None |}]> (items p))
           (used p + cost) false,
         {| pu_Transient := Some (transient rev (ae_Kind e) (ae_ThreadID e) (ae_TurnID e) (ae_ItemID e) (ae_Delta e));
            pu_Durable := None |})
  end.

(** The suppression entry kept for a completed item. *)
Definition completion_entry (k : projectionKey) : ProjectedItem :=
  {| pi_Partial := "";
     pi_Completed := Some {| it_ThreadID := k.1.1; it_TurnID := k.1.2; it_ItemID := k.2; it_Payload := "" |} |}.

Definition Apply_completed (p : Projection) (kind : string) (c : CompletedItem) : Projection * ProjectionUpdate :=
  let key := (it_ThreadID c, it_TurnID c, it_ItemID c) in
  let '(items1, used1) :=
    match items p !! key with
    | Some old => (delete key (items p), used p - key_cost key (pi_Partial old))
    | None => (items p, used p)
    end in
  let cost := key_cost key "" in
  let fits := negb (truncated p) && (cost <=? LiveProjectionBudget - used1) in
  let rev := u64 (revision p + 1) in
  let p' := if fits then mkProjection rev (<[key := completion_entry key]> items1) (used1 + cost) (truncated p)
            else mkProjection rev items1 used1 true in
  (p',
   {| pu_Durable := Some c;
      pu_Transient := Some
        (if truncated p' && negb (truncated p)
         then transient rev "projection-truncated" (it_ThreadID c) (it_TurnID c) "" ""
         else transient rev kind (it_ThreadID c) (it_TurnID c) (it_ItemID c) "") |}).

(** [Projection.Apply] *)
Definition Apply (p : Projection) (e : AgentEvent) : Projection * ProjectionUpdate :=
  if String.eqb (ae_Kind e) "item-delta" then Apply_delta p e
  else if String.eqb (ae_Kind e) "item-completed" then
    match ae_Completed e with
    | None => (p, no_update)
    | Some c => Apply_completed p (ae_Kind e) c
    end
  else (p, no_update).

(** ** Snapshot

    [sort.Slice] by thread, turn and item, bytewise. *)
Definition snap_ltb (a b : LiveItemSnapshot) : bool :=
  if negb (String.eqb (li_ThreadID a) (li_ThreadID b)) then str_ltb (li_ThreadID a) (li_ThreadID b)
  else if negb (String.eqb (li_TurnID a) (li_TurnID b)) then str_ltb (li_TurnID a) (li_TurnID b)
  else str_ltb (li_ItemID a) (li_ItemID b).
Definition snap_le (a b : LiveItemSnapshot) : Prop := snap_ltb b a = false.
#[export] Instance snap_le_dec : RelDecision snap_le.
Proof. intros a b. unfold snap_le. apply _. Defined.

Definition live_item (kv : projectionKey * ProjectedItem) : option LiveItemSnapshot :=
  let '((thread, turn, item), v) := kv in
  if String.eqb (pi_Partial v) "" then None
  else Some {| li_ThreadID := thread; li_TurnID := turn; li_ItemID := item; li_Partial := pi_Partial v |}.

(** The items the snapshot lists, before sorting. *)
Definition snapshot_items (p : Projection) : list LiveItemSnapshot :=
  merge_sort snap_le (omap live_item (map_to_list (items p))).
Definition Snapshot (p : Projection) : Z * list LiveItemSnapshot := (revision p, snapshot_items p).

(** ** Resets

    One [item-removed] event per listed item, each with a fresh revision. *)
Fixpoint removal_events (rev : Z) (l : list LiveItemSnapshot) : Z * list TransientEvent :=
  match l with
  | [] => (rev, [])
  | li :: r =>
      let rev1 := u64 (rev + 1) in
      let '(rev', evs) := removal_events rev1 r in
      (rev', transient rev1 "item-removed" (li_ThreadID li) (li_TurnID li) (li_ItemID li) "" :: evs)
  end.

Definition reset (p : Projection) : Projection * list TransientEvent :=
  let '(rev, evs) := removal_events (revision p) (snapshot_items p) in
  let '(rev, evs) := if truncated p
                     then (u64 (rev + 1), evs ++ [transient (u64 (rev + 1)) "projection-reset" "" "" "" ""])
                     else (rev, evs) in
  (mkProjection rev ∅ 0 false, evs).

Definition in_turn (thread turn : string) (k : projectionKey) : bool :=
  String.eqb k.1.1 thread && String.eqb k.1.2 turn.
Definition live_in_turn (thread turn : string) (li : LiveItemSnapshot) : bool :=
  String.eqb (li_ThreadID li) thread && String.eqb (li_TurnID li) turn.

(** What a set of entries charges. *)
Definition total_cost (m : gmap projectionKey ProjectedItem) : Z :=
  map_fold (fun k v acc => key_cost k (pi_Partial v) + acc) 0 m.

Definition removeTurn (p : Projection) (thread turn : string) : Projection * list TransientEvent :=
  let gone := filter (fun kv => in_turn thread turn kv.1 = true) (items p) in
  let '(rev, evs) := removal_events (revision p) (List.filter (live_in_turn thread turn) (snapshot_items p)) in
  let items' := filter (fun kv => in_turn thread turn kv.1 = false) (items p) in
  let '(rev, evs) := if truncated p
                     then (u64 (rev + 1), evs ++ [transient (u64 (rev + 1)) "projection-reset" thread turn "" ""])
                     else (rev, evs) in
  (mkProjection rev items' (used p - total_cost gone) false, evs).

(** ** Runs

    The coordinator owns the projection and only calls these operations. *)
Inductive op :=
| OpApply (e : AgentEvent)
| OpReset
| OpRemoveTurn (thread turn : string).
Definition step (p : Projection) (o : op) : Projection :=
  match o with
  | OpApply e => (Apply p e).1
  | OpReset => (reset p).1
  | OpRemoveTurn thread turn => (removeTurn p thread turn).1
  end.
Definition run (p : Projection) (os : list op) : Projection := foldl step p os.

(** ** Invariant *)

(** The charge is the cost of the entries kept, within the budget, and a
    suppression entry holds no text. *)
Record wf (p : Projection) : Prop := mk_wf
  { wf_used : used p = total_cost (items p);
    wf_budget : used p <= LiveProjectionBudget;
    wf_completed : forall k v c, items p !! k = Some v -> pi_Completed v = Some c ->
                     pi_Partial v = "" /\ k = (it_ThreadID c, it_TurnID c, it_ItemID c) }.

Lemma key_cost_pos k s : 256 <= key_cost k s.
Proof.
  unfold key_cost, LiveItemCost.
  pose proof (len_nonneg k.1.1). pose proof (len_nonneg k.1.2).
  pose proof (len_nonneg k.2). pose proof (len_nonneg s). lia.
Qed.

Lemma key_cost_app k s d : key_cost k (s +:+ d) = key_cost k s + 6 * len d.
Proof. unfold key_cost, LiveItemCost. rewrite len_app. lia. Qed.

Lemma total_cost_empty : total_cost ∅ = 0.
Proof. apply map_fold_empty. Qed.

Lemma total_cost_insert m k v :
  m !! k = None -> total_cost (<[k:=v]> m) = key_cost k (pi_Partial v) + total_cost m.
Proof. intros H. unfold total_cost. rewrite (map_fold_insert_L _ _ k v m); [done|intros; lia|done]. Qed.

Lemma total_cost_delete m k v :
  m !! k = Some v -> total_cost (delete k m) = total_cost m - key_cost k (pi_Partial v).
Proof.
  intros H. rewrite <- (insert_delete_id m k v H) at 2.
  rewrite total_cost_insert by apply lookup_delete_eq. lia.
Qed.

Lemma total_cost_overwrite m k v w :
  m !! k = Some v ->
  total_cost (<[k:=w]> m) = total_cost m - key_cost k (pi_Partial v) + key_cost k (pi_Partial w).
Proof.
  intros H. rewrite <- insert_delete_eq, total_cost_insert by apply lookup_delete_eq.
  rewrite (total_cost_delete _ _ _ H). lia.
Qed.

Lemma total_cost_nonneg m : 0 <= total_cost m.
Proof.
  induction m as [|k v m Hk IH] using map_ind; [by rewrite total_cost_empty|].
  rewrite total_cost_insert by done. pose proof (key_cost_pos k (pi_Partial v)). lia.
Qed.

Lemma total_cost_partition (P : projectionKey -> bool) m :
  total_cost m = total_cost (filter (fun kv => P kv.1 = true) m)
               + total_cost (filter (fun kv => P kv.1 = false) m).
Proof.
  induction m as [|k v m Hk IH] using map_ind.
  { by rewrite !map_filter_empty, total_cost_empty. }
  rewrite !map_filter_insert, total_cost_insert by done. simpl.
  rewrite !(delete_id m k) by done.
  destruct (P k); simpl; rewrite total_cost_insert, IH;
    (lia || (apply map_lookup_filter_None; auto)).
Qed.

Lemma NewProjection_wf : wf NewProjection.
Proof. split; simpl; [done|done|]. intros k v c H. by rewrite lookup_empty in H. Qed.

Lemma Apply_delta_wf p e : wf p -> wf (Apply_delta p e).1.
Proof.
  intros [Hu Hb Hc]. unfold Apply_delta.
  destruct (truncated p) eqn:Ht; [by split|].
  set (key := (ae_ThreadID e, ae_TurnID e, ae_ItemID e)).
  destruct (pi_Completed (default zero_item (items p !! key))) eqn:Hcur; [by split|].
  case_match eqn:Hcost; bool_props; simpl; [by split|].
  split; simpl.
  - destruct (items p !! key) as [v|] eqn:Hk; simpl in *.
    + rewrite (total_cost_overwrite _ _ _ _ Hk). simpl. rewrite key_cost_app. lia.
    + rewrite total_cost_insert by done. simpl.
      change ("" +:+ ae_Delta e) with ("" +:+ ae_Delta e).
      rewrite key_cost_app. lia.
  - lia.
  - intros k v c. rewrite lookup_insert. case_decide; [|apply Hc].
    by intros [= <-].
Qed.

Lemma Apply_completed_wf p kind c : wf p -> wf (Apply_completed p kind c).1.
Proof.
  intros [Hu Hb Hc]. unfold Apply_completed.
  set (key := (it_ThreadID c, it_TurnID c, it_ItemID c)).
  destruct (match items p !! key with Some _ => _ | None => _ end) as [items1 used1] eqn:H1.
  assert (Hclear : items1 !! key = None /\ used1 = total_cost items1 /\ used1 <= used p
                   /\ forall k v, items1 !! k = Some v -> items p !! k = Some v).
  { destruct (items p !! key) as [old|] eqn:Hk; injection H1 as <- <-.
    - pose proof (key_cost_pos key (pi_Partial old)).
      repeat split; [apply lookup_delete_eq|rewrite (total_cost_delete _ _ _ Hk); lia|lia|].
      intros k v. rewrite lookup_delete. by case_decide.
    - repeat split; auto; lia. }
  destruct Hclear as (Hn & Hu1 & Hle & Hsub). clear H1. simpl.
  destruct (negb _ && _) eqn:Hfit; bool_props; simpl.
  - split; simpl.
    + rewrite total_cost_insert by done. simpl. lia.
    + lia.
    + intros k v c'. rewrite lookup_insert. case_decide; [|eauto].
      intros [= <-] [= <-]. simpl. split; [done|]. subst k. done.
  - split; simpl; [done|lia|eauto].
Qed.

Lemma Apply_wf p e : wf p -> wf (Apply p e).1.
Proof.
  intros H. unfold Apply. repeat case_match; try done;
    [by apply Apply_delta_wf|by apply Apply_completed_wf].
Qed.

Lemma reset_wf p : wf (reset p).1.
Proof.
  unfold reset. destruct (removal_events _ _) as [rev evs].
  destruct (truncated p); simpl; (split; simpl; [by rewrite total_cost_empty|done|]);
    intros k v c H; by rewrite lookup_empty in H.
Qed.

Lemma removeTurn_wf p thread turn : wf p -> wf (removeTurn p thread turn).1.
Proof.
  intros [Hu Hb Hc]. unfold removeTurn.
  destruct (removal_events _ _) as [rev evs].
  pose proof (total_cost_partition (in_turn thread turn) (items p)) as Hp.
  pose proof (total_cost_nonneg (filter (fun kv => in_turn thread turn kv.1 = true) (items p))) as Hn.
  destruct (truncated p); simpl;
    (split; simpl; [lia|lia|intros k v c Hl; apply map_lookup_filter_Some in Hl as [Hl _]; eauto]).
Qed.

Lemma run_wf p os : wf p -> wf (run p os).
Proof.
  revert p. induction os as [|o os IH]; intros p H; simpl; [done|]. apply IH.
  destruct o; simpl; [by apply Apply_wf|apply reset_wf|by apply removeTurn_wf].
Qed.

(** ** Reading the snapshot *)

Definition li_key (li : LiveItemSnapshot) : projectionKey := (li_ThreadID li, li_TurnID li, li_ItemID li).

#[export] Instance snap_le_total : Total snap_le.
Proof.
  intros a b. unfold snap_le, snap_ltb.
  repeat match goal with
  | |- context [String.eqb ?x ?y] => destruct (String.eqb_spec x y); simpl
  end; try congruence; subst;
  match goal with
  | |- str_ltb ?x ?y = false \/ _ => destruct (str_ltb x y) eqn:E1; [right|by left];
      destruct (str_ltb y x) eqn:E2; [|done];
      pose proof (str_ltb_trans _ _ _ E1 E2) as E; by rewrite str_ltb_irrefl in E
  end.
Qed.

Lemma elem_of_snapshot p li :
  li ∈ snapshot_items p <->
  exists v, items p !! li_key li = Some v /\ pi_Partial v = li_Partial li /\ li_Partial li <> "".
Proof.
  unfold snapshot_items. rewrite merge_sort_Permutation, list_elem_of_omap.
  split.
  - intros ([[[t u] i] v] & Hin & Hl). apply elem_of_map_to_list in Hin. simpl in Hl.
    destruct (String.eqb_spec (pi_Partial v) ""); [done|]. injection Hl as <-. simpl. eauto.
  - intros (v & Hk & Hp & Hne). exists (li_key li, v). split; [by apply elem_of_map_to_list|].
    unfold li_key, live_item. rewrite Hp. destruct (String.eqb_spec (li_Partial li) ""); [done|].
    by destruct li.
Qed.

Lemma snapshot_keys_NoDup p : NoDup (li_key <$> snapshot_items p).
Proof.
  unfold snapshot_items. rewrite merge_sort_Permutation.
  pose proof (NoDup_fst_map_to_list (items p)) as Hn. revert Hn.
  induction (map_to_list (items p)) as [|[[[t u] i] v] l IH]; simpl; [constructor|].
  intros [Hni Hn]%NoDup_cons. specialize (IH Hn).
  destruct (String.eqb _ ""); [done|]. simpl. constructor; [|done].
  intros (li & E & (kv & Hin & Hl)%list_elem_of_omap)%list_elem_of_fmap.
  apply Hni, list_elem_of_fmap. exists kv. split; [|done].
  destruct kv as [[[t' u'] i'] v']. simpl in Hl. destruct (String.eqb _ ""); [done|].
  injection Hl as <-. done.
Qed.

(** Item [k] is settled: it lists no text, and no delta can change that. *)
Definition sealed (k : projectionKey) (p : Projection) : Prop :=
  (forall v, items p !! k = Some v -> pi_Partial v = "") /\
  (truncated p = true \/ exists v c, items p !! k = Some v /\ pi_Completed v = Some c).

Lemma Apply_delta_sealed k p e : sealed k p -> sealed k (Apply_delta p e).1.
Proof.
  intros [Hp Ht]. unfold Apply_delta. destruct (truncated p) eqn:Etr; [by split; auto|].
  destruct Ht as [?|(v & c & Hk & Hc)]; [done|].
  set (key := (ae_ThreadID e, ae_TurnID e, ae_ItemID e)).
  destruct (decide (key = k)) as [->|Hne]; [by rewrite Hk; simpl; rewrite Hc; split; eauto|].
  repeat case_match; split; simpl; eauto; rewrite lookup_insert_ne by done; eauto.
Qed.

Lemma Apply_completed_sealed k p kind c :
  sealed k p \/ (it_ThreadID c, it_TurnID c, it_ItemID c) = k -> sealed k (Apply_completed p kind c).1.
Proof.
  intros H. unfold Apply_completed.
  set (key := (it_ThreadID c, it_TurnID c, it_ItemID c)) in *.
  destruct (match items p !! key with Some _ => _ | None => _ end) as [items1 used1] eqn:H1.
  assert (Hi : items1 !! key = None /\ forall k', k' <> key -> items1 !! k' = items p !! k').
  { destruct (items p !! key) eqn:Hk; injection H1 as <- <-; [|done].
    split; [apply lookup_delete_eq|]. intros k' Hk'. by rewrite lookup_delete_ne. }
  destruct Hi as [Hn Hi]. clear H1. simpl.
  destruct (decide (k = key)) as [->|Hne].
  - destruct (negb _ && _); split; simpl; auto.
    + rewrite lookup_insert_eq. by intros v [= <-].
    + right. rewrite lookup_insert_eq. do 2 eexists. done.
    + by rewrite Hn.
  - destruct H as [[Hp Ht]|<-]; [|done].
    destruct (negb _ && _); split; simpl; auto;
      rewrite ?lookup_insert_ne, ?Hi by done; auto.
Qed.

Lemma Apply_sealed k p e : sealed k p -> sealed k (Apply p e).1.
Proof.
  intros H. unfold Apply. repeat case_match; try done;
    [by apply Apply_delta_sealed|by apply Apply_completed_sealed; left].
Qed.

Lemma foldl_Apply_sealed k p es :
  sealed k p -> sealed k (foldl (fun q e => (Apply q e).1) p es).
Proof.
  revert p. induction es as [|e es IH]; intros p H; simpl; [done|]. by apply IH, Apply_sealed.
Qed.

(** Revisions of removal events are consecutive. *)
Lemma removal_events_spec rev l :
  0 <= rev -> rev + Z.of_nat (length l) < 2 ^ 64 ->
  removal_events rev l =
    (rev + Z.of_nat (length l),
     imap (fun i li => transient (rev + 1 + Z.of_nat i) "item-removed"
                         (li_ThreadID li) (li_TurnID li) (li_ItemID li) "") l).
Proof.
  revert rev. induction l as [|li l IH]; intros rev H0 Hlt; simpl in *.
  { by rewrite Z.add_0_r. }
  unfold u64. rewrite Z.mod_small by lia. rewrite IH by lia.
  f_equal; [lia|]. f_equal; [by rewrite Z.add_0_r|].
  apply imap_ext. intros i x _. simpl. f_equal. lia.
Qed.

(** ** Properties *)

(** C40: the projection never exceeds its one MiB budget.  After any sequence of
    [Apply], [reset] and [removeTurn] calls on a fresh projection, the charge
    [used] is exactly the sum of the costs of the entries held and lies between 0
    and [LiveProjectionBudget], and a completed entry holds no partial text. *)
Theorem projection_budget_invariant os :
  let p := run NewProjection os in
  used p = total_cost (items p) /\ 0 <= used p <= LiveProjectionBudget /\
  (forall k v c, items p !! k = Some v -> pi_Completed v = Some c -> pi_Partial v = "").
Proof.
  intros p. destruct (run_wf NewProjection os NewProjection_wf) as [Hu Hb Hc].
  fold p in Hu, Hb, Hc. split_and!; [done| |done|].
  - rewrite Hu. apply total_cost_nonneg.
  - intros k v c H1 H2. by destruct (Hc k v c H1 H2).
Qed.

(** Delayed deltas cannot resurrect a completed item.  Once [Apply] has
    processed an [item-completed] event for an item, no sequence of further
    [Apply] calls makes the snapshot list that item again. *)
Theorem projection_completed_not_resurrected p e c es li :
  ae_Kind e = "item-completed" -> ae_Completed e = Some c ->
  li ∈ snapshot_items (foldl (fun q e => (Apply q e).1) p (e :: es)) ->
  li_key li <> (it_ThreadID c, it_TurnID c, it_ItemID c).
Proof.
  intros Hk Hc Hin Heq. apply elem_of_snapshot in Hin as (v & Hv & Hp & Hne).
  assert (Hs : sealed (li_key li) (Apply p e).1).
  { unfold Apply. rewrite Hk. simpl. rewrite Hc. apply Apply_completed_sealed. by right. }
  apply (foldl_Apply_sealed _ _ es) in Hs as [Hs _]. simpl in Hv.
  apply Hs in Hv. congruence.
Qed.

Definition demo_event (kind item delta : string) (c : option CompletedItem) : AgentEvent :=
  {| ae_Kind := kind; ae_ThreadID := "th"; ae_TurnID := "t"; ae_ItemID := item; ae_Delta := delta; ae_Completed := c;
     ae_Error := None |}.
Definition demo_item : CompletedItem := {| it_ThreadID := "th"; it_TurnID := "t"; it_ItemID := "i"; it_Payload := "{}" |}.
Definition demo_events : list AgentEvent :=
  [demo_event "item-completed" "i" "" (Some demo_item); demo_event "item-delta" "i" "late" None;
   demo_event "item-delta" "j" "other" None].
Definition demo_live : LiveItemSnapshot := {| li_ThreadID := "th"; li_TurnID := "t"; li_ItemID := "j"; li_Partial := "other" |}.

Lemma projection_completed_not_resurrected_witness :
  snapshot_items (foldl (fun q e => (Apply q e).1) NewProjection demo_events) = [demo_live] /\
  li_key demo_live <> ("th", "t", "i").
Proof.
  split; [reflexivity|].
  apply (projection_completed_not_resurrected NewProjection (demo_event "item-completed" "i" "" (Some demo_item)) demo_item
           (tail demo_events) demo_live); [reflexivity|reflexivity|].
  change (demo_live ∈ [demo_live]). left.
Defined.

(** [Snapshot] lists exactly the items with text.  The list is sorted by
    thread, turn and item, has no item twice, and contains an item with its text
    iff the projection holds a nonempty partial text for it. *)
Theorem projection_snapshot_spec p :
  (Snapshot p).1 = revision p /\
  Sorted snap_le (Snapshot p).2 /\ NoDup (li_key <$> (Snapshot p).2) /\
  (forall li, li ∈ (Snapshot p).2 <->
     exists v, items p !! li_key li = Some v /\ pi_Partial v = li_Partial li /\ li_Partial li <> "").
Proof.
  split_and!; [done| |apply snapshot_keys_NoDup|apply elem_of_snapshot].
  apply Sorted_merge_sort. apply _.
Qed.

(** [removeTurn] forgets one turn and nothing else.  Afterwards no entry of
    the turn is left, every other entry is unchanged, truncation is lifted, and
    (short of 2^64 revisions) one [item-removed] event per listed item of the turn
    is returned, in snapshot order and with consecutive revisions, followed by a
    [projection-reset] when the projection was truncated. *)
Theorem projection_removeTurn_spec p thread turn :
  let gone := List.filter (live_in_turn thread turn) (snapshot_items p) in
  0 <= revision p -> revision p + Z.of_nat (length gone) + 1 < 2 ^ 64 ->
  let '(p', evs) := removeTurn p thread turn in
  (forall k, items p' !! k = if in_turn thread turn k then None else items p !! k) /\
  truncated p' = false /\ revision p' = revision p + Z.of_nat (length evs) /\
  evs = imap (fun i li => transient (revision p + 1 + Z.of_nat i) "item-removed"
                            (li_ThreadID li) (li_TurnID li) (li_ItemID li) "") gone
        ++ (if truncated p
            then [transient (revision p + Z.of_nat (length gone) + 1) "projection-reset" thread turn "" ""]
            else []).
Proof.
  intros gone H0 Hlt. unfold removeTurn. fold gone.
  rewrite removal_events_spec by lia.
  assert (Hitems : forall k, filter (fun kv => in_turn thread turn kv.1 = false) (items p) !! k
                   = if in_turn thread turn k then None else items p !! k).
  { intros k. destruct (in_turn thread turn k) eqn:E.
    - apply map_lookup_filter_None. right. intros v _. simpl. congruence.
    - destruct (items p !! k) as [v|] eqn:Hk; [|apply map_lookup_filter_None; by left].
      by apply map_lookup_filter_Some. }
  destruct (truncated p); simpl; split_and!; auto.
  - unfold u64. rewrite Z.mod_small by lia. rewrite length_app, length_imap. simpl. lia.
  - f_equal. unfold u64. by rewrite Z.mod_small by lia.
  - by rewrite length_imap.
  - by rewrite app_nil_r.
Qed.

Lemma projection_removeTurn_spec_witness :
  let p := (Apply NewProjection (demo_event "item-delta" "j" "other" None)).1 in
  (removeTurn p "th" "t").2 = [transient 2 "item-removed" "th" "t" "j" ""].
Proof.
  intros p. pose proof (projection_removeTurn_spec p "th" "t") as H. cbv zeta in H.
  destruct (removeTurn p "th" "t") as [p' evs] eqn:E. destruct H as (_ & _ & _ & H); [vm_compute; congruence|reflexivity|].
  simpl. rewrite H. reflexivity.
Defined.

End Projection.
