(* ===== verification/Ports.v ===== *)
(** * Ports ([internal/room/ports.go], [questions.go], [workgroup.go])

    The interfaces the coordinator is written against, as type classes over the
    state of the implementation: the durable repository, with its optional
    private-turn journal, and the agent, with the optional interfaces the
    coordinator looks for at run time.  Every method takes the state and returns
    the new state with its result.  The store is an instance ([CoordinatorStore.v]); the
    agent stays abstract. *)
From S2P Require Import Prelude GoStrings Json RoomTypes.

(** [PrivateTurnJournal] *)
Record PrivateTurnJournal (R : Type) : Type :=
  { jn_BeginPrivateTurn : RoomID -> ThreadID -> list TurnID -> R -> R * result error unit;
    jn_EndPrivateTurn : RoomID -> ThreadID -> list TurnID -> R -> R * result error unit;
    jn_PrivateTurns : RoomID -> ThreadID -> list TurnSnapshot -> R -> R * result error (list TurnID) }.
Arguments jn_BeginPrivateTurn {R} _ _ _ _.
Arguments jn_EndPrivateTurn {R} _ _ _ _.
Arguments jn_PrivateTurns {R} _ _ _ _.

(** [Repository], less the methods the coordinator never calls. *)
Class Repository (R : Type) : Type :=
  { rp_LoadRecoveryImage : RoomID -> R -> R * result error RecoveryImage;
    rp_AcceptMessage : RoomID -> Actor -> SubmitInput -> R -> R * result error Acceptance;
    rp_AppendNote : RoomID -> Actor -> SubmitInput -> R -> R * result error Acceptance;
    rp_AcceptControl : RoomID -> Actor -> ControlInput -> R -> R * result error Acceptance;
    rp_FinishControl : RoomID -> ClientMessageID -> ControlOutcome -> R -> R * result error DurableEvent;
    rp_BeginDispatch : RoomID -> ClientMessageID -> R -> R * result error unit;
    rp_FailDispatch : RoomID -> ClientMessageID -> FailureOutcome -> R -> R * result error DurableEvent;
    rp_BindRunningTurn : RoomID -> ClientMessageID -> TurnID -> R -> R * result error DurableEvent;
    rp_RecordCompletedItem : RoomID -> CompletedItem -> R -> R * result error DurableEvent;
    rp_FinishTurn : RoomID -> FinishTurnInput -> R -> R * result error (list DurableEvent);
    rp_MarkNeedsReview : RoomID -> ClientMessageID -> ReviewReason -> R -> R * result error DurableEvent;
    rp_ResolveReview : RoomID -> Actor -> RecoverInput -> R -> R * result error RecoveryResult;
    rp_BindThread : RoomID -> ThreadSnapshot -> R -> R * result error DurableEvent;
    rp_MarkThreadNeedsRepair : RoomID -> RepairReason -> R -> R * result error DurableEvent;
    rp_SetRoomStatus : RoomID -> RoomStatus -> R -> R * result error (option DurableEvent);
    rp_LatestSeq : RoomID -> R -> R * result error Seq;
    rp_journal : option (PrivateTurnJournal R) }.

(** [AgentMember] *)
Record AgentMember :=
  { am_ID : string; am_Name : string; am_Provider : string; am_Description : string; am_Status : string }.

(** [Agent] with the optional interfaces as optional methods: [StartTurnFor]
    receives the assigned input of [AssignmentContext] as an argument. *)
Class Agent (A : Type) : Type :=
  { ag_StartThread : A -> A * result error ThreadSnapshot;
    ag_ReadThread : ThreadID -> A -> A * result error ThreadSnapshot;
    ag_ResumeThread : ThreadID -> A -> A * result error ThreadSnapshot;
    ag_StartTurn : SubmitInput -> ThreadID -> ClientMessageID -> string -> A -> A * result error TurnID;
    ag_SteerTurn : ThreadID -> TurnID -> string -> A -> A * result error unit;
    ag_InterruptTurn : ThreadID -> TurnID -> A -> A * result error unit;
    ag_StartTurnFor : option (SubmitInput -> ThreadID -> ClientMessageID -> Actor -> string -> A -> A * result error TurnID);
    ag_ValidateSubmission : option (SubmitInput -> A -> result error unit);
    ag_AgentMembers : option (A -> list AgentMember);
    ag_StartReadOnlyTurn : option (ThreadID -> ClientMessageID -> string -> A -> A * result error TurnID) }.

(** ** What the coordinator relies on

    The contract of the repository as the coordinator sees it, stated on an
    abstract view of a room: the prompts that were dispatched and have no
    outcome, the control commands without an outcome, the queued prompts in
    acceptance order, and every client id ever accepted.  A call that returns an
    error leaves the view as it was.  [CoordinatorStore.v] proves that the store
    keeps this contract; [CoordinatorSafety.v] uses nothing else. *)

Record RoomView := mkView
  { v_acts : list (ClientMessageID * Seq);
    v_ctrls : list ClientMessageID;
    v_queue : list (ClientMessageID * Seq);
    v_known : list ClientMessageID }.

Definition without (cid : ClientMessageID) (l : list (ClientMessageID * Seq)) : list (ClientMessageID * Seq) :=
  List.filter (fun p => negb (String.eqb p.1 cid)) l.
Definition without_id (cid : ClientMessageID) (l : list ClientMessageID) : list ClientMessageID :=
  List.filter (fun x => negb (String.eqb x cid)) l.
Definition queued_entry (q : QueuedMessage) : ClientMessageID * Seq := (si_ClientMessageID (q_Input q), q_AcceptedSeq q).

(** The image a view loads. *)
Record image_of (v : RoomView) (i : RecoveryImage) : Prop :=
  { io_active : match im_Active i with
                | Some b => exists s, (tb_MessageID b, s) ∈ v_acts v
                | None => v_acts v = []
                end;
    io_controls : tb_MessageID <$> im_PendingControls i = v_ctrls v;
    io_queue : queued_entry <$> im_Queue i = v_queue v }.

(** ** Transitions of the view *)

Definition stays {X} (v v' : RoomView) (_ : X) : Prop := v' = v.

Definition accepts_prompt (cid : ClientMessageID) (v v' : RoomView) (a : Acceptance) : Prop :=
  if acc_Duplicate a then v' = v
  else ((cid ∉ v_known v) /\
        v' = mkView (v_acts v) (v_ctrls v) (v_queue v ++ [(cid, acc_Seq a)]) (v_known v ++ [cid])).
Definition accepts_note (cid : ClientMessageID) (v v' : RoomView) (a : Acceptance) : Prop :=
  if acc_Duplicate a then v' = v
  else v' = mkView (v_acts v) (v_ctrls v) (v_queue v) (v_known v ++ [cid]).
Definition accepts_control (cid : ClientMessageID) (v v' : RoomView) (a : Acceptance) : Prop :=
  acc_ClientMessageID a = cid /\
  (if acc_Duplicate a then v' = v
   else (cid ∉ v_known v) /\
        v' = mkView (v_acts v) (v_ctrls v ++ [cid]) (v_queue v) (v_known v ++ [cid])).
Definition finishes_control (cid : ClientMessageID) (o : ControlOutcome) (v v' : RoomView) (_ : DurableEvent) : Prop :=
  v' = if bool_decide (co_State o = RequestNeedsReview) then v
       else mkView (v_acts v) (without_id cid (v_ctrls v)) (v_queue v) (v_known v).
Definition dispatches (cid : ClientMessageID) (v v' : RoomView) (_ : unit) : Prop :=
  exists s, (cid, s) ∈ v_queue v /\ v_acts v' ≡ₚ (cid, s) :: v_acts v /\
            v_ctrls v' = v_ctrls v /\ v_queue v' = without cid (v_queue v) /\ v_known v' = v_known v.
Definition undispatches (cid : ClientMessageID) (o : FailureOutcome) (v v' : RoomView) (_ : DurableEvent) : Prop :=
  fo_State o = RequestFailed -> v' = mkView (without cid (v_acts v)) (v_ctrls v) (v_queue v) (v_known v).
Definition finishes_turn (i : FinishTurnInput) (v v' : RoomView) (_ : list DurableEvent) : Prop :=
  ft_TurnID i <> "" /\
  exists cid s, (cid, s) ∈ v_acts v /\ v' = mkView (without cid (v_acts v)) (v_ctrls v) (v_queue v) (v_known v).

(** A review decision moves its target: a prompt leaves the dispatched ones, a
    control is retried in place or settled. *)
Definition resolves (t : ClientMessageID) (v v' : RoomView) (r : RecoveryResult) : Prop :=
  if rr_Duplicate r then v' = v
  else ((forall x, x ∈ v_known v -> x ∈ v_known v') /\
        ((exists s, (t, s) ∈ v_acts v) /\ v_acts v' = without t (v_acts v) /\ v_ctrls v' = v_ctrls v \/
         t ∈ v_ctrls v /\ v_acts v' = v_acts v /\
         (v_ctrls v' = v_ctrls v /\ v_queue v' = v_queue v \/ v_ctrls v' = without_id t (v_ctrls v)))).

(** ** The contract *)

Section spec.
Context {R : Type} (good : R -> Prop) (view : R -> RoomView).

(** From a good state the call leaves a good state; success moves the view as
    [Q] says, an error does not move it. *)
Definition Spec {X} (op : R -> R * result error X) (Q : RoomView -> RoomView -> X -> Prop) : Prop :=
  forall r, good r -> good (op r).1 /\
    match (op r).2 with Ok x => Q (view r) (view (op r).1) x | Err _ => view (op r).1 = view r end.
End spec.

Class RepositoryLaws (R : Type) `{!Repository R} (rid : RoomID) : Type :=
  { good : R -> Prop;
    view : R -> RoomView;
    good_sorted r : good r -> StronglySorted (key_lt snd) (v_queue (view r));
    good_unique r : good r -> NoDup (v_queue (view r)).*1;
    good_controls r : good r -> forall x, x ∈ v_ctrls (view r) -> x ∈ v_known (view r);
    law_load : Spec good view (rp_LoadRecoveryImage rid) (fun v v' i => v' = v /\ image_of v i);
    law_accept actor i : Spec good view (rp_AcceptMessage rid actor i) (accepts_prompt (si_ClientMessageID i));
    law_note actor i : Spec good view (rp_AppendNote rid actor i) (accepts_note (si_ClientMessageID i));
    law_control actor i : Spec good view (rp_AcceptControl rid actor i) (accepts_control (ci_ClientMessageID i));
    law_finish_control cid o : Spec good view (rp_FinishControl rid cid o) (finishes_control cid o);
    law_dispatch cid : Spec good view (rp_BeginDispatch rid cid) (dispatches cid);
    law_fail cid o : Spec good view (rp_FailDispatch rid cid o) (undispatches cid o);
    law_bind cid t : Spec good view (rp_BindRunningTurn rid cid t) stays;
    law_item i : Spec good view (rp_RecordCompletedItem rid i) stays;
    law_finish_turn i : Spec good view (rp_FinishTurn rid i) (finishes_turn i);
    law_review cid rs : Spec good view (rp_MarkNeedsReview rid cid rs) stays;
    law_resolve actor i : Spec good view (rp_ResolveReview rid actor i) (resolves (ri_TargetMessageID i));
    law_bind_thread t : Spec good view (rp_BindThread rid t) stays;
    law_repair rs : Spec good view (rp_MarkThreadNeedsRepair rid rs) stays;
    law_status st : Spec good view (rp_SetRoomStatus rid st) stays;
    law_latest : Spec good view (rp_LatestSeq rid) stays;
    law_private_begin j th l : rp_journal = Some j -> Spec good view (jn_BeginPrivateTurn j rid th l) stays;
    law_private_end j th l : rp_journal = Some j -> Spec good view (jn_EndPrivateTurn j rid th l) stays;
    law_private_turns j th l : rp_journal = Some j -> Spec good view (jn_PrivateTurns j rid th l) stays }.
