(* ===== verification/CoordinatorSafety.v ===== *)
(** * Safety of the coordinator

    Against the repository contract of [Ports.v], any agent and any sequence of
    commands and agent events: a turn is started only for the oldest queued
    prompt, while no other dispatched prompt and no control command of the room
    is without an outcome. *)
From S2P Require Import Prelude GoStrings Sha256 Json RoomTypes Projection Ports Coordinator.
Import Projection.

(** ** Triples *)

Section triples.
Context {R A : Type} `{!Repository R} `{!Agent A} (rid : RoomID) `{!RepositoryLaws R rid}.
Local Abbreviation M := (@M R A).

(** The view when a turn is started: the message is the only dispatched prompt,
    no control is pending, and every queued prompt was accepted later. *)
Definition start_ok (cid : ClientMessageID) (v : RoomView) : Prop :=
  exists s, v_acts v = [(cid, s)] /\ v_ctrls v = [] /\ Forall (fun q => s < q.2) (v_queue v).
Definition action_ok (e : action * R) : Prop :=
  match e.1 with CallStartTurn _ cid _ => start_ok cid (view e.2) | _ => True end.

Definition holds (P : Coordinator -> RoomView -> Prop) (w : World R A) : Prop :=
  good (w_repo w) /\ Forall action_ok (w_trace w) /\ roomID (w_coord w) = rid /\ P (w_coord w) (view (w_repo w)).
Definition triple {B} (P : Coordinator -> RoomView -> Prop) (m : M B) (Q : B -> Coordinator -> RoomView -> Prop) : Prop :=
  forall w, holds P w -> holds (Q (m w).2) (m w).1.

Lemma t_ret {B} (x : B) (P : B -> Coordinator -> RoomView -> Prop) : triple (P x) (mret x) P.
Proof. by intros w H. Qed.
Lemma t_skip {B} (x : B) P : triple P (mret x) (fun _ => P).
Proof. apply (t_ret x (fun _ => P)). Qed.
Lemma t_bind {B C} (m : M B) (k : B -> M C) P Q S :
  triple P m Q -> (forall x, triple (Q x) (k x) S) -> triple P (m ≫= k) S.
Proof.
  intros Hm Hk w H. unfold mbind, Proc_bind. specialize (Hm w H). destruct (m w) as [w' x]. by apply Hk.
Qed.
(** The value of the first step does not matter to the assertion. *)
Lemma t_seq {B C} (m : M B) (k : B -> M C) P Q S :
  triple P m (fun _ => Q) -> (forall x, triple Q (k x) S) -> triple P (m ≫= k) S.
Proof. apply (t_bind m k P (fun _ => Q)). Qed.
Lemma t_try {B C} (m : M (result error B)) (k : B -> M (result error C)) P Q S :
  triple P m Q -> (forall x, triple (Q (Ok x)) (k x) S) -> (forall e c v, Q (Err e) c v -> S (Err e) c v) ->
  triple P (try_bind m k) S.
Proof.
  intros Hm Hk He w H. unfold try_bind. specialize (Hm w H). destruct (m w) as [w' [x|e]]; simpl in *.
  - by apply Hk.
  - destruct Hm as (G & T & E & HQ). split_and!; auto.
Qed.
Lemma t_conseq {B} (m : M B) (P P' : Coordinator -> RoomView -> Prop) (Q Q' : B -> Coordinator -> RoomView -> Prop) :
  triple P' m Q' -> (forall c v, P c v -> P' c v) -> (forall x c v, Q' x c v -> Q x c v) -> triple P m Q.
Proof.
  intros H HP HQ w (G & T & E & Hw). destruct (H w) as (G' & T' & E' & Hw'); [by split_and!; auto|].
  split_and!; auto.
Qed.
Lemma t_pre {B} (m : M B) (P P' : Coordinator -> RoomView -> Prop) (Q : B -> Coordinator -> RoomView -> Prop) :
  (forall c v, P c v -> P' c v) -> triple P' m Q -> triple P m Q.
Proof. intros HP H. by eapply t_conseq. Qed.
Lemma t_post {B} (m : M B) (P : Coordinator -> RoomView -> Prop) (Q Q' : B -> Coordinator -> RoomView -> Prop) :
  triple P m Q' -> (forall x c v, Q' x c v -> Q x c v) -> triple P m Q.
Proof. intros H HQ. by eapply t_conseq. Qed.

Lemma t_here P : triple P here (fun c c' v => c' = c /\ P c v).
Proof. intros w (G & T & E & H). by split_and!. Qed.
Lemma t_update f (P : Coordinator -> RoomView -> Prop) :
  (forall c, roomID (f c) = roomID c) -> triple (fun c v => P (f c) v) (update f) (fun _ => P).
Proof. intros Hf w (G & T & E & H). split_and!; simpl; try done. by rewrite Hf. Qed.
Lemma t_act a P : match a with CallStartTurn _ _ _ => False | _ => True end -> triple P (act a) (fun _ => P).
Proof.
  intros Ha w (G & T & E & H). split_and!; try done. apply Forall_app. split; [done|]. repeat constructor.
  unfold action_ok. by destruct a.
Qed.
Lemma t_act_start th cid text (P : Coordinator -> RoomView -> Prop) :
  (forall c v, P c v -> start_ok cid v) -> triple P (act (CallStartTurn th cid text)) (fun _ => P).
Proof.
  intros HP w (G & T & E & H). split_and!; try done. apply Forall_app. split; [done|]. repeat constructor.
  unfold action_ok. simpl. by eapply HP.
Qed.
Lemma t_transients l P : triple P (transients l) (fun _ => P).
Proof.
  intros w (G & T & E & H). split_and!; try done. apply Forall_app. split; [done|].
  apply Forall_fmap, Forall_true. done.
Qed.
Lemma t_agent {B} (f : A -> A * B) P : triple P (agent f) (fun _ => P).
Proof. intros w H. unfold agent. by destruct (f (w_agent w)). Qed.

(** A repository call under its law. *)
Definition after {X} (P : Coordinator -> RoomView -> Prop) (Q : RoomView -> RoomView -> X -> Prop) (x : result error X)
    (c : Coordinator) (v : RoomView) : Prop :=
  match x with Ok y => exists v0, P c v0 /\ Q v0 v y | Err _ => P c v end.
Lemma t_repo {X} (op : RoomID -> R -> R * result error X) Q P :
  Spec good view (op rid) Q -> triple P (repo op) (after P Q).
Proof.
  intros Hs w (G & T & E & H). unfold repo. rewrite E. destruct (Hs _ G) as [G' Hv].
  destruct (op rid (w_repo w)) as [r [x|e]]; simpl in *; split_and!; try done.
  - simpl. eauto.
  - simpl. by rewrite Hv.
Qed.
(** .. that does not move the view. *)
Lemma t_repo_stays {X} (op : RoomID -> R -> R * result error X) P :
  Spec good view (op rid) stays -> triple P (repo op) (fun _ => P).
Proof.
  intros Hs. eapply t_post; [by apply t_repo|]. intros [x|e] c v; [|done]. by intros (v0 & H & ->).
Qed.

Lemma t_pure {B} (m : M B) (P : Coordinator -> RoomView -> Prop) Q (F : Prop) :
  (F -> triple P m Q) -> triple (fun c v => F /\ P c v) m Q.
Proof. intros H w (G & T & E & HF & HP). apply H; [done|]. by split_and!. Qed.

Lemma t_or {B} (m : M B) (P1 P2 : Coordinator -> RoomView -> Prop) Q :
  triple P1 m Q -> triple P2 m Q -> triple (fun c v => P1 c v \/ P2 c v) m Q.
Proof.
  intros H1 H2 w (G & T & E & [H|H]); [apply H1|apply H2]; by split_and!.
Qed.

(** ** The invariant *)

Definition pending_ids (c : Coordinator) : list ClientMessageID := tb_MessageID <$> pendingControls (state c).

(** A stale entry keeps the room from dispatching until the state is reloaded: a
    control that has its outcome, or a prompt that cannot finish a turn. *)
Definition blocked (c : Coordinator) (v : RoomView) : Prop :=
  (exists x, x ∈ pending_ids c /\ x ∈ v_known v /\ x ∉ v_ctrls v) \/
  (exists a, active (state c) = Some a /\ (tb_TurnID a = "" \/ v_acts v = [])).
Definition synced (c : Coordinator) (v : RoomView) : Prop := queued_entry <$> queue (state c) = v_queue v.

(** The state was loaded from the repository and followed it since. *)
Record loaded (c : Coordinator) (v : RoomView) : Prop :=
  { ld_one : (length (v_acts v) <= 1)%nat;
    ld_idle : active (state c) = None -> v_acts v = [];
    ld_controls : forall x, x ∈ v_ctrls v -> x ∈ pending_ids c;
    ld_known : forall x, x ∈ pending_ids c -> x ∈ v_known v;
    ld_queue : synced c v \/ blocked c v }.
(** Before the first load nothing can be dispatched. *)
Record unloaded (c : Coordinator) (v : RoomView) : Prop :=
  { ul_one : (length (v_acts v) <= 1)%nat;
    ul_active : active (state c) = None;
    ul_thread : threadReady c = false;
    ul_status : status (state c) <> RoomReady }.
Definition safe (c : Coordinator) (v : RoomView) : Prop := loaded c v \/ unloaded c v.

(** Assertions about the fields that matter. *)
Definition quiet (P : Coordinator -> RoomView -> Prop) : Prop :=
  forall c c' v, active (state c') = active (state c) -> pendingControls (state c') = pendingControls (state c) ->
    queue (state c') = queue (state c) -> status (state c') = status (state c) -> threadReady c' = threadReady c ->
    P c v -> P c' v.

Lemma loaded_core c c' v :
  active (state c') = active (state c) -> pendingControls (state c') = pendingControls (state c) ->
  queue (state c') = queue (state c) -> loaded c v -> loaded c' v.
Proof.
  intros E1 E2 E3 []. split; unfold synced, blocked, pending_ids in *; rewrite ?E1, ?E2, ?E3; done.
Qed.
Lemma quiet_loaded : quiet loaded.
Proof. intros c c' v E1 E2 E3 _ _. by apply loaded_core. Qed.
Lemma quiet_unloaded : quiet unloaded.
Proof. intros c c' v E1 _ _ E4 E5 []. by split; rewrite ?E1, ?E4, ?E5. Qed.
Lemma quiet_safe : quiet safe.
Proof.
  intros c c' v E1 E2 E3 E4 E5 [H|H]; [left; by eapply quiet_loaded|right; by eapply quiet_unloaded].
Qed.

Lemma t_publish e P : quiet P -> triple P (publish e) (fun _ => P).
Proof.
  intros HP. unfold publish. eapply t_seq; [|intros _; by apply t_act].
  eapply t_pre; [|apply t_update].
  - intros c v H. simpl. destruct (_ <? _); [|done]. by apply (HP c).
  - intros c. by destruct (_ <? _).
Qed.
Lemma t_publish_all l P : quiet P -> triple P (publish_all l) (fun _ => P).
Proof.
  intros HP. induction l as [|e l IH]; [apply t_skip|]. simpl. eapply t_seq; [by apply t_publish|]. by intros _.
Qed.
Lemma t_publish_opt e P : quiet P -> triple P (publish_opt e) (fun _ => P).
Proof. intros HP. destruct e; [by apply t_publish|apply t_skip]. Qed.

(** Updates of fields an assertion does not look at. *)
Lemma t_quiet_update f P :
  quiet P -> (forall c, roomID (f c) = roomID c) ->
  (forall c, active (state (f c)) = active (state c) /\ pendingControls (state (f c)) = pendingControls (state c) /\
     queue (state (f c)) = queue (state c) /\ status (state (f c)) = status (state c) /\ threadReady (f c) = threadReady c) ->
  triple P (update f) (fun _ => P).
Proof.
  intros HP Hr Hf. eapply t_pre; [|by apply t_update]. intros c v H.
  destruct (Hf c) as (E1 & E2 & E3 & E4 & E5). by apply (HP c).
Qed.
Lemma t_loaded_update f :
  (forall c, roomID (f c) = roomID c) ->
  (forall c, active (state (f c)) = active (state c) /\ pendingControls (state (f c)) = pendingControls (state c) /\
     queue (state (f c)) = queue (state c)) ->
  triple loaded (update f) (fun _ => loaded).
Proof.
  intros Hr Hf. eapply t_pre; [|by apply t_update]. intros c v H.
  destruct (Hf c) as (E1 & E2 & E3). by apply (loaded_core c).
Qed.
(** Freezing is always safe. *)
Lemma t_freeze st : st <> RoomReady -> triple safe (update (set_status st)) (fun _ => safe).
Proof.
  intros Hs. eapply t_pre; [|by apply t_update]. intros c v [H|[]]; [left; by apply (loaded_core c)|right].
  by split.
Qed.

Lemma t_project e P : quiet P -> triple P (project e) (fun _ => P).
Proof.
  intros HP. unfold project. eapply t_bind; [apply t_here|]. intros c. destruct (Apply (projection c) e) as [p u].
  eapply t_seq; [eapply t_pre; [|by apply t_quiet_update]; by intros c' v [-> H]|].
  intros _. destruct (pu_Transient u); [by apply t_act|apply t_skip].
Qed.
Lemma t_drop_turn turn P : quiet P -> triple P (drop_turn turn) (fun _ => P).
Proof.
  intros HP. unfold drop_turn. eapply t_bind; [apply t_here|]. intros c. destruct (removeTurn _ _ _) as [p u].
  eapply t_seq; [eapply t_pre; [|by apply t_quiet_update]; by intros c' v [-> H]|]. intros _. apply t_transients.
Qed.
Lemma t_resetProjection P : quiet P -> triple P resetProjection (fun _ => P).
Proof.
  intros HP. unfold resetProjection. eapply t_bind; [apply t_here|]. intros c. destruct (reset _) as [p u].
  eapply t_seq; [eapply t_pre; [|by apply t_quiet_update]; by intros c' v [-> H]|]. intros _. apply t_transients.
Qed.
Lemma t_failPersistence e : triple safe (failPersistence e) (fun _ => safe).
Proof.
  unfold failPersistence. eapply t_seq; [by apply t_freeze|]. intros _. apply t_quiet_update; [apply quiet_safe|done..].
Qed.

(** ** Facts of a good view *)

Record view_ok (v : RoomView) : Prop :=
  { vo_sorted : StronglySorted (key_lt snd) (v_queue v);
    vo_unique : NoDup (v_queue v).*1;
    vo_controls : forall x, x ∈ v_ctrls v -> x ∈ v_known v }.
Lemma t_view {B} (m : M B) P Q : triple (fun c v => P c v /\ view_ok v) m Q -> triple P m Q.
Proof.
  intros H w (G & T & E & HP). apply H. split_and!; try done.
  split; [by apply good_sorted|by apply good_unique|by apply good_controls].
Qed.

(** An assertion that only looks at the active binding, the controls and the queue. *)
Definition core_quiet (P : Coordinator -> RoomView -> Prop) : Prop :=
  forall c c' v, active (state c') = active (state c) -> pendingControls (state c') = pendingControls (state c) ->
    queue (state c') = queue (state c) -> P c v -> P c' v.
Lemma core_quiet_quiet P : core_quiet P -> quiet P.
Proof. intros H c c' v E1 E2 E3 _ _. by apply H. Qed.
Lemma core_quiet_loaded : core_quiet loaded.
Proof. exact loaded_core. Qed.
Lemma t_core_update f P :
  core_quiet P -> (forall c, roomID (f c) = roomID c) ->
  (forall c, active (state (f c)) = active (state c) /\ pendingControls (state (f c)) = pendingControls (state c) /\
     queue (state (f c)) = queue (state c)) ->
  triple P (update f) (fun _ => P).
Proof.
  intros HP Hr Hf. eapply t_pre; [|by apply t_update]. intros c v H.
  destruct (Hf c) as (E1 & E2 & E3). by apply (HP c).
Qed.

(** ** Dispatch *)

Lemma can_dispatch_true c :
  can_dispatch c = true ->
  active (state c) = None /\ pendingControls (state c) = [] /\ status (state c) = RoomReady /\
  exists next rest, queue (state c) = next :: rest.
Proof.
  unfold can_dispatch. destruct (question c), (active (state c)), (pendingControls (state c)), (queue (state c)) as [|x q];
    try done. intros H. bool_props. split_and!; try done. by eexists _, _.
Qed.

(** Between [BeginDispatch] and its outcome: the message is dispatched in the
    repository and still first in the queue in memory. *)
Definition dispatching (next : QueuedMessage) (rest : list QueuedMessage) (c : Coordinator) (v : RoomView) : Prop :=
  (exists a, active (state c) = Some a /\ tb_TurnID a = "") /\ pendingControls (state c) = [] /\
  queue (state c) = next :: rest /\ start_ok (si_ClientMessageID (q_Input next)) v /\ v_queue v = queued_entry <$> rest.

Lemma dispatching_core next rest : core_quiet (dispatching next rest).
Proof. intros c c' v E1 E2 E3. unfold dispatching. by rewrite E1, E2, E3. Qed.

Lemma dispatching_loaded next rest c v : dispatching next rest c v -> loaded c v.
Proof.
  intros ((a & Ha & Et) & Hp & Hq & (s & E1 & E2 & _) & E4). split.
  - rewrite E1. done.
  - congruence.
  - rewrite E2. intros x Hx. by apply not_elem_of_nil in Hx.
  - unfold pending_ids. rewrite Hp. intros x Hx. by apply not_elem_of_nil in Hx.
  - right. right. eauto.
Qed.

(** The same once the message left the queue in memory. *)
Lemma dispatching_popped next rest c v :
  dispatching next rest c v -> loaded (set_queue tail c) v.
Proof.
  intros H. pose proof (dispatching_loaded _ _ _ _ H) as []. destruct H as (_ & _ & Hq & _ & E4).
  split; try done. left. unfold synced. simpl. by rewrite Hq.
Qed.

Lemma dispatch_view c v v' next rest s :
  loaded c v -> view_ok v -> active (state c) = None -> pendingControls (state c) = [] -> queue (state c) = next :: rest ->
  dispatches (si_ClientMessageID (q_Input next)) v v' s ->
  dispatching next rest (set_active (Some {| tb_MessageID := si_ClientMessageID (q_Input next); tb_TurnID := "";
                                             tb_State := RequestDispatching |}) c) v'.
Proof.
  intros L [Vs Vu _] Ha Hp Hq (n & Hn & E1 & E2 & E3 & E4).
  pose proof (ld_idle _ _ L Ha) as Ea. rewrite Ea in E1. apply Permutation_singleton_r in E1.
  assert (Sy : synced c v).
  { destruct (ld_queue _ _ L) as [Hs|[(x & Hx & _)|(a & E & _)]]; [done| |congruence].
    unfold pending_ids in Hx. rewrite Hp in Hx. by apply not_elem_of_nil in Hx. }
  unfold synced in Sy. rewrite Hq, fmap_cons in Sy.
  assert (Ec : v_ctrls v = []).
  { destruct (v_ctrls v) as [|x l] eqn:El; [done|]. assert (Hx : x ∈ pending_ids c) by (apply (ld_controls _ _ L); rewrite El; left).
    unfold pending_ids in Hx. rewrite Hp in Hx. by apply not_elem_of_nil in Hx. }
  set (cid := si_ClientMessageID (q_Input next)) in *.
  rewrite <- Sy in Vs, Vu, Hn, E3. rewrite fmap_cons in Vu. apply NoDup_cons in Vu as [Vn Vu].
  assert (Hw : without cid (queued_entry next :: (queued_entry <$> rest)) = queued_entry <$> rest).
  { unfold without. simpl. rewrite String.eqb_refl. simpl. f_equal. clear -Vn.
    change (cid ∉ (queued_entry <$> rest).*1) in Vn. revert Vn. generalize (queued_entry <$> rest). intros l Vn.
    induction l as [|p l IH]; simpl; [done|]. rewrite fmap_cons in Vn.
    apply not_elem_of_cons in Vn as [Vn1 Vn2]. destruct (String.eqb_spec p.1 cid) as [E|E]; [congruence|]. simpl. by rewrite IH. }
  assert (En : n = q_AcceptedSeq next).
  { apply elem_of_cons in Hn as [[= ->]|Hn]; [done|]. exfalso. apply Vn. simpl. fold cid.
    change cid with (cid, n).1. by apply list_elem_of_fmap_2. }
  rewrite Hw in E3. apply StronglySorted_inv in Vs as [_ Vf]. subst n. split_and!.
  - by eexists.
  - done.
  - done.
  - exists (q_AcceptedSeq next). split_and!; [done|congruence|]. rewrite E3. exact Vf.
  - by rewrite E3.
Qed.

Lemma t_start_turn next rest : triple (dispatching next rest) (start_turn next) (fun _ => dispatching next rest).
Proof.
  unfold start_turn. eapply t_bind; [apply t_here|]. intros c.
  eapply t_seq; [eapply (t_pre _ _ (dispatching next rest)); [by intros c' v [-> H]|]|].
  - apply t_act_start. by intros c' v (_ & _ & _ & H & _).
  - intros _. destruct ag_StartTurnFor; apply t_agent.
Qed.

(** After a turn that was not delivered, with its failure recorded. *)
Lemma undispatched_loaded next rest c v v' o e :
  dispatching next rest c v -> undispatches (si_ClientMessageID (q_Input next)) o v v' e -> fo_State o = RequestFailed ->
  loaded (set_active None (set_queue tail c)) v'.
Proof.
  intros (_ & Hp & Hq & (s & E1 & E2 & _) & E4) Hu Ho. rewrite (Hu Ho), E1. unfold without. simpl.
  rewrite String.eqb_refl. simpl. split; simpl; try done; try lia.
  - rewrite E2. intros x Hx. by apply not_elem_of_nil in Hx.
  - unfold pending_ids. simpl. rewrite Hp. intros x Hx. by apply not_elem_of_nil in Hx.
  - left. unfold synced. simpl. by rewrite Hq.
Qed.

Lemma set_active_state_loaded st c v : loaded c v -> loaded (set_active_state st c) v.
Proof.
  intros []. split; try done; simpl.
  - destruct (active (state c)); [done|auto].
  - destruct ld_queue0 as [H|[H|(a & Ha & Hb)]]; [by left|right; by left|]. right. right.
    exists (with_binding_state st a). simpl. by rewrite Ha.
Qed.

(** A repository call that does not move the view, propagating its error. *)
Lemma t_try_stays {X B} (op : RoomID -> R -> R * result error X) (k : X -> M (result error B)) P Q :
  Spec good view (op rid) stays -> (forall x, triple P (k x) Q) -> (forall e c v, P c v -> Q (Err e) c v) ->
  triple P (try_bind (repo op) k) Q.
Proof. intros Hs Hk He. eapply t_try; [by apply t_repo_stays|done|done]. Qed.

Lemma t_publish_loaded e : triple loaded (publish e) (fun _ => loaded).
Proof. apply t_publish, core_quiet_quiet, core_quiet_loaded. Qed.
Lemma t_publish_opt_loaded e : triple loaded (publish_opt e) (fun _ => loaded).
Proof. apply t_publish_opt, core_quiet_quiet, core_quiet_loaded. Qed.
Lemma t_status_loaded st : triple loaded (update (set_status st)) (fun _ => loaded).
Proof. by apply t_loaded_update. Qed.

(** The turn may or may not have reached the agent. *)
Lemma t_unknown next rest code digest :
  triple (dispatching next rest)
    (update (set_status RoomRecovering);;
     let! e := repo (fun rid => rp_MarkNeedsReview rid (si_ClientMessageID (q_Input next))
                                  {| rv_Code := code; rv_DetailDigest := digest |}) in
     publish e;;
     update (set_active_state RequestNeedsReview);;
     update (set_queue tail);;
     let! se := repo (fun rid => rp_SetRoomStatus rid RoomRecovering) in
     publish_opt se;;
     mret (Err (Sentinel ErrDeliveryUnknown))) (fun _ : result error unit => loaded).
Proof.
  eapply t_seq; [by apply t_core_update; [apply dispatching_core|..]|]. intros _.
  apply t_try_stays; [apply law_review| |intros; by eapply dispatching_loaded]. intros e.
  eapply t_seq; [apply t_publish, core_quiet_quiet, dispatching_core|]. intros _.
  eapply (t_seq _ _ _ (dispatching next rest)).
  { eapply t_pre; [|by apply t_update]. intros c v ((a & Ha & Et) & H). split; [|done].
    exists (with_binding_state RequestNeedsReview a). simpl. by rewrite Ha. }
  intros _. eapply (t_seq _ _ _ loaded).
  { eapply t_pre; [|by apply t_update]. intros c v. apply dispatching_popped. }
  intros _. apply t_try_stays; [apply law_status| |done]. intros se.
  eapply t_seq; [apply t_publish_opt_loaded|]. intros _. apply t_skip.
Qed.

(** The turn was started: bind it. *)
Lemma t_started next rest turn :
  triple (dispatching next rest)
    (bound ← repo (fun rid => rp_BindRunningTurn rid (si_ClientMessageID (q_Input next)) turn);
     match bound with
     | Err err => update (set_status RoomRecovering);; mret (Err err)
     | Ok e =>
         publish e;;
         update (set_queue tail);;
         update (set_active (Some {| tb_MessageID := si_ClientMessageID (q_Input next); tb_TurnID := turn;
                                     tb_State := RequestRunning |}));;
         mret (Ok tt)
     end) (fun _ : result error unit => loaded).
Proof.
  eapply t_seq; [by apply t_repo_stays, law_bind|]. intros [e|err].
  - eapply t_seq; [apply t_publish, core_quiet_quiet, dispatching_core|]. intros _.
    eapply (t_seq _ _ _ (fun c v => loaded c v /\ synced c v)).
    { eapply t_pre; [|by apply t_update]. intros c v H. split; [by eapply dispatching_popped|].
      destruct H as (_ & _ & Hq & _ & E4). unfold synced. simpl. by rewrite Hq. }
    intros _. eapply (t_seq _ _ _ loaded); [|intros _; apply t_skip].
    eapply t_pre; [|by apply t_update]. intros c v [[] Hs]. split; try done. by left.
  - eapply t_seq; [by apply t_core_update; [apply dispatching_core|..]|]. intros _.
    eapply t_pre; [|apply t_skip]. intros c v. apply dispatching_loaded.
Qed.

Lemma t_dispatch_fuel n : triple loaded (dispatch_fuel n) (fun _ => loaded).
Proof.
  induction n as [|n IH]; cbn [dispatch_fuel]; (eapply t_bind; [apply t_here|]); intros c;
    destruct (can_dispatch c) eqn:Ec; cbn [negb].
  1, 2, 4: eapply t_pre; [|apply t_skip]; by intros c' v [-> H].
  apply can_dispatch_true in Ec as (Ha & Hp & _ & next & rest & Hq). rewrite Hq.
  apply t_view. eapply t_try; [apply t_repo, law_dispatch| |by intros e c' v [[-> H] _]]. intros [].
  eapply (t_seq _ _ _ (dispatching next rest)).
  { eapply t_pre; [|by apply t_update]. intros c' v (v0 & [[-> L] V] & D). by eapply dispatch_view. }
  intros _. eapply t_seq; [apply t_start_turn|]. intros [turn|err]; [apply t_started|].
  destruct (mutationFailure err) as [[code digest] []]; [|apply t_unknown].
  eapply t_try; [apply t_repo, law_fail| |intros e c' v; apply dispatching_loaded]. intros e. cbn [after].
  eapply t_seq; [apply t_publish|intros _].
  { intros c1 c2 v E1 E2 E3 _ _ (v0 & H & HU). exists v0. split; [|done]. by apply (dispatching_core _ _ c1). }
  eapply (t_seq _ _ _ (fun c v => loaded (set_active None c) v)).
  { eapply t_pre; [|by apply t_update]. intros c' v (v0 & H & HU). by eapply undispatched_loaded. }
  intros _. eapply (t_seq _ _ _ loaded); [by apply t_update|]. intros _.
  eapply t_seq; [exact IH|]. intros _. apply t_skip.
Qed.
Lemma t_dispatchNext : triple loaded dispatchNext (fun _ => loaded).
Proof.
  unfold dispatchNext. eapply t_bind; [apply t_here|]. intros c. eapply t_pre; [|apply t_dispatch_fuel].
  by intros c' v [-> H].
Qed.

(** In an unloaded state nothing is dispatched. *)
Lemma t_dispatchNext_unloaded : triple unloaded dispatchNext (fun _ => unloaded).
Proof.
  unfold dispatchNext. eapply t_bind; [apply t_here|]. intros c.
  destruct (queue (state c)) eqn:Eq; cbn [length dispatch_fuel]; (eapply t_bind; [apply t_here|]); intros c1;
    destruct (can_dispatch c1) eqn:Ec; cbn [negb].
  1, 2, 4: eapply t_pre; [|apply t_skip]; by intros c' v (-> & -> & H).
  apply can_dispatch_true in Ec as (_ & _ & Es & _). intros w (_ & _ & _ & E1 & E2 & []). congruence.
Qed.
Lemma t_dispatchNext_safe : triple safe dispatchNext (fun _ => safe).
Proof.
  apply t_or; (eapply t_post; [|]); [apply t_dispatchNext|by intros; left|apply t_dispatchNext_unloaded|by intros; right].
Qed.

(** ** Submissions *)

Lemma t_or2 {B} (m : M B) :
  triple loaded m (fun _ => loaded) -> triple unloaded m (fun _ => unloaded) -> triple safe m (fun _ => safe).
Proof.
  intros H1 H2. apply t_or; (eapply t_post; [eassumption|]); intros ???; [by left|by right].
Qed.
Lemma t_skip_safe {B} (x : B) : triple safe (mret x) (fun _ => safe).
Proof. apply t_skip. Qed.
Lemma t_publish_safe e : triple safe (publish e) (fun _ => safe).
Proof. apply t_publish, quiet_safe. Qed.
Lemma t_publish_opt_safe e : triple safe (publish_opt e) (fun _ => safe).
Proof. apply t_publish_opt, quiet_safe. Qed.

(** The view after a note or a duplicate: more ids are known, nothing else. *)
Lemma loaded_known c v cid : loaded c v -> loaded c (mkView (v_acts v) (v_ctrls v) (v_queue v) (v_known v ++ [cid])).
Proof.
  intros []. split; try done; simpl.
  - intros x Hx. apply elem_of_app. left. auto.
  - destruct ld_queue0 as [H|[(x & H1 & H2 & H3)|H]]; [by left|right; left|right; by right].
    exists x. split_and!; [done| |done]. simpl. apply elem_of_app. by left.
Qed.

(** A queued prompt joins both queues at the end. *)
Lemma loaded_queued c v cid q :
  loaded c v -> queued_entry q = (cid, q_AcceptedSeq q) ->
  loaded (set_queue (fun l => l ++ [q]) c)
    (mkView (v_acts v) (v_ctrls v) (v_queue v ++ [(cid, q_AcceptedSeq q)]) (v_known v ++ [cid])).
Proof.
  intros L E. apply (loaded_known _ _ cid) in L as []. split; try done; simpl in *.
  destruct ld_queue0 as [H|H]; [left|by right]. unfold synced in *. simpl in *. by rewrite fmap_app, H, <- E.
Qed.

Lemma safe_known c v cid : safe c v -> safe c (mkView (v_acts v) (v_ctrls v) (v_queue v) (v_known v ++ [cid])).
Proof. intros [H|[]]; [left; by apply loaded_known|right; by split]. Qed.

Lemma t_handleSubmit actor i note : triple safe (handleSubmit actor i note) (fun _ => safe).
Proof.
  unfold handleSubmit. eapply (t_seq _ _ _ safe).
  { destruct note; [apply t_skip|]. destruct ag_ValidateSubmission; [apply t_agent|apply t_skip]. }
  intros [_|e]; [|apply t_skip]. destruct note.
  - eapply t_bind; [apply (t_repo (fun rid => rp_AppendNote rid actor i)), law_note|]. intros [got|e]; [|apply t_skip].
    eapply (t_seq _ _ _ safe); [|intros _; rewrite orb_true_r; apply t_skip].
    eapply t_pre; [|apply t_publish_safe]. intros c v (v0 & H & Hn). unfold accepts_note in Hn.
    destruct (acc_Duplicate got); subst; [done|by apply safe_known].
  - eapply t_bind; [apply (t_repo (fun rid => rp_AcceptMessage rid actor i)), law_accept|]. intros [got|e]; [|apply t_skip].
    rewrite orb_false_r. cbn [after]. destruct (acc_Duplicate got) eqn:Ed.
    + eapply (t_seq _ _ _ safe); [|intros _; apply t_skip].
      eapply t_pre; [|apply t_publish_safe]. intros c v (v0 & H & Hn). unfold accepts_prompt in Hn. rewrite Ed in Hn. by subst.
    + eapply t_seq; [apply t_publish|intros _].
      { intros c1 c2 v E1 E2 E3 E4 E5 (v0 & H & HU). exists v0. split; [|done]. by apply (quiet_safe c1). }
      eapply (t_seq _ _ _ safe).
      { eapply t_pre; [|by apply t_update]. intros c v (v0 & H & Hn). unfold accepts_prompt in Hn. rewrite Ed in Hn.
        destruct Hn as [_ ->]. destruct H as [H|[]].
        - left. by apply (loaded_queued c v0 (si_ClientMessageID i) {| q_Input := i; q_Actor := actor; q_AcceptedSeq := acc_Seq got |}).
        - right. by split. }
      intros _. eapply t_seq; [apply t_dispatchNext_safe|]. intros r. apply t_skip.
Qed.

(** ** Controls *)

(** The control just accepted is recorded in both places and not settled. *)
Definition control_open (cid : ClientMessageID) (c : Coordinator) (v : RoomView) : Prop :=
  loaded c v /\ (forall x, x ∈ pending_ids c -> x <> cid -> x ∈ v_known v) /\ cid ∈ pending_ids c /\
  (synced c v \/ (exists x, x ∈ pending_ids c /\ x <> cid /\ x ∈ v_known v /\ x ∉ v_ctrls v) \/
   (exists a, active (state c) = Some a /\ (tb_TurnID a = "" \/ v_acts v = []))).

Lemma settle_ids_other cid st l x : x ∈ tb_MessageID <$> l -> x <> cid -> x ∈ tb_MessageID <$> settle_control cid st l.
Proof.
  intros Hx Hn. induction l as [|b l IH]; [done|]. cbn [settle_control]. rewrite fmap_cons in Hx.
  apply elem_of_cons in Hx. destruct (String.eqb_spec (tb_MessageID b) cid) as [E|E].
  - destruct Hx as [->|Hx]; [congruence|]. case_bool_decide; [by right|done].
  - rewrite fmap_cons. apply elem_of_cons. destruct Hx as [->|Hx]; [by left|right; auto].
Qed.
Lemma settle_ids_sub cid st l x : x ∈ tb_MessageID <$> settle_control cid st l -> x ∈ tb_MessageID <$> l.
Proof.
  induction l as [|b l IH]; [done|]. cbn [settle_control]. rewrite fmap_cons. intros Hx.
  destruct (String.eqb (tb_MessageID b) cid).
  - case_bool_decide; [done|by right].
  - rewrite fmap_cons in Hx. apply elem_of_cons in Hx as [->|Hx]; [left|right; auto].
Qed.
Lemma settle_ids_review cid l : tb_MessageID <$> settle_control cid RequestNeedsReview l = tb_MessageID <$> l.
Proof.
  induction l as [|b l IH]; [done|]. cbn [settle_control]. destruct (String.eqb (tb_MessageID b) cid); [done|].
  rewrite !fmap_cons. by f_equal.
Qed.
Lemma without_id_elem cid l x : x ∈ without_id cid l <-> x ∈ l /\ x <> cid.
Proof.
  unfold without_id. rewrite filter_elem_of, negb_true_iff. by rewrite String.eqb_neq.
Qed.

Lemma finish_loaded cid o c v v' e :
  control_open cid c v -> finishes_control cid o v v' e ->
  loaded (set_pendingControls (settle_control cid (co_State o)) c) v'.
Proof.
  intros ([L1 L2 L3 L4 _] & Hk & Hc & Hs) Hf. unfold finishes_control in Hf. case_bool_decide as Eo; subst v'.
  - rewrite Eo. assert (Ep : pending_ids (set_pendingControls (settle_control cid RequestNeedsReview) c) = pending_ids c)
      by apply settle_ids_review.
    split; rewrite ?Ep; try done. destruct Hs as [Hs|[(x & H1 & H2 & H3)|Hs]]; [by left|right; left|right; by right].
    rewrite Ep. by exists x.
  - split; simpl; try done.
    + intros x [Hx Hn]%without_id_elem. apply settle_ids_other; [by apply L3|done].
    + intros x Hx%settle_ids_sub. by apply L4.
    + destruct Hs as [Hs|[(x & H1 & H2 & H3 & H4)|Hs]]; [by left|right; left|right; by right].
      exists x. split_and!; [by apply settle_ids_other|done|]. simpl. by intros [? _]%without_id_elem.
Qed.

Lemma control_open_core cid : core_quiet (control_open cid).
Proof.
  intros c c' v E1 E2 E3 (L & H). split; [by apply (loaded_core c)|]. revert H.
  unfold synced, pending_ids. by rewrite E1, E2, E3.
Qed.

Lemma t_finishControl_loaded got o re :
  triple (control_open (acc_ClientMessageID got)) (finishControl got o re) (fun _ => loaded).
Proof.
  unfold finishControl. eapply t_bind; [apply (t_repo (fun rid => rp_FinishControl rid _ o)), law_finish_control|].
  intros [e|err]; cbn [after].
  - eapply (t_seq _ _ _ loaded).
    { eapply t_pre; [|by apply t_update]. intros c v (v0 & H & HF). by eapply finish_loaded. }
    intros _. eapply t_seq; [apply t_publish_loaded|]. intros _. apply t_skip.
  - eapply (t_seq _ _ _ loaded); [|intros _; apply t_skip].
    eapply t_pre; [|apply t_status_loaded]. by intros c v [H _].
Qed.

(** Unloaded, controls only change what is not yet loaded. *)
Lemma finishes_control_acts cid o v v' e : finishes_control cid o v v' e -> v_acts v' = v_acts v.
Proof. unfold finishes_control. case_bool_decide; by intros ->. Qed.
Lemma t_finishControl_unloaded got o re : triple unloaded (finishControl got o re) (fun _ => unloaded).
Proof.
  unfold finishControl. eapply t_bind; [apply (t_repo (fun rid => rp_FinishControl rid _ o)), law_finish_control|].
  intros [e|err]; cbn [after].
  - eapply (t_seq _ _ _ unloaded).
    { eapply t_pre; [|by apply t_update]. intros c v (v0 & [] & HF%finishes_control_acts). split; try done. by rewrite HF. }
    intros _. eapply t_seq; [apply t_publish, quiet_unloaded|]. intros _. apply t_skip.
  - eapply (t_seq _ _ _ unloaded); [|intros _; apply t_skip].
    eapply t_pre; [|by apply t_update]. intros c v []. by split.
Qed.

Lemma t_deliver_control k turn text P : triple P (deliver_control k turn text) (fun _ => P).
Proof.
  unfold deliver_control. eapply t_bind; [apply t_here|]. intros c. eapply t_pre; [by intros c' v [-> H]; exact H|].
  destruct k; (eapply t_seq; [by apply t_act|intros _; apply t_agent]).
Qed.

(** What [handleControl] does once the new control is recorded. *)
Definition control_tail (got : Acceptance) (input : ControlInput) : M reply :=
  c ← here;
  if negb (turn_is_current c (ci_ExpectedTurnID input))
  then finishControl got stale_outcome (Some (Sentinel ErrStaleTurn)) else
  sent ← deliver_control (ci_Kind input) (ci_ExpectedTurnID input) (ci_Text input);
  match sent with
  | Ok _ => finishControl got completed_outcome None
  | Err err =>
      let '(code, digest, certainty) := mutationFailure err in
      match certainty with
      | DeliveryNotSent =>
          finishControl got {| co_State := RequestFailed; co_ErrorCode := code; co_ErrorDigest := digest |}
            (Some (Sentinel ErrDeliveryNotSent))
      | DeliveryUnknown =>
          update (set_status RoomRecovering);;
          fin ← finishControl got {| co_State := RequestNeedsReview; co_ErrorCode := code; co_ErrorDigest := digest |}
                  (Some (Sentinel ErrDeliveryUnknown));
          if match fin.2 with Some e => negb (errors_Is e ErrDeliveryUnknown) | None => false end then mret fin else
          se ← repo (fun rid => rp_SetRoomStatus rid RoomRecovering);
          match se with
          | Err e => mret (fin.1, Some e)
          | Ok ev => publish_opt ev;; mret (fin.1, Some (Sentinel ErrDeliveryUnknown))
          end
      end
  end.

Lemma t_control_tail got input P Q :
  (forall o re, triple P (finishControl got o re) (fun _ => Q)) -> triple P (update (set_status RoomRecovering)) (fun _ => P) ->
  quiet Q -> triple P (control_tail got input) (fun _ => Q).
Proof.
  intros HF HS HQ. unfold control_tail. eapply t_bind; [apply t_here|]. intros c.
  eapply t_pre; [by intros c' v [-> H]; exact H|].
  destruct (negb _); [apply HF|]. eapply t_seq; [apply t_deliver_control|]. intros [_|err]; [apply HF|].
  destruct (mutationFailure err) as [[code digest] []]; [apply HF|].
  eapply t_seq; [exact HS|]. intros _. eapply t_seq; [apply HF|]. intros [a e]. cbn [fst snd].
  destruct (match e with Some _ => _ | None => _ end); [apply t_skip|].
  eapply t_seq; [by apply t_repo_stays, law_status|]. intros [ev|e']; [|apply t_skip].
  eapply t_seq; [by apply t_publish_opt|]. intros _. apply t_skip.
Qed.

Lemma control_opens c v v' got cid turn st :
  loaded c v -> view_ok v -> acc_Duplicate got = false -> accepts_control cid v v' got ->
  control_open (acc_ClientMessageID got) (set_pendingControls (fun l => l ++ [{| tb_MessageID := acc_ClientMessageID got; tb_TurnID := turn; tb_State := st |}]) c) v'.
Proof.
  intros [L1 L2 L3 L4 L5] _ Ed [Ec Ha]. rewrite Ed in Ha. destruct Ha as [Hn ->]. subst cid.
  set (cid := acc_ClientMessageID got) in *.
  set (c' := set_pendingControls _ c).
  assert (Ep : pending_ids c' = pending_ids c ++ [cid]).
  { unfold pending_ids, c'. cbn. by rewrite fmap_app. }
  assert (Hq : synced c' (mkView (v_acts v) (v_ctrls v ++ [cid]) (v_queue v) (v_known v ++ [cid])) \/
    (exists x, x ∈ pending_ids c' /\ x <> cid /\ x ∈ v_known v ++ [cid] /\ x ∉ v_ctrls v ++ [cid]) \/
    (exists a, active (state c') = Some a /\ (tb_TurnID a = "" \/ v_acts v = []))).
  { destruct L5 as [H|[(x & H1 & H2 & H3)|H]]; [by left|right; left|right; by right].
    assert (x <> cid) by (intros ->; done). exists x. rewrite Ep, !elem_of_app, list_elem_of_singleton. tauto. }
  split_and!.
  - split; simpl; rewrite ?Ep; try done.
    + intros x. rewrite !elem_of_app. intros [Hx|Hx]; [left; by apply L3|by right].
    + intros x. rewrite !elem_of_app. intros [Hx|Hx]; [left; by apply L4|by right].
    + destruct Hq as [H|[(x & H1 & H2 & H3 & H4)|H]]; [by left|right; left|right; by right]. by exists x.
  - rewrite Ep. simpl. intros x. rewrite !elem_of_app, list_elem_of_singleton. intros [Hx|Hx] ?; [left; by apply L4|done].
  - rewrite Ep. apply elem_of_app. right. by apply list_elem_of_singleton.
  - exact Hq.
Qed.

Lemma accepts_control_acts cid v v' got : accepts_control cid v v' got -> v_acts v' = v_acts v.
Proof. intros [_ H]. destruct (acc_Duplicate got); [by subst|by destruct H as [_ ->]]. Qed.

Lemma t_handleControl actor i : triple safe (handleControl actor i) (fun _ => safe).
Proof.
  change (handleControl actor i) with
    (stored ← repo (fun rid => rp_AcceptControl rid actor i);
     match stored with
     | Err e => mret (refused e)
     | Ok got =>
         publish (acc_Event got);;
         if acc_Duplicate got then mret (duplicate_control got) else
         update (set_pendingControls (fun l => l ++
           [{| tb_MessageID := acc_ClientMessageID got; tb_TurnID := ci_ExpectedTurnID i; tb_State := RequestDispatching |}]));;
         control_tail got i
     end : M reply).
  apply t_view. eapply t_bind; [apply (t_repo (fun rid => rp_AcceptControl rid actor i)), law_control|].
  intros [got|e]; [|eapply t_pre; [|apply t_skip]; by intros c v [H _]]. cbn [after].
  eapply t_seq; [apply t_publish|intros _].
  { intros c1 c2 v E1 E2 E3 E4 E5 (v0 & [H HV] & HU). exists v0. split_and!; [|done|done]. by apply (quiet_safe c1). }
  destruct (acc_Duplicate got) eqn:Ed.
  { eapply t_pre; [|apply t_skip]. intros c v (v0 & [H _] & [_ Ha]). rewrite Ed in Ha. by subst. }
  eapply (t_seq _ _ _ (fun c v => control_open (acc_ClientMessageID got) c v \/ unloaded c v)).
  { eapply t_pre; [|by apply t_update]. intros c v (v0 & [[H|[]] HV] & HU).
    - left. by eapply control_opens.
    - right. apply accepts_control_acts in HU. split; try done. by rewrite HU. }
  intros _. apply t_or; (eapply t_post; [apply t_control_tail|]).
  - intros o re. apply t_finishControl_loaded.
  - apply t_core_update; [apply control_open_core|done|done].
  - apply quiet_loaded.
  - intros x c v H. by left.
  - intros o re. apply t_finishControl_unloaded.
  - eapply t_pre; [|by apply t_update]. intros c v []. by split.
  - apply quiet_unloaded.
  - intros x c v H. by right.
Qed.

(** ** Loading *)

Lemma t_loadRecovery P :
  (forall c v, P c v -> safe c v) ->
  triple P loadRecovery (fun r c v => match r with Ok _ => loaded c v | Err _ => P c v end).
Proof.
  intros HP. unfold loadRecovery. apply t_view.
  eapply t_try; [apply (t_repo rp_LoadRecoveryImage), law_load| |by intros e c v [H _]]. intros image. cbn [after].
  eapply (t_try _ _ _ (fun _ c v => P c v /\ view_ok v /\ image_of v image)); [|intros latest|by intros e c v (H & _)].
  { eapply t_pre; [|apply (t_repo_stays rp_LatestSeq), law_latest]. intros c v (v0 & [H HV] & -> & HI). done. }
  eapply (t_seq _ _ _ loaded); [|intros _; apply (t_ret (Ok image) (fun r c v => match r with Ok _ => loaded c v | Err _ => P c v end))].
  eapply t_pre; [|by apply t_update]. intros c v (H & [_ _ Vk] & [Ia Ic Iq]). apply HP in H.
  assert (N : (length (v_acts v) <= 1)%nat) by (by destruct H as [[]|[]]).
  split; unfold synced, pending_ids; simpl; rewrite ?Ic; try done.
  - intros E. by rewrite E in Ia.
  - by left.
Qed.

(** ** Recovery *)

Lemma t_setStatus_loaded st : triple loaded (setStatus st) (fun _ => loaded).
Proof.
  unfold setStatus. apply t_try_stays; [apply law_status| |done]. intros e.
  eapply t_seq; [apply t_publish_opt_loaded|]. intros _. eapply t_seq; [apply t_status_loaded|]. intros _. apply t_skip.
Qed.
Lemma t_markThreadRepair code d : triple loaded (markThreadRepair code d) (fun _ => loaded).
Proof.
  unfold markThreadRepair. eapply t_seq; [by apply t_loaded_update|]. intros _.
  eapply t_seq; [apply t_status_loaded|]. intros _. eapply t_seq; [by apply t_repo_stays, law_repair|].
  intros [e|e]; [apply t_publish_loaded|apply t_skip].
Qed.

Lemma t_reconcile_items turn terminal l : triple loaded (reconcile_items turn terminal l) (fun _ => loaded).
Proof.
  induction l as [|i l IH]; cbn [reconcile_items]; [apply t_skip|].
  apply t_try_stays; [apply law_item| |done]. intros e. eapply t_seq; [apply t_publish_loaded|]. intros _.
  eapply t_bind; [apply t_here|]. intros c. eapply t_pre; [by intros c' v [-> H]; exact H|].
  eapply (t_seq _ _ _ loaded); [|by intros _].
  destruct (_ && _); [apply t_project, quiet_loaded|apply t_skip].
Qed.
Lemma t_reconcile_turns hidden terminal l : triple loaded (reconcile_turns hidden terminal l) (fun _ => loaded).
Proof.
  revert terminal. induction l as [|t l IH]; intros terminal; cbn [reconcile_turns]; [apply t_skip|].
  destruct (existsb _ _); [apply IH|].
  eapply (t_try _ _ _ (fun _ => loaded)); [apply t_reconcile_items|intros []|done].
  eapply t_bind; [apply t_here|]. intros c. eapply t_pre; [by intros c' v [-> H]; exact H|].
  destruct (_ && _); [|apply IH]. destruct terminal as [st|]; [|apply IH]. case_bool_decide; [apply IH|].
  eapply t_seq; [apply t_markThreadRepair|]. intros _. apply t_skip.
Qed.

(** The active turn is over. *)
Definition finishing (c : Coordinator) (v : RoomView) : Prop := loaded (set_active None c) v.
Lemma finishing_core : core_quiet finishing.
Proof. intros c c' v E1 E2 E3. apply loaded_core; simpl; congruence. Qed.
Lemma finished_loaded c v v' i a e :
  loaded c v -> active (state c) = Some a -> ft_TurnID i = tb_TurnID a -> finishes_turn i v v' e -> finishing c v'.
Proof.
  intros [L1 L2 L3 L4 L5] Ha Et (Hn & cid & s & Hin & ->).
  assert (Ev : v_acts v = [(cid, s)]).
  { destruct (v_acts v) as [|p [|q l]]; [by apply not_elem_of_nil in Hin| |simpl in L1; lia].
    apply list_elem_of_singleton in Hin. by subst. }
  assert (Ew : without cid (v_acts v) = []) by (rewrite Ev; unfold without; simpl; by rewrite String.eqb_refl).
  unfold finishing. rewrite Ew. split; simpl; try done; [lia|].
  destruct L5 as [H|[H|(b & Hb & H)]]; [by left|right; by left|].
  assert (b = a) as -> by congruence. destruct H as [H|H]; [congruence|]. by rewrite H in Ev.
Qed.

(** [FinishTurn] for the active turn, then what follows it. *)
Lemma t_finish_turn i a c0 :
  active (state c0) = Some a -> ft_TurnID i = tb_TurnID a ->
  triple (fun c v => c = c0 /\ loaded c0 v) (repo (fun rid => rp_FinishTurn rid i))
    (fun r c v => match r with Ok _ => finishing c v | Err _ => loaded c v end).
Proof.
  intros Ha Et. eapply t_post; [apply (t_repo (fun rid => rp_FinishTurn rid i)), law_finish_turn|].
  intros [l|e] c v; cbn [after]; [|by intros [-> H]]. intros (v0 & [-> H] & HF). by eapply finished_loaded.
Qed.

Lemma t_set_active_state st : triple loaded (update (set_active_state st)) (fun _ => loaded).
Proof. eapply t_pre; [|by apply t_update]. intros c v. apply set_active_state_loaded. Qed.

Lemma t_reconcileHistory hs : triple loaded (reconcileHistory hs) (fun _ => loaded).
Proof.
  unfold reconcileHistory. eapply t_bind; [apply t_here|]. intros c. eapply t_pre; [by intros c' v [-> H]; exact H|].
  eapply (t_try _ _ _ (fun _ => loaded)); [|intros hidden|done].
  { destruct rp_journal as [j|] eqn:Ej; [|apply t_skip]. apply t_repo_stays. by apply law_private_turns. }
  eapply (t_try _ _ _ (fun _ => loaded)); [apply t_reconcile_turns|intros terminal|done].
  eapply t_bind; [apply t_here|]. intros c1. destruct (active (state c1)) as [a|] eqn:Ea.
  - destruct terminal as [st|].
    + eapply t_try; [by eapply t_finish_turn|intros events|done].
      eapply t_seq; [apply t_publish_all, core_quiet_quiet, finishing_core|]. intros _.
      eapply t_seq; [apply t_drop_turn, core_quiet_quiet, finishing_core|]. intros _.
      eapply (t_seq _ _ _ loaded); [by apply (t_update _ loaded)|]. intros _. apply t_skip.
    + eapply t_pre; [by intros c' v [-> H]; exact H|]. case_bool_decide; [apply t_skip|].
      apply t_try_stays; [apply law_review| |done]. intros e. eapply t_seq; [apply t_publish_loaded|]. intros _.
      eapply t_seq; [apply t_set_active_state|]. intros _. apply t_skip.
  - eapply t_pre; [by intros c' v [-> H]; exact H|]. apply t_skip.
Qed.

(** Marking controls keeps their ids. *)
Lemma controls_loaded l c v : tb_MessageID <$> l = pending_ids c -> loaded c v -> loaded (set_pendingControls (fun _ => l) c) v.
Proof.
  intros E []. split; unfold synced, blocked, pending_ids in *; simpl; rewrite ?E; done.
Qed.
Lemma t_review_controls done_ l :
  triple (fun c v => loaded c v /\ pending_ids c = tb_MessageID <$> (done_ ++ l)) (review_controls done_ l) (fun _ => loaded).
Proof.
  revert done_. induction l as [|b l IH]; intros done_; cbn [review_controls].
  { eapply t_pre; [|apply t_skip]. by intros c v [H _]. }
  destruct (bool_decide (tb_State b = RequestNeedsReview)).
  { eapply t_pre; [|apply IH]. intros c v [HL E]. by rewrite <- app_assoc. }
  apply t_try_stays; [apply law_review| |by intros e c v [H _]]. intros e.
  eapply t_seq; [apply t_publish|intros _].
  { intros c c' v E1 E2 E3 _ _ [H E]. split; [by apply (loaded_core c)|]. unfold pending_ids. by rewrite E2. }
  eapply t_seq; [|intros _; apply IH].
  eapply t_pre; [|by apply t_update]. intros c v [H E].
  assert (E' : tb_MessageID <$> done_ ++ with_binding_state RequestNeedsReview b :: l = pending_ids c)
    by (rewrite E, !fmap_app; done).
  split; [by apply controls_loaded|]. unfold pending_ids. simpl. rewrite <- app_assoc. done.
Qed.

Lemma t_recover_new_thread : triple loaded recover_new_thread (fun _ => loaded).
Proof.
  unfold recover_new_thread. eapply t_seq; [by apply t_act|]. intros _. eapply t_seq; [apply t_agent|]. intros started.
  eapply t_bind; [apply t_here|]. intros c. eapply t_pre; [by intros c' v [-> H]; exact H|].
  destruct started as [thread|err].
  - destruct (negb _).
    + eapply t_seq; [apply t_markThreadRepair|]. intros _. apply t_skip.
    + eapply t_seq; [by apply t_repo_stays, law_bind_thread|]. intros [e|err].
      * eapply t_seq; [apply t_publish_loaded|]. intros _. eapply t_seq; [by apply t_loaded_update|]. intros _. apply t_skip.
      * eapply t_seq; [apply t_markThreadRepair|]. intros _. apply t_skip.
  - eapply (t_seq _ _ _ loaded); [|intros _; apply t_skip].
    assert (K1 : triple loaded (setStatus RoomReady;; update (set_status RoomRecovering)) (fun _ => loaded)).
    { eapply t_seq; [apply t_setStatus_loaded|]. intros _. apply t_status_loaded. }
    pose proof (t_markThreadRepair "thread-creation-unknown" err) as K2.
    destruct (normalizedMutationError err) as [[]| | | |]; assumption.
Qed.
Lemma t_recover_known_thread : triple loaded recover_known_thread (fun _ => loaded).
Proof.
  unfold recover_known_thread. eapply t_bind; [apply t_here|]. intros c. eapply t_pre; [by intros c' v [-> H]; exact H|].
  assert (K : forall code d (r : result error unit), triple loaded (markThreadRepair code d;; mret r) (fun _ => loaded)).
  { intros. eapply t_seq; [apply t_markThreadRepair|]. intros _. apply t_skip. }
  eapply t_seq; [apply t_agent|]. intros [thread|err]; [|apply K]. destruct (negb _); [apply K|].
  eapply t_seq; [apply t_agent|]. intros [again|err]; [|apply t_skip]. destruct (negb _); [apply K|].
  apply t_reconcileHistory.
Qed.

Lemma loaded_safe c v : loaded c v -> safe c v.
Proof. by left. Qed.
Lemma t_safe_thread : triple safe (update (set_threadReady false)) (fun _ => safe).
Proof.
  eapply t_pre; [|by apply t_update]. intros c v [H|[]]; [left; by apply (loaded_core c)|right; by split].
Qed.

Lemma t_recover : triple safe recover (fun _ => safe).
Proof.
  unfold recover. eapply t_bind; [apply t_here|]. intros c. eapply t_pre; [by intros c' v [-> H]; exact H|].
  destruct (question c); [apply t_skip|]. eapply t_seq; [apply t_safe_thread|]. intros _.
  destruct (threadCreationUncertain c).
  { eapply t_seq; [by apply t_freeze|]. intros _. apply t_skip. }
  eapply t_seq; [by apply t_freeze|]. intros _. eapply t_seq; [apply t_resetProjection, quiet_safe|]. intros _.
  eapply t_try; [by apply t_loadRecovery|intros image|done]. cbn beta iota.
  apply (t_post _ _ _ (fun _ => loaded)); [|by intros; left].
  destruct (bool_decide (im_Status image = RoomThreadNeedsRepair)).
  { eapply t_seq; [apply t_status_loaded|]. intros _. apply t_skip. }
  destruct (_ && _).
  { eapply t_seq; [apply t_markThreadRepair|]. intros _. apply t_skip. }
  eapply (t_try _ _ _ (fun _ => loaded)); [apply t_setStatus_loaded|intros []|done].
  eapply t_bind; [apply t_here|]. intros c1. eapply t_pre; [by intros c' v [-> H]; exact H|].
  eapply (t_try _ _ _ (fun _ => loaded)); [|intros []|done].
  { destruct (String.eqb _ _); [apply t_recover_new_thread|apply t_recover_known_thread]. }
  eapply t_bind; [apply t_here|]. intros c2.
  eapply (t_try _ _ _ (fun _ => loaded)); [|intros []|done].
  { eapply t_pre; [|apply t_review_controls]. by intros c' v [-> H]. }
  eapply t_seq; [by apply t_loaded_update|]. intros _.
  eapply t_bind; [apply t_here|]. intros c3. eapply t_pre; [by intros c' v [-> H]; exact H|].
  destruct (idle_ready c3); [|apply t_skip].
  eapply (t_try _ _ _ (fun _ => loaded)); [apply t_setStatus_loaded|intros []|done]. apply t_dispatchNext.
Qed.

(** ** Review decisions *)

Lemma finishes_shrinks cid o c v v' e : loaded c v -> finishes_control cid o v v' e -> loaded c v'.
Proof.
  intros [L1 L2 L3 L4 L5] HF. unfold finishes_control in HF. case_bool_decide; subst; [by split|]. split; simpl; try done.
  - intros x [Hx _]%without_id_elem. auto.
  - destruct L5 as [H1|[(x & H1 & H2 & H3)|H1]]; [by left|right; left|right; by right].
    exists x. split_and!; [done|done|]. simpl. by intros [? _]%without_id_elem.
Qed.

Lemma one_act (v : RoomView) t s : (length (v_acts v) <= 1)%nat -> (t, s) ∈ v_acts v -> without t (v_acts v) = [].
Proof.
  intros L Hin. destruct (v_acts v) as [|p [|q l]]; [done| |simpl in L; lia].
  apply list_elem_of_singleton in Hin as <-. unfold without. simpl. by rewrite String.eqb_refl.
Qed.

Lemma resolves_loaded t c v v' r :
  loaded c v -> view_ok v -> rr_Duplicate r = false -> resolves t v v' r -> loaded c v'.
Proof.
  intros [L1 L2 L3 L4 L5] Vo Ed HR. unfold resolves in HR. rewrite Ed in HR. destruct HR as (Hk & [HR|HR]).
  - destruct HR as ((s & Hin) & Ea & Ec). rewrite (one_act v t s) in Ea by done.
    assert (Hact : exists a, active (state c) = Some a).
    { destruct (active (state c)) as [a|]; [by exists a|]. rewrite L2 in Hin by done. by apply not_elem_of_nil in Hin. }
    destruct Hact as [a Ha]. split; rewrite ?Ea, ?Ec; simpl; auto.
    right. right. exists a. rewrite Ea. auto.
  - destruct HR as (Ht & Ea & [[Ec Eq]|Ec]).
    + split; rewrite ?Ea, ?Ec; auto.
      destruct L5 as [H1|[(x & H1 & H2 & H3)|(a & H1 & H2)]].
      * left. unfold synced in *. by rewrite Eq.
      * right. left. exists x. rewrite Ec. auto.
      * right. right. exists a. by rewrite Ea.
    + split; rewrite ?Ea; auto.
      * rewrite Ec. intros x [Hx _]%without_id_elem. auto.
      * right. left. exists t. split_and!; [auto|auto|]. rewrite Ec. by intros [_ ?]%without_id_elem.
Qed.
Lemma resolves_unloaded t c v v' r : unloaded c v -> rr_Duplicate r = false -> resolves t v v' r -> unloaded c v'.
Proof.
  intros [U1 U2 U3 U4] Ed HR. unfold resolves in HR. rewrite Ed in HR. split; try done.
  destruct HR as (_ & [((s & Hin) & Ea & _)|(_ & Ea & _)]); rewrite Ea; [|done]. rewrite (one_act v t s) by done. simpl. lia.
Qed.

Lemma t_retry_control rc P : triple P (retry_control rc) (fun _ => P).
Proof.
  unfold retry_control. eapply t_bind; [apply t_here|]. intros c. eapply t_pre; [by intros c' v [-> H]; exact H|].
  destruct (negb _); [apply t_skip|].
  destruct (rc_Kind rc); [apply t_skip| |]; (eapply t_seq; [apply t_deliver_control|intros sent; apply t_skip]).
Qed.

Lemma t_load_loaded : triple loaded loadRecovery (fun _ => loaded).
Proof. eapply t_post; [by apply t_loadRecovery; intros; left|]. by intros [] c v. Qed.

Lemma t_resolve actor i : triple safe (resolve actor i) (fun _ => safe).
Proof.
  unfold resolve. eapply t_bind; [apply t_here|]. intros c. eapply t_pre; [by intros c' v [-> H]; exact H|].
  destruct (negb _); [apply t_skip|]. apply t_view.
  eapply t_try; [apply (t_repo (fun rid => rp_ResolveReview rid actor i)), law_resolve|intros res|by intros e c' v [H _]].
  cbn [after]. destruct (rr_Duplicate res) eqn:Ed.
  { eapply t_pre; [|apply t_skip]. intros c' v (v0 & [H _] & HR). unfold resolves in HR. rewrite Ed in HR. by subst. }
  eapply (t_pre _ _ safe).
  { intros c' v (v0 & [[H|H] HV] & HR); [left; by eapply resolves_loaded|right; by eapply resolves_unloaded]. }
  eapply t_seq; [by apply t_freeze|]. intros _. eapply t_seq; [apply t_publish_all, quiet_safe|]. intros _.
  eapply t_bind; [apply t_here|]. intros c1. eapply t_pre; [by intros c' v [-> H]; exact H|].
  destruct (threadReady c1); cbn [negb]; [|apply t_skip].
  eapply t_try; [by apply t_loadRecovery|intros image|done]. cbn beta iota.
  apply (t_post _ _ _ (fun _ => loaded)); [|by intros; left].
  eapply t_bind; [apply t_here|]. intros c2. eapply t_pre; [by intros c' v [-> H]; exact H|].
  destruct (_ || _). { eapply t_seq; [apply t_status_loaded|]. intros _. apply t_skip. }
  eapply (t_try _ _ _ (fun _ => loaded)); [|intros retryErr|done].
  - destruct (rr_Retry res) as [rc|]; [|apply t_skip].
    eapply (t_try _ _ _ (fun _ => loaded)); [apply t_retry_control|intros [outcome retryErr]|done].
    eapply t_try; [apply (t_repo (fun rid => rp_FinishControl rid _ outcome)), law_finish_control|intros e|done].
    cbn [after]. eapply (t_pre _ _ loaded). { intros c' v (v0 & H & HF). by eapply finishes_shrinks. }
    eapply t_seq; [apply t_publish_loaded|]. intros _.
    eapply (t_try _ _ _ (fun _ => loaded)); [apply t_load_loaded|intros _; apply t_skip|done].
  - eapply t_bind; [apply t_here|]. intros c3. eapply t_pre; [by intros c' v [-> H]; exact H|].
    eapply (t_try _ _ _ (fun _ => loaded)); [|intros _; apply t_skip|done].
    destruct (may_resume c3); [|apply t_skip].
    eapply (t_try _ _ _ (fun _ => loaded)); [apply t_setStatus_loaded|intros []; apply t_dispatchNext|done].
Qed.

(** ** Private questions *)

Lemma t_question_update q P : quiet P -> triple P (update (set_question q)) (fun _ => P).
Proof. intros H. by apply t_quiet_update. Qed.
Lemma t_interrupt turn P : triple P (interrupt turn) (fun _ => P).
Proof.
  unfold interrupt. eapply t_bind; [apply t_here|]. intros c. eapply t_pre; [by intros c' v [-> H]; exact H|].
  eapply t_seq; [by apply t_act|]. intros _. eapply t_seq; [apply t_agent|]. intros _. apply t_skip.
Qed.

Lemma t_startQuestion cmd : triple safe (startQuestion cmd) (fun _ => safe).
Proof.
  unfold startQuestion. destruct (qc_cancelled cmd); [by apply t_act|].
  eapply t_bind; [apply t_here|]. intros c. eapply t_pre; [by intros c' v [-> H]; exact H|].
  destruct (busy c); [by apply t_act|].
  destruct ag_StartReadOnlyTurn as [start|], rp_journal as [j|] eqn:Ej; try (by apply t_act).
  eapply t_seq; [apply t_agent|]. intros [history|e]; [|by apply t_act].
  destruct (negb _); [by apply t_act|]. destruct (existsb _ _); [by apply t_act|].
  eapply t_seq; [by apply t_repo_stays, law_private_begin|]. intros [_|e]; [|by apply t_act].
  eapply t_seq; [by apply t_act|]. intros _. eapply t_seq; [apply t_agent|]. intros [turn|err].
  - apply t_question_update, quiet_safe.
  - assert (K1 : forall e, triple safe (update (set_status RoomRecovering);; act (Answer (qc_id cmd) None (Some e)) : M unit) (fun _ => safe)).
    { intros e. eapply t_seq; [by apply t_freeze|]. intros _. by apply t_act. }
    assert (K2 : triple safe (ended ← repo (fun rid => jn_EndPrivateTurn j rid (threadID (state c)) []);
                              match ended with
                              | Err e => update (set_status RoomRecovering);; act (Answer (qc_id cmd) None (Some e))
                              | Ok _ => act (Answer (qc_id cmd) None (Some err))
                              end : M unit) (fun _ => safe)).
    { eapply t_seq; [by apply t_repo_stays, law_private_end|]. intros [_|e]; [by apply t_act|apply K1]. }
    destruct (normalizedMutationError err) as [[]| | | |]; first [exact K2|apply K1].
Qed.

Lemma t_cancelQuestion id : triple safe (cancelQuestion id) (fun _ => safe).
Proof.
  unfold cancelQuestion. eapply t_bind; [apply t_here|]. intros c. eapply t_pre; [by intros c' v [-> H]; exact H|].
  destruct (question c) as [q|]; [|apply t_skip]. destruct (negb _); [apply t_skip|].
  eapply t_seq; [apply t_question_update, quiet_safe|]. intros _. apply t_interrupt.
Qed.

Lemma t_dispatch_or_fail : triple safe dispatch_or_fail (fun _ => safe).
Proof.
  unfold dispatch_or_fail. eapply t_seq; [apply t_dispatchNext_safe|]. intros [_|e]; [apply t_skip|].
  destruct (_ || _); [apply t_skip|apply t_failPersistence].
Qed.

Lemma t_finish_question q kind : triple safe (finish_question q kind) (fun _ => safe).
Proof.
  unfold finish_question. eapply t_bind; [apply t_here|]. intros c. eapply t_pre; [by intros c' v [-> H]; exact H|].
  eapply (t_seq _ _ _ safe).
  { destruct rp_journal as [j|] eqn:Ej; [by apply t_repo_stays, law_private_end|apply t_skip]. }
  intros ended. eapply (t_seq _ _ _ safe); [destruct ended; [apply t_skip|by apply t_freeze]|]. intros _.
  eapply t_seq; [by apply t_act|]. intros _. eapply t_seq; [apply t_question_update, quiet_safe|]. intros _.
  apply t_dispatch_or_fail.
Qed.

Lemma t_questionEvent e : triple safe (questionEvent e) (fun _ => safe).
Proof.
  unfold questionEvent. eapply t_bind; [apply t_here|]. intros c. eapply t_pre; [by intros c' v [-> H]; exact H|].
  destruct (question c) as [q|]; [|apply t_skip]. destruct (String.eqb _ _).
  { eapply t_seq; [by apply t_act|]. intros _. eapply t_seq; [apply t_question_update, quiet_safe|]. intros _. apply t_skip. }
  destruct (_ || _); [apply t_skip|]. eapply (t_seq _ _ _ safe); [|intros _; apply t_skip].
  destruct (String.eqb _ _).
  { destruct (ae_Completed e); [apply t_question_update, quiet_safe|apply t_skip]. }
  destruct (is_fault_kind _).
  { eapply t_seq; [apply t_question_update, quiet_safe|]. intros _. apply t_interrupt. }
  destruct (is_terminal_kind _); [apply t_finish_question|apply t_skip].
Qed.

(** ** Agent events *)

Lemma t_set_active_state_safe st : triple safe (update (set_active_state st)) (fun _ => safe).
Proof.
  eapply t_pre; [|by apply t_update]. intros c v [H|[]]; [left; by apply set_active_state_loaded|right].
  split; try done. simpl. by rewrite ul_active0.
Qed.

Lemma t_on_item e : triple safe (on_item e) (fun _ => safe).
Proof.
  unfold on_item. eapply t_bind; [apply t_here|]. intros c. eapply t_pre; [by intros c' v [-> H]; exact H|].
  destruct (_ || _); [apply t_skip|]. destruct (ae_Completed e) as [i|]; [|apply t_project, quiet_safe].
  eapply t_seq; [by apply t_repo_stays, law_item|]. intros [d|err]; [|apply t_failPersistence].
  eapply t_seq; [apply t_publish_safe|]. intros _. apply t_project, quiet_safe.
Qed.

Lemma turn_listens_active c turn : turn_listens c turn = true -> exists a, active (state c) = Some a /\ turn = tb_TurnID a.
Proof.
  unfold turn_listens. destruct (active (state c)) as [a|]; [|done]. intros [_ E]%andb_prop. exists a. split; [done|].
  symmetry. by apply String.eqb_eq.
Qed.
Lemma safe_active_loaded c v a : safe c v -> active (state c) = Some a -> loaded c v.
Proof. intros [H|[]] Ha; [done|congruence]. Qed.

Lemma t_on_terminal e : triple safe (on_terminal e) (fun _ => safe).
Proof.
  unfold on_terminal. eapply t_bind; [apply t_here|]. intros c.
  destruct (turn_listens c (ae_TurnID e)) eqn:El; cbn [negb orb].
  2: { eapply t_pre; [|apply t_skip]. by intros c' v [-> H]. }
  destruct (differs _ _). { eapply t_pre; [|apply t_skip]. by intros c' v [-> H]. }
  apply turn_listens_active in El as (a & Ha & Et).
  eapply (t_bind _ _ _ (fun r c v => match r with Ok _ => finishing c v | Err _ => loaded c v end)).
  { eapply t_pre; [|by eapply (t_finish_turn _ a c)]. intros c' v [-> H]. split; [done|]. by eapply safe_active_loaded. }
  intros [events|err].
  - eapply t_seq; [apply t_publish_all, core_quiet_quiet, finishing_core|]. intros _.
    eapply t_seq; [apply t_drop_turn, core_quiet_quiet, finishing_core|]. intros _.
    eapply (t_seq _ _ _ loaded); [by apply (t_update _ loaded)|]. intros _.
    destruct (String.eqb _ _); [apply (t_pre _ _ safe); [by left|apply t_dispatch_or_fail]|].
    eapply t_seq; [by apply t_loaded_update|]. intros _. eapply t_seq; [by apply t_repo_stays, law_status|].
    intros [ev|err]; [|apply (t_pre _ _ safe); [by left|apply t_failPersistence]].
    eapply t_seq; [apply t_publish_opt_loaded|]. intros _. eapply t_seq; [apply t_status_loaded|]. intros _.
    apply (t_pre _ _ safe); [by left|apply t_dispatch_or_fail].
  - apply (t_pre _ _ safe); [by left|apply t_failPersistence].
Qed.

Lemma t_on_fault e : triple safe (on_fault e) (fun _ => safe).
Proof.
  unfold on_fault. eapply t_bind; [apply t_here|]. intros c. eapply t_pre; [by intros c' v [-> H]; exact H|].
  destruct (active (state c)) as [b|]; [|apply t_failPersistence].
  destruct (negb _); [apply t_skip|]. destruct (_ || _); [apply t_skip|].
  eapply t_seq; [by apply t_freeze|]. intros _. eapply t_seq; [apply t_quiet_update; [apply quiet_safe|done..]|]. intros _.
  eapply t_seq; [by apply t_repo_stays, law_review|]. intros [ev|err]; [|apply t_failPersistence].
  eapply t_seq; [apply t_publish_safe|]. intros _. eapply t_seq; [apply t_set_active_state_safe|]. intros _.
  eapply t_seq; [by apply t_repo_stays, law_status|]. intros [o|err]; [|apply t_failPersistence].
  eapply t_seq; [apply t_publish_opt_safe|]. intros _. apply t_interrupt.
Qed.

Lemma t_on_unavailable e : triple safe (on_unavailable e) (fun _ => safe).
Proof.
  unfold on_unavailable. eapply t_seq; [apply t_quiet_update; [apply quiet_safe|done..]|]. intros _.
  eapply t_seq; [apply t_safe_thread|]. intros _.
  eapply t_seq; [apply t_quiet_update; [apply quiet_safe|done..]|]. intros _.
  eapply t_seq; [apply t_resetProjection, quiet_safe|]. intros _.
  eapply t_bind; [apply t_here|]. intros c. eapply t_pre; [by intros c' v [-> H]; exact H|].
  destruct (bool_decide _); [apply t_skip|]. eapply t_seq; [by apply t_freeze|]. intros _.
  eapply t_seq; [by apply t_repo_stays, law_status|]. intros se.
  eapply (t_seq _ _ _ safe); [destruct se; [apply t_publish_opt_safe|apply t_skip]|]. intros _.
  destruct (active (state c)) as [b|]; [|apply t_skip]. destruct (bool_decide _); [apply t_skip|].
  eapply t_seq; [by apply t_repo_stays, law_review|]. intros [ev|err]; [|apply t_skip].
  eapply t_seq; [apply t_publish_safe|]. intros _. apply t_set_active_state_safe.
Qed.

Lemma t_on_ready : triple safe on_ready (fun _ => safe).
Proof.
  unfold on_ready. eapply t_bind; [apply t_here|]. intros c. eapply t_pre; [by intros c' v [-> H]; exact H|].
  destruct (_ && _); [|apply t_skip]. eapply t_seq; [apply t_quiet_update; [apply quiet_safe|done..]|]. intros _.
  eapply t_seq; [apply t_recover|]. intros _. apply t_skip.
Qed.

Lemma t_handleAgentEvent e : triple safe (handleAgentEvent e) (fun _ => safe).
Proof.
  unfold handleAgentEvent. eapply t_seq; [apply t_questionEvent|]. intros []; [apply t_skip|].
  destruct (existsb _ _); [apply t_on_item|]. destruct (is_terminal_kind _); [apply t_on_terminal|].
  destruct (is_fault_kind _); [apply t_on_fault|]. destruct (String.eqb _ _); [apply t_on_unavailable|].
  destruct (String.eqb _ _); [apply t_on_ready|apply t_skip].
Qed.

Lemma t_handleCommand cmd : triple safe (handleCommand cmd) (fun _ => safe).
Proof.
  destruct cmd; cbn [handleCommand]; (eapply (t_seq _ _ _ safe); [|intros ?; apply t_skip]).
  - apply t_startQuestion.
  - apply t_cancelQuestion.
  - apply t_resolve.
  - apply t_recover.
  - apply t_handleSubmit.
  - apply t_handleControl.
  - intros w H. exact H.
Qed.

Lemma Run_holds l w : holds safe w -> holds safe (Run l w).1.
Proof.
  revert w. induction l as [|[cmd|e| |err] l IH]; intros w H; cbn [Run]; [done| | |done|done].
  - apply IH. exact (t_handleCommand cmd w H).
  - pose proof (t_handleAgentEvent e w H) as H'. cbv zeta. destruct (fatalErr _); [exact H'|by apply IH].
Qed.

(** ** Properties *)

(** A turn is started only for the oldest queued prompt of an idle room.
    Take any repository that keeps its contract, with at most one dispatched
    prompt at the start, any agent, and any sequence of commands and agent
    events after [NewCoordinator].  Whenever the coordinator asks the agent to
    start a turn, the prompt is the only one dispatched without an outcome, no
    control command awaits its outcome, and every prompt still queued was
    accepted later; and at most one prompt is ever dispatched. *)
Theorem coordinator_single_flight r a root c l :
  good r -> (length (v_acts (view r)) <= 1)%nat -> NewCoordinator rid root = Ok c ->
  let w := (Run l (mkWorld r a c [])).1 in
  (forall th cid text r', (CallStartTurn th cid text, r') ∈ w_trace w ->
     exists s, v_acts (view r') = [(cid, s)] /\ v_ctrls (view r') = [] /\ Forall (fun q => s < q.2) (v_queue (view r'))) /\
  (length (v_acts (view (w_repo w))) <= 1)%nat.
Proof.
  intros G N E w. unfold NewCoordinator in E. destruct (blank rid || blank root); [done|]. injection E as <-.
  assert (H : holds safe w).
  { apply Run_holds. split_and!; [done|constructor|done|]. right. by split. }
  destruct H as (_ & T & _ & S). split.
  - intros th cid text r' Hin. rewrite Forall_forall in T. exact (T _ Hin).
  - by destruct S as [[]|[]].
Qed.

End triples.
