(* ===== verification/CoordinatorFlow.v ===== *)
(** * Flow of the coordinator

    Facts about every handler that need no contract of the repository or the
    agent: the retry loop of a dispatch ends, the published watermark covers what
    was published, a frozen room asks nothing of the agent, and a private
    question leaves no trace in the room. *)
From S2P Require Import Prelude GoStrings Sha256 Json RoomTypes Projection Ports Coordinator.
Import Projection.

Section flow.
Context {R A : Type} `{!Repository R} `{!Agent A}.
Local Abbreviation M := (@M R A).
Local Abbreviation World := (World R A).

(** ** Preserving an assertion about the coordinator and the trace *)

Definition assertion : Type := Coordinator -> list (action * R) -> Prop.
Definition preserves {B} (I : assertion) (m : M B) : Prop :=
  forall w, I (w_coord w) (w_trace w) -> I (w_coord (m w).1) (w_trace (m w).1).

(** What the rules ask of an assertion: an update or an action it survives. *)
Definition survives_update (I : assertion) (f : Coordinator -> Coordinator) : Prop := forall c t, I c t -> I (f c) t.
Definition survives (I : assertion) (a : action) : Prop := forall c t r, I c t -> I c (t ++ [(a, r)]).

Lemma pr_ret {B} I (x : B) : preserves I (mret x).
Proof. by intros w H. Qed.
Lemma pr_bind {B C} I (m : M B) (k : B -> M C) : preserves I m -> (forall x, preserves I (k x)) -> preserves I (m ≫= k).
Proof. intros Hm Hk w H. unfold mbind, Proc_bind. specialize (Hm w H). destruct (m w) as [w' x]. by apply Hk. Qed.
Lemma pr_try {B C} I (m : M (result error B)) (k : B -> M (result error C)) :
  preserves I m -> (forall x, preserves I (k x)) -> preserves I (try_bind m k).
Proof. intros Hm Hk w H. unfold try_bind. specialize (Hm w H). destruct (m w) as [w' [x|e]]; [by apply Hk|done]. Qed.
Lemma pr_here {B} (I : assertion) (k : Coordinator -> M B) :
  (forall c, (exists t, I c t) -> preserves I (k c)) -> preserves I (here ≫= k).
Proof. intros H w Hw. apply (H (w_coord w)); [by exists (w_trace w)|done]. Qed.
Lemma pr_update I f : survives_update I f -> preserves I (update f).
Proof. intros H w Hw. by apply H. Qed.
Lemma pr_act I a : survives I a -> preserves I (act a).
Proof. intros H w Hw. by apply H. Qed.
Lemma pr_repo {B} I (f : RoomID -> R -> R * B) : preserves I (repo f).
Proof. intros w H. unfold repo. by destruct (f _ _). Qed.
Lemma pr_agent {B} I (f : A -> A * B) : preserves I (agent f).
Proof. intros w H. unfold agent. by destruct (f _). Qed.
Lemma pr_transients I l : (forall t, survives I (PublishTransient t)) -> preserves I (transients l).
Proof.
  intros H w Hw. unfold transients. simpl. induction l as [|t l IH] using rev_ind; [by rewrite app_nil_r|].
  rewrite fmap_app, app_assoc. by apply H.
Qed.

(** ** The watermark *)

(** Every durable event given to the sink is covered by the watermark of the
    coordinator, which never goes down. *)
Definition covered (n0 : Seq) : assertion := fun c t =>
  n0 <= latestSeq (state c) /\
  Forall (fun x => match x.1 with PublishDurable e => ev_Seq e <= latestSeq (state c) | _ => True end) t.

Lemma covered_update n0 f : (forall c, latestSeq (state c) <= latestSeq (state (f c))) -> survives_update (covered n0) f.
Proof.
  intros H c t [H1 H2]. specialize (H c). split; [lia|]. eapply Forall_impl; [exact H2|]. intros [[] r]; simpl; auto; lia.
Qed.
Lemma covered_act n0 a : match a with PublishDurable _ => False | _ => True end -> survives (covered n0) a.
Proof. intros Ha c t r [H1 H2]. split; [done|]. apply Forall_app. split; [done|]. apply Forall_singleton. by destruct a. Qed.
Lemma covered_publish n0 e : preserves (covered n0) (publish e).
Proof.
  intros w [H1 H2]. unfold publish, update, act, mbind, Proc_bind. simpl.
  destruct (Z.ltb_spec (latestSeq (state (w_coord w))) (ev_Seq e)); simpl; unfold covered; simpl.
  - split; [lia|]. apply Forall_app. split; [|apply Forall_singleton; simpl; lia].
    eapply Forall_impl; [exact H2|]. intros [[] r]; simpl; auto; lia.
  - split; [done|]. apply Forall_app. split; [done|]. apply Forall_singleton. simpl. lia.
Qed.

Create HintDb flow discriminated.
Hint Resolve pr_ret pr_repo pr_agent covered_publish : flow.

(** Walks a handler: one rule per construct of the procedure, case analysis on
    every test; updates and actions are left to [side]. *)
Ltac pr_walk side :=
  repeat lazymatch goal with
  | |- preserves _ (let _ := _ in _) => cbv zeta
  | |- preserves _ (here ≫= _) => apply pr_here; intros ? ?
  | |- preserves _ (mbind _ _) => apply pr_bind; [|intros ?]
  | |- preserves _ (try_bind _ _) => apply pr_try; [|intros ?]
  | |- preserves _ (update _) => apply pr_update; side
  | |- preserves _ (act _) => apply pr_act; side
  | |- preserves _ (transients _) => apply pr_transients; intros ?; side
  | |- preserves _ (match ?x with _ => _ end) => destruct x eqn:?
  | |- preserves _ _ => solve [auto with flow]
  end.
Ltac covered_side := first [apply covered_update; intros ?; simpl; try done; lia | by apply covered_act].

Section watermark.
Context (n0 : Seq).
Abbreviation I := (covered n0).

Lemma cv_publish_all l : preserves I (publish_all l).
Proof. induction l as [|e l IH]; cbn [publish_all]; pr_walk covered_side. Qed.
Lemma cv_publish_opt o : preserves I (publish_opt o).
Proof. destruct o; cbn [publish_opt]; auto with flow. Qed.
Lemma cv_failPersistence e : preserves I (failPersistence e).
Proof. unfold failPersistence. pr_walk covered_side. Qed.
Lemma cv_project e : preserves I (project e).
Proof. unfold project. pr_walk covered_side. Qed.
Lemma cv_drop_turn t : preserves I (drop_turn t).
Proof. unfold drop_turn. pr_walk covered_side. Qed.
Lemma cv_resetProjection : preserves I resetProjection.
Proof. unfold resetProjection. pr_walk covered_side. Qed.
Hint Resolve cv_publish_all cv_publish_opt cv_failPersistence cv_project cv_drop_turn cv_resetProjection : flow.

Lemma cv_dispatch_fuel n : preserves I (dispatch_fuel n).
Proof. induction n as [|n IH]; cbn [dispatch_fuel]; unfold start_turn; pr_walk covered_side. Qed.
Hint Resolve cv_dispatch_fuel : flow.
Lemma cv_dispatchNext : preserves I dispatchNext.
Proof. unfold dispatchNext. pr_walk covered_side. Qed.
Hint Resolve cv_dispatchNext : flow.
Lemma cv_dispatch_or_fail : preserves I dispatch_or_fail.
Proof. unfold dispatch_or_fail. pr_walk covered_side. Qed.
Lemma cv_handleSubmit actor i note : preserves I (handleSubmit actor i note).
Proof. unfold handleSubmit. pr_walk covered_side. Qed.
Lemma cv_finishControl got o e : preserves I (finishControl got o e).
Proof. unfold finishControl. pr_walk covered_side. Qed.
Lemma cv_deliver_control k t x : preserves I (deliver_control k t x).
Proof. unfold deliver_control. pr_walk covered_side. Qed.
Lemma cv_interrupt t : preserves I (interrupt t).
Proof. unfold interrupt. pr_walk covered_side. Qed.
Hint Resolve cv_dispatch_or_fail cv_finishControl cv_deliver_control cv_interrupt : flow.
Lemma cv_handleControl actor i : preserves I (handleControl actor i).
Proof. unfold handleControl. pr_walk covered_side. Qed.
Lemma cv_loadRecovery : preserves I loadRecovery.
Proof. unfold loadRecovery. pr_walk covered_side. Qed.
Lemma cv_setStatus st : preserves I (setStatus st).
Proof. unfold setStatus. pr_walk covered_side. Qed.
Lemma cv_markThreadRepair code e : preserves I (markThreadRepair code e).
Proof. unfold markThreadRepair. pr_walk covered_side. Qed.
Hint Resolve cv_loadRecovery cv_setStatus cv_markThreadRepair : flow.
Lemma cv_reconcile_items t o l : preserves I (reconcile_items t o l).
Proof. induction l as [|i l IH]; cbn [reconcile_items]; pr_walk covered_side. Qed.
Hint Resolve cv_reconcile_items : flow.
Lemma cv_reconcile_turns h l o : preserves I (reconcile_turns h o l).
Proof. revert o. induction l as [|t l IH]; intros o; cbn [reconcile_turns]; pr_walk covered_side. Qed.
Lemma cv_review_controls l done : preserves I (review_controls done l).
Proof. revert done. induction l as [|b l IH]; intros done; cbn [review_controls]; pr_walk covered_side. Qed.
Hint Resolve cv_reconcile_turns cv_review_controls : flow.
Lemma cv_reconcileHistory l : preserves I (reconcileHistory l).
Proof. unfold reconcileHistory. pr_walk covered_side. Qed.
Lemma cv_recover_new_thread : preserves I recover_new_thread.
Proof. unfold recover_new_thread. pr_walk covered_side. Qed.
Hint Resolve cv_reconcileHistory cv_recover_new_thread : flow.
Lemma cv_recover_known_thread : preserves I recover_known_thread.
Proof. unfold recover_known_thread. pr_walk covered_side. Qed.
Hint Resolve cv_recover_known_thread : flow.
Lemma cv_recover : preserves I recover.
Proof. unfold recover. pr_walk covered_side. Qed.
Lemma cv_retry_control rc : preserves I (retry_control rc).
Proof. unfold retry_control. pr_walk covered_side. Qed.
Hint Resolve cv_recover cv_retry_control : flow.
Lemma cv_resolve actor i : preserves I (resolve actor i).
Proof. unfold resolve. pr_walk covered_side. Qed.
Lemma cv_startQuestion q : preserves I (startQuestion q).
Proof. unfold startQuestion. pr_walk covered_side. Qed.
Lemma cv_cancelQuestion id : preserves I (cancelQuestion id).
Proof. unfold cancelQuestion. pr_walk covered_side. Qed.
Lemma cv_questionEvent e : preserves I (questionEvent e).
Proof. unfold questionEvent, finish_question. pr_walk covered_side. Qed.
Hint Resolve cv_resolve cv_startQuestion cv_cancelQuestion cv_questionEvent cv_handleSubmit cv_handleControl : flow.
Lemma cv_handleAgentEvent e : preserves I (handleAgentEvent e).
Proof. unfold handleAgentEvent, on_item, on_terminal, on_fault, on_unavailable, on_ready. pr_walk covered_side. Qed.
Lemma cv_snapshot : preserves I snapshot.
Proof. by intros w H. Qed.
Hint Resolve cv_snapshot : flow.
Lemma cv_handleCommand cmd : preserves I (handleCommand cmd).
Proof. destruct cmd; cbn [handleCommand]; pr_walk covered_side. Qed.
Lemma cv_Run l w : I (w_coord w) (w_trace w) -> I (w_coord (Run l w).1) (w_trace (Run l w).1).
Proof.
  revert w. induction l as [|[cmd|e| |err] l IH]; intros w H; cbn [Run]; [done| | |done|done].
  - apply IH. by apply cv_handleCommand.
  - pose proof (cv_handleAgentEvent e w H). cbv zeta. destruct (fatalErr _); [done|by apply IH].
Qed.
End watermark.

(** ** A frozen room *)

(** Asking the agent for new work. *)
Definition is_work (a : action) : bool :=
  match a with
  | CallStartThread | CallStartTurn _ _ _ | CallSteerTurn _ _ _ | CallStartReadOnlyTurn _ _ _ => true
  | _ => false
  end.
(** Not ready, and nothing but what is in [t0] was asked. *)
Definition frozen (t0 : list (action * R)) : assertion := fun c t =>
  status (state c) <> RoomReady /\ exists new, t = t0 ++ new /\ Forall (fun x => is_work x.1 = false) new.
(** The inputs that may end a freeze: recovery, a review decision, the agent
    being ready again, and the end of the running turn. *)
Definition thaws (i : input) : bool :=
  match i with
  | InCommand RecoverCommand | InCommand (ResolveCommand _ _) => true
  | InEvent e => is_terminal_kind (ae_Kind e) || String.eqb (ae_Kind e) "runtime-ready"
  | _ => false
  end.

Lemma frozen_update t0 f :
  (forall c, status (state c) <> RoomReady -> status (state (f c)) <> RoomReady) -> survives_update (frozen t0) f.
Proof. intros H c t [H1 H2]. split; auto. Qed.
Lemma frozen_act t0 a : is_work a = false -> survives (frozen t0) a.
Proof.
  intros Ha c t r [H1 (new & -> & H2)]. split; [done|]. exists (new ++ [(a, r)]). split; [by rewrite app_assoc|].
  apply Forall_app. split; [done|]. by apply Forall_singleton.
Qed.
Lemma frozen_publish t0 e : preserves (frozen t0) (publish e).
Proof.
  unfold publish. apply pr_bind; [|intros _; apply pr_act; by apply frozen_act].
  apply pr_update, frozen_update. intros c H. by destruct (_ <? _).
Qed.
Lemma frozen_not_ready t0 c : (exists t, frozen t0 c t) -> bool_decide (status (state c) = RoomReady) = false.
Proof. intros (t & H & _). by apply bool_decide_eq_false_2. Qed.
Lemma frozen_can_dispatch t0 c : (exists t, frozen t0 c t) -> can_dispatch c = false.
Proof.
  intros H%frozen_not_ready. unfold can_dispatch.
  by destruct (question c), (active (state c)), (pendingControls (state c)), (queue (state c)).
Qed.

Lemma frozen_not_current t0 c t : (exists t, frozen t0 c t) -> turn_is_current c t = false.
Proof. intros H. unfold turn_is_current. by rewrite (frozen_not_ready _ _ H). Qed.
Lemma frozen_busy t0 c : (exists t, frozen t0 c t) -> busy c = true.
Proof. intros H. unfold busy. rewrite (frozen_not_ready _ _ H). simpl. by rewrite !orb_true_r. Qed.

Section frozen.
Context (t0 : list (action * R)).
Abbreviation I := (frozen t0).

Hint Resolve frozen_publish : flow.
Ltac frozen_side := first [apply frozen_update; intros ? ?; done | apply frozen_act; done].

Lemma fz_publish_opt o : preserves I (publish_opt o).
Proof. destruct o; cbn [publish_opt]; auto with flow. Qed.
Lemma fz_failPersistence e : preserves I (failPersistence e).
Proof. unfold failPersistence. pr_walk frozen_side. Qed.
Lemma fz_project e : preserves I (project e).
Proof. unfold project. pr_walk frozen_side. Qed.
Lemma fz_resetProjection : preserves I resetProjection.
Proof. unfold resetProjection. pr_walk frozen_side. Qed.
Hint Resolve fz_publish_opt fz_failPersistence fz_project fz_resetProjection : flow.

Lemma fz_dispatchNext : preserves I dispatchNext.
Proof.
  unfold dispatchNext. apply pr_here. intros c Hc. destruct (length _); cbn [dispatch_fuel];
    (apply pr_here; intros c' Hc'; rewrite (frozen_can_dispatch _ _ Hc'); apply pr_ret).
Qed.
Hint Resolve fz_dispatchNext : flow.
Lemma fz_handleSubmit actor i note : preserves I (handleSubmit actor i note).
Proof. unfold handleSubmit. pr_walk frozen_side. Qed.
Lemma fz_finishControl got o e : preserves I (finishControl got o e).
Proof. unfold finishControl. pr_walk frozen_side. Qed.
Hint Resolve fz_finishControl : flow.
Lemma fz_handleControl actor i : preserves I (handleControl actor i).
Proof.
  unfold handleControl. pr_walk frozen_side.
  all: rename select (negb (turn_is_current _ _) = false) into T; by erewrite frozen_not_current in T by eassumption.
Qed.
Lemma fz_interrupt t : preserves I (interrupt t).
Proof. unfold interrupt. pr_walk frozen_side. Qed.
Hint Resolve fz_interrupt : flow.
Lemma fz_startQuestion q : preserves I (startQuestion q).
Proof.
  unfold startQuestion. destruct (qc_cancelled q); [pr_walk frozen_side|]. apply pr_here. intros c Hc.
  rewrite (frozen_busy _ _ Hc). pr_walk frozen_side.
Qed.
Lemma fz_cancelQuestion id : preserves I (cancelQuestion id).
Proof. unfold cancelQuestion. pr_walk frozen_side. Qed.
Lemma fz_questionEvent e : is_terminal_kind (ae_Kind e) = false -> preserves I (questionEvent e).
Proof. intros H. unfold questionEvent. rewrite H. pr_walk frozen_side. Qed.
Lemma fz_snapshot : preserves I snapshot.
Proof. by intros w H. Qed.
Hint Resolve fz_handleSubmit fz_handleControl fz_startQuestion fz_cancelQuestion fz_questionEvent fz_snapshot : flow.
Lemma fz_event e : thaws (InEvent e) = false -> preserves I (handleAgentEvent e).
Proof.
  intros [H1 H2]%orb_false_elim. unfold handleAgentEvent. rewrite H1, H2.
  unfold on_item, on_fault, on_unavailable. pr_walk frozen_side.
Qed.
Lemma fz_command cmd : thaws (InCommand cmd) = false -> preserves I (handleCommand cmd).
Proof. destruct cmd; try done; intros _; cbn [handleCommand]; pr_walk frozen_side. Qed.
Lemma fz_Run l w : forallb (fun i => negb (thaws i)) l = true ->
  I (w_coord w) (w_trace w) -> I (w_coord (Run l w).1) (w_trace (Run l w).1).
Proof.
  revert w. induction l as [|[cmd|e| |err] l IH]; intros w; cbn [forallb Run]; [done| | |done|done];
    intros [Hi Hl]%andb_prop H; apply negb_true_iff in Hi.
  - apply IH; [done|]. by apply fz_command.
  - pose proof (fz_event e Hi w H). cbv zeta. destruct (fatalErr _); [done|by apply IH].
Qed.
End frozen.

(** ** The retry loop *)

(** Two amounts of fuel that cover the queue give the same result. *)
Lemma dispatch_fuel_any n m w :
  (length (queue (state (w_coord w))) <= n)%nat -> (length (queue (state (w_coord w))) <= m)%nat ->
  dispatch_fuel n w = dispatch_fuel m w.
Proof.
  revert m w. induction n as [|n IH]; intros [|m] w Hn Hm; [done| | |].
  1, 2: assert (Q : queue (state (w_coord w)) = []) by (destruct (queue (state (w_coord w))); [done|simpl in *; lia]);
    cbn [dispatch_fuel]; unfold mbind, Proc_bind, here; simpl;
    assert (D : can_dispatch (w_coord w) = false)
      by (unfold can_dispatch; rewrite Q; by destruct (question (w_coord w)), (active (state (w_coord w))), (pendingControls (state (w_coord w))));
    by rewrite D.
  cbn [dispatch_fuel]. unfold mbind, Proc_bind, here. simpl. destruct (can_dispatch (w_coord w)); [|done]. simpl.
  destruct (queue (state (w_coord w))) as [|next rest] eqn:Q; [done|]. simpl in Hn, Hm.
  unfold try_bind, repo, start_turn, act, agent, update, mbind, Proc_bind, here. simpl.
  destruct (rp_BeginDispatch _ _ _) as [r1 [[]|e1]]; [|done]. simpl.
  match goal with |- (let '(_, _) := ?x in _) = _ => destruct x as [w1 started] eqn:St end.
  assert (Qs : queue (state (w_coord w1)) = next :: rest).
  { destruct ag_StartTurnFor as [f|];
      match type of St with (let '(_, _) := (let '(_, _) := ?x in _) in _) = _ => destruct x | _ => idtac end;
      match type of St with (let '(_, _) := ?x in _) = _ => destruct x end; injection St as <- _; exact Q. }
  destruct started as [turn|err]; [done|].
  destruct (mutationFailure err) as [[code digest] []]; [|done].
  destruct (rp_FailDispatch _ _ _ _) as [r2 [e2|e2]]; [|done]. unfold publish, update, act, mbind, Proc_bind. simpl.
  match goal with |- (let '(_, _) := dispatch_fuel n ?x in _) = _ => rewrite (IH m x) end; [done| |];
    simpl; destruct (_ <? _); simpl; rewrite Qs; simpl; lia.
Qed.

(** ** Properties *)

(** C17: The dispatch loop ends.  [dispatchNext] calls itself after every turn
    that was not delivered, each time with one message less in the queue: bounded
    by the length of the queue it gives the same world and the same result as
    with any larger bound. *)
Theorem dispatch_terminates n w :
  dispatch_fuel (length (queue (state (w_coord w))) + n) w = dispatchNext w.
Proof. unfold dispatchNext, mbind, Proc_bind, here. apply dispatch_fuel_any; lia. Qed.

(** A snapshot's watermark covers what was published.  From a new
    coordinator on, with any repository and agent, after any inputs every durable
    event given to the sink has at most the sequence number the snapshot reports,
    and the number a later snapshot reports is not smaller. *)
Theorem watermark_covers_published rid root r a l1 l2 :
  match NewCoordinator rid root with
  | Err _ => True
  | Ok c =>
      let w1 := (Run l1 (mkWorld r a c [])).1 in
      let w2 := (Run l2 w1).1 in
      sn_LatestSeq (snapshot w1).2 <= sn_LatestSeq (snapshot w2).2 /\
      Forall (fun x => match x.1 with PublishDurable e => ev_Seq e <= sn_LatestSeq (snapshot w2).2 | _ => True end)
        (w_trace w2)
  end.
Proof.
  unfold NewCoordinator. destruct (blank rid || blank root); [done|]. cbv zeta. set (w := mkWorld _ _ _ _).
  pose proof (cv_Run 0 l1 w (conj (Z.le_refl 0) (Forall_nil_2 _))) as [_ H1]. revert H1. generalize (Run l1 w).1. clear w.
  intros w1 H1. exact (cv_Run (latestSeq (state (w_coord w1))) l2 w1 (conj (Z.le_refl _) H1)).
Qed.

(** A frozen room fails closed.  While the room is not ready, submissions,
    notes, controls, snapshots, questions and agent events leave it not ready and
    ask the agent for no work: no thread, no turn, no steering and no question is
    started, until a recovery, a review decision, a ready notice or the end of the
    running turn. *)
Theorem frozen_room_asks_nothing w l :
  status (state (w_coord w)) <> RoomReady -> forallb (fun i => negb (thaws i)) l = true ->
  let w' := (Run l w).1 in
  status (state (w_coord w')) <> RoomReady /\
  exists new, w_trace w' = w_trace w ++ new /\ Forall (fun x => is_work x.1 = false) new.
Proof.
  intros Hs Hl. apply (fz_Run (w_trace w) l w Hl). split; [done|]. exists []. by rewrite app_nil_r.
Qed.

(** A private question leaves no trace in the room.  While a question is
    open, an event of its turn other than its end is consumed without touching
    the repository, the room's state or the live projection, and nothing is
    published: at most the turn is asked to stop. *)
Theorem private_turn_invisible w e q :
  question (w_coord w) = Some q -> differs (event_thread e) (threadID (state (w_coord w))) = false ->
  differs (event_turn e) (pq_turn q) = false -> is_terminal_kind (ae_Kind e) = false ->
  ae_Kind e <> "runtime-unavailable" ->
  let w' := (handleAgentEvent e w).1 in
  w_repo w' = w_repo w /\ state (w_coord w') = state (w_coord w) /\ projection (w_coord w') = projection (w_coord w) /\
  exists new, w_trace w' = w_trace w ++ new /\
    Forall (fun x => x.1 = CallInterruptTurn (threadID (state (w_coord w))) (pq_turn q)) new.
Proof.
  intros Hq H1 H2 H3 H4. unfold handleAgentEvent, questionEvent, mbind, Proc_bind, here. simpl. rewrite Hq.
  rewrite (proj2 (String.eqb_neq _ _) H4), H1, H2, H3. simpl.
  destruct (String.eqb (ae_Kind e) "item-completed"); [destruct (ae_Completed e)|destruct (is_fault_kind (ae_Kind e))].
  3: { unfold interrupt, update, act, agent, mbind, Proc_bind, here. simpl. destruct (ag_InterruptTurn _ _ _) as [a x]. simpl.
       split_and!; [done..|]. eexists. split; [done|]. by apply Forall_singleton. }
  all: split_and!; [done..|]; exists []; split; [by rewrite app_nil_r|done].
Qed.
End flow.
