(* ===== verification/StoreSchema.v ===== *)
(** * Store schema ([internal/store/schema/*.sql], [sqlite.go])

    The tables as lists of row records in rowid order, the SQL statements the
    store issues as functions on them, and the transaction wrapper.  Constraints
    (primary keys, UNIQUE, foreign keys) are checked by the insert primitives, as
    the engine does with [foreign_keys(ON)]; a violated constraint is an error
    with the engine's ["constraint failed"] text.  CHECK constraints on
    enumerations hold by typing: the columns have enumeration types and the
    operations validate their inputs first.

    Timestamps are nanoseconds; [TimeCorrupt] stands for a text [decodeTime]
    refuses. *)
From S2P Require Import Prelude GoStrings Json RoomTypes.

Inductive MessageKind := KPrompt | KNote | KSteer | KCancel | KRecover | KRecoveryPrompt.
#[export] Instance MessageKind_eq_dec : EqDecision MessageKind.
Proof. solve_decision. Defined.
Definition MessageKind_string (k : MessageKind) : string :=
  match k with
  | KPrompt => "prompt" | KNote => "note" | KSteer => "steer" | KCancel => "cancel"
  | KRecover => "recover" | KRecoveryPrompt => "recovery-prompt"
  end.

Inductive TimeText := TimeOk (t : Z) | TimeCorrupt (raw : string).
#[export] Instance TimeText_eq_dec : EqDecision TimeText.
Proof. solve_decision. Defined.
(** [encodeTime], [decodeTime]: RFC 3339 with nanoseconds, in UTC. *)
Definition encodeTime (t : Z) : TimeText := TimeOk t.
Definition decodeTime (t : TimeText) : option Z :=
  match t with TimeOk t => Some t | TimeCorrupt _ => None end.

(** ** Rows *)

Record RoomRow :=
  { r_id : RoomID; r_display_name : string; r_host_id : string; r_project_path : string;
    r_owner : UID; r_thread : option string; r_status : RoomStatus; r_next_seq : Z; r_schema_version : Z }.
Record MemberRow := { m_room : RoomID; m_uid : UID; m_username : string; m_added_at : Z }.
Record RoleRow := { ro_room : RoomID; ro_uid : UID; ro_role : string }.
Record MessageRow :=
  { msg_id : Z; msg_room : RoomID; msg_client : ClientMessageID; msg_actor : UID; msg_kind : MessageKind;
    msg_body : string; msg_hash : string; msg_state : RequestState; msg_seq : Seq; msg_created : Z }.
Record BindingRow :=
  { bd_room : RoomID; bd_message : Z; bd_turn : option string; bd_state : RequestState;
    bd_started : option Z; bd_completed : option Z; bd_code : option string; bd_digest : option string }.
Record ConnectionRow :=
  { cn_id : ConnectionID; cn_room : RoomID; cn_member : UID; cn_connected : TimeText;
    cn_disconnected : option TimeText; cn_ack : Seq }.
Record EventRow := { e_room : RoomID; e_event : DurableEvent }.
Record CheckpointRow := { cpr_room : RoomID; cpr_value : RuntimeCheckpoint }.
Record RecoveryResultRow := { rs_message : Z; rs_room : RoomID; rs_target : Z; rs_action : RecoveryAction }.
Record RecoveryEventRow := { re_message : Z; re_ordinal : Z; re_room : RoomID; re_seq : Seq }.
Record PrivateTurnRow := { pt_room : RoomID; pt_thread : ThreadID; pt_turn : TurnID }.
#[export] Instance PrivateTurnRow_eq_dec : EqDecision PrivateTurnRow.
Proof. solve_decision. Defined.
Record FrontierRow := { fr_room : RoomID; fr_thread : ThreadID; fr_baseline : list TurnID }.
Record TaskRow :=
  { t_id : Z; t_room : RoomID; t_number : Z; t_source_message : Z; t_source_seq : Seq; t_title : string;
    t_acceptance : string; t_revision : Z; t_created : Z; t_updated : Z; t_completed : option Z;
    t_completed_by : string }.
Record TaskMessageRow := { tm_room : RoomID; tm_task : Z; tm_message : Z }.
Record TaskChangeRow :=
  { tc_id : Z; tc_room : RoomID; tc_task : Z; tc_action : string; tc_actor : string; tc_created : Z; tc_note : string }.
Record ReceiptRow :=
  { rcp_room : RoomID; rcp_uid : UID; rcp_request : string; rcp_task : Z; rcp_hash : string }.
Record JoinRow :=
  { j_id : string; j_room : RoomID; j_token_hash : string; j_name : string; j_state : string;
    j_address : string; j_uid : UID; j_created : Z }.

(** ** The database *)

Record DB := mkDB
  { rooms : list RoomRow;
    members : list MemberRow;
    member_roles : list RoleRow;
    messages : list MessageRow;
    turn_bindings : list BindingRow;
    client_connections : list ConnectionRow;
    room_events : list EventRow;
    runtime_checkpoints : list CheckpointRow;
    recovery_results : list RecoveryResultRow;
    recovery_result_events : list RecoveryEventRow;
    private_turns : list PrivateTurnRow;
    private_turn_frontiers : list FrontierRow;
    project_tasks : list TaskRow;
    task_messages : list TaskMessageRow;
    task_changes : list TaskChangeRow;
    task_receipts : list ReceiptRow;
    join_requests : list JoinRow;
    messages_autoinc : Z;
    tasks_autoinc : Z;
    changes_autoinc : Z }.

Definition set_rooms (f : list RoomRow -> list RoomRow) (d : DB) : DB :=
  mkDB (f (rooms d)) (members d) (member_roles d) (messages d) (turn_bindings d) (client_connections d) (room_events d) (runtime_checkpoints d) (recovery_results d) (recovery_result_events d) (private_turns d) (private_turn_frontiers d) (project_tasks d) (task_messages d) (task_changes d) (task_receipts d) (join_requests d) (messages_autoinc d) (tasks_autoinc d) (changes_autoinc d).
Definition set_members (f : list MemberRow -> list MemberRow) (d : DB) : DB :=
  mkDB (rooms d) (f (members d)) (member_roles d) (messages d) (turn_bindings d) (client_connections d) (room_events d) (runtime_checkpoints d) (recovery_results d) (recovery_result_events d) (private_turns d) (private_turn_frontiers d) (project_tasks d) (task_messages d) (task_changes d) (task_receipts d) (join_requests d) (messages_autoinc d) (tasks_autoinc d) (changes_autoinc d).
Definition set_member_roles (f : list RoleRow -> list RoleRow) (d : DB) : DB :=
  mkDB (rooms d) (members d) (f (member_roles d)) (messages d) (turn_bindings d) (client_connections d) (room_events d) (runtime_checkpoints d) (recovery_results d) (recovery_result_events d) (private_turns d) (private_turn_frontiers d) (project_tasks d) (task_messages d) (task_changes d) (task_receipts d) (join_requests d) (messages_autoinc d) (tasks_autoinc d) (changes_autoinc d).
Definition set_messages (f : list MessageRow -> list MessageRow) (d : DB) : DB :=
  mkDB (rooms d) (members d) (member_roles d) (f (messages d)) (turn_bindings d) (client_connections d) (room_events d) (runtime_checkpoints d) (recovery_results d) (recovery_result_events d) (private_turns d) (private_turn_frontiers d) (project_tasks d) (task_messages d) (task_changes d) (task_receipts d) (join_requests d) (messages_autoinc d) (tasks_autoinc d) (changes_autoinc d).
Definition set_turn_bindings (f : list BindingRow -> list BindingRow) (d : DB) : DB :=
  mkDB (rooms d) (members d) (member_roles d) (messages d) (f (turn_bindings d)) (client_connections d) (room_events d) (runtime_checkpoints d) (recovery_results d) (recovery_result_events d) (private_turns d) (private_turn_frontiers d) (project_tasks d) (task_messages d) (task_changes d) (task_receipts d) (join_requests d) (messages_autoinc d) (tasks_autoinc d) (changes_autoinc d).
Definition set_client_connections (f : list ConnectionRow -> list ConnectionRow) (d : DB) : DB :=
  mkDB (rooms d) (members d) (member_roles d) (messages d) (turn_bindings d) (f (client_connections d)) (room_events d) (runtime_checkpoints d) (recovery_results d) (recovery_result_events d) (private_turns d) (private_turn_frontiers d) (project_tasks d) (task_messages d) (task_changes d) (task_receipts d) (join_requests d) (messages_autoinc d) (tasks_autoinc d) (changes_autoinc d).
Definition set_room_events (f : list EventRow -> list EventRow) (d : DB) : DB :=
  mkDB (rooms d) (members d) (member_roles d) (messages d) (turn_bindings d) (client_connections d) (f (room_events d)) (runtime_checkpoints d) (recovery_results d) (recovery_result_events d) (private_turns d) (private_turn_frontiers d) (project_tasks d) (task_messages d) (task_changes d) (task_receipts d) (join_requests d) (messages_autoinc d) (tasks_autoinc d) (changes_autoinc d).
Definition set_runtime_checkpoints (f : list CheckpointRow -> list CheckpointRow) (d : DB) : DB :=
  mkDB (rooms d) (members d) (member_roles d) (messages d) (turn_bindings d) (client_connections d) (room_events d) (f (runtime_checkpoints d)) (recovery_results d) (recovery_result_events d) (private_turns d) (private_turn_frontiers d) (project_tasks d) (task_messages d) (task_changes d) (task_receipts d) (join_requests d) (messages_autoinc d) (tasks_autoinc d) (changes_autoinc d).
Definition set_recovery_results (f : list RecoveryResultRow -> list RecoveryResultRow) (d : DB) : DB :=
  mkDB (rooms d) (members d) (member_roles d) (messages d) (turn_bindings d) (client_connections d) (room_events d) (runtime_checkpoints d) (f (recovery_results d)) (recovery_result_events d) (private_turns d) (private_turn_frontiers d) (project_tasks d) (task_messages d) (task_changes d) (task_receipts d) (join_requests d) (messages_autoinc d) (tasks_autoinc d) (changes_autoinc d).
Definition set_recovery_result_events (f : list RecoveryEventRow -> list RecoveryEventRow) (d : DB) : DB :=
  mkDB (rooms d) (members d) (member_roles d) (messages d) (turn_bindings d) (client_connections d) (room_events d) (runtime_checkpoints d) (recovery_results d) (f (recovery_result_events d)) (private_turns d) (private_turn_frontiers d) (project_tasks d) (task_messages d) (task_changes d) (task_receipts d) (join_requests d) (messages_autoinc d) (tasks_autoinc d) (changes_autoinc d).
Definition set_private_turns (f : list PrivateTurnRow -> list PrivateTurnRow) (d : DB) : DB :=
  mkDB (rooms d) (members d) (member_roles d) (messages d) (turn_bindings d) (client_connections d) (room_events d) (runtime_checkpoints d) (recovery_results d) (recovery_result_events d) (f (private_turns d)) (private_turn_frontiers d) (project_tasks d) (task_messages d) (task_changes d) (task_receipts d) (join_requests d) (messages_autoinc d) (tasks_autoinc d) (changes_autoinc d).
Definition set_private_turn_frontiers (f : list FrontierRow -> list FrontierRow) (d : DB) : DB :=
  mkDB (rooms d) (members d) (member_roles d) (messages d) (turn_bindings d) (client_connections d) (room_events d) (runtime_checkpoints d) (recovery_results d) (recovery_result_events d) (private_turns d) (f (private_turn_frontiers d)) (project_tasks d) (task_messages d) (task_changes d) (task_receipts d) (join_requests d) (messages_autoinc d) (tasks_autoinc d) (changes_autoinc d).
Definition set_project_tasks (f : list TaskRow -> list TaskRow) (d : DB) : DB :=
  mkDB (rooms d) (members d) (member_roles d) (messages d) (turn_bindings d) (client_connections d) (room_events d) (runtime_checkpoints d) (recovery_results d) (recovery_result_events d) (private_turns d) (private_turn_frontiers d) (f (project_tasks d)) (task_messages d) (task_changes d) (task_receipts d) (join_requests d) (messages_autoinc d) (tasks_autoinc d) (changes_autoinc d).
Definition set_task_messages (f : list TaskMessageRow -> list TaskMessageRow) (d : DB) : DB :=
  mkDB (rooms d) (members d) (member_roles d) (messages d) (turn_bindings d) (client_connections d) (room_events d) (runtime_checkpoints d) (recovery_results d) (recovery_result_events d) (private_turns d) (private_turn_frontiers d) (project_tasks d) (f (task_messages d)) (task_changes d) (task_receipts d) (join_requests d) (messages_autoinc d) (tasks_autoinc d) (changes_autoinc d).
Definition set_task_changes (f : list TaskChangeRow -> list TaskChangeRow) (d : DB) : DB :=
  mkDB (rooms d) (members d) (member_roles d) (messages d) (turn_bindings d) (client_connections d) (room_events d) (runtime_checkpoints d) (recovery_results d) (recovery_result_events d) (private_turns d) (private_turn_frontiers d) (project_tasks d) (task_messages d) (f (task_changes d)) (task_receipts d) (join_requests d) (messages_autoinc d) (tasks_autoinc d) (changes_autoinc d).
Definition set_task_receipts (f : list ReceiptRow -> list ReceiptRow) (d : DB) : DB :=
  mkDB (rooms d) (members d) (member_roles d) (messages d) (turn_bindings d) (client_connections d) (room_events d) (runtime_checkpoints d) (recovery_results d) (recovery_result_events d) (private_turns d) (private_turn_frontiers d) (project_tasks d) (task_messages d) (task_changes d) (f (task_receipts d)) (join_requests d) (messages_autoinc d) (tasks_autoinc d) (changes_autoinc d).
Definition set_join_requests (f : list JoinRow -> list JoinRow) (d : DB) : DB :=
  mkDB (rooms d) (members d) (member_roles d) (messages d) (turn_bindings d) (client_connections d) (room_events d) (runtime_checkpoints d) (recovery_results d) (recovery_result_events d) (private_turns d) (private_turn_frontiers d) (project_tasks d) (task_messages d) (task_changes d) (task_receipts d) (f (join_requests d)) (messages_autoinc d) (tasks_autoinc d) (changes_autoinc d).
Definition set_messages_autoinc (f : Z -> Z) (d : DB) : DB :=
  mkDB (rooms d) (members d) (member_roles d) (messages d) (turn_bindings d) (client_connections d) (room_events d) (runtime_checkpoints d) (recovery_results d) (recovery_result_events d) (private_turns d) (private_turn_frontiers d) (project_tasks d) (task_messages d) (task_changes d) (task_receipts d) (join_requests d) (f (messages_autoinc d)) (tasks_autoinc d) (changes_autoinc d).
Definition set_tasks_autoinc (f : Z -> Z) (d : DB) : DB :=
  mkDB (rooms d) (members d) (member_roles d) (messages d) (turn_bindings d) (client_connections d) (room_events d) (runtime_checkpoints d) (recovery_results d) (recovery_result_events d) (private_turns d) (private_turn_frontiers d) (project_tasks d) (task_messages d) (task_changes d) (task_receipts d) (join_requests d) (messages_autoinc d) (f (tasks_autoinc d)) (changes_autoinc d).
Definition set_changes_autoinc (f : Z -> Z) (d : DB) : DB :=
  mkDB (rooms d) (members d) (member_roles d) (messages d) (turn_bindings d) (client_connections d) (room_events d) (runtime_checkpoints d) (recovery_results d) (recovery_result_events d) (private_turns d) (private_turn_frontiers d) (project_tasks d) (task_messages d) (task_changes d) (task_receipts d) (join_requests d) (messages_autoinc d) (tasks_autoinc d) (f (changes_autoinc d)).

Definition empty_db : DB := mkDB [] [] [] [] [] [] [] [] [] [] [] [] [] [] [] [] [] 0 0 0.

(** ** Queries *)

Definition in_room {A} (room_of : A -> RoomID) (rid : RoomID) (x : A) : bool := String.eqb (room_of x) rid.

Definition find_room (d : DB) (rid : RoomID) : option RoomRow := List.find (in_room r_id rid) (rooms d).
Definition is_member (rid : RoomID) (uid : UID) (m : MemberRow) : bool := in_room m_room rid m && (m_uid m =? uid).
Definition find_member (d : DB) (rid : RoomID) (uid : UID) : option MemberRow :=
  List.find (is_member rid uid) (members d).
Definition is_client (rid : RoomID) (cid : ClientMessageID) (m : MessageRow) : bool :=
  in_room msg_room rid m && String.eqb (msg_client m) cid.
Definition find_message (d : DB) (rid : RoomID) (cid : ClientMessageID) : option MessageRow :=
  List.find (is_client rid cid) (messages d).
Definition is_binding (rid : RoomID) (mid : Z) (b : BindingRow) : bool :=
  in_room bd_room rid b && (bd_message b =? mid).
Definition find_binding (d : DB) (rid : RoomID) (mid : Z) : option BindingRow :=
  List.find (is_binding rid mid) (turn_bindings d).
Definition is_event (rid : RoomID) (seq : Seq) (e : EventRow) : bool :=
  in_room e_room rid e && (ev_Seq (e_event e) =? seq).
Definition find_event (d : DB) (rid : RoomID) (seq : Seq) : option DurableEvent :=
  e_event <$> List.find (is_event rid seq) (room_events d).

(** ** Updates *)

Definition ErrConstraint : error := ErrText "constraint failed".

Abbreviation StoreTx := (Tx DB error).

(** [requireOneRow] *)
Definition requireOneRow (n : nat) : StoreTx unit := tx_guard (Nat.eqb n 1) (Sentinel ErrInvalidState).

Definition set_msg_state (st : RequestState) (m : MessageRow) : MessageRow :=
  {| msg_id := msg_id m; msg_room := msg_room m; msg_client := msg_client m; msg_actor := msg_actor m;
     msg_kind := msg_kind m; msg_body := msg_body m; msg_hash := msg_hash m; msg_state := st;
     msg_seq := msg_seq m; msg_created := msg_created m |}.
Definition set_next_seq (n : Z) (r : RoomRow) : RoomRow :=
  {| r_id := r_id r; r_display_name := r_display_name r; r_host_id := r_host_id r;
     r_project_path := r_project_path r; r_owner := r_owner r; r_thread := r_thread r;
     r_status := r_status r; r_next_seq := n; r_schema_version := r_schema_version r |}.
Definition set_thread_status (th : option string) (st : RoomStatus) (r : RoomRow) : RoomRow :=
  {| r_id := r_id r; r_display_name := r_display_name r; r_host_id := r_host_id r;
     r_project_path := r_project_path r; r_owner := r_owner r; r_thread := th;
     r_status := st; r_next_seq := r_next_seq r; r_schema_version := r_schema_version r |}.

(** [WHERE room_id = ? AND id = ? AND state = ?] *)
Definition is_message_in (rid : RoomID) (mid : Z) (st : RequestState) (m : MessageRow) : bool :=
  in_room msg_room rid m && (msg_id m =? mid) && bool_decide (msg_state m = st).
Definition is_binding_in (rid : RoomID) (mid : Z) (st : RequestState) (b : BindingRow) : bool :=
  is_binding rid mid b && bool_decide (bd_state b = st).

(** [UPDATE messages SET state = ? WHERE room_id = ? AND id = ? AND state = ?] *)
Definition update_message_state (rid : RoomID) (mid : Z) (old new : RequestState) : StoreTx nat :=
  d ← tx_get;
  tx_modify (set_messages (update_where (is_message_in rid mid old) (set_msg_state new)));;
  mret (count_where (is_message_in rid mid old) (messages d)).
(** [UPDATE turn_bindings SET .. WHERE room_id = ? AND message_id = ? AND state = ?] *)
Definition update_binding (rid : RoomID) (mid : Z) (old : RequestState) (f : BindingRow -> BindingRow) : StoreTx nat :=
  d ← tx_get;
  tx_modify (set_turn_bindings (update_where (is_binding_in rid mid old) f));;
  mret (count_where (is_binding_in rid mid old) (turn_bindings d)).
(** [UPDATE rooms SET .. WHERE p] *)
Definition update_rooms (p : RoomRow -> bool) (f : RoomRow -> RoomRow) : StoreTx nat :=
  d ← tx_get;
  tx_modify (set_rooms (update_where p f));;
  mret (count_where p (rooms d)).

(** ** Inserts *)

(** Unique (room, client id), foreign keys to the room and the member. *)
Definition insert_message (rid : RoomID) (cid : ClientMessageID) (actor : UID) (kind : MessageKind)
    (body hash : string) (st : RequestState) (seq : Seq) (now : Z) : StoreTx Z :=
  d ← tx_get;
  tx_guard (negb (existsb (is_client rid cid) (messages d)) && existsb (is_member rid actor) (members d)
            && existsb (in_room r_id rid) (rooms d)) ErrConstraint;;
  let id := messages_autoinc d + 1 in
  tx_modify (set_messages_autoinc (fun _ => id));;
  tx_modify (set_messages (fun l => l ++
    [{| msg_id := id; msg_room := rid; msg_client := cid; msg_actor := actor; msg_kind := kind; msg_body := body;
        msg_hash := hash; msg_state := st; msg_seq := seq; msg_created := now |}]));;
  mret id.

(** Unique message id, foreign key to (room, message). *)
Definition insert_binding (rid : RoomID) (mid : Z) (turn : option string) (st : RequestState) : StoreTx unit :=
  d ← tx_get;
  tx_guard (negb (existsb (fun b => bd_message b =? mid) (turn_bindings d))
            && existsb (fun m => in_room msg_room rid m && (msg_id m =? mid)) (messages d)) ErrConstraint;;
  tx_modify (set_turn_bindings (fun l => l ++
    [{| bd_room := rid; bd_message := mid; bd_turn := turn; bd_state := st; bd_started := None;
        bd_completed := None; bd_code := None; bd_digest := None |}])).

(** Primary key (room, seq), foreign key to the room. *)
Definition insert_event (rid : RoomID) (e : DurableEvent) : StoreTx unit :=
  d ← tx_get;
  tx_guard (negb (existsb (is_event rid (ev_Seq e)) (room_events d)) && existsb (in_room r_id rid) (rooms d))
           ErrConstraint;;
  tx_modify (set_room_events (fun l => l ++ [{| e_room := rid; e_event := e |}])).

Definition insert_member (rid : RoomID) (uid : UID) (name : string) (now : Z) : StoreTx unit :=
  d ← tx_get;
  tx_guard (negb (existsb (is_member rid uid) (members d))
            && negb (existsb (fun m => in_room m_room rid m && String.eqb (m_username m) name) (members d))
            && existsb (in_room r_id rid) (rooms d)) ErrConstraint;;
  tx_modify (set_members (fun l => l ++ [{| m_room := rid; m_uid := uid; m_username := name; m_added_at := now |}])).

(** ** Transactions ([sqlite.go])

    [beforeCommit] is the store's hook and [commitFault] the engine's answer to
    the commit; [None] means they succeed. *)
Record Store := mkStore { db : DB; beforeCommit : option error; commitFault : option error }.

(** The body returns its value and whether the hook runs ([shouldRunHook]). *)
Definition transactConditional {A} (s : Store) (write : StoreTx (A * bool)) : Store * result error A :=
  match write (db s) with
  | Err e => (s, Err e)
  | Ok (a, wrote, d) =>
      match (if wrote then beforeCommit s else None) with
      | Some e => (s, Err e)
      | None =>
          match commitFault s with
          | Some e => (s, Err (ErrPrefix "commit sqlite transaction: " e))
          | None => (mkStore d (beforeCommit s) (commitFault s), Ok a)
          end
      end
  end.

(** [transact]: the hook always runs. *)
Definition transact {A} (s : Store) (write : StoreTx A) : Store * result error A :=
  transactConditional s (a ← write; mret (a, true)).

(** A validation error before the transaction is opened. *)
Definition with_check {A} (s : Store) (c : result error unit) (k : Store * result error A) : Store * result error A :=
  match c with Ok _ => k | Err e => (s, Err e) end.

(** ** Facts about the primitives *)

Lemma transactConditional_cases {A} s (w : StoreTx (A * bool)) s' r :
  transactConditional s w = (s', r) ->
  match r with
  | Ok a => exists wrote d, w (db s) = Ok ((a, wrote), d) /\ s' = mkStore d (beforeCommit s) (commitFault s)
            /\ commitFault s = None /\ (wrote = true -> beforeCommit s = None)
  | Err _ => s' = s
  end.
Proof.
  unfold transactConditional. destruct (w (db s)) as [[[a wrote] d]|e]; [|by intros [= <- <-]].
  destruct wrote.
  - destruct (beforeCommit s) eqn:Eb; [by intros [= <- <-]|].
    destruct (commitFault s) eqn:Ec; [by intros [= <- <-]|]. intros [= <- <-].
    exists true, d. done.
  - destruct (commitFault s) eqn:Ec; [by intros [= <- <-]|]. intros [= <- <-].
    exists false, d. done.
Qed.

Lemma transact_cases {A} s (w : StoreTx A) s' r :
  transact s w = (s', r) ->
  match r with
  | Ok a => exists d, w (db s) = Ok (a, d) /\ s' = mkStore d (beforeCommit s) (commitFault s)
            /\ commitFault s = None /\ beforeCommit s = None
  | Err _ => s' = s
  end.
Proof.
  intros H. unfold transact in H. apply transactConditional_cases in H.
  destruct r as [a|e]; [|done]. destruct H as (wrote & d & H & -> & ? & Hw).
  apply bind_ok in H as (a' & d' & H & [= <- <- <-]). eexists. split_and!; eauto.
Qed.
