(* ===== verification/StoreBase.v ===== *)
(** * Store helpers ([internal/store/repository.go])

    The helpers every store operation is built from: identifier and diagnostic
    validation, the stored message of a client id, membership checks, sequence
    allocation with its durable event, and the paired update of a message and
    its turn binding. *)
From S2P Require Import Prelude GoStrings Sha256 Json RoomTypes StoreSchema.

(** ** Validation *)

Definition validateRoomID (rid : RoomID) : result error unit :=
  check (negb (blank rid)) (ErrSuffix (Sentinel ErrInvalidInput) ": room id is blank").

Definition validateIdentifiers (rid : RoomID) (cid : ClientMessageID) : result error unit :=
  let? _ := validateRoomID rid in
  check (ValidClientMessageID cid) (Sentinel ErrInvalidClientMessageID).

(** [normalizedCodePattern]: [^[a-z][a-z0-9]*(?:[._-][a-z0-9]+)*$], as the
    automaton that remembers whether a separator was just read. *)
Definition is_word (c : ascii) : bool := is_lower c || between 48 57 (code c).
Definition is_sep (c : ascii) : bool := (code c =? 46) || (code c =? 95) || (code c =? 45).
Fixpoint code_tail (in_word : bool) (s : string) : bool :=
  match s with
  | "" => in_word
  | String c r => if is_word c then code_tail true r else in_word && is_sep c && code_tail false r
  end.
Definition normalizedCodePattern (s : string) : bool :=
  match s with "" => false | String c r => is_lower c && code_tail true r end.
Definition validErrorCode (v : string) : bool := (len v <=? 64) && normalizedCodePattern v.

Definition validDigest (v : string) : bool := (len v =? 64) && str_forallb is_lower_hex v.
Definition validOptionalDigest (v : string) : bool := String.eqb v "" || validDigest v.

Definition validateTerminalOutcome (st : RequestState) (code digest : string) (controls : bool) : result error unit :=
  let allowed := bool_decide (st = RequestFailed) || bool_decide (st = RequestNeedsReview)
                 || (if controls then bool_decide (st = RequestCompleted) else bool_decide (st = RequestInterrupted)) in
  let? _ := check allowed (ErrSuffix (Sentinel ErrInvalidInput)
                             (": invalid terminal state " +:+ quote (RequestState_string st))) in
  if bool_decide (st = RequestCompleted) then
    check (String.eqb code "" && String.eqb digest "")
          (ErrSuffix (Sentinel ErrInvalidInput) ": completed outcome contains diagnostic")
  else
    check (validErrorCode code && validOptionalDigest digest)
          (ErrSuffix (Sentinel ErrInvalidInput) ": invalid normalized diagnostic").

Definition validateFinishTurn (i : FinishTurnInput) : result error unit :=
  let st := ft_State i in
  let? _ := check (bool_decide (st = RequestCompleted) || bool_decide (st = RequestFailed)
                   || bool_decide (st = RequestInterrupted))
                  (ErrSuffix (Sentinel ErrInvalidInput) ": invalid finish state") in
  if bool_decide (st = RequestCompleted) then
    check (String.eqb (ft_ErrorCode i) "" && String.eqb (ft_ErrorDigest i) "")
          (ErrSuffix (Sentinel ErrInvalidInput) ": completed turn contains diagnostic")
  else
    check (validErrorCode (ft_ErrorCode i) && validOptionalDigest (ft_ErrorDigest i))
          (ErrSuffix (Sentinel ErrInvalidInput) ": invalid normalized diagnostic").

Definition validateReason (code digest : string) : result error unit :=
  check (validErrorCode code && validDigest digest) (ErrSuffix (Sentinel ErrInvalidInput) ": invalid reason").

Definition nullableString (v : string) : option string := if String.eqb v "" then None else Some v.
Definition nullableCompletedAt (st : RequestState) (now : Z) : option Z :=
  if bool_decide (st = RequestNeedsReview) then None else Some now.

(** ** Hashing *)

Definition canonicalHash (kind : string) (uid : UID) (semanticBody : string) : string :=
  Sha256.Sum256 (marshal (JObj [("version", JInt 1); ("kind", JStr kind); ("actor_uid", JInt uid);
                                ("body", JRaw semanticBody)])).

(** ** Reading messages *)

Record storedMessage :=
  { sm_id : Z; sm_kind : MessageKind; sm_actorUID : UID; sm_body : string; sm_payloadHash : string;
    sm_state : RequestState; sm_acceptedSeq : Seq; sm_errorCode : string }.

(** The row joined with its binding's error code. *)
Definition stored_of (d : DB) (m : MessageRow) : storedMessage :=
  {| sm_id := msg_id m; sm_kind := msg_kind m; sm_actorUID := msg_actor m; sm_body := msg_body m;
     sm_payloadHash := msg_hash m; sm_state := msg_state m; sm_acceptedSeq := msg_seq m;
     sm_errorCode := match find_binding d (msg_room m) (msg_id m) with
                     | Some b => default "" (bd_code b)
                     | None => ""
                     end |}.
Definition loadStoredMessage (d : DB) (rid : RoomID) (cid : ClientMessageID) : option storedMessage :=
  stored_of d <$> find_message d rid cid.

Definition requireRoom (rid : RoomID) : StoreTx unit :=
  d ← tx_get;
  match find_room d rid with Some _ => mret tt | None => tx_fail (Sentinel ErrRoomNotFound) end.

Definition requireActor (rid : RoomID) (actor : Actor) : StoreTx unit :=
  tx_guard (negb ((ac_UID actor =? 0) || blank (ac_Name actor)))
           (ErrSuffix (Sentinel ErrInvalidInput) ": invalid actor");;
  d ← tx_get;
  match find_member d rid (ac_UID actor) with
  | None => requireRoom rid;; tx_fail (Sentinel ErrMemberNotFound)
  | Some m => tx_guard (String.eqb (m_username m) (ac_Name actor)) (Sentinel ErrMemberNotFound)
  end.

Definition requireMemberUID (rid : RoomID) (uid : UID) : StoreTx unit :=
  d ← tx_get;
  match find_member d rid uid with
  | None => requireRoom rid;; tx_fail (Sentinel ErrMemberNotFound)
  | Some _ => mret tt
  end.

(** [contains] *)
Definition contains (kinds : list MessageKind) (k : MessageKind) : bool :=
  existsb (fun v => bool_decide (v = k)) kinds.

Definition requireMessageState (rid : RoomID) (cid : ClientMessageID) (kinds : list MessageKind)
    (expected : RequestState) : StoreTx storedMessage :=
  d ← tx_get;
  match loadStoredMessage d rid cid with
  | None => requireRoom rid;; tx_fail (Sentinel ErrMessageNotFound)
  | Some m =>
      tx_guard (bool_decide (sm_state m = expected) && contains kinds (sm_kind m)) (Sentinel ErrInvalidState);;
      mret m
  end.

(** ** Sequence numbers and durable events *)

(** [UPDATE rooms SET next_seq = next_seq + 1 WHERE id = ? RETURNING next_seq - 1] *)
Definition allocateSeq (rid : RoomID) : StoreTx Seq :=
  d ← tx_get;
  match find_room d rid with
  | None => tx_fail (Sentinel ErrRoomNotFound)
  | Some r =>
      update_rooms (in_room r_id rid) (fun r => set_next_seq (r_next_seq r + 1) r);;
      mret (r_next_seq r)
  end.

Definition insertEventAt (rid : RoomID) (seq : Seq) (actor : UID) (kind : string) (payload : json) (now : Z)
    : StoreTx DurableEvent :=
  let e := {| ev_Seq := seq; ev_Kind := kind; ev_ActorUID := actor; ev_Payload := payload; ev_CreatedAt := now |} in
  insert_event rid e;;
  mret e.

Definition appendEvent (rid : RoomID) (actor : UID) (kind : string) (payload : json) (now : Z) : StoreTx DurableEvent :=
  seq ← allocateSeq rid;
  insertEventAt rid seq actor kind payload now.

Definition loadEventTx (rid : RoomID) (seq : Seq) : StoreTx DurableEvent :=
  d ← tx_get;
  match find_event d rid seq with
  | Some e => mret e
  | None => tx_fail (ErrPrefix "load durable event: " (Sentinel ErrNoRows))
  end.

(** ** State changes *)

Record bindingUpdateValues := { bu_turnID : option string; bu_startedAt : option Z }.
Definition no_update_values : bindingUpdateValues := {| bu_turnID := None; bu_startedAt := None |}.

(** [COALESCE(?, column)] *)
Definition coalesce {A} (new old : option A) : option A := match new with Some _ => new | None => old end.

Definition binding_set (st : RequestState) (completedAt : option Z) (errorCode errorDigest : option string)
    (v : bindingUpdateValues) (b : BindingRow) : BindingRow :=
  {| bd_room := bd_room b; bd_message := bd_message b; bd_turn := coalesce (bu_turnID v) (bd_turn b);
     bd_state := st; bd_started := coalesce (bu_startedAt v) (bd_started b); bd_completed := completedAt;
     bd_code := errorCode; bd_digest := errorDigest |}.

Definition updateMessageAndBinding (rid : RoomID) (mid : Z) (old new : RequestState) (completedAt : option Z)
    (errorCode errorDigest : option string) (v : bindingUpdateValues) : StoreTx unit :=
  n ← update_message_state rid mid old new;
  requireOneRow n;;
  n ← update_binding rid mid old (binding_set new completedAt errorCode errorDigest v);
  requireOneRow n.

(** Omitted-when-empty JSON fields. *)
Definition omitempty (name v : string) : list (string * json) :=
  if String.eqb v "" then [] else [(name, JStr v)].
