(* ===== verification/StoreTasks.v ===== *)
(** * Project tasks ([internal/store/tasks.go], [internal/room/tasks.go])

    A project task is converted from a message, collects the executions
    submitted for it, and is completed or reopened by a member.  Its state is
    derived from the states of its executions. *)
From S2P Require Import Prelude GoStrings Sha256 Json RoomTypes StoreSchema StoreBase.

Inductive TaskState :=
| TaskCompleted | TaskNeedsConfirmation | TaskRunning | TaskQueued | TaskReview | TaskBlocked | TaskTodo.
#[export] Instance TaskState_eq_dec : EqDecision TaskState.
Proof. solve_decision. Defined.

Record TaskAnswer := { ta_Text : string; ta_Time : Z }.
(** The truncation marker has no time; it is the zero of the [Time] column. *)
Record TaskRun :=
  { tr_MessageID : Z; tr_ClientID : ClientMessageID; tr_Turn : string; tr_State : RequestState; tr_Text : string;
    tr_CreatedAt : Z; tr_StartedAt : option Z; tr_CompletedAt : option Z; tr_Answers : list TaskAnswer }.
Record TaskChange := { tch_Action : string; tch_Actor : string; tch_Time : Z; tch_Note : string }.
Record ProjectTask :=
  { pt_ID : Z; pt_Number : Z; pt_Title : string; pt_Acceptance : string; pt_SourceSeq : Seq; pt_SourceText : string;
    pt_SourceClientID : ClientMessageID; pt_State : TaskState; pt_Revision : Z; pt_CreatedAt : Z; pt_UpdatedAt : Z;
    pt_CompletedAt : option Z; pt_CompletedBy : string; pt_Runs : list TaskRun; pt_History : list TaskChange }.
Record TaskRequest :=
  { tq_Action : string; tq_RequestID : string; tq_TaskID : Z; tq_SourceSeq : Z; tq_Title : string;
    tq_Acceptance : string; tq_ExpectedRevision : Z; tq_Note : string; tq_Before : Z }.
Record TaskReply := { tp_Tasks : list ProjectTask; tp_Task : option ProjectTask; tp_More : bool }.
Definition empty_reply : TaskReply := {| tp_Tasks := []; tp_Task := None; tp_More := false |}.

(** ** Task state *)

(** The executions of a task, newest first ([ORDER BY m.id DESC]; the message id
    is the table's rowid). *)
Definition is_task_message (rid : RoomID) (task : Z) (m : MessageRow) (tm : TaskMessageRow) : bool :=
  in_room tm_room rid tm && (tm_task tm =? task) && (tm_message tm =? msg_id m).
Definition task_runs (d : DB) (rid : RoomID) (task : Z) : list MessageRow :=
  rev (List.filter (fun m => in_room msg_room rid m && existsb (is_task_message rid task m) (task_messages d))
         (messages d)).

Definition state_in (l : list RequestState) (m : MessageRow) : bool :=
  existsb (fun s => bool_decide (msg_state m = s)) l.

Definition taskState (d : DB) (rid : RoomID) (task : Z) (completed : bool) : TaskState :=
  if completed then TaskCompleted else
  let runs := task_runs d rid task in
  if existsb (state_in [RequestDispatching; RequestNeedsReview]) runs then TaskNeedsConfirmation
  else if existsb (state_in [RequestRunning]) runs then TaskRunning
  else if existsb (state_in [RequestQueued]) runs then TaskQueued
  else match runs with
       | [] => TaskTodo
       | m :: _ => if bool_decide (msg_state m = RequestCompleted) then TaskReview else TaskBlocked
       end.

(** ** Loading *)

Definition is_task (rid : RoomID) (id : Z) (t : TaskRow) : bool := in_room t_room rid t && (t_id t =? id).
Definition is_message_id (rid : RoomID) (mid : Z) (m : MessageRow) : bool :=
  in_room msg_room rid m && (msg_id m =? mid).
Definition find_message_id (d : DB) (rid : RoomID) (mid : Z) : option MessageRow :=
  List.find (is_message_id rid mid) (messages d).

(** [scanTask]: the columns of a task row joined with its source message. *)
Definition scanTask (t : TaskRow) (src : MessageRow) : ProjectTask :=
  {| pt_ID := t_id t; pt_Number := t_number t; pt_Title := t_title t; pt_Acceptance := t_acceptance t;
     pt_SourceSeq := t_source_seq t; pt_SourceText := ""; pt_SourceClientID := msg_client src; pt_State := TaskTodo;
     pt_Revision := t_revision t; pt_CreatedAt := t_created t; pt_UpdatedAt := t_updated t;
     pt_CompletedAt := t_completed t; pt_CompletedBy := t_completed_by t; pt_Runs := []; pt_History := [] |}.
Definition with_state (t : ProjectTask) (st : TaskState) : ProjectTask :=
  {| pt_ID := pt_ID t; pt_Number := pt_Number t; pt_Title := pt_Title t; pt_Acceptance := pt_Acceptance t;
     pt_SourceSeq := pt_SourceSeq t; pt_SourceText := pt_SourceText t; pt_SourceClientID := pt_SourceClientID t;
     pt_State := st; pt_Revision := pt_Revision t; pt_CreatedAt := pt_CreatedAt t; pt_UpdatedAt := pt_UpdatedAt t;
     pt_CompletedAt := pt_CompletedAt t; pt_CompletedBy := pt_CompletedBy t; pt_Runs := pt_Runs t;
     pt_History := pt_History t |}.
Definition completed_task (t : ProjectTask) : bool :=
  match pt_CompletedAt t with Some _ => true | None => false end.

Definition loadTask (d : DB) (rid : RoomID) (id : Z) : option ProjectTask :=
  match List.find (is_task rid id) (project_tasks d) with
  | None => None
  | Some t =>
      match find_message_id d rid (t_source_message t) with
      | None => None
      | Some src =>
          let p := scanTask t src in
          Some (with_state p (taskState d rid id (completed_task p)))
      end
  end.
Definition loadTask_tx (rid : RoomID) (id : Z) : StoreTx ProjectTask :=
  d ← tx_get;
  match loadTask d rid id with Some t => mret t | None => tx_fail (Sentinel ErrNoRows) end.

(** [coalesce((SELECT role ..), 'roommate')] *)
Definition role_of (d : DB) (rid : RoomID) (uid : UID) : string :=
  match List.find (fun r => in_room ro_room rid r && (ro_uid r =? uid)) (member_roles d) with
  | Some r => ro_role r
  | None => "roommate"
  end.

Definition requireTaskWriter (rid : RoomID) (actor : Actor) : StoreTx unit :=
  requireActor rid actor;;
  d ← tx_get;
  tx_guard (String.eqb (role_of d rid (ac_UID actor)) "roommate") (ErrText "此身份只能查看任务").

(** ** Changing tasks *)

(** Primary key (room, task, message), unique (room, message), foreign keys. *)
Definition insert_task_message (rid : RoomID) (task mid : Z) : StoreTx unit :=
  d ← tx_get;
  tx_guard (negb (existsb (fun tm => in_room tm_room rid tm && (tm_message tm =? mid)) (task_messages d))
            && existsb (is_task rid task) (project_tasks d) && existsb (is_message_id rid mid) (messages d))
           ErrConstraint;;
  tx_modify (set_task_messages (fun l => l ++ [{| tm_room := rid; tm_task := task; tm_message := mid |}])).
Definition insert_task_change (rid : RoomID) (task : Z) (action actor : string) (now : Z) (note : string) : StoreTx unit :=
  d ← tx_get;
  tx_guard (existsb (is_task rid task) (project_tasks d)) ErrConstraint;;
  let id := changes_autoinc d + 1 in
  tx_modify (set_changes_autoinc (fun _ => id));;
  tx_modify (set_task_changes (fun l => l ++
    [{| tc_id := id; tc_room := rid; tc_task := task; tc_action := action; tc_actor := actor; tc_created := now;
        tc_note := note |}])).

(** [UPDATE project_tasks SET revision=revision+1, updated_at=?, ..] *)
Definition touch_task (completed : option Z) (by_ : string) (now : Z) (t : TaskRow) : TaskRow :=
  {| t_id := t_id t; t_room := t_room t; t_number := t_number t; t_source_message := t_source_message t;
     t_source_seq := t_source_seq t; t_title := t_title t; t_acceptance := t_acceptance t;
     t_revision := t_revision t + 1; t_created := t_created t; t_updated := now; t_completed := completed;
     t_completed_by := by_ |}.
Definition update_task (rid : RoomID) (id : Z) (f : TaskRow -> TaskRow) : StoreTx unit :=
  tx_modify (set_project_tasks (update_where (is_task rid id) f)).

(** [attachTaskMessage]: link the new execution in the transaction that accepts
    its message. *)
Definition attachTaskMessage (rid : RoomID) (actor : Actor) (task mid : Z) (now : Z) : StoreTx unit :=
  requireTaskWriter rid actor;;
  d ← tx_get;
  match loadTask d rid task with
  | None => tx_fail (ErrText "任务不存在")
  | Some t =>
      tx_guard (negb (bool_decide (pt_State t = TaskCompleted))) (ErrText "请先重新打开已完成任务");;
      tx_guard (negb (bool_decide (pt_State t = TaskQueued) || bool_decide (pt_State t = TaskRunning)
                      || bool_decide (pt_State t = TaskNeedsConfirmation)))
               (ErrText "此任务仍在执行或等待确认，请等待结束后继续");;
      insert_task_message rid task mid;;
      update_task rid task (fun t => touch_task (t_completed t) (t_completed_by t) now t);;
      insert_task_change rid task "run_added" (ac_Name actor) now ""
  end.

(** [json.Marshal(req)]: [omitempty] drops empty strings and zero integers. *)
Definition omitzero (name : string) (v : Z) : list (string * json) := if v =? 0 then [] else [(name, JInt v)].
Definition marshal_request (q : TaskRequest) : string :=
  marshal (JObj ([("action", JStr (tq_Action q))] ++ omitempty "requestId" (tq_RequestID q)
    ++ omitzero "taskId" (tq_TaskID q) ++ omitzero "sourceSeq" (tq_SourceSeq q) ++ omitempty "title" (tq_Title q)
    ++ omitempty "acceptance" (tq_Acceptance q) ++ omitzero "expectedRevision" (tq_ExpectedRevision q)
    ++ omitempty "note" (tq_Note q) ++ omitzero "before" (tq_Before q))).

Definition validTaskRequest (q : TaskRequest) : bool :=
  match hex_DecodeString (tq_RequestID q) with Some raw => len raw =? 16 | None => false end
  && negb (tq_TaskID q <? 0) && negb (tq_SourceSeq q <? 0) && (len (tq_Title q) <=? 240)
  && (len (tq_Acceptance q) <=? 4000) && (len (tq_Note q) <=? 2000)
  && utf8_valid (tq_Title q) && utf8_valid (tq_Acceptance q) && utf8_valid (tq_Note q).

(** The message a task is converted from: the accepted message of that sequence
    number, else the message whose turn produced the agent answer of that event. *)
Definition is_source_kind (m : MessageRow) : bool := contains [KPrompt; KNote; KRecoveryPrompt] (msg_kind m).
Definition source_by_seq (d : DB) (rid : RoomID) (seq : Seq) : option MessageRow :=
  List.find (fun m => in_room msg_room rid m && (msg_seq m =? seq) && is_source_kind m) (messages d).
Definition answers_event (d : DB) (rid : RoomID) (seq : Seq) (m : MessageRow) : bool :=
  match find_event d rid seq with
  | Some e =>
      String.eqb (ev_Kind e) "item/completed"
      && bool_decide (extract ["payload"; "type"] (ev_Payload e) = Some "agentMessage")
      && match extract ["turn_id"] (ev_Payload e) with
         | Some turn => existsb (fun b => is_binding rid (msg_id m) b && bool_decide (bd_turn b = Some turn))
                          (turn_bindings d)
         | None => false
         end
  | None => false
  end.
Definition source_by_answer (d : DB) (rid : RoomID) (seq : Seq) : option MessageRow :=
  List.find (fun m => in_room msg_room rid m && contains [KPrompt; KRecoveryPrompt] (msg_kind m)
                      && answers_event d rid seq m) (messages d).
Definition find_source (d : DB) (rid : RoomID) (seq : Seq) : option MessageRow :=
  match source_by_seq d rid seq with Some m => Some m | None => source_by_answer d rid seq end.

(** [UNION .. LIMIT 1]: the union is sorted, so the smallest task id wins. *)
Definition tasks_of_message (d : DB) (rid : RoomID) (mid : Z) : list Z :=
  (tm_task <$> List.filter (fun tm => in_room tm_room rid tm && (tm_message tm =? mid)) (task_messages d))
  ++ (t_id <$> List.filter (fun t => in_room t_room rid t && (t_source_message t =? mid)) (project_tasks d)).
Definition existing_task (d : DB) (rid : RoomID) (mid : Z) : option Z :=
  match tasks_of_message d rid mid with
  | [] => None
  | z :: l => Some (foldl Z.min z l)
  end.

Definition max_number (d : DB) (rid : RoomID) : Z :=
  foldr Z.max 0 (t_number <$> List.filter (in_room t_room rid) (project_tasks d)).

(** Unique (room, number) and (room, source message), foreign key. *)
Definition insert_task (rid : RoomID) (mid : Z) (seq : Seq) (title acceptance : string) (now : Z) : StoreTx Z :=
  d ← tx_get;
  let number := max_number d rid + 1 in
  tx_guard (negb (existsb (fun t => in_room t_room rid t && ((t_number t =? number) || (t_source_message t =? mid)))
                    (project_tasks d))
            && existsb (is_message_id rid mid) (messages d) && existsb (in_room r_id rid) (rooms d)) ErrConstraint;;
  let id := tasks_autoinc d + 1 in
  tx_modify (set_tasks_autoinc (fun _ => id));;
  tx_modify (set_project_tasks (fun l => l ++
    [{| t_id := id; t_room := rid; t_number := number; t_source_message := mid; t_source_seq := seq; t_title := title;
        t_acceptance := acceptance; t_revision := 1; t_created := now; t_updated := now; t_completed := None;
        t_completed_by := "" |}]));;
  mret id.

Definition convertTask (rid : RoomID) (actor : Actor) (q : TaskRequest) (now : Z) : StoreTx Z :=
  tx_guard (negb (blank (tq_Title q)) && (0 <? tq_SourceSeq q)) (ErrText "请填写任务标题并选择来源消息");;
  d ← tx_get;
  match find_source d rid (tq_SourceSeq q) with
  | None => tx_fail (ErrText "来源消息不存在或不能转为任务")
  | Some m =>
      match existing_task d rid (msg_id m) with
      | Some id => mret id
      | None =>
          id ← insert_task rid (msg_id m) (tq_SourceSeq q) (TrimSpace (tq_Title q)) (tq_Acceptance q) now;
          (if bool_decide (msg_kind m = KNote) then mret tt else insert_task_message rid id (msg_id m));;
          insert_task_change rid id "created" (ac_Name actor) now (tq_Note q);;
          mret id
      end
  end.

Definition reviewTask (rid : RoomID) (actor : Actor) (q : TaskRequest) (now : Z) : StoreTx Z :=
  let id := tq_TaskID q in
  t ← loadTask_tx rid id;
  tx_guard (pt_Revision t =? tq_ExpectedRevision q) (ErrText "任务已更新，请刷新后操作");;
  (if String.eqb (tq_Action q) "complete" then
     tx_guard (bool_decide (pt_State t = TaskReview) || bool_decide (pt_State t = TaskTodo))
              (ErrText "任务尚未结束或需要处理异常，不能标记完成");;
     update_task rid id (touch_task (Some now) (ac_Name actor) now)
   else
     tx_guard (bool_decide (pt_State t = TaskCompleted)) (ErrText "只有已完成任务可以重新打开");;
     update_task rid id (touch_task None "" now));;
  insert_task_change rid id (tq_Action q) (ac_Name actor) now (tq_Note q);;
  mret id.

Definition find_receipt (d : DB) (rid : RoomID) (uid : UID) (req : string) : option ReceiptRow :=
  List.find (fun r => in_room rcp_room rid r && (rcp_uid r =? uid) && String.eqb (rcp_request r) req) (task_receipts d).

(** [ChangeTask]: the body of its transaction, then the operation. *)
Definition ChangeTask_tx (rid : RoomID) (actor : Actor) (q : TaskRequest) (now : Z) : StoreTx ProjectTask :=
  let hash := Sha256.Sum256 (marshal_request q) in
  requireTaskWriter rid actor;;
  d ← tx_get;
  match find_receipt d rid (ac_UID actor) (tq_RequestID q) with
  | Some r =>
      tx_guard (String.eqb hash (rcp_hash r)) (Sentinel ErrIdempotencyConflict);;
      loadTask_tx rid (rcp_task r)
  | None =>
      id ← (if String.eqb (tq_Action q) "convert" then convertTask rid actor q now else reviewTask rid actor q now);
      d ← tx_get;
      tx_guard (existsb (is_task rid id) (project_tasks d)) ErrConstraint;;
      tx_modify (set_task_receipts (fun l => l ++
        [{| rcp_room := rid; rcp_uid := ac_UID actor; rcp_request := tq_RequestID q; rcp_task := id; rcp_hash := hash |}]));;
      loadTask_tx rid id
  end.

Definition ChangeTask (s : Store) (now : Z) (rid : RoomID) (actor : Actor) (q : TaskRequest) : Store * result error ProjectTask :=
  if negb (validTaskRequest q) then (s, Err (ErrText "任务请求无效或内容过长"))
  else if negb (existsb (String.eqb (tq_Action q)) ["convert"; "complete"; "reopen"])
  then (s, Err (ErrText "invalid task action"))
  else transact s (ChangeTask_tx rid actor q now).
