(* ===== verification/StoreRepository.v ===== *)
(** * Durable repository ([internal/store/repository.go])

    Acceptance of commands with idempotency, dispatch state changes, completed
    items, turn completion, the event log and client connections.  Each
    operation is the body of its transaction ([.._tx]) and the method, which
    validates its input first.  [now] is the clock reading of the operation. *)
From S2P Require Import Prelude GoStrings Sha256 Json RoomTypes StoreSchema StoreBase StoreTasks.

(** ** Room initialisation *)

Record RoomSeed :=
  { sd_ID : RoomID; sd_DisplayName : string; sd_HostID : string; sd_ProjectRoot : string;
    sd_ExecutionOwnerUID : UID; sd_Members : list Member }.
Definition schemaVersion : Z := 5.

Definition bad_input (detail : string) : error := ErrSuffix (Sentinel ErrInvalidInput) detail.

(** The member loop of [validateRoomSeed], with the uids and names seen. *)
Fixpoint validateMembers (owner : UID) (uids : list UID) (names : list string) (present : bool) (l : list Member)
    : result error bool :=
  match l with
  | [] => Ok present
  | m :: r =>
      let? _ := check (negb ((mb_UID m =? 0) || blank (mb_Name m) || negb (String.eqb (TrimSpace (mb_Name m)) (mb_Name m))))
                      (bad_input ": invalid member") in
      let? _ := check (negb (existsb (Z.eqb (mb_UID m)) uids)) (bad_input ": duplicate member uid") in
      let? _ := check (negb (existsb (String.eqb (mb_Name m)) names)) (bad_input ": duplicate member name") in
      validateMembers owner (mb_UID m :: uids) (mb_Name m :: names) (present || (mb_UID m =? owner)) r
  end.
Definition validateRoomSeed (sd : RoomSeed) : result error unit :=
  let? _ := check (negb (blank (sd_ID sd) || blank (sd_DisplayName sd) || blank (sd_HostID sd) || blank (sd_ProjectRoot sd)
                         || (sd_ExecutionOwnerUID sd =? 0) || Nat.eqb (length (sd_Members sd)) 0))
                  (bad_input ": incomplete room seed") in
  let? present := validateMembers (sd_ExecutionOwnerUID sd) [] [] false (sd_Members sd) in
  check present (bad_input ": execution owner is not a member").

Fixpoint insert_members (rid : RoomID) (now : Z) (l : list Member) : StoreTx unit :=
  match l with
  | [] => mret tt
  | m :: r => insert_member rid (mb_UID m) (mb_Name m) now;; insert_members rid now r
  end.
Definition InitializeRoom_tx (sd : RoomSeed) (now : Z) : StoreTx unit :=
  d ← tx_get;
  tx_guard (Nat.eqb (length (rooms d)) 0) (Sentinel ErrAlreadyInitialized);;
  tx_modify (set_rooms (fun l => l ++
    [{| r_id := sd_ID sd; r_display_name := sd_DisplayName sd; r_host_id := sd_HostID sd;
        r_project_path := sd_ProjectRoot sd; r_owner := sd_ExecutionOwnerUID sd; r_thread := None;
        r_status := RoomReady; r_next_seq := 1; r_schema_version := schemaVersion |}]));;
  insert_members (sd_ID sd) now (sd_Members sd).
Definition InitializeRoom (s : Store) (now : Z) (sd : RoomSeed) : Store * result error unit :=
  with_check s (validateRoomSeed sd) (transact s (InitializeRoom_tx sd now)).

Definition FindMember (s : Store) (rid : RoomID) (uid : UID) : result error Member :=
  let? _ := validateRoomID rid in
  let? _ := check (negb (uid =? 0)) (bad_input ": member uid is zero") in
  match find_member (db s) rid uid with
  | Some m => Ok {| mb_UID := m_uid m; mb_Name := m_username m |}
  | None => match find_room (db s) rid with
            | Some _ => Err (Sentinel ErrMemberNotFound)
            | None => Err (Sentinel ErrRoomNotFound)
            end
  end.

(** ** Acceptance *)

Definition zero_event : DurableEvent :=
  {| ev_Seq := 0; ev_Kind := ""; ev_ActorUID := 0; ev_Payload := JNull; ev_CreatedAt := 0 |}.

Definition accepted_payload (cid : ClientMessageID) (mid : Z) (kind : MessageKind) (body : string) (st : RequestState) : json :=
  JObj [("client_message_id", JStr cid); ("message_id", JInt mid); ("kind", JStr (MessageKind_string kind));
        ("body", JStr body); ("state", JStr (RequestState_string st))].

(** A repeated command: the stored acceptance, or a conflict. *)
Definition accept_duplicate (rid : RoomID) (actor : Actor) (cid : ClientMessageID) (kind : MessageKind) (hash : string)
    (m : storedMessage) : StoreTx (Acceptance * bool) :=
  tx_guard (bool_decide (sm_kind m = kind) && (sm_actorUID m =? ac_UID actor) && String.eqb (sm_payloadHash m) hash)
           (Sentinel ErrIdempotencyConflict);;
  e ← loadEventTx rid (sm_acceptedSeq m);
  mret ({| acc_MessageID := sm_id m; acc_ClientMessageID := cid; acc_Seq := sm_acceptedSeq m; acc_State := sm_state m;
           acc_ErrorCode := sm_errorCode m; acc_Duplicate := true; acc_Event := e |}, false).

(** The turn a control command is bound to, decoded from its canonical body. *)
Definition control_turn (kind : MessageKind) (body : string) : result error (option string) :=
  match kind with
  | KSteer | KCancel =>
      match parse body ≫= string_field "expected_turn_id" with
      | Some t => Ok (Some t)
      | None => Err (ErrText "decode canonical control")
      end
  | _ => Ok None
  end.

Definition accept_new (rid : RoomID) (actor : Actor) (cid : ClientMessageID) (kind : MessageKind) (body hash : string)
    (initial : RequestState) (binding : bool) (eventKind : string) (task now : Z) : StoreTx (Acceptance * bool) :=
  requireActor rid actor;;
  seq ← allocateSeq rid;
  mid ← insert_message rid cid (ac_UID actor) kind body hash initial seq now;
  (if 0 <? task then attachTaskMessage rid actor task mid now else mret tt);;
  (if binding then
     turn ← tx_lift (control_turn kind body);
     insert_binding rid mid turn initial
   else mret tt);;
  e ← insertEventAt rid seq (ac_UID actor) eventKind (accepted_payload cid mid kind body initial) now;
  mret ({| acc_MessageID := mid; acc_ClientMessageID := cid; acc_Seq := seq; acc_State := initial;
           acc_ErrorCode := ""; acc_Duplicate := false; acc_Event := e |}, true).

Definition accept_tx (rid : RoomID) (actor : Actor) (cid : ClientMessageID) (kind : MessageKind) (body hash : string)
    (initial : RequestState) (binding : bool) (eventKind : string) (task now : Z) : StoreTx (Acceptance * bool) :=
  d ← tx_get;
  match loadStoredMessage d rid cid with
  | Some m => accept_duplicate rid actor cid kind hash m
  | None => accept_new rid actor cid kind body hash initial binding eventKind task now
  end.

Definition accept (s : Store) (now : Z) (rid : RoomID) (actor : Actor) (cid : ClientMessageID) (kind : MessageKind)
    (body hash : string) (initial : RequestState) (binding : bool) (eventKind : string) (task : Z)
    : Store * result error Acceptance :=
  with_check s (validateRoomID rid)
    (transactConditional s (accept_tx rid actor cid kind body hash initial binding eventKind task now)).

Definition message_hash (actor : Actor) (i : SubmitInput) : string :=
  canonicalHash "prompt" (ac_UID actor)
    (marshal (JObj ([("text", JStr (si_Text i))] ++ omitzero "taskId" (si_TaskID i)))).
Definition AcceptMessage (s : Store) (now : Z) (rid : RoomID) (actor : Actor) (i : SubmitInput) : Store * result error Acceptance :=
  with_check s (SubmitInput_Validate i)
    (accept s now rid actor (si_ClientMessageID i) KPrompt (si_Text i) (message_hash actor i) RequestQueued true
       "message/accepted" (si_TaskID i)).

Definition note_hash (actor : Actor) (i : SubmitInput) : string :=
  canonicalHash "note" (ac_UID actor) (marshal (JObj [("text", JStr (si_Text i))])).
Definition AppendNote (s : Store) (now : Z) (rid : RoomID) (actor : Actor) (i : SubmitInput) : Store * result error Acceptance :=
  with_check s (check (si_TaskID i =? 0) (Sentinel ErrInvalidInput))
    (with_check s (SubmitInput_Validate i)
       (accept s now rid actor (si_ClientMessageID i) KNote (si_Text i) (note_hash actor i) RequestCompleted false
          "note/accepted" 0)).

Definition control_kind (k : ControlKind) : MessageKind := match k with ControlSteer => KSteer | _ => KCancel end.
Definition control_body (i : ControlInput) : string :=
  marshal (JObj [("expected_turn_id", JStr (ci_ExpectedTurnID i)); ("text", JStr (ci_Text i))]).
Definition control_hash (actor : Actor) (i : ControlInput) : string :=
  canonicalHash (MessageKind_string (control_kind (ci_Kind i))) (ac_UID actor) (control_body i).
Definition AcceptControl (s : Store) (now : Z) (rid : RoomID) (actor : Actor) (i : ControlInput) : Store * result error Acceptance :=
  with_check s (ControlInput_Validate i)
    (accept s now rid actor (ci_ClientMessageID i) (control_kind (ci_Kind i)) (control_body i) (control_hash actor i)
       RequestDispatching true "control/accepted" 0).

(** ** Dispatch *)

Definition prompt_kinds : list MessageKind := [KPrompt; KRecoveryPrompt].
Definition control_kinds : list MessageKind := [KSteer; KCancel].

Definition BeginDispatch_tx (rid : RoomID) (cid : ClientMessageID) : StoreTx unit :=
  m ← requireMessageState rid cid prompt_kinds RequestQueued;
  updateMessageAndBinding rid (sm_id m) RequestQueued RequestDispatching None None None no_update_values.
Definition BeginDispatch (s : Store) (rid : RoomID) (cid : ClientMessageID) : Store * result error unit :=
  with_check s (validateIdentifiers rid cid) (transact s (BeginDispatch_tx rid cid)).

Definition FinishControl_tx (rid : RoomID) (cid : ClientMessageID) (o : ControlOutcome) (now : Z) : StoreTx DurableEvent :=
  m ← requireMessageState rid cid control_kinds RequestDispatching;
  updateMessageAndBinding rid (sm_id m) RequestDispatching (co_State o) (nullableCompletedAt (co_State o) now)
    (nullableString (co_ErrorCode o)) (nullableString (co_ErrorDigest o)) no_update_values;;
  appendEvent rid (sm_actorUID m) ("control/" +:+ RequestState_string (co_State o))
    (JObj ([("client_message_id", JStr cid); ("state", JStr (RequestState_string (co_State o)))]
           ++ omitempty "error_code" (co_ErrorCode o) ++ omitempty "error_digest" (co_ErrorDigest o))) now.
Definition FinishControl (s : Store) (now : Z) (rid : RoomID) (cid : ClientMessageID) (o : ControlOutcome)
    : Store * result error DurableEvent :=
  with_check s (validateIdentifiers rid cid)
    (with_check s (validateTerminalOutcome (co_State o) (co_ErrorCode o) (co_ErrorDigest o) true)
       (transact s (FinishControl_tx rid cid o now))).

Definition FailDispatch_tx (rid : RoomID) (cid : ClientMessageID) (o : FailureOutcome) (now : Z) : StoreTx DurableEvent :=
  m ← requireMessageState rid cid prompt_kinds RequestDispatching;
  updateMessageAndBinding rid (sm_id m) RequestDispatching (fo_State o) (nullableCompletedAt (fo_State o) now)
    (nullableString (fo_ErrorCode o)) (nullableString (fo_ErrorDigest o)) no_update_values;;
  appendEvent rid (sm_actorUID m) ("message/" +:+ RequestState_string (fo_State o))
    (JObj ([("client_message_id", JStr cid); ("state", JStr (RequestState_string (fo_State o)));
            ("error_code", JStr (fo_ErrorCode o))] ++ omitempty "error_digest" (fo_ErrorDigest o))) now.
Definition FailDispatch (s : Store) (now : Z) (rid : RoomID) (cid : ClientMessageID) (o : FailureOutcome)
    : Store * result error DurableEvent :=
  with_check s (validateIdentifiers rid cid)
    (with_check s (validateTerminalOutcome (fo_State o) (fo_ErrorCode o) (fo_ErrorDigest o) false)
       (transact s (FailDispatch_tx rid cid o now))).

Definition BindRunningTurn_tx (rid : RoomID) (cid : ClientMessageID) (turn : TurnID) (now : Z) : StoreTx DurableEvent :=
  m ← requireMessageState rid cid prompt_kinds RequestDispatching;
  updateMessageAndBinding rid (sm_id m) RequestDispatching RequestRunning None None None
    {| bu_turnID := Some turn; bu_startedAt := Some now |};;
  appendEvent rid (sm_actorUID m) "turn/running"
    (JObj [("client_message_id", JStr cid); ("turn_id", JStr turn)]) now.
Definition BindRunningTurn (s : Store) (now : Z) (rid : RoomID) (cid : ClientMessageID) (turn : TurnID)
    : Store * result error DurableEvent :=
  with_check s (validateIdentifiers rid cid)
    (with_check s (check (negb (blank turn)) (bad_input ": turn id is blank"))
       (transact s (BindRunningTurn_tx rid cid turn now))).

(** ** Completed items *)

(** [protocol.MaxFrameBytes] less the 128 KiB reserved for the envelope. *)
Definition max_item_bytes : Z := Z.shiftl 8 20 - Z.shiftl 128 10.

Definition validCompletedItem (i : CompletedItem) : bool :=
  negb (blank (it_ThreadID i) || blank (it_TurnID i) || blank (it_ItemID i)) && json_Valid (it_Payload i).

(** The stored payload: the compacted item, or a digest when it is too long. *)
Definition item_payload (i : CompletedItem) : option string :=
  match marshal_raw (it_Payload i) with
  | None => None
  | Some p =>
      Some (if max_item_bytes <? len p
            then marshal (JObj [("type", JStr "output-omitted"); ("originalBytes", JInt (len (it_Payload i)));
                                ("sha256", JStr (sha256_hex p))])
            else p)
  end.

Definition is_item_event (rid : RoomID) (i : CompletedItem) (e : EventRow) : bool :=
  in_room e_room rid e && String.eqb (ev_Kind (e_event e)) "item/completed"
  && bool_decide (extract ["thread_id"] (ev_Payload (e_event e)) = Some (it_ThreadID i))
  && bool_decide (extract ["turn_id"] (ev_Payload (e_event e)) = Some (it_TurnID i))
  && bool_decide (extract ["item_id"] (ev_Payload (e_event e)) = Some (it_ItemID i)).
Definition event_seq (e : EventRow) : Z := ev_Seq (e_event e).
(** [ORDER BY seq LIMIT 1] *)
Definition find_item_event (d : DB) (rid : RoomID) (i : CompletedItem) : option DurableEvent :=
  e_event <$> head (order_by event_seq (List.filter (is_item_event rid i) (room_events d))).

(** A [string] field of a value decoded with errors ignored: a value of another
    type leaves it as it was. *)
Definition lenient_field (name : string) (s : string) : string :=
  match parse s with
  | Some (JObj fs) =>
      foldl (fun acc '(k, v) => if EqualFold k name then match v with JStr t => t | _ => acc end else acc) "" fs
  | _ => ""
  end.

(** The payload field of a stored item event, as encoded in the column. *)
Definition stored_item_payload (e : DurableEvent) : option string :=
  match force (ev_Payload e) with
  | JObj fs => marshal <$> first_key "payload" fs
  | _ => None
  end.

(** Equal payloads, or two omission markers of the same content. *)
Definition same_item (old new : string) : bool :=
  String.eqb old new
  || (String.eqb (lenient_field "type" old) "output-omitted" && String.eqb (lenient_field "type" new) "output-omitted"
      && negb (String.eqb (lenient_field "sha256" old) "")
      && String.eqb (lenient_field "sha256" old) (lenient_field "sha256" new)).

Definition item_event_payload (i : CompletedItem) (payload : string) : json :=
  JObj [("thread_id", JStr (it_ThreadID i)); ("turn_id", JStr (it_TurnID i)); ("item_id", JStr (it_ItemID i));
        ("payload", JRaw payload)].

Definition RecordCompletedItem_tx (rid : RoomID) (i : CompletedItem) (payload : string) (now : Z)
    : StoreTx (DurableEvent * bool) :=
  d ← tx_get;
  match find_room d rid with
  | None => tx_fail (Sentinel ErrRoomNotFound)
  | Some r =>
      tx_guard (bool_decide (r_thread r = Some (it_ThreadID i))) (Sentinel ErrInvalidState);;
      match find_item_event d rid i with
      | Some e =>
          match stored_item_payload e ≫= json_Compact, json_Compact payload with
          | Some old, Some new =>
              tx_guard (same_item old new) (Sentinel ErrInvalidState);;
              mret (e, false)
          | _, _ => tx_fail (ErrText "unexpected end of JSON input")
          end
      | None =>
          e ← appendEvent rid 0 "item/completed" (item_event_payload i payload) now;
          mret (e, true)
      end
  end.
Definition RecordCompletedItem (s : Store) (now : Z) (rid : RoomID) (i : CompletedItem) : Store * result error DurableEvent :=
  with_check s (validateRoomID rid)
    (with_check s (check (validCompletedItem i) (bad_input ": invalid completed item"))
       (with_check s (check ((len (it_ThreadID i) <=? 4096) && (len (it_TurnID i) <=? 4096) && (len (it_ItemID i) <=? 4096))
                            (Sentinel ErrInvalidInput))
          (match item_payload i with
           | None => (s, Err (ErrText "json: error calling MarshalJSON"))
           | Some p => transactConditional s (RecordCompletedItem_tx rid i p now)
           end))).

(** ** Turn completion and review *)

(** [m JOIN b]: a prompt running or under review that is bound to the turn. *)
Definition runs_turn (d : DB) (rid : RoomID) (turn : TurnID) (m : MessageRow) : bool :=
  in_room msg_room rid m && contains prompt_kinds (msg_kind m)
  && (bool_decide (msg_state m = RequestRunning) || bool_decide (msg_state m = RequestNeedsReview))
  && existsb (fun b => is_binding rid (msg_id m) b && bool_decide (bd_state b = msg_state m)
                       && bool_decide (bd_turn b = Some turn)) (turn_bindings d).

Definition FinishTurn_tx (rid : RoomID) (i : FinishTurnInput) (now : Z) : StoreTx (list DurableEvent) :=
  d ← tx_get;
  match List.find (runs_turn d rid (ft_TurnID i)) (messages d) with
  | None => requireRoom rid;; tx_fail (Sentinel ErrInvalidState)
  | Some m =>
      updateMessageAndBinding rid (msg_id m) (msg_state m) (ft_State i) (nullableCompletedAt (ft_State i) now)
        (nullableString (ft_ErrorCode i)) (nullableString (ft_ErrorDigest i)) no_update_values;;
      e ← appendEvent rid (msg_actor m) ("turn/" +:+ RequestState_string (ft_State i))
            (JObj ([("turn_id", JStr (ft_TurnID i)); ("state", JStr (RequestState_string (ft_State i)))]
                   ++ omitempty "error_code" (ft_ErrorCode i) ++ omitempty "error_digest" (ft_ErrorDigest i))) now;
      mret [e]
  end.
Definition FinishTurn (s : Store) (now : Z) (rid : RoomID) (i : FinishTurnInput) : Store * result error (list DurableEvent) :=
  with_check s (validateRoomID rid)
    (with_check s (check (negb (blank (ft_TurnID i))) (bad_input ": turn id is blank"))
       (with_check s (validateFinishTurn i) (transact s (FinishTurn_tx rid i now)))).

Definition MarkNeedsReview_tx (rid : RoomID) (cid : ClientMessageID) (rs : ReviewReason) (now : Z) : StoreTx DurableEvent :=
  d ← tx_get;
  match loadStoredMessage d rid cid with
  | None => requireRoom rid;; tx_fail (Sentinel ErrMessageNotFound)
  | Some m =>
      tx_guard (bool_decide (sm_state m = RequestDispatching) || bool_decide (sm_state m = RequestRunning))
               (Sentinel ErrInvalidState);;
      tx_guard (negb (contains [KNote; KRecover] (sm_kind m))) (Sentinel ErrInvalidState);;
      updateMessageAndBinding rid (sm_id m) (sm_state m) RequestNeedsReview None
        (nullableString (rv_Code rs)) (nullableString (rv_DetailDigest rs)) no_update_values;;
      appendEvent rid (sm_actorUID m) "message/needs-review"
        (JObj [("client_message_id", JStr cid); ("code", JStr (rv_Code rs)); ("detail_digest", JStr (rv_DetailDigest rs))]) now
  end.
Definition MarkNeedsReview (s : Store) (now : Z) (rid : RoomID) (cid : ClientMessageID) (rs : ReviewReason)
    : Store * result error DurableEvent :=
  with_check s (validateIdentifiers rid cid)
    (with_check s (validateReason (rv_Code rs) (rv_DetailDigest rs)) (transact s (MarkNeedsReview_tx rid cid rs now))).

(** ** Reading the log *)

Definition LatestSeq (s : Store) (rid : RoomID) : result error Seq :=
  let? _ := validateRoomID rid in
  match find_room (db s) rid with
  | Some r => Ok (r_next_seq r - 1)
  | None => Err (Sentinel ErrRoomNotFound)
  end.

Definition in_range (after through seq : Seq) : bool := (after <? seq) && ((through =? 0) || (seq <=? through)).

(** The room's log in sequence order. *)
Definition room_log (d : DB) (rid : RoomID) : list DurableEvent :=
  e_event <$> order_by event_seq (List.filter (in_room e_room rid) (room_events d)).
Definition Events (s : Store) (rid : RoomID) (after through : Seq) (limit : Z) : result error (list DurableEvent) :=
  let? _ := validateRoomID rid in
  let? _ := check (negb ((limit <=? 0) || (negb (through =? 0) && (through <? after)))) (bad_input ": invalid event range") in
  match find_room (db s) rid with
  | None => Err (Sentinel ErrRoomNotFound)
  | Some _ =>
      Ok (firstn (Z.to_nat limit) (List.filter (fun e => in_range after through (ev_Seq e)) (room_log (db s) rid)))
  end.

(** ** Client connections *)

Definition is_connection (id : ConnectionID) (c : ConnectionRow) : bool := String.eqb (cn_id c) id.
Definition find_connection (d : DB) (id : ConnectionID) : option ConnectionRow :=
  List.find (is_connection id) (client_connections d).
Definition set_ack (seq : Seq) (c : ConnectionRow) : ConnectionRow :=
  {| cn_id := cn_id c; cn_room := cn_room c; cn_member := cn_member c; cn_connected := cn_connected c;
     cn_disconnected := cn_disconnected c; cn_ack := seq |}.
Definition set_disconnected (at_ : Z) (c : ConnectionRow) : ConnectionRow :=
  {| cn_id := cn_id c; cn_room := cn_room c; cn_member := cn_member c; cn_connected := cn_connected c;
     cn_disconnected := Some (encodeTime at_); cn_ack := cn_ack c |}.
Definition update_connections (p : ConnectionRow -> bool) (f : ConnectionRow -> ConnectionRow) : StoreTx nat :=
  d ← tx_get;
  tx_modify (set_client_connections (update_where p f));;
  mret (count_where p (client_connections d)).

Definition Connected_tx (c : ConnectionRecord) : StoreTx unit :=
  requireMemberUID (cr_RoomID c) (cr_UID c);;
  d ← tx_get;
  tx_guard (negb (existsb (is_connection (cr_ID c)) (client_connections d)) && (0 <=? cr_LastAck c))
           (Sentinel ErrInvalidState);;
  tx_modify (set_client_connections (fun l => l ++
    [{| cn_id := cr_ID c; cn_room := cr_RoomID c; cn_member := cr_UID c; cn_connected := encodeTime (cr_ConnectedAt c);
        cn_disconnected := encodeTime <$> cr_DisconnectedAt c; cn_ack := cr_LastAck c |}])).
Definition Connected (s : Store) (c : ConnectionRecord) : Store * result error unit :=
  with_check s (ConnectionRecord_Validate c)
    (with_check s (validateRoomID (cr_RoomID c))
       (with_check s (check (negb ((cr_UID c =? 0) || (cr_ConnectedAt c =? 0)
                                   || match cr_DisconnectedAt c with Some t => t <? cr_ConnectedAt c | None => false end))
                            (bad_input ": invalid connection record"))
          (transact s (Connected_tx c)))).

Definition Ack_tx (id : ConnectionID) (seq : Seq) : StoreTx unit :=
  d ← tx_get;
  match find_connection d id with
  | None => tx_fail (Sentinel ErrConnectionNotFound)
  | Some c =>
      tx_guard (negb (seq <? cn_ack c)) (Sentinel ErrInvalidState);;
      tx_guard (seq <? 2 ^ 63) (ErrText ("update connection ack: sql: converting argument $1 type: uint64 values with high bit set are not supported"));;
      n ← update_connections (fun x => is_connection id x && (cn_ack x =? cn_ack c)) (set_ack seq);
      requireOneRow n
  end.
Definition Ack (s : Store) (id : ConnectionID) (seq : Seq) : Store * result error unit :=
  with_check s (check (ValidConnectionID id) (Sentinel ErrInvalidConnectionID)) (transact s (Ack_tx id seq)).

Definition Disconnected_tx (id : ConnectionID) (at_ : Z) : StoreTx unit :=
  d ← tx_get;
  match find_connection d id with
  | None => tx_fail (Sentinel ErrConnectionNotFound)
  | Some c =>
      tx_guard (match cn_disconnected c with None => true | Some _ => false end) (Sentinel ErrInvalidState);;
      match decodeTime (cn_connected c) with
      | None => tx_fail (ErrText "decode connection time")
      | Some connected =>
          tx_guard (negb (at_ <? connected)) (bad_input ": disconnect precedes connection");;
          n ← update_connections (fun x => is_connection id x && bool_decide (cn_connected x = cn_connected c)
                                           && bool_decide (cn_disconnected x = None)) (set_disconnected at_);
          requireOneRow n
      end
  end.
Definition Disconnected (s : Store) (id : ConnectionID) (at_ : Z) : Store * result error unit :=
  with_check s (check (ValidConnectionID id) (Sentinel ErrInvalidConnectionID))
    (with_check s (check (negb (at_ =? 0)) (bad_input ": disconnect time is zero"))
       (transact s (Disconnected_tx id at_))).

(** Open connections of a room, and the checks on their times. *)
Definition is_open (rid : RoomID) (c : ConnectionRow) : bool :=
  in_room cn_room rid c && bool_decide (cn_disconnected c = None).
Definition CloseStale_tx (rid : RoomID) (at_ : Z) : StoreTx unit :=
  requireRoom rid;;
  d ← tx_get;
  let times := decodeTime ∘ cn_connected <$> List.filter (is_open rid) (client_connections d) in
  tx_guard (forallb (fun t => bool_decide (is_Some t)) times)
           (ErrSuffix (Sentinel ErrCorruptStore) ": invalid connection timestamp");;
  tx_guard (forallb (fun t => match t with Some t => t <=? at_ | None => true end) times)
           (bad_input ": stale close precedes connection");;
  update_connections (is_open rid) (set_disconnected at_);;
  mret tt.
Definition CloseStale (s : Store) (rid : RoomID) (at_ : Z) : Store * result error unit :=
  with_check s (validateRoomID rid)
    (with_check s (check (negb (at_ =? 0)) (bad_input ": stale close time is zero"))
       (transact s (CloseStale_tx rid at_))).
