(* ===== verification/StoreRecovery.v ===== *)
(** * Recovery ([internal/store/recovery.go], [admin.go], [unused_thread.go], [private_turns.go])

    The image a restarted coordinator loads, thread binding and repair, the room
    status, the resolution of reviewed messages, and the journal of private
    read-only turns. *)
From S2P Require Import Prelude GoStrings Sha256 Json RoomTypes StoreSchema StoreBase StoreTasks StoreRepository.

(** ** The recovery image *)

(** [FROM messages m JOIN turn_bindings b .. AND b.state = m.state] *)
Definition joined (d : DB) (m : MessageRow) : option BindingRow :=
  match find_binding d (msg_room m) (msg_id m) with
  | Some b => if bool_decide (bd_state b = msg_state m) then Some b else None
  | None => None
  end.
Definition binding_of (m : MessageRow) (b : BindingRow) : TurnBinding :=
  {| tb_MessageID := msg_client m; tb_TurnID := default "" (bd_turn b); tb_State := bd_state b |}.
Definition joined_binding (d : DB) (m : MessageRow) : option TurnBinding := binding_of m <$> joined d m.

Definition is_active_row (rid : RoomID) (m : MessageRow) : bool :=
  in_room msg_room rid m && contains prompt_kinds (msg_kind m)
  && state_in [RequestDispatching; RequestRunning; RequestNeedsReview] m.
Definition is_control_row (rid : RoomID) (m : MessageRow) : bool :=
  in_room msg_room rid m && contains control_kinds (msg_kind m) && state_in [RequestDispatching; RequestNeedsReview] m.
Definition is_queued_row (rid : RoomID) (m : MessageRow) : bool :=
  in_room msg_room rid m && contains prompt_kinds (msg_kind m) && state_in [RequestQueued] m.

Definition load_active (d : DB) (rid : RoomID) : option TurnBinding :=
  head (omap (joined_binding d) (order_by msg_seq (List.filter (is_active_row rid) (messages d)))).
Definition load_controls (d : DB) (rid : RoomID) : list TurnBinding :=
  omap (joined_binding d) (order_by msg_seq (List.filter (is_control_row rid) (messages d))).

(** [coalesce((SELECT task_id FROM task_messages ..), 0)] *)
Definition task_of_message (d : DB) (rid : RoomID) (mid : Z) : option Z :=
  tm_task <$> List.find (fun tm => in_room tm_room rid tm && (tm_message tm =? mid)) (task_messages d).
Definition queued_of (d : DB) (m : MessageRow) : option QueuedMessage :=
  match find_member d (msg_room m) (msg_actor m) with
  | None => None
  | Some u =>
      Some {| q_Input := {| si_TaskID := default 0 (task_of_message d (msg_room m) (msg_id m));
                            si_ClientMessageID := msg_client m; si_Text := msg_body m |};
              q_Actor := {| ac_UID := msg_actor m; ac_Name := m_username u |}; q_AcceptedSeq := msg_seq m |}
  end.
Definition load_queue (d : DB) (rid : RoomID) : list QueuedMessage :=
  omap (queued_of d) (order_by msg_seq (List.filter (is_queued_row rid) (messages d))).

Definition load_checkpoint (d : DB) (rid : RoomID) : RuntimeCheckpoint :=
  match List.find (in_room cpr_room rid) (runtime_checkpoints d) with
  | Some c => cpr_value c
  | None => zero_checkpoint
  end.

Definition recovery_image (d : DB) (r : RoomRow) : RecoveryImage :=
  {| im_Status := r_status r; im_ThreadID := default "" (r_thread r); im_Active := load_active d (r_id r);
     im_PendingControls := load_controls d (r_id r); im_Queue := load_queue d (r_id r);
     im_Checkpoint := load_checkpoint d (r_id r) |}.
Definition LoadRecoveryImage (s : Store) (rid : RoomID) : result error RecoveryImage :=
  let? _ := validateRoomID rid in
  match find_room (db s) rid with
  | None => Err (Sentinel ErrRoomNotFound)
  | Some r => Ok (recovery_image (db s) r)
  end.

(** ** Runtime checkpoint *)

Definition validateCheckpoint (c : RuntimeCheckpoint) : result error unit :=
  let? _ := check (bool_decide (cp_State c = RuntimeProcessRunning) || bool_decide (cp_State c = RuntimeProcessStopped))
                  (bad_input ": invalid runtime process state") in
  let? _ := check (negb (blank (cp_Generation c) || blank (cp_ProcessStart c) || blank (cp_CodexVersion c))
                   && validDigest (cp_SchemaSHA256 c))
                  (bad_input ": incomplete runtime checkpoint") in
  match cp_State c with
  | RuntimeProcessRunning =>
      check (negb ((cp_PID c <=? 1) || (cp_PGID c <=? 1)))
            (bad_input ": running checkpoint requires process ids greater than one")
  | RuntimeProcessStopped =>
      check (negb (negb (cp_PID c =? 0) || negb (cp_PGID c =? 0)))
            (bad_input ": stopped checkpoint requires zero process ids")
  | RuntimeProcessOther _ => Ok tt
  end.

(** [INSERT .. ON CONFLICT(room_id) DO UPDATE] *)
Definition upsert_checkpoint (rid : RoomID) (c : RuntimeCheckpoint) (l : list CheckpointRow) : list CheckpointRow :=
  if existsb (in_room cpr_room rid) l
  then update_where (in_room cpr_room rid) (fun _ => {| cpr_room := rid; cpr_value := c |}) l
  else l ++ [{| cpr_room := rid; cpr_value := c |}].
Definition SaveRuntimeCheckpoint (s : Store) (rid : RoomID) (c : RuntimeCheckpoint) : Store * result error unit :=
  with_check s (validateRoomID rid)
    (with_check s (validateCheckpoint c)
       (transact s (requireRoom rid;; tx_modify (set_runtime_checkpoints (upsert_checkpoint rid c))))).

(** ** Thread binding and room status *)

Definition validRequestState (st : RequestState) : bool := match st with RequestOther _ => false | _ => true end.
Definition validSnapshotItem (th : ThreadID) (turn : TurnID) (i : CompletedItem) : bool :=
  String.eqb (it_ThreadID i) th && String.eqb (it_TurnID i) turn && negb (blank (it_ItemID i)) && json_Valid (it_Payload i).
Fixpoint validateTurns (th : ThreadID) (l : list TurnSnapshot) : result error unit :=
  match l with
  | [] => Ok tt
  | t :: r =>
      let? _ := check (negb (blank (ts_ID t)) && validRequestState (ts_State t)) (bad_input ": invalid turn snapshot") in
      let? _ := check (forallb (validSnapshotItem th (ts_ID t)) (ts_Items t)) (bad_input ": invalid completed item snapshot") in
      validateTurns th r
  end.
Definition validateThreadSnapshot (t : ThreadSnapshot) : result error unit :=
  let? _ := check (negb (blank (th_ID t) || blank (th_CWD t))) (bad_input ": incomplete thread snapshot") in
  validateTurns (th_ID t) (th_Turns t).

Definition BindThread_tx (rid : RoomID) (t : ThreadSnapshot) (now : Z) : StoreTx DurableEvent :=
  d ← tx_get;
  match find_room d rid with
  | None => tx_fail (Sentinel ErrRoomNotFound)
  | Some r =>
      tx_guard (String.eqb (th_CWD t) (r_project_path r)) (bad_input ": thread cwd does not match room project");;
      n ← update_rooms (fun x => in_room r_id rid x && bool_decide (r_thread x = r_thread r))
            (fun x => set_thread_status (Some (th_ID t)) (r_status x) x);
      requireOneRow n;;
      appendEvent rid 0 "thread/bound"
        (JObj (omitempty "previous_thread_id" (default "" (r_thread r))
               ++ [("thread_id", JStr (th_ID t)); ("cwd", JStr (th_CWD t))])) now
  end.
Definition BindThread (s : Store) (now : Z) (rid : RoomID) (t : ThreadSnapshot) : Store * result error DurableEvent :=
  with_check s (validateRoomID rid)
    (with_check s (validateThreadSnapshot t) (transact s (BindThread_tx rid t now))).

Definition MarkThreadNeedsRepair_tx (rid : RoomID) (rs : RepairReason) (now : Z) : StoreTx DurableEvent :=
  d ← tx_get;
  match find_room d rid with
  | None => tx_fail (Sentinel ErrRoomNotFound)
  | Some r =>
      tx_guard (negb (bool_decide (r_status r = RoomThreadNeedsRepair))) (Sentinel ErrInvalidState);;
      n ← update_rooms (fun x => in_room r_id rid x && bool_decide (r_status x = r_status r))
            (fun x => set_thread_status (r_thread x) RoomThreadNeedsRepair x);
      requireOneRow n;;
      appendEvent rid 0 "thread/needs-repair"
        (JObj (omitempty "thread_id" (default "" (r_thread r))
               ++ [("code", JStr (rp_Code rs)); ("detail_digest", JStr (rp_DetailDigest rs))])) now
  end.
Definition MarkThreadNeedsRepair (s : Store) (now : Z) (rid : RoomID) (rs : RepairReason) : Store * result error DurableEvent :=
  with_check s (validateRoomID rid)
    (with_check s (validateReason (rp_Code rs) (rp_DetailDigest rs)) (transact s (MarkThreadNeedsRepair_tx rid rs now))).

Definition SetRoomStatus_tx (rid : RoomID) (st : RoomStatus) (now : Z) : StoreTx (option DurableEvent * bool) :=
  d ← tx_get;
  match find_room d rid with
  | None => tx_fail (Sentinel ErrRoomNotFound)
  | Some r =>
      if bool_decide (r_status r = st) then mret (None, false) else
      n ← update_rooms (fun x => in_room r_id rid x && bool_decide (r_status x = r_status r))
            (fun x => set_thread_status (r_thread x) st x);
      requireOneRow n;;
      e ← appendEvent rid 0 "room/status"
            (JObj [("previous", JStr (RoomStatus_string (r_status r))); ("current", JStr (RoomStatus_string st))]) now;
      mret (Some e, true)
  end.
Definition SetRoomStatus (s : Store) (now : Z) (rid : RoomID) (st : RoomStatus) : Store * result error (option DurableEvent) :=
  with_check s (validateRoomID rid)
    (with_check s (check (match st with RoomStatusOther _ => false | _ => true end) (bad_input ": invalid room status"))
       (transactConditional s (SetRoomStatus_tx rid st now))).

(** [RepairThread] (admin.go) *)
Definition RepairThread_tx (rid : RoomID) (t : ThreadSnapshot) (rs : RepairReason) (now : Z) : StoreTx DurableEvent :=
  d ← tx_get;
  match find_room d rid with
  | None => tx_fail (Sentinel ErrRoomNotFound)
  | Some r =>
      tx_guard (String.eqb (th_CWD t) (r_project_path r)) (bad_input ": repair cwd mismatch");;
      update_rooms (in_room r_id rid) (set_thread_status (Some (th_ID t)) RoomRecovering);;
      appendEvent rid 0 "thread/repaired"
        (JObj (omitempty "previous_thread_id" (default "" (r_thread r))
               ++ [("thread_id", JStr (th_ID t)); ("cwd", JStr (th_CWD t)); ("code", JStr (rp_Code rs));
                   ("detail_digest", JStr (rp_DetailDigest rs))])) now
  end.
Definition RepairThread (s : Store) (now : Z) (rid : RoomID) (t : ThreadSnapshot) (rs : RepairReason)
    : Store * result error DurableEvent :=
  with_check s (validateRoomID rid)
    (with_check s (validateThreadSnapshot t)
       (with_check s (validateReason (rp_Code rs) (rp_DetailDigest rs)) (transact s (RepairThread_tx rid t rs now)))).

(** ** Resolving a reviewed message *)

(** [requireOneRow] with its error replaced. *)
Definition requireOneReviewed (n : nat) : StoreTx unit := tx_guard (Nat.eqb n 1) (Sentinel ErrStaleRecovery).

Definition clear_binding (st : RequestState) (turn : option string) (started completed : option Z)
    (code : option string) (b : BindingRow) : BindingRow :=
  {| bd_room := bd_room b; bd_message := bd_message b; bd_turn := turn; bd_state := st; bd_started := started;
     bd_completed := completed; bd_code := code; bd_digest := None |}.

Definition resetReviewedPrompt (rid : RoomID) (mid : Z) : StoreTx unit :=
  n ← update_message_state rid mid RequestNeedsReview RequestQueued;
  requireOneReviewed n;;
  n ← update_binding rid mid RequestNeedsReview (clear_binding RequestQueued None None None None);
  requireOneReviewed n.
Definition resetReviewedControl (rid : RoomID) (mid : Z) : StoreTx unit :=
  n ← update_message_state rid mid RequestNeedsReview RequestDispatching;
  requireOneReviewed n;;
  n ← update_binding rid mid RequestNeedsReview
        (fun b => clear_binding RequestDispatching (bd_turn b) (bd_started b) None None b);
  requireOneReviewed n.
Definition terminalizeReviewed (rid : RoomID) (mid : Z) (code_ : string) (completedAt : Z) : StoreTx unit :=
  n ← update_message_state rid mid RequestNeedsReview RequestFailed;
  requireOneReviewed n;;
  n ← update_binding rid mid RequestNeedsReview
        (fun b => clear_binding RequestFailed (bd_turn b) (bd_started b) (Some completedAt) (Some code_) b);
  requireOneReviewed n.

Definition retryCommand (rid : RoomID) (cid : ClientMessageID) (target : storedMessage) : StoreTx RetryCommand :=
  match parse (sm_body target) with
  | None => tx_fail (ErrText "decode persisted control command")
  | Some body =>
      match string_field "expected_turn_id" body, string_field "text" body with
      | Some turn, Some text =>
          d ← tx_get;
          match find_member d rid (sm_actorUID target) with
          | None => tx_fail (ErrPrefix "load persisted control actor: " (Sentinel ErrNoRows))
          | Some u =>
              mret {| rc_Kind := if bool_decide (sm_kind target = KCancel) then RetryCancel else RetrySteer;
                      rc_ClientMessageID := cid; rc_Actor := {| ac_UID := m_uid u; ac_Name := m_username u |};
                      rc_ExpectedTurnID := turn; rc_Text := text |}
          end
      | _, _ => tx_fail (ErrText "decode persisted control command")
      end
  end.

Definition recoveryRetryState (k : MessageKind) : RequestState :=
  if contains prompt_kinds k then RequestQueued else RequestDispatching.

Definition insertRecoveryPrompt (rid : RoomID) (actor : Actor) (cid : ClientMessageID) (instruction : string)
    (source : Z) (now : Z) : StoreTx DurableEvent :=
  let hash := canonicalHash "recovery-prompt" (ac_UID actor) (marshal (JObj [("text", JStr instruction)])) in
  seq ← allocateSeq rid;
  mid ← tx_onerror (Sentinel ErrIdempotencyConflict)
          (insert_message rid cid (ac_UID actor) KRecoveryPrompt instruction hash RequestQueued seq now);
  insert_binding rid mid None RequestQueued;;
  d ← tx_get;
  match task_of_message d rid source with
  | Some task => attachTaskMessage rid actor task mid now
  | None => mret tt
  end;;
  insertEventAt rid seq (ac_UID actor) "message/accepted"
    (accepted_payload cid mid KRecoveryPrompt instruction RequestQueued) now.

Definition loadRecoveryEvents (rid : RoomID) (mid : Z) : StoreTx (list DurableEvent) :=
  d ← tx_get;
  let links := order_by re_ordinal
                 (List.filter (fun l => (re_message l =? mid) && in_room re_room rid l) (recovery_result_events d)) in
  let events := omap (fun l => find_event d rid (re_seq l)) links in
  match events with
  | [] => tx_fail (ErrText "stored recovery result has no events")
  | _ => mret events
  end.

Definition insert_recovery_result (mid : Z) (rid : RoomID) (target : Z) (a : RecoveryAction) : StoreTx unit :=
  d ← tx_get;
  tx_guard (negb (existsb (fun r => rs_message r =? mid) (recovery_results d))
            && existsb (is_message_id rid mid) (messages d) && existsb (is_message_id rid target) (messages d))
           ErrConstraint;;
  tx_modify (set_recovery_results (fun l => l ++
    [{| rs_message := mid; rs_room := rid; rs_target := target; rs_action := a |}])).
Fixpoint link_events (mid : Z) (rid : RoomID) (index : Z) (l : list DurableEvent) : StoreTx unit :=
  match l with
  | [] => mret tt
  | e :: r =>
      d ← tx_get;
      tx_guard (negb (existsb (fun x => (re_message x =? mid) && (re_ordinal x =? index)) (recovery_result_events d))
                && existsb (is_event rid (ev_Seq e)) (room_events d)) ErrConstraint;;
      tx_modify (set_recovery_result_events (fun l => l ++
        [{| re_message := mid; re_ordinal := index; re_room := rid; re_seq := ev_Seq e |}]));;
      link_events mid rid (index + 1) r
  end.

Definition recover_body (i : RecoverInput) : string :=
  marshal (JObj ([("target_message_id", JStr (ri_TargetMessageID i)); ("action", JStr (RecoveryAction_string (ri_Action i)))]
                 ++ omitempty "replacement_message_id" (ri_ReplacementMessageID i)
                 ++ omitempty "instruction" (ri_Instruction i))).
Definition recover_hash (actor : Actor) (i : RecoverInput) : string :=
  canonicalHash "recover" (ac_UID actor) (recover_body i).

(** The action on the target: the events it appends and the retry it asks for. *)
Definition resolve_action (rid : RoomID) (actor : Actor) (i : RecoverInput) (target : storedMessage) (now : Z)
    : StoreTx (list DurableEvent * option RetryCommand) :=
  match ri_Action i with
  | RecoveryRetry =>
      retry ← (if contains prompt_kinds (sm_kind target)
               then resetReviewedPrompt rid (sm_id target);; mret None
               else resetReviewedControl rid (sm_id target);;
                    r ← retryCommand rid (ri_TargetMessageID i) target;
                    mret (Some r));
      e ← appendEvent rid (ac_UID actor) "recovery/retried"
            (JObj [("target_message_id", JStr (ri_TargetMessageID i));
                   ("state", JStr (RequestState_string (recoveryRetryState (sm_kind target))));
                   ("duplicate_effects_possible", JBool true)]) now;
      mret ([e], retry)
  | RecoverySkip | RecoveryContinue =>
      let continue_ := bool_decide (ri_Action i = RecoveryContinue) in
      let code_ := if continue_ then "recovery-continued" else "recovery-skipped" in
      let kind := if continue_ then "recovery/continued" else "recovery/skipped" in
      terminalizeReviewed rid (sm_id target) code_ now;;
      e ← appendEvent rid (ac_UID actor) kind
            (JObj [("target_message_id", JStr (ri_TargetMessageID i)); ("state", JStr "failed");
                   ("error_code", JStr code_)]) now;
      if continue_ then
        p ← insertRecoveryPrompt rid actor (ri_ReplacementMessageID i) (ri_Instruction i) (sm_id target) now;
        mret ([e; p], None)
      else mret ([e], None)
  | RecoveryOther _ => tx_fail (bad_input ": invalid recovery action")
  end.

Definition resolve_duplicate (rid : RoomID) (actor : Actor) (i : RecoverInput) (m : storedMessage) : StoreTx (RecoveryResult * bool) :=
  tx_guard (bool_decide (sm_kind m = KRecover) && (sm_actorUID m =? ac_UID actor)
            && String.eqb (sm_payloadHash m) (recover_hash actor i)) (Sentinel ErrIdempotencyConflict);;
  events ← loadRecoveryEvents rid (sm_id m);
  mret ({| rr_Duplicate := true; rr_Events := events; rr_Retry := None |}, false).

Definition resolve_new (rid : RoomID) (actor : Actor) (i : RecoverInput) (now : Z) : StoreTx (RecoveryResult * bool) :=
  requireActor rid actor;;
  d ← tx_get;
  match loadStoredMessage d rid (ri_TargetMessageID i) with
  | None => tx_fail (Sentinel ErrMessageNotFound)
  | Some target =>
      tx_guard (bool_decide (sm_state target = RequestNeedsReview) && negb (contains [KNote; KRecover] (sm_kind target)))
               (Sentinel ErrStaleRecovery);;
      tx_guard (negb (bool_decide (ri_Action i = RecoveryContinue)
                      && existsb (is_client rid (ri_ReplacementMessageID i)) (messages d)))
               (Sentinel ErrIdempotencyConflict);;
      seq ← allocateSeq rid;
      mid ← insert_message rid (ri_ClientMessageID i) (ac_UID actor) KRecover (recover_body i) (recover_hash actor i)
              RequestCompleted seq now;
      e ← insertEventAt rid seq (ac_UID actor) "recovery/accepted"
            (JObj [("client_message_id", JStr (ri_ClientMessageID i)); ("target_message_id", JStr (ri_TargetMessageID i));
                   ("action", JStr (RecoveryAction_string (ri_Action i)))]) now;
      '(more, retry) ← resolve_action rid actor i target now;
      insert_recovery_result mid rid (sm_id target) (ri_Action i);;
      link_events mid rid 0 (e :: more);;
      mret ({| rr_Duplicate := false; rr_Events := e :: more; rr_Retry := retry |}, true)
  end.

Definition ResolveReview_tx (rid : RoomID) (actor : Actor) (i : RecoverInput) (now : Z) : StoreTx (RecoveryResult * bool) :=
  d ← tx_get;
  match loadStoredMessage d rid (ri_ClientMessageID i) with
  | Some m => resolve_duplicate rid actor i m
  | None => resolve_new rid actor i now
  end.
Definition ResolveReview (s : Store) (now : Z) (rid : RoomID) (actor : Actor) (i : RecoverInput) : Store * result error RecoveryResult :=
  with_check s (RecoverInput_Validate i)
    (with_check s (validateRoomID rid) (transactConditional s (ResolveReview_tx rid actor i now))).

(** ** Private turns ([private_turns.go])

    A frontier is written before a private turn starts; every turn of the thread
    outside the frontier's baseline is hidden. *)

Definition in_thread (rid : RoomID) (th : ThreadID) (f : FrontierRow) : bool :=
  in_room fr_room rid f && String.eqb (fr_thread f) th.
Definition BeginPrivateTurn_tx (rid : RoomID) (th : ThreadID) (baseline : list TurnID) : StoreTx unit :=
  d ← tx_get;
  tx_guard (negb (existsb (in_room fr_room rid) (private_turn_frontiers d)) && existsb (in_room r_id rid) (rooms d))
           ErrConstraint;;
  tx_modify (set_private_turn_frontiers (fun l => l ++ [{| fr_room := rid; fr_thread := th; fr_baseline := baseline |}])).
(** A single statement outside [transact]: no commit hook, but it may fail to commit. *)
Definition autocommit {A} (s : Store) (w : StoreTx A) : Store * result error A :=
  match w (db s), commitFault s with
  | Err e, _ => (s, Err e)
  | Ok _, Some e => (s, Err e)
  | Ok (a, d), None => (mkStore d (beforeCommit s) (commitFault s), Ok a)
  end.
Definition BeginPrivateTurn (s : Store) (rid : RoomID) (th : ThreadID) (baseline : list TurnID) : Store * result error unit :=
  autocommit s (BeginPrivateTurn_tx rid th baseline).

(** [INSERT OR IGNORE]: a duplicate is skipped; the foreign key still holds. *)
Fixpoint insert_private (rid : RoomID) (th : ThreadID) (turns : list TurnID) : StoreTx unit :=
  match turns with
  | [] => mret tt
  | t :: r =>
      d ← tx_get;
      tx_guard (existsb (in_room r_id rid) (rooms d)) ErrConstraint;;
      let row := {| pt_room := rid; pt_thread := th; pt_turn := t |} in
      (if bool_decide (row ∈ private_turns d) then mret tt
       else tx_modify (set_private_turns (fun l => l ++ [row])));;
      insert_private rid th r
  end.
Definition EndPrivateTurn_tx (rid : RoomID) (th : ThreadID) (turns : list TurnID) : StoreTx unit :=
  insert_private rid th turns;;
  tx_modify (set_private_turn_frontiers (List.filter (fun f => negb (in_thread rid th f)))).
Definition EndPrivateTurn (s : Store) (rid : RoomID) (th : ThreadID) (turns : list TurnID) : Store * result error unit :=
  transact s (EndPrivateTurn_tx rid th turns).

(** The turns outside the baseline, in order, or an error at the first running one. *)
Fixpoint added_turns (known : list TurnID) (turns : list TurnSnapshot) : result error (list TurnID) :=
  match turns with
  | [] => Ok []
  | t :: r =>
      if existsb (String.eqb (ts_ID t)) known then added_turns known r
      else if bool_decide (ts_State t = RequestRunning)
      then Err (ErrText "只读问答的结束状态尚未确认，暂停主任务恢复")
      else let? l := added_turns known r in Ok (ts_ID t :: l)
  end.
Definition recorded_private (d : DB) (rid : RoomID) (th : ThreadID) : list TurnID :=
  pt_turn <$> List.filter (fun p => in_room pt_room rid p && String.eqb (pt_thread p) th) (private_turns d).
Definition PrivateTurns (s : Store) (rid : RoomID) (th : ThreadID) (turns : list TurnSnapshot)
    : Store * result error (list TurnID) :=
  let hidden := recorded_private (db s) rid th in
  match List.find (in_thread rid th) (private_turn_frontiers (db s)) with
  | None => (s, Ok hidden)
  | Some f =>
      match added_turns (fr_baseline f) turns with
      | Err e => (s, Err e)
      | Ok added =>
          let '(s', r) := EndPrivateTurn s rid th added in
          (s', result_map (fun _ => hidden ++ added) r)
      end
  end.

(** ** Resetting an unused thread ([unused_thread.go]) *)

Definition HasAgentActivity (d : DB) (rid : RoomID) : bool :=
  existsb (fun m => in_room msg_room rid m && negb (bool_decide (msg_kind m = KNote))) (messages d)
  || existsb (in_room bd_room rid) (turn_bindings d)
  || existsb (fun e => in_room e_room rid e && String.eqb (ev_Kind (e_event e)) "item/completed") (room_events d).
Definition ResetUnusedThread_tx (rid : RoomID) (expected : ThreadID) (now : Z) : StoreTx bool :=
  d ← tx_get;
  match find_room d rid with
  | None => tx_fail (Sentinel ErrRoomNotFound)
  | Some r =>
      if negb (bool_decide (r_thread r = Some expected)) then mret false
      else if HasAgentActivity d rid then mret false
      else
        update_rooms (fun x => in_room r_id rid x && bool_decide (r_thread x = Some expected))
          (set_thread_status None RoomReady);;
        appendEvent rid 0 "thread/empty-reset"
          (JObj [("previous_thread_id", JStr expected); ("reason", JStr "upstream-missing-before-first-task")]) now;;
        mret true
  end.
Definition ResetUnusedThread (s : Store) (now : Z) (rid : RoomID) (expected : ThreadID) : Store * result error bool :=
  with_check s (check (negb (String.eqb expected "")) (Sentinel ErrInvalidInput))
    (transact s (ResetUnusedThread_tx rid expected now)).
