(* ===== verification/StoreAdmission.v ===== *)
(** * Admission, roles and members ([internal/store/admission.go], [roles.go],
      [members.go], [personal.go], [bot.go])

    A person asks to join with a secret token, of which only the hash is stored;
    the host decides; an approved request is bound to a new member of the room, and
    the token authenticates as that member until it is revoked.  The bytes that
    [rand.Read] gives are an argument. *)
From S2P Require Import Prelude GoStrings Sha256 Json RoomTypes StoreSchema StoreBase StoreTasks StoreRepository.

(** ** Names and tokens *)

Definition validJoinName (name : string) : bool :=
  negb (String.eqb name "" || negb (String.eqb name (TrimSpace name)) || (64 <? len name))
  && negb (existsb (fun r => IsControl r || IsFormat r) (runes name)).

Definition tokenHash (token : string) : result error string :=
  match hex_DecodeString token with
  | Some b => if len b =? 32 then Ok (sha256_hex b) else Err (Sentinel ErrAdmission)
  | None => Err (Sentinel ErrAdmission)
  end.

(** ** Requests *)

Record JoinRequest :=
  { jn_Role : string; jn_ID : string; jn_Name : string; jn_State : string; jn_Address : string; jn_UID : UID; jn_Created : Z }.
(** [scanJoin] of [joinColumns] *)
Definition scanJoin (d : DB) (j : JoinRow) : JoinRequest :=
  {| jn_Role := role_of d (j_room j) (j_uid j); jn_ID := j_id j; jn_Name := j_name j; jn_State := j_state j;
     jn_Address := j_address j; jn_UID := j_uid j; jn_Created := j_created j |}.
Definition with_state_uid (st : string) (uid : UID) (j : JoinRow) : JoinRow :=
  {| j_id := j_id j; j_room := j_room j; j_token_hash := j_token_hash j; j_name := j_name j; j_state := st;
     j_address := j_address j; j_uid := uid; j_created := j_created j |}.
Definition has_state (states : list string) (j : JoinRow) : bool := existsb (String.eqb (j_state j)) states.
Definition has_hash (rid : RoomID) (hash : string) (j : JoinRow) : bool := in_room j_room rid j && String.eqb (j_token_hash j) hash.
Definition has_id (rid : RoomID) (id : string) (j : JoinRow) : bool := in_room j_room rid j && String.eqb (j_id j) id.

Definition unix (now : Z) : Z := now / second_ns.
Definition join_ttl : Z := 86400.
Definition max_pending : nat := 128.
Definition max_joins : nat := 4096.

(** Primary key, unique (room, token hash), foreign key to the room. *)
Definition insert_join (j : JoinRow) : StoreTx unit :=
  d ← tx_get;
  tx_guard (negb (existsb (fun x => String.eqb (j_id x) (j_id j)) (join_requests d))
            && negb (existsb (has_hash (j_room j) (j_token_hash j)) (join_requests d))
            && existsb (in_room r_id (j_room j)) (rooms d)) ErrConstraint;;
  tx_modify (set_join_requests (fun l => l ++ [j])).
(** Requests that carry no authority make room for new ones. *)
Definition free_capacity (rid : RoomID) : StoreTx unit :=
  d ← tx_get;
  if Nat.leb max_joins (count_where (in_room j_room rid) (join_requests d)) then
    tx_modify (set_join_requests (List.filter (fun j => negb (in_room j_room rid j && has_state ["denied"; "expired"] j))));;
    d ← tx_get;
    tx_guard (negb (Nat.leb max_joins (count_where (in_room j_room rid) (join_requests d)))) (ErrText "session member capacity reached")
  else mret tt.
Definition RequestJoin_tx (rid : RoomID) (hash name address : string) (random : result error string) (now : Z) : StoreTx JoinRequest :=
  let now := unix now in
  tx_modify (set_join_requests (update_where
    (fun j => in_room j_room rid j && String.eqb (j_state j) "pending" && (j_created j <? now - join_ttl))
    (fun j => with_state_uid "expired" (j_uid j) j)));;
  d ← tx_get;
  match List.find (has_hash rid hash) (join_requests d) with
  | Some j => mret (scanJoin d j)
  | None =>
      tx_guard (negb (Nat.leb max_pending (count_where (fun j => in_room j_room rid j && String.eqb (j_state j) "pending") (join_requests d))))
               (ErrText "pending admission queue full; host can deny requests to free capacity");;
      free_capacity rid;;
      b ← tx_lift random;
      let id := hex_EncodeToString b in
      insert_join {| j_id := id; j_room := rid; j_token_hash := hash; j_name := name; j_state := "pending";
                     j_address := address; j_uid := 0; j_created := now |};;
      mret {| jn_Role := ""; jn_ID := id; jn_Name := name; jn_State := "pending"; jn_Address := address; jn_UID := 0; jn_Created := now |}
  end.
Definition RequestJoin (s : Store) (now : Z) (rid : RoomID) (token name address : string) (random : result error string)
    : Store * result error JoinRequest :=
  match tokenHash token with
  | Ok hash =>
      if negb (validJoinName name) || (128 <? len address) then (s, Err (Sentinel ErrAdmission))
      else transact s (RequestJoin_tx rid hash name address random now)
  | Err _ => (s, Err (Sentinel ErrAdmission))
  end.

(** The approved request of the token, joined with its member. *)
Definition AuthenticateJoin (s : Store) (rid : RoomID) (token : string) : result error Member :=
  let? hash := tokenHash token in
  match List.find (fun j => has_hash rid hash j && String.eqb (j_state j) "approved"
                            && existsb (is_member (j_room j) (j_uid j)) (members (db s))) (join_requests (db s)) with
  | Some j => match find_member (db s) (j_room j) (j_uid j) with
              | Some m => Ok {| mb_UID := m_uid m; mb_Name := m_username m |}
              | None => Err (Sentinel ErrAdmission)
              end
  | None => Err (Sentinel ErrAdmission)
  end.

(** ** Decisions *)

Definition ValidRole (role : string) : bool := String.eqb role "roommate" || String.eqb role "visitor" || String.eqb role "asker".
Definition first_uid : Z := 1000000000.
Definition next_uid (d : DB) (rid : RoomID) : Z :=
  foldr Z.max first_uid ((fun m => m_uid m + 1) <$> List.filter (in_room m_room rid) (members d)).
Definition is_role (rid : RoomID) (uid : UID) (r : RoleRow) : bool := in_room ro_room rid r && (ro_uid r =? uid).
(** Checked role, primary key (room, uid), foreign key to the member. *)
Definition insert_role (rid : RoomID) (uid : UID) (role : string) : StoreTx unit :=
  d ← tx_get;
  tx_guard (ValidRole role && negb (existsb (is_role rid uid) (member_roles d)) && existsb (is_member rid uid) (members d)) ErrConstraint;;
  tx_modify (set_member_roles (fun l => l ++ [{| ro_room := rid; ro_uid := uid; ro_role := role |}])).
(** [ON CONFLICT(room_id,uid) DO UPDATE] *)
Definition upsert_role (rid : RoomID) (uid : UID) (role : string) : StoreTx unit :=
  d ← tx_get;
  if existsb (is_role rid uid) (member_roles d) then
    tx_guard (ValidRole role) ErrConstraint;;
    tx_modify (set_member_roles (update_where (is_role rid uid) (fun r => {| ro_room := ro_room r; ro_uid := ro_uid r; ro_role := role |})))
  else insert_role rid uid role.
Definition with_grant (role st : string) (uid : UID) (r : JoinRequest) : JoinRequest :=
  {| jn_Role := role; jn_ID := jn_ID r; jn_Name := jn_Name r; jn_State := st; jn_Address := jn_Address r; jn_UID := uid; jn_Created := jn_Created r |}.
(** The new state of the request, with its new member when it is approved. *)
Definition decide_action (rid : RoomID) (r : JoinRequest) (action role : string) (now : Z) : StoreTx JoinRequest :=
  if String.eqb action "approve" then
    tx_guard (negb (negb (String.eqb (jn_State r) "pending") || (jn_Created r <? unix now - join_ttl))) (Sentinel ErrAdmission);;
    d ← tx_get;
    let uid := next_uid d rid in
    tx_guard (negb (4294967295 <? uid)) (Sentinel ErrAdmission);;
    tx_onerror (ErrPrefix "member name already in use or storage unavailable: " ErrConstraint) (insert_member rid uid (jn_Name r) now);;
    insert_role rid uid role;;
    mret (with_grant role "approved" uid r)
  else if String.eqb action "deny" then
    tx_guard (String.eqb (jn_State r) "pending") (Sentinel ErrAdmission);;
    mret (with_grant (jn_Role r) "denied" (jn_UID r) r)
  else if String.eqb action "revoke" then
    tx_guard (String.eqb (jn_State r) "approved") (Sentinel ErrAdmission);;
    mret (with_grant (jn_Role r) "revoked" (jn_UID r) r)
  else tx_fail (Sentinel ErrAdmission).
Definition decideJoin_tx (rid : RoomID) (id action role : string) (now : Z) : StoreTx JoinRequest :=
  d ← tx_get;
  match List.find (has_id rid id) (join_requests d) with
  | None => tx_fail (Sentinel ErrAdmission)
  | Some j =>
      r ← decide_action rid (scanJoin d j) action role now;
      tx_modify (set_join_requests (update_where (has_id rid id) (with_state_uid (jn_State r) (jn_UID r))));;
      mret r
  end.
Definition decideJoin (s : Store) (now : Z) (rid : RoomID) (id action role : string) : Store * result error JoinRequest :=
  transact s (decideJoin_tx rid id action role now).
Definition DecideJoin (s : Store) (now : Z) (rid : RoomID) (id action : string) : Store * result error JoinRequest :=
  decideJoin s now rid id action "roommate".
(** The role of an approved member, the host apart. *)
Definition changeRole_tx (rid : RoomID) (id role : string) : StoreTx JoinRequest :=
  d ← tx_get;
  match List.find (fun j => has_id rid id j && String.eqb (j_state j) "approved") (join_requests d) with
  | None => tx_fail (Sentinel ErrAdmission)
  | Some j =>
      match find_room d rid with
      | None => tx_fail (Sentinel ErrNoRows)
      | Some room =>
          tx_guard (negb (r_owner room =? j_uid j)) (ErrText "cannot change host role");;
          upsert_role rid (j_uid j) role;;
          mret (with_grant role (j_state j) (j_uid j) (scanJoin d j))
      end
  end.
Definition DecideJoinRole (s : Store) (now : Z) (rid : RoomID) (id action role : string) : Store * result error JoinRequest :=
  if String.eqb role "" then DecideJoin s now rid id action
  else if negb (ValidRole role) || negb (String.eqb action "approve" || String.eqb action "role") then (s, Err (Sentinel ErrAdmission))
  else if String.eqb action "approve" then decideJoin s now rid id action role
  else transact s (changeRole_tx rid id role).

(** ** Queries *)

Definition join_le (a b : JoinRow) : Prop :=
  j_created a < j_created b \/ (j_created a = j_created b /\ str_ltb (j_id b) (j_id a) = false).
#[export] Instance join_le_dec : RelDecision join_le.
Proof. intros a b. unfold join_le. apply _. Defined.
(** [ORDER BY created, id]; a pending request shows as expired when it is. *)
Definition ListJoins (s : Store) (now : Z) (rid : RoomID) : list JoinRequest :=
  (fun j => let r := scanJoin (db s) j in
     if String.eqb (jn_State r) "pending" && (jn_Created r <? unix now - join_ttl) then with_grant (jn_Role r) "expired" (jn_UID r) r else r)
  <$> merge_sort join_le (List.filter (in_room j_room rid) (join_requests (db s))).
Definition MemberRole (s : Store) (rid : RoomID) (uid : UID) : result error string :=
  match find_member (db s) rid uid with
  | Some _ => Ok (role_of (db s) rid uid)
  | None => Err (Sentinel ErrNoRows)
  end.
(** [ORDER BY uid] *)
Definition ListMembers (s : Store) (rid : RoomID) : list Member :=
  (fun m => {| mb_UID := m_uid m; mb_Name := m_username m |}) <$> order_by m_uid (List.filter (in_room m_room rid) (members (db s))).
Definition in_work (m : MessageRow) : bool := bool_decide (msg_state m = RequestDispatching) || bool_decide (msg_state m = RequestRunning).
Definition HasActiveWork (s : Store) (rid : RoomID) : bool :=
  existsb (fun m => in_room msg_room rid m && in_work m) (messages (db s)).
Definition ProjectRoot (s : Store) (rid : RoomID) : result error string :=
  match find_room (db s) rid with Some r => Ok (r_project_path r) | None => Err (Sentinel ErrNoRows) end.
Definition CheckPersonalSender (s : Store) (rid : RoomID) (uid : UID) (id : ClientMessageID) : result error unit :=
  let allowed := match MemberRole s rid uid with Ok role => String.eqb role "roommate" | Err _ => false end in
  let? _ := check allowed (ErrText "发送者已失去协作权限") in
  check (Nat.eqb (count_where (fun m => is_client rid id m && (msg_actor m =? uid) && contains prompt_kinds (msg_kind m) && in_work m)
                              (messages (db s))) 1)
        (ErrText "原发送者的工作轮次已结束，创建凭证无效").
(** The host, or a member whose request is approved now. *)
Definition BotMember (s : Store) (rid : RoomID) (uid : UID) (work : bool) : result error Member :=
  let active := count_where (fun r => in_room r_id rid r
                  && ((r_owner r =? uid)
                      || existsb (fun j => in_room j_room (r_id r) j && (j_uid j =? uid) && String.eqb (j_state j) "approved")
                                 (join_requests (db s)))) (rooms (db s)) in
  let? _ := check (Nat.eqb active 1) (ErrText "bot sender is not an active member") in
  let allowed := match MemberRole s rid uid with Ok role => negb work || String.eqb role "roommate" | Err _ => false end in
  let? _ := check allowed (ErrText "bot sender cannot arrange work") in
  FindMember s rid uid.
