(* ===== verification/StoreInvariant.v ===== *)
(** * Store invariant

    What every sequence of store operations maintains: the event log of a room
    is gapless, every command has a binding in the same state, message states
    move along a fixed graph, and nothing accepted is ever lost. *)
From S2P Require Import Prelude GoStrings Json RoomTypes StoreSchema StoreBase StoreTasks StoreRepository StoreRecovery.

Create HintDb store discriminated.

(** ** Life cycle of a message *)

(** Commands that are bound to a turn. *)
Definition has_binding (k : MessageKind) : bool := negb (contains [KNote; KRecover] k).

Definition legal (k : MessageKind) (s s' : RequestState) : bool :=
  match k with
  | KPrompt | KRecoveryPrompt =>
      match s, s' with
      | RequestQueued, RequestDispatching => true
      | RequestDispatching, (RequestRunning | RequestFailed | RequestInterrupted | RequestNeedsReview) => true
      | RequestRunning, (RequestCompleted | RequestFailed | RequestInterrupted | RequestNeedsReview) => true
      | RequestNeedsReview, (RequestCompleted | RequestFailed | RequestInterrupted | RequestQueued) => true
      | _, _ => false
      end
  | KSteer | KCancel =>
      match s, s' with
      | RequestDispatching, (RequestCompleted | RequestFailed | RequestNeedsReview) => true
      | RequestNeedsReview, (RequestFailed | RequestDispatching) => true
      | _, _ => false
      end
  | KNote | KRecover => false
  end.
Definition legal_step (k : MessageKind) (s s' : RequestState) : Prop := legal k s s' = true.
Definition terminal (s : RequestState) : bool :=
  match s with RequestCompleted | RequestFailed | RequestInterrupted => true | _ => false end.

(** The states a message of a kind may be in. *)
Definition kind_state_ok (k : MessageKind) (s : RequestState) : bool :=
  match k with
  | KPrompt | KRecoveryPrompt => match s with RequestOther _ => false | _ => true end
  | KSteer | KCancel =>
      match s with RequestDispatching | RequestCompleted | RequestFailed | RequestNeedsReview => true | _ => false end
  | KNote | KRecover => bool_decide (s = RequestCompleted)
  end.

(** The same message later: only its state moved, along the graph. *)
Record msg_evolves (m m' : MessageRow) : Prop :=
  { me_same : set_msg_state (msg_state m') m = m';
    me_state : rtc (legal_step (msg_kind m)) (msg_state m) (msg_state m') }.

(** The same database later. *)
Record evolve (d d' : DB) : Prop :=
  { ev_log : room_events d `prefix_of` room_events d';
    ev_msgs : exists ms new, messages d' = ms ++ new /\ Forall2 msg_evolves (messages d) ms;
    ev_members : members d `prefix_of` members d';
    ev_rooms : (r_id <$> rooms d) `prefix_of` (r_id <$> rooms d');
    ev_autoinc : messages_autoinc d <= messages_autoinc d';
    ev_links : exists new, recovery_result_events d' = recovery_result_events d ++ new /\
                 Forall (fun l => messages_autoinc d < re_message l) new }.

(** ** Well-formed databases

    [pend]: a sequence number allocated in the running transaction whose event
    is not inserted yet; [unbound]: a message whose binding is not inserted yet.
    Between transactions both are [None]. *)

Definition log_seqs (d : DB) (rid : RoomID) : list Z := event_seq <$> List.filter (in_room e_room rid) (room_events d).
Definition pending (pend : option (RoomID * Seq)) (rid : RoomID) : list Z :=
  match pend with Some (rid', seq) => if String.eqb rid' rid then [seq] else [] | None => [] end.

Definition known_message (d : DB) (m : MessageRow) : Prop :=
  (exists r, r ∈ rooms d /\ r_id r = msg_room m /\ 1 <= msg_seq m < r_next_seq r) /\
  (exists u, u ∈ members d /\ m_room u = msg_room m /\ m_uid u = msg_actor m) /\
  kind_state_ok (msg_kind m) (msg_state m) = true.

Record wf (pend : option (RoomID * Seq)) (unbound : option Z) (d : DB) : Prop := mk_wf
  { wf_room_ids : NoDup (r_id <$> rooms d);
    wf_next : forall r, r ∈ rooms d -> 1 <= r_next_seq r;
    wf_log : forall r, r ∈ rooms d -> log_seqs d (r_id r) ++ pending pend (r_id r) = seqZ 1 (r_next_seq r - 1);
    wf_event_rooms : forall e, e ∈ room_events d -> e_room e ∈ (r_id <$> rooms d);
    wf_ids : StronglySorted (key_lt msg_id) (messages d);
    wf_autoinc : forall m, m ∈ messages d -> msg_id m <= messages_autoinc d;
    wf_seqs : forall rid, StronglySorted (key_lt msg_seq) (List.filter (in_room msg_room rid) (messages d));
    wf_clients : NoDup ((fun m => (msg_room m, msg_client m)) <$> messages d);
    wf_known : forall m, m ∈ messages d -> known_message d m;
    wf_links : forall l, l ∈ recovery_result_events d -> re_message l <= messages_autoinc d;
    wf_members : NoDup ((fun u => (m_room u, m_uid u)) <$> members d);
    wf_bd_unique : NoDup (bd_message <$> turn_bindings d);
    wf_bd_msg : forall b, b ∈ turn_bindings d ->
                  exists m, m ∈ messages d /\ msg_id m = bd_message b /\ msg_room m = bd_room b /\
                            has_binding (msg_kind m) = true /\ msg_state m = bd_state b;
    wf_msg_bd : forall m, m ∈ messages d -> has_binding (msg_kind m) = true -> Some (msg_id m) <> unbound ->
                  exists b, b ∈ turn_bindings d /\ bd_message b = msg_id m }.

(** What a transaction body keeps: well-formedness and history. *)
Definition inv (pend : option (RoomID * Seq)) (unbound : option Z) (d0 d : DB) : Prop :=
  wf pend unbound d /\ evolve d0 d.

(** The tables the invariant speaks about. *)
Definition core (d : DB) :=
  (rooms d, members d, messages d, turn_bindings d, room_events d, messages_autoinc d, recovery_result_events d).

(** ** The life-cycle graph *)

Lemma legal_kind_state k s s' : legal k s s' = true -> kind_state_ok k s' = true.
Proof. by destruct k, s, s'. Qed.

Lemma terminal_final k s s' : terminal s = true -> rtc (legal_step k) s s' -> s' = s.
Proof.
  intros Ht H. destruct H as [s|s y s' Hl _]; [done|]. unfold legal_step in Hl. by destruct k, s.
Qed.

Lemma msg_evolves_refl m : msg_evolves m m.
Proof. split; [by destruct m|done]. Qed.

Lemma msg_evolves_fields m m' : msg_evolves m m' ->
  msg_id m' = msg_id m /\ msg_room m' = msg_room m /\ msg_client m' = msg_client m /\ msg_actor m' = msg_actor m /\
  msg_kind m' = msg_kind m /\ msg_body m' = msg_body m /\ msg_hash m' = msg_hash m /\ msg_seq m' = msg_seq m.
Proof. intros [<- _]. done. Qed.

Lemma msg_evolves_trans m1 m2 m3 : msg_evolves m1 m2 -> msg_evolves m2 m3 -> msg_evolves m1 m3.
Proof.
  intros H1 H2. pose proof (msg_evolves_fields _ _ H1) as (_ & _ & _ & _ & Hk & _).
  destruct H1 as [E1 S1], H2 as [E2 S2]. split.
  - rewrite <- E2, <- E1. done.
  - rewrite Hk in S2. by etrans.
Qed.

Lemma msgs_evolve_refl l : Forall2 msg_evolves l l.
Proof. induction l; constructor; auto using msg_evolves_refl. Qed.

Lemma ev_same_msgs l : exists ms new, l = ms ++ new /\ Forall2 msg_evolves l ms.
Proof. exists l, []. split; [by rewrite app_nil_r|apply msgs_evolve_refl]. Qed.
Lemma ev_same_links n (l : list RecoveryEventRow) : exists new, l = l ++ new /\ Forall (fun l => n < re_message l) new.
Proof. exists []. split; [by rewrite app_nil_r|constructor]. Qed.
#[export] Hint Resolve ev_same_msgs ev_same_links : store.

(** [evolve d d'] when only some tables differ: the others by [done] or [store]. *)
Ltac evolve_tac := split; simpl; try done; try solve [auto with store].

Lemma evolve_refl d : evolve d d.
Proof. evolve_tac. Qed.

Lemma evolve_trans d1 d2 d3 : evolve d1 d2 -> evolve d2 d3 -> evolve d1 d3.
Proof.
  intros [L1 (ms1 & n1 & E1 & F1) M1 R1 A1 (k1 & K1 & G1)] [L2 (ms2 & n2 & E2 & F2) M2 R2 A2 (k2 & K2 & G2)].
  split; try (by etrans); cycle 1.
  { exists (k1 ++ k2). split; [by rewrite K2, K1, <- app_assoc|]. apply Forall_app. split; [done|].
    eapply Forall_impl; [exact G2|]. simpl. lia. }
  rewrite E1 in F2. apply Forall2_app_inv_l in F2 as (a & b & Fa & Fb & ->).
  exists a, (b ++ n2). split; [by rewrite E2, <- app_assoc|].
  clear -F1 Fa. revert a Fa. induction F1 as [|x y l l' H F IH]; intros a Fa.
  - by inversion Fa.
  - inversion Fa as [|? z ? a' Hz Fa']; subst. constructor; [by eapply msg_evolves_trans|auto].
Qed.

#[export] Instance evolve_preorder : PreOrder evolve.
Proof. split; [intros d; apply evolve_refl|intros ???; apply evolve_trans]. Qed.

(** ** The primitives keep the invariant *)

Lemma inv_refl p u d : wf p u d -> inv p u d d.
Proof. intros H. split; [done|reflexivity]. Qed.

Lemma inv_core p u d0 d d' : core d' = core d -> inv p u d0 d -> inv p u d0 d'.
Proof.
  unfold core. intros [= Er Em Emsg Eb Ee Ea El] [W V]. split.
  - destruct W. split; try (by rewrite ?Er, ?Em, ?Emsg, ?Eb, ?Ee, ?Ea, ?El).
    + rewrite Er. intros r Hr. unfold log_seqs. rewrite Ee. by apply wf_log0.
    + rewrite Emsg. intros m Hm. unfold known_message. rewrite Er, Em. by apply wf_known0.
  - etrans; [done|]. split; rewrite ?Er, ?Em, ?Ee, ?El, ?Emsg, ?Ea; auto with store; done.
Qed.

(** A body that only touches other tables. *)
Definition frame {A} (m : StoreTx A) : Prop := forall d, wp m (fun _ d' => core d' = core d) d.

Lemma frame_inv {A} (m : StoreTx A) p u d0 d :
  frame m -> inv p u d0 d -> wp m (fun _ d' => inv p u d0 d') d.
Proof. intros F H. eapply wp_mono; [apply F|]. simpl. intros a d' E. by apply (inv_core _ _ _ d). Qed.

Lemma frame_bind {A B} (m : StoreTx A) (k : A -> StoreTx B) :
  frame m -> (forall a, frame (k a)) -> frame (m ≫= k).
Proof.
  intros Hm Hk d. apply wp_bind. eapply wp_mono; [apply Hm|]. intros a d1 E1.
  eapply wp_mono; [apply Hk|]. intros b d2 E2. congruence.
Qed.
Lemma frame_ret {A} (a : A) : frame (mret a). Proof. by intros d. Qed.
Lemma frame_fail {A} e : frame (A:=A) (tx_fail e). Proof. by intros d. Qed.
Lemma frame_get : frame tx_get. Proof. by intros d. Qed.
Lemma frame_guard b e : frame (tx_guard b e). Proof. by destruct b; intros d. Qed.
Lemma frame_modify f : (forall d, core (f d) = core d) -> frame (tx_modify f).
Proof. intros H d. apply H. Qed.

(** Prove a [frame] goal by walking down the body. *)
Ltac frame_tac :=
  repeat first
    [ apply frame_bind; [|intros ?]
    | apply frame_ret | apply frame_fail | apply frame_get | apply frame_guard
    | apply frame_modify; reflexivity
    | match goal with |- frame (match ?x with _ => _ end) => destruct x end ].

Lemma frame_requireRoom rid : frame (requireRoom rid).
Proof. unfold requireRoom. frame_tac. Qed.
Lemma frame_requireActor rid a : frame (requireActor rid a).
Proof. unfold requireActor, requireRoom. frame_tac. Qed.
Lemma frame_requireMemberUID rid uid : frame (requireMemberUID rid uid).
Proof. unfold requireMemberUID, requireRoom. frame_tac. Qed.
Lemma frame_attachTaskMessage rid a task mid now : frame (attachTaskMessage rid a task mid now).
Proof.
  unfold attachTaskMessage, requireTaskWriter, insert_task_message, update_task, insert_task_change.
  apply frame_bind; [apply frame_bind; [apply frame_requireActor|intros _]; frame_tac|intros _].
  frame_tac.
Qed.

(** ** Membership of unique rows *)

Lemma find_room_elem d rid r : find_room d rid = Some r -> r ∈ rooms d /\ r_id r = rid.
Proof.
  intros [H1 H2]%find_some_elem. unfold in_room in H2. by apply String.eqb_eq in H2.
Qed.

Lemma wf_room_unique p u d r r' : wf p u d -> r ∈ rooms d -> r' ∈ rooms d -> r_id r = r_id r' -> r = r'.
Proof. intros W. apply NoDup_fmap_inj. by apply wf_room_ids in W. Qed.

Lemma wf_message_unique p u d m m' : wf p u d -> m ∈ messages d -> m' ∈ messages d -> msg_id m = msg_id m' -> m = m'.
Proof. intros W. apply StronglySorted_lt_inj. by apply wf_ids in W. Qed.

Lemma in_roomP {A} (f : A -> RoomID) rid x : in_room f rid x = true <-> f x = rid.
Proof. unfold in_room. apply String.eqb_eq. Qed.

(** ** Paired update of a message and its binding *)

Definition paired_update (rid : RoomID) (mid : Z) (old new : RequestState) (f : BindingRow -> BindingRow) (e : error)
    : StoreTx unit :=
  n ← update_message_state rid mid old new;
  tx_guard (Nat.eqb n 1) e;;
  n ← update_binding rid mid old f;
  tx_guard (Nat.eqb n 1) e.

Definition paired_db (rid : RoomID) (mid : Z) (old new : RequestState) (f : BindingRow -> BindingRow) (d : DB) : DB :=
  set_turn_bindings (update_where (is_binding_in rid mid old) f)
    (set_messages (update_where (is_message_in rid mid old) (set_msg_state new)) d).

Lemma paired_update_post rid mid old new f e d :
  wp (paired_update rid mid old new f e)
     (fun _ d' => d' = paired_db rid mid old new f d /\ count_where (is_message_in rid mid old) (messages d) = 1%nat) d.
Proof.
  unfold paired_update, update_message_state, update_binding. wp_steps.
  split; [done|]. by apply Nat.eqb_eq.
Qed.

(** The functions of the source that update both tables. *)
Lemma updateMessageAndBinding_paired rid mid old new c ec ed v :
  updateMessageAndBinding rid mid old new c ec ed v
  = paired_update rid mid old new (binding_set new c ec ed v) (Sentinel ErrInvalidState).
Proof. done. Qed.
Lemma resetReviewedPrompt_paired rid mid :
  resetReviewedPrompt rid mid = paired_update rid mid RequestNeedsReview RequestQueued
    (clear_binding RequestQueued None None None None) (Sentinel ErrStaleRecovery).
Proof. done. Qed.
Lemma resetReviewedControl_paired rid mid :
  resetReviewedControl rid mid = paired_update rid mid RequestNeedsReview RequestDispatching
    (fun b => clear_binding RequestDispatching (bd_turn b) (bd_started b) None None b) (Sentinel ErrStaleRecovery).
Proof. done. Qed.
Lemma terminalizeReviewed_paired rid mid c t :
  terminalizeReviewed rid mid c t = paired_update rid mid RequestNeedsReview RequestFailed
    (fun b => clear_binding RequestFailed (bd_turn b) (bd_started b) (Some t) (Some c) b) (Sentinel ErrStaleRecovery).
Proof. done. Qed.

(** A binding update that keeps the key and sets the state. *)
Definition rebinds (new : RequestState) (f : BindingRow -> BindingRow) : Prop :=
  forall b, bd_room (f b) = bd_room b /\ bd_message (f b) = bd_message b /\ bd_state (f b) = new.

Lemma is_message_inP rid mid old m :
  is_message_in rid mid old m = true <-> msg_room m = rid /\ msg_id m = mid /\ msg_state m = old.
Proof.
  unfold is_message_in. rewrite !andb_true_iff, in_roomP, Z.eqb_eq, bool_decide_eq_true. tauto.
Qed.
Lemma is_binding_inP rid mid old b :
  is_binding_in rid mid old b = true <-> bd_room b = rid /\ bd_message b = mid /\ bd_state b = old.
Proof.
  unfold is_binding_in, is_binding. rewrite !andb_true_iff, in_roomP, Z.eqb_eq, bool_decide_eq_true. tauto.
Qed.

(** The message a paired update moves. *)
Definition moves (d : DB) (rid : RoomID) (mid : Z) (old new : RequestState) : Prop :=
  exists m, m ∈ messages d /\ msg_room m = rid /\ msg_id m = mid /\ msg_state m = old /\ legal (msg_kind m) old new = true.

Lemma moves_row p u d rid mid old new x :
  wf p u d -> moves d rid mid old new -> x ∈ messages d -> is_message_in rid mid old x = true ->
  legal (msg_kind x) old new = true.
Proof.
  intros W (m & Hm & Hr & Hi & Hs & Hl) Hx (_ & Hxi & _)%is_message_inP.
  assert (x = m) as -> by (eapply wf_message_unique; eauto; congruence). done.
Qed.

Lemma paired_db_evolve p u d rid mid old new f :
  wf p u d -> moves d rid mid old new -> evolve d (paired_db rid mid old new f d).
Proof.
  intros W M. evolve_tac. eexists _, []. split; [by rewrite app_nil_r|].
  apply update_where_Forall2. intros x Hx.
  destruct (is_message_in rid mid old x) eqn:E; [|apply msg_evolves_refl].
  pose proof (moves_row _ _ _ _ _ _ _ _ W M Hx E) as Hl.
  apply is_message_inP in E as (_ & _ & Es). split; [done|].
  rewrite Es. apply rtc_once. exact Hl.
Qed.

(** The row a message row becomes. *)
Lemma paired_db_bindings p u d rid mid old new f b :
  wf p u d -> moves d rid mid old new -> rebinds new f -> b ∈ turn_bindings (paired_db rid mid old new f d) ->
  exists m, m ∈ messages (paired_db rid mid old new f d) /\ msg_id m = bd_message b /\ msg_room m = bd_room b /\
            has_binding (msg_kind m) = true /\ msg_state m = bd_state b.
Proof.
  intros W (m0 & Hm0 & Hr0 & Hi0 & Hs0 & Hl0) F (x & Hx & ->)%elem_of_update_where.
  destruct (wf_bd_msg _ _ _ W x Hx) as (m & Hm & Hi & Hr & Hk & Hs).
  exists (if is_message_in rid mid old m then set_msg_state new m else m).
  split; [apply elem_of_update_where; eauto|].
  destruct (F x) as (F1 & F2 & F3).
  assert (E : is_message_in rid mid old m = is_binding_in rid mid old x).
  { apply eq_true_iff_eq. rewrite is_message_inP, is_binding_inP, Hi, Hr, Hs. done. }
  rewrite E. destruct (is_binding_in rid mid old x); simpl; rewrite ?F1, ?F2, ?F3; done.
Qed.

Lemma paired_db_wf p u d rid mid old new f :
  wf p u d -> moves d rid mid old new -> rebinds new f -> wf p u (paired_db rid mid old new f d).
Proof.
  intros W M F. pose proof W as W0. destruct W.
  split; try done; simpl.
  - apply update_where_sorted; [done|done].
  - intros m (x & Hx & ->)%elem_of_update_where. case_match; simpl; by apply wf_autoinc0.
  - intros r. rewrite update_where_filter by done. by apply update_where_sorted.
  - rewrite update_where_fmap by done. done.
  - intros m (x & Hx & ->)%elem_of_update_where.
    destruct (wf_known0 x Hx) as (H1 & H2 & H3).
    destruct (is_message_in rid mid old x) eqn:E; [|done].
    split_and!; [done|done|]. simpl. eapply legal_kind_state, moves_row; eauto.
  - rewrite update_where_fmap; [done|]. intros b. apply F.
  - intros b Hb. eapply paired_db_bindings; eauto.
  - intros m (x & Hx & ->)%elem_of_update_where Hk Hu.
    destruct (wf_msg_bd0 x Hx) as (b & Hb & E).
    { by destruct (is_message_in rid mid old x). }
    { by destruct (is_message_in rid mid old x). }
    exists (if is_binding_in rid mid old b then f b else b).
    split; [apply elem_of_update_where; eauto|].
    destruct (F b) as (_ & F2 & _). repeat case_match; simpl; congruence.
Qed.

Lemma paired_update_inv p u d0 d rid mid old new f e :
  inv p u d0 d -> moves d rid mid old new -> rebinds new f ->
  wp (paired_update rid mid old new f e) (fun _ d' => inv p u d0 d') d.
Proof.
  intros [W V] M F. eapply wp_mono; [apply paired_update_post|].
  intros _ d' [-> _]. split; [by apply paired_db_wf|].
  etrans; [done|]. by eapply paired_db_evolve.
Qed.

Lemma binding_set_rebinds new c ec ed v : rebinds new (binding_set new c ec ed v).
Proof. by intros b. Qed.
Lemma clear_binding_rebinds new tn st cm cd :
  rebinds new (fun b => clear_binding new (tn b) (st b) (cm b) (cd b) b).
Proof. by intros b. Qed.
#[export] Hint Resolve binding_set_rebinds clear_binding_rebinds : store.

(** ** Sequence allocation and events *)

(** The room row an update leaves. *)
Lemma update_rooms_inv p u d0 d q f :
  (forall r, r_id (f r) = r_id r) -> (forall r, r_next_seq (f r) = r_next_seq r) ->
  inv p u d0 d -> wp (update_rooms q f) (fun _ d' => inv p u d0 d') d.
Proof.
  intros Hi Hn [W V]. unfold update_rooms. wp_steps.
  assert (Ei : r_id <$> update_where q f (rooms d) = r_id <$> rooms d) by (by apply update_where_fmap).
  assert (En : forall r, r ∈ update_where q f (rooms d) ->
                 exists x, x ∈ rooms d /\ r_id r = r_id x /\ r_next_seq r = r_next_seq x).
  { intros r (x & Hx & ->)%elem_of_update_where. exists x. by destruct (q x); rewrite ?Hi, ?Hn. }
  split.
  - destruct W. split; simpl; rewrite ?Ei; try done.
    + intros r (x & Hx & _ & ->)%En. auto.
    + intros r (x & Hx & -> & ->)%En. by apply wf_log0.
    + intros m Hm. destruct (wf_known0 m Hm) as ((r & Hr & E1 & E2) & H2). split; [|done].
      exists (if q r then f r else r). split; [apply elem_of_update_where; eauto|].
      by destruct (q r); rewrite ?Hi, ?Hn.
  - etrans; [done|]. split; simpl; rewrite ?Ei; auto with store; done.
Qed.

(** A sequence number is taken from the room's counter, above every message. *)
Record allocated (rid : RoomID) (seq : Seq) (d : DB) : Prop :=
  { al_room : exists r, r ∈ rooms d /\ r_id r = rid /\ r_next_seq r = seq + 1;
    al_pos : 1 <= seq;
    al_fresh : forall m, m ∈ messages d -> msg_room m = rid -> msg_seq m < seq }.

Definition bump (rid : RoomID) (n : Z) (d : DB) : DB :=
  set_rooms (update_where (in_room r_id rid) (set_next_seq (n + 1))) d.

Lemma bump_room rid n d r : r ∈ rooms (bump rid n d) <->
  exists x, x ∈ rooms d /\ r = if in_room r_id rid x then set_next_seq (n + 1) x else x.
Proof. apply elem_of_update_where. Qed.

Lemma bump_log u d r0 :
  wf None u d -> r0 ∈ rooms d -> forall r, r ∈ rooms (bump (r_id r0) (r_next_seq r0) d) ->
  log_seqs d (r_id r) ++ pending (Some (r_id r0, r_next_seq r0)) (r_id r) = seqZ 1 (r_next_seq r - 1).
Proof.
  intros W H0 r (x & Hx & ->)%bump_room. pose proof (wf_log _ _ _ W x Hx) as L. simpl in L.
  rewrite app_nil_r in L. destruct (in_room r_id (r_id r0) x) eqn:E.
  - apply in_roomP in E. assert (x = r0) as -> by (by eapply wf_room_unique).
    simpl. rewrite String.eqb_refl, L. pose proof (wf_next _ _ _ W _ H0).
    replace (r_next_seq r0 + 1 - 1) with (r_next_seq r0 - 1 + 1) by lia.
    rewrite seqZ_app by lia. f_equal.
    replace (1 + (r_next_seq r0 - 1)) with (r_next_seq r0) by lia.
    by rewrite seqZ_cons by lia.
  - unfold in_room in E. simpl. rewrite String.eqb_sym, E, app_nil_r. done.
Qed.

Lemma bump_inv u d0 d r0 :
  inv None u d0 d -> r0 ∈ rooms d ->
  inv (Some (r_id r0, r_next_seq r0)) u d0 (bump (r_id r0) (r_next_seq r0) d).
Proof.
  intros [W V] H0. pose proof (bump_log u d r0 W H0) as L. pose proof (wf_next _ _ _ W _ H0) as N0.
  assert (Ei : r_id <$> rooms (bump (r_id r0) (r_next_seq r0) d) = r_id <$> rooms d)
    by (by apply update_where_fmap).
  split.
  - pose proof (fun x => wf_room_unique _ _ _ x r0 W) as U. destruct W. split; try done.
    + by rewrite Ei.
    + intros r (x & Hx & ->)%bump_room. destruct (in_room _ _ x); simpl; [lia|auto].
    + intros e He. rewrite Ei. auto.
    + intros m Hm. destruct (wf_known0 m Hm) as ((r & Hr & E1 & E2 & E3) & H2). split; [|done].
      eexists. split; [apply bump_room; exists r; eauto|].
      destruct (in_room r_id (r_id r0) r) eqn:E; [|done]. apply in_roomP in E.
      assert (r = r0) as -> by auto. split_and!; [done|done|]. cbn. lia.
  - etrans; [done|]. split; rewrite ?Ei; auto with store; done.
Qed.

Lemma allocateSeq_inv u d0 d rid :
  inv None u d0 d ->
  wp (allocateSeq rid) (fun seq d' => inv (Some (rid, seq)) u d0 d' /\ allocated rid seq d') d.
Proof.
  intros H. unfold allocateSeq, update_rooms. wp_steps. apply find_room_elem in Heqo as [H0 <-].
  assert (E : set_rooms (update_where (in_room r_id (r_id r)) (fun r0 => set_next_seq (r_next_seq r0 + 1) r0)) d
              = bump (r_id r) (r_next_seq r) d).
  { unfold bump, set_rooms. f_equal. apply map_ext_in. intros x Hx%list_elem_of_In.
    destruct (in_room r_id (r_id r) x) eqn:Ex; [|done]. apply in_roomP in Ex.
    assert (x = r) as -> by (eapply wf_room_unique; [apply H|..]; done). done. }
  rewrite E. split; [by apply bump_inv|]. destruct H as [W V].
  pose proof (wf_next _ _ _ W _ H0). split.
  - eexists. split; [apply bump_room; eauto|]. unfold in_room. by rewrite String.eqb_refl.
  - done.
  - intros m Hm Hr. destruct (wf_known _ _ _ W m Hm) as ((x & Hx & E1 & E2) & _).
    assert (x = r) as -> by (eapply wf_room_unique; eauto; congruence). lia.
Qed.

Lemma insertEventAt_inv u d0 d rid seq actor kind payload now :
  inv (Some (rid, seq)) u d0 d ->
  wp (insertEventAt rid seq actor kind payload now) (fun _ d' => inv None u d0 d') d.
Proof.
  intros [W V]. unfold insertEventAt, insert_event. wp_steps. bool_props. split.
  - destruct W. split; try done; simpl.
    + intros r Hr. rewrite <- (wf_log0 r Hr). unfold log_seqs. simpl.
      rewrite app_nil_r, List.filter_app, fmap_app. f_equal. cbn.
      unfold in_room. simpl. by destruct (String.eqb rid (r_id r)).
    + intros e [He|He]%elem_of_app; [auto|]. apply list_elem_of_singleton in He as ->. simpl.
      apply existsb_elem in H0 as (r & Hr & E%in_roomP). rewrite <- E. by apply list_elem_of_fmap_2.
  - etrans; [done|]. evolve_tac. by apply prefix_app_r.
Qed.

Lemma appendEvent_inv u d0 d rid actor kind payload now :
  inv None u d0 d -> wp (appendEvent rid actor kind payload now) (fun _ d' => inv None u d0 d') d.
Proof.
  intros H. unfold appendEvent. wp_step. eapply wp_mono; [by apply allocateSeq_inv|].
  intros seq d' [Hi _]. by apply insertEventAt_inv.
Qed.

(** ** New messages and bindings *)

Definition the_message (d : DB) (rid : RoomID) (mid : Z) (kind : MessageKind) (st : RequestState) : Prop :=
  exists m, m ∈ messages d /\ msg_id m = mid /\ msg_room m = rid /\ msg_kind m = kind /\ msg_state m = st.

Lemma snoc_elem {A} (l : list A) x y : y ∈ l ++ [x] <-> y ∈ l \/ y = x.
Proof. by rewrite elem_of_app, list_elem_of_singleton. Qed.

(** The database with one message more. *)
Definition add_message (m : MessageRow) (d : DB) : DB :=
  set_messages (fun l => l ++ [m]) (set_messages_autoinc (fun _ => msg_id m) d).

Record new_message (d : DB) (m : MessageRow) : Prop :=
  { nm_id : msg_id m = messages_autoinc d + 1;
    nm_seq : forall x, x ∈ messages d -> msg_room x = msg_room m -> msg_seq x < msg_seq m;
    nm_client : forall x, x ∈ messages d -> is_client (msg_room m) (msg_client m) x = false;
    nm_known : known_message d m }.

Lemma add_message_wf p d m :
  wf p None d -> new_message d m ->
  wf p (if has_binding (msg_kind m) then Some (msg_id m) else None) (add_message m d).
Proof.
  intros W [Nid Nseq Ncl Nk]. destruct W. split; try done; simpl.
  - apply StronglySorted_snoc; [done|]. intros y Hy. unfold key_lt. specialize (wf_autoinc0 y Hy). lia.
  - intros x [Hx| ->]%snoc_elem; [|lia]. specialize (wf_autoinc0 x Hx). lia.
  - intros rid. rewrite List.filter_app. simpl. destruct (in_room msg_room rid m) eqn:E; [|by rewrite app_nil_r].
    apply StronglySorted_snoc; [done|]. intros y [Hy Ey%in_roomP]%filter_elem_of. apply in_roomP in E.
    apply Nseq; congruence.
  - rewrite fmap_app. apply NoDup_snoc; [done|]. intros (x & E & Hx)%list_elem_of_fmap. injection E as E1 E2.
    specialize (Ncl x Hx). unfold is_client, in_room in Ncl. by rewrite <- E1, <- E2, !String.eqb_refl in Ncl.
  - intros x [Hx| ->]%snoc_elem; [|done]. destruct (wf_known0 x Hx) as (H1 & H2). done.
  - intros l Hl. specialize (wf_links0 l Hl). lia.
  - intros b Hb. destruct (wf_bd_msg0 b Hb) as (x & Hx & ?). exists x. split; [|done]. apply snoc_elem. by left.
  - intros x [Hx| ->]%snoc_elem Hk Hu.
    + apply wf_msg_bd0; done.
    + by rewrite Hk in Hu.
Qed.

Lemma add_message_evolve d m : new_message d m -> evolve d (add_message m d).
Proof.
  intros [Hi _ _ _]. evolve_tac; [|lia]. exists (messages d), [m]. split; [done|apply msgs_evolve_refl].
Qed.

Lemma insert_message_inv p d0 d rid cid actor kind body hash st seq now :
  inv p None d0 d -> allocated rid seq d -> kind_state_ok kind st = true ->
  wp (insert_message rid cid actor kind body hash st seq now)
     (fun mid d' => inv p (if has_binding kind then Some mid else None) d0 d' /\ the_message d' rid mid kind st /\
                    messages_autoinc d < mid) d.
Proof.
  intros [W V] [(r & Hr & Er & En) Hpos Hf] Hk. unfold insert_message. wp_steps. bool_props.
  set (m := {| msg_id := _ |}). change (set_messages _ _) with (add_message m d).
  assert (Nm : new_message d m).
  { split; try done.
    - by apply existsb_false.
    - split_and!; [|..|done].
      + exists r. split_and!; [done|done|done|]. cbn. lia.
      + rename select (existsb (is_member _ _) _ = true) into Hmem.
        apply existsb_elem in Hmem as (u & Hu & E). unfold is_member in E. bool_props.
        exists u. split_and!; [done|by apply in_roomP|done]. }
  split; [split|].
  - by apply (add_message_wf p d m).
  - etrans; [done|]. by apply add_message_evolve.
  - split; [|simpl; lia]. exists m. split_and!; try done. apply snoc_elem. by right.
Qed.

Lemma insert_binding_inv p d0 d rid mid turn kind st :
  inv p (Some mid) d0 d -> the_message d rid mid kind st -> has_binding kind = true ->
  wp (insert_binding rid mid turn st) (fun _ d' => inv p None d0 d') d.
Proof.
  intros [W V] (m & Hm & Ei & Er & Ek & Es) Hk. unfold insert_binding. wp_steps. bool_props.
  split; [|etrans; [done|]; evolve_tac].
  destruct W. split; try done; simpl.
  - rewrite fmap_app. apply NoDup_snoc; [done|]. intros (x & E & Hx)%list_elem_of_fmap. simpl in E.
    rename select (existsb _ (turn_bindings d) = false) into Hfree.
    eapply existsb_false in Hfree; [|done]. simpl in Hfree. lia.
  - intros b [Hb| ->]%snoc_elem; [auto|]. exists m. by rewrite Ek.
  - intros x Hx Hxk _. destruct (decide (msg_id x = mid)) as [E|E].
    + eexists. split; [apply snoc_elem; by right|done].
    + destruct (wf_msg_bd0 x Hx Hxk) as (b & Hb & ?); [congruence|]. exists b. split; [|done].
      apply snoc_elem. by left.
Qed.

Lemma link_events_inv p u d0 d mid rid i l :
  inv p u d0 d -> messages_autoinc d0 < mid <= messages_autoinc d ->
  wp (link_events mid rid i l) (fun _ d' => inv p u d0 d') d.
Proof.
  revert i d. induction l as [|e l IH]; intros i d H Hm; [done|]. cbn [link_events]. wp_steps. apply IH; [|done].
  destruct H as [W V]. split.
  - destruct W. split; try done. simpl. intros x [Hx| ->]%snoc_elem; [auto|]. simpl. lia.
  - destruct V as [? ? ? ? ? (new & E & F)]. split; try done. eexists. split; [simpl; rewrite E; by rewrite <- app_assoc|].
    apply Forall_app. split; [done|]. constructor; [simpl; lia|done].
Qed.
