(* ===== verification/StoreOps.v ===== *)
(** * Store operations keep the invariant

    One lemma per transaction body of the store, the transition system of the
    store's operations, and well-formedness of every reachable database. *)
From S2P Require Import Prelude GoStrings Sha256 Json RoomTypes StoreSchema StoreBase StoreTasks StoreRepository.
From S2P Require Import StoreRecovery StoreAdmission StoreInvariant.

(** ** The operations as a transition system

    One constructor per method of the repository that writes; [now] is the clock
    reading of the call. *)
Inductive store_op :=
| OpInitializeRoom (now : Z) (sd : RoomSeed)
| OpAcceptMessage (now : Z) (rid : RoomID) (actor : Actor) (i : SubmitInput)
| OpAppendNote (now : Z) (rid : RoomID) (actor : Actor) (i : SubmitInput)
| OpAcceptControl (now : Z) (rid : RoomID) (actor : Actor) (i : ControlInput)
| OpBeginDispatch (rid : RoomID) (cid : ClientMessageID)
| OpFinishControl (now : Z) (rid : RoomID) (cid : ClientMessageID) (o : ControlOutcome)
| OpFailDispatch (now : Z) (rid : RoomID) (cid : ClientMessageID) (o : FailureOutcome)
| OpBindRunningTurn (now : Z) (rid : RoomID) (cid : ClientMessageID) (turn : TurnID)
| OpRecordCompletedItem (now : Z) (rid : RoomID) (i : CompletedItem)
| OpFinishTurn (now : Z) (rid : RoomID) (i : FinishTurnInput)
| OpMarkNeedsReview (now : Z) (rid : RoomID) (cid : ClientMessageID) (rs : ReviewReason)
| OpConnected (c : ConnectionRecord)
| OpAck (id : ConnectionID) (seq : Seq)
| OpDisconnected (id : ConnectionID) (at_ : Z)
| OpCloseStale (rid : RoomID) (at_ : Z)
| OpSaveRuntimeCheckpoint (rid : RoomID) (c : RuntimeCheckpoint)
| OpBindThread (now : Z) (rid : RoomID) (t : ThreadSnapshot)
| OpMarkThreadNeedsRepair (now : Z) (rid : RoomID) (rs : RepairReason)
| OpSetRoomStatus (now : Z) (rid : RoomID) (st : RoomStatus)
| OpRepairThread (now : Z) (rid : RoomID) (t : ThreadSnapshot) (rs : RepairReason)
| OpResolveReview (now : Z) (rid : RoomID) (actor : Actor) (i : RecoverInput)
| OpBeginPrivateTurn (rid : RoomID) (th : ThreadID) (baseline : list TurnID)
| OpEndPrivateTurn (rid : RoomID) (th : ThreadID) (turns : list TurnID)
| OpPrivateTurns (rid : RoomID) (th : ThreadID) (turns : list TurnSnapshot)
| OpResetUnusedThread (now : Z) (rid : RoomID) (expected : ThreadID)
| OpChangeTask (now : Z) (rid : RoomID) (actor : Actor) (q : TaskRequest)
| OpRequestJoin (now : Z) (rid : RoomID) (token name address : string) (random : result error string)
| OpDecideJoin (now : Z) (rid : RoomID) (id action role : string).

(** The store after a call; its result is whatever the method returns. *)
Definition exec (s : Store) (op : store_op) : Store :=
  match op with
  | OpInitializeRoom now sd => (InitializeRoom s now sd).1
  | OpAcceptMessage now rid actor i => (AcceptMessage s now rid actor i).1
  | OpAppendNote now rid actor i => (AppendNote s now rid actor i).1
  | OpAcceptControl now rid actor i => (AcceptControl s now rid actor i).1
  | OpBeginDispatch rid cid => (BeginDispatch s rid cid).1
  | OpFinishControl now rid cid o => (FinishControl s now rid cid o).1
  | OpFailDispatch now rid cid o => (FailDispatch s now rid cid o).1
  | OpBindRunningTurn now rid cid turn => (BindRunningTurn s now rid cid turn).1
  | OpRecordCompletedItem now rid i => (RecordCompletedItem s now rid i).1
  | OpFinishTurn now rid i => (FinishTurn s now rid i).1
  | OpMarkNeedsReview now rid cid rs => (MarkNeedsReview s now rid cid rs).1
  | OpConnected c => (Connected s c).1
  | OpAck id seq => (Ack s id seq).1
  | OpDisconnected id at_ => (Disconnected s id at_).1
  | OpCloseStale rid at_ => (CloseStale s rid at_).1
  | OpSaveRuntimeCheckpoint rid c => (SaveRuntimeCheckpoint s rid c).1
  | OpBindThread now rid t => (BindThread s now rid t).1
  | OpMarkThreadNeedsRepair now rid rs => (MarkThreadNeedsRepair s now rid rs).1
  | OpSetRoomStatus now rid st => (SetRoomStatus s now rid st).1
  | OpRepairThread now rid t rs => (RepairThread s now rid t rs).1
  | OpResolveReview now rid actor i => (ResolveReview s now rid actor i).1
  | OpBeginPrivateTurn rid th baseline => (BeginPrivateTurn s rid th baseline).1
  | OpEndPrivateTurn rid th turns => (EndPrivateTurn s rid th turns).1
  | OpPrivateTurns rid th turns => (PrivateTurns s rid th turns).1
  | OpResetUnusedThread now rid expected => (ResetUnusedThread s now rid expected).1
  | OpChangeTask now rid actor q => (ChangeTask s now rid actor q).1
  | OpRequestJoin now rid token name address random => (RequestJoin s now rid token name address random).1
  | OpDecideJoin now rid id action role => (DecideJoinRole s now rid id action role).1
  end.

(** A call under any outcome of the commit hook and of the commit itself, and a
    sequence of calls. *)
Record call := { c_hook : option error; c_fault : option error; c_op : store_op }.
Definition step (d : DB) (c : call) : DB := db (exec (mkStore d (c_hook c) (c_fault c)) (c_op c)).
Definition run (d : DB) (l : list call) : DB := foldl step d l.
Definition ok_call (op : store_op) : call := {| c_hook := None; c_fault := None; c_op := op |}.

(** ** Composing [wp] lemmas about the invariant *)

Abbreviation inv0 := (inv None None).

Lemma inv_trans p u p' u' d0 d d' : inv p u d0 d -> inv p' u' d d' -> inv p' u' d0 d'.
Proof. intros [_ V] [W V']. split; [done|by etrans]. Qed.

(** A body keeps the invariant between transactions. *)
Definition keeps {A} (m : StoreTx A) : Prop := forall d0 d, inv0 d0 d -> wp m (fun _ d' => inv0 d0 d') d.

Lemma keeps_frame {A} (m : StoreTx A) : frame m -> keeps m.
Proof. intros F d0 d. by apply frame_inv. Qed.
Lemma keeps_bind {A B} (m : StoreTx A) (k : A -> StoreTx B) : keeps m -> (forall a, keeps (k a)) -> keeps (m ≫= k).
Proof.
  intros Hm Hk d0 d H. apply wp_bind. eapply wp_mono; [by apply Hm|]. intros a d' H'. by apply Hk.
Qed.
Lemma keeps_apply {A} (m : StoreTx A) d0 d : inv0 d0 d -> keeps m -> wp m (fun _ d' => inv0 d0 d') d.
Proof. intros H K. by apply K. Qed.
Lemma keeps_appendEvent rid actor kind payload now : keeps (appendEvent rid actor kind payload now).
Proof. intros d0 d. apply appendEvent_inv. Qed.
Lemma keeps_thread_status q th st : keeps (update_rooms q (fun x => set_thread_status (th x) (st x) x)).
Proof. intros d0 d. by apply update_rooms_inv. Qed.
Lemma keeps_requireOneRow n : keeps (requireOneRow n).
Proof. apply keeps_frame, frame_guard. Qed.

#[export] Hint Resolve frame_requireRoom frame_requireActor frame_requireMemberUID frame_attachTaskMessage
  frame_ret frame_fail frame_get frame_guard : store.
#[export] Hint Resolve keeps_appendEvent keeps_thread_status keeps_requireOneRow : store.
#[export] Hint Extern 5 (keeps _) => apply keeps_frame : store.

Ltac keeps_tac :=
  repeat lazymatch goal with
    | |- keeps (mbind _ _) => apply keeps_bind; [|intros ?]
    | |- keeps (match ?x with _ => _ end) => destruct x
    | |- keeps _ => solve [eauto with store]
    end.

(** Bodies that never look at the messages. *)
Lemma keeps_BindThread rid t now : keeps (BindThread_tx rid t now).
Proof. unfold BindThread_tx. keeps_tac. Qed.
Lemma keeps_MarkThreadNeedsRepair rid rs now : keeps (MarkThreadNeedsRepair_tx rid rs now).
Proof. unfold MarkThreadNeedsRepair_tx. keeps_tac. Qed.
Lemma keeps_SetRoomStatus rid st now : keeps (SetRoomStatus_tx rid st now).
Proof. unfold SetRoomStatus_tx. keeps_tac. Qed.
Lemma keeps_RepairThread rid t rs now : keeps (RepairThread_tx rid t rs now).
Proof. unfold RepairThread_tx. keeps_tac. Qed.
Lemma keeps_ResetUnusedThread rid th now : keeps (ResetUnusedThread_tx rid th now).
Proof. unfold ResetUnusedThread_tx. keeps_tac. Qed.
Lemma keeps_RecordCompletedItem rid i p now : keeps (RecordCompletedItem_tx rid i p now).
Proof. unfold RecordCompletedItem_tx. keeps_tac. Qed.

(** ** Bodies on the other tables *)

Ltac frame_body := repeat lazymatch goal with
  | |- frame (mbind _ _) => apply frame_bind; [|intros ?]
  | |- frame (match ?x with _ => _ end) => destruct x
  | |- frame (tx_modify _) => apply frame_modify; reflexivity
  | |- frame _ => solve [eauto with store]
  end.

Lemma frame_requireOneRow n : frame (requireOneRow n).
Proof. apply frame_guard. Qed.
Lemma frame_update_connections p f : frame (update_connections p f).
Proof. unfold update_connections. frame_body. Qed.
Lemma frame_insert_task_message rid task mid : frame (insert_task_message rid task mid).
Proof. unfold insert_task_message. frame_body. Qed.
Lemma frame_insert_task_change rid task a b now n : frame (insert_task_change rid task a b now n).
Proof. unfold insert_task_change. frame_body. Qed.
Lemma frame_update_task rid id f : frame (update_task rid id f).
Proof. unfold update_task. frame_body. Qed.
Lemma frame_insert_task rid mid seq a b now : frame (insert_task rid mid seq a b now).
Proof. unfold insert_task. frame_body. Qed.
Lemma frame_loadTask rid id : frame (loadTask_tx rid id).
Proof. unfold loadTask_tx. frame_body. Qed.
Lemma frame_requireTaskWriter rid a : frame (requireTaskWriter rid a).
Proof. unfold requireTaskWriter. frame_body. Qed.
#[export] Hint Resolve frame_requireOneRow frame_update_connections frame_insert_task_message frame_insert_task_change
  frame_update_task frame_insert_task frame_loadTask frame_requireTaskWriter : store.

Lemma frame_convertTask rid a q now : frame (convertTask rid a q now).
Proof. unfold convertTask. frame_body. Qed.
Lemma frame_reviewTask rid a q now : frame (reviewTask rid a q now).
Proof. unfold reviewTask. frame_body. Qed.
#[export] Hint Resolve frame_convertTask frame_reviewTask : store.
Lemma frame_ChangeTask rid a q now : frame (ChangeTask_tx rid a q now).
Proof. unfold ChangeTask_tx. frame_body. Qed.
Lemma frame_Connected c : frame (Connected_tx c).
Proof. unfold Connected_tx. frame_body. Qed.
Lemma frame_Ack id seq : frame (Ack_tx id seq).
Proof. unfold Ack_tx. frame_body. Qed.
Lemma frame_Disconnected id t : frame (Disconnected_tx id t).
Proof. unfold Disconnected_tx. frame_body. Qed.
Lemma frame_CloseStale rid t : frame (CloseStale_tx rid t).
Proof. unfold CloseStale_tx. frame_body. Qed.
Lemma frame_insert_private rid th l : frame (insert_private rid th l).
Proof. induction l; cbn [insert_private]; frame_body. Qed.
#[export] Hint Resolve frame_insert_private : store.
Lemma frame_EndPrivateTurn rid th l : frame (EndPrivateTurn_tx rid th l).
Proof. unfold EndPrivateTurn_tx. frame_body. Qed.
Lemma frame_BeginPrivateTurn rid th l : frame (BeginPrivateTurn_tx rid th l).
Proof. unfold BeginPrivateTurn_tx. frame_body. Qed.
Lemma frame_checkpoint rid c : frame (requireRoom rid;; tx_modify (set_runtime_checkpoints (upsert_checkpoint rid c))).
Proof. frame_body. Qed.

(** ** Life-cycle bodies *)

(** The message a guard selected. *)
Definition selected (rid : RoomID) (kinds : list MessageKind) (st : RequestState) (m : storedMessage) (d : DB) : Prop :=
  exists r, r ∈ messages d /\ m = stored_of d r /\ msg_room r = rid /\ msg_state r = st /\ contains kinds (msg_kind r) = true.

Lemma loadStoredMessage_elem d rid cid m :
  loadStoredMessage d rid cid = Some m ->
  exists r, r ∈ messages d /\ m = stored_of d r /\ msg_room r = rid /\ msg_client r = cid.
Proof.
  unfold loadStoredMessage, find_message. intros (r & E & ->)%fmap_Some.
  apply find_some_elem in E as [H1 H2]. unfold is_client in H2. bool_props.
  exists r. split_and!; [done|done|by apply in_roomP|by apply String.eqb_eq].
Qed.

Lemma requireMessageState_post rid cid kinds st d :
  wp (requireMessageState rid cid kinds st) (fun m d' => d' = d /\ selected rid kinds st m d) d.
Proof.
  unfold requireMessageState, requireRoom. wp_steps.
  apply loadStoredMessage_elem in Heqo as (r & Hr & -> & E1 & E2). bool_props. split; [done|].
  by exists r.
Qed.

Lemma selected_moves rid kinds st m d new :
  selected rid kinds st m d ->
  (forall k, contains kinds k = true -> legal k st new = true) -> moves d rid (sm_id m) st new.
Proof. intros (r & Hr & -> & E1 & E2 & E3) Hl. exists r. split_and!; auto. Qed.

Lemma updateMessageAndBinding_keeps p u d0 d rid mid old new c ec ed v :
  inv p u d0 d -> moves d rid mid old new ->
  wp (updateMessageAndBinding rid mid old new c ec ed v) (fun _ d' => inv p u d0 d') d.
Proof. intros H M. rewrite updateMessageAndBinding_paired. by apply paired_update_inv; [..|apply binding_set_rebinds]. Qed.

(** Select a message, move it with its binding, then write events. *)
Lemma keeps_move {A} rid cid kinds old new (k : storedMessage -> StoreTx A) (f : storedMessage -> bindingUpdateValues) c ec ed :
  (forall kd, contains kinds kd = true -> legal kd old new = true) -> (forall m, keeps (k m)) ->
  keeps (m ← requireMessageState rid cid kinds old;
         updateMessageAndBinding rid (sm_id m) old new c ec ed (f m);; k m).
Proof.
  intros Hl Hk d0 d H. wp_step. eapply wp_mono; [apply requireMessageState_post|]. simpl. intros m d' [-> Hm].
  wp_step. eapply wp_mono; [by eapply updateMessageAndBinding_keeps; [|by eapply selected_moves]|].
  intros ? d' H'. by apply Hk.
Qed.

Lemma contains_prompt k : contains prompt_kinds k = true -> k = KPrompt \/ k = KRecoveryPrompt.
Proof. destruct k; auto; done. Qed.
Lemma contains_control k : contains control_kinds k = true -> k = KSteer \/ k = KCancel.
Proof. destruct k; auto; done. Qed.

Lemma keeps_BeginDispatch rid cid : keeps (BeginDispatch_tx rid cid).
Proof.
  intros d0 d H. unfold BeginDispatch_tx. wp_step.
  eapply wp_mono; [apply requireMessageState_post|]. simpl. intros m d' [-> Hm].
  eapply updateMessageAndBinding_keeps; [done|]. eapply selected_moves; [done|]. by intros [].
Qed.

(** The outcomes the validators let through. *)
Lemma terminal_outcome_state st c g controls :
  validateTerminalOutcome st c g controls = Ok tt ->
  st = RequestFailed \/ st = RequestNeedsReview \/ st = (if controls then RequestCompleted else RequestInterrupted).
Proof.
  unfold validateTerminalOutcome. intros (? & Hc & _)%result_bind_ok. unfold check in Hc.
  destruct (_ || _) eqn:E; [|done]. apply orb_true_iff in E as [E|E]; [apply orb_true_iff in E as [E|E]|];
    [| |destruct controls]; bool_props; auto.
Qed.
Lemma finish_state i : validateFinishTurn i = Ok tt ->
  ft_State i = RequestCompleted \/ ft_State i = RequestFailed \/ ft_State i = RequestInterrupted.
Proof.
  unfold validateFinishTurn. intros (? & Hc & _)%result_bind_ok. unfold check in Hc.
  destruct (_ || _) eqn:E; [|done]. repeat apply orb_true_iff in E as [E|E]; bool_props; auto.
Qed.

Lemma keeps_FinishControl rid cid o now :
  validateTerminalOutcome (co_State o) (co_ErrorCode o) (co_ErrorDigest o) true = Ok tt ->
  keeps (FinishControl_tx rid cid o now).
Proof.
  intros V%terminal_outcome_state. eapply (keeps_move _ _ _ _ _ _ (fun _ => _)); [|auto with store].
  intros [] Hc; try done; by destruct V as [->|[-> | ->]].
Qed.
Lemma keeps_FailDispatch rid cid o now :
  validateTerminalOutcome (fo_State o) (fo_ErrorCode o) (fo_ErrorDigest o) false = Ok tt ->
  keeps (FailDispatch_tx rid cid o now).
Proof.
  intros V%terminal_outcome_state. eapply (keeps_move _ _ _ _ _ _ (fun _ => _)); [|auto with store].
  intros [] Hc; try done; by destruct V as [->|[-> | ->]].
Qed.
Lemma keeps_BindRunningTurn rid cid turn now : keeps (BindRunningTurn_tx rid cid turn now).
Proof. eapply (keeps_move _ _ _ _ _ _ (fun _ => _)); [by intros []|auto with store]. Qed.

(** The error path of a query without rows. *)
Lemma keeps_missing {A} rid e : keeps (A:=A) (requireRoom rid;; tx_fail e).
Proof. keeps_tac. Qed.

Lemma keeps_FinishTurn rid i now : validateFinishTurn i = Ok tt -> keeps (FinishTurn_tx rid i now).
Proof.
  intros V%finish_state d0 d H. unfold FinishTurn_tx. wp_step. wp_step. cbv beta.
  destruct (List.find _ _) as [m|] eqn:E; [|by apply keeps_missing].
  apply find_some_elem in E as [Hm E]. unfold runs_turn in E. bool_props.
  rename select (in_room _ _ _ = true) into Er. apply in_roomP in Er.
  wp_step. eapply wp_mono; [eapply updateMessageAndBinding_keeps; [done|]|].
  - exists m. split_and!; try done.
    rename select (contains _ _ = true) into Ek. rename select (_ || _ = true) into Es.
    apply contains_prompt in Ek as [-> | ->]; apply orb_true_iff in Es as [Es|Es];
      apply bool_decide_eq_true in Es as ->; by destruct V as [->|[-> | ->]].
  - simpl. intros _ d' H'. wp_step. eapply wp_mono; [exact (appendEvent_inv _ _ _ _ _ _ _ _ H')|]. done.
Qed.

Lemma keeps_MarkNeedsReview rid cid rs now : keeps (MarkNeedsReview_tx rid cid rs now).
Proof.
  intros d0 d H. unfold MarkNeedsReview_tx. wp_step. wp_step. cbv beta.
  destruct (loadStoredMessage d rid cid) as [m|] eqn:E; [|by apply keeps_missing].
  apply loadStoredMessage_elem in E as (r & Hr & -> & <- & _).
  wp_steps. eapply wp_mono; [eapply updateMessageAndBinding_keeps; [done|]|].
  - exists r. split_and!; try done. destruct H as [W _]. destruct (wf_known _ _ _ W r Hr) as (_ & _ & K).
    rename select (_ || _ = true) into Es. rename select (negb _ = true) into Ek. simpl in Es, Ek |- *.
    apply orb_true_iff in Es as [Es|Es]; apply bool_decide_eq_true in Es; rewrite Es in K |- *;
      by destruct (msg_kind r).
  - simpl. intros _ d' H'. exact (appendEvent_inv _ _ _ _ _ _ _ _ H').
Qed.

(** ** Acceptance *)

Lemma the_message_eq d d' rid mid k st : messages d' = messages d -> the_message d rid mid k st -> the_message d' rid mid k st.
Proof. unfold the_message. by intros ->. Qed.

Lemma core_messages d d' : core d' = core d -> messages d' = messages d.
Proof. by intros [=]. Qed.

Lemma wp_frame {A} (m : StoreTx A) d : frame m -> wp m (fun _ d' => core d' = core d) d.
Proof. intros F. apply F. Qed.

(** A body on other tables in the middle of a transaction. *)
Lemma wp_framed {A} (m : StoreTx A) p u d0 d (Q : A -> DB -> Prop) :
  frame m -> inv p u d0 d ->
  (forall a d', core d' = core d -> inv p u d0 d' -> Q a d') -> wp m Q d.
Proof.
  intros F H HQ. eapply wp_mono; [apply F|]. simpl. intros a d' E. apply HQ; [done|]. by apply (inv_core _ _ _ d).
Qed.

Lemma keeps_accept_new rid actor cid kind body hash st binding ek task now :
  kind_state_ok kind st = true -> binding = has_binding kind ->
  keeps (accept_new rid actor cid kind body hash st binding ek task now).
Proof.
  intros Hk -> d0 d H. unfold accept_new.
  wp_step. eapply wp_framed; [auto with store|exact H|]. intros _ d1 _ H1.
  wp_step. eapply wp_mono; [exact (allocateSeq_inv _ _ _ _ H1)|]. simpl. intros seq d2 [H2 Ha].
  wp_step. eapply wp_mono; [by eapply insert_message_inv|]. simpl. intros mid d3 (H3 & Hm & _).
  wp_step. eapply wp_framed; [destruct (0 <? task); auto with store|exact H3|]. intros _ d4 E H4.
  apply (the_message_eq _ d4 _ _ _ _ (core_messages _ _ E)) in Hm.
  wp_step. eapply (wp_mono _ (fun _ d' => inv (Some (rid, seq)) None d0 d')).
  - destruct (has_binding kind) eqn:Eb; [|done]. wp_steps. by eapply insert_binding_inv.
  - intros _ d5 H5. wp_step. eapply wp_mono; [exact (insertEventAt_inv _ _ _ _ _ _ _ _ _ H5)|]. done.
Qed.

Lemma frame_loadEvent rid seq : frame (loadEventTx rid seq).
Proof. unfold loadEventTx. frame_body. Qed.
#[export] Hint Resolve frame_loadEvent : store.

Lemma keeps_accept rid actor cid kind body hash st binding ek task now :
  kind_state_ok kind st = true -> binding = has_binding kind ->
  keeps (accept_tx rid actor cid kind body hash st binding ek task now).
Proof.
  intros Hk Hb. unfold accept_tx, accept_duplicate. apply keeps_bind; [auto with store|]. intros d.
  destruct (loadStoredMessage d rid cid); [keeps_tac|by apply keeps_accept_new].
Qed.

(** ** Initialisation *)

Lemma keeps_insert_member rid uid name now : keeps (insert_member rid uid name now).
Proof.
  intros d0 d H. unfold insert_member. wp_steps. bool_props. destruct H as [W V]. split.
  - destruct W. split; try done; simpl.
    + intros x Hx. destruct (wf_known x Hx) as (K1 & (u & Hu & E) & K3). split_and!; [done| |done].
      exists u. split; [|done]. simpl. apply snoc_elem. by left.
    + rewrite fmap_app. apply NoDup_snoc; [done|]. intros (x & E & Hx)%list_elem_of_fmap. injection E as E1 E2.
      rename select (existsb (is_member _ _) _ = false) into Hf. eapply existsb_false in Hf; [|done].
      unfold is_member, in_room in Hf. by rewrite <- E1, <- E2, String.eqb_refl, Z.eqb_refl in Hf.
  - etrans; [done|]. evolve_tac. by apply prefix_app_r.
Qed.
#[export] Hint Resolve keeps_insert_member : store.
Lemma insert_members_inv d0 d rid now l :
  inv0 d0 d -> wp (insert_members rid now l) (fun _ d' => inv0 d0 d') d.
Proof.
  revert d. induction l as [|m l IH]; intros d H; cbn [insert_members]; [done|].
  wp_step. eapply wp_mono; [by apply keeps_insert_member|]. simpl. intros _ d1 H1. by apply IH.
Qed.

Lemma keeps_InitializeRoom sd now : keeps (InitializeRoom_tx sd now).
Proof.
  intros d0 d [W V]. unfold InitializeRoom_tx. wp_steps. apply insert_members_inv.
  rename select (Nat.eqb _ _ = true) into H. apply Nat.eqb_eq, length_zero_iff_nil in H. destruct W as [].
  assert (Em : messages d = []).
  { destruct (messages d) as [|m l] eqn:E; [done|]. destruct (wf_known m) as ((r & Hr & _) & _); [left|].
    rewrite H in Hr. by apply not_elem_of_nil in Hr. }
  assert (Ee : room_events d = []).
  { destruct (room_events d) as [|e l] eqn:E; [done|].
    assert (Hr : e_room e ∈ r_id <$> rooms d) by (apply wf_event_rooms; left).
    rewrite H in Hr. by apply not_elem_of_nil in Hr. }
  split.
  - split; simpl; rewrite ?H, ?Em, ?Ee; simpl; try done.
    + apply NoDup_singleton.
    + intros r ->%list_elem_of_singleton. done.
    + intros r ->%list_elem_of_singleton. unfold log_seqs. simpl. by rewrite Ee.
    + intros e He. by apply not_elem_of_nil in He.
    + constructor.
    + intros m Hm. by apply not_elem_of_nil in Hm.
    + constructor.
    + constructor.
    + intros m Hm. by apply not_elem_of_nil in Hm.
    + intros b Hb. destruct (wf_bd_msg b Hb) as (m & Hm & _). rewrite Em in Hm. by apply not_elem_of_nil in Hm.
    + intros m Hm. by apply not_elem_of_nil in Hm.
  - etrans; [done|]. evolve_tac.
    rewrite H. apply prefix_nil.
Qed.

(** ** Resolution of a reviewed message *)

(** Messages already stored stay as they are while a resolution is recorded. *)
Definition grows {A} (m : StoreTx A) : Prop := forall d, wp m (fun _ d' => messages d `prefix_of` messages d') d.
Lemma grows_allocateSeq rid : grows (allocateSeq rid).
Proof. intros d. unfold allocateSeq, update_rooms. by wp_steps. Qed.
Lemma grows_insert_message rid cid actor kind body hash st seq now : grows (insert_message rid cid actor kind body hash st seq now).
Proof. intros d. unfold insert_message. wp_steps. simpl. by apply prefix_app_r. Qed.
Lemma grows_insertEventAt rid seq actor kind payload now : grows (insertEventAt rid seq actor kind payload now).
Proof. intros d. unfold insertEventAt, insert_event. by wp_steps. Qed.
Lemma the_message_grows d d' rid mid k st :
  messages d `prefix_of` messages d' -> the_message d rid mid k st -> the_message d' rid mid k st.
Proof. intros [l E] (m & Hm & H). exists m. split; [|done]. rewrite E. apply elem_of_app. by left. Qed.

Definition under_review (d : DB) (rid : RoomID) (t : storedMessage) : Prop :=
  the_message d rid (sm_id t) (sm_kind t) RequestNeedsReview /\ has_binding (sm_kind t) = true.

Lemma under_review_moves d rid t new :
  under_review d rid t -> legal (sm_kind t) RequestNeedsReview new = true ->
  moves d rid (sm_id t) RequestNeedsReview new.
Proof. intros [(m & Hm & E1 & E2 & E3 & E4) _] Hl. exists m. by rewrite E3. Qed.

(** Each way out of review keeps the invariant. *)
Lemma terminalize_keeps d0 d rid t c now :
  inv0 d0 d -> under_review d rid t ->
  wp (terminalizeReviewed rid (sm_id t) c now) (fun _ d' => inv0 d0 d') d.
Proof.
  intros H Hr. rewrite terminalizeReviewed_paired. apply paired_update_inv; [done| |by intros b].
  apply under_review_moves; [done|]. destruct Hr as [_ Hb]. by destruct (sm_kind t).
Qed.
Lemma resetPrompt_keeps d0 d rid t :
  inv0 d0 d -> under_review d rid t -> contains prompt_kinds (sm_kind t) = true ->
  wp (resetReviewedPrompt rid (sm_id t)) (fun _ d' => inv0 d0 d') d.
Proof.
  intros H Hr Hk. rewrite resetReviewedPrompt_paired. apply paired_update_inv; [done| |by intros b].
  apply under_review_moves; [done|]. by destruct (sm_kind t).
Qed.
Lemma resetControl_keeps d0 d rid t :
  inv0 d0 d -> under_review d rid t -> contains prompt_kinds (sm_kind t) = false ->
  wp (resetReviewedControl rid (sm_id t)) (fun _ d' => inv0 d0 d') d.
Proof.
  intros H Hr Hk. rewrite resetReviewedControl_paired. apply paired_update_inv; [done| |by intros b].
  apply under_review_moves; [done|]. destruct Hr as [_ Hb]. by destruct (sm_kind t).
Qed.

Lemma frame_retryCommand rid cid t : frame (retryCommand rid cid t).
Proof. unfold retryCommand. frame_body. Qed.
#[export] Hint Resolve frame_retryCommand : store.

Lemma insertRecoveryPrompt_keeps rid actor cid instr src now : keeps (insertRecoveryPrompt rid actor cid instr src now).
Proof.
  intros d0 d H. unfold insertRecoveryPrompt.
  wp_step. eapply wp_mono; [exact (allocateSeq_inv _ _ _ _ H)|]. simpl. intros seq d1 [H1 Ha].
  wp_step. apply wp_onerror. eapply wp_mono; [by eapply insert_message_inv|]. simpl. intros mid d2 (H2 & Hm & _).
  wp_step. eapply wp_mono; [by eapply insert_binding_inv|]. simpl. intros _ d3 H3.
  wp_step. apply wp_get. wp_step. eapply wp_framed; [destruct task_of_message; auto with store|exact H3|].
  intros _ d4 _ H4. exact (insertEventAt_inv _ _ _ _ _ _ _ _ _ H4).
Qed.
#[export] Hint Resolve insertRecoveryPrompt_keeps : store.

Lemma resolve_action_keeps d0 d rid actor i t now :
  inv0 d0 d -> under_review d rid t -> wp (resolve_action rid actor i t now) (fun _ d' => inv0 d0 d') d.
Proof.
  intros H Hr. unfold resolve_action.
  destruct (ri_Action i); [| | |done].
  - wp_step. eapply (wp_mono _ (fun _ d' => inv0 d0 d')).
    + destruct (contains _ _) eqn:Ek; wp_step.
      * eapply wp_mono; [by apply resetPrompt_keeps|done].
      * eapply wp_mono; [by apply resetControl_keeps|]. simpl. intros _ d1 H1.
        apply (keeps_apply _ _ _ H1). keeps_tac.
    + intros r d1 H1. apply (keeps_apply _ _ _ H1). keeps_tac.
  - wp_step. eapply wp_mono; [by apply terminalize_keeps|]. simpl. intros _ d1 H1.
    apply (keeps_apply _ _ _ H1). keeps_tac.
  - wp_step. eapply wp_mono; [by apply terminalize_keeps|]. simpl. intros _ d1 H1.
    apply (keeps_apply _ _ _ H1). keeps_tac.
Qed.

Lemma frame_insert_recovery_result mid rid t a : frame (insert_recovery_result mid rid t a).
Proof. unfold insert_recovery_result. frame_body. Qed.
Lemma frame_loadRecoveryEvents rid mid : frame (loadRecoveryEvents rid mid).
Proof. unfold loadRecoveryEvents. frame_body. Qed.
#[export] Hint Resolve frame_insert_recovery_result frame_loadRecoveryEvents : store.

#[local] Arguments link_events : simpl never.

Lemma keeps_resolve_new rid actor i now : keeps (resolve_new rid actor i now).
Proof.
  intros d0 d H. unfold resolve_new.
  wp_step. eapply wp_framed; [auto with store|exact H|]. intros _ d1 _ H1. wp_step. apply wp_get.
  destruct (loadStoredMessage d1 _ _) as [t|] eqn:E; [|done].
  apply loadStoredMessage_elem in E as (r & Hr & -> & <- & _).
  wp_step. apply wp_guard. intros [G1 G2]%andb_prop. apply bool_decide_eq_true in G1.
  assert (Hu : under_review d1 (msg_room r) (stored_of d1 r)).
  { split; [by exists r|]. unfold has_binding. simpl in G2. done. }
  set (t := stored_of d1 r) in *. clearbody t. wp_step. apply wp_guard. intros _. destruct Hu as [Hu Hb].
  wp_step. eapply wp_mono; [apply wp_and; [exact (allocateSeq_inv _ _ _ _ H1)|apply grows_allocateSeq]|].
  simpl. intros seq d2 [[H2 Ha] Gr2]. apply (the_message_grows _ _ _ _ _ _ Gr2) in Hu.
  wp_step. eapply wp_mono; [apply wp_and; [by eapply insert_message_inv|apply grows_insert_message]|].
  simpl. intros mid d3 [(H3 & Hr3 & Hn) G3]. apply (the_message_grows _ _ _ _ _ _ G3) in Hu.
  wp_step. eapply wp_mono; [apply wp_and; [exact (insertEventAt_inv _ _ _ _ _ _ _ _ _ (inv_refl _ _ _ (proj1 H3)))|apply grows_insertEventAt]|].
  cbv beta. intros e d4 [H4 G4]. apply (the_message_grows _ _ _ _ _ _ G4) in Hu.
  wp_step. eapply wp_mono; [apply (resolve_action_keeps d4); [apply inv_refl, H4|by split]|].
  intros [more retry] d5 H5. cbv beta iota in H5 |- *.
  wp_step. eapply wp_framed; [auto with store|exact (inv_trans _ _ _ _ _ _ _ H4 H5)|]. intros _ d6 E6 H6.
  wp_step. eapply wp_mono; [apply link_events_inv; [exact (inv_trans _ _ _ _ _ _ _ H3 H6)|]|done].
  split.
  - pose proof (ev_autoinc _ _ (proj2 H2)). lia.
  - destruct Hr3 as (x & Hx & <- & _). pose proof (wf_autoinc _ _ _ (proj1 H3) x Hx).
    pose proof (ev_autoinc _ _ (proj2 H6)). lia.
Qed.

Lemma keeps_ResolveReview rid actor i now : keeps (ResolveReview_tx rid actor i now).
Proof.
  unfold ResolveReview_tx, resolve_duplicate. apply keeps_bind; [auto with store|]. intros d.
  destruct (loadStoredMessage _ _ _); [keeps_tac|apply keeps_resolve_new].
Qed.

(** ** Admission *)

Lemma frame_lift {A} (r : result error A) : frame (tx_lift r).
Proof. intros d. unfold wp, tx_lift. by destruct r. Qed.
Lemma keeps_onerror {A} e (m : StoreTx A) : keeps m -> keeps (tx_onerror e m).
Proof. intros H d0 d I. apply wp_onerror. by apply H. Qed.
Lemma frame_insert_join j : frame (insert_join j).
Proof. unfold insert_join. frame_body. Qed.
Lemma frame_free_capacity rid : frame (free_capacity rid).
Proof. unfold free_capacity. frame_body. Qed.
Lemma frame_insert_role rid uid role : frame (insert_role rid uid role).
Proof. unfold insert_role. frame_body. Qed.
#[export] Hint Resolve frame_lift frame_insert_join frame_free_capacity frame_insert_role keeps_onerror : store.
Lemma frame_upsert_role rid uid role : frame (upsert_role rid uid role).
Proof. unfold upsert_role. frame_body. Qed.
#[export] Hint Resolve frame_upsert_role : store.
Lemma frame_RequestJoin rid hash name address random now : frame (RequestJoin_tx rid hash name address random now).
Proof. unfold RequestJoin_tx. frame_body. Qed.
Lemma frame_changeRole rid id role : frame (changeRole_tx rid id role).
Proof. unfold changeRole_tx. frame_body. Qed.
#[export] Hint Resolve frame_RequestJoin frame_changeRole : store.
Lemma keeps_decideJoin rid id action role now : keeps (decideJoin_tx rid id action role now).
Proof.
  unfold decideJoin_tx, decide_action. keeps_tac; apply keeps_frame; frame_body.
Qed.
#[export] Hint Resolve keeps_decideJoin : store.

(** ** Calls *)

Definition op_ok (s s' : Store) : Prop := wf None None (db s) -> inv0 (db s) (db s').

Lemma op_ok_same s : op_ok s s.
Proof. intros W. by apply inv_refl. Qed.

Lemma transactConditional_ok {A} s (w : StoreTx (A * bool)) : keeps w -> op_ok s (transactConditional s w).1.
Proof.
  intros K W. destruct (transactConditional s w) as [s' r] eqn:E. apply transactConditional_cases in E. simpl.
  destruct r as [a|e]; [|subst; by apply inv_refl]. destruct E as (wrote & d & E & -> & _). simpl.
  exact (wp_ok _ _ _ _ _ (K _ _ (inv_refl _ _ _ W)) E).
Qed.
Lemma transact_ok {A} s (w : StoreTx A) : keeps w -> op_ok s (transact s w).1.
Proof. intros K. apply transactConditional_ok. apply keeps_bind; [done|]. intros a. apply keeps_frame, frame_ret. Qed.
Lemma autocommit_ok {A} s (w : StoreTx A) : keeps w -> op_ok s (autocommit s w).1.
Proof.
  intros K W. unfold autocommit. destruct (w (db s)) as [[a d]|e] eqn:E; [|by apply inv_refl].
  destruct (commitFault s); [by apply inv_refl|].
  exact (wp_ok _ _ _ _ _ (K _ _ (inv_refl _ _ _ W)) E).
Qed.
Lemma with_check_ok {A} s c (k : Store * result error A) : (c = Ok tt -> op_ok s k.1) -> op_ok s (with_check s c k).1.
Proof. destruct c as [[]|e]; simpl; [auto|]. intros _. apply op_ok_same. Qed.

#[export] Hint Resolve keeps_BindThread keeps_MarkThreadNeedsRepair keeps_SetRoomStatus keeps_RepairThread
  keeps_ResetUnusedThread keeps_RecordCompletedItem keeps_BeginDispatch keeps_FinishControl keeps_FailDispatch
  keeps_BindRunningTurn keeps_FinishTurn keeps_MarkNeedsReview keeps_InitializeRoom keeps_ResolveReview : store.
#[export] Hint Resolve frame_ChangeTask frame_Connected frame_Ack frame_Disconnected frame_CloseStale
  frame_EndPrivateTurn frame_BeginPrivateTurn frame_checkpoint : store.

Ltac op_tac := repeat lazymatch goal with
  | |- op_ok _ (with_check _ _ _).1 => apply with_check_ok; intros ?
  | |- op_ok _ (transactConditional _ _).1 => apply transactConditional_ok
  | |- op_ok _ (transact _ _).1 => apply transact_ok
  | |- op_ok _ (autocommit _ _).1 => apply autocommit_ok
  | |- op_ok ?s ?s => apply op_ok_same
  | |- op_ok ?s (?s, _).1 => apply op_ok_same
  | |- keeps _ => solve [eauto with store]
  end.

Lemma control_kind_ok k : kind_state_ok (control_kind k) RequestDispatching = true /\ has_binding (control_kind k) = true.
Proof. by destruct k. Qed.

Lemma exec_ok s op : op_ok s (exec s op).
Proof.
  destruct op; cbn [exec];
    unfold InitializeRoom, AcceptMessage, AppendNote, AcceptControl, accept, BeginDispatch, FinishControl, FailDispatch,
      BindRunningTurn, RecordCompletedItem, FinishTurn, MarkNeedsReview, Connected, Ack, Disconnected, CloseStale,
      SaveRuntimeCheckpoint, BindThread, MarkThreadNeedsRepair, SetRoomStatus, RepairThread, ResolveReview,
      BeginPrivateTurn, EndPrivateTurn, PrivateTurns, ResetUnusedThread, ChangeTask,
      RequestJoin, DecideJoinRole, DecideJoin, decideJoin.
  all: try solve [op_tac].
  - op_tac. by apply keeps_accept.
  - op_tac. by apply keeps_accept.
  - op_tac. destruct (control_kind_ok (ci_Kind i)) as [K1 K2]. by apply keeps_accept.
  - destruct (item_payload i); op_tac.
  - destruct (List.find _ _); [|op_tac]. destruct (added_turns _ _) as [added|e]; [|op_tac].
    pose proof (transact_ok s (EndPrivateTurn_tx rid th added)) as K. unfold EndPrivateTurn.
    destruct (transact s _) as [s' r]. intros W. apply K; [auto with store|done].
  - destruct (validTaskRequest q); [|by op_tac]. destruct (existsb _ _); cbn [negb]; by op_tac.
  - destruct (tokenHash token); [destruct (negb _ || _)|]; op_tac.
  - destruct (String.eqb role ""); [|destruct (negb _ || _); [|destruct (String.eqb action "approve")]]; op_tac.
Qed.

Lemma empty_wf : wf None None empty_db.
Proof.
  split; simpl; try (intros ? H; by apply not_elem_of_nil in H); try constructor.
Qed.

Lemma step_inv d c : wf None None d -> inv0 d (step d c).
Proof. intros W. unfold step. by apply (exec_ok (mkStore d (c_hook c) (c_fault c))). Qed.

Lemma run_inv d l : wf None None d -> inv0 d (run d l).
Proof.
  revert d. induction l as [|c l IH]; intros d W; [by apply inv_refl|].
  destruct (step_inv d c W) as [W1 V1]. destruct (IH _ W1) as [W2 V2]. split; [done|]. by etrans.
Qed.

(** Every reachable database is well formed. *)
Lemma reachable_wf l : wf None None (run empty_db l).
Proof. apply run_inv, empty_wf. Qed.
Lemma reachable_evolve l l' : evolve (run empty_db l) (run empty_db (l ++ l')).
Proof. unfold run. rewrite foldl_app. apply (run_inv _ l'), reachable_wf. Qed.
