(* ===== verification/StoreSafety.v ===== *)
(** * What the store promises

    The guarantees a client of the repository relies on, for every sequence of
    calls: a gapless append-only event log, legal message life cycles, agreement
    of messages and bindings, idempotent acceptance and resolution, atomicity of
    failed commits, and a complete recovery queue in acceptance order. *)
From S2P Require Import Prelude GoStrings Sha256 Json RoomTypes StoreSchema StoreBase StoreTasks StoreRepository.
From S2P Require Import StoreRecovery StoreAdmission StoreInvariant StoreOps.

(** ** Lookups over time *)

Lemma find_app_l {A} (p : A -> bool) l l' x : List.find p l = Some x -> List.find p (l ++ l') = Some x.
Proof. induction l as [|y l IH]; simpl; [done|]. destruct (p y); auto. Qed.
Lemma find_app_r {A} (p : A -> bool) l l' : List.find p l = None -> List.find p (l ++ l') = List.find p l'.
Proof. induction l as [|y l IH]; simpl; [done|]. destruct (p y); [done|auto]. Qed.
Lemma find_Forall2 {A} (R : A -> A -> Prop) (p : A -> bool) l l' x :
  Forall2 R l l' -> (forall a b, R a b -> p b = p a) -> List.find p l = Some x ->
  exists y, List.find p l' = Some y /\ R x y.
Proof.
  intros F Hp. induction F as [|a b l l' Hab F IH]; simpl; [done|]. rewrite (Hp a b Hab).
  destruct (p a); [|done]. intros [= <-]. eauto.
Qed.

Lemma find_event_evolve d d' rid seq e : evolve d d' -> find_event d rid seq = Some e -> find_event d' rid seq = Some e.
Proof.
  intros [[l E] _ _ _ _] (r & Hr & ->)%fmap_Some. unfold find_event. rewrite E.
  by rewrite (find_app_l _ _ _ _ Hr).
Qed.
Lemma find_message_evolve d d' rid cid m :
  evolve d d' -> find_message d rid cid = Some m -> exists m', find_message d' rid cid = Some m' /\ msg_evolves m m'.
Proof.
  intros [_ (ms & new & E & F) _ _ _] Hm. unfold find_message in *.
  eapply find_Forall2 in Hm as (m' & Hm' & R); [|exact F|].
  - exists m'. split; [|done]. rewrite E. by apply find_app_l.
  - intros a b (_ & E1 & E2 & _)%msg_evolves_fields. unfold is_client, in_room. by rewrite E1, E2.
Qed.

(** ** The stored acceptance of a command *)

Record accepted (d : DB) (rid : RoomID) (cid : ClientMessageID) (kind : MessageKind) (actor : UID) (hash : string)
    (a : Acceptance) : Prop :=
  { ad_client : acc_ClientMessageID a = cid;
    ad_event : find_event d rid (acc_Seq a) = Some (acc_Event a);
    ad_message : exists m, find_message d rid cid = Some m /\ msg_kind m = kind /\ msg_actor m = actor /\
                   msg_hash m = hash /\ msg_id m = acc_MessageID a /\ msg_seq m = acc_Seq a /\ msg_state m = acc_State a }.

Lemma insert_message_post rid cid actor kind body hash st seq now d :
  wp (insert_message rid cid actor kind body hash st seq now)
     (fun mid d' => exists m, find_message d' rid cid = Some m /\ msg_kind m = kind /\ msg_actor m = actor /\ msg_hash m = hash
        /\ msg_id m = mid /\ msg_seq m = seq /\ msg_state m = st) d.
Proof.
  unfold insert_message. wp_steps. bool_props. unfold find_message. simpl.
  rename select (existsb _ (messages d) = false) into Hf.
  rewrite find_app_r by (apply find_none_elem; by apply existsb_false). cbn.
  unfold is_client, in_room. simpl. rewrite !String.eqb_refl. by eexists.
Qed.

Lemma insertEventAt_post rid seq actor kind payload now d :
  wp (insertEventAt rid seq actor kind payload now)
     (fun e d' => find_event d' rid seq = Some e /\ messages d' = messages d) d.
Proof.
  unfold insertEventAt, insert_event. wp_steps. bool_props. split; [|done]. unfold find_event. simpl.
  rename select (existsb _ (room_events d) = false) into Hf. simpl in Hf.
  rewrite find_app_r by (apply find_none_elem; by apply existsb_false). cbn.
  unfold is_event, in_room. simpl. by rewrite String.eqb_refl, Z.eqb_refl.
Qed.

Lemma insert_binding_messages rid mid turn st d :
  wp (insert_binding rid mid turn st) (fun _ d' => messages d' = messages d) d.
Proof. unfold insert_binding. by wp_steps. Qed.

Lemma find_message_eq d d' rid cid : messages d' = messages d -> find_message d' rid cid = find_message d rid cid.
Proof. unfold find_message. by intros ->. Qed.

Lemma accept_new_post rid actor cid kind body hash st binding ek task now d :
  wp (accept_new rid actor cid kind body hash st binding ek task now)
     (fun r d' => accepted d' rid cid kind (ac_UID actor) hash r.1) d.
Proof.
  unfold accept_new. wp_step. apply wp_intro. intros _ d1 _. wp_step. apply wp_intro. intros seq d2 _.
  wp_step. eapply wp_mono; [apply insert_message_post|]. cbv beta. intros mid d3 (m & Hm & H).
  wp_step. eapply (wp_mono _ (fun _ d' => core d' = core d3)).
  { apply wp_frame. destruct (0 <? task); auto with store. }
  intros _ d4 E4%core_messages. rewrite <- (find_message_eq _ _ _ _ E4) in Hm.
  wp_step. eapply (wp_mono _ (fun _ d' => messages d' = messages d4)).
  { destruct binding; [|done]. wp_steps. apply insert_binding_messages. }
  intros _ d5 E5. rewrite <- (find_message_eq _ _ _ _ E5) in Hm.
  wp_step. eapply wp_mono; [apply insertEventAt_post|]. cbv beta. intros e d6 [He E6].
  rewrite <- (find_message_eq _ _ _ _ E6) in Hm. apply wp_ret. split; [done|done|]. eauto.
Qed.

Lemma accept_duplicate_post rid actor cid kind hash m d :
  find_message d rid cid = Some m ->
  wp (accept_duplicate rid actor cid kind hash (stored_of d m))
     (fun r d' => d' = d /\ accepted d rid cid kind (ac_UID actor) hash r.1) d.
Proof.
  intros Hm. unfold accept_duplicate, loadEventTx. wp_steps. split; [done|]. bool_props. simpl in *.
  split; [done|done|]. exists m. split_and!; try done. by apply String.eqb_eq.
Qed.

Lemma accept_post rid actor cid kind body hash st binding ek task now d :
  wp (accept_tx rid actor cid kind body hash st binding ek task now)
     (fun r d' => accepted d' rid cid kind (ac_UID actor) hash r.1) d.
Proof.
  unfold accept_tx. wp_step. apply wp_get. unfold loadStoredMessage.
  destruct (find_message d rid cid) as [m|] eqn:E; simpl; [|apply accept_new_post].
  eapply wp_mono; [by apply accept_duplicate_post|]. by intros r d' [-> H].
Qed.

Lemma accepted_evolve d d' rid cid kind actor hash a :
  evolve d d' -> accepted d rid cid kind actor hash a ->
  exists st, rtc (legal_step kind) (acc_State a) st /\
    accepted d' rid cid kind actor hash
      {| acc_MessageID := acc_MessageID a; acc_ClientMessageID := cid; acc_Seq := acc_Seq a; acc_State := st;
         acc_ErrorCode := acc_ErrorCode a; acc_Duplicate := acc_Duplicate a; acc_Event := acc_Event a |}.
Proof.
  intros V [Hc He (m & Hm & E1 & E2 & E3 & E4 & E5 & E6)].
  destruct (find_message_evolve _ _ _ _ _ V Hm) as (m' & Hm' & R).
  pose proof (msg_evolves_fields _ _ R) as (F1 & F2 & F3 & F4 & F5 & F6 & F7 & F8). destruct R as [_ R].
  exists (msg_state m'). split; [by rewrite <- E1, <- E6|]. split; simpl; [done|by eapply find_event_evolve|].
  exists m'. split_and!; congruence.
Qed.

(** A repeated command is answered from the store. *)
Lemma accept_again s now rid actor cid kind body hash st binding ek task a :
  accepted (db s) rid cid kind (ac_UID actor) hash a -> validateRoomID rid = Ok tt -> commitFault s = None ->
  exists a', accept s now rid actor cid kind body hash st binding ek task = (s, Ok a') /\
    acc_MessageID a' = acc_MessageID a /\ acc_ClientMessageID a' = cid /\ acc_Seq a' = acc_Seq a /\
    acc_State a' = acc_State a /\ acc_Event a' = acc_Event a /\ acc_Duplicate a' = true.
Proof.
  intros [Hc He (m & Hm & E1 & E2 & E3 & E4 & E5 & E6)] Hv Hf. unfold accept. rewrite Hv. cbn [with_check].
  assert (E : exists a', accept_tx rid actor cid kind body hash st binding ek task now (db s) = Ok ((a', false), db s) /\
    acc_MessageID a' = acc_MessageID a /\ acc_ClientMessageID a' = cid /\ acc_Seq a' = acc_Seq a /\
    acc_State a' = acc_State a /\ acc_Event a' = acc_Event a /\ acc_Duplicate a' = true).
  { unfold accept_tx, mbind, Tx_bind, tx_get. unfold loadStoredMessage. rewrite Hm. cbn [fmap option_fmap option_map].
    unfold accept_duplicate, loadEventTx, mbind, Tx_bind, tx_get. cbn [stored_of sm_kind sm_actorUID sm_payloadHash sm_acceptedSeq].
    rewrite bool_decide_eq_true_2 by done. rewrite E2, E3, Z.eqb_refl, String.eqb_refl. cbn [andb tx_guard mret Tx_ret].
    rewrite E5, He. eexists. split; [reflexivity|]. by split_and!. }
  destruct E as (a' & E & H). exists a'. split; [|done].
  unfold transactConditional. rewrite E. destruct s. simpl in Hf |- *. by rewrite Hf.
Qed.

Lemma with_check_inv {A} s c (k : Store * result error A) s' a :
  with_check s c k = (s', Ok a) -> c = Ok tt /\ k = (s', Ok a).
Proof. destruct c as [[]|e]; simpl; [done|by intros [=]]. Qed.

Lemma accept_inv s now rid actor cid kind body hash st binding ek task s' a :
  accept s now rid actor cid kind body hash st binding ek task = (s', Ok a) ->
  validateRoomID rid = Ok tt /\ accepted (db s') rid cid kind (ac_UID actor) hash a.
Proof.
  unfold accept. intros [Hv H]%with_check_inv. split; [done|]. apply transactConditional_cases in H.
  destruct H as (w & d & H & -> & _). exact (wp_ok _ _ _ _ _ (accept_post _ _ _ _ _ _ _ _ _ _ _ _) H).
Qed.

(** ** The stored result of a resolution *)

Definition recovery_links (d : DB) (rid : RoomID) (mid : Z) : list RecoveryEventRow :=
  order_by re_ordinal (List.filter (fun l => (re_message l =? mid) && in_room re_room rid l) (recovery_result_events d)).
Definition link_found (d : DB) (rid : RoomID) (l : RecoveryEventRow) (e : DurableEvent) : Prop :=
  find_event d rid (re_seq l) = Some e.

Record resolved (d : DB) (rid : RoomID) (cid : ClientMessageID) (actor : UID) (hash : string) (events : list DurableEvent)
  : Prop := { rd_message : exists m, find_message d rid cid = Some m /\ msg_kind m = KRecover /\ msg_actor m = actor /\
                             msg_hash m = hash /\ Forall2 (link_found d rid) (recovery_links d rid (msg_id m)) events;
              rd_events : events <> [] }.

Definition no_links (mid : Z) (d : DB) : Prop := forall l, l ∈ recovery_result_events d -> re_message l <> mid.

Lemma find_message_elem d rid cid m : find_message d rid cid = Some m -> m ∈ messages d /\ msg_client m = cid.
Proof.
  intros [H E]%find_some_elem. split; [done|]. unfold is_client in E. bool_props. by apply String.eqb_eq.
Qed.

Lemma recovery_links_evolve d d' rid mid :
  evolve d d' -> mid <= messages_autoinc d -> recovery_links d' rid mid = recovery_links d rid mid.
Proof.
  intros [_ _ _ _ _ (new & E & F)] Hm. unfold recovery_links. rewrite E, List.filter_app.
  rewrite (bfilter_ext _ (fun _ => false) new).
  - replace (List.filter (fun _ => false) new) with (@nil RecoveryEventRow) by (clear; by induction new).
    by rewrite app_nil_r.
  - intros l Hl. rewrite Forall_forall in F. specialize (F l Hl). simpl in F.
    apply andb_false_intro1. lia.
Qed.

Lemma resolved_evolve d d' rid cid actor hash events :
  wf None None d -> evolve d d' -> resolved d rid cid actor hash events -> resolved d' rid cid actor hash events.
Proof.
  intros W V [(m & Hm & E1 & E2 & E3 & F) Hn]. split; [|done].
  destruct (find_message_evolve _ _ _ _ _ V Hm) as (m' & Hm' & R).
  pose proof (msg_evolves_fields _ _ R) as (F1 & _ & _ & F4 & F5 & _ & F7 & _).
  exists m'. split_and!; try congruence. rewrite F1. rewrite (recovery_links_evolve d); [|done|].
  - eapply Forall2_impl; [exact F|]. intros l e. by apply find_event_evolve.
  - apply (wf_autoinc _ _ _ W). by apply find_message_elem in Hm as [? _].
Qed.

Lemma load_links d rid mid events :
  Forall2 (link_found d rid) (recovery_links d rid mid) events -> events <> [] ->
  loadRecoveryEvents rid mid d = Ok (events, d).
Proof.
  intros F Hn. unfold loadRecoveryEvents, mbind, Tx_bind, tx_get. fold (recovery_links d rid mid).
  assert (E : omap (fun l => find_event d rid (re_seq l)) (recovery_links d rid mid) = events).
  { clear Hn. induction F as [|l e ls es H F IH]; [done|]. cbn. unfold link_found in H. rewrite H.
    f_equal. exact IH. }
  rewrite E. by destruct events.
Qed.

(** A repeated resolution is answered from the store. *)
Lemma resolve_again s now rid actor i events :
  resolved (db s) rid (ri_ClientMessageID i) (ac_UID actor) (recover_hash actor i) events ->
  RecoverInput_Validate i = Ok tt -> validateRoomID rid = Ok tt -> commitFault s = None ->
  ResolveReview s now rid actor i = (s, Ok {| rr_Duplicate := true; rr_Events := events; rr_Retry := None |}).
Proof.
  intros [(m & Hm & E1 & E2 & E3 & F) Hn] Hv1 Hv2 Hf. unfold ResolveReview. rewrite Hv1, Hv2. cbn [with_check].
  assert (E : ResolveReview_tx rid actor i now (db s)
              = Ok (({| rr_Duplicate := true; rr_Events := events; rr_Retry := None |}, false), db s)).
  { unfold ResolveReview_tx, mbind, Tx_bind, tx_get. unfold loadStoredMessage. rewrite Hm.
    cbn [fmap option_fmap option_map]. unfold resolve_duplicate, mbind, Tx_bind.
    cbn [stored_of sm_kind sm_actorUID sm_payloadHash sm_id].
    rewrite bool_decide_eq_true_2 by done. rewrite E2, E3, Z.eqb_refl, String.eqb_refl. cbn [andb tx_guard mret Tx_ret].
    by rewrite (load_links _ _ _ _ F Hn). }
  unfold transactConditional. rewrite E. destruct s. simpl in Hf |- *. by rewrite Hf.
Qed.

(** ** The links a resolution leaves *)

Fixpoint link_rows (mid : Z) (rid : RoomID) (i : Z) (l : list DurableEvent) : list RecoveryEventRow :=
  match l with
  | [] => []
  | e :: r => {| re_message := mid; re_ordinal := i; re_room := rid; re_seq := ev_Seq e |} :: link_rows mid rid (i + 1) r
  end.

Lemma link_events_post mid rid i l d :
  wp (link_events mid rid i l) (fun _ d' => recovery_result_events d' = recovery_result_events d ++ link_rows mid rid i l /\
        room_events d' = room_events d /\ messages d' = messages d) d.
Proof.
  revert i d. induction l as [|e l IH]; intros i d; cbn [link_events link_rows].
  - apply wp_ret. by rewrite app_nil_r.
  - wp_steps. eapply wp_mono; [apply IH|]. simpl. intros _ d' (E1 & E2 & E3). split_and!; [|done..].
    by rewrite E1, <- app_assoc.
Qed.

Lemma link_rows_elem mid rid i l x :
  x ∈ link_rows mid rid i l -> re_message x = mid /\ re_room x = rid /\ i <= re_ordinal x.
Proof.
  revert i. induction l as [|e l IH]; intros i; simpl.
  - intros H. by apply not_elem_of_nil in H.
  - intros [-> |H]%elem_of_cons; [simpl; split_and!; lia || done|]. apply IH in H as (? & ? & ?). split_and!; [done|done|lia].
Qed.
Lemma link_rows_sorted mid rid i l : StronglySorted (key_lt re_ordinal) (link_rows mid rid i l).
Proof.
  revert i. induction l as [|e l IH]; intros i; simpl; constructor; [done|].
  apply Forall_forall. intros x (_ & _ & H)%link_rows_elem. unfold key_lt. simpl. lia.
Qed.

Lemma link_rows_filter mid rid i l :
  List.filter (fun x => (re_message x =? mid) && in_room re_room rid x) (link_rows mid rid i l) = link_rows mid rid i l.
Proof.
  revert i. induction l as [|e l IH]; intros i; simpl; [done|].
  unfold in_room at 1. simpl. rewrite Z.eqb_refl, String.eqb_refl. simpl. by rewrite IH.
Qed.

Lemma no_links_filter mid rid d : no_links mid d ->
  List.filter (fun x => (re_message x =? mid) && in_room re_room rid x) (recovery_result_events d) = [].
Proof.
  unfold no_links. induction (recovery_result_events d) as [|x l IH]; intros H; simpl; [done|].
  assert (Hx : re_message x <> mid) by (apply H; left). apply Z.eqb_neq in Hx. rewrite Hx. simpl. apply IH.
  intros y Hy. apply H. by right.
Qed.

Lemma linked_events d d' mid rid l :
  no_links mid d -> recovery_result_events d' = recovery_result_events d ++ link_rows mid rid 0 l ->
  Forall (fun e => find_event d' rid (ev_Seq e) = Some e) l ->
  Forall2 (link_found d' rid) (recovery_links d' rid mid) l.
Proof.
  intros Hn E F. unfold recovery_links. rewrite E, List.filter_app, (no_links_filter _ _ _ Hn), link_rows_filter. simpl.
  rewrite order_by_sorted by apply link_rows_sorted. clear E. generalize 0 as i.
  induction F as [|e l He F IH]; intros i; simpl; constructor; [done|apply IH].
Qed.

Lemma no_links_evolve mid d d' : evolve d d' -> mid <= messages_autoinc d -> no_links mid d -> no_links mid d'.
Proof.
  intros [_ _ _ _ _ (new & E & F)] Hm Hn l. rewrite E. intros [Hl|Hl]%elem_of_app; [by apply Hn|].
  rewrite Forall_forall in F. specialize (F l Hl). simpl in F. lia.
Qed.

(** ** Events a resolution appends *)

Definition found (d : DB) (rid : RoomID) (e : DurableEvent) : Prop := find_event d rid (ev_Seq e) = Some e.

Lemma insertEventAt_found rid seq actor kind payload now d :
  wp (insertEventAt rid seq actor kind payload now) (fun e d' => found d' rid e) d.
Proof.
  eapply wp_mono; [apply wp_and; [apply insertEventAt_post|]|].
  - apply (wp_intro _ (fun e _ => ev_Seq e = seq)). unfold insertEventAt. intros e d'.
    intros (? & ? & _ & [= <- _])%bind_ok. done.
  - cbv beta. intros e d' [[He _] E]. unfold found. by rewrite E.
Qed.

(** What a body leaves, with the invariant from the state it started in. *)
Lemma appendEvent_found d rid actor kind payload now :
  wf None None d -> wp (appendEvent rid actor kind payload now) (fun e d' => inv0 d d' /\ found d' rid e) d.
Proof.
  intros W. apply wp_and; [by apply appendEvent_inv, inv_refl|].
  unfold appendEvent. wp_step. apply wp_intro. intros seq d1 _. apply insertEventAt_found.
Qed.
Lemma insertRecoveryPrompt_found d rid actor cid instr src now :
  wf None None d -> wp (insertRecoveryPrompt rid actor cid instr src now) (fun e d' => inv0 d d' /\ found d' rid e) d.
Proof.
  intros W. apply wp_and; [by apply insertRecoveryPrompt_keeps, inv_refl|].
  unfold insertRecoveryPrompt. do 5 (wp_step; apply wp_intro; intros ? ? _). apply insertEventAt_found.
Qed.
Lemma found_evolve d d' rid e : evolve d d' -> found d rid e -> found d' rid e.
Proof. apply find_event_evolve. Qed.

Lemma terminalized_events d rid actor i t c k p now (continue_ : bool) :
  wf None None d -> under_review d rid t ->
  wp (terminalizeReviewed rid (sm_id t) c now;;
      e ← appendEvent rid (ac_UID actor) k p now;
      if continue_ then
        q ← insertRecoveryPrompt rid actor (ri_ReplacementMessageID i) (ri_Instruction i) (sm_id t) now;
        mret ([e; q], @None RetryCommand)
      else mret ([e], None)) (fun r d' => Forall (found d' rid) r.1) d.
Proof.
  intros W U. wp_step. eapply wp_mono; [apply (terminalize_keeps d); [by apply inv_refl|done]|]. cbv beta. intros _ d1 [W1 _].
  wp_step. eapply wp_mono; [by apply appendEvent_found|]. cbv beta. intros e d2 [[W2 _] He].
  destruct continue_; [|by repeat constructor].
  wp_step. eapply wp_mono; [by apply insertRecoveryPrompt_found|]. cbv beta. intros q d3 [[_ V3] Hq].
  apply wp_ret. repeat constructor; [|done]. by eapply found_evolve.
Qed.

Lemma resolve_action_events d rid actor i t now :
  wf None None d -> under_review d rid t -> wp (resolve_action rid actor i t now) (fun r d' => Forall (found d' rid) r.1) d.
Proof.
  intros W U. unfold resolve_action. destruct (ri_Action i) eqn:Ea; [| | |done].
  - wp_step. eapply (wp_mono _ (fun _ d' => wf None None d')).
    + destruct (contains _ _) eqn:Ek; wp_step.
      * eapply wp_mono; [apply (resetPrompt_keeps d); [by apply inv_refl|done|done]|]. by intros _ d' [? _].
      * eapply wp_mono; [apply (resetControl_keeps d); [by apply inv_refl|done|done]|]. cbv beta. intros _ d1 H1.
        wp_step. eapply wp_framed; [auto with store|exact H1|]. by intros ? d2 _ [? _].
    + intros retry d1 W1. wp_step. eapply wp_mono; [by apply appendEvent_found|]. cbv beta. intros e d2 [_ He].
      by repeat constructor.
  - by apply (terminalized_events d rid actor i t _ _ _ now false).
  - by apply (terminalized_events d rid actor i t _ _ _ now true).
Qed.

Lemma insert_message_links rid cid actor kind body hash st seq now d :
  wp (insert_message rid cid actor kind body hash st seq now)
     (fun _ d' => recovery_result_events d' = recovery_result_events d) d.
Proof. unfold insert_message. by wp_steps. Qed.

(** The recorded command of a resolution: its row and that nothing links to it yet. *)
Record recording (d : DB) (rid : RoomID) (cid : ClientMessageID) (actor : UID) (hash : string) (mid : Z) : Prop :=
  { rg_row : exists m, find_message d rid cid = Some m /\ msg_kind m = KRecover /\ msg_actor m = actor /\
               msg_hash m = hash /\ msg_id m = mid;
    rg_bound : mid <= messages_autoinc d;
    rg_links : no_links mid d }.

Lemma recording_evolve d d' rid cid actor hash mid :
  evolve d d' -> recording d rid cid actor hash mid -> recording d' rid cid actor hash mid.
Proof.
  intros V [(m & Hm & E1 & E2 & E3 & E4) Hb Hl]. split.
  - destruct (find_message_evolve _ _ _ _ _ V Hm) as (m' & Hm' & R).
    pose proof (msg_evolves_fields _ _ R) as (F1 & _ & _ & F4 & F5 & _ & F7 & _).
    exists m'. split_and!; congruence.
  - pose proof (ev_autoinc _ _ V). lia.
  - by eapply no_links_evolve.
Qed.

Lemma insert_recording d0 d rid cid actor body hash seq now :
  inv (Some (rid, seq)) None d0 d -> allocated rid seq d ->
  wp (insert_message rid cid actor KRecover body hash RequestCompleted seq now)
     (fun mid d' => inv (Some (rid, seq)) None d0 d' /\ recording d' rid cid actor hash mid) d.
Proof.
  intros H Ha. eapply wp_mono; [apply wp_and; [by apply insert_message_inv|apply wp_and;
    [apply insert_message_post|apply insert_message_links]]|].
  cbv beta. intros mid d' ((Hi & (x & Hx & <- & _) & Hn) & (m & Hm & E1 & E2 & E3 & E4 & _) & El).
  split; [exact Hi|]. split; [by exists m|by apply (wf_autoinc _ _ _ (proj1 Hi))|].
  intros l Hl. rewrite El in Hl. apply (wf_links _ _ _ (proj1 H)) in Hl. lia.
Qed.

Lemma linking_post rid cid actor hash mid target a l d (r : RecoveryResult * bool) :
  recording d rid cid actor hash mid -> Forall (found d rid) l -> l <> [] ->
  wp (insert_recovery_result mid rid target a;; link_events mid rid 0 l;; mret r)
     (fun r' d' => r' = r /\ resolved d' rid cid actor hash l) d.
Proof.
  intros [(m & Hm & E1 & E2 & E3 & E4) _ Hl] F Hn.
  wp_step. eapply wp_mono; [apply frame_insert_recovery_result|]. cbv beta. intros _ d1 [=Er Em Emsg Eb Ee Ea El].
  wp_step. eapply wp_mono; [apply link_events_post|]. cbv beta. intros _ d2 (E5 & E6 & E7).
  apply wp_ret. split; [done|]. split; [|done]. exists m. split_and!; [|done..|].
  - rewrite <- Hm. apply find_message_eq. by rewrite E7.
  - rewrite E4. apply (linked_events d1); [unfold no_links; by rewrite El|done|].
    eapply Forall_impl; [exact F|]. unfold found, find_event. intros e. by rewrite E6, Ee.
Qed.

Lemma resolve_new_post rid actor i now d :
  wf None None d ->
  wp (resolve_new rid actor i now)
     (fun r d' => resolved d' rid (ri_ClientMessageID i) (ac_UID actor) (recover_hash actor i) (rr_Events r.1)) d.
Proof.
  intros W. unfold resolve_new.
  wp_step. eapply wp_framed; [auto with store|exact (inv_refl _ _ _ W)|]. intros _ d1 _ H1. wp_step. apply wp_get.
  destruct (loadStoredMessage d1 _ _) as [t|] eqn:E; [|done].
  apply loadStoredMessage_elem in E as (r & Hr & -> & <- & _).
  wp_step. apply wp_guard. intros [G1 G2]%andb_prop. apply bool_decide_eq_true_1 in G1.
  assert (Hu : under_review d1 (msg_room r) (stored_of d1 r)) by (split; [by exists r|done]).
  set (t := stored_of d1 r) in *. clearbody t. wp_step. apply wp_guard. intros _. destruct Hu as [Hu Hb].
  wp_step. eapply wp_mono; [apply wp_and; [exact (allocateSeq_inv _ _ _ _ H1)|apply grows_allocateSeq]|].
  cbv beta. intros seq d2 [[H2 Ha] Gr2]. apply (the_message_grows _ _ _ _ _ _ Gr2) in Hu.
  wp_step. eapply wp_mono; [apply wp_and; [by eapply insert_recording|apply grows_insert_message]|].
  cbv beta. intros mid d3 [(H3 & Hg) G3]. apply (the_message_grows _ _ _ _ _ _ G3) in Hu.
  wp_step. eapply wp_mono; [apply wp_and; [apply wp_and;
    [exact (insertEventAt_inv _ _ _ _ _ _ _ _ _ (inv_refl _ _ _ (proj1 H3)))|apply insertEventAt_found]|apply grows_insertEventAt]|].
  cbv beta. intros e d4 [[H4 He] G4]. apply (the_message_grows _ _ _ _ _ _ G4) in Hu.
  apply (recording_evolve _ _ _ _ _ _ _ (proj2 H4)) in Hg. destruct H4 as [W4 _].
  wp_step. eapply wp_mono; [apply wp_and; [apply (resolve_action_keeps d4); [by apply inv_refl|by split]|
    apply resolve_action_events; [done|by split]]|].
  intros [more retry] d5 [[_ V5] Hf]. cbn [fst] in Hf. cbv iota.
  assert (F : Forall (found d5 (msg_room r)) (e :: more)) by (constructor; [by eapply found_evolve|done]).
  clear -V5 Hg F. apply (recording_evolve _ _ _ _ _ _ _ V5) in Hg.
  eapply wp_mono; [by apply (linking_post _ (ri_ClientMessageID i) (ac_UID actor) (recover_hash actor i))|]. by intros r' d6 [-> H].
Qed.

Lemma ResolveReview_inv s now rid actor i s' r :
  wf None None (db s) -> ResolveReview s now rid actor i = (s', Ok r) -> rr_Duplicate r = false ->
  RecoverInput_Validate i = Ok tt /\ validateRoomID rid = Ok tt /\
  resolved (db s') rid (ri_ClientMessageID i) (ac_UID actor) (recover_hash actor i) (rr_Events r).
Proof.
  intros W. unfold ResolveReview. intros [V1 [V2 H]%with_check_inv]%with_check_inv Hd. split_and!; [done|done|].
  apply transactConditional_cases in H. destruct H as (w & d & H & -> & _). simpl.
  unfold ResolveReview_tx in H. apply bind_ok in H as (d0 & ? & [= <- <-] & H).
  destruct (loadStoredMessage (db s) rid _) as [m|].
  - unfold resolve_duplicate in H. apply bind_ok in H as (? & ? & _ & (? & ? & _ & [= <- _ _])%bind_ok). done.
  - exact (wp_ok _ _ _ _ _ (resolve_new_post _ _ _ _ _ W) H).
Qed.

(** ** The log as a range of sequence numbers *)

Lemma fmap_bfilter {A B} (g : A -> B) (p : B -> bool) (l : list A) :
  g <$> List.filter (fun x => p (g x)) l = List.filter p (g <$> l).
Proof. induction l as [|x l IH]; simpl; [done|]. destruct (p (g x)); [|done]. cbn. by f_equal. Qed.

Lemma seqZ_sorted m n : StronglySorted Z.lt (seqZ m n).
Proof.
  destruct (decide (n <= 0)) as [H|H]; [rewrite seqZ_nil by lia; constructor|].
  remember (Z.to_nat n) as k eqn:Ek. revert m n H Ek.
  induction k as [|k IH]; intros m n H Ek; [lia|]. rewrite seqZ_cons by lia. constructor.
  - destruct (decide (Z.pred n <= 0)); [rewrite seqZ_nil by lia; constructor|]. apply IH; lia.
  - apply Forall_forall. intros x Hx%elem_of_seqZ. lia.
Qed.

Lemma sorted_ext (l l' : list Z) :
  StronglySorted Z.lt l -> StronglySorted Z.lt l' -> (forall x, x ∈ l <-> x ∈ l') -> l = l'.
Proof.
  intros H H' E. apply (StronglySorted_unique_strong Z.lt).
  - intros x y _ _ ? ?. lia.
  - done.
  - done.
  - assert (N : forall k, StronglySorted Z.lt k -> NoDup k).
    { induction 1 as [|x k Hk IH F]; constructor; [|done]. intros Hx. rewrite Forall_forall in F. specialize (F x Hx). lia. }
    apply NoDup_Permutation; auto.
Qed.

Lemma range_filter after through n :
  0 <= after ->
  List.filter (in_range after through) (seqZ 1 n)
  = seqZ (after + 1) ((if through =? 0 then n else Z.min through n) - after).
Proof.
  intros Ha. apply sorted_ext; [apply StronglySorted_bfilter, seqZ_sorted|apply seqZ_sorted|].
  intros x. rewrite filter_elem_of, !elem_of_seqZ. unfold in_range.
  rewrite andb_true_iff, orb_true_iff, Z.ltb_lt, Z.eqb_eq, Z.leb_le. destruct (Z.eqb_spec through 0); lia.
Qed.

Lemma firstn_seqZ k m n : 0 <= k -> firstn (Z.to_nat k) (seqZ m n) = seqZ m (Z.min k n).
Proof.
  intros Hk. destruct (decide (k <= n)) as [H|H].
  - rewrite Z.min_l by done. replace n with (k + (n - k)) at 1 by lia. rewrite seqZ_app by lia.
    rewrite firstn_app, length_seqZ, Nat.sub_diag, firstn_O, app_nil_r. apply firstn_all2. by rewrite length_seqZ.
  - rewrite Z.min_r by lia. apply firstn_all2. rewrite length_seqZ. lia.
Qed.

Lemma room_events_sorted d r : wf None None d -> r ∈ rooms d ->
  StronglySorted (key_lt event_seq) (List.filter (in_room e_room (r_id r)) (room_events d)).
Proof.
  intros W Hr. pose proof (wf_log _ _ _ W r Hr) as L. simpl in L. rewrite app_nil_r in L.
  pose proof (seqZ_sorted 1 (r_next_seq r - 1)) as S. rewrite <- L in S. unfold log_seqs in S.
  clear L W. induction (List.filter _ _) as [|e l IH]; constructor.
  - apply IH. by inversion S.
  - inversion S as [|? ? _ F]; subst. rewrite Forall_fmap in F. exact F.
Qed.

Lemma room_log_seqs d r : wf None None d -> r ∈ rooms d -> ev_Seq <$> room_log d (r_id r) = seqZ 1 (r_next_seq r - 1).
Proof.
  intros W Hr. unfold room_log. rewrite order_by_sorted by (by apply room_events_sorted).
  rewrite <- list_fmap_compose. pose proof (wf_log _ _ _ W r Hr) as L. simpl in L. by rewrite app_nil_r in L.
Qed.

(** ** Properties *)

(** The events of a room are numbered 1, 2, 3, .. without a gap or a
    duplicate.  In every database the store can reach, a successful [Events]
    query after position [after] returns exactly the consecutive range of
    sequence numbers that starts at [after + 1] and ends at the upper bound, the
    latest sequence number or the limit, whichever comes first. *)
Theorem store_events_consecutive l h f rid after through limit es :
  Events (mkStore (run empty_db l) h f) rid after through limit = Ok es -> 0 <= after ->
  exists latest, LatestSeq (mkStore (run empty_db l) h f) rid = Ok latest /\
    ev_Seq <$> es = seqZ (after + 1) (Z.min limit ((if through =? 0 then latest else Z.min through latest) - after)).
Proof.
  intros H Ha. pose proof (reachable_wf l) as W. unfold Events, LatestSeq in *.
  destruct (validateRoomID rid) as [[]|]; [|done]. simpl in H |- *.
  destruct ((limit <=? 0) || _) eqn:G; [done|]. simpl in H. bool_props.
  destruct (find_room (run empty_db l) rid) as [r|] eqn:E; [|done]. injection H as <-.
  apply find_room_elem in E as [Hr <-]. exists (r_next_seq r - 1). split; [done|].
  change (fun e => in_range after through (ev_Seq e)) with (fun e => (in_range after through) (ev_Seq e)).
  rewrite <- firstn_map. rewrite <- firstn_seqZ by lia. rewrite <- range_filter by done.
  rewrite <- (room_log_seqs _ _ W Hr). f_equal. apply fmap_bfilter.
Qed.

(** A room with two members, two prompts, a finished turn and a reviewed one. *)
Definition demo_room : RoomID := "room".
Definition ann : Actor := {| ac_UID := 7; ac_Name := "ann" |}.
Definition bob : Actor := {| ac_UID := 8; ac_Name := "bob" |}.
Definition id_a : ClientMessageID := "0123456789abcdef0123456789abcdef".
Definition id_b : ClientMessageID := "00000000000000000000000000000001".
Definition id_c : ClientMessageID := "00000000000000000000000000000002".
Definition demo_seed : RoomSeed :=
  {| sd_ID := demo_room; sd_DisplayName := "Room"; sd_HostID := "host"; sd_ProjectRoot := "/p"; sd_ExecutionOwnerUID := 7;
     sd_Members := [{| mb_UID := 7; mb_Name := "ann" |}; {| mb_UID := 8; mb_Name := "bob" |}] |}.
Definition submit_a : SubmitInput := {| si_TaskID := 0; si_ClientMessageID := id_a; si_Text := "hello" |}.
Definition submit_b : SubmitInput := {| si_TaskID := 0; si_ClientMessageID := id_b; si_Text := "again" |}.
Definition review : ReviewReason :=
  {| rv_Code := "delivery-unknown"; rv_DetailDigest := "0123456789abcdef0123456789abcdef0123456789abcdef0123456789abcdef" |}.
Definition retry_a : RecoverInput :=
  {| ri_ClientMessageID := id_c; ri_TargetMessageID := id_a; ri_Action := RecoveryRetry; ri_ReplacementMessageID := "";
     ri_Instruction := "" |}.
Definition demo_calls : list call :=
  map ok_call [OpInitializeRoom 1 demo_seed; OpAcceptMessage 2 demo_room ann submit_a;
               OpAcceptMessage 3 demo_room bob submit_b; OpBeginDispatch demo_room id_a;
               OpMarkNeedsReview 4 demo_room id_a review].

Lemma store_events_consecutive_witness :
  exists es, Events (mkStore (run empty_db demo_calls) None None) demo_room 1 0 10 = Ok es /\ length es = 2%nat /\
    exists latest, LatestSeq (mkStore (run empty_db demo_calls) None None) demo_room = Ok latest /\
      ev_Seq <$> es = seqZ (1 + 1) (Z.min 10 ((if 0 =? 0 then latest else Z.min 0 latest) - 1)).
Proof.
  eexists. split; [vm_compute; reflexivity|]. split; [reflexivity|].
  eapply (store_events_consecutive demo_calls None None demo_room 1 0 10); [vm_compute; reflexivity|lia].
Defined.

(** C2: Every database reachable from the empty one by repository calls, with
    any outcome of the commit hook and the commit, is well formed: sequence
    numbers are gapless per room, message ids and sequence numbers are strictly
    increasing in table order, client ids are unique in a room, every message
    belongs to a room and a member and is in a state its kind allows, and
    messages and bindings correspond with equal states. *)
Theorem store_reachable_well_formed l : wf None None (run empty_db l).
Proof. apply reachable_wf. Qed.

Lemma Forall2_elem_l {A B} (R : A -> B -> Prop) l l' x : Forall2 R l l' -> x ∈ l -> exists y, y ∈ l' /\ R x y.
Proof.
  induction 1 as [|a b l l' H F IH]; intros Hx; [by apply not_elem_of_nil in Hx|].
  apply elem_of_cons in Hx as [->|Hx]; [exists b; split; [left|done]|].
  destruct (IH Hx) as (y & Hy & ?). exists y. split; [by right|done].
Qed.

Lemma bfilter_prefix {A} (p : A -> bool) (l l' : list A) : l `prefix_of` l' -> List.filter p l `prefix_of` List.filter p l'.
Proof. intros [k ->]. rewrite List.filter_app. by apply prefix_app_r. Qed.

Lemma room_log_unordered d rid : wf None None d ->
  room_log d rid = e_event <$> List.filter (in_room e_room rid) (room_events d).
Proof.
  intros W. unfold room_log. f_equal. destruct (decide (rid ∈ r_id <$> rooms d)) as [H|H].
  - apply list_elem_of_fmap in H as (r & -> & Hr). by apply order_by_sorted, room_events_sorted.
  - replace (List.filter (in_room e_room rid) (room_events d)) with (@nil EventRow); [done|].
    symmetry. destruct (List.filter _ _) as [|e k] eqn:E; [done|].
    assert (He : e ∈ List.filter (in_room e_room rid) (room_events d)) by (rewrite E; left).
    apply filter_elem_of in He as [He Er%in_roomP]. apply (wf_event_rooms _ _ _ W) in He. by rewrite Er in He.
Qed.

(** C3: History is append-only.  After any further calls the log of every room
    extends the log it had; every message is still stored with the same
    identity, author, kind, body, hash and sequence number, and its state moved
    along the life-cycle graph; a message in a terminal state is unchanged.  Every
    member is still there with the same uid, name and room, before those who came
    later, and so is every room. *)
Theorem store_history_preserved l l' :
  let d := run empty_db l in
  let d' := run d l' in
  (forall rid, room_log d rid `prefix_of` room_log d' rid) /\
  (forall m, m ∈ messages d -> exists st, set_msg_state st m ∈ messages d' /\
     rtc (legal_step (msg_kind m)) (msg_state m) st /\ (terminal (msg_state m) = true -> st = msg_state m)) /\
  members d `prefix_of` members d' /\ (r_id <$> rooms d) `prefix_of` (r_id <$> rooms d').
Proof.
  intros d d'. pose proof (run_inv d l' (reachable_wf l)) as [W V]. fold d' in W, V.
  split; [|split; [|split; [apply (ev_members _ _ V)|apply (ev_rooms _ _ V)]]].
  - intros rid. rewrite (room_log_unordered d), (room_log_unordered d') by (done || apply reachable_wf).
    destruct (bfilter_prefix (in_room e_room rid) _ _ (ev_log _ _ V)) as [k ->]. rewrite fmap_app. by apply prefix_app_r.
  - intros m Hm. destruct (ev_msgs _ _ V) as (ms & new & E & F).
    destruct (Forall2_elem_l _ _ _ _ F Hm) as (m' & Hm' & [R1 R2]). exists (msg_state m').
    split_and!; [|done|intros Ht; by eapply terminal_final].
    rewrite E, R1. apply elem_of_app. by left.
Qed.

(** C4: [AcceptMessage] is idempotent.  Once a submission was accepted, then
    after any further calls the same submission is answered from the store: same
    message id, sequence number and durable event, marked as a duplicate, with a
    state reached along the life cycle, and the store does not change. *)
Theorem accept_message_idempotent l s now rid actor i s' a l' h now' :
  db s = run empty_db l -> AcceptMessage s now rid actor i = (s', Ok a) ->
  let t := mkStore (run (db s') l') h None in
  exists a', AcceptMessage t now' rid actor i = (t, Ok a') /\
    acc_MessageID a' = acc_MessageID a /\ acc_Seq a' = acc_Seq a /\ acc_Event a' = acc_Event a /\
    acc_Duplicate a' = true /\ rtc (legal_step KPrompt) (acc_State a) (acc_State a').
Proof.
  intros Hs H t. unfold AcceptMessage in H. pose proof H as [V Ha]%with_check_inv. apply accept_inv in Ha as [Vr Ha].
  assert (W : wf None None (db s')).
  { replace s' with (exec s (OpAcceptMessage now rid actor i)) by (cbn; unfold AcceptMessage; by rewrite H).
    apply exec_ok. rewrite Hs. apply reachable_wf. }
  destruct (accepted_evolve _ (db t) _ _ _ _ _ _ (proj2 (run_inv _ l' W)) Ha) as (st & R & Ha').
  unfold AcceptMessage. rewrite V. cbn [with_check].
  destruct (accept_again t now' rid actor _ KPrompt (si_Text i) _ RequestQueued true "message/accepted" (si_TaskID i) _ Ha' Vr eq_refl)
    as (a' & E & F1 & F2 & F3 & F4 & F5 & F6).
  exists a'. rewrite E. split_and!; try done. by rewrite F4.
Qed.

Definition demo_store (l : list store_op) : Store := mkStore (run empty_db (map ok_call l)) None None.

Lemma accept_message_idempotent_witness :
  let s := demo_store [OpInitializeRoom 1 demo_seed] in
  exists s' a, AcceptMessage s 2 demo_room ann submit_a = (s', Ok a) /\ acc_Duplicate a = false /\
    let t := mkStore (run (db s') [ok_call (OpBeginDispatch demo_room id_a)]) None None in
    exists a', AcceptMessage t 9 demo_room ann submit_a = (t, Ok a') /\
      acc_MessageID a' = acc_MessageID a /\ acc_Seq a' = acc_Seq a /\ acc_Event a' = acc_Event a /\
      acc_Duplicate a' = true /\ rtc (legal_step KPrompt) (acc_State a) (acc_State a').
Proof.
  intros s. eexists _, _. split; [vm_compute; reflexivity|]. split; [reflexivity|].
  eapply (accept_message_idempotent [ok_call (OpInitializeRoom 1 demo_seed)] s 2); [reflexivity|].
  vm_compute. reflexivity.
Defined.

(** A client id cannot be reused for another command.  When the room has a
    message with this client id whose kind, author or canonical hash differs,
    [AcceptControl] is refused as an idempotency conflict and nothing changes. *)
Theorem accept_control_conflict s now rid actor i m :
  ControlInput_Validate i = Ok tt -> validateRoomID rid = Ok tt ->
  find_message (db s) rid (ci_ClientMessageID i) = Some m ->
  msg_kind m <> control_kind (ci_Kind i) \/ msg_actor m <> ac_UID actor \/ msg_hash m <> control_hash actor i ->
  AcceptControl s now rid actor i = (s, Err (Sentinel ErrIdempotencyConflict)).
Proof.
  intros V Vr Hm Hd. unfold AcceptControl, accept. rewrite V, Vr. cbn [with_check].
  unfold transactConditional, accept_tx, mbind, Tx_bind, tx_get, loadStoredMessage. rewrite Hm.
  cbn [fmap option_fmap option_map]. unfold accept_duplicate, mbind, Tx_bind.
  cbn [stored_of sm_kind sm_actorUID sm_payloadHash].
  replace (bool_decide _ && _ && _) with false; [done|]. symmetry. rewrite !andb_false_iff.
  destruct Hd as [Hd|[Hd|Hd]].
  - left. left. by apply bool_decide_eq_false.
  - left. right. by apply Z.eqb_neq.
  - right. by apply String.eqb_neq.
Qed.

Definition steer_a : ControlInput :=
  {| ci_ClientMessageID := id_a; ci_Kind := ControlSteer; ci_ExpectedTurnID := "t1"; ci_Text := "go" |}.
Lemma accept_control_conflict_witness :
  let s := demo_store [OpInitializeRoom 1 demo_seed; OpAcceptMessage 2 demo_room ann submit_a] in
  AcceptControl s 3 demo_room ann steer_a = (s, Err (Sentinel ErrIdempotencyConflict)).
Proof.
  intros s. eapply (accept_control_conflict s 3 demo_room ann steer_a).
  - vm_compute. reflexivity.
  - vm_compute. reflexivity.
  - vm_compute. reflexivity.
  - left. discriminate.
Defined.

(** [ResolveReview] is idempotent.  Once a resolution was recorded, then after
    any further calls the same request returns exactly the events the first call
    returned, asks for no retry again, and does not change the store. *)
Theorem resolve_review_idempotent l s now rid actor i s' r l' h now' :
  db s = run empty_db l -> ResolveReview s now rid actor i = (s', Ok r) -> rr_Duplicate r = false ->
  let t := mkStore (run (db s') l') h None in
  ResolveReview t now' rid actor i = (t, Ok {| rr_Duplicate := true; rr_Events := rr_Events r; rr_Retry := None |}).
Proof.
  intros Hs H Hd t. assert (W0 : wf None None (db s)) by (rewrite Hs; apply reachable_wf).
  pose proof (ResolveReview_inv _ _ _ _ _ _ _ W0 H Hd) as (V1 & V2 & R).
  assert (W : wf None None (db s')).
  { replace s' with (exec s (OpResolveReview now rid actor i)) by (cbn; by rewrite H). by apply exec_ok. }
  apply resolve_again; [|done..]. eapply resolved_evolve; [exact W|exact (proj2 (run_inv _ l' W))|exact R].
Qed.

Lemma resolve_review_idempotent_witness :
  let s := mkStore (run empty_db demo_calls) None None in
  exists s' r, ResolveReview s 5 demo_room bob retry_a = (s', Ok r) /\ length (rr_Events r) = 2%nat /\
    let t := mkStore (run (db s') [ok_call (OpBeginDispatch demo_room id_a)]) None None in
    ResolveReview t 9 demo_room bob retry_a = (t, Ok {| rr_Duplicate := true; rr_Events := rr_Events r; rr_Retry := None |}).
Proof.
  intros s. eexists _, _. split; [vm_compute; reflexivity|]. split; [reflexivity|].
  eapply (resolve_review_idempotent demo_calls s 5); [reflexivity|vm_compute; reflexivity|reflexivity].
Defined.

(** ** Failed commits *)

Lemma transactConditional_fault {A} s (w : StoreTx (A * bool)) e : commitFault s = Some e -> (transactConditional s w).1 = s.
Proof.
  intros H. unfold transactConditional. destruct (w (db s)) as [[[a wr] d]|]; [|done]. rewrite H.
  by destruct wr; [destruct (beforeCommit s)|].
Qed.
Lemma transact_fault {A} s (w : StoreTx A) e : commitFault s = Some e -> (transact s w).1 = s.
Proof. apply transactConditional_fault. Qed.
Lemma with_check_fault {A} s c (k : Store * result error A) : k.1 = s -> (with_check s c k).1 = s.
Proof. by destruct c as [[]|]. Qed.

Lemma autocommit_fault {A} s (w : StoreTx A) e : commitFault s = Some e -> (autocommit s w).1 = s.
Proof. intros H. unfold autocommit. destruct (w (db s)) as [[a d]|]; [|done]. by rewrite H. Qed.

Lemma exec_fault s op e : commitFault s = Some e -> exec s op = s.
Proof.
  intros F. destruct op; cbn [exec];
    unfold InitializeRoom, AcceptMessage, AppendNote, AcceptControl, accept, BeginDispatch, FinishControl, FailDispatch,
      BindRunningTurn, RecordCompletedItem, FinishTurn, MarkNeedsReview, Connected, Ack, Disconnected, CloseStale,
      SaveRuntimeCheckpoint, BindThread, MarkThreadNeedsRepair, SetRoomStatus, RepairThread, ResolveReview,
      BeginPrivateTurn, EndPrivateTurn, PrivateTurns, ResetUnusedThread, ChangeTask, RequestJoin, DecideJoinRole, DecideJoin, decideJoin;
    repeat apply with_check_fault;
    try solve [exact (transact_fault _ _ _ F) | exact (autocommit_fault _ _ _ F) | exact (transactConditional_fault _ _ _ F)].
  - destruct (item_payload _); [exact (transactConditional_fault _ _ _ F)|done].
  - destruct (List.find _ _); [|done]. destruct (added_turns _ _) as [a|]; [|done].
    pose proof (transact_fault s (EndPrivateTurn_tx rid th a) e F) as E. unfold EndPrivateTurn.
    by destruct (transact s _).
  - destruct (validTaskRequest q); [|done]. destruct (existsb _ _); cbn [negb]; [|done]. exact (transact_fault _ _ _ F).
  - repeat case_match; done || exact (transact_fault _ _ _ F).
  - repeat case_match; done || exact (transact_fault _ _ _ F).
Qed.

(** A failed commit has no effect.  While the engine refuses every commit,
    as it does for a process that is about to die, no sequence of operations
    changes the database: it is exactly what it was. *)
Theorem failed_commit_atomic d l : Forall (fun c => is_Some (c_fault c)) l -> run d l = d.
Proof.
  unfold run. induction 1 as [|c l [e Hf] _ IH]; [done|]. simpl. unfold step at 2.
  by rewrite (exec_fault (mkStore d (c_hook c) (c_fault c)) _ e).
Qed.

Lemma failed_commit_atomic_witness :
  let c := {| c_hook := None; c_fault := Some (ErrText "disk full"); c_op := OpAcceptMessage 2 demo_room ann submit_a |} in
  let d := run empty_db [ok_call (OpInitializeRoom 1 demo_seed)] in
  db (exec (mkStore d None None) (c_op c)) <> d /\ run d [c; c] = d.
Proof.
  intros c d. split; [by vm_compute|]. apply (failed_commit_atomic d [c; c]). by repeat constructor.
Defined.

(** ** The recovery image *)

Section recovery.
Context (d : DB) (W : wf None None d).

Lemma find_binding_of m :
  m ∈ messages d -> has_binding (msg_kind m) = true ->
  exists b, find_binding d (msg_room m) (msg_id m) = Some b /\ bd_state b = msg_state m.
Proof.
  intros Hm Hk. destruct (wf_msg_bd _ _ _ W m Hm Hk) as (b & Hb & E); [done|].
  destruct (wf_bd_msg _ _ _ W b Hb) as (x & Hx & E1 & E2 & _ & E4).
  assert (x = m) as -> by (eapply wf_message_unique; eauto; congruence).
  exists b. split; [|done]. unfold find_binding.
  destruct (List.find _ _) as [c|] eqn:F.
  - apply find_some_elem in F as [Hc Ec]. unfold is_binding in Ec. bool_props.
    f_equal. eapply (NoDup_fmap_inj bd_message); [apply (wf_bd_unique _ _ _ W)|done..|congruence].
  - eapply find_none_elem in F; [|exact Hb]. unfold is_binding, in_room in F.
    by rewrite <- E2, <- E1, String.eqb_refl, Z.eqb_refl in F.
Qed.

Lemma joined_some m : m ∈ messages d -> has_binding (msg_kind m) = true ->
  exists b, joined d m = Some b /\ bd_state b = msg_state m.
Proof.
  intros Hm Hk. destruct (find_binding_of m Hm Hk) as (b & Hb & E). exists b. unfold joined.
  by rewrite Hb, bool_decide_eq_true_2.
Qed.

Lemma find_author m : m ∈ messages d ->
  exists u, find_member d (msg_room m) (msg_actor m) = Some u /\ m_uid u = msg_actor m.
Proof.
  intros Hm. destruct (wf_known _ _ _ W m Hm) as (_ & (u & Hu & E1 & E2) & _). unfold find_member.
  destruct (List.find _ _) as [v|] eqn:F.
  - exists v. split; [done|]. apply find_some_elem in F as [_ Ev]. unfold is_member in Ev. by bool_props.
  - eapply find_none_elem in F; [|exact Hu]. unfold is_member, in_room in F.
    by rewrite <- E1, <- E2, String.eqb_refl, Z.eqb_refl in F.
Qed.

(** A query of a room's messages in acceptance order. *)
Lemma rows_in_order rid (p : MessageRow -> bool) :
  (forall m, p m = true -> msg_room m = rid) ->
  order_by msg_seq (List.filter p (messages d)) = List.filter p (messages d) /\
  StronglySorted (key_lt msg_seq) (List.filter p (messages d)).
Proof.
  intros Hp. assert (S : StronglySorted (key_lt msg_seq) (List.filter p (messages d))).
  { replace (List.filter p (messages d)) with (List.filter p (List.filter (in_room msg_room rid) (messages d))).
    - apply StronglySorted_bfilter, W.
    - clear W. induction (messages d) as [|m l IH]; simpl; [done|]. destruct (in_room msg_room rid m) eqn:E; simpl.
      + by rewrite IH.
      + rewrite IH. destruct (p m) eqn:Pm; [|done]. apply Hp in Pm. unfold in_room in E. by rewrite Pm, String.eqb_refl in E. }
  split; [by apply order_by_sorted|done].
Qed.

Lemma omap_total {A B} (f : A -> option B) (g : A -> B) (l : list A) :
  (forall x, x ∈ l -> f x = Some (g x)) -> omap f l = g <$> l.
Proof.
  induction l as [|x l IH]; intros H; [done|]. cbn. rewrite (H x) by left. f_equal.
  apply IH. intros y Hy. apply H. by right.
Qed.

Definition queued_default (m : MessageRow) : QueuedMessage :=
  {| q_Input := {| si_TaskID := default 0 (task_of_message d (msg_room m) (msg_id m));
                   si_ClientMessageID := msg_client m; si_Text := msg_body m |};
     q_Actor := {| ac_UID := msg_actor m; ac_Name := default "" (m_username <$> find_member d (msg_room m) (msg_actor m)) |};
     q_AcceptedSeq := msg_seq m |}.
Lemma load_queue_rows rid : load_queue d rid = queued_default <$> List.filter (is_queued_row rid) (messages d).
Proof.
  unfold load_queue. rewrite (proj1 (rows_in_order rid (is_queued_row rid) ltac:(intros m H; unfold is_queued_row in H;
    bool_props; by apply in_roomP))).
  apply omap_total. intros m [Hm _]%filter_elem_of. destruct (find_author m Hm) as (u & Hu & E).
  unfold queued_of, queued_default. by rewrite Hu.
Qed.

Definition binding_default (m : MessageRow) : TurnBinding :=
  {| tb_MessageID := msg_client m; tb_TurnID := default "" (find_binding d (msg_room m) (msg_id m) ≫= bd_turn);
     tb_State := msg_state m |}.
Lemma joined_binding_rows rid p :
  (forall m, p m = true -> msg_room m = rid /\ has_binding (msg_kind m) = true) ->
  omap (joined_binding d) (order_by msg_seq (List.filter p (messages d))) = binding_default <$> List.filter p (messages d).
Proof.
  intros Hp. rewrite (proj1 (rows_in_order rid p ltac:(intros m H; by apply Hp))).
  apply omap_total. intros m [Hm Pm]%filter_elem_of. destruct (Hp m Pm) as [_ Hk].
  destruct (find_binding_of m Hm Hk) as (b & Hb & E). unfold joined_binding, joined, binding_default, binding_of.
  rewrite Hb, bool_decide_eq_true_2 by done. cbn. by rewrite E.
Qed.
End recovery.

Lemma is_active_rowP rid m : is_active_row rid m = true -> msg_room m = rid /\ has_binding (msg_kind m) = true.
Proof. unfold is_active_row. intros H. bool_props. split; [by apply in_roomP|]. by destruct (msg_kind m). Qed.
Lemma is_control_rowP rid m : is_control_row rid m = true -> msg_room m = rid /\ has_binding (msg_kind m) = true.
Proof. unfold is_control_row. intros H. bool_props. split; [by apply in_roomP|]. by destruct (msg_kind m). Qed.
Lemma is_queued_rowP rid m : is_queued_row rid m = true -> msg_room m = rid.
Proof. unfold is_queued_row. intros H. bool_props. by apply in_roomP. Qed.

(** The recovery image loses nothing.  In every reachable database the image
    of a room lists every queued prompt, in acceptance order and once, with its
    client id, text, author and sequence number; every control command without an
    outcome, in acceptance order, with its state and expected turn; and as active
    the oldest prompt that was dispatched and has no outcome, if there is one. *)
Theorem recovery_image_complete l h f rid image :
  let d := run empty_db l in
  LoadRecoveryImage (mkStore d h f) rid = Ok image ->
  let queued := List.filter (is_queued_row rid) (messages d) in
  let controls := List.filter (is_control_row rid) (messages d) in
  let active := List.filter (is_active_row rid) (messages d) in
  StronglySorted (key_lt msg_seq) queued /\ StronglySorted (key_lt msg_seq) controls /\
  StronglySorted (key_lt msg_seq) active /\
  ((fun q => (si_ClientMessageID (q_Input q), si_Text (q_Input q), ac_UID (q_Actor q), q_AcceptedSeq q)) <$> im_Queue image)
    = ((fun m => (msg_client m, msg_body m, msg_actor m, msg_seq m)) <$> queued) /\
  ((fun b => (tb_MessageID b, tb_State b)) <$> im_PendingControls image)
    = ((fun m => (msg_client m, msg_state m)) <$> controls) /\
  (fun b => (tb_MessageID b, tb_State b)) <$> im_Active image = (fun m => (msg_client m, msg_state m)) <$> head active.
Proof.
  intros d H queued controls active. pose proof (reachable_wf l) as W. fold d in W.
  unfold LoadRecoveryImage in H. destruct (validateRoomID rid) as [[]|]; [|done]. simpl in H.
  destruct (find_room d rid) as [r|] eqn:E; [|done]. injection H as <-. apply find_room_elem in E as [_ <-].
  split_and!.
  - apply (rows_in_order d W (r_id r)), is_queued_rowP.
  - apply (rows_in_order d W (r_id r)). intros m Hm. by apply is_control_rowP.
  - apply (rows_in_order d W (r_id r)). intros m Hm. by apply is_active_rowP.
  - cbn [recovery_image im_Queue]. rewrite (load_queue_rows d W). by rewrite <- list_fmap_compose.
  - cbn [recovery_image im_PendingControls]. unfold load_controls.
    rewrite (joined_binding_rows d W (r_id r)) by apply is_control_rowP. by rewrite <- list_fmap_compose.
  - cbn [recovery_image im_Active]. unfold load_active.
    rewrite (joined_binding_rows d W (r_id r)) by apply is_active_rowP. unfold active.
    by destruct (List.filter _ _).
Qed.

Lemma recovery_image_complete_witness :
  exists image, LoadRecoveryImage (mkStore (run empty_db demo_calls) None None) demo_room = Ok image /\
    length (im_Queue image) = 1%nat /\
    ((fun b => (tb_MessageID b, tb_State b)) <$> im_Active image)
      = ((fun m => (msg_client m, msg_state m)) <$> head (List.filter (is_active_row demo_room) (messages (run empty_db demo_calls)))).
Proof.
  eexists. split; [vm_compute; reflexivity|]. split; [reflexivity|].
  refine (proj2 (proj2 (proj2 (proj2 (proj2 (recovery_image_complete demo_calls None None demo_room _ _)))))).
  vm_compute. reflexivity.
Defined.

(** ** Enabled operations succeed *)

Lemma count_where_one {A} (p : A -> bool) l x :
  NoDup l -> x ∈ l -> p x = true -> (forall y, y ∈ l -> p y = true -> y = x) -> count_where p l = 1%nat.
Proof.
  intros N Hx Px U. unfold count_where. induction N as [|y l Hy N IH]; [by apply not_elem_of_nil in Hx|].
  simpl. destruct (p y) eqn:Py.
  - assert (y = x) as -> by (apply U; [left|done]). simpl. f_equal.
    apply (proj2 (count_where_zero p l)). intros z Hz. destruct (p z) eqn:Pz; [|done].
    assert (z = x) as -> by (apply U; [by right|done]). done.
  - apply elem_of_cons in Hx as [->|Hx]; [congruence|]. apply IH; [done|]. intros z Hz. apply U. by right.
Qed.

Lemma sorted_NoDup {A} (key : A -> Z) l : StronglySorted (key_lt key) l -> NoDup l.
Proof.
  induction 1 as [|x l H IH F]; constructor; [|done]. intros Hx. rewrite Forall_forall in F.
  specialize (F x Hx). unfold key_lt in F. lia.
Qed.

Section progress.
Context (d : DB) (W : wf None None d).

Lemma count_message m : m ∈ messages d ->
  count_where (is_message_in (msg_room m) (msg_id m) (msg_state m)) (messages d) = 1%nat.
Proof.
  intros Hm. eapply count_where_one; [by eapply sorted_NoDup, wf_ids|exact Hm| |].
  - by apply is_message_inP.
  - intros y Hy (_ & E & _)%is_message_inP. by eapply wf_message_unique.
Qed.
Lemma count_binding m : m ∈ messages d -> has_binding (msg_kind m) = true ->
  count_where (is_binding_in (msg_room m) (msg_id m) (msg_state m)) (turn_bindings d) = 1%nat.
Proof.
  intros Hm Hk. destruct (find_binding_of d W m Hm Hk) as (b & Hb & E). apply find_some_elem in Hb as [Hb Eb].
  eapply count_where_one; [eapply NoDup_fmap_1, wf_bd_unique; done|exact Hb| |].
  - unfold is_binding_in. by rewrite Eb, bool_decide_eq_true_2.
  - intros y Hy (_ & E2 & _)%is_binding_inP. unfold is_binding in Eb. bool_props.
    eapply (NoDup_fmap_inj bd_message); [eapply wf_bd_unique; done|done..|congruence].
Qed.

Lemma updateMessageAndBinding_ok m new c ec ed v : m ∈ messages d -> has_binding (msg_kind m) = true ->
  updateMessageAndBinding (msg_room m) (msg_id m) (msg_state m) new c ec ed v d
  = Ok (tt, paired_db (msg_room m) (msg_id m) (msg_state m) new (binding_set new c ec ed v) d).
Proof.
  intros Hm Hk. unfold updateMessageAndBinding, update_message_state, update_binding, requireOneRow, mbind, Tx_bind,
    tx_get, tx_modify. rewrite (count_message m Hm). cbn [Nat.eqb tx_guard mret Tx_ret turn_bindings set_messages].
  by rewrite (count_binding m Hm Hk).
Qed.

Lemma paired_db_messages m new f : m ∈ messages d ->
  messages (paired_db (msg_room m) (msg_id m) (msg_state m) new f d)
  = (fun x => if msg_id x =? msg_id m then set_msg_state new x else x) <$> messages d.
Proof.
  intros Hm. cbn. unfold update_where. apply map_ext_in. intros x Hx%list_elem_of_In.
  destruct (Z.eqb_spec (msg_id x) (msg_id m)) as [E|E].
  - assert (x = m) as -> by (by eapply wf_message_unique). 
    by replace (is_message_in _ _ _ m) with true by (symmetry; by apply is_message_inP).
  - replace (is_message_in _ _ _ x) with false; [done|]. symmetry. apply not_true_is_false.
    intros (_ & ? & _)%is_message_inP. done.
Qed.

Lemma room_of_message m : m ∈ messages d -> exists r, find_room d (msg_room m) = Some r /\ r ∈ rooms d.
Proof.
  intros Hm. destruct (wf_known _ _ _ W m Hm) as ((r & Hr & E & _) & _). unfold find_room.
  destruct (List.find _ _) as [r'|] eqn:F; [exists r'; split; [done|]; apply (find_some_elem _ _ _ F)|].
  eapply find_none_elem in F; [|exact Hr]. unfold in_room in F. by rewrite E, String.eqb_refl in F.
Qed.

Lemma appendEvent_ok rid r actor kind payload now : find_room d rid = Some r ->
  exists d', appendEvent rid actor kind payload now d
             = Ok ({| ev_Seq := r_next_seq r; ev_Kind := kind; ev_ActorUID := actor; ev_Payload := payload;
                      ev_CreatedAt := now |}, d') /\ messages d' = messages d.
Proof.
  intros Hr. pose proof (find_room_elem _ _ _ Hr) as [Hin E].
  unfold appendEvent, allocateSeq, update_rooms, insertEventAt, insert_event, mbind, Tx_bind, tx_get, tx_modify.
  rewrite Hr. cbn [mret Tx_ret]. cbn [ev_Seq].
  assert (F : existsb (is_event rid (r_next_seq r)) (room_events d) = false).
  { apply existsb_false. intros e He. apply not_true_is_false. unfold is_event. intros Hb. bool_props.
    rename select (in_room _ _ _ = true) into Hi.
    pose proof (wf_log _ _ _ W r Hin) as L. simpl in L. rewrite app_nil_r in L.
    assert (Hs : event_seq e ∈ seqZ 1 (r_next_seq r - 1)).
    { rewrite <- L. apply list_elem_of_fmap_2, filter_elem_of. by rewrite E. }
    apply elem_of_seqZ in Hs. unfold event_seq in Hs. lia. }
  cbn [rooms room_events set_rooms]. rewrite F.
  assert (X : existsb (in_room r_id rid) (update_where (in_room r_id rid) (fun r0 => set_next_seq (r_next_seq r0 + 1) r0) (rooms d)) = true).
  { apply existsb_elem. exists (set_next_seq (r_next_seq r + 1) r). split; [|by apply in_roomP].
    apply elem_of_update_where. exists r. split; [done|]. unfold in_room. by rewrite E, String.eqb_refl. }
  rewrite X. cbn. by eexists.
Qed.
End progress.

(** [BeginDispatch] does exactly one thing.  On every reachable database,
    without a commit fault: for a queued prompt of the room it succeeds and moves
    that one message to dispatching; for any other message it is an invalid
    state; for an unknown message or room it reports which of them is missing.
    The refused calls change nothing. *)
Theorem begin_dispatch_spec l rid cid :
  let d := run empty_db l in
  let s := mkStore d None None in
  validateIdentifiers rid cid = Ok tt ->
  match find_message d rid cid with
  | Some m =>
      if bool_decide (msg_state m = RequestQueued) && contains prompt_kinds (msg_kind m)
      then (BeginDispatch s rid cid).2 = Ok tt /\
           messages (db (BeginDispatch s rid cid).1)
           = (fun x => if msg_id x =? msg_id m then set_msg_state RequestDispatching x else x) <$> messages d
      else BeginDispatch s rid cid = (s, Err (Sentinel ErrInvalidState))
  | None => BeginDispatch s rid cid
            = (s, Err (Sentinel (match find_room d rid with Some _ => ErrMessageNotFound | None => ErrRoomNotFound end)))
  end.
Proof.
  intros d s V. pose proof (reachable_wf l) as W. fold d in W. unfold BeginDispatch. rewrite V. cbn [with_check].
  unfold transact, transactConditional, BeginDispatch_tx, requireMessageState, requireRoom, loadStoredMessage.
  cbn [db beforeCommit commitFault s]. unfold mbind, Tx_bind, tx_get.
  destruct (find_message d rid cid) as [m|] eqn:E; cbn [fmap option_fmap option_map].
  - destruct (find_message_elem _ _ _ _ E) as [Hm _]. apply find_some_elem in E as [_ E]. unfold is_client in E. bool_props.
    rename select (in_room _ _ _ = true) into Er. apply in_roomP in Er. subst rid. cbn [stored_of sm_state sm_kind sm_id].
    destruct (bool_decide (msg_state m = RequestQueued)) eqn:Es; [|done]. destruct (contains _ _) eqn:Ek; [|done].
    bool_props. cbn [andb tx_guard mret Tx_ret]. rewrite <- Es.
    rewrite (updateMessageAndBinding_ok d W m) by (done || by apply contains_prompt in Ek as [-> | ->]).
    split; [done|]. by apply (paired_db_messages d W m).
  - by destruct (find_room d rid).
Qed.

Lemma begin_dispatch_spec_witness :
  (BeginDispatch (mkStore (run empty_db demo_calls) None None) demo_room id_b).2 = Ok tt /\
  BeginDispatch (mkStore (run empty_db demo_calls) None None) demo_room id_a
  = (mkStore (run empty_db demo_calls) None None, Err (Sentinel ErrInvalidState)).
Proof.
  split.
  - assert (E : match find_message (run empty_db demo_calls) demo_room id_b with
                | Some m => bool_decide (msg_state m = RequestQueued) && contains prompt_kinds (msg_kind m)
                | None => false end = true) by (vm_compute; reflexivity).
    pose proof (begin_dispatch_spec demo_calls demo_room id_b ltac:(vm_compute; reflexivity)) as P. cbv zeta in P.
    destruct (find_message (run empty_db demo_calls) demo_room id_b) as [m|]; [|discriminate E].
    rewrite E in P. exact (proj1 P).
  - assert (E : match find_message (run empty_db demo_calls) demo_room id_a with
                | Some m => bool_decide (msg_state m = RequestQueued) && contains prompt_kinds (msg_kind m)
                | None => true end = false) by (vm_compute; reflexivity).
    pose proof (begin_dispatch_spec demo_calls demo_room id_a ltac:(vm_compute; reflexivity)) as P. cbv zeta in P.
    destruct (find_message (run empty_db demo_calls) demo_room id_a) as [m|]; [|discriminate E].
    rewrite E in P. exact P.
Defined.

(** A finished turn is always recorded.  On every reachable database, when a
    prompt runs the turn or awaits review of it, [FinishTurn] (without a commit
    fault) succeeds: that one message takes the final state and exactly one event
    is appended, with the next sequence number of the room.  When no prompt runs
    the turn the call is an invalid state and changes nothing. *)
Theorem finish_turn_spec l now rid i r :
  let d := run empty_db l in
  let s := mkStore d None None in
  validateRoomID rid = Ok tt -> blank (ft_TurnID i) = false -> validateFinishTurn i = Ok tt -> find_room d rid = Some r ->
  match List.find (runs_turn d rid (ft_TurnID i)) (messages d) with
  | Some m =>
      exists s' e, FinishTurn s now rid i = (s', Ok [e]) /\
        ev_Seq e = r_next_seq r /\ ev_Kind e = "turn/" +:+ RequestState_string (ft_State i) /\
        messages (db s') = (fun x => if msg_id x =? msg_id m then set_msg_state (ft_State i) x else x) <$> messages d
  | None => FinishTurn s now rid i = (s, Err (Sentinel ErrInvalidState))
  end.
Proof.
  intros d s V1 V2 V3 Hr. pose proof (reachable_wf l) as W. fold d in W. unfold FinishTurn. rewrite V1, V2, V3.
  cbn [with_check negb check]. unfold transact, transactConditional, FinishTurn_tx, requireRoom.
  cbn [db beforeCommit commitFault s]. unfold mbind at 1 2, Tx_bind at 1 2, tx_get at 1.
  destruct (List.find _ (messages d)) as [m|] eqn:E.
  - apply find_some_elem in E as [Hm E]. unfold runs_turn in E. bool_props.
    rename select (in_room _ _ _ = true) into Er. apply in_roomP in Er. subst rid.
    rename select (contains _ _ = true) into Ek. rename select (_ || _ = true) into Es.
    assert (Hb : has_binding (msg_kind m) = true) by (by apply contains_prompt in Ek as [-> | ->]).
    assert (M : moves d (msg_room m) (msg_id m) (msg_state m) (ft_State i)).
    { exists m. split_and!; try done. apply finish_state in V3.
      apply contains_prompt in Ek as [-> | ->]; apply orb_true_iff in Es as [Es|Es];
        apply bool_decide_eq_true in Es as ->; by destruct V3 as [->|[-> | ->]]. }
    unfold mbind at 1, Tx_bind at 1. rewrite (updateMessageAndBinding_ok d W m _ _ _ _ _ Hm Hb). cbv beta iota.
    set (f := binding_set _ _ _ _ _). pose proof (paired_db_wf _ _ _ _ _ _ _ f W M (binding_set_rebinds _ _ _ _ _)) as W'.
    unfold mbind at 1, Tx_bind at 1.
    destruct (appendEvent_ok _ W' (msg_room m) r (msg_actor m) ("turn/" +:+ RequestState_string (ft_State i))
      (JObj ([("turn_id", JStr (ft_TurnID i)); ("state", JStr (RequestState_string (ft_State i)))]
        ++ omitempty "error_code" (ft_ErrorCode i) ++ omitempty "error_digest" (ft_ErrorDigest i))) now Hr) as (d' & Ea & Em).
    rewrite Ea. eexists _, _. split; [reflexivity|]. split_and!; [done|done|]. cbn [db]. rewrite Em.
    apply (paired_db_messages d W m _ _ Hm).
  - unfold mbind, Tx_bind, tx_get. cbv beta iota. by rewrite E, Hr.

Qed.

Definition demo_running : list call :=
  map ok_call [OpInitializeRoom 1 demo_seed; OpAcceptMessage 2 demo_room ann submit_a; OpBeginDispatch demo_room id_a;
               OpBindRunningTurn 3 demo_room id_a "t1"].
Definition finish_t1 : FinishTurnInput :=
  {| ft_TurnID := "t1"; ft_State := RequestCompleted; ft_ErrorCode := ""; ft_ErrorDigest := "" |}.
Lemma finish_turn_spec_witness :
  exists s' e, FinishTurn (mkStore (run empty_db demo_running) None None) 4 demo_room finish_t1 = (s', Ok [e]) /\
    ev_Seq e = 3 /\ ev_Kind e = "turn/completed".
Proof.
  assert (E : match List.find (runs_turn (run empty_db demo_running) demo_room (ft_TurnID finish_t1))
                    (messages (run empty_db demo_running)) with
              | Some _ => true | None => false end = true) by (vm_compute; reflexivity).
  assert (R : match find_room (run empty_db demo_running) demo_room with Some r => r_next_seq r =? 3 | None => false end = true)
    by (vm_compute; reflexivity).
  destruct (find_room (run empty_db demo_running) demo_room) as [r|] eqn:Er; [|discriminate R]. apply Z.eqb_eq in R.
  pose proof (finish_turn_spec demo_running 4 demo_room finish_t1 r eq_refl eq_refl eq_refl Er) as P. cbv zeta in P.
  destruct (List.find (runs_turn (run empty_db demo_running) demo_room (ft_TurnID finish_t1))
              (messages (run empty_db demo_running))) as [m|]; [|discriminate E].
  destruct P as (s' & e & H1 & H2 & H3 & _). exists s', e. rewrite <- R.
  split; [exact H1|]. split; [exact H2|exact H3].
Defined.
