(* ===== verification/StorePort.v ===== *)
(** * What the store's operations do to the coordinator's view

    The view of a message table, and for every transaction body the coordinator
    relies on the transition of that view ([Ports.v]). *)
From S2P Require Import Prelude GoStrings Sha256 Json RoomTypes Ports StoreSchema StoreBase StoreTasks.
From S2P Require Import StoreRepository StoreRecovery StoreInvariant StoreOps StoreSafety.

(** ** The view of a message table *)

Definition entry (m : MessageRow) : ClientMessageID * Seq := (msg_client m, msg_seq m).
Definition room_view (rid : RoomID) (l : list MessageRow) : RoomView :=
  {| v_acts := entry <$> List.filter (is_active_row rid) l;
     v_ctrls := msg_client <$> List.filter (is_control_row rid) l;
     v_queue := entry <$> List.filter (is_queued_row rid) l;
     v_known := msg_client <$> List.filter (in_room msg_room rid) l |}.

(** ** Effects of one row on a filtered table *)

Section filtered.
Context {B : Type} (g : MessageRow -> B) (P : MessageRow -> bool).
Context (q : MessageRow -> bool) (f : MessageRow -> MessageRow) (g_f : forall x, g (f x) = g x).

Lemma filtered_same l : (forall x, x ∈ l -> q x = true -> P (f x) = P x) ->
  g <$> List.filter P (update_where q f l) = g <$> List.filter P l.
Proof.
  induction l as [|x l IH]; intros H; [done|]. cbn.
  assert (IHl : g <$> List.filter P (update_where q f l) = g <$> List.filter P l) by (apply IH; intros y Hy; apply H; by right).
  destruct (q x) eqn:Q.
  - rewrite (H x) by (done || left). destruct (P x); [|done]. rewrite !fmap_cons, g_f. by f_equal.
  - destruct (P x); [|done]. rewrite !fmap_cons. by f_equal.
Qed.

Lemma filtered_gone l (r : B -> bool) :
  (forall x, x ∈ l -> q x = true -> P (f x) = false) ->
  (forall x, x ∈ l -> P x = true -> r (g x) = negb (q x)) ->
  g <$> List.filter P (update_where q f l) = List.filter r (g <$> List.filter P l).
Proof.
  induction l as [|x l IH]; intros H1 H2; [done|]. cbn.
  assert (IHl : g <$> List.filter P (update_where q f l) = List.filter r (g <$> List.filter P l)).
  { apply IH; intros y Hy; [apply H1|apply H2]; by right. }
  destruct (q x) eqn:Q.
  - rewrite (H1 x) by (done || left). destruct (P x) eqn:Px; [|done]. rewrite fmap_cons. cbn.
    rewrite (H2 x), Q by (done || left). done.
  - destruct (P x) eqn:Px; [|done]. rewrite !fmap_cons. cbn. rewrite (H2 x), Q by (done || left). cbn. by f_equal.
Qed.

Lemma filtered_come l m :
  count_where q l = 1%nat -> m ∈ l -> q m = true -> (forall x, x ∈ l -> q x = true -> P x = false /\ P (f x) = true) ->
  g <$> List.filter P (update_where q f l) ≡ₚ g m :: (g <$> List.filter P l).
Proof.
  induction l as [|x l IH]; intros C Hm Qm H; [by apply not_elem_of_nil in Hm|].
  unfold count_where in C. cbn in *. destruct (q x) eqn:Q.
  - destruct (H x) as [Px Pf]; [left|done|]. rewrite Pf, Px, fmap_cons, g_f. cbn in C.
    assert (Hl : forall y, y ∈ l -> q y = false) by (apply count_where_zero; unfold count_where; lia).
    change (map _ l) with (update_where q f l). rewrite update_where_id by done. apply elem_of_cons in Hm as [->|Hm]; [done|]. by rewrite Hl in Qm.
  - apply elem_of_cons in Hm as [->|Hm]; [congruence|].
    assert (IHl : g <$> List.filter P (update_where q f l) ≡ₚ g m :: (g <$> List.filter P l))
      by (apply IH; auto; intros y Hy; apply H; by right).
    destruct (P x); [|done]. rewrite !fmap_cons, IHl. by constructor.
Qed.
End filtered.

(** ** Moving one message *)

Section moving.
Context (d : DB) (W : wf None None d) (m : MessageRow) (Hm : m ∈ messages d) (new : RequestState).
Let rid := msg_room m.
Let q := is_message_in rid (msg_id m) (msg_state m).
Definition moved : list MessageRow := update_where q (set_msg_state new) (messages d).

Lemma q_only x : x ∈ messages d -> q x = true -> x = m.
Proof. intros Hx (_ & E & _)%is_message_inP. by eapply wf_message_unique. Qed.
Lemma q_self : q m = true.
Proof. by apply is_message_inP. Qed.

Lemma moved_client x : x ∈ messages d -> msg_room x = rid -> negb (String.eqb (msg_client x) (msg_client m)) = negb (q x).
Proof.
  intros Hx Er. f_equal. destruct (String.eqb_spec (msg_client x) (msg_client m)) as [E|E].
  - assert (x = m) as -> by (eapply NoDup_fmap_inj; [apply (wf_clients _ _ _ W)|done|done|]; simpl; by rewrite E, Er).
    symmetry. apply q_self.
  - destruct (q x) eqn:Q; [|done]. apply q_only in Q as ->; done.
Qed.

Lemma moved_known : v_known (room_view rid moved) = v_known (room_view rid (messages d)).
Proof. apply filtered_same; [done|]. intros x Hx _. done. Qed.
Lemma moved_same {B} (g : MessageRow -> B) P : (forall x, g (set_msg_state new x) = g x) ->
  P (set_msg_state new m) = P m -> g <$> List.filter P moved = g <$> List.filter P (messages d).
Proof. intros Hg HP. apply filtered_same; [done|]. intros x Hx ->%q_only; done. Qed.
Lemma moved_gone {B} (g : MessageRow -> B) P (cid : B -> ClientMessageID) :
  (forall x, g (set_msg_state new x) = g x) -> (forall x, cid (g x) = msg_client x) ->
  (forall x, P x = true -> msg_room x = rid) -> P (set_msg_state new m) = false ->
  g <$> List.filter P moved = List.filter (fun b => negb (String.eqb (cid b) (msg_client m))) (g <$> List.filter P (messages d)).
Proof.
  intros Hg Hc Hr HP. apply filtered_gone.
  - intros x Hx ->%q_only; done.
  - intros x Hx Px. rewrite Hc. apply moved_client; auto.
Qed.
Lemma moved_come {B} (g : MessageRow -> B) P : (forall x, g (set_msg_state new x) = g x) ->
  P m = false -> P (set_msg_state new m) = true ->
  g <$> List.filter P moved ≡ₚ g m :: (g <$> List.filter P (messages d)).
Proof.
  intros Hg H1 H2. apply filtered_come; [done|by apply (count_message d W m)|done|apply q_self|].
  intros x Hx ->%q_only; done.
Qed.
End moving.

(** The three ways a message may change the view. *)
Definition same_class (rid : RoomID) (m m' : MessageRow) : Prop :=
  is_active_row rid m' = is_active_row rid m /\ is_control_row rid m' = is_control_row rid m /\
  is_queued_row rid m' = is_queued_row rid m.

Lemma room_of_active rid x : is_active_row rid x = true -> msg_room x = rid.
Proof. intros H. by apply is_active_rowP. Qed.
Lemma room_of_control rid x : is_control_row rid x = true -> msg_room x = rid.
Proof. intros H. by apply is_control_rowP. Qed.

Section view_moves.
Context (d : DB) (W : wf None None d) (m : MessageRow) (Hm : m ∈ messages d) (new : RequestState).
Let rid := msg_room m.
Let v := room_view rid (messages d).
Let v' := room_view rid (moved d m new).

Lemma view_same : same_class rid m (set_msg_state new m) -> v' = v.
Proof.
  intros (E1 & E2 & E3). unfold v', v, room_view.
  by rewrite !(moved_same d W m Hm new) by done.
Qed.
Lemma view_prompt_done :
  is_active_row rid m = true -> is_active_row rid (set_msg_state new m) = false ->
  is_control_row rid (set_msg_state new m) = false -> is_queued_row rid (set_msg_state new m) = is_queued_row rid m ->
  is_control_row rid m = false -> v' = mkView (without (msg_client m) (v_acts v)) (v_ctrls v) (v_queue v) (v_known v).
Proof.
  intros A1 A2 A3 A4 A5. unfold v', v, room_view. simpl.
  rewrite (moved_gone d W m Hm new entry (is_active_row rid) fst) by (done || apply room_of_active).
  rewrite !(moved_same d W m Hm new) by (done || congruence). done.
Qed.
Lemma view_control_done :
  is_control_row rid (set_msg_state new m) = false -> is_active_row rid (set_msg_state new m) = is_active_row rid m ->
  is_queued_row rid (set_msg_state new m) = is_queued_row rid m ->
  v' = mkView (v_acts v) (without_id (msg_client m) (v_ctrls v)) (v_queue v) (v_known v).
Proof.
  intros A1 A2 A3. unfold v', v, room_view. simpl.
  rewrite (moved_gone d W m Hm new msg_client (is_control_row rid) id) by (done || apply room_of_control).
  rewrite !(moved_same d W m Hm new) by (done || congruence). done.
Qed.
Lemma view_dispatched :
  is_queued_row rid m = true -> is_queued_row rid (set_msg_state new m) = false ->
  is_active_row rid m = false -> is_active_row rid (set_msg_state new m) = true ->
  is_control_row rid (set_msg_state new m) = is_control_row rid m -> dispatches (msg_client m) v v' tt.
Proof.
  intros A1 A2 A3 A4 A5. exists (msg_seq m). split_and!.
  - change (msg_client m, msg_seq m) with (entry m). apply list_elem_of_fmap_2, filter_elem_of. done.
  - by apply (moved_come d W m Hm new entry (is_active_row rid)).
  - by apply (moved_same d W m Hm new).
  - apply (moved_gone d W m Hm new entry (is_queued_row rid) fst); try done. intros x Hx. by apply is_queued_rowP.
  - apply (moved_known d m new).
Qed.
End view_moves.

(** ** What the transaction bodies do to the messages *)

Definition silent {A} (w : StoreTx A) : Prop := forall d, wp w (fun _ d' => messages d' = messages d) d.

Lemma silent_frame {A} (w : StoreTx A) : frame w -> silent w.
Proof. intros F d. eapply wp_mono; [apply F|]. by intros _ d' E%core_messages. Qed.
Lemma silent_bind {A B} (w : StoreTx A) (k : A -> StoreTx B) : silent w -> (forall a, silent (k a)) -> silent (w ≫= k).
Proof.
  intros H1 H2 d. wp_step. eapply wp_mono; [apply H1|]. cbv beta. intros a d1 E1.
  eapply wp_mono; [apply H2|]. cbv beta. intros b d2 E2. congruence.
Qed.
Lemma silent_update_rooms q f : silent (update_rooms q f).
Proof. intros d. unfold update_rooms. by wp_steps. Qed.
Lemma silent_appendEvent rid a k p now : silent (appendEvent rid a k p now).
Proof. intros d. unfold appendEvent, allocateSeq, update_rooms, insertEventAt, insert_event. by wp_steps. Qed.
Lemma silent_insertEventAt rid seq a k p now : silent (insertEventAt rid seq a k p now).
Proof. intros d. unfold insertEventAt, insert_event. by wp_steps. Qed.
Lemma silent_allocateSeq rid : silent (allocateSeq rid).
Proof. intros d. unfold allocateSeq, update_rooms. by wp_steps. Qed.
Lemma silent_insert_binding rid mid t st : silent (insert_binding rid mid t st).
Proof. intros d. apply insert_binding_messages. Qed.
Lemma silent_link_events mid rid i l : silent (link_events mid rid i l).
Proof. intros d. eapply wp_mono; [apply link_events_post|]. by intros _ d' (_ & _ & E). Qed.

Create HintDb silent discriminated.
#[export] Hint Resolve silent_update_rooms silent_appendEvent silent_insertEventAt silent_allocateSeq silent_insert_binding
  silent_link_events : silent.
Ltac silent_tac :=
  repeat lazymatch goal with
  | |- silent (mbind _ _) => apply silent_bind; [|intros ?]
  | |- silent (match ?x with _ => _ end) => destruct x
  | |- silent _ => first [solve [auto with silent] | apply silent_frame; solve [auto with store]]
  end.

Lemma silent_BindThread rid t now : silent (BindThread_tx rid t now).
Proof. unfold BindThread_tx. silent_tac. Qed.
Lemma silent_MarkThreadNeedsRepair rid rs now : silent (MarkThreadNeedsRepair_tx rid rs now).
Proof. unfold MarkThreadNeedsRepair_tx. silent_tac. Qed.
Lemma silent_SetRoomStatus rid st now : silent (SetRoomStatus_tx rid st now).
Proof. unfold SetRoomStatus_tx. silent_tac. Qed.
Lemma silent_RecordCompletedItem rid i p now : silent (RecordCompletedItem_tx rid i p now).
Proof. unfold RecordCompletedItem_tx. silent_tac. Qed.

(** One message of the room moved. *)
Definition moves_one (rid : RoomID) (d d' : DB) (P : MessageRow -> Prop) (new : RequestState) : Prop :=
  exists m, m ∈ messages d /\ msg_room m = rid /\ P m /\ messages d' = moved d m new.

Lemma paired_moved d m new f d' :
  d' = paired_db (msg_room m) (msg_id m) (msg_state m) new f d -> messages d' = moved d m new.
Proof. by intros ->. Qed.

Lemma updateMessageAndBinding_moved d m new c ec ed v :
  wp (updateMessageAndBinding (msg_room m) (msg_id m) (msg_state m) new c ec ed v)
     (fun _ d' => messages d' = moved d m new) d.
Proof.
  rewrite updateMessageAndBinding_paired. eapply wp_mono; [apply paired_update_post|]. by intros _ d' [-> _].
Qed.

Lemma move_post {A} rid cid kinds old new (k : storedMessage -> StoreTx A) (f : storedMessage -> bindingUpdateValues) c ec ed d :
  (forall m, silent (k m)) ->
  wp (m ← requireMessageState rid cid kinds old;
      updateMessageAndBinding rid (sm_id m) old new c ec ed (f m);; k m)
     (fun _ d' => moves_one rid d d' (fun m => msg_client m = cid /\ msg_state m = old /\ contains kinds (msg_kind m) = true) new) d.
Proof.
  intros Hk. unfold requireMessageState, requireRoom. wp_step. wp_step. apply wp_get.
  destruct (loadStoredMessage d rid cid) as [t|] eqn:E; [|by wp_steps].
  apply loadStoredMessage_elem in E as (m & Hm & -> & Er & Ec). wp_steps. bool_props. simpl in *. subst rid old.
  eapply wp_mono; [apply updateMessageAndBinding_moved|]. cbv beta. intros _ d1 E1.
  eapply wp_mono; [apply Hk|]. cbv beta. intros _ d2 E2. exists m. split_and!; try done. congruence.
Qed.

Lemma accept_effect rid actor cid kind body hash st binding ek task now d :
  wp (accept_tx rid actor cid kind body hash st binding ek task now)
     (fun r d' => acc_ClientMessageID r.1 = cid /\
        if acc_Duplicate r.1 then messages d' = messages d
        else find_message d rid cid = None /\
             exists m, messages d' = messages d ++ [m] /\ entry m = (cid, acc_Seq r.1) /\ msg_room m = rid /\
                       msg_kind m = kind /\ msg_state m = st) d.
Proof.
  unfold accept_tx. wp_step. apply wp_get. unfold loadStoredMessage.
  destruct (find_message d rid cid) as [m|] eqn:E; cbn [fmap option_fmap option_map].
  { unfold accept_duplicate, loadEventTx. by wp_steps. }
  unfold accept_new. wp_step. eapply wp_mono; [apply (silent_frame (requireActor rid actor)); auto with store|].
  cbv beta. intros _ d1 E1. wp_step. eapply wp_mono; [apply silent_allocateSeq|]. cbv beta. intros seq d2 E2.
  wp_step. eapply (wp_mono _ (fun mid d' => exists m, messages d' = messages d ++ [m] /\ entry m = (cid, seq) /\ msg_room m = rid /\
    msg_kind m = kind /\ msg_state m = st)).
  { unfold insert_message. wp_steps. simpl. eexists. split; [by rewrite E2, E1|done]. }
  intros mid d3 (m & Em & H). wp_step.
  eapply wp_mono; [apply (silent_frame (if 0 <? task then attachTaskMessage rid actor task mid now else mret tt));
                   destruct (0 <? task); auto with store|]. cbv beta. intros _ d4 E4.
  wp_step. eapply (wp_mono _ (fun _ d' => messages d' = messages d4)).
  { destruct binding; [|done]. wp_steps. apply insert_binding_messages. }
  intros _ d5 E5. wp_step. eapply wp_mono; [apply silent_insertEventAt|]. cbv beta. intros e d6 E6.
  apply wp_ret. simpl. split; [done|]. split; [done|]. exists m. split; [congruence|exact H].
Qed.

(** ** View transitions of the transaction bodies *)

Definition vspec {A} (rid : RoomID) (w : StoreTx A) (Q : RoomView -> RoomView -> A -> Prop) : Prop :=
  forall d, wf None None d -> wp w (fun a d' => Q (room_view rid (messages d)) (room_view rid (messages d')) a) d.

Lemma vs_silent {A} rid (w : StoreTx A) : silent w -> vspec rid w stays.
Proof. intros S d _. eapply wp_mono; [apply S|]. cbv beta. intros a d' E. unfold stays. by rewrite E. Qed.

(** How kinds and states decide the class of a row of the room. *)
Lemma class_prompt m : contains prompt_kinds (msg_kind m) = true ->
  is_active_row (msg_room m) m = state_in [RequestDispatching; RequestRunning; RequestNeedsReview] m /\
  is_queued_row (msg_room m) m = state_in [RequestQueued] m /\ is_control_row (msg_room m) m = false.
Proof.
  intros H. unfold is_active_row, is_queued_row, is_control_row, in_room. rewrite String.eqb_refl, H.
  split_and!; [done|done|]. by apply contains_prompt in H as [-> | ->].
Qed.
Lemma class_control m : contains control_kinds (msg_kind m) = true ->
  is_control_row (msg_room m) m = state_in [RequestDispatching; RequestNeedsReview] m /\
  is_active_row (msg_room m) m = false /\ is_queued_row (msg_room m) m = false.
Proof.
  intros H. unfold is_active_row, is_queued_row, is_control_row, in_room. rewrite String.eqb_refl, H.
  split_and!; [done| |]; by apply contains_control in H as [-> | ->].
Qed.
Lemma class_other m : has_binding (msg_kind m) = false ->
  is_control_row (msg_room m) m = false /\ is_active_row (msg_room m) m = false /\ is_queued_row (msg_room m) m = false.
Proof.
  intros H. unfold is_active_row, is_queued_row, is_control_row, in_room. rewrite String.eqb_refl. by destruct (msg_kind m).
Qed.

(** A new row at the end of the table. *)
Lemma view_append rid l m : msg_room m = rid ->
  room_view rid (l ++ [m])
  = {| v_acts := v_acts (room_view rid l) ++ (if is_active_row rid m then [entry m] else []);
       v_ctrls := v_ctrls (room_view rid l) ++ (if is_control_row rid m then [msg_client m] else []);
       v_queue := v_queue (room_view rid l) ++ (if is_queued_row rid m then [entry m] else []);
       v_known := v_known (room_view rid l) ++ [msg_client m] |}.
Proof.
  intros E. unfold room_view. simpl. rewrite !List.filter_app, !fmap_app. cbn.
  replace (in_room msg_room rid m) with true by (symmetry; by apply in_roomP).
  by destruct (is_active_row rid m), (is_control_row rid m), (is_queued_row rid m).
Qed.

Lemma fresh_client d rid cid : find_message d rid cid = None -> cid ∉ v_known (room_view rid (messages d)).
Proof.
  intros H (m & -> & [Hm Er]%filter_elem_of)%list_elem_of_fmap. eapply find_none_elem in H; [|exact Hm].
  unfold is_client in H. by rewrite Er, String.eqb_refl in H.
Qed.

Lemma vs_accept_prompt rid actor i hash ek task now :
  vspec rid (accept_tx rid actor (si_ClientMessageID i) KPrompt (si_Text i) hash RequestQueued true ek task now)
    (fun v v' r => accepts_prompt (si_ClientMessageID i) v v' r.1).
Proof.
  intros d W. eapply wp_mono; [apply accept_effect|]. cbv beta. intros [a b] d' [_ H]. unfold accepts_prompt. simpl in *.
  destruct (acc_Duplicate a); [by rewrite H|]. destruct H as (Hn & m & Em & Ee & Er & Ek & Es).
  split; [by apply fresh_client|]. rewrite Em, view_append by done. subst rid.
  destruct (class_prompt m) as (-> & -> & ->); [by rewrite Ek|]. unfold state_in. rewrite Es. simpl. rewrite !app_nil_r, Ee.
  by injection Ee as ->.
Qed.
Lemma vs_accept_note rid actor i hash ek task now :
  vspec rid (accept_tx rid actor (si_ClientMessageID i) KNote (si_Text i) hash RequestCompleted false ek task now)
    (fun v v' r => accepts_note (si_ClientMessageID i) v v' r.1).
Proof.
  intros d W. eapply wp_mono; [apply accept_effect|]. cbv beta. intros [a b] d' [_ H]. unfold accepts_note. simpl in *.
  destruct (acc_Duplicate a); [by rewrite H|]. destruct H as (Hn & m & Em & Ee & Er & Ek & Es).
  rewrite Em, view_append by done. subst rid.
  destruct (class_other m) as (-> & -> & ->); [by rewrite Ek|]. rewrite !app_nil_r. by injection Ee as ->.
Qed.
Lemma vs_accept_control rid actor cid k body hash ek now :
  vspec rid (accept_tx rid actor cid (control_kind k) body hash RequestDispatching true ek 0 now)
    (fun v v' r => accepts_control cid v v' r.1).
Proof.
  intros d W. eapply wp_mono; [apply accept_effect|]. cbv beta. intros [a b] d' [Ec H]. split; [done|]. simpl in *.
  destruct (acc_Duplicate a); [by rewrite H|]. destruct H as (Hn & m & Em & Ee & Er & Ek & Es).
  split; [by apply fresh_client|]. rewrite Em, view_append by done. subst rid.
  destruct (class_control m) as (-> & -> & ->); [rewrite Ek; by destruct k|].
  unfold state_in. rewrite Es. simpl. rewrite !app_nil_r. by injection Ee as ->.
Qed.

Lemma vs_BeginDispatch rid cid : vspec rid (BeginDispatch_tx rid cid) (dispatches cid).
Proof.
  intros d W. unfold BeginDispatch_tx.
  eapply (wp_mono _ (fun _ d' => moves_one rid d d' (fun m => msg_client m = cid /\ msg_state m = RequestQueued /\
    contains prompt_kinds (msg_kind m) = true) RequestDispatching)).
  - pose proof (fun H => move_post (A:=unit) rid cid prompt_kinds RequestQueued RequestDispatching (fun _ => mret tt)
      (fun _ => no_update_values) None None None d H) as H. revert H.
    unfold wp, mbind, Tx_bind. destruct (requireMessageState _ _ _ _ d) as [[m d1]|]; [|done].
    destruct (updateMessageAndBinding _ _ _ _ _ _ _ _ d1) as [[[] d2]|]; [|done]. intros H. apply H.
    intros _ d3. by apply wp_ret.
  - intros [] d' (m & Hm & <- & (<- & Es & Ek) & E). rewrite E.
    pose proof (class_prompt m Ek) as (C1 & C2 & C3).
    pose proof (class_prompt (set_msg_state RequestDispatching m) Ek) as (C4 & C5 & C6). simpl in C4, C5, C6.
    apply (view_dispatched d W m Hm); rewrite ?C1, ?C2, ?C3, ?C4, ?C5, ?C6; unfold state_in; simpl; by rewrite ?Es.
Qed.

Lemma vs_FinishControl rid cid o now :
  validateTerminalOutcome (co_State o) (co_ErrorCode o) (co_ErrorDigest o) true = Ok tt ->
  vspec rid (FinishControl_tx rid cid o now) (finishes_control cid o).
Proof.
  intros V%terminal_outcome_state d W.
  eapply wp_mono; [apply (move_post rid cid control_kinds RequestDispatching (co_State o) _ (fun _ => no_update_values));
                   intros m; apply silent_appendEvent|].
  cbv beta. intros e d' (m & Hm & <- & (<- & Es & Ek) & E). rewrite E. unfold finishes_control.
  pose proof (class_control m Ek) as (C1 & C2 & C3).
  pose proof (class_control (set_msg_state (co_State o) m) Ek) as (C4 & C5 & C6). simpl in C4, C5, C6.
  destruct V as [V|[V|V]]; rewrite V in *; simpl.
  - apply (view_control_done d W m Hm); rewrite ?C2, ?C3, ?C4, ?C5, ?C6; done.
  - apply (view_same d W m Hm). unfold same_class. rewrite C1, C2, C3, C4, C5, C6. unfold state_in. by rewrite Es.
  - apply (view_control_done d W m Hm); rewrite ?C2, ?C3, ?C4, ?C5, ?C6; done.
Qed.

Lemma vs_FailDispatch rid cid o now : vspec rid (FailDispatch_tx rid cid o now) (undispatches cid o).
Proof.
  intros d W. eapply wp_mono; [apply (move_post rid cid prompt_kinds RequestDispatching (fo_State o) _ (fun _ => no_update_values));
                   intros m; apply silent_appendEvent|].
  cbv beta. intros e d' (m & Hm & <- & (<- & Es & Ek) & E) Ho. rewrite E, Ho.
  pose proof (class_prompt m Ek) as (C1 & C2 & C3).
  pose proof (class_prompt (set_msg_state RequestFailed m) Ek) as (C4 & C5 & C6). simpl in C4, C5, C6.
  apply (view_prompt_done d W m Hm); rewrite ?C1, ?C2, ?C3, ?C4, ?C5, ?C6; unfold state_in; simpl; by rewrite ?Es.
Qed.

Lemma vs_BindRunningTurn rid cid turn now : vspec rid (BindRunningTurn_tx rid cid turn now) stays.
Proof.
  intros d W. eapply wp_mono; [apply (move_post rid cid prompt_kinds RequestDispatching RequestRunning _ (fun _ => _));
                   intros m; apply silent_appendEvent|].
  cbv beta. intros e d' (m & Hm & <- & (<- & Es & Ek) & E). rewrite E.
  pose proof (class_prompt m Ek) as (C1 & C2 & C3).
  pose proof (class_prompt (set_msg_state RequestRunning m) Ek) as (C4 & C5 & C6). simpl in C4, C5, C6.
  apply (view_same d W m Hm). unfold same_class. rewrite C1, C2, C3, C4, C5, C6. unfold state_in. by rewrite Es.
Qed.

Lemma vs_MarkNeedsReview rid cid rs now : vspec rid (MarkNeedsReview_tx rid cid rs now) stays.
Proof.
  intros d W. unfold MarkNeedsReview_tx, requireRoom. wp_step. apply wp_get.
  destruct (loadStoredMessage d rid cid) as [t|] eqn:E; [|by wp_steps].
  apply loadStoredMessage_elem in E as (m & Hm & -> & <- & _). wp_steps. simpl.
  eapply wp_mono; [apply updateMessageAndBinding_moved|]. cbv beta. intros _ d1 E1.
  eapply wp_mono; [apply silent_appendEvent|]. cbv beta. intros e d2 E2. unfold stays. rewrite E2, E1.
  rename select (_ || _ = true) into Hs. rename select (negb _ = true) into Hk. simpl in Hs, Hk.
  destruct (wf_known _ _ _ W m Hm) as (_ & _ & K). apply (view_same d W m Hm).
  assert (Hc : contains prompt_kinds (msg_kind m) = true \/ contains control_kinds (msg_kind m) = true)
    by (destruct (msg_kind m); auto).
  apply orb_true_iff in Hs as [Hs|Hs]; apply bool_decide_eq_true in Hs; destruct Hc as [Hc|Hc].
  - pose proof (class_prompt m Hc) as (C1 & C2 & C3).
    pose proof (class_prompt (set_msg_state RequestNeedsReview m) Hc) as (C4 & C5 & C6). simpl in C4, C5, C6.
    unfold same_class. rewrite C1, C2, C3, C4, C5, C6. unfold state_in. by rewrite Hs.
  - pose proof (class_control m Hc) as (C1 & C2 & C3).
    pose proof (class_control (set_msg_state RequestNeedsReview m) Hc) as (C4 & C5 & C6). simpl in C4, C5, C6.
    unfold same_class. rewrite C1, C2, C3, C4, C5, C6. unfold state_in. by rewrite Hs.
  - pose proof (class_prompt m Hc) as (C1 & C2 & C3).
    pose proof (class_prompt (set_msg_state RequestNeedsReview m) Hc) as (C4 & C5 & C6). simpl in C4, C5, C6.
    unfold same_class. rewrite C1, C2, C3, C4, C5, C6. unfold state_in. by rewrite Hs.
  - rewrite Hs in K. by apply contains_control in Hc as [Hc|Hc]; rewrite Hc in K.
Qed.

Lemma vs_FinishTurn rid i now : blank (ft_TurnID i) = false -> validateFinishTurn i = Ok tt ->
  vspec rid (FinishTurn_tx rid i now) (finishes_turn i).
Proof.
  intros Hb V%finish_state d W. unfold FinishTurn_tx, requireRoom. wp_step. apply wp_get.
  destruct (List.find _ _) as [m|] eqn:E; [|by wp_steps].
  apply find_some_elem in E as [Hm E]. unfold runs_turn in E. bool_props.
  rename select (in_room _ _ _ = true) into Er. apply in_roomP in Er. subst rid.
  rename select (contains _ _ = true) into Ek. rename select (_ || _ = true) into Es.
  wp_step. eapply wp_mono; [apply updateMessageAndBinding_moved|]. cbv beta. intros _ d1 E1. wp_step.
  eapply wp_mono; [apply silent_appendEvent|]. cbv beta. intros e d2 E2. apply wp_ret. rewrite E2, E1.
  split; [intros Ht; by rewrite Ht in Hb|].
  pose proof (class_prompt m Ek) as (C1 & C2 & C3).
  pose proof (class_prompt (set_msg_state (ft_State i) m) Ek) as (C4 & C5 & C6). simpl in C4, C5, C6.
  assert (A : is_active_row (msg_room m) m = true /\ is_queued_row (msg_room m) m = false).
  { rewrite C1, C2. unfold state_in. apply orb_true_iff in Es as [Es|Es]; apply bool_decide_eq_true in Es; by rewrite Es. }
  exists (msg_client m), (msg_seq m). split.
  - change (msg_client m, msg_seq m) with (entry m). apply list_elem_of_fmap_2, filter_elem_of. tauto.
  - destruct A as [A1 A2].
    apply (view_prompt_done d W m Hm); rewrite ?A1, ?A2, ?C3, ?C4, ?C5, ?C6; unfold state_in; simpl; try done;
      by destruct V as [->|[-> | ->]].
Qed.

(** ** Review decisions *)

(** The target of a decision leaves review; more ids may become known. *)
Definition decides (t : ClientMessageID) (v v' : RoomView) : Prop :=
  (forall x, x ∈ v_known v -> x ∈ v_known v') /\
  ((exists s, (t, s) ∈ v_acts v) /\ v_acts v' = without t (v_acts v) /\ v_ctrls v' = v_ctrls v \/
   t ∈ v_ctrls v /\ v_acts v' = v_acts v /\
   (v_ctrls v' = v_ctrls v /\ v_queue v' = v_queue v \/ v_ctrls v' = without_id t (v_ctrls v))).

(** A prompt under review that is queued again or failed. *)
Lemma decides_prompt d m new : wf None None d -> m ∈ messages d -> msg_state m = RequestNeedsReview ->
  contains prompt_kinds (msg_kind m) = true -> new = RequestQueued \/ new = RequestFailed ->
  decides (msg_client m) (room_view (msg_room m) (messages d)) (room_view (msg_room m) (moved d m new)).
Proof.
  intros W Hm Es Ek Hnew. pose proof (class_prompt m Ek) as (C1 & C2 & C3).
  pose proof (class_prompt (set_msg_state new m) Ek) as (C4 & C5 & C6). simpl in C4, C5, C6.
  split; [by rewrite (moved_known d m new)|]. left. split_and!.
  - exists (msg_seq m). change (msg_client m, msg_seq m) with (entry m).
    apply list_elem_of_fmap_2, filter_elem_of. rewrite C1. unfold state_in. by rewrite Es.
  - apply (moved_gone d W m Hm new entry _ fst); [done|done|apply room_of_active|].
    rewrite C4. unfold state_in. simpl. by destruct Hnew as [-> | ->].
  - apply (moved_same d W m Hm new); [done|]. by rewrite C3, C6.
Qed.
(** A control under review that is sent again or failed. *)
Lemma decides_control d m new : wf None None d -> m ∈ messages d -> msg_state m = RequestNeedsReview ->
  contains control_kinds (msg_kind m) = true -> new = RequestDispatching \/ new = RequestFailed ->
  decides (msg_client m) (room_view (msg_room m) (messages d)) (room_view (msg_room m) (moved d m new)).
Proof.
  intros W Hm Es Ek Hnew. pose proof (class_control m Ek) as (C1 & C2 & C3).
  pose proof (class_control (set_msg_state new m) Ek) as (C4 & C5 & C6). simpl in C4, C5, C6.
  assert (Hin : msg_client m ∈ v_ctrls (room_view (msg_room m) (messages d))).
  { apply list_elem_of_fmap_2, filter_elem_of. rewrite C1. unfold state_in. by rewrite Es. }
  destruct Hnew as [-> | ->].
  - rewrite (view_same d W m Hm); [split; [done|right; auto]|].
    unfold same_class. rewrite C1, C2, C3, C4, C5, C6. unfold state_in. by rewrite Es.
  - rewrite (view_control_done d W m Hm); rewrite ?C2, ?C3, ?C4, ?C5, ?C6; try done.
    split; [done|right; auto].
Qed.

(** The view as far as a decision goes does not depend on the prompt it adds. *)
Lemma decides_queued t v v' e k :
  decides t v v' -> t ∉ v_ctrls v' -> decides t v (mkView (v_acts v') (v_ctrls v') (v_queue v' ++ e) (v_known v' ++ k)).
Proof.
  intros [Hk H] Hn. split; simpl.
  - intros x Hx. apply elem_of_app. left. auto.
  - destruct H as [H|(H1 & H2 & [[H3 H4]|H3])]; [by left| |right; auto].
    right. rewrite H3 in Hn. done.
Qed.

Lemma insert_message_effect rid cid actor kind body hash st seq now d :
  wp (insert_message rid cid actor kind body hash st seq now)
     (fun _ d' => exists m, messages d' = messages d ++ [m] /\ entry m = (cid, seq) /\ msg_room m = rid /\ msg_kind m = kind /\
                            msg_state m = st) d.
Proof. unfold insert_message. wp_steps. simpl. by eexists. Qed.

Lemma insertRecoveryPrompt_view rid actor cid instr src now d :
  wp (insertRecoveryPrompt rid actor cid instr src now)
     (fun _ d' => exists e k, room_view rid (messages d') =
        mkView (v_acts (room_view rid (messages d))) (v_ctrls (room_view rid (messages d)))
          (v_queue (room_view rid (messages d)) ++ e) (v_known (room_view rid (messages d)) ++ k)) d.
Proof.
  unfold insertRecoveryPrompt. wp_step. eapply wp_mono; [apply silent_allocateSeq|]. cbv beta. intros seq d1 E1.
  wp_step. apply wp_onerror. eapply wp_mono; [apply insert_message_effect|]. cbv beta. intros mid d2 (m & Em & Ee & Er & Ek & Es).
  wp_step. eapply wp_mono; [apply silent_insert_binding|]. cbv beta. intros _ d3 E3. wp_step. apply wp_get. wp_step.
  eapply wp_mono; [eapply (silent_frame (match task_of_message d3 rid src with Some task => attachTaskMessage rid actor task mid now | None => mret tt end));
                   destruct (task_of_message d3 rid src); auto with store|].
  cbv beta. intros _ d4 E4. eapply wp_mono; [apply silent_insertEventAt|]. cbv beta. intros e d5 E5.
  exists [entry m], [msg_client m]. rewrite E5, E4, E3, Em, E1, view_append by done. subst rid.
  destruct (class_prompt m) as (-> & -> & ->); [by rewrite Ek|]. unfold state_in. rewrite Es. simpl. by rewrite !app_nil_r.
Qed.

Lemma paired_wp d m new f e :
  wp (paired_update (msg_room m) (msg_id m) (msg_state m) new f e) (fun _ d' => messages d' = moved d m new) d.
Proof. eapply wp_mono; [apply paired_update_post|]. by intros _ d' [-> _]. Qed.

Lemma failed_control_gone d m :
  wf None None d -> m ∈ messages d -> contains control_kinds (msg_kind m) = true -> msg_state m = RequestNeedsReview ->
  msg_client m ∉ v_ctrls (room_view (msg_room m) (moved d m RequestFailed)).
Proof.
  intros W Hm Ek Es. pose proof (class_control m Ek) as (C1 & C2 & C3).
  pose proof (class_control (set_msg_state RequestFailed m) Ek) as (C4 & C5 & C6). simpl in C4, C5, C6.
  rewrite (view_control_done d W m Hm); rewrite ?C2, ?C3, ?C4, ?C5, ?C6; try done.
  simpl. unfold without_id. intros [_ H]%filter_elem_of. by rewrite String.eqb_refl in H.
Qed.

(** Skipping or continuing: the target fails, a recovery prompt may be queued. *)
Lemma terminalize_decides d m t actor i c k p now (continue_ : bool) :
  wf None None d -> m ∈ messages d -> msg_state m = RequestNeedsReview -> has_binding (msg_kind m) = true -> sm_id t = msg_id m ->
  wp (terminalizeReviewed (msg_room m) (sm_id t) c now;;
      e ← appendEvent (msg_room m) (ac_UID actor) k p now;
      if continue_ then
        q ← insertRecoveryPrompt (msg_room m) actor (ri_ReplacementMessageID i) (ri_Instruction i) (sm_id t) now;
        mret ([e; q], @None RetryCommand)
      else mret ([e], None))
     (fun _ d' => decides (msg_client m) (room_view (msg_room m) (messages d)) (room_view (msg_room m) (messages d'))) d.
Proof.
  intros W Hm Es Hb Et. rewrite Et, terminalizeReviewed_paired, <- Es. wp_step. eapply wp_mono; [apply paired_wp|].
  cbv beta. intros _ d1 E1. wp_step. eapply wp_mono; [apply silent_appendEvent|]. cbv beta. intros e d2 E2.
  assert (Hk : contains prompt_kinds (msg_kind m) = true \/ contains control_kinds (msg_kind m) = true)
    by (destruct (msg_kind m); auto).
  assert (D : decides (msg_client m) (room_view (msg_room m) (messages d)) (room_view (msg_room m) (messages d2))).
  { rewrite E2, E1. destruct Hk; [apply decides_prompt|apply decides_control]; auto. }
  destruct continue_; [|done].
  wp_step. eapply wp_mono; [apply insertRecoveryPrompt_view|]. cbv beta. intros q d3 (x & y & E3). apply wp_ret. rewrite E3.
  destruct Hk as [Hk|Hk].
  - destruct D as [D1 [D|(D2 & D3)]]; split; simpl.
    1, 3: intros z Hz; apply elem_of_app; left; auto.
    + by left.
    + exfalso. apply list_elem_of_fmap in D2 as (z & Ez & [Hz Cz]%filter_elem_of).
      assert (z = m) as ->.
      { eapply NoDup_fmap_inj; [apply (wf_clients _ _ _ W)|done|done|]. simpl. rewrite <- Ez. f_equal. by apply room_of_control. }
      destruct (class_prompt m Hk) as (_ & _ & C). congruence.
  - apply decides_queued; [done|]. rewrite E2, E1. by apply failed_control_gone.
Qed.

Lemma resolve_action_decides d m t actor i now :
  wf None None d -> m ∈ messages d -> msg_state m = RequestNeedsReview -> has_binding (msg_kind m) = true ->
  sm_id t = msg_id m -> sm_kind t = msg_kind m ->
  wp (resolve_action (msg_room m) actor i t now)
     (fun _ d' => decides (msg_client m) (room_view (msg_room m) (messages d)) (room_view (msg_room m) (messages d'))) d.
Proof.
  intros W Hm Es Hb Et Ek. unfold resolve_action. destruct (ri_Action i) eqn:Ea; [| | |done].
  - wp_step. eapply (wp_mono _ (fun _ d' => decides (msg_client m) (room_view (msg_room m) (messages d)) (room_view (msg_room m) (messages d')))).
    + rewrite Ek, Et. destruct (contains prompt_kinds (msg_kind m)) eqn:Hk; wp_step.
      * rewrite resetReviewedPrompt_paired, <- Es. eapply wp_mono; [apply paired_wp|]. cbv beta. intros _ d1 E1.
        apply wp_ret. rewrite E1. apply decides_prompt; auto.
      * rewrite resetReviewedControl_paired, <- Es. eapply wp_mono; [apply paired_wp|]. cbv beta. intros _ d1 E1.
        wp_step. eapply wp_mono; [apply (silent_frame (retryCommand _ _ _)); auto with store|]. cbv beta. intros r d2 E2.
        apply wp_ret. rewrite E2, E1. apply decides_control; auto. by destruct (msg_kind m).
    + cbv beta. intros r d1 D. wp_step. eapply wp_mono; [apply silent_appendEvent|]. cbv beta. intros e d2 E2.
      apply wp_ret. by rewrite E2.
  - by apply (terminalize_decides d m t actor i _ _ _ now false).
  - by apply (terminalize_decides d m t actor i _ _ _ now true).
Qed.

Lemma vs_ResolveReview rid actor i now :
  vspec rid (ResolveReview_tx rid actor i now) (fun v v' r => resolves (ri_TargetMessageID i) v v' r.1).
Proof.
  intros d W. unfold ResolveReview_tx. wp_step. apply wp_get.
  destruct (loadStoredMessage d rid _) as [sm|].
  { unfold resolve_duplicate. wp_steps.
    eapply wp_mono; [apply (silent_frame (loadRecoveryEvents _ _)); auto with store|]. cbv beta. intros l d1 E1.
    apply wp_ret. unfold resolves. cbn [rr_Duplicate fst]. by rewrite E1. }
  unfold resolve_new. wp_step. eapply wp_framed; [auto with store|exact (inv_refl _ _ _ W)|]. intros _ d1 E1%core_messages H1.
  wp_step. apply wp_get. destruct (loadStoredMessage d1 _ _) as [t|] eqn:E; [|done].
  apply loadStoredMessage_elem in E as (m & Hm & -> & <- & Ecl).
  wp_step. apply wp_guard. intros [G1 G2]%andb_prop. apply bool_decide_eq_true_1 in G1. simpl in G1, G2.
  wp_step. apply wp_guard. intros _.
  wp_step. eapply wp_mono; [apply wp_and; [exact (allocateSeq_inv _ _ _ _ H1)|apply silent_allocateSeq]|].
  cbv beta. intros seq d2 [[H2 Ha] E2].
  wp_step. eapply wp_mono; [apply wp_and; [by eapply insert_message_inv|apply insert_message_effect]|].
  cbv beta. intros mid d3 [(H3 & _ & _) (x & Ex & Ee & Er & Ek & Es)].
  wp_step. eapply wp_mono; [apply wp_and; [exact (insertEventAt_inv _ _ _ _ _ _ _ _ _ H3)|apply silent_insertEventAt]|].
  cbv beta. intros e d4 [H4 E4].
  assert (E : messages d4 = messages d ++ [x]) by congruence.
  wp_step. eapply wp_mono; [apply (resolve_action_decides d4 m)|]; try done.
  { apply H4. }
  { rewrite E. apply elem_of_app. left. first [exact Hm | rewrite E1 in Hm; exact Hm | rewrite <- E1; exact Hm]. }
  intros [more retry] d5 D. cbv iota beta in D |- *.
  wp_step. eapply wp_mono; [apply (silent_frame (insert_recovery_result _ _ _ _)); auto with store|]. cbv beta. intros _ d6 E6.
  wp_step. eapply wp_mono; [apply silent_link_events|]. cbv beta. intros _ d7 E7. apply wp_ret.
  unfold resolves. cbn [rr_Duplicate fst]. rewrite E7, E6, <- Ecl.
  rewrite E, view_append in D by done. rewrite <- Er in D.
  destruct (class_other x) as (C1 & C2 & C3); [by rewrite Ek|]. rewrite C1, C2, C3, !app_nil_r, Er in D.
  destruct D as [D1 D2]. split; [|exact D2]. intros y Hy. apply D1. simpl. apply elem_of_app. by left.
Qed.
