(* ===== verification/StoreAdmissionSafety.v ===== *)
(** * Admission: who a token speaks for

    No operation outside admission touches the join requests; the requests that
    carry authority, approved or revoked, are bound to members one to one; only a
    decision of the host makes or ends such a binding. *)
From S2P Require Import Prelude GoStrings Sha256 Json RoomTypes StoreSchema StoreBase StoreTasks StoreRepository.
From S2P Require Import StoreRecovery StoreAdmission StoreInvariant StoreOps.

(** ** Bodies that leave the join requests alone *)

Definition aside {A} (m : StoreTx A) : Prop := forall d, wp m (fun _ d' => join_requests d' = join_requests d) d.
Lemma aside_bind {A B} (m : StoreTx A) (k : A -> StoreTx B) : aside m -> (forall a, aside (k a)) -> aside (m ≫= k).
Proof.
  intros Hm Hk d. apply wp_bind. eapply wp_mono; [apply Hm|]. intros a d' E. cbn in E.
  eapply wp_mono; [apply Hk|]. intros b d2 E'. cbn in E'. cbn. congruence.
Qed.
Lemma aside_modify f : (forall d, join_requests (f d) = join_requests d) -> aside (tx_modify f).
Proof. intros H d. apply wp_modify, H. Qed.
Lemma aside_ret {A} (a : A) : aside (mret a).
Proof. by intros d. Qed.
Lemma aside_fail {A} e : aside (A:=A) (tx_fail e).
Proof. by intros d. Qed.
Lemma aside_get : aside tx_get.
Proof. by intros d. Qed.
Lemma aside_guard b e : aside (tx_guard b e).
Proof. intros d. by apply wp_guard. Qed.
Lemma aside_lift {A} (r : result error A) : aside (tx_lift r).
Proof. intros d. by apply wp_lift. Qed.
Lemma aside_onerror {A} e (m : StoreTx A) : aside m -> aside (tx_onerror e m).
Proof. intros H d. apply wp_onerror, H. Qed.
Create HintDb aside discriminated.
#[export] Hint Resolve aside_ret aside_fail aside_get aside_guard aside_lift : aside.

Ltac head t := lazymatch t with ?f _ => head f | _ => t end.
(** Walk a body, opening the definitions it calls. *)
Ltac aside_tac :=
  repeat lazymatch goal with
  | |- aside (mbind _ _) => apply aside_bind; [|intros ?]
  | |- aside (tx_modify _) => apply aside_modify; reflexivity
  | |- aside (tx_onerror _ _) => apply aside_onerror
  | |- aside (match ?x with _ => _ end) => destruct x
  | |- aside (let x := _ in _) => cbv zeta
  | |- aside ?m => first [solve [auto with aside] | let f := head m in progress unfold f]
  end.

Lemma aside_insert_members rid now l : aside (insert_members rid now l).
Proof. induction l; cbn [insert_members]; aside_tac. Qed.
Lemma aside_insert_private rid th l : aside (insert_private rid th l).
Proof. induction l; cbn [insert_private]; aside_tac. Qed.
Lemma aside_link_events mid rid i l : aside (link_events mid rid i l).
Proof. revert i. induction l; intros i; cbn [link_events]; aside_tac. Qed.
#[export] Hint Resolve aside_insert_members aside_insert_private aside_link_events : aside.

Lemma aside_transactConditional {A} s (w : StoreTx (A * bool)) : aside w -> join_requests (db (transactConditional s w).1) = join_requests (db s).
Proof.
  intros H. destruct (transactConditional s w) as [s' r] eqn:E. apply transactConditional_cases in E.
  destruct r; [|by subst]. destruct E as (wr & d & E & -> & _). exact (wp_ok _ _ _ _ _ (H (db s)) E).
Qed.
Lemma aside_transact {A} s (w : StoreTx A) : aside w -> join_requests (db (transact s w).1) = join_requests (db s).
Proof. intros H. apply aside_transactConditional. apply aside_bind; [done|]. intros a. aside_tac. Qed.
Lemma aside_autocommit {A} s (w : StoreTx A) : aside w -> join_requests (db (autocommit s w).1) = join_requests (db s).
Proof.
  intros H. unfold autocommit. destruct (w (db s)) as [[a d]|] eqn:E; [|done]. destruct (commitFault s); [done|].
  exact (wp_ok _ _ _ _ _ (H (db s)) E).
Qed.
Lemma aside_check {A} s c (k : Store * result error A) :
  join_requests (db k.1) = join_requests (db s) -> join_requests (db (with_check s c k).1) = join_requests (db s).
Proof. by destruct c. Qed.

Definition admits (op : store_op) : bool := match op with OpRequestJoin _ _ _ _ _ _ | OpDecideJoin _ _ _ _ _ => true | _ => false end.
Lemma exec_aside s op : admits op = false -> join_requests (db (exec s op)) = join_requests (db s).
Proof.
  destruct op; try discriminate; intros _; cbn [exec];
    unfold InitializeRoom, AcceptMessage, AppendNote, AcceptControl, accept, BeginDispatch, FinishControl, FailDispatch,
      BindRunningTurn, RecordCompletedItem, FinishTurn, MarkNeedsReview, Connected, Ack, Disconnected, CloseStale,
      SaveRuntimeCheckpoint, BindThread, MarkThreadNeedsRepair, SetRoomStatus, RepairThread, ResolveReview,
      BeginPrivateTurn, EndPrivateTurn, PrivateTurns, ResetUnusedThread, ChangeTask;
    repeat apply aside_check.
  all: try first [apply aside_transact | apply aside_transactConditional | apply aside_autocommit]; try solve [aside_tac].
  - destruct (item_payload i); [|done]. apply aside_transactConditional. aside_tac.
  - destruct (List.find _ _) as [f|]; [|done]. destruct (added_turns _ _) as [a|]; [|done].
    assert (E : aside (EndPrivateTurn_tx rid th a)) by aside_tac.
    pose proof (aside_transact s _ E) as H. unfold EndPrivateTurn. by destruct (transact s _).
  - destruct (validTaskRequest q); [|done]. destruct (existsb _ _); cbn [negb]; [|done]. apply aside_transact. aside_tac.
Qed.

(** ** The table of requests *)

#[export] Instance JoinRow_eq_dec : EqDecision JoinRow.
Proof. solve_decision. Defined.

(** Requests that carry authority, or carried it. *)
Definition granted (j : JoinRow) : bool := has_state ["approved"; "revoked"] j.
#[local] Arguments granted : simpl never.
Record joins_wf (d : DB) : Prop := mk_joins_wf
  { jw_ids : NoDup (j_id <$> join_requests d);
    jw_hashes : NoDup ((fun j => (j_room j, j_token_hash j)) <$> join_requests d);
    jw_member : forall j, j ∈ join_requests d -> granted j = true ->
      exists m, m ∈ members d /\ m_room m = j_room j /\ m_uid m = j_uid j /\ m_username m = j_name j;
    jw_personal : forall j1 j2, j1 ∈ join_requests d -> j2 ∈ join_requests d -> granted j1 = true -> granted j2 = true ->
      j_room j1 = j_room j2 -> j_uid j1 = j_uid j2 -> j1 = j2 }.

(** Nothing changes about authority. *)
Record same_grants (d d' : DB) : Prop := mk_same_grants
  { sg_members : members d' = members d;
    sg_ids : NoDup (j_id <$> join_requests d) -> NoDup (j_id <$> join_requests d');
    sg_hashes : NoDup ((fun j => (j_room j, j_token_hash j)) <$> join_requests d) ->
                NoDup ((fun j => (j_room j, j_token_hash j)) <$> join_requests d');
    sg_grants : forall j, granted j = true -> j ∈ join_requests d' <-> j ∈ join_requests d }.
#[export] Instance same_grants_preorder : PreOrder same_grants.
Proof.
  split; [by intros d|]. intros d1 d2 d3 [] []. split; [congruence|auto|auto|]. intros j Hj. by rewrite <- sg_grants0, sg_grants1.
Qed.
Lemma same_grants_wf d d' : same_grants d d' -> joins_wf d -> joins_wf d'.
Proof.
  intros [M I H G] []. split; [auto|auto| |].
  - intros j Hj Gj. rewrite M. by apply jw_member0; [apply G|].
  - intros j1 j2 H1 H2 G1 G2. by apply jw_personal0; [apply G|apply G|..].
Qed.

(** What becomes of a request that carries authority. *)
Definition grant_evolves (j j' : JoinRow) : Prop :=
  j' = j \/ (j_state j = "approved" /\ j' = with_state_uid "revoked" (j_uid j) j).
Definition grants_evolve (d d' : DB) : Prop :=
  forall j, j ∈ join_requests d -> granted j = true -> exists j', j' ∈ join_requests d' /\ grant_evolves j j'.
Lemma grant_evolves_granted j j' : granted j = true -> grant_evolves j j' -> granted j' = true.
Proof. intros G [->|[_ ->]]; done. Qed.
#[export] Instance grants_evolve_preorder : PreOrder grants_evolve.
Proof.
  split; [intros d j Hj _; exists j; split; [done|by left]|].
  intros d1 d2 d3 H1 H2 j Hj G. destruct (H1 j Hj G) as (j2 & Hj2 & E2).
  destruct (H2 j2 Hj2 (grant_evolves_granted _ _ G E2)) as (j3 & Hj3 & E3). exists j3. split; [done|].
  destruct E2 as [->|[S ->]]; [done|]. right. destruct E3 as [->|[S' _]]; [done|discriminate S'].
Qed.
Lemma same_grants_evolve d d' : same_grants d d' -> grants_evolve d d'.
Proof. intros [_ _ _ G] j Hj Gj. exists j. split; [by apply G|by left]. Qed.

(** A decision that takes a request from waiting to a member. *)
Definition approves (d : DB) (op : store_op) (j : JoinRow) : Prop :=
  exists now role j0, op = OpDecideJoin now (j_room j) (j_id j) "approve" role /\ j0 ∈ join_requests d /\ j_state j0 = "pending" /\
    j_id j0 = j_id j /\ j_room j0 = j_room j /\ j_token_hash j0 = j_token_hash j /\ j_name j0 = j_name j.

(** ** Requests for admission *)

Lemma NoDup_sub {A B} (f : A -> B) (p : A -> bool) l : NoDup (f <$> l) -> NoDup (f <$> List.filter p l).
Proof.
  induction l as [|x l IH]; [done|]. cbn. intros [Hx H]%NoDup_cons. destruct (p x); [|by apply IH]. cbn. constructor; [|by apply IH].
  intros (y & E & [Hy _]%filter_elem_of)%list_elem_of_fmap. apply Hx. rewrite E. by apply list_elem_of_fmap_2.
Qed.

Lemma update_same_grants p st u d :
  (forall j, p j = true -> granted j = false) -> has_state ["approved"; "revoked"] {| j_id := ""; j_room := ""; j_token_hash := ""; j_name := ""; j_state := st; j_address := ""; j_uid := 0; j_created := 0 |} = false ->
  same_grants d (set_join_requests (update_where p (fun j => with_state_uid st (u j) j)) d).
Proof.
  intros Hp Hs. assert (Hg : forall j, granted (with_state_uid st (u j) j) = false) by (intros j; exact Hs).
  split; cbn; [done| | |].
  - by rewrite update_where_fmap.
  - by rewrite update_where_fmap.
  - intros j G. rewrite elem_of_update_where. split.
    + intros (x & Hx & ->). destruct (p x) eqn:E; [|done]. by rewrite Hg in G.
    + intros Hj. exists j. split; [done|]. destruct (p j) eqn:E; [by rewrite Hp in G|done].
Qed.

Lemma insert_join_same j d : granted j = false -> wp (insert_join j) (fun _ d' => same_grants d d') d.
Proof.
  intros G. unfold insert_join. wp_steps. bool_props. rename select (existsb _ _ = false) into Hh.
  rename select (existsb (fun x => _) _ = false) into Hi. split; cbn; [done| | |].
  - intros N. rewrite fmap_app. apply NoDup_snoc; [done|]. intros (x & E & Hx)%list_elem_of_fmap.
    eapply existsb_false in Hi; [|done]. cbn in Hi. by rewrite E, String.eqb_refl in Hi.
  - intros N. rewrite fmap_app. apply NoDup_snoc; [done|]. intros (x & E & Hx)%list_elem_of_fmap. injection E as E1 E2.
    eapply existsb_false in Hh; [|done]. unfold has_hash, in_room in Hh. by rewrite E1, E2, !String.eqb_refl in Hh.
  - intros x Gx. rewrite elem_of_app, list_elem_of_singleton. split; [|by left]. intros [Hx| ->]; [done|]. by rewrite G in Gx.
Qed.
Lemma free_capacity_same rid d : wp (free_capacity rid) (fun _ d' => same_grants d d') d.
Proof.
  unfold free_capacity. wp_steps; [|reflexivity]. split; cbn; [done| | |].
  - apply NoDup_sub.
  - apply NoDup_sub.
  - intros j G. rewrite filter_elem_of. split; [tauto|]. intros Hj. split; [done|]. unfold granted, has_state in *. cbn in *.
    destruct (in_room j_room rid j); [|done]. cbn.
    apply orb_true_iff in G as [->%String.eqb_eq|[->%String.eqb_eq|]%orb_true_iff]; done.
Qed.
Lemma RequestJoin_same rid hash name address random now d :
  wp (RequestJoin_tx rid hash name address random now) (fun _ d' => same_grants d d') d.
Proof.
  unfold RequestJoin_tx. wp_step. apply wp_modify. set (d1 := set_join_requests _ d).
  assert (S1 : same_grants d d1).
  { apply update_same_grants; [|done]. intros j Hj. bool_props. unfold granted, has_state.
    rename select (String.eqb _ _ = true) into E. apply String.eqb_eq in E. by rewrite E. }
  clearbody d1. cbv beta. wp_step. apply wp_get. cbv beta. destruct (List.find _ _); [exact S1|].
  wp_step. apply wp_guard. intros _. wp_step. eapply wp_mono; [apply free_capacity_same|]. simpl. intros _ d2 S2.
  wp_step. apply wp_lift. intros b _. cbv beta zeta. wp_step. eapply wp_mono; [by apply insert_join_same|]. simpl. intros _ d3 S3.
  wp_step. by do 2 (etrans; [done|]).
Qed.

(** ** Decisions *)

Lemma has_idP rid id j : has_id rid id j = true <-> j_room j = rid /\ j_id j = id.
Proof. unfold has_id. rewrite andb_true_iff, in_roomP, String.eqb_eq. done. Qed.
Lemma ids_inj d j1 j2 : NoDup (j_id <$> join_requests d) -> j1 ∈ join_requests d -> j2 ∈ join_requests d -> j_id j1 = j_id j2 -> j1 = j2.
Proof. apply NoDup_fmap_inj. Qed.
Lemma update_id rid id f d j : NoDup (j_id <$> join_requests d) -> j ∈ join_requests d -> has_id rid id j = true ->
  forall x, x ∈ update_where (has_id rid id) f (join_requests d) <-> x = f j \/ (x ∈ join_requests d /\ x <> j).
Proof.
  intros N Hj Hi x. rewrite elem_of_update_where. split.
  - intros (y & Hy & ->). destruct (has_id rid id y) eqn:E.
    + left. apply has_idP in E as [_ E], Hi as [_ Hi]. f_equal. apply (ids_inj d); congruence.
    + right. split; [done|]. intros ->. congruence.
  - intros [-> |[Hx Hne]]; [exists j; by rewrite Hi|]. exists x. split; [done|].
    destruct (has_id rid id x) eqn:E; [|done]. destruct Hne. apply has_idP in E as [_ E], Hi as [_ Hi]. apply (ids_inj d); congruence.
Qed.

Lemma next_uid_fresh d rid m : m ∈ members d -> m_room m = rid -> m_uid m < next_uid d rid.
Proof.
  intros Hm E. assert (Hf : m ∈ List.filter (in_room m_room rid) (members d)) by (apply filter_elem_of; by rewrite in_roomP).
  unfold next_uid. revert Hf. generalize (List.filter (in_room m_room rid) (members d)) as l.
  intros l Hf. induction Hf as [x l|x y l Hf IH]; cbn; [lia|]. specialize (IH Hm E). lia.
Qed.

(** What the decision does to the rest of the database, before the request is
    updated. *)
Definition acted (rid : RoomID) (r : JoinRequest) (action : string) (d : DB) (r' : JoinRequest) (d' : DB) : Prop :=
  join_requests d' = join_requests d /\
  ((action = "approve" /\ jn_State r = "pending" /\ jn_State r' = "approved" /\ jn_UID r' = next_uid d rid /\
    exists now, members d' = members d ++ [{| m_room := rid; m_uid := next_uid d rid; m_username := jn_Name r; m_added_at := now |}]) \/
   (action = "deny" /\ jn_State r = "pending" /\ jn_State r' = "denied" /\ jn_UID r' = jn_UID r /\ members d' = members d) \/
   (action = "revoke" /\ jn_State r = "approved" /\ jn_State r' = "revoked" /\ jn_UID r' = jn_UID r /\ members d' = members d)).
Lemma decide_action_acts rid r action role now d : wp (decide_action rid r action role now) (fun r' d' => acted rid r action d r' d') d.
Proof.
  unfold decide_action, insert_member, insert_role. wp_steps; bool_props.
  all: repeat match goal with H : String.eqb _ _ = true |- _ => apply String.eqb_eq in H end; split; try done.
  - left. split_and!; try done. by exists now.
  - right. left. done.
  - right. right. done.
Qed.

(** The table after the request [j] has become [j']. *)
Record decided (action : string) (d d' : DB) (j j' : JoinRow) : Prop := mk_decided
  { dc_old : j ∈ join_requests d;
    dc_rows : forall x, x ∈ join_requests d' <-> x = j' \/ (x ∈ join_requests d /\ x <> j);
    dc_ids : j_id <$> join_requests d' = j_id <$> join_requests d;
    dc_hashes : (fun j => (j_room j, j_token_hash j)) <$> join_requests d' = (fun j => (j_room j, j_token_hash j)) <$> join_requests d;
    dc_same : j' = with_state_uid (j_state j') (j_uid j') j;
    dc_members : members d `prefix_of` members d';
    dc_action : (action = "approve" /\ j_state j = "pending" /\ j_state j' = "approved" /\
                 (exists m, m ∈ members d' /\ m_room m = j_room j /\ m_uid m = j_uid j' /\ m_username m = j_name j) /\
                 forall m, m ∈ members d -> m_room m = j_room j -> m_uid m < j_uid j') \/
                (action = "deny" /\ j_state j = "pending" /\ j_state j' = "denied") \/
                (action = "revoke" /\ j_state j = "approved" /\ j_state j' = "revoked" /\ j_uid j' = j_uid j) }.
Lemma decideJoin_decides rid id action role now d : NoDup (j_id <$> join_requests d) ->
  wp (decideJoin_tx rid id action role now)
     (fun r d' => exists j j', decided action d d' j j' /\ j_room j = rid /\ j_id j = id /\ jn_UID r = j_uid j' /\ jn_State r = j_state j') d.
Proof.
  intros N. unfold decideJoin_tx. wp_step. apply wp_get. cbv beta.
  destruct (List.find _ _) as [j|] eqn:E; [|done]. apply find_some_elem in E as [Hj E]. pose proof E as [R I]%has_idP.
  wp_step. eapply wp_mono; [apply decide_action_acts|]. intros r d1 (J & H). cbv beta in *. wp_steps.
  exists j, (with_state_uid (jn_State r) (jn_UID r) j). split_and!; try done. split; cbn; try done.
  - intros x. rewrite J. by apply update_id.
  - rewrite J. by rewrite update_where_fmap.
  - rewrite J. by rewrite update_where_fmap.
  - destruct H as [(_ & _ & _ & _ & t & ->)|[H|H]]; [by apply prefix_app_r|destruct H as (_ & _ & _ & _ & ->)..]; done.
  - cbn in H. destruct H as [(A & S & S' & U & t & M)|[(A & S & S' & _)|(A & S & S' & U & _)]]; [left|right; by left|right; right; by rewrite U].
    split_and!; try done.
    + eexists. rewrite M. split; [apply elem_of_app; right; by apply list_elem_of_singleton|]. by rewrite R, U.
    + intros m Hm Rm. rewrite U. apply next_uid_fresh; congruence.
Qed.

Section decided.
Context {action : string} {d d' : DB} {j j' : JoinRow} (D : decided action d d' j j').
Lemma decided_fields : j_room j' = j_room j /\ j_id j' = j_id j /\ j_token_hash j' = j_token_hash j /\ j_name j' = j_name j.
Proof. pose proof (dc_same _ _ _ _ _ D) as E. by rewrite E. Qed.
Lemma decided_state : granted j' = true -> (j_state j = "pending" /\ j_state j' = "approved" /\ action = "approve") \/
  (j_state j = "approved" /\ j_state j' = "revoked" /\ j_uid j' = j_uid j).
Proof.
  destruct (dc_action _ _ _ _ _ D) as [(-> & S & S' & _)|[(_ & _ & S')|(_ & S & S' & U)]]; [by left| |by right].
  unfold granted, has_state. by rewrite S'.
Qed.
Lemma decided_member m : m ∈ members d -> m ∈ members d'.
Proof. intros Hm. destruct (dc_members _ _ _ _ _ D) as [l ->]. apply elem_of_app. by left. Qed.
Lemma state_granted st x : j_state x = st -> st = "approved" \/ st = "revoked" -> granted x = true.
Proof. unfold granted, has_state. intros ->. by intros [-> | ->]. Qed.
Lemma pending_not_granted x : j_state x = "pending" -> granted x = false.
Proof. unfold granted, has_state. by intros ->. Qed.

Lemma decided_personal x : joins_wf d -> granted j' = true -> x ∈ join_requests d -> x <> j -> granted x = true ->
  j_room j' = j_room x -> j_uid j' = j_uid x -> False.
Proof.
  intros W G Hx Hne Gx R U. destruct decided_fields as (ER & _ & _ & _).
  destruct (dc_action _ _ _ _ _ D) as [(_ & S & S' & _ & F)|[(_ & _ & S')|(_ & S & S' & U')]].
  - destruct (jw_member _ W x Hx Gx) as (m & Hm & Rm & Um & _). specialize (F m Hm). rewrite Rm, Um in F. specialize (F ltac:(congruence)). lia.
  - unfold granted, has_state in G. by rewrite S' in G.
  - apply Hne. apply (jw_personal _ W); [done|apply (dc_old _ _ _ _ _ D)|done| |congruence|congruence].
    apply (state_granted "approved"); auto.
Qed.
Lemma decided_wf : joins_wf d -> joins_wf d'.
Proof.
  intros W. destruct decided_fields as (ER & EI & EH & EN). split.
  - rewrite (dc_ids _ _ _ _ _ D). apply jw_ids, W.
  - rewrite (dc_hashes _ _ _ _ _ D). apply jw_hashes, W.
  - intros x [-> |[Hx _]]%(dc_rows _ _ _ _ _ D) G.
    + destruct (dc_action _ _ _ _ _ D) as [(_ & S & S' & (m & Hm & Rm & Um & Nm) & _)|[(_ & _ & S')|(_ & S & S' & U)]].
      * exists m. split_and!; congruence.
      * unfold granted, has_state in G. by rewrite S' in G.
      * destruct (jw_member _ W j (dc_old _ _ _ _ _ D)) as (m & Hm & Rm & Um & Nm); [by apply (state_granted "approved"); auto|].
        exists m. split_and!; [by apply decided_member|congruence..].
    + destruct (jw_member _ W x Hx G) as (m & Hm & H). exists m. split; [by apply decided_member|done].
  - intros x1 x2 [-> |[H1 N1]]%(dc_rows _ _ _ _ _ D) [-> |[H2 N2]]%(dc_rows _ _ _ _ _ D) G1 G2 R U; [done| | |by apply (jw_personal _ W)].
    + destruct (decided_personal x2 W G1 H2 N2 G2 R U).
    + by destruct (decided_personal x1 W G2 H1 N1 G1).
Qed.
Lemma decided_evolves : grants_evolve d d'.
Proof.
  intros x Hx G. destruct (decide (x = j)) as [-> |Hne].
  - exists j'. split; [apply (dc_rows _ _ _ _ _ D); by left|]. right.
    destruct (dc_action _ _ _ _ _ D) as [(_ & S & _)|[(_ & S & _)|(_ & S & S' & U)]]; [by rewrite pending_not_granted in G..|].
    split; [done|]. rewrite (dc_same _ _ _ _ _ D), S', U. done.
  - exists x. split; [apply (dc_rows _ _ _ _ _ D); by right|by left].
Qed.
Lemma decided_approved x : x ∈ join_requests d' -> j_state x = "approved" -> x ∈ join_requests d \/ (x = j' /\ action = "approve" /\ j_state j = "pending").
Proof.
  intros [-> |[Hx _]]%(dc_rows _ _ _ _ _ D) S; [|by left]. right.
  destruct (dc_action _ _ _ _ _ D) as [(-> & Sj & _)|[(_ & _ & S')|(_ & _ & S' & _)]]; [done|congruence..].
Qed.
End decided.

(** ** Calls *)

Lemma joins_wf_grow d d' : join_requests d' = join_requests d -> members d `prefix_of` members d' -> joins_wf d -> joins_wf d'.
Proof.
  intros J [l M] []. split; rewrite ?J; try done.
  intros j Hj G. destruct (jw_member0 j Hj G) as (m & Hm & H). exists m. split; [|done]. rewrite M. apply elem_of_app. by left.
Qed.
Definition joins_step (d : DB) (op : store_op) (d' : DB) : Prop :=
  joins_wf d' /\ grants_evolve d d' /\ forall j, j ∈ join_requests d' -> j_state j = "approved" -> j ∈ join_requests d \/ approves d op j.
Lemma joins_step_same d op d' : joins_wf d -> same_grants d d' -> joins_step d op d'.
Proof.
  intros W S. split_and!; [by eapply same_grants_wf|by apply same_grants_evolve|].
  intros j Hj A. left. apply (sg_grants _ _ S); [|done]. by apply (state_granted "approved"); auto.
Qed.
Lemma joins_step_grow d op d' : joins_wf d -> join_requests d' = join_requests d -> members d `prefix_of` members d' -> joins_step d op d'.
Proof.
  intros W J M. split_and!; [by eapply joins_wf_grow| |].
  - intros j Hj _. exists j. rewrite J. split; [done|by left].
  - intros j Hj _. left. by rewrite <- J.
Qed.
Lemma decide_step now rid id action d op d' (r : JoinRequest) :
  joins_wf d -> (action = "approve" -> exists role, op = OpDecideJoin now rid id "approve" role) ->
  (exists j j', decided action d d' j j' /\ j_room j = rid /\ j_id j = id /\ jn_UID r = j_uid j' /\ jn_State r = j_state j') ->
  joins_step d op d'.
Proof.
  intros W O (j & j' & D & R & I & _). split_and!; [by eapply decided_wf|by eapply decided_evolves|].
  intros x Hx S. destruct (decided_approved D x Hx S) as [?|(-> & A & P)]; [by left|]. right.
  destruct (O A) as [role' ->]. destruct (decided_fields D) as (E1 & E2 & E3 & E4).
  exists now, role', j. split_and!; try congruence. apply (dc_old _ _ _ _ _ D).
Qed.

Lemma changeRole_same rid id role d : wp (changeRole_tx rid id role) (fun _ d' => join_requests d' = join_requests d /\ members d' = members d) d.
Proof. unfold changeRole_tx, upsert_role, insert_role. by wp_steps. Qed.

Lemma exec_joins s op : wf None None (db s) -> joins_wf (db s) -> joins_step (db s) op (db (exec s op)).
Proof.
  intros W J. destruct (admits op) eqn:A.
  2:{ apply joins_step_grow; [done|by apply exec_aside|]. apply (ev_members _ _ (proj2 (exec_ok s op W))). }
  assert (K : joins_step (db s) op (db s)) by (by apply joins_step_grow).
  assert (T : forall X (w : StoreTx X), wp w (fun _ d' => joins_step (db s) op d') (db s) -> joins_step (db s) op (db (transact s w).1)).
  { intros X w Hw. destruct (transact s w) as [s' r] eqn:E. apply transact_cases in E. destruct r; [|by subst].
    destruct E as (d & E & -> & _). exact (wp_ok _ _ _ _ _ Hw E). }
  destruct op; try discriminate A; cbn [exec]; unfold RequestJoin, DecideJoinRole, DecideJoin, decideJoin.
  - destruct (tokenHash token) as [h|]; [|done]. destruct (negb _ || _); [done|]. apply T.
    eapply wp_mono; [apply RequestJoin_same|]. simpl. intros _ d'. by apply joins_step_same.
  - assert (D : forall role',
      joins_step (db s) (OpDecideJoin now rid id action role) (db (transact s (decideJoin_tx rid id action role' now)).1)).
    { intros role'. apply T. eapply wp_mono; [apply decideJoin_decides, jw_ids, J|]. simpl. intros r d' H.
      apply (decide_step now rid id action _ _ _ r J); [|done]. intros ->. by exists role. }
    destruct (String.eqb role ""); [apply D|]. destruct (negb _ || _); [done|].
    destruct (String.eqb action "approve"); [apply D|]. apply T. eapply wp_mono; [apply changeRole_same|].
    simpl. intros _ d' [E M]. apply joins_step_grow; [done|done|]. by rewrite M.
Qed.
Lemma step_joins d c : wf None None d -> joins_wf d -> joins_step d (c_op c) (step d c).
Proof. intros W J. unfold step. by apply (exec_joins (mkStore d (c_hook c) (c_fault c))). Qed.
Lemma empty_joins : joins_wf empty_db.
Proof. split; [apply NoDup_nil_2|apply NoDup_nil_2|intros j Hj|intros j j2 Hj]; by apply not_elem_of_nil in Hj. Qed.
Lemma run_joins d l : wf None None d -> joins_wf d -> joins_wf (run d l) /\ grants_evolve d (run d l).
Proof.
  revert d. induction l as [|c l IH]; intros d W J; [done|]. destruct (step_joins d c W J) as (J1 & E1 & _).
  destruct (step_inv d c W) as [W1 _]. destruct (IH _ W1 J1) as [J2 E2]. split; [done|]. by etrans.
Qed.
Lemma reachable_joins l : joins_wf (run empty_db l).
Proof. apply run_joins; [apply empty_wf|apply empty_joins]. Qed.
Lemma run_app d l l' : run d (l ++ l') = run (run d l) l'.
Proof. apply foldl_app. Qed.
(** An approved request goes back to the decision that approved it. *)
Lemma approved_by_decision l j : j ∈ join_requests (run empty_db l) -> j_state j = "approved" ->
  exists l1 c l2, l = l1 ++ c :: l2 /\ approves (run empty_db l1) (c_op c) j.
Proof.
  induction l as [|c l IH] using rev_ind; intros Hj S; [by apply not_elem_of_nil in Hj|].
  rewrite run_app in Hj. destruct (step_joins _ c (reachable_wf l) (reachable_joins l)) as (_ & _ & A).
  destruct (A j Hj S) as [Hj'|P].
  - destruct (IH Hj' S) as (l1 & c' & l2 & -> & P). exists l1, c', (l2 ++ [c]). split; [by rewrite <- app_assoc|done].
  - by exists l, c, [].
Qed.

(** ** Authentication *)

Definition store_at (d : DB) : Store := mkStore d None None.

(** The approved request behind an identity. *)
Lemma authenticated d rid tok m : wf None None d -> joins_wf d -> AuthenticateJoin (store_at d) rid tok = Ok m ->
  exists h j, tokenHash tok = Ok h /\ j ∈ join_requests d /\ j_state j = "approved" /\ j_room j = rid /\ j_token_hash j = h /\
    j_uid j = mb_UID m /\ j_name j = mb_Name m.
Proof.
  intros W J. unfold AuthenticateJoin. destruct (tokenHash tok) as [h|]; [|done]. cbn [result_bind store_at db].
  destruct (List.find _ (join_requests d)) as [j|] eqn:E; [|done]. apply find_some_elem in E as [Hj E]. bool_props.
  unfold has_hash in *. bool_props. repeat match goal with H : String.eqb _ _ = true |- _ => apply String.eqb_eq in H end.
  rename select (in_room _ _ _ = true) into R. apply in_roomP in R. subst.
  unfold find_member. destruct (List.find (is_member _ _) _) as [x|] eqn:F; [|done]. intros [= <-].
  apply find_some_elem in F as [Hx F]. unfold is_member in F. bool_props. rename select (in_room _ _ _ = true) into R. apply in_roomP in R.
  exists (j_token_hash j), j. split_and!; try done. cbn.
  destruct (jw_member _ J j Hj) as (m & Hm & Rm & Um & <-); [by apply (state_granted "approved"); auto|].
  f_equal. apply (NoDup_fmap_inj (fun u => (m_room u, m_uid u)) (members d)); [apply (wf_members _ _ _ W)|done|done|]. congruence.
Qed.
Lemma refused_admission s rid tok e : AuthenticateJoin s rid tok = Err e -> e = Sentinel ErrAdmission.
Proof.
  unfold AuthenticateJoin, tokenHash. destruct (hex_DecodeString tok) as [b|]; [|by intros [= <-]].
  destruct (len b =? 32); cbn [result_bind]; [|by intros [= <-]]. repeat case_match; congruence.
Qed.
Lemma by_hash d j1 j2 : joins_wf d -> j1 ∈ join_requests d -> j2 ∈ join_requests d -> j_room j1 = j_room j2 -> j_token_hash j1 = j_token_hash j2 -> j1 = j2.
Proof. intros J H1 H2 R H. apply (NoDup_fmap_inj _ _ _ _ (jw_hashes _ J) H1 H2). cbn. congruence. Qed.
(** A request that was approved, seen later. *)
Lemma later_grant d l j : wf None None d -> joins_wf d -> j ∈ join_requests d -> granted j = true ->
  exists j', j' ∈ join_requests (run d l) /\ granted j' = true /\ j_room j' = j_room j /\ j_token_hash j' = j_token_hash j /\
    j_uid j' = j_uid j /\ j_name j' = j_name j /\ (j_state j = "revoked" -> j' = j).
Proof.
  intros W J Hj G. destruct (run_joins d l W J) as [_ E]. destruct (E j Hj G) as (j' & Hj' & V). exists j'.
  split; [done|]. split; [by eapply grant_evolves_granted|]. destruct V as [->|[S ->]]; [done|]. split_and!; try done. congruence.
Qed.

(** C5: A token speaks for one member, and a member for one token.  Whatever calls
    the store received before and in between, two tokens that are accepted, at two
    moments, are accepted as the same member exactly when they are the same token (up
    to the hash that is stored), and that member is then the same, name included. *)
Theorem credentials_are_personal l1 l2 rid tok1 tok2 m1 m2 :
  AuthenticateJoin (store_at (run empty_db l1)) rid tok1 = Ok m1 ->
  AuthenticateJoin (store_at (run empty_db (l1 ++ l2))) rid tok2 = Ok m2 ->
  (tokenHash tok1 = tokenHash tok2 <-> mb_UID m1 = mb_UID m2) /\ (mb_UID m1 = mb_UID m2 -> m1 = m2).
Proof.
  intros A1 A2. pose proof (reachable_joins (l1 ++ l2)) as J2.
  apply authenticated in A1 as (h1 & j1 & T1 & I1 & S1 & R1 & E1 & U1 & N1); [|apply reachable_wf|apply reachable_joins].
  apply authenticated in A2 as (h2 & j2 & T2 & I2 & S2 & R2 & E2 & U2 & N2); [|apply reachable_wf|done].
  destruct (later_grant _ l2 j1 (reachable_wf l1) (reachable_joins l1) I1) as (j & I & G & R & E & U & N & _);
    [by apply (state_granted "approved"); auto|]. rewrite <- run_app in I.
  assert (K : mb_UID m1 = mb_UID m2 -> j = j2).
  { intros EU. apply (jw_personal _ J2); [done|done|done|by apply (state_granted "approved"); auto|congruence|congruence]. }
  rewrite T1, T2. split; [split|].
  - intros [= Eh]. assert (j = j2) by (apply (by_hash _ _ _ J2); congruence). congruence.
  - intros EU. specialize (K EU). congruence.
  - intros EU. specialize (K EU). destruct m1, m2. cbn in *. f_equal; congruence.
Qed.

(** C6: A revoked token is refused for ever.  Once a revocation has succeeded, no
    calls whatsoever make any token authenticate as the member it concerned, and the
    token that did is refused as not admitted. *)
Theorem revoked_never_returns l hook fault now rid id s' r :
  DecideJoinRole (mkStore (run empty_db l) hook fault) now rid id "revoke" "" = (s', Ok r) ->
  forall l2, let later := store_at (run (db s') l2) in
    (forall tok m, AuthenticateJoin later rid tok = Ok m -> mb_UID m <> jn_UID r) /\
    (forall tok m, AuthenticateJoin (store_at (run empty_db l)) rid tok = Ok m -> mb_UID m = jn_UID r ->
       AuthenticateJoin later rid tok = Err (Sentinel ErrAdmission)).
Proof.
  intros E l2 later. pose proof (reachable_wf l) as W. pose proof (reachable_joins l) as J.
  pose proof (exec_ok (mkStore (run empty_db l) hook fault) (OpDecideJoin now rid id "revoke" "") W) as [W' _].
  pose proof (exec_joins (mkStore (run empty_db l) hook fault) (OpDecideJoin now rid id "revoke" "") W J) as (J' & V & _).
  cbn [exec] in W', J', V. rewrite E in W', J', V. cbn [fst] in *.
  cbn in E. apply transact_cases in E as (d' & E & -> & _). cbn [db] in *.
  pose proof (wp_ok _ _ _ _ _ (decideJoin_decides rid id "revoke" "roommate" now _ (jw_ids _ J)) E) as (j & j' & D & R & _ & U & _).
  assert (S' : j_state j' = "revoked") by (destruct (dc_action _ _ _ _ _ D) as [([=] & _)|[([=] & _)|(_ & _ & ? & _)]]; done).
  destruct (decided_fields D) as (Rj & _ & Hj & _).
  assert (I' : j' ∈ join_requests d') by (apply (dc_rows _ _ _ _ _ D); by left).
  destruct (later_grant d' l2 j' W' J' I') as (j2 & I2 & G2 & R2 & H2 & U2 & _ & St2); [by apply (state_granted "revoked"); auto|].
  specialize (St2 S') as ->. destruct (run_joins d' l2 W' J') as [JL _]. destruct (run_inv d' l2 W') as [WL _].
  assert (Never : forall tok m, AuthenticateJoin later rid tok = Ok m -> mb_UID m <> jn_UID r).
  { intros tok m (h & x & _ & Ix & Sx & Rx & _ & Ux & _)%authenticated Eu; [|done|done].
    assert (x = j') as -> by (apply (jw_personal _ JL); [done|done|by apply (state_granted "approved"); auto|done|congruence|congruence]).
    congruence. }
  split; [exact Never|]. intros tok m A Eu. destruct (AuthenticateJoin later rid tok) as [m'|e] eqn:B; [|f_equal; by eapply refused_admission].
  apply authenticated in A as (h & j0 & T0 & I0 & S0 & R0 & H0 & U0 & _); [|done|done].
  apply authenticated in B as (h' & x & Tx & Ix & Sx & Rx & Hx & _); [|done|done].
  destruct (dc_action _ _ _ _ _ D) as [([=] & _)|[([=] & _)|(_ & Sj & _ & Uj)]].
  assert (j0 = j) as -> by (apply (jw_personal _ J);
    [done|apply (dc_old _ _ _ _ _ D)|by apply (state_granted "approved"); auto..|congruence|congruence]).
  assert (x = j') as -> by (apply (by_hash _ _ _ JL); congruence). congruence.
Qed.

(** Only the host admits.  A token authenticates only if an earlier call approved
    the request that was waiting under its hash, in the same room, and it is
    accepted under the name that request asked for. *)
Theorem admission_by_decision l rid tok m :
  AuthenticateJoin (store_at (run empty_db l)) rid tok = Ok m ->
  exists l1 c l2 now id role j, l = l1 ++ c :: l2 /\ c_op c = OpDecideJoin now rid id "approve" role /\
    j ∈ join_requests (run empty_db l1) /\ j_id j = id /\ j_room j = rid /\ j_state j = "pending" /\ tokenHash tok = Ok (j_token_hash j) /\
    j_name j = mb_Name m.
Proof.
  intros (h & x & T & Ix & Sx & Rx & Hx & Ux & Nx)%authenticated; [|apply reachable_wf|apply reachable_joins].
  destruct (approved_by_decision l x Ix Sx) as (l1 & c & l2 & -> & now & role & j & O & Ij & Sj & Ej & Rj & Hj & Nj).
  exists l1, c, l2, now, (j_id x), role, j. split_and!; congruence.
Qed.

(** ** A room with two guests *)

Definition join_seed : RoomSeed :=
  {| sd_ID := "team"; sd_DisplayName := "Team"; sd_HostID := "host"; sd_ProjectRoot := "/p"; sd_ExecutionOwnerUID := 1000;
     sd_Members := [{| mb_UID := 1000; mb_Name := "ann" |}] |}.
Definition token_of (c : ascii) : string := of_bytes (replicate 64 c).
Definition guest_calls : list call :=
  ok_call <$> [OpInitializeRoom 0 join_seed;
    OpRequestJoin 0 "team" (token_of "a") "bob" "" (Ok "bytes of bob");
    OpRequestJoin 0 "team" (token_of "b") "cat" "" (Ok "bytes of cat");
    OpDecideJoin 0 "team" (hex_EncodeToString "bytes of bob") "approve" "visitor";
    OpDecideJoin 0 "team" (hex_EncodeToString "bytes of cat") "approve" ""].
Definition guests : DB := run empty_db guest_calls.
Abbreviation revoke_bob := (DecideJoinRole (mkStore (run empty_db guest_calls) None None) 0 "team" (hex_EncodeToString "bytes of bob") "revoke" "").
Example guests_view :
  AuthenticateJoin (store_at guests) "team" (token_of "a") = Ok {| mb_UID := 1000000000; mb_Name := "bob" |} /\
  AuthenticateJoin (store_at guests) "team" (token_of "b") = Ok {| mb_UID := 1000000001; mb_Name := "cat" |} /\
  MemberRole (store_at guests) "team" 1000000000 = Ok "visitor" /\ is_ok (BotMember (store_at guests) "team" 1000000000 true) = false /\
  AuthenticateJoin (store_at guests) "team" (token_of "c") = Err (Sentinel ErrAdmission) /\
  (jn_State <$> ListJoins (store_at guests) 0 "team") = ["approved"; "approved"].
Proof. vm_compute. done. Qed.
Lemma credentials_are_personal_witness :
  (tokenHash (token_of "a") = tokenHash (token_of "b") <-> 1000000000 = 1000000001) /\
  (1000000000 = 1000000001 -> {| mb_UID := 1000000000; mb_Name := "bob" |} = {| mb_UID := 1000000001; mb_Name := "cat" |}).
Proof.
  apply (credentials_are_personal guest_calls [] "team" (token_of "a") (token_of "b")
           {| mb_UID := 1000000000; mb_Name := "bob" |} {| mb_UID := 1000000001; mb_Name := "cat" |}); vm_compute; reflexivity.
Defined.
Lemma ok_result {A} (x : Store * result error A) (P : A -> Prop) :
  match x.2 with Ok r => P r | Err _ => False end -> exists s' r, x = (s', Ok r) /\ P r.
Proof. destruct x as [s' [r|e]]; [|done]. intros H. by exists s', r. Qed.
Lemma revoked_never_returns_witness :
  exists s' r, revoke_bob = (s', Ok r) /\ jn_UID r = 1000000000 /\
    forall l, AuthenticateJoin (store_at (run (db s') l)) "team" (token_of "a") = Err (Sentinel ErrAdmission).
Proof.
  destruct (ok_result revoke_bob (fun r => jn_UID r = 1000000000)) as (s' & r & E & U); [vm_compute; reflexivity|]. exists s', r. split; [exact E|]. split; [exact U|]. intros l.
  apply (proj2 (revoked_never_returns guest_calls None None 0 "team" (hex_EncodeToString "bytes of bob") s' r E l) (token_of "a") {| mb_UID := 1000000000; mb_Name := "bob" |});
    [vm_compute; reflexivity|]. by rewrite U.
Defined.
Lemma admission_by_decision_witness :
  AuthenticateJoin (store_at guests) "team" (token_of "b") = Ok {| mb_UID := 1000000001; mb_Name := "cat" |} /\
  exists l1 c l2 now id role j, guest_calls = l1 ++ c :: l2 /\ c_op c = OpDecideJoin now "team" id "approve" role /\
    j ∈ join_requests (run empty_db l1) /\ j_id j = id /\ j_room j = "team" /\ j_state j = "pending" /\
    tokenHash (token_of "b") = Ok (j_token_hash j) /\ j_name j = "cat".
Proof.
  split; [vm_compute; reflexivity|].
  apply (admission_by_decision guest_calls "team" (token_of "b") {| mb_UID := 1000000001; mb_Name := "cat" |}). vm_compute. reflexivity.
Defined.
