(* ===== verification/CoordinatorStore.v ===== *)
(** * The coordinator on the store

    The store of [internal/store] as an instance of the repository port, with an
    arbitrary clock, arbitrary failures and arbitrary other users: call number [n]
    reads [clock n], [faults n] says whether its commit hook, its commit or its
    query fails, and [others n] are the calls the other parts of the daemon (hub,
    sessions, administration, tasks, supervisor) made to the store since the call
    before.  A crash of the process is the case where every later call fails.  The
    instance keeps the contract of [Ports.v], so the coordinator's theorems
    hold for the two together. *)
From S2P Require Import Prelude GoStrings Sha256 Json RoomTypes Projection Ports Coordinator.
From S2P Require Import CoordinatorSafety CoordinatorFlow StoreSchema StoreBase StoreTasks StoreRepository StoreRecovery StoreAdmission.
From S2P Require Import StoreInvariant StoreOps StoreSafety StorePort.

(** The database and the number of calls made. *)
Record StorePort := { sp_db : DB; sp_calls : nat }.

(** ** Calls of the rest of the daemon *)

(** The operations that are not the coordinator's. *)
Definition external (op : store_op) : bool :=
  match op with
  | OpConnected _ | OpAck _ _ | OpDisconnected _ _ | OpCloseStale _ _ | OpSaveRuntimeCheckpoint _ _ | OpRepairThread _ _ _ _
  | OpResetUnusedThread _ _ _ | OpChangeTask _ _ _ _ | OpRequestJoin _ _ _ _ _ _ | OpDecideJoin _ _ _ _ _ => true
  | _ => false
  end.
Definition run_external (d : DB) (l : list call) : DB := run d (List.filter (fun c => external (c_op c)) l).

Lemma transactConditional_silent {X} s (w : StoreTx (X * bool)) :
  silent w -> messages (db (transactConditional s w).1) = messages (db s).
Proof.
  intros H. destruct (transactConditional s w) as [s' r] eqn:E. apply transactConditional_cases in E.
  destruct r; [|by subst]. destruct E as (wr & d & E & -> & _). exact (wp_ok _ _ _ _ _ (H (db s)) E).
Qed.
Lemma transact_silent {X} s (w : StoreTx X) : silent w -> messages (db (transact s w).1) = messages (db s).
Proof. intros H. apply transactConditional_silent. by apply silent_bind. Qed.
Lemma with_check_silent {X} s c (k : Store * result error X) :
  messages (db k.1) = messages (db s) -> messages (db (with_check s c k).1) = messages (db s).
Proof. by destruct c. Qed.

Lemma silent_RepairThread rid t rs now : silent (RepairThread_tx rid t rs now).
Proof. unfold RepairThread_tx. silent_tac. Qed.
Lemma silent_ResetUnusedThread rid th now : silent (ResetUnusedThread_tx rid th now).
Proof. unfold ResetUnusedThread_tx. silent_tac. Qed.
#[export] Hint Resolve silent_RepairThread silent_ResetUnusedThread silent_frame : silent.

Lemma silent_insert_members rid now l : silent (insert_members rid now l).
Proof. induction l as [|m l IH]; cbn [insert_members]; [silent_tac|]. intros d. unfold insert_member. wp_steps. eapply wp_mono; [apply IH|done]. Qed.
Lemma silent_InitializeRoom sd now : silent (InitializeRoom_tx sd now).
Proof. intros d. unfold InitializeRoom_tx. wp_steps. eapply wp_mono; [apply silent_insert_members|done]. Qed.

Lemma silent_insert_member rid uid name now : silent (insert_member rid uid name now).
Proof. intros d. unfold insert_member. by wp_steps. Qed.
Lemma silent_decideJoin rid id action role now : silent (decideJoin_tx rid id action role now).
Proof.
  intros d. unfold decideJoin_tx, decide_action. wp_steps; try done.
  eapply wp_mono; [apply silent_insert_member|]. simpl. intros _ d1 H1. wp_step.
  eapply wp_mono; [apply silent_frame; auto with store|]. simpl. intros _ d2 H2. wp_steps. cbn in *. by rewrite H2.
Qed.
#[export] Hint Resolve silent_decideJoin : silent.

Lemma external_silent s op : external op = true -> messages (db (exec s op)) = messages (db s).
Proof.
  destruct op; try discriminate; intros _; cbn [exec];
    unfold Connected, Ack, Disconnected, CloseStale, SaveRuntimeCheckpoint, RepairThread, ResetUnusedThread, ChangeTask,
      RequestJoin, DecideJoinRole, DecideJoin, decideJoin;
    repeat apply with_check_silent.
  all: try solve [apply transact_silent; auto with silent store].
  - destruct (negb (validTaskRequest q)); [done|]. case_match; [done|]. apply transact_silent; auto with silent store.
  - destruct (tokenHash token); [destruct (negb _ || _)|]; try done. apply transact_silent; auto with silent store.
  - destruct (String.eqb role ""); [|destruct (negb _ || _); [|destruct (String.eqb action "approve")]]; try done.
    all: apply transact_silent; auto with silent store.
Qed.

Lemma run_external_view d l : wf None None d -> wf None None (run_external d l) /\ messages (run_external d l) = messages d.
Proof.
  unfold run_external. revert d. induction l as [|c l IH]; intros d W; [done|]. cbn. destruct (external (c_op c)) eqn:E.
  - cbn. destruct (IH (step d c)) as [W' M]; [by apply step_inv|]. split; [exact W'|]. etrans; [exact M|].
    unfold step. by rewrite external_silent.
  - by apply IH.
Qed.

(** ** The instance *)

Section port.
Context (clock : nat -> Z) (faults : nat -> option error * option error) (others : nat -> list call).

(** A write: the store of the call, and the clock it reads. *)
Definition writing {X} (op : Store -> Z -> Store * result error X) (p : StorePort) : StorePort * result error X :=
  let n := sp_calls p in
  let '(s, r) := op (mkStore (run_external (sp_db p) (others n)) (faults n).1 (faults n).2) (clock n) in
  ({| sp_db := db s; sp_calls := S n |}, r).
(** A read fails when its call does. *)
Definition reading {X} (op : Store -> result error X) (p : StorePort) : StorePort * result error X :=
  let n := sp_calls p in
  let d := run_external (sp_db p) (others n) in
  ({| sp_db := d; sp_calls := S n |}, match (faults n).2 with Some e => Err e | None => op (mkStore d None None) end).

Definition store_journal : PrivateTurnJournal StorePort :=
  {| jn_BeginPrivateTurn rid th l := writing (fun s _ => BeginPrivateTurn s rid th l);
     jn_EndPrivateTurn rid th l := writing (fun s _ => EndPrivateTurn s rid th l);
     jn_PrivateTurns rid th l := writing (fun s _ => PrivateTurns s rid th l) |}.

Definition store_repository : Repository StorePort :=
  {| rp_LoadRecoveryImage rid := reading (fun s => LoadRecoveryImage s rid);
     rp_AcceptMessage rid actor i := writing (fun s now => AcceptMessage s now rid actor i);
     rp_AppendNote rid actor i := writing (fun s now => AppendNote s now rid actor i);
     rp_AcceptControl rid actor i := writing (fun s now => AcceptControl s now rid actor i);
     rp_FinishControl rid cid o := writing (fun s now => FinishControl s now rid cid o);
     rp_BeginDispatch rid cid := writing (fun s _ => BeginDispatch s rid cid);
     rp_FailDispatch rid cid o := writing (fun s now => FailDispatch s now rid cid o);
     rp_BindRunningTurn rid cid t := writing (fun s now => BindRunningTurn s now rid cid t);
     rp_RecordCompletedItem rid i := writing (fun s now => RecordCompletedItem s now rid i);
     rp_FinishTurn rid i := writing (fun s now => FinishTurn s now rid i);
     rp_MarkNeedsReview rid cid rs := writing (fun s now => MarkNeedsReview s now rid cid rs);
     rp_ResolveReview rid actor i := writing (fun s now => ResolveReview s now rid actor i);
     rp_BindThread rid t := writing (fun s now => BindThread s now rid t);
     rp_MarkThreadNeedsRepair rid rs := writing (fun s now => MarkThreadNeedsRepair s now rid rs);
     rp_SetRoomStatus rid st := writing (fun s now => SetRoomStatus s now rid st);
     rp_LatestSeq rid := reading (fun s => LatestSeq s rid);
     rp_journal := Some store_journal |}.

(** ** The contract *)

Context (rid : RoomID).
Definition port_good (p : StorePort) : Prop := wf None None (sp_db p).
Definition port_view (p : StorePort) : RoomView := room_view rid (messages (sp_db p)).

(** What a method of the store does to the view. *)
Definition moves_view {X} (op : Store -> Z -> Store * result error X) (Q : RoomView -> RoomView -> X -> Prop) : Prop :=
  forall s now s' r, wf None None (db s) -> op s now = (s', r) ->
    match r with
    | Ok x => Q (room_view rid (messages (db s))) (room_view rid (messages (db s'))) x
    | Err _ => s' = s
    end.

Lemma mv_transactConditional {X} (w : Z -> StoreTx (X * bool)) Q :
  (forall now, vspec rid (w now) (fun v v' r => Q v v' r.1)) -> moves_view (fun s now => transactConditional s (w now)) Q.
Proof.
  intros H s now s' r W E. apply transactConditional_cases in E. destruct r as [x|e]; [|done].
  destruct E as (wrote & d & E & -> & _). exact (wp_ok _ _ _ _ _ (H now _ W) E).
Qed.
Lemma mv_transact {X} (w : Z -> StoreTx X) Q :
  (forall now, vspec rid (w now) Q) -> moves_view (fun s now => transact s (w now)) Q.
Proof.
  intros H. apply (mv_transactConditional (fun now => a ← w now; mret (a, true))). intros now d W.
  wp_step. eapply wp_mono; [by apply H|]. done.
Qed.
Lemma mv_check {X} c (k : Store -> Z -> Store * result error X) Q :
  (c = Ok tt -> moves_view k Q) -> moves_view (fun s now => with_check s c (k s now)) Q.
Proof. destruct c as [[]|e]; simpl; [auto|]. by intros _ s now s' r W [= <- <-]. Qed.

Lemma writing_spec {X} (op : Store -> Z -> Store * result error X) Q :
  (forall s now, op_ok s (op s now).1) -> moves_view op Q -> Spec port_good port_view (writing op) Q.
Proof.
  intros Hk Hm p G. destruct (run_external_view _ (others (sp_calls p)) G) as [G' V].
  unfold writing. set (s := mkStore _ _ _). specialize (Hk s (clock (sp_calls p)) G').
  destruct (op s (clock (sp_calls p))) as [s' r] eqn:E. specialize (Hm s _ s' r G' E). split; [apply Hk|].
  unfold port_view. rewrite <- V. destruct r as [x|e]; [exact Hm|]. simpl. by rewrite Hm.
Qed.
Lemma reading_spec {X} (op : Store -> result error X) (Q : RoomView -> RoomView -> X -> Prop) :
  (forall d x, wf None None d -> op (mkStore d None None) = Ok x -> Q (room_view rid (messages d)) (room_view rid (messages d)) x) ->
  Spec port_good port_view (reading op) Q.
Proof.
  intros H p G. destruct (run_external_view _ (others (sp_calls p)) G) as [G' V]. split; [exact G'|].
  unfold port_view, reading. simpl. rewrite V. destruct (faults (sp_calls p)).2; [done|].
  destruct (op _) eqn:E; [|done]. rewrite <- V. by apply H.
Qed.

Lemma mv_autocommit {X} (w : Z -> StoreTx X) Q :
  (forall now, vspec rid (w now) Q) -> moves_view (fun s now => autocommit s (w now)) Q.
Proof.
  intros H s now s' r W. unfold autocommit. destruct (w now (db s)) as [[a d]|e] eqn:E; [|by intros [= <- <-]].
  destruct (commitFault s); intros [= <- <-]; [done|]. exact (wp_ok _ _ _ _ _ (H now _ W) E).
Qed.
Lemma mv_silent {X} (op : Store -> Z -> Store * result error X) (w : Z -> StoreTx X) :
  (forall s now, op s now = transact s (w now)) -> (forall now, silent (w now)) -> moves_view op stays.
Proof. intros E H s now. rewrite E. by apply (mv_transact w); intros n; apply vs_silent. Qed.

Lemma mv_conditional_silent {X} (w : Z -> StoreTx (X * bool)) :
  (forall now, silent (w now)) -> moves_view (fun s now => transactConditional s (w now)) stays.
Proof.
  intros H. apply mv_transactConditional. intros now d W. eapply wp_mono; [by apply (vs_silent rid (w now) (H now))|]. done.
Qed.

Lemma load_image d x : wf None None d -> LoadRecoveryImage (mkStore d None None) rid = Ok x ->
  image_of (room_view rid (messages d)) x.
Proof.
  intros W H. unfold LoadRecoveryImage in H. destruct (validateRoomID rid) as [[]|]; [|done]. simpl in H.
  destruct (find_room d rid) as [r|] eqn:E; [|done]. injection H as <-. apply find_room_elem in E as [_ E].
  unfold recovery_image. rewrite E. split; simpl.
  - unfold load_active. rewrite (joined_binding_rows d W rid) by apply is_active_rowP.
    destruct (List.filter _ _) as [|m l]; simpl; [done|]. exists (msg_seq m). left.
  - unfold load_controls. rewrite (joined_binding_rows d W rid) by apply is_control_rowP. by rewrite <- list_fmap_compose.
  - rewrite (load_queue_rows d W). by rewrite <- list_fmap_compose.
Qed.

Lemma good_queue p : port_good p -> StronglySorted (key_lt snd) (v_queue (port_view p)) /\ NoDup (v_queue (port_view p)).*1.
Proof.
  intros W. unfold port_view, room_view. simpl. rewrite <- list_fmap_compose. split.
  - apply (StronglySorted_fmap_key _ msg_seq); [done|]. apply (rows_in_order _ W rid). apply is_queued_rowP.
  - apply (NoDup_fmap_filter (fun m => (msg_room m, msg_client m))); [apply (wf_clients _ _ _ W)|].
    intros x y Hx%is_queued_rowP Hy%is_queued_rowP E. simpl in E. by rewrite Hx, Hy, E.
Qed.
Lemma good_known p x : x ∈ v_ctrls (port_view p) -> x ∈ v_known (port_view p).
Proof.
  intros (m & -> & [Hm Hc]%filter_elem_of)%list_elem_of_fmap. apply list_elem_of_fmap_2, filter_elem_of.
  split; [done|]. by apply in_roomP, is_control_rowP.
Qed.

#[local] Existing Instance store_repository.
#[local] Hint Resolve silent_BindThread silent_MarkThreadNeedsRepair silent_SetRoomStatus silent_RecordCompletedItem
  vs_accept_prompt vs_accept_note vs_accept_control vs_BeginDispatch vs_FinishControl vs_FailDispatch vs_BindRunningTurn
  vs_MarkNeedsReview vs_FinishTurn vs_ResolveReview : silent.

(** One field of the contract per method. *)
Ltac by_body op := apply writing_spec; [intros s now; exact (exec_ok s (op now))|].
Ltac checked := repeat (apply mv_check; intros ?).

Lemma p_accept actor i : Spec port_good port_view (rp_AcceptMessage rid actor i) (accepts_prompt (si_ClientMessageID i)).
Proof.
  by_body (fun now => OpAcceptMessage now rid actor i). unfold AcceptMessage, accept. checked.
  apply mv_transactConditional. auto with silent.
Qed.
Lemma p_note actor i : Spec port_good port_view (rp_AppendNote rid actor i) (accepts_note (si_ClientMessageID i)).
Proof.
  by_body (fun now => OpAppendNote now rid actor i). unfold AppendNote, accept. checked.
  apply mv_transactConditional. auto with silent.
Qed.
Lemma p_control actor i : Spec port_good port_view (rp_AcceptControl rid actor i) (accepts_control (ci_ClientMessageID i)).
Proof.
  by_body (fun now => OpAcceptControl now rid actor i). unfold AcceptControl, accept. checked.
  apply mv_transactConditional. auto with silent.
Qed.
Lemma p_finish_control cid o : Spec port_good port_view (rp_FinishControl rid cid o) (finishes_control cid o).
Proof.
  by_body (fun now => OpFinishControl now rid cid o). unfold FinishControl. checked. apply mv_transact. auto with silent.
Qed.
Lemma p_dispatch cid : Spec port_good port_view (rp_BeginDispatch rid cid) (dispatches cid).
Proof.
  by_body (fun _ : Z => OpBeginDispatch rid cid). unfold BeginDispatch. checked.
  apply (mv_transact (fun _ => BeginDispatch_tx rid cid)). auto with silent.
Qed.
Lemma p_fail cid o : Spec port_good port_view (rp_FailDispatch rid cid o) (undispatches cid o).
Proof.
  by_body (fun now => OpFailDispatch now rid cid o). unfold FailDispatch. checked. apply mv_transact. auto with silent.
Qed.
Lemma p_bind cid t : Spec port_good port_view (rp_BindRunningTurn rid cid t) stays.
Proof.
  by_body (fun now => OpBindRunningTurn now rid cid t). unfold BindRunningTurn. checked.
  apply mv_transact. auto with silent.
Qed.
Lemma p_item i : Spec port_good port_view (rp_RecordCompletedItem rid i) stays.
Proof.
  by_body (fun now => OpRecordCompletedItem now rid i). unfold RecordCompletedItem. checked.
  destruct (item_payload i); [|by intros s now s' r W [= <- <-]].
  apply mv_conditional_silent. auto with silent.
Qed.
Lemma p_finish_turn i : Spec port_good port_view (rp_FinishTurn rid i) (finishes_turn i).
Proof.
  by_body (fun now => OpFinishTurn now rid i). unfold FinishTurn. checked. apply mv_transact. intros now.
  apply vs_FinishTurn; [|done]. rename select (check _ _ = Ok tt) into C. apply check_ok in C. by destruct (blank _).
Qed.
Lemma p_review cid rs : Spec port_good port_view (rp_MarkNeedsReview rid cid rs) stays.
Proof.
  by_body (fun now => OpMarkNeedsReview now rid cid rs). unfold MarkNeedsReview. checked.
  apply mv_transact. auto with silent.
Qed.
Lemma p_resolve actor i : Spec port_good port_view (rp_ResolveReview rid actor i) (resolves (ri_TargetMessageID i)).
Proof.
  by_body (fun now => OpResolveReview now rid actor i). unfold ResolveReview. checked.
  apply mv_transactConditional. auto with silent.
Qed.
Lemma p_bind_thread t : Spec port_good port_view (rp_BindThread rid t) stays.
Proof.
  by_body (fun now => OpBindThread now rid t). unfold BindThread. checked. apply mv_transact. intros now.
  apply vs_silent. auto with silent.
Qed.
Lemma p_repair rs : Spec port_good port_view (rp_MarkThreadNeedsRepair rid rs) stays.
Proof.
  by_body (fun now => OpMarkThreadNeedsRepair now rid rs). unfold MarkThreadNeedsRepair. checked.
  apply mv_transact. intros now. apply vs_silent. auto with silent.
Qed.
Lemma p_status st : Spec port_good port_view (rp_SetRoomStatus rid st) stays.
Proof.
  by_body (fun now => OpSetRoomStatus now rid st). unfold SetRoomStatus. checked.
  apply mv_conditional_silent. auto with silent.
Qed.
Lemma p_private_begin th l : Spec port_good port_view (jn_BeginPrivateTurn store_journal rid th l) stays.
Proof.
  by_body (fun _ : Z => OpBeginPrivateTurn rid th l). apply (mv_autocommit (fun _ => BeginPrivateTurn_tx rid th l)).
  intros _. apply vs_silent, silent_frame. auto with store.
Qed.
Lemma mv_end_private th l : moves_view (fun s _ => EndPrivateTurn s rid th l) stays.
Proof. apply (mv_silent _ (fun _ => EndPrivateTurn_tx rid th l)); [done|]. intros _. apply silent_frame. auto with store. Qed.
Lemma p_private_end th l : Spec port_good port_view (jn_EndPrivateTurn store_journal rid th l) stays.
Proof. by_body (fun _ : Z => OpEndPrivateTurn rid th l). apply mv_end_private. Qed.
Lemma p_private_turns th l : Spec port_good port_view (jn_PrivateTurns store_journal rid th l) stays.
Proof.
  by_body (fun _ : Z => OpPrivateTurns rid th l). intros s now s' r W. unfold PrivateTurns.
  destruct (List.find _ _) as [f|]; [|by intros [= <- <-]].
  destruct (added_turns _ _) as [added|e]; [|by intros [= <- <-]].
  destruct (EndPrivateTurn s rid th added) as [s1 [[]|e]] eqn:E; intros [= <- <-]; exact (mv_end_private th added s now _ _ W E).
Qed.

Definition store_laws : RepositoryLaws StorePort rid.
Proof.
  refine {| good := port_good; view := port_view; good_sorted := fun p G => proj1 (good_queue p G);
            good_unique := fun p G => proj2 (good_queue p G); good_controls := fun p _ => good_known p;
            law_accept := p_accept; law_note := p_note; law_control := p_control; law_finish_control := p_finish_control;
            law_dispatch := p_dispatch; law_fail := p_fail; law_bind := p_bind; law_item := p_item;
            law_finish_turn := p_finish_turn; law_review := p_review; law_resolve := p_resolve;
            law_bind_thread := p_bind_thread; law_repair := p_repair; law_status := p_status |}.
  - apply reading_spec. intros d x W H. split; [done|]. by apply load_image.
  - by apply reading_spec.
  - intros j th l [= <-]. apply p_private_begin.
  - intros j th l [= <-]. apply p_private_end.
  - intros j th l [= <-]. apply p_private_turns.
Defined.
End port.

(** ** Process lifetimes

    A process opens the database, makes a coordinator and runs it until the
    inputs end; a crash is a lifetime whose calls fail from some point on.  The
    next process starts from the database alone. *)

Section lifetimes.
Context {A : Type} `{!Agent A} (rid : RoomID).

Record lifetime :=
  { lf_root : string; lf_agent : A; lf_clock : nat -> Z; lf_faults : nat -> option error * option error;
    lf_others : nat -> list call; lf_inputs : list input }.

Definition live (d : DB) (l : lifetime) : DB * list (action * StorePort) :=
  match NewCoordinator rid (lf_root l) with
  | Err _ => (d, [])
  | Ok c =>
      let w := (@Run _ _ (store_repository (lf_clock l) (lf_faults l) (lf_others l)) _ (lf_inputs l)
                  (mkWorld {| sp_db := d; sp_calls := 0 |} (lf_agent l) c [])).1 in
      (sp_db (w_repo w), w_trace w)
  end.
Fixpoint lives (d : DB) (l : list lifetime) : DB * list (action * StorePort) :=
  match l with
  | [] => (d, [])
  | x :: r =>
      let '(d1, t1) := live d x in
      let '(d2, t2) := lives d1 r in (d2, t1 ++ t2)
  end.

Definition one_active (d : DB) : Prop := (length (List.filter (is_active_row rid) (messages d)) <= 1)%nat.

Lemma live_ok d l : wf None None d -> one_active d ->
  wf None None (live d l).1 /\ one_active (live d l).1 /\
  Forall (fun e => match e.1 with
                   | CallStartTurn _ cid _ => start_ok cid (room_view rid (messages (sp_db e.2)))
                   | _ => True
                   end) (live d l).2.
Proof.
  intros W N. unfold live, NewCoordinator. destruct (blank rid || blank (lf_root l)); [done|].
  pose proof (@Run_holds _ _ (store_repository (lf_clock l) (lf_faults l) (lf_others l)) _ rid
                (store_laws (lf_clock l) (lf_faults l) (lf_others l) rid) (lf_inputs l)) as H.
  edestruct H as (G & T & _ & S); [|split; [exact G|split; [|exact T]]].
  - split_and!; [exact W|constructor|done|]. right. split; try done. unfold one_active in N. simpl.
    by rewrite length_fmap.
  - unfold one_active. rewrite <- (length_fmap entry). by destruct S as [[]|[]].
Qed.
Lemma lives_ok d l : wf None None d -> one_active d ->
  Forall (fun e => match e.1 with
                   | CallStartTurn _ cid _ => start_ok cid (room_view rid (messages (sp_db e.2)))
                   | _ => True
                   end) (lives d l).2.
Proof.
  revert d. induction l as [|x l IH]; intros d W N; [constructor|]. cbn [lives].
  destruct (live_ok d x W N) as (W1 & N1 & T1). destruct (live d x) as [d1 t1]. specialize (IH d1 W1 N1).
  destruct (lives d1 l) as [d2 t2]. apply Forall_app. split; [exact T1|exact IH].
Qed.

(** C1: One task at a time, in order, across restarts.  Start from a freshly
    initialised room and let any number of daemon processes run one after the
    other on its database, each with any agent, any commands and agent events,
    any clock, any store calls by the rest of the daemon between the
    coordinator's own, and any failures, a crash included.  Whenever a
    process asks the agent to start a turn for a message, that message is in the
    database the only prompt dispatched without an outcome, no control command
    is without an outcome, and every queued prompt was accepted later. *)
Theorem room_single_flight_across_restarts now sd l th cid text p :
  (CallStartTurn th cid text, p) ∈ (lives (step empty_db (ok_call (OpInitializeRoom now sd))) l).2 ->
  exists m, List.filter (is_active_row rid) (messages (sp_db p)) = [m] /\ msg_client m = cid /\
    List.filter (is_control_row rid) (messages (sp_db p)) = [] /\
    Forall (fun q => msg_seq m < msg_seq q) (List.filter (is_queued_row rid) (messages (sp_db p))).
Proof.
  intros Hin. set (d := step _ _) in Hin.
  assert (W : wf None None d) by apply step_inv, empty_wf.
  assert (N : one_active d).
  { unfold one_active, d, step. cbn [exec c_op ok_call]. unfold InitializeRoom.
    rewrite with_check_silent; [simpl; lia|]. by apply transact_silent, silent_InitializeRoom. }
  pose proof (lives_ok d l W N) as H. rewrite Forall_forall in H. specialize (H _ Hin).
  destruct H as (s & Ha & Hc & Hq). simpl in Ha, Hc, Hq.
  destruct (List.filter (is_active_row rid) _) as [|m [|? ?]]; try done. exists m. injection Ha as E1 E2.
  split_and!; [done|done|by apply fmap_nil_inv in Hc|].
  rewrite !Forall_fmap in Hq. eapply Forall_impl; [exact Hq|]. intros q Hlt. simpl in Hlt. lia.
Qed.
End lifetimes.

(** ** A concrete run *)

(** An agent that creates one thread and starts turns named after their number. *)
#[local] Instance demo_agent : Agent nat :=
  {| ag_StartThread n := (n, Ok {| th_ID := "th"; th_CWD := "/p"; th_Turns := [] |});
     ag_ReadThread _ n := (n, Ok {| th_ID := "th"; th_CWD := "/p"; th_Turns := [] |});
     ag_ResumeThread _ n := (n, Ok {| th_ID := "th"; th_CWD := "/p"; th_Turns := [] |});
     ag_StartTurn _ _ _ _ n := (S n, Ok ("turn-" +:+ itoa (Z.of_nat n)));
     ag_SteerTurn _ _ _ n := (n, Ok tt);
     ag_InterruptTurn _ _ n := (n, Ok tt);
     ag_StartTurnFor := None; ag_ValidateSubmission := None; ag_AgentMembers := None;
     ag_StartReadOnlyTurn := Some (fun _ _ _ n => (S n, Ok "private")) |}.
Definition turn_event (kind : string) (turn : TurnID) : AgentEvent :=
  {| ae_Kind := kind; ae_ThreadID := "th"; ae_TurnID := turn; ae_ItemID := ""; ae_Delta := ""; ae_Completed := None;
     ae_Error := None |}.
Definition demo_inputs : list input :=
  [InCommand RecoverCommand; InCommand (SubmitCommand ann submit_a false); InCommand (SubmitCommand bob submit_b false)].
Definition no_faults (n : nat) : option error * option error := (None, None).
Definition calm (n : nat) : list call := [].
Definition demo_life : lifetime :=
  {| lf_root := "/p"; lf_agent := 0%nat; lf_clock := fun n => Z.of_nat (10 + n); lf_faults := no_faults; lf_others := calm;
     lf_inputs := demo_inputs ++ [InEvent (turn_event "turn-completed" "turn-0")] |}.
Definition is_start (cid : ClientMessageID) (e : action * StorePort) : bool :=
  match e.1 with CallStartTurn _ c _ => String.eqb c cid | _ => false end.
Lemma start_found cid t : existsb (is_start cid) t = true -> exists th text p, (CallStartTurn th cid text, p) ∈ t.
Proof.
  intros ([a p] & H & E)%existsb_exists. unfold is_start in E. simpl in E. destruct a; try done.
  apply String.eqb_eq in E as ->. exists thread, text, p. by apply list_elem_of_In.
Qed.

(** The second submission's turn starts once the first one has completed. *)
Lemma room_single_flight_across_restarts_witness :
  exists th text p,
    (CallStartTurn th id_b text, p) ∈ (lives demo_room (step empty_db (ok_call (OpInitializeRoom 1 demo_seed))) [demo_life]).2 /\
    exists m, List.filter (is_active_row demo_room) (messages (sp_db p)) = [m] /\ msg_client m = id_b.
Proof.
  assert (E : existsb (is_start id_b) (lives demo_room (step empty_db (ok_call (OpInitializeRoom 1 demo_seed))) [demo_life]).2
              = true) by (vm_compute; reflexivity).
  apply start_found in E as (th & text & p & H).
  exists th, text, p. split; [exact H|].
  destruct (room_single_flight_across_restarts demo_room 1 demo_seed [demo_life] th id_b text p H) as (m & H1 & H2 & _).
  exists m. split; [exact H1|exact H2].
Defined.

Definition demo_port : StorePort := {| sp_db := step empty_db (ok_call (OpInitializeRoom 1 demo_seed)); sp_calls := 0 |}.
Definition demo_coordinator : Coordinator :=
  mkCoordinator None demo_room "/p" zero_state false false false Projection.NewProjection None "".
Lemma coordinator_single_flight_witness :
  let port := store_repository (lf_clock demo_life) no_faults calm in
  let w := (@Run StorePort nat port demo_agent demo_inputs (mkWorld demo_port 0%nat demo_coordinator [])).1 in
  exists th text p, (CallStartTurn th id_a text, p) ∈ w_trace w /\
    exists s, v_acts (port_view demo_room p) = [(id_a, s)] /\ v_ctrls (port_view demo_room p) = [].
Proof.
  intros port w. assert (E : existsb (is_start id_a) (w_trace w) = true) by (vm_compute; reflexivity).
  destruct (start_found id_a (w_trace w) E) as (th & text & p & H).
  exists th, text, p. split; [exact H|].
  pose proof (@coordinator_single_flight StorePort nat port demo_agent demo_room (store_laws (lf_clock demo_life) no_faults calm demo_room)
                demo_port 0%nat "/p" demo_coordinator demo_inputs) as T.
  destruct T as [T _].
  - exact (proj1 (step_inv empty_db (ok_call (OpInitializeRoom 1 demo_seed)) empty_wf)).
  - vm_compute. lia.
  - reflexivity.
  - destruct (T th id_a text p H) as (s & H1 & H2 & _). exists s. split; [exact H1|exact H2].
Defined.

(** An agent whose turns are lost on the way. *)
Definition lost_agent : Agent nat :=
  {| ag_StartThread := @ag_StartThread nat demo_agent; ag_ReadThread := @ag_ReadThread nat demo_agent;
     ag_ResumeThread := @ag_ResumeThread nat demo_agent; ag_StartTurn _ _ _ _ n := (S n, Err (ErrText "connection lost"));
     ag_SteerTurn _ _ _ n := (n, Ok tt); ag_InterruptTurn _ _ n := (n, Ok tt); ag_StartTurnFor := None;
     ag_ValidateSubmission := None; ag_AgentMembers := None; ag_StartReadOnlyTurn := None |}.
Lemma frozen_room_asks_nothing_witness :
  let port := store_repository (lf_clock demo_life) no_faults calm in
  let w := (@Run StorePort nat port lost_agent (take 2 demo_inputs) (mkWorld demo_port 0%nat demo_coordinator [])).1 in
  let w' := (@Run StorePort nat port lost_agent (drop 2 demo_inputs) w).1 in
  length (queue (state (w_coord w'))) = 1%nat /\ status (state (w_coord w')) <> RoomReady /\
  exists new, w_trace w' = w_trace w ++ new /\ Forall (fun x => is_work x.1 = false) new.
Proof.
  intros port w w'. split; [vm_compute; reflexivity|].
  apply (@frozen_room_asks_nothing StorePort nat port lost_agent w (drop 2 demo_inputs)); [|reflexivity].
  assert (E : bool_decide (status (state (w_coord w)) = RoomReady) = false) by (vm_compute; reflexivity).
  exact (bool_decide_eq_false_1 _ E).
Defined.

(** A question is open and its turn sends a part of the answer. *)
Definition demo_question : questionCommand :=
  {| qc_id := id_c; qc_actor := ann; qc_text := "why?"; qc_cancelled := None |}.
Definition answer_event : AgentEvent :=
  {| ae_Kind := "item-completed"; ae_ThreadID := "th"; ae_TurnID := "private"; ae_ItemID := "i"; ae_Delta := "";
     ae_Completed := Some {| it_ThreadID := "th"; it_TurnID := "private"; it_ItemID := "i";
                             it_Payload := bq "{`type`:`agentMessage`,`text`:`because`}" |};
     ae_Error := None |}.
Lemma private_turn_invisible_witness :
  let port := store_repository (lf_clock demo_life) no_faults calm in
  let w := (@Run StorePort nat port demo_agent [InCommand RecoverCommand; InCommand (QuestionCommand demo_question)]
              (mkWorld demo_port 0%nat demo_coordinator [])).1 in
  match question (w_coord w) with
  | Some q => answer_text (add_answer (default (Projection.demo_item) (ae_Completed answer_event)) q) = "because" /\
              w_repo (@handleAgentEvent StorePort nat port demo_agent answer_event w).1 = w_repo w
  | None => False
  end.
Proof.
  intros port w. destruct (question (w_coord w)) as [q|] eqn:Q.
  - assert (E : match question (w_coord w) with
                | Some q => String.eqb (pq_turn q) "private" && String.eqb (answer_text q) "" &&
                            String.eqb (answer_text (add_answer (default (Projection.demo_item) (ae_Completed answer_event)) q)) "because"
                | None => false
                end = true) by (vm_compute; reflexivity).
    rewrite Q in E. apply andb_prop in E as [E1 E2]. apply andb_prop in E1 as [E1 _].
    apply String.eqb_eq in E1. apply String.eqb_eq in E2. split; [exact E2|].
    assert (T : String.eqb (threadID (state (w_coord w))) "th" = true) by (vm_compute; reflexivity). apply String.eqb_eq in T.
    apply (@private_turn_invisible StorePort nat port demo_agent w answer_event q Q);
      [rewrite T; reflexivity|rewrite E1; reflexivity|reflexivity|discriminate].
  - assert (E : match question (w_coord w) with Some _ => true | None => false end = true) by (vm_compute; reflexivity).
    rewrite Q in E. discriminate E.
Defined.
