(* ===== verification/Hub.v ===== *)
(** * The broadcast hub ([internal/daemon/hub.go])

    One buffered channel per subscription, bounded in events and in encoded bytes.
    A publication never waits for a subscriber: one whose buffer is full is closed.
    A subscription is named by its creation order; [Hub.subs] of the source holds
    the open ones. *)
From S2P Require Import Prelude GoStrings Json RoomTypes.

Record Broadcast := { bc_Durable : option DurableEvent; bc_Transient : option TransientEvent }.

(** [json.Marshal] of a broadcast; its fields have no tags. *)
Definition durable_json (e : DurableEvent) : json :=
  JObj [("Seq", JInt (ev_Seq e)); ("Kind", JStr (ev_Kind e)); ("ActorUID", JInt (ev_ActorUID e));
        ("Payload", JRaw (marshal (ev_Payload e))); ("CreatedAt", JStr (format_time (ev_CreatedAt e)))].
Definition transient_json (t : TransientEvent) : json :=
  JObj [("Revision", JInt (te_Revision t)); ("Kind", JStr (te_Kind t)); ("ThreadID", JStr (te_ThreadID t));
        ("TurnID", JStr (te_TurnID t)); ("ItemID", JStr (te_ItemID t)); ("Delta", JStr (te_Delta t))].
Definition option_json {X} (f : X -> json) (o : option X) : json := match o with Some x => f x | None => JNull end.
Definition encode_broadcast (b : Broadcast) : option string :=
  if match bc_Durable b with Some e => marshals_time (ev_CreatedAt e) | None => true end
  then Some (marshal (JObj [("Durable", option_json durable_json (bc_Durable b));
                            ("Transient", option_json transient_json (bc_Transient b))]))
  else None.

Record subscription := mkSub
  { sub_actor : Actor; sub_events : list Broadcast; sub_closed : bool; sub_sizes : list Z; sub_bytes : Z }.
Record Hub := mkHub { maxEvents : Z; maxBytes : Z; subs : list subscription }.

Definition NewHub (events bytes : Z) : Hub :=
  {| maxEvents := if (events <=? 0) || (256 <? events) then 256 else events;
     maxBytes := if (bytes <=? 0) || (Z.shiftl 16 20 <? bytes) then Z.shiftl 16 20 else bytes;
     subs := [] |}.
Definition Subscribe (h : Hub) (a : Actor) : Hub :=
  mkHub (maxEvents h) (maxBytes h) (subs h ++ [mkSub a [] false [] 0]).

(** Events in the channel stay readable after it is closed. *)
Definition closeLocked (s : subscription) : subscription :=
  if sub_closed s then s else mkSub (sub_actor s) (sub_events s) true [] 0.

Definition sum (l : list Z) : Z := foldr Z.add 0 l.
(** Forget the sizes of the events the consumer took. *)
Definition settle_sizes (s : subscription) : subscription :=
  let consumed := (length (sub_sizes s) - length (sub_events s))%nat in
  mkSub (sub_actor s) (sub_events s) (sub_closed s) (drop consumed (sub_sizes s))
        (sub_bytes s - sum (take consumed (sub_sizes s))).
Definition publish_to (h : Hub) (b : Broadcast) (size : Z) (s : subscription) : subscription :=
  if sub_closed s then s else
  let s := settle_sizes s in
  if (maxEvents h <=? Z.of_nat (length (sub_events s))) || (maxBytes h <? sub_bytes s + size) then closeLocked s
  else mkSub (sub_actor s) (sub_events s ++ [b]) (sub_closed s) (sub_sizes s ++ [size]) (sub_bytes s + size).
Definition publish (h : Hub) (b : Broadcast) : Hub :=
  match encode_broadcast b with
  | None => h
  | Some text => mkHub (maxEvents h) (maxBytes h) (publish_to h b (len text) <$> subs h)
  end.
Definition PublishDurable (h : Hub) (e : DurableEvent) : Hub := publish h {| bc_Durable := Some e; bc_Transient := None |}.
Definition PublishTransient (h : Hub) (e : TransientEvent) : Hub := publish h {| bc_Durable := None; bc_Transient := Some e |}.

Definition Close (h : Hub) (i : nat) : Hub := mkHub (maxEvents h) (maxBytes h) (alter closeLocked i (subs h)).
Definition Closed (h : Hub) (i : nat) : bool := match subs h !! i with Some s => sub_closed s | None => true end.
(** A receive from the channel of subscription [i]. *)
Definition take_event (s : subscription) : subscription :=
  mkSub (sub_actor s) (tail (sub_events s)) (sub_closed s) (sub_sizes s) (sub_bytes s).
Definition receive (h : Hub) (i : nat) : Hub * option Broadcast :=
  (mkHub (maxEvents h) (maxBytes h) (alter take_event i (subs h)), subs h !! i ≫= (fun s => head (sub_events s))).

(** [Members]: one actor per uid of an open subscription, by uid.  The source
    ranges over a map: which actor stands for a uid is arbitrary, here the first. *)
Fixpoint insert_member (a : Actor) (l : list Actor) : list Actor :=
  match l with
  | [] => [a]
  | b :: r => if ac_UID a =? ac_UID b then l else if ac_UID a <? ac_UID b then a :: l else b :: insert_member a r
  end.
Definition open_actors (h : Hub) : list Actor := sub_actor <$> List.filter (fun s => negb (sub_closed s)) (subs h).
Definition Members (h : Hub) : list Actor := foldl (fun l a => insert_member a l) [] (open_actors h).

(** ** Sequences of operations *)

Inductive hub_op := HSubscribe (a : Actor) | HPublish (b : Broadcast) | HReceive (i : nat) | HClose (i : nat).
Definition hub_step (h : Hub) (o : hub_op) : Hub * option Broadcast :=
  match o with
  | HSubscribe a => (Subscribe h a, None)
  | HPublish b => (publish h b, None)
  | HReceive i => receive h i
  | HClose i => (Close h i, None)
  end.
(** The hub after the operations and what each of them returned. *)
Fixpoint hub_run (h : Hub) (l : list hub_op) : Hub * list (hub_op * option Broadcast) :=
  match l with
  | [] => (h, [])
  | o :: r => let '(h1, x) := hub_step h o in let '(h2, t) := hub_run h1 r in (h2, (o, x) :: t)
  end.

(** What subscription [i] received, and what was published since it exists, [n]
    subscriptions existing before. *)
Definition got (i : nat) (t : list (hub_op * option Broadcast)) : list Broadcast :=
  omap (fun x => match x.1 with HReceive j => if Nat.eqb i j then x.2 else None | _ => None end) t.
Fixpoint sent (n i : nat) (l : list hub_op) : list Broadcast :=
  match l with
  | [] => []
  | HSubscribe _ :: r => sent (S n) i r
  | HPublish b :: r => if Nat.ltb i n && bool_decide (is_Some (encode_broadcast b)) then b :: sent n i r else sent n i r
  | _ :: r => sent n i r
  end.

(** ** Invariant of a subscription *)

Definition bsize (b : Broadcast) : Z := match encode_broadcast b with Some t => len t | None => 0 end.
Lemma bsize_nonneg b : 0 <= bsize b.
Proof. unfold bsize. destruct (encode_broadcast b); [apply len_nonneg|lia]. Qed.
Lemma sum_app l l' : sum (l ++ l') = sum l + sum l'.
Proof. induction l as [|x l IH]; simpl; [done|]. rewrite IH. lia. Qed.
Lemma sum_nonneg l : Forall (Z.le 0) l -> 0 <= sum l.
Proof. induction 1; simpl; lia. Qed.

(** The last sizes are those of the buffered events, the others were consumed. *)
Record open_ok (s : subscription) : Prop :=
  { oo_sizes : exists old, sub_sizes s = old ++ (bsize <$> sub_events s) /\ Forall (Z.le 0) old;
    oo_bytes : sub_bytes s = sum (sub_sizes s) }.
Record sub_ok (h : Hub) (s : subscription) : Prop :=
  { so_events : Z.of_nat (length (sub_events s)) <= maxEvents h;
    so_bytes : sum (bsize <$> sub_events s) <= maxBytes h;
    so_open : sub_closed s = false -> open_ok s }.

Lemma closeLocked_ok h s : sub_ok h s -> sub_ok h (closeLocked s).
Proof. intros []. unfold closeLocked. by destruct (sub_closed s) eqn:E; split; rewrite ?E. Qed.
Lemma take_event_ok h s : sub_ok h s -> sub_ok h (take_event s).
Proof.
  intros [H1 H2 H3]. destruct s as [a ev c sz b]. unfold take_event. simpl in *. destruct ev as [|e ev]; [done|].
  rewrite fmap_cons in H2. simpl in *. pose proof (bsize_nonneg e). split; simpl; [lia|lia|]. intros Hc. destruct (H3 Hc) as [(old & E & Ho) Hb]. simpl in *.
  split; simpl; [|done]. exists (old ++ [bsize e]). split; [by rewrite <- app_assoc|]. apply Forall_app.
  split; [done|]. apply Forall_singleton, bsize_nonneg.
Qed.
Lemma settle_open s : open_ok s ->
  sub_sizes (settle_sizes s) = bsize <$> sub_events s /\ sub_bytes (settle_sizes s) = sum (bsize <$> sub_events s).
Proof.
  intros [(old & E & _) B]. unfold settle_sizes. simpl. rewrite B, E, length_app, length_fmap.
  replace (length old + length (sub_events s) - length (sub_events s))%nat with (length old) by lia.
  rewrite drop_app_length, take_app_length, sum_app. split; [done|lia].
Qed.
Lemma publish_to_ok h b s : sub_ok h s -> sub_ok h (publish_to h b (bsize b) s).
Proof.
  intros [H1 H2 H3]. unfold publish_to. destruct (sub_closed s) eqn:Ec; [by split; rewrite ?Ec|].
  destruct (settle_open s (H3 eq_refl)) as [E1 E2].
  destruct (_ || _) eqn:G.
  - apply closeLocked_ok. split; simpl; [done|done|]. intros _. split; [|by rewrite E1, E2].
    exists []. rewrite E1. by split.
  - apply orb_false_elim in G as [G1%Z.leb_gt G2%Z.ltb_ge]. simpl in G1. rewrite E2 in G2. split; simpl.
    + rewrite length_app. simpl. lia.
    + rewrite fmap_app, sum_app. simpl. lia.
    + intros _. split; simpl; [|simpl in *; rewrite E1, E2, sum_app; simpl; lia].
      exists []. simpl in E1. rewrite E1, fmap_app. by split.
Qed.

Lemma publish_subs h b : subs (publish h b)
  = if bool_decide (is_Some (encode_broadcast b)) then publish_to h b (bsize b) <$> subs h else subs h.
Proof.
  unfold publish, bsize. destruct (encode_broadcast b); [by rewrite bool_decide_eq_true_2|].
  rewrite bool_decide_eq_false_2; [done|]. by intros [].
Qed.
Lemma step_limits h o : maxEvents (hub_step h o).1 = maxEvents h /\ maxBytes (hub_step h o).1 = maxBytes h.
Proof. destruct o; simpl; try done. unfold publish. by destruct (encode_broadcast b). Qed.

Lemma sub_ok_limits h h' s : maxEvents h' = maxEvents h -> maxBytes h' = maxBytes h -> sub_ok h s -> sub_ok h' s.
Proof. intros E1 E2 []. by split; rewrite ?E1, ?E2. Qed.
Lemma alter_Forall {X} (P : X -> Prop) f i l : (forall x, P x -> P (f x)) -> Forall P l -> Forall P (alter f i l).
Proof. intros H F. apply Forall_alter; auto. Qed.
Lemma step_ok h o : 0 < maxEvents h -> 0 < maxBytes h -> Forall (sub_ok h) (subs h) -> Forall (sub_ok (hub_step h o).1) (subs (hub_step h o).1).
Proof.
  intros P1 P2 F. destruct (step_limits h o) as [E1 E2].
  assert (F' : Forall (sub_ok h) (subs (hub_step h o).1)).
  2: { eapply Forall_impl; [exact F'|]. intros s. by apply sub_ok_limits. }
  destruct o; simpl.
  - apply Forall_app. split; [done|]. apply Forall_singleton. split; simpl; [lia|lia|]. intros _. split; simpl; [|done].
    by exists [].
  - rewrite publish_subs. destruct (bool_decide _); [|done]. apply Forall_fmap. eapply Forall_impl; [exact F|].
    intros s. apply publish_to_ok.
  - apply alter_Forall; [|done]. apply take_event_ok.
  - apply alter_Forall; [|done]. apply closeLocked_ok.
Qed.

Lemma NewHub_limits e b : 0 < maxEvents (NewHub e b) <= 256 /\ 0 < maxBytes (NewHub e b) <= Z.shiftl 16 20.
Proof.
  unfold NewHub. simpl. change (Z.shiftl 16 20) with 16777216.
  destruct (Z.leb_spec e 0), (Z.ltb_spec 256 e), (Z.leb_spec b 0), (Z.ltb_spec 16777216 b); simpl; lia.
Qed.

Lemma hub_run_snoc h l o :
  hub_run h (l ++ [o]) = ((hub_step (hub_run h l).1 o).1, (hub_run h l).2 ++ [(o, (hub_step (hub_run h l).1 o).2)]).
Proof.
  revert h. induction l as [|p l IH]; intros h; simpl.
  - by destruct (hub_step h o).
  - destruct (hub_step h p) as [h1 x]. rewrite IH. by destruct (hub_run h1 l).
Qed.
Lemma run_ok e b l :
  let h := (hub_run (NewHub e b) l).1 in
  maxEvents h = maxEvents (NewHub e b) /\ maxBytes h = maxBytes (NewHub e b) /\ Forall (sub_ok h) (subs h).
Proof.
  induction l as [|o l IH] using rev_ind; [by repeat constructor|]. rewrite hub_run_snoc. simpl.
  destruct IH as (E1 & E2 & F), (step_limits (hub_run (NewHub e b) l).1 o) as [L1 L2]. rewrite L1, L2.
  pose proof (NewHub_limits e b). split_and!; [done..|]. apply step_ok; [lia|lia|done].
Qed.

(** Every buffer of the hub is bounded.  Whatever is subscribed, published,
    received and closed, a subscription holds at most as many events as the hub
    allows, never more than 256, and at most as many encoded bytes, never more
    than 16 MiB; so the send of a publication never waits for a subscriber. *)
Theorem hub_buffers_bounded e b l :
  let h := (hub_run (NewHub e b) l).1 in
  maxEvents h <= 256 /\ maxBytes h <= 2 ^ 24 /\
  Forall (fun s => Z.of_nat (length (sub_events s)) <= maxEvents h /\ sum (bsize <$> sub_events s) <= maxBytes h) (subs h).
Proof.
  intros h. destruct (run_ok e b l) as (E1 & E2 & F), (NewHub_limits e b) as [L1 L2]. fold h in E1, E2, F.
  rewrite E1, E2. change (2 ^ 24) with (Z.shiftl 16 20). split_and!; [lia|lia|]. rewrite <- E1, <- E2.
  eapply Forall_impl; [exact F|]. by intros s [].
Qed.

(** ** Delivery *)

Definition new_sub (o : hub_op) : nat := match o with HSubscribe _ => 1 | _ => 0 end.
Definition sent_by (n i : nat) (o : hub_op) : list Broadcast :=
  match o with
  | HPublish b => if Nat.ltb i n && bool_decide (is_Some (encode_broadcast b)) then [b] else []
  | _ => []
  end.
Definition new_subs (l : list hub_op) : nat := foldr (fun o n => (new_sub o + n)%nat) 0%nat l.

Lemma sent_snoc n i l o : sent n i (l ++ [o]) = sent n i l ++ sent_by (n + new_subs l) i o.
Proof.
  revert n. induction l as [|p l IH]; intros n; simpl.
  - rewrite Nat.add_0_r. destruct o; simpl; try done.
  - destruct p; simpl; rewrite ?IH; simpl; try done.
    + by replace (n + S (new_subs l))%nat with (S (n + new_subs l)) by lia.
    + by destruct (_ && _).
Qed.
Lemma subs_count h l : length (subs (hub_run h l).1) = (length (subs h) + new_subs l)%nat.
Proof.
  revert h. induction l as [|o l IH]; intros h; simpl; [lia|].
  assert (E : length (subs (hub_step h o).1) = (length (subs h) + new_sub o)%nat).
  { destruct o; simpl; rewrite ?publish_subs, ?length_app, ?length_alter; simpl; try lia.
    destruct (bool_decide _); rewrite ?length_fmap; lia. }
  destruct (hub_step h o) as [h1 x]. simpl in E. specialize (IH h1). destruct (hub_run h1 l). simpl in *. lia.
Qed.

(** What was published to a subscription: what it received, what is in its
    channel, and, once it is closed, what it misses. *)
Definition delivery (all have : list Broadcast) (s : subscription) : Prop :=
  exists missed, all = have ++ sub_events s ++ missed /\ (sub_closed s = false -> missed = []).

Lemma closeLocked_delivery all have s : delivery all have s -> delivery all have (closeLocked s).
Proof. intros (m & E & H). unfold closeLocked. destruct (sub_closed s) eqn:C; [by exists m; rewrite C|]. by exists m. Qed.
Lemma closeLocked_closed s : sub_closed (closeLocked s) = true.
Proof. unfold closeLocked. by destruct (sub_closed s) eqn:E. Qed.
Lemma closed_delivery all have s b : sub_closed s = true -> delivery all have s -> delivery (all ++ b) have s.
Proof. intros C (m & -> & _). exists (m ++ b). split; [by rewrite <- !app_assoc|]. by rewrite C. Qed.
Lemma publish_delivery h b n all have s : delivery all have s -> delivery (all ++ [b]) have (publish_to h b n s).
Proof.
  intros D. unfold publish_to. destruct (sub_closed s) eqn:C; [by apply closed_delivery|].
  assert (D' : delivery all have (settle_sizes s)) by exact D.
  destruct (_ || _); [apply closed_delivery; [apply closeLocked_closed|by apply closeLocked_delivery]|].
  destruct D as (m & E & H). rewrite (H C), app_nil_r in E. exists []. simpl. split; [|done].
  by rewrite E, app_nil_r, <- app_assoc.
Qed.
Lemma take_delivery all have s : delivery all have s ->
  delivery all (have ++ match head (sub_events s) with Some b => [b] | None => [] end) (take_event s).
Proof.
  intros (m & E & H). exists m. split; [|done]. rewrite E, <- app_assoc. f_equal. simpl. by destruct (sub_events s).
Qed.

Lemma got_snoc i t o x :
  got i (t ++ [(o, x)]) = got i t ++ match o with
                                     | HReceive j => if Nat.eqb i j then match x with Some b => [b] | None => [] end else []
                                     | _ => []
                                     end.
Proof.
  unfold got. rewrite omap_app. f_equal. destruct o as [a|b|j|j]; try done. cbn. destruct (Nat.eqb i j); by destruct x.
Qed.
Lemma new_subs_app l l' : new_subs (l ++ l') = (new_subs l + new_subs l')%nat.
Proof. induction l as [|o l IH]; simpl; [done|]. rewrite IH. lia. Qed.
Lemma sent_early i l : (new_subs l <= i)%nat -> sent 0 i l = [].
Proof.
  induction l as [|o l IH] using rev_ind; [done|]. rewrite new_subs_app. simpl. intros H. rewrite sent_snoc, IH by lia.
  destruct o; try done. simpl. by replace (Nat.ltb i (new_subs l)) with false by (symmetry; apply Nat.ltb_ge; simpl in H; lia).
Qed.
Lemma got_early i h l : (length (subs (hub_run h l).1) <= i)%nat -> got i (hub_run h l).2 = [].
Proof.
  induction l as [|o l IH] using rev_ind; [done|]. rewrite subs_count. intros H. rewrite hub_run_snoc. simpl. rewrite got_snoc.
  assert (L : (length (subs (hub_run h l).1) <= i)%nat).
  { rewrite subs_count. rewrite new_subs_app in H. lia. }
  rewrite (IH L). destruct o; try done. simpl. destruct (Nat.eqb_spec i i0) as [->|]; [|done].
  by rewrite lookup_ge_None_2.
Qed.

Lemma run_delivery e b l i s :
  subs (hub_run (NewHub e b) l).1 !! i = Some s -> delivery (sent 0 i l) (got i (hub_run (NewHub e b) l).2) s.
Proof.
  revert s. induction l as [|o l IH] using rev_ind; intros s; [done|].
  rewrite hub_run_snoc, sent_snoc. simpl. rewrite got_snoc. set (h := (hub_run (NewHub e b) l).1) in *.
  assert (Hn : new_subs l = length (subs h)) by (unfold h; rewrite subs_count; done). rewrite Hn. clear Hn.
  destruct o as [a|p|j|j]; simpl.
  - rewrite !app_nil_r. intros [(_ & Hl)|(Hi & <-)]%lookup_snoc_Some; [by apply IH|].
    assert (Hg : got i (hub_run (NewHub e b) l).2 = []) by (apply got_early; fold h; lia). rewrite Hg.
    assert (Hs : sent 0 i l = []).
    { apply sent_early. pose proof (subs_count (NewHub e b) l) as Hc. fold h in Hc. simpl in Hc. lia. }
    rewrite Hs. exists []. done.
  - rewrite app_nil_r, publish_subs. intros Hl.
    destruct (bool_decide _) eqn:Eb; simpl.
    + apply list_lookup_fmap_Some in Hl as (s0 & -> & Hl).
      pose proof (lookup_lt_Some _ _ _ Hl) as Hlt. apply Nat.ltb_lt in Hlt. rewrite Hlt. simpl. by apply publish_delivery, IH.
    + rewrite andb_false_r, app_nil_r. by apply IH.
  - rewrite app_nil_r. intros Hl. destruct (Nat.eqb_spec i j) as [<-|Hij].
    + rewrite list_lookup_alter_eq in Hl. apply fmap_Some in Hl as (s0 & Hl & ->). rewrite Hl. simpl. by apply take_delivery, IH.
    + rewrite list_lookup_alter_ne in Hl by done. rewrite app_nil_r. by apply IH.
  - rewrite !app_nil_r. intros Hl. destruct (decide (i = j)) as [->|Hij].
    + rewrite list_lookup_alter_eq in Hl. apply fmap_Some in Hl as (s0 & Hl & ->). by apply closeLocked_delivery, IH.
    + rewrite list_lookup_alter_ne in Hl by done. by apply IH.
Qed.

(** Delivery without gaps or reordering.  Whatever is subscribed, published,
    received and closed, what a subscription received followed by what is in its
    channel is a prefix of what was published since it exists; it is all of it
    while the subscription is open, so a slow subscriber is closed and never
    skips an event. *)
Theorem hub_delivers_in_order e b l i s :
  let '(h, t) := hub_run (NewHub e b) l in
  subs h !! i = Some s ->
  exists missed, sent 0 i l = got i t ++ sub_events s ++ missed /\ (sub_closed s = false -> missed = []).
Proof. pose proof (run_delivery e b l i s) as H. by destruct (hub_run (NewHub e b) l). Qed.

Definition demo_actor : Actor := {| ac_UID := 7; ac_Name := "ann" |}.
Definition demo_broadcast (n : Z) : Broadcast :=
  {| bc_Durable := None;
     bc_Transient := Some {| te_Revision := n; te_Kind := "item-delta"; te_ThreadID := "th"; te_TurnID := "t"; te_ItemID := "i";
                             te_Delta := "x" |} |}.
Definition demo_ops : list hub_op :=
  [HPublish (demo_broadcast 1); HSubscribe demo_actor; HPublish (demo_broadcast 2); HPublish (demo_broadcast 3);
   HReceive 0; HPublish (demo_broadcast 4); HPublish (demo_broadcast 5)].
(** With room for two events the fourth publication closes the subscription. *)
Lemma hub_delivers_in_order_witness :
  exists s, subs (hub_run (NewHub 2 0) demo_ops).1 !! 0%nat = Some s /\ sub_closed s = true /\
    sent 0 0 demo_ops = demo_broadcast <$> [2; 3; 4; 5] /\
    exists missed, sent 0 0 demo_ops = got 0 (hub_run (NewHub 2 0) demo_ops).2 ++ sub_events s ++ missed /\
      (sub_closed s = false -> missed = []).
Proof.
  eexists. split; [vm_compute; reflexivity|]. split; [reflexivity|]. split; [vm_compute; reflexivity|].
  match goal with |- context [sub_events ?x] => pose proof (hub_delivers_in_order 2 0 demo_ops 0 x) as H end.
  destruct (hub_run (NewHub 2 0) demo_ops) as [h t] eqn:E. simpl. apply H.
  change h with (h, t).1. rewrite <- E. vm_compute. reflexivity.
Defined.

(** ** Members *)

Lemma insert_member_elem a x l : x ∈ ac_UID <$> insert_member a l <-> x = ac_UID a \/ x ∈ ac_UID <$> l.
Proof.
  induction l as [|b l IH]; cbn [insert_member].
  { change (ac_UID <$> [a]) with [ac_UID a]. rewrite list_elem_of_singleton, elem_of_nil. tauto. }
  destruct (Z.eqb_spec (ac_UID a) (ac_UID b)) as [E|E]; [rewrite fmap_cons, elem_of_cons, E; tauto|].
  destruct (_ <? _); rewrite !fmap_cons, !elem_of_cons, ?IH; tauto.
Qed.
Lemma insert_member_sorted a l : StronglySorted (key_lt ac_UID) l -> StronglySorted (key_lt ac_UID) (insert_member a l).
Proof.
  induction 1 as [|b l H IH F]; simpl; [repeat constructor|].
  destruct (Z.eqb_spec (ac_UID a) (ac_UID b)) as [E|E]; [by constructor|].
  destruct (Z.ltb_spec (ac_UID a) (ac_UID b)) as [L|L]; constructor; [by constructor| |done|].
  - constructor; [done|]. eapply Forall_impl; [exact F|]. unfold key_lt. intros; lia.
  - apply Forall_forall. intros x Hx. unfold key_lt.
    assert (Hu : ac_UID x ∈ ac_UID <$> insert_member a l) by by apply list_elem_of_fmap_2.
    apply insert_member_elem in Hu as [->|(y & -> & Hy)%list_elem_of_fmap]; [lia|].
    rewrite Forall_forall in F. by apply F.
Qed.

(** [Members] lists every connected uid once, in order: an actor per uid that
    has an open subscription, by increasing uid. *)
Theorem hub_members_spec h :
  StronglySorted (key_lt ac_UID) (Members h) /\
  forall u, u ∈ ac_UID <$> Members h <-> exists s, s ∈ subs h /\ sub_closed s = false /\ ac_UID (sub_actor s) = u.
Proof.
  unfold Members. assert (G : forall l acc, StronglySorted (key_lt ac_UID) acc ->
    StronglySorted (key_lt ac_UID) (foldl (fun l a => insert_member a l) acc l) /\
    forall u, u ∈ ac_UID <$> foldl (fun l a => insert_member a l) acc l <-> u ∈ ac_UID <$> acc \/ u ∈ ac_UID <$> l).
  { induction l as [|a l IH]; intros acc H; cbn [foldl]; [split; [done|]; intros u; change (ac_UID <$> []) with (@nil Z);
      rewrite elem_of_nil; tauto|].
    destruct (IH (insert_member a acc)) as [H1 H2]; [by apply insert_member_sorted|]. split; [done|].
    intros u. rewrite H2, insert_member_elem, fmap_cons, elem_of_cons. tauto. }
  destruct (G (open_actors h) [] ltac:(constructor)) as [H1 H2]. split; [done|]. intros u. rewrite H2. change (ac_UID <$> []) with (@nil Z). rewrite elem_of_nil.
  unfold open_actors. split.
  - intros [[]|(a & -> & (s & -> & [Hs Hc]%filter_elem_of)%list_elem_of_fmap)%list_elem_of_fmap]. exists s.
    split_and!; [done|by apply negb_true_iff|done].
  - intros (s & Hs & Hc & <-). right. apply list_elem_of_fmap_2, list_elem_of_fmap_2, filter_elem_of. by rewrite Hc.
Qed.
