(* ===== verification/JsonFacts.v ===== *)
(** * Facts about JSON texts

    What is marshalled is read back: the text of a string literal is lexed and
    unquoted to the string, the text of a value is scanned, compacted and parsed
    as that value. *)
From S2P Require Import Prelude GoStrings Json.

(** ** Strings as sequences of bytes *)

Lemma sapp_cons x (a b : string) : String x a +:+ b = String x (a +:+ b).
Proof. done. Qed.
Lemma sapp_empty (a : string) : "" +:+ a = a.
Proof. done. Qed.
Lemma sapp_assoc (a b c : string) : (a +:+ b) +:+ c = a +:+ (b +:+ c).
Proof. induction a as [|x a IH]; [done|]. by rewrite !sapp_cons, IH. Qed.
Lemma sapp_nil (a : string) : a +:+ "" = a.
Proof. induction a as [|x a IH]; [done|]. by rewrite sapp_cons, IH. Qed.
Lemma sapp_length (a b : string) : String.length (a +:+ b) = (String.length a + String.length b)%nat.
Proof. induction a as [|x a IH]; [done|]. rewrite sapp_cons. simpl. by rewrite IH. Qed.
Ltac sapp := repeat first [rewrite sapp_cons | rewrite sapp_empty | rewrite sapp_assoc].
Lemma take_drop_bytes n s : take_bytes n s +:+ drop_bytes n s = s.
Proof. revert s. induction n as [|n IH]; intros [|c s]; try done. simpl. by rewrite sapp_cons, IH. Qed.
Lemma take_bytes_app s t : take_bytes (String.length s) (s +:+ t) = s.
Proof. induction s as [|c s IH]; [by destruct t|]. rewrite sapp_cons. simpl. by rewrite IH. Qed.
Lemma drop_bytes_app s t : drop_bytes (String.length s) (s +:+ t) = t.
Proof. by induction s. Qed.
Lemma drop_bytes_length n s : String.length (drop_bytes n s) = (String.length s - n)%nat.
Proof. revert s. induction n as [|n IH]; intros [|c s]; simpl; done || apply IH. Qed.

(** ** Runes *)

(** A rune of more than one byte: its bytes, whatever follows. *)
Definition is_rune (x : string) : Prop :=
  exists n, (2 <= n)%nat /\ String.length x = n /\ (forall w, utf8_width (x +:+ w) = Some n) /\
    Forall (fun c => 128 <= code c) (bytes x) /\ Forall (fun c => code c < 192) (tail (bytes x)) /\
    (forall c r, x = String c r -> code c = 0xE2 -> n = 3%nat).

Lemma utf8_width_head c r n : utf8_width (String c r) = Some n -> code c < 128 -> n = 1%nat.
Proof. unfold utf8_width. intros H Hc. apply Z.ltb_lt in Hc. rewrite Hc in H. by injection H. Qed.

Lemma between_bounds lo hi z : between lo hi z = true -> lo <= z <= hi.
Proof. unfold between. intros H. bool_props. lia. Qed.
Lemma cont_bounds c : is_cont c = true -> 128 <= code c < 192.
Proof. intros H%between_bounds. lia. Qed.
Ltac rune_bounds := first [repeat constructor; lia | intros ? ? [= <- _]; lia].

Lemma utf8_width_rune c r n : utf8_width (String c r) = Some n -> 128 <= code c ->
  is_rune (take_bytes n (String c r)).
Proof.
  intros H Hc. unfold utf8_width in H. rewrite (proj2 (Z.ltb_ge _ _) Hc) in H.
  destruct r as [|b r]; [done|]. destruct (between 0xC2 0xDF (code c)) eqn:E2.
  { destruct (is_cont b) eqn:Eb; [|done]. injection H as <-. exists 2%nat. split_and!; [lia|done| |..].
    { intros w. simpl. rewrite (proj2 (Z.ltb_ge _ _) Hc), E2, Eb. done. }
    all: apply between_bounds in E2; apply cont_bounds in Eb; rune_bounds. }
  destruct r as [|d r]; [done|]. destruct (between 0xE0 0xEF (code c)) eqn:E3.
  { destruct (_ && is_cont d) eqn:Ed; [|done]. injection H as <-. exists 3%nat. split_and!; [lia|done| |..].
    { intros w. simpl. rewrite (proj2 (Z.ltb_ge _ _) Hc), E2, E3, Ed. done. }
    all: apply andb_prop in Ed as [Ey%between_bounds Ed%cont_bounds]; apply between_bounds in E3;
      destruct (code c =? 0xE0), (code c =? 0xED); rune_bounds. }
  destruct r as [|e r]; [done|]. destruct (between 0xF0 0xF4 (code c)) eqn:E4; [|done].
  destruct (_ && is_cont e) eqn:Ee; [|done]. injection H as <-. exists 4%nat. split_and!; [lia|done| |..].
  { intros w. simpl. rewrite (proj2 (Z.ltb_ge _ _) Hc), E2, E3, E4, Ee. done. }
  all: apply andb_prop in Ee as [Ee1 Ee%cont_bounds]; apply andb_prop in Ee1 as [Ey%between_bounds Ed%cont_bounds];
    apply between_bounds in E4; destruct (code c =? 0xF0), (code c =? 0xF4); rune_bounds.
Qed.

(** Valid UTF-8, one rune at a time. *)
Inductive utf8 : string -> Prop :=
| utf8_nil : utf8 ""
| utf8_ascii c r : code c < 128 -> utf8 r -> utf8 (String c r)
| utf8_rune x r : is_rune x -> utf8 r -> utf8 (x +:+ r).

Lemma utf8_valid_utf8 s : utf8_valid s = true -> utf8 s.
Proof.
  unfold utf8_valid. generalize (String.length s). intros n. revert s. induction n as [|n IH]; intros [|c s] H; [constructor|done|constructor|]. cbn [utf8_valid_fuel] in H.
  destruct (utf8_width (String c s)) as [k|] eqn:E; [|done]. destruct (Z.lt_ge_cases (code c) 128) as [Hc|Hc].
  - rewrite (utf8_width_head _ _ _ E Hc) in H. simpl in H. apply utf8_ascii; [done|]. by apply IH.
  - rewrite <- (take_drop_bytes k (String c s)). apply utf8_rune; [by apply utf8_width_rune|by apply IH].
Qed.

(** ** String literals

    A literal is a sequence of units, each standing for a part of the string. *)

Definition backslash : ascii := chr 92.
Definition is_escape (e : ascii) : bool := existsb (fun d => code e =? d) [34; 92; 47; 98; 102; 110; 114; 116].
Inductive lit_unit : string -> string -> Prop :=
| lu_plain c : 32 <= code c < 128 -> existsb (fun d => code c =? d) [34; 92; 60; 62; 38] = false ->
    lit_unit (String c "") (String c "")
| lu_escape e : is_escape e = true -> lit_unit (String backslash (String e "")) (unescape1 e)
| lu_hex z : 0 <= z < 65536 -> between 0xD800 0xDFFF z = false -> lit_unit (u_escape z) (encode_rune z)
| lu_rune x : is_rune x -> is_2028 x = None -> lit_unit x x.
Inductive literal : string -> string -> Prop :=
| lit_nil : literal "" ""
| lit_cons x y r s : lit_unit x y -> literal r s -> literal (x +:+ r) (y +:+ s).

Lemma quote_ascii_unit c : code c < 128 -> lit_unit (quote_ascii c) (String c "").
Proof.
  intros Hc. pose proof (code_bounds c) as Hb. unfold quote_ascii.
  assert (E : forall z y, code c = z -> y = String (chr z) "" -> y = String c "") by (intros z y <- ->; by rewrite chr_code).
  repeat match goal with |- context [if ?z =? ?d then _ else _] =>
    destruct (Z.eqb_spec z d) as [Hd|]; [rewrite <- (E d _ Hd eq_refl); apply lu_escape; reflexivity|] end.
  destruct (_ || _) eqn:G.
  - replace (String c "") with (encode_rune (code c)).
    + apply lu_hex; [lia|]. unfold between. destruct (Z.leb_spec 0xD800 (code c)); [lia|done].
    + unfold encode_rune. rewrite (proj2 (Z.ltb_lt _ _) Hc). simpl. by rewrite chr_code.
  - bool_props. apply lu_plain; [lia|]. cbn [existsb].
    by rewrite !(proj2 (Z.eqb_neq _ _)) by lia.
Qed.

Lemma is_rune_head x : is_rune x -> exists c r, x = String c r /\ 128 <= code c.
Proof.
  intros (n & Hn & Hl & _ & F & _). destruct x as [|c r]; [simpl in Hl; lia|]. apply Forall_cons in F as [F _]. eauto.
Qed.
Lemma is_2028_rune x z : is_2028 x = Some z -> is_rune x -> lit_unit (u_escape z) x.
Proof.
  destruct x as [|a [|b [|c []]]]; try done. simpl. destruct (_ && _) eqn:G; [|done]. intros [= <-] _.
  apply andb_prop in G as [G Hc]. bool_props.
  assert (Ha : a = chr 0xE2) by (rewrite <- (chr_code a); congruence).
  assert (Hb : b = chr 0x80) by (rewrite <- (chr_code b); congruence). subst a b.
  apply orb_true_iff in Hc as [Hc|Hc]; apply Z.eqb_eq in Hc; rewrite <- (chr_code c), Hc.
  - exact (lu_hex 0x2028 ltac:(lia) eq_refl).
  - exact (lu_hex 0x2029 ltac:(lia) eq_refl).
Qed.

Lemma quote_literal s : utf8 s -> forall fuel, (String.length s <= fuel)%nat -> literal (quote_body fuel s) s.
Proof.
  induction 1 as [|c r Hc H IH|x r Hx H IH]; intros fuel Hf.
  - destruct fuel; constructor.
  - destruct fuel as [|fuel]; [simpl in Hf; lia|]. cbn [quote_body]. rewrite (proj2 (Z.ltb_lt _ _) Hc).
    change (String c r) with (String c "" +:+ r). constructor; [by apply quote_ascii_unit|]. apply IH. simpl in Hf. lia.
  - destruct (is_rune_head x Hx) as (c & t & -> & Hc). destruct (Hx) as (n & Hn & Hl & Hw & _ & _).
    destruct fuel as [|fuel]; [simpl in Hf; lia|]. rewrite sapp_cons. cbn [quote_body]. rewrite (proj2 (Z.ltb_ge _ _) Hc).
    rewrite <- !sapp_cons. rewrite Hw. rewrite <- Hl, take_bytes_app, drop_bytes_app.
    rewrite sapp_length in Hf. simpl in Hf. specialize (IH fuel ltac:(lia)).
    destruct (is_2028 (String c t)) as [z|] eqn:E; (constructor; [|exact IH]); [by apply is_2028_rune|by apply lu_rune].
Qed.

(** ** Reading a literal *)

Lemma hex_digit_value d : 0 <= d < 16 -> hex_value (hex_digit d) = Some d.
Proof.
  intros H. assert (Hd : forallb (fun d => bool_decide (hex_value (hex_digit d) = Some d)) (seqZ 0 16) = true) by (vm_compute; reflexivity).
  rewrite forallb_forall in Hd. specialize (Hd d). eapply bool_decide_eq_true_1, Hd. apply list_elem_of_In, elem_of_seqZ. lia.
Qed.
Lemma hex_digit_plain d : 0 <= d < 16 -> 48 <= code (hex_digit d) <= 102 /\ existsb (fun k => code (hex_digit d) =? k) [92; 60; 62] = false.
Proof.
  intros H. assert (Hd : forallb (fun d => between 48 102 (code (hex_digit d)) &&
    negb (existsb (fun k => code (hex_digit d) =? k) [92; 60; 62])) (seqZ 0 16) = true) by (vm_compute; reflexivity).
  rewrite forallb_forall in Hd. specialize (Hd d ltac:(apply list_elem_of_In, elem_of_seqZ; lia)).
  unfold between in Hd. apply andb_prop in Hd as [Hd1 Hd2]. apply andb_prop in Hd1 as [A B].
  apply negb_true_iff in Hd2. split; [lia|done].
Qed.
Lemma hexval4_hex z : 0 <= z < 65536 ->
  hexval4 (hex_digit (z / 4096 mod 16)) (hex_digit (z / 256 mod 16)) (hex_digit (z / 16 mod 16)) (hex_digit (z mod 16)) = z.
Proof.
  intros H. unfold hexval4. rewrite !hex_digit_value by (apply Z.mod_pos_bound; lia).
  change 4096 with (16 * 16 * 16) at 2. change 256 with (16 * 16) at 2. rewrite <- !Z.div_div by lia.
  pose proof (Z.div_mod z 16 ltac:(lia)). pose proof (Z.div_mod (z / 16) 16 ltac:(lia)).
  pose proof (Z.div_mod (z / 16 / 16) 16 ltac:(lia)).
  assert (z / 16 / 16 / 16 mod 16 = z / 16 / 16 / 16) as ->; [|lia].
  apply Z.mod_small. rewrite !Z.div_div by lia. split; [apply Z.div_pos; lia|apply Z.div_lt_upper_bound; lia].
Qed.

(** *** [lex_str] *)

Definition lexes (x : string) : Prop :=
  forall w a b, lex_str w = Some (a, b) -> lex_str (x +:+ w) = Some (x +:+ a, b).

Lemma lexes_plain c : 32 <= code c -> code c <> 34 -> code c <> 92 -> lexes (String c "").
Proof.
  intros H1 H2 H3 w a b H. rewrite sapp_cons. cbn [lex_str String.append].
  rewrite (proj2 (Z.eqb_neq _ _) H2), (proj2 (Z.eqb_neq _ _) H3), (proj2 (Z.ltb_ge _ _) H1).
  change ("" +:+ w) with w. by rewrite H.
Qed.
Lemma lexes_app x y : lexes x -> lexes y -> lexes (x +:+ y).
Proof. intros Hx Hy w a b H. rewrite !sapp_assoc. by apply Hx, Hy. Qed.
Lemma lexes_high x : Forall (fun c => 128 <= code c) (bytes x) -> lexes x.
Proof.
  induction x as [|c x IH]; intros F; [by intros w a b H|]. apply Forall_cons in F as [Hc F].
  change (String c x) with (String c "" +:+ x). apply lexes_app; [apply lexes_plain; lia|by apply IH].
Qed.
Lemma lexes_unit x y : lit_unit x y -> lexes x.
Proof.
  destruct 1 as [c Hc He|e He|z Hz Hs|x (n & _ & _ & _ & F & _) _].
  - cbn [existsb] in He. bool_props. apply lexes_plain; [lia|done|done].
  - intros w a b H. sapp. cbn [lex_str]. unfold is_escape in He. change (code backslash =? 34) with false.
    change (code backslash =? 92) with true. cbv iota. rewrite He. by rewrite H.
  - intros w a b H. unfold u_escape, hex4. sapp. cbn [lex_str].
    change (code "\" =? 34) with false. change (code "\" =? 92) with true. cbv iota.
    change (existsb (fun d => code "u" =? d) [34; 92; 47; 98; 102; 110; 114; 116]) with false.
    change (code "u" =? 117) with true. cbv iota. unfold is_hex. rewrite !hex_digit_value by (apply Z.mod_pos_bound; lia).
    cbn [andb]. by rewrite H.
  - by apply lexes_high.
Qed.
Lemma lex_literal r s rest : literal r s -> lex_str (r +:+ dquote +:+ rest) = Some (r, rest).
Proof.
  induction 1 as [|x y r s Hu _ IH]; [done|]. rewrite sapp_assoc. by apply (lexes_unit _ _ Hu).
Qed.

(** *** [unquote] *)

Lemma unquote_unit x y f w : lit_unit x y -> unquote_fuel (S f) (x +:+ w) = y +:+ unquote_fuel f w.
Proof.
  destruct 1 as [c Hc He|e He|z Hz Hs|x Hx _].
  - cbn [existsb] in He. bool_props. sapp. cbn [unquote_fuel].
    rewrite (proj2 (Z.eqb_neq (code c) 92)) by done. rewrite (proj2 (Z.ltb_lt (code c) 0x80)) by lia. done.
  - sapp. cbn [unquote_fuel]. change (code backslash =? 92) with true. cbv iota.
    destruct (Z.eqb_spec (code e) 117) as [E|_]; [|done]. unfold is_escape in He. rewrite E in He. done.
  - unfold u_escape, hex4. sapp. cbn [unquote_fuel]. change (code "\" =? 92) with true. change (code "u" =? 117) with true.
    cbv iota zeta. by rewrite hexval4_hex, Hs by done.
  - destruct (is_rune_head x Hx) as (c & t & -> & Hc). destruct Hx as (n & Hn & Hl & Hw & _). sapp. cbn [unquote_fuel].
    rewrite (proj2 (Z.eqb_neq (code c) 92)) by lia. rewrite (proj2 (Z.ltb_ge (code c) 0x80)) by lia.
    rewrite <- sapp_cons, Hw, <- Hl. by rewrite take_bytes_app, drop_bytes_app.
Qed.
Lemma unquote_literal r s : literal r s -> forall f, (String.length r <= f)%nat -> unquote_fuel f r = s.
Proof.
  induction 1 as [|x y r s Hu _ IH]; intros f Hf; [by destruct f|]. rewrite sapp_length in Hf.
  assert (Hx : (1 <= String.length x)%nat).
  { destruct Hu as [| | |x (n & Hn & Hl & _) _]; simpl; lia. }
  destruct f as [|f]; [lia|]. rewrite (unquote_unit _ _ _ _ Hu), IH by lia. done.
Qed.
Lemma unquote_quote s : utf8 s -> unquote (quote_body (String.length s) s) = s.
Proof. intros H. unfold unquote. eapply unquote_literal; [by apply quote_literal|done]. Qed.

(** *** [compact_body] *)

(** Inside a literal a unit is copied. *)
Definition copied (x : string) : Prop :=
  forall w, compact_body true true false (x +:+ w) = x +:+ compact_body true true false w.

Definition html_char (c : ascii) : bool := (code c =? 60) || (code c =? 62) || (code c =? 38).
(** U+2028 or U+2029 starts here. *)
Definition separator (s : string) : bool :=
  match s with
  | String a (String b (String d _)) => (code a =? 0xE2) && (code b =? 0x80) && ((code d =? 0xA8) || (code d =? 0xA9))
  | _ => false
  end.
Lemma compact_step in_str esc c w : html_char c = false -> separator (String c w) = false ->
  compact_body true in_str esc (String c w)
  = if in_str then String c (compact_body true (negb ((code c =? 34) && negb esc)) ((code c =? 92) && negb esc) w)
    else if is_ws c then compact_body true false false w
    else String c (compact_body true (code c =? 34) false w).
Proof.
  intros H1 H2. cbn [compact_body]. unfold html_char in H1. rewrite H1. cbn [andb].
  destruct w as [|b [|d w]]; [done..|]. unfold separator in H2. by rewrite H2.
Qed.
Lemma separator_low c w : code c < 128 -> separator (String c w) = false.
Proof. intros H. destruct w as [|b [|d w]]; [done..|]. cbn [separator]. by rewrite (proj2 (Z.eqb_neq (code c) 0xE2)) by lia. Qed.
Lemma separator_cont c w : 128 <= code c < 0xC0 -> separator (String c w) = false.
Proof. intros H. destruct w as [|b [|d w]]; [done..|]. cbn [separator]. by rewrite (proj2 (Z.eqb_neq (code c) 0xE2)) by lia. Qed.
Lemma html_char_range c : code c < 38 \/ 62 < code c \/ code c = 48 -> html_char c = false.
Proof. intros H. unfold html_char. by rewrite !(proj2 (Z.eqb_neq _ _)) by lia. Qed.

Lemma compact_char c w : code c < 128 -> html_char c = false -> code c <> 34 -> code c <> 92 ->
  compact_body true true false (String c w) = String c (compact_body true true false w).
Proof.
  intros H1 H2 H3 H4. rewrite compact_step by (done || by apply separator_low).
  by rewrite (proj2 (Z.eqb_neq _ _) H3), (proj2 (Z.eqb_neq _ _) H4).
Qed.
Lemma compact_escape e w : code e < 128 -> html_char e = false ->
  compact_body true true false (String backslash (String e w)) = String backslash (String e (compact_body true true false w)).
Proof.
  intros H1 H2. rewrite compact_step by (done || by apply separator_low). change (code backslash =? 34) with false. change (code backslash =? 92) with true.
  cbn [andb negb]. rewrite compact_step by (done || by apply separator_low). by rewrite !andb_false_r.
Qed.
Lemma compact_high x w : Forall (fun c => 128 <= code c) (bytes x) ->
  (forall y c z, x = y +:+ String c z -> separator (String c z +:+ w) = false) ->
  compact_body true true false (x +:+ w) = x +:+ compact_body true true false w.
Proof.
  induction x as [|c x IH]; intros F H; [done|]. apply Forall_cons in F as [Hc F]. sapp.
  rewrite compact_step; [|apply html_char_range; lia|by apply (H "" c x)].
  rewrite (proj2 (Z.eqb_neq (code c) 34)), (proj2 (Z.eqb_neq (code c) 92)) by lia. cbn [andb negb]. f_equal.
  apply IH; [done|]. intros y d z ->. by apply (H (String c y) d z).
Qed.
Lemma copied_rune x : is_rune x -> is_2028 x = None -> copied x.
Proof.
  intros (n & Hn & Hl & _ & F & C & E2) N w. apply compact_high; [done|]. intros y c z ->. destruct y as [|a y].
  - rewrite sapp_empty in *. destruct (decide (code c = 0xE2)) as [E|E].
    + rewrite (E2 _ _ eq_refl E) in Hl. destruct z as [|b [|d []]]; try done. sapp. cbn [separator].
      unfold is_2028 in N. by destruct (_ && _ && _).
    + destruct (z +:+ w) as [|b [|d u]] eqn:Ez; sapp; rewrite Ez; [done..|]. cbn [separator]. by rewrite (proj2 (Z.eqb_neq _ _) E).
  - rewrite sapp_cons in C. cbn [bytes tail] in C. rewrite bytes_app in C. apply Forall_app in C as [_ C].
    rewrite sapp_cons in F. cbn [bytes] in F. apply Forall_cons in F as [_ F]. rewrite bytes_app in F. apply Forall_app in F as [_ F].
    apply Forall_cons in C as [C _]. apply Forall_cons in F as [F _]. sapp. apply separator_cont. lia.
Qed.
Lemma copied_unit x y : lit_unit x y -> copied x.
Proof.
  destruct 1 as [c Hc He|e He|z Hz Hs|x Hx N]; [| | |by apply copied_rune]; intros w.
  - cbn [existsb] in He. bool_props. sapp. apply compact_char; [lia| |done|done]. unfold html_char.
    by rewrite !(proj2 (Z.eqb_neq _ _)) by done.
  - sapp. unfold is_escape in He. apply existsb_exists in He as (d & Hd & E%Z.eqb_eq).
    apply compact_escape; rewrite ?E; [|unfold html_char; rewrite E];
      repeat (destruct Hd as [<-|Hd]; [done|]); destruct Hd.
  - unfold u_escape, hex4. sapp. rewrite (compact_escape "u") by done.
    assert (D : forall d v, 0 <= d < 16 -> compact_body true true false (String (hex_digit d) v)
                = String (hex_digit d) (compact_body true true false v)).
    { intros d v H. destruct (hex_digit_plain d H) as [B1 B2]. cbn [existsb] in B2. bool_props.
      apply compact_char; [lia| |lia|done]. unfold html_char. destruct (Z.eqb_spec (code (hex_digit d)) 38); [lia|].
      by rewrite !(proj2 (Z.eqb_neq _ _)) by done. }
    by rewrite !D by (apply Z.mod_pos_bound; lia).
Qed.
Lemma compact_literal r s w : literal r s ->
  compact_body true true false (r +:+ dquote +:+ w) = r +:+ dquote +:+ compact_body true false false w.
Proof.
  induction 1 as [|x y r s Hu _ IH].
  - unfold dquote. sapp. rewrite compact_step by (done || by apply separator_low). done.
  - rewrite !sapp_assoc, (copied_unit _ _ Hu). by rewrite IH.
Qed.
Lemma compact_quote s w : utf8 s ->
  compact_body true false false (quote s +:+ w) = quote s +:+ compact_body true false false w.
Proof.
  intros H. unfold quote. rewrite !sapp_assoc. unfold dquote at 1 4. sapp.
  rewrite compact_step by (done || by apply separator_low). change (is_ws (chr 34)) with false. change (code (chr 34) =? 34) with true.
  cbv iota. f_equal. by apply compact_literal with s, quote_literal.
Qed.

(** ** Decimal numbers *)

(** What follows a value inside a document: the end, a comma or a closing bracket. *)
Definition stops (w : string) : Prop :=
  match w with "" => True | String c _ => existsb (fun d => code c =? d) [44; 93; 125] = true end.
Lemma stops_cases w : stops w -> w = "" \/ exists c r, w = String c r /\ (code c = 44 \/ code c = 93 \/ code c = 125).
Proof.
  destruct w as [|c r]; [by left|]. intros H. right. exists c, r. split; [done|]. cbn [stops existsb] in H.
  repeat (apply orb_true_iff in H as [H|H]; [apply Z.eqb_eq in H; auto|]). done.
Qed.

Definition digit_step (a : Z) (c : ascii) : Z := 10 * a + (code c - 48).
Definition digits_value (s : string) : Z := foldl digit_step 0 (bytes s).
(** Digits without a leading zero. *)
Definition nat_text (s : string) (z : Z) : Prop :=
  exists c d, s = String c d /\ is_digit c = true /\ str_forallb is_digit d = true /\ (code c = 48 -> d = "") /\ digits_value s = z.

Lemma pretty_char_code m : (m < 10)%N -> code (pretty_N_char m) = 48 + Z.of_N m.
Proof.
  intros H. assert (E : (m = 0 \/ m = 1 \/ m = 2 \/ m = 3 \/ m = 4 \/ m = 5 \/ m = 6 \/ m = 7 \/ m = 8 \/ m = 9)%N) by lia.
  by repeat destruct E as [->|E]; [..|subst].
Qed.
Lemma foldl_digits a l : foldl digit_step a l = a * 10 ^ Z.of_nat (length l) + foldl digit_step 0 l.
Proof.
  revert a. induction l as [|c l IH]; intros a; cbn [foldl length]; [lia|].
  rewrite IH, (IH (digit_step 0 c)). unfold digit_step. rewrite Nat2Z.inj_succ, Z.pow_succ_r by lia. lia.
Qed.
Lemma pretty_go_digits x s : (0 < x)%N ->
  exists c d, pretty_N_go x s = String c d +:+ s /\ is_digit c = true /\ code c <> 48 /\ str_forallb is_digit d = true /\
    digits_value (String c d) = Z.of_N x.
Proof.
  revert s. induction (N.lt_wf_0 x) as [x _ IH]. intros s Hx. rewrite pretty_N_go_step by done.
  set (m := (x `mod` 10)%N). assert (Hm : (m < 10)%N) by (by apply N.mod_lt).
  pose proof (pretty_char_code m Hm) as Ec. set (k := pretty_N_char m) in *.
  assert (Dk : is_digit k = true) by (unfold is_digit, between; lia).
  assert (Ex : Z.of_N x = 10 * Z.of_N (x `div` 10) + Z.of_N m)
    by (unfold m; rewrite (N.div_mod x 10) at 1 by done; lia).
  destruct (N.eq_dec (x `div` 10) 0) as [E|E].
  - rewrite E, pretty_N_go_0. exists k, "". split_and!; [done|done| |done|].
    + rewrite Ec. lia.
    + unfold digits_value. cbn [bytes foldl]. unfold digit_step. lia.
  - destruct (IH (x `div` 10)%N ltac:(by apply N.div_lt) (String k s) ltac:(lia)) as (c & d & -> & H1 & H2 & H3 & H4).
    exists c, (d +:+ String k ""). split_and!; [|done|done| |].
    + by sapp.
    + unfold str_forallb in *. rewrite bytes_app, forallb_app, H3. cbn. by rewrite Dk.
    + unfold digits_value in *. rewrite <- sapp_cons, bytes_app, foldl_app, H4. cbn [bytes foldl]. unfold digit_step. lia.
Qed.
Lemma itoa_nat z : 0 <= z -> nat_text (itoa z) z.
Proof.
  intros H. destruct z as [|p|p]; [|clear H|lia].
  - exists "0"%char, "". done.
  - change (itoa (Z.pos p)) with (pretty (N.pos p)). unfold pretty, pretty_N. destruct (decide _) as [E|_]; [lia|].
    destruct (pretty_go_digits (N.pos p) "" ltac:(lia)) as (c & d & -> & H1 & H2 & H3 & H4). rewrite sapp_nil.
    exists c, d. split_and!; [done|done|done|congruence|exact H4].
Qed.
Lemma itoa_neg z : z < 0 -> itoa z = String "-" (itoa (- z)).
Proof. intros H. destruct z as [|p|p]; [lia|lia|]. done. Qed.

Lemma span_digits d w : str_forallb is_digit d = true -> stops w -> span is_digit (d +:+ w) = (d, w).
Proof.
  intros Hd Hw. induction d as [|c d IH].
  - rewrite sapp_empty. destruct (stops_cases w Hw) as [->|(c & r & -> & Hc)]; [done|]. cbn [span].
    unfold is_digit, between. by replace ((48 <=? code c) && (code c <=? 57)) with false by lia.
  - unfold str_forallb in *. cbn [bytes forallb] in Hd. apply andb_prop in Hd as [Hc Hd]. sapp. cbn [span].
    rewrite Hc, (IH Hd). done.
Qed.
Lemma lex_num_nat s z w : nat_text s z -> stops w -> lex_num (s +:+ w) = Some (s, w).
Proof.
  intros (c & d & -> & Hc & Hd & H0 & _) Hw. unfold lex_num. sapp. unfold is_digit, between in Hc. bool_props.
  rewrite (proj2 (Z.eqb_neq (code c) 45)) by lia. cbv iota beta.
  assert (E : (if code c =? 48 then (String c "", d +:+ w) else span is_digit (String c (d +:+ w))) = (String c d, w)).
  { destruct (Z.eqb_spec (code c) 48) as [Ez|Ez]; [by rewrite (H0 Ez)|]. rewrite <- sapp_cons. apply span_digits; [|done].
    unfold str_forallb in *. cbn [bytes forallb]. rewrite Hd. unfold is_digit, between. lia. }
  rewrite E. cbn [String.eqb]. destruct (stops_cases w Hw) as [->|(k & r & -> & Hk)]; [by rewrite !sapp_nil|].
  rewrite (proj2 (Z.eqb_neq (code k) 46)), (proj2 (Z.eqb_neq (code k) 101)), (proj2 (Z.eqb_neq (code k) 69)) by lia.
  cbv iota beta. cbn [orb]. by rewrite sapp_nil, sapp_empty.
Qed.
Lemma lex_num_itoa z w : stops w -> lex_num (itoa z +:+ w) = Some (itoa z, w).
Proof.
  intros Hw. destruct (Z.le_gt_cases 0 z) as [H|H]; [by eapply lex_num_nat; [apply itoa_nat|]|].
  rewrite itoa_neg by done. pose proof (itoa_nat (- z) ltac:(lia)) as N. pose proof (lex_num_nat _ _ _ N Hw) as L.
  destruct N as (c & d & E & Hc & _). rewrite E in *. sapp. unfold lex_num in *. rewrite sapp_cons in L.
  change (code "-" =? 45) with true. cbv iota beta. unfold is_digit, between in Hc. bool_props.
  rewrite (proj2 (Z.eqb_neq (code c) 45)) in L by lia. cbv iota beta in L |- *.
  destruct (if code c =? 48 then _ else _) as [int s2]. destruct (String.eqb int ""); [done|].
  destruct (match s2 with "" => Some ("", "") | String _ _ => _ end) as [[fr s3]|]; [|done].
  destruct s3 as [|k r]; [injection L as L1 L2; by rewrite sapp_cons, L1, L2|].
  destruct (_ || _).
  - destruct (match r with "" => ("", "") | String _ _ => _ end) as [sg r1].
    destruct (span is_digit r1) as [e s4]. destruct (String.eqb e ""); [done|].
    injection L as L1 L2. by rewrite sapp_cons, L1, L2.
  - injection L as L1 L2. by rewrite sapp_cons, L1, L2.
Qed.

(** ** Values *)

Lemma json_nested_ind (P : json -> Prop) :
  P JNull -> (forall b, P (JBool b)) -> (forall l, P (JNum l)) -> (forall s, P (JStr s)) ->
  (forall l, Forall P l -> P (JArr l)) -> (forall fs, Forall (fun f => P f.2) fs -> P (JObj fs)) -> (forall t, P (JRaw t)) ->
  forall j, P j.
Proof.
  intros H1 H2 H3 H4 H5 H6 H7. fix IH 1. intros [|b|l|s|l|fs|t]; [done|apply H2|apply H3|apply H4| | |apply H7].
  - apply H5. induction l as [|j l IHl]; constructor; [apply IH|exact IHl].
  - apply H6. induction fs as [|[k v] fs IHl]; constructor; [apply IH|exact IHl].
Qed.

(** Values whose strings are UTF-8 and whose numbers are decimal integers. *)
Inductive wfj : json -> Prop :=
| wf_null : wfj JNull
| wf_bool b : wfj (JBool b)
| wf_int z : wfj (JInt z)
| wf_str s : utf8 s -> wfj (JStr s)
| wf_arr l : Forall wfj l -> wfj (JArr l)
| wf_obj fs : Forall (fun f => utf8 f.1 /\ wfj f.2) fs -> wfj (JObj fs).

Fixpoint json_depth (j : json) : Z :=
  match j with
  | JArr l => 1 + foldr Z.max 0 (map json_depth l)
  | JObj fs => 1 + foldr Z.max 0 (map (fun '(_, v) => json_depth v) fs)
  | _ => 0
  end.

(** *** Compaction leaves a marshalled value alone *)

Definition transparent (t : string) : Prop :=
  forall w, compact_body true false false (t +:+ w) = t +:+ compact_body true false false w.
Lemma transparent_nil : transparent "".
Proof. by intros w. Qed.
Lemma transparent_app s t : transparent s -> transparent t -> transparent (s +:+ t).
Proof. intros Hs Ht w. by rewrite !sapp_assoc, Hs, Ht. Qed.
Lemma transparent_char c : 32 < code c < 128 -> code c <> 34 -> html_char c = false -> transparent (String c "").
Proof.
  intros H1 H2 H3 w. sapp. rewrite compact_step by (done || (apply separator_low; lia)).
  unfold is_ws. rewrite !(proj2 (Z.eqb_neq (code c) _)) by lia. done.
Qed.
Lemma transparent_text t : forallb (fun c => (32 <? code c) && (code c <? 128) && negb (code c =? 34) && negb (html_char c)) (bytes t) = true ->
  transparent t.
Proof.
  induction t as [|c t IH]; cbn [bytes forallb]; intros H; [apply transparent_nil|]. bool_props.
  change (String c t) with (String c "" +:+ t). apply transparent_app; [|by apply IH]. by apply transparent_char.
Qed.
Lemma transparent_join sep l : transparent sep -> Forall transparent l -> transparent (join sep l).
Proof.
  intros Hs. induction 1 as [|t l Ht _ IH]; [apply transparent_nil|]. cbn [join]. destruct l; [done|].
  by repeat apply transparent_app.
Qed.
Lemma transparent_nat s z : nat_text s z -> transparent s.
Proof.
  intros (c & d & -> & Hc & Hd & _). apply transparent_text. cbn [bytes].
  assert (D : forall c, is_digit c = true -> (32 <? code c) && (code c <? 128) && negb (code c =? 34) && negb (html_char c) = true).
  { intros k Hk%between_bounds. unfold html_char. rewrite !(proj2 (Z.eqb_neq (code k) _)) by lia. cbn. lia. }
  cbn [forallb]. rewrite (D c Hc). apply forallb_forall. intros k Hk. apply D. unfold str_forallb in Hd.
  rewrite forallb_forall in Hd. by apply Hd.
Qed.
Lemma transparent_itoa z : transparent (itoa z).
Proof.
  destruct (Z.le_gt_cases 0 z) as [H|H]; [eapply transparent_nat, itoa_nat, H|]. rewrite itoa_neg by done.
  change (String "-" (itoa (- z))) with ("-" +:+ itoa (- z)).
  apply transparent_app; [by apply transparent_text|eapply transparent_nat, itoa_nat; lia].
Qed.
Lemma transparent_quote s : utf8 s -> transparent (quote s).
Proof. intros H w. by apply compact_quote. Qed.
Lemma transparent_marshal j : wfj j -> transparent (marshal j).
Proof.
  induction j as [|b|l|s|l IH|fs IH|t] using json_nested_ind; intros W; inversion W; subst; cbn [marshal].
  - by apply transparent_text.
  - destruct b; by apply transparent_text.
  - apply transparent_itoa.
  - by apply transparent_quote.
  - apply transparent_app; [by apply transparent_text|]. apply transparent_app; [|by apply transparent_text].
    apply transparent_join; [by apply transparent_text|]. apply Forall_map. rewrite Forall_forall in *. auto.
  - apply transparent_app; [by apply transparent_text|]. apply transparent_app; [|by apply transparent_text].
    apply transparent_join; [by apply transparent_text|]. apply Forall_map. rewrite Forall_forall in *. intros [k v] Hf.
    destruct (H0 _ Hf) as [Hk Hv]. apply transparent_app; [by apply transparent_quote|].
    apply transparent_app; [by apply transparent_text|]. by apply (IH _ Hf).
Qed.
Lemma compact_marshal j : wfj j -> compact_body true false false (marshal j) = marshal j.
Proof. intros H%transparent_marshal. specialize (H ""). by rewrite !sapp_nil in H. Qed.

(** ** Texts of arrays and objects

    What follows the opening bracket: the elements with their commas, then the
    closing bracket. *)
Fixpoint tail_text (close : ascii) (first : bool) (l : list string) : string :=
  match l with
  | [] => String close ""
  | x :: r => (if first then "" else ",") +:+ x +:+ tail_text close false r
  end.
Lemma tail_text_join close l : tail_text close true l = join "," l +:+ String close "".
Proof.
  destruct l as [|x l]; [done|]. cbn [tail_text]. rewrite sapp_empty. revert x.
  induction l as [|y l IH]; intros x; [done|]. cbn [tail_text]. rewrite (IH y). cbn [join]. sapp. done.
Qed.
Definition member_text (f : string * json) : string := quote f.1 +:+ ":" +:+ marshal f.2.
Lemma marshal_arr l : marshal (JArr l) = String "[" (tail_text "]" true (map marshal l)).
Proof. cbn [marshal]. by rewrite tail_text_join. Qed.
Lemma marshal_obj fs : marshal (JObj fs) = String "{" (tail_text "}" true (map member_text fs)).
Proof. cbn [marshal]. rewrite tail_text_join. do 3 f_equal. apply map_ext. by intros [k v]. Qed.
Lemma tail_stops close l w : existsb (fun d => code close =? d) [93; 125] = true -> stops (tail_text close false l +:+ w).
Proof. intros H. destruct l as [|x l]; [|done]. cbn [tail_text]. sapp. cbn [stops existsb] in *. by rewrite H, orb_true_r. Qed.

(** A byte that starts a value, and so neither a blank nor a comma, a colon or a
    closing bracket. *)
Definition value_head (c : ascii) : bool :=
  negb (is_ws c) && negb (existsb (fun d => code c =? d) [44; 58; 93; 125]).
Lemma marshal_head j : wfj j -> exists c r, marshal j = String c r /\ value_head c = true.
Proof.
  intros W. destruct W as [|b|z|s _|l _|fs _].
  - by eexists _, _.
  - destruct b; by eexists _, _.
  - cbn [JInt marshal].
    assert (D : forall c, is_digit c = true -> value_head c = true).
    { intros c H%between_bounds. unfold value_head, is_ws. cbn [existsb].
      by rewrite !(proj2 (Z.eqb_neq (code c) _)) by lia. }
    destruct (Z.le_gt_cases 0 z) as [H|H].
    + destruct (itoa_nat z H) as (c & d & -> & Hc & _). eauto.
    + rewrite itoa_neg by done. by eexists _, _.
  - by eexists _, _.
  - rewrite marshal_arr. by eexists _, _.
  - rewrite marshal_obj. by eexists _, _.
Qed.

(** ** What is marshalled is parsed back

    The tokens of a marshalled value, and the parser on them: decoding the text of
    a value gives the value. *)

(** ** Tokens of a value *)

Fixpoint tail_toks (close : ascii) (first : bool) (l : list (list token)) : list token :=
  match l with
  | [] => [TPunct close]
  | x :: r => (if first then [] else [TPunct ","]) ++ x ++ tail_toks close false r
  end.
Fixpoint toks (j : json) : list token :=
  match j with
  | JNull => [TWord "null"]
  | JBool b => [TWord (if b then "true" else "false")]
  | JNum l => [TNum l]
  | JStr s => [TStr (quote_body (String.length s) s)]
  | JArr l => TPunct "[" :: tail_toks "]" true (map toks l)
  | JObj fs => TPunct "{" :: tail_toks "}" true
      (map (fun '(k, v) => TStr (quote_body (String.length k) k) :: TPunct ":" :: toks v) fs)
  | JRaw t => []
  end.
Definition member_toks (f : string * json) : list token :=
  TStr (quote_body (String.length f.1) f.1) :: TPunct ":" :: toks f.2.
Lemma toks_obj fs : toks (JObj fs) = TPunct "{" :: tail_toks "}" true (map member_toks fs).
Proof. cbn [toks]. do 2 f_equal. apply map_ext. by intros [k v]. Qed.

(** The text [s] has the tokens [ts], whatever the fuel. *)
Definition lexed (s : string) (ts : list token) : Prop :=
  forall n, (String.length s <= n)%nat -> lex n s = Some ts.
Lemma lexed_tokens s ts : lexed s ts -> tokens s = Some ts.
Proof. intros H. by apply H. Qed.
Lemma lexed_nil : lexed "" [].
Proof. by intros [|n] _. Qed.

Ltac lexed_start n Hn := intros n Hn; rewrite ?sapp_length in Hn; destruct n as [|n]; [simpl in Hn; lia|]; simpl in Hn.
Lemma lexed_punct c w ts : is_ws c = false -> is_punct c = true -> lexed w ts -> lexed (String c w) (TPunct c :: ts).
Proof. intros H1 H2 H. lexed_start n Hn. cbn [lex]. rewrite H1, H2, H by lia. done. Qed.
Lemma lexed_quote s w ts : utf8 s -> lexed w ts -> lexed (quote s +:+ w) (TStr (quote_body (String.length s) s) :: ts).
Proof.
  intros Hs H. unfold quote. rewrite !sapp_assoc. unfold dquote at 1. rewrite sapp_cons, sapp_empty. lexed_start n Hn. cbn [lex].
  change (is_ws (chr 34)) with false. change (is_punct (chr 34)) with false. change (code (chr 34) =? 34) with true. cbv iota.
  rewrite (lex_literal _ s w) by (by apply quote_literal). rewrite H; [done|]. rewrite !sapp_length in Hn. lia.
Qed.
Lemma lexed_itoa z w ts : stops w -> lexed w ts -> lexed (itoa z +:+ w) (TNum (itoa z) :: ts).
Proof.
  intros Hw H. pose proof (lex_num_itoa z w Hw) as L.
  assert (E : exists c r, itoa z = String c r /\ (is_digit c = true \/ code c = 45)).
  { destruct (Z.le_gt_cases 0 z) as [Hz|Hz]; [destruct (itoa_nat z Hz) as (c & d & -> & Hc & _); eauto|].
    rewrite itoa_neg by done. eauto. }
  destruct E as (c & r & E & Hc). rewrite E in *. rewrite sapp_cons in *. lexed_start n Hn. cbn [lex].
  assert (Hc' : code c = 45 \/ 48 <= code c <= 57) by (destruct Hc as [Hc%between_bounds|Hc]; lia).
  unfold is_ws, is_punct, is_alpha, between. cbn [existsb]. rewrite !(proj2 (Z.eqb_neq (code c) _)) by lia.
  rewrite (proj2 (Z.leb_gt 97 (code c))) by lia. cbn [andb orb]. rewrite L, H; [done|]. rewrite sapp_length in Hn. lia.
Qed.
Lemma span_alpha_stops w : stops w -> span is_alpha w = ("", w).
Proof.
  intros Hw. destruct (stops_cases w Hw) as [->|(c & r & -> & Hc)]; [done|]. cbn [span].
  destruct (is_alpha c) eqn:E; [|done]. apply between_bounds in E. lia.
Qed.
Lemma lexed_word t w ts : In t ["true"; "false"; "null"] -> stops w -> lexed w ts -> lexed (t +:+ w) (TWord t :: ts).
Proof.
  intros Ht Hw H. pose proof (span_alpha_stops w Hw) as Ew.
  assert (E : span is_alpha (t +:+ w) = (t, w)).
  { destruct Ht as [<-|[<-|[<-|[]]]]; sapp; cbn [span]; rewrite Ew; done. }
  destruct Ht as [<-|[<-|[<-|[]]]]; revert E; sapp; intros E; lexed_start n Hn; cbn [lex]; rewrite E, H by lia; done.
Qed.

Lemma lexed_tail close l w ts :
  is_ws close = false -> is_punct close = true -> existsb (fun d => code close =? d) [93; 125] = true -> lexed w ts ->
  forall ls first, length ls = length l ->
    (forall x t, In (x, t) (combine l ls) -> forall w ts, stops w -> lexed w ts -> lexed (x +:+ w) (t ++ ts)) ->
    lexed (tail_text close first l +:+ w) (tail_toks close first ls ++ ts).
Proof.
  intros C1 C2 C3 Hw. induction l as [|x l IH]; intros [|t ls] first Hl H; try done.
  - sapp. by apply lexed_punct.
  - cbn [tail_text tail_toks]. rewrite !sapp_assoc, <- !app_assoc.
    assert (L : lexed (x +:+ tail_text close false l +:+ w) (t ++ tail_toks close false ls ++ ts)).
    { apply H; [by left|by apply tail_stops|]. apply IH; [by injection Hl|]. intros y u Hy. apply H. by right. }
    destruct first; [done|]. sapp. by apply lexed_punct.
Qed.
Lemma in_combine_map {A B C} (f : A -> B) (g : A -> C) l x y :
  In (x, y) (combine (map f l) (map g l)) -> exists a, In a l /\ x = f a /\ y = g a.
Proof.
  induction l as [|a l IH]; [done|]. intros [[= <- <-]|H]; [exists a; split_and!; auto using in_eq|].
  destruct (IH H) as (b & Hb & E). exists b. split; [by right|done].
Qed.
Lemma lexed_marshal j : wfj j -> forall w ts, stops w -> lexed w ts -> lexed (marshal j +:+ w) (toks j ++ ts).
Proof.
  induction j as [|b|l|s|l IH|fs IH|t] using json_nested_ind; intros W w ts Hs Hw; inversion W; subst.
  - apply (lexed_word "null"); [cbn; auto|done..].
  - destruct b; apply lexed_word; (done || cbn; auto).
  - by apply lexed_itoa.
  - by apply lexed_quote.
  - rewrite marshal_arr. sapp. apply lexed_punct; [done..|]. apply lexed_tail; [done..|by rewrite !length_map|].
    intros x t (j & Hj & -> & ->)%in_combine_map. rewrite Forall_forall in *.
    apply IH; [by apply list_elem_of_In|]. by apply H0, list_elem_of_In.
  - rewrite marshal_obj, toks_obj. sapp. apply lexed_punct; [done..|]. apply lexed_tail; [done..|by rewrite !length_map|].
    intros x t ([k v] & Hf & -> & ->)%in_combine_map u us Hu Hus. rewrite Forall_forall in *.
    apply list_elem_of_In in Hf. destruct (H0 _ Hf) as [Hk Hv]. cbn [fst snd] in *. unfold member_text, member_toks. cbn [fst snd].
    rewrite !sapp_assoc. apply lexed_quote; [done|]. sapp. apply lexed_punct; [done..|]. by apply (IH _ Hf).
Qed.

(** ** Parsing *)

Lemma toks_head j : wfj j -> exists t r, toks j = t :: r /\ forall d, t = TPunct d -> is_p 93 d = false.
Proof. destruct 1; [..|rewrite toks_obj]; eexists _, _; (split; [reflexivity|]); by intros ? [= <-]. Qed.
Lemma toks_length j : wfj j -> (1 <= length (toks j))%nat.
Proof. intros H. destruct (toks_head j H) as (t & r & -> & _). simpl. lia. Qed.

(** [v] is parsed from its tokens. *)
Definition parsed (depth : Z) (v : json) : Prop :=
  forall fuel ts, (length (toks v) <= fuel)%nat -> parse_value fuel depth (toks v ++ ts) = Some (v, ts).
Lemma rev_cons_app {A} (x : A) acc l : rev (x :: acc) ++ l = rev acc ++ x :: l.
Proof. cbn [rev]. by rewrite <- app_assoc. Qed.
Lemma parse_elems_tail depth x l : wfj x -> parsed depth x -> Forall wfj l -> Forall (parsed depth) l ->
  forall fuel acc ts, (length (tail_toks "]" true (map toks (x :: l))) <= fuel)%nat ->
  parse_elems fuel depth acc (tail_toks "]" true (map toks (x :: l)) ++ ts) = Some (JArr (rev acc ++ x :: l), ts).
Proof.
  intros Wx Px W. revert x Wx Px. induction W as [|y l Wy W IH]; intros x Wx Px P fuel acc ts Hf;
    pose proof (toks_length x Wx) as Lx; destruct fuel as [|fuel]; cbn [map tail_toks app] in *;
    rewrite ?length_app in Hf; try (simpl in Hf; lia); cbn [length app] in Hf; rewrite ?length_app in Hf;
    cbn [parse_elems]; rewrite <- !app_assoc.
  - rewrite Px by (simpl in Hf; lia). cbn [app]. change (is_p 93 "]") with true. cbv iota. done.
  - rewrite Px by lia. cbn [app]. change (is_p 93 ",") with false. change (is_p 44 ",") with true. cbv iota.
    apply Forall_cons in P as [Py P]. specialize (IH y Wy Py P fuel (x :: acc) ts). cbn [map tail_toks app] in IH.
    rewrite IH; [by rewrite rev_cons_app|]. rewrite length_app. lia.
Qed.
Lemma parse_members_tail depth f l : utf8 f.1 -> parsed depth f.2 -> Forall (fun f => utf8 f.1) l -> Forall (fun f => parsed depth f.2) l ->
  forall fuel acc ts, (length (tail_toks "}" true (map member_toks (f :: l))) <= fuel)%nat ->
  parse_members fuel depth acc (tail_toks "}" true (map member_toks (f :: l)) ++ ts) = Some (JObj (rev acc ++ f :: l), ts).
Proof.
  intros Uf Pf U. revert f Uf Pf. induction U as [|[k' v'] l Uy U IH]; intros [k v] Uf Pf P fuel acc ts Hf;
    destruct fuel as [|fuel]; cbn [map tail_toks app member_toks fst snd length] in *; try lia;
    rewrite ?length_app in Hf; cbn [parse_members]; change (is_p 58 ":") with true; cbv iota; rewrite unquote_quote by done;
    rewrite <- !app_assoc.
  - rewrite Pf by (simpl in Hf; lia). cbn [app]. change (is_p 125 "}") with true. cbv iota. done.
  - cbn [length] in Hf. rewrite Pf by lia. cbn [app]. change (is_p 125 ",") with false. change (is_p 44 ",") with true. cbv iota.
    apply Forall_cons in P as [Py P]. specialize (IH (k', v') Uy Py P fuel ((k, v) :: acc) ts). cbn [map tail_toks app member_toks fst snd] in IH.
    rewrite IH; [by rewrite rev_cons_app|]. simpl. lia.
Qed.

Lemma depth_nonneg j : 0 <= json_depth j.
Proof.
  assert (M : forall l, 0 <= foldr Z.max 0 l) by (induction l as [|z l IH]; simpl; lia).
  destruct j as [| | | |l|fs|]; simpl; try lia; [specialize (M (map json_depth l))|specialize (M (map (fun '(_, v) => json_depth v) fs))]; lia.
Qed.
Lemma max_in {A} (f : A -> Z) l x : In x l -> f x <= foldr Z.max 0 (map f l).
Proof. induction l as [|y l IH]; [done|]. intros [->|H]; simpl; [lia|]. specialize (IH H). lia. Qed.
Lemma parsed_marshal j : wfj j -> forall depth, depth + json_depth j <= max_nesting_depth -> parsed depth j.
Proof.
  induction j as [|b|l|s|l IH|fs IH|t] using json_nested_ind; intros W depth D fuel ts Hf; inversion W; subst;
    (destruct fuel as [|fuel]; [simpl in Hf; lia|]).
  - done.
  - by destruct b.
  - done.
  - cbn [toks app parse_value]. by rewrite unquote_quote.
  - rewrite Forall_forall in *. assert (Dd : max_nesting_depth <? depth + 1 = false).
    { apply Z.ltb_ge. pose proof (max_in json_depth l) as M. cbn [json_depth] in D.
      assert (0 <= foldr Z.max 0 (map json_depth l)) by (clear; induction l; simpl; lia). lia. }
    assert (P : Forall (parsed (depth + 1)) l).
    { apply Forall_forall. intros v Hv. apply IH; [done|by apply H0|]. pose proof (max_in json_depth l v) as M.
      cbn [json_depth] in D. specialize (M ltac:(by apply list_elem_of_In)). lia. }
    cbn [toks app parse_value]. rewrite Dd. change (is_p 91 "[") with true. cbv iota.
    destruct l as [|x l]; [done|]. assert (W' : Forall wfj (x :: l)) by (by apply Forall_forall).
    apply Forall_cons in W' as [Wx W']. apply Forall_cons in P as [Px P]. cbn [toks length] in Hf.
    pose proof (parse_elems_tail (depth + 1) x l Wx Px W' P fuel [] ts ltac:(lia)) as E.
    destruct (toks_head x Wx) as (t & r & Et & Ht). revert E. cbn [map tail_toks app]. rewrite Et. cbn [app].
    destruct t as [d| | |]; try done. by rewrite Ht.
  - rewrite Forall_forall in *. assert (Dd : max_nesting_depth <? depth + 1 = false).
    { apply Z.ltb_ge. cbn [json_depth] in D.
      assert (0 <= foldr Z.max 0 (map (fun '(_, v) => json_depth v) fs)) by (clear; induction fs as [|[]]; simpl; lia). lia. }
    assert (P : Forall (fun f => parsed (depth + 1) f.2) fs).
    { apply Forall_forall. intros [k v] Hv. destruct (H0 _ Hv) as [_ Wv]. apply (IH _ Hv Wv).
      pose proof (max_in (fun '(_, v) => json_depth v) fs (k, v)) as M. cbn [json_depth snd] in *.
      specialize (M ltac:(by apply list_elem_of_In)). cbn in M. lia. }
    assert (U : Forall (fun f => utf8 f.1) fs) by (apply Forall_forall; intros f Hv; by apply (H0 _ Hv)).
    rewrite toks_obj in *. cbn [app parse_value]. rewrite Dd. change (is_p 91 "{") with false. change (is_p 123 "{") with true. cbv iota.
    destruct fs as [|f fs]; [done|]. apply Forall_cons in U as [Uf U]. apply Forall_cons in P as [Pf P]. cbn [length] in Hf.
    pose proof (parse_members_tail (depth + 1) f fs Uf Pf U P fuel [] ts ltac:(lia)) as E. exact E.
Qed.

(** A marshalled value is valid and decodes to itself. *)
Lemma parse_marshal j : wfj j -> json_depth j <= max_nesting_depth -> parse (marshal j) = Some j.
Proof.
  intros W D. pose proof (lexed_marshal j W "" [] I lexed_nil) as L. rewrite sapp_nil, app_nil_r in L.
  unfold parse. rewrite (lexed_tokens _ _ L).
  pose proof (parsed_marshal j W 0 ltac:(lia) (2 * length (toks j))%nat [] ltac:(lia)) as P. rewrite app_nil_r in P. by rewrite P.
Qed.
Lemma valid_marshal j : wfj j -> json_depth j <= max_nesting_depth -> json_Valid (marshal j) = true.
Proof. intros W D. unfold json_Valid. by rewrite parse_marshal. Qed.
