(* ===== verification/StrictJson.v ===== *)
(** * Strict JSON decoding ([internal/protocol/validation.go])

    The protocol reads a JSON text three times: once for duplicate keys anywhere,
    once against the type it is decoded into, for unknown and wrongly cased
    fields, and once to decode it.  The first two walk the tokens of
    [json.Decoder]; here a scanner walks the text itself and returns what follows
    the value.  An error of [encoding/json], the end of the input included, is
    [PJSON]. *)
From S2P Require Import Prelude GoStrings Json RoomTypes.

Inductive perr :=
| PJSON | PEOF | PUnexpectedEOF | PIO (text : string) | PShortWrite
| PEmptyFrame | PFrameTooLarge | PInvalidUTF8
| PDuplicateKey (key : string) | PTrailingJSON | PUnknownField (key : string)
| PInvalidEnvelope | PInvalidVersion | PInvalidKind | PInvalidID
| PInvalidHello | PInvalidWelcome | PHandshakeRequired | PHandshakeAlreadyComplete
| PUnsupportedCapability | PUnsupportedVersion
| PRoom (e : error).

Definition pcheck (b : bool) (e : perr) : result perr unit := if b then Ok tt else Err e.

(** ** Tokens *)

Fixpoint skip_ws (s : string) : string :=
  match s with
  | "" => ""
  | String c r => if is_ws c then skip_ws r else s
  end.
(** The next token and the text after it. *)
Definition lex1 (s : string) : option (token * string) :=
  match skip_ws s with
  | "" => None
  | String c r =>
      if is_punct c then Some (TPunct c, r)
      else if code c =? 34 then (fun x => (TStr x.1, x.2)) <$> lex_str r
      else if is_alpha c then
        let '(w, rest) := span is_alpha (String c r) in
        if existsb (String.eqb w) ["true"; "false"; "null"] then Some (TWord w, rest) else None
      else (fun x => (TNum x.1, x.2)) <$> lex_num (String c r)
  end.
(** A token that starts a value. *)
Definition value_token (s : string) : result perr (token * string) :=
  match lex1 s with
  | Some (TPunct c, r) => if is_p 123 c || is_p 91 c then Ok (TPunct c, r) else Err PJSON
  | Some t => Ok t
  | None => Err PJSON
  end.
(** After a value of an object or array: its closing bracket, or a comma before
    the next value; [first] when nothing precedes. *)
Definition after_comma (first : bool) (s : string) : result perr string :=
  if first then Ok s else
  match skip_ws s with
  | String c r => if is_p 44 c then Ok r else Err PJSON
  | "" => Err PJSON
  end.
(** A key and its colon. *)
Definition object_key (s : string) : result perr (string * string) :=
  match lex1 s with
  | Some (TStr raw, r) =>
      match skip_ws r with
      | String c r' => if is_p 58 c then Ok (unquote raw, r') else Err PJSON
      | "" => Err PJSON
      end
  | _ => Err PJSON
  end.
(** [decoder.More] and the end of a container: [Some r] when the bracket [close]
    is next. *)
Definition closes (close : Z) (s : string) : result perr (option string) :=
  match skip_ws s with
  | String c r => if is_p close c then Ok (Some r) else if is_p 93 c || is_p 125 c then Err PJSON else Ok None
  | "" => Err PJSON
  end.

(** ** Duplicate keys

    [scanJSONValue] ([unique]) and [scanUntypedJSONToken]: the rest of the value
    that token [t] starts.  One unit of fuel per token. *)
Fixpoint scan_token (unique : bool) (fuel : nat) (t : token) (s : string) {struct fuel} : result perr string :=
  match fuel with
  | O => Err PJSON
  | S f =>
      match t with
      | TPunct c =>
          if is_p 123 c then scan_members unique f [] true s
          else if is_p 91 c then scan_elems unique f true s
          else Err PInvalidEnvelope
      | _ => Ok s
      end
  end
with scan_members (unique : bool) (fuel : nat) (keys : list string) (first : bool) (s : string) {struct fuel} : result perr string :=
  match fuel with
  | O => Err PJSON
  | S f =>
      let? done := closes 125 s in
      match done with
      | Some r => Ok r
      | None =>
          let? s1 := after_comma first s in
          let? kr := object_key s1 in
          if unique && existsb (String.eqb kr.1) keys then Err (PDuplicateKey kr.1) else
          let? tr := value_token kr.2 in
          let? s2 := scan_token unique f tr.1 tr.2 in
          scan_members unique f (kr.1 :: keys) false s2
      end
  end
with scan_elems (unique : bool) (fuel : nat) (first : bool) (s : string) {struct fuel} : result perr string :=
  match fuel with
  | O => Err PJSON
  | S f =>
      let? done := closes 93 s in
      match done with
      | Some r => Ok r
      | None =>
          let? s1 := after_comma first s in
          let? tr := value_token s1 in
          let? s2 := scan_token unique f tr.1 tr.2 in
          scan_elems unique f false s2
      end
  end.

(** Enough fuel for a text: every unit but the first follows a byte. *)
Definition fuel_of (s : string) : nat := S (S (2 * String.length s)).

(** [ensureEOF] *)
Definition ensureEOF (s : string) : result perr unit :=
  if String.eqb (skip_ws s) "" then Ok tt else
  match (let? tr := value_token s in scan_token false (fuel_of s) tr.1 tr.2) with
  | Ok _ => Err PTrailingJSON
  | Err _ => Err PJSON
  end.
Definition validateJSON (s : string) : result perr unit :=
  let? _ := pcheck (utf8_valid s) PInvalidUTF8 in
  let? tr := value_token s in
  let? r := scan_token true (fuel_of s) tr.1 tr.2 in
  ensureEOF r.

(** ** Exact case

    The shape of a Go type as [validateExactCase] sees it; pointers are followed. *)
Inductive jtype := TyRaw | TyScalar | TyStruct (fields : list (string * jtype)) | TySlice (elem : jtype).

(** [fields[key]], [jsonFieldAlias] *)
Definition exact_field (key : string) (fs : list (string * jtype)) : option (string * jtype) :=
  List.find (fun f => String.eqb f.1 key) fs.
Definition alias_field (key : string) (fs : list (string * jtype)) : option (string * jtype) :=
  List.find (fun f => EqualFold key f.1) fs.
Definition first_unknown (u : option string) (key : string) : option string := match u with Some _ => u | None => Some key end.

Definition is_null (t : token) : bool := match t with TWord w => String.eqb w "null" | _ => false end.
Definition opens (open : Z) (t : token) : bool := match t with TPunct c => is_p open c | _ => false end.
Fixpoint scan_typed (fuel : nat) (ty : jtype) (t : token) (s : string) {struct fuel} : result perr string :=
  match fuel with
  | O => Err PJSON
  | S f =>
      if is_null t then Ok s else
      match ty with
      | TyRaw | TyScalar => scan_token false f t s
      | TyStruct fs => if opens 123 t then scan_struct f fs [] None true s else Err PInvalidEnvelope
      | TySlice e => if opens 91 t then scan_slice f e true s else Err PInvalidEnvelope
      end
  end
with scan_struct (fuel : nat) (fs : list (string * jtype)) (seen : list string) (unknown : option string) (first : bool)
    (s : string) {struct fuel} : result perr string :=
  match fuel with
  | O => Err PJSON
  | S f =>
      let? done := closes 125 s in
      match done with
      | Some r => match unknown with Some k => Err (PUnknownField k) | None => Ok r end
      | None =>
          let? s1 := after_comma first s in
          let? kr := object_key s1 in
          match exact_field kr.1 fs, alias_field kr.1 fs with
          | Some (name, ty), _ =>
              if existsb (String.eqb name) seen then Err (PDuplicateKey kr.1) else
              let? tr := value_token kr.2 in
              let? s2 := scan_typed f ty tr.1 tr.2 in
              scan_struct f fs (name :: seen) unknown false s2
          | None, Some (name, ty) =>
              if existsb (String.eqb name) seen then Err (PDuplicateKey kr.1) else
              let? tr := value_token kr.2 in
              let? s2 := scan_typed f ty tr.1 tr.2 in
              scan_struct f fs (name :: seen) (first_unknown unknown kr.1) false s2
          | None, None => Err (PUnknownField kr.1)
          end
      end
  end
with scan_slice (fuel : nat) (e : jtype) (first : bool) (s : string) {struct fuel} : result perr string :=
  match fuel with
  | O => Err PJSON
  | S f =>
      let? done := closes 93 s in
      match done with
      | Some r => Ok r
      | None =>
          let? s1 := after_comma first s in
          let? tr := value_token s1 in
          let? s2 := scan_typed f e tr.1 tr.2 in
          scan_slice f e false s2
      end
  end.
Definition validateExactCase (ty : jtype) (s : string) : result perr unit :=
  let? tr := value_token s in
  let? r := scan_typed (fuel_of s) ty tr.1 tr.2 in
  ensureEOF r.

(** ** Decoding

    After the two scans every key of the object is the name of a field, once; a
    field is decoded from the text of its value. *)
Fixpoint raw_members (fuel : nat) (first : bool) (s : string) : result perr (list (string * string)) :=
  match fuel with
  | O => Err PJSON
  | S f =>
      let? done := closes 125 s in
      match done with
      | Some _ => Ok []
      | None =>
          let? s1 := after_comma first s in
          let? kr := object_key s1 in
          let text := skip_ws kr.2 in
          let? tr := value_token text in
          let? s2 := scan_token false (fuel_of text) tr.1 tr.2 in
          let? l := raw_members f false s2 in
          Ok ((kr.1, take_bytes (String.length text - String.length s2) text) :: l)
      end
  end.
(** The members of the decoded value; [null] leaves every field as it is. *)
Definition struct_members (s : string) : result perr (list (string * string)) :=
  let? _ := pcheck (json_Valid s) PJSON in
  let? tr := value_token s in
  if is_null tr.1 then Ok [] else if opens 123 tr.1 then raw_members (fuel_of s) true tr.2 else Err PJSON.

(** One field: [absent] when there is none, or when it is [null] and [null]
    leaves the type as it is. *)
Definition field {T} (dec : json -> option T) (absent : T) (name : string) (l : list (string * string)) : result perr T :=
  match List.find (fun m => String.eqb m.1 name) l with
  | None => Ok absent
  | Some (_, text) =>
      match parse text with
      | Some JNull => Ok absent
      | Some j => match dec j with Some x => Ok x | None => Err PJSON end
      | None => Err PJSON
      end
  end.
(** A [json.RawMessage] keeps its text. *)
Definition raw_field (name : string) (l : list (string * string)) : string :=
  match List.find (fun m => String.eqb m.1 name) l with Some (_, text) => text | None => "" end.

Definition dec_string (j : json) : option string := match j with JStr s => Some s | _ => None end.
Definition dec_bool (j : json) : option bool := match j with JBool b => Some b | _ => None end.
(** [strconv.ParseUint], [strconv.ParseInt] in base 10. *)
Fixpoint digits (acc : Z) (s : string) : option Z :=
  match s with
  | "" => Some acc
  | String c r => if is_digit c then digits (10 * acc + (code c - 48)) r else None
  end.
Definition parse_nat (s : string) : option Z := if String.eqb s "" then None else digits 0 s.
Definition ParseUint (bits : Z) (s : string) : option Z :=
  z ← parse_nat s; if z <? 2 ^ bits then Some z else None.
Definition ParseInt (bits : Z) (s : string) : option Z :=
  match s with
  | String c r =>
      if code c =? 45 then z ← parse_nat r; if z <=? 2 ^ (bits - 1) then Some (- z) else None
      else z ← parse_nat (if code c =? 43 then r else s); if z <? 2 ^ (bits - 1) then Some z else None
  | "" => None
  end.
Definition dec_uint (bits : Z) (j : json) : option Z := match j with JNum l => ParseUint bits l | _ => None end.
Definition dec_int (bits : Z) (j : json) : option Z := match j with JNum l => ParseInt bits l | _ => None end.
(** A slice of strings; a [null] element is the empty string. *)
Fixpoint dec_string_list (l : list json) : option (list string) :=
  match l with
  | [] => Some []
  | JStr s :: r => cons s <$> dec_string_list r
  | JNull :: r => cons "" <$> dec_string_list r
  | _ => None
  end.
Definition dec_strings (j : json) : option (list string) := match j with JArr l => dec_string_list l | _ => None end.
Definition dec_some {T} (dec : json -> option T) (j : json) : option (option T) := Some <$> dec j.

(** [DecodeBody] *)
Definition DecodeBody {T} (ty : jtype) (dec : list (string * string) -> result perr T) (validate : T -> result perr unit)
    (body : string) : result perr T :=
  let? _ := validateJSON body in
  let? _ := validateExactCase ty body in
  let? l := struct_members body in
  let? x := dec l in
  let? _ := validate x in
  Ok x.

Example strict_duplicate : validateJSON (bq "{`a`:1,`b`:[{`c`:1,`c`:2}]}") = Err (PDuplicateKey "c").
Proof. vm_compute. reflexivity. Qed.
Example strict_trailing : validateJSON "[1] 2" = Err PTrailingJSON.
Proof. vm_compute. reflexivity. Qed.
Example strict_case : validateExactCase (TyStruct [("seq", TyScalar)]) (bq "{`SEQ`:1}") = Err (PUnknownField "SEQ").
Proof. vm_compute. reflexivity. Qed.
