(* ===== verification/StrictFacts.v ===== *)
(** * Strict decoding of marshalled values

    The scans of [StrictJson] accept the text of a value that [encoding/json]
    marshalled, and the decoder finds its members. *)
From S2P Require Import Prelude GoStrings Json JsonFacts RoomTypes StrictJson.

(** ** Marshalled text is UTF-8 *)

Lemma utf8_app a b : utf8 a -> utf8 b -> utf8 (a +:+ b).
Proof. intros H Hb. induction H; sapp; [done|by constructor|]. by apply utf8_rune. Qed.
Lemma utf8_low s : Forall (fun c => code c < 128) (bytes s) -> utf8 s.
Proof. induction s as [|c s IH]; [constructor|]. intros [Hc F]%Forall_cons. apply utf8_ascii; auto. Qed.
Lemma utf8_text s : forallb (fun c => code c <? 128) (bytes s) = true -> utf8 s.
Proof. intros H. apply utf8_low, Forall_forall. intros c Hc. rewrite forallb_forall in H. apply Z.ltb_lt, H. by apply list_elem_of_In. Qed.
Lemma utf8_nat s z : nat_text s z -> utf8 s.
Proof.
  intros (c & d & -> & Hc%between_bounds & Hd & _). apply utf8_ascii; [lia|]. apply utf8_low, Forall_forall. intros k Hk.
  unfold str_forallb in Hd. rewrite forallb_forall in Hd. apply list_elem_of_In, Hd, between_bounds in Hk. lia.
Qed.
Lemma utf8_itoa z : utf8 (itoa z).
Proof.
  destruct (Z.le_gt_cases 0 z) as [H|H]; [eapply utf8_nat, itoa_nat, H|]. rewrite itoa_neg by done.
  apply utf8_ascii; [done|]. eapply utf8_nat, itoa_nat. lia.
Qed.
Lemma utf8_unit x y : lit_unit x y -> utf8 x.
Proof.
  destruct 1 as [c Hc _|e He|z Hz _|x Hx _].
  - apply utf8_low. repeat constructor. lia.
  - unfold is_escape in He. apply existsb_exists in He as (d & Hd & E%Z.eqb_eq). apply utf8_ascii; [done|]. apply utf8_ascii; [|constructor].
    repeat destruct Hd as [<-|Hd]; try lia. done.
  - apply utf8_low. unfold u_escape, hex4. sapp. cbn [bytes].
    repeat (constructor; [first [done|apply Z.le_lt_trans with 102; [apply hex_digit_plain, Z.mod_pos_bound; lia|done]]|]).
    constructor.
  - rewrite <- (sapp_nil x). apply utf8_rune; [done|constructor].
Qed.
Lemma utf8_quote s : utf8 s -> utf8 (quote s).
Proof.
  intros H. unfold quote. apply utf8_ascii; [done|]. apply utf8_app; [|by apply utf8_text].
  assert (L := quote_literal s H _ (le_n _)). clear H. induction L as [|x y r s' Hu _ IH]; [constructor|].
  apply utf8_app; [by eapply utf8_unit|done].
Qed.
Lemma utf8_join sep l : utf8 sep -> Forall utf8 l -> utf8 (join sep l).
Proof.
  intros Hs. induction 1 as [|t l Ht _ IH]; [constructor|]. cbn [join]. destruct l; [done|]. by repeat apply utf8_app.
Qed.
Lemma utf8_marshal j : wfj j -> utf8 (marshal j).
Proof.
  induction j as [|b|l|s|l IH|fs IH|t] using json_nested_ind; intros W; inversion W; subst; cbn [marshal].
  - by apply utf8_text.
  - destruct b; by apply utf8_text.
  - apply utf8_itoa.
  - by apply utf8_quote.
  - apply utf8_ascii; [done|]. apply utf8_app; [|by apply utf8_text].
    apply utf8_join; [by apply utf8_text|]. apply Forall_map. rewrite Forall_forall in *. auto.
  - apply utf8_ascii; [done|]. apply utf8_app; [|by apply utf8_text].
    apply utf8_join; [by apply utf8_text|]. apply Forall_map. rewrite Forall_forall in *. intros [k v] Hf.
    destruct (H0 _ Hf) as [Hk Hv]. apply utf8_app; [by apply utf8_quote|].
    apply utf8_ascii; [done|]. by apply (IH _ Hf).
Qed.
Lemma utf8_valid_complete s : utf8 s -> utf8_valid s = true.
Proof.
  intros H. assert (G : forall n, (String.length s <= n)%nat -> utf8_valid_fuel n s = true); [|by apply G].
  induction H as [|c r Hc H IH|x r Hx H IH]; intros n Hn.
  - by destruct n.
  - destruct n as [|n]; [simpl in Hn; lia|]. cbn [utf8_valid_fuel].
    replace (utf8_width (String c r)) with (Some 1%nat) by (unfold utf8_width; by rewrite (proj2 (Z.ltb_lt _ _) Hc)).
    apply IH. simpl in Hn. lia.
  - destruct (is_rune_head x Hx) as (c & t & -> & Hc). destruct Hx as (k & Hk & Hl & Hw & _).
    rewrite sapp_length in Hn. destruct n as [|n]; [simpl in Hn; lia|]. rewrite sapp_cons. cbn [utf8_valid_fuel].
    rewrite <- sapp_cons, Hw, <- Hl, drop_bytes_app. apply IH. simpl in Hn. lia.
Qed.

(** ** The first token of a value *)

Definition first_tok (j : json) (w : string) : token * string :=
  match j with
  | JNull => (TWord "null", w)
  | JBool b => (TWord (if b then "true" else "false"), w)
  | JNum l => (TNum l, w)
  | JStr s => (TStr (quote_body (String.length s) s), w)
  | JArr l => (TPunct "[", tail_text "]" true (map marshal l) +:+ w)
  | JObj fs => (TPunct "{", tail_text "}" true (map member_text fs) +:+ w)
  | JRaw t => (TWord "", w)
  end.
Lemma lex1_quote s w : utf8 s -> lex1 (quote s +:+ w) = Some (TStr (quote_body (String.length s) s), w).
Proof.
  intros H. unfold quote. rewrite !sapp_assoc. unfold dquote at 1. sapp. unfold lex1.
  cbn [skip_ws]. change (is_ws (chr 34)) with false. cbv iota. change (is_punct (chr 34)) with false.
  change (code (chr 34) =? 34) with true. cbv iota. rewrite (lex_literal _ s) by (by apply quote_literal). done.
Qed.
Lemma lex1_word t w : In t ["true"; "false"; "null"] -> stops w -> lex1 (t +:+ w) = Some (TWord t, w).
Proof.
  intros Ht Hw. pose proof (span_alpha_stops w Hw) as Ew.
  assert (E : span is_alpha (t +:+ w) = (t, w)) by (destruct Ht as [<-|[<-|[<-|[]]]]; sapp; cbn [span]; rewrite Ew; done).
  unfold lex1. destruct Ht as [<-|[<-|[<-|[]]]]; revert E; sapp; intros E; cbn [skip_ws].
  - change (is_ws "t") with false. cbv iota. by rewrite E.
  - change (is_ws "f") with false. cbv iota. by rewrite E.
  - change (is_ws "n") with false. cbv iota. by rewrite E.
Qed.
Lemma value_token_marshal j w : wfj j -> stops w -> value_token (marshal j +:+ w) = Ok (first_tok j w).
Proof.
  intros W Hw. unfold value_token. destruct W as [|b|z|s Hs|l _|fs _].
  - cbn [marshal]. by rewrite lex1_word by (done || cbn; auto).
  - destruct b; cbn [marshal]; by rewrite lex1_word by (done || cbn; auto).
  - cbn [marshal JInt first_tok]. pose proof (lex_num_itoa z w Hw) as L.
    assert (E : exists c r, itoa z = String c r /\ (code c = 45 \/ 48 <= code c <= 57)).
    { destruct (Z.le_gt_cases 0 z) as [Hz|Hz].
      - destruct (itoa_nat z Hz) as (c & d & -> & Hc%between_bounds & _). eauto 6.
      - rewrite itoa_neg by done. eauto. }
    destruct E as (c & r & E & Hc). rewrite E in *. rewrite sapp_cons in *. unfold lex1. cbn [skip_ws].
    unfold is_ws, is_punct, is_alpha, between. cbn [existsb]. rewrite !(proj2 (Z.eqb_neq (code c) _)) by lia. cbn [orb].
    unfold is_punct, is_alpha, between. cbn [existsb]. rewrite !(proj2 (Z.eqb_neq (code c) _)) by lia.
    rewrite (proj2 (Z.leb_gt 97 (code c))) by lia. cbn [andb orb]. by rewrite L.
  - cbn [marshal]. by rewrite lex1_quote.
  - rewrite marshal_arr. sapp. done.
  - rewrite marshal_obj. sapp. done.
Qed.

(** ** Inside a container *)

Definition comma (first : bool) : string := if first then "" else ",".
Lemma closes_end c w : existsb (fun d => code c =? d) [93; 125] = true -> closes (code c) (String c w) = Ok (Some w).
Proof.
  intros H. unfold closes. cbn [skip_ws]. replace (is_ws c) with false.
  - unfold is_p. by rewrite Z.eqb_refl.
  - cbn [existsb] in H. unfold is_ws. symmetry. destruct (Z.eqb_spec (code c) 93) as [E|_], (Z.eqb_spec (code c) 125) as [E'|_]; try done;
      by rewrite ?E, ?E'.
Qed.
Lemma value_head_facts c : value_head c = true -> is_ws c = false /\ code c <> 44 /\ code c <> 58 /\ code c <> 93 /\ code c <> 125.
Proof. unfold value_head. cbn [existsb]. intros [H1%negb_true_iff H2]%andb_prop. bool_props. done. Qed.
Lemma closes_more k first c w : k = 93 \/ k = 125 -> value_head c = true -> closes k (comma first +:+ String c w) = Ok None.
Proof.
  intros Hk (H1 & H2 & H3 & H4 & H5)%value_head_facts. unfold closes, comma. destruct first; sapp; cbn [skip_ws].
  - rewrite H1. unfold is_p. by rewrite !(proj2 (Z.eqb_neq (code c) _)) by lia.
  - change (is_ws ",") with false. cbv iota. unfold is_p. change (code ",") with 44. by destruct Hk as [-> | ->].
Qed.
Lemma after_comma_more first c w : value_head c = true -> after_comma first (comma first +:+ String c w) = Ok (String c w).
Proof. intros _. by destruct first. Qed.
Lemma member_head f : exists r, member_text f = String (chr 34) r.
Proof. by eexists. Qed.
Lemma object_key_member f w : utf8 f.1 -> object_key (member_text f +:+ w) = Ok (f.1, marshal f.2 +:+ w).
Proof.
  intros H. unfold object_key, member_text. rewrite !sapp_assoc, lex1_quote by done. sapp. cbn [skip_ws].
  change (is_ws ":") with false. change (is_p 58 ":") with true. cbv iota. by rewrite unquote_quote.
Qed.
Lemma marshal_length j : wfj j -> (1 <= String.length (marshal j))%nat.
Proof. intros H. destruct (marshal_head j H) as (c & r & -> & _). simpl. lia. Qed.
Lemma member_length f : (String.length (marshal f.2) + 1 <= String.length (member_text f))%nat.
Proof. unfold member_text. rewrite !sapp_length. unfold quote, dquote. simpl. lia. Qed.
Lemma tail_length close first x l :
  String.length (tail_text close first (x :: l)) = (String.length (comma first) + String.length x + String.length (tail_text close false l))%nat.
Proof. cbn [tail_text]. rewrite !sapp_length. destruct first; simpl; lia. Qed.
Lemma tail_length_pos close first l : (1 <= String.length (tail_text close first l))%nat.
Proof. induction l as [|x l IH] in first |- *; [done|]. rewrite tail_length. specialize (IH false). lia. Qed.

(** ** Scanning *)

(** One step into a container: past the comma, at the text of the next value. *)
Lemma enter k first j r w : k = 93 \/ k = 125 -> wfj j ->
  closes k (comma first +:+ (marshal j +:+ r) +:+ w) = Ok None /\
  after_comma first (comma first +:+ (marshal j +:+ r) +:+ w) = Ok (marshal j +:+ r +:+ w).
Proof.
  intros Hk W. destruct (marshal_head j W) as (c & t & -> & Hc). sapp. split; [by apply closes_more|by apply after_comma_more].
Qed.
Lemma enter_member first f r w :
  closes 125 (comma first +:+ (member_text f +:+ r) +:+ w) = Ok None /\
  after_comma first (comma first +:+ (member_text f +:+ r) +:+ w) = Ok (member_text f +:+ r +:+ w).
Proof.
  destruct (member_head f) as (t & ->). sapp. split; [apply closes_more; auto|by apply after_comma_more].
Qed.
(** A loop over a container runs out of nothing: its fuel covers the text. *)
Ltac tail_fuel Hf :=
  rewrite tail_length in Hf;
  match type of Hf with context [String.length (tail_text ?c false ?l)] => pose proof (tail_length_pos c false l) end.

(** No object inside the value has a key twice. *)
Definition fresh (k : string) (keys : list string) : bool := negb (existsb (String.eqb k) keys).
Fixpoint distinct (keys l : list string) : bool :=
  match l with
  | [] => true
  | k :: r => fresh k keys && distinct (k :: keys) r
  end.
Fixpoint keys_unique (j : json) : bool :=
  match j with
  | JArr l => forallb keys_unique l
  | JObj fs => distinct [] (map fst fs) && forallb (fun '(_, v) => keys_unique v) fs
  | _ => true
  end.
(** The scan goes on after the value, or reports a key. *)
Definition scanned (ok : bool) (r : result perr string) (w : string) : Prop :=
  if ok then r = Ok w else exists k, r = Err (PDuplicateKey k).
Definition scans (u : bool) (j : json) : Prop :=
  forall fuel w, (String.length (marshal j) <= fuel)%nat -> stops w ->
  scanned (negb u || keys_unique j) (scan_token u fuel (first_tok j w).1 (first_tok j w).2) w.
Lemma scan_elems_tail u l : Forall wfj l -> Forall (scans u) l -> forall fuel first w,
  (String.length (tail_text "]" first (map marshal l)) <= fuel)%nat ->
  scanned (negb u || forallb keys_unique l) (scan_elems u fuel first (tail_text "]" first (map marshal l) +:+ w)) w.
Proof.
  intros W. induction W as [|x l Wx W IH]; intros S fuel first w Hf.
  - destruct fuel as [|fuel]; [simpl in Hf; lia|]. cbn [map tail_text scan_elems]. sapp.
    by rewrite (closes_end "]"), orb_true_r by done.
  - cbn [map] in *. tail_fuel Hf. pose proof (marshal_length x Wx). apply Forall_cons in S as [Sx S].
    destruct fuel as [|fuel]; [lia|]. cbn [tail_text scan_elems]. change (if first then "" else ",") with (comma first).
    rewrite sapp_assoc. destruct (enter 93 first x (tail_text "]" false (map marshal l)) w ltac:(auto) Wx) as [E1 E2].
    rewrite E1, E2. cbn [result_bind]. assert (T := tail_stops "]" (map marshal l) w eq_refl).
    rewrite value_token_marshal by done. cbn [result_bind forallb].
    specialize (Sx fuel _ ltac:(lia) T). rewrite orb_andb_distrib_r. destruct (negb u || keys_unique x); cbn [scanned andb] in *.
    + rewrite Sx. cbn [result_bind]. apply IH; [done|lia].
    + destruct Sx as [k ->]. by exists k.
Qed.
Lemma scan_members_tail u l : Forall (fun f => utf8 f.1 /\ wfj f.2) l -> Forall (fun f => scans u f.2) l ->
  forall fuel keys first w, (String.length (tail_text "}" first (map member_text l)) <= fuel)%nat ->
  scanned (negb u || distinct keys (map fst l) && forallb (fun '(_, v) => keys_unique v) l)
    (scan_members u fuel keys first (tail_text "}" first (map member_text l) +:+ w)) w.
Proof.
  intros W. induction W as [|[k v] l [Ux Wx] W IH]; intros S fuel keys first w Hf.
  - destruct fuel as [|fuel]; [simpl in Hf; lia|]. cbn [map tail_text scan_members]. sapp.
    by rewrite (closes_end "}"), orb_true_r by done.
  - cbn [map] in *. tail_fuel Hf. pose proof (member_length (k, v)). apply Forall_cons in S as [Sx S].
    destruct fuel as [|fuel]; [lia|]. cbn [tail_text scan_members]. change (if first then "" else ",") with (comma first).
    rewrite sapp_assoc. destruct (enter_member first (k, v) (tail_text "}" false (map member_text l)) w) as [E1 E2].
    rewrite E1, E2. cbn [result_bind]. assert (T := tail_stops "}" (map member_text l) w eq_refl).
    rewrite object_key_member by done. cbn [result_bind fst snd forallb distinct] in *. unfold fresh.
    destruct u; [destruct (existsb (String.eqb k) keys); [by eexists|]|];
      (rewrite value_token_marshal by done; cbn [result_bind andb orb negb];
       specialize (Sx fuel _ ltac:(lia) T); cbn [negb orb] in *).
    + specialize (IH S fuel (k :: keys) false w ltac:(lia)).
      destruct (keys_unique v); cbn [scanned andb] in *; [by rewrite Sx|].
      rewrite andb_false_r. destruct Sx as [d ->]. by exists d.
    + cbn [scanned] in *. rewrite Sx. cbn [result_bind]. by apply (IH S fuel (k :: keys) false w); [lia].
Qed.
Lemma scans_marshal u j : wfj j -> scans u j.
Proof.
  induction j as [|b|l|s|l IH|fs IH|t] using json_nested_ind; intros W fuel w Hf Hw; inversion W; subst;
    (destruct fuel as [|fuel]; [pose proof (marshal_length _ W); lia|]); try by destruct u.
  - rewrite marshal_arr in Hf. cbn [String.length] in Hf. cbn [first_tok fst snd scan_token].
    change (is_p 123 "[") with false. change (is_p 91 "[") with true. cbv iota. apply scan_elems_tail; [done| |lia].
    rewrite Forall_forall in *. auto.
  - rewrite marshal_obj in Hf. cbn [String.length] in Hf. cbn [first_tok fst snd scan_token].
    change (is_p 123 "{") with true. cbv iota. apply scan_members_tail; [done| |lia].
    rewrite Forall_forall in *. intros f Hfs. by apply IH, H0.
Qed.
(** The scan that does not look at keys. *)
Lemma scan_plain j fuel w : wfj j -> (String.length (marshal j) <= fuel)%nat -> stops w ->
  scan_token false fuel (first_tok j w).1 (first_tok j w).2 = Ok w.
Proof. intros W. by apply (scans_marshal false j W). Qed.
Lemma fuel_of_app s w : (String.length s <= fuel_of (s +:+ w))%nat.
Proof. unfold fuel_of. rewrite sapp_length. lia. Qed.
Lemma validateJSON_scan j : wfj j ->
  if keys_unique j then validateJSON (marshal j) = Ok tt else exists k, validateJSON (marshal j) = Err (PDuplicateKey k).
Proof.
  intros W. unfold validateJSON. rewrite utf8_valid_complete by (by apply utf8_marshal). cbn [pcheck result_bind].
  pose proof (value_token_marshal j "" W I) as V. rewrite sapp_nil in V. rewrite V. cbn [result_bind].
  pose proof (scans_marshal true j W (fuel_of (marshal j)) "") as S. cbn [negb orb] in S.
  specialize (S ltac:(unfold fuel_of; lia) I). destruct (keys_unique j); cbn [scanned] in S; [by rewrite S|].
  destruct S as [k ->]. by exists k.
Qed.
Lemma validateJSON_marshal j : wfj j -> keys_unique j = true -> validateJSON (marshal j) = Ok tt.
Proof. intros W U. pose proof (validateJSON_scan j W) as V. by rewrite U in V. Qed.

(** ** A value of a type *)

(** Every field of an object is a field of the struct, under its exact name. *)
Fixpoint fits (ty : jtype) (j : json) {struct j} : bool :=
  match ty, j with
  | _, JNull => true
  | TyStruct fs, JObj ms =>
      forallb (fun '(k, v) => match exact_field k fs with Some (_, t) => fits t v | None => false end) ms
  | TySlice e, JArr l => forallb (fits e) l
  | TyRaw, _ | TyScalar, _ => true
  | _, _ => false
  end.
Definition passes (ok : bool) (r : result perr string) (w : string) : Prop :=
  if ok then r = Ok w else exists e, r = Err e.
Definition scans_as (ty : jtype) (j : json) : Prop :=
  forall fuel w, (String.length (marshal j) <= fuel)%nat -> stops w ->
  passes (fits ty j) (scan_typed (S fuel) ty (first_tok j w).1 (first_tok j w).2) w.
Lemma scan_slice_tail e l : Forall wfj l -> Forall (scans_as e) l -> forall fuel first w,
  (String.length (tail_text "]" first (map marshal l)) <= fuel)%nat ->
  passes (forallb (fits e) l) (scan_slice (S fuel) e first (tail_text "]" first (map marshal l) +:+ w)) w.
Proof.
  intros W. induction W as [|x l Wx W IH]; intros S fuel first w Hf.
  - cbn [map tail_text scan_slice]. sapp. by rewrite (closes_end "]") by done.
  - cbn [map] in *. tail_fuel Hf. pose proof (marshal_length x Wx). apply Forall_cons in S as [Sx S].
    destruct fuel as [|fuel]; [lia|]. cbn [tail_text]. remember (Datatypes.S fuel) as n eqn:En. cbn [scan_slice].
    change (if first then "" else ",") with (comma first).
    rewrite sapp_assoc. destruct (enter 93 first x (tail_text "]" false (map marshal l)) w ltac:(auto) Wx) as [E1 E2].
    rewrite E1, E2. cbn [result_bind]. assert (T := tail_stops "]" (map marshal l) w eq_refl).
    rewrite value_token_marshal by done. cbn [result_bind forallb]. subst n. specialize (Sx fuel _ ltac:(lia) T).
    destruct (fits e x); cbn [passes andb] in *; [|destruct Sx as [er ->]; by exists er].
    rewrite Sx. cbn [result_bind]. apply IH; [done|lia].
Qed.
Lemma exact_field_name k fs f : exact_field k fs = Some f -> f.1 = k.
Proof. intros [_ H%String.eqb_eq]%find_some. done. Qed.
(** An unknown field noted is an error in the end. *)
Lemma scan_struct_unknown fs k fuel seen first s r : scan_struct fuel fs seen (Some k) first s <> Ok r.
Proof.
  induction fuel as [|fuel IH] in seen, first, s |- *; [done|]. cbn [scan_struct].
  destruct (closes 125 s) as [[?|]|]; try done. cbn [result_bind].
  destruct (after_comma first s) as [s1|]; [|done]. cbn [result_bind].
  destruct (object_key s1) as [[key t]|]; [|done]. cbn [result_bind fst snd].
  destruct (exact_field key fs) as [[name ty]|]; [|destruct (alias_field key fs) as [[name ty]|]; [|done]];
    (destruct (existsb (String.eqb name) seen); [done|]; destruct (value_token t) as [tr|]; [|done]; cbn [result_bind];
     destruct (scan_typed fuel ty tr.1 tr.2) as [s2|]; [|done]; cbn [result_bind first_unknown]; apply IH).
Qed.
Lemma not_ok_err {A} (r : result perr A) : (forall x, r <> Ok x) -> exists e, r = Err e.
Proof. destruct r as [x|e]; [|eauto]. intros H. by destruct (H x). Qed.
Definition member_fits (fs : list (string * jtype)) (f : string * json) : bool :=
  let '(k, v) := f in match exact_field k fs with Some (_, t) => fits t v | None => false end.
Lemma scan_struct_tail fs l : Forall (fun f => utf8 f.1 /\ wfj f.2) l -> Forall (fun f => forall t, scans_as t f.2) l ->
  forall fuel seen first w, distinct seen (map fst l) = true ->
  (String.length (tail_text "}" first (map member_text l)) <= fuel)%nat ->
  passes (forallb (member_fits fs) l) (scan_struct (S fuel) fs seen None first (tail_text "}" first (map member_text l) +:+ w)) w.
Proof.
  intros W. induction W as [|[k v] l [Ux Wx] W IH]; intros S fuel seen first w N Hf.
  - cbn [map tail_text scan_struct]. sapp. by rewrite (closes_end "}") by done.
  - cbn [map] in *. tail_fuel Hf. pose proof (member_length (k, v)). apply Forall_cons in S as [Sx S].
    destruct fuel as [|fuel]; [lia|]. cbn [tail_text]. remember (Datatypes.S fuel) as n eqn:En. cbn [scan_struct].
    change (if first then "" else ",") with (comma first).
    rewrite sapp_assoc. destruct (enter_member first (k, v) (tail_text "}" false (map member_text l)) w) as [E1 E2].
    rewrite E1, E2. cbn [result_bind]. assert (T := tail_stops "}" (map member_text l) w eq_refl).
    rewrite object_key_member by done. cbn [result_bind fst snd forallb distinct member_fits] in *.
    apply andb_prop in N as [Hk N]. destruct (exact_field k fs) as [[name t]|] eqn:Ef.
    + pose proof (exact_field_name _ _ _ Ef) as En'. cbn in En'. subst name.
      unfold fresh in Hk. apply negb_true_iff in Hk. rewrite Hk.
      rewrite value_token_marshal by done. cbn [result_bind]. subst n. specialize (Sx t fuel _ ltac:(lia) T).
      destruct (fits t v); cbn [passes andb] in *; [|destruct Sx as [er ->]; by exists er].
      rewrite Sx. cbn [result_bind]. apply IH; [done|done|lia].
    + cbn [passes andb]. destruct (alias_field k fs) as [[name t]|]; [|by eexists].
      destruct (existsb (String.eqb name) seen); [by eexists|]. destruct (value_token _) as [tr|]; [|by eexists]. cbn [result_bind].
      destruct (scan_typed n t tr.1 tr.2) as [s2|]; [|by eexists]. cbn [result_bind first_unknown].
      apply not_ok_err. intros x. apply scan_struct_unknown.
Qed.
Lemma is_null_first j w : wfj j -> is_null (first_tok j w).1 = match j with JNull => true | _ => false end.
Proof. by destruct 1 as [|[]| | | |]. Qed.
Lemma scans_as_fits j : wfj j -> keys_unique j = true -> forall ty, scans_as ty j.
Proof.
  induction j as [|b|l|s|l IH|fs IH|t] using json_nested_ind; intros W U ty fuel w Hf Hw; cbn [scan_typed];
    rewrite is_null_first by done; cbv iota.
  7: by inversion W.
  { by destruct ty. }
  1-3: destruct ty; try (by eexists); by apply scan_plain.
  - inversion W; subst. destruct ty as [| | |e]; try (by eexists); [by apply scan_plain..|].
    cbn [first_tok fst snd opens]. change (is_p 91 "[") with true. cbv iota.
    rewrite marshal_arr in Hf. cbn [String.length] in Hf. destruct fuel as [|fuel]; [lia|].
    apply scan_slice_tail; [done| |lia]. cbn [keys_unique] in U. rewrite forallb_forall in U. rewrite Forall_forall in *.
    intros x Hx. apply IH; [done|by apply H0|]. by apply U, list_elem_of_In.
  - inversion W; subst. destruct ty as [| |ms|e]; try (by eexists); [by apply scan_plain..|].
    cbn [first_tok fst snd opens]. change (is_p 123 "{") with true. cbv iota.
    rewrite marshal_obj in Hf. cbn [String.length] in Hf. destruct fuel as [|fuel]; [lia|].
    cbn [keys_unique] in U. apply andb_prop in U as [D U]. rewrite forallb_forall in U.
    apply scan_struct_tail; [done| |done|lia]. rewrite Forall_forall in *.
    intros [k v] Hx. destruct (H0 _ Hx) as [_ Wv]. apply (IH _ Hx Wv). apply (U (k, v)). by apply list_elem_of_In.
Qed.
Lemma validateExactCase_scan ty j : wfj j -> keys_unique j = true ->
  if fits ty j then validateExactCase ty (marshal j) = Ok tt else exists e, validateExactCase ty (marshal j) = Err e.
Proof.
  intros W U. unfold validateExactCase. pose proof (value_token_marshal j "" W I) as V. rewrite sapp_nil in V. rewrite V. cbn [result_bind].
  pose proof (scans_as_fits j W U ty (S (2 * String.length (marshal j))) "" ltac:(lia) I) as S.
  unfold fuel_of. destruct (fits ty j); cbn [passes] in S; [by rewrite S|]. destruct S as [e ->]. by exists e.
Qed.
Lemma validateExactCase_marshal ty j : wfj j -> keys_unique j = true -> fits ty j = true -> validateExactCase ty (marshal j) = Ok tt.
Proof. intros W U F. pose proof (validateExactCase_scan ty j W U) as V. by rewrite F in V. Qed.

(** ** The members of a struct *)

Lemma raw_members_tail l : Forall (fun f => utf8 f.1 /\ wfj f.2) l -> forall fuel first w,
  (String.length (tail_text "}" first (map member_text l)) <= fuel)%nat ->
  raw_members fuel first (tail_text "}" first (map member_text l) +:+ w) = Ok (map (fun f => (f.1, marshal f.2)) l).
Proof.
  intros W. induction W as [|x l [Ux Wx] W IH]; intros fuel first w Hf.
  - destruct fuel as [|fuel]; [simpl in Hf; lia|]. cbn [map tail_text raw_members]. sapp.
    by rewrite (closes_end "}") by done.
  - cbn [map] in *. tail_fuel Hf. pose proof (member_length x).
    destruct fuel as [|fuel]; [lia|]. cbn [tail_text raw_members]. change (if first then "" else ",") with (comma first).
    rewrite sapp_assoc. destruct (enter_member first x (tail_text "}" false (map member_text l)) w) as [E1 E2].
    rewrite E1, E2. cbn [result_bind]. assert (T := tail_stops "}" (map member_text l) w eq_refl).
    rewrite object_key_member by done. cbn [result_bind fst snd].
    set (rest := tail_text "}" false (map member_text l) +:+ w) in *.
    assert (Sk : skip_ws (marshal x.2 +:+ rest) = marshal x.2 +:+ rest).
    { destruct (marshal_head x.2 Wx) as (c & t & -> & [Hc _]%value_head_facts). sapp. cbn [skip_ws]. by rewrite Hc. }
    rewrite Sk, value_token_marshal by done. cbn [result_bind].
    rewrite scan_plain by (done || apply fuel_of_app). cbn [result_bind]. unfold rest at 1.
    rewrite IH by lia. cbn [result_bind]. rewrite sapp_length.
    replace (String.length (marshal x.2) + String.length rest - String.length rest)%nat with (String.length (marshal x.2)) by lia.
    by rewrite take_bytes_app.
Qed.
Definition raw_texts (fs : list (string * json)) : list (string * string) := map (fun f => (f.1, marshal f.2)) fs.
Lemma struct_members_marshal fs : wfj (JObj fs) -> json_depth (JObj fs) <= max_nesting_depth ->
  struct_members (marshal (JObj fs)) = Ok (raw_texts fs).
Proof.
  intros W D. unfold struct_members. rewrite valid_marshal by done. cbn [pcheck result_bind].
  pose proof (value_token_marshal _ "" W I) as V. rewrite sapp_nil in V. rewrite V. cbn [result_bind first_tok fst snd].
  cbn [is_null opens]. change (is_p 123 "{") with true. cbv iota. inversion W; subst.
  apply raw_members_tail; [done|]. rewrite marshal_obj. unfold fuel_of. cbn [String.length]. lia.
Qed.

(** The member [k] of a marshalled object. *)
Definition member (k : string) (fs : list (string * json)) : option json := snd <$> List.find (fun f => String.eqb f.1 k) fs.
Lemma find_raw k fs : List.find (fun m => String.eqb m.1 k) (raw_texts fs) = (fun v => (k, marshal v)) <$> member k fs.
Proof.
  unfold member. induction fs as [|[k' v] fs IH]; [done|]. cbn [raw_texts map find fst snd].
  destruct (String.eqb_spec k' k) as [->|]; [done|]. exact IH.
Qed.
Lemma raw_field_marshal k fs : raw_field k (raw_texts fs) = match member k fs with Some v => marshal v | None => "" end.
Proof. unfold raw_field. rewrite find_raw. by destruct (member k fs). Qed.
Lemma field_marshal {T} (dec : json -> option T) absent k fs :
  Forall (fun f => wfj f.2 /\ json_depth f.2 <= max_nesting_depth) fs ->
  field dec absent k (raw_texts fs)
  = match member k fs with
    | None | Some JNull => Ok absent
    | Some v => match dec v with Some x => Ok x | None => Err PJSON end
    end.
Proof.
  intros F. unfold field. rewrite find_raw. unfold member. destruct (find _ fs) as [[k' v]|] eqn:E; [|done].
  apply find_some in E as [Hin _]. rewrite Forall_forall in F. destruct (F (k', v)) as [W D]; [by apply list_elem_of_In|]. cbn in *.
  by rewrite parse_marshal.
Qed.
