(* ===== verification/Wire.v ===== *)
(** * Envelopes and frames ([internal/protocol/envelope.go], [framing.go], [messages.go])

    A frame is four bytes of length, big endian, and the JSON text of an envelope.
    The byte stream under a reader delivers its bytes in arbitrary chunks, the one
    under a writer accepts arbitrary parts of what it is given. *)
From S2P Require Import Prelude GoStrings Json RoomTypes StrictJson.

(** ** Envelopes *)

Definition Version : Z := 1.
Inductive Kind := KindRequest | KindResponse | KindEvent | KindError | KindOther (s : string).
#[export] Instance Kind_eq_dec : EqDecision Kind.
Proof. solve_decision. Defined.
Definition Kind_string (k : Kind) : string :=
  match k with
  | KindRequest => "request" | KindResponse => "response" | KindEvent => "event" | KindError => "error"
  | KindOther s => s
  end.
Definition Kind_of (s : string) : Kind :=
  if String.eqb s "request" then KindRequest else if String.eqb s "response" then KindResponse
  else if String.eqb s "event" then KindEvent else if String.eqb s "error" then KindError else KindOther s.

Record Envelope :=
  { en_Version : Z; en_Kind : Kind; en_ID : string; en_Method : string; en_Requires : list string;
    en_Seq : option Z; en_Body : string }.

Definition ValidMessageID (id : string) : bool := (len id =? 32) && str_forallb is_lower_hex id.

Definition known_kind (k : Kind) : bool := match k with KindOther _ => false | _ => true end.
(** Requests and responses have an id, events and errors may have one. *)
Definition id_ok (k : Kind) (id : string) : bool :=
  match k with
  | KindRequest | KindResponse => ValidMessageID id
  | _ => String.eqb id "" || ValidMessageID id
  end.
Definition Envelope_Validate (e : Envelope) : result perr unit :=
  let? _ := pcheck (en_Version e =? Version) PInvalidVersion in
  let? _ := pcheck (known_kind (en_Kind e)) PInvalidKind in
  let? _ := pcheck (negb (blank (en_Method e))) PInvalidEnvelope in
  let? _ := pcheck (id_ok (en_Kind e) (en_ID e)) PInvalidID in
  let? _ := pcheck (negb (String.eqb (en_Body e) "")) PInvalidEnvelope in
  validateJSON (en_Body e).

(** The fields that [omitempty] leaves out. *)
Definition optional_string (name s : string) : list (string * json) := if String.eqb s "" then [] else [(name, JStr s)].
Definition optional_strings (name : string) (l : list string) : list (string * json) :=
  match l with [] => [] | _ => [(name, JArr (JStr <$> l))] end.
Definition optional_int (name : string) (o : option Z) : list (string * json) :=
  match o with Some z => [(name, JInt z)] | None => [] end.
Definition envelope_json (e : Envelope) : json :=
  JObj ([("version", JInt (en_Version e)); ("kind", JStr (Kind_string (en_Kind e)))]
        ++ optional_string "id" (en_ID e) ++ [("method", JStr (en_Method e))]
        ++ optional_strings "requires" (en_Requires e) ++ optional_int "seq" (en_Seq e)
        ++ [("body", JRaw (en_Body e))]).
(** [json.Marshal(envelope)] *)
Definition marshal_envelope (e : Envelope) : string := marshal (envelope_json e).

Definition envelope_type : jtype :=
  TyStruct [("version", TyScalar); ("kind", TyScalar); ("id", TyScalar); ("method", TyScalar);
            ("requires", TySlice TyScalar); ("seq", TyScalar); ("body", TyRaw)].
Definition dec_envelope (l : list (string * string)) : result perr Envelope :=
  let? v := field (dec_uint 16) 0 "version" l in
  let? k := field dec_string "" "kind" l in
  let? i := field dec_string "" "id" l in
  let? m := field dec_string "" "method" l in
  let? q := field dec_strings [] "requires" l in
  let? s := field (dec_some (dec_uint 64)) None "seq" l in
  Ok {| en_Version := v; en_Kind := Kind_of k; en_ID := i; en_Method := m; en_Requires := q; en_Seq := s;
        en_Body := raw_field "body" l |}.
Definition decodeEnvelope (body : string) : result perr Envelope :=
  DecodeBody envelope_type dec_envelope Envelope_Validate body.

(** ** Frames *)

Definition MaxFrameBytes : Z := Z.shiftl 8 20.

(** [binary.BigEndian.PutUint32], [Uint32] *)
Definition put_uint32 (n : Z) : string :=
  of_bytes (chr <$> [n / 16777216 mod 256; n / 65536 mod 256; n / 256 mod 256; n mod 256]).
Definition uint32 (s : string) : Z := foldl (fun acc c => 256 * acc + code c) 0 (bytes s).

(** The bytes a stream has still to deliver, in the chunks its reads return. *)
Definition source : Type := list string.
(** [io.ReadFull] of [n] bytes: the end of the stream is [io.EOF] before the first
    byte and [io.ErrUnexpectedEOF] after it. *)
Fixpoint read_full (n : nat) (acc : string) (src : source) : source * result perr string :=
  match n, src with
  | O, _ => (src, Ok acc)
  | _, [] => ([], Err (if String.eqb acc "" then PEOF else PUnexpectedEOF))
  | _, chunk :: r =>
      if Nat.leb n (String.length chunk)
      then (if Nat.eqb n (String.length chunk) then r else drop_bytes n chunk :: r, Ok (acc +:+ take_bytes n chunk))
      else read_full (n - String.length chunk) (acc +:+ chunk) r
  end.

(** [NewReader]'s bound. *)
Definition reader_maximum (maximum : Z) : Z := Z.min maximum MaxFrameBytes.
(** [Reader.Read] *)
Definition Read (maximum : Z) (src : source) : source * result perr Envelope :=
  match read_full 4 "" src with
  | (src, Err e) => (src, Err e)
  | (src, Ok prefix) =>
      let length := uint32 prefix in
      if length =? 0 then (src, Err PEmptyFrame)
      else if maximum <? length then (src, Err PFrameTooLarge)
      else match read_full (Z.to_nat length) "" src with
           | (src, Err e) => (src, Err e)
           | (src, Ok body) => (src, if utf8_valid body then decodeEnvelope body else Err PInvalidUTF8)
           end
  end.

(** A connection that was written [out]; the next calls of [Write] return the
    counts and errors of [script], then everything is accepted. *)
Record conn := { out : string; script : list (Z * option perr) }.
Definition conn_write (c : conn) (body : string) : conn * (Z * option perr) :=
  match script c with
  | [] => ({| out := out c +:+ body; script := [] |}, (len body, None))
  | (n, e) :: r => ({| out := out c +:+ take_bytes (Z.to_nat n) body; script := r |}, (n, e))
  end.
(** [writeFull]; a round that goes on wrote at least one byte. *)
Fixpoint write_full (fuel : nat) (c : conn) (body : string) : conn * result perr unit :=
  match fuel with
  | O => (c, Ok tt)
  | S f =>
      if String.eqb body "" then (c, Ok tt) else
      let '(c', (count, err)) := conn_write c body in
      if (count <? 0) || (len body <? count) then (c', Err PShortWrite) else
      match err with
      | Some e => (c', Err e)
      | None => if count =? 0 then (c', Err PShortWrite) else write_full f c' (drop_bytes (Z.to_nat count) body)
      end
  end.
Definition writeFull (c : conn) (body : string) : conn * result perr unit := write_full (S (String.length body)) c body.

(** [Writer.Write] *)
Definition Write (c : conn) (e : Envelope) : conn * result perr unit :=
  match Envelope_Validate e with
  | Err err => (c, Err err)
  | Ok _ =>
      let body := marshal_envelope e in
      if String.eqb body "" then (c, Err PEmptyFrame)
      else if MaxFrameBytes <? len body then (c, Err PFrameTooLarge)
      else match writeFull c (put_uint32 (len body)) with
           | (c, Err err) => (c, Err err)
           | (c, Ok _) => writeFull c body
           end
  end.

(** ** Messages and the handshake *)

Record Hello := { he_MinVersion : Z; he_MaxVersion : Z; he_LastAppliedSeq : Z }.
Definition Hello_Validate (h : Hello) : result perr unit :=
  pcheck (negb ((he_MinVersion h =? 0) || (he_MaxVersion h <? he_MinVersion h))) PInvalidHello.
Definition hello_type : jtype := TyStruct [("minVersion", TyScalar); ("maxVersion", TyScalar); ("lastAppliedSeq", TyScalar)].
Definition dec_hello (l : list (string * string)) : result perr Hello :=
  let? a := field (dec_uint 16) 0 "minVersion" l in
  let? b := field (dec_uint 16) 0 "maxVersion" l in
  let? c := field (dec_uint 64) 0 "lastAppliedSeq" l in
  Ok {| he_MinVersion := a; he_MaxVersion := b; he_LastAppliedSeq := c |}.

Record HandshakeState := { hs_capabilities : list string; hs_complete : bool }.
Definition NewHandshakeState (capabilities : list string) : HandshakeState :=
  {| hs_capabilities := capabilities; hs_complete := false |}.
Definition Accept (st : HandshakeState) (e : Envelope) : HandshakeState * result perr unit :=
  match Envelope_Validate e with
  | Err err => (st, Err err)
  | Ok _ =>
      if hs_complete st then
        (st, pcheck (negb (bool_decide (en_Kind e = KindRequest) && String.eqb (en_Method e) "hello")) PHandshakeAlreadyComplete)
      else if negb (bool_decide (en_Kind e = KindRequest) && String.eqb (en_Method e) "hello") then (st, Err PHandshakeRequired)
      else if negb (forallb (fun c => existsb (String.eqb c) (hs_capabilities st)) (en_Requires e))
      then (st, Err PUnsupportedCapability)
      else match DecodeBody hello_type dec_hello Hello_Validate (en_Body e) with
           | Err err => (st, Err err)
           | Ok hello =>
               match Hello_Validate hello with
               | Err err => (st, Err err)
               | Ok _ =>
                   if (Version <? he_MinVersion hello) || (he_MaxVersion hello <? Version)
                   then (st, Err PUnsupportedVersion)
                   else ({| hs_capabilities := hs_capabilities st; hs_complete := true |}, Ok tt)
               end
           end
  end.

Definition demo_envelope : Envelope :=
  {| en_Version := 1; en_Kind := KindRequest; en_ID := "0123456789abcdef0123456789abcdef"; en_Method := "hello";
     en_Requires := ["协作"]; en_Seq := Some 7;
     en_Body := bq "{`minVersion`:1,`maxVersion`:1,`lastAppliedSeq`:41}" |}.
Example write_then_read :
  let '(c, r) := Write {| out := ""; script := [(2, None); (1, None)] |} demo_envelope in
  r = Ok tt /\ Read MaxFrameBytes [take_bytes 3 (out c); drop_bytes 3 (out c)] = ([], Ok demo_envelope).
Proof. vm_compute. done. Qed.
