(* ===== verification/WireSafety.v ===== *)
(** * Frames carry envelopes unchanged

    An envelope that is written is read back, however the stream is cut into
    pieces; what is read was framed within the bound and is a valid envelope; the
    handshake comes first and once. *)
From S2P Require Import Prelude GoStrings Json JsonFacts RoomTypes StrictJson StrictFacts Wire.

(** ** Decimal fields *)

Lemma digits_foldl s acc : str_forallb is_digit s = true -> digits acc s = Some (foldl digit_step acc (bytes s)).
Proof.
  revert acc. induction s as [|c s IH]; intros acc H; [done|]. unfold str_forallb in *. cbn [bytes forallb] in H.
  apply andb_prop in H as [Hc H]. cbn [digits bytes foldl]. rewrite Hc. by apply IH.
Qed.
Lemma parse_nat_text s z : nat_text s z -> parse_nat s = Some z.
Proof.
  intros (c & d & -> & Hc & Hd & _ & Hz). unfold parse_nat. cbn [String.eqb]. rewrite digits_foldl.
  - by f_equal.
  - unfold str_forallb in *. cbn [bytes forallb]. by rewrite Hc, Hd.
Qed.
Lemma dec_uint_int bits z : 0 <= z < 2 ^ bits -> dec_uint bits (JInt z) = Some z.
Proof.
  intros [H1 H2]. cbn [dec_uint JInt]. unfold ParseUint. rewrite (parse_nat_text _ z) by (by apply itoa_nat).
  cbn [mbind option_bind]. by rewrite (proj2 (Z.ltb_lt _ _) H2).
Qed.
Lemma dec_string_list_strings l : dec_string_list (JStr <$> l) = Some l.
Proof. induction l as [|s l IH]; [done|]. cbn [fmap list_fmap dec_string_list]. change (list_fmap _ _ JStr l) with (JStr <$> l). by rewrite IH. Qed.

(** ** Envelopes *)

(** What the callers of [Write] build: a body that [json.Marshal] returned, texts
    that are UTF-8, a sequence number of 64 bits. *)
Definition sendable (e : Envelope) (j : json) : Prop :=
  en_Body e = marshal j /\ wfj j /\ keys_unique j = true /\ json_depth j < max_nesting_depth /\
  utf8 (en_Method e) /\ Forall utf8 (en_Requires e) /\ match en_Seq e with Some s => 0 <= s < 2 ^ 64 | None => True end.

Definition envelope_fields (e : Envelope) (body : json) : list (string * json) :=
  [("version", JInt (en_Version e)); ("kind", JStr (Kind_string (en_Kind e)))]
  ++ optional_string "id" (en_ID e) ++ [("method", JStr (en_Method e))]
  ++ optional_strings "requires" (en_Requires e) ++ optional_int "seq" (en_Seq e) ++ [("body", body)].
Lemma marshal_obj_raw fs k j : wfj j -> marshal (JObj (fs ++ [(k, JRaw (marshal j))])) = marshal (JObj (fs ++ [(k, j)])).
Proof.
  intros W. rewrite !marshal_obj, !map_app. cbn [map]. unfold member_text at 2 4. cbn [fst snd].
  change (marshal (JRaw (marshal j))) with (compact_body true false false (marshal j)). by rewrite compact_marshal.
Qed.
Lemma marshal_envelope_value e j : en_Body e = marshal j -> wfj j ->
  marshal_envelope e = marshal (JObj (envelope_fields e j)).
Proof.
  intros E W. unfold marshal_envelope, envelope_json, envelope_fields. rewrite E, !app_assoc. by apply marshal_obj_raw.
Qed.

(** The envelope that passed [Validate]. *)
Record valid_envelope (e : Envelope) : Prop := {
  ve_version : en_Version e = Version;
  ve_kind : known_kind (en_Kind e) = true;
  ve_id : id_ok (en_Kind e) (en_ID e) = true;
  ve_method : blank (en_Method e) = false;
  ve_body : en_Body e <> "" /\ validateJSON (en_Body e) = Ok tt }.
Lemma pcheck_ok b err : pcheck b err = Ok tt <-> b = true.
Proof. by destruct b. Qed.
Lemma Envelope_Validate_ok e : Envelope_Validate e = Ok tt <-> valid_envelope e.
Proof.
  unfold Envelope_Validate. split.
  - destruct (en_Version e =? Version) eqn:E1; [|done]. destruct (known_kind (en_Kind e)) eqn:E2; [|done].
    destruct (blank (en_Method e)) eqn:E3; [done|]. destruct (id_ok (en_Kind e) (en_ID e)) eqn:E4; [|done].
    destruct (String.eqb_spec (en_Body e) "") as [|E5]; [done|]. cbn [pcheck negb result_bind]. intros H.
    split; [by apply Z.eqb_eq|done..].
  - intros [-> -> H1 -> [H2 H3]]. rewrite H1. destruct (String.eqb_spec (en_Body e) ""); [done|]. done.
Qed.
Lemma utf8_message_id k id : id_ok k id = true -> utf8 id.
Proof.
  intros H. assert (E : id = "" \/ ValidMessageID id = true).
  { destruct k; cbn [id_ok] in H; auto; apply orb_prop in H as [H%String.eqb_eq|H]; auto. }
  destruct E as [->|E]; [constructor|]. unfold ValidMessageID in E. apply andb_prop in E as [_ E].
  apply utf8_low, Forall_forall. intros c Hc. unfold str_forallb in E. rewrite forallb_forall in E.
  specialize (E c ltac:(by apply list_elem_of_In)). unfold is_lower_hex in E. 
  apply orb_prop in E as [E%between_bounds|E%between_bounds]; lia.
Qed.
Lemma fits_any ty j : ty = TyRaw \/ ty = TyScalar -> fits ty j = true.
Proof. by intros [-> | ->]; destruct j. Qed.
Lemma fits_strings l : fits (TySlice TyScalar) (JArr (JStr <$> l)) = true.
Proof. cbn [fits]. apply forallb_forall. intros j (s & <- & _)%in_map_iff. done. Qed.
Lemma wfj_strings l : Forall utf8 l -> wfj (JArr (JStr <$> l)).
Proof. intros F. constructor. apply Forall_map. eapply Forall_impl; [exact F|]. intros s Hs. by constructor. Qed.
Lemma unique_strings l : keys_unique (JArr (JStr <$> l)) = true.
Proof. cbn [keys_unique]. apply forallb_forall. intros j (s & <- & _)%in_map_iff. done. Qed.
Lemma depth_strings l : json_depth (JArr (JStr <$> l)) = 1.
Proof.
  cbn [json_depth]. assert (E : foldr Z.max 0 (map json_depth (JStr <$> l)) = 0) by (induction l as [|x l IH]; [done|]; cbn in *; lia).
  by rewrite E.
Qed.
Lemma forallb_Forall_true {A} (f : A -> bool) l : Forall (fun x => f x = true) l -> forallb f l = true.
Proof. induction 1 as [|x l Hx _ IH]; [done|]. cbn [forallb]. by rewrite Hx. Qed.
Lemma requires_fields l : optional_strings "requires" l = match l with [] => [] | _ => [("requires", JArr (JStr <$> l))] end.
Proof. by destruct l. Qed.

(** The fields of the object: each of its members is one of these. *)
Lemma envelope_fields_all (P : string * json -> Prop) e j :
  P ("version", JInt (en_Version e)) -> P ("kind", JStr (Kind_string (en_Kind e))) -> P ("id", JStr (en_ID e)) ->
  P ("method", JStr (en_Method e)) -> P ("requires", JArr (JStr <$> en_Requires e)) ->
  (forall s, en_Seq e = Some s -> P ("seq", JInt s)) -> P ("body", j) -> Forall P (envelope_fields e j).
Proof.
  intros H1 H2 H3 H4 H5 H6 H7. unfold envelope_fields, optional_string. rewrite requires_fields.
  repeat (apply Forall_app; split); repeat constructor; try done.
  - destruct (String.eqb (en_ID e) ""); by repeat constructor.
  - destruct (en_Requires e); by repeat constructor.
  - destruct (en_Seq e); cbn [optional_int]; repeat constructor. by apply H6.
Qed.
Lemma envelope_keys e j : distinct [] (map fst (envelope_fields e j)) = true.
Proof.
  unfold envelope_fields, optional_string. rewrite requires_fields.
  by destruct (String.eqb (en_ID e) ""), (en_Requires e), (en_Seq e).
Qed.
Lemma utf8_kind k : known_kind k = true -> utf8 (Kind_string k).
Proof. by destruct k; intros H; try apply utf8_text. Qed.
Lemma envelope_value_wf e j : sendable e j -> valid_envelope e -> wfj (JObj (envelope_fields e j)).
Proof.
  intros (_ & W & _ & _ & M & R & _) V. constructor. apply envelope_fields_all; cbn [fst snd]; (split; [by apply utf8_text|]); try done.
  - constructor.
  - constructor. apply utf8_kind, (ve_kind e V).
  - constructor. by eapply utf8_message_id, (ve_id e V).
  - by constructor.
  - by apply wfj_strings.
  - constructor.
Qed.
Lemma envelope_value_unique e j : sendable e j -> keys_unique (JObj (envelope_fields e j)) = true.
Proof.
  intros (_ & _ & U & _). cbn [keys_unique]. rewrite envelope_keys. apply forallb_Forall_true.
  apply envelope_fields_all; try done. apply unique_strings.
Qed.
Lemma envelope_value_fits e j : fits envelope_type (JObj (envelope_fields e j)) = true.
Proof.
  unfold envelope_type. cbn [fits]. apply forallb_Forall_true.
  apply envelope_fields_all; try done; [apply fits_strings|apply fits_any; auto].
Qed.
Lemma envelope_value_depth e j : sendable e j -> 
  Forall (fun f => json_depth f.2 < max_nesting_depth) (envelope_fields e j).
Proof.
  intros (_ & _ & _ & D & _). apply envelope_fields_all; try done. cbn [snd]. by rewrite depth_strings.
Qed.
Lemma object_depth fs : Forall (fun f => json_depth f.2 < max_nesting_depth) fs -> json_depth (JObj fs) <= max_nesting_depth.
Proof.
  intros F. cbn [json_depth]. assert (foldr Z.max 0 (map (fun '(_, v) => json_depth v) fs) < max_nesting_depth); [|lia].
  induction F as [|[k v] fs Hv _ IH]; cbn [map foldr snd] in *; [done|lia].
Qed.

Ltac envelope_cases e :=
  unfold envelope_fields, optional_string; rewrite requires_fields;
  destruct (String.eqb_spec (en_ID e) ""), (en_Requires e), (en_Seq e).
Lemma member_version e j : member "version" (envelope_fields e j) = Some (JInt (en_Version e)).
Proof. done. Qed.
Lemma member_kind e j : member "kind" (envelope_fields e j) = Some (JStr (Kind_string (en_Kind e))).
Proof. done. Qed.
Lemma member_id e j : member "id" (envelope_fields e j) = if String.eqb (en_ID e) "" then None else Some (JStr (en_ID e)).
Proof. by envelope_cases e. Qed.
Lemma member_method e j : member "method" (envelope_fields e j) = Some (JStr (en_Method e)).
Proof. by envelope_cases e. Qed.
Lemma member_requires e j :
  member "requires" (envelope_fields e j) = match en_Requires e with [] => None | l => Some (JArr (JStr <$> l)) end.
Proof. by envelope_cases e. Qed.
Lemma member_seq e j : member "seq" (envelope_fields e j) = JInt <$> en_Seq e.
Proof. by envelope_cases e. Qed.
Lemma member_body e j : member "body" (envelope_fields e j) = Some j.
Proof. by envelope_cases e. Qed.
Lemma Kind_of_string k : known_kind k = true -> Kind_of (Kind_string k) = k.
Proof. by destruct k. Qed.

Lemma dec_envelope_fields e j : sendable e j -> valid_envelope e -> dec_envelope (raw_texts (envelope_fields e j)) = Ok e.
Proof.
  intros S V. pose proof (envelope_value_wf e j S V) as W. pose proof (envelope_value_depth e j S) as D.
  assert (F : Forall (fun f => wfj f.2 /\ json_depth f.2 <= max_nesting_depth) (envelope_fields e j)).
  { inversion W as [| | | | |fs Hfs]; subst. rewrite Forall_forall in *. intros f Hf.
    split; [by apply Hfs|]. specialize (D f Hf). cbn in D. lia. }
  unfold dec_envelope. rewrite !field_marshal, raw_field_marshal by done.
  rewrite member_version, member_kind, member_id, member_method, member_requires, member_seq, member_body.
  change (JInt (en_Version e)) with (JNum (itoa (en_Version e))) at 1. cbv iota.
  change (JNum (itoa (en_Version e))) with (JInt (en_Version e)).
  rewrite dec_uint_int by (by rewrite (ve_version e V)). cbn [result_bind dec_string].
  replace (match (if String.eqb (en_ID e) "" then None else Some (JStr (en_ID e))) with
    Some JNull | None => Ok "" | Some v => match dec_string v with Some x => Ok x | None => Err PJSON end end)
    with (Ok (en_ID e) : result perr string) by (destruct (String.eqb_spec (en_ID e) "") as [E|]; [by rewrite E|done]).
  cbn [result_bind]. destruct S as (B & _ & _ & _ & _ & _ & Q).
  replace (match match en_Requires e with [] => None | l => Some (JArr (JStr <$> l)) end with
    Some JNull | None => Ok [] | Some v => match dec_strings v with Some x => Ok x | None => Err PJSON end end)
    with (Ok (en_Requires e) : result perr (list string)).
  2: { destruct (en_Requires e) as [|x l]; [done|]. cbn [dec_strings]. by rewrite dec_string_list_strings. }
  cbn [result_bind]. rewrite Kind_of_string by apply (ve_kind e V). rewrite <- B.
  destruct e as [v k i m r [q|] b]; cbn [en_Seq fmap option_fmap option_map result_bind] in *; [|done].
  change (match JInt q with JNull => _ | _ => ?y end) with y. unfold dec_some. rewrite dec_uint_int by lia. done.
Qed.
Lemma decode_marshal_envelope e j : sendable e j -> Envelope_Validate e = Ok tt -> decodeEnvelope (marshal_envelope e) = Ok e.
Proof.
  intros S V. pose proof (proj1 (Envelope_Validate_ok e) V) as V'. pose proof (envelope_value_wf e j S V') as W.
  destruct (S) as (B & Wj & _). rewrite (marshal_envelope_value e j B Wj). unfold decodeEnvelope, DecodeBody.
  rewrite validateJSON_marshal by (done || by apply envelope_value_unique). cbn [result_bind].
  rewrite validateExactCase_marshal by (done || apply envelope_value_fits || by apply envelope_value_unique). cbn [result_bind].
  rewrite struct_members_marshal by (done || by apply object_depth, envelope_value_depth). cbn [result_bind].
  rewrite dec_envelope_fields by done. cbn [result_bind]. by rewrite V.
Qed.

(** ** Streams *)

(** The bytes a source delivers. *)
Fixpoint text (src : source) : string := match src with [] => "" | chunk :: r => chunk +:+ text r end.
Lemma take_bytes_all n s : (String.length s <= n)%nat -> take_bytes n s = s.
Proof. revert s. induction n as [|n IH]; intros [|c s] H; simpl in *; [done|lia|done|]. by rewrite IH by lia. Qed.
Lemma take_bytes_length n s : String.length (take_bytes n s) = Nat.min n (String.length s).
Proof. revert s. induction n as [|n IH]; intros [|c s]; simpl; [done..|]. by rewrite IH. Qed.
Lemma take_bytes_app_le n s t : (n <= String.length s)%nat -> take_bytes n (s +:+ t) = take_bytes n s.
Proof. revert s. induction n as [|n IH]; intros [|c s] H; simpl in *; [done..|lia|]. sapp. simpl. by rewrite IH by lia. Qed.
Lemma take_bytes_app_ge n s t : (String.length s <= n)%nat -> take_bytes n (s +:+ t) = s +:+ take_bytes (n - String.length s) t.
Proof.
  revert s. induction n as [|n IH]; intros [|c s] H; simpl in *; [done|lia|done|]. sapp. simpl. by rewrite IH by lia.
Qed.
Lemma drop_bytes_app_le n s t : (n <= String.length s)%nat -> drop_bytes n (s +:+ t) = drop_bytes n s +:+ t.
Proof. revert s. induction n as [|n IH]; intros [|c s] H; simpl in *; [done..|lia|]. sapp. simpl. by rewrite IH by lia. Qed.
Lemma drop_bytes_app_ge n s t : (String.length s <= n)%nat -> drop_bytes n (s +:+ t) = drop_bytes (n - String.length s) t.
Proof. revert s. induction n as [|n IH]; intros [|c s] H; simpl in *; [done|lia|done|]. sapp. simpl. by rewrite IH by lia. Qed.
Lemma drop_bytes_all n s : (String.length s <= n)%nat -> drop_bytes n s = "".
Proof. revert s. induction n as [|n IH]; intros [|c s] H; simpl in *; [done|lia|done|]. apply IH. lia. Qed.

(** [io.ReadFull] sees the bytes and not the chunks. *)
Lemma read_full_enough n acc src : (n <= String.length (text src))%nat ->
  exists src', read_full n acc src = (src', Ok (acc +:+ take_bytes n (text src))) /\ text src' = drop_bytes n (text src).
Proof.
  revert n acc. induction src as [|chunk src IH]; intros n acc H; cbn [text] in *.
  - destruct n; [|simpl in H; lia]. exists []. cbn. by rewrite sapp_nil.
  - destruct n as [|n]; [exists (chunk :: src); cbn; by rewrite sapp_nil|]. cbn [read_full]. set (k := S n) in *.
    destruct (Nat.leb_spec k (String.length chunk)) as [L|L].
    + rewrite take_bytes_app_le, drop_bytes_app_le by done. destruct (Nat.eqb_spec k (String.length chunk)) as [E|E].
      * eexists. split; [done|]. rewrite drop_bytes_all by lia. done.
      * eexists. split; [done|]. done.
    + rewrite sapp_length in H. destruct (IH (k - String.length chunk)%nat (acc +:+ chunk) ltac:(lia)) as (src' & E1 & E2).
      exists src'. rewrite E1, E2, take_bytes_app_ge, drop_bytes_app_ge by lia. by rewrite sapp_assoc.
Qed.
Lemma read_full_short n acc src : (String.length (text src) < n)%nat ->
  read_full n acc src = ([], Err (if String.eqb (acc +:+ text src) "" then PEOF else PUnexpectedEOF)).
Proof.
  revert n acc. induction src as [|chunk src IH]; intros n acc H; cbn [text] in *;
    (destruct n as [|n]; [lia|]).
  - cbn. by rewrite sapp_nil.
  - cbn [read_full]. set (k := S n) in *. rewrite sapp_length in H. destruct (Nat.leb_spec k (String.length chunk)) as [L|L]; [lia|].
    rewrite IH by lia. by rewrite sapp_assoc.
Qed.

Lemma put_uint32_length n : String.length (put_uint32 n) = 4%nat.
Proof. done. Qed.
Lemma uint32_put n : 0 <= n < 2 ^ 32 -> uint32 (put_uint32 n) = n.
Proof.
  intros H. unfold uint32, put_uint32. cbn [fmap list_fmap of_bytes bytes foldl]. rewrite !code_chr by (apply Z.mod_pos_bound; lia).
  rewrite (Z.mod_small (n / 16777216)) by (split; [apply Z.div_pos; lia|apply Z.div_lt_upper_bound; lia]).
  change 16777216 with (256 * 256 * 256). change 65536 with (256 * 256). rewrite <- !Z.div_div by lia.
  pose proof (Z.div_mod n 256 ltac:(lia)). pose proof (Z.div_mod (n / 256) 256 ltac:(lia)).
  pose proof (Z.div_mod (n / 256 / 256) 256 ltac:(lia)). lia.
Qed.
Lemma uint32_bounds s : String.length s = 4%nat -> 0 <= uint32 s < 2 ^ 32.
Proof.
  destruct s as [|a [|b [|c [|d []]]]]; try done. intros _. unfold uint32. cbn [bytes foldl].
  pose proof (code_bounds a). pose proof (code_bounds b). pose proof (code_bounds c). pose proof (code_bounds d). lia.
Qed.

(** [Read] on a stream that starts with a whole frame. *)
Definition frame (body : string) : string := put_uint32 (len body) +:+ body.
Lemma MaxFrameBytes_value : MaxFrameBytes = 8388608.
Proof. done. Qed.
Lemma Read_frame maximum body rest src : 1 <= len body <= reader_maximum maximum -> text src = frame body +:+ rest ->
  exists src', Read (reader_maximum maximum) src
    = (src', if utf8_valid body then decodeEnvelope body else Err PInvalidUTF8) /\ text src' = rest.
Proof.
  intros [L1 L2] E. unfold frame in E. rewrite sapp_assoc in E. unfold Read.
  assert (R : reader_maximum maximum <= MaxFrameBytes) by (unfold reader_maximum; lia). rewrite MaxFrameBytes_value in R.
  destruct (read_full_enough 4 "" src) as (src1 & E1 & E2); [rewrite E, sapp_length, put_uint32_length; lia|].
  rewrite E1, E. rewrite E in E2. rewrite <- (put_uint32_length (len body)) in E2 at 1. rewrite drop_bytes_app in E2.
  assert (T : take_bytes 4 (put_uint32 (len body) +:+ body +:+ rest) = put_uint32 (len body))
    by (rewrite <- (put_uint32_length (len body)) at 1; apply take_bytes_app).
  rewrite T, sapp_empty, uint32_put by lia.
  rewrite (proj2 (Z.eqb_neq _ _)), (proj2 (Z.ltb_ge _ _)) by lia.
  destruct (read_full_enough (Z.to_nat (len body)) "" src1) as (src2 & E3 & E4); [rewrite E2, sapp_length; unfold len; lia|].
  exists src2. rewrite E3, E4, E2. unfold len. by rewrite Nat2Z.id, take_bytes_app, drop_bytes_app.
Qed.

(** ** Writing *)

(** What a connection took, whatever it accepts at a time: a prefix, and all of it
    when there is no error. *)
Definition took (c c' : conn) (r : result perr unit) (t : string) : Prop :=
  exists n, out c' = out c +:+ take_bytes n t /\ (r = Ok tt -> (String.length t <= n)%nat).
Lemma take_bytes_0 t : take_bytes 0 t = "".
Proof. by destruct t. Qed.
Lemma take_bytes_add n m t : take_bytes n t +:+ take_bytes m (drop_bytes n t) = take_bytes (n + m) t.
Proof.
  revert t. induction n as [|n IH]; intros [|c t]; [done|done|by destruct m|].
  cbn [take_bytes drop_bytes Nat.add]. sapp. by rewrite IH.
Qed.
Lemma write_full_took fuel c body c' r : (String.length body < fuel)%nat -> write_full fuel c body = (c', r) -> took c c' r body.
Proof.
  induction fuel as [|fuel IH] in c, body |- *; [lia|]. intros Hf. cbn [write_full].
  destruct (String.eqb_spec body "") as [->|Hb]; [intros [= <- <-]; exists 0%nat; rewrite take_bytes_0, sapp_nil; done|].
  destruct (conn_write c body) as [c1 [count err]] eqn:Ew.
  assert (O1 : out c1 = out c +:+ take_bytes (Z.to_nat count) body).
  { unfold conn_write in Ew. destruct (script c) as [|[n e] s]; injection Ew as <- <- <-; cbn [out]; [|done].
    unfold len. by rewrite Nat2Z.id, take_bytes_all. }
  destruct (_ || _) eqn:B; [intros [= <- <-]; by exists (Z.to_nat count)|]. destruct err as [e|]; [intros [= <- <-]; by exists (Z.to_nat count)|].
  bool_props. destruct (Z.eqb_spec count 0) as [E|E]; [intros [= <- <-]; by exists (Z.to_nat count)|].
  intros Hw. apply IH in Hw as (n & O2 & Hr).
  - exists (Z.to_nat count + n)%nat. split; [by rewrite O2, O1, sapp_assoc, take_bytes_add|].
    intros Er. specialize (Hr Er). rewrite drop_bytes_length in Hr. lia.
  - rewrite drop_bytes_length. destruct body; [done|]. simpl in *. lia.
Qed.
Lemma writeFull_took c body c' r : writeFull c body = (c', r) -> took c c' r body.
Proof. apply write_full_took. lia. Qed.
Lemma took_nothing c r t : r <> Ok tt -> took c c r t.
Proof. intros H. exists 0%nat. by rewrite take_bytes_0, sapp_nil. Qed.
Lemma Write_took c e c' r : Write c e = (c', r) -> took c c' r (frame (marshal_envelope e)).
Proof.
  unfold Write. destruct (Envelope_Validate e); [|intros [= <- <-]; by apply took_nothing].
  destruct (String.eqb _ ""); [intros [= <- <-]; by apply took_nothing|].
  destruct (MaxFrameBytes <? _); [intros [= <- <-]; by apply took_nothing|].
  set (body := marshal_envelope e). unfold frame.
  destruct (writeFull c (put_uint32 (len body))) as [c1 r1] eqn:E1. apply writeFull_took in E1 as (n & O1 & H1).
  destruct r1 as [[]|err]; intros H.
  - apply writeFull_took in H as (m & O2 & H2). specialize (H1 eq_refl). rewrite take_bytes_all in O1 by done.
    exists (String.length (put_uint32 (len body)) + m)%nat. rewrite take_bytes_app_ge by lia.
    rewrite O2, O1, sapp_assoc. split; [by repeat f_equal; lia|]. intros Er. specialize (H2 Er). rewrite sapp_length. lia.
  - injection H as <- <-. exists (Nat.min n 4). split; [|done].
    rewrite take_bytes_app_le by (rewrite put_uint32_length; lia). rewrite O1. f_equal.
    destruct (Nat.le_gt_cases n 4); [by rewrite Nat.min_l|].
    rewrite Nat.min_r by lia. by rewrite !take_bytes_all by (rewrite put_uint32_length; lia).
Qed.
Lemma Write_ok c e c' : Write c e = (c', Ok tt) ->
  Envelope_Validate e = Ok tt /\ 1 <= len (marshal_envelope e) <= MaxFrameBytes /\ out c' = out c +:+ frame (marshal_envelope e).
Proof.
  intros H. destruct (Write_took _ _ _ _ H) as (n & O & F). rewrite take_bytes_all in O by auto. revert H. unfold Write.
  destruct (Envelope_Validate e) as [[]|]; [|done]. destruct (String.eqb_spec (marshal_envelope e) "") as [|N]; [done|].
  destruct (Z.ltb_spec MaxFrameBytes (len (marshal_envelope e))); [done|]. intros _. split_and!; [done| |done|done].
  unfold len. destruct (marshal_envelope e); [done|]. simpl. lia.
Qed.
(** A connection that accepts everything. *)
Lemma writeFull_open c body : script c = [] -> exists c', writeFull c body = (c', Ok tt) /\ script c' = [].
Proof.
  intros S. unfold writeFull. cbn [write_full]. destruct (String.eqb_spec body "") as [->|N]; [by exists c|].
  unfold conn_write. rewrite S. assert (P : 0 < len body) by (unfold len; destruct body; [done|simpl; lia]).
  rewrite Z.ltb_irrefl, (proj2 (Z.ltb_ge _ _)), (proj2 (Z.eqb_neq _ _)) by lia. cbn [orb].
  assert (drop_bytes (Z.to_nat (len body)) body = "") as ->.
  { pose proof (drop_bytes_length (Z.to_nat (len body)) body) as L. unfold len in *. rewrite Nat2Z.id, Nat.sub_diag in *.
    by destruct (drop_bytes _ body). }
  destruct (String.length body) eqn:E; [unfold len in P; lia|]. cbn. by eexists.
Qed.
Lemma marshal_envelope_nonempty e : marshal_envelope e <> "".
Proof. unfold marshal_envelope, envelope_json. cbn. intros H%(f_equal String.length). rewrite !sapp_length in H. simpl in H. lia. Qed.
Lemma Write_open c e : script c = [] -> Envelope_Validate e = Ok tt -> (MaxFrameBytes <? len (marshal_envelope e)) = false ->
  (Write c e).2 = Ok tt /\ script (Write c e).1 = [].
Proof.
  intros S V F. unfold Write. rewrite V, F. rewrite (proj2 (String.eqb_neq _ _)) by apply marshal_envelope_nonempty.
  destruct (writeFull_open c (put_uint32 (len (marshal_envelope e))) S) as (c1 & -> & S1).
  by destruct (writeFull_open c1 (marshal_envelope e) S1) as (c2 & -> & S2).
Qed.

(** Several frames, one after the other. *)
Fixpoint write_all (c : conn) (es : list Envelope) : conn * result perr unit :=
  match es with
  | [] => (c, Ok tt)
  | e :: r => match Write c e with (c, Ok _) => write_all c r | (c, Err err) => (c, Err err) end
  end.
Fixpoint read_all (maximum : Z) (n : nat) (src : source) : source * result perr (list Envelope) :=
  match n with
  | O => (src, Ok [])
  | S n =>
      match Read maximum src with
      | (src, Err err) => (src, Err err)
      | (src, Ok e) => match read_all maximum n src with (src, Ok l) => (src, Ok (e :: l)) | (src, Err err) => (src, Err err) end
      end
  end.
Lemma write_all_out es c c' r : write_all c es = (c', r) -> exists t, out c' = out c +:+ t.
Proof.
  induction es as [|e es IH] in c |- *; cbn [write_all]; [intros [= <- _]; exists ""; by rewrite sapp_nil|].
  destruct (Write c e) as [c1 r1] eqn:E. apply Write_took in E as (n & O & _). destruct r1; intros H.
  - apply IH in H as [t O2]. rewrite O2, O, sapp_assoc. eauto.
  - injection H as <- _. eauto.
Qed.
Lemma sapp_inj_l a b c : a +:+ b = a +:+ c -> b = c.
Proof. induction a as [|x a IH]; [done|]. rewrite !sapp_cons. intros [= H]. auto. Qed.
Lemma frame_read_back e j maximum src rest : sendable e j -> Envelope_Validate e = Ok tt ->
  1 <= len (marshal_envelope e) <= reader_maximum maximum -> text src = frame (marshal_envelope e) +:+ rest ->
  exists src', Read (reader_maximum maximum) src = (src', Ok e) /\ text src' = rest.
Proof.
  intros S V L E. destruct (Read_frame maximum _ rest src L E) as (src' & R & T). exists src'. split; [|done]. rewrite R.
  pose proof (envelope_value_wf e j S (proj1 (Envelope_Validate_ok e) V)) as W.
  rewrite utf8_valid_complete by (destruct S as (B & Wj & _); rewrite (marshal_envelope_value e j B Wj); by apply utf8_marshal).
  by rewrite (decode_marshal_envelope e j).
Qed.

(** ** The handshake *)

Definition is_hello (e : Envelope) : bool := bool_decide (en_Kind e = KindRequest) && String.eqb (en_Method e) "hello".
(** A hello that a peer of these capabilities can talk to. *)
Definition negotiates (capabilities : list string) (e : Envelope) : Prop :=
  is_hello e = true /\ Forall (fun c => c ∈ capabilities) (en_Requires e) /\
  exists h, DecodeBody hello_type dec_hello Hello_Validate (en_Body e) = Ok h /\ he_MinVersion h <= Version <= he_MaxVersion h.
(** The messages of a sequence that a peer lets through. *)
Fixpoint accepted (st : HandshakeState) (es : list Envelope) : list Envelope :=
  match es with
  | [] => []
  | e :: r => let '(st', res) := Accept st e in match res with Ok _ => e :: accepted st' r | Err _ => accepted st' r end
  end.
Lemma forallb_subset l m : forallb (fun c => existsb (String.eqb c) m) l = true -> Forall (fun c => c ∈ m) l.
Proof.
  intros H. apply Forall_forall. intros c Hc. rewrite forallb_forall in H. apply list_elem_of_In, H, existsb_exists in Hc as (d & Hd & ->%String.eqb_eq).
  by apply list_elem_of_In.
Qed.
Lemma Accept_before caps e st' r : Accept {| hs_capabilities := caps; hs_complete := false |} e = (st', r) ->
  (exists err, r = Err err) /\ st' = {| hs_capabilities := caps; hs_complete := false |} \/
  r = Ok tt /\ valid_envelope e /\ negotiates caps e /\ st' = {| hs_capabilities := caps; hs_complete := true |}.
Proof.
  unfold Accept. destruct (Envelope_Validate e) as [[]|] eqn:V; [|intros [= <- <-]; eauto]. apply Envelope_Validate_ok in V.
  cbn [hs_complete hs_capabilities]. fold (is_hello e). destruct (is_hello e) eqn:H; cbn [negb]; [|intros [= <- <-]; eauto].
  destruct (forallb _ _) eqn:F; cbn [negb]; [|intros [= <- <-]; eauto]. apply forallb_subset in F.
  destruct (DecodeBody _ _ _ _) as [h|] eqn:D; [|intros [= <- <-]; eauto].
  destruct (Hello_Validate h); [|intros [= <- <-]; eauto].
  destruct (_ || _) eqn:B; [intros [= <- <-]; eauto|]. bool_props. intros [= <- <-]. right. split_and!; [done|done| |done].
  split_and!; [done|done|]. exists h. split; [done|lia].
Qed.
Lemma Accept_after caps e : let st := {| hs_capabilities := caps; hs_complete := true |} in
  (Accept st e).1 = st /\ ((Accept st e).2 = Ok tt -> valid_envelope e /\ is_hello e = false).
Proof.
  unfold Accept. destruct (Envelope_Validate e) as [[]|] eqn:V; [|done]. apply Envelope_Validate_ok in V.
  cbn [hs_complete]. fold (is_hello e). by destruct (is_hello e).
Qed.
Lemma accepted_after caps es :
  Forall (fun e => valid_envelope e /\ is_hello e = false) (accepted {| hs_capabilities := caps; hs_complete := true |} es).
Proof.
  induction es as [|e es IH]; [constructor|]. cbn [accepted]. destruct (Accept_after caps e) as [E1 E2].
  destruct (Accept _ e) as [st' r]. cbn [fst snd] in *. subst st'. destruct r as [[]|]; [constructor; auto|done].
Qed.

(** ** Properties *)

(** C38: Envelopes arrive as they were sent.  When a writer wrote a sequence of
    envelopes without an error, in whatever parts the connection took the bytes,
    a reader of these bytes, in whatever chunks it receives them, returns the same
    envelopes in the same order and stops exactly where they end, provided their
    texts are UTF-8, their bodies were marshalled and no frame exceeds the
    reader's maximum. *)
Theorem frame_stream_round_trip maximum es js c c' src rest :
  Forall2 sendable es js ->
  write_all c es = (c', Ok tt) ->
  Forall (fun e => len (marshal_envelope e) <= maximum) es ->
  out c +:+ text src = out c' +:+ rest ->
  exists src', read_all (reader_maximum maximum) (length es) src = (src', Ok es) /\ text src' = rest.
Proof.
  intros S. induction S as [|e j es js Hs S IH] in c, src |- *; cbn [write_all length read_all]; intros H F E.
  - injection H as ->. apply sapp_inj_l in E. eauto.
  - apply Forall_cons in F as [Fe F]. destruct (Write c e) as [c1 [[]|]] eqn:W; [|done].
    apply Write_ok in W as (V & L & O). destruct (write_all_out _ _ _ _ H) as [t Ot].
    rewrite Ot, O, !sapp_assoc in E. apply sapp_inj_l in E.
    destruct (frame_read_back e j maximum src (t +:+ rest) Hs V ltac:(unfold reader_maximum; lia) E) as (src1 & R & T).
    destruct (IH c1 src1 H F) as (src2 & R2 & T2); [by rewrite T, Ot, sapp_assoc|].
    exists src2. by rewrite R, R2.
Qed.

(** A writer puts at most the frame on the stream.  Whatever the connection
    accepts, refuses or miscounts, what a [Write] adds to the stream is a prefix of
    the frame of its envelope, and it is the whole frame whenever [Write] returns
    no error; then the envelope was valid and its length was between one and the
    protocol's maximum. *)
Theorem write_prefix_of_frame c e c' r : Write c e = (c', r) ->
  (exists n, out c' = out c +:+ take_bytes n (frame (marshal_envelope e))) /\
  (r = Ok tt -> out c' = out c +:+ frame (marshal_envelope e) /\ Envelope_Validate e = Ok tt /\
                1 <= len (marshal_envelope e) <= MaxFrameBytes).
Proof.
  intros H. split; [destruct (Write_took _ _ _ _ H) as (n & O & _); eauto|]. intros ->. apply Write_ok in H as (V & L & O). auto.
Qed.

(** A reader takes no more than it was allowed.  An envelope that [Read]
    returns is valid and was framed with its exact length, which is positive and
    within both the reader's and the protocol's maximum; a frame that announces
    zero bytes or more than the maximum is refused after its four length bytes,
    before any of its body is read. *)
Theorem read_within_bounds maximum src :
  (forall src' e, Read (reader_maximum maximum) src = (src', Ok e) ->
     exists prefix body, text src = prefix +:+ body +:+ text src' /\ String.length prefix = 4%nat /\ uint32 prefix = len body /\
       1 <= len body /\ len body <= maximum /\ len body <= MaxFrameBytes /\
       utf8_valid body = true /\ decodeEnvelope body = Ok e /\ valid_envelope e) /\
  (forall prefix rest, text src = prefix +:+ rest -> String.length prefix = 4%nat ->
     uint32 prefix = 0 \/ maximum < uint32 prefix \/ MaxFrameBytes < uint32 prefix ->
     exists src' err, Read (reader_maximum maximum) src = (src', Err err) /\ text src' = rest).
Proof.
  split.
  - intros src' e. unfold Read. destruct (Nat.le_gt_cases 4 (String.length (text src))) as [L|L]; [|by rewrite read_full_short].
    destruct (read_full_enough 4 "" src L) as (src1 & E1 & T1). rewrite E1, sapp_empty. set (prefix := take_bytes 4 (text src)) in *.
    assert (Lp : String.length prefix = 4%nat) by (unfold prefix; rewrite take_bytes_length; lia).
    pose proof (uint32_bounds prefix Lp) as B. destruct (Z.eqb_spec (uint32 prefix) 0) as [|N]; [done|].
    destruct (Z.ltb_spec (reader_maximum maximum) (uint32 prefix)) as [|M]; [done|]. unfold reader_maximum in M.
    destruct (Nat.le_gt_cases (Z.to_nat (uint32 prefix)) (String.length (text src1))) as [L1|L1]; [|by rewrite read_full_short].
    destruct (read_full_enough _ "" src1 L1) as (src2 & E2 & T2). rewrite E2, sapp_empty. set (body := take_bytes _ (text src1)) in *.
    assert (Lb : len body = uint32 prefix) by (unfold len, body; rewrite take_bytes_length; lia).
    destruct (utf8_valid body) eqn:U; [|done]. intros [= <- D]. exists prefix, body.
    split_and!; [|done|done|lia|lia|lia|done|done|].
    + rewrite T2. unfold body, prefix. by rewrite take_drop_bytes, T1, take_drop_bytes.
    + apply Envelope_Validate_ok. unfold decodeEnvelope, DecodeBody in D.
      destruct (validateJSON body), (validateExactCase envelope_type body), (struct_members body) as [l|]; try done. cbn [result_bind] in D.
      destruct (dec_envelope l) as [x|]; [|done]. cbn [result_bind] in D. by destruct (Envelope_Validate x) as [[]|] eqn:V; [injection D as <-|].
  - intros prefix rest E Lp H. unfold Read. destruct (read_full_enough 4 "" src) as (src1 & E1 & T1); [rewrite E, sapp_length; lia|].
    rewrite E1, E. rewrite E in T1. rewrite <- Lp in T1 at 1. rewrite drop_bytes_app in T1.
    replace (take_bytes 4 (prefix +:+ rest)) with prefix by (rewrite <- Lp; by rewrite take_bytes_app). rewrite sapp_empty.
    destruct (Z.eqb_spec (uint32 prefix) 0) as [|N]; [eauto|].
    destruct (Z.ltb_spec (reader_maximum maximum) (uint32 prefix)) as [|M]; [eauto|]. unfold reader_maximum in M. lia.
Qed.

(** C39: Strict decoding accepts exactly the intended objects.  For the text of any
    value with UTF-8 strings and integers, both scans pass if and only if no object
    in it, at any depth, has a key twice and every object that is decoded into a
    struct has only members with the exact name of a field and of its shape. *)
Theorem strict_decoding_exact ty j : wfj j ->
  (validateJSON (marshal j) = Ok tt /\ validateExactCase ty (marshal j) = Ok tt) <->
  (keys_unique j = true /\ fits ty j = true).
Proof.
  intros W. pose proof (validateJSON_scan j W) as V. pose proof (validateExactCase_scan ty j W) as X. split.
  - intros [H1 H2]. destruct (keys_unique j); [|destruct V as [k V]; congruence]. split; [done|]. specialize (X eq_refl).
    destruct (fits ty j); [done|]. destruct X as [e X]. congruence.
  - intros [H1 H2]. rewrite H1 in V. specialize (X H1). by rewrite H2 in X.
Qed.

(** A session begins with one hello.  Of any sequence of messages the
    handshake lets through either nothing, or first a hello request whose
    capabilities this side has and whose version range includes this version, and
    after it only valid messages none of which is a hello. *)
Theorem handshake_first_and_once capabilities es :
  match accepted (NewHandshakeState capabilities) es with
  | [] => True
  | h :: r => valid_envelope h /\ negotiates capabilities h /\ Forall (fun e => valid_envelope e /\ is_hello e = false) r
  end.
Proof.
  unfold NewHandshakeState. induction es as [|e es IH]; [done|]. cbn [accepted].
  destruct (Accept _ e) as [st' r] eqn:A. apply Accept_before in A as [[[err ->] ->]|(-> & V & N & ->)]; [exact IH|].
  split_and!; [done|done|apply accepted_after].
Qed.

(** ** Instances *)

Definition demo_body : json := JObj [("minVersion", JInt 1); ("maxVersion", JInt 1); ("lastAppliedSeq", JInt 41)].
Lemma demo_wf : wfj demo_body.
Proof. unfold demo_body. constructor. repeat (constructor; [split; [by apply utf8_text|constructor]|]). constructor. Qed.
Lemma demo_sendable : sendable demo_envelope demo_body.
Proof.
  unfold sendable. split_and!; [vm_compute; reflexivity|apply demo_wf|vm_compute; reflexivity|vm_compute; reflexivity|by apply utf8_text| |done].
  constructor; [|constructor]. apply utf8_valid_utf8. vm_compute. reflexivity.
Qed.
Definition demo_conn : conn := {| out := "<"; script := [(2, None); (1, None)] |}.
Definition demo_stream : string := out (write_all demo_conn [demo_envelope; demo_envelope]).1.

Lemma frame_stream_round_trip_witness :
  write_all demo_conn [demo_envelope; demo_envelope] = ({| out := demo_stream; script := [] |}, Ok tt) /\
  exists src', read_all (reader_maximum 500) 2 [take_bytes 7 (drop_bytes 1 demo_stream); drop_bytes 8 demo_stream; "!"]
               = (src', Ok [demo_envelope; demo_envelope]) /\ text src' = "!".
Proof.
  split; [vm_compute; reflexivity|].
  apply (frame_stream_round_trip 500 [demo_envelope; demo_envelope] [demo_body; demo_body] demo_conn {| out := demo_stream; script := [] |}).
  - constructor; [apply demo_sendable|]. constructor; [apply demo_sendable|constructor].
  - vm_compute. reflexivity.
  - assert (L : bool_decide (len (marshal_envelope demo_envelope) <= 500) = true) by (vm_compute; reflexivity).
    apply bool_decide_eq_true_1 in L. by repeat constructor.
  - vm_compute. reflexivity.
Defined.
Definition failing_conn : conn := {| out := ""; script := [(4, None); (10, Some (PIO "closed"))] |}.
Lemma write_prefix_of_frame_witness :
  (exists n, out (Write failing_conn demo_envelope).1 = "" +:+ take_bytes n (frame (marshal_envelope demo_envelope))) /\
  len (out (Write failing_conn demo_envelope).1) = 14.
Proof.
  split; [|vm_compute; reflexivity].
  apply (proj1 (write_prefix_of_frame failing_conn demo_envelope _ _ (surjective_pairing (Write failing_conn demo_envelope)))).
Defined.
Lemma read_within_bounds_witness :
  Read (reader_maximum 500) [drop_bytes 1 demo_stream] = ([drop_bytes 1 (drop_bytes (String.length demo_stream / 2) demo_stream)], Ok demo_envelope) /\
  exists src' err, Read (reader_maximum 20) [drop_bytes 1 demo_stream] = (src', Err err) /\ text src' = drop_bytes 5 demo_stream.
Proof.
  split; [vm_compute; reflexivity|].
  apply (proj2 (read_within_bounds 20 [drop_bytes 1 demo_stream]) (take_bytes 4 (drop_bytes 1 demo_stream))).
  - vm_compute. reflexivity.
  - vm_compute. reflexivity.
  - right. left. apply Z.ltb_lt. vm_compute. reflexivity.
Defined.
Lemma strict_decoding_exact_witness :
  wfj demo_body /\ validateJSON (marshal demo_body) = Ok tt /\ validateExactCase hello_type (marshal demo_body) = Ok tt.
Proof.
  split; [apply demo_wf|]. apply (proj2 (strict_decoding_exact hello_type demo_body demo_wf)). split; vm_compute; reflexivity.
Defined.
Example handshake_demo :
  accepted (NewHandshakeState ["协作"]) [demo_envelope; demo_envelope] = [demo_envelope].
Proof. vm_compute. reflexivity. Qed.
