(* ===== verification/Messages.v ===== *)
(** * Messages of the protocol ([internal/protocol/messages.go])

    The bodies of requests and of what the server answers: their types, decoders,
    validators and JSON. *)
From S2P Require Import Prelude GoStrings Json RoomTypes StrictJson Wire.

(** ** Requests *)

Definition room_check (r : result error unit) : result perr unit := match r with Ok _ => Ok tt | Err e => Err (PRoom e) end.

Record SubmitRequest := { sq_TaskID : Z; sq_ClientMessageID : string; sq_Text : string }.
Definition submit_input (q : SubmitRequest) : SubmitInput :=
  {| si_TaskID := sq_TaskID q; si_ClientMessageID := sq_ClientMessageID q; si_Text := sq_Text q |}.
Definition SubmitRequest_Validate (q : SubmitRequest) : result perr unit := room_check (SubmitInput_Validate (submit_input q)).
Definition submit_type : jtype := TyStruct [("taskId", TyScalar); ("clientMessageId", TyScalar); ("text", TyScalar)].
Definition dec_submit (l : list (string * string)) : result perr SubmitRequest :=
  let? t := field (dec_int 64) 0 "taskId" l in
  let? c := field dec_string "" "clientMessageId" l in
  let? x := field dec_string "" "text" l in
  Ok {| sq_TaskID := t; sq_ClientMessageID := c; sq_Text := x |}.
Definition DecodeSubmit : string -> result perr SubmitRequest := DecodeBody submit_type dec_submit SubmitRequest_Validate.

Definition SteerRequest_Validate (q : SteerInput) : result perr unit := room_check (SteerInput_Validate q).
Definition steer_type : jtype := TyStruct [("clientMessageId", TyScalar); ("expectedTurnId", TyScalar); ("text", TyScalar)].
Definition dec_steer (l : list (string * string)) : result perr SteerInput :=
  let? c := field dec_string "" "clientMessageId" l in
  let? t := field dec_string "" "expectedTurnId" l in
  let? x := field dec_string "" "text" l in
  Ok {| st_ClientMessageID := c; st_ExpectedTurnID := t; st_Text := x |}.
Definition DecodeSteer : string -> result perr SteerInput := DecodeBody steer_type dec_steer SteerRequest_Validate.

Definition CancelRequest_Validate (q : CancelInput) : result perr unit := room_check (CancelInput_Validate q).
Definition cancel_type : jtype := TyStruct [("clientMessageId", TyScalar); ("expectedTurnId", TyScalar)].
Definition dec_cancel (l : list (string * string)) : result perr CancelInput :=
  let? c := field dec_string "" "clientMessageId" l in
  let? t := field dec_string "" "expectedTurnId" l in
  Ok {| ca_ClientMessageID := c; ca_ExpectedTurnID := t |}.
Definition DecodeCancel : string -> result perr CancelInput := DecodeBody cancel_type dec_cancel CancelRequest_Validate.

(** [room.RecoveryAction(request.Action)] *)
Definition recovery_action (s : string) : RecoveryAction :=
  if String.eqb s "retry" then RecoveryRetry else if String.eqb s "continue" then RecoveryContinue
  else if String.eqb s "skip" then RecoverySkip else RecoveryOther s.
Definition RecoverRequest_Validate (q : RecoverInput) : result perr unit := room_check (RecoverInput_Validate q).
Definition recover_type : jtype :=
  TyStruct [("clientMessageId", TyScalar); ("targetMessageId", TyScalar); ("action", TyScalar); ("replacementMessageId", TyScalar);
            ("instruction", TyScalar)].
Definition dec_recover (l : list (string * string)) : result perr RecoverInput :=
  let? c := field dec_string "" "clientMessageId" l in
  let? t := field dec_string "" "targetMessageId" l in
  let? a := field dec_string "" "action" l in
  let? r := field dec_string "" "replacementMessageId" l in
  let? i := field dec_string "" "instruction" l in
  Ok {| ri_ClientMessageID := c; ri_TargetMessageID := t; ri_Action := recovery_action a; ri_ReplacementMessageID := r; ri_Instruction := i |}.
Definition DecodeRecover : string -> result perr RecoverInput := DecodeBody recover_type dec_recover RecoverRequest_Validate.

Definition no_validator {T} (_ : T) : result perr unit := Ok tt.
Definition ack_type : jtype := TyStruct [("seq", TyScalar)].
Definition DecodeAck : string -> result perr Z := DecodeBody ack_type (field (dec_uint 64) 0 "seq") no_validator.
Definition heartbeat_type : jtype := TyStruct [("unixMilli", TyScalar)].
Definition DecodeHeartbeat : string -> result perr Z := DecodeBody heartbeat_type (field (dec_int 64) 0 "unixMilli") no_validator.
Definition DecodeEmpty : string -> result perr unit := DecodeBody (TyStruct []) (fun _ => Ok tt) no_validator.
Definition DecodeHello : string -> result perr Hello := DecodeBody hello_type dec_hello Hello_Validate.

(** ** Answers *)

Definition heartbeat_json (t : Z) : json := JObj [("unixMilli", JInt t)].
Definition ack_json (seq : Z) : json := JObj [("seq", JInt seq)].

Record Welcome :=
  { we_RoomID : string; we_RoomName : string; we_ProjectRoot : string; we_ExecutionOwner : string; we_FullOwnerAccess : bool;
    we_ActiveTurnID : string; we_LatestSeq : Z }.
Definition welcome_json (w : Welcome) : json :=
  JObj ([("roomId", JStr (we_RoomID w)); ("roomName", JStr (we_RoomName w)); ("projectRoot", JStr (we_ProjectRoot w));
         ("executionOwner", JStr (we_ExecutionOwner w)); ("fullOwnerAccess", JBool (we_FullOwnerAccess w))]
        ++ optional_string "activeTurnId" (we_ActiveTurnID w) ++ [("latestSeq", JInt (we_LatestSeq w))]).
Definition Welcome_Validate (w : Welcome) : result perr unit :=
  pcheck (negb (blank (we_RoomID w) || blank (we_RoomName w) || blank (we_ProjectRoot w) || blank (we_ExecutionOwner w))) PInvalidWelcome.

Record RuntimeSnapshot :=
  { rn_ProjectionTruncated : bool; rn_ProjectionRevision : Z; rn_DurableWatermark : Z; rn_LiveItems : list LiveItemSnapshot;
    rn_ActiveTurnID : string }.
(** [LiveItem] *)
Definition live_item_json (i : LiveItemSnapshot) : json :=
  JObj [("threadId", JStr (li_ThreadID i)); ("turnId", JStr (li_TurnID i)); ("itemId", JStr (li_ItemID i)); ("partial", JStr (li_Partial i))].
Definition runtime_snapshot_json (s : RuntimeSnapshot) : json :=
  JObj [("projectionTruncated", JBool (rn_ProjectionTruncated s)); ("projectionRevision", JInt (rn_ProjectionRevision s));
        ("durableWatermark", JInt (rn_DurableWatermark s)); ("liveItems", JArr (live_item_json <$> rn_LiveItems s));
        ("activeTurnId", JStr (rn_ActiveTurnID s))].

(** The decoders of a client. *)
Definition welcome_type : jtype :=
  TyStruct [("roomId", TyScalar); ("roomName", TyScalar); ("projectRoot", TyScalar); ("executionOwner", TyScalar);
            ("fullOwnerAccess", TyScalar); ("activeTurnId", TyScalar); ("latestSeq", TyScalar)].
Definition dec_welcome (l : list (string * string)) : result perr Welcome :=
  let? i := field dec_string "" "roomId" l in
  let? n := field dec_string "" "roomName" l in
  let? p := field dec_string "" "projectRoot" l in
  let? o := field dec_string "" "executionOwner" l in
  let? f := field dec_bool false "fullOwnerAccess" l in
  let? a := field dec_string "" "activeTurnId" l in
  let? s := field (dec_uint 64) 0 "latestSeq" l in
  Ok {| we_RoomID := i; we_RoomName := n; we_ProjectRoot := p; we_ExecutionOwner := o; we_FullOwnerAccess := f;
        we_ActiveTurnID := a; we_LatestSeq := s |}.
Definition DecodeWelcome : string -> result perr Welcome := DecodeBody welcome_type dec_welcome Welcome_Validate.
Definition live_item_type : jtype :=
  TyStruct [("threadId", TyScalar); ("turnId", TyScalar); ("itemId", TyScalar); ("partial", TyScalar)].
(** A string among the members of an object. *)
Definition member_string (name : string) (ms : list (string * json)) : option string :=
  match first_key name ms with None | Some JNull => Some "" | Some j => dec_string j end.
Definition dec_live_item (j : json) : option LiveItemSnapshot :=
  match j with
  | JNull => Some {| li_ThreadID := ""; li_TurnID := ""; li_ItemID := ""; li_Partial := "" |}
  | JObj ms =>
      th ← member_string "threadId" ms; tu ← member_string "turnId" ms; it ← member_string "itemId" ms; pa ← member_string "partial" ms;
      Some {| li_ThreadID := th; li_TurnID := tu; li_ItemID := it; li_Partial := pa |}
  | _ => None
  end.
Definition dec_live_items (j : json) : option (list LiveItemSnapshot) :=
  match j with JArr l => mapM dec_live_item l | _ => None end.
Definition runtime_snapshot_type : jtype :=
  TyStruct [("projectionTruncated", TyScalar); ("projectionRevision", TyScalar); ("durableWatermark", TyScalar);
            ("liveItems", TySlice live_item_type); ("activeTurnId", TyScalar)].
Definition dec_runtime_snapshot (l : list (string * string)) : result perr RuntimeSnapshot :=
  let? t := field dec_bool false "projectionTruncated" l in
  let? r := field (dec_uint 64) 0 "projectionRevision" l in
  let? d := field (dec_uint 64) 0 "durableWatermark" l in
  let? i := field dec_live_items [] "liveItems" l in
  let? a := field dec_string "" "activeTurnId" l in
  Ok {| rn_ProjectionTruncated := t; rn_ProjectionRevision := r; rn_DurableWatermark := d; rn_LiveItems := i; rn_ActiveTurnID := a |}.
Definition DecodeRuntimeSnapshot : string -> result perr RuntimeSnapshot := DecodeBody runtime_snapshot_type dec_runtime_snapshot no_validator.
(** [room.TransientEvent], whose fields have no tags. *)
Definition transient_type : jtype :=
  TyStruct [("Revision", TyScalar); ("Kind", TyScalar); ("ThreadID", TyScalar); ("TurnID", TyScalar); ("ItemID", TyScalar); ("Delta", TyScalar)].
Definition dec_transient (l : list (string * string)) : result perr TransientEvent :=
  let? r := field (dec_uint 64) 0 "Revision" l in
  let? k := field dec_string "" "Kind" l in
  let? th := field dec_string "" "ThreadID" l in
  let? tu := field dec_string "" "TurnID" l in
  let? it := field dec_string "" "ItemID" l in
  let? d := field dec_string "" "Delta" l in
  Ok {| te_Revision := r; te_Kind := k; te_ThreadID := th; te_TurnID := tu; te_ItemID := it; te_Delta := d |}.
Definition DecodeTransient : string -> result perr TransientEvent := DecodeBody transient_type dec_transient no_validator.

Example submit_body : DecodeSubmit (bq "{`clientMessageId`:`0123456789abcdef0123456789abcdef`,`text`:`hi`}")
  = Ok {| sq_TaskID := 0; sq_ClientMessageID := "0123456789abcdef0123456789abcdef"; sq_Text := "hi" |}.
Proof. vm_compute. reflexivity. Qed.
Example unknown_field : DecodeEmpty (bq "{`uid`:1}") = Err (PUnknownField "uid").
Proof. vm_compute. reflexivity. Qed.
