(* ===== verification/Session.v ===== *)
(** * Daemon sessions ([internal/daemon/session.go], [replay.go], [server.go], [bot.go])

    A session serves one connected member: it replays the events the client has
    missed, shows it the running turn, then forwards what the hub publishes and
    answers requests.  Meanwhile the rest of the daemon goes on: before every access
    of the session to what it shares (database, hub, coordinator) the environment
    does what it likes; [others n] is what it did before access number [n].  The
    coordinator is an environment too, it answers the calls of the session.  It
    publishes each new event of the room's log in order, some time after it was
    committed ([DPublish]), and an old one again, at any time and any number of
    times ([DRepublish]): when a request is sent a second time
    ([coordinator.go], the duplicates of [handleSubmit] and [handleControl]) and when
    the recovery reads the history of a thread ([recovery.go]). *)
From S2P Require Import Prelude GoStrings Json RoomTypes Ports Coordinator StoreSchema StoreBase StoreRepository.
From S2P Require Import StoreAdmission StoreInvariant StoreOps Hub StrictJson Wire Messages.

(** ** Configuration *)

Record Config :=
  { cg_RoomID : RoomID; cg_RoomName : string; cg_ProjectRoot : string; cg_ExecutionOwner : string; cg_SocketPath : string;
    cg_SocketGID : Z; cg_MaximumFrameBytes : Z; cg_ClientBufferEvents : Z; cg_ClientBufferBytes : Z;
    cg_RequestTimeout : Z; cg_HandshakeTimeout : Z; cg_IdleTimeout : Z }.
Definition max_buffer : Z := Z.shiftl 16 20.
Definition or_default (z d : Z) : Z := if z =? 0 then d else z.
(** [deps]: the members, events, coordinator and connections are given.  The hub is
    made when none is given. *)
Definition NewServer (deps : bool) (hub : option Hub) (c : Config) : option (Config * Hub) :=
  if String.eqb (cg_RoomID c) "" || String.eqb (cg_RoomName c) "" || String.eqb (cg_ProjectRoot c) ""
     || String.eqb (cg_ExecutionOwner c) "" || String.eqb (cg_SocketPath c) "" || negb deps then None else
  let frame := or_default (cg_MaximumFrameBytes c) MaxFrameBytes in
  if MaxFrameBytes <? frame then None else
  let events := or_default (cg_ClientBufferEvents c) 256 in
  let bytes := or_default (cg_ClientBufferBytes c) max_buffer in
  if (events <? 1) || (256 <? events) || (bytes <? 1) || (max_buffer <? bytes) then None else
  let request := or_default (cg_RequestTimeout c) (30 * second_ns) in
  let handshake := or_default (cg_HandshakeTimeout c) (10 * second_ns) in
  let idle := or_default (cg_IdleTimeout c) (90 * second_ns) in
  if (request <? 0) || (handshake <? 0) || (idle <? 0) then None else
  Some ({| cg_RoomID := cg_RoomID c; cg_RoomName := cg_RoomName c; cg_ProjectRoot := cg_ProjectRoot c;
           cg_ExecutionOwner := cg_ExecutionOwner c; cg_SocketPath := cg_SocketPath c; cg_SocketGID := cg_SocketGID c;
           cg_MaximumFrameBytes := frame;
           cg_ClientBufferEvents := events; cg_ClientBufferBytes := bytes; cg_RequestTimeout := request;
           cg_HandshakeTimeout := handshake; cg_IdleTimeout := idle |},
        default (NewHub events bytes) hub).

(** ** The world of a session *)

(** What a session asks of the coordinator. *)
Inductive service_call :=
| SvSubmit (a : Actor) (i : SubmitInput)
| SvNote (a : Actor) (i : SubmitInput)
| SvSteer (a : Actor) (i : SteerInput)
| SvCancel (a : Actor) (i : CancelInput)
| SvResolve (a : Actor) (i : RecoverInput).
Inductive session_act := ActFrame (e : Envelope) | ActBroken | ActService (c : service_call).

(** What the rest of the daemon does. *)
Inductive deed :=
| DCall (c : call)                  (* a call of the store *)
| DPublish                          (* the next committed event *)
| DRepublish (seq : Seq)            (* an event that was published before *)
| DTransient (e : TransientEvent)
| DSubscribe (a : Actor)
| DReceive (i : nat)                (* another session takes an event *)
| DClose (i : nat).

Record world := mkWorld
  { sw_db : DB; sw_hub : Hub; sw_published : Seq; sw_own : option nat; sw_conn : conn; sw_source : source;
    sw_calls : nat; sw_trace : list session_act }.
Definition set_db (d : DB) (w : world) : world :=
  mkWorld d (sw_hub w) (sw_published w) (sw_own w) (sw_conn w) (sw_source w) (sw_calls w) (sw_trace w).
Definition set_hub (h : Hub) (w : world) : world :=
  mkWorld (sw_db w) h (sw_published w) (sw_own w) (sw_conn w) (sw_source w) (sw_calls w) (sw_trace w).
Definition set_own (i : option nat) (w : world) : world :=
  mkWorld (sw_db w) (sw_hub w) (sw_published w) i (sw_conn w) (sw_source w) (sw_calls w) (sw_trace w).
Definition set_source (s : source) (w : world) : world :=
  mkWorld (sw_db w) (sw_hub w) (sw_published w) (sw_own w) (sw_conn w) s (sw_calls w) (sw_trace w).
Definition published_one (h : Hub) (w : world) : world :=
  mkWorld (sw_db w) h (sw_published w + 1) (sw_own w) (sw_conn w) (sw_source w) (sw_calls w) (sw_trace w).
Definition count_access (w : world) : world :=
  mkWorld (sw_db w) (sw_hub w) (sw_published w) (sw_own w) (sw_conn w) (sw_source w) (S (sw_calls w)) (sw_trace w).
Definition wrote (c : conn) (a : session_act) (w : world) : world :=
  mkWorld (sw_db w) (sw_hub w) (sw_published w) (sw_own w) c (sw_source w) (sw_calls w) (sw_trace w ++ [a]).
Definition did (a : session_act) (w : world) : world := wrote (sw_conn w) a w.

(** The environment of a session. *)
Record environment :=
  { sv_others : nat -> list deed;
    sv_faults : nat -> option error * option error;    (* commit hook, and commit or query *)
    sv_clock : nat -> Z;
    sv_snapshot : nat -> result error RoomSnapshot;    (* [Coordinator.Snapshot] *)
    sv_service : nat -> service_call -> result error Acceptance;
    sv_diff : nat -> option (result error string);     (* [ProjectView.Diff], when there is a view *)
    sv_connection_id : result error string }.

Definition mine (w : world) (i : nat) : bool := bool_decide (sw_own w = Some i).
Definition deed_step (rid : RoomID) (w : world) (x : deed) : world :=
  match x with
  | DCall c => set_db (step (sw_db w) c) w
  | DPublish =>
      match List.find (fun e => ev_Seq e =? sw_published w + 1) (room_log (sw_db w) rid) with
      | Some e => published_one (PublishDurable (sw_hub w) e) w
      | None => w
      end
  | DRepublish seq =>
      if sw_published w <? seq then w else
      match List.find (fun e => ev_Seq e =? seq) (room_log (sw_db w) rid) with
      | Some e => set_hub (PublishDurable (sw_hub w) e) w
      | None => w
      end
  | DTransient e => set_hub (PublishTransient (sw_hub w) e) w
  | DSubscribe a => set_hub (Subscribe (sw_hub w) a) w
  | DReceive i => if mine w i then w else set_hub (receive (sw_hub w) i).1 w
  | DClose i => if mine w i then w else set_hub (Close (sw_hub w) i) w
  end.

Inductive serr := SEncoding | SWrite | SText (e : string).

Section session.
Context (cfg : Config) (env : environment).
Abbreviation M := (Proc world).
Abbreviation rid := (cg_RoomID cfg).

(** An access to what is shared. *)
Definition shared {A} (f : nat -> world -> world * A) : M A := fun w =>
  let n := sw_calls w in f n (foldl (deed_step rid) (count_access w) (sv_others env n)).
Definition reading {A} (op : Store -> result error A) : M (result error A) :=
  shared (fun n w => (w, match (sv_faults env n).2 with Some e => Err e | None => op (mkStore (sw_db w) None None) end)).
Definition writing {A} (op : Store -> Z -> Store * result error A) : M (result error A) :=
  shared (fun n w => let '(s, r) := op (mkStore (sw_db w) (sv_faults env n).1 (sv_faults env n).2) (sv_clock env n) in (set_db (db s) w, r)).
Definition coordinator_snapshot : M (result error RoomSnapshot) := shared (fun n w => (w, sv_snapshot env n)).
Definition service (c : service_call) : M (result error Acceptance) := shared (fun n w => (did (ActService c) w, sv_service env n c)).
Definition subscribe (a : Actor) : M nat :=
  shared (fun _ w => let i := length (subs (sw_hub w)) in (set_own (Some i) (set_hub (Subscribe (sw_hub w) a) w), i)).
Definition sub_Closed (i : nat) : M bool := shared (fun _ w => (w, Closed (sw_hub w) i)).
(** A receive from the subscription's channel: [None] when it is empty. *)
Definition take (i : nat) : M (option Broadcast) := shared (fun _ w => let '(h, b) := receive (sw_hub w) i in (set_hub h w, b)).
Definition sub_Close (i : nat) : M unit := shared (fun _ w => (set_hub (Close (sw_hub w) i) w, tt)).

(** ** Writing frames *)

(** [sessionWriter.send]; [None] is a body that cannot be marshalled. *)
Definition send (kind : Kind) (id method : string) (body : option json) (seq : option Z) : M (result serr unit) := fun w =>
  match body with
  | None => (w, Err SEncoding)
  | Some j =>
      let e := {| en_Version := 1; en_Kind := kind; en_ID := id; en_Method := method; en_Requires := []; en_Seq := seq;
                  en_Body := marshal j |} in
      match Envelope_Validate e with
      | Err _ => (w, Err SEncoding)
      | Ok _ =>
          if MaxFrameBytes <? len (marshal_envelope e) then (w, Err SEncoding) else
          match Write (sw_conn w) e with
          | (c, Ok _) => (wrote c (ActFrame e) w, Ok tt)
          | (c, Err _) => (wrote c ActBroken w, Err SWrite)
          end
      end
  end.
(** [fail] with the body of [WireError] *)
Definition wire_error (code : string) : json :=
  JObj ([("code", JStr code); ("message", JStr "Request could not be completed.")]
        ++ (if String.eqb code "slow-client" then [("resumable", JBool true)] else [])).
Definition fail (id code : string) : M (result serr unit) := send KindError id "error" (Some (wire_error code)) None.
(** [response] *)
Definition respond (id method : string) (body : option json) : M (result serr unit) :=
  r ← send KindResponse id method body None;
  match r with Err SEncoding => fail id "response-too-large" | _ => mret r end.

Definition event_body (e : DurableEvent) : option json := if marshals_time (ev_CreatedAt e) then Some (durable_json e) else None.
Definition sendBroadcast (b : Broadcast) : M (result serr unit) :=
  match bc_Durable b, bc_Transient b with
  | Some e, _ => send KindEvent "" (ev_Kind e) (event_body e) (Some (ev_Seq e))
  | None, Some t => send KindEvent "" (te_Kind t) (Some (transient_json t)) None
  | None, None => mret (Ok tt)
  end.

(** ** Replay *)

(** The page size is 128; a page advances the cursor, so a round per missing event
    is enough. *)
Fixpoint send_page (high last : Seq) (l : list DurableEvent) : M (result serr Seq) :=
  match l with
  | [] => mret (Ok last)
  | e :: r =>
      if (ev_Seq e <=? last) || (high <? ev_Seq e) then mret (Err (SText "invalid replay order")) else
      x ← sendBroadcast {| bc_Durable := Some e; bc_Transient := None |};
      match x with Err err => mret (Err err) | Ok _ => send_page high (ev_Seq e) r end
  end.
Fixpoint replay_pages (fuel : nat) (sub : nat) (high last : Seq) : M (result serr unit) :=
  if negb (last <? high) then mret (Ok tt) else
  match fuel with
  | O => mret (Ok tt)
  | S f =>
      closed ← sub_Closed sub;
      if closed : bool then mret (Err (SText "slow subscriber")) else
      page ← reading (fun s => Events s rid last high 128);
      match page with
      | Err e => mret (Err (SText (error_text e)))
      | Ok [] => mret (Err (SText "incomplete replay"))
      | Ok l =>
          x ← send_page high last l;
          match x with Err err => mret (Err err) | Ok last => replay_pages f sub high last end
      end
  end.
Definition active_turn (s : RoomSnapshot) : TurnID := match sn_Active s with Some b => tb_TurnID b | None => "" end.
Definition welcome (high : Seq) (s : RoomSnapshot) : Welcome :=
  {| we_RoomID := rid; we_RoomName := cg_RoomName cfg; we_ProjectRoot := cg_ProjectRoot cfg; we_ExecutionOwner := cg_ExecutionOwner cfg;
     we_FullOwnerAccess := true; we_ActiveTurnID := active_turn s; we_LatestSeq := high |}.
Definition runtime_snapshot (s : RoomSnapshot) : RuntimeSnapshot :=
  {| rn_ProjectionTruncated := sn_ProjectionTruncated s; rn_ProjectionRevision := sn_ProjectionRevision s;
     rn_DurableWatermark := sn_LatestSeq s; rn_LiveItems := sn_LiveItems s; rn_ActiveTurnID := active_turn s |}.
Definition lift_err {A} (r : result error A) : result serr A := match r with Ok a => Ok a | Err e => Err (SText (error_text e)) end.
(** The revision of the projection the client was shown. *)
Definition replay (hello_id : string) (last : Seq) (sub : nat) : M (result serr Z) :=
  latest ← reading (fun s => LatestSeq s rid);
  match lift_err latest with
  | Err e => mret (Err e)
  | Ok high =>
      if high <? last then mret (Err (SText "invalid replay cursor")) else
      initial ← coordinator_snapshot;
      match lift_err initial with
      | Err e => mret (Err e)
      | Ok initial =>
          sent ← send KindResponse hello_id "welcome" (Some (welcome_json (welcome high initial))) None;
          match sent with
          | Err e => mret (Err e)
          | Ok _ =>
              pages ← replay_pages (Z.to_nat (high - last)) sub high last;
              match pages with
              | Err e => mret (Err e)
              | Ok _ =>
                  snap ← coordinator_snapshot;
                  match lift_err snap with
                  | Err e => mret (Err e)
                  | Ok snap =>
                      sent ← send KindEvent "" "runtime-snapshot" (Some (runtime_snapshot_json (runtime_snapshot snap))) None;
                      mret (result_map (fun _ => sn_ProjectionRevision snap) sent)
                  end
              end
          end
      end
  end.

(** ** Requests *)

Definition MaximumMutationBodyBytes : Z := Z.shiftl 64 10.
Definition mutations : list string := ["submit"; "task_submit"; "note"; "steer"; "cancel"; "recover"; "resolve"].
Definition open_to_all : list string := ["ack"; "heartbeat"; "who"; "members"; "agents"].
Definition in_list (s : string) (l : list string) : bool := existsb (String.eqb s) l.

(** Bodies of answers; they have no tags, and a nil slice is [null]. *)
Definition slice_json {A} (f : A -> json) (l : list A) : json := match l with [] => JNull | _ => JArr (f <$> l) end.
Definition zero_time : string := "0001-01-01T00:00:00Z".
Definition acceptance_json (a : Acceptance) : option json :=
  let e := acc_Event a in
  if marshals_time (ev_CreatedAt e) then
    Some (JObj [("MessageID", JInt (acc_MessageID a)); ("ClientMessageID", JStr (acc_ClientMessageID a)); ("Seq", JInt (acc_Seq a));
                ("State", JStr (RequestState_string (acc_State a))); ("ErrorCode", JStr (acc_ErrorCode a));
                ("Duplicate", JBool (acc_Duplicate a));
                ("Event", JObj [("Seq", JInt (ev_Seq e)); ("Kind", JStr (ev_Kind e)); ("ActorUID", JInt (ev_ActorUID e));
                                ("Payload", JRaw (marshal (ev_Payload e)));
                                ("CreatedAt", JStr (if ev_CreatedAt e =? 0 then zero_time else format_time (ev_CreatedAt e)))])])
  else None.
Definition agent_json (a : AgentMember) : json :=
  JObj ([("id", JStr (am_ID a)); ("name", JStr (am_Name a)); ("provider", JStr (am_Provider a))]
        ++ optional_string "description" (am_Description a) ++ [("status", JStr (am_Status a))]).
Definition actor_json (uid : UID) (name : string) : json := JObj [("UID", JInt uid); ("Name", JStr name)].
Definition submit_json (i : SubmitInput) : json :=
  JObj (optional_int "taskId" (if si_TaskID i =? 0 then None else Some (si_TaskID i))
        ++ [("ClientMessageID", JStr (si_ClientMessageID i)); ("Text", JStr (si_Text i))]).
Definition queued_json (q : QueuedMessage) : json :=
  JObj [("Input", submit_json (q_Input q)); ("Actor", actor_json (ac_UID (q_Actor q)) (ac_Name (q_Actor q))); ("AcceptedSeq", JInt (q_AcceptedSeq q))].
Definition binding_json (b : TurnBinding) : json :=
  JObj [("MessageID", JStr (tb_MessageID b)); ("TurnID", JStr (tb_TurnID b)); ("State", JStr (RequestState_string (tb_State b)))].
Definition item_json (i : LiveItemSnapshot) : json :=
  JObj [("ThreadID", JStr (li_ThreadID i)); ("TurnID", JStr (li_TurnID i)); ("ItemID", JStr (li_ItemID i)); ("Partial", JStr (li_Partial i))].
Definition snapshot_json (s : RoomSnapshot) : json :=
  JObj (match sn_Agents s with [] => [] | l => [("agents", JArr (agent_json <$> l))] end
        ++ [("ProjectionTruncated", JBool (sn_ProjectionTruncated s)); ("Status", JStr (RoomStatus_string (sn_Status s)));
            ("ThreadID", JStr (sn_ThreadID s)); ("Active", option_json binding_json (sn_Active s)); ("Queue", slice_json queued_json (sn_Queue s));
            ("ProjectionRevision", JInt (sn_ProjectionRevision s)); ("LiveItems", JArr (item_json <$> sn_LiveItems s));
            ("LatestSeq", JInt (sn_LatestSeq s))]).

(** The code of an error a request ends with. *)
Definition error_code (e : error) : string :=
  if errors_Is e ErrDeadlineExceeded then "request-timeout" else if errors_Is e ErrStaleRecovery then "stale-recovery"
  else if errors_Is e ErrStaleTurn then "stale-turn" else "request-failed".
(** What handling a request gives: it is not valid, or a body or an error. *)
Inductive handled := Invalid | Answer (body : option json) | Failed (e : error).
Definition answered (r : result error Acceptance) : handled := match r with Ok a => Answer (acceptance_json a) | Err e => Failed e end.
Definition nothing (r : result error unit) : handled := match r with Ok _ => Answer (Some (JObj [])) | Err e => Failed e end.

Section dispatch.
Context (actor : Actor) (id : ConnectionID).
(** [Coordinator.Submit] and [Note] *)
Definition on_submit (method body : string) : M handled :=
  match DecodeSubmit body with
  | Err _ => mret Invalid
  | Ok q =>
      if negb (Bool.eqb (String.eqb method "task_submit") (0 <? sq_TaskID q)) then mret Invalid else
      r ← service (if String.eqb method "note" then SvNote actor (submit_input q) else SvSubmit actor (submit_input q));
      mret (answered r)
  end.
Definition on_query (method body : string) : M handled :=
  match DecodeEmpty body with
  | Err _ => mret Invalid
  | Ok _ =>
      if String.eqb method "agents" then
        r ← coordinator_snapshot; mret (match r with Ok s => Answer (Some (slice_json agent_json (sn_Agents s))) | Err e => Failed e end)
      else if in_list method ["queue"; "status"] then
        r ← coordinator_snapshot; mret (match r with Ok s => Answer (Some (snapshot_json s)) | Err e => Failed e end)
      else if String.eqb method "who" then
        l ← shared (fun _ w => (w, Members (sw_hub w)));
        mret (Answer (Some (JArr ((fun a => actor_json (ac_UID a) (ac_Name a)) <$> l))))
      else if String.eqb method "members" then
        r ← reading (fun s => Ok (ListMembers s rid));
        mret (match r with Ok l => Answer (Some (slice_json (fun m => actor_json (mb_UID m) (mb_Name m)) l)) | Err e => Failed e end)
      else
        r ← shared (fun n w => (w, sv_diff env n));
        mret (match r with
              | None => Failed (ErrText "invalid daemon configuration")
              | Some (Ok text) => Answer (Some (JObj [("diff", JStr text)]))
              | Some (Err e) => Failed e
              end)
  end.
Definition handle (method body : string) : M handled :=
  if in_list method ["submit"; "task_submit"; "note"] then on_submit method body
  else if String.eqb method "steer" then
    match DecodeSteer body with
    | Err _ => mret Invalid
    | Ok i => r ← service (SvSteer actor i); mret (answered r)
    end
  else if String.eqb method "cancel" then
    match DecodeCancel body with
    | Err _ => mret Invalid
    | Ok i => r ← service (SvCancel actor i); mret (answered r)
    end
  else if in_list method ["recover"; "resolve"] then
    match DecodeRecover body with
    | Err _ => mret Invalid
    | Ok i => r ← service (SvResolve actor i); mret (nothing (result_map (fun _ => tt) r))
    end
  else if String.eqb method "ack" then
    match DecodeAck body with
    | Err _ => mret Invalid
    | Ok seq => r ← writing (fun s _ => Ack s id seq); mret (nothing r)
    end
  else if String.eqb method "heartbeat" then
    match DecodeHeartbeat body with Err _ => mret Invalid | Ok t => mret (Answer (Some (heartbeat_json t))) end
  else if in_list method ["queue"; "status"; "who"; "members"; "agents"; "diff"] then on_query method body
  else mret Invalid.
(** [dispatch]: whether the request was valid, and the error of the answer. *)
Definition dispatch (e : Envelope) : M (bool * result serr unit) :=
  let refuse code := r ← fail (en_ID e) code; mret (false, r) in
  if negb (bool_decide (en_Kind e = KindRequest)) || negb (Nat.eqb (length (en_Requires e)) 0) then refuse "invalid-request" else
  role ← reading (fun s => MemberRole s rid (ac_UID actor));
  match role with
  | Err _ => refuse "permission-denied"
  | Ok role =>
      if negb (String.eqb role "roommate") && negb (in_list (en_Method e) open_to_all) then refuse "read-only-role"
      else if in_list (en_Method e) mutations && (MaximumMutationBodyBytes <? len (en_Body e)) then refuse "message-too-large"
      else
        h ← handle (en_Method e) (en_Body e);
        match h with
        | Invalid => refuse "invalid-request"
        | Failed err => r ← fail (en_ID e) (error_code err); mret (true, r)
        | Answer body => r ← respond (en_ID e) (en_Method e) body; mret (true, r)
        end
  end.
End dispatch.

(** ** The session *)

(** [r.Read()] *)
Definition read_frame : M (result perr Envelope) := fun w =>
  let '(src, r) := Read (reader_maximum (cg_MaximumFrameBytes cfg)) (sw_source w) in (set_source src w, r).
(** What the select of the loop takes. *)
Inductive choice := OnDone | OnIdle | OnSlow | OnEvent | OnRequest.
(** One round: whether the session goes on. *)
Definition round (actor : Actor) (id : ConnectionID) (sub : nat) (revision : Z) (c : choice) : M bool :=
  match c with
  | OnDone | OnIdle => mret false
  | OnSlow => closed ← sub_Closed sub; if closed : bool then fail "" "slow-client";; mret false else mret true
  | OnEvent =>
      b ← take sub;
      match b with
      | None => closed ← sub_Closed sub; mret (negb closed)
      | Some b =>
          if match bc_Transient b with Some t => te_Revision t <=? revision | None => false end then mret true
          else r ← sendBroadcast b; mret (is_ok r)
      end
  | OnRequest =>
      r ← read_frame;
      match r with
      | Err _ => fail "" "invalid-request";; mret false
      | Ok e => x ← dispatch actor id e; mret (is_ok x.2)
      end
  end.
Fixpoint rounds (actor : Actor) (id : ConnectionID) (sub : nat) (revision : Z) (l : list choice) : M bool :=
  match l with
  | [] => mret true
  | c :: r => go ← round actor id sub revision c; if go : bool then rounds actor id sub revision r else mret false
  end.
(** After the replay: the failure, or the loop. *)
Definition live (actor : Actor) (id : ConnectionID) (sub : nat) (r : result serr Z) (l : list choice) : M bool :=
  match r with
  | Err SWrite => mret false
  | Err _ => closed ← sub_Closed sub; fail "" (if closed : bool then "slow-client" else "replay-failed");; mret false
  | Ok revision => rounds actor id sub revision l
  end.
(** [ServeMember]: whether it still runs when the choices are used up. *)
Definition ServeMember (member : Member) (l : list choice) : M bool :=
  stored ← reading (fun s => FindMember s rid (mb_UID member));
  if negb (match stored with Ok m => bool_decide (m = member) | Err _ => false end) then mret false else
  let actor := {| ac_UID := mb_UID member; ac_Name := mb_Name member |} in
  hello ← read_frame;
  match hello with
  | Err _ => fail "" "invalid-request";; mret false
  | Ok e =>
      match (Accept (NewHandshakeState []) e).2, DecodeHello (en_Body e), sv_connection_id env with
      | Err _, _, _ | Ok _, Err _, _ => fail (en_ID e) "invalid-request";; mret false
      | Ok _, Ok hello, connection =>
          match connection with
          | Err _ => fail (en_ID e) "internal-error";; mret false
          | Ok id =>
              if negb (ValidConnectionID id) then fail (en_ID e) "internal-error";; mret false else
              known ← writing (fun s now => Connected s {| cr_ID := id; cr_RoomID := rid; cr_UID := ac_UID actor; cr_ConnectedAt := now;
                                                           cr_DisconnectedAt := None; cr_LastAck := 0 |});
              match known with
              | Err _ => fail (en_ID e) "internal-error";; mret false
              | Ok _ =>
                  sub ← subscribe actor;
                  r ← replay (en_ID e) (he_LastAppliedSeq hello) sub;
                  go ← live actor id sub r l;
                  if go : bool then mret true
                  else sub_Close sub;; writing (fun s now => Disconnected s id now);; mret false
              end
          end
      end
  end.
(** [session]: the member of the uid the kernel reports for the peer. *)
Definition serve_peer (peer : result error UID) (l : list choice) : M bool :=
  match peer with
  | Err _ => mret false
  | Ok uid =>
      member ← reading (fun s => FindMember s rid uid);
      match member with
      | Ok m => if mb_UID m =? uid then ServeMember m l else fail "" "member-not-found";; mret false
      | Err _ => fail "" "member-not-found";; mret false
      end
  end.
(** [SubmitFromBot], [BotSnapshot] *)
Definition SubmitFromBot (m : Member) (id : ClientMessageID) (text : string) : M (result error Acceptance) :=
  service (SvSubmit {| ac_UID := mb_UID m; ac_Name := mb_Name m |} {| si_TaskID := 0; si_ClientMessageID := id; si_Text := text |}).
Definition BotSnapshot : M (result error RoomSnapshot) := coordinator_snapshot.
End session.
