(* ===== verification/SessionSafety.v ===== *)
(** * What a session delivers

    Between the subscription to the hub and the replay of the log no durable event
    is lost: whatever the rest of the daemon does meanwhile, a client that applies
    each event newer than its cursor has applied an interval of the log; a session
    that drains its subscription has sent all that was published; and a request
    reaches the coordinator only with the rights of its member. *)
From S2P Require Import Prelude GoStrings Json RoomTypes Ports Coordinator StoreSchema StoreBase StoreRepository.
From S2P Require Import StoreAdmission StoreInvariant StoreOps StoreSafety Hub StrictJson Wire WireSafety Messages Session.

(** ** The log of a room *)

Lemma room_log_length d rid : wf None None d -> ev_Seq <$> room_log d rid = seqZ 1 (Z.of_nat (length (room_log d rid))).
Proof.
  intros W. destruct (decide (rid ∈ r_id <$> rooms d)) as [H|H].
  - apply list_elem_of_fmap in H as (r & -> & Hr). pose proof (room_log_seqs d r W Hr) as E.
    pose proof (f_equal length E) as L. rewrite length_fmap, length_seqZ in L. pose proof (wf_next _ _ _ W r Hr). rewrite E. f_equal. lia.
  - destruct (room_log d rid) as [|e l] eqn:E; [done|]. destruct H.
    assert (He : e ∈ room_log d rid) by (rewrite E; left). rewrite room_log_unordered in He by done.
    apply list_elem_of_fmap in He as (x & _ & [Hx Ex%in_roomP]%filter_elem_of). rewrite <- Ex. by apply (wf_event_rooms _ _ _ W).
Qed.
Lemma room_log_grows d c rid : wf None None d -> room_log d rid `prefix_of` room_log (step d c) rid.
Proof.
  intros W. destruct (step_inv d c W) as [W' V]. rewrite !room_log_unordered by done.
  destruct (bfilter_prefix (in_room e_room rid) _ _ (ev_log _ _ V)) as [k ->]. rewrite fmap_app. by apply prefix_app_r.
Qed.
Lemma log_elem_seq d rid e : wf None None d -> e ∈ room_log d rid -> 1 <= ev_Seq e <= Z.of_nat (length (room_log d rid)).
Proof.
  intros W He. assert (H : ev_Seq e ∈ ev_Seq <$> room_log d rid) by by apply list_elem_of_fmap_2.
  rewrite room_log_length, elem_of_seqZ in H by done. lia.
Qed.

(** ** The client's side of the stream *)

(** The sequence numbers of the frames a client received, and those it applies:
    what is not newer than its cursor is skipped ([client/client.go]). *)
Definition seen (tr : list session_act) : list Seq := omap (fun a => match a with ActFrame e => en_Seq e | _ => None end) tr.
Fixpoint applied (cursor : Seq) (l : list Seq) : list Seq :=
  match l with
  | [] => []
  | s :: r => if s <=? cursor then applied cursor r else s :: applied s r
  end.
Lemma applied_snoc cursor l c s : applied cursor l = seqZ (cursor + 1) (c - cursor) -> cursor <= c -> s <= c + 1 ->
  applied cursor (l ++ [s]) = seqZ (cursor + 1) (Z.max c s - cursor).
Proof.
  revert cursor. induction l as [|x l IH]; intros cursor E H1 H2; cbn in *.
  - assert (c = cursor) as ->.
    { destruct (decide (c = cursor)); [done|]. rewrite seqZ_cons in E by lia. done. }
    destruct (Z.leb_spec s cursor); [rewrite seqZ_nil by lia; done|]. assert (s = cursor + 1) as -> by lia.
    rewrite seqZ_cons, seqZ_nil by lia. done.
  - destruct (Z.leb_spec x cursor); [by apply IH|].
    destruct (decide (c = cursor)) as [->|N]; [rewrite seqZ_nil in E by lia; done|]. rewrite seqZ_cons in E by lia. injection E as -> E.
    rewrite (IH (cursor + 1)); [|rewrite E; f_equal; lia|lia|lia]. rewrite (seqZ_cons (cursor + 1)) by lia. f_equal. f_equal; lia.
Qed.

(** A client at [c] that applies [l] misses nothing and is at [q] at least. *)
Fixpoint climbs (c : Seq) (l : list Seq) (q : Seq) : Prop :=
  match l with
  | [] => q <= c
  | s :: r => s <= c + 1 /\ climbs (Z.max c s) r q
  end.
Lemma climbs_mono c c' l q : c <= c' -> climbs c l q -> climbs c' l q.
Proof. revert c c'. induction l as [|s l IH]; intros c c' H; cbn; [lia|]. intros [B K]. split; [lia|]. eapply IH; [|exact K]. lia. Qed.
(** The next event, or one that was there before. *)
Lemma climbs_snoc c l q s : climbs c l q -> s <= q + 1 -> climbs c (l ++ [s]) (Z.max q s).
Proof.
  revert c. induction l as [|x l IH]; intros c; cbn; [intros; split; lia|]. intros [B K] H. split; [done|]. by apply IH.
Qed.

(** The frame of an event of the log. *)
Definition durable_frame (e : DurableEvent) : Envelope :=
  {| en_Version := 1; en_Kind := KindEvent; en_ID := ""; en_Method := ev_Kind e; en_Requires := []; en_Seq := Some (ev_Seq e);
     en_Body := marshal (durable_json e) |}.

(** ** The invariant *)

Section safety.
Context (cfg : Config) (env : environment).
Abbreviation rid := (cg_RoomID cfg).
Definition log (w : world) : list DurableEvent := room_log (sw_db w) rid.
Definition latest (w : world) : Z := Z.of_nat (length (log w)).
(** Every event is stamped in a year with four digits. *)
Definition timely (w : world) : Prop := Forall (fun e => marshals_time (ev_CreatedAt e) = true) (log w).
Definition frame_ok (w : world) (a : session_act) : Prop :=
  match a with ActFrame f => match en_Seq f with Some _ => exists e, e ∈ log w /\ f = durable_frame e | None => True end | _ => True end.

(** The durable events in the buffer of a subscription, old ones among them, take a
    client at [h] to [q] without a gap. *)
Definition durables (s : subscription) : list DurableEvent := omap bc_Durable (sub_events s).
Record holds_up_to (h : Seq) (w : world) (s : subscription) (q : Seq) : Prop := mk_holds
  { hu_seqs : climbs h (ev_Seq <$> durables s) q;
    hu_log : Forall (fun e => e ∈ log w) (durables s);
    hu_pure : Forall (fun b => bc_Durable b = None \/ bc_Transient b = None) (sub_events s);
    hu_published : q <= sw_published w;
    hu_open : sub_closed s = false -> q = sw_published w }.
Definition own_ok (h : Seq) (w : world) : Prop :=
  match sw_own w with
  | None => True
  | Some i => exists s q, subs (sw_hub w) !! i = Some s /\ holds_up_to h w s q
  end.
(** [first]: the cursor the client came with; [c]: its cursor now. *)
Record Inv (first h c : Seq) (w : world) : Prop := mk_Inv
  { iv_wf : wf None None (sw_db w);
    iv_published : 0 <= sw_published w <= latest w;
    iv_first : first <= c;
    iv_applied : applied first (seen (sw_trace w)) = seqZ (first + 1) (c - first);
    iv_frames : Forall (frame_ok w) (sw_trace w);
    iv_own : own_ok h w }.

(** The database only gains events. *)
Definition grows (w w' : world) : Prop := wf None None (sw_db w) -> wf None None (sw_db w') /\ log w `prefix_of` log w'.
#[export] Instance grows_preorder : PreOrder grows.
Proof.
  split; [by intros w W|]. intros w1 w2 w3 H1 H2 W1. destruct (H1 W1) as [W2 P1]. destruct (H2 W2) as [W3 P2]. split; [done|]. by etrans.
Qed.
Lemma grows_timely w w' : grows w w' -> wf None None (sw_db w) -> timely w' -> timely w.
Proof. intros G W T. destruct (G W) as [_ [k E]]. unfold timely in *. rewrite E in T. by apply Forall_app in T as [T _]. Qed.
Lemma grows_latest w w' : grows w w' -> wf None None (sw_db w) -> latest w <= latest w'.
Proof. intros G W. destruct (G W) as [_ [k E]]. unfold latest. rewrite E, length_app. lia. Qed.
Lemma prefix_elem (w w' : world) e : log w `prefix_of` log w' -> e ∈ log w -> e ∈ log w'.
Proof. intros [k ->] H. apply elem_of_app. by left. Qed.
Lemma frame_ok_grow w w' a : log w `prefix_of` log w' -> frame_ok w a -> frame_ok w' a.
Proof. unfold frame_ok. intros P. destruct a; [|done..]. destruct (en_Seq e); [|done]. intros (x & Hx & ->). exists x. split; [by eapply prefix_elem|done]. Qed.
Lemma holds_grow h w w' s q : log w `prefix_of` log w' -> sw_published w' = sw_published w -> holds_up_to h w s q -> holds_up_to h w' s q.
Proof. intros P E []. split; rewrite ?E; try done. eapply Forall_impl; [done|]. intros e. by apply prefix_elem. Qed.
Lemma holds_horizon h h' w s q : h <= h' -> holds_up_to h w s q -> holds_up_to h' w s q.
Proof. intros H []. split; try done. by eapply climbs_mono. Qed.
Lemma own_ok_grow h w w' : log w `prefix_of` log w' -> sw_published w' = sw_published w -> sw_own w' = sw_own w -> sw_hub w' = sw_hub w ->
  own_ok h w -> own_ok h w'.
Proof.
  unfold own_ok. intros P E -> ->. destruct (sw_own w) as [i|]; [|done]. intros (s & q & Hs & H). exists s, q. split; [done|]. by eapply holds_grow.
Qed.
Lemma Inv_horizon first h h' c w : h <= h' -> Inv first h c w -> Inv first h' c w.
Proof.
  intros H []. split; try done. unfold own_ok in *. destruct (sw_own w); [|done]. destruct iv_own0 as (s & q & E & U).
  exists s, q. split; [done|]. by eapply holds_horizon.
Qed.

(** ** The rest of the daemon *)

Lemma durables_nil_pure (b : Broadcast) l : omap bc_Durable (l ++ [b]) = omap bc_Durable l ++ match bc_Durable b with Some e => [e] | None => [] end.
Proof. rewrite omap_app. cbn. by destruct (bc_Durable b). Qed.

Lemma holds_ext h w s s' q : sub_events s' = sub_events s -> (sub_closed s' = false -> sub_closed s = false) ->
  holds_up_to h w s q -> holds_up_to h w s' q.
Proof. intros E C []. split; unfold durables in *; rewrite ?E; auto. Qed.
Lemma closeLocked_holds h w s q : holds_up_to h w s q -> holds_up_to h w (closeLocked s) q.
Proof. apply holds_ext; unfold closeLocked; by destruct (sub_closed s) eqn:E; rewrite ?E. Qed.
Lemma publish_to_cases hub b n s :
  let s' := publish_to hub b n s in
  (sub_events s' = sub_events s /\ sub_closed s' = true) \/
  (sub_closed s = false /\ sub_closed s' = false /\ sub_events s' = sub_events s ++ [b]).
Proof.
  unfold publish_to. destruct (sub_closed s) eqn:C; [by left|]. destruct (_ || _); [left|by right].
  unfold closeLocked. cbn. by rewrite C.
Qed.
Lemma publish_transient_holds h w s q hub t n : holds_up_to h w s q ->
  holds_up_to h w (publish_to hub {| bc_Durable := None; bc_Transient := Some t |} n s) q.
Proof.
  intros H. destruct (publish_to_cases hub {| bc_Durable := None; bc_Transient := Some t |} n s) as [[E C]|(C & C' & E)];
    [apply (holds_ext _ _ s); [done|congruence|done]|].
  destruct H. split; unfold durables in *; rewrite ?E, ?durables_nil_pure; cbn [bc_Durable]; rewrite ?app_nil_r; auto.
  apply Forall_app. split; [done|]. constructor; [by left|done].
Qed.
Lemma publish_durable_holds h w w' s q hub e n : holds_up_to h w s q -> ev_Seq e <= sw_published w + 1 -> e ∈ log w' ->
  log w' = log w -> sw_published w' = Z.max (sw_published w) (ev_Seq e) ->
  exists q', holds_up_to h w' (publish_to hub {| bc_Durable := Some e; bc_Transient := None |} n s) q'.
Proof.
  intros H Se He EL EP. destruct (publish_to_cases hub {| bc_Durable := Some e; bc_Transient := None |} n s) as [[E C]|(C & C' & E)].
  - exists q. destruct H. split; unfold durables in *; rewrite ?E, ?EL; auto; [lia|congruence].
  - exists (Z.max q (ev_Seq e)). destruct H as [A B P Q R]. specialize (R C). subst q.
    split; unfold durables in *; rewrite ?E, ?durables_nil_pure; cbn [bc_Durable].
    + rewrite fmap_app. by apply climbs_snoc.
    + apply Forall_app. split; [by rewrite EL|]. by constructor.
    + apply Forall_app. split; [done|]. constructor; [by right|done].
    + lia.
    + lia.
Qed.

Lemma log_find d n e : wf None None d -> List.find (fun e => ev_Seq e =? n) (room_log d rid) = Some e -> e ∈ room_log d rid /\ ev_Seq e = n.
Proof. intros W [H E]%find_some_elem. split; [done|lia]. Qed.
Lemma lookup_alter_other {A} (f : A -> A) (l : list A) i j : i <> j -> alter f j l !! i = l !! i.
Proof. intros N. by apply list_lookup_alter_ne. Qed.
Lemma publish_lookup hub b i s : subs hub !! i = Some s ->
  (exists t, encode_broadcast b = Some t) -> subs (publish hub b) !! i = Some (publish_to hub b (bsize b) s).
Proof. intros H E. rewrite publish_subs, bool_decide_eq_true_2 by done. by rewrite list_lookup_fmap, H. Qed.

Lemma deed_grows w x : grows w (deed_step rid w x).
Proof.
  destruct x; cbn; repeat case_match; try by intros W.
  intros W. split; [apply (step_inv _ c W)|by apply room_log_grows].
Qed.
(** The other fields of the world. *)
Lemma deed_fields w x : let w' := deed_step rid w x in
  sw_own w' = sw_own w /\ sw_conn w' = sw_conn w /\ sw_source w' = sw_source w /\ sw_calls w' = sw_calls w /\ sw_trace w' = sw_trace w.
Proof. destruct x; cbn; by repeat case_match. Qed.
Lemma deed_ok first h c w x : Inv first h c w -> timely (deed_step rid w x) -> Inv first h c (deed_step rid w x).
Proof.
  intros I T. pose proof (deed_grows w x (iv_wf _ _ _ _ I)) as [W P]. destruct (deed_fields w x) as (EO & _ & _ & _ & ET).
  destruct I as [W0 Pub F A Fr O].
  assert (Fr' : Forall (frame_ok (deed_step rid w x)) (sw_trace w)) by (eapply Forall_impl; [done|]; intros a; by apply frame_ok_grow).
  assert (L : latest w <= latest (deed_step rid w x)) by (by apply grows_latest; [apply deed_grows|]).
  split; rewrite ?ET; try done.
  - destruct x; cbn in *; repeat case_match; cbn in *; try lia.
    rename select (List.find _ _ = Some _) into E. apply log_find in E as [He Se]; [|done].
    apply (log_elem_seq _ _ _ W0) in He. unfold latest, log in *. cbn in *. lia.
  - unfold own_ok in *. rewrite EO. destruct (sw_own w) as [i|] eqn:Own; [|done]. destruct O as (s & q & Hs & H).
    destruct x; cbn [deed_step] in *.
    + exists s, q. split; [done|]. by eapply holds_grow.
    + destruct (List.find _ _) as [e|] eqn:E; [|by exists s, q]. apply log_find in E as [He Se]; [|done].
      assert (Te : marshals_time (ev_CreatedAt e) = true) by (by apply (proj1 (Forall_forall _ _) T)).
      destruct (publish_durable_holds h w (published_one (PublishDurable (sw_hub w) e) w) s q (sw_hub w) e
        (bsize {| bc_Durable := Some e; bc_Transient := None |}) H ltac:(lia) He eq_refl ltac:(cbn; lia)) as [q' H'].
      eexists _, q'. split; [|exact H']. apply publish_lookup; [done|]. unfold encode_broadcast. cbn. rewrite Te. by eexists.
    + destruct (Z.ltb_spec (sw_published w) seq) as [?|Old]; [by exists s, q|].
      destruct (List.find _ _) as [e|] eqn:E; [|by exists s, q]. apply log_find in E as [He Se]; [|done].
      assert (Te : marshals_time (ev_CreatedAt e) = true) by (by apply (proj1 (Forall_forall _ _) T)).
      destruct (publish_durable_holds h w (set_hub (PublishDurable (sw_hub w) e) w) s q (sw_hub w) e
        (bsize {| bc_Durable := Some e; bc_Transient := None |}) H ltac:(lia) He eq_refl ltac:(cbn; lia)) as [q' H'].
      eexists _, q'. split; [|exact H']. apply publish_lookup; [done|]. unfold encode_broadcast. cbn. rewrite Te. by eexists.
    + eexists _, q. split; [apply publish_lookup; [done|by eexists]|]. eapply holds_grow; [exact P|done|]. by apply publish_transient_holds.
    + exists s, q. split; [|by eapply holds_grow]. cbn. by apply lookup_app_l_Some.
    + unfold mine in *. destruct (bool_decide_reflect (sw_own w = Some i0)) as [?|N]; [by exists s, q|]. exists s, q. split; [|by eapply holds_grow].
      cbn. rewrite lookup_alter_other by congruence. done.
    + unfold mine in *. destruct (bool_decide_reflect (sw_own w = Some i0)) as [?|N]; [by exists s, q|]. exists s, q. split; [|by eapply holds_grow].
      cbn. rewrite lookup_alter_other by congruence. done.
Qed.
Lemma deeds_grow l w : grows w (foldl (deed_step rid) w l).
Proof. revert w. induction l as [|x l IH]; intros w; cbn; [done|]. etrans; [apply deed_grows|apply IH]. Qed.
Lemma deeds_fields l w : let w' := foldl (deed_step rid) w l in
  sw_own w' = sw_own w /\ sw_conn w' = sw_conn w /\ sw_source w' = sw_source w /\ sw_calls w' = sw_calls w /\ sw_trace w' = sw_trace w.
Proof.
  revert w. induction l as [|x l IH]; intros w; cbn; [done|].
  destruct (IH (deed_step rid w x)) as (-> & -> & -> & -> & ->). apply deed_fields.
Qed.
Lemma deeds_ok first h c l w : Inv first h c w -> timely (foldl (deed_step rid) w l) -> Inv first h c (foldl (deed_step rid) w l).
Proof.
  revert w. induction l as [|x l IH]; intros w I T; cbn in *; [done|]. apply IH; [|done]. apply deed_ok; [done|].
  eapply grows_timely; [apply deeds_grow|by apply deed_grows, (iv_wf _ _ _ _ I)|done].
Qed.

(** ** Procedures that leave the stream alone *)

Abbreviation M := (Proc world).
Definition neutral {A} (m : M A) : Prop := forall w,
  grows w (m w).1 /\ sw_own (m w).1 = sw_own w /\ forall first h c, Inv first h c w -> timely (m w).1 -> Inv first h c (m w).1.

Lemma neutral_ret {A} (a : A) : neutral (mret a).
Proof. intros w. cbn. split_and!; [reflexivity|done|auto]. Qed.
Lemma neutral_bind {A B} (m : M A) (k : A -> M B) : neutral m -> (forall a, neutral (k a)) -> neutral (m ≫= k).
Proof.
  intros Hm Hk w. unfold mbind, Proc_bind. destruct (Hm w) as (G1 & O1 & I1). destruct (m w) as [w1 a]. cbn in *.
  destruct (Hk a w1) as (G2 & O2 & I2). split_and!; [by etrans|congruence|]. intros first h c I T. apply I2; [|done]. apply I1; [done|].
  eapply grows_timely; [exact G2|by apply G1, (iv_wf _ _ _ _ I)|done].
Qed.
Lemma same_world_Inv first h c w w' : sw_db w' = sw_db w -> sw_hub w' = sw_hub w -> sw_published w' = sw_published w -> sw_own w' = sw_own w ->
  sw_trace w' = sw_trace w -> Inv first h c w -> Inv first h c w'.
Proof.
  intros D H P O T []. assert (L : log w' = log w) by (unfold log; by rewrite D).
  split; unfold latest in *; rewrite ?D, ?P, ?L, ?T; try done.
  - eapply Forall_impl; [done|]. intros a. apply frame_ok_grow. by rewrite L.
  - eapply (own_ok_grow _ w); [by rewrite L|done..].
Qed.
Lemma neutral_shared {A} (f : nat -> world -> world * A) : (forall n, neutral (f n)) -> neutral (shared cfg env f).
Proof.
  intros H w. unfold shared. set (w1 := foldl _ _ _). destruct (H (sw_calls w) w1) as (G & O & I). split_and!.
  - etrans; [|exact G]. etrans; [|apply deeds_grow]. by intros W.
  - rewrite O. exact (proj1 (deeds_fields (sv_others env (sw_calls w)) (count_access w))).
  - intros first h c I0 T. apply I; [|done]. apply deeds_ok.
    + by eapply (same_world_Inv _ _ _ w).
    + eapply grows_timely; [exact G| |done]. apply deeds_grow. apply (iv_wf _ _ _ _ I0).
Qed.
Lemma neutral_read {A} (f : world -> A) : neutral (fun w => (w, f w)).
Proof. intros w. cbn. split_and!; [reflexivity|done|auto]. Qed.
Lemma neutral_set_db (op : DB -> DB) {A} (f : world -> A) : (forall d, exists c, op d = step d c) -> neutral (fun w => (set_db (op (sw_db w)) w, f w)).
Proof.
  intros H w. destruct (H (sw_db w)) as [c E]. cbn. rewrite E. split_and!; [exact (deed_grows w (DCall c))|done|].
  intros first h c' I T. exact (deed_ok first h c' w (DCall c) I T).
Qed.
Lemma neutral_reading {A} (op : Store -> result error A) : neutral (reading cfg env op).
Proof. apply neutral_shared. intros n. apply neutral_read. Qed.
Lemma neutral_writing {A} (op : Store -> Z -> Store * result error A) :
  (forall s now, exists o, (op s now).1 = exec s o) -> neutral (writing cfg env op).
Proof.
  intros H. apply neutral_shared. intros n w. destruct (H (mkStore (sw_db w) (sv_faults env n).1 (sv_faults env n).2) (sv_clock env n)) as [o E].
  destruct (op _ _) as [s r]. cbn in *. subst s.
  set (c := {| c_hook := (sv_faults env n).1; c_fault := (sv_faults env n).2; c_op := o |}).
  split_and!; [exact (deed_grows w (DCall c))|done|]. intros first h c' I T. exact (deed_ok first h c' w (DCall c) I T).
Qed.
Lemma neutral_snapshot : neutral (coordinator_snapshot cfg env).
Proof. apply neutral_shared. intros n. apply neutral_read. Qed.
Lemma neutral_did a {A} (f : world -> A) c0 : match a with ActFrame e => en_Seq e = None | _ => True end -> neutral (fun w => (wrote (c0 w) a w, f w)).
Proof.
  intros Ha w. split_and!; [by intros W|done|]. intros first h c [] T. split; try done; cbn.
  - unfold seen in *. rewrite omap_app. cbn. destruct a as [e| |]; cbn; [rewrite Ha|..]; by rewrite app_nil_r.
  - apply Forall_app. split; [done|]. constructor; [|done]. destruct a as [e| |]; cbn; [by rewrite Ha|done..].
  - by apply (own_ok_grow _ w).
Qed.
Lemma neutral_service c : neutral (service cfg env c).
Proof. apply neutral_shared. intros n. by apply (neutral_did (ActService c) (fun _ => sv_service env n c) sw_conn). Qed.
Lemma neutral_Closed i : neutral (sub_Closed cfg env i).
Proof. apply neutral_shared. intros n. apply neutral_read. Qed.
Lemma neutral_send kind id method body : neutral (send kind id method body None).
Proof.
  intros w. unfold send. destruct body as [j|]; [|by apply neutral_ret]. destruct (Envelope_Validate _); [|by apply neutral_ret].
  destruct (_ <? _); [by apply neutral_ret|]. destruct (Write _ _) as [c [u|e]].
  - apply (neutral_did (ActFrame _) (fun _ => Ok tt) (fun _ => c)). done.
  - apply (neutral_did ActBroken (fun _ => Err SWrite) (fun _ => c)). done.
Qed.
Lemma neutral_fail id code : neutral (fail id code).
Proof. apply neutral_send. Qed.
Lemma neutral_respond id method body : neutral (respond id method body).
Proof. unfold respond. apply neutral_bind; [apply neutral_send|]. intros [?|[]]; apply neutral_ret || apply neutral_fail. Qed.
Lemma neutral_Close i : neutral (sub_Close cfg env i).
Proof.
  apply neutral_shared. intros n w. split_and!; [by intros W|done|]. intros first h c [] T. split; try done.
  unfold own_ok in *. cbn in *. destruct (sw_own w) as [j|]; [|done]. destruct iv_own0 as (s & q & Hs & H).
  destruct (decide (j = i)) as [->|N].
  - exists (closeLocked s), q. split; [by rewrite list_lookup_alter_eq, Hs|]. apply closeLocked_holds. by eapply (holds_grow _ w).
  - exists s, q. split; [by rewrite lookup_alter_other|]. by eapply (holds_grow _ w).
Qed.
Create HintDb neutral discriminated.
#[local] Hint Resolve neutral_ret neutral_reading neutral_snapshot neutral_service neutral_Closed neutral_send neutral_fail neutral_respond
  neutral_Close neutral_read : neutral.
Ltac neutral_tac :=
  repeat lazymatch goal with
  | |- neutral (mbind _ _) => apply neutral_bind; [|intros ?]
  | |- neutral (match ?x with _ => _ end) => destruct x
  | |- neutral (let x := _ in _) => cbv zeta
  | |- neutral (shared _ _ _) => apply neutral_shared; intros ?; apply neutral_read
  | |- neutral _ => solve [auto with neutral]
  end.

(** ** Specifications *)

Definition growing {A} (m : M A) : Prop := forall w, grows w (m w).1.
(** Nor is the subscription another one. *)
Definition steady {A} (m : M A) : Prop := forall w, grows w (m w).1 /\ sw_own (m w).1 = sw_own w.
Definition spec {A} (P : world -> Prop) (m : M A) (Q : A -> world -> Prop) : Prop :=
  forall w, P w -> wf None None (sw_db w) /\ (timely (m w).1 -> Q (m w).2 (m w).1).
Lemma neutral_steady {A} (m : M A) : neutral m -> steady m.
Proof. intros H w. by destruct (H w) as (? & ? & _). Qed.
Lemma steady_growing {A} (m : M A) : steady m -> growing m.
Proof. intros H w. apply H. Qed.
Lemma growing_bind {A B} (m : M A) (k : A -> M B) : growing m -> (forall a, growing (k a)) -> growing (m ≫= k).
Proof.
  intros Hm Hk w. unfold mbind, Proc_bind. specialize (Hm w). destruct (m w) as [w1 a]. etrans; [exact Hm|]. apply Hk.
Qed.
Lemma steady_ret {A} (a : A) : steady (mret a).
Proof. intros w. split; [reflexivity|done]. Qed.
Lemma steady_bind {A B} (m : M A) (k : A -> M B) : steady m -> (forall a, steady (k a)) -> steady (m ≫= k).
Proof.
  intros Hm Hk w. unfold mbind, Proc_bind. destruct (Hm w) as [G O]. destruct (m w) as [w1 a]. cbn in *. destruct (Hk a w1) as [G' O'].
  split; [by etrans|congruence].
Qed.
Lemma spec_bind_growing {A B} (m : M A) (k : A -> M B) P R Q : growing m -> (forall a, growing (k a)) ->
  spec P m R -> (forall a, spec (R a) (k a) Q) -> spec P (m ≫= k) Q.
Proof.
  intros Sm Sk Hm Hk w Pw. destruct (Hm w Pw) as [W H]. split; [done|]. unfold mbind, Proc_bind. specialize (Sm w).
  destruct (m w) as [w1 a]. cbn in *. intros T. apply Hk; [|done]. apply H. eapply grows_timely; [apply Sk| |exact T]. by apply Sm.
Qed.
Lemma spec_bind {A B} (m : M A) (k : A -> M B) P R Q : steady m -> (forall a, steady (k a)) ->
  spec P m R -> (forall a, spec (R a) (k a) Q) -> spec P (m ≫= k) Q.
Proof. intros Sm Sk. apply spec_bind_growing; [by apply steady_growing|intros a; by apply steady_growing]. Qed.
Lemma spec_ret {A} (a : A) (P : world -> Prop) Q : (forall w, P w -> wf None None (sw_db w)) -> (forall w, P w -> Q a w) -> spec P (mret a) Q.
Proof. intros HW H w Pw. split; [by apply HW|]. intros _. by apply H. Qed.
Lemma spec_mono {A} (m : M A) P P' Q Q' : (forall w, P' w -> P w) -> (forall a w, Q a w -> Q' a w) -> spec P m Q -> spec P' m Q'.
Proof. intros HP HQ H w Pw. destruct (H w (HP w Pw)) as [W K]. split; [done|]. intros T. by apply HQ, K. Qed.

(** The invariant, for the subscription [o], with at least [k] events in the log. *)
Definition At (o : option nat) (k first h c : Z) (w : world) : Prop := Inv first h c w /\ sw_own w = o /\ k <= latest w.
Lemma At_wf o k first h c w : At o k first h c w -> wf None None (sw_db w).
Proof. intros [I _]. apply (iv_wf _ _ _ _ I). Qed.
Lemma neutral_spec {A} (m : M A) o k first h c : neutral m -> spec (At o k first h c) m (fun _ => At o k first h c).
Proof.
  intros H w (I & O & K). destruct (H w) as (G & OG & IG). split; [apply (iv_wf _ _ _ _ I)|]. intros T. split_and!; [by apply IG|congruence|].
  pose proof (grows_latest _ _ G (iv_wf _ _ _ _ I)). lia.
Qed.
(** A neutral procedure that ends badly. *)
Definition some_cursor (first : Z) (w : world) : Prop := exists h c, Inv first h c w.
Lemma At_some o k first h c w : At o k first h c w -> some_cursor first w.
Proof. intros [I _]. by exists h, c. Qed.
Lemma neutral_some {A} (m : M A) first : neutral m -> spec (some_cursor first) m (fun _ => some_cursor first).
Proof.
  intros H w (h & c & I). destruct (H w) as (_ & _ & IG). split; [apply (iv_wf _ _ _ _ I)|]. intros T. exists h, c. by apply IG.
Qed.
Lemma session_reading_spec {A} (op : Store -> result error A) o k first h c : spec (At o k first h c) (reading cfg env op)
  (fun r w => At o k first h c w /\ forall x, r = Ok x -> op (mkStore (sw_db w) None None) = Ok x).
Proof.
  intros w Hw. destruct (neutral_spec _ o k first h c (neutral_reading op) w Hw) as [W H]. split; [done|]. intros T. split; [by apply H|].
  unfold reading, shared. cbn. destruct (sv_faults env (sw_calls w)).2; [done|]. done.
Qed.

(** ** Replaying the log *)

Lemma send_durable o k first h c e w : At o k first h c w -> e ∈ log w -> ev_Seq e <= c + 1 ->
  forall t, let '(w', r) := sendBroadcast {| bc_Durable := Some e; bc_Transient := t |} w in
  sw_db w' = sw_db w /\ match r with Ok _ => At o k first h (Z.max c (ev_Seq e)) w' | Err _ => At o k first h c w' end.
Proof.
  intros (I & O & K) He Hc t. unfold sendBroadcast, send, event_body. cbn [bc_Durable].
  destruct (marshals_time _); [|by split]. fold (durable_frame e). destruct (Envelope_Validate _); [|by split].
  destruct (_ <? _); [by split|]. destruct (Write _ _) as [cn [u|er]]; (split; [done|]); (split; [|done]).
  - destruct I as [W P F A Fr Ow]. split; try done; cbn.
    + lia.
    + unfold seen in *. rewrite omap_app. cbn. by apply applied_snoc.
    + apply Forall_app. split; [done|]. constructor; [|done]. cbn. by exists e.
    + by apply (own_ok_grow _ w).
  - destruct I as [W P F A Fr Ow]. split; try done; cbn.
    + unfold seen in *. rewrite omap_app. cbn. by rewrite app_nil_r.
    + apply Forall_app. split; [done|]. by constructor.
    + by apply (own_ok_grow _ w).
Qed.
Lemma steady_send kind id method body seq : steady (send kind id method body seq).
Proof. intros w. unfold send. repeat case_match; by split. Qed.
Lemma steady_broadcast b : steady (sendBroadcast b).
Proof. unfold sendBroadcast. repeat case_match; apply steady_send || apply steady_ret. Qed.

Definition page_ok (last : Z) (l : list DurableEvent) (w : world) : Prop :=
  Forall (fun e => e ∈ log w) l /\ ev_Seq <$> l = seqZ (last + 1) (Z.of_nat (length l)).
Lemma steady_page high last l : steady (send_page high last l).
Proof.
  revert last. induction l as [|e l IH]; intros last; cbn [send_page]; [apply steady_ret|]. destruct (_ || _); [apply steady_ret|].
  apply steady_bind; [apply steady_broadcast|]. intros [u|er]; [apply IH|apply steady_ret].
Qed.
Lemma send_page_spec o k first h high last l : high <= k ->
  spec (fun w => At o k first h last w /\ page_ok last l w) (send_page high last l)
       (fun r w => match r with Ok last' => At o k first h last' w /\ last' = last + Z.of_nat (length l) /\ last' <= Z.max last high | Err _ => some_cursor first w end).
Proof.
  intros Hk. revert last. induction l as [|e l IH]; intros last w (A & F & S); (split; [by eapply At_wf|]); cbn [send_page].
  { intros _. cbn. split_and!; [done|lia|lia]. }
  intros T. destruct (_ || _) eqn:B; [by eapply At_some|]. apply orb_false_iff in B as [_ B%Z.ltb_ge].
  apply Forall_cons in F as [He F]. cbn [length] in S. rewrite fmap_cons, seqZ_cons in S by lia. injection S as Se S.
  pose proof (send_durable o k first h last e w A He ltac:(lia) None) as D. unfold mbind, Proc_bind in *.
  destruct (sendBroadcast _ w) as [w1 [u|er]]; destruct D as [Ed D]; [|by eapply At_some].
  rewrite Se in D. replace (Z.max last (last + 1)) with (last + 1) in D by lia. rewrite Se in T |- *.
  destruct (IH (last + 1) w1) as [_ H].
  - split; [done|]. split; [unfold log; by rewrite Ed|]. rewrite S. f_equal; lia.
  - specialize (H T). destruct (send_page high (last + 1) l w1) as [w2 [x|er]]; cbn in *; [|done]. destruct H as (H & -> & H'). split_and!; [done|lia|lia].
Qed.

Lemma events_page d last high l : wf None None d -> 0 <= last < high -> Events (mkStore d None None) rid last high 128 = Ok l ->
  Forall (fun e => e ∈ room_log d rid) l /\
  ev_Seq <$> l = seqZ (last + 1) (Z.min 128 (Z.min high (Z.of_nat (length (room_log d rid))) - last)).
Proof.
  intros W H E. unfold Events in E. cbn [db] in E. destruct (validateRoomID rid) as [[]|]; [|done]. cbn [result_bind] in E.
  destruct ((_ <=? _) || _); [done|]. cbn [negb check result_bind] in E. destruct (find_room d rid); [|done]. injection E as <-. split.
  - apply Forall_forall. intros e He. apply elem_of_take in He as (i & Hi & _). apply list_elem_of_lookup_2, filter_elem_of in Hi. by apply Hi.
  - change (fun e => in_range last high (ev_Seq e)) with (fun e => (in_range last high) (ev_Seq e)).
    rewrite <- (firstn_map ev_Seq), (fmap_bfilter ev_Seq), room_log_length by done. rewrite range_filter by lia.
    change 128%nat with (Z.to_nat 128). rewrite firstn_seqZ by lia. f_equal. destruct (Z.eqb_spec high 0); lia.
Qed.
Lemma steady_pages fuel sub high last : steady (replay_pages cfg env fuel sub high last).
Proof.
  revert last. induction fuel as [|fuel IH]; intros last; cbn [replay_pages]; (destruct (negb _); [apply steady_ret|]); [apply steady_ret|].
  apply steady_bind; [apply neutral_steady, neutral_Closed|]. intros []; [apply steady_ret|].
  apply steady_bind; [apply neutral_steady, neutral_reading|]. intros [[|e l]|er]; try (apply steady_ret).
  apply steady_bind; [apply steady_page|]. intros [x|er]; [apply IH|apply steady_ret].
Qed.
Lemma replay_pages_spec fuel o k first h sub high last : high <= k -> 0 <= last -> (Z.to_nat (high - last) <= fuel)%nat ->
  spec (At o k first h last) (replay_pages cfg env fuel sub high last)
       (fun r w => match r with Ok _ => At o k first h (Z.max last high) w | Err _ => some_cursor first w end).
Proof.
  intros Hk. revert last. induction fuel as [|fuel IH]; intros last Hl Hf; cbn [replay_pages]; (destruct (Z.ltb_spec last high) as [L|L]; cbn [negb];
    [|apply spec_ret; [intros w; apply At_wf|intros w; by rewrite Z.max_l by lia]]); [lia|].
  eapply spec_bind; [apply neutral_steady, neutral_Closed| |apply neutral_spec, neutral_Closed|].
  { intros []; [apply steady_ret|]. apply steady_bind; [apply neutral_steady, neutral_reading|].
    intros [[|e l]|er]; try (apply steady_ret). apply steady_bind; [apply steady_page|].
    intros [x|er]; [apply steady_pages|apply steady_ret]. }
  intros []; [apply spec_ret; [intros w; apply At_wf|intros w; apply At_some]|].
  eapply spec_bind; [apply neutral_steady, neutral_reading| |apply session_reading_spec|].
  { intros [[|e l]|er]; try (apply steady_ret). apply steady_bind; [apply steady_page|].
    intros [x|er]; [apply steady_pages|apply steady_ret]. }
  intros [[|e l]|er]; try (apply spec_ret; [intros w [A _]; by eapply At_wf|intros w [A _]; by eapply At_some]).
  eapply spec_bind; [apply steady_page|intros [x|er]; [apply steady_pages|apply steady_ret]| |].
  { eapply spec_mono; [|intros a w H; exact H|apply (send_page_spec o k first h high last (e :: l)); done].
    intros w [A H]. split; [done|]. specialize (H _ eq_refl). pose proof (At_wf _ _ _ _ _ _ A) as W.
    apply events_page in H as [F S]; [|done|lia]. split; [done|]. rewrite S. f_equal.
    pose proof (f_equal length S) as E. rewrite length_fmap, length_seqZ in E. destruct A as (_ & _ & K). unfold latest, log in K. cbn [length] in *. lia. }
  intros [x|er]; cbn beta iota; [|apply spec_ret; [intros w (h' & c & I); apply (iv_wf _ _ _ _ I)|done]].
  destruct (decide (x = last + Z.of_nat (S (length l)) /\ x <= Z.max last high)) as [[-> B]|N].
  - eapply spec_mono; [intros w [A _]; exact A| |apply IH; lia]. intros [u|er] w; [|done].
    by replace (Z.max (last + Z.of_nat (S (length l))) high) with (Z.max last high) by lia.
  - intros w [_ E]. by destruct N.
Qed.

Lemma latest_of w high : wf None None (sw_db w) -> LatestSeq (mkStore (sw_db w) None None) rid = Ok high -> high = latest w.
Proof.
  intros W. unfold LatestSeq. destruct (validateRoomID rid) as [[]|]; [|done]. cbn [result_bind db].
  destruct (find_room (sw_db w) rid) as [r|] eqn:E; [|done]. intros [= <-]. apply find_room_elem in E as [Hr E].
  pose proof (room_log_seqs _ r W Hr) as S. pose proof (f_equal length S) as L. rewrite length_fmap, length_seqZ, E in L.
  pose proof (wf_next _ _ _ W r Hr). unfold latest, log. lia.
Qed.
Lemma take_grows i : steady (take cfg env i).
Proof.
  intros w. unfold take, shared. cbn. split; [etrans; [|apply deeds_grow]; by intros W|].
  exact (proj1 (deeds_fields (sv_others env (sw_calls w)) (count_access w))).
Qed.
Ltac steady_tac :=
  repeat lazymatch goal with
  | |- steady (mbind _ _) => apply steady_bind; [|intros ?]
  | |- steady (mret _) => apply steady_ret
  | |- steady (match ?x with _ => _ end) => destruct x
  | |- steady (replay_pages _ _ _ _ _ _) => apply steady_pages
  | |- steady (send _ _ _ _ _) => apply steady_send
  | |- steady (sendBroadcast _) => apply steady_broadcast
  | |- steady (take _ _ _) => apply take_grows
  | |- steady _ => apply neutral_steady; solve [auto with neutral]
  end.
Lemma steady_replay hid last sub : steady (replay cfg env hid last sub).
Proof. unfold replay. steady_tac. Qed.

(** The client's cursor is [first] and the subscription holds what was published
    since. *)
Definition subscribed (o : option nat) (first : Z) (w : world) : Prop := exists h, At o h first h first w.
Definition caught_up (o : option nat) (first : Z) (w : world) : Prop := exists c, At o c first c c w.
Lemma ends_badly {A} o k first h c (a : A) (Q : A -> world -> Prop) : (forall w, some_cursor first w -> Q a w) -> spec (At o k first h c) (mret a) Q.
Proof. intros H. apply spec_ret; intros w; [apply At_wf|]. intros A'. apply H. by eapply At_some. Qed.
Lemma replay_spec o first hid sub : 0 <= first ->
  spec (subscribed o first) (replay cfg env hid first sub)
       (fun r w => match r with Ok _ => caught_up o first w | Err _ => some_cursor first w end).
Proof.
  intros H0 w0 [h A0]. revert w0 A0. change (spec (At o h first h first) (replay cfg env hid first sub)
    (fun r w => match r with Ok _ => caught_up o first w | Err _ => some_cursor first w end)). unfold replay.
  eapply spec_bind; [apply neutral_steady, neutral_reading|intros a; steady_tac|apply session_reading_spec|].
  intros [high|er]; cbn [lift_err]; [|apply spec_ret; intros w [A _]; [by eapply At_wf|by eapply At_some]].
  eapply (spec_mono _ (fun w => At o high first high first w /\ h <= high)); [|intros a w H; exact H|].
  { intros w [(I & O & K) E]. specialize (E high eq_refl). apply latest_of in E; [|apply (iv_wf _ _ _ _ I)]. subst high.
    split; [|lia]. split_and!; [by eapply Inv_horizon|done|lia]. }
  destruct (Z.ltb_spec high first) as [L|L]; [apply spec_ret; intros w [A _]; [by eapply At_wf|by eapply At_some]|].
  eapply (spec_mono _ (At o high first high first)); [intros w [A _]; exact A|intros a w H; exact H|].
  eapply spec_bind; [apply neutral_steady, neutral_snapshot|intros a; steady_tac|apply neutral_spec, neutral_snapshot|].
  intros [s|er]; cbn [lift_err]; [|by apply ends_badly].
  eapply spec_bind; [apply steady_send|intros a; steady_tac|apply neutral_spec, neutral_send|].
  intros [u|er]; [|by apply ends_badly].
  eapply spec_bind; [apply steady_pages|intros a; steady_tac|apply replay_pages_spec; lia|].
  intros [u'|er]; [|apply spec_ret; [intros w (? & ? & I); apply (iv_wf _ _ _ _ I)|done]].
  rewrite Z.max_r by lia.
  eapply spec_bind; [apply neutral_steady, neutral_snapshot|intros a; steady_tac|apply neutral_spec, neutral_snapshot|].
  intros [s'|er]; cbn [lift_err]; [|by apply ends_badly].
  eapply spec_bind; [apply steady_send|intros a; steady_tac|apply neutral_spec, neutral_send|].
  intros [v|er]; cbn [result_map]; [|by apply ends_badly].
  apply spec_ret; [intros w; apply At_wf|]. intros w A. by exists high.
Qed.

(** ** The live loop *)

Lemma take_spec i first c : spec (At (Some i) c first c c) (take cfg env i)
  (fun b w => match b with
              | None => caught_up (Some i) first w
              | Some b =>
                  match bc_Durable b with
                  | Some e => At (Some i) c first (Z.max c (ev_Seq e)) c w /\ e ∈ log w /\ ev_Seq e <= c + 1 /\ bc_Transient b = None
                  | None => At (Some i) c first c c w
                  end
              end).
Proof.
  intros w A. split; [by eapply At_wf|]. unfold take, shared. set (w1 := foldl _ _ _). cbn. intros T.
  assert (A1 : At (Some i) c first c c w1).
  { pose proof (neutral_spec _ (Some i) c first c c (neutral_shared (fun _ w => (w, tt)) (fun _ => neutral_read _)) w A) as [_ H]. exact (H T). }
  clearbody w1. destruct A1 as (I & O & K). pose proof I as [W P F Ap Fr Ow]. unfold own_ok in Ow. rewrite O in Ow. destruct Ow as (s & q & Hs & H).
  unfold receive. cbn. rewrite Hs. cbn.
  assert (L : forall s', subs (sw_hub (set_hub (mkHub (maxEvents (sw_hub w1)) (maxBytes (sw_hub w1)) (alter take_event i (subs (sw_hub w1)))) w1)) !! i = Some s' <-> s' = take_event s).
  { intros s'. cbn. rewrite list_lookup_alter_eq, Hs. cbn. split; congruence. }
  assert (Keep : forall h q', holds_up_to h w1 (take_event s) q' -> Inv first h c
    (set_hub (mkHub (maxEvents (sw_hub w1)) (maxBytes (sw_hub w1)) (alter take_event i (subs (sw_hub w1)))) w1)).
  { intros h q' H'. split; try done. unfold own_ok. cbn [sw_own set_hub]. rewrite O. exists (take_event s), q'. split; [by apply L|].
    by eapply (holds_grow _ w1). }
  destruct s as [sa ev sc sz sb]. destruct H as [A' B Pu Q R]. unfold durables in *. cbn [sub_events sub_closed] in *. destruct ev as [|b l]; cbn.
  - exists c. split_and!; [|done|done]. by apply (Keep c q).
  - cbn [omap list_omap] in *. apply Forall_cons in Pu as [Pb Pu]. destruct (bc_Durable b) as [e|] eqn:Eb.
    + rewrite fmap_cons in A'. destruct A' as [Se A']. apply Forall_cons in B as [He B].
      destruct Pb as [?|Pb]; [done|]. split_and!; [split_and!; [|done|done]|done|done|done]. by apply (Keep _ q).
    + split_and!; [|done|done]. by apply (Keep c q).
Qed.

Lemma neutral_read_frame : neutral (read_frame cfg).
Proof.
  intros w. unfold read_frame. destruct (Read _ _) as [src r]. cbn. split_and!; [by intros W|done|].
  intros first h c I _. by apply (same_world_Inv _ _ _ w).
Qed.
Lemma neutral_ack id seq : neutral (writing cfg env (fun s _ => Ack s id seq)).
Proof. apply neutral_writing. intros s _. by exists (OpAck id seq). Qed.
#[local] Hint Resolve neutral_read_frame neutral_ack : neutral.
Lemma neutral_handle actor id method body : neutral (handle cfg env actor id method body).
Proof. unfold handle, on_submit, on_query. neutral_tac. Qed.
#[local] Hint Resolve neutral_handle : neutral.
Lemma neutral_dispatch actor id e : neutral (dispatch cfg env actor id e).
Proof. unfold dispatch. neutral_tac. Qed.
#[local] Hint Resolve neutral_dispatch : neutral.

Lemma steady_round actor id sub revision x : steady (round cfg env actor id sub revision x).
Proof. unfold round. destruct x; steady_tac. Qed.
Lemma round_spec i actor id first revision x :
  spec (caught_up (Some i) first) (round cfg env actor id i revision x)
       (fun go w => if go then caught_up (Some i) first w else some_cursor first w).
Proof.
  intros w0 [c A0]. revert w0 A0. change (spec (At (Some i) c first c c) (round cfg env actor id i revision x)
    (fun go w => if go then caught_up (Some i) first w else some_cursor first w)).
  assert (N : forall m : M bool, neutral m -> spec (At (Some i) c first c c) m (fun go w => if go then caught_up (Some i) first w else some_cursor first w)).
  { intros m H. eapply spec_mono; [intros w A; exact A| |by apply neutral_spec]. intros [] w A; [by exists c|by eapply At_some]. }
  destruct x; cbn [round]; try solve [apply N; neutral_tac].
  eapply spec_bind; [apply take_grows|intros a; steady_tac|apply take_spec|].
  intros [b|].
  2:{ intros w [c' A]. pose proof (neutral_spec (closed ← sub_Closed cfg env i; mret (negb closed)) (Some i) c' first c' c' ltac:(neutral_tac) w A) as [W H].
      split; [done|]. intros T. specialize (H T). destruct (_ w).2; [by exists c'|by eapply At_some]. }
  destruct (bc_Durable b) as [e|] eqn:Eb.
  - intros w (A & He & Hc & Tb). split; [by eapply At_wf|]. rewrite Tb. intros T.
    pose proof (send_durable _ _ _ _ _ _ _ A He Hc None) as D. destruct b as [[e'|] bt]; [|done]. cbn in Eb, Tb. injection Eb as ->. subst bt.
    unfold mbind, Proc_bind in *. destruct (sendBroadcast _ w) as [w' [u|er]]; cbn in *; destruct D as [ED D]; [|by eapply At_some].
    exists (Z.max c (ev_Seq e)). destruct D as (I & O & K). split_and!; [eapply Inv_horizon; [|done]; lia|done|].
    pose proof (log_elem_seq _ _ _ (iv_wf _ _ _ _ (proj1 A)) He) as L. unfold latest, log in *. rewrite ED in *. lia.
  - apply N. destruct (match bc_Transient b with Some t => _ | None => false end); [neutral_tac|].
    unfold sendBroadcast. rewrite Eb. neutral_tac.
Qed.

Lemma steady_rounds actor id sub revision l : steady (rounds cfg env actor id sub revision l).
Proof.
  induction l as [|x l IH]; cbn [rounds]; [apply steady_ret|]. apply steady_bind; [apply steady_round|]. intros []; [apply IH|apply steady_ret].
Qed.
Definition outcome (i : nat) (first : Z) (go : bool) (w : world) : Prop := if go then caught_up (Some i) first w else some_cursor first w.
Lemma rounds_spec i actor id first revision l :
  spec (caught_up (Some i) first) (rounds cfg env actor id i revision l) (outcome i first).
Proof.
  induction l as [|x l IH]; cbn [rounds]; [apply spec_ret; [intros w [c A]; by eapply At_wf|done]|].
  eapply spec_bind; [apply steady_round|intros []; [apply steady_rounds|apply steady_ret]|apply round_spec|].
  intros []; [exact IH|]. apply spec_ret; [intros w (h & c & I); apply (iv_wf _ _ _ _ I)|done].
Qed.
Lemma steady_live actor id sub r l : steady (live cfg env actor id sub r l).
Proof. unfold live. destruct r as [rev|[]]; steady_tac; apply steady_rounds. Qed.
Lemma some_cursor_wf first w : some_cursor first w -> wf None None (sw_db w).
Proof. intros (h & c & I). apply (iv_wf _ _ _ _ I). Qed.
Lemma neutral_false {A} (m : M A) i first : neutral m -> spec (some_cursor first) (m;; mret false) (outcome i first).
Proof.
  intros H. eapply spec_bind; [by apply neutral_steady|intros ?; apply steady_ret|by apply neutral_some|].
  intros a. apply spec_ret; [apply some_cursor_wf|done].
Qed.
Lemma live_spec i actor id first r l :
  spec (fun w => match r with Ok _ => caught_up (Some i) first w | Err _ => some_cursor first w end) (live cfg env actor id i r l) (outcome i first).
Proof.
  unfold live. destruct r as [rev|[]]; [apply rounds_spec| | |].
  all: try (eapply spec_bind; [apply neutral_steady, neutral_Closed|intros ?; steady_tac|apply neutral_some, neutral_Closed|
    intros closed; apply neutral_false, neutral_fail]).
  apply spec_ret; [apply some_cursor_wf|done].
Qed.

Lemma subscribe_growing a : growing (subscribe cfg env a).
Proof. intros w. unfold subscribe, shared. cbn. etrans; [|apply deeds_grow]. by intros W. Qed.
Lemma subscribe_spec a k h first : spec (At None k first h first) (subscribe cfg env a) (fun i w => subscribed (Some i) first w).
Proof.
  intros w A. split; [by eapply At_wf|]. unfold subscribe, shared. set (w1 := foldl _ _ _). cbn. intros T.
  assert (A1 : At None k first h first w1).
  { pose proof (neutral_spec _ None k first h first (neutral_shared (fun _ w => (w, tt)) (fun _ => neutral_read _)) w A) as [_ H]. exact (H T). }
  clearbody w1. destruct A1 as (I & O & K). exists (latest w1). split; [|done]. destruct I as [W P F Ap Fr Ow]. split; try done.
  exists (mkSub a [] false [] 0), (sw_published w1). split; [cbn; by rewrite lookup_app_r, Nat.sub_diag by lia|].
  split; unfold durables; cbn; try done. lia.
Qed.

(** What the first frame of the client asks for. *)
Definition requested (w : world) : Seq :=
  match (Read (reader_maximum (cg_MaximumFrameBytes cfg)) (sw_source w)).2 with
  | Ok e => match DecodeHello (en_Body e) with Ok h => he_LastAppliedSeq h | Err _ => 0 end
  | Err _ => 0
  end.
Lemma digits_nonneg s acc z : 0 <= acc -> digits acc s = Some z -> 0 <= z.
Proof.
  revert acc. induction s as [|c s IH]; intros acc H; cbn; [by intros [= <-]|]. destruct (is_digit c) eqn:E; [|done].
  apply IH. unfold is_digit, between in E. lia.
Qed.
Lemma hello_nonneg body h : DecodeHello body = Ok h -> 0 <= he_LastAppliedSeq h.
Proof.
  unfold DecodeHello, DecodeBody, dec_hello.
  intros (_ & _ & (_ & _ & (l & _ & (x & (a & _ & (b & _ & (c & E & [= <-])%result_bind_ok)%result_bind_ok)%result_bind_ok
    & (_ & _ & [= <-])%result_bind_ok)%result_bind_ok)%result_bind_ok)%result_bind_ok)%result_bind_ok. cbn.
  unfold field, dec_uint, ParseUint, parse_nat in E. repeat case_match; simplify_eq; try lia.
  all: repeat match goal with H : _ ≫= _ = Some _ |- _ => apply bind_Some in H as (? & ? & ?) end; repeat case_match; simplify_eq.
  all: by eapply digits_nonneg; [|done].
Qed.
Lemma requested_nonneg w : 0 <= requested w.
Proof. unfold requested. repeat case_match; [by eapply hello_nonneg|lia..]. Qed.

(** ** The whole session *)

Definition served (first : Z) (go : bool) (w : world) : Prop := if go then exists i, caught_up (Some i) first w else some_cursor first w.
Definition asking (first : Z) (w : world) : Prop := At None 0 first first first w /\ requested w = first.
Lemma reading_asking {A} (op : Store -> result error A) first : spec (asking first) (reading cfg env op) (fun _ => asking first).
Proof.
  intros w [I R]. destruct (neutral_spec _ None 0 first first first (neutral_reading op) w I) as [W H]. split; [done|]. intros T.
  split; [by apply H|]. rewrite <- R. unfold requested, reading, shared. cbn.
  by destruct (deeds_fields (sv_others env (sw_calls w)) (count_access w)) as (_ & _ & -> & _).
Qed.
Lemma asking_At first w : asking first w -> At None 0 first first first w.
Proof. by intros [A _]. Qed.
(** The first frame: its cursor is the one the session starts from. *)
Lemma hello_spec first : spec (asking first) (read_frame cfg)
  (fun r w => At None 0 first first first w /\ forall e h, r = Ok e -> DecodeHello (en_Body e) = Ok h -> he_LastAppliedSeq h = first).
Proof.
  intros w [A R]. destruct (neutral_spec _ None 0 first first first neutral_read_frame w A) as [W H]. split; [done|]. intros T.
  split; [by apply H|]. intros e h. unfold requested, read_frame in *. destruct (Read _ _) as [src [e'|]]; cbn in *; [|done].
  intros [= ->] E. by rewrite E in R.
Qed.
Lemma served_ret first : spec (some_cursor first) (mret false) (served first).
Proof. apply spec_ret; [apply some_cursor_wf|done]. Qed.
Lemma served_fail {A} (m : M A) first : neutral m -> spec (some_cursor first) (m;; mret false) (served first).
Proof.
  intros H. eapply spec_bind; [by apply neutral_steady|intros ?; apply steady_ret|by apply neutral_some|]. intros a. apply served_ret.
Qed.
Lemma neutral_connect u id : neutral (writing cfg env (fun s now => Connected s {| cr_ID := id; cr_RoomID := rid; cr_UID := u;
  cr_ConnectedAt := now; cr_DisconnectedAt := None; cr_LastAck := 0 |})).
Proof. apply neutral_writing. intros s now. by eexists (OpConnected _). Qed.
Lemma neutral_disconnect id : neutral (writing cfg env (fun s now => Disconnected s id now)).
Proof. apply neutral_writing. intros s now. by eexists (OpDisconnected id now). Qed.
#[local] Hint Resolve neutral_connect neutral_disconnect : neutral.
Ltac growing_tac :=
  repeat lazymatch goal with
  | |- growing (mbind _ _) => apply growing_bind; [|intros ?]
  | |- growing (match ?x with _ => _ end) => destruct x
  | |- growing (let x := _ in _) => cbv zeta
  | |- growing (subscribe _ _ _) => apply subscribe_growing
  | |- growing (replay _ _ _ _ _) => apply steady_growing, steady_replay
  | |- growing (live _ _ _ _ _ _ _) => apply steady_growing, steady_live
  | |- growing (mret _) => apply steady_growing, steady_ret
  | |- growing _ => apply steady_growing, neutral_steady; solve [auto with neutral]
  end.
Lemma ServeMember_spec member l first : 0 <= first -> spec (asking first) (ServeMember cfg env member l) (served first).
Proof.
  intros F. unfold ServeMember. eapply spec_bind_growing; [apply steady_growing, neutral_steady, neutral_reading| |apply reading_asking|].
  { intros r. growing_tac. }
  intros stored. destruct (negb _); [eapply spec_mono; [|intros b w H; exact H|apply served_ret]; intros w H%asking_At; by eapply At_some|].
  eapply spec_bind_growing; [apply steady_growing, neutral_steady, neutral_read_frame| |apply hello_spec|].
  { intros r. growing_tac. }
  assert (Fail : forall B (m : M B) P, neutral m -> spec (fun w => At None 0 first first first w /\ P w) (m;; mret false) (served first)).
  { intros B m P H. eapply spec_mono; [|intros b w K; exact K|by apply served_fail]. intros w [K _]. by eapply At_some. }
  intros [e|er]; [|apply Fail, neutral_fail].
  destruct (Accept _ e).2; [|apply Fail, neutral_fail]. destruct (DecodeHello (en_Body e)) as [h|] eqn:Eh; [|apply Fail, neutral_fail].
  destruct (sv_connection_id env) as [id|]; [|apply Fail, neutral_fail]. destruct (negb _); [apply Fail, neutral_fail|].
  eapply (spec_mono _ (fun w => At None 0 first first first w /\ he_LastAppliedSeq h = first)); [|intros b w K; exact K|].
  { intros w [A K]. split; [done|]. by eapply K. }
  destruct (decide (he_LastAppliedSeq h = first)) as [->|N]; [|by intros w [_ ?]].
  eapply spec_bind_growing; [apply steady_growing, neutral_steady, neutral_connect| |eapply spec_mono; [|intros b w K; exact K|
    apply (neutral_spec _ None 0 first first first), neutral_connect]; by intros w [A _]|].
  { intros r. growing_tac. }
  intros [u|er].
  2:{ eapply spec_mono; [|intros b w K; exact K|apply served_fail, neutral_fail]. intros w A. by eapply At_some. }
  eapply spec_bind_growing; [apply subscribe_growing| |apply subscribe_spec|]; [intros i; growing_tac|].
  intros i. eapply spec_bind; [apply steady_replay| |by apply replay_spec|].
  { intros r. apply steady_bind; [apply steady_live|]. intros []; steady_tac. }
  intros r. eapply spec_bind; [apply steady_live| |apply live_spec|].
  { intros []; steady_tac. }
  intros []; [apply spec_ret; [intros w [c A]; by eapply At_wf|by intros w H; exists i]|].
  eapply spec_bind; [apply neutral_steady, neutral_Close|intros ?; steady_tac|by apply neutral_some, neutral_Close|].
  intros ?. apply served_fail, neutral_disconnect.
Qed.

(** ** A session that goes on *)

Lemma rounds_app actor id sub revision l l' w : rounds cfg env actor id sub revision (l ++ l') w =
  let '(w1, go) := rounds cfg env actor id sub revision l w in if go : bool then rounds cfg env actor id sub revision l' w1 else (w1, false).
Proof.
  revert w. induction l as [|x l IH]; intros w; cbn [rounds app]; [done|]. unfold mbind, Proc_bind.
  destruct (round _ _ _ _ _ _ _ w) as [w1 []]; [apply IH|done].
Qed.
Definition close_session (sub : nat) (id : ConnectionID) (go : bool) : M bool :=
  if go then mret true else sub_Close cfg env sub;; writing cfg env (fun s now => Disconnected s id now);; mret false.
Lemma close_session_true sub id go w w1 : close_session sub id go w = (w1, true) -> go = true /\ w1 = w.
Proof.
  unfold close_session. destruct go; [by intros [= <-]|]. unfold mbind, Proc_bind. destruct (sub_Close _ _ _ w) as [w2 []].
  by destruct (writing _ _ _ w2).
Qed.
(** What a session does with more choices when it still runs after [l]. *)
Lemma ServeMember_continues member l w w1 : ServeMember cfg env member l w = (w1, true) ->
  exists id revision sub, sw_own w1 = Some sub /\
    forall l', ServeMember cfg env member (l ++ l') w =
      (go ← rounds cfg env {| ac_UID := mb_UID member; ac_Name := mb_Name member |} id sub revision l'; close_session sub id go) w1.
Proof.
  unfold ServeMember, mbind, Proc_bind. destruct (reading _ _ _ w) as [w2 stored]. destruct (negb _); [done|].
  destruct (read_frame cfg w2) as [w3 [e|er]]; [|by destruct (fail _ _ w3)].
  destruct (Accept _ e).2; [|by destruct (fail _ _ w3)]. destruct (DecodeHello _) as [h|]; [|by destruct (fail _ _ w3)].
  destruct (sv_connection_id env) as [id|]; [|by destruct (fail _ _ w3)]. destruct (negb _); [by destruct (fail _ _ w3)|].
  destruct (writing _ _ _ w3) as [w4 [u|er]]; [|by destruct (fail _ _ w4)].
  destruct (subscribe _ _ _ w4) as [w5 sub] eqn:Es. assert (O5 : sw_own w5 = Some sub) by (unfold subscribe, shared in Es; by injection Es as <- <-).
  destruct (replay _ _ _ _ _ w5) as [w6 r] eqn:Er. pose proof (proj2 (steady_replay (en_ID e) (he_LastAppliedSeq h) sub w5)) as O6.
  rewrite Er in O6. cbn in O6. destruct (live _ _ _ _ _ r l w6) as [w7 go] eqn:El.
  pose proof (proj2 (steady_live {| ac_UID := mb_UID member; ac_Name := mb_Name member |} id sub r l w6)) as O7. rewrite El in O7. cbn in O7.
  intros [-> ->]%(close_session_true sub id). destruct r as [rev|er].
  - exists id, rev, sub. split; [congruence|]. intros l'. cbn [live] in *. by rewrite rounds_app, El.
  - exfalso. revert El. unfold live, mbind, Proc_bind. destruct er; [|done|].
    all: destruct (sub_Closed _ _ _ w6) as [w8 b]; by destruct (fail _ _ w8).
Qed.

(** ** Draining the subscription *)

(** The environment is still from the access [n] on. *)
Definition quiet_from (n : nat) : Prop := forall k, (n <= k)%nat -> sv_others env k = [].
(** The frame of a broadcast can be written. *)
Definition frame_fits (kind : Kind) (method : string) (body : option json) (seq : option Z) : bool :=
  match body with
  | None => false
  | Some j =>
      let e := {| en_Version := 1; en_Kind := kind; en_ID := ""; en_Method := method; en_Requires := []; en_Seq := seq; en_Body := marshal j |} in
      is_ok (Envelope_Validate e) && negb (MaxFrameBytes <? len (marshal_envelope e))
  end.
Definition broadcast_fits (b : Broadcast) : bool :=
  match bc_Durable b, bc_Transient b with
  | Some e, _ => frame_fits KindEvent (ev_Kind e) (event_body e) (Some (ev_Seq e))
  | None, Some t => frame_fits KindEvent (te_Kind t) (Some (transient_json t)) None
  | None, None => true
  end.
Lemma send_fits kind method body seq w : frame_fits kind method body seq = true -> script (sw_conn w) = [] ->
  (send kind "" method body seq w).2 = Ok tt /\ script (sw_conn (send kind "" method body seq w).1) = [] /\
  exists c a, (send kind "" method body seq w).1 = wrote c a w.
Proof.
  unfold frame_fits, send. destruct body as [j|]; [|done]. set (e := Build_Envelope _ _ _ _ _ _ _). intros [V F%negb_true_iff]%andb_true_iff S.
  destruct (Envelope_Validate e) as [[]|] eqn:Ev; [|done]. rewrite F.
  destruct (Write (sw_conn w) e) as [c r] eqn:Ew. pose proof (Write_open _ e S Ev F) as H. rewrite Ew in H. cbn in H. destruct H as [-> Sc].
  cbn. split_and!; [done|done|by eexists _, _].
Qed.

Definition open_with (w : world) (i : nat) (l : list Broadcast) : Prop :=
  sw_own w = Some i /\ exists s, subs (sw_hub w) !! i = Some s /\ sub_closed s = false /\ sub_events s = l.
Lemma take_quiet w i b l : quiet_from (sw_calls w) -> open_with w i (b :: l) ->
  let '(w', r) := take cfg env i w in
  r = Some b /\ open_with w' i l /\ sw_db w' = sw_db w /\ sw_published w' = sw_published w /\ sw_conn w' = sw_conn w /\ sw_calls w' = S (sw_calls w).
Proof.
  intros Q (O & s & Hs & C & E). unfold take, shared. rewrite Q by lia. cbn. rewrite Hs. cbn. rewrite E. split_and!; try done.
  split; [done|]. exists (take_event s). cbn. rewrite list_lookup_alter_eq, Hs. cbn. by rewrite E.
Qed.
Lemma broadcast_quiet b w : broadcast_fits b = true -> script (sw_conn w) = [] ->
  let '(w', r) := sendBroadcast b w in
  r = Ok tt /\ script (sw_conn w') = [] /\ sw_db w' = sw_db w /\ sw_published w' = sw_published w /\ sw_own w' = sw_own w /\
  sw_hub w' = sw_hub w /\ sw_calls w' = sw_calls w.
Proof.
  unfold broadcast_fits, sendBroadcast. intros F S. destruct (bc_Durable b) as [e|]; [|destruct (bc_Transient b) as [t|]; [|done]].
  all: pose proof (send_fits _ _ _ _ w F S) as (R & Sc & c & a & E); destruct (send _ _ _ _ _ w) as [w' r]; cbn in *; by subst.
Qed.
Lemma round_quiet actor id i revision w b l : quiet_from (sw_calls w) -> script (sw_conn w) = [] -> broadcast_fits b = true -> open_with w i (b :: l) ->
  exists w', round cfg env actor id i revision OnEvent w = (w', true) /\ open_with w' i l /\ script (sw_conn w') = [] /\
    quiet_from (sw_calls w') /\ sw_db w' = sw_db w /\ sw_published w' = sw_published w.
Proof.
  intros Q S F O. cbn [round]. unfold mbind, Proc_bind. pose proof (take_quiet w i b l Q O) as T. destruct (take _ _ _ w) as [w1 r].
  destruct T as (-> & O1 & D1 & P1 & C1 & N1). assert (Q1 : quiet_from (sw_calls w1)) by (intros k Hk; apply Q; lia).
  destruct (match bc_Transient b with Some t => _ | None => false end); [exists w1; split_and!; try done; congruence|].
  assert (S1 : script (sw_conn w1) = []) by congruence. pose proof (broadcast_quiet b w1 F S1) as B.
  destruct (sendBroadcast b w1) as [w2 r]. destruct B as (-> & S2 & D2 & P2 & O2 & H2 & N2). exists w2. split; [done|]. unfold open_with.
  rewrite O2, H2, N2. split_and!; [apply O1|apply O1|done|done|congruence|congruence].
Qed.
Lemma rounds_quiet actor id i revision l : forall w, quiet_from (sw_calls w) -> script (sw_conn w) = [] ->
  Forall (fun b => broadcast_fits b = true) l -> open_with w i l ->
  exists w', rounds cfg env actor id i revision (replicate (length l) OnEvent) w = (w', true) /\ open_with w' i [] /\
    sw_db w' = sw_db w /\ sw_published w' = sw_published w.
Proof.
  induction l as [|b l IH]; intros w Q S F O; cbn [length replicate rounds]; [by exists w|]. apply Forall_cons in F as [Fb F].
  destruct (round_quiet actor id i revision w b l Q S Fb O) as (w1 & E & O1 & S1 & Q1 & D1 & P1). unfold mbind, Proc_bind. rewrite E.
  destruct (IH w1 Q1 S1 F O1) as (w2 & -> & O2 & D2 & P2). exists w2. split_and!; [done|exact O2|congruence|congruence].
Qed.

(** ** What the client has *)

Lemma applied_elem cursor l x : x ∈ applied cursor l -> x ∈ l.
Proof.
  revert cursor. induction l as [|y l IH]; intros cursor; cbn; [done|]. destruct (_ <=? _); [intros H; right; by eapply IH|].
  intros [->|H]%elem_of_cons; [by left|right; by eapply IH].
Qed.
Lemma seen_elem tr x : x ∈ seen tr -> exists f, ActFrame f ∈ tr /\ en_Seq f = Some x.
Proof.
  unfold seen. intros (a & Ha & E)%list_elem_of_omap. destruct a as [f| |]; [|done..]. by exists f.
Qed.
Lemma log_unique d e e' : wf None None d -> e ∈ room_log d rid -> e' ∈ room_log d rid -> ev_Seq e = ev_Seq e' -> e = e'.
Proof.
  intros W [i Hi]%list_elem_of_lookup [j Hj]%list_elem_of_lookup E.
  assert (N : NoDup (ev_Seq <$> room_log d rid)) by (rewrite room_log_length by done; apply NoDup_seqZ).
  assert (i = j) as ->; [|congruence]. eapply NoDup_lookup; [exact N|by rewrite list_lookup_fmap, Hi|]. rewrite list_lookup_fmap, Hj. cbn. congruence.
Qed.
Lemma applied_complete first h c w e : Inv first h c w -> e ∈ log w -> first < ev_Seq e <= c -> ActFrame (durable_frame e) ∈ sw_trace w.
Proof.
  intros [W _ F A Fr _] He H. assert (X : ev_Seq e ∈ applied first (seen (sw_trace w))) by (rewrite A; apply elem_of_seqZ; lia).
  apply applied_elem, seen_elem in X as (f & Hf & E). rewrite Forall_forall in Fr. pose proof (Fr _ Hf) as G. cbn in G. rewrite E in G.
  destruct G as (e' & He' & ->). cbn in E. injection E as E. by rewrite <- (log_unique _ e' e W).
Qed.

(** A daemon that has not served the connection yet. *)
Definition fresh (w : world) : Prop :=
  wf None None (sw_db w) /\ 0 <= sw_published w <= latest w /\ sw_own w = None /\ sw_trace w = [].
Lemma fresh_asking w : fresh w -> asking (requested w) w.
Proof.
  intros (W & P & O & T). split; [|done]. split_and!; [|done|unfold latest; lia]. split; try done.
  - rewrite T. cbn. by rewrite seqZ_nil by lia.
  - rewrite T. constructor.
  - unfold own_ok. by rewrite O.
Qed.
Lemma session_outcome member l w : fresh w -> timely (ServeMember cfg env member l w).1 ->
  served (requested w) (ServeMember cfg env member l w).2 (ServeMember cfg env member l w).1.
Proof. intros F. apply (ServeMember_spec member l _ (requested_nonneg w) w), fresh_asking, F. Qed.
End safety.

(** ** The theorems *)

(** C10: A session misses nothing.  Whatever the rest of the daemon does between its
    steps, old events published again at any time among the new ones, a client that skips what is not newer than its cursor has applied the
    sequence numbers after the cursor it asked for, without gaps or repetitions;
    every event frame it got is the frame of an event of the log, and it got the one
    of every event it applied; and while the session
    runs with its subscription open and empty, all that was published is among
    them. *)
Theorem no_event_missed cfg env member choices w :
  fresh cfg w -> let '(w', go) := ServeMember cfg env member choices w in timely cfg w' ->
  exists c, requested cfg w <= c
    /\ applied (requested cfg w) (seen (sw_trace w')) = seqZ (requested cfg w + 1) (c - requested cfg w)
    /\ (forall f s, ActFrame f ∈ sw_trace w' -> en_Seq f = Some s -> exists e, e ∈ log cfg w' /\ f = durable_frame e)
    /\ (forall e, e ∈ log cfg w' -> requested cfg w < ev_Seq e <= c -> ActFrame (durable_frame e) ∈ sw_trace w')
    /\ (go = true -> forall i s, sw_own w' = Some i -> subs (sw_hub w') !! i = Some s ->
        sub_closed s = false -> sub_events s = [] -> sw_published w' <= c).
Proof.
  intros F. destruct (ServeMember cfg env member choices w) as [w' go] eqn:E. intros T.
  pose proof (session_outcome cfg env member choices w F) as H. rewrite E in H. specialize (H T). cbn in H.
  assert (K : exists h c, Inv cfg (requested cfg w) h c w' /\ (go = true -> h = c)).
  { destruct go; [destruct H as (i & c & I & _); by exists c, c|]. destruct H as (h & c & I). by exists h, c. }
  destruct K as (h & c & I & G). exists c. split_and!; [apply I|apply I| |by intros e; apply (applied_complete _ _ h)|].
  - intros f s Hf Es. pose proof (iv_frames _ _ _ _ _ I) as Fr. rewrite Forall_forall in Fr. specialize (Fr _ Hf). cbn in Fr. by rewrite Es in Fr.
  - intros Eg i s Hi Hs C L. specialize (G Eg). subst h. pose proof (iv_own _ _ _ _ _ I) as O. unfold own_ok in O. rewrite Hi in O.
    destruct O as (s' & q & Hs' & U). assert (s' = s) as -> by congruence. destruct U as [N _ _ _ Op]. rewrite (Op C) in N. unfold durables in N. rewrite L in N. done.
Qed.

(** C11: A live session delivers.  A session that still runs, with its subscription
    open and frames that fit, brings its client everything published once the
    environment is still and it takes as many events as its buffer holds, the
    repeated ones included. *)
Theorem live_session_delivers_all cfg env member choices w w1 i s :
  fresh cfg w -> ServeMember cfg env member choices w = (w1, true) -> timely cfg w1 ->
  sw_own w1 = Some i -> subs (sw_hub w1) !! i = Some s -> sub_closed s = false ->
  Forall (fun b => broadcast_fits b = true) (sub_events s) -> script (sw_conn w1) = [] -> quiet_from env (sw_calls w1) ->
  let '(w2, go) := ServeMember cfg env member (choices ++ replicate (length (sub_events s)) OnEvent) w in
  go = true /\ sw_db w2 = sw_db w1 /\
  forall e, e ∈ log cfg w1 -> requested cfg w < ev_Seq e <= sw_published w1 -> ActFrame (durable_frame e) ∈ sw_trace w2.
Proof.
  intros F E T Hi Hs C Fit Sc Q. destruct (ServeMember_continues cfg env member choices w w1 E) as (id & revision & sub & Ho & K).
  assert (sub = i) as -> by congruence. assert (O : open_with w1 i (sub_events s)) by (split; [done|by exists s]).
  destruct (rounds_quiet cfg env {| ac_UID := mb_UID member; ac_Name := mb_Name member |} id i revision (sub_events s) w1 Q Sc Fit O)
    as (w2 & R & (Hi2 & s2 & Hs2 & C2 & E2) & D & P).
  assert (E' : ServeMember cfg env member (choices ++ replicate (length (sub_events s)) OnEvent) w = (w2, true))
    by (rewrite K; unfold mbind, Proc_bind; by rewrite R).
  rewrite E'. split_and!; [done|done|]. intros e He Hr.
  assert (L : log cfg w2 = log cfg w1) by (unfold log; by rewrite D).
  pose proof (session_outcome cfg env member (choices ++ replicate (length (sub_events s)) OnEvent) w F) as H. rewrite E' in H.
  destruct H as (j & c & I & _ & _); [change (timely cfg w2); unfold timely; by rewrite L|]. cbn in I.
  eapply applied_complete; [exact I|by rewrite L|]. pose proof (iv_own _ _ _ _ _ I) as U. unfold own_ok in U. rewrite Hi2 in U.
  destruct U as (s' & q & Hs' & U). assert (s' = s2) as -> by congruence. destruct U as [N _ _ _ Op].
  rewrite (Op C2) in N. unfold durables in N. rewrite E2 in N. cbn in N. lia.
Qed.

(** ** A session of the demo room

    Bob comes with cursor 1; while the session replays, ann submits, and the events
    after the first are published, the first and the second again. *)
Definition demo_config : Config :=
  {| cg_RoomID := demo_room; cg_RoomName := "Room"; cg_ProjectRoot := "/p"; cg_ExecutionOwner := "ann"; cg_SocketPath := "/s";
     cg_SocketGID := 0; cg_MaximumFrameBytes := MaxFrameBytes; cg_ClientBufferEvents := 8; cg_ClientBufferBytes := 65536; cg_RequestTimeout := 1;
     cg_HandshakeTimeout := 1; cg_IdleTimeout := 1 |}.
Definition demo_hello : Envelope :=
  {| en_Version := 1; en_Kind := KindRequest; en_ID := id_a; en_Method := "hello"; en_Requires := []; en_Seq := None;
     en_Body := bq "{`minVersion`:1,`maxVersion`:1,`lastAppliedSeq`:1}" |}.
Definition sent_bytes (e : Envelope) : string := out (Write {| out := ""; script := [] |} e).1.
Definition submit_c : SubmitInput := {| si_TaskID := 0; si_ClientMessageID := id_c; si_Text := "more" |}.
Definition demo_others (n : nat) : list deed :=
  match n with
  | 3%nat => [DPublish]
  | 5%nat => [DCall (ok_call (OpAcceptMessage 5 demo_room ann submit_c)); DRepublish 1; DPublish; DRepublish 2; DSubscribe ann; DPublish]
  | _ => []
  end.
Definition demo_snapshot : RoomSnapshot :=
  {| sn_Agents := []; sn_ProjectionTruncated := false; sn_Status := RoomReady; sn_ThreadID := ""; sn_Active := None; sn_Queue := [];
     sn_ProjectionRevision := 0; sn_LiveItems := []; sn_LatestSeq := 3 |}.
Definition demo_environment : environment :=
  {| sv_others := demo_others; sv_faults _ := (None, None); sv_clock n := 10 + Z.of_nat n;
     sv_snapshot _ := Ok demo_snapshot; sv_service _ _ := Err (ErrText "unused"); sv_diff _ := None;
     sv_connection_id := Ok id_b |}.
Abbreviation demo_db := (run empty_db demo_calls).
Definition demo_world : world :=
  mkWorld demo_db (NewHub 8 65536) 1 None {| out := ""; script := [] |} [sent_bytes demo_hello] 0 [].
Definition demo_bob : Member := {| mb_UID := 8; mb_Name := "bob" |}.
Lemma demo_fresh : fresh demo_config demo_world.
Proof. split; [apply reachable_wf|]. split; [by vm_compute|done]. Qed.
Definition all_timely (w : world) : bool := forallb (fun e => marshals_time (ev_CreatedAt e)) (log demo_config w).
Lemma all_timely_ok w : all_timely w = true -> timely demo_config w.
Proof. unfold all_timely. rewrite forallb_forall. intros H. apply Forall_forall. intros e He. by apply H, list_elem_of_In. Qed.

Lemma no_event_missed_witness :
  let '(w', go) := ServeMember demo_config demo_environment demo_bob [] demo_world in
  go = true /\ sw_own w' = Some 0%nat /\ ((fun s => ev_Seq <$> durables s) <$> subs (sw_hub w') !! 0%nat) = Some [2; 1; 3; 2; 4] /\
  exists c, applied (requested demo_config demo_world) (seen (sw_trace w'))
            = seqZ (requested demo_config demo_world + 1) (c - requested demo_config demo_world).
Proof.
  assert (B : let '(w', go) := ServeMember demo_config demo_environment demo_bob [] demo_world in
    all_timely w' = true /\ go = true /\ sw_own w' = Some 0%nat
    /\ ((fun s => ev_Seq <$> durables s) <$> subs (sw_hub w') !! 0%nat) = Some [2; 1; 3; 2; 4]) by (vm_compute; repeat split).
  pose proof (no_event_missed demo_config demo_environment demo_bob [] demo_world demo_fresh) as H.
  destruct (ServeMember demo_config demo_environment demo_bob [] demo_world) as [w' go]. destruct B as (T & G & O & Q).
  split; [exact G|]. split; [exact O|]. split; [exact Q|]. destruct (H (all_timely_ok w' T)) as (c & _ & A & _). by exists c.
Defined.

Definition open_and_fitting (w : world) : bool :=
  match subs (sw_hub w) !! 0%nat with Some s => negb (sub_closed s) && forallb broadcast_fits (sub_events s) | None => false end.
Lemma open_and_fitting_ok w : open_and_fitting w = true ->
  exists s, subs (sw_hub w) !! 0%nat = Some s /\ sub_closed s = false /\ forallb broadcast_fits (sub_events s) = true.
Proof. unfold open_and_fitting. destruct (_ !! _) as [s|]; [|done]. intros [C%negb_true_iff F]%andb_true_iff. by exists s. Qed.
Lemma live_session_delivers_all_witness :
  exists w1 n, ServeMember demo_config demo_environment demo_bob [] demo_world = (w1, true) /\ sw_published w1 = 4 /\
  let '(w2, go) := ServeMember demo_config demo_environment demo_bob ([] ++ replicate n OnEvent) demo_world in
  forall e, e ∈ log demo_config w1 -> requested demo_config demo_world < ev_Seq e <= sw_published w1 -> ActFrame (durable_frame e) ∈ sw_trace w2.
Proof.
  assert (B : let '(w', go) := ServeMember demo_config demo_environment demo_bob [] demo_world in
    all_timely w' = true /\ go = true /\ sw_own w' = Some 0%nat /\ sw_published w' = 4 /\ script (sw_conn w') = [] /\ sw_calls w' = 8%nat
    /\ open_and_fitting w' = true) by (vm_compute; repeat split).
  pose proof (live_session_delivers_all demo_config demo_environment demo_bob [] demo_world) as H.
  destruct (ServeMember demo_config demo_environment demo_bob [] demo_world) as [w1 go].
  destruct B as (T & -> & O & P & S & N & (s & L & C & F)%open_and_fitting_ok). exists w1, (length (sub_events s)). split; [done|]. split; [exact P|].
  specialize (H w1 0%nat s demo_fresh eq_refl (all_timely_ok w1 T) O L C).
  destruct (ServeMember demo_config demo_environment demo_bob ([] ++ replicate (length (sub_events s)) OnEvent) demo_world) as [w2 go].
  apply H; [|exact S|].
  - apply Forall_forall. intros b Hb. rewrite forallb_forall in F. by apply F, list_elem_of_In.
  - intros k Hk. rewrite N in Hk. do 8 (destruct k as [|k]; [lia|]). reflexivity.
Defined.

(** ** What a request can do

    A request reaches the coordinator only as one call, of its member, with a valid
    input, when the member may write and the body is small; and it gets one answer
    under its own id. *)

Lemma bind_run {W A B} (m : Proc W A) (k : A -> Proc W B) w : (m ≫= k) w = let '(w1, a) := m w in k a w1.
Proof. reflexivity. Qed.

Section requests.
Context (cfg : Config) (env : environment).
Abbreviation rid := (cg_RoomID cfg).
Abbreviation M := (Proc world).

(** The database an access sees. *)
Definition accessed (w : world) : DB := sw_db (foldl (deed_step rid) (count_access w) (sv_others env (sw_calls w))).

(** The call a method stands for. *)
Definition valid_submit (i : SubmitInput) : Prop := SubmitInput_Validate i = Ok tt.
Definition call_of (actor : Actor) (method : string) (c : service_call) : Prop :=
  match c with
  | SvSubmit a i => a = actor /\ valid_submit i /\ (method = "submit" /\ si_TaskID i = 0 \/ method = "task_submit" /\ 0 < si_TaskID i)
  | SvNote a i => a = actor /\ valid_submit i /\ method = "note" /\ si_TaskID i = 0
  | SvSteer a i => a = actor /\ SteerInput_Validate i = Ok tt /\ method = "steer"
  | SvCancel a i => a = actor /\ CancelInput_Validate i = Ok tt /\ method = "cancel"
  | SvResolve a i => a = actor /\ RecoverInput_Validate i = Ok tt /\ (method = "recover" \/ method = "resolve")
  end.

(** ** What procedures add to the trace *)

(** [m] adds the calls and then the rest, related to its result by [R]. *)
Definition adds {B} (m : M B) (R : list service_call -> list session_act -> B -> Prop) : Prop := forall w,
  exists calls rest, sw_trace (m w).1 = sw_trace w ++ (ActService <$> calls) ++ rest /\ R calls rest (m w).2.
Definition silent {B} (m : M B) : Prop := forall w, sw_trace (m w).1 = sw_trace w.
Lemma silent_ret {B} (b : B) : silent (mret b).
Proof. by intros w. Qed.
Lemma quietly_bind {B C} (m : M B) (k : B -> M C) : silent m -> (forall b, silent (k b)) -> silent (m ≫= k).
Proof. intros Hm Hk w. unfold mbind, Proc_bind. specialize (Hm w). destruct (m w) as [w1 b]. rewrite (Hk b w1). done. Qed.
Lemma shared_trace w : sw_trace (foldl (deed_step rid) (count_access w) (sv_others env (sw_calls w))) = sw_trace w.
Proof.
  change (sw_trace w) with (sw_trace (count_access w)). generalize (count_access w). induction (sv_others env (sw_calls w)) as [|x l IH]; intros w1; cbn; [done|].
  rewrite IH. destruct x; cbn; by repeat case_match.
Qed.
Lemma silent_shared {B} (f : nat -> world -> world * B) : (forall n w, sw_trace (f n w).1 = sw_trace w) -> silent (shared cfg env f).
Proof. intros H w. unfold shared. by rewrite H, shared_trace. Qed.
Lemma silent_reading {B} (op : Store -> result error B) : silent (reading cfg env op).
Proof. by apply silent_shared. Qed.
Lemma silent_writing {B} (op : Store -> Z -> Store * result error B) : silent (writing cfg env op).
Proof. apply silent_shared. intros n w. by destruct (op _ _). Qed.
Lemma silent_snapshot : silent (coordinator_snapshot cfg env).
Proof. by apply silent_shared. Qed.

Definition calls_only {B} (m : M B) (P : service_call -> Prop) : Prop :=
  adds m (fun calls rest _ => rest = [] /\ (calls = [] \/ exists c, calls = [c] /\ P c)).
Lemma silent_calls {B} (m : M B) P : silent m -> calls_only m P.
Proof. intros H w. exists [], []. rewrite H. cbn. rewrite app_nil_r. split_and!; [done|done|by left]. Qed.
Lemma service_calls {B} c (f : result error Acceptance -> B) (P : service_call -> Prop) :
  P c -> calls_only (r ← service cfg env c; mret (f r)) P.
Proof.
  intros H w. exists [c], []. unfold service, shared, did, wrote, mbind, Proc_bind. cbn. rewrite shared_trace.
  split_and!; [done|done|right; by exists c].
Qed.

(** ** Decoding *)

Lemma DecodeBody_valid {T} ty dec (v : T -> result perr unit) body t : DecodeBody ty dec v body = Ok t -> v t = Ok tt.
Proof.
  unfold DecodeBody. intros (_ & _ & (_ & _ & (l & _ & (x & _ & ([] & Hv & [= <-])%result_bind_ok)%result_bind_ok)%result_bind_ok)%result_bind_ok)%result_bind_ok.
  done.
Qed.
Lemma room_check_ok r : room_check r = Ok tt -> r = Ok tt.
Proof. unfold room_check. by destruct r as [[]|]. Qed.
Lemma decoded_submit body q : DecodeSubmit body = Ok q -> valid_submit (submit_input q).
Proof. intros H%DecodeBody_valid. by apply room_check_ok. Qed.
Lemma valid_submit_task i : valid_submit i -> 0 <= si_TaskID i.
Proof. intros [? _]%SubmitInput_Validate_ok. lia. Qed.

Lemma in_list_elem s l : in_list s l = true -> s ∈ l.
Proof. unfold in_list. intros (x & H & E%String.eqb_eq)%existsb_exists. subst x. by apply list_elem_of_In. Qed.

(** Which string of a list it is. *)
Ltac elem_cases H := repeat (apply elem_of_cons in H as [->|H]; [try done|]); try (by apply not_elem_of_nil in H).

Lemma on_submit_calls actor method body : method ∈ ["submit"; "task_submit"; "note"] ->
  calls_only (on_submit cfg env actor method body) (call_of actor method).
Proof.
  intros Hm. unfold on_submit. destruct (DecodeSubmit body) as [q|] eqn:E; [|apply silent_calls, silent_ret].
  apply decoded_submit in E. pose proof (valid_submit_task _ E) as L. cbn in L.
  destruct (negb _) eqn:B; [apply silent_calls, silent_ret|]. apply negb_false_iff, eqb_prop in B.
  assert (T : method = "task_submit" /\ 0 < sq_TaskID q \/ method <> "task_submit" /\ sq_TaskID q = 0).
  { destruct (String.eqb_spec method "task_submit"); [left|right]; split; try done; lia. }
  destruct (String.eqb_spec method "note") as [->|N]; apply service_calls; cbn; (split; [done|]); (split; [done|]).
  - destruct T as [[? _]|[_ T]]; [done|]. by split.
  - destruct T as [T|[T1 T2]]; [by right|left]. split; [|done]. by elem_cases Hm.
Qed.
Lemma on_query_calls method body P : calls_only (on_query cfg env method body) P.
Proof.
  apply silent_calls. unfold on_query. destruct (DecodeEmpty body); [|apply silent_ret].
  repeat case_match; (apply quietly_bind; [by apply silent_shared|intros ?; apply silent_ret]).
Qed.
Lemma handle_calls actor id method body : calls_only (handle cfg env actor id method body) (call_of actor method).
Proof.
  unfold handle. destruct (in_list method ["submit"; "task_submit"; "note"]) eqn:E1; [by apply on_submit_calls, in_list_elem|].
  destruct (String.eqb_spec method "steer") as [->|_].
  { destruct (DecodeSteer body) eqn:D; [|apply silent_calls, silent_ret]. apply service_calls. split_and!; [done| |done].
    by apply room_check_ok, (DecodeBody_valid _ _ _ _ _ D). }
  destruct (String.eqb_spec method "cancel") as [->|_].
  { destruct (DecodeCancel body) eqn:D; [|apply silent_calls, silent_ret]. apply service_calls. split_and!; [done| |done].
    by apply room_check_ok, (DecodeBody_valid _ _ _ _ _ D). }
  destruct (in_list method ["recover"; "resolve"]) eqn:E2.
  { destruct (DecodeRecover body) eqn:D; [|apply silent_calls, silent_ret]. apply service_calls. split_and!; [done| |].
    - by apply room_check_ok, (DecodeBody_valid _ _ _ _ _ D).
    - apply in_list_elem in E2. elem_cases E2; [by left|by right]. }
  destruct (String.eqb method "ack").
  { destruct (DecodeAck body); apply silent_calls; [|apply silent_ret]. apply quietly_bind; [apply silent_writing|intros ?; apply silent_ret]. }
  destruct (String.eqb method "heartbeat"); [destruct (DecodeHeartbeat body); apply silent_calls, silent_ret|].
  case_match; [apply on_query_calls|apply silent_calls, silent_ret].
Qed.
Lemma call_of_mutation actor method c : call_of actor method c -> in_list method mutations = true.
Proof. destruct c; cbn; intros H; destruct_and?; destruct_or?; destruct_and?; by subst. Qed.
Lemma mutation_restricted method : in_list method mutations = true -> in_list method open_to_all = false.
Proof. intros H%in_list_elem. unfold mutations in H. elem_cases H. Qed.

(** ** Answers *)

(** The answer a procedure wrote under an id, by its result. *)
Definition answer_of (id method : string) (r : result serr unit) (answer : list session_act) : Prop :=
  match r with
  | Ok _ => exists f, answer = [ActFrame f] /\ en_ID f = id /\ (en_Kind f = KindResponse /\ en_Method f = method \/ en_Kind f = KindError)
  | Err SWrite => answer = [ActBroken]
  | Err _ => answer = []
  end.
Definition answers (id method : string) (m : M (result serr unit)) : Prop := forall w,
  exists answer, sw_trace (m w).1 = sw_trace w ++ answer /\ answer_of id method (m w).2 answer.
Lemma send_answers kind id method body seq w : exists answer,
  sw_trace (send kind id method body seq w).1 = sw_trace w ++ answer /\
  match (send kind id method body seq w).2 with
  | Ok _ => exists f, answer = [ActFrame f] /\ en_ID f = id /\ en_Kind f = kind /\ en_Method f = method
  | Err SWrite => answer = [ActBroken]
  | Err _ => answer = []
  end.
Proof.
  unfold send. destruct body as [j|]; [|exists []; by rewrite app_nil_r]. destruct (Envelope_Validate _); [|exists []; by rewrite app_nil_r].
  destruct (_ <? _); [exists []; by rewrite app_nil_r|]. destruct (Write _ _) as [c [u|er]]; eexists; (split; [reflexivity|]); [|done]. by eexists.
Qed.
Lemma fail_answers id method code : answers id method (fail id code).
Proof.
  intros w. destruct (send_answers KindError id "error" (Some (wire_error code)) None w) as (a & E & H). exists a. split; [exact E|].
  unfold answer_of, fail. destruct (_ w).2; [|done]. destruct H as (f & -> & I & K & _). exists f. split_and!; [done|done|by right].
Qed.
Lemma respond_answers id method body : answers id method (respond id method body).
Proof.
  intros w. unfold respond, mbind, Proc_bind. destruct (send_answers KindResponse id method body None w) as (a & E & H).
  destruct (send _ _ _ _ _ w) as [w1 r]. cbn in *. destruct r as [u|[]]; cbn.
  - exists a. split; [exact E|]. destruct H as (f & -> & I & K & Me). exists f. split_and!; [done|done|by left].
  - subst a. rewrite app_nil_r in E. destruct (fail_answers id method "response-too-large" w1) as (a & E' & H'). exists a. rewrite <- E. done.
  - by exists a.
  - by exists a.
Qed.

(** What a request must satisfy to reach the coordinator. *)
Definition may_call (actor : Actor) (e : Envelope) (w : world) (c : service_call) : Prop :=
  en_Kind e = KindRequest /\ en_Requires e = [] /\ len (en_Body e) <= 65536
  /\ MemberRole (mkStore (accessed w) None None) rid (ac_UID actor) = Ok "roommate" /\ call_of actor (en_Method e) c.
Definition request_ok (actor : Actor) (e : Envelope) (w : world) (calls : list service_call) : Prop :=
  calls = [] \/ exists c, calls = [c] /\ may_call actor e w c.
Lemma refuse_answers actor e w0 w code (b : bool) : sw_trace w = sw_trace w0 -> exists calls answer,
  sw_trace ((r ← fail (en_ID e) code; mret (b, r)) w).1 = sw_trace w0 ++ (ActService <$> calls) ++ answer /\ request_ok actor e w0 calls
  /\ answer_of (en_ID e) (en_Method e) ((r ← fail (en_ID e) code; mret (b, r)) w).2.2 answer.
Proof.
  intros E. unfold mbind, Proc_bind. destruct (fail_answers (en_ID e) (en_Method e) code w) as (a & Ea & H).
  destruct (fail _ _ w) as [w1 r]. cbn in *. exists [], a. cbn. rewrite Ea, E. split_and!; [done|by left|done].
Qed.
Lemma reading_ok {B} (op : Store -> result error B) w b : (reading cfg env op w).2 = Ok b -> op (mkStore (accessed w) None None) = Ok b.
Proof. unfold reading, shared, accessed. cbn. by destruct (sv_faults env (sw_calls w)).2. Qed.
End requests.

(** C16: A request acts with the rights of its member.  Handling a request makes at
    most one call of the coordinator, before its answer: only a plain request of a
    member who is a roommate in the database at that moment, with a mutation's method, a body of at
    most 64 KiB and a valid input, and the call is the one of the method, in the
    name of the session's member.  It is answered by one frame under its own id
    unless that frame cannot be encoded or written. *)
Theorem dispatch_guarded cfg env actor id e w :
  exists calls answer,
    sw_trace (dispatch cfg env actor id e w).1 = sw_trace w ++ (ActService <$> calls) ++ answer
    /\ request_ok cfg env actor e w calls
    /\ answer_of (en_ID e) (en_Method e) (dispatch cfg env actor id e w).2.2 answer.
Proof.
  unfold dispatch. destruct (negb (bool_decide (en_Kind e = KindRequest))) eqn:K; cbn [orb]; [by apply refuse_answers|].
  destruct (en_Requires e) eqn:Rq; cbn [orb negb Nat.eqb length]; [|by apply refuse_answers]. apply negb_false_iff, bool_decide_eq_true in K.
  pose proof (silent_reading cfg env (fun s => MemberRole s (cg_RoomID cfg) (ac_UID actor)) w) as S1.
  pose proof (reading_ok cfg env (fun s => MemberRole s (cg_RoomID cfg) (ac_UID actor)) w) as Ro.
  rewrite bind_run. destruct (reading _ _ _ w) as [w1 [role|er]]; [|by apply refuse_answers]. specialize (Ro role eq_refl).
  destruct (negb (String.eqb role "roommate") && _) eqn:G1; [by apply refuse_answers|].
  destruct (in_list (en_Method e) mutations && _) eqn:G2; [by apply refuse_answers|].
  pose proof (handle_calls cfg env actor id (en_Method e) (en_Body e) w1) as (calls & rest & T & -> & C). rewrite app_nil_r in T.
  assert (OK : request_ok cfg env actor e w calls).
  { destruct C as [->|(c & -> & Hc)]; [by left|]. right. exists c. split; [done|]. pose proof (call_of_mutation _ _ _ Hc) as Mu. rewrite Mu in G2.
    cbn in G2. split_and!; [done|done|unfold MaximumMutationBodyBytes in G2; change (Z.shiftl 64 10) with 65536 in G2; lia| |done].
    rewrite (mutation_restricted _ Mu), andb_true_r in G1. by apply negb_false_iff, String.eqb_eq in G1 as ->. }
  unfold mbind, Proc_bind. destruct (handle _ _ _ _ _ _ w1) as [w2 [|body|er]]; cbn [fst snd] in T.
  - pose proof (fail_answers (en_ID e) (en_Method e) "invalid-request" w2) as (a & Ea & Ha). destruct (fail _ _ w2) as [w3 r].
    exists calls, a. cbn in *. rewrite Ea, T, S1, <- app_assoc. done.
  - pose proof (respond_answers (en_ID e) (en_Method e) body w2) as (a & Ea & Ha). destruct (respond _ _ _ w2) as [w3 r].
    exists calls, a. cbn in *. rewrite Ea, T, S1, <- app_assoc. done.
  - pose proof (fail_answers (en_ID e) (en_Method e) (error_code er) w2) as (a & Ea & Ha). destruct (fail _ _ w2) as [w3 r].
    exists calls, a. cbn in *. rewrite Ea, T, S1, <- app_assoc. done.
Qed.
