(* ===== verification/GoDecode.v ===== *)
(** * Decoding JSON into Go structs

    [json.Unmarshal] into a struct: the members of the object in order, each set
    on the field whose name its key folds to; a value of another type makes the
    whole call fail, [null] leaves a field that is no pointer as it is. *)
From S2P Require Import Prelude GoStrings Json StrictJson.

Definition members_of (s : string) : option (list (string * string)) :=
  match struct_members s with Ok l => Some l | Err _ => None end.
(** The field [name], from [zero]; [set] is [None] for a value of another type. *)
Definition decode_field {T} (set : string -> T -> option T) (zero : T) (name : string) (l : list (string * string)) : option T :=
  foldl (fun acc m => if EqualFold m.1 name then x ← acc; set m.2 x else acc) (Some zero) l.
Definition set_string (raw : string) (x : string) : option string :=
  match parse raw with Some (JStr s) => Some s | Some JNull => Some x | _ => None end.
Definition set_pointer {T} (dec : json -> option T) (raw : string) (_ : option T) : option (option T) :=
  match parse raw with Some JNull => Some None | Some j => Some <$> dec j | None => None end.
Definition set_raw (raw : string) (_ : string) : option string := Some raw.
Definition string_of : string -> list (string * string) -> option string := decode_field set_string "".
Definition pointer_of {T} (dec : json -> option T) : string -> list (string * string) -> option (option T) :=
  decode_field (set_pointer dec) None.
Definition raw_of : string -> list (string * string) -> option string := decode_field set_raw "".
Definition dec_int64 (j : json) : option Z := dec_int 64 j.
(** The field of a struct whose decoding error is ignored. *)
Definition lenient_string (name : string) (l : list (string * string)) : string :=
  foldl (fun acc m => if EqualFold m.1 name then match parse m.2 with Some (JStr s) => s | _ => acc end else acc) "" l.

(** The texts of the elements of an array, as [json.Decoder] yields them. *)
Fixpoint raw_elements (fuel : nat) (first : bool) (s : string) : result perr (list string) :=
  match fuel with
  | O => Err PJSON
  | S f =>
      let? done := closes 93 s in
      match done with
      | Some _ => Ok []
      | None =>
          let? s1 := after_comma first s in
          let text := skip_ws s1 in
          let? tr := value_token text in
          let? s2 := scan_token false (fuel_of text) tr.1 tr.2 in
          let? l := raw_elements f false s2 in
          Ok (take_bytes (String.length text - String.length s2) text :: l)
      end
  end.
Definition elements_of (s : string) : option (list string) :=
  if json_Valid s then
    match value_token s with
    | Ok (t, r) => if opens 91 t then match raw_elements (fuel_of s) true r with Ok l => Some l | Err _ => None end else None
    | Err _ => None
    end
  else None.

Example elements_ex : elements_of (bq " [ {`a`: 1} ,2, `x` ]") = Some [bq "{`a`: 1}"; "2"; bq "`x`"].
Proof. vm_compute. reflexivity. Qed.
Example string_ex : (l ← members_of (bq "{`ID`:`a`,`id`:null,`x`:3}"); string_of "id" l) = Some "a".
Proof. vm_compute. reflexivity. Qed.

(** ** [json.Unmarshal] by the shape of a type

    Where the source decodes a value only to hand it on, what counts is whether the
    decoding succeeds: [accepts] says which JSON values a Go type takes.  Times are
    read from their text as [Time.UnmarshalJSON] does. *)

Inductive gotype := GoString | GoBool | GoInt (bits : Z) | GoUint (bits : Z) | GoRaw
| GoPtr (t : gotype) | GoSlice (t : gotype) | GoStruct (fields : list (string * gotype)).
(** [null] leaves every value as it is; keys that name no field are skipped. *)
Fixpoint accepts (t : gotype) (j : json) {struct t} : bool :=
  match t, j with
  | GoRaw, _ | _, JNull => true
  | GoString, JStr _ | GoBool, JBool _ => true
  | GoInt bits, JNum l => bool_decide (is_Some (ParseInt bits l))
  | GoUint bits, JNum l => bool_decide (is_Some (ParseUint bits l))
  | GoPtr t, _ => accepts t j
  | GoSlice t, JArr l => forallb (accepts t) l
  | GoStruct fs, JObj ms => forallb (fun f => forallb (fun m => if EqualFold m.1 f.1 then accepts f.2 m.2 else true) ms) fs
  | _, _ => false
  end.
Definition Unmarshals (t : gotype) (text : string) : bool :=
  match parse text with Some j => accepts t j | None => false end.

(** ** Fields of other types *)

Definition set_int (bits : Z) (raw : string) (x : Z) : option Z :=
  match parse raw with Some (JNum l) => ParseInt bits l | Some JNull => Some x | _ => None end.
Definition set_uint (bits : Z) (raw : string) (x : Z) : option Z :=
  match parse raw with Some (JNum l) => ParseUint bits l | Some JNull => Some x | _ => None end.

(** ** Times

    [time.Parse] with the layout of RFC 3339: what it takes at each place, and the
    rest.  The hour may have one digit; a fraction starts with a point or a comma. *)
Definition take_digits (n : nat) (s : string) : option (Z * string) :=
  let d := take_bytes n s in
  if Nat.eqb (String.length d) n && str_forallb is_digit d then z ← parse_nat d; Some (z, drop_bytes n s) else None.
Definition take_char (c : ascii) (s : string) : option string :=
  match s with String d r => if Ascii.eqb c d then Some r else None | "" => None end.
Definition take_hour (s : string) : option (Z * string) :=
  match take_digits 2 s with Some x => Some x | None => take_digits 1 s end.
Definition skip_fraction (s : string) : string :=
  match s with
  | String p (String d r) =>
      if (Ascii.eqb p "." || Ascii.eqb p ",") && is_digit d then (span is_digit (String d r)).2 else s
  | _ => s
  end.
Definition zone_ok (s : string) : bool :=
  if String.eqb s "Z" then true else
  match s with
  | String sign r =>
      match '(h, r) ← take_digits 2 r; r ← take_char ":" r; '(m, r) ← take_digits 2 r; Some (h, m, r) with
      | Some (h, m, r) => (Ascii.eqb sign "+" || Ascii.eqb sign "-") && (h <=? 24) && (m <=? 60) && String.eqb r ""
      | None => false
      end
  | "" => false
  end.
Definition leap_year (y : Z) : bool := (y mod 4 =? 0) && (negb (y mod 100 =? 0) || (y mod 400 =? 0)).
Definition days_in (month year : Z) : Z :=
  if month =? 2 then if leap_year year then 29 else 28
  else if existsb (Z.eqb month) [4; 6; 9; 11] then 30 else 31.
Definition rfc3339 (s : string) : bool :=
  match
    '(y, s) ← take_digits 4 s; s ← take_char "-" s;
    '(mo, s) ← take_digits 2 s; s ← take_char "-" s;
    '(d, s) ← take_digits 2 s; s ← take_char "T" s;
    '(h, s) ← take_hour s; s ← take_char ":" s;
    '(mi, s) ← take_digits 2 s; s ← take_char ":" s;
    '(sec, s) ← take_digits 2 s;
    Some ((y, mo, d), (h, mi, sec), s)
  with
  | Some ((y, mo, d), (h, mi, sec), s) =>
      between 1 12 mo && between 1 (days_in mo y) d && (h <? 24) && (mi <? 60) && (sec <? 60) && zone_ok (skip_fraction s)
  | None => false
  end.
(** A time keeps its text; [Time.UnmarshalJSON] looks between the quotes and does
    not unescape. *)
Definition inside_quotes (raw : string) : option string :=
  match raw with
  | String c r =>
      let n := (String.length r - 1)%nat in
      if (code c =? 34) && String.eqb (drop_bytes n r) dquote then Some (take_bytes n r) else None
  | "" => None
  end.
Definition set_time (raw : string) (x : string) : option string :=
  if String.eqb raw "null" then Some x else t ← inside_quotes raw; if rfc3339 t then Some t else None.

Example time_ok : rfc3339 "2024-02-29T23:59:59.123456789Z" = true. Proof. vm_compute. reflexivity. Qed.
Example time_zone : rfc3339 "2024-12-31T3:04:05,5+01:30" = true. Proof. vm_compute. reflexivity. Qed.
Example time_bad : rfc3339 "2023-02-29T00:00:00Z" = false. Proof. vm_compute. reflexivity. Qed.
Example accepts_ex : Unmarshals (GoSlice (GoStruct [("UID", GoInt 64); ("Name", GoString)])) (bq "[{`uid`:3,`Name`:null},null]") = true.
Proof. vm_compute. reflexivity. Qed.
