(* ===== verification/Jsonrpc.v ===== *)
(** * Messages of the agent's process ([internal/codex/jsonrpc.go], first half)

    The App Server speaks one JSON object per line.  This file reads lines, tells
    responses, notifications and requests of the server apart, and writes the
    answers to the latter; [RpcClient.v] is the client that uses them. *)
From S2P Require Import Prelude GoStrings Sha256 Json StrictJson Wire.

Definition MaxJSONLLineBytes : Z := Z.shiftl 8 20.

Record RPCError := { re_Code : Z; re_Message : string; re_Data : string }.
(** [context.Canceled] and [context.DeadlineExceeded] are [RCanceled] and
    [RDeadline]; an error of the transport keeps its text. *)
Inductive rerr :=
| RLineTooLong | REmptyLine | RTruncatedLine | RInvalidMessage | RInvalidID | RUnknownResponse
| RDuplicateRequest | RBusy | RAlreadyRunning | RClosed | RInvalidMethod | RMessageTooLarge | RResultDecode
| RRemote (e : RPCError) | RCanceled | RDeadline | REOF | RShort | RNoProgress | RIO (text : string).
#[export] Instance RPCError_eq_dec : EqDecision RPCError.
Proof. solve_decision. Defined.
#[export] Instance rerr_eq_dec : EqDecision rerr.
Proof. solve_decision. Defined.

(** ** Lines

    A [bufio.Reader] of 64 KiB over the bytes that are still to come and the error
    that ends them. *)
Record input := { in_bytes : string; in_end : rerr }.
Definition reader_size : nat := Z.to_nat 65536.
(** The bytes up to and with the first newline, within the first [n]. *)
Fixpoint until_newline (n : nat) (s : string) : option string :=
  match n, s with
  | S n', String c r => if code c =? 10 then Some (String c "") else String c <$> until_newline n' r
  | _, _ => None
  end.
(** [ReadSlice]: the fragment, what is left, and whether a newline ended it, the
    buffer was full, or the stream ended. *)
Inductive slice_end := AtNewline | BufferFull | AtError.
Definition ReadSlice (s : string) : string * string * slice_end :=
  match until_newline reader_size s with
  | Some f => (f, drop_bytes (String.length f) s, AtNewline)
  | None =>
      if (reader_size <=? String.length s)%nat then (take_bytes reader_size s, drop_bytes reader_size s, BufferFull)
      else (s, "", AtError)
  end.
(** One unit of fuel per fragment. *)
Fixpoint read_fragments (fuel : nat) (line : string) (i : input) : input * result rerr string :=
  match fuel with
  | O => (i, Err RTruncatedLine)
  | S f =>
      let '(fragment, rest, e) := ReadSlice (in_bytes i) in
      let payload := match e with AtNewline => take_bytes (String.length fragment - 1) fragment | _ => fragment end in
      let i' := {| in_bytes := rest; in_end := in_end i |} in
      if MaxJSONLLineBytes <? len line + len payload then (i', Err RLineTooLong) else
      let line := line +:+ payload in
      match e with
      | AtNewline => (i', if String.eqb (TrimSpace line) "" then Err REmptyLine else Ok line)
      | BufferFull => read_fragments f line i'
      | AtError =>
          (i', Err (if bool_decide (in_end i = REOF) then if String.eqb line "" then REOF else RTruncatedLine else in_end i))
      end
  end.
Definition readJSONLLine (i : input) : input * result rerr string := read_fragments (S (String.length (in_bytes i))) "" i.

(** ** Decoding *)

Inductive wireKind := wireResponse | wireNotification | wireServerRequest.
Record wireMessage :=
  { wm_kind : wireKind; wm_id : string; wm_idKey : string; wm_method : string; wm_params : string; wm_result : string;
    wm_rpcErr : option RPCError; wm_trace : string; wm_emittedAtMs : option Z }.

(** The scan of [consumeJSONValue] is the one of the room protocol. *)
Definition consumeJSONValue (s : string) : result perr string :=
  let? tr := value_token s in scan_token true (fuel_of s) tr.1 tr.2.
Definition validateNoDuplicateKeys (s : string) : bool :=
  match consumeJSONValue s with Ok r => String.eqb (skip_ws r) "" | Err _ => false end.
(** A [map[string]json.RawMessage]; [None] is an error or [null]. *)
Definition raw_map (s : string) : option (list (string * string)) :=
  if json_Valid s then
    match value_token s with
    | Ok (t, r) => if opens 123 t then match raw_members (fuel_of s) true r with Ok l => Some l | Err _ => None end else None
    | Err _ => None
    end
  else None.
Definition member (name : string) (l : list (string * string)) : option string := snd <$> List.find (fun m => String.eqb m.1 name) l.
Definition only_keys (allowed : list string) (l : list (string * string)) : bool :=
  forallb (fun m => existsb (String.eqb m.1) allowed) l.

Definition decodeJSONString (raw : string) : option string :=
  match TrimSpace raw with
  | String c _ => if code c =? 34 then match parse raw with Some (JStr s) => Some s | _ => None end else None
  | "" => None
  end.
Definition decodeJSONInt64 (raw : string) : option Z :=
  match parse raw with Some (JNum l) => ParseInt 64 l | _ => None end.
Definition wireIDKey (raw : string) : result rerr string :=
  match parse raw with
  | Some (JStr text) => Ok ("s:" +:+ Sha256.Sum256 text)
  | Some (JNum l) => match ParseInt 64 l with Some n => Ok ("n:" +:+ itoa n) | None => Err RInvalidID end
  | _ => Err RInvalidID
  end.
Definition decodeRPCError (raw : string) : result rerr RPCError :=
  match raw_map raw with
  | None => Err RInvalidMessage
  | Some l =>
      if negb (only_keys ["code"; "message"; "data"] l) then Err RInvalidMessage else
      match member "code" l ≫= decodeJSONInt64, member "message" l ≫= decodeJSONString with
      | Some c, Some m => Ok {| re_Code := c; re_Message := m; re_Data := default "" (member "data" l) |}
      | _, _ => Err RInvalidMessage
      end
  end.
Definition validTrace (raw : string) : bool :=
  String.eqb raw "null" ||
  match raw_map raw with
  | None => false
  | Some l =>
      only_keys ["traceparent"; "tracestate"] l
      && forallb (fun m => String.eqb m.2 "null" || match decodeJSONString m.2 with Some _ => true | None => false end) l
  end.

Definition wire_fields : list string := ["id"; "method"; "params"; "result"; "error"; "trace"; "emittedAtMs"].
Definition has {A} (o : option A) : bool := match o with Some _ => true | None => false end.
Definition decodeWireMessage (data : string) : result rerr wireMessage :=
  if negb (utf8_valid data && validateNoDuplicateKeys data) then Err RInvalidMessage else
  match raw_map data with
  | None => Err RInvalidMessage
  | Some l =>
      if negb (only_keys wire_fields l) then Err RInvalidMessage else
      let id := member "id" l in
      let result_ := member "result" l in
      let error := member "error" l in
      let params := member "params" l in
      let trace := member "trace" l in
      let emitted := member "emittedAtMs" l in
      let? key := match id with Some raw => wireIDKey raw | None => Ok "" end in
      let? method := match member "method" l with
                     | Some raw => match decodeJSONString raw with Some m => Ok m | None => Err RInvalidMessage end
                     | None => Ok ""
                     end in
      let message kind rpcErr emittedAt :=
        {| wm_kind := kind; wm_id := default "" id; wm_idKey := key; wm_method := method; wm_params := default "" params;
           wm_result := default "" result_; wm_rpcErr := rpcErr; wm_trace := default "" trace; wm_emittedAtMs := emittedAt |} in
      match has id, has (member "method" l) with
      | true, false =>
          if has params || has trace || has emitted || Bool.eqb (has result_) (has error) then Err RInvalidMessage else
          match error with
          | Some raw => let? e := decodeRPCError raw in Ok (message wireResponse (Some e) None)
          | None => Ok (message wireResponse None None)
          end
      | false, true =>
          if has result_ || has error || has trace then Err RInvalidMessage else
          match emitted with
          | Some raw => match decodeJSONInt64 raw with Some t => Ok (message wireNotification None (Some t)) | None => Err RInvalidMessage end
          | None => Ok (message wireNotification None None)
          end
      | true, true =>
          if has result_ || has error || has emitted || match trace with Some t => negb (validTrace t) | None => false end
          then Err RInvalidMessage else Ok (message wireServerRequest None None)
      | false, false => Err RInvalidMessage
      end
  end.

(** ** Answers to the server *)

Definition RejectServerRequest (method : string) : json * option RPCError :=
  if existsb (String.eqb method) ["item/commandExecution/requestApproval"; "item/fileChange/requestApproval"]
  then (JObj [("decision", JStr "cancel")], None)
  else (JNull, Some {| re_Code := -32090; re_Message := "agent_romm does not service App Server input requests"; re_Data := "" |}).
Definition rpc_error_json (e : RPCError) : json :=
  JObj ([("code", JInt (re_Code e)); ("message", JStr (re_Message e))] ++ (if String.eqb (re_Data e) "" then [] else [("data", JRaw (re_Data e))])).
Definition marshalServerResponse (id : string) (result_ : json) (rpcErr : option RPCError) : result rerr string :=
  let prefix := bq "{`id`:" in
  let suffix := "}" in
  let field_ := bq (match rpcErr with Some _ => ",`error`:" | None => ",`result`:" end) in
  let fixedSize := len prefix + len field_ + len suffix in
  if MaxJSONLLineBytes - fixedSize <? len id then Err RMessageTooLarge else
  let body := marshal (match rpcErr with Some e => rpc_error_json e | None => result_ end) in
  if MaxJSONLLineBytes - fixedSize - len id <? len body then Err RMessageTooLarge else
  Ok (prefix +:+ id +:+ field_ +:+ body +:+ suffix).

(** ** Requests

    The parameters of a request: none, a value, or one that cannot be marshalled. *)
Inductive params := NoParams | Params (j : json) | BadParams.
Definition params_json (p : params) : option (list (string * json)) :=
  match p with NoParams => Some [] | Params j => Some [("params", j)] | BadParams => None end.
Definition checked_line (o : option (list (string * json))) : result rerr string :=
  match o with
  | None => Err RInvalidMessage
  | Some fs => let line := marshal (JObj fs) in if MaxJSONLLineBytes <? len line then Err RMessageTooLarge else Ok line
  end.
Definition request_line (id : Z) (method : string) (p : params) : result rerr string :=
  checked_line (app [("id", JInt id); ("method", JStr method)] <$> params_json p).
Definition notification_line (method : string) (p : params) : result rerr string :=
  checked_line (app [("method", JStr method)] <$> params_json p).

Example decode_response : wm_idKey <$> match decodeWireMessage (bq " {`id`: 7, `result`: {`a`:[1]}} ") with Ok m => Some m | Err _ => None end = Some "n:7".
Proof. vm_compute. reflexivity. Qed.
Example own_request : match request_line 3 "turn/start" (Params (JObj [("a", JInt 1)])) with
  | Ok l => match decodeWireMessage l with Ok m => (wm_method m, wm_idKey m, wm_params m) = ("turn/start", "n:3", bq "{`a`:1}") | Err _ => False end
  | Err _ => False end.
Proof. vm_compute. reflexivity. Qed.
Example read_two_lines :
  let i := {| in_bytes := of_bytes [chr 97; chr 10; chr 10; chr 98]; in_end := REOF |} in
  let '(i1, r1) := readJSONLLine i in let '(i2, r2) := readJSONLLine i1 in let '(i3, r3) := readJSONLLine i2 in
  r1 = Ok "a" /\ r2 = Err REmptyLine /\ r3 = Err RTruncatedLine.
Proof. vm_compute. done. Qed.
