(* ===== verification/RpcClient.v ===== *)
(** * The client of the agent's process ([internal/codex/jsonrpc.go], second half)

    Many goroutines share one [RPCClient]: callers, the reader ([Run]), the
    goroutine that watches its context, and the handlers of the server's requests.
    Here the client is one record with every goroutine's position in it, and a
    [move] is one atomic action of one of them: a critical section under [stateMu], a
    [select], or a [Write].  A value sent to a caller under its removed key is
    sent in the step that removed it: nobody else can send to that caller, and the
    caller can only wait for it.  Likewise the gate of the writer is given back in
    the last step of [writeJSONL]. *)
From S2P Require Import Prelude GoStrings Json Wire Jsonrpc.

(** ** State *)

Record callResult := { ch_result : string; ch_rpcErr : option RPCError; ch_err : option rerr }.
Definition local_error (e : rerr) : callResult := {| ch_result := ""; ch_rpcErr := None; ch_err := Some e |}.
Definition remote_result (m : wireMessage) : callResult := {| ch_result := wm_result m; ch_rpcErr := wm_rpcErr m; ch_err := None |}.
Inductive pendingPhase := pendingPreWrite | pendingInDirectWrite | pendingWriteDone | pendingRejected.
#[export] Instance pendingPhase_eq_dec : EqDecision pendingPhase.
Proof. solve_decision. Defined.
(** [pd_response] is the channel of the call, with room for one result. *)
Record pendingCall := mkPending
  { pd_response : list callResult; pd_phase : pendingPhase; pd_bytesWritten : Z; pd_quarantined : option callResult }.

(** Where a goroutine is in [writeJSONL]; [begun]: the hook before the first write
    ran, or there is none. *)
Inductive wpos :=
| WaitGate
| HasGate
| Looking (total : Z) (begun : bool)
| Beginning (total : Z)
| Writing (total : Z)
| Written (total : Z) (err : option rerr).
Inductive outcome := Returned (text : string) | CallFailed (bytes : Z) (err : rerr).
(** Where a caller is in [Call]. *)
Inductive point :=
| PMarshalled
| PLocal (e : rerr)
| PWrite (line : string) (w : wpos)
| PRecorded (written : Z) (err stateErr : option rerr)
| PFailed (written : Z) (err : rerr)
| PRemoved (written : Z) (err : rerr) (removed : bool)
| PAwait (written : Z)
| PWait (written : Z) (decode : bool)
| PDone (o : outcome).
(** [cl_decodes]: whether a result can be decoded into what the caller gave. *)
Record caller := mkCaller
  { cl_id : Z; cl_key : string; cl_line : result rerr string; cl_decodes : string -> bool; cl_ctx : option rerr;
    cl_pending : pendingCall; cl_at : point }.
Inductive npoint := NWrite (w : wpos) | NFail (written : Z) (err : rerr) | NDone (err : option (Z * rerr)).
Record notifier := mkNotifier { nt_line : string; nt_ctx : option rerr; nt_at : npoint }.

Record Notification := { nf_Method : string; nf_Params : string; nf_EmittedAtMs : option Z; nf_ServerRequest : bool }.
Record ServerRequest := { srq_ID : string; srq_Method : string; srq_Params : string; srq_Trace : string }.
Record serverRequestWork := { sw_key : string; sw_request : ServerRequest; sw_responseID : string }.
Inductive hpoint := HStart | HCalled | HWrite (line : string) (w : wpos) | HFail (e : rerr) | HRelease | HEnded.
Record handler := mkHandler { hd_work : serverRequestWork; hd_at : hpoint }.
(** Where [Run] is. *)
Inductive running :=
| NotRunning
| Reading
| Pushing (n : Notification) (work : option serverRequestWork)
| Starting (work : serverRequestWork)
| Failing (e : rerr)
| Returning (e : rerr)
| Ended (e : rerr).
Inductive holder := ByCall (k : nat) | ByNotify (j : nat) | ByHandler (j : nat).

Record RPCClient := mkRpc
  { nextID : Z; pending : gmap string nat; terminalErr : option rerr; run : running; run_ctx : option rerr;
    callers : list caller; notifiers : list notifier; handlers : list handler;
    serverActive : gset string; serverSlots : nat; writerGate : option holder; events : list Notification;
    stream : input; written : list (holder * string); heard : list wireMessage }.
Definition NewRPCClient (i : input) : RPCClient :=
  mkRpc 0 ∅ None NotRunning None [] [] [] ∅ 0 None [] i [] [].
(** The bytes the process was sent; every write is kept with the goroutine it is of. *)
Definition sent_bytes (c : RPCClient) : string := concat_strings (snd <$> written c).
(** The pending calls, with the callers they belong to. *)
Definition set_pending (p : gmap string nat) (l : list caller) (c : RPCClient) : RPCClient :=
  mkRpc (nextID c) p (terminalErr c) (run c) (run_ctx c) l (notifiers c) (handlers c) (serverActive c) (serverSlots c)
        (writerGate c) (events c) (stream c) (written c) (heard c).
Definition set_callers (l : list caller) (c : RPCClient) : RPCClient := set_pending (pending c) l c.
Definition set_run (r : running) (c : RPCClient) : RPCClient :=
  mkRpc (nextID c) (pending c) (terminalErr c) r (run_ctx c) (callers c) (notifiers c) (handlers c) (serverActive c) (serverSlots c)
        (writerGate c) (events c) (stream c) (written c) (heard c).
Definition set_run_ctx (x : option rerr) (c : RPCClient) : RPCClient :=
  mkRpc (nextID c) (pending c) (terminalErr c) (run c) x (callers c) (notifiers c) (handlers c) (serverActive c) (serverSlots c)
        (writerGate c) (events c) (stream c) (written c) (heard c).
Definition set_notifiers (l : list notifier) (c : RPCClient) : RPCClient :=
  mkRpc (nextID c) (pending c) (terminalErr c) (run c) (run_ctx c) (callers c) l (handlers c) (serverActive c) (serverSlots c)
        (writerGate c) (events c) (stream c) (written c) (heard c).
Definition set_handlers (l : list handler) (c : RPCClient) : RPCClient :=
  mkRpc (nextID c) (pending c) (terminalErr c) (run c) (run_ctx c) (callers c) (notifiers c) l (serverActive c) (serverSlots c)
        (writerGate c) (events c) (stream c) (written c) (heard c).
Definition set_server (a : gset string) (n : nat) (c : RPCClient) : RPCClient :=
  mkRpc (nextID c) (pending c) (terminalErr c) (run c) (run_ctx c) (callers c) (notifiers c) (handlers c) a n
        (writerGate c) (events c) (stream c) (written c) (heard c).
Definition set_gate (g : option holder) (c : RPCClient) : RPCClient :=
  mkRpc (nextID c) (pending c) (terminalErr c) (run c) (run_ctx c) (callers c) (notifiers c) (handlers c) (serverActive c) (serverSlots c)
        g (events c) (stream c) (written c) (heard c).
Definition set_events (l : list Notification) (c : RPCClient) : RPCClient :=
  mkRpc (nextID c) (pending c) (terminalErr c) (run c) (run_ctx c) (callers c) (notifiers c) (handlers c) (serverActive c) (serverSlots c)
        (writerGate c) l (stream c) (written c) (heard c).
Definition set_stream (i : input) (c : RPCClient) : RPCClient :=
  mkRpc (nextID c) (pending c) (terminalErr c) (run c) (run_ctx c) (callers c) (notifiers c) (handlers c) (serverActive c) (serverSlots c)
        (writerGate c) (events c) i (written c) (heard c).
Definition put_bytes (who : holder) (t : string) (c : RPCClient) : RPCClient :=
  mkRpc (nextID c) (pending c) (terminalErr c) (run c) (run_ctx c) (callers c) (notifiers c) (handlers c) (serverActive c) (serverSlots c)
        (writerGate c) (events c) (stream c) (written c ++ [(who, t)]) (heard c).
Definition hear (m : wireMessage) (c : RPCClient) : RPCClient :=
  mkRpc (nextID c) (pending c) (terminalErr c) (run c) (run_ctx c) (callers c) (notifiers c) (handlers c) (serverActive c) (serverSlots c)
        (writerGate c) (events c) (stream c) (written c) (heard c ++ [m]).
Definition with_at (p : point) (x : caller) : caller :=
  mkCaller (cl_id x) (cl_key x) (cl_line x) (cl_decodes x) (cl_ctx x) (cl_pending x) p.
Definition with_pending (p : pendingCall) (x : caller) : caller :=
  mkCaller (cl_id x) (cl_key x) (cl_line x) (cl_decodes x) (cl_ctx x) p (cl_at x).
Definition with_ctx (e : option rerr) (x : caller) : caller :=
  mkCaller (cl_id x) (cl_key x) (cl_line x) (cl_decodes x) e (cl_pending x) (cl_at x).
Definition give (r : callResult) (p : pendingCall) : pendingCall :=
  mkPending (pd_response p ++ [r]) (pd_phase p) (pd_bytesWritten p) (pd_quarantined p).
Definition with_phase (ph : pendingPhase) (p : pendingCall) : pendingCall :=
  mkPending (pd_response p) ph (pd_bytesWritten p) (pd_quarantined p).
Definition change (k : nat) (f : caller -> caller) (c : RPCClient) : RPCClient := set_callers (alter f k (callers c)) c.

(** ** The table of pending calls *)

Definition key_of (id : Z) : string := "n:" +:+ itoa id.
Definition max_int64 : Z := 2 ^ 63 - 1.
(** [registerPending], with the request marshalled for the new id. *)
Definition registerPending (line : Z -> result rerr string) (decodes : string -> bool) (ctx : option rerr) (c : RPCClient) : RPCClient * option rerr :=
  match terminalErr c with
  | Some e => (c, Some e)
  | None =>
      if nextID c =? max_int64 then (c, Some RInvalidID) else
      let id := nextID c + 1 in
      let x := mkCaller id (key_of id) (line id) decodes ctx (mkPending [] pendingPreWrite 0 None) PMarshalled in
      (mkRpc id (<[key_of id := length (callers c)]> (pending c)) (terminalErr c) (run c) (run_ctx c) (callers c ++ [x]) (notifiers c)
             (handlers c) (serverActive c) (serverSlots c) (writerGate c) (events c) (stream c) (written c) (heard c), None)
  end.
(** [c.pending[key] != pending] *)
Definition is_pending (k : nat) (x : caller) (c : RPCClient) : bool := bool_decide (pending c !! cl_key x = Some k).
Definition removePending (k : nat) (x : caller) (c : RPCClient) : RPCClient * bool :=
  if is_pending k x c then (set_pending (delete (cl_key x) (pending c)) (callers c) c, true) else (c, false).
(** The removed call is given its result. *)
Definition settle (k : nat) (x : caller) (r : callResult) (c : RPCClient) : RPCClient :=
  change k (fun x => with_pending (give r (cl_pending x)) x) (set_pending (delete (cl_key x) (pending c)) (callers c) c).
Definition beginPendingWrite (k : nat) (x : caller) (c : RPCClient) : RPCClient * option rerr :=
  if negb (is_pending k x c) then
    (c, Some (if bool_decide (pd_phase (cl_pending x) = pendingRejected) then RUnknownResponse else default RClosed (terminalErr c)))
  else if bool_decide (pd_phase (cl_pending x) = pendingPreWrite)
  then (change k (fun x => with_pending (with_phase pendingInDirectWrite (cl_pending x)) x) c, None)
  else (c, Some RInvalidMessage).
Definition deliverResponse (m : wireMessage) (c : RPCClient) : RPCClient * option rerr :=
  match pending c !! wm_idKey m with
  | None => (c, Some RUnknownResponse)
  | Some k =>
      match callers c !! k with
      | None => (c, Some RUnknownResponse)
      | Some x =>
          let p := cl_pending x in
          match pd_phase p with
          | pendingPreWrite =>
              (settle k x (local_error RUnknownResponse) (change k (fun x => with_pending (with_phase pendingRejected (cl_pending x)) x) c),
               Some RUnknownResponse)
          | pendingInDirectWrite =>
              match pd_quarantined p with
              | Some _ => (c, Some RUnknownResponse)
              | None =>
                  (change k (fun x => with_pending (mkPending (pd_response p) (pd_phase p) (pd_bytesWritten p) (Some (remote_result m))) x) c, None)
              end
          | pendingWriteDone =>
              if pd_bytesWritten p =? 0 then (settle k x (local_error RUnknownResponse) c, Some RUnknownResponse)
              else (settle k x (remote_result m) c, None)
          | pendingRejected => (c, Some RInvalidMessage)
          end
      end
  end.
Definition recordWriteOutcome (k : nat) (x : caller) (n : Z) (c : RPCClient) : RPCClient * option rerr :=
  if negb (is_pending k x c) then (c, None) else
  let p := cl_pending x in
  let done := change k (with_pending (mkPending (pd_response p) pendingWriteDone n None)) c in
  match pd_quarantined p with
  | None => (done, None)
  | Some r =>
      if n =? 0 then (settle k x (local_error RUnknownResponse) done, Some RUnknownResponse) else (settle k x r done, None)
  end.
Definition decodeCallResult (n : Z) (r : callResult) (decodes : string -> bool) : outcome :=
  match ch_err r, ch_rpcErr r with
  | Some e, _ => CallFailed n e
  | None, Some e => CallFailed n (RRemote e)
  | None, None => if decodes (ch_result r) then Returned (ch_result r) else CallFailed n RResultDecode
  end.
Definition give_pending (p : gmap string nat) (e : rerr) (k : nat) (x : caller) : caller :=
  if bool_decide (p !! cl_key x = Some k) then with_pending (give (local_error e) (cl_pending x)) x else x.
(** [failAll]; the run's context keeps the error it had. *)
Definition failAll (e : rerr) (c : RPCClient) : RPCClient :=
  match terminalErr c with
  | Some _ => c
  | None =>
      mkRpc (nextID c) ∅ (Some e) (run c) (match run c with NotRunning => run_ctx c | _ => Some (default RCanceled (run_ctx c)) end)
            (imap (give_pending (pending c) e) (callers c)) (notifiers c) (handlers c) (serverActive c) (serverSlots c)
            (writerGate c) (events c) (stream c) (written c) (heard c)
  end.
Definition firstTerminal (fallback : rerr) (c : RPCClient) : rerr := default fallback (terminalErr c).
Definition isPreWriteContextError (e : rerr) : bool := match e with RCanceled | RDeadline => true | _ => false end.

(** ** Writing

    What a [select] picks, or what [Write] answers. *)
Inductive choice := PickContext | PickTerminal | Go | Wrote (n : Z) (err : option rerr).
Definition interrupted (ctx : option rerr) (c : RPCClient) (ch : choice) : option rerr :=
  match ch with
  | PickContext => match ctx with Some e => Some e | None => terminalErr c end
  | _ => match terminalErr c with Some e => Some e | None => ctx end
  end.
(** One step of [writeJSONL] of the goroutine [who], for the line and its newline;
    a write that needs the hook is left at [Beginning]. *)
Definition write_step (who : holder) (ctx : option rerr) (payload : string) (w : wpos) (ch : choice) (c : RPCClient) : RPCClient * wpos :=
  let line := payload +:+ nl in
  match w with
  | WaitGate =>
      match ch with
      | Go => match writerGate c with None => (set_gate (Some who) c, HasGate) | Some _ => (c, w) end
      | _ => match interrupted ctx c ch with Some e => (c, Written 0 (Some e)) | None => (c, w) end
      end
  | HasGate =>
      match interrupted ctx c ch with
      | Some e => (set_gate None c, Written 0 (Some e))
      | None => (c, Looking 0 (match who with ByCall _ => false | _ => true end))
      end
  | Looking total begun =>
      if len line <=? total then (set_gate None c, Written total None) else
      match interrupted ctx c ch with
      | Some e => (set_gate None c, Written total (Some e))
      | None => (c, if begun then Writing total else Beginning total)
      end
  | Writing total =>
      match ch with
      | Wrote n err =>
          let rest := drop_bytes (Z.to_nat total) line in
          if n <? 0 then (set_gate None c, Written total (Some RShort)) else
          let c := put_bytes who (take_bytes (Z.to_nat n) rest) c in
          if len rest <? n then (set_gate None c, Written (len line) (Some RShort)) else
          match err with
          | Some e => (set_gate None c, Written (total + n) (Some e))
          | None => if n =? 0 then (set_gate None c, Written total (Some RNoProgress)) else (c, Looking (total + n) true)
          end
      | _ => (c, w)
      end
  | Beginning _ | Written _ _ => (c, w)
  end.

(** ** Callers *)

(** [Call] up to the registration: the error it ends with at once, if any. *)
Definition Call (method : string) (p : params) (decodes : string -> bool) (ctx : option rerr) (c : RPCClient) : RPCClient * option rerr :=
  if String.eqb method "" then (c, Some RInvalidMethod) else
  match ctx with
  | Some e => (c, Some e)
  | None => registerPending (fun id => request_line id method p) decodes None c
  end.
(** A receive from the channel of the call. *)
Definition receive_result (k : nat) (x : caller) (n : Z) (decode : bool) (c : RPCClient) : RPCClient :=
  let p := cl_pending x in
  match pd_response p with
  | [] => c
  | r :: rest =>
      change k (fun x => with_at (PDone (decodeCallResult n r (if decode then cl_decodes x else fun _ => true)))
                                 (with_pending (mkPending rest (pd_phase p) (pd_bytesWritten p) (pd_quarantined p)) x)) c
  end.
Definition call_turn (k : nat) (ch : choice) (c : RPCClient) : RPCClient :=
  match callers c !! k with
  | None => c
  | Some x =>
      let goto p c := change k (with_at p) c in
      match cl_at x with
      | PMarshalled => goto (match cl_line x with Ok line => PWrite line WaitGate | Err e => PLocal e end) c
      | PLocal e => let '(c, removed) := removePending k x c in goto (if removed : bool then PDone (CallFailed 0 e) else PWait 0 false) c
      | PWrite line (Beginning total) =>
          match beginPendingWrite k x c with
          | (c, None) => goto (PWrite line (Writing total)) c
          | (c, Some e) => goto (PWrite line (Written total (Some e))) (set_gate None c)
          end
      | PWrite line (Written n err) => let '(c, stateErr) := recordWriteOutcome k x n c in goto (PRecorded n err stateErr) c
      | PWrite line w => let '(c, w) := write_step (ByCall k) (cl_ctx x) line w ch c in goto (PWrite line w) c
      | PRecorded n err stateErr =>
          goto (match err with Some e => PFailed n e | None => PAwait n end) (match stateErr with Some e => failAll e c | None => c end)
      | PFailed n e => let '(c, removed) := removePending k x c in goto (PRemoved n e removed) c
      | PRemoved n e removed =>
          goto (if removed then PDone (CallFailed n e) else PWait n true)
               (if (0 <? n) || negb (isPreWriteContextError e) then failAll e c else c)
      | PAwait n =>
          match ch with
          | PickContext =>
              match cl_ctx x with
              | Some e => let '(c, removed) := removePending k x c in goto (if removed : bool then PDone (CallFailed n e) else PWait n true) c
              | None => c
              end
          | _ => receive_result k x n true c
          end
      | PWait n decode => receive_result k x n decode c
      | PDone _ => c
      end
  end.

(** [Notify] *)
Definition Notify (method : string) (p : params) (ctx : option rerr) (c : RPCClient) : RPCClient * option rerr :=
  if String.eqb method "" then (c, Some RInvalidMethod) else
  match ctx with
  | Some e => (c, Some e)
  | None =>
      match notification_line method p with
      | Err e => (c, Some e)
      | Ok line => (set_notifiers (notifiers c ++ [mkNotifier line None (NWrite WaitGate)]) c, None)
      end
  end.
Definition notify_turn (j : nat) (ch : choice) (c : RPCClient) : RPCClient :=
  match notifiers c !! j with
  | None => c
  | Some x =>
      let goto p c := set_notifiers (<[j := mkNotifier (nt_line x) (nt_ctx x) p]> (notifiers c)) c in
      match nt_at x with
      | NWrite (Written n None) => goto (NDone None) c
      | NWrite (Written n (Some e)) => goto (NFail n e) c
      | NWrite w => let '(c, w) := write_step (ByNotify j) (nt_ctx x) (nt_line x) w ch c in goto (NWrite w) c
      | NFail n e => goto (NDone (Some (n, e))) (if (0 <? n) || negb (isPreWriteContextError e) then failAll e c else c)
      | NDone _ => c
      end
  end.

(** ** Requests of the server *)

Definition prepareServerRequest (m : wireMessage) : serverRequestWork :=
  {| sw_key := wm_idKey m; sw_responseID := wm_id m;
     sw_request := {| srq_ID := wm_id m; srq_Method := wm_method m; srq_Params := wm_params m; srq_Trace := wm_trace m |} |}.
Definition admitServerRequest (key : string) (c : RPCClient) : RPCClient * option rerr :=
  match terminalErr c, run_ctx c with
  | Some e, _ => (c, Some e)
  | None, Some e => (c, Some e)
  | None, None =>
      if bool_decide (key ∈ serverActive c) then (c, Some RDuplicateRequest)
      else if Nat.eqb (serverSlots c) 0 then (set_server ({[key]} ∪ serverActive c) 1 c, None)
      else (c, Some RBusy)
  end.
Definition releaseServerRequest (key : string) (c : RPCClient) : RPCClient := set_server (serverActive c ∖ {[key]}) 0 c.
Definition startServerRequest (work : serverRequestWork) (c : RPCClient) : RPCClient * option rerr :=
  let err := match terminalErr c, run_ctx c with
             | Some e, _ => Some e
             | None, Some e => Some e
             | None, None => if bool_decide (sw_key work ∈ serverActive c) && Nat.eqb (serverSlots c) 1 then None else Some RInvalidMessage
             end in
  match err with
  | Some e => (releaseServerRequest (sw_key work) c, Some e)
  | None => (set_handlers (handlers c ++ [mkHandler work HStart]) c, None)
  end.
(** The goroutine of a request; the callback may do anything but use the client. *)
Definition handler_turn (j : nat) (ch : choice) (c : RPCClient) : RPCClient :=
  match handlers c !! j with
  | None => c
  | Some x =>
      let goto p c := set_handlers (<[j := mkHandler (hd_work x) p]> (handlers c)) c in
      match hd_at x with
      | HStart => goto (if has (run_ctx c) then HRelease else HCalled) c
      | HCalled =>
          if has (run_ctx c) then goto HRelease c else
          let '(r, e) := RejectServerRequest (srq_Method (sw_request (hd_work x))) in
          goto (match marshalServerResponse (sw_responseID (hd_work x)) r e with Ok line => HWrite line WaitGate | Err e => HFail e end) c
      | HWrite line (Written n None) => goto HRelease c
      | HWrite line (Written n (Some e)) => goto (HFail e) c
      | HWrite line w =>
          if MaxJSONLLineBytes <? len line then goto (HFail RMessageTooLarge) c
          else let '(c, w) := write_step (ByHandler j) (run_ctx c) line w ch c in goto (HWrite line w) c
      | HFail e => goto HRelease (failAll e c)
      | HRelease => goto HEnded (releaseServerRequest (sw_key (hd_work x)) c)
      | HEnded => c
      end
  end.

(** ** The reader *)

Definition rpcEventQueueCapacity : nat := 1.
(** [Run] up to its loop. *)
Definition Run (ctx : option rerr) (c : RPCClient) : RPCClient * option rerr :=
  match run c with
  | NotRunning =>
      (match terminalErr c with
       | Some e => set_run (Returning e) (set_run_ctx ctx c)
       | None => set_run Reading (set_run_ctx ctx c)
       end, None)
  | _ => (c, Some RAlreadyRunning)
  end.
(** A message: what the reader does next. *)
Definition on_message (m : wireMessage) (c : RPCClient) : RPCClient * running :=
  let c := hear m c in
  match wm_kind m with
  | wireResponse => match deliverResponse m c with (c, Some e) => (c, Failing e) | (c, None) => (c, Reading) end
  | wireNotification =>
      (c, Pushing {| nf_Method := wm_method m; nf_Params := wm_params m; nf_EmittedAtMs := wm_emittedAtMs m; nf_ServerRequest := false |} None)
  | wireServerRequest =>
      match admitServerRequest (wm_idKey m) c with
      | (c, Some e) => (c, Failing e)
      | (c, None) =>
          (c, Pushing {| nf_Method := wm_method m; nf_Params := wm_params m; nf_EmittedAtMs := None; nf_ServerRequest := true |}
                      (Some (prepareServerRequest m)))
      end
  end.
(** The next line; [fails]: the transport was closed meanwhile. *)
Definition read_turn (fails : option rerr) (c : RPCClient) : RPCClient :=
  match run c with
  | Reading =>
      match fails with
      | Some e => set_run (Failing e) c
      | None =>
          let '(i, line) := readJSONLLine (stream c) in
          let c := set_stream i c in
          match (let? l := line in decodeWireMessage l) with
          | Err e => set_run (Failing e) c
          | Ok m => let '(c, r) := on_message m c in set_run r c
          end
      end
  | _ => c
  end.
Definition run_turn (ch : choice) (c : RPCClient) : RPCClient :=
  match run c with
  | Pushing n work =>
      match ch, run_ctx c with
      | PickContext, Some e =>
          set_run (Failing e) (match work with Some w => releaseServerRequest (sw_key w) c | None => c end)
      | PickContext, None => c
      | _, _ =>
          if (length (events c) <? rpcEventQueueCapacity)%nat
          then set_run (match work with Some w => Starting w | None => Reading end) (set_events (events c ++ [n]) c)
          else c
      end
  | Starting work => match startServerRequest work c with (c, Some e) => set_run (Failing e) c | (c, None) => set_run Reading c end
  | Failing e => let c := failAll e c in set_run (Returning (firstTerminal e c)) c
  | Returning e => if forallb (fun h => match hd_at h with HEnded => true | _ => false end) (handlers c) then set_run (Ended e) c else c
  | _ => c
  end.

(** ** Moves *)

Inductive move :=
| MCall (method : string) (p : params) (decodes : string -> bool) (ctx : option rerr)
| MNotify (method : string) (p : params) (ctx : option rerr)
| MRun (ctx : option rerr)
| MCallTurn (k : nat) (ch : choice)
| MNotifyTurn (j : nat) (ch : choice)
| MHandlerTurn (j : nat) (ch : choice)
| MRead (fails : option rerr)
| MRunTurn (ch : choice)
| MCancelCall (k : nat) (e : rerr)      (* a caller's context ends *)
| MCancelNotify (j : nat) (e : rerr)
| MCancelRun (e : rerr)
| MWatch                                (* the goroutine that watches the run's context *)
| MConsume.                             (* somebody takes an event *)
Definition cancel (e : rerr) (ctx : option rerr) : option rerr := match ctx with Some e => Some e | None => Some e end.
Definition move_step (c : RPCClient) (m : move) : RPCClient :=
  match m with
  | MCall method p decodes ctx => (Call method p decodes ctx c).1
  | MNotify method p ctx => (Notify method p ctx c).1
  | MRun ctx => (Run ctx c).1
  | MCallTurn k ch => call_turn k ch c
  | MNotifyTurn j ch => notify_turn j ch c
  | MHandlerTurn j ch => handler_turn j ch c
  | MRead fails => read_turn fails c
  | MRunTurn ch => run_turn ch c
  | MCancelCall k e => change k (fun x => with_ctx (cancel e (cl_ctx x)) x) c
  | MCancelNotify j e => set_notifiers (alter (fun x => mkNotifier (nt_line x) (cancel e (nt_ctx x)) (nt_at x)) j (notifiers c)) c
  | MCancelRun e => match run c with NotRunning => c | _ => set_run_ctx (cancel e (run_ctx c)) c end
  | MWatch =>
      match run c, run_ctx c with
      | NotRunning, _ | _, None => c
      | _, Some e => failAll e c
      end
  | MConsume => set_events (tail (events c)) c
  end.
Definition moves (c : RPCClient) (l : list move) : RPCClient := foldl move_step c l.
