(* ===== verification/RpcSafety.v ===== *)
(** * Calls of the agent's process are answered once

    The client refines a table of calls: a call is open, then settled by a
    response with its own id or by an error, then closed; and whoever waits for a
    result gets one. *)
From S2P Require Import Prelude GoStrings Json Wire Jsonrpc RpcClient JsonFacts.

(** ** The specification: a table of calls *)

Inductive status := Open | Settled (r : callResult) | Closed (o : outcome).
Record table := { tb_heard : list wireMessage; tb_terminal : option rerr; tb_calls : list status }.

(** What may happen to the call with an id, given what was heard and the terminal
    error. *)
Inductive call_step (hs : list wireMessage) (terminal : option rerr) (id : Z) : status -> status -> Prop :=
| step_keep s : call_step hs terminal id s s
| step_answer m : m ∈ hs -> wm_kind m = wireResponse -> wm_idKey m = key_of id -> call_step hs terminal id Open (Settled (remote_result m))
| step_fail e : terminal = Some e \/ e = RUnknownResponse -> call_step hs terminal id Open (Settled (local_error e))
| step_withdraw n e : call_step hs terminal id Open (Closed (CallFailed n e))
| step_finish r n d : call_step hs terminal id (Settled r) (Closed (decodeCallResult n r d)).
Record table_step (t t' : table) : Prop := mk_table_step
  { ts_heard : tb_heard t `prefix_of` tb_heard t';
    ts_terminal : forall e, tb_terminal t = Some e -> tb_terminal t' = Some e;
    ts_calls : forall k s, tb_calls t !! k = Some s ->
      exists s', tb_calls t' !! k = Some s' /\ call_step (tb_heard t') (tb_terminal t') (Z.of_nat k + 1) s s';
    ts_new : forall k s, tb_calls t !! k = None -> tb_calls t' !! k = Some s -> s = Open /\ tb_terminal t = None }.

Definition status_of (x : caller) : status :=
  match cl_at x with
  | PDone o => Closed o
  | PRemoved n e true => Closed (CallFailed n e)
  | _ => match pd_response (cl_pending x) with r :: _ => Settled r | [] => Open end
  end.
Definition table_of (c : RPCClient) : table :=
  {| tb_heard := heard c; tb_terminal := terminalErr c; tb_calls := status_of <$> callers c |}.

(** ** The invariant *)

(** Where a removed call has no result: its caller removed it itself. *)
Definition withdrawn (p : point) : Prop := match p with PDone _ | PRemoved _ _ true => True | _ => False end.
(** Where a call is no longer in the table. *)
Definition detached (p : point) : Prop := match p with PDone _ | PRemoved _ _ _ | PWait _ _ => True | _ => False end.
Definition answer_ok (hs : list wireMessage) (id : Z) (r : callResult) : Prop :=
  exists m, m ∈ hs /\ wm_kind m = wireResponse /\ wm_idKey m = key_of id /\ r = remote_result m.
Record caller_ok (hs : list wireMessage) (terminal : option rerr) (p : gmap string nat) (k : nat) (x : caller) : Prop := mk_caller_ok
  { co_id : cl_id x = Z.of_nat k + 1;
    co_key : cl_key x = key_of (cl_id x);
    co_pending : p !! cl_key x = Some k -> pd_response (cl_pending x) = [] /\ ~ detached (cl_at x);
    co_removed : p !! cl_key x <> Some k -> ~ withdrawn (cl_at x) -> exists r, pd_response (cl_pending x) = [r];
    co_withdrawn : withdrawn (cl_at x) -> pd_response (cl_pending x) = [];
    co_quarantined : forall r, pd_quarantined (cl_pending x) = Some r -> answer_ok hs (cl_id x) r }.
Record rpc_ok (c : RPCClient) : Prop := mk_rpc_ok
  { ro_ids : nextID c = Z.of_nat (length (callers c));
    ro_callers : forall k x, callers c !! k = Some x -> caller_ok (heard c) (terminalErr c) (pending c) k x;
    ro_pending : forall key k, pending c !! key = Some k -> exists x, callers c !! k = Some x /\ cl_key x = key;
    ro_terminal : terminalErr c <> None -> pending c = ∅ }.

(** ** Simulation of one action *)

(** The fields of the client that the table depends on. *)
Definition same_table (c c' : RPCClient) : Prop :=
  nextID c' = nextID c /\ callers c' = callers c /\ pending c' = pending c /\ heard c' = heard c /\ terminalErr c' = terminalErr c.
Definition sim (c c' : RPCClient) : Prop := rpc_ok c -> rpc_ok c' /\ rtc table_step (table_of c) (table_of c').
#[export] Instance sim_preorder : PreOrder sim.
Proof.
  split; [by intros c H|]. intros c1 c2 c3 H1 H2 O1. destruct (H1 O1) as [O2 T1]. destruct (H2 O2) as [O3 T2]. split; [done|]. by etrans.
Qed.
Lemma sim_same c c' : same_table c c' -> sim c c'.
Proof.
  intros (N & C & P & H & T) [A B D F]. split.
  - split; rewrite ?N, ?C, ?P, ?H, ?T; try done.
  - unfold table_of. rewrite C, H, T. done.
Qed.
Lemma alter_known {A} (f : A -> A) (l : list A) k x : l !! k = Some x -> alter f k l = <[k := f x]> l.
Proof. intros H. apply list_eq. intros i. destruct (decide (i = k)) as [->|N].
  - rewrite list_lookup_alter_eq, H, list_lookup_insert_eq; [done|]. by eapply lookup_lt_Some.
  - by rewrite list_lookup_alter_ne, list_lookup_insert_ne. Qed.
Lemma key_of_inj a b : key_of a = key_of b -> a = b.
Proof. unfold key_of, itoa. intros H%(inj (String.append "n:")). by apply (inj (R:=(=)) (S:=(=)) (pretty : Z -> string)). Qed.
Lemma other_key c k k' x x' : rpc_ok c -> callers c !! k = Some x -> callers c !! k' = Some x' -> k <> k' -> cl_key x <> cl_key x'.
Proof.
  intros O Hk Hk' N E. apply N. pose proof (ro_callers _ O _ _ Hk) as H. pose proof (ro_callers _ O _ _ Hk') as H'.
  rewrite (co_key _ _ _ _ _ H), (co_key _ _ _ _ _ H') in E. apply key_of_inj in E. pose proof (co_id _ _ _ _ _ H). pose proof (co_id _ _ _ _ _ H'). lia.
Qed.

(** One caller changes, and its key may leave the table. *)
Lemma sim_local c c' k x x' : callers c !! k = Some x ->
  nextID c' = nextID c -> heard c' = heard c -> terminalErr c' = terminalErr c -> callers c' = <[k := x']> (callers c) ->
  (pending c' = pending c \/ pending c' = delete (cl_key x) (pending c)) -> cl_key x' = cl_key x ->
  (rpc_ok c -> caller_ok (heard c) (terminalErr c) (pending c) k x ->
     caller_ok (heard c) (terminalErr c) (pending c') k x' /\ call_step (heard c) (terminalErr c) (Z.of_nat k + 1) (status_of x) (status_of x')) ->
  sim c c'.
Proof.
  intros Hk N Hh T C P Ek L O. pose proof (ro_callers _ O _ _ Hk) as Ox. destruct (L O Ox) as [Ox' St].
  assert (Lk : (k < length (callers c))%nat) by by eapply lookup_lt_Some.
  assert (Other : forall k' y, k' <> k -> callers c !! k' = Some y -> pending c' !! cl_key y = pending c !! cl_key y).
  { intros k' y Nk Hy. destruct P as [->| ->]; [done|]. apply lookup_delete_ne. by apply (other_key c k k'). }
  split.
  - split.
    + by rewrite N, C, length_insert, (ro_ids _ O).
    + intros k' y. rewrite C, Hh, T. destruct (decide (k' = k)) as [->|Nk].
      * rewrite list_lookup_insert_eq by done. by intros [= <-].
      * rewrite list_lookup_insert_ne by done. intros Hy. pose proof (Other _ _ Nk Hy) as E. destruct (ro_callers _ O _ _ Hy). split; rewrite ?E; done.
    + intros key k' Hp. assert (Hp' : pending c !! key = Some k').
      { destruct P as [P|P]; rewrite P in Hp; [done|]. by apply lookup_delete_Some in Hp as [_ ?]. }
      destruct (ro_pending _ O _ _ Hp') as (y & Hy & Ey). rewrite C. destruct (decide (k' = k)) as [->|Nk].
      * exists x'. rewrite list_lookup_insert_eq by done. split; [done|]. congruence.
      * exists y. by rewrite list_lookup_insert_ne.
    + rewrite T. intros Ht. pose proof (ro_terminal _ O Ht) as E. destruct P as [->| ->]; rewrite E; [done|]. by rewrite delete_empty.
  - apply rtc_once. split; cbn; rewrite ?Hh, ?T, ?C; try done.
    + intros k' s. rewrite !list_lookup_fmap. destruct (decide (k' = k)) as [->|Nk].
      * rewrite Hk, list_lookup_insert_eq by done. cbn. intros [= <-]. by eexists.
      * rewrite list_lookup_insert_ne by done. intros E. exists s. split; [done|]. constructor.
    + intros k' s. rewrite !list_lookup_fmap. destruct (decide (k' = k)) as [->|Nk]; [by rewrite Hk|].
      rewrite list_lookup_insert_ne by done. intros E1 E2. congruence.
Qed.

Lemma status_open x : ~ withdrawn (cl_at x) -> pd_response (cl_pending x) = [] -> status_of x = Open.
Proof. unfold status_of. intros W ->. by destruct (cl_at x) as [| | | | |? ? []| | |]; cbn in W. Qed.
Lemma status_settled x r : ~ withdrawn (cl_at x) -> pd_response (cl_pending x) = [r] -> status_of x = Settled r.
Proof. unfold status_of. intros W ->. by destruct (cl_at x) as [| | | | |? ? []| | |]; cbn in W. Qed.
Lemma not_detached_withdrawn p : ~ detached p -> ~ withdrawn p.
Proof. by destruct p as [| | | | |? ? []| | |]; cbn; tauto. Qed.

Ltac local_tac Hk := eapply (sim_local _ _ _ _ _ Hk); [done|done|done|cbn; by apply alter_known| |done|].

(** The caller goes on, in the table or with its result. *)
Lemma sim_goto c k p : ~ detached p -> (forall x, callers c !! k = Some x -> ~ withdrawn (cl_at x)) -> sim c (change k (with_at p) c).
Proof.
  intros Dp W. destruct (callers c !! k) as [x|] eqn:Hk.
  2:{ apply sim_same. split_and!; try done. cbn. apply list_eq. intros i. destruct (decide (i = k)) as [->|N];
      [by rewrite list_lookup_alter_eq, Hk|by rewrite list_lookup_alter_ne]. }
  specialize (W x eq_refl). pose proof (not_detached_withdrawn p Dp) as Wp. local_tac Hk; [by left|].
  intros _ Ox. cbn. split.
  - destruct Ox as [I K P R Wd Q]. split; cbn; try done; [intros Hp; by destruct (P Hp)|auto].
  - destruct Ox as [I K P R Wd Q]. destruct (decide (pending c !! cl_key x = Some k)) as [Hp|Hp].
    + destruct (P Hp) as [E _]. rewrite (status_open x), (status_open (with_at p x)) by done. apply step_keep.
    + destruct (R Hp W) as [r E]. rewrite (status_settled x r), (status_settled (with_at p x) r) by done. apply step_keep.
Qed.
(** The key of the caller leaves the table, and its result arrives. *)
Lemma sim_settle c k x r : callers c !! k = Some x -> pending c !! cl_key x = Some k -> 
  call_step (heard c) (terminalErr c) (Z.of_nat k + 1) Open (Settled r) -> sim c (settle k x r c).
Proof.
  intros Hk Hp St. local_tac Hk; [by right|]. intros _ Ox. destruct Ox as [I K P R Wd Q]. destruct (P Hp) as [E D].
  pose proof (not_detached_withdrawn _ D) as W. cbn. split.
  - split; cbn; try done.
    + by rewrite lookup_delete_eq.
    + intros _ _. exists r. by rewrite E.
  - rewrite (status_open x), (status_settled _ r) by (cbn; by rewrite ?E). done.
Qed.
(** The state of the call in the table changes. *)
Lemma sim_pending c k x p : callers c !! k = Some x -> pd_response p = pd_response (cl_pending x) ->
  (rpc_ok c -> forall r, pd_quarantined p = Some r -> pd_quarantined (cl_pending x) = Some r \/ answer_ok (heard c) (cl_id x) r) ->
  sim c (change k (fun x => with_pending p x) c).
Proof.
  intros Hk E Qn. local_tac Hk; [by left|]. intros O Ox. destruct Ox as [I K P R Wd Q]. cbn. split.
  - split; cbn; rewrite ?E; try done. intros r Hr. destruct (Qn O r Hr) as [H|H]; [by apply Q|done].
  - unfold status_of. cbn. rewrite E. constructor.
Qed.
Lemma change_known c k f x : callers c !! k = Some x -> change k f c = set_callers (<[k := f x]> (callers c)) c.
Proof. intros H. unfold change. by rewrite (alter_known _ _ _ x). Qed.
Lemma sim_begin c k x : callers c !! k = Some x -> sim c (beginPendingWrite k x c).1.
Proof.
  intros Hk. unfold beginPendingWrite. destruct (negb _); [done|]. case_bool_decide; [|done]. cbn [fst].
  rewrite (change_known _ _ _ _ Hk), <- (change_known c k (fun y => with_pending (with_phase pendingInDirectWrite (cl_pending x)) y) x Hk).
  apply (sim_pending _ _ x); [done|done|]. intros _ r Hr. by left.
Qed.
Lemma sim_deliver m c : m ∈ heard c -> wm_kind m = wireResponse -> sim c (deliverResponse m c).1.
Proof.
  intros Hm Km. unfold deliverResponse. destruct (pending c !! wm_idKey m) as [k|] eqn:Hp; [|done].
  destruct (callers c !! k) as [x|] eqn:Hk; [|done]. intros O. destruct (ro_pending _ O _ _ Hp) as (x' & Hk' & Ek).
  assert (x' = x) as -> by congruence. rewrite <- Ek in Hp. pose proof (ro_callers _ O _ _ Hk) as Ox.
  assert (A : wm_idKey m = key_of (cl_id x)) by (rewrite <- Ek; apply (co_key _ _ _ _ _ Ox)).
  assert (Ans : call_step (heard c) (terminalErr c) (Z.of_nat k + 1) Open (Settled (remote_result m))).
  { apply step_answer; [done|done|]. by rewrite A, (co_id _ _ _ _ _ Ox). }
  revert O. change (sim c (match pd_phase (cl_pending x) with
    | pendingPreWrite => (settle k x (local_error RUnknownResponse) (change k (fun x => with_pending (with_phase pendingRejected (cl_pending x)) x) c), Some RUnknownResponse)
    | pendingInDirectWrite => match pd_quarantined (cl_pending x) with Some _ => (c, Some RUnknownResponse) | None =>
        (change k (fun x0 => with_pending (mkPending (pd_response (cl_pending x)) (pd_phase (cl_pending x)) (pd_bytesWritten (cl_pending x)) (Some (remote_result m))) x0) c, None) end
    | pendingWriteDone => if pd_bytesWritten (cl_pending x) =? 0 then (settle k x (local_error RUnknownResponse) c, Some RUnknownResponse) else (settle k x (remote_result m) c, None)
    | pendingRejected => (c, Some RInvalidMessage) end).1).
  destruct (pd_phase (cl_pending x)); cbn [fst].
  - rewrite (change_known _ _ _ _ Hk), <- (change_known c k (fun y => with_pending (with_phase pendingRejected (cl_pending x)) y) x Hk).
    etrans; [apply (sim_pending c k x (with_phase pendingRejected (cl_pending x))); [done|done|intros _ r Hr; by left]|].
    set (c1 := change _ _ c). set (x1 := with_pending (with_phase pendingRejected (cl_pending x)) x).
    change (settle k x (local_error RUnknownResponse) c1) with (settle k x1 (local_error RUnknownResponse) c1). apply sim_settle.
    + unfold c1. cbn. by rewrite list_lookup_alter_eq, Hk.
    + done.
    + apply step_fail. by right.
  - destruct (pd_quarantined _) eqn:Q; [done|]. apply (sim_pending _ _ x); [done|done|]. intros _ r [= <-]. right. by exists m.
  - destruct (_ =? 0); apply sim_settle; try done. apply step_fail. by right.
  - done.
Qed.
Lemma sim_record c k x n : callers c !! k = Some x -> sim c (recordWriteOutcome k x n c).1.
Proof.
  intros Hk. unfold recordWriteOutcome, is_pending. case_bool_decide as Hp; cbn [negb]; [|done].
  set (done_ := change k _ c).
  assert (S1 : sim c done_) by (apply (sim_pending _ _ x); [done|done|by intros _ r]).
  destruct (pd_quarantined (cl_pending x)) as [r|] eqn:Q; [|exact S1].
  intros O. pose proof (co_quarantined _ _ _ _ _ (ro_callers _ O _ _ Hk) r Q) as (m & Hm & Km & A & ->).
  pose proof (co_id _ _ _ _ _ (ro_callers _ O _ _ Hk)) as I. revert O.
  change (sim c (if n =? 0 then (settle k x (local_error RUnknownResponse) done_, Some RUnknownResponse) else (settle k x (remote_result m) done_, None)).1).
  set (x1 := with_pending (mkPending (pd_response (cl_pending x)) pendingWriteDone n None) x).
  assert (Hk1 : callers done_ !! k = Some x1) by (unfold done_; cbn; by rewrite list_lookup_alter_eq, Hk).
  destruct (n =? 0); (etrans; [exact S1|]).
  - change (sim done_ (settle k x1 (local_error RUnknownResponse) done_)). apply sim_settle; [done|done|]. apply step_fail. by right.
  - change (sim done_ (settle k x1 (remote_result m) done_)). apply sim_settle; [done|done|]. apply step_answer; [done|done|]. by rewrite A, I.
Qed.

(** ** Simulation of a move *)

Lemma give_pending_status p e k x hs t : (p !! cl_key x = Some k -> pd_response (cl_pending x) = [] /\ ~ detached (cl_at x)) ->
  call_step hs (Some e) t (status_of x) (status_of (give_pending p e k x)).
Proof.
  intros P. unfold give_pending. case_bool_decide as H; [|constructor]. destruct (P H) as [E D]. apply not_detached_withdrawn in D.
  rewrite (status_open x), (status_settled (with_pending _ x) (local_error e)) by (cbn; by rewrite ?E). apply step_fail. by left.
Qed.
Lemma sim_failAll e c : sim c (failAll e c).
Proof.
  unfold failAll. destruct (terminalErr c) as [t|] eqn:T; [done|]. intros O. split.
  - split; cbn; try done.
    + rewrite length_imap. apply (ro_ids _ O).
    + intros k x Hx. rewrite list_lookup_imap in Hx. destruct (callers c !! k) as [y|] eqn:Hy; [|done]. cbn in Hx. injection Hx as <-.
      destruct (ro_callers _ O _ _ Hy) as [I K P R Wd Q]. unfold give_pending. case_bool_decide as Hp.
      * destruct (P Hp) as [E D]. split; cbn; rewrite ?E; try done.
        -- intros _ _. by eexists.
        -- intros W. by destruct (not_detached_withdrawn _ D).
      * split; try done. intros _ W. by apply R.
  - apply rtc_once. split; cbn; try done.
    + by rewrite T.
    + intros k s. rewrite !list_lookup_fmap, list_lookup_imap. destruct (callers c !! k) as [x|] eqn:Hx; [|done]. cbn. intros [= <-].
      eexists. split; [done|]. apply give_pending_status. apply (co_pending _ _ _ _ _ (ro_callers _ O _ _ Hx)).
    + intros k s. rewrite !list_lookup_fmap, list_lookup_imap. by destruct (callers c !! k).
Qed.
Lemma sim_hear m c : sim c (hear m c).
Proof.
  intros O. split.
  - destruct O as [A B D F]. split; cbn; try done. intros k x Hx. destruct (B k x Hx) as [I K P R Wd Q]. split; try done.
    intros r Hr. destruct (Q r Hr) as (m' & Hm & H). exists m'. split; [|done]. apply elem_of_app. by left.
  - apply rtc_once. split; cbn; try done; [by eexists| |].
    + intros k s H. exists s. split; [done|constructor].
    + intros k s H1 H2. congruence.
Qed.
Lemma sim_register line decodes ctx c : sim c (registerPending line decodes ctx c).1.
Proof.
  unfold registerPending. destruct (terminalErr c) as [t|] eqn:T; [done|]. destruct (_ =? _); [done|]. cbn [fst]. intros O.
  assert (Fresh : pending c !! key_of (nextID c + 1) = None).
  { destruct (pending c !! _) as [k|] eqn:E; [|done]. destruct (ro_pending _ O _ _ E) as (x & Hx & Ex).
    destruct (ro_callers _ O _ _ Hx) as [I K _ _ _ _]. rewrite K, I in Ex. apply key_of_inj in Ex. rewrite (ro_ids _ O) in Ex.
    apply lookup_lt_Some in Hx. lia. }
  split.
  - split; cbn; try done.
    + rewrite length_app, (ro_ids _ O). cbn. lia.
    + intros k x [Hx|[Hk Hx]]%lookup_app_Some.
      * destruct (ro_callers _ O _ _ Hx) as [I K P R Wd Q].
        assert (E : <[key_of (nextID c + 1) := length (callers c)]> (pending c) !! cl_key x = pending c !! cl_key x).
        { apply lookup_insert_ne. intros E. rewrite K, I in E. apply key_of_inj in E. rewrite (ro_ids _ O) in E. apply lookup_lt_Some in Hx. lia. }
        split; rewrite ?E; done.
      * destruct (k - length (callers c))%nat eqn:Ek; [|done]. cbn in Hx. injection Hx as <-. assert (k = length (callers c)) as -> by lia.
        split; cbn; try done; [by rewrite (ro_ids _ O)|tauto|]. by rewrite lookup_insert_eq.
    + intros key k [[<- <-]|[N Hp]]%lookup_insert_Some.
      * eexists. rewrite lookup_app_r, Nat.sub_diag by lia. by split.
      * destruct (ro_pending _ O _ _ Hp) as (x & Hx & Ex). exists x. split; [|done]. by apply lookup_app_l_Some.
  - apply rtc_once. split; cbn; try done; rewrite ?fmap_app; [by rewrite T| |].
    + intros k s H. exists s. split; [by apply lookup_app_l_Some|constructor].
    + intros k s H1 [H2|[Hk H2]]%lookup_app_Some; [congruence|]. split; [|done].
      destruct (k - _)%nat; [|done]. cbn in H2. by injection H2 as <-.
Qed.
Lemma sim_receive c k x n d : callers c !! k = Some x -> ~ withdrawn (cl_at x) -> sim c (receive_result k x n d c).
Proof.
  intros Hk W. unfold receive_result. destruct (pd_response (cl_pending x)) as [|r rest] eqn:E; [done|]. local_tac Hk; [by left|].
  intros _ [I K P R Wd Q]. assert (Np : pending c !! cl_key x <> Some k) by (intros Hp; destruct (P Hp); congruence).
  destruct (R Np W) as [r' E']. assert (rest = []) as -> by congruence. cbn. split.
  - split; cbn; try done; tauto.
  - rewrite (status_settled x r) by done. apply step_finish.
Qed.
(** The caller takes its key out of the table, or finds it gone. *)
Lemma sim_remove c k x p1 p2 n e : callers c !! k = Some x -> ~ withdrawn (cl_at x) ->
  status_of (with_at p1 x) = Closed (CallFailed n e) -> withdrawn p1 -> ~ withdrawn p2 ->
  sim c (let '(c, removed) := removePending k x c in change k (with_at (if removed : bool then p1 else p2)) c).
Proof.
  intros Hk W St W1 W2. unfold removePending, is_pending. case_bool_decide as Hp.
  - local_tac Hk; [by right|]. intros _ [I K P R Wd Q]. destruct (P Hp) as [E _]. cbn. split.
    + split; cbn; try done; rewrite ?lookup_delete_eq; try done; tauto.
    + rewrite (status_open x) by done. rewrite St. apply step_withdraw.
  - local_tac Hk; [by left|]. intros _ [I K P R Wd Q]. destruct (R Hp W) as [r E]. cbn. split.
    + split; cbn; try done; try tauto; intros _ _; by exists r.
    + rewrite (status_settled x r), (status_settled (with_at p2 x) r) by done. apply step_keep.
Qed.
Lemma write_step_table who ctx payload w ch c : same_table c (write_step who ctx payload w ch c).1.
Proof. unfold write_step. repeat case_match; done. Qed.
Lemma begin_at c k x c' r : callers c !! k = Some x -> beginPendingWrite k x c = (c', r) -> forall y, callers c' !! k = Some y -> cl_at y = cl_at x.
Proof.
  intros Hk. unfold beginPendingWrite. repeat case_match; intros [= <- <-] y; cbn; try (intros ?; congruence).
  rewrite list_lookup_alter_eq, Hk. by intros [= <-].
Qed.
Lemma record_at c k x n c' r : callers c !! k = Some x -> recordWriteOutcome k x n c = (c', r) -> forall y, callers c' !! k = Some y -> cl_at y = cl_at x.
Proof.
  intros Hk. unfold recordWriteOutcome. repeat case_match; intros [= <- <-] y; cbn; rewrite ?list_lookup_alter_eq, ?Hk; cbn; intros [= <-]; done.
Qed.
Lemma failAll_at c k e y : callers (failAll e c) !! k = Some y -> exists x, callers c !! k = Some x /\ cl_at y = cl_at x.
Proof.
  unfold failAll. destruct (terminalErr c); [by exists y|]. cbn. rewrite list_lookup_imap. destruct (callers c !! k) as [x|]; [|done].
  cbn. intros [= <-]. exists x. split; [done|]. unfold give_pending. by case_bool_decide.
Qed.
Lemma sim_goto_gone c k p : (forall x, callers c !! k = Some x ->
    detached (cl_at x) /\ (withdrawn p <-> withdrawn (cl_at x)) /\ status_of (with_at p x) = status_of x) -> sim c (change k (with_at p) c).
Proof.
  intros G. destruct (callers c !! k) as [x|] eqn:Hk.
  2:{ apply sim_same. split_and!; try done. cbn. apply list_eq. intros i. destruct (decide (i = k)) as [->|N];
      [by rewrite list_lookup_alter_eq, Hk|by rewrite list_lookup_alter_ne]. }
  destruct (G x eq_refl) as (D & W & S). local_tac Hk; [by left|]. intros _ [I K P R Wd Q]. cbn. split.
  - split; cbn; try done.
    + intros Hp. by destruct (P Hp).
    + intros Hp Np. apply R; [done|]. by rewrite <- W.
    + rewrite W. done.
  - rewrite S. apply step_keep.
Qed.
Lemma sim_then_goto c c1 k x p : sim c c1 -> callers c !! k = Some x -> ~ withdrawn (cl_at x) ->
  (forall y, callers c1 !! k = Some y -> cl_at y = cl_at x) -> ~ detached p -> sim c (change k (with_at p) c1).
Proof. intros S Hk W A D. etrans; [exact S|]. apply sim_goto; [done|]. intros y Hy. by rewrite (A y Hy). Qed.
Lemma sim_call_turn k ch c : sim c (call_turn k ch c).
Proof.
  unfold call_turn. destruct (callers c !! k) as [x|] eqn:Hk; [|done].
  assert (Same : forall c1, same_table c c1 -> forall y, callers c1 !! k = Some y -> cl_at y = cl_at x).
  { intros c1 (_ & C & _) y. rewrite C, Hk. by intros [= ->]. }
  assert (Fail : forall e y, callers (failAll e c) !! k = Some y -> cl_at y = cl_at x).
  { intros e y Hy. destruct (failAll_at _ _ _ _ Hy) as (x' & Hx & ->). congruence. }
  destruct (cl_at x) as [|e|line w|n err st|n e|n e removed|n|n d|o] eqn:At; cbn beta zeta.
  - eapply sim_then_goto; [reflexivity|exact Hk|rewrite At; by intros []|rewrite At; by apply Same|destruct (cl_line x); by intros []].
  - apply (sim_remove _ _ x _ _ 0 e); try done; try rewrite At; by intros [].
  - assert (W : ~ withdrawn (cl_at x)) by (rewrite At; by intros []).
    assert (Step : sim c (let '(c, w) := write_step (ByCall k) (cl_ctx x) line w ch c in change k (with_at (PWrite line w)) c)).
    { pose proof (write_step_table (ByCall k) (cl_ctx x) line w ch c) as T. destruct (write_step _ _ _ _ _ _) as [c1 w1].
      cbn in T. eapply sim_then_goto; [by apply sim_same|exact Hk|done|rewrite At; by apply Same|by intros []]. }
    destruct w as [| |total begun|total|total|total err]; try (exact Step).
    + destruct (beginPendingWrite k x c) as [c1 r] eqn:B. pose proof (sim_begin c k x Hk) as S. rewrite B in S. cbn in S.
      pose proof (begin_at _ _ _ _ _ Hk B) as A. destruct r as [e|].
      * apply (sim_then_goto c (set_gate None c1) k x); try done; [|by intros []]. etrans; [exact S|]. by apply sim_same.
      * apply (sim_then_goto c c1 k x); try done. by intros [].
    + destruct (recordWriteOutcome k x total c) as [c1 r] eqn:B. pose proof (sim_record c k x total Hk) as S. rewrite B in S.
      apply (sim_then_goto c c1 k x); try done; [by apply (record_at _ _ _ _ _ _ Hk B)|by intros []].
  - apply (sim_then_goto c _ k x); [destruct st; [apply sim_failAll|reflexivity]|done|rewrite At; by intros []| |destruct err; by intros []].
    intros y Hy. rewrite At. destruct st; [by eapply Fail|by eapply Same].
  - pose proof (sim_remove c k x (PRemoved n e true) (PRemoved n e false) n e Hk) as S.
    destruct (removePending k x c) as [c1 []]; apply S; try done; try rewrite At; by intros [].
  - set (c1 := if _ : bool then failAll e c else c). assert (S : sim c c1) by (unfold c1; destruct (_ || _); [apply sim_failAll|done]).
    etrans; [exact S|]. apply sim_goto_gone. intros y Hy.
    assert (Ay : cl_at y = PRemoved n e removed) by (unfold c1 in Hy; destruct (_ || _); [by eapply Fail|by eapply (Same c)]).
    unfold status_of. cbn. rewrite Ay. by destruct removed.
  - destruct ch; try (apply sim_receive; [done|rewrite At; by intros []]). destruct (cl_ctx x) as [e|]; [|done].
    apply (sim_remove _ _ x _ _ n e); try done; try rewrite At; by intros [].
  - apply sim_receive; [done|rewrite At; by intros []].
  - done.
Qed.

Lemma sim_notify_turn j ch c : sim c (notify_turn j ch c).
Proof.
  unfold notify_turn. destruct (notifiers c !! j) as [x|]; [|done]. cbn beta zeta.
  assert (Step : forall w, sim c (let '(c, w) := write_step (ByNotify j) (nt_ctx x) (nt_line x) w ch c in
    set_notifiers (<[j := mkNotifier (nt_line x) (nt_ctx x) (NWrite w)]> (notifiers c)) c)).
  { intros w. pose proof (write_step_table (ByNotify j) (nt_ctx x) (nt_line x) w ch c) as T. destruct (write_step _ _ _ _ _ _) as [c1 w1].
    by apply sim_same. }
  destruct (nt_at x) as [[]|n e|]; try (by apply Step); try done.
  - destruct err; by apply sim_same.
  - set (c1 := if _ : bool then failAll e c else c). assert (S : sim c c1) by (unfold c1; destruct (_ || _); [apply sim_failAll|done]).
    etrans; [exact S|]. by apply sim_same.
Qed.
Lemma sim_handler_turn j ch c : sim c (handler_turn j ch c).
Proof.
  unfold handler_turn. destruct (handlers c !! j) as [x|]; [|done]. cbn beta zeta.
  assert (Step : forall line w, sim c (if MaxJSONLLineBytes <? len line
      then set_handlers (<[j := mkHandler (hd_work x) (HFail RMessageTooLarge)]> (handlers c)) c
      else let '(c, w) := write_step (ByHandler j) (run_ctx c) line w ch c in set_handlers (<[j := mkHandler (hd_work x) (HWrite line w)]> (handlers c)) c)).
  { intros line w. destruct (_ <? _); [by apply sim_same|].
    pose proof (write_step_table (ByHandler j) (run_ctx c) line w ch c) as T. destruct (write_step _ _ _ _ _ _) as [c1 w1].
    by apply sim_same. }
  destruct (hd_at x) as [| |line []|e| |]; try (by apply Step); try done; try (by apply sim_same).
  - destruct (has _); [by apply sim_same|]. destruct (RejectServerRequest _) as [r e]. by apply sim_same.
  - destruct err; by apply sim_same.
  - etrans; [apply (sim_failAll e)|by apply sim_same].
Qed.
Lemma sim_on_message m c : sim c (on_message m c).1.
Proof.
  unfold on_message. etrans; [apply (sim_hear m)|]. destruct (wm_kind m) eqn:K.
  - pose proof (sim_deliver m (hear m c)) as S. destruct (deliverResponse m (hear m c)) as [c1 [e|]]; apply S; try done; apply elem_of_app; right; by left.
  - reflexivity.
  - unfold admitServerRequest. repeat case_match; simplify_eq; by apply sim_same.
Qed.
Lemma sim_run_turn ch c : sim c (run_turn ch c).
Proof.
  unfold run_turn. destruct (run c) as [| |n work|work|e|e|e]; try done.
  - repeat case_match; by apply sim_same.
  - unfold startServerRequest. cbv zeta. repeat case_match; simplify_eq; by apply sim_same.
  - etrans; [apply (sim_failAll e)|by apply sim_same].
  - destruct (forallb _ _); by apply sim_same.
Qed.
Lemma sim_change_ctx c k e : sim c (change k (fun x => with_ctx e x) c).
Proof.
  destruct (callers c !! k) as [x|] eqn:Hk.
  2:{ apply sim_same. split_and!; try done. cbn. apply list_eq. intros i. destruct (decide (i = k)) as [->|N];
      [by rewrite list_lookup_alter_eq, Hk|by rewrite list_lookup_alter_ne]. }
  local_tac Hk; [by left|]. intros _ [I K P R Wd Q]. split; [by split|apply step_keep].
Qed.
Lemma sim_move c m : sim c (move_step c m).
Proof.
  destruct m; cbn [move_step].
  - unfold Call. repeat case_match; try done. apply sim_register.
  - unfold Notify. repeat case_match; try done; by apply sim_same.
  - unfold Run. repeat case_match; try done; by apply sim_same.
  - apply sim_call_turn.
  - apply sim_notify_turn.
  - apply sim_handler_turn.
  - unfold read_turn. destruct (run c); try done. destruct fails; [by apply sim_same|].
    destruct (readJSONLLine (stream c)) as [i line]. etrans; [by apply (sim_same c (set_stream i c))|].
    cbv zeta. destruct (let? l := line in decodeWireMessage l) as [m|e]; [|by apply sim_same].
    pose proof (sim_on_message m (set_stream i c)) as S. destruct (on_message m (set_stream i c)) as [c1 r]. etrans; [exact S|by apply sim_same].
  - apply sim_run_turn.
  - destruct (callers c !! k) as [x|] eqn:Hk.
    + rewrite (change_known _ _ _ _ Hk), <- (change_known c k (fun y => with_ctx (cancel e (cl_ctx x)) y) x Hk). apply sim_change_ctx.
    + apply sim_same. split_and!; try done. cbn. apply list_eq. intros i. destruct (decide (i = k)) as [->|N];
      [by rewrite list_lookup_alter_eq, Hk|by rewrite list_lookup_alter_ne].
  - by apply sim_same.
  - destruct (run c); try done; by apply sim_same.
  - destruct (run c), (run_ctx c); try done; apply sim_failAll.
  - by apply sim_same.
Qed.
Lemma moves_sim l c : sim c (moves c l).
Proof. revert c. induction l as [|m l IH]; intros c; [done|]. cbn. etrans; [apply sim_move|apply IH]. Qed.
Lemma new_ok i : rpc_ok (NewRPCClient i).
Proof. by split. Qed.
Lemma reachable_ok i l : rpc_ok (moves (NewRPCClient i) l).
Proof. apply moves_sim, new_ok. Qed.

(** ** The theorems *)

(** What a table promises: a call has a text only from a response with its id. *)
Definition answered_by (hs : list wireMessage) (id : Z) (t : string) : Prop :=
  exists m, m ∈ hs /\ wm_kind m = wireResponse /\ wm_idKey m = key_of id /\ wm_rpcErr m = None /\ wm_result m = t.
Definition status_ok (hs : list wireMessage) (id : Z) (s : status) : Prop :=
  match s with
  | Open => True
  | Settled r => (exists e, r = local_error e) \/ answer_ok hs id r
  | Closed (Returned t) => answered_by hs id t
  | Closed (CallFailed _ _) => True
  end.
Lemma answer_ok_mono hs hs' id r : hs `prefix_of` hs' -> answer_ok hs id r -> answer_ok hs' id r.
Proof. intros [k ->] (m & Hm & H). exists m. split; [apply elem_of_app; by left|done]. Qed.
Lemma status_ok_mono hs hs' id s : hs `prefix_of` hs' -> status_ok hs id s -> status_ok hs' id s.
Proof.
  intros Hp. destruct s as [|r|[t|]]; cbn; try done.
  - intros [H|H]; [by left|right; by eapply answer_ok_mono].
  - intros (m & Hm & H). destruct Hp as [k ->]. exists m. split; [apply elem_of_app; by left|done].
Qed.
Lemma call_step_ok hs terminal id s s' : call_step hs terminal id s s' -> status_ok hs id s -> status_ok hs id s'.
Proof.
  destruct 1; cbn; try done; [intros _; right; by eexists|intros _; left; by eexists|].
  unfold decodeCallResult. destruct (ch_err r) eqn:E1; [done|]. destruct (ch_rpcErr r) eqn:E2; [done|]. destruct (d (ch_result r)); [|done].
  intros [[e ->]|(m & Hm & K & A & ->)]; [done|]. exists m. done.
Qed.
Definition table_ok (t : table) : Prop := forall k s, tb_calls t !! k = Some s -> status_ok (tb_heard t) (Z.of_nat k + 1) s.
Lemma table_step_ok t t' : table_step t t' -> table_ok t -> table_ok t'.
Proof.
  intros [H T C N] O k s' Hs'. destruct (tb_calls t !! k) as [s|] eqn:Hs.
  - destruct (C _ _ Hs) as (s2 & Hs2 & St). assert (s2 = s') as -> by congruence. eapply call_step_ok; [done|]. by eapply status_ok_mono, O.
  - by destruct (N _ _ Hs Hs') as [-> _].
Qed.
Lemma reachable_table i l : table_ok (table_of (moves (NewRPCClient i) l)).
Proof.
  destruct (moves_sim l (NewRPCClient i) (new_ok i)) as [_ R]. revert R.
  assert (B : table_ok (table_of (NewRPCClient i))) by done. intros R. induction R as [t|t1 t2 t3 S _ IH]; [done|]. by apply IH, (table_step_ok t1).
Qed.

(** Turns until a call has ended once the client has. *)
Definition rank (p : point) : nat :=
  match p with
  | PMarshalled => 7 | PWrite _ (Written _ _) => 5 | PWrite _ _ => 6 | PRecorded _ _ _ => 4 | PFailed _ _ => 3
  | PRemoved _ _ _ | PLocal _ => 2 | PAwait _ | PWait _ _ => 1 | PDone _ => 0
  end%nat.
Definition finish_choice (p : point) : choice := match p with PWrite _ (Writing _) => Wrote 0 (Some RClosed) | _ => PickTerminal end.
Definition point_of (c : RPCClient) (k : nat) : option point := cl_at <$> callers c !! k.
Lemma point_goto c k p : is_Some (callers c !! k) -> point_of (change k (with_at p) c) k = Some p.
Proof. intros [x Hx]. unfold point_of. cbn. by rewrite list_lookup_alter_eq, Hx. Qed.
Lemma ended_facts c k x t : rpc_ok c -> terminalErr c = Some t ->
  is_pending k x c = false /\ (forall e, failAll e c = c).
Proof.
  intros O T. split.
  - unfold is_pending. rewrite (ro_terminal _ O) by congruence. by rewrite lookup_empty.
  - intros e. unfold failAll. by rewrite T.
Qed.
Lemma waiting_has_result c k x : rpc_ok c -> callers c !! k = Some x -> pending c !! cl_key x <> Some k -> ~ withdrawn (cl_at x) ->
  forall n d, exists o, point_of (receive_result k x n d c) k = Some (PDone o).
Proof.
  intros O Hx Np W n d. destruct (co_removed _ _ _ _ _ (ro_callers _ O _ _ Hx) Np W) as [r E]. unfold receive_result. rewrite E.
  eexists. unfold point_of. cbn. by rewrite list_lookup_alter_eq, Hx.
Qed.
Lemma write_step_ends k ctx line w c t : terminalErr c = Some t -> match w with Beginning _ | Written _ _ => False | _ => True end ->
  let '(c', w') := write_step (ByCall k) ctx line w (finish_choice (PWrite line w)) c in
  terminalErr c' = Some t /\ callers c' = callers c /\ exists n e, w' = Written n e.
Proof.
  intros T N. destruct w as [| |total begun| |total|]; try done; cbn; rewrite ?T; cbn.
  - split_and!; [done|done|by eexists _, _].
  - split_and!; [done|done|by eexists _, _].
  - destruct (_ <=? total); split_and!; try done; by eexists _, _.
  - destruct (_ <? 0); split_and!; try done; by eexists _, _.
Qed.
Lemma finishing_turn c k x t : rpc_ok c -> terminalErr c = Some t -> callers c !! k = Some x -> rank (cl_at x) <> 0%nat ->
  let c' := call_turn k (finish_choice (cl_at x)) c in
  terminalErr c' = Some t /\ exists p, point_of c' k = Some p /\ (rank p < rank (cl_at x))%nat.
Proof.
  intros O T Hx R. destruct (ended_facts c k x t O T) as [Np Fa]. unfold call_turn. rewrite Hx.
  assert (G : forall c1 p, terminalErr c1 = Some t -> callers c1 = callers c -> (rank p < rank (cl_at x))%nat ->
    terminalErr (change k (with_at p) c1) = Some t /\ exists p', point_of (change k (with_at p) c1) k = Some p' /\ (rank p' < rank (cl_at x))%nat).
  { intros c1 p T1 C1 Rp. split; [done|]. exists p. split; [|done]. apply point_goto. rewrite C1, Hx. by eexists. }
  assert (Gone : pending c !! cl_key x <> Some k) by (unfold is_pending in Np; by apply bool_decide_eq_false in Np).
  assert (Rcv : forall n d, ~ withdrawn (cl_at x) -> (1 <= rank (cl_at x))%nat -> terminalErr (receive_result k x n d c) = Some t /\
    exists p, point_of (receive_result k x n d c) k = Some p /\ (rank p < rank (cl_at x))%nat).
  { intros n d W Rp. destruct (waiting_has_result c k x O Hx Gone W n d) as [o E]. split; [|exists (PDone o); split; [done|cbn; lia]].
    unfold receive_result. by destruct (pd_response _). }
  destruct (cl_at x) as [|e|line w|n err st|n e|n e removed|n|n d|o] eqn:At; cbn beta zeta.
  - apply G; [done|done|]. destruct (cl_line x); cbn; lia.
  - unfold removePending. rewrite Np. apply G; [done|done|cbn; lia].
  - destruct w as [| |total begun|total|total|total err].
    4:{ unfold beginPendingWrite. rewrite Np. apply G; [done|done|cbn; lia]. }
    5:{ unfold recordWriteOutcome. rewrite Np. apply G; [done|done|cbn; lia]. }
    all: match goal with |- context [finish_choice (PWrite ?s ?w)] => pose proof (write_step_ends k (cl_ctx x) s w c t T I) as E end;
      destruct (write_step _ _ _ _ _ _) as [c1 w1]; destruct E as (T1 & C1 & n & e & ->); apply G; [done|done|cbn; lia].
  - apply G; [by destruct st; rewrite ?Fa|by destruct st; rewrite ?Fa|]. destruct err; cbn; lia.
  - unfold removePending. rewrite Np. apply G; [done|done|cbn; lia].
  - rewrite Fa. apply G; [by destruct (_ || _)|by destruct (_ || _)|]. destruct removed; cbn; lia.
  - apply Rcv; [by intros []|cbn; lia].
  - apply Rcv; [by intros []|cbn; lia].
  - done.
Qed.
Lemma finishing_turns c k x t n : rpc_ok c -> terminalErr c = Some t -> callers c !! k = Some x -> (rank (cl_at x) <= n)%nat ->
  exists chs o, (length chs <= n)%nat /\ point_of (moves c (MCallTurn k <$> chs)) k = Some (PDone o).
Proof.
  revert c x. induction n as [|n IH]; intros c x O T Hx R.
  - destruct (cl_at x) as [| | ? []| | | | | |o] eqn:At; cbn in R; try lia. exists [], o. split; [done|]. unfold point_of. cbn. by rewrite Hx, <- At.
  - destruct (decide (rank (cl_at x) = 0%nat)) as [E|E]; [destruct (IH c x O T Hx ltac:(lia)) as (chs & o & L & P); exists chs, o; split; [lia|done]|].
    destruct (finishing_turn c k x t O T Hx E) as (T1 & p & P & Rp). set (ch := finish_choice (cl_at x)) in *.
    assert (O1 : rpc_ok (call_turn k ch c)) by by apply sim_call_turn.
    unfold point_of in P. destruct (callers (call_turn k ch c) !! k) as [x1|] eqn:Hx1; [|done]. cbn in P. injection P as <-.
    destruct (IH _ _ O1 T1 Hx1 ltac:(lia)) as (chs & o & L & P). exists (ch :: chs), o. split; [cbn; lia|done].
Qed.

(** C26: The client refines a table of calls.  Between any two moments of any
    schedule of its goroutines, whatever the process sends and however contexts end and
    writes fail, the table of calls makes only legal steps: calls are added open while there is no terminal error, an
    open call is settled once, by a response with its id or an error, or withdrawn
    by its caller, and a settled call is closed with its result.  So a call returns
    a text only if a response with its own id carried it. *)
Theorem rpc_refines_table i l l' :
  let c := moves (NewRPCClient i) l in
  let c' := moves (NewRPCClient i) (l ++ l') in
  rtc table_step (table_of c) (table_of c')
  /\ forall k x t, callers c' !! k = Some x -> cl_at x = PDone (Returned t) -> answered_by (heard c') (Z.of_nat k + 1) t.
Proof.
  cbv zeta. split.
  - unfold moves. rewrite foldl_app. apply moves_sim, reachable_ok.
  - intros k x t Hx At. pose proof (reachable_table i (l ++ l') k (status_of x)) as H. cbn in H. rewrite list_lookup_fmap, Hx in H.
    specialize (H eq_refl). unfold status_of in H. by rewrite At in H.
Qed.

(** Calls end.  In every reachable state a caller that can only wait for its
    result has exactly one, so it never blocks; and after the terminal error any call ends within seven of
    its own turns. *)
Theorem rpc_calls_end i l k x :
  let c := moves (NewRPCClient i) l in
  callers c !! k = Some x ->
  (forall n d, cl_at x = PWait n d -> (exists r, pd_response (cl_pending x) = [r])
     /\ forall ch, exists o, point_of (call_turn k ch c) k = Some (PDone o))
  /\ (terminalErr c <> None ->
      exists chs o, (length chs <= 7)%nat /\ point_of (moves c (MCallTurn k <$> chs)) k = Some (PDone o)).
Proof.
  cbv zeta. set (c := moves _ l). intros Hx. assert (O : rpc_ok c) by apply reachable_ok. split.
  - intros n d At. assert (W : ~ withdrawn (cl_at x)) by (rewrite At; by intros []).
    assert (Np : pending c !! cl_key x <> Some k).
    { intros Hp. destruct (co_pending _ _ _ _ _ (ro_callers _ O _ _ Hx) Hp) as [_ D]. by rewrite At in D; apply D. }
    split; [by apply (co_removed _ _ _ _ _ (ro_callers _ O _ _ Hx))|]. intros ch. unfold call_turn. rewrite Hx, At.
    by apply waiting_has_result.
  - intros T. destruct (terminalErr c) as [t|] eqn:Et; [|done]. apply (finishing_turns c k x t 7 O Et Hx).
    destruct (cl_at x) as [| | ? []| | | | | |]; cbn; lia.
Qed.

(** A call whose context ends after its response arrived. *)
Definition demo_input : input := {| in_bytes := bq "{`id`:1,`result`:{`ok`:true}}" +:+ nl; in_end := REOF |}.
Definition demo_turns (l : list choice) : list move := MCallTurn 0 <$> l.
Definition demo_moves : list move :=
  MCall "ping" NoParams (fun _ => true) None :: demo_turns [Go; Go; Go; Go; Go; Wrote 10 None; Go; Wrote 15 None; Go; Go; Go]
  ++ [MRun None; MRead None; MCancelCall 0 RCanceled; MCallTurn 0 PickContext].
Example demo_written : sent_bytes (moves (NewRPCClient demo_input) demo_moves) = bq "{`id`:1,`method`:`ping`}" +:+ nl.
Proof. vm_compute. reflexivity. Qed.
(** A response that arrives while the request is being written is kept until the
    write is done; one that arrives before is refused and ends the client. *)
Example early_response :
  (let c := moves (NewRPCClient demo_input) (MCall "ping" NoParams (fun _ => true) None :: demo_turns [Go; Go; Go; Go; Go; Wrote 10 None]
              ++ [MRun None; MRead None] ++ demo_turns [Go; Wrote 15 None; Go; Go; Go; Go]) in
   point_of c 0 = Some (PDone (Returned (bq "{`ok`:true}"))))
  /\ terminalErr (moves (NewRPCClient demo_input) [MCall "ping" NoParams (fun _ => true) None; MRun None; MRead None; MRunTurn Go])
     = Some RUnknownResponse.
Proof. split; vm_compute; reflexivity. Qed.
Lemma rpc_calls_end_witness :
  let c := moves (NewRPCClient demo_input) demo_moves in
  exists x, callers c !! 0%nat = Some x /\ cl_at x = PWait 25 true /\ exists r, pd_response (cl_pending x) = [r].
Proof.
  assert (B : match callers (moves (NewRPCClient demo_input) demo_moves) !! 0%nat with Some x => Some (cl_at x) | None => None end = Some (PWait 25 true))
    by (vm_compute; reflexivity).
  cbv zeta. destruct (callers (moves (NewRPCClient demo_input) demo_moves) !! 0%nat) as [x|] eqn:E; [|done]. injection B as B.
  exists x. split; [done|]. split; [exact B|]. destruct (rpc_calls_end demo_input demo_moves 0 x E) as [H _]. exact (proj1 (H 25 true B)).
Defined.

(** ** What a failed call has sent

    The count of bytes a failed call reports is zero only if none of its request
    was written. *)

(** The bytes a call wrote. *)
Definition by_call (k : nat) (h : holder) : bool := match h with ByCall j => Nat.eqb j k | _ => false end.
Definition chunk_len (k : nat) (x : holder * string) : Z := if by_call k x.1 then len x.2 else 0.
Definition sent (k : nat) (c : RPCClient) : Z := foldr Z.add 0 (chunk_len k <$> written c).
Arguments sent : simpl never.
Definition points (c : RPCClient) : list point := cl_at <$> callers c.

Definition sent_ok (s : Z) (p : point) : Prop :=
  match p with
  | PMarshalled | PLocal _ | PWrite _ WaitGate | PWrite _ HasGate => s = 0
  | PWrite _ (Looking n _) | PWrite _ (Beginning n) | PWrite _ (Writing n) => s = n
  | PWrite _ (Written n _) | PRecorded n _ _ | PFailed n _ | PRemoved n _ _ | PAwait n | PWait n _ | PDone (CallFailed n _) => n = 0 -> s = 0
  | PDone (Returned _) => True
  end.
Record bytes_ok (c : RPCClient) : Prop := mk_bytes_ok
  { bo_sent : forall k p, points c !! k = Some p -> sent_ok (sent k c) p;
    bo_future : forall k, (length (callers c) <= k)%nat -> sent k c = 0 }.

Lemma chunk_len_nonneg k x : 0 <= chunk_len k x.
Proof. unfold chunk_len, len. destruct (by_call k x.1); lia. Qed.
Lemma sent_nonneg k c : 0 <= sent k c.
Proof. unfold sent. induction (written c) as [|x l IH]; cbn; [lia|]. pose proof (chunk_len_nonneg k x). lia. Qed.
Lemma sent_put k who t c : sent k (put_bytes who t c) = sent k c + (if by_call k who then len t else 0).
Proof.
  unfold sent. cbn. rewrite fmap_app. cbn. induction (chunk_len k <$> written c) as [|x l IH]; cbn; [unfold chunk_len; cbn; lia|]. lia.
Qed.

(** Neither a point nor a write. *)
Definition calm (c c' : RPCClient) : Prop := points c' = points c /\ written c' = written c.
#[export] Instance calm_preorder : PreOrder calm.
Proof. split; [by intros c|]. intros c1 c2 c3 [P1 W1] [P2 W2]. split; congruence. Qed.
Lemma calm_sent k c c' : calm c c' -> sent k c' = sent k c.
Proof. intros [_ W]. unfold sent. by rewrite W. Qed.
Lemma calm_length c c' : calm c c' -> length (callers c') = length (callers c).
Proof. intros [P _]. apply (f_equal length) in P. unfold points in P. by rewrite !length_fmap in P. Qed.
Lemma calm_ok c c' : calm c c' -> bytes_ok c -> bytes_ok c'.
Proof.
  intros Q [S F]. split.
  - intros k p. rewrite (calm_sent k _ _ Q). destruct Q as [-> _]. apply S.
  - intros k. rewrite (calm_sent k _ _ Q), (calm_length _ _ Q). apply F.
Qed.
Lemma calm_change k f c : (forall x, cl_at (f x) = cl_at x) -> calm c (change k f c).
Proof.
  intros H. split; [|done]. unfold points. cbn. apply list_eq. intros i. rewrite !list_lookup_fmap.
  destruct (decide (i = k)) as [->|N]; [rewrite list_lookup_alter_eq|by rewrite list_lookup_alter_ne].
  destruct (callers c !! k); cbn; [by rewrite H|done].
Qed.
Lemma calm_settle k x r c : calm c (settle k x r c).
Proof. unfold settle. by etrans; [|by apply calm_change]. Qed.
Lemma calm_failAll e c : calm c (failAll e c).
Proof.
  unfold failAll. destruct (terminalErr c); [done|]. split; [|done]. unfold points. cbn. apply list_eq. intros i.
  rewrite !list_lookup_fmap, list_lookup_imap. destruct (callers c !! i) as [x|]; cbn; [|done]. unfold give_pending. by case_bool_decide.
Qed.
Lemma calm_remove k x c : calm c (removePending k x c).1.
Proof. unfold removePending. by destruct (is_pending k x c). Qed.
Lemma calm_begin k x c : calm c (beginPendingWrite k x c).1.
Proof. unfold beginPendingWrite. repeat case_match; try done. by apply calm_change. Qed.
Lemma calm_record k x n c : calm c (recordWriteOutcome k x n c).1.
Proof.
  unfold recordWriteOutcome. repeat case_match; cbn [fst]; try done; try (by apply calm_change);
    (etrans; [|apply calm_settle]); by apply calm_change.
Qed.
Lemma calm_deliver m c : calm c (deliverResponse m c).1.
Proof.
  unfold deliverResponse. repeat case_match; cbn [fst]; try done; try apply calm_settle; try (by apply calm_change).
  etrans; [|apply calm_settle]. by apply calm_change.
Qed.

(** ** Moves *)

Lemma goto_ok c c1 k x p : bytes_ok c -> callers c !! k = Some x -> calm c c1 -> (sent_ok (sent k c) (cl_at x) -> sent_ok (sent k c) p) ->
  bytes_ok (change k (with_at p) c1).
Proof.
  intros O Hx Q H. pose proof (calm_ok _ _ Q O) as [S F]. split.
  - intros j q. assert (E : sent j (change k (with_at p) c1) = sent j c1) by done. rewrite E. clear E.
    unfold points. cbn. rewrite list_lookup_fmap. destruct (decide (j = k)) as [->|N].
    + rewrite list_lookup_alter_eq. destruct (callers c1 !! k); [|done]. cbn. intros [= <-].
      rewrite (calm_sent k _ _ Q). apply H, (bo_sent _ O). unfold points. by rewrite list_lookup_fmap, Hx.
    + rewrite list_lookup_alter_ne by done. intros E. apply S. unfold points. by rewrite list_lookup_fmap.
  - intros j. cbn. rewrite length_alter. apply F.
Qed.
Lemma write_step_other who ctx line w ch c : callers (write_step who ctx line w ch c).1 = callers c /\
  forall k, by_call k who = false -> sent k (write_step who ctx line w ch c).1 = sent k c.
Proof.
  split; [apply write_step_table|]. intros k H. unfold write_step.
  repeat case_match; cbn [fst]; try done; change (sent k (put_bytes who (take_bytes (Z.to_nat n) (drop_bytes (Z.to_nat total) (line +:+ nl))) c) = sent k c);
    rewrite sent_put, H; lia.
Qed.
Lemma write_step_sent k ctx line w ch c : sent_ok (sent k c) (PWrite line w) ->
  sent_ok (sent k (write_step (ByCall k) ctx line w ch c).1) (PWrite line (write_step (ByCall k) ctx line w ch c).2).
Proof.
  intros S. assert (G : sent k (set_gate None c) = sent k c) by done. pose proof (sent_nonneg k c) as P. assert (B : by_call k (ByCall k) = true) by (cbn; apply Nat.eqb_refl).
  unfold write_step. destruct w as [| |total begun|total|total|total err]; cbn in S.
  - repeat case_match; cbn; try done; by intros.
  - repeat case_match; cbn; done.
  - repeat case_match; cbn; try done; rewrite ?G; intros; lia.
  - done.
  - destruct ch as [| | |n err]; try done. destruct (Z.ltb_spec n 0); [cbn; rewrite G; intros; lia|].
    set (rest := drop_bytes _ _). set (t := take_bytes _ rest).
    assert (E : sent k (put_bytes (ByCall k) t c) = sent k c + len t) by (rewrite sent_put, B; lia).
    destruct (Z.ltb_spec (len rest) n) as [L|L].
    + cbn. intros Z0. exfalso. unfold len in Z0. rewrite sapp_length in Z0. simpl in Z0. lia.
    + assert (T : len t = n).
      { unfold t, len in *. pose proof (take_drop_bytes (Z.to_nat n) rest) as D. apply (f_equal String.length) in D.
        rewrite sapp_length, drop_bytes_length in D. lia. }
      destruct err as [e|]; [|destruct (Z.eqb_spec n 0)]; cbn; change (sent k (set_gate None ?c)) with (sent k c).
      * intros. change (sent k (put_bytes (ByCall k) t c) = 0). lia.
      * intros. change (sent k (put_bytes (ByCall k) t c) = 0). lia.
      * change (sent k (put_bytes (ByCall k) t c) = total + n). lia.
  - done.
Qed.

Lemma receive_ok c k x n d : bytes_ok c -> callers c !! k = Some x -> (n = 0 -> sent k c = 0) -> bytes_ok (receive_result k x n d c).
Proof.
  intros O Hx H. unfold receive_result. destruct (pd_response (cl_pending x)) as [|r rest]; [done|].
  set (o := decodeCallResult n r (if d then cl_decodes x else fun _ => true)).
  assert (E : bytes_ok (change k (with_at (PDone o)) c)).
  { apply (goto_ok c c k x); [done|done|done|]. intros _. unfold o, decodeCallResult. by repeat case_match. }
  eapply calm_ok; [|exact E]. split; [|done]. unfold points. cbn. apply list_eq. intros j. rewrite !list_lookup_fmap.
  destruct (decide (j = k)) as [->|N]; [by rewrite !list_lookup_alter_eq, Hx|by rewrite !list_lookup_alter_ne].
Qed.
Lemma write_turn_ok c k x line w ch : bytes_ok c -> callers c !! k = Some x -> cl_at x = PWrite line w ->
  bytes_ok (let '(c, w) := write_step (ByCall k) (cl_ctx x) line w ch c in change k (with_at (PWrite line w)) c).
Proof.
  intros O Hx At. assert (Sx : sent_ok (sent k c) (cl_at x)) by (apply (bo_sent _ O); unfold points; by rewrite list_lookup_fmap, Hx).
  rewrite At in Sx. pose proof (write_step_other (ByCall k) (cl_ctx x) line w ch c) as [C Oth].
  pose proof (write_step_sent k (cl_ctx x) line w ch c Sx) as S1. destruct (write_step (ByCall k) (cl_ctx x) line w ch c) as [c1 w1].
  cbn [fst snd] in *. split.
  - intros j q. assert (E : sent j (change k (with_at (PWrite line w1)) c1) = sent j c1) by done. rewrite E. clear E.
    unfold points. cbn. rewrite list_lookup_fmap, C. destruct (decide (j = k)) as [->|N].
    + rewrite list_lookup_alter_eq, Hx. cbn. by intros [= <-].
    + rewrite list_lookup_alter_ne, Oth by (done || (cbn; by apply Nat.eqb_neq)). intros E. apply (bo_sent _ O). unfold points. by rewrite list_lookup_fmap.
  - intros j. assert (E : sent j (change k (with_at (PWrite line w1)) c1) = sent j c1) by done. rewrite E. cbn. rewrite C, length_alter. intros Hj.
    rewrite Oth; [by apply (bo_future _ O)|]. cbn. apply Nat.eqb_neq. apply lookup_lt_Some in Hx. lia.
Qed.
Lemma call_turn_ok k ch c : bytes_ok c -> bytes_ok (call_turn k ch c).
Proof.
  intros O. unfold call_turn. destruct (callers c !! k) as [x|] eqn:Hx; [|done].
  assert (Sx : sent_ok (sent k c) (cl_at x)) by (apply (bo_sent _ O); unfold points; by rewrite list_lookup_fmap, Hx).
  destruct (cl_at x) as [|e|line w|n err st|n e|n e removed|n|n d|o] eqn:At; cbn beta zeta.
  - apply (goto_ok c c k x); [done|done|done|]. intros _. cbn in Sx. destruct (cl_line x); by cbn.
  - pose proof (calm_remove k x c) as Q. destruct (removePending k x c) as [c1 rm]. apply (goto_ok c c1 k x); [done|done|done|].
    intros _. cbn in Sx. destruct rm; by cbn.
  - destruct w as [| |total begun|total|total|total err].
    4:{ pose proof (calm_begin k x c) as Q. destruct (beginPendingWrite k x c) as [c1 [e|]]; cbn in Q.
        - apply (goto_ok c (set_gate None c1) k x); [done|done|exact Q|]. intros _ H. cbn in Sx. by rewrite Sx.
        - by apply (goto_ok c c1 k x). }
    5:{ pose proof (calm_record k x total c) as Q. destruct (recordWriteOutcome k x total c) as [c1 r]. by apply (goto_ok c c1 k x). }
    all: by apply (write_turn_ok _ _ _ _ _ _ O Hx).
  - apply (goto_ok c _ k x); [done|done|destruct st; [apply calm_failAll|done]|]. intros _. cbn in Sx. destruct err; by cbn.
  - pose proof (calm_remove k x c) as Q. destruct (removePending k x c) as [c1 rm]. by apply (goto_ok c c1 k x).
  - apply (goto_ok c _ k x); [done|done|destruct (_ || _); [apply calm_failAll|done]|]. intros _. cbn in Sx. destruct removed; by cbn.
  - destruct ch; try (by apply receive_ok). destruct (cl_ctx x) as [e|]; [|done].
    pose proof (calm_remove k x c) as Q. destruct (removePending k x c) as [c1 rm]. apply (goto_ok c c1 k x); [done|done|done|].
    intros _. cbn in Sx. destruct rm; by cbn.
  - by apply receive_ok.
  - done.
Qed.
(** The writes of the other goroutines. *)
Lemma other_write c c1 : bytes_ok c -> callers c1 = callers c -> (forall k, sent k c1 = sent k c) -> bytes_ok c1.
Proof.
  intros [S F] C Hs. split; intros k; rewrite Hs; unfold points; rewrite C; [apply S|apply F].
Qed.
Lemma register_ok line decodes ctx c : bytes_ok c -> bytes_ok (registerPending line decodes ctx c).1.
Proof.
  intros [S F]. unfold registerPending. destruct (terminalErr c); [done|]. destruct (_ =? _); [done|]. cbn [fst].
  set (c1 := mkRpc _ _ _ _ _ _ _ _ _ _ _ _ _ _ _). assert (E : forall k, sent k c1 = sent k c) by done. split.
  - intros k p. rewrite E. unfold points, c1. cbn [callers]. rewrite fmap_app.
    intros [H|[L H]]%lookup_app_Some; [by apply S|]. rewrite length_fmap in L. destruct (k - _)%nat; [|done]. cbn in H. injection H as <-.
    cbn. by apply F.
  - intros k. rewrite E. unfold c1. cbn [callers]. rewrite length_app. intros Hk. apply F. cbn in Hk. lia.
Qed.
Lemma notify_turn_ok j ch c : bytes_ok c -> bytes_ok (notify_turn j ch c).
Proof.
  intros O. unfold notify_turn. destruct (notifiers c !! j) as [x|]; [|done]. cbn beta zeta.
  assert (Step : forall w, bytes_ok (let '(c, w) := write_step (ByNotify j) (nt_ctx x) (nt_line x) w ch c in
    set_notifiers (<[j := mkNotifier (nt_line x) (nt_ctx x) (NWrite w)]> (notifiers c)) c)).
  { intros w. pose proof (write_step_other (ByNotify j) (nt_ctx x) (nt_line x) w ch c) as [C H]. destruct (write_step _ _ _ _ _ _) as [c1 w1].
    apply (other_write c); [done|exact C|]. intros k. by apply (H k). }
  assert (Q : forall c1 p, calm c c1 -> bytes_ok (set_notifiers (<[j := mkNotifier (nt_line x) (nt_ctx x) p]> (notifiers c1)) c1)).
  { intros c1 p H. by apply (calm_ok c). }
  destruct (nt_at x) as [[]|n e|]; try (by apply Step); try done.
  - destruct err; by apply Q.
  - apply (Q _ (NDone (Some (n, e)))). destruct (_ || _); [apply calm_failAll|done].
Qed.
Lemma handler_turn_ok j ch c : bytes_ok c -> bytes_ok (handler_turn j ch c).
Proof.
  intros O. unfold handler_turn. destruct (handlers c !! j) as [x|]; [|done]. cbn beta zeta.
  assert (Q : forall c1 p, calm c c1 -> bytes_ok (set_handlers (<[j := mkHandler (hd_work x) p]> (handlers c1)) c1)).
  { intros c1 p H. by apply (calm_ok c). }
  assert (Step : forall line w, bytes_ok (if MaxJSONLLineBytes <? len line
      then set_handlers (<[j := mkHandler (hd_work x) (HFail RMessageTooLarge)]> (handlers c)) c
      else let '(c, w) := write_step (ByHandler j) (run_ctx c) line w ch c in set_handlers (<[j := mkHandler (hd_work x) (HWrite line w)]> (handlers c)) c)).
  { intros line w. destruct (_ <? _); [by apply Q|].
    pose proof (write_step_other (ByHandler j) (run_ctx c) line w ch c) as [C H]. destruct (write_step _ _ _ _ _ _) as [c1 w1].
    apply (other_write c); [done|exact C|]. intros k. by apply (H k). }
  destruct (hd_at x) as [| |line []|e| |]; try (by apply Step); try done; try (by apply Q).
  - destruct (has _); [by apply Q|]. destruct (RejectServerRequest _) as [r e]. by apply Q.
  - destruct err; by apply Q.
  - apply Q, calm_failAll.
Qed.
Lemma move_ok c m : bytes_ok c -> bytes_ok (move_step c m).
Proof.
  intros O. assert (Q : forall c1, calm c c1 -> bytes_ok c1) by (intros c1 H; by apply (calm_ok c)).
  destruct m; cbn [move_step].
  - unfold Call. repeat case_match; try done. by apply register_ok.
  - apply Q. unfold Notify. by repeat case_match.
  - apply Q. unfold Run. by repeat case_match.
  - by apply call_turn_ok.
  - by apply notify_turn_ok.
  - by apply handler_turn_ok.
  - apply Q. unfold read_turn. destruct (run c); try done. destruct fails; [done|]. destruct (readJSONLLine (stream c)) as [i line]. cbv zeta.
    destruct (let? l := line in decodeWireMessage l) as [m|e]; [|done]. unfold on_message. destruct (wm_kind m).
    + pose proof (calm_deliver m (hear m (set_stream i c))) as D. by destruct (deliverResponse _ _) as [c1 [e|]].
    + done.
    + unfold admitServerRequest. by repeat case_match; simplify_eq.
  - apply Q. unfold run_turn. destruct (run c) as [| |n work|work|e|e|e]; try done.
    + by repeat case_match.
    + unfold startServerRequest. cbv zeta. by repeat case_match; simplify_eq.
    + apply calm_failAll.
    + by destruct (forallb _ _).
  - apply Q. by apply calm_change.
  - by apply Q.
  - apply Q. by destruct (run c).
  - apply Q. destruct (run c), (run_ctx c); try done; apply calm_failAll.
  - by apply Q.
Qed.
Lemma moves_ok i l : bytes_ok (moves (NewRPCClient i) l).
Proof.
  assert (B : bytes_ok (NewRPCClient i)) by by split. revert B. generalize (NewRPCClient i). induction l as [|m l IH]; intros c B; [done|].
  cbn. by apply IH, move_ok.
Qed.
(** A failed call that reports no byte wrote none. *)
Lemma failed_call_sent i l k x n e : callers (moves (NewRPCClient i) l) !! k = Some x -> cl_at x = PDone (CallFailed n e) -> n = 0 ->
  sent k (moves (NewRPCClient i) l) = 0.
Proof.
  intros Hx At. pose proof (bo_sent _ (moves_ok i l) k (cl_at x)) as S. rewrite At in S. apply S. unfold points. by rewrite list_lookup_fmap, Hx, <- At.
Qed.
