(* ===== verification/Adapter.v ===== *)
(** * The room's agent over the App Server ([internal/codex/adapter.go], [requests.go], [protocol.go], [compat.go], [missing_thread.go])

    Each method of the adapter is a request, a call of the RPC client and a strict
    reading of the answer; [call] and [notify] are what the client returns. *)
From S2P Require Import Prelude GoStrings Json StrictJson GoDecode RoomTypes Jsonrpc RpcClient.

(** ** Versions *)

Definition SupportedCodexVersion : string := "0.153.4".
Definition SupportedCLIOutput : string := "codex-cli " +:+ SupportedCodexVersion.
Definition SupportedSchemaSHA256 : string := "e8284c5cb8157554a3dd1e035aadbd4325aea501af56887e9c2e12eb1b9b9448".
Definition ErrUnsupportedCodexVersion : error := ErrText "unsupported Codex CLI version".
Definition ErrIncompatibleUserAgent : error := ErrText "incompatible Codex App Server user agent".
Definition AcceptedCodexVersion (cliOutput : string) : result error string :=
  if String.eqb (TrimSpace cliOutput) SupportedCLIOutput then Ok SupportedCodexVersion else Err ErrUnsupportedCodexVersion.
Definition ValidateUserAgent (cliOutput userAgent : string) : result error unit :=
  let? version := AcceptedCodexVersion cliOutput in
  check (String.eqb (first_field userAgent) ("agent_romm/" +:+ version)) ErrIncompatibleUserAgent.

(** ** Errors *)

Definition ErrProjectRootNotAbsolute : error := ErrText "Codex project root must be absolute".
Definition ErrUnauthenticated : error := ErrText "Codex App Server requires OpenAI authentication".
Definition ErrRuntimePolicyMismatch : error := ErrText "Codex App Server runtime policy mismatch".
Definition ErrThreadBindingMismatch : error := ErrText "Codex thread project binding mismatch".
Definition ErrInvalidResponse : error := ErrText "invalid Codex App Server response".
Definition ErrInvalidAgentRequest : error := ErrText "invalid Codex agent request".
Definition ErrRPCRequestFailed : error := ErrText "Codex App Server rejected the request".
Definition ErrRPCTransport : error := ErrText "Codex App Server transport failure".
Definition ErrTurnFailed : error := ErrText "Codex turn failed".
Definition ErrThreadNotFound : error := ErrText "Codex thread has no saved rollout".
Definition ErrRPCMessageTooLarge : error := ErrText "Codex App Server outbound JSONL line exceeds 8 MiB".
Definition ErrEOF : error := ErrText "EOF".

(** A failed call: [CallError]. *)
Definition failure : Type := Z * rerr.
Definition stableAdapterError (f : failure) : error :=
  match f.2 with
  | RRemote _ => ErrRPCRequestFailed
  | RCanceled => Sentinel ErrContextCanceled
  | RDeadline => Sentinel ErrDeadlineExceeded
  | REOF => ErrEOF
  | RResultDecode => ErrInvalidResponse
  | RMessageTooLarge => ErrRPCMessageTooLarge
  | RInvalidMessage | RInvalidID | RLineTooLong | REmptyLine | RTruncatedLine | RUnknownResponse | RDuplicateRequest => ErrInvalidResponse
  | _ => ErrRPCTransport
  end.
Definition certainNotSentError (e : rerr) : bool :=
  match e with
  | RRemote _ | REOF | RResultDecode | RInvalidMessage | RInvalidID | RLineTooLong | REmptyLine | RTruncatedLine | RUnknownResponse
  | RDuplicateRequest => false
  | _ => true
  end.
Definition notSentMutation (operation : string) (e : error) : error := ErrMutation operation DeliveryNotSent e.
Definition unknownMutation (operation : string) (e : error) : error := ErrMutation operation DeliveryUnknown e.
Definition mutationError (operation : string) (f : failure) : error :=
  ErrMutation operation (if (f.1 =? 0) && certainNotSentError f.2 then DeliveryNotSent else DeliveryUnknown) (stableAdapterError f).
Definition readThreadError (f : failure) (id : ThreadID) : error :=
  match f.2 with
  | RRemote e => if (re_Code e =? -32600) && String.eqb (re_Message e) ("thread not loaded: " +:+ id) then ErrThreadNotFound else stableAdapterError f
  | _ => stableAdapterError f
  end.

(** ** Requests *)

Definition approvalPolicy : string := "never".
Definition threadSandbox : string := "danger-full-access".
Definition turnSandboxType : string := "dangerFullAccess".
Definition text_input (text : string) : json := JArr [JObj [("type", JStr "text"); ("text", JStr text)]].
Definition startThreadRequest (root : string) : json :=
  JObj [("cwd", JStr root); ("approvalPolicy", JStr approvalPolicy); ("sandbox", JStr threadSandbox)].
Definition readThreadRequest (thread : string) : json := JObj [("threadId", JStr thread); ("includeTurns", JBool true)].
Definition resumeThreadRequest (thread root : string) : json :=
  JObj [("threadId", JStr thread); ("cwd", JStr root); ("approvalPolicy", JStr approvalPolicy); ("sandbox", JStr threadSandbox)].
Definition startTurnRequest (thread cid root text : string) : json :=
  JObj [("threadId", JStr thread); ("input", text_input text); ("clientUserMessageId", JStr cid); ("cwd", JStr root);
        ("approvalPolicy", JStr approvalPolicy); ("sandboxPolicy", JObj [("type", JStr turnSandboxType)])].
Definition steerTurnRequest (thread turn text : string) : json :=
  JObj [("threadId", JStr thread); ("input", text_input text); ("expectedTurnId", JStr turn)].
Definition interruptTurnRequest (thread turn : string) : json := JObj [("threadId", JStr thread); ("turnId", JStr turn)].

(** [defaultJSONEscapedStringLength]: the length of the quoted text, or one more
    than a line may have. *)
Definition encoded_length (c : ascii) : Z :=
  let z := code c in
  if existsb (Z.eqb z) [92; 34; 8; 12; 10; 13; 9] then 2
  else if existsb (Z.eqb z) [60; 62; 38] then 6
  else if z <? 0x20 then 6 else 1.
Fixpoint escaped_length (fuel : nat) (length : Z) (s : string) : Z :=
  match fuel, s with
  | S f, String c r =>
      let '(encoded, rest) :=
        if code c <? 0x80 then (encoded_length c, r)
        else match utf8_width s with
             | None => (6, r)
             | Some n => (if has (is_2028 (take_bytes n s)) then 6 else Z.of_nat n, drop_bytes n s)
             end in
      if MaxJSONLLineBytes - encoded <? length then MaxJSONLLineBytes + 1 else escaped_length f (length + encoded) rest
  | _, _ => length
  end.
Definition defaultJSONEscapedStringLength (s : string) : Z := escaped_length (String.length s) 2 s.
Fixpoint add_lengths (total : Z) (l : list string) : result error unit :=
  match l with
  | [] => Ok tt
  | s :: r =>
      let escaped := defaultJSONEscapedStringLength s in
      if (MaxJSONLLineBytes <? escaped) || (MaxJSONLLineBytes - (escaped - 2) <? total) then Err ErrRPCMessageTooLarge
      else add_lengths (total + (escaped - 2)) r
  end.
Definition preflightCall (method : string) (empty_params : json) (dynamic : list string) : result error unit :=
  add_lengths (len (marshal (JObj [("id", JInt 1); ("method", JStr method); ("params", empty_params)]))) dynamic.

(** ** Identifiers, turns and threads *)

Definition maxSnapshotTurns : Z := 4096.
Definition maxItemsPerTurn : Z := 16384.
Definition maxSnapshotItems : Z := 65536.
Definition maxProtocolIDBytes : Z := 4096.
Definition validProtocolID (v : string) : bool :=
  negb ((len v =? 0) || (maxProtocolIDBytes <? len v) || negb (utf8_valid v) || blank v)
  && negb (existsb (fun r => IsControl r || IsFormat r) (runes v)).
Definition validProtocolIDs (l : list string) : bool := forallb validProtocolID l.
Definition last_byte (s : string) : option ascii := last (bytes s).
Definition isJSONObject (raw : string) : bool :=
  let t := TrimSpace raw in
  (2 <=? len t) && match t, last_byte t with String c _, Some d => (code c =? 123) && (code d =? 125) | _, _ => false end.
Definition mapTurnState (status : string) : option RequestState :=
  if String.eqb status "completed" then Some RequestCompleted else if String.eqb status "interrupted" then Some RequestInterrupted
  else if String.eqb status "failed" then Some RequestFailed else if String.eqb status "inProgress" then Some RequestRunning else None.

(** The elements of an array, at most [limit]; every error of the visit is the same. *)
Definition streamJSONArray (raw : string) (limit : Z) : option (list string) :=
  l ← elements_of raw; if limit <? Z.of_nat (length l) then None else Some l.
Record protocolThread := { pt_ID : string; pt_CWD : option string; pt_Turns : string }.
Record protocolTurn := { pu_ID : string; pu_Status : string; pu_Items : string }.
Definition decodeProtocolThread (raw : string) : option protocolThread :=
  if isJSONObject raw then
    l ← members_of raw; i ← string_of "id" l; c ← pointer_of dec_string "cwd" l; t ← raw_of "turns" l;
    if validProtocolID i then Some {| pt_ID := i; pt_CWD := c; pt_Turns := t |} else None
  else None.
Definition decodeProtocolTurnObject (raw : string) : option protocolTurn :=
  if isJSONObject raw then
    l ← members_of raw; i ← string_of "id" l; s ← string_of "status" l; t ← raw_of "items" l;
    if validProtocolID i then Some {| pu_ID := i; pu_Status := s; pu_Items := t |} else None
  else None.
Definition decodeProtocolTurn (raw : string) : option protocolTurn :=
  turn ← decodeProtocolTurnObject raw; _ ← streamJSONArray (pu_Items turn) maxItemsPerTurn; Some turn.
Definition itemID (raw : string) : option string :=
  if isJSONObject raw then
    l ← members_of raw; i ← string_of "id" l; t ← string_of "type" l;
    if validProtocolID i && negb (String.eqb t "") then Some i else None
  else None.

(** Whether an item of a stored thread is finished. *)
Definition statusless_types : list string :=
  ["userMessage"; "hookPrompt"; "agentMessage"; "functionCallOutput"; "plan"; "reasoning"; "subAgentActivity"; "webSearch"; "imageView";
   "sleep"; "enteredReviewMode"; "exitedReviewMode"; "contextCompaction"].
Definition one_of (s : string) (l : list string) : bool := existsb (String.eqb s) l.
Definition snapshotItemCompleted (raw : string) (state : RequestState) : bool :=
  match (l ← members_of raw; t ← string_of "type" l; s ← string_of "status" l; Some (t, s)) with
  | None => false
  | Some (t, s) =>
      if one_of t ["commandExecution"; "fileChange"] then one_of s ["completed"; "failed"; "declined"]
      else if one_of t ["mcpToolCall"; "dynamicToolCall"] then one_of s ["completed"; "failed"]
      else if String.eqb t "collabAgentToolCall" then one_of s ["completed"; "failed"; "interrupted"]
      else if String.eqb t "imageGeneration" then bool_decide (state = RequestCompleted) && one_of s ["completed"; "failed"]
      else if one_of t statusless_types then String.eqb s "" && bool_decide (state = RequestCompleted)
      else false
  end.
(** The completed items of a turn and how many items it has. *)
Definition turn_items (thread turn : string) (state : RequestState) (raws : list string) : option (list CompletedItem) :=
  foldr (fun raw acc => i ← itemID raw; l ← acc;
    Some (if snapshotItemCompleted raw state then {| it_ThreadID := thread; it_TurnID := turn; it_ItemID := i; it_Payload := raw |} :: l else l))
    (Some []) raws.
Definition turn_snapshot (thread : string) (total : Z) (raw : string) : option (Z * TurnSnapshot) :=
  turn ← decodeProtocolTurnObject raw; state ← mapTurnState (pu_Status turn);
  raws ← streamJSONArray (pu_Items turn) (Z.min maxItemsPerTurn (maxSnapshotItems - total));
  items ← turn_items thread (pu_ID turn) state raws;
  Some (total + Z.of_nat (length raws), {| ts_ID := pu_ID turn; ts_State := state; ts_Items := items |}).
Fixpoint turn_snapshots (thread : string) (total : Z) (l : list string) : option (list TurnSnapshot) :=
  match l with
  | [] => Some []
  | raw :: r => x ← turn_snapshot thread total raw; turns ← turn_snapshots thread x.1 r; Some (x.2 :: turns)
  end.
Definition snapshot (root raw expected : string) : result error ThreadSnapshot :=
  match decodeProtocolThread raw with
  | Some {| pt_ID := id; pt_CWD := Some cwd; pt_Turns := turns |} =>
      if negb (String.eqb cwd root) || (negb (String.eqb expected "") && negb (String.eqb id expected)) then Err ErrThreadBindingMismatch else
      match (l ← streamJSONArray turns maxSnapshotTurns; turn_snapshots id 0 l) with
      | Some l => Ok {| th_ID := id; th_CWD := cwd; th_Turns := l |}
      | None => Err ErrInvalidResponse
      end
  | _ => Err ErrInvalidResponse
  end.

(** ** Accounts *)

Definition plan_types : list string :=
  ["free"; "go"; "plus"; "pro"; "prolite"; "team"; "self_serve_business_prolite"; "self_serve_business_usage_based"; "business"; "ent26";
   "enterprise_cbp_automation"; "enterprise_cbp_usage_based"; "enterprise"; "edu"; "edu_plus"; "edu_pro"; "unknown"].
Definition validPlanType (plan : string) : bool := one_of plan plan_types.
(** A [map[string]json.RawMessage]: the last member of a name. *)
Definition map_entry (name : string) (l : list (string * string)) : option string := member name (rev l).
Definition validAccount (raw : string) : bool :=
  if isJSONObject raw then
    match members_of raw with
    | None => false
    | Some l =>
        match map_entry "type" l ≫= decodeJSONString with
        | None => false
        | Some t =>
            if String.eqb t "apiKey" then true
            else if String.eqb t "chatgpt" then
              match map_entry "planType" l, map_entry "email" l with
              | Some plan, Some email =>
                  match decodeJSONString plan with
                  | Some p => validPlanType p && (String.eqb (TrimSpace email) "null" || has (decodeJSONString email))
                  | None => false
                  end
              | _, _ => false
              end
            else if String.eqb t "amazonBedrock" then
              match map_entry "usesCodexManagedCredentials" l with
              | Some managed => match parse managed with Some (JBool _) => true | _ => false end
              | None => true
              end
            else false
        end
    end
  else false.

(** ** The adapter *)

Record InitializeResult :=
  { ir_UserAgent : string; ir_CodexHome : string; ir_PlatformFamily : string; ir_PlatformOS : string; ir_RequiresOpenAIAuth : bool;
    ir_AccountPresent : bool }.
Definition NewAdapter (root : string) : result error string :=
  if HasPrefix root "/" then Ok (clean_abs root) else Err ErrProjectRootNotAbsolute.

Section adapter.
Context (call : string -> params -> (string -> bool) -> outcome) (notify : string -> params -> option failure) (projectRoot : string).

(** [Call] with the struct it decodes into. *)
Definition call_for {T} (dec : string -> option T) (method : string) (p : json) : result failure T :=
  match call method (Params p) (fun t => has (dec t)) with
  | Returned t => match dec t with Some x => Ok x | None => Err (0, RResultDecode) end
  | CallFailed n e => Err (n, e)
  end.
Definition map_err {E F A} (f : E -> F) (r : result E A) : result F A := match r with Ok a => Ok a | Err e => Err (f e) end.

Definition dec_initialize (t : string) : option (string * string * string * string) :=
  l ← members_of t; h ← string_of "codexHome" l; f ← string_of "platformFamily" l; o ← string_of "platformOs" l; u ← string_of "userAgent" l;
  Some (h, f, o, u).
Definition dec_account (t : string) : option (string * option bool) :=
  l ← members_of t; a ← raw_of "account" l; r ← pointer_of dec_bool "requiresOpenaiAuth" l; Some (a, r).
Definition Initialize (cliOutput : string) : result error InitializeResult :=
  let? version := AcceptedCodexVersion cliOutput in
  let? response := map_err stableAdapterError (call_for dec_initialize "initialize"
                     (JObj [("clientInfo", JObj [("name", JStr "agent_romm"); ("version", JStr version)])])) in
  let '(home, family, os, ua) := response in
  let? _ := check (negb (String.eqb home "" || String.eqb family "" || String.eqb os "" || String.eqb ua "")) ErrInvalidResponse in
  let? _ := ValidateUserAgent cliOutput ua in
  let? _ := match notify "initialized" NoParams with Some f => Err (stableAdapterError f) | None => Ok tt end in
  let? account := map_err stableAdapterError (call_for dec_account "account/read" (JObj [("refreshToken", JBool false)])) in
  match account.2 with
  | None => Err ErrInvalidResponse
  | Some requires =>
      let present := negb (String.eqb account.1 "") && negb (String.eqb (TrimSpace account.1) "null") in
      let? _ := check (negb present || validAccount account.1) ErrInvalidResponse in
      let? _ := check (negb requires || present) ErrUnauthenticated in
      Ok {| ir_UserAgent := ua; ir_CodexHome := home; ir_PlatformFamily := family; ir_PlatformOS := os;
            ir_RequiresOpenAIAuth := requires; ir_AccountPresent := present |}
  end.

Record policyThreadResult := { pr_Thread : string; pr_CWD : option string; pr_ApprovalPolicy : option string; pr_Sandbox : option string }.
Definition dec_sandbox (j : json) : option string := match j with JObj _ => string_field "type" j | _ => None end.
Definition dec_policy (t : string) : option policyThreadResult :=
  l ← members_of t; th ← raw_of "thread" l; c ← pointer_of dec_string "cwd" l; a ← pointer_of dec_string "approvalPolicy" l;
  s ← pointer_of dec_sandbox "sandbox" l; Some {| pr_Thread := th; pr_CWD := c; pr_ApprovalPolicy := a; pr_Sandbox := s |}.
Definition validatePolicy (r : policyThreadResult) : result error unit :=
  check (bool_decide (pr_CWD r = Some projectRoot) && bool_decide (pr_ApprovalPolicy r = Some approvalPolicy)
         && bool_decide (pr_Sandbox r = Some turnSandboxType)) ErrRuntimePolicyMismatch.

Definition StartThread : result error ThreadSnapshot :=
  let op := "thread/start" in
  let? _ := map_err (notSentMutation op) (preflightCall op (startThreadRequest "") [projectRoot]) in
  let? r := map_err (mutationError op) (call_for dec_policy op (startThreadRequest projectRoot)) in
  let? _ := map_err (unknownMutation op) (validatePolicy r) in
  map_err (unknownMutation op) (snapshot projectRoot (pr_Thread r) "").
Definition ReadThread (id : ThreadID) : result error ThreadSnapshot :=
  let? _ := check (validProtocolID id) ErrInvalidAgentRequest in
  let? _ := preflightCall "thread/read" (readThreadRequest "") [id] in
  let? raw := map_err (fun f => readThreadError f id) (call_for (fun t => l ← members_of t; raw_of "thread" l) "thread/read" (readThreadRequest id)) in
  snapshot projectRoot raw id.
Definition ResumeThread (id : ThreadID) : result error ThreadSnapshot :=
  let? _ := check (validProtocolID id) ErrInvalidAgentRequest in
  let? _ := preflightCall "thread/resume" (resumeThreadRequest "" "") [id; projectRoot] in
  let? r := map_err stableAdapterError (call_for dec_policy "thread/resume" (resumeThreadRequest id projectRoot)) in
  let? _ := validatePolicy r in
  snapshot projectRoot (pr_Thread r) id.
Definition StartTurn (id : ThreadID) (cid : ClientMessageID) (text : string) : result error TurnID :=
  let op := "turn/start" in
  let? _ := check (validProtocolID id && ValidClientMessageID cid && negb (blank text)) (notSentMutation op ErrInvalidAgentRequest) in
  let? _ := map_err (notSentMutation op) (preflightCall op (startTurnRequest "" "" "" "") [id; cid; projectRoot; text]) in
  let? raw := map_err (mutationError op) (call_for (fun t => l ← members_of t; raw_of "turn" l) op (startTurnRequest id cid projectRoot text)) in
  match (turn ← decodeProtocolTurn raw; _ ← mapTurnState (pu_Status turn); Some turn) with
  | Some turn => Ok (pu_ID turn)
  | None => Err (unknownMutation op ErrInvalidResponse)
  end.
Definition SteerTurn (id : ThreadID) (turn : TurnID) (text : string) : result error unit :=
  let op := "turn/steer" in
  let? _ := check (validProtocolID id && validProtocolID turn && negb (blank text)) (notSentMutation op ErrInvalidAgentRequest) in
  let? _ := map_err (notSentMutation op) (preflightCall op (steerTurnRequest "" "" "") [id; turn; text]) in
  let? answer := map_err (mutationError op) (call_for (fun t => l ← members_of t; pointer_of dec_string "turnId" l) op (steerTurnRequest id turn text)) in
  check (match answer with Some a => validProtocolID a && String.eqb a turn | None => false end) (unknownMutation op ErrInvalidResponse).
(** A [map] of the answer; [null] is the nil map. *)
Definition dec_map (t : string) : option bool := _ ← members_of t; Some (negb (String.eqb (TrimSpace t) "null")).
Definition InterruptTurn (id : ThreadID) (turn : TurnID) : result error unit :=
  let op := "turn/interrupt" in
  let? _ := check (validProtocolID id && validProtocolID turn) (notSentMutation op ErrInvalidAgentRequest) in
  let? _ := map_err (notSentMutation op) (preflightCall op (interruptTurnRequest "" "") [id; turn]) in
  let? present := map_err (mutationError op) (call_for dec_map op (interruptTurnRequest id turn)) in
  check present (unknownMutation op ErrInvalidResponse).
End adapter.

(** ** Events of the agent ([mapNotification] of [internal/codex/adapter.go])

    What the App Server notifies becomes an event of the room, nothing, or a
    protocol error; requests of the server are reported as unsupported. *)

Definition event (kind : string) (thread turn item : string) : AgentEvent :=
  {| ae_Kind := kind; ae_ThreadID := thread; ae_TurnID := turn; ae_ItemID := item; ae_Delta := ""; ae_Completed := None; ae_Error := None |}.
Definition with_error (e : error) (x : AgentEvent) : AgentEvent :=
  {| ae_Kind := ae_Kind x; ae_ThreadID := ae_ThreadID x; ae_TurnID := ae_TurnID x; ae_ItemID := ae_ItemID x; ae_Delta := ae_Delta x;
     ae_Completed := ae_Completed x; ae_Error := Some e |}.
Definition protocol_error : AgentEvent := with_error ErrInvalidResponse (event "protocol-error" "" "" "").

Record deltaNotification :=
  { dn_ThreadID : string; dn_TurnID : string; dn_ItemID : string; dn_Delta : option string; dn_SummaryIndex : option Z; dn_ContentIndex : option Z }.
Definition dec_delta (t : string) : option deltaNotification :=
  l ← members_of t; th ← string_of "threadId" l; tu ← string_of "turnId" l; i ← string_of "itemId" l; d ← pointer_of dec_string "delta" l;
  s ← pointer_of dec_int64 "summaryIndex" l; c ← pointer_of dec_int64 "contentIndex" l;
  Some {| dn_ThreadID := th; dn_TurnID := tu; dn_ItemID := i; dn_Delta := d; dn_SummaryIndex := s; dn_ContentIndex := c |}.
(** The two kinds of deltas; a reasoning delta has its index. *)
Definition on_delta (indexed : deltaNotification -> bool) (params : string) : AgentEvent :=
  match dec_delta params with
  | Some n =>
      match dn_Delta n with
      | Some d =>
          if validProtocolIDs [dn_ThreadID n; dn_TurnID n; dn_ItemID n] && indexed n
          then {| ae_Kind := "item-delta"; ae_ThreadID := dn_ThreadID n; ae_TurnID := dn_TurnID n; ae_ItemID := dn_ItemID n; ae_Delta := d;
                  ae_Completed := None; ae_Error := None |}
          else protocol_error
      | None => protocol_error
      end
  | None => protocol_error
  end.

Record itemNotification :=
  { in_ThreadID : string; in_TurnID : string; in_Item : string; in_StartedAtMs : option Z; in_CompletedAtMs : option Z }.
Definition dec_item (t : string) : option itemNotification :=
  l ← members_of t; th ← string_of "threadId" l; tu ← string_of "turnId" l; i ← raw_of "item" l;
  s ← pointer_of dec_int64 "startedAtMs" l; c ← pointer_of dec_int64 "completedAtMs" l;
  Some {| in_ThreadID := th; in_TurnID := tu; in_Item := i; in_StartedAtMs := s; in_CompletedAtMs := c |}.
Definition on_item (completed : bool) (params : string) : AgentEvent :=
  match dec_item params with
  | None => protocol_error
  | Some n =>
      if negb (has (if completed then in_CompletedAtMs n else in_StartedAtMs n)) then protocol_error else
      match itemID (in_Item n) with
      | None => protocol_error
      | Some id =>
          if negb (validProtocolIDs [in_ThreadID n; in_TurnID n]) then protocol_error else
          if completed then
            {| ae_Kind := "item-completed"; ae_ThreadID := in_ThreadID n; ae_TurnID := in_TurnID n; ae_ItemID := id; ae_Delta := ""; ae_Error := None;
               ae_Completed := Some {| it_ThreadID := in_ThreadID n; it_TurnID := in_TurnID n; it_ItemID := id; it_Payload := in_Item n |} |}
          else event "item-started" (in_ThreadID n) (in_TurnID n) id
      end
  end.

Definition on_turn (completed : bool) (params : string) : AgentEvent :=
  match (l ← members_of params; th ← string_of "threadId" l; t ← raw_of "turn" l; Some (th, t)) with
  | None => protocol_error
  | Some (thread, raw) =>
      if negb (validProtocolID thread) then protocol_error else
      match (turn ← decodeProtocolTurn raw; state ← mapTurnState (pu_Status turn); Some (turn, state)) with
      | None => protocol_error
      | Some (turn, state) =>
          match completed, state with
          | false, RequestRunning => event "turn-started" thread (pu_ID turn) ""
          | true, RequestCompleted => event "turn-completed" thread (pu_ID turn) ""
          | true, RequestInterrupted => event "turn-interrupted" thread (pu_ID turn) ""
          | true, RequestFailed => with_error ErrTurnFailed (event "turn-failed" thread (pu_ID turn) "")
          | _, _ => protocol_error
          end
      end
  end.

Definition validTurnError (raw : string) : bool :=
  isJSONObject raw && match members_of raw with Some l => has (map_entry "message" l ≫= decodeJSONString) | None => false end.
Definition on_error (params : string) : AgentEvent :=
  match (l ← members_of params; th ← string_of "threadId" l; tu ← string_of "turnId" l; w ← pointer_of dec_bool "willRetry" l;
         e ← raw_of "error" l; Some (th, tu, w, e)) with
  | Some (thread, turn, will_retry, e) =>
      if validProtocolIDs [thread; turn] && has will_retry && validTurnError e then with_error ErrTurnFailed (event "turn-error" thread turn "")
      else protocol_error
  | None => protocol_error
  end.
Definition on_server_request (params : string) : AgentEvent :=
  let l := default [] (members_of params) in
  let thread := lenient_string "threadId" l in
  let turn := lenient_string "turnId" l in
  if validProtocolIDs [thread; turn] then event "unsupported-server-request" thread turn "" else event "unsupported-server-request" "" "" "".

Definition mapNotification (n : Notification) : option AgentEvent :=
  let m := nf_Method n in
  let p := nf_Params n in
  if nf_ServerRequest n then Some (on_server_request p)
  else if one_of m ["item/agentMessage/delta"; "item/plan/delta"; "item/commandExecution/outputDelta"; "item/fileChange/outputDelta"]
  then Some (on_delta (fun _ => true) p)
  else if String.eqb m "item/reasoning/summaryTextDelta" then Some (on_delta (fun n => has (dn_SummaryIndex n)) p)
  else if String.eqb m "item/reasoning/textDelta" then Some (on_delta (fun n => has (dn_ContentIndex n)) p)
  else if String.eqb m "item/started" then Some (on_item false p)
  else if String.eqb m "item/completed" then Some (on_item true p)
  else if String.eqb m "turn/started" then Some (on_turn false p)
  else if String.eqb m "turn/completed" then Some (on_turn true p)
  else if String.eqb m "error" then Some (on_error p)
  else None.
(** [forwardNotifications]: what is forwarded of what was notified. *)
Definition forwardNotifications (l : list Notification) : list AgentEvent := omap mapNotification l.

Definition notification (m p : string) : Notification := {| nf_Method := m; nf_Params := bq p; nf_EmittedAtMs := None; nf_ServerRequest := false |}.
Example turn_completed :
  mapNotification (notification "turn/completed" "{`threadId`:`t`,`turn`:{`id`:`u`,`status`:`completed`,`items`:[]}}")
  = Some (event "turn-completed" "t" "u" "").
Proof. vm_compute. reflexivity. Qed.
Example turn_still_running :
  mapNotification (notification "turn/completed" "{`threadId`:`t`,`turn`:{`id`:`u`,`status`:`inProgress`,`items`:[]}}") = Some protocol_error.
Proof. vm_compute. reflexivity. Qed.

(** ** What is forwarded *)

Lemma turn_event_valid completed p : let e := on_turn completed p in
  e = protocol_error \/ validProtocolIDs [ae_ThreadID e; ae_TurnID e] = true.
Proof.
  cbv zeta. unfold on_turn. destruct (l ← members_of p; _) as [[thread raw]|]; [|by left]. destruct (validProtocolID thread) eqn:V; [|by left]. cbn [negb].
  destruct (decodeProtocolTurn raw) as [turn|] eqn:D; [|by left]. cbn. destruct (mapTurnState _) as [state|]; [|by left].
  assert (Vt : validProtocolID (pu_ID turn) = true).
  { unfold decodeProtocolTurn in D. destruct (decodeProtocolTurnObject raw) as [t|] eqn:O; [|done]. cbn in D.
    destruct (streamJSONArray _ _); [|done]. injection D as ->. unfold decodeProtocolTurnObject in O. destruct (isJSONObject raw); [|done].
    repeat (apply bind_Some in O as (? & ? & O)). match type of O with (if ?b then _ else _) = _ => destruct b eqn:Vi end; [|done]. injection O as <-. exact Vi. }
  destruct completed, state; cbn; rewrite ?V, ?Vt; (by left) || by right.
Qed.
