(* ===== verification/AdapterSafety.v ===== *)
(** * What the room may believe of a failed mutation

    The coordinator repeats a prompt only when the adapter says that it was not
    sent; here the claim is followed down to the bytes on the pipe.  The check
    before a call is exact: it counts the bytes that marshalling would produce. *)
From S2P Require Import Prelude GoStrings Json JsonFacts StrictJson GoDecode RoomTypes Jsonrpc RpcClient RpcSafety Adapter.

(** ** The length of a quoted text *)

Lemma encoded_length_quote c : code c <? 0x80 = true -> encoded_length c = len (quote_ascii c).
Proof. destruct c as [[] [] [] [] [] [] [] []]; intros H; vm_compute in H |- *; done. Qed.
Lemma u_escape_length z : len (u_escape z) = 6.
Proof. reflexivity. Qed.
Lemma rune_bytes_length c s n : utf8_width (String c s) = Some n -> (code c <? 0x80) = false -> len (take_bytes n (String c s)) = Z.of_nat n.
Proof.
  intros W A. destruct (utf8_width_rune _ _ _ W ltac:(lia)) as (m & _ & L & H & _). specialize (H (drop_bytes n (String c s))).
  rewrite take_drop_bytes in H. unfold len. rewrite L. congruence.
Qed.
(** Saturation keeps a length that fits. *)
Lemma escaped_length_spec fuel : forall length s, 0 <= length ->
  escaped_length fuel length s = (let n := length + len (quote_body fuel s) in if MaxJSONLLineBytes <? n then MaxJSONLLineBytes + 1 else n)
  \/ MaxJSONLLineBytes < length.
Proof.
  induction fuel as [|fuel IH]; intros length s L.
  { cbn. unfold len. cbn. rewrite Z.add_0_r. destruct (Z.ltb_spec MaxJSONLLineBytes length); [by right|by left]. }
  destruct s as [|c s]; [cbn [escaped_length quote_body]; unfold len; cbn [String.length]; rewrite Z.add_0_r; destruct (Z.ltb_spec MaxJSONLLineBytes length); [by right|by left]|].
  destruct (Z.ltb_spec MaxJSONLLineBytes length) as [G|G]; [by right|left].
  assert (Step : forall encoded rest t, 0 <= encoded -> len t = encoded ->
    (if MaxJSONLLineBytes - encoded <? length then MaxJSONLLineBytes + 1 else escaped_length fuel (length + encoded) rest)
    = (let n := length + len (t +:+ quote_body fuel rest) in if MaxJSONLLineBytes <? n then MaxJSONLLineBytes + 1 else n)).
  { intros encoded rest t E Ht. cbv zeta. assert (Lt : len (t +:+ quote_body fuel rest) = encoded + len (quote_body fuel rest)).
    { rewrite <- Ht. unfold len. rewrite sapp_length. lia. }
    rewrite Lt. assert (0 <= len (quote_body fuel rest)) by (unfold len; lia).
    destruct (Z.ltb_spec (MaxJSONLLineBytes - encoded) length); [rewrite (proj2 (Z.ltb_lt _ _)) by lia; done|].
    destruct (IH (length + encoded) rest ltac:(lia)) as [->|?]; [cbv zeta; by rewrite Z.add_assoc|lia]. }
  cbn [escaped_length quote_body]. destruct (code c <? 0x80) eqn:A; [apply Step; [unfold encoded_length; by repeat case_match|by rewrite encoded_length_quote]|].
  destruct (utf8_width (String c s)) as [n|] eqn:W; [|by apply (Step 6 s "\ufffd")].
  destruct (is_2028 (take_bytes n (String c s))) as [z|] eqn:Z2; cbn [has]; [apply Step; [lia|apply u_escape_length]|].
  apply Step; [lia|by apply rune_bytes_length].
Qed.
(** The check before a call counts exactly what marshalling the text takes. *)
Lemma escaped_string_length s : defaultJSONEscapedStringLength s = (if MaxJSONLLineBytes <? len (quote s) then MaxJSONLLineBytes + 1 else len (quote s)).
Proof.
  unfold defaultJSONEscapedStringLength. destruct (escaped_length_spec (String.length s) 2 s ltac:(lia)) as [->|H]; [|by vm_compute in H].
  cbv zeta. assert (len (quote s) = 2 + len (quote_body (String.length s) s)) as ->; [|done].
  unfold quote, len. rewrite !sapp_length. simpl. lia.
Qed.

(** ** Certainty *)

(** The mutations of the adapter, given what their call returned. *)
Inductive mutation :=
| MuStartThread
| MuStartTurn (thread : ThreadID) (id : ClientMessageID) (text : string)
| MuSteer (thread : ThreadID) (turn : TurnID) (text : string)
| MuInterrupt (thread : ThreadID) (turn : TurnID).
Definition forget {A} (r : result error A) : result error unit := result_map (fun _ => tt) r.
Definition mutate (root : string) (m : mutation) (o : outcome) : result error unit :=
  let call := fun _ _ _ => o in
  match m with
  | MuStartThread => forget (StartThread call root)
  | MuStartTurn t i x => forget (StartTurn call root t i x)
  | MuSteer t u x => SteerTurn call t u x
  | MuInterrupt t u => InterruptTurn call t u
  end.
Definition not_sent (e : error) : bool :=
  match errors_As_mutation e with Some (_, DeliveryNotSent, _) => true | _ => false end.
Definition returned_nothing (o : outcome) : Prop := exists e, o = CallFailed 0 e.
Lemma call_for_not_sent {T} (dec : string -> option T) method p o op f :
  call_for (fun _ _ _ => o) dec method p = Err f -> not_sent (mutationError op f) = true -> returned_nothing o.
Proof.
  unfold call_for. destruct o as [t|n e].
  - destruct (dec t); [done|]. by intros [= <-].
  - intros [= <-]. unfold mutationError, not_sent. cbn. destruct (Z.eqb_spec n 0) as [->|]; cbn; [by exists e|done].
Qed.
(** A check that does not depend on the call, the call, and what is made of its
    answer, which never says that nothing was sent. *)
Lemma staged {T A} (pre : result error unit) (dec : string -> option T) method p op (rest : T -> result error A) o e :
  (let? _ := pre in let? r := map_err (mutationError op) (call_for (fun _ _ _ => o) dec method p) in rest r) = Err e ->
  not_sent e = true -> (forall r e, rest r = Err e -> not_sent e = false) -> pre = Err e \/ returned_nothing o.
Proof.
  intros H N R. destruct pre as [u|e1]; cbn [result_bind] in H; [right|left; congruence].
  destruct (call_for _ dec method p) as [r|f] eqn:C; cbn in H.
  - by rewrite (R r e H) in N.
  - injection H as <-. by apply (call_for_not_sent dec method p o op f C).
Qed.
Lemma bind_assoc {E A B C} (r : result E A) (f : A -> result E B) (g : B -> result E C) :
  result_bind (result_bind r f) g = result_bind r (fun x => result_bind (f x) g).
Proof. by destruct r. Qed.
Lemma forget_err {A} (r : result error A) e : forget r = Err e <-> r = Err e.
Proof. unfold forget. destruct r; cbn; split; congruence. Qed.
Lemma unknown_not_sent {A} op (r : result error A) e : map_err (unknownMutation op) r = Err e -> not_sent e = false.
Proof. destruct r; [done|]. by intros [= <-]. Qed.
Lemma check_unknown b op x e : check b (unknownMutation op x) = Err e -> not_sent e = false.
Proof. unfold check. destruct b; [done|]. by intros [= <-]. Qed.

Lemma mutate_not_sent root m o e : mutate root m o = Err e -> not_sent e = true -> (forall o', mutate root m o' = Err e) \/ returned_nothing o.
Proof.
  intros H N. destruct m as [|t i x|t u x|t u]; cbn [mutate] in *.
  - rewrite forget_err in H. unfold StartThread in H. eapply staged in H as [H|H]; [|by right|done|].
    + left. intros o'. apply forget_err. unfold StartThread. by rewrite H.
    + intros r e'. destruct (validatePolicy root r) as [v|ev]; cbn; [apply unknown_not_sent|]. by intros [= <-].
  - rewrite forget_err in H. unfold StartTurn in H. rewrite <- bind_assoc in H. eapply staged in H as [H|H]; [|by right|done|].
    + left. intros o'. apply forget_err. unfold StartTurn. by rewrite <- bind_assoc, H.
    + intros r e'. destruct (turn ← decodeProtocolTurn r; _); [done|]. by intros [= <-].
  - unfold SteerTurn in *. rewrite <- bind_assoc in H. eapply staged in H as [H|H]; [|by right|done|].
    + left. intros o'. by rewrite <- bind_assoc, H.
    + intros r e'. apply check_unknown.
  - unfold InterruptTurn in *. rewrite <- bind_assoc in H. eapply staged in H as [H|H]; [|by right|done|].
    + left. intros o'. by rewrite <- bind_assoc, H.
    + intros r e'. apply check_unknown.
Qed.

(** C27: "Not sent" is certain.  When a mutation whose call ended in any reachable state of the
    client reports that its request was not sent, either it was refused before the
    call, whatever the call would return, or not a byte of the request was written. *)
Theorem not_sent_is_certain i l k x o root m e :
  let c := moves (NewRPCClient i) l in
  callers c !! k = Some x -> cl_at x = PDone o -> mutate root m o = Err e -> not_sent e = true ->
  (forall o', mutate root m o' = Err e) \/ sent k c = 0.
Proof.
  cbv zeta. intros Hx At H N. destruct (mutate_not_sent root m o e H N) as [?|[e' ->]]; [by left|right].
  by apply (failed_call_sent i l k x 0 e').
Qed.

(** An interruption cancelled while it waits for the writer. *)
Definition cancelled_moves : list move :=
  [MCall "turn/interrupt" (Params (interruptTurnRequest "t" "u")) (fun t => has (dec_map t)) None; MCallTurn 0 Go; MCancelCall 0 RCanceled]
  ++ demo_turns [PickContext; Go; Go; Go; Go].
Lemma not_sent_is_certain_witness :
  let c := moves (NewRPCClient demo_input) cancelled_moves in
  let e := ErrMutation "turn/interrupt" DeliveryNotSent (Sentinel ErrContextCanceled) in
  mutate "/p" (MuInterrupt "t" "u") (CallFailed 0 RCanceled) = Err e
  /\ ((forall o', mutate "/p" (MuInterrupt "t" "u") o' = Err e) \/ sent 0 c = 0).
Proof.
  assert (B : match callers (moves (NewRPCClient demo_input) cancelled_moves) !! 0%nat with Some x => Some (cl_at x) | None => None end
              = Some (PDone (CallFailed 0 RCanceled))) by (vm_compute; reflexivity).
  assert (H : mutate "/p" (MuInterrupt "t" "u") (CallFailed 0 RCanceled)
              = Err (ErrMutation "turn/interrupt" DeliveryNotSent (Sentinel ErrContextCanceled))) by (vm_compute; reflexivity).
  cbv zeta. split; [exact H|].
  destruct (callers (moves (NewRPCClient demo_input) cancelled_moves) !! 0%nat) as [x|] eqn:E; [|done]. injection B as B.
  exact (not_sent_is_certain demo_input cancelled_moves 0 x (CallFailed 0 RCanceled) "/p" (MuInterrupt "t" "u") _ E B H eq_refl).
Defined.
