(* ===== verification/Process.v ===== *)
(** * The processes of the agent ([internal/codex/process.go], [process_linux.go])

    Their errors, what a process is identified by and how it is read from /proc, the
    specification of one that is to be started, and the version a program prints.
    The record of a child that was started is in [OwnedSafety.v]. *)
From S2P Require Import Prelude GoStrings Sha256 RoomTypes Jsonrpc Adapter.

(** ** Errors

    A variable of the package or a context's error; an error of the adapter; an
    error somebody else made; [safeError], [errors.Join], [ownerRepair] and the
    failure of a session. *)

Inductive csentinel :=
| ErrUnsupportedPlatform | ErrInvalidProcessSpec | ErrProcessVersion | ErrProcessStart | ErrProcessIdentityRead
| ErrInvalidCurrentProcess | ErrForeignChild | ErrProcessObservation | ErrProcessSignal | ErrProcessReap
| ErrNilProcessManager | ErrInvalidVersionPolicy | ErrUnsupportedSchema | ErrGenerationUnavailable | ErrNilCheckpointSink
| ErrInvalidChild | ErrCheckpointPersistence | ErrProcessCleanup | ErrInvalidSession | ErrOwnerRepairRequired
| ErrPreviousProcessRunning | ErrProcessIdentityMismatch | ErrProcessIdentityUnknown | ErrProcessIdentityChanged
| ErrInvalidProcessCheckpoint
| ErrNilSupervisor | ErrNilSleeper | ErrInvalidRuntimeConfig | ErrRuntimeAlreadyStarted | ErrRuntimeClosed | ErrRuntimeUnavailable
| Canceled | DeadlineExceeded.
#[export] Instance csentinel_eq_dec : EqDecision csentinel.
Proof. solve_decision. Defined.
Definition csentinel_text (s : csentinel) : string :=
  match s with
  | ErrUnsupportedPlatform => "Codex App Server process supervision is unsupported on this platform"
  | ErrInvalidProcessSpec => "invalid Codex App Server process specification"
  | ErrProcessVersion => "Codex CLI version probe failed"
  | ErrProcessStart => "Codex App Server process start failed"
  | ErrProcessIdentityRead => "Codex App Server process identity cannot be read safely"
  | ErrInvalidCurrentProcess => "unsafe current Codex App Server process identity"
  | ErrForeignChild => "Codex App Server child is not owned by this process manager"
  | ErrProcessObservation => "Codex App Server process exit cannot be observed safely"
  | ErrProcessSignal => "Codex App Server process group cannot be signaled safely"
  | ErrProcessReap => "Codex App Server process cannot be reaped safely"
  | ErrNilProcessManager => "Codex process manager is required"
  | ErrInvalidVersionPolicy => "invalid Codex version policy"
  | ErrUnsupportedSchema => "unsupported Codex App Server schema"
  | ErrGenerationUnavailable => "Codex process generation is unavailable"
  | ErrNilCheckpointSink => "runtime checkpoint sink is required"
  | ErrInvalidChild => "invalid Codex App Server child"
  | ErrCheckpointPersistence => "runtime checkpoint persistence failed"
  | ErrProcessCleanup => "Codex App Server cleanup could not be proven"
  | ErrInvalidSession => "invalid Codex App Server session"
  | ErrOwnerRepairRequired => "Codex App Server owner repair is required"
  | ErrPreviousProcessRunning => "a prior Codex App Server process may still be running"
  | ErrProcessIdentityMismatch => "persisted Codex process identity does not match"
  | ErrProcessIdentityUnknown => "persisted Codex process identity cannot be proven"
  | ErrProcessIdentityChanged => "Codex process identity changed while inspected"
  | ErrInvalidProcessCheckpoint => "invalid running Codex process checkpoint"
  | ErrNilSupervisor => "Codex supervisor is required"
  | ErrNilSleeper => "runtime sleeper is required"
  | ErrInvalidRuntimeConfig => "invalid Codex runtime configuration"
  | ErrRuntimeAlreadyStarted => "Codex runtime is already started"
  | ErrRuntimeClosed => "Codex runtime is closed"
  | ErrRuntimeUnavailable => "Codex runtime is unavailable"
  | Canceled => "context canceled"
  | DeadlineExceeded => "context deadline exceeded"
  end.

Inductive cerror :=
| CS (s : csentinel)
| CRoom (e : error)
| CForeign (text : string)
| CSafe (cause : csentinel) (classification : option csentinel) (digest : string)
| CJoin (l : list cerror)
| COwner (reason : csentinel)
| CSession (code digest : string).
Fixpoint cerror_text (e : cerror) : string :=
  match e with
  | CS s => csentinel_text s
  | CRoom e => error_text e
  | CForeign t => t
  | CSafe c _ d => csentinel_text c +:+ " (detail digest " +:+ d +:+ ")"
  | CJoin l => join nl (map cerror_text l)
  | COwner r => csentinel_text ErrOwnerRepairRequired +:+ ": " +:+ csentinel_text r
  | CSession c d => "Codex App Server session failed (" +:+ c +:+ ", digest " +:+ d +:+ ")"
  end.
(** [errors.Is] *)
Definition room_Is (e : error) (target : csentinel) : bool :=
  match target with
  | Canceled => errors_Is e ErrContextCanceled
  | DeadlineExceeded => errors_Is e ErrDeadlineExceeded
  | _ => false
  end.
Fixpoint cerror_Is (e : cerror) (target : csentinel) : bool :=
  match e with
  | CS s => bool_decide (s = target)
  | CRoom e => room_Is e target
  | CForeign _ | CSession _ _ => false
  | CSafe c k _ => bool_decide (c = target) || match k with Some k => bool_decide (k = target) | None => false end
  | CJoin l => existsb (fun e => cerror_Is e target) l
  | COwner r => bool_decide (target = ErrOwnerRepairRequired) || bool_decide (r = target)
  end.
(** [safeError]; the detail is only a digest of its text. *)
Definition safeError (cause : csentinel) (detail : cerror) : cerror :=
  CSafe cause
    (if cerror_Is detail ErrUnsupportedPlatform then Some ErrUnsupportedPlatform
     else if cerror_Is detail DeadlineExceeded then Some DeadlineExceeded
     else if cerror_Is detail Canceled then Some Canceled else None)
    (sha256_hex (cerror_text detail)).

(** ** What Linux tells of a process *)

Record ProcessIdentity := { pi_Generation : string; pi_PID : Z; pi_PGID : Z; pi_StartIdentity : string }.
#[export] Instance ProcessIdentity_eq_dec : EqDecision ProcessIdentity.
Proof. solve_decision. Defined.
Inductive ProcessMatch := ProcessUnknown | ProcessAbsent | ProcessMatches | ProcessMismatch.
#[export] Instance ProcessMatch_eq_dec : EqDecision ProcessMatch.
Proof. solve_decision. Defined.
Record ProcessSpec := { ps_Executable : string; ps_Args : list string; ps_Env : list string; ps_Dir : string; ps_Generation : string }.
(** [unix.ENOENT] or [ESRCH], or any other failure. *)
Inductive stat_error := StatAbsent | StatFailed.

(** The text before the first and after the last of a byte. *)
Fixpoint before_byte (b : Z) (s : string) : option string :=
  match s with
  | "" => None
  | String c r => if code c =? b then Some "" else String c <$> before_byte b r
  end.
Fixpoint after_last_byte (b : Z) (s : string) : option string :=
  match s with
  | "" => None
  | String c r => match after_last_byte b r with Some t => Some t | None => if code c =? b then Some r else None end
  end.
(** The identity in [/proc/pid/stat]: the command's name is in parentheses and may
    hold any bytes. *)
Definition parse_stat (pid : Z) (data : string) : result csentinel ProcessIdentity :=
  match before_byte 40 data, after_last_byte 41 data with
  | Some head, Some tail =>
      if String.eqb head "" || (len data - len tail - 1 <=? len head) || String.eqb tail "" then Err ErrProcessIdentityRead else
      match Atoi (TrimSpace head) with
      | Some p =>
          if negb (p =? pid) then Err ErrProcessIdentityRead else
          let fields := Fields tail in
          match fields !! 2%nat, fields !! 19%nat with
          | Some group, Some start =>
              match Atoi group, ParseUint start with
              | Some g, Some _ =>
                  if g <=? 1 then Err ErrProcessIdentityRead
                  else Ok {| pi_Generation := ""; pi_PID := pid; pi_PGID := g; pi_StartIdentity := start |}
              | _, _ => Err ErrProcessIdentityRead
              end
          | _, _ => Err ErrProcessIdentityRead
          end
      | None => Err ErrProcessIdentityRead
      end
  | _, _ => Err ErrProcessIdentityRead
  end.
(** [None]: the process is absent. *)
Definition readLinuxProcessIdentity (pid : Z) (stat : result stat_error string) : option (result csentinel ProcessIdentity) :=
  match stat with
  | Err StatAbsent => None
  | Err StatFailed => Some (Err ErrProcessIdentityRead)
  | Ok data => Some (parse_stat pid data)
  end.
(** [stat1], [stat2]: the file at the two readings; [ctx] the error of the context
    between them. *)
Definition Match (i : ProcessIdentity) (stat1 stat2 : result stat_error string) (ctx : option csentinel) : result csentinel ProcessMatch :=
  if (pi_PID i <=? 1) || (pi_PGID i <=? 1) || blank (pi_Generation i) || blank (pi_StartIdentity i) then Err ErrProcessIdentityRead else
  match readLinuxProcessIdentity (pi_PID i) stat1 with
  | None => Ok ProcessAbsent
  | Some (Err _) => Ok ProcessUnknown
  | Some (Ok first) =>
      if negb (pi_PID first =? pi_PID i) || negb (pi_PGID first =? pi_PGID i) || negb (String.eqb (pi_StartIdentity first) (pi_StartIdentity i))
      then Ok ProcessMismatch
      else match ctx with
           | Some e => Err e
           | None =>
               match readLinuxProcessIdentity (pi_PID i) stat2 with
               | Some (Ok second) => if bool_decide (second = first) then Ok ProcessMatches else Err ErrProcessIdentityChanged
               | _ => Err ErrProcessIdentityChanged
               end
           end
  end.
Definition validateProcessSpec (ctx : option csentinel) (s : ProcessSpec) : result csentinel unit :=
  match ctx with
  | Some e => Err e
  | None =>
      if blank (ps_Executable s) || negb (HasPrefix (ps_Dir s) "/") || blank (ps_Generation s) || bool_decide (ps_Args s = [])
      then Err ErrInvalidProcessSpec else Ok tt
  end.

(** [boundedProcessOutput]: what is kept, and whether something was lost. *)
Definition maxVersionOutputBytes : Z := 4096.
Record boundedProcessOutput := { bo_data : string; bo_limit : Z; bo_overflow : bool }.
Definition bounded_write (data : string) (w : boundedProcessOutput) : boundedProcessOutput :=
  let remaining := bo_limit w - len (bo_data w) in
  {| bo_data := bo_data w +:+ (if remaining <? len data then take_bytes (Z.to_nat remaining) data else data);
     bo_limit := bo_limit w; bo_overflow := bo_overflow w || (remaining <? len data) |}.
(** [ran]: whether the command succeeded; [chunks] what it wrote. *)
Definition Version (executable : string) (ran : bool) (chunks : list string) : result csentinel string :=
  if blank executable then Err ErrInvalidProcessSpec else
  let out := foldl (fun w c => bounded_write c w) {| bo_data := ""; bo_limit := maxVersionOutputBytes; bo_overflow := false |} chunks in
  if negb ran || bo_overflow out then Err ErrProcessVersion else Ok (bo_data out).
