(* ===== verification/OwnedSafety.v ===== *)
(** * Owning a child process ([internal/codex/process.go])

    [ownedChildState] with the goroutines that meet on it.  The truth about the
    process is [os]; the log keeps what the hooks did, with the truth at that
    moment.  The observer waits for the exit without the lock, so that it may look at
    the process id after another goroutine reaped the child; what it sees then is
    anything.  The theorems: nothing is probed, signalled or reaped under a process id
    after it was reaped and a late look changes nothing, a child is reaped once and
    after its exit, a stop escalates from termination to kill, and one that has begun
    ends. *)
From S2P Require Import Prelude GoStrings RoomTypes Process.

(** ** State *)

Inductive process_state := Alive | Exited | Gone.
#[export] Instance process_state_eq_dec : EqDecision process_state.
Proof. solve_decision. Defined.
Inductive processSignal := processSignalTerminate | processSignalKill.
#[export] Instance processSignal_eq_dec : EqDecision processSignal.
Proof. solve_decision. Defined.
(** What [reap] returns: nothing, an [*exec.ExitError], or another error. *)
Inductive reap_result := ReapOk | ReapExit (text : string) | ReapFailed (text : string).
(** [HObserve] is the look of the observer, [HProbe] one under the lock. *)
Inductive hook := HObserve (at_ : process_state) | HProbe (at_ : process_state) | HSignal (k : nat) (s : processSignal) (at_ : process_state) | HReap (at_ : process_state).
(** The observer: waiting, holding what it saw, at its end. *)
Inductive observer := OWaiting | OSaw (exited : bool) | OEnded.
(** Where a call of [stopOwnedChild] is; [SWait], [SSelect], [SLook] and
    [SContext] are the wait that comes before a signal. *)
Inductive spoint :=
| SStart (foreign : bool)
| SClose
| SWait (s : processSignal)
| SSelect (s : processSignal)
| SLook (s : processSignal)
| SContext (s : processSignal)
| SSignal (s : processSignal)
| SKilled
| SPoll
| SPolled
| SSleep
| SDone (r : option csentinel).
Record stopper := mkStopper { sp_ctx : option csentinel; sp_grace : Z; sp_at : spoint }.
Record ownedChildState := mkOwned
  { oc_identity : ProcessIdentity; os : process_state; reaped : bool; waitErr : option cerror; cleanupErr : option csentinel;
    dones : nat; stdins : nat; watching : observer; stoppers : list stopper; hooks : list hook }.
(** [newOwnedChild] of a process that was just started. *)
Definition newOwnedChild (i : ProcessIdentity) : ownedChildState := mkOwned i Alive false None None 0 0 OWaiting [] [].

Definition set_os (p : process_state) (s : ownedChildState) : ownedChildState :=
  mkOwned (oc_identity s) p (reaped s) (waitErr s) (cleanupErr s) (dones s) (stdins s) (watching s) (stoppers s) (hooks s).
Definition set_watching (w : observer) (s : ownedChildState) : ownedChildState :=
  mkOwned (oc_identity s) (os s) (reaped s) (waitErr s) (cleanupErr s) (dones s) (stdins s) w (stoppers s) (hooks s).
Definition set_stoppers (l : list stopper) (s : ownedChildState) : ownedChildState :=
  mkOwned (oc_identity s) (os s) (reaped s) (waitErr s) (cleanupErr s) (dones s) (stdins s) (watching s) l (hooks s).
Definition log_hook (h : hook) (s : ownedChildState) : ownedChildState :=
  mkOwned (oc_identity s) (os s) (reaped s) (waitErr s) (cleanupErr s) (dones s) (stdins s) (watching s) (stoppers s) (hooks s ++ [h]).
Definition set_waitErr (e : option cerror) (s : ownedChildState) : ownedChildState :=
  mkOwned (oc_identity s) (os s) (reaped s) e (cleanupErr s) (dones s) (stdins s) (watching s) (stoppers s) (hooks s).

(** ** Critical sections *)

(** [doneOnce.Do]: how often the channel was closed; closing it twice would panic. *)
Definition closeDoneLocked (s : ownedChildState) : ownedChildState :=
  mkOwned (oc_identity s) (os s) (reaped s) (waitErr s) (cleanupErr s) (if Nat.eqb (dones s) 0 then 1%nat else dones s) (stdins s)
          (watching s) (stoppers s) (hooks s).
(** [command.Wait] gives the process id back to the system. *)
Definition reapLocked (r : reap_result) (s : ownedChildState) : ownedChildState :=
  if reaped s then s else
  let s := log_hook (HReap (os s)) s in
  let w := match r with ReapOk => waitErr s | ReapExit t | ReapFailed t => Some (CForeign t) end in
  let c := match r with ReapFailed _ => Some ErrProcessReap | _ => cleanupErr s end in
  closeDoneLocked (mkOwned (oc_identity s) Gone true w c (dones s) (stdins s) (watching s) (stoppers s) (hooks s)).
(** The observer's section after it saw the exit, or could not. *)
Definition observeAndReap (exited : bool) (r : reap_result) (s : ownedChildState) : ownedChildState :=
  if reaped s then s
  else if exited then reapLocked r s
  else closeDoneLocked (set_waitErr (Some (CS ErrProcessObservation)) s).
(** What the hooks answer inside a section: [observeExit(true)] fails,
    [signalGroup] fails, the result of a reap. *)
Record answers := mkAnswers { an_probe : bool; an_signal : bool; an_reap : reap_result }.
Definition signalOrReap (k : nat) (sig : processSignal) (a : answers) (s : ownedChildState) : ownedChildState * option csentinel :=
  if reaped s then (s, None) else
  let s := log_hook (HProbe (os s)) s in
  if an_probe a then (s, Some ErrProcessObservation)
  else if bool_decide (os s = Exited) then (reapLocked (an_reap a) s, None)
  else
    let s := log_hook (HSignal k sig (os s)) s in
    (s, if an_signal a then Some ErrProcessSignal else None).
Definition observeAndReapNonblocking (a : answers) (s : ownedChildState) : ownedChildState * option csentinel :=
  if reaped s then (s, None) else
  let s := log_hook (HProbe (os s)) s in
  if an_probe a then (s, Some ErrProcessObservation)
  else if bool_decide (os s = Exited) then (reapLocked (an_reap a) s, None) else (s, None).
Definition close_stdin (s : ownedChildState) : ownedChildState :=
  mkOwned (oc_identity s) (os s) (reaped s) (waitErr s) (cleanupErr s) (dones s) (if Nat.eqb (stdins s) 0 then 1%nat else stdins s)
          (watching s) (stoppers s) (hooks s).

(** ** Stopping *)

(** One action of [stopOwnedChild]; [early]: the [select] of a sleep takes the end
    of the context when it can. *)
Definition stop_step (k : nat) (x : stopper) (early : bool) (a : answers) (s : ownedChildState) : ownedChildState * spoint :=
  let finished := SDone (cleanupErr s) in
  match sp_at x with
  | SStart foreign =>
      (s, if foreign then SDone (Some ErrForeignChild)
          else if reaped s then finished
          else if (pi_PID (oc_identity s) <=? 1) || (pi_PGID (oc_identity s) <=? 1) then SDone (Some ErrInvalidCurrentProcess)
          else SClose)
  | SClose => (close_stdin s, SWait processSignalTerminate)
  | SWait sig => (s, if reaped s then finished else if sp_grace x <=? 0 then SContext sig else SSelect sig)
  | SSelect sig => (s, SLook sig)
  | SLook sig => (s, if reaped s then finished else SContext sig)
  | SContext sig => (s, match sp_ctx x with Some e => SDone (Some e) | None => SSignal sig end)
  | SSignal sig =>
      match signalOrReap k sig a s with
      | (s, Some e) => (s, SDone (Some e))
      | (s, None) => (s, match sig with processSignalTerminate => SWait processSignalKill | processSignalKill => SKilled end)
      end
  | SKilled => (s, if reaped s then finished else SPoll)
  | SPoll =>
      match observeAndReapNonblocking a s with
      | (s, Some e) => (s, SDone (Some e))
      | (s, None) => (s, SPolled)
      end
  | SPolled => (s, if reaped s then finished else SSleep)
  | SSleep => (s, match sp_ctx x with Some e => if early then SDone (Some e) else SPoll | None => SPoll end)
  | SDone r => (s, SDone r)
  end.
Definition stop_turn (k : nat) (early : bool) (a : answers) (s : ownedChildState) : ownedChildState :=
  match stoppers s !! k with
  | None => s
  | Some x =>
      let '(s', p) := stop_step k x early a s in
      set_stoppers (<[k := mkStopper (sp_ctx x) (sp_grace x) p]> (stoppers s')) s'
  end.

(** ** Moves *)

Inductive move :=
| MExit                                                          (* the process ends *)
| MObserve (saw : bool)                                          (* [observeExit(false)] returns: the exit, or not *)
| MObserved (r : reap_result)
| MStop (foreign : bool) (ctx : option csentinel) (grace : Z)    (* a call of [StopCurrent] *)
| MStopTurn (k : nat) (early : bool) (a : answers)
| MCancel (k : nat) (e : csentinel).
Definition move_step (s : ownedChildState) (m : move) : ownedChildState :=
  match m with
  | MExit => if bool_decide (os s = Alive) then set_os Exited s else s
  | MObserve saw =>
      match watching s with
      | OWaiting => if saw && bool_decide (os s = Alive) then s else set_watching (OSaw saw) (log_hook (HObserve (os s)) s)
      | _ => s
      end
  | MObserved r => match watching s with OSaw exited => observeAndReap exited r (set_watching OEnded s) | _ => s end
  | MStop foreign ctx grace => set_stoppers (stoppers s ++ [mkStopper ctx grace (SStart foreign)]) s
  | MStopTurn k early a => stop_turn k early a s
  | MCancel k e =>
      set_stoppers (alter (fun x => mkStopper (Some (default e (sp_ctx x))) (sp_grace x) (sp_at x)) k (stoppers s)) s
  end.
Definition moves (s : ownedChildState) (l : list move) : ownedChildState := foldl move_step s l.
(** [WaitErr] once [Done] is closed. *)
Definition WaitErr (s : ownedChildState) : option (option cerror) := if Nat.eqb (dones s) 0 then None else Some (waitErr s).

(** ** The invariant *)

(** A hook under the lock touched a process that was still this one; a reap did not
    block.  The observer may look at any time. *)
Definition sound_hook (h : hook) : Prop :=
  match h with HObserve _ => True | HProbe p | HSignal _ _ p => p <> Gone | HReap p => p = Exited end.
Definition is_reap (h : hook) : bool := match h with HReap _ => true | _ => false end.
Definition reaps (l : list hook) : nat := length (List.filter is_reap l).
Definition is_look (h : hook) : bool := match h with HObserve _ => true | _ => false end.
Definition looks (l : list hook) : nat := length (List.filter is_look l).
(** The signals of one stop, in order. *)
Definition signals_of (k : nat) (l : list hook) : list processSignal :=
  omap (fun h => match h with HSignal j sig _ => if Nat.eqb j k then Some sig else None | _ => None end) l.
#[local] Arguments reaps : simpl never.
#[local] Arguments looks : simpl never.
#[local] Arguments signals_of : simpl never.
(** What a stop may have sent when it is at a point. *)
Definition sent_by (r : bool) (p : spoint) (l : list processSignal) : Prop :=
  match p with
  | SStart _ | SClose => l = []
  | SWait processSignalTerminate | SSelect processSignalTerminate | SLook processSignalTerminate
  | SContext processSignalTerminate | SSignal processSignalTerminate => l = []
  | SWait processSignalKill | SSelect processSignalKill | SLook processSignalKill
  | SContext processSignalKill | SSignal processSignalKill => l = [processSignalTerminate] \/ l = [] /\ r = true
  | _ => l `prefix_of` [processSignalTerminate; processSignalKill]
  end.
Definition ended_well (s : ownedChildState) (p : spoint) : Prop :=
  match p with SDone None => reaped s = true /\ cleanupErr s = None | _ => True end.
Record core (s : ownedChildState) : Prop := {
  co_gone : reaped s = true <-> os s = Gone;
  co_hooks : Forall sound_hook (hooks s);
  co_reaps : reaps (hooks s) = if reaped s then 1%nat else 0%nat;
  co_dones : (dones s <= 1)%nat;
  co_stdins : (stdins s <= 1)%nat;
  co_saw : match watching s with OSaw true => os s <> Alive | _ => True end }.
Record owned_inv (s : ownedChildState) : Prop := {
  ov_core : core s;
  ov_stopped : forall k x, stoppers s !! k = Some x -> ended_well s (sp_at x);
  ov_signals : forall k x, stoppers s !! k = Some x -> sent_by (reaped s) (sp_at x) (signals_of k (hooks s));
  ov_own : forall k, (length (stoppers s) <= k)%nat -> signals_of k (hooks s) = [] }.

Lemma newOwnedChild_inv i : owned_inv (newOwnedChild i).
Proof. split; [split; cbn; try done; try constructor; try lia|done..]. Qed.

Lemma reaps_snoc l h : reaps (l ++ [h]) = (reaps l + if is_reap h then 1 else 0)%nat.
Proof. unfold reaps. rewrite List.filter_app, length_app. cbn. by destruct (is_reap h). Qed.
Lemma signals_of_snoc k l h : signals_of k (l ++ [h]) = signals_of k l ++ signals_of k [h].
Proof. apply omap_app. Qed.

(** ** Critical sections

    [section s s' sent]: a section that sent these signals keeps the invariant of
    the process, touches no goroutine, and leaves a reaped child as it is. *)
Record section (s s' : ownedChildState) (k : nat) (sent : list processSignal) : Prop := {
  se_core : core s -> core s';
  se_stoppers : stoppers s' = stoppers s;
  se_watching : watching s' = watching s;
  se_os : os s <> Alive -> os s' <> Alive;
  se_reaped : reaped s = true -> reaped s' = true /\ cleanupErr s' = cleanupErr s;
  se_signals : forall j, signals_of j (hooks s') = signals_of j (hooks s) ++ if Nat.eqb k j then sent else [] }.
Lemma not_reaped s : core s -> reaped s = false -> os s <> Gone.
Proof. intros C R E. apply (co_gone s C) in E. congruence. Qed.
Lemma section_refl s k : section s s k [].
Proof. split; try done. intros j. by destruct (Nat.eqb k j); rewrite app_nil_r. Qed.
Lemma log_hook_core s h : core s -> is_reap h = false -> sound_hook h -> core (log_hook h s).
Proof.
  intros [] H1 H2. split; cbn; try done.
  - apply Forall_app. split; [done|by constructor].
  - rewrite reaps_snoc, H1, co_reaps0. lia.
Qed.
Lemma closeDone_core s : core s -> core (closeDoneLocked s).
Proof. intros []. split; cbn; try done. destruct (Nat.eqb _ _); lia. Qed.
Lemma reapLocked_section s r k : os s = Exited -> section s (reapLocked r s) k [].
Proof.
  intros E. unfold reapLocked. destruct (reaped s) eqn:R; [apply section_refl|]. split; cbn; try done.
  - intros C. apply closeDone_core. destruct C as [C1 C2 C3 C4 C5 C6]. split; cbn; try done.
    + apply Forall_app. split; [done|by constructor].
    + rewrite reaps_snoc, C3, R. done.
    + destruct (watching s) as [|[]|]; done || congruence.
  - congruence.
  - intros j. rewrite signals_of_snoc. by destruct (Nat.eqb k j).
Qed.
Lemma section_trans s1 s2 s3 k l1 l2 : section s1 s2 k l1 -> section s2 s3 k l2 -> section s1 s3 k (l1 ++ l2).
Proof.
  intros [A1 A2 A3 A4 A5 A6] [B1 B2 B3 B4 B5 B6]. split; try congruence; auto.
  - intros R. destruct (A5 R) as [R' ?], (B5 R'). split; congruence.
  - intros j. rewrite B6, A6, <- app_assoc. by destruct (Nat.eqb k j).
Qed.
Lemma probe_section s k : core s -> reaped s = false -> section s (log_hook (HProbe (os s)) s) k [].
Proof.
  intros C R. split; cbn; try done.
  - intros _. apply log_hook_core; [done|done|]. by apply not_reaped.
  - intros j. rewrite signals_of_snoc. by destruct (Nat.eqb k j).
Qed.
Lemma signal_section s k sig : core s -> reaped s = false -> section s (log_hook (HSignal k sig (os s)) s) k [sig].
Proof.
  intros C R. split; cbn; try done.
  - intros _. apply log_hook_core; [done|done|]. by apply not_reaped.
  - intros j. rewrite signals_of_snoc. unfold signals_of at 2. cbn. by destruct (Nat.eqb k j).
Qed.
Lemma observeNonblocking_section k a s : core s -> section s (observeAndReapNonblocking a s).1 k [].
Proof.
  intros C. unfold observeAndReapNonblocking. destruct (reaped s) eqn:R; [apply section_refl|]. cbn.
  destruct (an_probe a); [by apply probe_section|]. case_bool_decide as E; [|by apply probe_section].
  apply (section_trans s (log_hook (HProbe (os s)) s) _ k [] []); [by apply probe_section|by apply reapLocked_section].
Qed.
(** The signal is sent, or it need not be. *)
Lemma signalOrReap_section k sig a s : core s ->
  exists sent, section s (signalOrReap k sig a s).1 k sent
  /\ (sent = [sig] \/ sent = [] /\ ((signalOrReap k sig a s).2 = None -> reaped (signalOrReap k sig a s).1 = true)).
Proof.
  intros C. unfold signalOrReap. destruct (reaped s) eqn:R; [exists []; split; [apply section_refl|auto]|]. cbn.
  assert (P := probe_section s k C R).
  destruct (an_probe a); [exists []; split; [done|by right]|]. case_bool_decide as E.
  - exists []. split; [|right; split; [done|intros _; unfold reapLocked; cbn; by rewrite R]].
    apply (section_trans s (log_hook (HProbe (os s)) s) _ k [] []); [done|by apply reapLocked_section].
  - exists [sig]. split; [|by left].
    apply (section_trans s (log_hook (HProbe (os s)) s) _ k [] [sig]); [done|].
    apply (signal_section (log_hook (HProbe (os s)) s)); [by apply P|done].
Qed.
Lemma observeAndReap_section exited r s k : core s -> (exited = true -> os s <> Alive) -> section s (observeAndReap exited r s) k [].
Proof.
  intros C H. unfold observeAndReap. destruct (reaped s) eqn:R; [apply section_refl|]. destruct exited.
  - apply reapLocked_section. specialize (H eq_refl). apply not_reaped in R; [|done]. by destruct (os s).
  - split; cbn; try done.
    + intros _. apply closeDone_core. by destruct C.
    + intros j. by destruct (Nat.eqb k j); rewrite app_nil_r.
Qed.
Lemma close_stdin_section s k : section s (close_stdin s) k [].
Proof.
  split; cbn; try done.
  - intros []. split; cbn; try done. destruct (Nat.eqb _ _); lia.
  - intros j. by destruct (Nat.eqb k j); rewrite app_nil_r.
Qed.

(** ** Stops *)

Definition killed : list processSignal := [processSignalTerminate; processSignalKill].
Lemma sent_done r r' p l q : sent_by r p l -> (r = true -> r' = true) -> sent_by r' (SDone q) l.
Proof.
  intros H _. change (l `prefix_of` killed).
  assert (A : [] `prefix_of` killed) by apply prefix_nil.
  assert (B : [processSignalTerminate] `prefix_of` killed) by by exists [processSignalKill].
  destruct p as [| |[]|[]|[]|[]|[]| | | | |]; cbn in H; subst; try done; by destruct H as [->|[-> _]].
Qed.
Lemma sent_mono r r' p l : sent_by r p l -> (r = true -> r' = true) -> sent_by r' p l.
Proof. intros H I. destruct p as [| |[]|[]|[]|[]|[]| | | | |]; cbn in *; try done; destruct H as [->|[-> R]]; auto. Qed.
Definition stop_result (k : nat) (l : list processSignal) (s s' : ownedChildState) (p : spoint) : Prop :=
  exists sent, section s s' k sent /\ sent_by (reaped s') p (l ++ sent) /\ ended_well s' p.
Lemma stop_still k l s p : sent_by (reaped s) p l -> ended_well s p -> stop_result k l s s p.
Proof. exists []. rewrite app_nil_r. split; [apply section_refl|done]. Qed.
Lemma finished_well s : reaped s = true -> ended_well s (SDone (cleanupErr s)).
Proof. intros R. cbn. by destruct (cleanupErr s) eqn:E. Qed.
(** What one action of a stop does. *)
Lemma stop_step_spec k x early a s : core s -> sent_by (reaped s) (sp_at x) (signals_of k (hooks s)) -> ended_well s (sp_at x) ->
  stop_result k (signals_of k (hooks s)) s (stop_step k x early a s).1 (stop_step k x early a s).2.
Proof.
  intros C H W.
  assert (D : forall q, sent_by (reaped s) (SDone q) (signals_of k (hooks s))) by (intros q; by eapply sent_done).
  unfold stop_step. destruct (sp_at x) as [f| |[]|[]|[]|[]|[]| | | | |q] eqn:P; cbn [fst snd].
  all: try solve [apply stop_still; repeat case_match; first [exact (D None) | apply D | by apply finished_well | done]].
  - exists []. split; [apply close_stdin_section|]. rewrite app_nil_r. done.
  - destruct (signalOrReap_section k processSignalTerminate a s C) as (sent & S & Hs). exists sent. cbn in H. rewrite H.
    destruct (signalOrReap k processSignalTerminate a s) as [s' [e|]]; cbn in *; (split; [done|]); split; try done;
      destruct Hs as [->|[-> Hs]]; cbn; auto using prefix_nil. by exists [processSignalKill].
  - destruct (signalOrReap_section k processSignalKill a s C) as (sent & S & Hs). exists sent. cbn in H.
    assert (B : signals_of k (hooks s) ++ sent `prefix_of` killed).
    { destruct Hs as [->|[-> _]]; [|by rewrite app_nil_r; apply (D None)]. destruct H as [->|[-> R]]; [done|].
      exfalso. assert (E := se_signals _ _ _ _ S k). unfold signalOrReap in E. rewrite R, Nat.eqb_refl in E.
      apply (f_equal length) in E. rewrite length_app in E. cbn in E. lia. }
    destruct (signalOrReap k processSignalKill a s) as [s' [e|]]; done.
  - assert (S := observeNonblocking_section k a s C). exists []. rewrite app_nil_r.
    destruct (observeAndReapNonblocking a s) as [s' [e|]]; (split; [done|]); split; try done; exact (D None).
Qed.

(** ** Every move *)

Lemma ended_mono s s' p : (reaped s = true -> reaped s' = true /\ cleanupErr s' = cleanupErr s) -> ended_well s p -> ended_well s' p.
Proof. intros H. destruct p as [| | | | | | | | | | |[]]; try done. cbn. intros [R E]. destruct (H R) as [-> ->]. done. Qed.
(** A section of goroutine [k], which moves on to [p]. *)
Lemma section_inv s s' k x p sent : owned_inv s -> stoppers s !! k = Some x -> section s s' k sent ->
  sent_by (reaped s') p (signals_of k (hooks s) ++ sent) -> ended_well s' p ->
  owned_inv (set_stoppers (<[k := mkStopper (sp_ctx x) (sp_grace x) p]> (stoppers s')) s').
Proof.
  intros [C W H O] E S Hp Wp. assert (R := se_reaped _ _ _ _ S). destruct S as [S1 S2 S3 S4 S5 S6].
  split; cbn [stoppers hooks set_stoppers reaped].
  - destruct (S1 C). by split.
  - intros j y. rewrite S2. intros [(<- & <- & _)|[Hj Hy]]%list_lookup_insert_Some; [done|].
    eapply ended_mono; [exact R|]. by apply (W j).
  - intros j y. rewrite S2, S6. intros [(<- & <- & _)|[Hj Hy]]%list_lookup_insert_Some; [by rewrite Nat.eqb_refl|].
    replace (Nat.eqb k j) with false by (symmetry; by apply Nat.eqb_neq). rewrite app_nil_r.
    eapply sent_mono; [by apply H|]. intros Hr. by apply R.
  - intros j Hj. rewrite length_insert, S2 in Hj. rewrite S6, O by done. apply lookup_lt_Some in E.
    replace (Nat.eqb k j) with false by (symmetry; apply Nat.eqb_neq; lia). done.
Qed.
Lemma stop_turn_inv s k early a : owned_inv s -> owned_inv (stop_turn k early a s).
Proof.
  intros I. unfold stop_turn. destruct (stoppers s !! k) as [x|] eqn:E; [|done].
  destruct (stop_step_spec k x early a s) as (sent & S & Hp & Wp); [by apply I|by apply I|by apply (ov_stopped s I k)|].
  destruct (stop_step k x early a s) as [s' p]. by eapply section_inv.
Qed.
(** Nothing of a stop but its context changes. *)
Definition same_points (l l' : list stopper) : Prop := (forall k x, l' !! k = Some x -> exists y, l !! k = Some y /\ sp_at y = sp_at x) /\ length l' = length l.
Lemma owned_inv_change s s' : owned_inv s -> core s' -> same_points (stoppers s) (stoppers s') -> hooks s' = hooks s ->
  reaped s' = reaped s -> cleanupErr s' = cleanupErr s -> owned_inv s'.
Proof.
  intros [C W H O] C' [P L] Eh Er Ec. split; [done|..].
  - intros k x E. destruct (P k x E) as (y & Ey & <-). eapply ended_mono; [|by apply (W k)]. rewrite Er, Ec. done.
  - intros k x E. destruct (P k x E) as (y & Ey & <-). rewrite Er, Eh. by apply H.
  - intros k. rewrite L, Eh. apply O.
Qed.
Lemma same_points_refl l : same_points l l.
Proof. split; [eauto|done]. Qed.
Lemma observed_inv s exited r : owned_inv s -> watching s = OSaw exited -> owned_inv (observeAndReap exited r (set_watching OEnded s)).
Proof.
  intros I E.
  assert (I' : owned_inv (set_watching OEnded s)).
  { apply (owned_inv_change s); try done; [|apply same_points_refl]. destruct (ov_core s I). by split. }
  destruct (observeAndReap_section exited r (set_watching OEnded s) (length (stoppers s))) as [S1 S2 _ _ S5 S6].
  { by apply I'. }
  { intros ->. assert (H := co_saw s (ov_core s I)). by rewrite E in H. }
  destruct I' as [C W H O]. split; [by apply S1|..].
  - intros k x. rewrite S2. intros Hk. eapply ended_mono; [exact S5|]. by apply (W k).
  - intros k x. rewrite S2. intros Hk. rewrite S6, Tauto.if_same, app_nil_r. eapply sent_mono; [by apply H|]. intros R. by apply S5.
  - intros k. rewrite S2, S6, Tauto.if_same, app_nil_r. apply O.
Qed.
Lemma look_inv s : owned_inv s -> owned_inv (log_hook (HObserve (os s)) s).
Proof.
  intros [C W H O]. split; cbn; [by apply log_hook_core|done| |].
  - intros k x E. rewrite signals_of_snoc. unfold signals_of at 2. cbn. rewrite app_nil_r. by apply H.
  - intros k Hk. rewrite signals_of_snoc. unfold signals_of at 2. cbn. rewrite app_nil_r. by apply O.
Qed.
Lemma owned_step_inv s m : owned_inv s -> owned_inv (move_step s m).
Proof.
  intros I. destruct m as [|saw|r|foreign ctx grace|k early a|k e]; cbn [move_step].
  - case_bool_decide as E; [|done]. apply (owned_inv_change s); try done; [|apply same_points_refl].
    destruct (ov_core s I) as [C1 C2 C3 C4 C5 C6]. split; try done.
    + cbn. split; [|done]. intros R. apply C1 in R. congruence.
    + cbn. by destruct (watching s) as [|[]|].
  - destruct (watching s) eqn:E; try done. destruct (ov_core s I) as [C1 C2 C3 C4 C5 C6].
    destruct (saw && bool_decide (os s = Alive)) eqn:X; [done|]. destruct (log_hook_core s (HObserve (os s)) (ov_core s I) eq_refl Logic.I).
    apply (owned_inv_change (log_hook (HObserve (os s)) s)); try done; [by apply look_inv| |apply same_points_refl].
    split; cbn in *; try done. destruct saw; [|done]. cbn in X. by apply bool_decide_eq_false in X.
  - destruct (watching s) as [|exited|] eqn:E; try done. by apply observed_inv.
  - destruct I as [C W H O]. split; cbn.
    + destruct C. by split.
    + intros k x [Hk|[_ Hk]]%lookup_app_Some; [by eapply W|].
      apply list_lookup_singleton_Some in Hk as [_ <-]. done.
    + intros k x [Hk|[Hl Hk]]%lookup_app_Some; [by apply H|].
      apply list_lookup_singleton_Some in Hk as [_ <-]. by apply O.
    + intros k Hk. apply O. rewrite length_app in Hk. cbn in Hk. lia.
  - by apply stop_turn_inv.
  - apply (owned_inv_change s); try done; [destruct (ov_core s I); by split|]. split; [|cbn; apply length_alter].
    intros j x. cbn. destruct (decide (j = k)) as [->|N].
    + rewrite list_lookup_alter_eq. intros (y & Hy & ->)%fmap_Some. by exists y.
    + rewrite list_lookup_alter_ne by done. eauto.
Qed.
Lemma owned_moves_inv i l : owned_inv (moves (newOwnedChild i) l).
Proof.
  unfold moves. assert (H := newOwnedChild_inv i). revert H. generalize (newOwnedChild i). induction l as [|m l IH]; intros s H; [done|].
  apply IH. by apply owned_step_inv.
Qed.

(** The observer looks once. *)
Lemma section_looks s s' k x early a : stop_step k x early a s = s' -> looks (hooks s'.1) = looks (hooks s).
Proof.
  assert (L : forall l h, is_look h = false -> looks (l ++ [h]) = looks l).
  { intros l h E. unfold looks. rewrite List.filter_app, length_app. cbn. rewrite E. cbn. lia. }
  assert (R : forall r t, looks (hooks (reapLocked r t)) = looks (hooks t)).
  { intros r t. unfold reapLocked. destruct (reaped t); [done|]. cbn. by rewrite L. }
  intros <-. unfold stop_step. destruct (sp_at x); try done; cbn [fst hooks close_stdin].
  - unfold signalOrReap. destruct (reaped s); [by destruct s0|]. destruct (an_probe a); [cbn; by rewrite L|].
    case_bool_decide; [|destruct (an_signal a)]; destruct s0; cbn [fst]; rewrite ?R; cbn; by rewrite ?L.
  - unfold observeAndReapNonblocking. destruct (reaped s); [done|]. destruct (an_probe a); [cbn; by rewrite L|].
    case_bool_decide; cbn [fst]; rewrite ?R; cbn; by rewrite L.
Qed.
Definition looked (s : ownedChildState) : Prop := looks (hooks s) = match watching s with OWaiting => 0%nat | _ => 1%nat end.
Lemma looks_snoc l h : looks (l ++ [h]) = (looks l + if is_look h then 1 else 0)%nat.
Proof. unfold looks. rewrite List.filter_app, length_app. cbn. by destruct (is_look h). Qed.
Lemma stop_step_watching k x early a s : watching (stop_step k x early a s).1 = watching s.
Proof.
  unfold stop_step, signalOrReap, observeAndReapNonblocking, reapLocked. destruct (sp_at x); try done; repeat case_match; simplify_eq/=; done.
Qed.
Lemma looked_step s m : looked s -> looked (move_step s m).
Proof.
  unfold looked. intros L. destruct m as [|saw|r|foreign ctx grace|k early a|k e]; cbn [move_step]; try done.
  - by case_bool_decide.
  - destruct (watching s) eqn:E; [|by rewrite E..]. destruct (_ && _); [by rewrite E|]. cbn. rewrite looks_snoc, L. done.
  - destruct (watching s) as [|exited|] eqn:E; [by rewrite E| |by rewrite E]. unfold observeAndReap, reapLocked.
    destruct (reaped (set_watching OEnded s)) eqn:R; [done|]. destruct exited; [|done]. cbn. rewrite looks_snoc, L. cbn. lia.
  - unfold stop_turn. destruct (stoppers s !! k) as [x|]; [|done]. pose proof (section_looks s _ k x early a eq_refl) as Lk. pose proof (stop_step_watching k x early a s) as Wk.
    destruct (stop_step k x early a s) as [s' p]. cbn in *. by rewrite Lk, Wk.
Qed.
Lemma looked_moves i l : looked (moves (newOwnedChild i) l).
Proof.
  unfold moves. assert (H : looked (newOwnedChild i)) by done. revert H. generalize (newOwnedChild i). induction l as [|m l IH]; intros s H; [done|].
  apply IH. by apply looked_step.
Qed.
(** All but the observer and the log. *)
Definition same_child (s s' : ownedChildState) : Prop :=
  os s' = os s /\ reaped s' = reaped s /\ waitErr s' = waitErr s /\ cleanupErr s' = cleanupErr s /\ dones s' = dones s /\ stdins s' = stdins s
  /\ stoppers s' = stoppers s /\ exists l, hooks s' = hooks s ++ l /\ Forall (fun h => is_look h = true) l.
Lemma look_changes_nothing s saw : same_child s (move_step s (MObserve saw)).
Proof.
  unfold same_child. cbn [move_step]. destruct (watching s); [destruct (_ && _)|..].
  all: split_and!; try done; first [exists []; rewrite app_nil_r; split; [done|by constructor] | eexists; split; [reflexivity|by repeat constructor]].
Qed.
Lemma late_look_changes_nothing s r : reaped s = true -> same_child s (move_step s (MObserved r)).
Proof.
  intros R. unfold same_child. cbn [move_step]. destruct (watching s); try unfold observeAndReap; cbn [reaped set_watching]; rewrite ?R.
  all: split_and!; try done; exists []; rewrite app_nil_r; (split; [done|by constructor]).
Qed.

(** C31: whatever the goroutines and the system do, a process id is probed, signalled
    and reaped only while it is the child's, and reaped once and only when the child
    has exited, so that the reap cannot block under the lock; each stop escalates at
    most from termination to kill; and one that reports success leaves no process
    and no failure of the reap behind.  Only the observer, once, looks at the process
    id without the lock: its look changes nothing, and when it comes after the child
    was reaped what follows from it changes nothing either, whatever it saw. *)
Theorem signals_only_its_own (i : ProcessIdentity) (l : list move) :
  let s := moves (newOwnedChild i) l in
  Forall sound_hook (hooks s) /\ (reaps (hooks s) <= 1)%nat /\ (dones s <= 1)%nat /\ (stdins s <= 1)%nat
  /\ (forall k, signals_of k (hooks s) `prefix_of` [processSignalTerminate; processSignalKill])
  /\ (forall k x, stoppers s !! k = Some x -> sp_at x = SDone None -> os s = Gone /\ reaps (hooks s) = 1%nat /\ cleanupErr s = None)
  /\ (looks (hooks s) <= 1)%nat /\ (forall saw, same_child s (move_step s (MObserve saw)))
  /\ (os s = Gone -> forall r, same_child s (move_step s (MObserved r))).
Proof.
  intros s. destruct (owned_moves_inv i l : owned_inv s) as [[C1 C2 C3 C4 C5 C6] W H O].
  split; [done|]. split; [rewrite C3; destruct (reaped s); lia|]. split; [done|]. split; [done|]. split; [|split; [|split; [|split]]].
  - intros k. destruct (stoppers s !! k) as [x|] eqn:E.
    + by apply (sent_done (reaped s) (reaped s) (sp_at x) _ None (H k x E)).
    + rewrite O by by apply lookup_ge_None. apply prefix_nil.
  - intros k x E P. specialize (W k x E). rewrite P in W. destruct W as [R F]. rewrite C3, R. split_and!; [by apply C1|done|done].
  - pose proof (looked_moves i l) as L. unfold looked in L. fold s in L. rewrite L. destruct (watching s); lia.
  - apply look_changes_nothing.
  - intros G r. apply late_look_changes_nothing. by apply C1.
Qed.

(** ** A stop ends *)

(** An upper bound of the own turns a stop has left once its process has exited. *)
Definition turns_left (s : ownedChildState) (p : spoint) : nat :=
  match p with
  | SStart _ => 17 | SClose => 16
  | SWait processSignalTerminate => 15 | SSelect processSignalTerminate => 14 | SLook processSignalTerminate => 13
  | SContext processSignalTerminate => 12 | SSignal processSignalTerminate => 11
  | SWait processSignalKill => 10 | SSelect processSignalKill => 9 | SLook processSignalKill => 8
  | SContext processSignalKill => 7 | SSignal processSignalKill => 6
  | SKilled => 5
  | SPolled => if reaped s then 1 else 4
  | SSleep => 3 | SPoll => 2
  | SDone _ => 0
  end%nat.
Definition left_of (s : ownedChildState) (k : nat) : nat := match stoppers s !! k with Some x => turns_left s (sp_at x) | None => 0%nat end.
Lemma polled_reaped a s : core s -> os s <> Alive -> (observeAndReapNonblocking a s).2 = None -> reaped (observeAndReapNonblocking a s).1 = true.
Proof.
  intros C E. unfold observeAndReapNonblocking. destruct (reaped s) eqn:R; [done|]. cbn. destruct (an_probe a); [done|].
  case_bool_decide as X; [intros _; unfold reapLocked; cbn; by rewrite R|].
  apply not_reaped in R; [|done]. by destruct (os s).
Qed.
Lemma stop_step_progress k x early a s : core s -> os s <> Alive ->
  (turns_left (stop_step k x early a s).1 (stop_step k x early a s).2 <= turns_left s (sp_at x) - 1)%nat.
Proof.
  intros C E. unfold stop_step. destruct (sp_at x) as [f| |[]|[]|[]|[]|[]| | | | |q]; cbn [fst snd].
  all: try solve [repeat case_match; cbn; lia].
  2: { cbn. destruct (reaped s); cbn; lia. }
  assert (P := polled_reaped a s C E). destruct (observeAndReapNonblocking a s) as [s' [e|]]; cbn in *; [lia|]. rewrite P by done. lia.
Qed.
(** A move never brings a process back, nor gives a stop more turns. *)
Lemma move_keeps_exit s m : owned_inv s -> os s <> Alive -> os (move_step s m) <> Alive.
Proof.
  intros I E. destruct m as [|saw|r|foreign ctx grace|k early a|k e]; cbn [move_step]; try done.
  - by case_bool_decide.
  - repeat case_match; done.
  - destruct (watching s) as [|exited|] eqn:X; try done.
    apply (observeAndReap_section exited r (set_watching OEnded s) 0); [destruct (ov_core s I); by split|by intros _|done].
  - unfold stop_turn. destruct (stoppers s !! k) as [x|] eqn:X; [|done].
    destruct (stop_step_spec k x early a s) as (sent & S & _); [by apply I|by apply I|by apply (ov_stopped s I k)|].
    destruct (stop_step k x early a s) as [s' p]. by apply S.
Qed.
Lemma turns_left_mono s s' p : (reaped s = true -> reaped s' = true) -> (turns_left s' p <= turns_left s p)%nat.
Proof. intros H. destruct p; cbn; try lia. destruct (reaped s); [rewrite H by done; lia|]. destruct (reaped s'); lia. Qed.
Lemma move_left s m k : owned_inv s -> os s <> Alive -> is_Some (stoppers s !! k) ->
  is_Some (stoppers (move_step s m) !! k) /\
  (left_of (move_step s m) k <= left_of s k - match m with MStopTurn j _ _ => if Nat.eqb j k then 1 else 0 | _ => 0 end)%nat.
Proof.
  intros I E [x Hx]. unfold left_of. rewrite Hx.
  assert (keep : forall s', stoppers s' = stoppers s -> (reaped s = true -> reaped s' = true) ->
    is_Some (stoppers s' !! k) /\ (match stoppers s' !! k with Some x => turns_left s' (sp_at x) | None => 0 end <= turns_left s (sp_at x) - 0)%nat).
  { intros s' -> R. rewrite Hx. split; [done|]. assert (H := turns_left_mono s s' (sp_at x) R). lia. }
  destruct m as [|saw|r|foreign ctx grace|j early a|j e]; cbn [move_step].
  - apply keep; by case_bool_decide.
  - apply keep; repeat case_match; done.
  - destruct (watching s) as [|exited|] eqn:X; try by apply keep.
    destruct (observeAndReap_section exited r (set_watching OEnded s) 0) as [_ S2 _ _ S5 _];
      [destruct (ov_core s I); by split|by intros _|]. apply keep; [exact S2|]. intros R. by apply S5.
  - cbn. rewrite lookup_app_l by by eapply lookup_lt_Some. rewrite Hx. split; [done|].
    rewrite Nat.sub_0_r. by apply turns_left_mono.
  - unfold stop_turn. destruct (stoppers s !! j) as [y|] eqn:Y; [|destruct (Nat.eqb_spec j k) as [->|]; [congruence|by apply keep]].
    destruct (stop_step_spec j y early a s) as (sent & S & _); [by apply I|by apply I|by apply (ov_stopped s I j)|].
    assert (P := stop_step_progress j y early a s (ov_core s I) E). destruct (stop_step j y early a s) as [s' p].
    destruct S as [_ S2 _ _ S5 _]. cbn in *. rewrite S2. destruct (Nat.eqb_spec j k) as [->|N].
    + rewrite list_lookup_insert_eq by by eapply lookup_lt_Some. replace y with x in * by congruence. split; [done|]. exact P.
    + rewrite list_lookup_insert_ne, Hx by done. split; [done|]. 
      rewrite Nat.sub_0_r. apply turns_left_mono. intros R. by apply S5.
  - cbn. destruct (decide (k = j)) as [->|N]; [rewrite list_lookup_alter_eq|rewrite list_lookup_alter_ne by done]; rewrite Hx;
      (split; [done|]); rewrite Nat.sub_0_r; by apply turns_left_mono.
Qed.
Definition own_turns (k : nat) (l : list move) : nat :=
  length (List.filter (fun m => match m with MStopTurn j _ _ => Nat.eqb j k | _ => false end) l).
Definition has_ended (s : ownedChildState) (k : nat) : Prop := exists x r, stoppers s !! k = Some x /\ sp_at x = SDone r.
Lemma ended_of_left s k : is_Some (stoppers s !! k) -> left_of s k = 0%nat -> has_ended s k.
Proof.
  intros [x E]. unfold left_of. rewrite E. destruct (sp_at x) as [| |[]|[]|[]|[]|[]| | | | |r] eqn:P; cbn; try lia; [by destruct (reaped s)|].
  by exists x, r.
Qed.
Lemma moves_left l s k : owned_inv s -> os s <> Alive -> is_Some (stoppers s !! k) -> (left_of s k <= own_turns k l)%nat ->
  has_ended (moves s l) k.
Proof.
  revert s. induction l as [|m l IH]; intros s I E Hk H; cbn in *.
  - apply ended_of_left; [done|]. unfold own_turns in H. cbn in H. lia.
  - destruct (move_left s m k I E Hk) as [Hk' L]. apply IH; [by apply owned_step_inv|by apply move_keeps_exit|done|].
    unfold own_turns in *. cbn in H. destruct m; try destruct (Nat.eqb _ _); cbn in H; lia.
Qed.

(** Once the process has exited, a stop that runs seventeen times more has
    returned, whatever its hooks answer, however it is interleaved with the
    observer, with other stops and with the ends of contexts. *)
Theorem stop_returns (i : ProcessIdentity) (before after : list move) (k : nat) :
  os (moves (newOwnedChild i) before) <> Alive -> (k < length (stoppers (moves (newOwnedChild i) before)))%nat ->
  (17 <= own_turns k after)%nat ->
  exists x r, stoppers (moves (newOwnedChild i) (before ++ after)) !! k = Some x /\ sp_at x = SDone r.
Proof.
  intros E Hk H. unfold moves. rewrite foldl_app. apply moves_left; [apply owned_moves_inv|done|by apply lookup_lt_is_Some|].
  etrans; [|exact H]. unfold left_of. destruct (stoppers _ !! k) as [x|]; [|lia].
  destruct (sp_at x) as [| |[]|[]|[]|[]|[]| | | | |]; cbn; try case_match; lia.
Qed.
Definition sample_id : ProcessIdentity := {| pi_Generation := "g"; pi_PID := 7; pi_PGID := 7; pi_StartIdentity := "1" |}.
Definition calm : answers := mkAnswers false false (ReapExit "exit status 1").
(** The process ignores the termination signal and ends by the kill; the observer
    sees it first. *)
Lemma stop_returns_witness :
  let before := MStop false None 5 :: replicate 12 (MStopTurn 0 false calm) ++ [MExit; MObserve true] in
  let after := MObserved (ReapExit "signal: killed") :: replicate 17 (MStopTurn 0 false calm) in
  os (moves (newOwnedChild sample_id) before) = Exited
  /\ signals_of 0 (hooks (moves (newOwnedChild sample_id) (before ++ after))) = [processSignalTerminate; processSignalKill]
  /\ has_ended (moves (newOwnedChild sample_id) (before ++ after)) 0.
Proof.
  split; [reflexivity|]. split; [reflexivity|].
  apply (stop_returns sample_id); [vm_compute; discriminate|vm_compute; lia|vm_compute; lia].
Defined.

(** A stop reaps the child first; the observer looks at the process id afterwards,
    and what it takes for an exit reaps nothing again. *)
Definition late_course : list move :=
  MStop false None 0 :: replicate 4 (MStopTurn 0 false calm) ++ [MExit] ++ replicate 2 (MStopTurn 0 false calm) ++ [MObserve true; MObserved ReapOk].
Example late_look : let s := moves (newOwnedChild sample_id) late_course in hooks s = [HProbe Exited; HReap Exited; HObserve Gone] /\ dones s = 1%nat.
Proof. vm_compute. split; reflexivity. Qed.
