(* ===== verification/Supervisor.v ===== *)
(** * The supervisor of the agent's process ([internal/codex/supervisor.go])

    The supervisor starts the process, records it durably before anything is asked
    of it, and records that it stopped only after the stop was proven.  Here its
    methods are procedures on a [system]: the sessions it made and the trace of what
    it did, against an [outside] that answers for the processes, the store and the
    agent, by how often it was asked before. *)
From S2P Require Import Prelude GoStrings Sha256 Json RoomTypes Jsonrpc RpcClient Adapter Process.

(** ** Version policy *)

(** [AllowedCLI] is a set; its order does not matter. *)
Record VersionPolicy := { vp_AllowedCLI : list string; vp_SchemaSHA256 : string }.
Definition DefaultVersionPolicy : VersionPolicy := {| vp_AllowedCLI := [SupportedCLIOutput]; vp_SchemaSHA256 := SupportedSchemaSHA256 |}.
Definition ValidateCLI (p : VersionPolicy) (output : string) : result cerror string :=
  let trimmed := TrimSpace output in
  if one_of trimmed (vp_AllowedCLI p) then Ok trimmed else Err (CRoom ErrUnsupportedCodexVersion).
Definition is_blank_byte (c : ascii) : bool := existsb (Z.eqb (code c)) [32; 9; 13; 10].
(** The version after the prefix, when it is a single word. *)
Definition cli_version (output : string) : option string :=
  let prefix := "codex-cli " in
  if HasPrefix output prefix then
    let v := drop_bytes (String.length prefix) output in
    if String.eqb v "" || negb (str_forallb (fun c => negb (is_blank_byte c)) v) then None else Some v
  else None.
Definition ValidateUserAgent (p : VersionPolicy) (cliOutput userAgent : string) : result cerror unit :=
  let? accepted := ValidateCLI p cliOutput in
  match cli_version accepted with
  | None => Err (CS ErrInvalidVersionPolicy)
  | Some version =>
      if String.eqb (first_field userAgent) ("agent_romm/" +:+ version) then Ok tt else Err (CRoom ErrIncompatibleUserAgent)
  end.
Record Supervisor := { sv_executable : string; sv_policy : VersionPolicy }.
Definition allowed_output (output : string) : bool := has (cli_version output) && String.eqb (TrimSpace output) output.
Definition NewSupervisor (executable : string) (policy : VersionPolicy) (processes : bool) : result cerror Supervisor :=
  if blank executable || negb (String.eqb (TrimSpace executable) executable) then Err (CS ErrInvalidProcessSpec)
  else if negb processes then Err (CS ErrNilProcessManager)
  else if bool_decide (vp_AllowedCLI policy = []) || String.eqb (vp_SchemaSHA256 policy) "" then Err (CS ErrInvalidVersionPolicy)
  else if negb (String.eqb (vp_SchemaSHA256 policy) SupportedSchemaSHA256) then Err (CS ErrUnsupportedSchema)
  else if negb (forallb allowed_output (vp_AllowedCLI policy)) then Err (CS ErrInvalidVersionPolicy)
  else Ok {| sv_executable := executable; sv_policy := policy |}.

(** ** Errors of a session *)

Definition rerr_text (e : rerr) : string :=
  match e with
  | RLineTooLong => "Codex App Server JSONL line exceeds 8 MiB"
  | REmptyLine => "Codex App Server emitted an empty JSONL line"
  | RTruncatedLine => "Codex App Server JSONL line is truncated"
  | RInvalidMessage => "invalid Codex App Server wire message"
  | RInvalidID => "invalid Codex App Server request id"
  | RUnknownResponse => "unknown Codex App Server response id"
  | RDuplicateRequest => "duplicate active Codex App Server request id"
  | RBusy => "Codex App Server reverse request capacity exceeded"
  | RAlreadyRunning => "Codex App Server RPC client is already running"
  | RClosed => "Codex App Server RPC client is closed"
  | RInvalidMethod => "Codex App Server RPC method is empty"
  | RMessageTooLarge => "Codex App Server outbound JSONL line exceeds 8 MiB"
  | RResultDecode => "invalid Codex App Server result"
  | RRemote e => "Codex App Server RPC error " +:+ itoa (re_Code e)
  | RCanceled => csentinel_text Canceled
  | RDeadline => csentinel_text DeadlineExceeded
  | REOF => "EOF"
  | RShort => "short write"
  | RNoProgress => "multiple Read calls return no data or error"
  | RIO t => t
  end.
(** What [observeTerminal] received: the result of [rpc.Run], or of the process. *)
Inductive ending := RpcEnded (e : rerr) | ProcessEnded (e : option cerror).
Definition normalizeSessionFailure (x : ending) : cerror :=
  match x with
  | RpcEnded e =>
      CSession (match e with RCanceled => "rpc-canceled" | REOF => "rpc-eof" | _ => "rpc-failure" end) (sha256_hex (rerr_text e))
  | ProcessEnded e =>
      let code := "process-exit" in CSession code (sha256_hex (match e with Some e => cerror_text e | None => code end))
  end.

(** ** Data *)

#[export] Instance RuntimeCheckpoint_eq_dec : EqDecision RuntimeCheckpoint.
Proof. solve_decision. Defined.
(** Whether each part of the child is there. *)
Record Child := { ch_Identity : ProcessIdentity; ch_Stdin : bool; ch_Stdout : bool; ch_Stderr : bool; ch_Done : bool; ch_WaitErr : bool }.
#[export] Instance Child_eq_dec : EqDecision Child.
Proof. solve_decision. Defined.
(** [discardSupervisorCheckpoint], or the store. *)
Inductive CheckpointSink := DiscardSink | StoreSink.
Record Session := mkSession
  { sn_child : Child; sn_sink : CheckpointSink; sn_checkpoint : RuntimeCheckpoint;
    sn_adapter : bool;                         (* [session.Adapter != nil] *)
    sn_interrupted : bool;                     (* [rpcCloseOnce] ran *)
    sn_cleanup : option (option cerror);       (* [cleanupOnce] ran, with [cleanupErr] *)
    sn_persisted : bool;
    sn_terminal : option cerror }.             (* [terminal] is closed, with [failure] *)
Inductive effect :=
| EfVersion (r : result cerror string)
| EfLaunch (spec : ProcessSpec) (r : result cerror (option Child))
| EfKill (c : option Child) (r : option cerror)               (* [StopCurrent] *)
| EfSink (c : RuntimeCheckpoint) (r : option cerror)
| EfInitialize (k : nat) (r : result error InitializeResult)
| EfCloseAdapter (k : nat)
| EfInterrupt (k : nat)                                       (* cancelled, pipes closed *)
| EfEvent (e : AgentEvent)                                    (* sent on the events of the runtime *)
| EfSleep (delay : Z) (ok : bool)
| EfCloseEvents.

Record outside := {
  ou_cancel : nat -> option csentinel;                        (* the context ends before it is looked at *)
  ou_version : nat -> result cerror string;
  ou_random : nat -> option string;
  ou_environ : nat -> list string;
  ou_launch : nat -> ProcessSpec -> result cerror (option Child);
  ou_stop : nat -> option Child -> option cerror;
  ou_match : nat -> ProcessIdentity -> result cerror ProcessMatch;
  ou_sink : nat -> RuntimeCheckpoint -> option cerror;
  ou_call : nat -> string -> params -> (string -> bool) -> outcome;
  ou_notify : nat -> string -> params -> option failure;
  ou_pick : nat -> nat;                                       (* what a [select] takes *)
  ou_event : nat -> AgentEvent;
  ou_ending : nat -> ending }.                                (* how a session ended *)
Record system := mkSystem { clock : nat; cancelled : option csentinel; sessions : list Session; trace : list effect }.
Abbreviation Run := (Proc system).
Definition ask {A} (f : nat -> A) : Run A := fun s => (mkSystem (S (clock s)) (cancelled s) (sessions s) (trace s), f (clock s)).
Definition note (e : effect) : Run unit := fun s => (mkSystem (clock s) (cancelled s) (sessions s) (trace s ++ [e]), tt).
Definition get_session (k : nat) : Run (option Session) := fun s => (s, sessions s !! k).
Definition change_session (k : nat) (f : Session -> Session) : Run unit :=
  fun s => (mkSystem (clock s) (cancelled s) (alter f k (sessions s)) (trace s), tt).
Definition add_session (x : Session) : Run nat :=
  fun s => (mkSystem (clock s) (cancelled s) (sessions s ++ [x]) (trace s), length (sessions s)).

Definition with_adapter (b : bool) (x : Session) : Session :=
  mkSession (sn_child x) (sn_sink x) (sn_checkpoint x) b (sn_interrupted x) (sn_cleanup x) (sn_persisted x) (sn_terminal x).
Definition with_interrupted (x : Session) : Session :=
  mkSession (sn_child x) (sn_sink x) (sn_checkpoint x) (sn_adapter x) true (sn_cleanup x) (sn_persisted x) (sn_terminal x).
Definition with_cleanup (e : option cerror) (x : Session) : Session :=
  mkSession (sn_child x) (sn_sink x) (sn_checkpoint x) (sn_adapter x) (sn_interrupted x) (Some e) (sn_persisted x) (sn_terminal x).
Definition with_persisted (x : Session) : Session :=
  mkSession (sn_child x) (sn_sink x) (sn_checkpoint x) (sn_adapter x) (sn_interrupted x) (sn_cleanup x) true (sn_terminal x).
Definition with_terminal (e : cerror) (x : Session) : Session :=
  mkSession (sn_child x) (sn_sink x) (sn_checkpoint x) (sn_adapter x) (sn_interrupted x) (sn_cleanup x) (sn_persisted x) (Some e).

(** ** Contexts, pipes and checkpoints *)

Section supervisor.
Context (out : outside) (sup : Supervisor).

(** [ctx.Err()]: a context that has ended stays so. *)
Definition ctx_err : Run (option csentinel) := fun s =>
  match cancelled s with
  | Some e => (s, Some e)
  | None => let c := ou_cancel out (clock s) in (mkSystem (S (clock s)) c (sessions s) (trace s), c)
  end.
Definition call_sink (sink : CheckpointSink) (c : RuntimeCheckpoint) : Run (option cerror) :=
  match sink with
  | DiscardSink => mret None
  | StoreSink => f ← ask (ou_sink out); note (EfSink c (f c));; mret (f c)
  end.
Definition stoppedCheckpoint (c : RuntimeCheckpoint) : RuntimeCheckpoint :=
  {| cp_State := RuntimeProcessStopped; cp_Generation := cp_Generation c; cp_PID := 0; cp_PGID := 0;
     cp_ProcessStart := cp_ProcessStart c; cp_CodexVersion := cp_CodexVersion c; cp_SchemaSHA256 := cp_SchemaSHA256 c |}.
(** [StopCurrent] and the final checkpoint have a context of their own. *)
Definition stopCurrent (c : option Child) : Run (option cerror) := f ← ask (ou_stop out); note (EfKill c (f c));; mret (f c).
Definition persistStopped (sink : CheckpointSink) (running : RuntimeCheckpoint) : Run (option cerror) :=
  call_sink sink (stoppedCheckpoint running).
Definition validateChild (c : option Child) (generation : string) : option cerror :=
  match c with
  | None => Some (CS ErrInvalidChild)
  | Some c =>
      let i := ch_Identity c in
      if negb (ch_Stdin c) || negb (ch_Stdout c) || negb (ch_Stderr c) || negb (ch_Done c) || negb (ch_WaitErr c)
         || negb (String.eqb (pi_Generation i) generation) || (pi_PID i <=? 1) || (pi_PGID i <=? 1) || blank (pi_StartIdentity i)
      then Some (CS ErrInvalidChild) else None
  end.
Definition processGenerationBytes : nat := 16.
Definition newProcessGeneration : Run (option string) :=
  b ← ask (ou_random out); mret (hex_EncodeToString <$> (b ≫= fun b => if Nat.eqb (String.length b) processGenerationBytes then Some b else None)).
Definition interruptRPC (k : nat) : Run unit :=
  s ← get_session k;
  match s with
  | Some x => if sn_interrupted x then mret tt else change_session k with_interrupted;; note (EfInterrupt k)
  | None => mret tt
  end.
(** [publishTerminal]: the first ending counts. *)
Definition publishTerminal (k : nat) (x : ending) : Run unit :=
  s ← get_session k;
  match s with
  | Some y => match sn_terminal y with None => change_session k (with_terminal (normalizeSessionFailure x)) | Some _ => mret tt end
  | None => mret tt
  end.
Definition observeTerminal (k : nat) (x : ending) : Run unit :=
  match x with
  | ProcessEnded (Some e) => if cerror_Is e ErrProcessObservation then interruptRPC k else mret tt
  | _ => mret tt
  end;; publishTerminal k x.
Definition sessionErr (k : nat) : Run (option cerror) := s ← get_session k; mret (s ≫= sn_terminal).

(** ** Stop *)

Definition stopSession (k : nat) (x : Session) : Run (option cerror) :=
  change_session k (with_adapter false);;
  (if sn_adapter x then note (EfCloseAdapter k) else mret tt);;
  interruptRPC k;;
  err ← stopCurrent (Some (sn_child x));
  mret (safeError ErrProcessCleanup <$> err).
Definition Stop (k : nat) : Run (option cerror) :=
  s ← get_session k;
  match s with
  | None => mret (Some (CS ErrInvalidSession))
  | Some x =>
      cleanup ← match sn_cleanup x with
                | Some e => mret e
                | None => e ← stopSession k x; change_session k (with_cleanup e);; mret e
                end;
      match cleanup with
      | Some e => mret (Some e)
      | None =>
          if sn_persisted x then mret None else
          err ← persistStopped (sn_sink x) (sn_checkpoint x);
          match err with
          | Some e => mret (Some (safeError ErrCheckpointPersistence e))
          | None => change_session k with_persisted;; mret None
          end
      end
  end.

(** ** Start *)

Definition spec_of (environ : list string) (root generation : string) : ProcessSpec :=
  {| ps_Executable := sv_executable sup; ps_Args := ["app-server"; "--listen"; "stdio://"]; ps_Env := environ;
     ps_Dir := clean_abs root; ps_Generation := generation |}.
Definition running_checkpoint (cliOutput generation : string) (i : ProcessIdentity) : RuntimeCheckpoint :=
  {| cp_State := RuntimeProcessRunning; cp_Generation := generation; cp_PID := pi_PID i; cp_PGID := pi_PGID i;
     cp_ProcessStart := pi_StartIdentity i; cp_CodexVersion := cliOutput; cp_SchemaSHA256 := vp_SchemaSHA256 (sv_policy sup) |}.
Definition new_session (c : Child) (sink : CheckpointSink) (checkpoint : RuntimeCheckpoint) : Session :=
  mkSession c sink checkpoint true false None false None.
Definition join_list (l : list (option cerror)) : cerror := CJoin (omap id l).
(** The child was started, but its identity or its checkpoint was not accepted. *)
Definition abandon (c : option Child) (err : cerror) : Run (result cerror nat) :=
  cleanup ← stopCurrent c;
  mret (Err (match cleanup with Some e => CJoin [err; safeError ErrProcessCleanup e] | None => err end)).
(** From the durable checkpoint on. *)
Definition start_session (root cliOutput : string) (sink : CheckpointSink) (c : Child) (running : RuntimeCheckpoint) : Run (result cerror nat) :=
  match NewAdapter root with
  | Err e =>
      cleanup ← stopCurrent (Some c);
      persist ← match cleanup with
                | None => err ← persistStopped sink running; mret (safeError ErrCheckpointPersistence <$> err)
                | Some _ => mret None
                end;
      mret (Err (join_list [Some (CRoom e); safeError ErrProcessCleanup <$> cleanup; persist]))
  | Ok project =>
      k ← add_session (new_session c sink running);
      call ← ask (ou_call out);
      notify ← ask (ou_notify out);
      let r := Initialize call notify cliOutput in
      note (EfInitialize k r);;
      match (match r with Err e => Err (CRoom e) | Ok x => ValidateUserAgent (sv_policy sup) cliOutput (ir_UserAgent x) end) with
      | Ok _ => mret (Ok k)
      | Err e => stopErr ← Stop k; mret (Err (join_list [Some e; stopErr]))
      end
  end.
(** From the accepted child on. *)
Definition record_child (root cliOutput : string) (sink : CheckpointSink) (c : Child) (generation : string) : Run (result cerror nat) :=
  let running := running_checkpoint cliOutput generation (ch_Identity c) in
  err ← call_sink sink running;
  match err with
  | Some e => abandon (Some c) (safeError ErrCheckpointPersistence e)
  | None => start_session root cliOutput sink c running
  end.
Definition Start (root : string) (sink : option CheckpointSink) : Run (result cerror nat) :=
  match sink with
  | None => mret (Err (CS ErrNilCheckpointSink))
  | Some sink =>
      if negb (HasPrefix root "/") then mret (Err (CRoom ErrProjectRootNotAbsolute)) else
      ended ← ctx_err;
      match ended with
      | Some e => mret (Err (CS e))
      | None =>
          version ← ask (ou_version out);
          note (EfVersion version);;
          match version with
          | Err e => mret (Err (safeError ErrProcessVersion e))
          | Ok output =>
              match ValidateCLI (sv_policy sup) output with
              | Err e => mret (Err e)
              | Ok cliOutput =>
                  generation ← newProcessGeneration;
                  match generation with
                  | None => mret (Err (CS ErrGenerationUnavailable))
                  | Some generation =>
                      environ ← ask (ou_environ out);
                      launch ← ask (ou_launch out);
                      let spec := spec_of environ root generation in
                      note (EfLaunch spec (launch spec));;
                      match launch spec with
                      | Err e => mret (Err (safeError ErrProcessStart e))
                      | Ok child =>
                          match validateChild child generation, child with
                          | None, Some c => record_child root cliOutput sink c generation
                          | Some e, _ => abandon child e
                          | None, None => mret (Err (CS ErrInvalidChild))
                          end
                      end
                  end
              end
          end
      end
  end.
Definition Probe (root : string) : Run (result cerror RuntimeCheckpoint) :=
  r ← Start root (Some DiscardSink);
  match r with
  | Err e => mret (Err e)
  | Ok k =>
      s ← get_session k;
      err ← Stop k;
      mret (match err, s with
            | Some e, _ => Err e
            | None, Some x => Ok (stoppedCheckpoint (sn_checkpoint x))
            | None, None => Err (CS ErrInvalidSession)
            end)
  end.

(** ** ReapPrevious

    [None] is a nil checkpoint; a process that may still run needs its owner. *)
Definition ReapPrevious (checkpoint : option RuntimeCheckpoint) : Run (option cerror) :=
  match checkpoint with
  | None => mret None
  | Some c =>
      match cp_State c with
      | RuntimeProcessOther raw =>
          mret (if String.eqb raw "" && bool_decide (c = zero_checkpoint) then None else Some (COwner ErrInvalidProcessCheckpoint))
      | RuntimeProcessStopped =>
          mret (if negb (cp_PID c =? 0) || negb (cp_PGID c =? 0) then Some (COwner ErrInvalidProcessCheckpoint) else None)
      | RuntimeProcessRunning =>
          if (cp_PID c <=? 1) || (cp_PGID c <=? 1) || blank (cp_Generation c) || blank (cp_ProcessStart c)
          then mret (Some (COwner ErrInvalidProcessCheckpoint)) else
          f ← ask (ou_match out);
          mret (match f {| pi_Generation := cp_Generation c; pi_PID := cp_PID c; pi_PGID := cp_PGID c; pi_StartIdentity := cp_ProcessStart c |} with
                | Err _ => Some (COwner ErrProcessIdentityUnknown)
                | Ok ProcessAbsent => None
                | Ok ProcessMatches => Some (COwner ErrPreviousProcessRunning)
                | Ok ProcessMismatch => Some (COwner ErrProcessIdentityMismatch)
                | Ok ProcessUnknown => Some (COwner ErrProcessIdentityUnknown)
                end)
      end
  end.
End supervisor.

(** ** Diagnostics of the process

    [boundedRing]: the last bytes of the standard error. *)
Definition stderrRingBytes : Z := Z.shiftl 64 10.
Record boundedRing := { br_data : string; br_capacity : Z }.
Definition newBoundedRing (capacity : Z) : boundedRing := {| br_data := ""; br_capacity := capacity |}.
Definition ring_write (data : string) (r : boundedRing) : boundedRing :=
  let cap := br_capacity r in
  if cap <=? len data then {| br_data := drop_bytes (Z.to_nat (len data - cap)) data; br_capacity := cap |} else
  let overflow := len (br_data r) + len data - cap in
  let kept := if 0 <? overflow then drop_bytes (Z.to_nat overflow) (br_data r) else br_data r in
  {| br_data := kept +:+ data; br_capacity := cap |}.
