(* ===== verification/SupervisorSafety.v ===== *)
(** * What the supervisor guarantees

    A ledger is kept of what the trace of a supervisor shows: which children may be
    alive and which checkpoint the store holds.  The theorems say what is done in
    which state of the ledger, across the end of the daemon too. *)
From S2P Require Import Prelude GoStrings Sha256 RoomTypes StoreRecovery Jsonrpc RpcClient Adapter Process Supervisor.

(** ** Assertions about procedures *)

Definition pwp {S A} (m : Proc S A) (Q : A -> S -> Prop) (s : S) : Prop := Q (m s).2 (m s).1.
Lemma pwp_ret {S A} (a : A) (Q : A -> S -> Prop) s : Q a s -> pwp (mret a) Q s.
Proof. done. Qed.
Lemma pwp_bind {S A B} (m : Proc S A) (k : A -> Proc S B) Q s : pwp m (fun a => pwp (k a) Q) s -> pwp (m ≫= k) Q s.
Proof. unfold pwp, mbind, Proc_bind. by destruct (m s). Qed.
Lemma pwp_mono {S A} (m : Proc S A) (Q R : A -> S -> Prop) s : pwp m Q s -> (forall a t, Q a t -> R a t) -> pwp m R s.
Proof. unfold pwp. auto. Qed.

Ltac pwp_bind := lazymatch goal with |- pwp (mbind _ _) _ _ => apply pwp_bind end; cbv beta.

(** ** The ledger *)

(** [lg_doubt]: a checkpoint whose write failed, so that the store may hold it. *)
Record ledger := { lg_alive : list Child; lg_saved : option RuntimeCheckpoint; lg_doubt : option RuntimeCheckpoint }.
Definition no_ledger : ledger := {| lg_alive := []; lg_saved := None; lg_doubt := None |}.
Fixpoint remove_child (c : Child) (l : list Child) : list Child :=
  match l with [] => [] | d :: r => if decide (d = c) then r else d :: remove_child c r end.
Definition book (l : ledger) (e : effect) : ledger :=
  match e with
  | EfLaunch _ (Ok (Some c)) => {| lg_alive := c :: lg_alive l; lg_saved := lg_saved l; lg_doubt := lg_doubt l |}
  | EfKill (Some c) None => {| lg_alive := remove_child c (lg_alive l); lg_saved := lg_saved l; lg_doubt := lg_doubt l |}
  | EfSink cp None => {| lg_alive := lg_alive l; lg_saved := Some cp; lg_doubt := None |}
  | EfSink cp (Some _) => {| lg_alive := lg_alive l; lg_saved := lg_saved l; lg_doubt := Some cp |}
  | _ => l
  end.
Definition ledger_of (tr : list effect) : ledger := foldl book no_ledger tr.
Definition is_running (o : option RuntimeCheckpoint) : Prop := match o with Some c => cp_State c = RuntimeProcessRunning | None => False end.
(** Nothing is alive, and the store says so for certain. *)
Definition clean (l : ledger) : Prop := lg_alive l = [] /\ lg_doubt l = None /\ ~ is_running (lg_saved l).
Definition describes (cp : RuntimeCheckpoint) (c : Child) : Prop :=
  cp_State cp = RuntimeProcessRunning
  /\ ch_Identity c = {| pi_Generation := cp_Generation cp; pi_PID := cp_PID cp; pi_PGID := cp_PGID cp; pi_StartIdentity := cp_ProcessStart cp |}.
(** One child, whose identity is in the store. *)
Definition active (l : ledger) (c : Child) (cp : RuntimeCheckpoint) : Prop :=
  lg_alive l = [c] /\ lg_doubt l = None /\ lg_saved l = Some cp /\ describes cp c.
(** What may be done in a state of the ledger. *)
Definition allowed (l : ledger) (e : effect) : Prop :=
  match e with
  | EfLaunch _ _ => clean l
  | EfKill (Some c) _ => lg_alive l = [c]
  | EfKill None _ => lg_alive l = []
  | EfSink cp _ =>
      validateCheckpoint cp = Ok tt
      /\ ((exists c, lg_alive l = [c] /\ describes cp c /\ lg_doubt l = None /\ ~ is_running (lg_saved l))
          \/ (lg_alive l = [] /\ exists run, lg_saved l = Some run /\ cp_State run = RuntimeProcessRunning /\ cp = stoppedCheckpoint run))
  | EfInitialize _ _ => exists c cp, active l c cp
  | _ => True
  end.
Fixpoint lawful_from (l : ledger) (tr : list effect) : Prop :=
  match tr with [] => True | e :: r => allowed l e /\ lawful_from (book l e) r end.
Lemma lawful_snoc l tr e : lawful_from l (tr ++ [e]) <-> lawful_from l tr /\ allowed (foldl book l tr) e.
Proof. revert l. induction tr as [|x tr IH]; intros l; cbn; [tauto|]. rewrite IH. tauto. Qed.
Lemma lawful_split l pre e post : lawful_from l (pre ++ e :: post) -> allowed (foldl book l pre) e.
Proof. revert l. induction pre as [|x pre IH]; intros l; cbn; [tauto|]. intros [_ H]. by apply IH. Qed.
Lemma remove_only c : remove_child c [c] = [].
Proof. cbn. by rewrite decide_True. Qed.

(** ** States of a system *)

Definition books (s : system) : ledger := ledger_of (trace s).
#[global] Arguments books : simpl never.
Definition lawful (s : system) : Prop := lawful_from no_ledger (trace s).
(** The parts of a session that count for the ledger. *)
Definition essence (x : Session) := (sn_child x, sn_sink x, sn_checkpoint x, sn_cleanup x, sn_persisted x).
Record calm (s s' : system) : Prop := {
  ca_books : books s' = books s;
  ca_lawful : lawful s -> lawful s';
  ca_sessions : forall k x, sessions s !! k = Some x -> exists y, sessions s' !! k = Some y /\ essence y = essence x }.
#[export] Instance calm_preorder : PreOrder calm.
Proof.
  split.
  - intros s. split; eauto.
  - intros a b c [A1 A2 A3] [B1 B2 B3]. split; [congruence|auto|].
    intros k x Hx. destruct (A3 k x Hx) as (y & Hy & E). destruct (B3 k y Hy) as (z & Hz & E'). exists z. split; [done|congruence].
Qed.
Definition Clean (s : system) : Prop := clean (books s).
Definition Live (k : nat) (s : system) : Prop := exists x, sessions s !! k = Some x /\ sn_sink x = StoreSink /\ sn_cleanup x = None
  /\ sn_persisted x = false /\ active (books s) (sn_child x) (sn_checkpoint x) /\ validateCheckpoint (sn_checkpoint x) = Ok tt.
(** The child is gone, but the store was not told yet. *)
Definition Unsaved (k : nat) (s : system) : Prop := exists x, sessions s !! k = Some x /\ sn_sink x = StoreSink /\ sn_cleanup x = Some None
  /\ sn_persisted x = false /\ lg_alive (books s) = [] /\ lg_saved (books s) = Some (sn_checkpoint x)
  /\ cp_State (sn_checkpoint x) = RuntimeProcessRunning /\ validateCheckpoint (sn_checkpoint x) = Ok tt.
Lemma calm_Clean s s' : calm s s' -> Clean s -> Clean s'.
Proof. intros [E _ _]. unfold Clean. by rewrite E. Qed.
Lemma calm_Live k s s' : calm s s' -> Live k s -> Live k s'.
Proof.
  intros [E _ H] (x & Hx & R). destruct (H k x Hx) as (y & Hy & Ey). exists y. split; [done|].
  destruct x, y. unfold essence in Ey. cbn in *. simplify_eq. by rewrite E.
Qed.
Lemma calm_Unsaved k s s' : calm s s' -> Unsaved k s -> Unsaved k s'.
Proof.
  intros [E _ H] (x & Hx & R). destruct (H k x Hx) as (y & Hy & Ey). exists y. split; [done|].
  destruct x, y. unfold essence in Ey. cbn in *. simplify_eq. by rewrite E.
Qed.

(** ** Procedures that leave the ledger as it is *)

Definition quiet_effect (e : effect) : bool :=
  match e with EfVersion _ | EfCloseAdapter _ | EfInterrupt _ | EfEvent _ | EfSleep _ _ | EfCloseEvents => true | _ => false end.
Definition still {A} (m : Run A) : Prop := forall s, calm s (m s).1.
Lemma books_note e s : books (note e s).1 = book (books s) e.
Proof. unfold books, ledger_of. cbn. by rewrite foldl_app. Qed.
Lemma lawful_note e s : lawful s -> allowed (books s) e -> lawful (note e s).1.
Proof. intros H A. unfold lawful. cbn. by apply lawful_snoc. Qed.
Lemma still_ret {A} (a : A) : still (mret a).
Proof. intros s. reflexivity. Qed.
Lemma still_bind {A B} (m : Run A) (k : A -> Run B) : still m -> (forall a, still (k a)) -> still (m ≫= k).
Proof.
  intros H K s. specialize (H s). unfold mbind, Proc_bind. destruct (m s) as [s' a]. specialize (K a s'). by etrans.
Qed.
Lemma still_ask {A} (f : nat -> A) : still (ask f).
Proof. intros s. split; [done|done|eauto]. Qed.
Lemma still_get k : still (get_session k).
Proof. intros s. reflexivity. Qed.
Lemma still_note e : quiet_effect e = true -> still (note e).
Proof.
  intros Q s. assert (B : book (books s) e = books s) by by destruct e.
  split; [by rewrite books_note|intros L; apply lawful_note; [done|]; by destruct e|eauto].
Qed.
Lemma still_change k f : (forall x, essence (f x) = essence x) -> still (change_session k f).
Proof.
  intros F s. split; [done|done|]. intros j x Hx. cbn. destruct (decide (j = k)) as [->|N].
  - rewrite list_lookup_alter_eq, Hx. cbn. eauto.
  - rewrite list_lookup_alter_ne by done. eauto.
Qed.
Lemma still_ctx_err out : still (ctx_err out).
Proof. intros s. unfold ctx_err. destruct (cancelled s); [reflexivity|]. split; [done|done|eauto]. Qed.
Create HintDb still.
#[export] Hint Resolve still_ret still_ask still_get still_ctx_err : still.
#[export] Hint Extern 1 (still (note _)) => by apply still_note : still.
#[export] Hint Extern 1 (still (change_session _ _)) => by apply still_change : still.
Ltac still_tac :=
  repeat match goal with
         | |- still (mbind _ _) => apply still_bind
         | |- forall _, _ => intros ?
         | |- still (if ?b then _ else _) => destruct b
         | |- still (match ?x with _ => _ end) => destruct x
         | |- still _ => solve [eauto with still]
         end.
Lemma still_interrupt k : still (interruptRPC k).
Proof. unfold interruptRPC. still_tac. Qed.
#[export] Hint Resolve still_interrupt : still.
Lemma still_publishTerminal k x : still (publishTerminal k x).
Proof. unfold publishTerminal. still_tac. Qed.
#[export] Hint Resolve still_publishTerminal : still.
Lemma still_observeTerminal k x : still (observeTerminal k x).
Proof. unfold observeTerminal. still_tac. Qed.
Lemma still_sessionErr k : still (sessionErr k).
Proof. unfold sessionErr. still_tac. Qed.
Lemma still_generation out : still (newProcessGeneration out).
Proof. unfold newProcessGeneration. still_tac. Qed.
#[export] Hint Resolve still_observeTerminal still_sessionErr still_generation : still.
Lemma pwp_still {A} (m : Run A) (Q : A -> system -> Prop) s : still m -> (forall a s', calm s s' -> Q a s') -> pwp m Q s.
Proof. intros H HQ. apply HQ, H. Qed.

(** ** Stop *)

Lemma cleanup_not_persistence e : cerror_Is (safeError ErrProcessCleanup e) ErrCheckpointPersistence = false.
Proof. unfold safeError. destruct (cerror_Is e ErrUnsupportedPlatform), (cerror_Is e DeadlineExceeded), (cerror_Is e Canceled); reflexivity. Qed.
Lemma safe_Is c e : cerror_Is (safeError c e) c = true.
Proof. cbn. by rewrite bool_decide_eq_true_2. Qed.
Lemma stopped_valid c : validateCheckpoint c = Ok tt -> validateCheckpoint (stoppedCheckpoint c) = Ok tt.
Proof.
  unfold validateCheckpoint, check. cbn. destruct (bool_decide _ || _); [|done]. cbn. by destruct (negb _ && _).
Qed.
(** How a stop ends. *)
Definition stop_post (k : nat) (e : option cerror) (s : system) : Prop :=
  lawful s /\ match e with
              | None => Clean s
              | Some e => cerror_Is e ErrCheckpointPersistence = true /\ Unsaved k s
                          \/ cerror_Is e ErrCheckpointPersistence = false /\ cerror_Is e ErrProcessCleanup = true
              end.
(** A proven stop is told to the store. *)
Lemma persist_spec out k s : lawful s -> Unsaved k s ->
  forall x, sessions s !! k = Some x ->
  pwp (persistStopped out (sn_sink x) (sn_checkpoint x)) (fun e s' =>
    match e with
    | None => lawful s' /\ Clean s'
    | Some _ => lawful s' /\ Unsaved k s'
    end /\ sessions s' = sessions s) s.
Proof.
  intros L (x & Hx & E1 & E2 & E3 & A & E4 & E5 & V) y Hy. replace y with x by congruence.
  unfold persistStopped, call_sink. rewrite E1. apply pwp_bind. unfold pwp at 1. cbn.
  set (s1 := (ask (ou_sink out) s).1). assert (C := still_ask (ou_sink out) s : calm s s1).
  assert (B : books s1 = books s) by apply C. assert (L1 : lawful s1) by by apply C.
  set (r := ou_sink out (clock s) _). apply pwp_bind. unfold pwp at 1. apply pwp_ret.
  set (e := EfSink _ r).
  assert (L2 : lawful (note e s1).1).
  { apply lawful_note; [done|]. rewrite B. cbn. split; [by apply stopped_valid|]. right. eauto. }
  assert (B2 := books_note e s1). rewrite B in B2. unfold e in B2. destruct r eqn:R; (split; [split; [done|]|done]).
  - change (Unsaved k (note e s1).1). exists x. unfold e. by rewrite B2.
  - change (Clean (note e s1).1). unfold Clean, e. rewrite B2. cbn. split_and!; try done.
Qed.
Lemma Stop_unsaved out k s : lawful s -> Unsaved k s -> pwp (Stop out k) (stop_post k) s.
Proof.
  intros L U. destruct (U) as (x & Hx & E1 & E2 & E3 & A & E4 & E5 & V).
  unfold Stop. apply pwp_bind. unfold get_session, pwp at 1. cbn. rewrite Hx, E2. apply pwp_bind. unfold pwp at 1. cbn. rewrite E3.
  apply pwp_bind. eapply pwp_mono; [by apply (persist_spec out k)|]. cbn. intros [e|] s' [[L' H] ES].
  - apply pwp_ret. split; [done|]. left. split; [apply safe_Is|done].
  - apply pwp_bind. unfold pwp at 1. apply pwp_ret. cbn. split; [done|]. done.
Qed.
Lemma kill_spec out c s : lawful s -> allowed (books s) (EfKill c None) ->
  pwp (stopCurrent out c) (fun e s' => lawful s' /\ sessions s' = sessions s /\ books s' = book (books s) (EfKill c e)) s.
Proof.
  intros L A. unfold stopCurrent. apply pwp_bind. unfold pwp at 1. cbn. set (s1 := (ask (ou_stop out) s).1).
  assert (C := still_ask (ou_stop out) s : calm s s1). assert (B : books s1 = books s) by apply C.
  apply pwp_bind. unfold pwp at 1. apply pwp_ret. set (e := EfKill _ _).
  change (lawful (note e s1).1 /\ sessions (note e s1).1 = sessions s /\ books (note e s1).1 = book (books s) e).
  split; [|split; [done|by rewrite books_note, B]]. apply lawful_note; [by apply C|]. rewrite B. by destruct c.
Qed.
Lemma pwp_calm_bind {A B} (m : Run A) (k : A -> Run B) Q s : still m -> (forall a s', calm s s' -> pwp (k a) Q s') -> pwp (m ≫= k) Q s.
Proof. intros H K. apply pwp_bind, pwp_still; auto. Qed.
Lemma stopSession_live out k x s : lawful s -> Live k s -> sessions s !! k = Some x ->
  pwp (stopSession out k x) (fun e s' => lawful s' /\ books s' = book (books s) (EfKill (Some (sn_child x)) (match e with Some _ => Some (CS ErrProcessCleanup) | None => None end))
    /\ (forall e', e = Some e' -> exists r, e' = safeError ErrProcessCleanup r)
    /\ exists y, sessions s' !! k = Some y /\ essence y = essence x) s.
Proof.
  intros L H Hx. unfold stopSession. pwp_bind. apply pwp_still; [auto with still|]. intros _ s1 C1.
  pwp_bind. apply pwp_still; [destruct (sn_adapter x); auto with still|]. intros _ s2 C2.
  pwp_bind. apply pwp_still; [auto with still|]. intros _ s3 C3.
  assert (C : calm s s3) by by do 2 etrans. clear C1 C2 C3.
  assert (L3 : lawful s3) by by apply C. assert (B := ca_books _ _ C). destruct (ca_sessions _ _ C k x Hx) as (y & Hy & Ey).
  assert (A : lg_alive (books s) = [sn_child x]).
  { destruct H as (x' & Hx' & _ & _ & _ & A & _). replace x with x' by congruence. apply A. }
  pwp_bind. eapply pwp_mono; [apply kill_spec; [done|cbn; rewrite B; apply A]|]. intros e s4 (L4 & S4 & B4). rewrite B in B4.
  apply pwp_ret. split; [done|]. split; [by destruct e|]. split; [intros e' E; destruct e; [|done]; injection E as <-; eauto|].
  exists y. by rewrite S4.
Qed.
Lemma Stop_live out k s : lawful s -> Live k s -> pwp (Stop out k) (stop_post k) s.
Proof.
  intros L H. unfold Stop. pwp_bind. unfold pwp at 1. cbn [get_session fst snd].
  destruct (H) as (x & Hx & E1 & E2 & E3 & A & V). rewrite Hx, E2. pwp_bind. pwp_bind.
  eapply pwp_mono; [by apply stopSession_live|]. intros e s4 (L4 & B4 & Ee & y & Hy & Ey).
  pwp_bind. unfold pwp at 1. apply pwp_ret. cbn [fst].
  set (s5 := (change_session k (with_cleanup e) s4).1).
  assert (L5 : lawful s5) by done. assert (B5 : books s5 = books s4) by done.
  assert (S5 : sessions s5 !! k = Some (with_cleanup e y)) by (unfold s5; cbn; by rewrite list_lookup_alter_eq, Hy).
  destruct x as [c sk cp ad ir cl pe te], y. unfold essence in Ey. cbn in *. simplify_eq. destruct e as [e|].
  - apply pwp_ret. split; [done|]. right. destruct (Ee e eq_refl) as [r ->]. split; [apply cleanup_not_persistence|apply safe_Is].
  - change (pwp (persistStopped out StoreSink cp ≫= (fun err => match err with
      | Some e => mret (Some (safeError ErrCheckpointPersistence e)) | None => change_session k with_persisted;; mret None end)) (stop_post k) s5).
    assert (U : Unsaved k s5).
    { eexists. split; [exact S5|]. destruct A as (A1 & A2 & A3 & A4). change (books s5) with (books s4). rewrite B4. cbn [lg_alive lg_saved].
      rewrite A1, remove_only. split_and!; try done. apply A4. }
    pwp_bind. eapply pwp_mono; [apply (persist_spec out k s5 L5 U _ S5)|]. intros [e|] s6 [[L6 H6] ES].
    + apply pwp_ret. split; [done|]. left. split; [apply safe_Is|done].
    + pwp_bind. unfold pwp at 1. apply pwp_ret. by split.
Qed.

(** ** Checkpoints the store accepts *)

Lemma trim_left_hex c r : is_lower_hex c = true -> trim_left (String c r) = String c r.
Proof.
  unfold is_lower_hex, between. intros H. cbn [trim_left]. unfold space1, between.
  replace (_ || _) with false by lia. destruct r as [|b r]; [done|]. unfold space2. replace (_ && _) with false by lia.
  destruct r as [|d r]; [done|]. unfold space3. by replace (_ || _ || _ || _) with false by lia.
Qed.
Lemma trim_left_rev_hex c r : is_lower_hex c = true -> trim_left_rev (String c r) = String c r.
Proof.
  unfold is_lower_hex, between. intros H. cbn [trim_left_rev]. unfold space1, between.
  replace (_ || _) with false by lia. destruct r as [|b r]; [done|]. unfold space2. replace (_ && _) with false by lia.
  destruct r as [|d r]; [done|]. unfold space3, between. by replace (_ || _ || _ || _) with false by lia.
Qed.
Lemma blank_hex s : str_forallb is_lower_hex s = true -> s <> "" -> blank s = false.
Proof.
  intros H N. unfold blank, TrimSpace. destruct s as [|c s]; [done|]. assert (Hc : is_lower_hex c = true) by (unfold str_forallb in H; cbn in H; by apply andb_true_iff in H as [? _]).
  rewrite trim_left_hex by done. apply String.eqb_neq. unfold str_rev at 2.
  destruct (rev (bytes (String c s))) as [|d l] eqn:E.
  { apply (f_equal length) in E. rewrite length_rev in E. done. }
  assert (Hd : is_lower_hex d = true).
  { unfold str_forallb in H. rewrite forallb_forall in H. apply H, in_rev. rewrite E. by left. }
  cbn [of_bytes]. rewrite trim_left_rev_hex by done. unfold str_rev. cbn [bytes]. intros X.
  apply (f_equal bytes) in X. rewrite bytes_of_bytes in X. apply (f_equal length) in X. rewrite length_rev in X. done.
Qed.
Definition sound_policy (sup : Supervisor) : Prop :=
  vp_SchemaSHA256 (sv_policy sup) = SupportedSchemaSHA256 /\ forallb allowed_output (vp_AllowedCLI (sv_policy sup)) = true.
Lemma NewSupervisor_sound exe policy b sup : NewSupervisor exe policy b = Ok sup -> sound_policy sup.
Proof.
  unfold NewSupervisor. repeat case_match; try done. intros [= <-]. split; cbn.
  - by apply String.eqb_eq, negb_false_iff.
  - by apply negb_false_iff.
Qed.
Lemma accepted_output sup output cli : sound_policy sup -> ValidateCLI (sv_policy sup) output = Ok cli -> blank cli = false.
Proof.
  intros [_ S]. unfold ValidateCLI. destruct (one_of _ _) eqn:O; [|done]. intros [= <-].
  apply existsb_exists in O as (x & Hx & E%String.eqb_eq). rewrite E. rewrite forallb_forall in S. specialize (S x Hx).
  unfold allowed_output in S. apply andb_true_iff in S as [V T%String.eqb_eq]. unfold blank. rewrite T. apply String.eqb_neq. by intros ->.
Qed.
Lemma generation_blank b : String.length b = processGenerationBytes -> blank (hex_EncodeToString b) = false.
Proof.
  intros L. apply blank_hex; [apply hex_encode_lower|]. intros E. apply (f_equal String.length) in E. rewrite hex_encode_length, L in E. done.
Qed.
(** A child that was accepted, with the checkpoint it is recorded under. *)
Lemma validateChild_spec c generation : validateChild (Some c) generation = None ->
  1 < pi_PID (ch_Identity c) /\ 1 < pi_PGID (ch_Identity c) /\ blank (pi_StartIdentity (ch_Identity c)) = false
  /\ pi_Generation (ch_Identity c) = generation.
Proof.
  cbn. destruct (_ || _) eqn:E; [done|]. intros _. repeat apply orb_false_iff in E as [E ?]. split_and!; [lia|lia|done|].
  by apply String.eqb_eq, negb_false_iff.
Qed.
Lemma running_valid sup cli generation c : sound_policy sup -> blank cli = false -> blank generation = false ->
  validateChild (Some c) generation = None -> validateCheckpoint (running_checkpoint sup cli generation (ch_Identity c)) = Ok tt.
Proof.
  intros [S _] Bc Bg V. apply validateChild_spec in V as (P1 & P2 & B & _). unfold validateCheckpoint, check, running_checkpoint.
  cbn -[blank SupportedSchemaSHA256 StoreBase.validDigest Z.leb].
  rewrite Bc, Bg, B, S. change (StoreBase.validDigest SupportedSchemaSHA256) with true.
  replace ((pi_PID (ch_Identity c) <=? 1) || (pi_PGID (ch_Identity c) <=? 1)) with false by lia. reflexivity.
Qed.
Lemma running_describes sup cli generation c : validateChild (Some c) generation = None ->
  describes (running_checkpoint sup cli generation (ch_Identity c)) c.
Proof. intros V. apply validateChild_spec in V as (_ & _ & _ & <-). split; [done|]. by destruct (ch_Identity c). Qed.

(** ** Start *)

(** How a start ends, from a clean ledger. *)
Definition flagged (e : cerror) : bool := cerror_Is e ErrProcessCleanup || cerror_Is e ErrCheckpointPersistence.
Definition start_post (r : result cerror nat) (s : system) : Prop :=
  lawful s /\ match r with Ok k => Live k s | Err e => Clean s \/ flagged e = true end.
Lemma flagged_join l e : e ∈ l -> flagged e = true -> flagged (CJoin l) = true.
Proof.
  intros H%list_elem_of_In [F|F]%orb_true_iff; apply orb_true_iff; [left|right]; cbn; apply existsb_exists; eauto.
Qed.
Lemma flagged_safe_cleanup e : flagged (safeError ErrProcessCleanup e) = true.
Proof. unfold flagged. by rewrite safe_Is. Qed.
Lemma flagged_safe_persistence e : flagged (safeError ErrCheckpointPersistence e) = true.
Proof. unfold flagged. by rewrite safe_Is, orb_true_r. Qed.
(** A launched child that is given up before it is recorded. *)
Lemma abandon_spec out c err s : lawful s -> lg_alive (books s) = match c with Some c => [c] | None => [] end ->
  (flagged err = true \/ lg_doubt (books s) = None /\ ~ is_running (lg_saved (books s))) ->
  pwp (abandon out c err) start_post s.
Proof.
  intros L A H. unfold abandon. pwp_bind. eapply pwp_mono; [apply kill_spec; [done|by destruct c]|]. intros e s' (L' & _ & B).
  apply pwp_ret. split; [done|]. destruct e as [e|].
  - right. eapply flagged_join; [|apply (flagged_safe_cleanup e)]. by right; left.
  - destruct H as [H|[D R]]; [by right|left]. unfold Clean. rewrite B. destruct c as [c|]; cbn.
    + rewrite A, remove_only. done.
    + by split.
Qed.
Lemma Live_new s x : sn_sink x = StoreSink -> sn_cleanup x = None -> sn_persisted x = false ->
  active (books s) (sn_child x) (sn_checkpoint x) -> validateCheckpoint (sn_checkpoint x) = Ok tt ->
  Live (length (sessions s)) (add_session x s).1.
Proof.
  intros. exists x. cbn. rewrite lookup_app_r, Nat.sub_diag by done. done.
Qed.
(** The stop of a start that failed; its error joins the cause. *)
Lemma stop_failed_start out k e s : lawful s -> Live k s ->
  pwp (stopErr ← Stop out k; mret (Err (join_list [Some e; stopErr]) : result cerror nat)) start_post s.
Proof.
  intros L H. pwp_bind. eapply pwp_mono; [by apply Stop_live|]. intros [x|] s' [L' P]; apply pwp_ret; (split; [done|]); [|by left].
  right. eapply (flagged_join _ x); [by right; left|]. unfold flagged. destruct P as [[-> _]|[_ ->]]; [apply orb_true_r|done].
Qed.
Lemma note_allowed e s (Q : unit -> system -> Prop) : lawful s -> allowed (books s) e ->
  (forall s', lawful s' -> books s' = book (books s) e -> sessions s' = sessions s -> Q tt s') -> pwp (note e) Q s.
Proof. intros L A H. apply H; [by apply lawful_note|apply books_note|done]. Qed.
Lemma start_session_spec out sup root cli c running s : lawful s -> active (books s) c running -> validateCheckpoint running = Ok tt ->
  pwp (start_session out sup root cli StoreSink c running) start_post s.
Proof.
  intros L A V. unfold start_session. destruct (NewAdapter root) as [project|e].
  - pwp_bind. unfold pwp at 1. set (s1 := (add_session _ s).1). set (k := (add_session _ s).2).
    assert (H1 : Live k s1) by by apply Live_new. assert (L1 : lawful s1) by done.
    pwp_bind. apply pwp_still; [auto with still|]. intros call s2 C2. pwp_bind. apply pwp_still; [auto with still|]. intros notify s3 C3.
    assert (C : calm s1 s3) by by etrans. apply (calm_Live k) in C as H3; [|done]. assert (L3 : lawful s3) by by apply C.
    pwp_bind. apply note_allowed; [done|destruct H3 as (x & _ & _ & _ & _ & H3 & _); cbn; eauto|]. intros s4 L4 B4 S4.
    assert (H4 : Live k s4). { destruct H3 as (x & Hx & R). exists x. by rewrite S4, B4. }
    destruct (match Initialize _ _ _ with Ok _ => _ | Err _ => _ end); [by apply pwp_ret|by apply stop_failed_start].
  - pwp_bind. eapply pwp_mono; [apply kill_spec; [done|apply A]|]. intros cleanup s1 (L1 & S1 & B1).
    pwp_bind. destruct cleanup as [x|].
    + apply pwp_ret, pwp_ret. split; [done|]. right. eapply (flagged_join _ (safeError ErrProcessCleanup x)); [by right; left|apply flagged_safe_cleanup].
    + destruct A as (A1 & A2 & A3 & A4). cbn in B1. rewrite A1, remove_only in B1.
      pwp_bind. unfold persistStopped, call_sink. pwp_bind. apply pwp_still; [auto with still|]. intros sink s2 C2.
      assert (B2 := ca_books _ _ C2). assert (L2 : lawful s2) by by apply C2.
      pwp_bind. apply note_allowed; [done| |].
      { rewrite B2, B1. cbn. split; [by apply stopped_valid|]. right. split; [done|]. exists running. split_and!; [done|apply A4|done]. }
      intros s3 L3 B3 _. apply pwp_ret, pwp_ret, pwp_ret. split; [done|]. destruct (sink (stoppedCheckpoint running)) as [x|].
      * right. eapply (flagged_join _ (safeError ErrCheckpointPersistence x)); [by right; left|apply flagged_safe_persistence].
      * left. unfold Clean. rewrite B3, B2, B1. split_and!; [done|done|]. cbn. by intros [=].
Qed.
Lemma record_child_spec out sup root cli c generation s : sound_policy sup -> blank cli = false -> blank generation = false ->
  validateChild (Some c) generation = None -> lawful s -> lg_alive (books s) = [c] -> lg_doubt (books s) = None -> ~ is_running (lg_saved (books s)) ->
  pwp (record_child out sup root cli StoreSink c generation) start_post s.
Proof.
  intros S Bc Bg VV L A D R. assert (V := running_valid sup cli generation c S Bc Bg VV).
  assert (Ds := running_describes sup cli generation c VV). unfold record_child.
  set (running := running_checkpoint sup cli generation (ch_Identity c)) in *.
  pwp_bind. unfold call_sink. pwp_bind. apply pwp_still; [auto with still|]. intros sink s1 C.
  assert (B := ca_books _ _ C). pwp_bind. apply note_allowed; [by apply C| |].
  { rewrite B. cbn. split; [done|]. left. by exists c. }
  intros s2 L2 B2 _. rewrite B in B2. apply pwp_ret. destruct (sink running) as [e|].
  - apply abandon_spec; [done|by rewrite B2|]. left. apply flagged_safe_persistence.
  - apply start_session_spec; [done|by rewrite B2|done].
Qed.
Lemma Start_spec out sup root s : sound_policy sup -> lawful s -> Clean s -> pwp (Start out sup root (Some StoreSink)) start_post s.
Proof.
  intros S L K. unfold Start. assert (fail : forall e s', calm s s' -> pwp (mret (Err e)) start_post s').
  { intros e s' C. apply pwp_ret. split; [by apply C|]. left. by apply (calm_Clean s). }
  destruct (negb _); [by apply fail|]. pwp_bind. apply pwp_still; [auto with still|]. intros ended s1 C1. destruct ended; [by apply fail|].
  pwp_bind. apply pwp_still; [auto with still|]. intros version s2 C2. pwp_bind. apply pwp_still; [auto with still|]. intros _ s3 C3.
  assert (C : calm s s3) by by do 2 etrans. clear C1 C2 C3. destruct version as [output|e]; [|by apply fail].
  destruct (ValidateCLI _ _) as [cli|e] eqn:VC; [|by apply fail].
  pwp_bind. unfold newProcessGeneration. pwp_bind. apply pwp_still; [auto with still|]. intros random s4 C4. apply pwp_ret.
  destruct (hex_EncodeToString <$> _) as [generation|] eqn:G; [|apply fail; by etrans].
  assert (Bg : blank generation = false).
  { destruct random as [b|]; [|done]. cbn in G. destruct (Nat.eqb_spec (String.length b) processGenerationBytes); [|done].
    injection G as <-. by apply generation_blank. }
  pwp_bind. apply pwp_still; [auto with still|]. intros environ s5 C5. pwp_bind. apply pwp_still; [auto with still|]. intros launch s6 C6.
  assert (C' : calm s s6) by by do 3 etrans. clear C C4 C5 C6. assert (L6 : lawful s6) by by apply C'.
  assert (K6 : Clean s6) by by apply (calm_Clean s). clear fail.
  pwp_bind. set (spec := spec_of sup environ root generation). apply note_allowed; [done|done|]. intros s7 L7 B7 _.
  destruct K6 as (K1 & K2 & K3). destruct (launch spec) as [child|e].
  2: { apply pwp_ret. split; [done|]. left. unfold Clean. by rewrite B7. }
  destruct (validateChild child generation) as [e|] eqn:VV.
  { apply abandon_spec; [done| |right]; rewrite B7; destruct child; cbn; rewrite ?K1; done. }
  destruct child as [c|]; [|done]. assert (Bc := accepted_output _ _ _ S VC).
  apply record_child_spec; try done; rewrite B7; cbn; [by rewrite K1|done..].
Qed.
