(* ===== verification/CodexRuntime.v ===== *)
(** * The runtime that restarts the agent ([internal/codex/runtime.go])

    [Start], [Close] and the goroutine [run] share a [Runtime].  Each is a point in
    the record, and a [move] takes one of them to its next point: from one critical
    section, [select] or head of a loop to the next.  The context of the runtime may
    end before any look at it. *)
From S2P Require Import Prelude GoStrings Json RoomTypes Ports Jsonrpc RpcClient Adapter Process Supervisor.

(** ** Configuration and delays *)

Record RuntimeConfig := { rc_ProjectRoot : string; rc_RestartInitial : Z; rc_RestartMaximum : Z }.
Definition defaultRestartInitial : Z := 250 * 1000000.
Definition defaultRestartMaximum : Z := 10 * 1000000000.
(** [sink] and [sleeper]: whether they are there. *)
Definition NewRuntime (supervisor sink sleeper : bool) (c : RuntimeConfig) : result cerror RuntimeConfig :=
  if negb supervisor then Err (CS ErrNilSupervisor)
  else if negb sink then Err (CS ErrNilCheckpointSink)
  else if negb sleeper then Err (CS ErrNilSleeper)
  else if negb (HasPrefix (rc_ProjectRoot c) "/") then Err (CS ErrInvalidRuntimeConfig) else
  let initial := if rc_RestartInitial c =? 0 then defaultRestartInitial else rc_RestartInitial c in
  let maximum := if rc_RestartMaximum c =? 0 then defaultRestartMaximum else rc_RestartMaximum c in
  if (initial <=? 0) || (maximum <=? 0) || (maximum <? initial) then Err (CS ErrInvalidRuntimeConfig)
  else Ok {| rc_ProjectRoot := clean_abs (rc_ProjectRoot c); rc_RestartInitial := initial; rc_RestartMaximum := maximum |}.
Definition nextBackoff (current maximum : Z) : Z :=
  if (maximum <=? current) || (Z.quot maximum 2 <? current) then maximum else current * 2.

(** ** State *)

(** Where the call of [Start] that was let in is; [TNone]: there is none yet. *)
Inductive tpoint :=
| TNone
| TStarting
| TFailed (e : cerror)
| TFailing (e : cerror) (closed : bool)
| TGot (k : nat)
| TStop (k : nat)
| TStopped (e : option cerror)
| TClosing (e : option cerror)
| TLaunch (k : nat)
| TDone (e : option cerror).
(** Where [run] is: at the head of a loop, or before its deferred calls. *)
Inductive opoint :=
| ONone
| OForward (k : nat) (open : bool)
| ODrain (k : nat) (deadline : bool)
| ORetry (k : nat) (delay : Z) (e : cerror)
| OStart (delay : Z)
| ORecover (delay : Z)
| OReturn
| OReturned
| OEnded.
Inductive kpoint := KStartup | KOwner | KWait | KClose | KClosed | KDone (e : option cerror).
Record Runtime := mkRuntime
  { rt_sys : system; rt_started : bool; rt_starting : bool; rt_closed : bool; rt_session : option nat; rt_adapter : option nat;
    rt_startupDone : nat; rt_ownerStarted : bool; rt_ownerDone : nat; rt_err : option cerror; rt_eventsClosed : nat;
    rt_starter : tpoint; rt_owner : opoint; rt_closers : list kpoint; rt_refused : list cerror }.
Definition new_runtime : Runtime :=
  mkRuntime (mkSystem 0 None [] []) false false false None None 0 false 0 None 0 TNone ONone [] [].
Abbreviation Rt := (Proc Runtime).
Definition upd_sys (f : system -> system) (r : Runtime) : Runtime :=
  mkRuntime (f (rt_sys r)) (rt_started r) (rt_starting r) (rt_closed r) (rt_session r) (rt_adapter r) (rt_startupDone r) (rt_ownerStarted r)
            (rt_ownerDone r) (rt_err r) (rt_eventsClosed r) (rt_starter r) (rt_owner r) (rt_closers r) (rt_refused r).
Definition set_flags (started starting closed : bool) (r : Runtime) : Runtime :=
  mkRuntime (rt_sys r) started starting closed (rt_session r) (rt_adapter r) (rt_startupDone r) (rt_ownerStarted r)
            (rt_ownerDone r) (rt_err r) (rt_eventsClosed r) (rt_starter r) (rt_owner r) (rt_closers r) (rt_refused r).
Definition set_session (k : option nat) (r : Runtime) : Runtime :=
  mkRuntime (rt_sys r) (rt_started r) (rt_starting r) (rt_closed r) k k (rt_startupDone r) (rt_ownerStarted r)
            (rt_ownerDone r) (rt_err r) (rt_eventsClosed r) (rt_starter r) (rt_owner r) (rt_closers r) (rt_refused r).
(** [close(r.startupDone)]: how often. *)
Definition close_startup (r : Runtime) : Runtime :=
  mkRuntime (rt_sys r) (rt_started r) false (rt_closed r) (rt_session r) (rt_adapter r) (S (rt_startupDone r)) (rt_ownerStarted r)
            (rt_ownerDone r) (rt_err r) (rt_eventsClosed r) (rt_starter r) (rt_owner r) (rt_closers r) (rt_refused r).
Definition set_ownerStarted (r : Runtime) : Runtime :=
  mkRuntime (rt_sys r) (rt_started r) (rt_starting r) (rt_closed r) (rt_session r) (rt_adapter r) (rt_startupDone r) true
            (rt_ownerDone r) (rt_err r) (rt_eventsClosed r) (rt_starter r) (rt_owner r) (rt_closers r) (rt_refused r).
Definition close_owner (r : Runtime) : Runtime :=
  mkRuntime (rt_sys r) (rt_started r) (rt_starting r) (rt_closed r) (rt_session r) (rt_adapter r) (rt_startupDone r) (rt_ownerStarted r)
            (S (rt_ownerDone r)) (rt_err r) (rt_eventsClosed r) (rt_starter r) (rt_owner r) (rt_closers r) (rt_refused r).
Definition set_err (e : option cerror) (r : Runtime) : Runtime :=
  mkRuntime (rt_sys r) (rt_started r) (rt_starting r) (rt_closed r) (rt_session r) (rt_adapter r) (rt_startupDone r) (rt_ownerStarted r)
            (rt_ownerDone r) e (rt_eventsClosed r) (rt_starter r) (rt_owner r) (rt_closers r) (rt_refused r).
Definition set_eventsClosed (n : nat) (r : Runtime) : Runtime :=
  mkRuntime (rt_sys r) (rt_started r) (rt_starting r) (rt_closed r) (rt_session r) (rt_adapter r) (rt_startupDone r) (rt_ownerStarted r)
            (rt_ownerDone r) (rt_err r) n (rt_starter r) (rt_owner r) (rt_closers r) (rt_refused r).
Definition set_starter (p : tpoint) (r : Runtime) : Runtime :=
  mkRuntime (rt_sys r) (rt_started r) (rt_starting r) (rt_closed r) (rt_session r) (rt_adapter r) (rt_startupDone r) (rt_ownerStarted r)
            (rt_ownerDone r) (rt_err r) (rt_eventsClosed r) p (rt_owner r) (rt_closers r) (rt_refused r).
Definition set_owner (p : opoint) (r : Runtime) : Runtime :=
  mkRuntime (rt_sys r) (rt_started r) (rt_starting r) (rt_closed r) (rt_session r) (rt_adapter r) (rt_startupDone r) (rt_ownerStarted r)
            (rt_ownerDone r) (rt_err r) (rt_eventsClosed r) (rt_starter r) p (rt_closers r) (rt_refused r).
Definition set_closers (l : list kpoint) (r : Runtime) : Runtime :=
  mkRuntime (rt_sys r) (rt_started r) (rt_starting r) (rt_closed r) (rt_session r) (rt_adapter r) (rt_startupDone r) (rt_ownerStarted r)
            (rt_ownerDone r) (rt_err r) (rt_eventsClosed r) (rt_starter r) (rt_owner r) l (rt_refused r).
Definition refuse_call (e : cerror) (r : Runtime) : Runtime :=
  mkRuntime (rt_sys r) (rt_started r) (rt_starting r) (rt_closed r) (rt_session r) (rt_adapter r) (rt_startupDone r) (rt_ownerStarted r)
            (rt_ownerDone r) (rt_err r) (rt_eventsClosed r) (rt_starter r) (rt_owner r) (rt_closers r) (rt_refused r ++ [e]).
Definition sys {A} (m : Run A) : Rt A := fun r => let '(s, a) := m (rt_sys r) in (upd_sys (fun _ => s) r, a).
Definition modify (f : Runtime -> Runtime) : Rt unit := proc_modify f.
(** The end of the runtime's context. *)
Definition cancel_with (e : csentinel) (r : Runtime) : Runtime :=
  upd_sys (fun s => mkSystem (clock s) (Some (default e (cancelled s))) (sessions s) (trace s)) r.

(** ** Sections of the runtime *)

(** [closeEventsOnce.Do] *)
Definition closeEvents : Rt unit := fun r =>
  if Nat.eqb (rt_eventsClosed r) 0 then (sys (note EfCloseEvents);; modify (set_eventsClosed 1)) r else (r, tt).
(** The first error stays. *)
Definition recordRuntimeError (e : option cerror) : Rt unit := fun r =>
  (match e, rt_err r with Some e, None => set_err (Some e) r | _, _ => r end, tt).
Definition removeSession (k : nat) : Rt unit := fun r => (if bool_decide (rt_session r = Some k) then set_session None r else r, tt).

Section runtime.
Context (out : outside) (sup : Supervisor) (config : RuntimeConfig).
Let maximum := rc_RestartMaximum config.
Let initial := rc_RestartInitial config.
Definition start_process : Run (result cerror nat) := Start out sup (rc_ProjectRoot config) (Some StoreSink).

Definition installReplacement (k : nat) : Rt bool :=
  ended ← sys (ctx_err out);
  r ← proc_get;
  if rt_closed r || has ended || has (rt_session r) then mret false else modify (set_session (Some k));; mret true.
(** Whether the event was taken before the context ended. *)
Definition publish (e : AgentEvent) : Run bool :=
  ended ← ctx_err out;
  pick ← ask (ou_pick out);
  if has ended && Nat.eqb pick 0 then mret false else note (EfEvent e);; mret true.
(** [sleeper.Sleep] returned in time. *)
Definition sleep (delay : Z) : Run bool :=
  ended ← ctx_err out;
  pick ← ask (ou_pick out);
  let ok := negb (has ended && Nat.eqb pick 0) in
  note (EfSleep delay ok);; mret ok.
Definition session_done (k : nat) : Run bool := x ← get_session k; mret (match x with Some x => has (sn_terminal x) | None => false end).
(** [publishSessionEvent]: whether the session failed meanwhile, and whether to stop. *)
Definition publishSessionEvent (k : nat) (e : AgentEvent) : Rt (bool * bool) :=
  gone ← sys (session_done k);
  (if gone : bool then removeSession k else mret tt);;
  pick ← sys (ask (ou_pick out));
  ended ← sys (ctx_err out);
  if has ended && Nat.eqb pick 0 then mret (false, true)
  else if negb gone && Nat.eqb pick 1 then
    x ← sys (ask (ou_ending out));
    sys (observeTerminal k x);;
    removeSession k;;
    sent ← sys (publish e);
    mret (if sent : bool then (true, false) else (false, true))
  else sys (note (EfEvent e));; mret (gone, false).

(** ** The owner *)

Definition runtime_event (kind : string) (e : option cerror) : AgentEvent :=
  {| ae_Kind := kind; ae_ThreadID := ""; ae_TurnID := ""; ae_ItemID := ""; ae_Delta := ""; ae_Completed := None;
     ae_Error := (fun e => ErrText (cerror_text e)) <$> e |}.
Definition goto (p : opoint) : Rt unit := modify (set_owner p).
(** [r.recordRuntimeError(r.supervisor.Stop(r.ctx, session)); return] *)
Definition stop_and_return (k : nat) : Rt unit := e ← sys (Stop out k); recordRuntimeError e;; goto OReturn.
Definition forward (k : nat) (open : bool) : Rt unit :=
  pick ← sys (ask (ou_pick out));
  match pick with
  | 0%nat =>
      ended ← sys (ctx_err out);
      if has ended then removeSession k;; stop_and_return k else mret tt
  | 1%nat =>
      x ← sys (ask (ou_ending out));
      sys (observeTerminal k x);;
      removeSession k;; goto (ODrain k true)
  | 2%nat => if open then goto (OForward k false) else mret tt
  | _ =>
      if open then
        e ← sys (ask (ou_event out));
        r ← publishSessionEvent k e;
        match r with
        | (_, true) => removeSession k;; stop_and_return k
        | (true, false) => removeSession k;; goto (ODrain k true)
        | (false, false) => mret tt
        end
      else mret tt
  end.
(** The events of the failed session are at their end. *)
Definition restart_after (k : nat) : Rt unit :=
  e ← sys (sessionErr k);
  sent ← sys (publish (runtime_event "runtime-unavailable" e));
  if negb sent then stop_and_return k else
  stopErr ← sys (Stop out k);
  match stopErr with
  | None => ok ← sys (sleep initial); goto (if ok : bool then OStart initial else OReturn)
  | Some e =>
      if cerror_Is e ErrCheckpointPersistence then goto (ORetry k initial e)
      else recordRuntimeError (Some e);; goto (ORecover initial)
  end.
Definition drain (k : nat) (deadline : bool) : Rt unit :=
  pick ← sys (ask (ou_pick out));
  match pick with
  | 0%nat => ended ← sys (ctx_err out); if has ended then stop_and_return k else mret tt
  | 1%nat => if deadline then sys (interruptRPC k);; goto (ODrain k false) else mret tt
  | 2%nat => restart_after k
  | _ =>
      e ← sys (ask (ou_event out));
      sent ← sys (publish e);
      if sent : bool then mret tt else stop_and_return k
  end.
(** The stop is proven, but not recorded. *)
Definition retry (k : nat) (delay : Z) (e : cerror) : Rt unit :=
  ok ← sys (sleep delay);
  if negb ok then recordRuntimeError (Some e);; goto OReturn else
  stopErr ← sys (Stop out k);
  match stopErr with
  | None => goto (OStart delay)
  | Some e =>
      let delay := nextBackoff delay maximum in
      if cerror_Is e ErrCheckpointPersistence then goto (ORetry k delay e)
      else recordRuntimeError (Some e);; goto (ORecover delay)
  end.
Definition restart (delay : Z) : Rt unit :=
  r ← sys start_process;
  match r with
  | Err e =>
      if cerror_Is e ErrProcessCleanup || cerror_Is e ErrCheckpointPersistence
      then recordRuntimeError (Some e);; goto (ORecover (nextBackoff delay maximum))
      else
        let delay := nextBackoff delay maximum in
        ok ← sys (sleep delay); goto (if ok : bool then OStart delay else OReturn)
  | Ok k =>
      installed ← installReplacement k;
      if negb installed then stop_and_return k else
      sent ← sys (publish (runtime_event "runtime-ready" None));
      if sent : bool then goto (OForward k true) else removeSession k;; stop_and_return k
  end.
Definition owner_at (p : opoint) : Rt unit :=
  match p with
  | OForward k open => forward k open
  | ODrain k deadline => drain k deadline
  | ORetry k delay e => retry k delay e
  | OStart delay => restart delay
  | ORecover delay => ok ← sys (sleep delay); goto (if ok : bool then ORecover (nextBackoff delay maximum) else OReturn)
  | OReturn => closeEvents;; goto OReturned
  | OReturned => modify close_owner;; goto OEnded
  | ONone | OEnded => mret tt
  end.
Definition owner_step : Rt unit := r ← proc_get; owner_at (rt_owner r).

(** ** Start *)

Definition to (p : tpoint) : Rt unit := modify (set_starter p).
(** The first critical section of a call. *)
Definition call_Start : Rt unit :=
  r ← proc_get;
  if rt_closed r then modify (refuse_call (CS ErrRuntimeClosed))
  else if rt_started r then modify (refuse_call (CS ErrRuntimeAlreadyStarted))
  else modify (set_flags true true (rt_closed r));; to TStarting.
Definition starter_at (p : tpoint) (r : Runtime) : Rt unit :=
  match p with
  | TStarting => x ← sys start_process; to (match x with Ok k => TGot k | Err e => TFailed e end)
  | TFailed e => modify close_startup;; to (TFailing e (rt_closed r))
  | TFailing e closed => (if closed then closeEvents else mret tt);; to (TDone (Some e))
  | TGot k =>
      ended ← sys (ctx_err out);
      if rt_closed r || has ended then to (TStop k)
      else modify (set_session (Some k));; modify set_ownerStarted;; modify close_startup;; to (TLaunch k)
  | TStop k => e ← sys (Stop out k); recordRuntimeError e;; to (TStopped e)
  | TStopped e => modify close_startup;; to (TClosing e)
  | TClosing e =>
      closeEvents;;
      ended ← sys (ctx_err out);
      to (TDone (Some (match e, ended with Some e, _ => e | None, Some c => CS c | None, None => CS ErrRuntimeClosed end)))
  | TLaunch k => goto (OForward k true);; to (TDone None)
  | TNone | TDone _ => mret tt
  end.
Definition starter_step : Rt unit := r ← proc_get; starter_at (rt_starter r) r.

(** ** Close *)

Definition call_Close : Rt unit :=
  r ← proc_get;
  (if rt_closed r then mret tt
   else modify (set_flags (rt_started r) (rt_starting r) true);; if rt_started r then modify (cancel_with Canceled) else mret tt);;
  modify (fun r => set_closers (rt_closers r ++ [if rt_started r then KStartup else KClose]) r).
(** [ended]: the context of the call, when its [select] takes it. *)
Definition closer_at (j : nat) (ended : option csentinel) (r : Runtime) : Rt unit :=
  let move p := modify (fun r => set_closers (<[j := p]> (rt_closers r)) r) in
  match rt_closers r !! j, ended with
  | Some KStartup, Some e | Some KWait, Some e => move (KDone (Some (CS e)))
  | Some KStartup, None => if Nat.eqb (rt_startupDone r) 0 then mret tt else move KOwner
  | Some KOwner, _ => move (if rt_ownerStarted r then KWait else KClose)
  | Some KWait, None => if Nat.eqb (rt_ownerDone r) 0 then mret tt else move (KDone (rt_err r))
  | Some KClose, _ => closeEvents;; move KClosed
  | Some KClosed, _ => move (KDone (rt_err r))
  | _, _ => mret tt
  end.
Definition closer_step (j : nat) (ended : option csentinel) : Rt unit := r ← proc_get; closer_at j ended r.

(** ** Moves *)

Inductive move := MStart | MStarter | MOwner | MClose | MCloser (j : nat) (ended : option csentinel) | MEnd (e : csentinel).
Definition move_step (r : Runtime) (m : move) : Runtime :=
  match m with
  | MStart => (call_Start r).1
  | MStarter => (starter_step r).1
  | MOwner => (owner_step r).1
  | MClose => (call_Close r).1
  | MCloser j ended => (closer_step j ended r).1
  | MEnd e => if rt_started r then cancel_with e r else r
  end.
Definition moves (r : Runtime) (l : list move) : Runtime := foldl move_step r l.

(** ** The agent port *)

Definition unavailableMutation (operation : string) : error :=
  ErrMutation operation DeliveryNotSent (ErrText (csentinel_text ErrRuntimeUnavailable)).
Definition unavailable : error := ErrText (csentinel_text ErrRuntimeUnavailable).
(** [call]: what the client of the session returns. *)
Definition with_adapter_of {A} (r : Runtime) (e : error) (f : nat -> result error A) : result error A :=
  match rt_adapter r with None => Err e | Some k => f k end.
Section port.
Context (r : Runtime) (call : nat -> string -> params -> (string -> bool) -> outcome).
Let root := rc_ProjectRoot config.
Definition StartThread : result error ThreadSnapshot :=
  with_adapter_of r (unavailableMutation "thread/start") (fun k => Adapter.StartThread (call k) root).
Definition ReadThread (id : ThreadID) : result error ThreadSnapshot :=
  with_adapter_of r unavailable (fun k => Adapter.ReadThread (call k) root id).
Definition ResumeThread (id : ThreadID) : result error ThreadSnapshot :=
  with_adapter_of r unavailable (fun k => Adapter.ResumeThread (call k) root id).
Definition StartTurn (id : ThreadID) (cid : ClientMessageID) (text : string) : result error TurnID :=
  with_adapter_of r (unavailableMutation "turn/start") (fun k => Adapter.StartTurn (call k) root id cid text).
Definition SteerTurn (id : ThreadID) (turn : TurnID) (text : string) : result error unit :=
  with_adapter_of r (unavailableMutation "turn/steer") (fun k => Adapter.SteerTurn (call k) id turn text).
Definition InterruptTurn (id : ThreadID) (turn : TurnID) : result error unit :=
  with_adapter_of r (unavailableMutation "turn/interrupt") (fun k => Adapter.InterruptTurn (call k) id turn).
End port.
End runtime.
