(* ===== verification/CodexRuntimeSafety.v ===== *)
(** * What the restarting runtime guarantees

    However [Start], [Close] and the owner interleave: one process at a time, each
    recorded before it is used and forgotten only after its stop was proven; no
    channel is closed twice or used after it was closed; and a [Close] that reports
    no error leaves nothing behind. *)
From S2P Require Import Prelude GoStrings Json RoomTypes StoreRecovery Jsonrpc RpcClient Adapter Process Supervisor SupervisorSafety CodexRuntime.

(** ** The end of the events *)

Definition open (s : system) : Prop := EfCloseEvents ∉ trace s.
(** A procedure that does not close the events. *)
Definition keeps_open {A} (m : Run A) : Prop := forall s, open s -> open (m s).1.
Create HintDb keeps_open.
Lemma keeps_open_ret {A} (a : A) : keeps_open (mret a). Proof. by intros s. Qed.
Lemma keeps_open_bind {A B} (m : Run A) (k : A -> Run B) : keeps_open m -> (forall a, keeps_open (k a)) -> keeps_open (m ≫= k).
Proof. intros H K s O. unfold mbind, Proc_bind. specialize (H s O). destruct (m s) as [s' a]. by apply K. Qed.
Lemma keeps_open_ask {A} (f : nat -> A) : keeps_open (ask f). Proof. by intros s. Qed.
Lemma keeps_open_get k : keeps_open (get_session k). Proof. by intros s. Qed.
Lemma keeps_open_change k f : keeps_open (change_session k f). Proof. by intros s. Qed.
Lemma keeps_open_add x : keeps_open (add_session x). Proof. by intros s. Qed.
Lemma keeps_open_ctx_err out : keeps_open (ctx_err out).
Proof. intros s H. unfold ctx_err. by destruct (cancelled s). Qed.
Lemma keeps_open_note e : e <> EfCloseEvents -> keeps_open (note e).
Proof. intros N s H. unfold open. cbn. rewrite elem_of_app, list_elem_of_singleton. intros [?|?]; [done|congruence]. Qed.
#[export] Hint Resolve keeps_open_ret keeps_open_ask keeps_open_get keeps_open_change keeps_open_add keeps_open_ctx_err : keeps_open.
#[export] Hint Extern 1 (keeps_open (note _)) => by apply keeps_open_note : keeps_open.
Ltac keeps_open_tac :=
  repeat match goal with
         | |- keeps_open (mbind _ _) => apply keeps_open_bind
         | |- forall _, _ => intros ?
         | |- keeps_open (if ?b then _ else _) => destruct b
         | |- keeps_open (match ?x with _ => _ end) => destruct x
         | |- keeps_open _ => solve [eauto with keeps_open]
         end.
Lemma keeps_open_interrupt k : keeps_open (interruptRPC k). Proof. unfold interruptRPC. keeps_open_tac. Qed.
#[export] Hint Resolve keeps_open_interrupt : keeps_open.
Lemma keeps_open_observeTerminal k x : keeps_open (observeTerminal k x). Proof. unfold observeTerminal, publishTerminal. keeps_open_tac. Qed.
Lemma keeps_open_call_sink out sink c : keeps_open (call_sink out sink c). Proof. unfold call_sink. keeps_open_tac. Qed.
Lemma keeps_open_stopCurrent out c : keeps_open (stopCurrent out c). Proof. unfold stopCurrent. keeps_open_tac. Qed.
#[export] Hint Resolve keeps_open_observeTerminal keeps_open_call_sink keeps_open_stopCurrent : keeps_open.
Lemma keeps_open_Stop out k : keeps_open (Stop out k). Proof. unfold Stop, stopSession, persistStopped. keeps_open_tac. Qed.
#[export] Hint Resolve keeps_open_Stop : keeps_open.
Lemma keeps_open_Start out sup root sink : keeps_open (Start out sup root sink).
Proof. unfold Start, abandon, record_child, start_session, abandon, persistStopped, newProcessGeneration. keeps_open_tac. Qed.
Lemma keeps_open_sessionErr k : keeps_open (sessionErr k). Proof. unfold sessionErr. keeps_open_tac. Qed.
Lemma keeps_open_session_done k : keeps_open (session_done k). Proof. unfold session_done. keeps_open_tac. Qed.
Lemma keeps_open_publish out e : keeps_open (publish out e). Proof. unfold publish. keeps_open_tac. Qed.
Lemma keeps_open_sleep out d : keeps_open (sleep out d). Proof. unfold sleep. keeps_open_tac. Qed.
#[export] Hint Resolve keeps_open_Start keeps_open_sessionErr keeps_open_session_done keeps_open_publish keeps_open_sleep : keeps_open.
Lemma still_session_done k : still (session_done k). Proof. unfold session_done. still_tac. Qed.
Lemma still_publish out e : still (publish out e). Proof. unfold publish. still_tac. Qed.
Lemma still_sleep out d : still (sleep out d). Proof. unfold sleep. still_tac. Qed.
#[export] Hint Resolve still_session_done still_publish still_sleep : still.

(** ** Blocks of the owner *)

(** What a block of the owner leaves as it is, and its first error. *)
Record frame (r r' : Runtime) : Prop := {
  fr_started : rt_started r' = rt_started r;
  fr_closed : rt_closed r' = rt_closed r;
  fr_startup : rt_startupDone r' = rt_startupDone r;
  fr_ownerStarted : rt_ownerStarted r' = rt_ownerStarted r;
  fr_ownerDone : rt_ownerDone r' = rt_ownerDone r;
  fr_events : rt_eventsClosed r' = rt_eventsClosed r;
  fr_starter : rt_starter r' = rt_starter r;
  fr_closers : rt_closers r' = rt_closers r;
  fr_err : rt_err r <> None -> rt_err r' <> None;
  fr_open : open (rt_sys r) -> open (rt_sys r') }.
#[export] Instance frame_preorder : PreOrder frame.
Proof.
  split; [intros r; by split|]. intros a b c [A1 A2 A3 A4 A5 A6 A7 A8 A9 A10] [B1 B2 B3 B4 B5 B6 B7 B8 B9 B10].
  split; try congruence; auto.
Qed.
(** The ledger at each point of the owner. *)
Definition owner_ok (err : option cerror) (p : opoint) (s : system) : Prop :=
  match p with
  | ONone => True
  | OForward k _ | ODrain k _ => Live k s
  | ORetry k _ _ => Unsaved k s
  | OStart _ => Clean s
  | ORecover _ => err <> None
  | OReturn | OReturned | OEnded => Clean s \/ err <> None
  end.
(** Inside a block that began at [r0]. *)
Record inside (r0 : Runtime) (P : system -> Prop) (r : Runtime) : Prop := {
  in_lawful : lawful (rt_sys r);
  in_state : P (rt_sys r);
  in_frame : frame r0 r }.
Definition done_block (r0 r : Runtime) : Prop :=
  lawful (rt_sys r) /\ owner_ok (rt_err r) (rt_owner r) (rt_sys r) /\ frame r0 r.
Definition stable (P : system -> Prop) : Prop := forall s s', calm s s' -> P s -> P s'.
Lemma stable_Live k : stable (Live k). Proof. intros s s'. apply calm_Live. Qed.
Lemma stable_Clean : stable Clean. Proof. intros s s'. apply calm_Clean. Qed.
Lemma stable_Unsaved k : stable (Unsaved k). Proof. intros s s'. apply calm_Unsaved. Qed.
Lemma stable_True : stable (fun _ => True). Proof. done. Qed.
#[export] Hint Resolve stable_Live stable_Clean stable_Unsaved stable_True : still.

Lemma pwp_sys {A} (m : Run A) (Q : A -> Runtime -> Prop) r :
  pwp m (fun a s' => Q a (upd_sys (fun _ => s') r)) (rt_sys r) -> pwp (sys m) Q r.
Proof. unfold pwp, sys. by destruct (m (rt_sys r)). Qed.
Lemma inside_sys {A} (m : Run A) r0 (P : system -> Prop) (R : A -> system -> Prop) (Q : A -> Runtime -> Prop) r :
  keeps_open m -> inside r0 P r -> pwp m (fun a s' => lawful s' /\ R a s') (rt_sys r) ->
  (forall a r', inside r0 (R a) r' -> rt_owner r' = rt_owner r -> rt_err r' = rt_err r -> Q a r') -> pwp (sys m) Q r.
Proof.
  intros O [L S F] H HQ. apply pwp_sys. unfold pwp in *. destruct H as [L' H']. apply HQ; [|done|done]. split; [done|done|].
  etrans; [exact F|]. split; try done. cbn. apply O.
Qed.
Lemma inside_still {A} (m : Run A) r0 P (Q : A -> Runtime -> Prop) r :
  still m -> keeps_open m -> stable P -> inside r0 P r ->
  (forall a r', inside r0 P r' -> rt_owner r' = rt_owner r -> rt_err r' = rt_err r -> Q a r') -> pwp (sys m) Q r.
Proof.
  intros S O T I HQ. eapply (inside_sys m r0 P (fun _ => P)); [done|done| |done]. apply pwp_still; [done|].
  intros a s' C. split; [apply C, I|]. eapply T; [exact C|apply I].
Qed.
Lemma inside_frame r0 P r r' : inside r0 P r -> rt_sys r' = rt_sys r -> frame r r' -> inside r0 P r'.
Proof. intros [L S F] E F'. split; rewrite ?E; try done. by etrans. Qed.
Lemma removeSession_inside r0 P k (Q : unit -> Runtime -> Prop) r : inside r0 P r ->
  (forall r', inside r0 P r' -> rt_owner r' = rt_owner r -> rt_err r' = rt_err r -> Q tt r') -> pwp (removeSession k) Q r.
Proof.
  intros I H. unfold pwp, removeSession. cbn. case_bool_decide; [|by apply H]. apply H; [|done|done].
  by apply (inside_frame r0 P r).
Qed.
Lemma record_inside r0 P e (Q : unit -> Runtime -> Prop) r : inside r0 P r ->
  (forall r', inside r0 P r' -> (e <> None \/ rt_err r <> None -> rt_err r' <> None) -> Q tt r') -> pwp (recordRuntimeError e) Q r.
Proof.
  intros I H. unfold pwp, recordRuntimeError. cbn. destruct e as [e|], (rt_err r) eqn:E; apply H; try done; try (intros [?|?]; congruence).
  apply (inside_frame r0 P r); [done|done|]. split; cbn; done.
Qed.
Lemma goto_done r0 P p r : inside r0 P r -> (P (rt_sys r) -> owner_ok (rt_err r) p (rt_sys r)) -> pwp (goto p) (fun _ => done_block r0) r.
Proof. intros [L S F] H. split; [done|]. split; [by apply H|]. etrans; [exact F|]. by split. Qed.

Section owner.
Context (out : outside) (sup : Supervisor) (config : RuntimeConfig) (r0 : Runtime).
Definition ends (m : Rt unit) (P : system -> Prop) : Prop := forall r, inside r0 P r -> pwp m (fun _ => done_block r0) r.

(** [Stop] in a block. *)
Definition stopped (k : nat) (e : option cerror) (s : system) : Prop :=
  match e with
  | None => Clean s
  | Some e => cerror_Is e ErrCheckpointPersistence = true /\ Unsaved k s \/ cerror_Is e ErrCheckpointPersistence = false
  end.
Lemma Stop_inside k P (Q : option cerror -> Runtime -> Prop) r : (forall s, P s -> Live k s \/ Unsaved k s) -> inside r0 P r ->
  (forall e r', inside r0 (stopped k e) r' -> Q e r') -> pwp (sys (Stop out k)) Q r.
Proof.
  intros HP I HQ. eapply (inside_sys _ r0 P (stopped k)); [auto with keeps_open|done| |auto].
  destruct (HP _ (in_state _ _ _ I)) as [H|H]; eapply pwp_mono; [apply Stop_live; [apply I|done]| |apply Stop_unsaved; [apply I|done]|];
    intros e s' [L' P']; (split; [done|]); destruct e; cbn in *; tauto.
Qed.
Lemma stop_and_return_ends k : ends (stop_and_return out k) (Live k).
Proof.
  intros r I. unfold stop_and_return. pwp_bind. apply (Stop_inside k (Live k)); [auto|done|]. intros e r1 I1.
  pwp_bind. apply (record_inside r0 _ e _ _ I1). intros r2 I2 E2. eapply goto_done; [exact I2|]. cbn.
  destruct e; cbn; [intros _; right; auto|auto].
Qed.
Lemma removed_ends k m P : ends m P -> ends (removeSession k;; m) P.
Proof. intros H r I. pwp_bind. apply (removeSession_inside r0 P); [done|]. intros r' I' _ _. by apply H. Qed.
Lemma goto_ends p (P : system -> Prop) : (forall err s, P s -> owner_ok err p s) -> ends (goto p) P.
Proof. intros H r I. eapply goto_done; [exact I|]. apply H. Qed.
Lemma ret_ends P r : inside r0 P r -> (P (rt_sys r) -> owner_ok (rt_err r) (rt_owner r) (rt_sys r)) -> pwp (mret tt) (fun _ => done_block r0) r.
Proof. intros [L S F] H. split; [done|]. split; [by apply H|done]. Qed.
Ltac calmly := pwp_bind; eapply (inside_still _ r0); [auto with still|auto with keeps_open| |eassumption|]; [auto with still|].
(** The block so far kept the point of the owner. *)
Lemma forward_ends k open_ r : inside r0 (Live k) r -> rt_owner r = OForward k open_ -> pwp (forward out k open_) (fun _ => done_block r0) r.
Proof.
  intros I E. unfold forward. calmly. intros pick r1 I1 E1 _.
  assert (stay : forall r', inside r0 (Live k) r' -> rt_owner r' = rt_owner r1 -> pwp (mret tt) (fun _ => done_block r0) r').
  { intros r' I' E'. eapply ret_ends; [exact I'|]. rewrite E', E1, E. done. }
  assert (failed : ends (removeSession k;; goto (ODrain k true)) (Live k)) by (apply removed_ends, goto_ends; auto).
  assert (quit : ends (removeSession k;; stop_and_return out k) (Live k)) by apply removed_ends, stop_and_return_ends.
  destruct pick as [|[|[|pick]]].
  - calmly. intros ended r2 I2 E2 _. destruct (has ended); [by apply quit|by apply stay].
  - calmly. intros x r2 I2 _ _. calmly. intros _ r3 I3 _ _. by apply failed.
  - destruct open_; [apply (goto_ends (OForward k false) (Live k)); [by auto|done]|by apply stay].
  - destruct open_; [|by apply stay]. calmly. intros e r2 I2 E2 _. pwp_bind.
    unfold publishSessionEvent. calmly. intros gone r3 I3 E3 _. pwp_bind.
    apply (pwp_mono _ (fun _ r' => inside r0 (Live k) r' /\ rt_owner r' = rt_owner r2)).
    { destruct gone; [|by apply pwp_ret]. apply (removeSession_inside r0 (Live k)); [done|]. intros r' I' E' _. split; [done|congruence]. }
    intros _ r4 [I4 E4]. calmly. intros pick' r5 I5 E5 _. calmly. intros ended r6 I6 E6 _.
    assert (E26 : rt_owner r6 = rt_owner r2) by congruence.
    destruct (has ended && _); [apply pwp_ret; by apply quit|]. destruct (negb gone && _).
    + calmly. intros x r7 I7 E7 _. calmly. intros _ r8 I8 E8 _. pwp_bind. apply (removeSession_inside r0 (Live k)); [done|].
      intros r9 I9 E9 _. calmly. intros sent r10 I10 E10 _. assert (E210 : rt_owner r10 = rt_owner r2) by congruence.
      destruct sent; apply pwp_ret; [by apply failed|by apply quit].
    + pwp_bind. apply (inside_sys _ r0 (Live k) (fun _ => Live k)); [by apply keeps_open_note|done| |].
      { apply pwp_still; [by apply still_note|]. intros _ s' C. split; [apply C, I6|]. eapply calm_Live; [exact C|apply I6]. }
      intros _ r7 I7 E7 _. apply pwp_ret. destruct gone; [by apply failed|apply stay; [done|congruence]].
Qed.
Lemma restart_after_ends k : ends (restart_after out config k) (Live k).
Proof.
  intros r I. unfold restart_after. calmly. intros e r1 I1 _ _. calmly. intros sent r2 I2 _ _.
  destruct (negb sent); [by apply stop_and_return_ends|]. pwp_bind. apply (Stop_inside k (Live k)); [auto|done|]. intros stopErr r3 I3.
  destruct stopErr as [x|]; [|change (inside r0 Clean r3) in I3].
  - destruct (cerror_Is x _) eqn:X.
    + eapply goto_done; [exact I3|]. cbn. intros [[_ U]|?]; [done|congruence].
    + pwp_bind. apply (record_inside r0 _ (Some x) _ _ I3). intros r4 I4 E4. eapply goto_done; [exact I4|]. cbn. intros _. apply E4. by left.
  - calmly. intros ok r4 I4 _ _. eapply goto_done; [exact I4|]. destruct ok; cbn; auto.
Qed.
Lemma drain_ends k deadline r : inside r0 (Live k) r -> rt_owner r = ODrain k deadline -> pwp (drain out config k deadline) (fun _ => done_block r0) r.
Proof.
  intros I E. unfold drain. calmly. intros pick r1 I1 E1 _.
  assert (stay : forall r', inside r0 (Live k) r' -> rt_owner r' = rt_owner r1 -> pwp (mret tt) (fun _ => done_block r0) r').
  { intros r' I' E'. eapply ret_ends; [exact I'|]. rewrite E', E1, E. done. }
  destruct pick as [|[|[|pick]]].
  - calmly. intros ended r2 I2 E2 _. destruct (has ended); [by apply stop_and_return_ends|by apply stay].
  - destruct deadline; [|by apply stay]. calmly. intros _ r2 I2 _ _. eapply goto_done; [exact I2|done].
  - by apply restart_after_ends.
  - calmly. intros e r2 I2 E2 _. calmly. intros sent r3 I3 E3 _. destruct sent; [apply stay; [done|congruence]|by apply stop_and_return_ends].
Qed.
Lemma retry_ends k delay e : ends (retry out config k delay e) (Unsaved k).
Proof.
  intros r I. unfold retry. calmly. intros ok r1 I1 _ _. destruct (negb ok).
  - pwp_bind. apply (record_inside r0 _ (Some e) _ _ I1). intros r2 I2 E2. eapply goto_done; [exact I2|]. cbn. intros _. right. apply E2. by left.
  - pwp_bind. apply (Stop_inside k (Unsaved k)); [auto|done|]. intros stopErr r2 I2. destruct stopErr as [x|]; [|change (inside r0 Clean r2) in I2].
    + destruct (cerror_Is x _) eqn:X.
      * eapply goto_done; [exact I2|]. cbn. intros [[_ U]|?]; [done|congruence].
      * pwp_bind. apply (record_inside r0 _ (Some x) _ _ I2). intros r3 I3 E3. eapply goto_done; [exact I3|]. cbn. intros _. apply E3. by left.
    + eapply goto_done; [exact I2|done].
Qed.
Definition started (x : result cerror nat) (s : system) : Prop := match x with Ok k => Live k s | Err e => Clean s \/ flagged e = true end.
Lemma restart_ends delay : sound_policy sup -> ends (restart out sup config delay) Clean.
Proof.
  intros S r I. unfold restart. pwp_bind. apply (inside_sys _ r0 Clean started); [apply keeps_open_Start|done| |].
  { apply Start_spec; [done|apply I|apply I]. }
  intros [k|e] r1 I1 _ _.
  - change (inside r0 (Live k) r1) in I1. unfold installReplacement. pwp_bind. calmly. intros ended r2 I2 _ _. pwp_bind. unfold pwp at 1. cbn [proc_get fst snd].
    destruct (_ || _); [apply pwp_ret; by apply stop_and_return_ends|]. pwp_bind. unfold pwp at 1. apply pwp_ret. cbn [negb].
    assert (I3 : inside r0 (Live k) (modify (set_session (Some k)) r2).1) by by apply (inside_frame r0 (Live k) r2).
    revert I3. generalize ((modify (set_session (Some k)) r2).1). intros r3 I3. calmly. intros sent r4 I4 _ _. destruct sent.
    + eapply goto_done; [exact I4|done].
    + apply (removed_ends k (stop_and_return out k) (Live k)); [apply stop_and_return_ends|done].
  - fold (flagged e). destruct (flagged e) eqn:F.
    + pwp_bind. apply (record_inside r0 _ (Some e) _ _ I1). intros r2 I2 E2. eapply goto_done; [exact I2|]. cbn. intros _. apply E2. by left.
    + assert (I1' : inside r0 Clean r1). { destruct I1 as [L1 S1 F1]. split; [done| |done]. destruct S1; [done|congruence]. }
      calmly. intros ok r2 I2 _ _. eapply goto_done; [exact I2|]. destruct ok; cbn; auto.
Qed.
End owner.

(** ** Where a block can lead *)

(** A point of the loops, or the start of the deferred calls. *)
Definition in_loop (p : opoint) : Prop := match p with ONone | OReturned | OEnded => False | _ => True end.
Definition loops {A} (m : Rt A) : Prop := forall r, in_loop (rt_owner r) -> in_loop (rt_owner (m r).1).
Create HintDb loops.
Lemma loops_ret {A} (a : A) : loops (mret a). Proof. by intros r. Qed.
Lemma loops_bind {A B} (m : Rt A) (k : A -> Rt B) : loops m -> (forall a, loops (k a)) -> loops (m ≫= k).
Proof. intros H K r O. unfold mbind, Proc_bind. specialize (H r O). destruct (m r) as [r' a]. by apply K. Qed.
Lemma loops_sys {A} (m : Run A) : loops (sys m).
Proof. intros r. unfold sys. by destruct (m (rt_sys r)). Qed.
Lemma loops_get : loops proc_get. Proof. by intros r. Qed.
Lemma loops_goto p : in_loop p -> loops (goto p). Proof. by intros H r. Qed.
Lemma loops_session k : loops (modify (set_session k)). Proof. by intros r. Qed.
Lemma loops_remove k : loops (removeSession k).
Proof. intros r. unfold removeSession. by case_bool_decide. Qed.
Lemma loops_record e : loops (recordRuntimeError e).
Proof. intros r. unfold recordRuntimeError. by destruct e, (rt_err r). Qed.
#[export] Hint Resolve loops_ret loops_sys loops_get loops_session loops_remove loops_record : loops.
#[export] Hint Extern 1 (loops (goto _)) => by apply loops_goto : loops.
Ltac loops_tac :=
  repeat match goal with
         | |- loops (mbind _ _) => apply loops_bind
         | |- forall _, _ => intros ?
         | |- loops (if ?b then _ else _) => destruct b
         | |- loops (goto (if ?b then _ else _)) => destruct b
         | |- loops (match ?x with _ => _ end) => destruct x
         | |- loops _ => solve [eauto with loops]
         end.
Lemma owner_step_loops out sup config r : in_loop (rt_owner r) -> rt_owner r <> OReturn -> in_loop (rt_owner (owner_step out sup config r).1).
Proof.
  intros L N. change (owner_step out sup config r) with (owner_at out sup config (rt_owner r) r).
  assert (H : loops (owner_at out sup config (rt_owner r))); [|by apply H].
  destruct (rt_owner r); try done; cbn [owner_at].
  - unfold forward, publishSessionEvent, stop_and_return. loops_tac.
  - unfold drain, restart_after, stop_and_return. loops_tac.
  - unfold retry. loops_tac.
  - unfold restart, installReplacement, stop_and_return. loops_tac.
  - loops_tac.
Qed.

(** ** The invariant *)

(** Nothing will be sent any more, since there is no owner. *)
Definition settled (r : Runtime) : Prop :=
  match rt_starter r with TNone => rt_closed r = true | TFailing _ _ | TClosing _ | TDone (Some _) => True | _ => False end.
Definition over (r : Runtime) : Prop := match rt_owner r with OReturned | OEnded => True | _ => False end.
(** What [startupDone], [ownerStarted] and [ownerDone] are. *)
Definition startup_of (p : tpoint) : nat :=
  match p with TNone | TStarting | TFailed _ | TGot _ | TStop _ | TStopped _ => 0 | _ => 1 end.
Definition launched (p : tpoint) : bool := match p with TLaunch _ | TDone None => true | _ => false end.
Definition starter_ok (err : option cerror) (p : tpoint) (o : opoint) (s : system) : Prop :=
  match p with
  | TNone | TStarting => o = ONone /\ Clean s
  | TFailed e | TFailing e _ => o = ONone /\ (Clean s \/ flagged e = true)
  | TGot k | TStop k | TLaunch k => o = ONone /\ Live k s
  | TStopped e | TClosing e => o = ONone /\ (Clean s \/ err <> None)
  | TDone (Some e) => o = ONone /\ (Clean s \/ flagged e = true \/ err <> None)
  | TDone None => o <> ONone /\ owner_ok err o s
  end.
Definition closer_ok (r : Runtime) (p : kpoint) : Prop :=
  match p with
  | KStartup => rt_starter r <> TNone
  | KOwner => rt_startupDone r = 1%nat
  | KWait => rt_ownerStarted r = true
  | KClose | KClosed => settled r
  | KDone None => (settled r \/ rt_owner r = OEnded) /\ rt_err r = None
  | KDone (Some _) => True
  end.
Definition closed_trace (s : system) : Prop := exists tr, trace s = tr ++ [EfCloseEvents] /\ EfCloseEvents ∉ tr.
Record runtime_inv (r : Runtime) : Prop := {
  ri_lawful : lawful (rt_sys r);
  ri_starter : starter_ok (rt_err r) (rt_starter r) (rt_owner r) (rt_sys r);
  ri_started : rt_started r = true <-> rt_starter r <> TNone;
  ri_startup : rt_startupDone r = startup_of (rt_starter r);
  ri_ownerStarted : rt_ownerStarted r = launched (rt_starter r);
  ri_ownerDone : rt_ownerDone r = match rt_owner r with OEnded => 1%nat | _ => 0%nat end;
  ri_events : rt_eventsClosed r = 0%nat /\ open (rt_sys r) \/ rt_eventsClosed r = 1%nat /\ closed_trace (rt_sys r) /\ (settled r \/ over r);
  ri_closers : Forall (closer_ok r) (rt_closers r) }.
Lemma new_runtime_inv : runtime_inv new_runtime.
Proof.
  split; cbn; try done.
  - split; [done|]. unfold Clean, clean. cbn. split_and!; try done. by intros [].
  - left. split; [done|]. unfold open. cbn. by intros ?%elem_of_nil.
Qed.
(** What the closers rely on stays true. *)
Record keeps (r r' : Runtime) : Prop := {
  ke_settled : settled r -> settled r';
  ke_starter : rt_starter r <> TNone -> rt_starter r' <> TNone;
  ke_startup : rt_startupDone r = 1%nat -> rt_startupDone r' = 1%nat;
  ke_launched : rt_ownerStarted r = true -> rt_ownerStarted r' = true;
  ke_ended : rt_owner r = OEnded -> rt_owner r' = OEnded;
  ke_err : settled r \/ rt_owner r = OEnded -> rt_err r' = rt_err r }.
Lemma keeps_closers r r' l : keeps r r' -> Forall (closer_ok r) l -> Forall (closer_ok r') l.
Proof.
  intros [] H. eapply Forall_impl; [exact H|]. intros [| | | | |[e|]]; cbn; auto.
  intros [S E]. split; [destruct S; auto|]. rewrite <- E. auto.
Qed.
(** An owner runs only after its start, and nothing is settled then. *)
Lemma owner_running r : runtime_inv r -> rt_owner r <> ONone ->
  rt_starter r = TDone None /\ owner_ok (rt_err r) (rt_owner r) (rt_sys r) /\ ~ settled r.
Proof.
  intros [_ S _ _ _ _ _ _] N. unfold starter_ok, settled in *.
  destruct (rt_starter r) as [| | | | | | | | |[|]]; destruct S as [E S]; try done. split_and!; [done|done|tauto].
Qed.
Lemma block_inv r r' : runtime_inv r -> in_loop (rt_owner r) -> done_block r r' -> in_loop (rt_owner r') -> runtime_inv r'.
Proof.
  intros I IL (L & K & F) IL'. assert (N : rt_owner r <> ONone) by by intros E; rewrite E in IL.
  assert (N' : rt_owner r' <> ONone) by by intros E; rewrite E in IL'. destruct (owner_running r I N) as (T & _ & NS). destruct I as [I1 I2 I3 I4 I5 I6 I7 I8].
  destruct F as [F1 F2 F3 F4 F5 F6 F7 F8 F9 F10].
  split; try congruence.
  - rewrite F7, T. done.
  - rewrite F5, I6. by destruct (rt_owner r), (rt_owner r').
  - destruct I7 as [[E O]|(_ & _ & [?|O])]; [left; rewrite F6; auto|done|]. unfold over in O. by destruct (rt_owner r).
  - rewrite F8. eapply keeps_closers; [|exact I8]. split; try congruence.
    + intros E. by rewrite E in IL.
    + intros [?|E]; [done|by rewrite E in IL].
Qed.

(** ** Every move keeps it *)

Section moves.
Context (out : outside) (sup : Supervisor) (config : RuntimeConfig).
Hypothesis policy : sound_policy sup.

Lemma bind_fst {A B} (m : Rt A) (k : Rt B) r : ((m;; k) r).1 = (k (m r).1).1.
Proof. unfold mbind, Proc_bind. by destruct (m r). Qed.
Lemma get_fst {A} (k : Runtime -> Rt A) r : ((proc_get ≫= k) r).1 = (k r r).1.
Proof. done. Qed.
(** Closing the events, when nothing will be sent any more. *)
Lemma closeEvents_spec r : rt_eventsClosed r = 0%nat /\ open (rt_sys r) \/ rt_eventsClosed r = 1%nat /\ closed_trace (rt_sys r) ->
  exists s, (closeEvents r).1 = set_eventsClosed 1 (upd_sys (fun _ => s) r) /\ closed_trace s
    /\ calm (rt_sys r) s /\ cancelled s = cancelled (rt_sys r).
Proof.
  intros [[E O]|[E C]]; unfold closeEvents; rewrite E; cbn.
  - eexists. split; [reflexivity|]. split; [by exists (trace (rt_sys r))|]. split; [|done]. by apply (still_note EfCloseEvents).
  - exists (rt_sys r). split; [|by split_and!]. destruct r; cbn in *. by rewrite E.
Qed.
Lemma owner_step_inv r : runtime_inv r -> runtime_inv (owner_step out sup config r).1.
Proof.
  intros I. assert (J := owner_running r I). assert (B := owner_step_loops out sup config r).
  change (owner_step out sup config r) with (owner_at out sup config (rt_owner r) r) in *.
  assert (block : forall (P : system -> Prop) (m : Rt unit), in_loop (rt_owner r) -> P (rt_sys r) -> pwp m (fun _ => done_block r) r -> in_loop (rt_owner (m r).1) -> runtime_inv (m r).1).
  { intros P m Hl _ H H'. by apply (block_inv r). }
  assert (inside_r : forall P : system -> Prop, P (rt_sys r) -> inside r P r) by (intros P HP; split; [apply I|done|reflexivity]).
  destruct (rt_owner r) as [|k op|k dl|k d e|d|d| | |] eqn:E; try (destruct J as (T & K & NS); [done|]); cbn [owner_ok] in *; cbn [owner_at].
  - done.
  - apply (block (Live k)); [done|done| |by apply B]. apply forward_ends; auto.
  - apply (block (Live k)); [done|done| |by apply B]. apply drain_ends; auto.
  - apply (block (Unsaved k)); [done|done| |by apply B]. apply retry_ends. auto.
  - apply (block Clean); [done|done| |by apply B]. apply restart_ends; auto.
  - apply (block (fun _ => True)); [done|done| |by apply B].
    pwp_bind. apply (inside_still _ r (fun _ => True)); [auto with still|auto with keeps_open|auto with still|by apply inside_r|].
    intros ok r1 I1 _ E1. eapply goto_done; [exact I1|]. rewrite E1. by destruct ok; cbn; auto.
  - destruct I as [I1 I2 I3 I4 I5 I6 I7 I8]. destruct (closeEvents_spec r) as (s & Es & Cs & Ks & _); [tauto|].
    rewrite bind_fst, Es. split; cbn; try done.
    + by apply Ks.
    + rewrite T. split; [done|]. destruct K; [left; by eapply calm_Clean|by right].
    + by rewrite I6, E.
    + right. split_and!; [done|done|by right].
    + eapply keeps_closers; [|exact I8]. split; cbn; try done. by rewrite E.
  - destruct I as [I1 I2 I3 I4 I5 I6 I7 I8]. rewrite bind_fst. split; cbn; try done.
    + by rewrite T.
    + by rewrite I6, E.
    + destruct I7 as [?|(? & ? & _)]; [by left|right]. split_and!; [done|done|by right].
    + eapply keeps_closers; [|exact I8]. split; cbn; done.
  - done.
Qed.
(** The invariant after a move of the starter. *)
Lemma starter_inv r r' : runtime_inv r -> rt_starter r <> TNone -> (forall e, rt_starter r <> TDone e) ->
  rt_started r' = rt_started r -> rt_owner r' = rt_owner r -> rt_ownerDone r' = rt_ownerDone r -> rt_closers r' = rt_closers r ->
  lawful (rt_sys r') -> starter_ok (rt_err r') (rt_starter r') ONone (rt_sys r') -> rt_starter r' <> TNone ->
  rt_startupDone r' = startup_of (rt_starter r') -> rt_ownerStarted r' = launched (rt_starter r') ->
  (rt_eventsClosed r' = 0%nat /\ open (rt_sys r') \/ rt_eventsClosed r' = 1%nat /\ closed_trace (rt_sys r') /\ (settled r' \/ over r')) ->
  (startup_of (rt_starter r) = 1%nat -> startup_of (rt_starter r') = 1%nat) ->
  (launched (rt_starter r) = true -> launched (rt_starter r') = true) ->
  (settled r -> settled r' /\ rt_err r' = rt_err r) -> runtime_inv r'.
Proof.
  intros [I1 I2 I3 I4 I5 I6 I7 I8] N ND E1 E2 E3 E4 L S N' S1 S2 H A B C.
  assert (O : rt_owner r = ONone).
  { unfold starter_ok in I2. destruct (rt_starter r) as [| | | | | | | | |e]; try apply I2. by destruct (ND e). }
  split; try done.
  - by rewrite E2, O.
  - rewrite E1. tauto.
  - by rewrite E3, E2.
  - rewrite E4. eapply keeps_closers; [|exact I8]. split.
    + apply C.
    + done.
    + rewrite S1, I4. auto.
    + rewrite S2, I5. auto.
    + by rewrite O.
    + rewrite O. intros [H'|?]; [by apply C|done].
Qed.
(** Before the start has settled anything. *)
Definition beginning (p : tpoint) : Prop := match p with TStarting | TFailed _ | TGot _ | TStop _ | TStopped _ => True | _ => False end.
Lemma beginning_inv r r' : runtime_inv r -> beginning (rt_starter r) -> rt_starter r' <> TNone ->
  rt_started r' = rt_started r -> rt_owner r' = rt_owner r -> rt_ownerDone r' = rt_ownerDone r -> rt_closers r' = rt_closers r ->
  rt_eventsClosed r' = rt_eventsClosed r -> (open (rt_sys r) -> open (rt_sys r')) ->
  lawful (rt_sys r') -> starter_ok (rt_err r') (rt_starter r') ONone (rt_sys r') ->
  rt_startupDone r' = startup_of (rt_starter r') -> rt_ownerStarted r' = launched (rt_starter r') -> runtime_inv r'.
Proof.
  intros I B N E1 E2 E3 E4 E5 O L S S1 S2.
  assert (X : rt_owner r = ONone /\ ~ settled r).
  { assert (X := ri_starter r I). unfold settled. destruct (rt_starter r); try done; destruct X as [-> _]; tauto. }
  destruct X as [X NS]. assert (EV := ri_events r I). apply (starter_inv r); try done.
  - by intros E; rewrite E in B.
  - by intros e E; rewrite E in B.
  - left. rewrite E5. destruct EV as [[? ?]|(_ & _ & [?|V])]; [auto|done|]. unfold over in V. by rewrite X in V.
  - by destruct (rt_starter r).
  - by destruct (rt_starter r).
Qed.
Lemma ctx_err_trace s : trace (ctx_err out s).1 = trace s.
Proof. unfold ctx_err. by destruct (cancelled s). Qed.
Lemma starter_step_inv r : runtime_inv r -> runtime_inv (starter_step out sup config r).1.
Proof.
  intros I. change (starter_step out sup config r) with (starter_at out sup config (rt_starter r) r r).
  assert (S := ri_starter r I). assert (SD := ri_startup r I). assert (OS := ri_ownerStarted r I). assert (L := ri_lawful r I).
  destruct (rt_starter r) as [| |e|e closed|k|k|e|e|k|e] eqn:T; cbn [starter_at]; try done; cbn in S, SD, OS.
  - destruct S as [O K].
    assert (W := Start_spec out sup (rc_ProjectRoot config) (rt_sys r) policy L K). assert (Op := keeps_open_Start out sup (rc_ProjectRoot config) (Some StoreSink) (rt_sys r)).
    unfold start_process. unfold mbind, Proc_bind, sys. unfold pwp in W. destruct (Start _ _ _ _ _) as [s x]. cbn in W, Op.
    destruct W as [L' W]. apply (beginning_inv r); rewrite ?T; cbn; try done; by destruct x.
  - rewrite bind_fst. apply (beginning_inv r); rewrite ?T; cbn; try done; [by destruct S|by rewrite SD].
  - assert (EV : rt_eventsClosed r = 0%nat /\ open (rt_sys r) \/ rt_eventsClosed r = 1%nat /\ closed_trace (rt_sys r)).
    { assert (EV := ri_events r I). tauto. }
    destruct S as [O S]. rewrite bind_fst. destruct closed.
    + destruct (closeEvents_spec r EV) as (s & -> & Cs & Ks & _). apply (starter_inv r); rewrite ?T; cbn; try done.
      * by apply Ks.
      * split; [done|]. destruct S as [S|S]; [left; by apply (calm_Clean (rt_sys r))|by right; left].
      * by right; split_and!; [|exact Cs|left].
    + apply (starter_inv r); rewrite ?T; cbn; try done.
      * split; [done|]. destruct S as [S|S]; [by left|by right; left].
      * destruct EV as [?|[? ?]]; [by left|right]. by split_and!; [| |left].
  - destruct S as [O S]. unfold mbind, Proc_bind, sys. assert (Kc := still_ctx_err out (rt_sys r)). assert (Op := keeps_open_ctx_err out (rt_sys r)).
    destruct (ctx_err out (rt_sys r)) as [s ended]. cbn [fst] in *. assert (H : Live k s) by by apply (calm_Live k (rt_sys r)).
    assert (L' : lawful s) by by apply Kc. destruct (_ || _); apply (beginning_inv r); rewrite ?T; cbn; try done. by rewrite SD.
  - destruct S as [O S]. unfold mbind, Proc_bind, sys. assert (W := Stop_live out k (rt_sys r) L S). assert (Op := keeps_open_Stop out k (rt_sys r)).
    unfold pwp in W. destruct (Stop out k (rt_sys r)) as [s e]. cbn in W, Op. destruct W as [L' W].
    unfold recordRuntimeError. destruct e as [e|], (rt_err (upd_sys (fun _ => s) r)) eqn:RE; cbn in RE; apply (beginning_inv r); rewrite ?T; cbn; try done; auto.
    all: split; [done|right; congruence].
  - destruct S as [O S]. rewrite bind_fst. apply (beginning_inv r); rewrite ?T; cbn; try done. by rewrite SD.
  - assert (EV : rt_eventsClosed r = 0%nat /\ open (rt_sys r) \/ rt_eventsClosed r = 1%nat /\ closed_trace (rt_sys r)).
    { assert (EV := ri_events r I). tauto. }
    destruct S as [O S]. rewrite bind_fst. destruct (closeEvents_spec r EV) as (s & -> & Cs & Ks & _).
    unfold mbind, Proc_bind, sys. assert (Kc := still_ctx_err out s). assert (TR := ctx_err_trace s).
    cbn [rt_sys set_eventsClosed upd_sys]. destruct (ctx_err out s) as [s' ended]. cbn [fst] in *.
    assert (K : calm (rt_sys r) s') by by etrans.
    apply (starter_inv r); rewrite ?T; cbn; try done.
    + by apply K.
    + split; [done|]. destruct S as [S|S]; [left; by apply (calm_Clean (rt_sys r))|by right; right].
    + right. split_and!; [done|unfold closed_trace; by rewrite TR|by left].
  - destruct S as [O S]. rewrite bind_fst. destruct I as [I1 I2 I3 I4 I5 I6 I7 I8]. rewrite O in I6. split; cbn; try done.
    + rewrite I3, T. split; done.
    + destruct I7 as [?|(_ & _ & [N|V])]; [by left|unfold settled in N; by rewrite T in N|unfold over in V; by rewrite O in V].
    + eapply keeps_closers; [|exact I8]. split; cbn; try done; [unfold settled; by rewrite T|by rewrite O].
Qed.
(** A move that only touches calls of [Close], refused calls or the context. *)
Record passive (r r' : Runtime) : Prop := {
  pa_trace : trace (rt_sys r') = trace (rt_sys r);
  pa_sessions : sessions (rt_sys r') = sessions (rt_sys r);
  pa_started : rt_started r' = rt_started r;
  pa_starter : rt_starter r' = rt_starter r;
  pa_owner : rt_owner r' = rt_owner r;
  pa_startup : rt_startupDone r' = rt_startupDone r;
  pa_ownerStarted : rt_ownerStarted r' = rt_ownerStarted r;
  pa_ownerDone : rt_ownerDone r' = rt_ownerDone r;
  pa_events : rt_eventsClosed r' = rt_eventsClosed r;
  pa_err : rt_err r' = rt_err r;
  pa_closed : rt_closed r = true -> rt_closed r' = true }.
Lemma passive_keeps r r' : passive r r' -> keeps r r'.
Proof.
  intros [P1 P2 P3 P4 P5 P6 P7 P8 P9 P10 P11]. split; try congruence.
  unfold settled. rewrite P4. destruct (rt_starter r); auto.
Qed.
Lemma passive_calm r r' : passive r r' -> calm (rt_sys r) (rt_sys r').
Proof. intros [T S _ _ _ _ _ _ _ _ _]. split; [unfold books; by rewrite T|unfold lawful; by rewrite T|rewrite S; eauto]. Qed.
Lemma owner_ok_calm e p s s' : calm s s' -> owner_ok e p s -> owner_ok e p s'.
Proof. intros C. destruct p; cbn; eauto using calm_Clean, calm_Live, calm_Unsaved; (intros [?|?]; [left; by eapply calm_Clean|by right]). Qed.
Lemma starter_ok_calm e p o s s' : calm s s' -> starter_ok e p o s -> starter_ok e p o s'.
Proof.
  intros C. assert (K := calm_Clean s s' C). destruct p as [| |?|? ?|k|k|?|?|k|[?|]]; cbn; intros [? S]; (split; [done|]);
    try destruct S as [S|S]; eauto using calm_Live, owner_ok_calm.
Qed.
Lemma passive_inv r r' : runtime_inv r -> passive r r' -> Forall (closer_ok r') (rt_closers r') -> runtime_inv r'.
Proof.
  intros [I1 I2 I3 I4 I5 I6 I7 I8] P F. assert (C := passive_calm r r' P). assert (K := passive_keeps r r' P).
  destruct P as [P1 P2 P3 P4 P5 P6 P7 P8 P9 P10 P11]. split; rewrite ?P3, ?P4, ?P5, ?P6, ?P7, ?P8, ?P9, ?P10; try done.
  - by apply C.
  - by eapply starter_ok_calm.
  - unfold open, closed_trace, over. rewrite P1, P5. destruct I7 as [?|(? & ? & [?|?])]; [by left| |by right; auto].
    right. split_and!; [done|done|left; by apply K].
Qed.
Lemma call_Start_inv r : runtime_inv r -> runtime_inv (call_Start r).1.
Proof.
  intros I. unfold call_Start. rewrite get_fst. destruct (rt_closed r) eqn:C; [|destruct (rt_started r) eqn:St].
  1-2: apply (passive_inv r); [done|by split|]; apply (keeps_closers r); [apply passive_keeps; by split|apply I].
  assert (T : rt_starter r = TNone). { destruct (ri_started r I) as [_ H]. destruct (rt_starter r); try done; by rewrite H in St. }
  destruct I as [I1 I2 I3 I4 I5 I6 I7 I8]. rewrite T in *. destruct I2 as [O K].
  rewrite bind_fst. split; cbn; try done.
  - destruct I7 as [?|(? & ? & [N|V])]; [by left|unfold settled in N; rewrite T in N; congruence|unfold over in V; by rewrite O in V].
  - eapply keeps_closers; [|exact I8]. split; cbn; try done.
    + unfold settled. rewrite T. congruence.
Qed.
Lemma call_Close_inv r : runtime_inv r -> runtime_inv (call_Close r).1.
Proof.
  intros I. unfold call_Close. rewrite get_fst, bind_fst.
  lazymatch goal with |- context [(?m r).1] => set (r1 := (m r).1) end.
  assert (P : passive r r1 /\ rt_closed r1 = true /\ rt_closers r1 = rt_closers r).
  { unfold r1. destruct (rt_closed r) eqn:C; [by split|]. rewrite bind_fst. destruct (rt_started r) eqn:St; split; cbn; try done; split; cbn; done || congruence. }
  destruct P as (P & C & E). apply (passive_inv r); [done|destruct P; by split|].
  apply Forall_app. split.
  - rewrite E. apply (keeps_closers r); [|apply I]. apply passive_keeps. destruct P; by split.
  - constructor; [|constructor]. cbn. rewrite (pa_started _ _ P). destruct (rt_started r) eqn:St; cbn.
    + rewrite (pa_starter _ _ P). by apply (ri_started r I).
    + unfold settled. cbn. rewrite (pa_starter _ _ P). destruct (ri_started r I) as [_ H].
      destruct (rt_starter r); try done; by rewrite H in St.
Qed.
Lemma move_closer r j p : runtime_inv r -> closer_ok r p -> runtime_inv (set_closers (<[j := p]> (rt_closers r)) r).
Proof.
  intros I H. apply (passive_inv r); [done|by split|]. cbn. apply (keeps_closers r); [apply passive_keeps; by split|].
  apply Forall_insert; [apply I|done].
Qed.
Lemma close_settled r j : runtime_inv r -> settled r ->
  runtime_inv ((closeEvents;; modify (fun r => set_closers (<[j := KClosed]> (rt_closers r)) r)) r).1.
Proof.
  intros I S. rewrite bind_fst. apply (move_closer (closeEvents r).1).
  - destruct (closeEvents_spec r) as (s & -> & Cs & Ks & _); [assert (EV := ri_events r I); tauto|].
    destruct I as [I1 I2 I3 I4 I5 I6 I7 I8]. split; cbn; try done.
    + by apply Ks.
    + by eapply starter_ok_calm.
    + right. by split_and!; [| |left].
  - cbn. destruct (closeEvents_spec r) as (s & -> & _); [assert (EV := ri_events r I); tauto|]. done.
Qed.
(** What the closed channels tell. *)
Lemma startup_closed r : runtime_inv r -> rt_startupDone r = 1%nat -> rt_ownerStarted r = false -> settled r.
Proof. intros I. rewrite (ri_startup r I), (ri_ownerStarted r I). unfold settled. by destruct (rt_starter r) as [| | | | | | | | |[]]. Qed.
Lemma startup_bound r : runtime_inv r -> (rt_startupDone r <= 1)%nat.
Proof. intros I. rewrite (ri_startup r I). destruct (rt_starter r); cbn; lia. Qed.
Lemma closer_step_inv r j ended : runtime_inv r -> runtime_inv (closer_step j ended r).1.
Proof.
  intros I. unfold closer_step. rewrite get_fst. unfold closer_at. destruct (rt_closers r !! j) as [p|] eqn:E; [|done].
  assert (H : closer_ok r p) by (eapply Forall_lookup_1; [apply I|done]).
  destruct p as [| | | | |q], ended as [x|]; try done; try (by apply move_closer); cbn in H.
  - destruct (Nat.eqb_spec (rt_startupDone r) 0); [done|]. apply move_closer; [done|]. cbn. assert (B := startup_bound r I). lia.
  - apply move_closer; [done|]. destruct (rt_ownerStarted r) eqn:O; cbn; [done|by apply startup_closed].
  - apply move_closer; [done|]. destruct (rt_ownerStarted r) eqn:O; cbn; [done|by apply startup_closed].
  - destruct (Nat.eqb_spec (rt_ownerDone r) 0) as [|N]; [done|]. apply move_closer; [done|].
    assert (OE : rt_owner r = OEnded). { rewrite (ri_ownerDone r I) in N. by destruct (rt_owner r). }
    destruct (rt_err r) eqn:X; cbn; auto.
  - by apply close_settled.
  - by apply close_settled.
  - apply move_closer; [done|]. destruct (rt_err r) eqn:X; cbn; auto.
  - apply move_closer; [done|]. destruct (rt_err r) eqn:X; cbn; auto.
Qed.
Lemma move_step_inv r m : runtime_inv r -> runtime_inv (move_step out sup config r m).
Proof.
  intros I. destruct m as [| | | |j ended|e]; cbn [move_step].
  - by apply call_Start_inv.
  - by apply starter_step_inv.
  - by apply owner_step_inv.
  - by apply call_Close_inv.
  - by apply closer_step_inv.
  - destruct (rt_started r); [|done]. apply (passive_inv r); [done|by split|]. apply (keeps_closers r); [apply passive_keeps; by split|apply I].
Qed.
Lemma moves_inv l : runtime_inv (moves out sup config new_runtime l).
Proof.
  unfold moves. assert (H := new_runtime_inv). revert H. generalize new_runtime. induction l as [|m l IH]; intros r H; [done|].
  apply IH. by apply move_step_inv.
Qed.
End moves.

(** ** The supervision of the agent's process

    The theorems about the runtime and its supervisor, over every sequence of moves
    of [CodexRuntime] and every answer of the outside. *)

(** ** Lawful traces *)

(** At most one child is alive, and once it is recorded the store is certain. *)
Definition single (l : ledger) : Prop :=
  lg_alive l = [] \/ exists c, lg_alive l = [c] /\ (~ is_running (lg_saved l) \/ exists cp, active l c cp).
Lemma single_book l e : single l -> allowed l e -> single (book l e).
Proof.
  intros S A. destruct e as [|spec [[c|]|]|[c|] [e|]|cp [e|]|k r|k|k|ev|d ok|]; try exact S.
  - destruct A as (A & _ & R). right. exists c. cbn. rewrite A. auto.
  - left. cbn in *. by rewrite A, remove_only.
  - destruct A as [_ [(c & A & _ & _ & R)|(A & _)]]; [right; exists c; cbn; auto|by left].
  - destruct A as [_ [(c & A & Ds & _)|(A & _)]]; [|by left]. right. exists c. split; [done|]. right. by exists cp.
Qed.
Lemma single_lawful tr : lawful_from no_ledger tr -> single (ledger_of tr).
Proof.
  unfold ledger_of. assert (S : single no_ledger) by by left. revert S. generalize no_ledger.
  induction tr as [|e tr IH]; intros l S H; [done|]. destruct H as [A H]. cbn. apply IH; [by apply single_book|done].
Qed.
Lemma lawful_prefix l pre post : lawful_from l (pre ++ post) -> lawful_from l pre.
Proof. revert l. induction pre as [|e pre IH]; intros l; cbn; [done|]. intros [A H]. split; [done|]. by apply IH. Qed.

Section theorems.
Context (exe : string) (policy : VersionPolicy) (sup : Supervisor) (out : outside) (config : RuntimeConfig) (l : list move).
Let r := moves out sup config new_runtime l.

(** C29: a process is launched only when none may be alive and the store says so for
    certain; it is asked nothing before its identity is saved; what is saved
    describes the one process that is alive, or says that the recorded one has
    stopped, after its stop was proven; and only the living process is stopped. *)
Theorem one_process_at_a_time (pre : list effect) (e : effect) (post : list effect) :
  NewSupervisor exe policy true = Ok sup -> trace (rt_sys r) = pre ++ e :: post -> allowed (ledger_of pre) e.
Proof.
  intros N E. assert (I := moves_inv out sup config (NewSupervisor_sound _ _ _ _ N) l).
  apply ri_lawful in I. unfold lawful in I. fold r in I. rewrite E in I. by apply lawful_split in I.
Qed.

(** C30: every checkpoint the supervisor writes is one that the store accepts, and one
    that the next daemon can judge. *)
Theorem checkpoints_well_typed (cp : RuntimeCheckpoint) (x : option cerror) (out' : outside) (s' : system) :
  NewSupervisor exe policy true = Ok sup -> EfSink cp x ∈ trace (rt_sys r) ->
  validateCheckpoint cp = Ok tt /\ (ReapPrevious out' (Some cp) s').2 <> Some (COwner ErrInvalidProcessCheckpoint).
Proof.
  intros N (pre & post & E)%list_elem_of_split.
  assert (I := moves_inv out sup config (NewSupervisor_sound _ _ _ _ N) l). apply ri_lawful in I. unfold lawful in I. fold r in I.
  rewrite E in I. apply lawful_split in I as [V _]. split; [done|].
  unfold validateCheckpoint, check in V. unfold ReapPrevious. destruct (cp_State cp) eqn:St; cbn in V.
  - destruct (negb (blank _ || blank _ || blank _) && _) eqn:X; cbn in V; [|done].
    destruct (negb ((cp_PID cp <=? 1) || (cp_PGID cp <=? 1))) eqn:Y; [|done].
    apply andb_true_iff in X as [X _]. apply negb_true_iff in X, Y. apply orb_false_iff in X as [[X1 X2]%orb_false_iff _]. rewrite Y, X1, X2. cbn.
    unfold mbind, Proc_bind, ask. cbn. destruct (ou_match out' (clock s') _) as [[]|]; discriminate.
  - destruct (negb (blank _ || blank _ || blank _) && _); cbn in V; [|done]. destruct (negb (cp_PID cp =? 0) || negb (cp_PGID cp =? 0)); discriminate.
  - done.
Qed.

(** Wherever the daemon dies, a process that was recorded and may still be alive
    is what the store holds for certain, and as long as the system does not say it
    is absent, the next daemon refuses to start. *)
Theorem recorded_process_blocks_restart (pre post : list effect) (c : Child) (cp : RuntimeCheckpoint) (out' : outside) (s' : system) :
  NewSupervisor exe policy true = Ok sup -> trace (rt_sys r) = pre ++ post ->
  c ∈ lg_alive (ledger_of pre) -> lg_saved (ledger_of pre) = Some cp -> cp_State cp = RuntimeProcessRunning ->
  (forall n, ou_match out' n (ch_Identity c) <> Ok ProcessAbsent) ->
  lg_doubt (ledger_of pre) = None /\ exists reason, (ReapPrevious out' (Some cp) s').2 = Some (COwner reason).
Proof.
  intros N E Hc Hs Hr M. assert (I := moves_inv out sup config (NewSupervisor_sound _ _ _ _ N) l).
  apply ri_lawful in I. unfold lawful in I. fold r in I. rewrite E in I. apply lawful_prefix, single_lawful in I.
  destruct I as [I|(d & A & [I|(cp' & _ & D & S & Ds)])].
  - rewrite I in Hc. by apply elem_of_nil in Hc.
  - rewrite Hs in I. done.
  - split; [done|]. rewrite A in Hc. apply list_elem_of_singleton in Hc as ->. replace cp' with cp in * by congruence.
    destruct Ds as [_ Ds]. unfold ReapPrevious. rewrite Hr. destruct (_ || _); [by eexists|]. unfold mbind, Proc_bind, ask. cbn. rewrite <- Ds.
    specialize (M (clock s')). destruct (ou_match out' _ _) as [[]|]; [by eexists|by destruct M|by eexists|by eexists|by eexists].
Qed.

(** Nothing is sent on a closed channel, nor is it closed again. *)
Fixpoint proper_events (closed : bool) (tr : list effect) : Prop :=
  match tr with
  | [] => True
  | EfCloseEvents :: t => closed = false /\ proper_events true t
  | EfEvent _ :: t => closed = false /\ proper_events closed t
  | _ :: t => proper_events closed t
  end.
Lemma proper_open tr : EfCloseEvents ∉ tr -> forall t, t = [] \/ t = [EfCloseEvents] -> proper_events false (tr ++ t).
Proof.
  intros O t Ht. induction tr as [|e tr IH]; [by destruct Ht as [-> | ->]|].
  apply not_elem_of_cons in O as [N O]. specialize (IH O). by destruct e; cbn; auto.
Qed.
(** However the calls of [Start] and [Close] and the owner interleave, no channel
    of the runtime is closed twice, and no event is sent after the channel of the
    events was closed: none of them panics. *)
Theorem runtime_channels_proper :
  NewSupervisor exe policy true = Ok sup ->
  (rt_startupDone r <= 1)%nat /\ (rt_ownerDone r <= 1)%nat /\ proper_events false (trace (rt_sys r)).
Proof.
  intros N. assert (I := moves_inv out sup config (NewSupervisor_sound _ _ _ _ N) l). fold r in I. split; [by apply startup_bound|].
  split; [rewrite (ri_ownerDone r I); by destruct (rt_owner r); lia|].
  destruct (ri_events r I) as [[_ O]|(_ & (tr & -> & O) & _)].
  - rewrite <- (app_nil_r (trace _)). apply proper_open; auto.
  - apply proper_open; auto.
Qed.

(** When a call of [Close] reports no error, no process is alive and the store
    does not hold one as running, unless the call of [Start] reported that its own
    cleanup could not be proven or recorded. *)
Theorem close_leaves_nothing (j : nat) :
  NewSupervisor exe policy true = Ok sup -> rt_closers r !! j = Some (KDone None) ->
  clean (ledger_of (trace (rt_sys r)))
  \/ exists e, (rt_starter r = TDone (Some e) \/ exists b, rt_starter r = TFailing e b)
       /\ (cerror_Is e ErrProcessCleanup = true \/ cerror_Is e ErrCheckpointPersistence = true).
Proof.
  intros N E. assert (I := moves_inv out sup config (NewSupervisor_sound _ _ _ _ N) l). fold r in I.
  assert (H : closer_ok r (KDone None)) by (eapply Forall_lookup_1; [apply I|done]).
  destruct H as [H X]. assert (S := ri_starter r I). rewrite X in S.
  assert (F : forall e, flagged e = true -> cerror_Is e ErrProcessCleanup = true \/ cerror_Is e ErrCheckpointPersistence = true)
    by (intros e; apply orb_true_iff).
  destruct H as [H|H].
  - unfold settled in H. destruct (rt_starter r) as [| |?|e b|?|?|?|e|?|[e|]]; try done; destruct S as [_ S].
    + by left.
    + destruct S as [S|S]; [by left|right]. exists e. eauto.
    + destruct S as [S|S]; [by left|done].
    + destruct S as [S|[S|S]]; [by left|right; exists e; eauto|done].
  - destruct (owner_running r I) as (_ & K & _); [by rewrite H|]. rewrite H, X in K. destruct K as [K|K]; [by left|done].
Qed.
End theorems.

(** ** A run of it

    The process ends by itself, is restarted, and the runtime is closed. *)
Definition sample_child (n : nat) (g : string) : Child :=
  {| ch_Identity := {| pi_Generation := g; pi_PID := 100 + Z.of_nat n; pi_PGID := 100 + Z.of_nat n; pi_StartIdentity := "42" |};
     ch_Stdin := true; ch_Stdout := true; ch_Stderr := true; ch_Done := true; ch_WaitErr := true |}.
Definition sample_call (method : string) (p : params) (dec : string -> bool) : outcome :=
  if String.eqb method "initialize"
  then Returned (bq "{`codexHome`:`/h`,`platformFamily`:`unix`,`platformOs`:`linux`,`userAgent`:`agent_romm/0.153.4 (x)`}")
  else Returned (bq "{`account`:null,`requiresOpenaiAuth`:false}").
Definition sample_event : AgentEvent := runtime_event "item-delta" None.
Definition sample_outside : outside :=
  {| ou_cancel := fun _ => None; ou_version := fun _ => Ok ("codex-cli 0.153.4" +:+ nl); ou_random := fun _ => Some "0123456789abcdef";
     ou_environ := fun _ => []; ou_launch := fun n s => Ok (Some (sample_child n (ps_Generation s))); ou_stop := fun _ _ => None;
     ou_match := fun _ _ => Ok ProcessMatches; ou_sink := fun _ _ => None; ou_call := fun _ => sample_call; ou_notify := fun _ _ _ => None;
     ou_pick := fun n => if (n <? 11)%nat then 1%nat else if (n =? 11)%nat then 2%nat else 0%nat; ou_event := fun _ => sample_event; ou_ending := fun _ => RpcEnded REOF |}.
Definition sample_config : RuntimeConfig := {| rc_ProjectRoot := "/p"; rc_RestartInitial := 250000000; rc_RestartMaximum := 1000000000 |}.
Definition sample_supervisor : Supervisor := {| sv_executable := "codex"; sv_policy := DefaultVersionPolicy |}.
Definition boot : list move := [MStart; MStarter; MStarter; MStarter].

Definition restarted : list move := boot ++ [MOwner; MOwner; MOwner].
Definition shut_down : list move := restarted ++ [MClose; MOwner; MOwner; MOwner; MCloser 0 None; MCloser 0 None; MCloser 0 None].
Abbreviation sample_run ms := (moves sample_outside sample_supervisor sample_config new_runtime ms).
Abbreviation sample_trace := (trace (rt_sys (sample_run shut_down))).
Lemma sample_policy : NewSupervisor "codex" DefaultVersionPolicy true = Ok sample_supervisor.
Proof. vm_compute. reflexivity. Qed.

(** The second launch. *)
Lemma one_process_at_a_time_witness :
  match sample_trace !! 11%nat with
  | Some e => (exists spec r, e = EfLaunch spec r) /\ allowed (ledger_of (take 11 sample_trace)) e
  | None => False
  end.
Proof.
  assert (H : match sample_trace !! 11%nat with Some (EfLaunch _ _) => true | _ => false end = true) by (vm_compute; reflexivity).
  destruct (sample_trace !! 11%nat) as [e|] eqn:E; [|discriminate H]. split; [destruct e; try discriminate H; eauto|].
  apply (one_process_at_a_time "codex" DefaultVersionPolicy sample_supervisor sample_outside sample_config shut_down
           (take 11 sample_trace) e (drop 12 sample_trace)); [apply sample_policy|].
  symmetry. by apply take_drop_middle.
Defined.
Definition sample_checkpoint : RuntimeCheckpoint :=
  running_checkpoint sample_supervisor "codex-cli 0.153.4" "30313233343536373839616263646566" (ch_Identity (sample_child 4 "30313233343536373839616263646566")).
Lemma checkpoints_well_typed_witness :
  validateCheckpoint sample_checkpoint = Ok tt
  /\ (ReapPrevious sample_outside (Some sample_checkpoint) (rt_sys new_runtime)).2 <> Some (COwner ErrInvalidProcessCheckpoint).
Proof.
  apply (checkpoints_well_typed "codex" DefaultVersionPolicy sample_supervisor sample_outside sample_config shut_down _ None); [apply sample_policy|].
  apply (list_elem_of_lookup_2 _ 2). vm_compute. reflexivity.
Defined.
(** The daemon dies while the process works. *)
Lemma recorded_process_blocks_restart_witness :
  exists reason, (ReapPrevious sample_outside (Some sample_checkpoint) (rt_sys new_runtime)).2 = Some (COwner reason).
Proof.
  apply (recorded_process_blocks_restart "codex" DefaultVersionPolicy sample_supervisor sample_outside sample_config shut_down
           (take 4 sample_trace) (drop 4 sample_trace) (sample_child 4 "30313233343536373839616263646566") sample_checkpoint).
  - apply sample_policy.
  - symmetry. apply take_drop.
  - apply list_elem_of_In. vm_compute. by left.
  - vm_compute. reflexivity.
  - reflexivity.
  - intros n. discriminate.
Defined.
Lemma runtime_channels_proper_witness :
  EfCloseEvents ∈ sample_trace /\ proper_events false sample_trace.
Proof.
  split; [apply (list_elem_of_lookup_2 _ 19); vm_compute; reflexivity|].
  apply (runtime_channels_proper "codex" DefaultVersionPolicy sample_supervisor sample_outside sample_config shut_down). apply sample_policy.
Defined.
Lemma close_leaves_nothing_witness :
  rt_closers (sample_run shut_down) !! 0%nat = Some (KDone None)
  /\ (clean (ledger_of sample_trace) \/ exists e, (rt_starter (sample_run shut_down) = TDone (Some e) \/ exists b, rt_starter (sample_run shut_down) = TFailing e b)
       /\ (cerror_Is e ErrProcessCleanup = true \/ cerror_Is e ErrCheckpointPersistence = true)).
Proof.
  assert (H : rt_closers (sample_run shut_down) !! 0%nat = Some (KDone None)) by (vm_compute; reflexivity).
  split; [exact H|].
  apply (close_leaves_nothing "codex" DefaultVersionPolicy sample_supervisor sample_outside sample_config shut_down 0 sample_policy H).
Defined.
