(* ===== verification/Workgroup.v ===== *)
(** * Work group plans ([internal/workgroup/config.go], [plan.go], [planner.go])

    The directory of agents, the routing of a message to agents, and the plan of
    steps a message asks for: read from JSON, validated, and ordered so that every
    step comes after the steps it depends on.

    Errors are their texts; the quoting of [%q] and the text of an error of
    [encoding/json] are left out. *)
From S2P Require Import Prelude GoStrings Json StrictJson RoomTypes.

(** ** Directory *)

Record Member :=
  { wm_Mode : string; wm_ID : string; wm_Name : string; wm_Provider : string; wm_Description : string;
    wm_Instructions : string; wm_Command : list string; wm_TimeoutSeconds : Z }.
Record Config := { cf_Version : Z; cf_Members : list Member }.

Definition id_char (c : ascii) : bool :=
  is_lower c || is_digit c || (code c =? 95) || (code c =? 46) || (code c =? 45).
(** [^[a-z][a-z0-9_.-]{0,31}$] *)
Definition validID (s : string) : bool :=
  match s with
  | "" => false
  | String c r => is_lower c && (len r <=? 31) && str_forallb id_char r
  end.

Definition zero_member : Member :=
  {| wm_Mode := ""; wm_ID := ""; wm_Name := ""; wm_Provider := ""; wm_Description := ""; wm_Instructions := "";
     wm_Command := []; wm_TimeoutSeconds := 0 |}.
Definition Default : Config :=
  {| cf_Version := 1;
     cf_Members := [{| wm_Mode := ""; wm_ID := "codex"; wm_Name := "Codex Agent"; wm_Provider := "codex"; wm_Description := "";
                       wm_Instructions := ""; wm_Command := []; wm_TimeoutSeconds := 1800 |}] |}.

Definition in_list (s : string) (l : list string) : bool := existsb (String.eqb s) l.
(** [filepath.IsAbs] *)
Definition IsAbs (p : string) : bool := HasPrefix p "/".
Definition refuse (bad : bool) (e : string) : result string unit := if bad then Err e else Ok tt.
Definition check_provider (m : Member) : result string unit :=
  let count := Z.of_nat (length (wm_Command m)) in
  let first := default "" (head (wm_Command m)) in
  if String.eqb (wm_Provider m) "codex" then refuse (negb (count =? 0)) "codex member cannot specify command"
  else if String.eqb (wm_Provider m) "cursor" || String.eqb (wm_Provider m) "claude-code" then
    let? _ := refuse (negb (in_list (wm_Mode m) [""; "review"; "work"])) "invalid native agent mode" in
    refuse ((1 <? count) || ((count =? 1) && negb (IsAbs first))) "native agent command must be an absolute executable path"
  else if String.eqb (wm_Provider m) "exec" then
    refuse ((count =? 0) || (32 <? count) || negb (IsAbs first)) "exec member requires an absolute executable and argument array"
  else refuse (negb (validID (wm_Provider m))) ("invalid provider " +:+ wm_Provider m).
Fixpoint check_members (seen : list string) (builtin : bool) (l : list Member) : result string bool :=
  match l with
  | [] => Ok builtin
  | m :: r =>
      let? _ := refuse (negb (validID (wm_ID m)) || in_list (wm_ID m) seen || blank (wm_Name m) || (120 <? len (wm_Name m))
                        || (500 <? len (wm_Description m)) || (8000 <? len (wm_Instructions m))
                        || (wm_TimeoutSeconds m <? 0) || (7200 <? wm_TimeoutSeconds m))
                       ("invalid or duplicate agent member " +:+ wm_ID m) in
      let? _ := check_provider m in
      check_members (wm_ID m :: seen)
        (if String.eqb (wm_ID m) "codex" then String.eqb (wm_Provider m) "codex" else builtin) r
  end.
Definition Config_Validate (c : Config) : result string unit :=
  let count := Z.of_nat (length (cf_Members c)) in
  let? _ := refuse (negb (cf_Version c =? 1) || (count <? 1) || (16 <? count)) "agent config requires version 1 and 1–16 members" in
  let? builtin := check_members [] false (cf_Members c) in
  refuse (negb builtin) "the default codex member is required".

(** ** Routing *)

Definition route_blank (c : ascii) : bool := existsb (fun d => code c =? d) [32; 9; 13; 10].
(** [s] up to the first blank, and from it on. *)
Definition cut_blank (s : string) : string * string := span (fun c => negb (route_blank c)) s.
Definition find_member (id : string) (l : list Member) : option Member := List.find (fun m => String.eqb (wm_ID m) id) l.
(** The loop over leading mentions; each one takes bytes of the text. *)
Fixpoint route_mentions (fuel : nat) (c : Config) (seen : list string) (s : string) : result string (list Member * string) :=
  match fuel with
  | O => Ok ([], s)
  | S f =>
      if negb (HasPrefix s "@agent:") then Ok ([], s) else
      let '(token, rest) := cut_blank s in
      let id := TrimPrefix token "@agent:" in
      match find_member id (cf_Members c) with
      | None => Err ("unknown agent @agent:" +:+ id)
      | Some m =>
          let? _ := refuse (in_list id seen) ("duplicate agent @agent:" +:+ id) in
          let? more := route_mentions f c (id :: seen) (TrimSpace rest) in
          Ok (m :: more.1, more.2)
      end
  end.
Definition Route (c : Config) (text : string) : result string (list Member) :=
  let s := TrimSpace text in
  let? routed := route_mentions (S (String.length s)) c [] s in
  let count := Z.of_nat (length routed.1) in
  let? _ := refuse ((0 <? count) && String.eqb routed.2 "") "请在 @Agent 后填写工作内容" in
  let? _ := refuse (8 <? count) "一次最多安排 8 位 Agent" in
  Ok routed.1.

(** [strings.Contains] *)
Fixpoint Contains (s sub : string) : bool :=
  HasPrefix s sub || match s with "" => false | String _ r => Contains r sub end.
Definition word_char (c : ascii) : bool := id_char c || is_upper c.
Definition word_ends (s : string) : bool := match s with "" => true | String c _ => negb (word_char c) end.
(** The identifier as a whole word: no word character just before or after it. *)
Fixpoint mentions (id : string) (starts : bool) (s : string) : bool :=
  (starts && HasPrefix s id && word_ends (drop_bytes (String.length id) s))
  || match s with "" => false | String c r => mentions id (negb (word_char c)) r end.
Definition mentioned (text : string) (m : Member) : bool :=
  mentions (wm_ID m) true text || (negb (String.eqb (wm_Name m) (wm_ID m)) && Contains text (wm_Name m)).
Definition cooperationRequested (c : Config) (text : string) : bool :=
  Contains text "@agent:"
  || (Nat.ltb 1 (length (cf_Members c)) && (Contains text "协作" || Contains text "配合"))
  || Nat.leb 2 (length (List.filter (mentioned text) (cf_Members c)))
  || Contains text "多个agent" || Contains text "多个 Agent" || Contains text "多 Agent" || Contains text "多agent"
  || Contains text "多智能体".

(** ** Steps and their JSON *)

Record Step := { st_ID : string; st_Agent : string; st_Prompt : string; st_DependsOn : list string }.
Record plannedStep := { ps_Step : Step; ps_Member : Member }.
Record executionPlan := { ep_Automatic : bool; ep_Explicit : bool; ep_Steps : list plannedStep }.

(** [encoding/json] decodes into what is there: a key that comes twice decodes
    into the value of the first time, and an array into the backing array of the
    slice, whose elements keep what they held. *)
Record slice A := { sl_items : list A; sl_spare : list A }.
Arguments sl_items {A} _.
Arguments sl_spare {A} _.
Definition no_slice {A} : slice A := {| sl_items := []; sl_spare := [] |}.
Section decode.
Context {A : Type} (zero : A) (dec : A -> json -> option A).
Fixpoint dec_elems (old : list A) (l : list json) : option (slice A) :=
  match l with
  | [] => Some {| sl_items := []; sl_spare := old |}
  | j :: r =>
      x ← dec (default zero (head old)) j;
      more ← dec_elems (tail old) r;
      Some {| sl_items := x :: sl_items more; sl_spare := sl_spare more |}
  end.
Definition dec_slice (cur : slice A) (j : json) : option (slice A) :=
  match j with
  | JNull => Some no_slice
  | JArr [] => Some no_slice
  | JArr l => dec_elems (sl_items cur ++ sl_spare cur) l
  | _ => None
  end.
End decode.
(** The field a key names: the one spelled so, else one that folds to it. *)
Definition field_named (names : list string) (key : string) : option string :=
  match List.find (String.eqb key) names with
  | Some n => Some n
  | None => List.find (EqualFold key) names
  end.
Fixpoint dec_fields {T} (names : list string) (set : string -> json -> T -> option T) (fs : list (string * json)) (x : T) : option T :=
  match fs with
  | [] => Some x
  | (k, v) :: r => n ← field_named names k; y ← set n v x; dec_fields names set r y
  end.
Definition dec_struct {T} (names : list string) (set : string -> json -> T -> option T) (x : T) (j : json) : option T :=
  match j with JNull => Some x | JObj fs => dec_fields names set fs x | _ => None end.
Definition dec_text (cur : string) (j : json) : option string :=
  match j with JStr s => Some s | JNull => Some cur | _ => None end.

Record raw_step := { rs_ID : string; rs_Agent : string; rs_Prompt : string; rs_DependsOn : slice string }.
Definition zero_step : raw_step := {| rs_ID := ""; rs_Agent := ""; rs_Prompt := ""; rs_DependsOn := no_slice |}.
Definition set_step (n : string) (v : json) (x : raw_step) : option raw_step :=
  if String.eqb n "id" then
    (fun s => {| rs_ID := s; rs_Agent := rs_Agent x; rs_Prompt := rs_Prompt x; rs_DependsOn := rs_DependsOn x |}) <$> dec_text (rs_ID x) v
  else if String.eqb n "agent" then
    (fun s => {| rs_ID := rs_ID x; rs_Agent := s; rs_Prompt := rs_Prompt x; rs_DependsOn := rs_DependsOn x |}) <$> dec_text (rs_Agent x) v
  else if String.eqb n "prompt" then
    (fun s => {| rs_ID := rs_ID x; rs_Agent := rs_Agent x; rs_Prompt := s; rs_DependsOn := rs_DependsOn x |}) <$> dec_text (rs_Prompt x) v
  else
    (fun l => {| rs_ID := rs_ID x; rs_Agent := rs_Agent x; rs_Prompt := rs_Prompt x; rs_DependsOn := l |})
      <$> dec_slice "" dec_text (rs_DependsOn x) v.
Definition dec_step : raw_step -> json -> option raw_step := dec_struct ["id"; "agent"; "prompt"; "dependsOn"] set_step.
Definition step_of (x : raw_step) : Step :=
  {| st_ID := rs_ID x; st_Agent := rs_Agent x; st_Prompt := rs_Prompt x; st_DependsOn := sl_items (rs_DependsOn x) |}.
Definition dec_steps : slice raw_step -> json -> option (slice raw_step) := dec_slice zero_step dec_step.
(** [Plan]: the struct with the one field [steps]. *)
Definition dec_plan (j : json) : option (list Step) :=
  (fun l => step_of <$> sl_items l) <$> dec_struct ["steps"] (fun _ v x => dec_steps x v) no_slice j.

(** [decoder.Decode]: the first value of the text, and what follows it. *)
Definition read_json (s : string) : option (json * string) :=
  match (let? tr := value_token s in scan_token false (fuel_of s) tr.1 tr.2) with
  | Ok rest => (fun j => (j, rest)) <$> parse (take_bytes (String.length s - String.length rest) s)
  | Err _ => None
  end.

(** ** Planning *)

Definition last_member (id : string) (l : list Member) : option Member := find_member id (rev l).
Fixpoint check_steps (c : Config) (seen : list string) (l : list Step) : result string unit :=
  match l with
  | [] => Ok tt
  | s :: r =>
      let? _ := refuse (negb (validID (st_ID s)) || in_list (st_ID s) seen) ("无效或重复的步骤 ID：" +:+ st_ID s) in
      let? _ := refuse (match last_member (st_Agent s) (cf_Members c) with Some _ => false | None => true end) ("未知 Agent：" +:+ st_Agent s) in
      let? _ := refuse (blank (st_Prompt s) || (8000 <? len (st_Prompt s))) ("步骤 " +:+ st_ID s +:+ " 需要工作内容，且不超过 8000 字节") in
      check_steps c (st_ID s :: seen) r
  end.
Fixpoint check_deps (ids : list string) (self : string) (seen deps : list string) : result string unit :=
  match deps with
  | [] => Ok tt
  | d :: r =>
      let? _ := refuse (String.eqb d self || negb (in_list d ids) || in_list d seen) ("步骤 " +:+ self +:+ " 的依赖无效：" +:+ d) in
      check_deps ids self (d :: seen) r
  end.
Fixpoint check_all_deps (ids : list string) (l : list Step) : result string unit :=
  match l with
  | [] => Ok tt
  | s :: r => let? _ := check_deps ids (st_ID s) [] (st_DependsOn s) in check_all_deps ids r
  end.
(** The first step, in the order they were written, that is not done and whose
    dependencies are. *)
Definition ready (done : list string) (s : Step) : bool :=
  negb (in_list (st_ID s) done) && forallb (fun d => in_list d done) (st_DependsOn s).
(** A round of the loop per step still to be ordered. *)
Fixpoint order_steps (todo : nat) (raw : list Step) (done : list string) : option (list Step) :=
  match todo with
  | O => Some []
  | S n => s ← List.find (ready done) raw; cons s <$> order_steps n raw (st_ID s :: done)
  end.
Definition planned (c : Config) (s : Step) : plannedStep :=
  {| ps_Step := s; ps_Member := default zero_member (last_member (st_Agent s) (cf_Members c)) |}.
Definition cycle_error : string := "协作计划存在循环依赖".
Definition order_plan (c : Config) (raw : list Step) : result string executionPlan :=
  let count := Z.of_nat (length raw) in
  let? _ := refuse ((count <? 1) || (16 <? count)) "协作计划需要 1–16 个步骤" in
  let? _ := check_steps c [] raw in
  let? _ := check_all_deps (st_ID <$> raw) raw in
  match order_steps (length raw) raw [] with
  | Some l => Ok {| ep_Automatic := false; ep_Explicit := true; ep_Steps := planned c <$> l |}
  | None => Err cycle_error
  end.

Definition is_team (s : string) : bool :=
  String.eqb s "/team" || HasPrefix s "/team " || HasPrefix s ("/team" +:+ nl) || HasPrefix s ("/team" +:+ String (chr 9) "")
  || HasPrefix s ("/team" +:+ String (chr 13) "").
Definition automatic : executionPlan := {| ep_Automatic := true; ep_Explicit := false; ep_Steps := [] |}.
Definition direct_step (m : Member) : plannedStep :=
  {| ps_Step := {| st_ID := "direct"; st_Agent := wm_ID m; st_Prompt := ""; st_DependsOn := [] |}; ps_Member := m |}.
(** The JSON of an explicit plan. *)
Definition read_plan (body : string) : result string (list Step) :=
  match read_json body with
  | None => Err "/team 需要 JSON 协作计划"
  | Some (j, rest) =>
      match dec_plan j with
      | None => Err "/team 需要 JSON 协作计划"
      | Some raw => let? _ := refuse (negb (String.eqb (skip_ws rest) "")) "协作计划后不能追加其他内容" in Ok raw
      end
  end.
Definition Plan (c : Config) (text : string) : result string executionPlan :=
  let s := TrimSpace text in
  if negb (is_team s) then
    let? members := Route c text in
    match members with
    | [m] => Ok {| ep_Automatic := false; ep_Explicit := false; ep_Steps := [direct_step m] |}
    | _ => Ok {| ep_Automatic := Nat.ltb 1 (length members) || cooperationRequested c s; ep_Explicit := false; ep_Steps := [] |}
    end
  else
    let body := TrimSpace (TrimPrefix s "/team") in
    if negb (HasPrefix body "{") then (if String.eqb body "" then Err "请描述协作目标" else Ok automatic)
    else
      let? _ := refuse (65536 <? len s) "协作计划不能超过 64 KiB" in
      let? raw := read_plan body in
      order_plan c raw.

(** [validateInferredPlan]: the reply of the planning model. *)
Record inferred := { in_Steps : slice raw_step; in_Clarification : string }.
Definition set_inferred (n : string) (v : json) (x : inferred) : option inferred :=
  if String.eqb n "steps" then (fun l => {| in_Steps := l; in_Clarification := in_Clarification x |}) <$> dec_steps (in_Steps x) v
  else (fun s => {| in_Steps := in_Steps x; in_Clarification := s |}) <$> dec_text (in_Clarification x) v.
Definition step_json (s : Step) : json :=
  JObj ([("id", JStr (st_ID s)); ("agent", JStr (st_Agent s)); ("prompt", JStr (st_Prompt s))]
        ++ match st_DependsOn s with [] => [] | l => [("dependsOn", JArr (JStr <$> l))] end).
(** No steps are [null] or []: both are refused for their number. *)
Definition plan_json (l : list Step) : json := JObj [("steps", JArr (step_json <$> l))].
Definition validateInferredPlan (c : Config) (text : string) : result string executionPlan :=
  let? _ := refuse (65536 <? len text) "规划结果过长" in
  match read_json text with
  | None => Err "模型未返回有效协作计划"
  | Some (j, rest) =>
      match dec_struct ["steps"; "clarification"] set_inferred {| in_Steps := no_slice; in_Clarification := "" |} j with
      | None => Err "模型未返回有效协作计划"
      | Some reply =>
          let? _ := refuse (negb (String.eqb (skip_ws rest) "")) "规划结果包含多余内容" in
          if negb (String.eqb (in_Clarification reply) "") then
            let? _ := refuse (2000 <? len (in_Clarification reply)) "规划澄清内容过长" in
            Err ("需要你澄清：" +:+ in_Clarification reply)
          else
            match Plan c ("/team " +:+ marshal (plan_json (step_of <$> sl_items (in_Steps reply)))) with
            | Ok p => Ok p
            | Err e => Err ("模型生成的依赖未通过校验：" +:+ e)
            end
      end
  end.
