(* ===== verification/WorkgroupSafety.v ===== *)
(** * What plans and runs of a work group guarantee

    A plan that is accepted lists the authored steps, each after the steps it
    depends on and as early as the authored order allows; a plan is refused as
    cyclic only when no such order exists.  The theorems about [execute]: a step is
    given to its worker after the steps it depends on and with exactly their
    results; a turn is reported complete only when every step is; and a run whose
    outcome is uncertain never ends the turn. *)
From S2P Require Import Prelude GoStrings Json StrictJson RoomTypes Workgroup WorkgroupRun.

(** ** Plans *)

Lemma in_list_spec s l : in_list s l = true <-> s ∈ l.
Proof.
  unfold in_list. rewrite existsb_exists. split.
  - intros (x & Hx & ->%String.eqb_eq). by apply list_elem_of_In.
  - intros H. exists s. split; [by apply list_elem_of_In|apply String.eqb_refl].
Qed.
Lemma in_list_false s l : in_list s l = false <-> s ∉ l.
Proof. rewrite <- in_list_spec. by destruct (in_list s l). Qed.
Lemma refuse_ok b e : refuse b e = Ok tt <-> b = false.
Proof. by destruct b. Qed.

(** ** Orders *)

Definition ids (l : list Step) : list string := st_ID <$> l.
(** Every step comes after the steps it depends on. *)
Definition dependencies_first (l : list Step) : Prop :=
  forall pre s post, l = pre ++ s :: post -> Forall (fun d => d ∈ ids pre) (st_DependsOn s).
(** Every step is the first of the authored ones that could come there. *)
Definition first_ready (raw l : list Step) : Prop :=
  forall pre s post, l = pre ++ s :: post ->
  exists before after, raw = before ++ s :: after /\
    Forall (fun s' => st_ID s' ∈ ids pre \/ Exists (fun d => d ∉ ids pre) (st_DependsOn s')) before.

Definition permits (done : list string) (s : Step) : Prop := st_ID s ∉ done /\ Forall (fun d => d ∈ done) (st_DependsOn s).
Lemma ready_permits done s : ready done s = true <-> permits done s.
Proof.
  unfold ready, permits. rewrite andb_true_iff, negb_true_iff, in_list_false, forallb_forall, Forall_forall.
  split; intros [H1 H2]; (split; [done|]); intros d Hd.
  - apply in_list_spec, H2. by apply list_elem_of_In.
  - apply in_list_spec, H2. by apply list_elem_of_In.
Qed.
Lemma find_first {A} (p : A -> bool) l x : List.find p l = Some x ->
  p x = true /\ exists before after, l = before ++ x :: after /\ Forall (fun y => p y = false) before.
Proof.
  induction l as [|y l IH]; [done|]. cbn [find]. destruct (p y) eqn:E.
  - intros [= ->]. split; [done|]. by exists [], l.
  - intros H. destruct (IH H) as (Hx & b & a & -> & F). split; [done|]. exists (y :: b), a. split; [done|by constructor].
Qed.
Lemma not_ready done s : ready done s = false -> st_ID s ∈ done \/ Exists (fun d => d ∉ done) (st_DependsOn s).
Proof.
  unfold ready. intros [H%negb_false_iff%in_list_spec|H]%andb_false_iff; [by left|]. right.
  induction (st_DependsOn s) as [|d l IH]; [done|]. cbn [forallb] in H. apply andb_false_iff in H as [H%in_list_false|H].
  - by apply Exists_cons_hd.
  - by apply Exists_cons_tl, IH.
Qed.

(** Each step of the result was ready when the ones before it were done. *)
Lemma order_steps_ready n raw done l : order_steps n raw done = Some l ->
  length l = n /\
  forall pre s post, l = pre ++ s :: post -> List.find (ready (rev (ids pre) ++ done)) raw = Some s.
Proof.
  induction n as [|n IH] in done, l |- *; cbn [order_steps].
  - intros [= <-]. split; [done|]. by intros [].
  - destruct (find (ready done) raw) as [x|] eqn:E; [|done]. cbn [mbind option_bind].
    destruct (order_steps n raw (st_ID x :: done)) as [m|] eqn:O; [|done]. intros [= <-].
    destruct (IH _ _ O) as [L F]. split; [by cbn; rewrite L|]. intros [|y pre] s post Hl; cbn [app] in Hl.
    + injection Hl as -> _. exact E.
    + injection Hl as -> Hl. cbn [ids fmap list_fmap rev]. rewrite <- app_assoc. by apply (F pre s post).
Qed.
Lemma elem_rev_ids d pre : d ∈ rev (ids pre) ++ [] <-> d ∈ ids pre.
Proof. by rewrite app_nil_r, !list_elem_of_In, <- in_rev. Qed.
Lemma order_steps_spec raw l : NoDup (ids raw) -> order_steps (length raw) raw [] = Some l ->
  Permutation l raw /\ dependencies_first l /\ first_ready raw l.
Proof.
  intros N O. destruct (order_steps_ready _ _ _ _ O) as [L F].
  assert (P : forall pre s post, l = pre ++ s :: post -> permits (ids pre) s /\ s ∈ raw).
  { intros pre s post Hl. specialize (F pre s post Hl). destruct (find_some _ _ F) as [Hin [H1 H2]%ready_permits].
    split; [|by apply list_elem_of_In]. split; [by rewrite <- elem_rev_ids|]. eapply Forall_impl; [exact H2|].
    intros d. apply elem_rev_ids. }
  split_and!.
  - assert (Nl : NoDup (ids l)).
    { clear -P. induction l as [|x l IH] using rev_ind; [constructor|]. unfold ids. rewrite fmap_app. cbn [fmap list_fmap].
      apply NoDup_app. split_and!.
      - apply IH. intros pre s post ->. apply (P pre s (post ++ [x])). by rewrite <- app_assoc.
      - intros y Hy Hx. apply list_elem_of_singleton in Hx as ->. by apply (P l x []).
      - apply NoDup_singleton. }
    apply submseteq_length_Permutation; [|lia]. apply NoDup_submseteq; [by apply NoDup_fmap_1 in Nl|].
    intros x (pre & post & ->)%list_elem_of_split. by apply (P pre x post).
  - intros pre s post Hl. by apply (P pre s post).
  - intros pre s post Hl. destruct (find_first _ _ _ (F pre s post Hl)) as (_ & b & a & E & B). exists b, a. split; [done|].
    eapply Forall_impl; [exact B|]. intros s' [H|H]%not_ready; [left; by apply elem_rev_ids|right].
    eapply Exists_impl; [exact H|]. intros d. cbv beta. by rewrite elem_rev_ids.
Qed.

(** While an order exists and steps remain, one is ready. *)
Lemma first_missing (done : list string) (l : list Step) : (exists s, s ∈ l /\ st_ID s ∉ done) ->
  exists pre s post, l = pre ++ s :: post /\ st_ID s ∉ done /\ Forall (fun s => st_ID s ∈ done) pre.
Proof.
  induction l as [|x l IH]; intros (s & Hs & Hd); [by apply not_elem_of_nil in Hs|].
  destruct (decide (st_ID x ∈ done)) as [Hx|Hx]; [|by exists [], x, l].
  destruct IH as (pre & y & post & -> & Hy & F).
  - exists s. split; [|done]. apply elem_of_cons in Hs as [->|Hs]; done.
  - exists (x :: pre), y, post. split_and!; [done|done|by constructor].
Qed.
Lemma order_steps_complete raw l : NoDup (ids raw) -> Permutation l raw -> dependencies_first l ->
  forall n dn, NoDup dn -> dn ⊆ ids raw -> (n + length dn = length raw)%nat -> order_steps n raw dn <> None.
Proof.
  intros N P D. induction n as [|n IH]; intros dn Nd Sub Len; cbn [order_steps]; [done|].
  destruct (find (ready dn) raw) as [x|] eqn:E; cbn [mbind option_bind].
  - apply find_some in E as [Hin [Hx _]%ready_permits]. 
    destruct (order_steps n raw (st_ID x :: dn)) as [m|] eqn:O; [done|]. exfalso. revert O. apply IH.
    + by constructor.
    + intros d [->|Hd]%elem_of_cons; [|by apply Sub]. apply list_elem_of_fmap_2. by apply list_elem_of_In.
    + cbn [length]. lia.
  - intros _. destruct (first_missing dn l) as (pre & s & post & El & Hs & F).
    { destruct (decide (Exists (fun i => i ∉ dn) (ids l))) as [X|X].
      - apply Exists_exists in X as (i & (s & -> & Hs)%list_elem_of_fmap & Hi). eauto.
      - exfalso. apply not_Exists_Forall in X; [|intros ?; apply _].
        assert (Nl : NoDup (ids l)) by (unfold ids; by rewrite P).
        assert (S : submseteq (ids l) dn).
        { apply NoDup_submseteq; [done|]. intros i Hi. rewrite Forall_forall in X. apply dec_stable, X, Hi. }
        apply submseteq_length in S. unfold ids in S. rewrite length_fmap, P in S. lia. }
    specialize (find_none _ _ E s). rewrite <- list_elem_of_In, <- P, El. intros R.
    assert (permits dn s) as H%ready_permits; [|rewrite R in H; [done|set_solver]].
    split; [done|]. eapply Forall_impl; [exact (D pre s post El)|]. intros d (t & -> & Ht)%list_elem_of_fmap.
    rewrite Forall_forall in F. by apply F.
Qed.

(** ** The validation before the ordering *)

Lemma check_steps_ok c l seen : check_steps c seen l = Ok tt -> NoDup (ids l) /\ Forall (fun i => i ∉ seen) (ids l) /\
  Forall (fun s => validID (st_ID s) = true /\ is_Some (last_member (st_Agent s) (cf_Members c)) /\
                   blank (st_Prompt s) = false /\ len (st_Prompt s) <= 8000) l.
Proof.
  induction l as [|s l IH] in seen |- *; cbn [check_steps]; [by repeat constructor|].
  destruct (negb (validID (st_ID s)) || _) eqn:E1; [done|]. cbn [refuse result_bind].
  destruct (last_member (st_Agent s) (cf_Members c)) as [m|] eqn:E2; [|done]. cbn [refuse result_bind].
  destruct (blank (st_Prompt s) || _) eqn:E3; [done|]. cbn [refuse result_bind]. intros (N & F & G)%IH. bool_props.
  split_and!.
  - cbn. constructor; [|done]. intros Hin. rewrite Forall_forall in F. apply (F _ Hin), list_elem_of_here.
  - cbn. constructor; [by apply in_list_false|]. eapply Forall_impl; [exact F|]. intros i Hi Hs. apply Hi. by right.
  - constructor; [|done]. rewrite E2. split_and!; [done|eauto|done|lia].
Qed.
(** The steps that a plan was made of. *)
Record wf_plan (c : Config) (raw : list Step) : Prop := {
  wp_count : 1 <= Z.of_nat (length raw) <= 16;
  wp_ids : NoDup (ids raw);
  wp_steps : Forall (fun s => validID (st_ID s) = true /\ is_Some (last_member (st_Agent s) (cf_Members c)) /\
                              blank (st_Prompt s) = false /\ len (st_Prompt s) <= 8000) raw }.
(** The refusals before the ordering are not the one about cycles. *)
Lemma refuse_not_cycle b e : e <> cycle_error -> refuse b e <> Err cycle_error.
Proof. destruct b; cbn; congruence. Qed.
Ltac not_cycle := intros E; apply (f_equal (take_bytes 16)) in E; vm_compute in E; discriminate E.
Ltac refusal e :=
  let H := fresh in
  match goal with |- context [refuse ?b e] => pose proof (refuse_not_cycle b e) as H; destruct (refuse b e) as [[]|] eqn:?; cbn [result_bind];
    [clear H|let E := fresh in intros [= E]; rewrite E in H; exfalso; apply H; [not_cycle|done]] end.
Lemma check_steps_not_cycle c l seen : check_steps c seen l <> Err cycle_error.
Proof.
  induction l as [|s l IH] in seen |- *; cbn [check_steps]; [done|].
  refusal ("无效或重复的步骤 ID：" +:+ st_ID s). refusal ("未知 Agent：" +:+ st_Agent s).
  refusal ("步骤 " +:+ st_ID s +:+ " 需要工作内容，且不超过 8000 字节"). apply IH.
Qed.
Lemma check_deps_not_cycle i self deps seen : check_deps i self seen deps <> Err cycle_error.
Proof.
  induction deps as [|d l IH] in seen |- *; cbn [check_deps]; [done|].
  refusal ("步骤 " +:+ self +:+ " 的依赖无效：" +:+ d). apply IH.
Qed.
Lemma check_all_deps_not_cycle i l : check_all_deps i l <> Err cycle_error.
Proof.
  induction l as [|s l IH]; cbn [check_all_deps]; [done|]. pose proof (check_deps_not_cycle i (st_ID s) (st_DependsOn s) []).
  destruct (check_deps _ _ _ _); [done|]. cbn [result_bind]. congruence.
Qed.
Lemma order_plan_outcome c raw :
  match order_plan c raw with
  | Ok p => wf_plan c raw /\ ep_Automatic p = false /\ ep_Explicit p = true /\
            exists l, order_steps (length raw) raw [] = Some l /\ ep_Steps p = planned c <$> l
  | Err e => e = cycle_error -> wf_plan c raw /\ order_steps (length raw) raw [] = None
  end.
Proof.
  unfold order_plan. destruct (_ || _) eqn:B; cbn [refuse result_bind].
  { intros E. exfalso. revert E. not_cycle. }
  pose proof (check_steps_not_cycle c raw []) as N1. pose proof (check_all_deps_not_cycle (st_ID <$> raw) raw) as N2.
  destruct (check_steps c [] raw) as [[]|e] eqn:C1; cbn [result_bind]; [|congruence].
  apply check_steps_ok in C1 as (N & _ & F). bool_props.
  destruct (check_all_deps _ raw) as [[]|e]; cbn [result_bind]; [|congruence].
  assert (wf_plan c raw) by (split; [lia|done|done]).
  destruct (order_steps (length raw) raw []) as [l|]; [|done]. cbn. eauto 10.
Qed.

(** ** Properties *)

(** The JSON of a message that is an explicit plan. *)
Definition explicit_body (text : string) : option string :=
  let s := TrimSpace text in
  let body := TrimSpace (TrimPrefix s "/team") in
  if is_team s && HasPrefix body "{" && (len s <=? 65536) then Some body else None.
Lemma Plan_explicit c text body raw : explicit_body text = Some body -> read_plan body = Ok raw -> Plan c text = order_plan c raw.
Proof.
  unfold explicit_body, Plan. destruct (is_team _) eqn:E1; [|done]. destruct (HasPrefix _ "{") eqn:E2; [|done].
  destruct (_ <=? 65536) eqn:E3; [|done]. cbn [andb negb]. intros [= <-] R. rewrite (proj2 (Z.ltb_ge _ _)) by (by apply Z.leb_le).
  cbn [refuse result_bind]. by rewrite R.
Qed.

(** Whatever is planned is ordered. *)
Lemma planned_steps c (l : list Step) : ps_Step <$> (planned c <$> l) = l.
Proof. induction l as [|s l IH]; [done|]. cbn. f_equal. exact IH. Qed.
Lemma single_ordered s : st_DependsOn s = [] -> dependencies_first [s] /\ NoDup (ids [s]).
Proof.
  intros E. split; [|by apply NoDup_singleton]. intros [|x pre] t post H; [|by destruct pre]. injection H as <- _. by rewrite E.
Qed.
Lemma Plan_ordered c text p : Plan c text = Ok p ->
  dependencies_first (ps_Step <$> ep_Steps p) /\ NoDup (ids (ps_Step <$> ep_Steps p)).
Proof.
  assert (E : dependencies_first [] /\ NoDup (ids [])) by (split; [by intros []|constructor]).
  unfold Plan. destruct (is_team _); cbn [negb].
  - destruct (HasPrefix _ "{"); cbn [negb]; [|destruct (String.eqb _ ""); [done|intros [= <-]; exact E]].
    destruct (refuse _ _); [|done]. cbn [result_bind]. destruct (read_plan _) as [raw|]; [|done]. cbn [result_bind].
    intros H. pose proof (order_plan_outcome c raw) as O. rewrite H in O. destruct O as (W & _ & _ & l & L & ->). rewrite planned_steps.
    destruct (order_steps_spec raw l (wp_ids c raw W) L) as (P & D & _). split; [done|]. unfold ids. rewrite P. apply (wp_ids c raw W).
  - destruct (Route c text) as [[|m [|m' l]]|]; cbn [result_bind]; [| | |done]; intros [= <-]; [exact E| |exact E].
    by apply single_ordered.
Qed.
(** An answer of the planner that is accepted has steps. *)
Lemma order_plan_steps c raw p : order_plan c raw = Ok p -> ep_Steps p <> [].
Proof.
  intros H. pose proof (order_plan_outcome c raw) as O. rewrite H in O. destruct O as (W & _ & _ & l & L & ->).
  destruct (order_steps_spec raw l (wp_ids c raw W) L) as (P & _). destruct l; [|done].
  apply Permutation_nil_l in P as <-. pose proof (wp_count _ _ W). cbn in *. lia.
Qed.
Lemma keep_left a w : code a = 47 \/ code a = 123 -> trim_left (String a w) = String a w.
Proof.
  intros H. assert (space1 a = false /\ (forall b, space2 a b = false) /\ forall b c, space3 a b c = false) as (E1 & E2 & E3).
  { unfold space1, space2, space3, between. by destruct H as [-> | ->]. }
  cbn [trim_left]. rewrite E1. destruct w as [|b [|c w]]; by rewrite ?E2, ?E3.
Qed.
Lemma keep_right w : trim_left_rev (String "}" w) = String "}" w.
Proof.
  assert (space1 "}" = false /\ (forall b, space2 b "}" = false) /\ forall b c, space3 c b "}" = false) as (E1 & E2 & E3).
  { split_and!; [done|intros b|intros b c]; unfold space2, space3; cbn; by rewrite ?andb_false_r. }
  cbn [trim_left_rev]. rewrite E1. destruct w as [|b [|c w]]; by rewrite ?E2, ?E3.
Qed.
Lemma TrimSpace_closed a w : code a = 47 \/ code a = 123 -> TrimSpace (String a (w +:+ "}")) = String a (w +:+ "}").
Proof.
  intros H. unfold TrimSpace. rewrite (keep_left _ _ H). change (String a (w +:+ "}")) with (String a w +:+ "}").
  unfold str_rev at 2. rewrite bytes_app, rev_app_distr. cbn [bytes rev app of_bytes]. rewrite keep_right.
  unfold str_rev. cbn [bytes]. rewrite bytes_of_bytes. cbn [rev]. rewrite rev_app_distr, rev_involutive. cbn [rev app of_bytes].
  rewrite <- (of_bytes_bytes (String a w +:+ "}")), bytes_app. done.
Qed.
Lemma substring_all s : String.substring 0 (String.length s) s = s.
Proof. induction s as [|c s IH]; [done|]. cbn. by rewrite IH. Qed.
Lemma trim_space_first w : TrimSpace (" {" +:+ w +:+ "}") = "{" +:+ w +:+ "}".
Proof.
  transitivity (TrimSpace ("{" +:+ w +:+ "}")); [done|]. apply (TrimSpace_closed "{" w). by right.
Qed.
Lemma Plan_of_marshal c fs : Plan c ("/team " +:+ marshal (JObj fs)) =
  (let? _ := refuse (65536 <? len ("/team " +:+ marshal (JObj fs))) "协作计划不能超过 64 KiB" in
   let? raw := read_plan (marshal (JObj fs)) in order_plan c raw).
Proof.
  cbn [marshal]. generalize (join "," (map (fun '(k, v) => quote k +:+ ":" +:+ marshal v) fs)). intros w.
  unfold Plan. pose proof (TrimSpace_closed "/" ("team {" +:+ w) (or_introl eq_refl)) as E.
  change (String "/" (("team {" +:+ w) +:+ "}")) with ("/team " +:+ "{" +:+ w +:+ "}") in E. rewrite E.
  assert (is_team ("/team " +:+ "{" +:+ w +:+ "}") = true) as -> by done. cbn [negb].
  assert (TrimPrefix ("/team " +:+ "{" +:+ w +:+ "}") "/team" = " {" +:+ w +:+ "}") as ->.
  { unfold TrimPrefix. change (HasPrefix _ _) with true. cbv iota.
    change (String.length ("/team " +:+ "{" +:+ w +:+ "}") - String.length "/team")%nat with (String.length (" {" +:+ w +:+ "}")).
    apply (substring_all (" {" +:+ w +:+ "}")). }
  rewrite trim_space_first. assert (HasPrefix ("{" +:+ w +:+ "}") "{" = true) as ->; [|done]. unfold HasPrefix. cbn. by destruct w.
Qed.
Lemma inferred_steps c text p : validateInferredPlan c text = Ok p -> ep_Steps p <> [].
Proof.
  unfold validateInferredPlan. destruct (refuse _ _); [|done]. cbn [result_bind]. destruct (read_json text) as [[j rest]|]; [|done].
  destruct (dec_struct _ _ _ j) as [reply|]; [|done]. destruct (refuse _ _); [|done]. cbn [result_bind].
  destruct (String.eqb (in_Clarification reply) ""); cbn [negb]; [|by destruct (refuse _ _)].
  unfold plan_json. rewrite Plan_of_marshal. destruct (refuse _ _); [|done]. cbn [result_bind].
  destruct (read_plan _) as [raw|]; [|done]. cbn [result_bind]. destruct (order_plan c raw) as [q|] eqn:E; [|done].
  intros [= <-]. by eapply order_plan_steps.
Qed.
Lemma inferred_ordered c text p : validateInferredPlan c text = Ok p ->
  dependencies_first (ps_Step <$> ep_Steps p) /\ NoDup (ids (ps_Step <$> ep_Steps p)).
Proof.
  unfold validateInferredPlan. destruct (refuse _ _); [|done]. cbn [result_bind]. destruct (read_json text) as [[j rest]|]; [|done].
  destruct (dec_struct _ _ _ j) as [reply|]; [|done]. destruct (refuse _ _); [|done]. cbn [result_bind].
  destruct (String.eqb (in_Clarification reply) ""); cbn [negb]; [|by destruct (refuse _ _)].
  destruct (Plan c _) as [q|] eqn:E; [|done]. intros [= <-]. by eapply Plan_ordered.
Qed.

(** An accepted plan is executed in the order of its dependencies, and only a
    cyclic plan is refused as one.  When the JSON of a message reads as the steps
    [raw], an accepted plan consists of exactly these steps, each with the agent it
    names and after all the steps it depends on, and at every place stands the
    first authored step that can stand there; when the refusal is that of a cycle,
    no order of the steps puts dependencies first. *)
Theorem plan_respects_dependencies c text body raw :
  explicit_body text = Some body -> read_plan body = Ok raw ->
  match Plan c text with
  | Ok p => exists l, ep_Steps p = planned c <$> l /\ Permutation l raw /\ dependencies_first l /\ first_ready raw l /\
              Forall (fun s => last_member (st_Agent s) (cf_Members c) = Some (ps_Member (planned c s))) l
  | Err e => e = cycle_error -> ~ exists l, Permutation l raw /\ dependencies_first l
  end.
Proof.
  intros B R. rewrite (Plan_explicit c text body raw B R). pose proof (order_plan_outcome c raw) as O.
  destruct (order_plan c raw) as [p|e].
  - destruct O as (W & _ & _ & l & E & S). destruct (order_steps_spec raw l (wp_ids c raw W) E) as (P & D & F).
    exists l. split_and!; [done..|]. pose proof (wp_steps c raw W) as A. rewrite <- P in A. eapply Forall_impl; [exact A|].
    intros s (_ & [m Hm] & _). unfold planned. cbn. by rewrite Hm.
  - intros Ee (l & P & D). destruct (O Ee) as [W N].
    apply (order_steps_complete raw l (wp_ids c raw W) P D (length raw) []) in N; [done|constructor|set_solver|cbn; lia].
Qed.

(** ** Instances *)

Definition demo_config : Config :=
  {| cf_Version := 1;
     cf_Members := cf_Members Default ++
       [{| wm_Mode := "review"; wm_ID := "claude.a"; wm_Name := "Claude"; wm_Provider := "claude-code"; wm_Description := "";
           wm_Instructions := ""; wm_Command := []; wm_TimeoutSeconds := 0 |}] |}.
Definition demo_plan : string := bq
  "/team {`steps`:[{`id`:`review`,`agent`:`claude.a`,`prompt`:`review`,`dependsOn`:[`develop`]},{`ID`:`develop`,`agent`:`codex`,`prompt`:`write`}]}".
Definition cyclic_plan : string := bq
  "/team {`steps`:[{`id`:`a`,`agent`:`codex`,`prompt`:`x`,`dependsOn`:[`b`]},{`id`:`b`,`agent`:`codex`,`prompt`:`y`,`dependsOn`:[`a`]}]}".
Example config_ok : Config_Validate demo_config = Ok tt.
Proof. vm_compute. reflexivity. Qed.
Example plan_demo : (fun p => (fun s => st_ID (ps_Step s)) <$> ep_Steps p) <$> (match Plan demo_config demo_plan with Ok p => Some p | Err _ => None end)
  = Some ["develop"; "review"].
Proof. vm_compute. reflexivity. Qed.
Example route_demo : match Plan demo_config "@agent:claude.a  look at it" with Ok p => (fun s => wm_ID (ps_Member s)) <$> ep_Steps p | Err _ => [] end = ["claude.a"].
Proof. vm_compute. reflexivity. Qed.
Example natural_demo : (fun t => match Plan demo_config t with Ok p => ep_Automatic p | Err _ => false end)
    <$> ["codex writes, claude.a reviews"; "codex2 writes, claude.ab reviews"; "请协作"] = [true; false; true].
Proof. vm_compute. reflexivity. Qed.
(** A key that comes twice decodes into the slice that is there. *)
Example plan_reuses_elements :
  read_plan (bq "{`steps`:[{`id`:`a`,`agent`:`codex`,`prompt`:`x`}],`steps`:[{`id`:`b`}]}")
  = Ok [{| st_ID := "b"; st_Agent := "codex"; st_Prompt := "x"; st_DependsOn := [] |}].
Proof. vm_compute. reflexivity. Qed.

Definition demo_steps : list Step :=
  [{| st_ID := "review"; st_Agent := "claude.a"; st_Prompt := "review"; st_DependsOn := ["develop"] |};
   {| st_ID := "develop"; st_Agent := "codex"; st_Prompt := "write"; st_DependsOn := [] |}].
Definition cyclic_steps : list Step :=
  [{| st_ID := "a"; st_Agent := "codex"; st_Prompt := "x"; st_DependsOn := ["b"] |};
   {| st_ID := "b"; st_Agent := "codex"; st_Prompt := "y"; st_DependsOn := ["a"] |}].
Lemma plan_respects_dependencies_witness :
  (exists p l, Plan demo_config demo_plan = Ok p /\ ep_Steps p = planned demo_config <$> l /\ Permutation l demo_steps /\ dependencies_first l) /\
  (Plan demo_config cyclic_plan = Err cycle_error /\ ~ exists l, Permutation l cyclic_steps /\ dependencies_first l).
Proof.
  split.
  - pose proof (plan_respects_dependencies demo_config demo_plan (default "" (explicit_body demo_plan)) demo_steps) as H.
    destruct (Plan demo_config demo_plan) as [p|e] eqn:E.
    + destruct H as (l & H1 & H2 & H3 & _); [vm_compute; reflexivity|vm_compute; reflexivity|]. by exists p, l.
    + exfalso. revert E. vm_compute. discriminate.
  - assert (E : Plan demo_config cyclic_plan = Err cycle_error) by (vm_compute; reflexivity). split; [exact E|].
    pose proof (plan_respects_dependencies demo_config cyclic_plan (default "" (explicit_body cyclic_plan)) cyclic_steps) as H.
    rewrite E in H. apply H; [vm_compute; reflexivity|vm_compute; reflexivity|reflexivity].
Defined.

(** ** Assertions about the trace *)

Definition wpr {A} (m : Run A) (Q : A -> list effect -> Prop) (tr : list effect) : Prop :=
  forall s, effects s = tr -> Q (m s).2 (effects (m s).1).
Lemma wpr_ret {A} (a : A) (Q : A -> list effect -> Prop) tr : Q a tr -> wpr (mret a) Q tr.
Proof. by intros H s <-. Qed.
Lemma wpr_bind {A B} (m : Run A) (k : A -> Run B) Q tr : wpr m (fun a => wpr (k a) Q) tr -> wpr (m ≫= k) Q tr.
Proof. intros H s E. specialize (H s E). unfold mbind, Proc_bind. destruct (m s) as [s' a]. by apply H. Qed.
Lemma wpr_ask {A} (f : nat -> A) (Q : A -> list effect -> Prop) tr : (forall a, Q a tr) -> wpr (ask f) Q tr.
Proof. intros H s <-. apply H. Qed.
Lemma wpr_note e (Q : unit -> list effect -> Prop) tr : Q tt (tr ++ [e]) -> wpr (note e) Q tr.
Proof. by intros H s <-. Qed.
Lemma wpr_mono {A} (m : Run A) (Q R : A -> list effect -> Prop) tr : wpr m Q tr -> (forall a t, Q a t -> R a t) -> wpr m R tr.
Proof. intros H HR s E. by apply HR, H. Qed.
Ltac wpr_step :=
  lazymatch goal with
  | |- wpr (mbind _ _) _ _ => apply wpr_bind
  | |- wpr (mret _) _ _ => apply wpr_ret
  | |- wpr (ask _) _ _ => apply wpr_ask; intros ?
  | |- wpr (note _) _ _ => apply wpr_note
  | |- wpr (if ?b then _ else _) _ _ => destruct b eqn:?
  | |- wpr (match ?x with _ => _ end) _ _ => destruct x eqn:?
  end; cbv beta iota.
Ltac wpr_steps := repeat wpr_step.

Definition each (Q : list effect -> effect -> Prop) (tr : list effect) : Prop :=
  forall pre e post, tr = pre ++ e :: post -> Q pre e.
Lemma each_nil Q : each Q [].
Proof. intros pre x post. by destruct pre. Qed.
Lemma each_snoc Q tr e : each Q tr -> Q tr e -> each Q (tr ++ [e]).
Proof.
  intros H He pre x post E. destruct post as [|y post _] using rev_ind.
  - apply app_inj_tail in E as [<- <-]. exact He.
  - change (tr ++ [e] = pre ++ (x :: post) ++ [y]) in E. rewrite app_assoc in E. apply app_inj_tail in E as [-> _].
    by apply (H pre x post).
Qed.

(** ** What the trace shows of the steps *)

Definition step_work (p : plannedStep) : string * Workgroup.Member * list string :=
  (st_ID (ps_Step p), ps_Member p, st_DependsOn (ps_Step p)).
(** The steps that were given to a worker. *)
Definition worked (tr : list effect) : list (string * Workgroup.Member * list string) :=
  omap (fun e => match e with EfWork m a _ => Some (as_StepID a, m, as_DependsOn a) | _ => None end) tr.
(** What the planner was asked and gave. *)
Definition planner_asks (tr : list effect) : list (Config * string * result error string) :=
  omap (fun e => match e with EfAsk dir prompt answer => Some (dir, prompt, answer) | _ => None end) tr.
(** [r] is the result of the step [d], valid and marked with its author. *)
Definition handed (pre : list effect) (d : string) (r : Result) : Prop :=
  exists m a x, EfWork m a (Ok x) ∈ pre /\ as_StepID a = d /\ invalid_result x = false /\ r = tagged x (wm_ID m) d.
Definition fed (pre : list effect) (e : effect) : Prop :=
  match e with EfWork m a _ => Forall2 (handed pre) (as_DependsOn a) (as_Prior a) | _ => True end.
Definition terminal_kinds : list string := ["turn-completed"; "turn-failed"; "turn-interrupted"; "protocol-error"].
Definition is_terminal (e : effect) : bool := match e with EfEmit ev => in_list (ae_Kind ev) terminal_kinds | _ => false end.
Definition quiet (e : effect) : bool := match e with EfState _ _ => false | _ => negb (is_terminal e) end.
(** Nothing failed to be saved, and neither the planner nor a worker left its
    delivery uncertain. *)
Definition certain (e : effect) : Prop :=
  match e with
  | EfItems _ ok | EfWorkflow _ ok | EfState _ ok => ok = true
  | EfAsk _ _ (Err e) | EfWork _ _ (Err e) => errors_Is e ErrDeliveryUnknown = false
  | _ => True
  end.
Definition delivered (e : effect) : Prop := match e with EfWork _ _ r => exists x, r = Ok x /\ invalid_result x = false | _ => True end.

Definition base (tr : list effect) : Prop := each fed tr /\ Forall (fun e => quiet e = true) tr.
Lemma base_nil : base [].
Proof. split; [apply each_nil|constructor]. Qed.
Lemma base_snoc tr e : base tr -> quiet e = true -> fed tr e -> base (tr ++ [e]).
Proof. intros [H1 H2] Hq Hf. split; [by apply each_snoc|]. apply Forall_app. split; [done|by constructor]. Qed.
Lemma worked_snoc tr e : worked (tr ++ [e]) = worked tr ++ worked [e].
Proof. unfold worked. by rewrite omap_app. Qed.
Lemma asked_snoc tr e : planner_asks (tr ++ [e]) = planner_asks tr ++ planner_asks [e].
Proof. unfold planner_asks. by rewrite omap_app. Qed.
Lemma Forall_snoc {A} (P : A -> Prop) l x : Forall P l -> P x -> Forall P (l ++ [x]).
Proof. intros H Hx. apply Forall_app. split; [done|by constructor]. Qed.
Lemma handed_app pre e d r : handed pre d r -> handed (pre ++ [e]) d r.
Proof. intros (m & a & x & H & E). exists m, a, x. split; [apply elem_of_app; by left|done]. Qed.

(** A stretch of the run in which no worker is called and all goes well. *)
Record calm_step (tr tr' : list effect) : Prop := {
  cs_base : base tr -> base tr';
  cs_worked : worked tr' = worked tr;
  cs_handed : forall d r, handed tr d r -> handed tr' d r;
  cs_delivered : Forall delivered tr -> Forall delivered tr' }.
Lemma calm_refl tr : calm_step tr tr.
Proof. by split. Qed.
Definition idle (e : effect) : Prop := quiet e = true /\ match e with EfWork _ _ _ => False | _ => True end.
Lemma calm_snoc tr e : idle e -> calm_step tr (tr ++ [e]).
Proof.
  intros [Hq Hi]. split.
  - intros H. apply base_snoc; [done|done|]. by destruct e.
  - rewrite worked_snoc. destruct e; try done; by rewrite app_nil_r.
  - intros d r. apply handed_app.
  - intros H. apply Forall_snoc; [done|]. by destruct e.
Qed.
Lemma calm_trans a b c : calm_step a b -> calm_step b c -> calm_step a c.
Proof. intros [A1 A2 A3 A4] [B1 B2 B3 B4]. split; [auto|congruence|auto|auto]. Qed.

Section run.
Context (env : environment) (thread turn : string).

Lemma save_items_wpr l tr : wpr (save_items env l) (fun ok t => t = tr ++ [EfItems (lo_items l) ok]) tr.
Proof. unfold save_items. by wpr_steps. Qed.
Lemma emit_wpr e tr : wpr (emit env e) (fun ok t => t = if ok then tr ++ [EfEmit e] else tr) tr.
Proof. unfold emit. by wpr_steps. Qed.
Lemma persist_wpr b l tr : wpr (persistPlan env b l) (fun ok t => t = tr /\ ok = true \/ t = tr ++ [EfWorkflow (lo_receipts l) ok]) tr.
Proof. unfold persistPlan. wpr_steps; auto. Qed.
(** The plan that an answer of the planner gives. *)
Definition taken_from (dir : Config) (answer : result error string) : result error executionPlan :=
  match answer with
  | Err e => Err e
  | Ok text => match validateInferredPlan dir text with Ok p => Ok p | Err e => Err (ErrText e) end
  end.
Definition no_planner : error := ErrText "当前 Agent 不支持隔离协作规划，请更新 Host".
Lemma inferPlan_wpr a tr : wpr (inferPlan env a)
  (fun r t => t = tr /\ r = Err no_planner \/
              exists dir answer, t = tr ++ [EfAsk dir (planner_prompt dir a) answer] /\ r = taken_from dir answer) tr.
Proof. unfold inferPlan. wpr_steps; [right; by eexists _, _..|by left]. Qed.
Lemma work_wpr m a tr : wpr (work env m a)
  (fun r t => t = tr ++ [EfWork m a r] /\ forall x, r = Ok x -> invalid_result x = false) tr.
Proof.
  unfold work. wpr_steps; (split; [done|]); intros x;
    repeat match goal with |- context [match ?y with _ => _ end] => destruct y eqn:? end; congruence.
Qed.

(** ** The steps *)

Record progress (dn : list plannedStep) (l : locals) (tr : list effect) : Prop := {
  pg_base : base tr;
  pg_worked : worked tr = step_work <$> dn;
  pg_delivered : Forall delivered tr;
  pg_certain : Forall certain tr;
  pg_results : Forall (fun x => handed tr x.1 x.2) (lo_results l);
  pg_domain : forall p, p ∈ dn -> st_ID (ps_Step p) ∈ (lo_results l).*1;
  pg_state : lo_state l = RequestCompleted;
  pg_failure : lo_failure l = None }.
Definition broken (steps : list plannedStep) (l : locals) (tr : list effect) : Prop :=
  base tr /\ worked tr `prefix_of` (step_work <$> steps) /\
  (is_unknown (lo_failure l) = false -> Forall certain tr /\ (lo_state l = RequestFailed \/ lo_state l = RequestInterrupted)) /\
  (lo_state l = RequestCompleted \/ lo_state l = RequestFailed \/ lo_state l = RequestInterrupted).
Definition left_off (steps : list plannedStep) (tr : list effect) : Prop :=
  base tr /\ worked tr `prefix_of` (step_work <$> steps).

Lemma progress_calm dn l l' tr e : progress dn l tr -> idle e -> certain e ->
  lo_results l' = lo_results l -> lo_state l' = lo_state l -> lo_failure l' = lo_failure l -> progress dn l' (tr ++ [e]).
Proof.
  intros P I C R S F. pose proof (calm_snoc tr e I) as [B W H D]. destruct P. split; rewrite ?R, ?S, ?F; auto.
  - congruence.
  - by apply Forall_snoc.
  - eapply Forall_impl; [eassumption|]. intros x. apply H.
Qed.
Lemma progress_locals dn l l' tr : progress dn l tr ->
  lo_results l' = lo_results l -> lo_state l' = lo_state l -> lo_failure l' = lo_failure l -> progress dn l' tr.
Proof. intros P R S F. destruct P. split; rewrite ?R, ?S, ?F; auto. Qed.
Lemma progress_prefix dn rest l tr : progress dn l tr -> worked tr `prefix_of` (step_work <$> dn ++ rest).
Proof. intros P. rewrite (pg_worked _ _ _ P), fmap_app. by apply prefix_app_r. Qed.
Lemma progress_left_off dn rest l tr : progress dn l tr -> left_off (dn ++ rest) tr.
Proof. intros P. split; [by apply P|by eapply progress_prefix]. Qed.

Lemma result_of_handed l tr d : Forall (fun x => handed tr x.1 x.2) (lo_results l) -> d ∈ (lo_results l).*1 -> handed tr d (result_of l d).
Proof.
  intros F (x & -> & Hx)%list_elem_of_fmap. unfold result_of. destruct (find _ (lo_results l)) as [y|] eqn:E.
  - apply find_some in E as [Hy <-%String.eqb_eq]. rewrite Forall_forall in F. by apply F, list_elem_of_In.
  - apply list_elem_of_In in Hx. pose proof (find_none _ _ E x Hx) as N. cbv beta in N. by rewrite String.eqb_refl in N.
Qed.
Lemma prior_handed a l tr p : Forall (fun x => handed tr x.1 x.2) (lo_results l) ->
  Forall (fun d => d ∈ (lo_results l).*1) (st_DependsOn (ps_Step p)) ->
  Forall2 (handed tr) (as_DependsOn (assign a l p)) (as_Prior (assign a l p)).
Proof.
  intros F D. cbn [assign as_DependsOn as_Prior]. induction D as [|d ds Hd _ IH]; cbn; constructor; [by apply result_of_handed|exact IH].
Qed.

Lemma worked_work tr m a r : worked (tr ++ [EfWork m a r]) = worked tr ++ [(as_StepID a, m, as_DependsOn a)].
Proof. by rewrite worked_snoc. Qed.
Lemma left_off_calm steps tr e : left_off steps tr -> idle e -> left_off steps (tr ++ [e]).
Proof. intros [B P] I. pose proof (calm_snoc tr e I) as [B' W _ _]. split; [auto|by rewrite W]. Qed.
Lemma broken_unknown steps l tr : left_off steps tr ->
  (lo_state l = RequestCompleted \/ lo_state l = RequestFailed \/ lo_state l = RequestInterrupted) -> broken steps (fail_unknown l) tr.
Proof. intros [B P] S. split_and!; [done|done| |done]. done. Qed.

(** One step: it runs in full and the next can start, or the run stops. *)
Definition step_outcome (steps dn : list plannedStep) (p : plannedStep) (x : flow * locals) (tr : list effect) : Prop :=
  match x.1 with
  | Next => progress (dn ++ [p]) x.2 tr
  | Break => broken steps x.2 tr
  | Return => left_off steps tr
  end.
(** Saving the items and announcing the last one, in the middle of a step. *)
Lemma announce_wpr steps dn p l item k tr : left_off steps tr -> lo_state l = RequestCompleted ->
  wpr k (step_outcome steps dn p) ((tr ++ [EfItems (lo_items l) true]) ++ [EfEmit (item_event item)]) ->
  wpr (ok ← save_items env l;
       if negb ok then mret (Break, fail_unknown l) else
       ok ← emit env (item_event item);
       if negb ok then mret (Return, l) else k) (step_outcome steps dn p) tr.
Proof.
  intros L S K. apply wpr_bind. eapply wpr_mono; [apply save_items_wpr|]. intros ok ? ->.
  destruct ok; cbn [negb]; [|by apply wpr_ret, broken_unknown; [apply left_off_calm|left]].
  apply wpr_bind. eapply wpr_mono; [apply emit_wpr|]. intros ok ? ->. destruct ok; cbn [negb]; [exact K|].
  apply wpr_ret. by apply left_off_calm.
Qed.
(** Saving the receipts does not change how far the run is. *)
Lemma persist_progress explicit l tr : wpr (persistPlan env explicit l)
  (fun ok t => (forall steps, left_off steps tr -> left_off steps t) /\ (ok = true -> forall dn l', progress dn l' tr -> progress dn l' t)) tr.
Proof.
  eapply wpr_mono; [apply persist_wpr|]. intros ok t [[-> _]| ->]; (split; [intros steps H|intros -> dn l' H]).
  - done.
  - done.
  - by apply left_off_calm.
  - by eapply progress_calm.
Qed.
Lemma progress_worked dn p l a x tr : progress dn l tr -> Forall2 (handed tr) (as_DependsOn (assign a l p)) (as_Prior (assign a l p)) ->
  invalid_result x = false ->
  progress (dn ++ [p]) (add_result (st_ID (ps_Step p)) (tagged x (wm_ID (ps_Member p)) (st_ID (ps_Step p))) l)
    (tr ++ [EfWork (ps_Member p) (assign a l p) (Ok x)]).
Proof.
  intros P F V. destruct P. split; cbn [lo_state lo_failure lo_results add_result]; try done.
  - by apply base_snoc.
  - rewrite worked_work, fmap_app. by rewrite pg_worked0.
  - apply Forall_snoc; [done|]. cbn. eauto.
  - by apply Forall_snoc.
  - constructor.
    + exists (ps_Member p), (assign a l p), x. split_and!; [apply elem_of_app; right; by left|done..].
    + eapply Forall_impl; [eassumption|]. intros y. apply handed_app.
  - intros q [Hq|Hq%list_elem_of_singleton]%elem_of_app; cbn.
    + right. by apply pg_domain0.
    + subst q. by left.
Qed.
Lemma left_off_failed dn p rest l a e tr : progress dn l tr -> Forall2 (handed tr) (as_DependsOn (assign a l p)) (as_Prior (assign a l p)) ->
  left_off (dn ++ p :: rest) (tr ++ [EfWork (ps_Member p) (assign a l p) (Err e)]).
Proof.
  intros P F. split; [apply base_snoc; [apply P|done|done]|]. rewrite worked_work, (pg_worked _ _ _ P), fmap_app.
  exists (step_work <$> rest). by rewrite <- app_assoc.
Qed.

Lemma run_step_wpr explicit total i dn p rest a l tr : progress dn l tr ->
  Forall (fun d => d ∈ (fun q => st_ID (ps_Step q)) <$> dn) (st_DependsOn (ps_Step p)) ->
  wpr (run_step env thread turn explicit total i p a l) (step_outcome (dn ++ p :: rest) dn p) tr.
Proof.
  intros P D. assert (PL := fun l t => progress_left_off dn (p :: rest) l t). unfold run_step.
  apply wpr_bind, wpr_ask. intros cancelled. destruct (given cancelled).
  { apply wpr_ret. split_and!; cbn; [apply P|by eapply progress_prefix| |auto]. intros _. split; [apply P|auto]. }
  apply wpr_bind. eapply wpr_mono; [apply persist_progress|]. intros ok t [HL HP].
  destruct ok; cbn [negb]; [|apply wpr_ret, broken_unknown; [by eapply HL, PL|left; apply P]].
  specialize (HP eq_refl dn _ (progress_locals dn l (mark i "running" l) tr P eq_refl eq_refl eq_refl)). clear HL P tr.
  revert HP. generalize (mark i "running" l). clear l. intros l P.
  set (item := mk_item _ _ _ _). apply announce_wpr; [by eapply PL|apply P|].
  assert (P1 : progress dn (add_item item l) ((t ++ [EfItems (lo_items (add_item item l)) true]) ++ [EfEmit (item_event item)])).
  { eapply progress_calm; [by eapply progress_calm|done..]. }
  clearbody item. revert P1. generalize ((t ++ [EfItems (lo_items (add_item item l)) true]) ++ [EfEmit (item_event item)]).
  generalize (add_item item l). clear l P item t. intros l tr P.
  assert (F : Forall2 (handed tr) (as_DependsOn (assign a l p)) (as_Prior (assign a l p))).
  { apply prior_handed; [apply P|]. eapply Forall_impl; [exact D|]. intros d (q & -> & Hq)%list_elem_of_fmap. by apply (pg_domain _ _ _ P). }
  apply wpr_bind. eapply wpr_mono; [apply work_wpr|]. intros r t [-> V]. destruct r as [x|e].
  - specialize (V x eq_refl). pose proof (progress_worked dn p l a x tr P F V) as P1. set (x' := tagged _ _ _) in *.
    set (item := mk_item _ _ _ _). apply announce_wpr.
    { apply (progress_left_off (dn ++ [p]) rest) in P1. by rewrite <- app_assoc in P1. }
    { apply P. }
    apply wpr_bind. eapply wpr_mono; [apply persist_progress|]. intros ok t [HL HP].
    assert (P2 : progress (dn ++ [p]) (mark i "completed" (add_result (st_ID (ps_Step p)) x' (add_item item l)))
      (((tr ++ [EfWork (ps_Member p) (assign a l p) (Ok x)]) ++ [EfItems (lo_items (add_item item l)) true]) ++ [EfEmit (item_event item)])).
    { eapply progress_calm; [by eapply progress_calm|done..]. }
    destruct ok; cbn [negb]; apply wpr_ret; [by apply HP|]. apply broken_unknown; [|left; apply P].
    apply HL. apply (progress_left_off _ rest) in P2. by rewrite <- app_assoc in P2.
  - apply wpr_bind, wpr_ask. intros c. apply wpr_ret. pose proof (left_off_failed dn p rest l a e tr P F) as [B W].
    split_and!; cbn; [done|done| |by destruct (given c); auto]. intros U.
    split; [apply Forall_snoc; [apply P|exact U]|by destruct (given c); auto].
Qed.

Definition steps_outcome (steps : list plannedStep) (x : flow * locals) (tr : list effect) : Prop :=
  match x.1 with
  | Next => progress steps x.2 tr
  | Break => broken steps x.2 tr
  | Return => left_off steps tr
  end.
Lemma run_steps_wpr explicit total a rest : forall i dn l tr, progress dn l tr -> dependencies_first (ps_Step <$> dn ++ rest) ->
  wpr (run_steps env thread turn explicit total i rest a l) (steps_outcome (dn ++ rest)) tr.
Proof.
  induction rest as [|p rest IH]; intros i dn l tr P D; cbn [run_steps].
  - apply wpr_ret. by rewrite app_nil_r.
  - apply wpr_bind. eapply wpr_mono.
    + apply (run_step_wpr explicit total i dn p rest a l tr P). specialize (D (ps_Step <$> dn) (ps_Step p) (ps_Step <$> rest)).
      rewrite fmap_app in D. specialize (D eq_refl). unfold ids in D. by rewrite <- list_fmap_compose in D.
    + intros [[] l'] t H; cbn in H; try (apply wpr_ret; exact H).
      rewrite (cons_middle p), app_assoc. apply IH; [exact H|]. by rewrite <- app_assoc.
Qed.

(** ** Planning *)

(** The plan of a run: the one of the message, and the planner is not asked; or
    the one that the only answer of the planner, asked about this message, gives. *)
Definition sourced (a : Assignment) (asks : list (Config * string * result error string)) (plan plan' : executionPlan) : Prop :=
  if ep_Automatic plan then
    exists dir text, asks = [(dir, planner_prompt dir a, Ok text)] /\ validateInferredPlan dir text = Ok plan' /\ ep_Steps plan' <> []
  else asks = [] /\ plan' = plan.
(** The plan that is run: without steps when the planning failed. *)
Definition origin (a : Assignment) (asks : list (Config * string * result error string)) (plan plan' : executionPlan) : Prop :=
  sourced a asks plan plan' \/ ep_Automatic plan = true /\ ep_Steps plan' = [].
Lemma origin_ordered a asks plan plan' : dependencies_first (ps_Step <$> ep_Steps plan) -> NoDup (ids (ps_Step <$> ep_Steps plan)) ->
  origin a asks plan plan' -> dependencies_first (ps_Step <$> ep_Steps plan') /\ NoDup (ids (ps_Step <$> ep_Steps plan')).
Proof.
  intros D N. unfold origin, sourced. destruct (ep_Automatic plan).
  - intros [(dir & text & _ & V & _)|[_ ->]]; [by apply (inferred_ordered dir text)|]. split; [by intros []|constructor].
  - by intros [[_ ->]|[? _]].
Qed.
Definition ended_state (st : RequestState) : Prop := st = RequestCompleted \/ st = RequestFailed \/ st = RequestInterrupted.
(** After the steps: what the end of the turn is decided from; [G] is what a
    complete turn shows besides its steps. *)
Record ended (G : Prop) (steps : list plannedStep) (l : locals) (tr : list effect) : Prop := {
  en_left : left_off steps tr;
  en_state : ended_state (lo_state l);
  en_certain : is_unknown (lo_failure l) = false -> Forall certain tr;
  en_complete : is_unknown (lo_failure l) = false -> lo_state l = RequestCompleted ->
    G /\ worked tr = step_work <$> steps /\ Forall delivered tr }.
Lemma progress_ended (G : Prop) steps l tr : G -> progress steps l tr -> ended G steps l tr.
Proof.
  intros HG P. split; [|left; apply P|intros _; apply P|intros _ _; split; [done|split; apply P]].
  pose proof (progress_left_off steps [] l tr P) as L. by rewrite app_nil_r in L.
Qed.
Lemma broken_ended G steps l tr : broken steps l tr -> ended G steps l tr.
Proof. intros (B & W & U & S). split; [by split|done|by intros [H _]%U|]. intros [_ [E|E]]%U E'; congruence. Qed.
Lemma ended_calm G steps l l' tr e : ended G steps l tr -> idle e -> certain e -> lo_state l' = lo_state l -> lo_failure l' = lo_failure l ->
  ended G steps l' (tr ++ [e]).
Proof.
  intros E I C S F. destruct E as [L St Ce Co]. pose proof (calm_snoc tr e I) as [_ W _ D].
  split; rewrite ?S, ?F; [by apply left_off_calm|done| |].
  - intros U. apply Forall_snoc; auto.
  - intros U X. destruct (Co U X) as (? & ? & ?). rewrite W. auto.
Qed.
Lemma ended_unknown G G' steps l tr e : ended G steps l tr -> idle e -> ended G' steps (fail_unknown l) (tr ++ [e]).
Proof. intros E I. split; [apply left_off_calm; [apply E|done]|apply E|done|done]. Qed.
Lemma ended_locals G steps l l' tr : ended G steps l tr -> lo_state l' = lo_state l -> lo_failure l' = lo_failure l -> ended G steps l' tr.
Proof. intros [] S F. by split; rewrite ?S, ?F. Qed.
Lemma ended_goal (G G' : Prop) steps l tr : (G -> G') -> ended G steps l tr -> ended G' steps l tr.
Proof. intros H []. split; [done..|]. intros U S. destruct (en_complete0 U S) as (? & ? & ?). auto. Qed.

(** The plan is ready to run, or there is nothing to run. *)
Definition planned_outcome (a : Assignment) (plan : executionPlan) (x : executionPlan * locals) (tr : list effect) : Prop :=
  progress [] x.2 tr /\ sourced a (planner_asks tr) plan x.1 \/
  ep_Automatic plan = true /\ ep_Steps x.1 = [] /\ ended False [] x.2 tr.
Definition fresh_locals : locals :=
  {| lo_state := RequestCompleted; lo_failure := None; lo_items := []; lo_receipts := []; lo_results := [] |}.
Lemma start_progress : progress [] fresh_locals [].
Proof. split; try done; [apply base_nil|]. intros p Hp. by apply not_elem_of_nil in Hp. Qed.
(** The planner is asked at most once; its answer gives the plan or the failure. *)
Lemma inferred_wpr plan a l tr : ep_Automatic plan = true -> progress [] l tr -> planner_asks tr = [] ->
  wpr (inferPlan env a) (fun r t => left_off [] t /\
    match r with
    | Ok p => progress [] l t /\ sourced a (planner_asks t) plan p
    | Err e => errors_Is e ErrDeliveryUnknown = false -> Forall certain t
    end) tr.
Proof.
  intros A P N. eapply wpr_mono; [apply inferPlan_wpr|]. intros r t [[-> ->]|(dir & answer & -> & ->)].
  - split; [by apply (progress_left_off [] [] l)|intros _; apply P].
  - split; [by apply left_off_calm; [apply (progress_left_off [] [] l)|]|]. destruct answer as [text|e]; cbn [taken_from].
    + assert (P' : progress [] l (tr ++ [EfAsk dir (planner_prompt dir a) (Ok text)])) by by eapply progress_calm.
      destruct (validateInferredPlan dir text) as [p|e] eqn:V; [|intros _; apply P']. split; [done|]. unfold sourced.
      rewrite A, asked_snoc, N. exists dir, text. split_and!; [done|done|]. by eapply inferred_steps.
    + intros U. apply Forall_snoc; [apply P|exact U].
Qed.
Lemma plan_phase_wpr plan a : wpr (plan_phase env thread turn plan a fresh_locals) (planned_outcome a plan) [].
Proof.
  unfold plan_phase, planned_outcome. destruct (ep_Automatic plan) eqn:A; cbn [negb].
  2: { apply wpr_ret. left. split; [apply start_progress|]. unfold sourced. by rewrite A. }
  set (item := mk_item _ _ "-planning" _). set (l1 := add_item item fresh_locals). apply wpr_bind.
  eapply wpr_mono; [apply save_items_wpr|]. intros ok ? ->. cbn [app]. apply wpr_bind.
  eapply (wpr_mono _ (fun r t => left_off [] t /\
    match r with
    | Ok p => progress [] l1 t /\ sourced a (planner_asks t) plan p
    | Err e => errors_Is e ErrDeliveryUnknown = false -> Forall certain t
    end)).
  { destruct ok.
    - assert (P1 : progress [] l1 [EfItems (lo_items l1) true]).
      { apply (progress_calm [] fresh_locals l1 []); try done. apply start_progress. }
      apply wpr_bind. eapply wpr_mono; [apply emit_wpr|]. intros took ? ->.
      apply inferred_wpr; [done| |by destruct took]. destruct took; [by eapply progress_calm|done].
    - apply wpr_ret. split; [|done]. apply (left_off_calm [] []); [|done]. split; [apply base_nil|done]. }
  intros r t [L R]. apply wpr_bind.
  eapply (wpr_mono _ (fun _ t' => t' = t)); [by destruct (is_ok r); wpr_steps|]. intros cancelled ? ->.
  set (l2 := match r with Ok _ => l1 | Err e => _ end). set (plan' := match r with Ok p => p | Err _ => no_plan end).
  set (item' := mk_item _ _ "-plan" _).
  assert (E : progress [] l2 t /\ sourced a (planner_asks t) plan plan' \/ ep_Steps plan' = [] /\ ended False [] l2 t).
  { destruct r as [p|e]; [left; exact R|right; split; [done|]]. unfold l2. split; cbn [lo_state lo_failure with_state].
    - done.
    - destruct (given cancelled); [by right; right|by right; left].
    - exact R.
    - intros _. destruct (given cancelled); done. }
  clearbody l2 plan' item'. clear R L l1 item. apply wpr_bind. eapply wpr_mono; [apply save_items_wpr|]. intros ok' ? ->.
  destruct ok'.
  - apply wpr_bind. eapply wpr_mono; [apply emit_wpr|]. intros took ? ->. apply wpr_ret. cbn [fst snd].
    destruct E as [[E O]|[S E]]; [left; split|right; split_and!; [done|done|]].
    + destruct took; eapply progress_calm; try done; by eapply progress_calm.
    + destruct took; rewrite !asked_snoc, !app_nil_r; exact O.
    + destruct took; eapply ended_calm; try done; by eapply ended_calm.
  - apply wpr_ret. right. cbn [fst snd ep_Steps]. split_and!; [done|done|].
    destruct E as [[E O]|[_ E]].
    + apply (progress_ended _ _ _ _ O) in E. eapply (ended_locals _ _ (fail_unknown l2)); [by eapply ended_unknown|done..].
    + eapply (ended_locals _ _ (fail_unknown l2)); [by eapply ended_unknown|done..].
Qed.

(** ** The end of the turn *)

Lemma report_wpr G steps plan l tr : ended G steps l tr -> wpr (report env thread turn plan l) (ended G steps) tr.
Proof.
  intros E. unfold report. destruct (ep_Explicit plan), (ep_Steps plan) as [|first rest]; try by apply wpr_ret.
  set (l1 := set_receipts _ l). assert (E1 : ended G steps l1 tr) by (by apply (ended_locals G steps l)). clearbody l1. clear E l.
  apply wpr_bind. eapply wpr_mono; [apply persist_wpr|]. intros ok t Ht.
  set (l2 := if ok then l1 else fail_unknown l1).
  assert (E2 : ended G steps l2 t).
  { destruct Ht as [[-> ->]| ->]; [done|]. destruct ok; [by eapply ended_calm|by eapply ended_unknown]. }
  clearbody l2. clear Ht E1 l1 tr. set (item := mk_item _ _ _ _). apply wpr_bind. eapply wpr_mono; [apply save_items_wpr|].
  intros ok' ? ->. destruct ok'.
  - apply wpr_bind. eapply wpr_mono; [apply emit_wpr|]. intros took ? ->. apply wpr_ret.
    destruct took; [eapply ended_calm; try done|]; by eapply ended_calm.
  - apply wpr_ret. eapply (ended_locals _ _ (fail_unknown l2)); [by eapply ended_unknown|done..].
Qed.

(** The planner is asked in the planning only. *)
Definition mute {A} (m : Run A) : Prop := forall s, planner_asks (effects (m s).1) = planner_asks (effects s).
Lemma mute_ret {A} (x : A) : mute (mret x).
Proof. done. Qed.
Lemma mute_ask {A} (f : nat -> A) : mute (ask f).
Proof. done. Qed.
Lemma mute_note e : planner_asks [e] = [] -> mute (note e).
Proof. intros E s. cbn. by rewrite asked_snoc, E, app_nil_r. Qed.
Lemma mute_bind {A B} (m : Run A) (k : A -> Run B) : mute m -> (forall x, mute (k x)) -> mute (m ≫= k).
Proof. intros H K s. specialize (H s). unfold mbind, Proc_bind. destruct (m s) as [s' x]. by rewrite (K x s'). Qed.
Ltac mutes := repeat first [apply mute_ret|apply mute_ask|by apply mute_note|apply mute_bind; [|intros ?]|
  match goal with |- mute (match ?x with _ => _ end) => destruct x end].
Lemma mute_step explicit total i p a l : mute (run_step env thread turn explicit total i p a l).
Proof. unfold run_step, persistPlan, save_items, emit, work. cbv zeta. mutes. Qed.
Lemma mute_steps explicit total a rest : forall i l, mute (run_steps env thread turn explicit total i rest a l).
Proof.
  induction rest as [|p rest IH]; intros i l; cbn [run_steps]; [apply mute_ret|].
  apply mute_bind; [apply mute_step|]. intros [[] l']; [apply IH|apply mute_ret..].
Qed.
Lemma mute_report plan l : mute (report env thread turn plan l).
Proof. unfold report, persistPlan, save_items, emit. cbv zeta. mutes. Qed.
Lemma mute_finish l : mute (finish env thread turn l).
Proof. unfold finish, emit. cbv zeta. mutes. Qed.

(** A runtime that is closing stays so. *)
Definition stays_closed : Prop := forall m n, (m <= n)%nat -> env_closed env m = true -> env_closed env n = true.
Definition emitted (tr : list effect) (kind : string) : Prop := exists ev, EfEmit ev ∈ tr /\ ae_Kind ev = kind.
(** How the trace of a run ends. *)
Record closing (G : Prop) (steps : list plannedStep) (tr : list effect) : Prop := {
  cl_fed : each fed tr;
  cl_worked : worked tr `prefix_of` (step_work <$> steps);
  cl_last : forall pre e post, tr = pre ++ e :: post -> is_terminal e = true -> post = [];
  cl_complete : emitted tr "turn-completed" ->
    G /\ worked tr = step_work <$> steps /\ Forall delivered tr /\ EfState RequestCompleted true ∈ tr;
  cl_uncertain : ~ Forall certain tr -> forall kind, kind ∈ terminal_kinds -> emitted tr kind -> kind = "protocol-error";
  cl_frozen : emitted tr "protocol-error" -> forall st, EfState st true ∉ tr }.
Lemma quiet_not_emitted tr kind : Forall (fun e => quiet e = true) tr -> kind ∈ terminal_kinds -> ~ emitted tr kind.
Proof.
  intros F K (ev & Hev & E). rewrite Forall_forall in F. specialize (F _ Hev). cbn [quiet is_terminal] in F.
  rewrite E in F. by rewrite (proj2 (in_list_spec _ _) K) in F.
Qed.
Lemma quiet_no_state tr st ok : Forall (fun e => quiet e = true) tr -> EfState st ok ∉ tr.
Proof. intros F H. rewrite Forall_forall in F. by specialize (F _ H). Qed.
Lemma terminal_in kind : existsb (String.eqb kind) terminal_kinds = true -> kind ∈ terminal_kinds.
Proof. apply in_list_spec. Qed.
Lemma quiet_closing G steps tr : left_off steps tr -> closing G steps tr.
Proof.
  intros [[F Q] W]. split; [done|done| |..].
  - intros pre e post -> T. apply Forall_app in Q as [_ Q]. apply Forall_cons in Q as [Qe _]. destruct e; try done.
    cbn [quiet] in Qe. by rewrite T in Qe.
  - intros H. exfalso. revert H. apply quiet_not_emitted; [done|by apply terminal_in].
  - intros _ kind K H. exfalso. by eapply quiet_not_emitted.
  - intros H. exfalso. revert H. apply quiet_not_emitted; [done|by apply terminal_in].
Qed.
(** The last two effects of a run: the state saved, the event emitted. *)
Definition tail_of (st : option (RequestState * bool)) (ev : option AgentEvent) : list effect :=
  match st with Some (s, ok) => [EfState s ok] | None => [] end ++ match ev with Some e => [EfEmit e] | None => [] end.
Lemma emitted_tail tr st ev kind : Forall (fun e => quiet e = true) tr -> kind ∈ terminal_kinds ->
  emitted (tr ++ tail_of st ev) kind -> exists e, ev = Some e /\ ae_Kind e = kind.
Proof.
  intros Q K (e & He & E). apply elem_of_app in He as [He|He]; [exfalso; eapply quiet_not_emitted; [done|done|by exists e]|].
  destruct st as [[s ok]|], ev as [x|]; cbn in He; repeat (apply elem_of_cons in He as [He|He]); try (by apply not_elem_of_nil in He); try done;
    injection He as ->; eauto.
Qed.
Lemma worked_tail tr st ev : worked (tr ++ tail_of st ev) = worked tr.
Proof. unfold worked. rewrite omap_app. destruct st as [[? ?]|], ev; cbn; by rewrite app_nil_r. Qed.
Lemma each_tail tr st ev : each fed tr -> each fed (tr ++ tail_of st ev).
Proof.
  intros F. destruct st as [[s ok]|], ev as [e|]; cbn; rewrite ?app_nil_r; [|by apply each_snoc|by apply each_snoc|done].
  change [EfState s ok; EfEmit e] with ([EfState s ok] ++ [EfEmit e]). rewrite app_assoc. by repeat apply each_snoc.
Qed.
Lemma state_in_tail tr st ev s ok : Forall (fun e => quiet e = true) tr -> EfState s ok ∈ tr ++ tail_of st ev -> st = Some (s, ok).
Proof.
  intros Q [H|H]%elem_of_app; [by apply quiet_no_state in H|].
  destruct st as [[s' ok']|], ev as [x|]; cbn in H; repeat (apply elem_of_cons in H as [H|H]); try (by apply not_elem_of_nil in H); try done;
    by injection H as -> ->.
Qed.
Lemma last_in_tail tr st ev pre e post : Forall (fun e => quiet e = true) tr ->
  tr ++ tail_of st ev = pre ++ e :: post -> is_terminal e = true -> post = [].
Proof.
  intros Q E T. destruct ev as [x|].
  - assert (E' : (tr ++ tail_of st None) ++ [EfEmit x] = pre ++ e :: post).
    { rewrite <- E, <- app_assoc. unfold tail_of. by rewrite app_nil_r. }
    destruct post as [|y post _] using rev_ind; [done|]. exfalso.
    change (e :: post ++ [y]) with ((e :: post) ++ [y]) in E'. rewrite app_assoc in E'. apply app_inj_tail in E' as [E' _].
    assert (H : e ∈ tr ++ tail_of st None) by (rewrite E'; apply elem_of_app; right; by left).
    apply elem_of_app in H as [H|H]; [rewrite Forall_forall in Q; specialize (Q _ H); destruct e; try done; cbn [quiet] in Q; by rewrite T in Q|].
    destruct st as [[s ok]|]; cbn in H; [|by apply not_elem_of_nil in H]. apply list_elem_of_singleton in H as ->. done.
  - exfalso. assert (H : e ∈ tr ++ tail_of st None) by (rewrite E; apply elem_of_app; right; by left).
    apply elem_of_app in H as [H|H]; [rewrite Forall_forall in Q; specialize (Q _ H); destruct e; try done; cbn [quiet] in Q; by rewrite T in Q|].
    destruct st as [[s ok]|]; cbn in H; [|by apply not_elem_of_nil in H]. apply list_elem_of_singleton in H as ->. done.
Qed.

Definition freeze_event : AgentEvent := turn_event "protocol-error" thread turn unknown_delivery.
Definition finished (l : locals) (st : option (RequestState * bool)) (ev : option AgentEvent) : Prop :=
  (is_unknown (lo_failure l) = true -> st = None) /\
  (ev = None \/
   ev = Some freeze_event /\ (st = None \/ exists s, st = Some (s, false)) \/
   ev = Some (turn_event (end_kind (lo_state l)) thread turn (lo_failure l)) /\ is_unknown (lo_failure l) = false /\ st = Some (lo_state l, true)).
Lemma emit_effects e s : exists b : bool, effects (emit env e s).1 = effects s ++ (if b then [EfEmit e] else []).
Proof.
  unfold emit, mbind, Proc_bind, ask. destruct (env_emit env (clock s)); [by exists true|exists false; cbn; by rewrite app_nil_r].
Qed.
Lemma finish_trace l s : stays_closed -> exists st ev, effects (finish env thread turn l s).1 = effects s ++ tail_of st ev /\ finished l st ev.
Proof.
  intros SC. unfold finish. destruct (is_unknown (lo_failure l)) eqn:U.
  - unfold mbind at 1, Proc_bind at 1. cbn [mret Proc_ret]. unfold mbind at 1, Proc_bind at 1. cbn [mret Proc_ret orb negb].
    unfold mbind at 1, Proc_bind at 1, ask. cbv beta iota. destruct (env_closed env (clock s)).
    + exists None, None. split; [cbn; by rewrite app_nil_r|]. split; auto.
    + destruct (emit_effects freeze_event {| clock := S (clock s); effects := effects s |}) as [b E]. cbn [effects] in E.
      exists None, (if b then Some freeze_event else None). split; [|split; [done|destruct b; auto]].
      unfold mbind, Proc_bind. fold freeze_event. revert E. destruct (emit env freeze_event _) as [s' x]. cbn. intros ->. by destruct b.
  - unfold mbind at 1, Proc_bind at 1, ask. cbv beta iota. destruct (env_closed env (clock s)) eqn:C1.
    + unfold mbind at 1, Proc_bind at 1. cbn [mret Proc_ret orb negb]. unfold mbind at 1, Proc_bind at 1, ask. cbn [clock effects].
      rewrite (SC (clock s) (S (clock s))) by (done || lia). exists None, None. split; [cbn; by rewrite app_nil_r|]. split; auto.
    + cbv [ask note mbind Proc_bind mret Proc_ret]. cbn [clock effects orb].
      generalize (env_exec env (S (clock s))). intros ok. set (s2 := {| clock := _; effects := effects s ++ _ |}).
      destruct (env_closed env (S (S (clock s)))).
      * exists (Some (lo_state l, ok)), None. split; [done|]. split; [congruence|auto].
      * destruct ok eqn:Eo; cbn [negb].
        -- destruct (emit_effects (turn_event (end_kind (lo_state l)) thread turn (lo_failure l)) s2) as [b E].
           exists (Some (lo_state l, true)), (if b then Some (turn_event (end_kind (lo_state l)) thread turn (lo_failure l)) else None).
           split; [|split; [congruence|destruct b; auto 10]]. revert E. destruct (emit env _ s2) as [s' x]. cbn. intros ->.
           rewrite <- app_assoc. by destruct b.
        -- destruct (emit_effects freeze_event s2) as [b E].
           exists (Some (lo_state l, false)), (if b then Some freeze_event else None).
           split; [|split; [congruence|destruct b; eauto 10]]. revert E. fold freeze_event. destruct (emit env _ s2) as [s' x]. cbn. intros ->.
           rewrite <- app_assoc. by destruct b.
Qed.
Lemma finish_closing G steps l s : stays_closed -> ended G steps l (effects s) -> closing G steps (effects (finish env thread turn l s).1).
Proof.
  intros SC [[[F Q] W] S C X]. destruct (finish_trace l s SC) as (st & ev & -> & U & H).
  assert (T : forall kind, kind ∈ terminal_kinds -> emitted (effects s ++ tail_of st ev) kind ->
    kind = "protocol-error" /\ ev = Some freeze_event /\ (st = None \/ exists s, st = Some (s, false)) \/
    kind = end_kind (lo_state l) /\ is_unknown (lo_failure l) = false /\ st = Some (lo_state l, true)).
  { intros kind K (e & -> & <-)%emitted_tail; try done. destruct H as [H|[[H1 H2]|[H1 [H2 H3]]]]; [done|left|right]; by injection H1 as ->. }
  assert (N : end_kind (lo_state l) <> "protocol-error") by (destruct S as [-> | [-> | ->]]; done).
  split.
  - by apply each_tail.
  - by rewrite worked_tail.
  - intros pre e post. by apply last_in_tail.
  - intros E. apply T in E as [(? & _)|(K & H2 & ->)]; [done| |by apply terminal_in].
    assert (lo_state l = RequestCompleted) as Es by (destruct S as [E | [E | E]]; rewrite E in K; done).
    destruct (X H2 Es) as (X0 & X1 & X2). rewrite worked_tail, Es. split_and!; [done|done| |].
    + apply Forall_app. split; [done|]. destruct ev; by repeat constructor.
    + apply elem_of_app. right. by left.
  - intros NC kind K E. apply T in E as [(-> & _)|(_ & H2 & ->)]; [done| |done]. exfalso. apply NC, Forall_app. split; [by apply C|].
    destruct ev; by repeat constructor.
  - intros E st' Hs. apply T in E as [(_ & _ & V)|(K & _)]; [|by symmetry in K|by apply terminal_in].
    apply state_in_tail in Hs as ->; [|done]. by destruct V as [V|[? V]].
Qed.

(** ** The whole run *)

Lemma execute_closing plan a : stays_closed ->
  dependencies_first (ps_Step <$> ep_Steps plan) -> NoDup (ids (ps_Step <$> ep_Steps plan)) ->
  let tr := effects (execute env thread turn plan a start_state).1 in
  exists plan', origin a (planner_asks tr) plan plan' /\ closing (sourced a (planner_asks tr) plan plan') (ep_Steps plan') tr.
Proof.
  intros SC D N. pose (Q := fun tr => exists plan', origin a (planner_asks tr) plan plan' /\ closing (sourced a (planner_asks tr) plan plan') (ep_Steps plan') tr).
  change (Q (effects (execute env thread turn plan a start_state).1)). unfold execute, mbind at 1, Proc_bind at 1. fold fresh_locals.
  pose proof (plan_phase_wpr plan a start_state eq_refl) as H. destruct (plan_phase _ _ _ _ _ _ start_state) as [s1 [plan' l1]].
  cbn [fst snd] in H. set (l2 := set_receipts _ l1). set (G := sourced a (planner_asks (effects s1)) plan plan').
  unfold planned_outcome in H. cbn [fst snd] in H.
  assert (O : origin a (planner_asks (effects s1)) plan plan') by (destruct H as [[_ H]|(A & E & _)]; [by left|by right]).
  destruct (origin_ordered _ _ _ _ D N O) as [D' _].
  assert (R : wpr (run_steps env thread turn (ep_Explicit plan') (length (ep_Steps plan')) 0 (ep_Steps plan') a l2)
    (fun x t => match x.1 with Return => left_off (ep_Steps plan') t | _ => ended G (ep_Steps plan') x.2 t end) (effects s1)).
  { destruct H as [[P HG]|(_ & E & P)].
    - eapply wpr_mono; [apply (run_steps_wpr _ _ a (ep_Steps plan') 0 []); [|exact D']|].
      + by apply (progress_locals [] l1).
      + intros [[] l3] t H; cbn in *; [by apply progress_ended|by apply broken_ended|done].
    - rewrite E. apply wpr_ret. apply (ended_locals _ [] l1); [by apply (ended_goal False)|done..]. }
  unfold mbind at 1, Proc_bind at 1. specialize (R s1 eq_refl).
  pose proof (mute_steps (ep_Explicit plan') (length (ep_Steps plan')) a (ep_Steps plan') 0 l2 s1) as M.
  destruct (run_steps _ _ _ _ _ _ _ _ _ s1) as [s2 [fl l3]]. cbn [fst snd] in R, M.
  destruct fl; cbn [mret Proc_ret]; [| |change (Q (effects s2)); exists plan'; rewrite M; split; [done|by apply quiet_closing]].
  all: unfold mbind at 1, Proc_bind at 1; pose proof (report_wpr G (ep_Steps plan') plan' l3 (effects s2) R s2 eq_refl) as RP;
    pose proof (mute_report plan' l3 s2) as M2; destruct (report _ _ _ _ _ s2) as [s3 l4]; cbn [fst snd] in RP, M2;
    exists plan'; rewrite (mute_finish l4 s3), M2, M; split; [done|by apply finish_closing].
Qed.
End run.

(** ** Properties *)

Lemma step_work_ids l : (step_work <$> l).*1.*1 = ids (ps_Step <$> l).
Proof. induction l as [|p l IH]; [done|]. cbn in *. by rewrite IH. Qed.

(** A step starts after the steps it depends on and receives exactly their
    results.  In the run of any plan that planning accepts, whatever the workers,
    the database and cancellation do, a worker is called only when each dependency
    of its step was worked to a valid result before, and it is handed these results,
    each marked with its step and author, in the order of the dependencies; the
    steps worked are the first ones of the plan, in order and none twice. *)
Theorem steps_follow_dependencies env thread turn c text plan a :
  Plan c text = Ok plan -> stays_closed env ->
  let tr := effects (execute env thread turn plan a start_state).1 in
  (forall pre m a' r post, tr = pre ++ EfWork m a' r :: post -> Forall2 (handed pre) (as_DependsOn a') (as_Prior a')) /\
  exists plan', origin a (planner_asks tr) plan plan' /\ worked tr `prefix_of` (step_work <$> ep_Steps plan') /\ NoDup (worked tr).*1.*1.
Proof.
  intros P SC tr. destruct (Plan_ordered c text plan P) as [D N]. destruct (execute_closing env thread turn plan a SC D N) as (plan' & O & C).
  split; [intros pre m a' r post E; exact (cl_fed _ _ _ C pre _ post E)|]. exists plan'. split_and!; [done|apply C|].
  destruct (cl_worked _ _ _ C) as [k E]. fold tr in E. destruct (origin_ordered _ _ _ _ D N O) as [_ N'].
  apply (NoDup_app (worked tr).*1.*1 k.*1.*1). rewrite <- !fmap_app, <- E.
  by rewrite step_work_ids.
Qed.

(** C32: The end of a turn tells the truth.  A turn whose message leaves the plan to
    the planner runs nothing but the plan that the planner's only answer, asked
    about this message, gives when it is validated; any other turn runs the plan of
    its message and asks no planner.  The end of a turn is reported at most once and
    nothing follows it; it is reported complete only when there was such a plan,
    that is, not after a planning that failed, every step of it was worked, in its
    order, to a valid result, and the state was saved; and when anything could not
    be saved or the delivery to the planner or a worker is uncertain, the only end
    ever reported is the protocol error that freezes the room, and the saved run is
    not ended. *)
Theorem turn_end_truthful env thread turn c text plan a :
  Plan c text = Ok plan -> stays_closed env ->
  let tr := effects (execute env thread turn plan a start_state).1 in
  (forall pre e post, tr = pre ++ e :: post -> is_terminal e = true -> post = []) /\
  (exists plan', origin a (planner_asks tr) plan plan' /\ worked tr `prefix_of` (step_work <$> ep_Steps plan') /\
     (emitted tr "turn-completed" ->
        sourced a (planner_asks tr) plan plan' /\ worked tr = step_work <$> ep_Steps plan' /\ Forall delivered tr /\
        EfState RequestCompleted true ∈ tr)) /\
  (~ Forall certain tr -> forall kind, kind ∈ terminal_kinds -> emitted tr kind -> kind = "protocol-error") /\
  (emitted tr "protocol-error" -> forall st, EfState st true ∉ tr).
Proof.
  intros P SC tr. destruct (Plan_ordered c text plan P) as [D N]. destruct (execute_closing env thread turn plan a SC D N) as (plan' & O & C).
  split_and!; [apply C| |apply C|apply C]. exists plan'. split_and!; [exact O|apply C|exact (cl_complete _ _ _ C)].
Qed.

(** ** Instances *)

(** Everything succeeds, except what is said. *)
Definition demo_env (work : nat -> Workgroup.Member -> Assignment -> result error Result) : environment :=
  {| env_exec := fun _ => true; env_emit := fun _ => true; env_cancelled := fun _ => None; env_closed := fun _ => false;
     env_step := fun _ => None; env_planning := fun _ => None; env_directory := fun _ => demo_config;
     env_planner := fun _ => None; env_work := work |}.
Definition demo_answer (text : string) : Result :=
  {| re_WorkspacePath := ""; re_Changes := []; re_StepID := ""; re_AgentID := ""; re_Text := text |}.
Definition demo_assignment : Assignment :=
  {| as_StepID := ""; as_StepPrompt := ""; as_DependsOn := []; as_Version := 1; as_ID := "m1"; as_AgentID := ""; as_HumanUID := 7;
     as_ProjectRoot := "/p"; as_TaskID := 0; as_HumanPrompt := demo_plan; as_Prompt := demo_plan; as_Instructions := ""; as_Prior := [] |}.
Definition working : environment := demo_env (fun _ m _ => Ok (demo_answer ("done by " +:+ wm_ID m))).
Definition losing : environment := demo_env (fun _ _ _ => Err (Sentinel ErrDeliveryUnknown)).
Definition the_plan : executionPlan := match Plan demo_config demo_plan with Ok p => p | Err _ => no_plan end.
Definition kinds (tr : list effect) : list string := omap (fun e => match e with EfEmit ev => Some (ae_Kind ev) | _ => None end) tr.
Definition demo_run (env : environment) : list effect := effects (execute env "t" "workgroup-m1" the_plan demo_assignment start_state).1.
Example run_completes :
  kinds (demo_run working) = ["item-completed"; "item-completed"; "item-completed"; "item-completed"; "item-completed"; "turn-completed"]
  /\ (worked (demo_run working)).*1.*1 = ["develop"; "review"].
Proof. vm_compute. done. Qed.
Lemma demo_steady work : stays_closed (demo_env work).
Proof. by intros m n _. Qed.
Lemma steps_follow_dependencies_witness :
  Plan demo_config demo_plan = Ok the_plan /\
  exists plan', origin demo_assignment (planner_asks (demo_run working)) the_plan plan' /\ worked (demo_run working) `prefix_of` (step_work <$> ep_Steps plan') /\ NoDup (worked (demo_run working)).*1.*1.
Proof.
  assert (E : Plan demo_config demo_plan = Ok the_plan) by (vm_compute; reflexivity). split; [exact E|].
  apply (proj2 (steps_follow_dependencies working "t" "workgroup-m1" demo_config demo_plan the_plan demo_assignment E (demo_steady _))).
Defined.
(** The same plan as the answer of a planner. *)
Definition planner_answer : string := bq
  "{`steps`:[{`id`:`review`,`agent`:`claude.a`,`prompt`:`review`,`dependsOn`:[`develop`]},{`id`:`develop`,`agent`:`codex`,`prompt`:`write`}]}".
Definition planning (answer : result error string) : environment :=
  {| env_exec := fun _ => true; env_emit := fun _ => true; env_cancelled := fun _ => None; env_closed := fun _ => false;
     env_step := fun _ => None; env_planning := fun _ => None; env_directory := fun _ => demo_config;
     env_planner := fun _ => Some (fun _ => answer); env_work := fun _ m _ => Ok (demo_answer ("done by " +:+ wm_ID m)) |}.
Local Notation planned_run answer := (effects (execute (planning answer) "t" "workgroup-m1" automatic demo_assignment start_state).1) (only parsing).
Lemma planning_steady answer : stays_closed (planning answer).
Proof. by intros m n _. Qed.
Lemma emitted_bool tr kind :
  existsb (fun e => match e with EfEmit ev => String.eqb (ae_Kind ev) kind | _ => false end) tr = true -> emitted tr kind.
Proof.
  intros (e & He & K)%existsb_exists. destruct e; try done. apply list_elem_of_In in He. apply String.eqb_eq in K. by eexists.
Qed.
Lemma planned_completes : emitted (planned_run (Ok planner_answer)) "turn-completed".
Proof. apply emitted_bool. vm_compute. reflexivity. Qed.
Lemma turn_end_truthful_witness :
  (kinds (demo_run losing) = ["item-completed"; "item-completed"; "protocol-error"] /\
   (emitted (demo_run losing) "protocol-error" -> forall st, EfState st true ∉ demo_run losing)) /\
  Plan demo_config "/team do it" = Ok automatic /\
  (kinds (planned_run (Ok planner_answer)) =
     ["item-completed"; "item-completed"; "item-completed"; "item-completed"; "item-completed"; "item-completed"; "item-completed"; "turn-completed"] /\
   exists plan', sourced demo_assignment (planner_asks (planned_run (Ok planner_answer))) automatic plan' /\
     worked (planned_run (Ok planner_answer)) = step_work <$> ep_Steps plan') /\
  kinds (planned_run (Ok (bq "{`clarification`:`which one?`}"))) = ["item-completed"; "item-completed"; "turn-failed"].
Proof.
  assert (E : Plan demo_config demo_plan = Ok the_plan) by (vm_compute; reflexivity).
  assert (A : Plan demo_config "/team do it" = Ok automatic) by (vm_compute; reflexivity).
  split_and!; [vm_compute; reflexivity| |exact A|vm_compute; reflexivity| |vm_compute; reflexivity].
  - apply (turn_end_truthful losing "t" "workgroup-m1" demo_config demo_plan the_plan demo_assignment E (demo_steady _)).
  - destruct (turn_end_truthful (planning (Ok planner_answer)) "t" "workgroup-m1" demo_config "/team do it" automatic demo_assignment A
      (planning_steady _)) as (_ & (plan' & _ & _ & H) & _).
    exists plan'. destruct (H planned_completes) as (H1 & H2 & _). exact (conj H1 H2).
Defined.
