(* ===== verification/TerminalText.v ===== *)
(** * What a terminal client reads and writes ([internal/client/commands.go], [submission.go], [cursor.go], [render.go], [answers.go], [ssh.go])

    Commands typed by a user, messages submitted by the browser window, the cursor
    file, and the text that is safe to print. *)
From S2P Require Import Prelude GoStrings Sha256 Json RoomTypes StrictJson GoDecode Wire Messages JsonFacts StrictFacts WireSafety.

(** ** Errors *)

Inductive terr :=
| TProbe                       (* [errProbe] *)
| TInputEOF                    (* [errInputEOF] *)
| TFatal (e : terr)            (* [errFatal], wrapped around the text of [e] *)
| TProto (e : perr)
| TText (s : string).
Definition lift_proto {A} (r : result perr A) : result terr A := match r with Ok a => Ok a | Err e => Err (TProto e) end.
Definition ErrJSON : terr := TProto PJSON.

(** ** Printing *)

(** [%04x] *)
Fixpoint hex_digits (fuel : nat) (z : Z) (acc : string) : string :=
  match fuel with
  | O => acc
  | S f => let acc := String (hex_digit (z mod 16)) acc in if z <? 16 then acc else hex_digits f (z / 16) acc
  end.
Definition hex_min4 (z : Z) : string := let d := hex_digits 8 z "" in zeros (4 - String.length d) +:+ d.
Definition unsafe_rune (r : Z) : bool := (IsControl r || IsFormat r) && negb (r =? 10) && negb (r =? 9).
Definition safe_rune (r : Z) : string := if unsafe_rune r then "\u{" +:+ hex_min4 r +:+ "}" else encode_rune r.
Definition SafeText (s : string) : string := concat_strings (safe_rune <$> runes s).

Definition ValidateTarget (target : string) : result terr unit :=
  if blank target || HasPrefix target "-" || existsb (fun r => IsControl r || IsFormat r) (runes target)
  then Err (TText "invalid SSH target") else Ok tt.

(** ** Commands *)

Inductive CommandKind :=
| CommandPrompt | CommandSteer | CommandNote | CommandQueue | CommandStatus | CommandWho | CommandCancel | CommandDiff
| CommandRecoverRetry | CommandRecoverSkip | CommandRecoverContinue | CommandQuit.
#[export] Instance CommandKind_eq_dec : EqDecision CommandKind.
Proof. solve_decision. Defined.
Definition CommandKind_string (k : CommandKind) : string :=
  match k with
  | CommandPrompt => "submit" | CommandSteer => "steer" | CommandNote => "note" | CommandQueue => "queue"
  | CommandStatus => "status" | CommandWho => "who" | CommandCancel => "cancel" | CommandDiff => "diff"
  | CommandRecoverRetry => "retry" | CommandRecoverSkip => "skip" | CommandRecoverContinue => "continue" | CommandQuit => "quit"
  end.
Record Command := { cm_Kind : CommandKind; cm_Text : string; cm_TargetMessageID : string }.
#[export] Instance Command_eq_dec : EqDecision Command.
Proof. solve_decision. Defined.
Definition plain_command (k : CommandKind) : Command := {| cm_Kind := k; cm_Text := ""; cm_TargetMessageID := "" |}.
Definition text_command (k : CommandKind) (text : string) : Command := {| cm_Kind := k; cm_Text := text; cm_TargetMessageID := "" |}.
Definition recover_command (k : CommandKind) (id text : string) : Command := {| cm_Kind := k; cm_Text := text; cm_TargetMessageID := id |}.
Definition kind_named (l : list CommandKind) (name : string) : option CommandKind :=
  List.find (fun k => String.eqb (CommandKind_string k) name) l.
Definition text_commands : list CommandKind := [CommandSteer; CommandNote].
Definition plain_commands : list CommandKind := [CommandQueue; CommandStatus; CommandWho; CommandCancel; CommandDiff; CommandQuit].
(** The arguments of [/recover]; [text] is the line after the command. *)
Definition parse_recover (fields : list string) (text : string) : option Command :=
  match fields with
  | _ :: action :: id :: more =>
      if negb (ValidMessageID id) then None
      else match kind_named [CommandRecoverRetry; CommandRecoverSkip] action, more with
           | Some k, [] => Some (recover_command k id "")
           | _, _ :: _ =>
               if String.eqb action "continue"
               then Some (recover_command CommandRecoverContinue id (TrimSpace (TrimPrefix (TrimSpace (TrimPrefix text action)) id)))
               else None
           | _, _ => None
           end
  | _ => None
  end.
Definition bad_command : terr := TText "invalid command or arguments".
Definition ParseCommand (line : string) : result terr Command :=
  let line := TrimSpace line in
  if String.eqb line "" then Err bad_command
  else if negb (HasPrefix line "/") then Ok (text_command CommandPrompt line)
  else
    let fields := Fields line in
    let head := default "" (fields !! 0%nat) in
    let kind := TrimPrefix head "/" in
    let text := TrimSpace (TrimPrefix line head) in
    match kind_named text_commands kind, kind_named plain_commands kind with
    | Some k, _ => if String.eqb text "" then Err bad_command else Ok (text_command k text)
    | None, Some k => if Nat.eqb (length fields) 1 then Ok (plain_command k) else Err bad_command
    | None, None =>
        if String.eqb kind "recover"
        then match parse_recover fields text with Some c => Ok c | None => Err bad_command end
        else Err bad_command
    end.
Definition is_mutation (k : CommandKind) : bool :=
  existsb (fun x => bool_decide (x = k))
    [CommandPrompt; CommandNote; CommandSteer; CommandCancel; CommandRecoverRetry; CommandRecoverSkip; CommandRecoverContinue].

(** ** Bodies of requests *)

Definition submit_request_json (q : SubmitRequest) : json :=
  JObj (optional_int "taskId" (if sq_TaskID q =? 0 then None else Some (sq_TaskID q))
        ++ [("clientMessageId", JStr (sq_ClientMessageID q)); ("text", JStr (sq_Text q))]).
Definition steer_request_json (i : SteerInput) : json :=
  JObj [("clientMessageId", JStr (st_ClientMessageID i)); ("expectedTurnId", JStr (st_ExpectedTurnID i)); ("text", JStr (st_Text i))].
Definition cancel_request_json (i : CancelInput) : json :=
  JObj [("clientMessageId", JStr (ca_ClientMessageID i)); ("expectedTurnId", JStr (ca_ExpectedTurnID i))].
Definition recover_request_json (id target action replacement instruction : string) : json :=
  JObj ([("clientMessageId", JStr id); ("targetMessageId", JStr target); ("action", JStr action)]
        ++ optional_string "replacementMessageId" replacement ++ optional_string "instruction" instruction).
Definition hello_json (h : Hello) : json :=
  JObj [("minVersion", JInt (he_MinVersion h)); ("maxVersion", JInt (he_MaxVersion h)); ("lastAppliedSeq", JInt (he_LastAppliedSeq h))].
Definition empty_json : json := JObj [].
Definition MaximumEncodedMutation : Z := Z.shiftl 64 10.

(** ** Submissions of the browser window *)

(** [sb_Result] names the channel the answer goes to. *)
Record Submission :=
  { sb_TaskID : Z; sb_Method : string; sb_ExpectedTurnID : string; sb_ID : string; sb_Text : string; sb_Result : nat }.
Definition submission_body (s : Submission) (method : string) : result terr json :=
  if String.eqb method "submit" || String.eqb method "task_submit" then
    if negb (Bool.eqb (String.eqb method "task_submit") (0 <? sb_TaskID s)) then Err (TText "invalid task submission")
    else
      let q := {| sq_TaskID := sb_TaskID s; sq_ClientMessageID := sb_ID s; sq_Text := sb_Text s |} in
      let? _ := lift_proto (SubmitRequest_Validate q) in
      Ok (submit_request_json q)
  else if String.eqb method "cancel" then
    let i := {| ca_ClientMessageID := sb_ID s; ca_ExpectedTurnID := sb_ExpectedTurnID s |} in
    let? _ := lift_proto (CancelRequest_Validate i) in
    Ok (cancel_request_json i)
  else Err (TText "unsupported browser operation").
Definition browser_request_id (id : string) : string := hex_EncodeToString (take_bytes 16 (Sha256.Sum256 ("browser-request:" +:+ id))).
Definition submission_envelope (s : Submission) : result terr Envelope :=
  let method := if String.eqb (sb_Method s) "" then "submit" else sb_Method s in
  let? body := submission_body s method in
  let encoded := marshal body in
  if MaximumEncodedMutation <? len encoded then Err (TText "message exceeds 64 KiB")
  else Ok {| en_Version := 1; en_Kind := KindRequest; en_ID := browser_request_id (sb_ID s); en_Method := method;
             en_Requires := []; en_Seq := None; en_Body := encoded |}.
Definition Submission_Validate (s : Submission) : result terr unit := result_map (fun _ => tt) (submission_envelope s).

(** ** Cursors *)

Record Cursor := { cu_Target : string; cu_RoomID : string; cu_LastAppliedSeq : Z }.
#[export] Instance Cursor_eq_dec : EqDecision Cursor.
Proof. solve_decision. Defined.
Definition new_cursor (target : string) : Cursor := {| cu_Target := target; cu_RoomID := ""; cu_LastAppliedSeq := 0 |}.
Definition cursor_json (c : Cursor) : json :=
  JObj [("target", JStr (cu_Target c)); ("roomId", JStr (cu_RoomID c)); ("lastAppliedSeq", JInt (cu_LastAppliedSeq c))].
Definition decode_cursor (text : string) : option Cursor :=
  l ← members_of text;
  target ← string_of "target" l;
  room ← string_of "roomId" l;
  seq ← decode_field (set_uint 64) 0 "lastAppliedSeq" l;
  Some {| cu_Target := target; cu_RoomID := room; cu_LastAppliedSeq := seq |}.

(** The directory of [FileCursors]: the files by name.  A cursor is written to a
    temporary file and renamed; [at_ n] is the error of the call number [n] of the
    file system, and [part] what a failing write wrote. *)
Definition directory : Type := gmap string string.
Definition cursor_path (target : string) : string := hex_EncodeToString (Sha256.Sum256 target) +:+ ".json".
Definition cursor_Load (d : directory) (failed : option string) (target : string) : result terr Cursor :=
  match failed, d !! cursor_path target with
  | Some e, _ => Err (TText e)
  | None, None => Ok (new_cursor target)
  | None, Some text =>
      match decode_cursor text with
      | None => Err ErrJSON
      | Some c =>
          if negb (String.eqb (cu_Target c) target) || String.eqb (cu_RoomID c) "" then Err (TText "cursor identity mismatch") else Ok c
      end
  end.
(** The calls in their order; the deferred calls close and remove the temporary
    file.  The renamed file is gone from its temporary name. *)
Inductive fs_call := FsMkdir | FsCreate | FsChmod | FsWrite | FsSync | FsClose | FsRename | FsOpenDir | FsSyncDir.
Record fs_faults := { ff_at : fs_call -> option string; ff_part : string; ff_temp : string }.
Definition cursor_Save (d : directory) (f : fs_faults) (c : Cursor) : directory * result terr unit :=
  let temp := ".cursor-" +:+ ff_temp f in
  let body := marshal (cursor_json c) in
  let removed d := delete temp d in
  match ff_at f FsMkdir with Some e => (d, Err (TText e)) | None =>
  match ff_at f FsCreate with Some e => (d, Err (TText e)) | None =>
  let d := <[temp := ""]> d in
  match ff_at f FsChmod with Some e => (removed d, Err (TText e)) | None =>
  match ff_at f FsWrite with Some e => (removed (<[temp := ff_part f]> d), Err (TText e)) | None =>
  let d := <[temp := body]> d in
  match ff_at f FsSync with Some e => (removed d, Err (TText e)) | None =>
  match ff_at f FsClose with Some e => (removed d, Err (TText e)) | None =>
  match ff_at f FsRename with Some e => (removed d, Err (TText e)) | None =>
  let d := removed (<[cursor_path (cu_Target c) := body]> d) in
  match ff_at f FsOpenDir with Some e => (d, Err (TText e)) | None =>
  match ff_at f FsSyncDir with Some e => (d, Err (TText e)) | None => (d, Ok tt)
  end end end end end end end end end.

(** [ReplayCursors]: the cursor of one window, in memory. *)
Definition replay_Load (m : Cursor) (target : string) : Cursor :=
  if String.eqb (cu_Target m) "" then {| cu_Target := target; cu_RoomID := cu_RoomID m; cu_LastAppliedSeq := cu_LastAppliedSeq m |} else m.
Definition replay_Save (_ c : Cursor) : Cursor := c.

(** ** Durable events as a client decodes them *)

(** [room.DurableEvent]; payload and time are kept as text. *)
Record RoomEvent := { re_Seq : Z; re_Kind : string; re_ActorUID : Z; re_Payload : string; re_CreatedAt : string }.
Definition decode_event (text : string) : option RoomEvent :=
  l ← members_of text;
  seq ← decode_field (set_int 64) 0 "Seq" l;
  kind ← string_of "Kind" l;
  uid ← decode_field (set_int 64) 0 "ActorUID" l;
  payload ← raw_of "Payload" l;
  time ← decode_field set_time "" "CreatedAt" l;
  Some {| re_Seq := seq; re_Kind := kind; re_ActorUID := uid; re_Payload := payload; re_CreatedAt := time |}.

(** [answerText]: the text of a final answer, the empty text for other events. *)
Definition set_answer (raw : string) (x : string * string * string) : option (string * string * string) :=
  l ← members_of raw;
  ty ← decode_field set_string x.1.1 "type" l;
  phase ← decode_field set_string x.1.2 "phase" l;
  text ← decode_field set_string x.2 "text" l;
  Some (ty, phase, text).
Definition answerText (e : RoomEvent) : result terr string :=
  if negb (String.eqb (re_Kind e) "item/completed") then Ok "" else
  match l ← members_of (re_Payload e); decode_field set_answer ("", "", "") "payload" l with
  | None => Err ErrJSON
  | Some (ty, phase, text) =>
      if negb (String.eqb ty "agentMessage") || (negb (String.eqb phase "") && negb (String.eqb phase "final_answer")) then Ok "" else Ok text
  end.

Example parse_prompt : ParseCommand "  fix it " = Ok (text_command CommandPrompt "fix it").
Proof. vm_compute. reflexivity. Qed.
Example parse_steer : ParseCommand "/steer  do  this" = Ok (text_command CommandSteer "do  this").
Proof. vm_compute. reflexivity. Qed.
Example parse_continue : ParseCommand "/recover continue 0123456789abcdef0123456789abcdef go  on"
  = Ok (recover_command CommandRecoverContinue "0123456789abcdef0123456789abcdef" "go  on").
Proof. vm_compute. reflexivity. Qed.
Example safe_escape : SafeText (String (chr 27) "[31m ok") = "\u{001b}[31m ok".
Proof. vm_compute. reflexivity. Qed.

(** ** The saved cursor survives a failing save

    A cursor is written to a temporary file that is renamed over the old one: what
    the next start reads is the old cursor or the new one, and a save that reports
    success is read back as it was saved. *)

Lemma members_marshal fs : wfj (JObj fs) -> json_depth (JObj fs) <= max_nesting_depth -> members_of (marshal (JObj fs)) = Some (raw_texts fs).
Proof. intros W D. unfold members_of. by rewrite struct_members_marshal. Qed.
Lemma parse_string s : utf8 s -> parse (marshal (JStr s)) = Some (JStr s).
Proof. intros U. apply parse_marshal; [by constructor|by vm_compute]. Qed.
Lemma parse_number z : parse (marshal (JInt z)) = Some (JInt z).
Proof. apply parse_marshal; [by constructor|by vm_compute]. Qed.

Definition proper_cursor (c : Cursor) : Prop :=
  utf8 (cu_Target c) /\ utf8 (cu_RoomID c) /\ cu_RoomID c <> "" /\ 0 <= cu_LastAppliedSeq c < 2 ^ 64.
Lemma cursor_decodes c : proper_cursor c -> decode_cursor (marshal (cursor_json c)) = Some c.
Proof.
  intros (Ut & Ur & _ & B). unfold decode_cursor, cursor_json. rewrite members_marshal; [|by repeat constructor|by vm_compute].
  cbn [raw_texts map fst snd mbind option_bind]. unfold string_of, decode_field. cbn [foldl fst snd].
  assert (N : EqualFold "target" "target" = true /\ EqualFold "roomId" "target" = false /\ EqualFold "lastAppliedSeq" "target" = false
    /\ EqualFold "target" "roomId" = false /\ EqualFold "roomId" "roomId" = true /\ EqualFold "lastAppliedSeq" "roomId" = false
    /\ EqualFold "target" "lastAppliedSeq" = false /\ EqualFold "roomId" "lastAppliedSeq" = false
    /\ EqualFold "lastAppliedSeq" "lastAppliedSeq" = true) by (by vm_compute).
  destruct N as (-> & -> & -> & -> & -> & -> & -> & -> & ->). cbn [mbind option_bind].
  unfold set_string, set_uint. rewrite !parse_string, parse_number by done. cbn [mbind option_bind JInt].
  pose proof (dec_uint_int 64 _ B) as E. cbn [dec_uint JInt] in E. rewrite E. by destruct c.
Qed.

(** The name of a temporary file is no name of a cursor. *)
Lemma temp_is_no_cursor s target : ".cursor-" +:+ s <> cursor_path target.
Proof.
  unfold cursor_path. intros E. pose proof (hex_encode_lower (Sha256.Sum256 target)) as L.
  destruct (hex_EncodeToString (Sha256.Sum256 target)) as [|c r] eqn:H; [by rewrite sapp_empty in E|].
  rewrite !sapp_cons in E. injection E as <- _. done.
Qed.
Definition body_of (c : Cursor) : string := marshal (cursor_json c).
(** The directory is left as it was or has the new file; a success leaves the new. *)
Lemma save_cases d f c target :
  let '(d', r) := cursor_Save d f c in
  (d' !! cursor_path target = d !! cursor_path target /\ r <> Ok tt)
  \/ d' !! cursor_path target = (<[cursor_path (cu_Target c) := body_of c]> d) !! cursor_path target.
Proof.
  unfold cursor_Save, body_of. pose proof (temp_is_no_cursor (ff_temp f) target) as N. set (temp := ".cursor-" +:+ ff_temp f) in *.
  assert (D : forall m : directory, delete temp m !! cursor_path target = m !! cursor_path target) by (intros m; by apply lookup_delete_ne).
  assert (I : forall (m : directory) x, <[temp := x]> m !! cursor_path target = m !! cursor_path target) by (intros m x; by apply lookup_insert_ne).
  assert (R : forall (m : directory) x, <[cursor_path (cu_Target c) := x]> m !! cursor_path target
              = if decide (cursor_path (cu_Target c) = cursor_path target) then Some x else m !! cursor_path target) by (intros m x; apply lookup_insert).
  repeat match goal with |- context [match ff_at f ?k with _ => _ end] => destruct (ff_at f k) end; rewrite ?D, ?R, ?I; (by left) || (by right).
Qed.

(** A client that stops while it saves its cursor does not lose its place.
    Whatever call of the file system fails, what the next start reads for the
    target is the cursor as it was or the whole new one; after a save that reports
    success it is the new one, exactly as saved; and the cursors of other targets
    are not touched. *)
Theorem cursor_save_atomic d f c : proper_cursor c ->
  let '(d', r) := cursor_Save d f c in
  (cursor_Load d' None (cu_Target c) = Ok c \/ r <> Ok tt /\ cursor_Load d' None (cu_Target c) = cursor_Load d None (cu_Target c))
  /\ forall failed other, cursor_path other <> cursor_path (cu_Target c) -> cursor_Load d' failed other = cursor_Load d failed other.
Proof.
  intros W. pose proof (save_cases d f c (cu_Target c)) as S. pose proof (fun other => save_cases d f c other) as O.
  destruct (cursor_Save d f c) as [d' r]. split.
  - destruct S as [[S R]|S]; [right; split; [done|]; unfold cursor_Load; by rewrite S|left].
    rewrite (lookup_insert_eq d) in S. unfold cursor_Load, body_of in *. rewrite S, cursor_decodes by done. destruct W as (_ & _ & Nr & _).
    by rewrite String.eqb_refl, (proj2 (String.eqb_neq _ _) Nr).
  - intros failed other Ne. specialize (O other). rewrite (lookup_insert_ne d) in O by done. unfold cursor_Load. by destruct O as [[-> _]| ->].
Qed.

Definition demo_disk : fs_faults := {| ff_at := fun k => match k with FsSyncDir => Some "EIO" | _ => None end; ff_part := ""; ff_temp := "1" |}.
Definition demo_saved : Cursor := {| cu_Target := "alice@host"; cu_RoomID := "r"; cu_LastAppliedSeq := 12 |}.
Lemma cursor_save_atomic_witness :
  let '(d', r) := cursor_Save ∅ demo_disk demo_saved in
  r <> Ok tt /\ cursor_Load d' None "bob@host" = Ok (new_cursor "bob@host") /\ cursor_Load d' None "alice@host" = Ok demo_saved.
Proof.
  pose proof (cursor_save_atomic ∅ demo_disk demo_saved) as H.
  assert (Ne : cursor_path "bob@host" <> cursor_path "alice@host") by (by vm_compute).
  assert (R : (cursor_Save ∅ demo_disk demo_saved).2 = Err (TText "EIO")) by (by vm_compute).
  assert (L : cursor_Load (cursor_Save ∅ demo_disk demo_saved).1 None "alice@host" = Ok demo_saved) by (by vm_compute).
  destruct (cursor_Save ∅ demo_disk demo_saved) as [d' r]. cbn in R, L. subst r. split_and!; [done| |done].
  rewrite (proj2 (H ltac:(split_and!; [by apply utf8_text; vm_compute|by apply utf8_text; vm_compute|done..])) None "bob@host" Ne). by vm_compute.
Defined.
