(* ===== verification/TerminalView.v ===== *)
(** * What a client shows of the running turn ([internal/client/render.go])

    The client keeps the partial output of the items in progress under the same
    budget as the room: a snapshot replaces it, transient events change it, and a
    durable end of an item or a turn removes what was completed. *)
From S2P Require Import Prelude GoStrings Json RoomTypes Projection StrictJson GoDecode Messages TerminalText.

(** Thread, turn and item. *)
Abbreviation itemKey := (string * string * string)%type.
Record view := mkView
  { vw_active : string; vw_activeWatermark : Z; vw_revision : Z; vw_partial : gmap itemKey string; vw_used : Z; vw_truncated : bool }.
Definition no_view : view := mkView "" 0 0 ∅ 0 false.
Definition with_active (t : string) (v : view) : view :=
  mkView t (vw_activeWatermark v) (vw_revision v) (vw_partial v) (vw_used v) (vw_truncated v).
Definition with_truncated (b : bool) (v : view) : view :=
  mkView (vw_active v) (vw_activeWatermark v) (vw_revision v) (vw_partial v) (vw_used v) b.
Definition with_revision (r : Z) (v : view) : view :=
  mkView (vw_active v) (vw_activeWatermark v) r (vw_partial v) (vw_used v) (vw_truncated v).
Definition with_partial (m : gmap itemKey string) (used : Z) (v : view) : view :=
  mkView (vw_active v) (vw_activeWatermark v) (vw_revision v) m used (vw_truncated v).
Definition item_cost (k : itemKey) (text : string) : Z := Projection.LiveItemCost k.1.1 k.1.2 k.2 text.
Definition Budget : Z := Projection.LiveProjectionBudget.
Definition shown_key (i : LiveItemSnapshot) : itemKey := (li_ThreadID i, li_TurnID i, li_ItemID i).

(** [projection.snapshot]; it stops at the first item that does not fit. *)
Fixpoint take_items (v : view) (l : list LiveItemSnapshot) : view :=
  match l with
  | [] => v
  | i :: r =>
      let cost := item_cost (shown_key i) (li_Partial i) in
      if Budget - vw_used v <? cost then with_truncated true v
      else take_items (with_partial (<[shown_key i := li_Partial i]> (vw_partial v)) (vw_used v + cost) v) r
  end.
Definition view_snapshot (s : RuntimeSnapshot) : view :=
  take_items (mkView (rn_ActiveTurnID s) (rn_DurableWatermark s) (rn_ProjectionRevision s) ∅ 0 (rn_ProjectionTruncated s)) (rn_LiveItems s).

(** [projection.remove] *)
Definition view_remove (v : view) (k : itemKey) : view :=
  match vw_partial v !! k with
  | Some text => with_partial (delete k (vw_partial v)) (vw_used v - item_cost k text) v
  | None => v
  end.

(** [projection.transient], and the line it prints. *)
Definition truncated_line : string := "[stream truncated; completed output follows]" +:+ nl.
Definition partial_line (item text : string) : string := "[partial " +:+ SafeText item +:+ "] " +:+ SafeText text +:+ nl.
Definition view_transient (v : view) (e : TransientEvent) : view * option string :=
  if te_Revision e <=? vw_revision v then (v, None) else
  let v := with_revision (te_Revision e) v in
  let k := (te_ThreadID e, te_TurnID e, te_ItemID e) in
  if String.eqb (te_Kind e) "projection-truncated" then (with_truncated true v, Some truncated_line)
  else if String.eqb (te_Kind e) "projection-reset" then (with_truncated false v, None)
  else if negb (String.eqb (te_Kind e) "item-delta") then (view_remove v k, None)
  else if vw_truncated v then (v, None)
  else
    let cost := 6 * len (te_Delta e) + (match vw_partial v !! k with Some _ => 0 | None => item_cost k "" end) in
    if Budget - vw_used v <? cost then (with_truncated true v, Some truncated_line)
    else (with_partial (<[k := default "" (vw_partial v !! k) +:+ te_Delta e]> (vw_partial v)) (vw_used v + cost) v,
          Some (partial_line k.2 (te_Delta e))).

(** [projection.durable]: the line it prints; [None] is a payload that is no object
    with these fields. *)
Definition event_ids (payload : string) : option (string * string * string) :=
  l ← members_of payload;
  turn ← string_of "turn_id" l;
  thread ← string_of "thread_id" l;
  item ← string_of "item_id" l;
  Some (thread, turn, item).
Definition ends_turn (kind : string) : bool :=
  existsb (String.eqb kind) ["turn/completed"; "turn/failed"; "turn/interrupted"; "turn/needs-review"].
Definition remove_turn (turn : string) (v : view) : view :=
  foldl view_remove v (List.filter (fun k => String.eqb k.1.2 turn) (map_to_list (vw_partial v)).*1).
Definition event_line (e : RoomEvent) : string :=
  "[" +:+ itoa (re_Seq e) +:+ " " +:+ SafeText (re_Kind e) +:+ " uid=" +:+ itoa (re_ActorUID e) +:+ "] " +:+ SafeText (re_Payload e) +:+ nl.
Definition view_durable (v : view) (e : RoomEvent) : option view :=
  '(thread, turn, item) ← event_ids (re_Payload e);
  let newer := vw_activeWatermark v <? Projection.u64 (re_Seq e) in
  Some (if String.eqb (re_Kind e) "turn/running" then if newer then with_active turn v else v
        else if ends_turn (re_Kind e) then
          if newer then
            let v := with_truncated false (remove_turn turn v) in
            if String.eqb (vw_active v) turn then with_active "" v else v
          else v
        else if String.eqb (re_Kind e) "item/completed" then view_remove v (thread, turn, item)
        else v).
