(* ===== verification/TerminalMirror.v ===== *)
(** * The client's view mirrors the room's projection

    Between a snapshot and whatever the room does next, a client that applies the
    updates it is sent shows exactly the partial output that the projection of the
    room holds, under the same budget. *)
From S2P Require Import Prelude GoStrings Json RoomTypes Projection StrictJson GoDecode Messages TerminalText TerminalView.
Import Projection.

(** ** The text of a projection *)

Definition text_of (x : ProjectedItem) : option string := if String.eqb (pi_Partial x) "" then None else Some (pi_Partial x).
Definition live_texts (m : gmap itemKey ProjectedItem) : gmap itemKey string := omap text_of m.
Definition texts_cost (m : gmap itemKey string) : Z := map_fold (fun k t acc => item_cost k t + acc) 0 m.
Lemma texts_cost_insert m k t : m !! k = None -> texts_cost (<[k := t]> m) = item_cost k t + texts_cost m.
Proof. intros H. unfold texts_cost. rewrite (map_fold_insert_L _ _ k t m); [done|intros; lia|done]. Qed.
Lemma texts_cost_delete m k t : m !! k = Some t -> texts_cost (delete k m) = texts_cost m - item_cost k t.
Proof. intros H. rewrite <- (insert_delete_id m k t H) at 2. rewrite texts_cost_insert by apply lookup_delete_eq. lia. Qed.
Lemma live_texts_insert m k x : live_texts (<[k := x]> m) =
  match text_of x with Some t => <[k := t]> (live_texts m) | None => delete k (live_texts m) end.
Proof. unfold live_texts. rewrite omap_insert. by destruct (text_of x). Qed.
Lemma live_texts_delete m k : live_texts (delete k m) = delete k (live_texts m).
Proof. unfold live_texts. by rewrite omap_delete. Qed.
Lemma live_texts_cost m : texts_cost (live_texts m) <= total_cost m.
Proof.
  induction m as [|k x m Hk IH] using map_ind; [done|]. rewrite live_texts_insert, total_cost_insert by done.
  assert (Hl : live_texts m !! k = None) by (unfold live_texts; by rewrite lookup_omap, Hk).
  unfold text_of. destruct (String.eqb (pi_Partial x) "").
  - rewrite delete_id by done. pose proof (key_cost_pos k (pi_Partial x)). lia.
  - rewrite texts_cost_insert by done. unfold item_cost. unfold key_cost. lia.
Qed.

(** ** The relation *)

Record mirrors (p : Projection) (v : view) : Prop := mk_mirrors
  { mi_revision : vw_revision v = revision p;
    mi_truncated : vw_truncated v = truncated p;
    mi_partial : vw_partial v = live_texts (items p);
    mi_used : vw_used v = texts_cost (vw_partial v) }.
Lemma remove_partial v k : vw_partial (view_remove v k) = delete k (vw_partial v).
Proof. unfold view_remove. destruct (vw_partial v !! k) eqn:E; [done|]. by rewrite delete_id. Qed.
Lemma remove_used v k : vw_used v = texts_cost (vw_partial v) -> vw_used (view_remove v k) = texts_cost (vw_partial (view_remove v k)).
Proof. unfold view_remove. destruct (vw_partial v !! k) eqn:E; [|done]. intros H. cbn. rewrite (texts_cost_delete _ _ _ E). lia. Qed.
Lemma remove_rest v k : vw_revision (view_remove v k) = vw_revision v /\ vw_truncated (view_remove v k) = vw_truncated v.
Proof. unfold view_remove. by destruct (vw_partial v !! k). Qed.

(** A snapshot of a projection is taken whole. *)
Definition snapshot_of (p : Projection) (watermark : Z) (active : string) : RuntimeSnapshot :=
  {| rn_ProjectionTruncated := truncated p; rn_ProjectionRevision := (Snapshot p).1; rn_DurableWatermark := watermark;
     rn_LiveItems := (Snapshot p).2; rn_ActiveTurnID := active |}.
Definition list_texts (l : list LiveItemSnapshot) : gmap itemKey string := foldr (fun i m => <[shown_key i := li_Partial i]> m) ∅ l.
Lemma list_texts_lookup l k t : NoDup (shown_key <$> l) -> list_texts l !! k = Some t <-> exists i, i ∈ l /\ shown_key i = k /\ li_Partial i = t.
Proof.
  induction l as [|i l IH]; cbn.
  - intros _. rewrite lookup_empty. split; [done|]. by intros (i & ?%elem_of_nil & _).
  - intros [Ni N]%NoDup_cons. destruct (decide (shown_key i = k)) as [<-|Ne].
    + rewrite lookup_insert_eq. split; [intros [= <-]; exists i; split_and!; [left|done..]|].
      intros (j & [->|Hj]%elem_of_cons & Ej & <-); [done|]. destruct Ni. rewrite <- Ej. by apply list_elem_of_fmap_2.
    + rewrite lookup_insert_ne, IH by done. split; intros (j & Hj & Ej & <-).
      * exists j. split; [by right|done].
      * apply elem_of_cons in Hj as [->|Hj]; [done|]. by exists j.
Qed.
Lemma list_texts_fresh i l : NoDup (shown_key <$> i :: l) -> list_texts l !! shown_key i = None.
Proof.
  intros [Ni N]%NoDup_cons. destruct (list_texts l !! shown_key i) as [t|] eqn:E; [|done]. apply list_texts_lookup in E as (j & Hj & Ej & _); [|done].
  destruct Ni. rewrite <- Ej. by apply list_elem_of_fmap_2.
Qed.
Lemma take_items_all l v : NoDup (shown_key <$> l) -> (forall i, i ∈ l -> vw_partial v !! shown_key i = None) ->
  vw_used v + texts_cost (list_texts l) <= Budget ->
  let v' := take_items v l in
  vw_partial v' = list_texts l ∪ vw_partial v /\ vw_used v' = vw_used v + texts_cost (list_texts l)
  /\ vw_truncated v' = vw_truncated v /\ vw_revision v' = vw_revision v.
Proof.
  revert v. induction l as [|i l IH]; intros v N F B; cbn [take_items].
  - cbn. rewrite map_empty_union. split_and!; try done. unfold texts_cost. rewrite map_fold_empty. lia.
  - pose proof (list_texts_fresh _ _ N) as Fi. cbn [list_texts foldr] in B |- *. change (foldr _ ∅ l) with (list_texts l) in *.
    rewrite texts_cost_insert in B |- * by done. cbn [fmap list_fmap] in N. apply NoDup_cons in N as [Ni N].
    assert (C : 0 <= texts_cost (list_texts l)).
    { clear. induction (list_texts l) as [|k t m Hk IH] using map_ind; [done|]. rewrite texts_cost_insert by done.
      pose proof (key_cost_pos k t). unfold key_cost in *. unfold item_cost. lia. }
    rewrite (proj2 (Z.ltb_ge _ _)) by lia. edestruct (IH (with_partial (<[shown_key i := li_Partial i]> (vw_partial v)) (vw_used v + item_cost (shown_key i) (li_Partial i)) v)) as (P & U & T & R); [done| |cbn; lia|].
    + intros j Hj. cbn. rewrite lookup_insert_ne; [apply F; by right|]. intros E. destruct Ni. rewrite E. by apply list_elem_of_fmap_2.
    + cbn in P, U, T, R. split_and!; [|rewrite U; lia|done|done]. rewrite P. rewrite <- insert_union_l, <- insert_union_r; [done|done].
Qed.
Lemma snapshot_mirrors p watermark active : wf p -> mirrors p (view_snapshot (snapshot_of p watermark active)).
Proof.
  intros [Hu Hb _]. unfold view_snapshot, snapshot_of. cbn [rn_ActiveTurnID rn_DurableWatermark rn_ProjectionRevision rn_ProjectionTruncated rn_LiveItems Snapshot fst snd].
  assert (E : list_texts (snapshot_items p) = live_texts (items p)).
  { apply map_eq. intros k. apply option_eq. intros t. rewrite list_texts_lookup by apply snapshot_keys_NoDup.
    unfold live_texts. rewrite lookup_omap_Some. split.
    - intros (i & (x & Hx & Ex & Ne)%elem_of_snapshot & <- & <-). exists x. split; [|done]. unfold text_of. rewrite Ex.
      by rewrite (proj2 (String.eqb_neq _ _) Ne).
    - intros (x & Ex & Hx). destruct k as [[th tu] it]. exists {| li_ThreadID := th; li_TurnID := tu; li_ItemID := it; li_Partial := t |}.
      split; [|done]. apply elem_of_snapshot. exists x. unfold text_of in Ex. destruct (String.eqb_spec (pi_Partial x) ""); [done|].
      injection Ex as <-. done. }
  pose proof (live_texts_cost (items p)) as C.
  edestruct (take_items_all (snapshot_items p) (mkView active watermark (revision p) ∅ 0 (truncated p))) as (P & U & T & R);
    [apply snapshot_keys_NoDup|intros; apply lookup_empty|cbn; rewrite E; unfold Budget; lia|].
  cbn in P, U, T, R. rewrite map_union_empty, E in P. rewrite E in U. split; [done|done|done|]. by rewrite U, P.
Qed.

(** ** What the client is sent *)

Definition emitted (p : Projection) (o : op) : list TransientEvent :=
  match o with
  | OpApply e => match pu_Transient (Apply p e).2 with Some t => [t] | None => [] end
  | OpReset => (reset p).2
  | OpRemoveTurn thread turn => (removeTurn p thread turn).2
  end.
(** The durable event of a completed item comes before its transient event. *)
Definition completed_key (p : Projection) (o : op) : option itemKey :=
  match o with
  | OpApply e => (fun c => (it_ThreadID c, it_TurnID c, it_ItemID c)) <$> pu_Durable (Apply p e).2
  | _ => None
  end.
Definition sees (v : view) (t : TransientEvent) : view := (view_transient v t).1.
Definition client_step (p : Projection) (v : view) (o : op) : view :=
  foldl sees (match completed_key p o with Some k => view_remove v k | None => v end) (emitted p o).
Fixpoint client_run (p : Projection) (v : view) (os : list op) : view :=
  match os with [] => v | o :: r => client_run (step p o) (client_step p v o) r end.
Fixpoint all_emitted (p : Projection) (os : list op) : list TransientEvent :=
  match os with [] => [] | o :: r => emitted p o ++ all_emitted (step p o) r end.
(** The durable event of a completed item does what [client_step] says. *)
Lemma durable_completion v d k : re_Kind d = "item/completed" -> event_ids (re_Payload d) = Some k -> view_durable v d = Some (view_remove v k).
Proof. intros Kd E. unfold view_durable. rewrite E, Kd. by destruct k as [[th tu] it]. Qed.

Lemma seen_item v t : vw_revision v < te_Revision t -> te_Kind t <> "projection-truncated" -> te_Kind t <> "projection-reset" ->
  te_Kind t <> "item-delta" -> sees v t = view_remove (with_revision (te_Revision t) v) (te_ThreadID t, te_TurnID t, te_ItemID t).
Proof.
  intros R N1 N2 N3. unfold sees, view_transient. rewrite (proj2 (Z.leb_gt _ _)) by done.
  by rewrite (proj2 (String.eqb_neq _ _) N1), (proj2 (String.eqb_neq _ _) N2), (proj2 (String.eqb_neq _ _) N3).
Qed.
Lemma seen_truncated v t : vw_revision v < te_Revision t -> te_Kind t = "projection-truncated" ->
  sees v t = with_truncated true (with_revision (te_Revision t) v).
Proof. intros R E. unfold sees, view_transient. by rewrite (proj2 (Z.leb_gt _ _)), E. Qed.
Lemma seen_reset v t : vw_revision v < te_Revision t -> te_Kind t = "projection-reset" ->
  sees v t = with_truncated false (with_revision (te_Revision t) v).
Proof. intros R E. unfold sees, view_transient. by rewrite (proj2 (Z.leb_gt _ _)), E. Qed.

(** ** One operation *)

Definition room_left (p : Projection) (l : list TransientEvent) : Prop := 0 <= revision p /\ revision p + Z.of_nat (length l) < 2 ^ 64.
Definition nonempty_delta (o : op) : Prop := match o with OpApply e => ae_Kind e = "item-delta" -> ae_Delta e <> "" | _ => True end.
Lemma u64_next z : 0 <= z -> z + 1 < 2 ^ 64 -> u64 (z + 1) = z + 1.
Proof. intros. unfold u64. by rewrite Z.mod_small by lia. Qed.
Lemma append_nonempty a b : b <> "" -> String.eqb (a +:+ b) "" = false.
Proof. intros N. apply String.eqb_neq. by destruct a. Qed.
Lemma Apply_of_delta p e : ae_Kind e = "item-delta" -> Apply p e = Apply_delta p e.
Proof. intros E. unfold Apply. by rewrite E. Qed.
Lemma Apply_of_completed p e c : ae_Kind e = "item-completed" -> ae_Completed e = Some c -> Apply p e = Apply_completed p "item-completed" c.
Proof. intros E Ec. unfold Apply. by rewrite E, Ec. Qed.
(** Adding to an item's text costs the client the difference. *)
Definition extended (m : gmap itemKey string) (k : itemKey) (d : string) : gmap itemKey string := <[k := default "" (m !! k) +:+ d]> m.
Lemma extended_cost m k d :
  texts_cost (extended m k d) = texts_cost m + (6 * len d + (match m !! k with Some _ => 0 | None => item_cost k "" end)).
Proof.
  unfold extended. rewrite <- (insert_delete_eq m). rewrite texts_cost_insert by apply lookup_delete_eq.
  pose proof (key_cost_app k (default "" (m !! k)) d) as E. unfold key_cost in E. unfold item_cost. rewrite E. destruct (m !! k) as [t|] eqn:Ek; cbn [default from_option].
  - rewrite (texts_cost_delete _ _ _ Ek). unfold item_cost. cbn. lia.
  - rewrite delete_id by done. cbn. lia.
Qed.
Lemma seen_delta v t : vw_revision v < te_Revision t -> te_Kind t = "item-delta" -> vw_truncated v = false ->
  vw_used v = texts_cost (vw_partial v) ->
  let m := extended (vw_partial v) (te_ThreadID t, te_TurnID t, te_ItemID t) (te_Delta t) in texts_cost m <= Budget ->
  sees v t = with_partial m (texts_cost m) (with_revision (te_Revision t) v).
Proof.
  intros R E T U m B. unfold sees, view_transient. rewrite (proj2 (Z.leb_gt _ _)), E by done. cbn -[Z.mul len extended item_cost]. rewrite T, U.
  unfold m in *. rewrite extended_cost in B |- *. by rewrite (proj2 (Z.ltb_ge _ _)) by lia.
Qed.
Lemma live_texts_lookup m k : live_texts m !! k = (m !! k) ≫= text_of.
Proof. unfold live_texts. by rewrite lookup_omap. Qed.
Lemma default_text m k : default "" (live_texts m !! k) = pi_Partial (default zero_item (m !! k)).
Proof.
  rewrite live_texts_lookup. destruct (m !! k) as [x|]; [|done]. cbn. unfold text_of. destruct (String.eqb_spec (pi_Partial x) ""); cbn; congruence.
Qed.
Lemma delta_mirrors p v e : wf p -> ae_Kind e = "item-delta" -> ae_Delta e <> "" -> room_left p (emitted p (OpApply e)) -> mirrors p v ->
  mirrors (Apply p e).1 (client_step p v (OpApply e)).
Proof.
  intros W Ke Ne [R0 R1] M. pose proof (Apply_wf p e W) as W'. unfold client_step, completed_key, emitted in *.
  rewrite (Apply_of_delta p e Ke) in *. unfold Apply_delta in *. destruct (truncated p) eqn:Tp; [done|].
  set (key := (ae_ThreadID e, ae_TurnID e, ae_ItemID e)) in *. set (cur := default zero_item (items p !! key)) in *.
  destruct (pi_Completed cur) eqn:Ec; [done|]. destruct M as [Mr Mt Mp Mu].
  destruct (_ <? _) eqn:Hc; cbn [fst snd pu_Transient pu_Durable fmap option_fmap option_map foldl length] in *; rewrite u64_next in * by lia.
  - rewrite seen_truncated by (cbn; lia || done). done.
  - destruct W' as [Wu Wb _]. cbn [items used] in Wu, Wb.
    assert (Em : extended (vw_partial v) key (ae_Delta e)
                 = live_texts (<[key := {| pi_Partial := pi_Partial cur +:+ ae_Delta e; pi_Completed := None |}]> (items p))).
    { rewrite live_texts_insert. unfold text_of. cbn [pi_Partial]. rewrite append_nonempty by done. unfold extended. by rewrite Mp, default_text. }
    rewrite seen_delta; cbn [te_Revision te_Kind te_ThreadID te_TurnID te_ItemID te_Delta transient]; fold key; try done; try lia; [|congruence|].
    + by split; cbn; [|congruence|..].
    + rewrite Em. etransitivity; [apply live_texts_cost|]. unfold Budget. lia.
Qed.

(** A completed item leaves the live output, whatever the budget says of it. *)
Lemma live_texts_completed p c :
  live_texts (items (Apply_completed p "item-completed" c).1) = delete (it_ThreadID c, it_TurnID c, it_ItemID c) (live_texts (items p)).
Proof.
  unfold Apply_completed. set (key := (it_ThreadID c, it_TurnID c, it_ItemID c)).
  assert (E : live_texts (match items p !! key with Some old => (delete key (items p), used p - key_cost key (pi_Partial old)) | None => (items p, used p) end).1
              = delete key (live_texts (items p))).
  { destruct (items p !! key) eqn:Ek; cbn [fst]; [by rewrite live_texts_delete|]. rewrite delete_id; [done|]. by rewrite live_texts_lookup, Ek. }
  destruct (match items p !! key with Some _ => _ | None => _ end) as [m u]. cbn [fst] in *. destruct (_ && _); cbn [items]; [|done].
  rewrite live_texts_insert. cbn [text_of completion_entry pi_Partial]. change (String.eqb "" "") with true. cbn iota. by rewrite E, delete_delete_eq.
Qed.
Lemma Apply_completed_frame p c :
  let p' := (Apply_completed p "item-completed" c).1 in
  revision p' = u64 (revision p + 1) /\ (truncated p = true -> truncated p' = true)
  /\ pu_Durable (Apply_completed p "item-completed" c).2 = Some c
  /\ pu_Transient (Apply_completed p "item-completed" c).2
     = Some (if truncated p' && negb (truncated p) then transient (revision p') "projection-truncated" (it_ThreadID c) (it_TurnID c) "" ""
             else transient (revision p') "item-completed" (it_ThreadID c) (it_TurnID c) (it_ItemID c) "").
Proof.
  unfold Apply_completed. destruct (match items p !! _ with Some _ => _ | None => _ end) as [m u].
  destruct (truncated p) eqn:T; destruct (_ && _) eqn:F; cbn [fst snd revision truncated pu_Durable pu_Transient andb negb] in *; by rewrite ?T.
Qed.
Lemma removed_mirrors k p p' v : mirrors p v -> revision p' = revision p -> truncated p' = truncated p ->
  live_texts (items p') = delete k (live_texts (items p)) -> mirrors p' (view_remove v k).
Proof.
  intros [Mr Mt Mp Mu] Er Et Ei. destruct (remove_rest v k) as [R T]. split; [congruence|congruence| |by apply remove_used].
  by rewrite remove_partial, Ei, Mp.
Qed.
Lemma completed_mirrors p v e c : ae_Kind e = "item-completed" -> ae_Completed e = Some c -> room_left p (emitted p (OpApply e)) -> mirrors p v ->
  mirrors (Apply p e).1 (client_step p v (OpApply e)).
Proof.
  intros Ke Ec [R0 R1] [Mr Mt Mp Mu]. unfold client_step, completed_key, emitted in *. rewrite (Apply_of_completed p e c Ke Ec) in *.
  destruct (Apply_completed_frame p c) as (Fr & Ft & Fd & Fe). rewrite Fd, Fe in *. cbn [fmap option_fmap option_map foldl length] in *.
  pose proof (live_texts_completed p c) as L. set (p' := (Apply_completed p "item-completed" c).1) in *. set (k := (it_ThreadID c, it_TurnID c, it_ItemID c)) in *.
  rewrite u64_next in Fr by lia. destruct (remove_rest v k) as [R T]. pose proof (remove_used v k Mu) as U. pose proof (remove_partial v k) as P.
  destruct (truncated p' && negb (truncated p)) eqn:F.
  - rewrite seen_truncated by (cbn; lia || done). apply andb_prop in F as [F _]. by split; cbn; [|congruence|rewrite P, Mp, L|].
  - rewrite seen_item by (cbn; lia || done). fold k. split.
    + rewrite (proj1 (remove_rest _ _)). done.
    + rewrite (proj2 (remove_rest _ _)). cbn. rewrite T, Mt. destruct (truncated p) eqn:Tp; [by rewrite Ft|]. by rewrite andb_true_r in F.
    + rewrite remove_partial. cbn. by rewrite P, Mp, L, delete_delete_eq.
    + by apply remove_used.
Qed.

(** ** Resets *)

Lemma removals_seen l v : 0 <= vw_revision v -> vw_revision v + Z.of_nat (length l) < 2 ^ 64 -> vw_used v = texts_cost (vw_partial v) ->
  let v' := foldl sees v (removal_events (vw_revision v) l).2 in
  vw_revision v' = (removal_events (vw_revision v) l).1 /\ vw_truncated v' = vw_truncated v /\ vw_used v' = texts_cost (vw_partial v')
  /\ forall k, vw_partial v' !! k = if decide (k ∈ li_key <$> l) then None else vw_partial v !! k.
Proof.
  revert v. induction l as [|i l IH]; intros v R0 R1 U; cbn [removal_events].
  - cbn. split_and!; [done..|]. intros k. by rewrite decide_False by apply not_elem_of_nil.
  - cbn [length] in R1. rewrite u64_next by lia. set (v1 := sees v (transient (vw_revision v + 1) "item-removed" (li_ThreadID i) (li_TurnID i) (li_ItemID i) "")).
    assert (E : v1 = view_remove (with_revision (vw_revision v + 1) v) (li_key i)) by (unfold v1; by rewrite seen_item by (cbn; lia || done)).
    destruct (remove_rest (with_revision (vw_revision v + 1) v) (li_key i)) as [R T]. rewrite <- E in R, T. cbn in R, T.
    destruct (IH v1) as (Ir & It & Iu & Ip); [lia|lia|rewrite E; by apply remove_used|]. rewrite R in *.
    destruct (removal_events (vw_revision v + 1) l) as [rev evs]. cbn [fst snd foldl] in *. fold v1. split_and!; [done|congruence|done|].
    intros k. rewrite Ip, E, remove_partial. cbn [vw_partial with_revision fmap list_fmap]. destruct (decide (k = li_key i)) as [->|N].
    + rewrite lookup_delete_eq, (decide_True (P := _ ∈ _ :: _)) by left. by destruct (decide _).
    + rewrite lookup_delete_ne by done. apply decide_ext. rewrite elem_of_cons. naive_solver.
Qed.
Lemma removal_events_length rev l : length (removal_events rev l).2 = length l.
Proof. revert rev. induction l as [|i l IH]; intros rev; cbn [removal_events]; [done|]. specialize (IH (u64 (rev + 1))). destruct (removal_events _ l). cbn in *. congruence. Qed.
Lemma listed_removed (P : projectionKey -> bool) p k :
  (if decide (k ∈ li_key <$> List.filter (fun i => P (li_key i)) (snapshot_items p)) then None else live_texts (items p) !! k)
  = live_texts (filter (fun kv => P kv.1 = false) (items p)) !! k.
Proof.
  rewrite !live_texts_lookup. destruct (decide _) as [(i & -> & Hi)%list_elem_of_fmap|N].
  - apply list_elem_of_In, filter_In in Hi as [_ Hi]. symmetry. apply bind_None. left. apply map_lookup_filter_None. right. cbn. congruence.
  - destruct (items p !! k) as [x|] eqn:Ek.
    + cbn. destruct (P k) eqn:Pk; [|by rewrite (proj2 (map_lookup_filter_Some _ _ k x))].
      rewrite (proj2 (map_lookup_filter_None _ _ k)) by (right; cbn; congruence). unfold text_of.
      destruct (String.eqb_spec (pi_Partial x) "") as [|Ne]; [done|]. destruct N. apply list_elem_of_fmap. destruct k as [[th tu] it].
      exists {| li_ThreadID := th; li_TurnID := tu; li_ItemID := it; li_Partial := pi_Partial x |}. split; [done|].
      apply list_elem_of_In, filter_In. split; [|done]. apply list_elem_of_In, elem_of_snapshot. by exists x.
    + by rewrite (proj2 (map_lookup_filter_None _ _ k)) by (by left).
Qed.
Lemma filter_all {A} (l : list A) : List.filter (fun _ => true) l = l.
Proof. induction l; cbn; congruence. Qed.
Lemma map_empty_filter_none (m : gmap projectionKey ProjectedItem) : filter (fun _ => true = false) m = ∅.
Proof. apply map_empty. intros k. apply map_lookup_filter_None. by right. Qed.
(** What the removal of the items listed leaves. *)
Lemma reset_mirrors_by (P : projectionKey -> bool) p v thread turn l rev evs p' :
  mirrors p v -> l = List.filter (fun i => P (li_key i)) (snapshot_items p) -> removal_events (revision p) l = (rev, evs) ->
  let all := evs ++ (if truncated p then [transient (u64 (rev + 1)) "projection-reset" thread turn "" ""] else []) in
  room_left p all -> revision p' = (if truncated p then u64 (rev + 1) else rev) -> truncated p' = false ->
  items p' = filter (fun kv => P kv.1 = false) (items p) -> mirrors p' (foldl sees v all).
Proof.
  intros [Mr Mt Mp Mu] El Ev all [R0 R1] Er Et Ei. pose proof (removal_events_length (revision p) l) as Le. unfold all in *. rewrite length_app in R1.
  rewrite Ev in Le. cbn [snd] in Le. destruct (removals_seen l v) as (Vr & Vt & Vu & Vp); [lia|rewrite Mr; lia|done|]. rewrite Mr, Ev in *. cbn [fst snd] in *.
  pose proof (removal_events_spec (revision p) l R0 ltac:(lia)) as S. rewrite Ev in S. injection S as S _.
  assert (Hp : vw_partial (foldl sees v evs) = live_texts (items p')).
  { apply map_eq. intros k. subst l. rewrite Vp, Mp, Ei. by apply listed_removed. }
  rewrite foldl_app. set (w := foldl sees v evs) in *. destruct (truncated p) eqn:Tp; cbn [foldl length] in *; [|by split; congruence].
  rewrite u64_next in * by lia. rewrite seen_reset by (cbn; lia || done). by split; cbn; [|congruence|..].
Qed.
Lemma reset_mirrors p v : room_left p (emitted p OpReset) -> mirrors p v -> mirrors (step p OpReset) (client_step p v OpReset).
Proof.
  intros R M. unfold client_step, completed_key, emitted, step in *.
  destruct (removal_events (revision p) (snapshot_items p)) as [rev evs] eqn:Ev.
  pose proof (reset_mirrors_by (fun _ => true) p v "" "" _ rev evs (reset p).1 M (eq_sym (filter_all _)) Ev) as S.
  replace (reset p).2 with (evs ++ (if truncated p then [transient (u64 (rev + 1)) "projection-reset" "" "" "" ""] else [])) in *
    by (unfold reset; rewrite Ev; destruct (truncated p); [done|apply app_nil_r]).
  apply S; [done| | |]; unfold reset; rewrite Ev; destruct (truncated p); try done; cbn [items fst]; symmetry; by apply map_empty_filter_none.
Qed.
Lemma removeTurn_mirrors p v thread turn : room_left p (emitted p (OpRemoveTurn thread turn)) -> mirrors p v ->
  mirrors (step p (OpRemoveTurn thread turn)) (client_step p v (OpRemoveTurn thread turn)).
Proof.
  intros R M. unfold client_step, completed_key, emitted, step in *.
  destruct (removal_events (revision p) (List.filter (live_in_turn thread turn) (snapshot_items p))) as [rev evs] eqn:Ev.
  pose proof (reset_mirrors_by (in_turn thread turn) p v thread turn _ rev evs (removeTurn p thread turn).1 M eq_refl Ev) as S.
  replace (removeTurn p thread turn).2 with (evs ++ (if truncated p then [transient (u64 (rev + 1)) "projection-reset" thread turn "" ""] else [])) in *
    by (unfold removeTurn; rewrite Ev; destruct (truncated p); [done|apply app_nil_r]).
  apply S; [done| | |]; unfold removeTurn; rewrite Ev; by destruct (truncated p).
Qed.

(** ** Every run *)

Lemma step_revision p o : room_left p (emitted p o) -> revision (step p o) = revision p + Z.of_nat (length (emitted p o)).
Proof.
  intros [R0 R1]. destruct o as [e| |th tu]; cbn [step emitted] in *.
  - unfold Apply in *. destruct (String.eqb _ "item-delta");
      [|destruct (String.eqb_spec (ae_Kind e) "item-completed") as [E|]; [destruct (ae_Completed e) as [c|]|]]; cbn in *; try lia.
    + unfold Apply_delta in *. destruct (truncated p); cbn in *; [lia|]. destruct (pi_Completed _); cbn in *; [lia|].
      destruct (_ <? _); cbn in *; rewrite u64_next; lia.
    + destruct (Apply_completed_frame p c) as (Fr & _ & _ & Fe). rewrite E in *. rewrite Fe in *. cbn [length] in *. rewrite Fr, u64_next; lia.
  - unfold reset in *. pose proof (removal_events_length (revision p) (snapshot_items p)) as L.
    pose proof (removal_events_spec (revision p) (snapshot_items p) R0) as S. destruct (removal_events _ _) as [rev evs]. cbn in L.
    destruct (truncated p); cbn [fst snd revision] in *; rewrite ?length_app in *; cbn [length] in *;
      injection (S ltac:(lia)) as S1 _; rewrite S1 in *; rewrite ?u64_next; lia.
  - unfold removeTurn in *. pose proof (removal_events_length (revision p) (List.filter (live_in_turn th tu) (snapshot_items p))) as L.
    pose proof (removal_events_spec (revision p) (List.filter (live_in_turn th tu) (snapshot_items p)) R0) as S. destruct (removal_events _ _) as [rev evs]. cbn in L.
    destruct (truncated p); cbn [fst snd revision] in *; rewrite ?length_app in *; cbn [length] in *;
      injection (S ltac:(lia)) as S1 _; rewrite S1 in *; rewrite ?u64_next; lia.
Qed.
Lemma step_mirrors p v o : wf p -> nonempty_delta o -> room_left p (emitted p o) -> mirrors p v -> mirrors (step p o) (client_step p v o).
Proof.
  intros W N R M. destruct o as [e| |th tu]; [|by apply reset_mirrors|by apply removeTurn_mirrors].
  destruct (String.eqb_spec (ae_Kind e) "item-delta") as [Kd|Nd]; [apply delta_mirrors; auto|].
  destruct (String.eqb_spec (ae_Kind e) "item-completed") as [Kc|Nc].
  - destruct (ae_Completed e) as [c|] eqn:Ec; [by eapply completed_mirrors|].
    assert (E : Apply p e = (p, no_update)) by (unfold Apply; by rewrite Kc, Ec). unfold client_step, completed_key, emitted, step. by rewrite E.
  - assert (E : Apply p e = (p, no_update)).
    { unfold Apply. by rewrite (proj2 (String.eqb_neq _ _) Nd), (proj2 (String.eqb_neq _ _) Nc). }
    unfold client_step, completed_key, emitted, step. by rewrite E.
Qed.
Lemma step_wf p o : wf p -> wf (step p o).
Proof. apply (run_wf p [o]). Qed.
Lemma run_mirrors p v os : wf p -> Forall nonempty_delta os -> room_left p (all_emitted p os) -> mirrors p v -> mirrors (run p os) (client_run p v os).
Proof.
  revert p v. induction os as [|o os IH]; intros p v W N R M; [done|]. apply Forall_cons in N as [No N]. cbn [all_emitted client_run run foldl] in *.
  assert (R' : room_left p (emitted p o)) by (destruct R as [R0 R1]; rewrite length_app in R1; split; [done|lia]).
  apply IH; [by apply step_wf|done| |by apply step_mirrors]. destruct R as [R0 R1]. rewrite length_app in R1. split; rewrite step_revision by done; lia.
Qed.

(** C13: what a client shows of the running turn is what the room's projection
    holds.  Take the room after any operations, give a client the snapshot of its
    projection, and then let it apply every transient event of the operations that
    follow (with the durable event of a completed item before its transient one, as
    the coordinator sends them).  Its partial output is then exactly the
    projection's, item for item, with the same revision and the same truncation,
    within the same one MiB budget: two separately written accounts of the budget
    never come apart.  The hypotheses are that deltas are not empty and that the 64
    bit revision does not wrap. *)
Theorem view_mirrors_projection before after watermark active :
  let p := run NewProjection before in
  Forall nonempty_delta after -> room_left p (all_emitted p after) ->
  let v := client_run p (view_snapshot (snapshot_of p watermark active)) after in
  let q := run p after in
  vw_partial v = live_texts (items q) /\ vw_truncated v = truncated q /\ vw_revision v = revision q
  /\ vw_used v = texts_cost (live_texts (items q)) /\ vw_used v <= Budget.
Proof.
  intros p N R v q. assert (W : wf p) by apply run_wf, NewProjection_wf.
  destruct (run_mirrors p _ after W N R (snapshot_mirrors p watermark active W)) as [Mr Mt Mp Mu]. fold v q in Mr, Mt, Mp, Mu.
  destruct (run_wf p after W) as [Wu Wb _]. fold q in Wu, Wb. rewrite Mp in Mu. split_and!; try done.
  rewrite Mu. etransitivity; [apply live_texts_cost|]. unfold Budget. lia.
Qed.

Definition demo_before : list op := [OpApply (demo_event "item-delta" "i" "he" None); OpApply (demo_event "item-delta" "j" "wor" None)].
Definition demo_after : list op :=
  [OpApply (demo_event "item-delta" "i" "llo" None); OpApply (demo_event "item-delta" "k" "!" None);
   OpApply (demo_event "item-completed" "i" "" (Some demo_item)); OpRemoveTurn "th" "u"; OpApply (demo_event "item-delta" "j" "ld" None)].
Lemma view_mirrors_projection_witness :
  let p := run NewProjection demo_before in
  let v := client_run p (view_snapshot (snapshot_of p 0 "t")) demo_after in
  vw_partial v = live_texts (items (run p demo_after)) /\ vw_partial v !! ("th", "t", "j") = Some "world"
  /\ vw_partial v !! ("th", "t", "i") = None.
Proof.
  intros p v. split_and!; [|by vm_compute|by vm_compute].
  eapply (view_mirrors_projection demo_before demo_after 0 "t"); [by repeat constructor|by split; vm_compute].
Defined.
