(* ===== verification/TerminalPrint.v ===== *)
(** * What the client prints is safe to print

    Nothing that comes from the room reaches the terminal as a control character:
    the text of an event, of partial output or of an item goes through [SafeText]. *)
From S2P Require Import Prelude GoStrings Json JsonFacts StrictFacts RoomTypes TerminalText TerminalView.

(** ** Runes and their encodings *)

Definition scalar (z : Z) : Prop := 0 <= z < 0xD800 \/ 0xE000 <= z < 0x110000.
(** The bits of a rune, six by six. *)
Lemma split2 z : z = 64 * (z / 64) + z mod 64 /\ 0 <= z mod 64 < 64.
Proof. split; [apply Z.div_mod; lia|apply Z.mod_pos_bound; lia]. Qed.
Lemma split3 z : z = 4096 * (z / 4096) + 64 * (z / 64 mod 64) + z mod 64 /\ 0 <= z / 64 mod 64 < 64 /\ 0 <= z mod 64 < 64.
Proof.
  destruct (split2 z) as [E1 B1]. destruct (split2 (z / 64)) as [E2 B2].
  rewrite Z.div_div in E2 by lia. change (64 * 64) with 4096 in E2. split_and!; lia.
Qed.
Lemma split4 z : z = 262144 * (z / 262144) + 4096 * (z / 4096 mod 64) + 64 * (z / 64 mod 64) + z mod 64
  /\ 0 <= z / 4096 mod 64 < 64 /\ 0 <= z / 64 mod 64 < 64 /\ 0 <= z mod 64 < 64.
Proof.
  destruct (split3 z) as (E1 & B1 & B2). destruct (split2 (z / 4096)) as [E2 B3].
  rewrite Z.div_div in E2 by lia. change (4096 * 64) with 262144 in E2. split_and!; lia.
Qed.
Inductive encoded : Z -> list Z -> Prop :=
| enc1 z : 0 <= z < 0x80 -> encoded z [z]
| enc2 z a b : z = 64 * a + b -> 0 <= b < 64 -> 0x80 <= z < 0x800 -> encoded z [0xC0 + a; 0x80 + b]
| enc3 z a b c : z = 4096 * a + 64 * b + c -> 0 <= b < 64 -> 0 <= c < 64 -> 0x800 <= z < 0x10000 -> (z < 0xD800 \/ 0xE000 <= z) ->
    encoded z [0xE0 + a; 0x80 + b; 0x80 + c]
| enc4 z a b c d : z = 262144 * a + 4096 * b + 64 * c + d -> 0 <= b < 64 -> 0 <= c < 64 -> 0 <= d < 64 -> 0x10000 <= z < 0x110000 ->
    encoded z [0xF0 + a; 0x80 + b; 0x80 + c; 0x80 + d].
Lemma encode_encoded z : scalar z -> exists l, encoded z l /\ encode_rune z = of_bytes (chr <$> l).
Proof.
  intros S. unfold scalar in S. unfold encode_rune. destruct (Z.ltb_spec z 0x80); [|destruct (Z.ltb_spec z 0x800); [|destruct (Z.ltb_spec z 0x10000)]].
  - exists [z]. split; [constructor; lia|done].
  - destruct (split2 z). eexists. split; [|done]. apply enc2; lia.
  - destruct (split3 z) as (? & ? & ?). eexists. split; [|done]. apply enc3; lia.
  - destruct (split4 z) as (? & ? & ? & ?). eexists. split; [|done]. apply enc4; lia.
Qed.
Ltac cells := repeat match goal with |- context [code (chr ?z)] => rewrite (code_chr z) by lia end.
Ltac test b v := replace b with v by (unfold is_cont, between; cells; lia).
Lemma encoded_width z l w : encoded z l -> utf8_width (of_bytes (chr <$> l) +:+ w) = Some (length l).
Proof.
  intros H. destruct H; cbn [of_bytes fmap list_fmap length]; rewrite ?sapp_cons, ?sapp_empty; unfold utf8_width.
  - by test (code (chr z) <? 0x80) true.
  - test (code (chr (0xC0 + a)) <? 0x80) false. test (between 0xC2 0xDF (code (chr (0xC0 + a)))) true. by test (is_cont (chr (0x80 + b))) true.
  - test (code (chr (0xE0 + a)) <? 0x80) false. test (between 0xC2 0xDF (code (chr (0xE0 + a)))) false.
    test (between 0xE0 0xEF (code (chr (0xE0 + a)))) true. test (is_cont (chr (0x80 + c))) true. cells. rewrite andb_true_r.
    destruct (Z.eqb_spec (0xE0 + a) 0xE0), (Z.eqb_spec (0xE0 + a) 0xED); unfold between; by replace (_ && _) with true by lia.
  - test (code (chr (0xF0 + a)) <? 0x80) false. test (between 0xC2 0xDF (code (chr (0xF0 + a)))) false.
    test (between 0xE0 0xEF (code (chr (0xF0 + a)))) false. test (between 0xF0 0xF4 (code (chr (0xF0 + a)))) true.
    test (is_cont (chr (0x80 + c))) true. test (is_cont (chr (0x80 + d))) true. cells. rewrite !andb_true_r.
    destruct (Z.eqb_spec (0xF0 + a) 0xF0), (Z.eqb_spec (0xF0 + a) 0xF4); unfold between; by replace (_ && _) with true by lia.
Qed.
Lemma encoded_value z l : encoded z l -> rune_value (of_bytes (chr <$> l)) = z.
Proof. intros H. destruct H; unfold rune_value; cbn [of_bytes fmap list_fmap bytes]; cells; lia. Qed.
Lemma encode_length z l : encoded z l -> String.length (of_bytes (chr <$> l)) = length l.
Proof. intros H. by destruct H. Qed.

Lemma width_encoded s n : utf8_width s = Some n -> encoded (rune_value (take_bytes n s)) (code <$> bytes (take_bytes n s)) /\ String.length (take_bytes n s) = n.
Proof.
  intros H. destruct s as [|c r]; [done|]. pose proof (code_bounds c) as Rc. unfold utf8_width in H. destruct (Z.ltb_spec (code c) 0x80).
  { injection H as <-. cbn. destruct r; (split; [constructor; lia|done]). }
  destruct r as [|b r]; [done|]. destruct (between 0xC2 0xDF (code c)) eqn:E2.
  { destruct (is_cont b) eqn:Eb; [|done]. injection H as <-. apply between_bounds in E2. apply cont_bounds in Eb. cbn. split; [|by destruct r].
    replace (take_bytes 0 r) with "" by (by destruct r). unfold rune_value. cbn.
    replace [code c; code b] with [0xC0 + (code c - 0xC0); 0x80 + (code b - 0x80)] by (repeat f_equal; lia). apply enc2; lia. }
  destruct r as [|d r]; [done|]. destruct (between 0xE0 0xEF (code c)) eqn:E3.
  { destruct (_ && is_cont d) eqn:Ed; [|done]. injection H as <-. apply between_bounds in E3. apply andb_prop in Ed as [Ey%between_bounds Ed%cont_bounds].
    cbn. replace (take_bytes 0 r) with "" by (by destruct r). split; [|done]. unfold rune_value. cbn.
    replace [code c; code b; code d] with [0xE0 + (code c - 0xE0); 0x80 + (code b - 0x80); 0x80 + (code d - 0x80)] by (repeat f_equal; lia).
    destruct (Z.eqb_spec (code c) 0xE0), (Z.eqb_spec (code c) 0xED); apply enc3; lia. }
  destruct r as [|e r]; [done|]. destruct (between 0xF0 0xF4 (code c)) eqn:E4; [|done]. destruct (_ && is_cont e) eqn:Ee; [|done]. injection H as <-.
  apply between_bounds in E4. apply andb_prop in Ee as [[Ey%between_bounds Ed%cont_bounds]%andb_prop Ee%cont_bounds].
  cbn. replace (take_bytes 0 r) with "" by (by destruct r). split; [|done]. unfold rune_value. cbn.
  replace [code c; code b; code d; code e] with [0xF0 + (code c - 0xF0); 0x80 + (code b - 0x80); 0x80 + (code d - 0x80); 0x80 + (code e - 0x80)] by (repeat f_equal; lia).
  destruct (Z.eqb_spec (code c) 0xF0), (Z.eqb_spec (code c) 0xF4); apply enc4; lia.
Qed.
Lemma encoded_length z l : encoded z l -> (0 < length l)%nat.
Proof. intros H. by destruct H; cbn; lia. Qed.
Lemma length_bytes s : length (bytes s) = String.length s.
Proof. induction s; cbn; congruence. Qed.
Lemma width_pos s n : utf8_width s = Some n -> (0 < n)%nat.
Proof. intros [H <-]%width_encoded. apply encoded_length in H. by rewrite length_fmap, length_bytes in H. Qed.
Lemma encoded_scalar z l : encoded z l -> scalar z.
Proof. unfold scalar. intros H. destruct H; lia. Qed.

Lemma runes_from_enough f f' s : (String.length s <= f)%nat -> (String.length s <= f')%nat -> runes_from f s = runes_from f' s.
Proof.
  revert f' s. induction f as [|f IH]; intros f' [|c s]; try by destruct f'; cbn; lia || done. destruct f' as [|f']; cbn [String.length]; [lia|]. intros H H'.
  cbn [runes_from]. destruct (utf8_width (String c s)) as [n|] eqn:E; [apply width_pos in E|]; f_equal; apply IH; rewrite drop_bytes_length; cbn [String.length]; lia.
Qed.
Lemma runes_scalar s : Forall scalar (runes s).
Proof.
  unfold runes. generalize (String.length s). intros f. revert s. induction f as [|f IH]; intros s; [constructor|]. destruct s as [|c s]; [constructor|]. cbn [runes_from].
  destruct (utf8_width (String c s)) as [n|] eqn:E; constructor; try apply IH; [|unfold scalar; lia]. apply width_encoded in E as [E _]. by eapply encoded_scalar.
Qed.
Lemma runes_encode z w : scalar z -> runes (encode_rune z +:+ w) = z :: runes w.
Proof.
  intros (l & El & ->)%encode_encoded. pose proof (encode_length z l El) as L. pose proof (encoded_length z l El) as P. pose proof (encoded_width z l w El) as Wd.
  unfold runes at 1. rewrite sapp_length, L. destruct (of_bytes (chr <$> l)) as [|c t] eqn:Et; [cbn in L; lia|]. destruct (length l + _)%nat as [|f] eqn:Ef; [lia|].
  rewrite <- Et in *. destruct (of_bytes (chr <$> l) +:+ w) as [|c' t'] eqn:Ew; [rewrite Et in Ew; done|]. cbn [runes_from]. rewrite <- Ew in *. rewrite Wd, <- L.
  rewrite take_bytes_app, drop_bytes_app, (encoded_value z l El). f_equal. apply runes_from_enough; lia.
Qed.
Lemma encode_low c : code c < 128 -> encode_rune (code c) = String c "".
Proof. intros H. unfold encode_rune. rewrite (proj2 (Z.ltb_lt _ _) H). simpl. by rewrite chr_code. Qed.
Lemma runes_low t w : Forall (fun c => code c < 128) (bytes t) -> runes (t +:+ w) = (code <$> bytes t) ++ runes w.
Proof.
  induction t as [|c t IH]; intros F; [done|]. cbn [bytes] in F. apply Forall_cons in F as [Hc F]. rewrite sapp_cons.
  change (String c (t +:+ w)) with (String c "" +:+ (t +:+ w)). rewrite <- encode_low, runes_encode by (done || (pose proof (code_bounds c); unfold scalar; lia)).
  cbn. by rewrite IH.
Qed.

(** ** Safe text *)

Definition safe (r : Z) : Prop := unsafe_rune r = false.
(** Only runes that neither control nor format the terminal, but for the end of a
    line and the tab. *)
Definition printable (s : string) : Prop := Forall safe (runes s).
Lemma safe_ascii z : 32 <= z < 127 \/ z = 10 \/ z = 9 -> safe z.
Proof.
  intros H. unfold safe, unsafe_rune. destruct H as [H|[-> | ->]]; [|done..].
  assert (IsControl z = false) as -> by (unfold IsControl, between; lia).
  assert (IsFormat z = false) as ->; [|done]. unfold IsFormat. cbn [existsb fst snd]. unfold between. lia.
Qed.
(** Plain ASCII. *)
Definition plain_char (c : ascii) : Prop := 32 <= code c < 127 \/ code c = 10 \/ code c = 9.
Lemma plain_low t : Forall plain_char (bytes t) -> Forall (fun c => code c < 128) (bytes t).
Proof. intros F. eapply Forall_impl; [exact F|]. intros c. unfold plain_char. lia. Qed.
Lemma plain_then t w : Forall plain_char (bytes t) -> printable w -> printable (t +:+ w).
Proof.
  intros F W. unfold printable. rewrite runes_low by (by apply plain_low). apply Forall_app. split; [|done].
  apply Forall_fmap. eapply Forall_impl; [exact F|]. intros c. apply safe_ascii.
Qed.
Lemma plain_text t : forallb (fun c => between 32 126 (code c) || (code c =? 10) || (code c =? 9)) (bytes t) = true -> Forall plain_char (bytes t).
Proof.
  intros H. apply List.Forall_forall. intros c Hc. rewrite forallb_forall in H. specialize (H c Hc). unfold plain_char, between in *. lia.
Qed.
Lemma hex_digits_plain f z acc : 0 <= z -> Forall plain_char (bytes acc) -> Forall plain_char (bytes (hex_digits f z acc)).
Proof.
  revert z acc. induction f as [|f IH]; intros z acc Hz F; cbn [hex_digits]; [done|].
  assert (F' : Forall plain_char (bytes (String (hex_digit (z mod 16)) acc))).
  { cbn. constructor; [|done]. destruct (hex_digit_plain (z mod 16)) as [B _]; [apply Z.mod_pos_bound; lia|]. unfold plain_char. lia. }
  destruct (z <? 16); [done|]. apply IH; [apply Z.div_pos; lia|done].
Qed.
Lemma plain_app a b : Forall plain_char (bytes a) -> Forall plain_char (bytes b) -> Forall plain_char (bytes (a +:+ b)).
Proof. intros. rewrite bytes_app. by apply Forall_app. Qed.
Lemma zeros_plain n : Forall plain_char (bytes (GoStrings.zeros n)).
Proof. induction n as [|n IH]; [constructor|]. unfold GoStrings.zeros in *. cbn [replicate concat_strings]. apply plain_app; [|done]. by apply plain_text. Qed.
Lemma escape_plain r : 0 <= r -> Forall plain_char (bytes ("\u{" +:+ hex_min4 r +:+ "}")).
Proof.
  intros Hr. repeat apply plain_app; [by apply plain_text| | |by apply plain_text].
  - apply zeros_plain.
  - by apply hex_digits_plain.
Qed.
Lemma safe_then r w : scalar r -> printable w -> printable (safe_rune r +:+ w).
Proof.
  intros S W. unfold safe_rune. destruct (unsafe_rune r) eqn:U.
  - apply plain_then; [|done]. apply escape_plain. unfold scalar in S. lia.
  - unfold printable. rewrite runes_encode by done. by constructor.
Qed.
Lemma safe_text_then s w : printable w -> printable (SafeText s +:+ w).
Proof.
  intros W. unfold SafeText. pose proof (runes_scalar s) as S. induction S as [|r l Hr Hl IH]; cbn [fmap list_fmap concat_strings]; [done|].
  rewrite sapp_assoc. by apply safe_then.
Qed.
Lemma printable_nil : printable "".
Proof. constructor. Qed.
Lemma safe_text_printable s : printable (SafeText s).
Proof. rewrite <- (sapp_nil (SafeText s)). apply safe_text_then, printable_nil. Qed.
Lemma plain_printable t : Forall plain_char (bytes t) -> printable t.
Proof. intros F. rewrite <- (sapp_nil t). by apply plain_then; [|apply printable_nil]. Qed.
Lemma itoa_plain z : Forall plain_char (bytes (itoa z)).
Proof.
  assert (N : forall z, 0 <= z -> Forall plain_char (bytes (itoa z))).
  { intros n (c & d & -> & Hc & Hd & _)%itoa_nat. unfold str_forallb in Hd. rewrite forallb_forall in Hd. unfold is_digit, between in *.
    constructor; [unfold plain_char; lia|]. apply List.Forall_forall. intros x Hx. specialize (Hd x Hx). unfold plain_char. lia. }
  destruct (Z.lt_ge_cases z 0) as [Hz|Hz]; [|by apply N]. rewrite itoa_neg by done. cbn [bytes]. constructor; [by left; vm_compute|]. apply N. lia.
Qed.
Lemma itoa_then z w : printable w -> printable (itoa z +:+ w).
Proof. apply plain_then, itoa_plain. Qed.
(** A line of literals, numbers and safe texts. *)
Ltac printable_line := repeat first
  [ exact safe_text_printable | apply safe_text_printable | apply safe_text_then | apply itoa_then
  | apply plain_then; [by apply plain_text; vm_compute|] | by apply plain_printable, plain_text; vm_compute ].
Lemma event_line_printable e : printable (event_line e).
Proof. unfold event_line. printable_line. Qed.
Lemma partial_line_printable i t : printable (partial_line i t).
Proof. unfold partial_line. printable_line. Qed.
Lemma truncated_line_printable : printable truncated_line.
Proof. by apply plain_printable, plain_text; vm_compute. Qed.
Lemma transient_line_printable v t line : (view_transient v t).2 = Some line -> printable line.
Proof.
  unfold view_transient. repeat case_match; cbn; intros [= <-]; apply truncated_line_printable || apply partial_line_printable.
Qed.

(** A text that is safe already is shown as it is. *)
Lemma encoded_inj z l l' : encoded z l -> encoded z l' -> l = l'.
Proof. intros H H'. destruct H, H'; try lia; repeat f_equal; lia. Qed.
Lemma encode_bytes z t : encoded z (code <$> bytes t) -> encode_rune z = t.
Proof.
  intros H. destruct (encode_encoded z (encoded_scalar _ _ H)) as (l & Hl & ->). rewrite (encoded_inj _ _ _ Hl H). rewrite <- list_fmap_compose.
  rewrite <- (of_bytes_bytes t) at 2. f_equal. clear. induction (bytes t) as [|c r IH]; [done|]. cbn. by rewrite IH, chr_code.
Qed.
Lemma runes_valid s : utf8_valid s = true -> concat_strings (encode_rune <$> runes s) = s.
Proof.
  unfold utf8_valid, runes. generalize (String.length s). intros f. revert s. induction f as [|f IH]; intros [|c s] V; try done. cbn [utf8_valid_fuel runes_from] in *.
  destruct (utf8_width (String c s)) as [n|] eqn:E; [|done]. cbn [fmap list_fmap concat_strings].
  rewrite IH by done. apply width_encoded in E as [E _]. rewrite (encode_bytes _ _ E). apply take_drop_bytes.
Qed.
Lemma safe_text_same s : utf8_valid s = true -> printable s -> SafeText s = s.
Proof.
  intros V P. rewrite <- (runes_valid s V) at 2. unfold SafeText. f_equal. apply list_fmap_ext. intros i r Hr.
  unfold printable in P. rewrite Forall_lookup in P. unfold safe_rune. by rewrite (P i r Hr).
Qed.
