(* ===== verification/Terminal.v ===== *)
(** * The terminal client ([internal/client/client.go])

    A client keeps a connection to a room: it connects, says hello with the last
    event it has applied, applies the events it is sent, sends what its user types
    and the browser window submits, and starts again when the connection is lost.
    A round of the loop of [session] is a function of what the [select] takes; what
    the rest of the world answers (clock, random bytes, callbacks, the cursor store)
    depends on how often it was asked. *)
From S2P Require Import Prelude GoStrings Json RoomTypes Projection StrictJson GoDecode Wire Messages.
From S2P Require Import TerminalText TerminalView.

(** ** State *)

(** [Deps]: which callbacks there are. *)
Record Deps :=
  { dp_ReadOnly : bool; dp_OnAnswer : bool; dp_OnConnection : bool; dp_OnRoom : bool; dp_OnProject : bool; dp_OnActiveTurn : bool;
    dp_OnAgents : bool; dp_OnQueue : bool; dp_OnEvent : bool; dp_OnMembers : bool }.
Record outside :=
  { ou_random : nat -> string;                   (* the bytes a read of random bytes can get *)
    ou_clock : nat -> Z;
    ou_print : nat -> option string;             (* the error of a write to the output *)
    ou_handler : nat -> option string;           (* of [OnEvent] and [OnAnswer] *)
    ou_save : nat -> Cursor -> option string }.  (* of [Cursors.Save] *)
(** What the client does that others see. *)
Inductive act :=
| AcPrint (text : string)
| AcDiag (text : string)
| AcRefuse (e : terr)                            (* a line that is no request *)
| AcLost (e : terr)                              (* the connection was lost *)
| AcSend (e : Envelope)                          (* queued for the writer *)
| AcAnswered (e : Envelope)                      (* a response or an error arrived *)
| AcApply (e : RoomEvent)                        (* a durable event was shown *)
| AcEvent (e : RoomEvent) (ok : bool)
| AcAnswer (e : RoomEvent) (text : string) (ok : bool)
| AcSave (c : Cursor) (ok : bool)
| AcResolve (waiter : nat) (e : option terr)
| AcAgents (body : string) | AcQueue (body : string) | AcMembers (body : string)
| AcConnection (up : bool) | AcRoom (id : string) | AcProject (root : string) | AcActiveTurn (turn : string).

(** Requests that were not answered, with their order and who waits for them. *)
Record book := mkBook { bk_pending : gmap string Envelope; bk_order : list string; bk_replies : gmap string (list nat) }.
(** What a session knows of its conversation. *)
Record talk := mkTalk
  { tk_hello : string; tk_lookups : gmap string string; tk_agents : bool; tk_welcomed : bool; tk_ready : bool;
    tk_lastFrame : Z; tk_lastSend : Z }.
(** The queue of the writer, the connection and the error the writer ended with. *)
Record link := mkLink { lk_writes : list Envelope; lk_conn : conn; lk_source : source; lk_writeErr : option perr }.
Record client := mkClient
  { cl_calls : nat; cl_cursor : Cursor; cl_probe : bool; cl_view : view; cl_book : book; cl_talk : talk; cl_link : link;
    cl_trace : list act }.

Definition set_calls (n : nat) (c : client) : client :=
  mkClient n (cl_cursor c) (cl_probe c) (cl_view c) (cl_book c) (cl_talk c) (cl_link c) (cl_trace c).
Definition set_cursor (x : Cursor) (c : client) : client :=
  mkClient (cl_calls c) x (cl_probe c) (cl_view c) (cl_book c) (cl_talk c) (cl_link c) (cl_trace c).
Definition set_probe (b : bool) (c : client) : client :=
  mkClient (cl_calls c) (cl_cursor c) b (cl_view c) (cl_book c) (cl_talk c) (cl_link c) (cl_trace c).
Definition set_view (v : view) (c : client) : client :=
  mkClient (cl_calls c) (cl_cursor c) (cl_probe c) v (cl_book c) (cl_talk c) (cl_link c) (cl_trace c).
Definition set_book (b : book) (c : client) : client :=
  mkClient (cl_calls c) (cl_cursor c) (cl_probe c) (cl_view c) b (cl_talk c) (cl_link c) (cl_trace c).
Definition set_talk (t : talk) (c : client) : client :=
  mkClient (cl_calls c) (cl_cursor c) (cl_probe c) (cl_view c) (cl_book c) t (cl_link c) (cl_trace c).
Definition set_link (l : link) (c : client) : client :=
  mkClient (cl_calls c) (cl_cursor c) (cl_probe c) (cl_view c) (cl_book c) (cl_talk c) l (cl_trace c).
Definition record_act (a : act) (c : client) : client :=
  mkClient (cl_calls c) (cl_cursor c) (cl_probe c) (cl_view c) (cl_book c) (cl_talk c) (cl_link c) (cl_trace c ++ [a]).

Definition with_lookup (id kind : string) (t : talk) : talk :=
  mkTalk (tk_hello t) (<[id := kind]> (tk_lookups t)) (tk_agents t) (tk_welcomed t) (tk_ready t) (tk_lastFrame t) (tk_lastSend t).
Definition without_lookup (id : string) (t : talk) : talk :=
  mkTalk (tk_hello t) (delete id (tk_lookups t)) (tk_agents t) (tk_welcomed t) (tk_ready t) (tk_lastFrame t) (tk_lastSend t).
Definition without_agents (t : talk) : talk :=
  mkTalk (tk_hello t) (tk_lookups t) false (tk_welcomed t) (tk_ready t) (tk_lastFrame t) (tk_lastSend t).
Definition with_welcome (t : talk) : talk :=
  mkTalk (tk_hello t) (tk_lookups t) (tk_agents t) true (tk_ready t) (tk_lastFrame t) (tk_lastSend t).
Definition with_ready (t : talk) : talk :=
  mkTalk (tk_hello t) (tk_lookups t) (tk_agents t) (tk_welcomed t) true (tk_lastFrame t) (tk_lastSend t).
Definition with_lastFrame (z : Z) (t : talk) : talk :=
  mkTalk (tk_hello t) (tk_lookups t) (tk_agents t) (tk_welcomed t) (tk_ready t) z (tk_lastSend t).
Definition with_lastSend (z : Z) (t : talk) : talk :=
  mkTalk (tk_hello t) (tk_lookups t) (tk_agents t) (tk_welcomed t) (tk_ready t) (tk_lastFrame t) z.

(** ** Requests that wait for an answer *)

Definition remove_first (id : string) : list string -> list string :=
  fix go l := match l with [] => [] | x :: r => if String.eqb x id then r else x :: go r end.
Definition pend (e : Envelope) (b : book) : book := mkBook (<[en_ID e := e]> (bk_pending b)) (bk_order b ++ [en_ID e]) (bk_replies b).
Definition answered (id : string) (b : book) : book := mkBook (delete id (bk_pending b)) (remove_first id (bk_order b)) (bk_replies b).
Definition waiters (id : string) (b : book) : list nat := default [] (bk_replies b !! id).
Definition forget_waiters (id : string) (b : book) : book := mkBook (bk_pending b) (bk_order b) (delete id (bk_replies b)).
Definition maxPending : nat := 128.
Definition maxRetries : nat := 32.
Definition maxWrites : nat := 128.
(** A submission that was read: what became of the book, and the refusal. *)
Definition accept_submission (e : Envelope) (waiter : nat) (b : book) : book * option terr :=
  let retry b :=
    let b := mkBook (<[en_ID e := e]> (bk_pending b)) (bk_order b) (bk_replies b) in
    if Nat.leb maxRetries (length (waiters (en_ID e) b)) then (b, Some (TText "too many concurrent retries"))
    else (mkBook (bk_pending b) (bk_order b) (<[en_ID e := waiters (en_ID e) b ++ [waiter]]> (bk_replies b)), None) in
  match bk_pending b !! en_ID e with
  | Some old =>
      if negb (String.eqb (en_Body old) (en_Body e)) then (b, Some (TText "message ID already used for different text")) else retry b
  | None =>
      if Nat.leb maxPending (size (bk_pending b)) then (b, Some (TText "too many pending messages"))
      else retry (mkBook (bk_pending b) (bk_order b ++ [en_ID e]) (bk_replies b))
  end.

(** [strings.Contains] *)
Fixpoint str_contains (sub s : string) : bool :=
  HasPrefix s sub || match s with "" => false | String _ r => str_contains sub r end.
Definition agent_key : string := bq "`agentId`".
Definition names_agent (e : RoomEvent) : bool := String.eqb (re_Kind e) "item/completed" && str_contains agent_key (re_Payload e).

(** Types of answers that are handed on. *)
Definition agent_type : gotype :=
  GoStruct [("id", GoString); ("name", GoString); ("provider", GoString); ("description", GoString); ("status", GoString)].
Definition member_type : gotype := GoStruct [("UID", GoInt 64); ("Name", GoString)].
Definition binding_type : gotype := GoStruct [("MessageID", GoString); ("TurnID", GoString); ("State", GoString)].
Definition queued_type : gotype :=
  GoStruct [("Input", GoStruct [("taskId", GoInt 64); ("ClientMessageID", GoString); ("Text", GoString)]); ("Actor", member_type);
            ("AcceptedSeq", GoInt 64)].
Definition item_type : gotype := GoStruct [("ThreadID", GoString); ("TurnID", GoString); ("ItemID", GoString); ("Partial", GoString)].
Definition room_snapshot_type : gotype :=
  GoStruct [("agents", GoSlice agent_type); ("ProjectionTruncated", GoBool); ("Status", GoString); ("ThreadID", GoString);
            ("Active", GoPtr binding_type); ("Queue", GoSlice queued_type); ("ProjectionRevision", GoUint 64);
            ("LiveItems", GoSlice item_type); ("LatestSeq", GoInt 64)].

Section client.
Context (dp : Deps) (env : outside).
(** A step of the loop: [Ok] goes on, [Err] ends the session. *)
Abbreviation M A := (Proc client (result terr A)).

(** ** Primitives *)

Definition ask {A} (f : nat -> A) : M A := fun c => (set_calls (S (cl_calls c)) c, Ok (f (cl_calls c))).
Definition get {A} (f : client -> A) : M A := fun c => (c, Ok (f c)).
Definition change (f : client -> client) : M unit := fun c => (f c, Ok tt).
Definition ok {A} (a : A) : M A := fun c => (c, Ok a).
Definition stop {A} (e : terr) : M A := fun c => (c, Err e).
Definition act_ (a : act) : M unit := change (record_act a).
Definition on_talk (f : talk -> talk) : M unit := change (fun c => set_talk (f (cl_talk c)) c).
Definition on_book (f : book -> book) : M unit := change (fun c => set_book (f (cl_book c)) c).
(** [if err := m; err != nil { return fatal(err) }] *)
Definition or_fatal {A} (m : M A) : M A := fun c =>
  match m c with (c, Ok a) => (c, Ok a) | (c, Err e) => (c, Err (TFatal e)) end.
Definition lift {A} (r : result terr A) : M A := fun c => (c, r).
Definition callback (present : bool) (a : act) : M unit := if present then act_ a else ok tt.
Definition print (text : string) : M unit :=
  let! _ := act_ (AcPrint text) in
  let! err := ask (ou_print env) in
  match err with Some e => stop (TText e) | None => ok tt end.
(** [fmt.Fprintln(out, ..)] whose error is dropped. *)
Definition print_only (text : string) : M unit := act_ (AcPrint text).
Definition save_cursor : M unit :=
  let! c := get cl_cursor in
  let! err := ask (fun n => ou_save env n c) in
  match err with
  | Some e => let! _ := act_ (AcSave c false) in stop (TText e)
  | None => act_ (AcSave c true)
  end.
(** [io.ReadFull] of [n] random bytes *)
Definition read_random (n : nat) : M string :=
  let! s := ask (ou_random env) in
  if Nat.leb n (String.length s) then ok (take_bytes n s)
  else stop (TProto (if String.eqb s "" then PEOF else PUnexpectedEOF)).
Definition NewID : M string := let! b := read_random 16 in ok (hex_EncodeToString b).
Definition request (method : string) (body : json) : M Envelope :=
  let! id := NewID in
  ok {| en_Version := 1; en_Kind := KindRequest; en_ID := id; en_Method := method; en_Requires := []; en_Seq := None; en_Body := marshal body |}.
Definition send (e : Envelope) : M unit := fun c =>
  let l := cl_link c in
  if Nat.ltb (length (lk_writes l)) maxWrites
  then (record_act (AcSend e) (set_link (mkLink (lk_writes l ++ [e]) (lk_conn l) (lk_source l) (lk_writeErr l)) c), Ok tt)
  else (c, Err (TText "outbound queue full")).
Definition now : M Z := ask (ou_clock env).
(** A request whose answer is looked up by its id. *)
Definition look_up (kind : string) : M unit :=
  let! e := request kind empty_json in
  let! _ := on_talk (with_lookup (en_ID e) kind) in
  send e.

(** ** Commands *)

(** [Command.Envelope]; a command that is no mutation has an empty body. *)
Definition command_body (cmd : Command) (active : string) : M (string * json) :=
  if negb (is_mutation (cm_Kind cmd)) then ok (CommandKind_string (cm_Kind cmd), empty_json) else
  let! id := NewID in
  match cm_Kind cmd with
  | CommandPrompt | CommandNote =>
      ok (CommandKind_string (cm_Kind cmd),
          submit_request_json {| sq_TaskID := 0; sq_ClientMessageID := id; sq_Text := cm_Text cmd |})
  | CommandSteer =>
      ok ("steer", steer_request_json {| st_ClientMessageID := id; st_ExpectedTurnID := active; st_Text := cm_Text cmd |})
  | CommandCancel => ok ("cancel", cancel_request_json {| ca_ClientMessageID := id; ca_ExpectedTurnID := active |})
  | CommandRecoverContinue =>
      let! replacement := NewID in
      ok ("recover", recover_request_json id (cm_TargetMessageID cmd) "continue" replacement (cm_Text cmd))
  | k => ok ("recover", recover_request_json id (cm_TargetMessageID cmd) (CommandKind_string k) "" (cm_Text cmd))
  end.
Definition Command_Envelope (cmd : Command) (active : string) : M (Envelope * bool) :=
  let mutation := is_mutation (cm_Kind cmd) in
  if (bool_decide (cm_Kind cmd = CommandSteer) || bool_decide (cm_Kind cmd = CommandCancel)) && String.eqb active ""
  then stop (TText "no active turn displayed") else
  let! mb := command_body cmd active in
  let! e := request mb.1 mb.2 in
  if mutation && (MaximumEncodedMutation <? len (en_Body e))
  then stop (TText "encoded mutation exceeds 64 KiB; shorten the text") else ok (e, mutation).
(** A refusal is printed, the loop goes on. *)
Definition refusing {A} (m : M A) (k : A -> M unit) : M unit := fun c =>
  match m c with (c, Ok a) => k a c | (c, Err e) => (record_act (AcRefuse e) c, Ok tt) end.
Definition touch : M unit := let! t := now in on_talk (with_lastSend t).
Definition on_line (line : string) : M unit :=
  if dp_ReadOnly dp then act_ (AcDiag "Answer window is read-only; submit work from the original terminal.") else
  match ParseCommand line with
  | Err e => act_ (AcRefuse e)
  | Ok cmd =>
      let! active := get (fun c => vw_active (cl_view c)) in
      refusing (Command_Envelope cmd active) (fun '(e, mutation) =>
        let! _ := (if mutation : bool then on_book (pend e) else ok tt) in
        let! _ := (if String.eqb (en_Method e) "members" then on_talk (with_lookup (en_ID e) "members") else ok tt) in
        let! _ := send e in
        touch)
  end.
(** [expired] is the error of the submission's context. *)
Definition on_submission (s : Submission) (expired : option string) : M unit :=
  match expired, submission_envelope s with
  | Some e, _ => act_ (AcResolve (sb_Result s) (Some (TText e)))
  | None, Err e => act_ (AcResolve (sb_Result s) (Some e))
  | None, Ok e =>
      let! b := get cl_book in
      let '(b, refusal) := accept_submission e (sb_Result s) b in
      let! _ := on_book (fun _ => b) in
      match refusal with
      | Some err => act_ (AcResolve (sb_Result s) (Some err))
      | None => let! _ := send e in touch
      end
  end.

(** ** Timers *)

Definition has_lookup (kind : string) (t : talk) : bool :=
  existsb (fun kv => String.eqb kv.2 kind) (map_to_list (tk_lookups t)).
(** Every three seconds. *)
Definition on_roster : M unit :=
  let! t := get cl_talk in
  if tk_ready t && tk_agents t && dp_OnAgents dp && negb (has_lookup "agents" t) then look_up "agents" else ok tt.
Definition liveness_ns : Z := 60 * second_ns.
Definition heartbeat_ns : Z := 20 * second_ns.
Definition unix_milli (t : Z) : Z := t / 1000000.
(** The timer of twenty seconds. *)
Definition on_timer : M unit :=
  let! t := now in
  let! k := get cl_talk in
  if liveness_ns <=? t - tk_lastFrame k then stop (TText "peer liveness timeout")
  else if tk_ready k && (heartbeat_ns <=? t - tk_lastSend k) then
    let! e := or_fatal (request "heartbeat" (heartbeat_json (unix_milli t))) in
    let! _ := send e in
    let! _ := on_talk (with_lastSend t) in
    if dp_OnMembers dp then
      let! e := or_fatal (request "members" empty_json) in
      let! _ := on_talk (with_lookup (en_ID e) "members") in
      send e
    else ok tt
  else ok tt.

(** ** Frames of the server *)

Definition move_cursor (room target : string) (seq : Z) : M unit :=
  change (set_cursor {| cu_Target := target; cu_RoomID := room; cu_LastAppliedSeq := seq |}).
Definition authority_line (owner : string) : string :=
  SafeText ("ALL AGENT ACTIONS RUN WITH " +:+ owner +:+ "'S FULL RUNTIME AUTHORITY; TRANSCRIPT ATTRIBUTION IS NOT TAMPER-PROOF.").
Definition welcome_text (w : Welcome) : string :=
  "Room: " +:+ SafeText (we_RoomName w) +:+ " (" +:+ SafeText (we_RoomID w) +:+ ")" +:+ nl +:+ "Project: " +:+ SafeText (we_ProjectRoot w) +:+ nl
  +:+ "Execution owner: " +:+ SafeText (we_ExecutionOwner w) +:+ nl +:+ "Active turn: " +:+ SafeText (we_ActiveTurnID w) +:+ nl
  +:+ authority_line (we_ExecutionOwner w) +:+ nl.
Definition empty_snapshot : RuntimeSnapshot :=
  {| rn_ProjectionTruncated := false; rn_ProjectionRevision := 0; rn_DurableWatermark := 0; rn_LiveItems := []; rn_ActiveTurnID := "" |}.
(** The first frame.  A room other than the cursor's, or a cursor beyond the room,
    starts over from the first event. *)
Definition on_welcome (target : string) (e : Envelope) : M unit :=
  let! c := get (fun c => c) in
  let cursor := cl_cursor c in
  if negb (bool_decide (en_Kind e = KindResponse) && String.eqb (en_Method e) "welcome" && String.eqb (en_ID e) (tk_hello (cl_talk c))) then
    let! _ := (if String.eqb (cu_RoomID cursor) "" then ok tt else change (set_probe true)) in
    stop (TText "expected welcome")
  else
  match DecodeWelcome (en_Body e) with
  | Err err => stop (TFatal (TProto err))
  | Ok w =>
      if negb (we_FullOwnerAccess w) then stop (TFatal (TText "server did not confirm fullOwnerAccess"))
      else if negb (String.eqb (cu_RoomID cursor) "") && negb (String.eqb (cu_RoomID cursor) (we_RoomID w)) then
        if negb (Nat.eqb (size (bk_pending (cl_book c))) 0) then stop (TFatal (TText "room changed with unacknowledged mutations")) else
        let! _ := move_cursor (we_RoomID w) target 0 in
        let! _ := change (set_probe false) in
        let! _ := change (fun c => set_view (view_snapshot empty_snapshot) c) in
        let! _ := or_fatal save_cursor in
        stop TProbe
      else
        let seq := if we_LatestSeq w <? cu_LastAppliedSeq cursor then 0 else cu_LastAppliedSeq cursor in
        let! _ := move_cursor (we_RoomID w) target seq in
        let! _ := change (fun c => set_view (with_active (we_ActiveTurnID w) (cl_view c)) c) in
        if cl_probe c then let! _ := change (set_probe false) in stop TProbe else
        let! _ := or_fatal save_cursor in
        let! _ := or_fatal (print (welcome_text w)) in
        let! _ := callback (dp_OnProject dp) (AcProject (we_ProjectRoot w)) in
        let! _ := on_talk with_welcome in
        callback (dp_OnRoom dp) (AcRoom (we_RoomID w))
  end.

Definition handed_on (present : bool) (ty : gotype) (body : string) (a : act) : M unit :=
  if present then if Unmarshals ty body then act_ a else stop ErrJSON else ok tt.
Fixpoint resolve_all (l : list nat) (err : option terr) : M unit :=
  match l with [] => ok tt | w :: r => let! _ := act_ (AcResolve w err) in resolve_all r err end.
Definition rejected : terr := TText "host rejected this message; check membership and session status".
Definition is_kind (k : Kind) (e : Envelope) : bool := bool_decide (en_Kind e = k).
(** A response or an error. *)
Definition on_answer (e : Envelope) : M unit :=
  let response := is_kind KindResponse e in
  let! _ := act_ (AcAnswered e) in
  let! _ := on_book (answered (en_ID e)) in
  let! _ := handed_on (String.eqb (en_Method e) "agents" && response && dp_OnAgents dp) (GoSlice agent_type) (en_Body e) (AcAgents (en_Body e)) in
  let! _ := handed_on (String.eqb (en_Method e) "queue" && response && dp_OnQueue dp) room_snapshot_type (en_Body e) (AcQueue (en_Body e)) in
  let! lookup := get (fun c => default "" (tk_lookups (cl_talk c) !! en_ID e)) in
  let! _ := on_talk (fun t => if String.eqb lookup "agents" && negb response then without_agents t else t) in
  let! _ := on_talk (without_lookup (en_ID e)) in
  let! l := get (fun c => waiters (en_ID e) (cl_book c)) in
  let! _ := resolve_all l (if response then None else Some rejected) in
  let! _ := on_book (forget_waiters (en_ID e)) in
  let! _ := handed_on ((String.eqb (en_Method e) "who" || String.eqb (en_Method e) "members") && response && dp_OnMembers dp)
              (GoSlice member_type) (en_Body e) (AcMembers (en_Body e)) in
  let! _ := (if String.eqb lookup "members" && negb response then
               let! f := or_fatal (request "who" empty_json) in
               let! _ := on_talk (with_lookup (en_ID f) "who") in
               send f
             else ok tt) in
  if String.eqb lookup "" && negb (String.eqb (en_Method e) "heartbeat") && negb (String.eqb (en_Method e) "ack")
  then print_only ("[" +:+ SafeText (en_Method e) +:+ "] " +:+ SafeText (en_Body e) +:+ nl) else ok tt.

(** Sends again what was not answered.  The ids that still wait are moved to the
    front of the same array: when a send fails, the rest of it is as it was. *)
Fixpoint resend (l kept : list string) : M unit :=
  match l with
  | [] => on_book (fun b => mkBook (bk_pending b) kept (bk_replies b))
  | id :: r =>
      let! found := get (fun c => bk_pending (cl_book c) !! id) in
      match found with
      | None => resend r kept
      | Some e =>
          let kept := kept ++ [id] in
          let! _ := (if String.eqb (en_Method e) "members" then on_talk (with_lookup (en_ID e) "members") else ok tt) in
          fun c =>
            match send e c with
            | (c, Ok _) => resend r kept c
            | (c, Err err) =>
                let b := cl_book c in
                (set_book (mkBook (bk_pending b) (kept ++ drop (length kept) (bk_order b)) (bk_replies b)) c, Err err)
            end
      end
  end.
Fixpoint print_items (l : list LiveItemSnapshot) : M unit :=
  match l with
  | [] => ok tt
  | i :: r => let! _ := print_only (partial_line (li_ItemID i) (li_Partial i)) in print_items r
  end.
(** The first snapshot of a session makes it ready: the client asks for what it
    shows, then sends again what waits. *)
Definition greet : M unit :=
  let! _ := on_talk with_ready in
  let! _ := (if dp_OnAgents dp then look_up "agents" else ok tt) in
  let! _ := (if dp_OnQueue dp then look_up "queue" else ok tt) in
  let! _ := callback (dp_OnConnection dp) (AcConnection true) in
  if dp_OnMembers dp then
    let! e := or_fatal (request "members" empty_json) in
    let! _ := on_talk (with_lookup (en_ID e) "members") in
    send e
  else ok tt.
Definition become_ready : M unit :=
  let! _ := greet in
  let! l := get (fun c => bk_order (cl_book c)) in
  resend l [].
Definition on_snapshot (e : Envelope) : M unit :=
  match DecodeRuntimeSnapshot (en_Body e) with
  | Err err => stop (TProto err)
  | Ok s =>
      let! _ := change (fun c => set_view (view_snapshot s) c) in
      let! v := get cl_view in
      let! _ := callback (dp_OnActiveTurn dp) (AcActiveTurn (vw_active v)) in
      let! _ := (if vw_truncated v then print_only truncated_line else ok tt) in
      let! _ := print_items (rn_LiveItems s) in
      let! t := get cl_talk in
      if tk_ready t then ok tt else become_ready
  end.

(** [projection.durable]: the view changes before the line is printed. *)
Definition show_event (d : RoomEvent) : M unit :=
  let! v := get cl_view in
  match view_durable v d with
  | None => stop ErrJSON
  | Some v =>
      let! _ := change (set_view v) in
      let! _ := act_ (AcApply d) in
      print (event_line d)
  end.
Definition handler (a : bool -> act) : M unit :=
  let! err := ask (ou_handler env) in
  match err with
  | Some e => let! _ := act_ (a false) in stop (TText e)
  | None => act_ (a true)
  end.
Definition on_durable (e : Envelope) (seq : Z) : M unit :=
  let! c := get cl_cursor in
  if seq <=? cu_LastAppliedSeq c then ok tt else
  match decode_event (en_Body e) with
  | None => stop ErrJSON
  | Some d =>
      if negb (Projection.u64 (re_Seq d) =? seq) then stop (TText "durable sequence mismatch") else
      let! _ := or_fatal (show_event d) in
      let! v := get cl_view in
      let! _ := callback (dp_OnActiveTurn dp) (AcActiveTurn (vw_active v)) in
      let! _ := (if dp_OnEvent dp then or_fatal (handler (AcEvent d)) else ok tt) in
      let! _ := (if dp_OnAnswer dp then
                   let! text := or_fatal (lift (answerText d)) in
                   if String.eqb text "" then ok tt else or_fatal (handler (AcAnswer d text))
                 else ok tt) in
      let! t := get cl_talk in
      let! _ := (if tk_ready t && tk_agents t && dp_OnAgents dp && (HasPrefix (re_Kind d) "turn/" || names_agent d)
                 then look_up "agents" else ok tt) in
      let! _ := (if tk_ready t && dp_OnQueue dp
                    && (String.eqb (re_Kind d) "message/accepted" || HasPrefix (re_Kind d) "turn/" || names_agent d)
                 then look_up "queue" else ok tt) in
      let! _ := move_cursor (cu_RoomID c) (cu_Target c) seq in
      let! _ := or_fatal save_cursor in
      let! ack := or_fatal (request "ack" (ack_json seq)) in
      if tk_ready t then send ack else ok tt
  end.
Definition on_transient (e : Envelope) : M unit :=
  match DecodeTransient (en_Body e) with
  | Err err => stop (TProto err)
  | Ok t =>
      let! v := get cl_view in
      let '(v, line) := view_transient v t in
      let! _ := change (set_view v) in
      match line with Some text => or_fatal (print text) | None => ok tt end
  end.
Definition on_frame (target : string) (e : Envelope) : M unit :=
  let! t := now in
  let! _ := on_talk (with_lastFrame t) in
  let! k := get cl_talk in
  if negb (tk_welcomed k) then on_welcome target e
  else if is_kind KindResponse e || is_kind KindError e then on_answer e
  else if negb (is_kind KindEvent e) then stop (TText "unexpected frame kind")
  else if String.eqb (en_Method e) "runtime-snapshot" then on_snapshot e
  else match en_Seq e with
       | Some seq => on_durable e seq
       | None => if negb (tk_ready k) then stop (TText "transient before snapshot") else on_transient e
       end.
(** What the reader delivers next. *)
Definition read_frame : M Envelope := fun c =>
  let l := cl_link c in
  let '(src, r) := Read (reader_maximum MaxFrameBytes) (lk_source l) in
  (set_link (mkLink (lk_writes l) (lk_conn l) src (lk_writeErr l)) c, lift_proto r).

(** ** A session *)

Definition begin_session (con : conn) (src : source) : M unit :=
  let! c := get (fun c => c) in
  let! _ := change (set_link (mkLink [] con src None)) in
  let seq := if cl_probe c then 0 else cu_LastAppliedSeq (cl_cursor c) in
  let! e := or_fatal (request "hello" (hello_json {| he_MinVersion := 1; he_MaxVersion := 1; he_LastAppliedSeq := seq |})) in
  let! _ := send e in
  let! t := now in
  on_talk (fun _ => mkTalk (en_ID e) ∅ true false false t t).
(** What the select takes, the end of the context and the input apart. *)
Inductive choice :=
| OnRoster | OnWriteErr | OnTimer
| OnSubmission (s : Submission) (expired : option string)
| OnFrame.
Definition round (target : string) (x : choice) : M unit :=
  match x with
  | OnRoster => on_roster
  | OnWriteErr =>
      let! l := get cl_link in
      match lk_writeErr l with Some e => stop (TProto e) | None => ok tt end
  | OnTimer => on_timer
  | OnSubmission s expired =>
      let! t := get cl_talk in
      if tk_ready t && negb (dp_ReadOnly dp) then on_submission s expired else ok tt
  | OnFrame => let! e := read_frame in on_frame target e
  end.
(** The writer takes the next request; after an error it is gone. *)
Definition write_next (c : client) : client :=
  let l := cl_link c in
  match lk_writeErr l, lk_writes l with
  | None, e :: r =>
      let '(con, res) := Write (lk_conn l) e in
      set_link (mkLink r con (lk_source l) (match res with Ok _ => None | Err err => Some err end)) c
  | _, _ => c
  end.

(** ** Input lines *)

(** The scanner puts lines into a queue of 64; what does not fit is counted. *)
Record input := mkInput { in_lines : list string; in_overflow : bool; in_rejected : Z; in_scanning : bool; in_err : option string }.
Definition maxLines : nat := 64.
(** One line of the input: the queue, and whether it was [/quit]. *)
Definition is_quit (line : string) : bool :=
  match ParseCommand line with Ok c => bool_decide (cm_Kind c = CommandQuit) | Err _ => false end.
Definition scan_end (err : option string) (i : input) : input := mkInput (in_lines i) (in_overflow i) (in_rejected i) false err.
Definition scan_line (cancelled : bool) (line : string) (i : input) : input :=
  if Nat.ltb (length (in_lines i)) maxLines then mkInput (in_lines i ++ [line]) (in_overflow i) (in_rejected i) (in_scanning i) (in_err i)
  else if cancelled then scan_end None i
  else mkInput (in_lines i) true (in_rejected i + 1) (in_scanning i) (in_err i).
Definition report_text (count : Z) : string :=
  "input queue full: rejected " +:+ itoa count +:+ " input lines; retry them after connecting" +:+ nl.

(** ** Run *)

Inductive phase := PhLoop | PhSession | PhWaiting (delay : Z) | PhDone (r : option terr).
Record run := mkRun { ru_phase : phase; ru_backoff : Z; ru_cancelled : bool; ru_input : input; ru_client : client }.
Definition set_phase (p : phase) (r : run) : run := mkRun p (ru_backoff r) (ru_cancelled r) (ru_input r) (ru_client r).
Definition set_cancelled (r : run) : run := mkRun (ru_phase r) (ru_backoff r) true (ru_input r) (ru_client r).
Definition set_input (i : input) (r : run) : run := mkRun (ru_phase r) (ru_backoff r) (ru_cancelled r) i (ru_client r).
Definition set_client (c : client) (r : run) : run := mkRun (ru_phase r) (ru_backoff r) (ru_cancelled r) (ru_input r) c.

Definition millisecond_ns : Z := 1000000.
Definition first_backoff : Z := 250 * millisecond_ns.
Definition longest_backoff : Z := 10 * second_ns.
Definition next_backoff (b : Z) : Z := if b <? longest_backoff then Z.min (b * 2) longest_backoff else b.
(** [binary.BigEndian.Uint64] *)
Definition big_endian (s : string) : Z := foldl (fun acc c => 256 * acc + code c) 0 (bytes s).
Definition jitter (base : Z) : M Z := let! b := read_random 8 in ok (base / 2 + big_endian b mod (base / 2 + 1)).

(** The queue reports what it had to reject. *)
Definition report (r : run) : run :=
  let i := ru_input r in
  if 0 <? in_rejected i
  then set_client (record_act (AcDiag (report_text (in_rejected i))) (ru_client r))
         (set_input (mkInput (in_lines i) (in_overflow i) 0 (in_scanning i) (in_err i)) r)
  else r.
Definition take_overflow (r : run) : run :=
  let i := ru_input r in
  if in_overflow i then report (set_input (mkInput (in_lines i) false (in_rejected i) (in_scanning i) (in_err i)) r) else r.
(** What follows a session that ended with an error. *)
Definition session_over (e : terr) (r : run) : run :=
  let c := ru_client r in
  let c := if dp_OnConnection dp then record_act (AcConnection false) c else c in
  let r := set_client c r in
  if ru_cancelled r then set_phase (PhDone None) r else
  match e with
  | TProbe => set_phase PhLoop r
  | TInputEOF => set_phase (PhDone (TText <$> in_err (ru_input r))) r
  | TFatal e => set_phase (PhDone (Some (TFatal e))) r
  | _ =>
      match jitter (ru_backoff r) (record_act (AcLost e) c) with
      | (c, Ok delay) => set_phase (PhWaiting delay) (set_client c r)
      | (c, Err err) => set_phase (PhDone (Some err)) (set_client c r)
      end
  end.
Definition in_session (m : M unit) (r : run) : run :=
  match m (ru_client r) with
  | (c, Ok _) => set_client c r
  | (c, Err e) => session_over e (set_client c r)
  end.

Inductive move :=
| MvStart (r : result terr (conn * source))     (* [launcher.Start] returns *)
| MvRound (x : choice)
| MvLine                                        (* the loop takes a line *)
| MvOverflow
| MvDone                                        (* the loop sees the end of the context *)
| MvElapsed                                     (* the backoff is over *)
| MvWrite                                       (* the writer *)
| MvScan (line : string) | MvScanEnd (err : option string)
| MvCancel
| MvReport.                                     (* the last report, after the scanner *)
Definition take_line (r : run) : run :=
  if negb (tk_ready (cl_talk (ru_client r))) then r else
  match in_lines (ru_input r) with
  | line :: rest =>
      let i := ru_input r in
      in_session (on_line line) (set_input (mkInput rest (in_overflow i) (in_rejected i) (in_scanning i) (in_err i)) r)
  | [] => if in_scanning (ru_input r) then r else session_over TInputEOF r
  end.
Definition move_step (target : string) (r : run) (m : move) : run :=
  match m, ru_phase r with
  | MvScan line, _ =>
      if negb (in_scanning (ru_input r)) then r
      else if is_quit line then set_cancelled (set_input (scan_end None (ru_input r)) r)
      else set_input (scan_line (ru_cancelled r) line (ru_input r)) r
  | MvScanEnd err, _ => if in_scanning (ru_input r) then set_input (scan_end err (ru_input r)) r else r
  | MvCancel, _ => set_cancelled r
  | MvStart started, PhLoop =>
      if ru_cancelled r then set_phase (PhDone None) r else
      match started with
      | Err e => session_over e r
      | Ok (con, src) => in_session (begin_session con src) (set_phase PhSession r)
      end
  | MvRound x, PhSession => in_session (round target x) r
  | MvLine, PhSession => take_line r
  | MvOverflow, (PhSession | PhWaiting _) => take_overflow r
  | MvDone, PhSession => if ru_cancelled r then session_over (TText "context canceled") r else r
  | MvDone, PhWaiting _ => if ru_cancelled r then set_phase (PhDone None) r else r
  | MvElapsed, PhWaiting _ =>
      mkRun PhLoop (next_backoff (ru_backoff r)) (ru_cancelled r) (ru_input r) (ru_client r)
  | MvWrite, PhSession => set_client (write_next (ru_client r)) r
  | MvReport, PhDone _ => if in_scanning (ru_input r) then r else report r
  | _, _ => r
  end.
Definition run_moves (target : string) (r : run) (l : list move) : run := foldl (move_step target) r l.

(** [Client.Run] up to its loop. *)
Definition no_book : book := mkBook ∅ [] ∅.
Definition no_talk : talk := mkTalk "" ∅ true false false 0 0.
Definition no_link : link := mkLink [] {| out := ""; script := [] |} [] None.
Definition new_client (cursor : Cursor) : client :=
  mkClient 0 cursor (negb (String.eqb (cu_RoomID cursor) "")) no_view no_book no_talk no_link [].
Definition no_input : input := mkInput [] false 0 true None.
Definition Run (target : string) (loaded : result terr Cursor) : result terr run :=
  let? _ := ValidateTarget target in
  let? cursor := loaded in
  Ok (mkRun PhLoop first_backoff false no_input (new_client cursor)).
End client.

(** ** A run

    A first session shows one event, takes a submission and loses the connection
    before the answer; the second one sends the submission again. *)
Definition demo_deps : Deps :=
  {| dp_ReadOnly := false; dp_OnAnswer := true; dp_OnConnection := true; dp_OnRoom := true; dp_OnProject := false; dp_OnActiveTurn := false;
     dp_OnAgents := false; dp_OnQueue := false; dp_OnEvent := true; dp_OnMembers := false |}.
Definition demo_random (n : nat) : string := of_bytes (replicate 15 (chr 7) ++ [chr (Z.of_nat n)]).
Definition demo_outside : outside :=
  {| ou_random := demo_random; ou_clock := fun n => Z.of_nat n; ou_print := fun _ => None; ou_handler := fun _ => None;
     ou_save := fun _ _ => None |}.
Definition demo_event (kind : Kind) (id method : string) (seq : option Z) (body : json) : Envelope :=
  {| en_Version := 1; en_Kind := kind; en_ID := id; en_Method := method; en_Requires := []; en_Seq := seq; en_Body := marshal body |}.
Definition demo_frame (e : Envelope) : string := put_uint32 (len (marshal_envelope e)) +:+ marshal_envelope e.
Definition demo_welcome (hello : nat) (latest : Z) : string :=
  demo_frame (demo_event KindResponse (hex_EncodeToString (demo_random hello)) "welcome" None
    (welcome_json {| we_RoomID := "room"; we_RoomName := "lab"; we_ProjectRoot := "/src"; we_ExecutionOwner := "ann"; we_FullOwnerAccess := true;
                     we_ActiveTurnID := ""; we_LatestSeq := latest |})).
Definition demo_snapshot (latest : Z) : string :=
  demo_frame (demo_event KindEvent "" "runtime-snapshot" None
    (runtime_snapshot_json {| rn_ProjectionTruncated := false; rn_ProjectionRevision := 0; rn_DurableWatermark := latest; rn_LiveItems := [];
                              rn_ActiveTurnID := "" |})).
Definition demo_durable (seq : Z) : string :=
  demo_frame (demo_event KindEvent "" "turn/running" (Some seq)
    (JObj [("Seq", JInt seq); ("Kind", JStr "turn/running"); ("ActorUID", JInt 7); ("Payload", JObj [("turn_id", JStr "t")]);
           ("CreatedAt", JStr "2025-01-02T03:04:05Z")])).
Definition demo_submission : Submission :=
  {| sb_TaskID := 0; sb_Method := ""; sb_ExpectedTurnID := ""; sb_ID := "0123456789abcdef0123456789abcdef"; sb_Text := "hi"; sb_Result := 5 |}.
Definition demo_conn : conn := {| out := ""; script := [] |}.
Definition demo_first : list move :=
  [MvStart (Ok (demo_conn, [demo_welcome 0 1; demo_durable 1; demo_snapshot 1])); MvWrite; MvRound OnFrame; MvRound OnFrame; MvRound OnFrame;
   MvRound (OnSubmission demo_submission None); MvScan "hello"; MvRound OnFrame; MvElapsed].
Definition demo_second : list move :=
  [MvStart (Ok (demo_conn, [demo_welcome 13 1; demo_snapshot 1])); MvRound OnFrame].
Definition demo_moves : list move := demo_first ++ demo_second.
Definition demo_cursor : Cursor := new_cursor "host".
Definition demo_start : run := mkRun PhLoop first_backoff false no_input (new_client demo_cursor).
