(* ===== verification/TerminalLogic.v ===== *)
(** * Reasoning about the terminal client

    Weakest preconditions for the steps of [Terminal], with a postcondition for the
    steps that end the session, and the rules of the primitives. *)
From S2P Require Import Prelude GoStrings Json RoomTypes Projection StrictJson GoDecode Wire Messages.
From S2P Require Import TerminalText TerminalView TerminalPrint Terminal.

Abbreviation M A := (Proc client (result terr A)).
Definition mwp {A} (m : M A) (Q : A -> client -> Prop) (E : terr -> client -> Prop) (c : client) : Prop :=
  match m c with (c', Ok a) => Q a c' | (c', Err e) => E e c' end.
Lemma mwp_bind {A B} (m : M A) (k : A -> M B) Q E c : mwp m (fun a => mwp (k a) Q E) E c -> mwp (try_bind m k) Q E c.
Proof. unfold mwp, try_bind. by destruct (m c) as [c' [a|e]]. Qed.
Lemma mwp_ok {A} (a : A) (Q : A -> client -> Prop) (E : terr -> client -> Prop) c : Q a c -> mwp (ok a) Q E c.
Proof. done. Qed.
Lemma mwp_stop {A} e (Q : A -> client -> Prop) (E : terr -> client -> Prop) c : E e c -> mwp (stop e) Q E c.
Proof. done. Qed.
Lemma mwp_get {A} (f : client -> A) (Q : A -> client -> Prop) (E : terr -> client -> Prop) c : Q (f c) c -> mwp (get f) Q E c.
Proof. done. Qed.
Lemma mwp_change f (Q : unit -> client -> Prop) (E : terr -> client -> Prop) c : Q tt (f c) -> mwp (change f) Q E c.
Proof. done. Qed.
Lemma mwp_ask {A} (f : nat -> A) (Q : A -> client -> Prop) (E : terr -> client -> Prop) c :
  Q (f (cl_calls c)) (set_calls (S (cl_calls c)) c) -> mwp (ask f) Q E c.
Proof. done. Qed.
Lemma mwp_fatal {A} (m : M A) Q E c : mwp m Q (fun e => E (TFatal e)) c -> mwp (or_fatal m) Q E c.
Proof. unfold mwp, or_fatal. by destruct (m c) as [c' [a|e]]. Qed.
Lemma mwp_lift {A} (r : result terr A) (Q : A -> client -> Prop) (E : terr -> client -> Prop) c :
  (forall a, r = Ok a -> Q a c) -> (forall e, r = Err e -> E e c) -> mwp (lift r) Q E c.
Proof. unfold mwp, lift. destruct r; auto. Qed.
Lemma mwp_refusing {A} (m : M A) (k : A -> M unit) Q E c :
  mwp m (fun a => mwp (k a) Q E) (fun e c => Q tt (record_act (AcRefuse e) c)) c -> mwp (refusing m k) Q E c.
Proof. unfold mwp, refusing. by destruct (m c) as [c' [a|e]]. Qed.
Lemma mwp_send e (Q : unit -> client -> Prop) (E : terr -> client -> Prop) c :
  (let l := cl_link c in Q tt (record_act (AcSend e) (set_link (mkLink (lk_writes l ++ [e]) (lk_conn l) (lk_source l) (lk_writeErr l)) c))) ->
  E (TText "outbound queue full") c -> mwp (send e) Q E c.
Proof. unfold mwp, send. destruct (Nat.ltb _ _); auto. Qed.
Lemma mwp_mono {A} (m : M A) (Q R : A -> client -> Prop) (E F : terr -> client -> Prop) c :
  mwp m Q E c -> (forall a c', Q a c' -> R a c') -> (forall e c', E e c' -> F e c') -> mwp m R F c.
Proof. unfold mwp. destruct (m c) as [c' [a|e]]; auto. Qed.
Lemma mwp_pair {A} (m : M A) (Q R : A -> client -> Prop) (E F : terr -> client -> Prop) c :
  mwp m Q E c -> mwp m R F c -> mwp m (fun a c => Q a c /\ R a c) (fun e c => E e c /\ F e c) c.
Proof. unfold mwp. destruct (m c) as [c' [a|e]]; auto. Qed.

(** One step: the rule of the construct in head position. *)
Ltac mstep :=
  lazymatch goal with
  | |- mwp (try_bind _ _) _ _ _ => apply mwp_bind
  | |- mwp (ok _) _ _ _ => apply mwp_ok
  | |- mwp (stop _) _ _ _ => apply mwp_stop
  | |- mwp (get _) _ _ _ => apply mwp_get
  | |- mwp (change _) _ _ _ => apply mwp_change
  | |- mwp (on_talk _) _ _ _ => apply mwp_change
  | |- mwp (on_book _) _ _ _ => apply mwp_change
  | |- mwp (act_ _) _ _ _ => apply mwp_change
  | |- mwp (print_only _) _ _ _ => apply mwp_change
  | |- mwp (ask _) _ _ _ => apply mwp_ask
  | |- mwp (or_fatal _) _ _ _ => apply mwp_fatal
  | |- mwp (match ?x with _ => _ end) _ _ _ => destruct x eqn:?
  end; cbv beta zeta.
Ltac msteps := repeat mstep.

(** ** Steps that keep a property

    [keeps P m]: a property of states that holds before [m] holds after it, whether
    the session goes on or not. *)
Definition keeps {A} (P : client -> Prop) (m : M A) : Prop := forall c, P c -> P (m c).1.
Lemma keeps_mwp {A} (P : client -> Prop) (m : M A) c : keeps P m -> P c -> mwp m (fun _ => P) (fun _ => P) c.
Proof. unfold keeps, mwp. intros H Hc. specialize (H c Hc). by destruct (m c) as [c' [a|e]]. Qed.
Lemma keeps_seq {A B} P (m : M A) (k : A -> M B) : keeps P m -> (forall a, keeps P (k a)) -> keeps P (try_bind m k).
Proof.
  intros H K c Hc. specialize (H c Hc). unfold try_bind. destruct (m c) as [c' [a|e]]; [|done]. by apply K.
Qed.
Lemma keeps_ok {A} P (a : A) : keeps P (ok a).
Proof. by intros c. Qed.
Lemma keeps_stop {A} P e : keeps P (stop (A:=A) e).
Proof. by intros c. Qed.
Lemma keeps_get {A} P (f : client -> A) : keeps P (get f).
Proof. by intros c. Qed.
Lemma keeps_lift {A} P (r : result terr A) : keeps P (lift r).
Proof. by intros c. Qed.
Lemma keeps_fatal {A} P (m : M A) : keeps P m -> keeps P (or_fatal m).
Proof. intros H c Hc. specialize (H c Hc). unfold or_fatal. by destruct (m c) as [c' [a|e]]. Qed.
Lemma keeps_refusing {A} P (m : M A) (k : A -> M unit) : keeps P m -> (forall a, keeps P (k a)) ->
  (forall e c, P c -> P (record_act (AcRefuse e) c)) -> keeps P (refusing m k).
Proof. intros H K R c Hc. specialize (H c Hc). unfold refusing. destruct (m c) as [c' [a|e]]; [by apply K|by apply R]. Qed.
Lemma keeps_change (P : client -> Prop) f : (forall c, P c -> P (f c)) -> keeps P (change f).
Proof. done. Qed.
Lemma keeps_ask {A} (P : client -> Prop) (f : nat -> A) : (forall n c, P c -> P (set_calls n c)) -> keeps P (ask f).
Proof. intros H c Hc. by apply H. Qed.
Lemma keeps_send (P : client -> Prop) e : (forall l c, lk_source l = lk_source (cl_link c) -> P c -> P (set_link l c)) -> (forall c, P c -> P (record_act (AcSend e) c)) -> keeps P (send e).
Proof. intros H K c Hc. unfold send. destruct (Nat.ltb _ _); [|done]. apply K. by apply H. Qed.

(** ** Neutral properties

    Most steps only talk: they change the queue of the writer, the view, the
    lookups, and print.  A property that does not depend on these is neutral. *)
Definition quiet (a : act) : Prop :=
  match a with
  | AcApply _ | AcSave _ _ | AcResolve _ _ | AcEvent _ _ | AcAnswer _ _ _ => False
  | AcSend e => en_Method e <> "ack"
  | AcPrint text => printable text
  | _ => True
  end.
Class Neutral (P : client -> Prop) : Prop := {
  ne_calls : forall n c, P c -> P (set_calls n c);
  ne_link : forall l c, lk_source l = lk_source (cl_link c) -> P c -> P (set_link l c);
  ne_view : forall v c, P c -> P (set_view v c);
  ne_talk : forall t c, tk_welcomed t = tk_welcomed (cl_talk c) -> tk_ready t = tk_ready (cl_talk c) -> P c -> P (set_talk t c);
  ne_act : forall a c, quiet a -> P c -> P (record_act a c) }.
Create HintDb keeps discriminated.
#[export] Hint Resolve keeps_ok keeps_stop keeps_get keeps_lift keeps_fatal : keeps.

(** Peels a procedure down to its primitives. *)
Ltac keep1 :=
  first
    [ progress cbv beta zeta
    | solve [eauto with keeps nocore]
    | lazymatch goal with
      | |- keeps _ (try_bind _ _) => apply keeps_seq; [|intros ?]
      | |- keeps _ (or_fatal _) => apply keeps_fatal
      | |- keeps _ (refusing _ _) => apply keeps_refusing; [|intros ?|intros ? ? ?]
      | |- keeps _ (match ?x with _ => _ end) => destruct x eqn:?
      end ].
Ltac keep := repeat keep1.

Section neutral.
Context (dp : Deps) (env : outside) (P : client -> Prop) {HP : Neutral P}.

Lemma keeps_ask_n {A} (f : nat -> A) : keeps P (ask f).
Proof. apply keeps_ask, ne_calls. Qed.
Lemma keeps_act a : quiet a -> keeps P (act_ a).
Proof. intros H c Hc. by apply ne_act. Qed.
Lemma keeps_talk f : (forall t, tk_welcomed (f t) = tk_welcomed t /\ tk_ready (f t) = tk_ready t) -> keeps P (on_talk f).
Proof. intros H c Hc. apply ne_talk; [apply H|apply H|done]. Qed.
Lemma keeps_view f : keeps P (change (fun c => set_view (f c) c)).
Proof. intros c Hc. by apply ne_view. Qed.
Lemma keeps_set_view v : keeps P (change (set_view v)).
Proof. intros c Hc. by apply ne_view. Qed.
Lemma keeps_send_n e : en_Method e <> "ack" -> keeps P (send e).
Proof. intros H. apply keeps_send; [apply ne_link|]. intros c Hc. by apply ne_act. Qed.
Lemma keeps_callback b a : quiet a -> keeps P (callback b a).
Proof. intros H. unfold callback. destruct b; [by apply keeps_act|apply keeps_ok]. Qed.
Lemma keeps_print_only text : printable text -> keeps P (print_only text).
Proof. intros H. by apply keeps_act. Qed.
#[local] Hint Extern 1 (keeps P (print_only _)) => apply keeps_print_only; solve [printable_line] : keeps.
#[local] Hint Resolve keeps_ask_n keeps_view keeps_set_view : keeps.
#[local] Hint Extern 1 (keeps P (act_ _)) => apply keeps_act; exact I : keeps.
#[local] Hint Extern 1 (keeps P (callback _ _)) => apply keeps_callback; exact I : keeps.
#[local] Hint Extern 1 (keeps P (on_talk _)) => apply keeps_talk; intros ?; first [done | by case_match] : keeps.

Lemma keeps_print text : printable text -> keeps P (print env text).
Proof. intros H. unfold print. keep. by apply keeps_act. Qed.
Lemma keeps_read_random n : keeps P (read_random env n).
Proof. unfold read_random. keep. Qed.
#[local] Hint Resolve keeps_read_random : keeps.
Lemma keeps_NewID : keeps P (NewID env).
Proof. unfold NewID. keep. Qed.
#[local] Hint Resolve keeps_NewID : keeps.
Lemma keeps_request method body : keeps P (request env method body).
Proof. unfold request. keep. Qed.
#[local] Hint Resolve keeps_request : keeps.
(** What a request sends has its method. *)
Lemma keeps_ask_send method body (f : Envelope -> M unit) : method <> "ack" ->
  (forall e, en_Method e = method -> keeps P (f e)) -> keeps P (try_bind (request env method body) f).
Proof.
  intros N H c Hc. pose proof (keeps_request method body c Hc) as K. unfold try_bind. destruct (request env method body c) as [c' [e|err]] eqn:E; [|done].
  apply H; [|done]. revert E. unfold request, try_bind. destruct (NewID env c) as [c1 [id|]]; [|done]. by intros [= _ <-].
Qed.
Lemma keeps_fatal_send method body (f : Envelope -> M unit) : method <> "ack" ->
  (forall e, en_Method e = method -> keeps P (f e)) -> keeps P (try_bind (or_fatal (request env method body)) f).
Proof.
  intros N H c Hc. pose proof (keeps_ask_send method body f N H c Hc) as K. revert K. unfold try_bind, or_fatal.
  by destruct (request env method body c) as [c' [e|err]].
Qed.
Lemma keeps_look_up kind : kind <> "ack" -> keeps P (look_up env kind).
Proof. intros H. unfold look_up. apply keeps_ask_send; [done|]. intros e He. keep. apply keeps_send_n. congruence. Qed.
#[local] Hint Extern 1 (keeps P (look_up _ _)) => apply keeps_look_up; discriminate : keeps.
#[local] Hint Extern 2 (keeps P (send _)) => apply keeps_send_n; congruence : keeps.
#[local] Hint Extern 1 (keeps P (try_bind (request _ _ _) _)) => apply keeps_ask_send; [discriminate|intros ? ?] : keeps.
Ltac keepr := repeat first
  [ lazymatch goal with
    | |- keeps P (try_bind (request _ _ _) _) => apply keeps_ask_send; [discriminate|intros ? ?]
    | |- keeps P (try_bind (or_fatal (request _ _ _)) _) => apply keeps_fatal_send; [discriminate|intros ? ?]
    end
  | keep1 ].
Lemma keeps_touch : keeps P (touch env).
Proof. unfold touch, now. keep. Qed.
Lemma keeps_roster : keeps P (on_roster dp env).
Proof. unfold on_roster. keep. Qed.
Lemma keeps_print_items l : keeps P (print_items l).
Proof. induction l; cbn; keep. Qed.
Lemma keeps_handed b ty body a : quiet a -> keeps P (handed_on b ty body a).
Proof. intros H. unfold handed_on. keep. by apply keeps_act. Qed.
Lemma keeps_timer : keeps P (on_timer dp env).
Proof.
  unfold on_timer, now. keepr.
Qed.
Lemma keeps_transient e : keeps P (on_transient env e).
Proof. unfold on_transient. keep. apply keeps_print. eapply transient_line_printable. by erewrite Heqp. Qed.
Lemma keeps_read_frame : (forall l c, P c -> P (set_link l c)) -> keeps P read_frame.
Proof. intros H c Hc. unfold read_frame. destruct (Read _ _). by apply H. Qed.
Lemma keeps_write_next c : P c -> P (write_next c).
Proof.
  intros Hc. unfold write_next. destruct (lk_writeErr _); [done|]. destruct (lk_writes _); [done|]. destruct (Write _ _). by apply ne_link.
Qed.
Lemma command_methods k : CommandKind_string k <> "ack".
Proof. by destruct k. Qed.
(** Ids of requests are random. *)
Definition drawn (id : string) : Prop := exists n, id = hex_EncodeToString (take_bytes 16 (ou_random env n)).
Lemma keeps_drawn c : P c -> mwp (NewID env) (fun id c => P c /\ drawn id) (fun _ => P) c.
Proof.
  intros Hc. unfold NewID, read_random. mstep. mstep. mstep. mstep; mstep; [|by apply ne_calls]. mstep.
  split; [by apply ne_calls|by eexists].
Qed.
Lemma keeps_command_body cmd active c : P c -> mwp (command_body env cmd active) (fun mb c => P c /\ mb.1 <> "ack") (fun _ => P) c.
Proof.
  intros Hc. unfold command_body. destruct (is_mutation (cm_Kind cmd)); cbn [negb]; [|by apply mwp_ok; split; [|apply command_methods]].
  apply mwp_bind. eapply mwp_mono; [apply keeps_mwp; [apply keeps_NewID|done]| |done]. intros id c' Hc'.
  destruct (cm_Kind cmd); try (by apply mwp_ok). apply mwp_bind.
  eapply mwp_mono; [apply keeps_mwp; [apply keeps_NewID|done]| |done]. intros ? ? ?. by apply mwp_ok.
Qed.
Lemma keeps_Command_Envelope cmd active c : P c -> mwp (Command_Envelope env cmd active) (fun em c => P c /\ en_Method em.1 <> "ack" /\ drawn (en_ID em.1)) (fun _ => P) c.
Proof.
  intros Hc. unfold Command_Envelope. destruct (_ && _); [done|]. apply mwp_bind.
  eapply mwp_mono; [by apply keeps_command_body| |done]. intros mb c1 [H1 Hm]. apply mwp_bind. cbv beta.
  unfold request. apply mwp_bind. eapply mwp_mono; [by apply keeps_drawn| |done]. intros id c2 [H2 D].
  apply mwp_ok. by destruct (_ && _).
Qed.

(** Properties that do not depend on whether the session is ready. *)
Class Readable : Prop := rd_ready : forall c, P c -> P (set_talk (with_ready (cl_talk c)) c).
Lemma keeps_greet : Readable -> keeps P (greet dp env).
Proof. intros R. unfold greet. apply keeps_seq; [exact R|intros _]. keepr. Qed.

(** Changes of the book: a request with a random id is noted, one is answered, the
    order changes without losing a request that waits. *)
Definition methods_ok (b : book) : Prop := map_Forall (fun _ e => en_Method e <> "ack") (bk_pending b).
Inductive book_step (b : book) : book -> Prop :=
| bs_pend e : en_Method e <> "ack" -> drawn (en_ID e) -> book_step b (pend e b)
| bs_order o : (forall id, id ∈ bk_order b -> is_Some (bk_pending b !! id) -> id ∈ o) ->
    book_step b (mkBook (bk_pending b) o (bk_replies b)).
(** Every waiter of a request gets its answer. *)
Definition resolved (err : option terr) (l : list nat) (c : client) : client := foldl (fun c w => record_act (AcResolve w err) c) c l.
Definition settle (id : string) (err : option terr) (c : client) : client :=
  let c' := resolved err (waiters id (cl_book c)) c in set_book (forget_waiters id (cl_book c')) c'.
Class Booked : Prop := {
  bo_step : forall b c, book_step (cl_book c) b -> P c -> P (set_book b c);
  bo_answered : forall e c, P c -> P (set_book (answered (en_ID e) (cl_book c)) (record_act (AcAnswered e) c));
  bo_methods : forall c, P c -> methods_ok (cl_book c);
  bo_settle : forall id err c, P c -> P (settle id err c) }.
(** Properties that do not depend on the requests that wait. *)
Class Bookless : Prop := {
  ne_book : forall b c, methods_ok b -> P c -> P (set_book b c);
  ne_methods : forall c, P c -> methods_ok (cl_book c);
  ne_resolve : forall w e c, P c -> P (record_act (AcResolve w e) c) }.
Lemma methods_pend e b : en_Method e <> "ack" -> methods_ok b -> methods_ok (pend e b).
Proof. intros. by apply map_Forall_insert_2. Qed.
Lemma methods_step b b' : book_step b b' -> methods_ok b -> methods_ok b'.
Proof. destruct 1; intros M; [by apply methods_pend|done]. Qed.
#[local] Instance Bookless_Booked : Bookless -> Booked.
Proof.
  intros []. split; [| |done|].
  - intros b c S Hc. apply ne_book0; [|done]. eapply methods_step; [done|]. by apply ne_methods0.
  - intros e c Hc. apply ne_book0; [|by apply ne_act]. apply map_Forall_delete. by apply ne_methods0.
  - intros id err c Hc. unfold settle, resolved.
    assert (K : P (foldl (fun c w => record_act (AcResolve w err) c) c (waiters id (cl_book c)))).
    { generalize (waiters id (cl_book c)). intros l. revert c Hc. induction l as [|w l IH]; intros c Hc; cbn; auto. }
    apply ne_book0; [|done]. by apply (ne_methods0 _ K).
Qed.

Section booked.
Context {HB : Booked}.
Lemma resend_keeps b l kept pre c : bk_order b = pre ++ l -> (forall id, id ∈ pre -> is_Some (bk_pending b !! id) -> id ∈ kept) ->
  (length kept <= length pre)%nat -> P c -> cl_book c = b -> P (resend l kept c).1.
Proof.
  revert kept pre c. induction l as [|id l IH]; intros kept pre c Eo Ek Hl Hc Eb; cbn [resend].
  { apply bo_step; [|done]. rewrite Eb. apply bs_order. intros id H. apply Ek. by rewrite Eo, app_nil_r in H. }
  unfold try_bind at 1, get. rewrite Eb. destruct (bk_pending b !! id) as [e|] eqn:E.
  2: { apply (IH kept (pre ++ [id])); [by rewrite <- app_assoc| |rewrite length_app; cbn; lia|done|done].
       intros x [H|<-%list_elem_of_singleton]%elem_of_app S; [by apply Ek|by rewrite E in S; destruct S]. }
  assert (N : en_Method e <> "ack") by (apply (bo_methods c Hc id); by rewrite Eb).
  assert (Ek' : forall x, x ∈ pre ++ [id] -> is_Some (bk_pending b !! x) -> x ∈ kept ++ [id]).
  { intros x [H|<-%list_elem_of_singleton]%elem_of_app S; apply elem_of_app; [left; by apply Ek|right; left]. }
  unfold try_bind.
  assert (K : forall d, P d -> cl_book d = b -> P (match send e d with
      | (c0, Ok _) => resend l (kept ++ [id]) c0
      | (c0, Err err) => (set_book (mkBook (bk_pending (cl_book c0)) ((kept ++ [id]) ++ drop (length (kept ++ [id])) (bk_order (cl_book c0)))
                            (bk_replies (cl_book c0))) c0, Err err) end).1).
  { intros d Hd Ed. pose proof (keeps_send_n e N d Hd) as S.
    assert (B : cl_book (send e d).1 = b) by (unfold send; by destruct (Nat.ltb _ _)).
    destruct (send e d) as [d' [|]]; cbn [fst] in *.
    - apply (IH _ (pre ++ [id])); [by rewrite <- app_assoc|done|rewrite !length_app; cbn; lia|done|done].
    - apply bo_step; [|done]. rewrite B. apply bs_order. intros x Hx S'.
      rewrite Eo in Hx |- *. change (id :: l) with ([id] ++ l) in Hx |- *. rewrite app_assoc in Hx |- *. apply elem_of_app in Hx as [Hx|Hx]; apply elem_of_app.
      + left. by apply Ek'.
      + right. rewrite drop_app_le by (rewrite !length_app; cbn; lia). apply elem_of_app. by right. }
  destruct (String.eqb (en_Method e) "members"); [|by apply K]. apply K; [by apply ne_talk|done].
Qed.
Lemma keeps_resend_order : keeps P (let! l := get (fun c => bk_order (cl_book c)) in resend l []).
Proof.
  intros c Hc. unfold try_bind, get. apply (resend_keeps (cl_book c) _ [] []); [done| |cbn; lia|done|done].
  by intros id H%elem_of_nil.
Qed.
Lemma keeps_ready : Readable -> keeps P (become_ready dp env).
Proof. intros R. unfold become_ready. apply keeps_seq; [by apply keeps_greet|intros _; apply keeps_resend_order]. Qed.
Lemma keeps_snapshot e : Readable -> keeps P (on_snapshot dp env e).
Proof. intros R. unfold on_snapshot. keep; first [apply keeps_print_items | by apply keeps_ready]. Qed.
Lemma resolve_all_resolved l e c : resolve_all l e c = (resolved e l c, Ok tt).
Proof. revert c. induction l as [|w l IH]; intros c; [done|]. apply IH. Qed.
Lemma keeps_settle id err (k : M unit) : keeps P k ->
  keeps P (let! l := get (fun c => waiters id (cl_book c)) in
           let! _ := resolve_all l err in let! _ := on_book (forget_waiters id) in k).
Proof.
  intros K c Hc. apply (bo_settle id err) in Hc. unfold try_bind at 1 2, get. rewrite resolve_all_resolved. by apply K.
Qed.
Lemma keeps_answered e (k : M unit) : keeps P k ->
  keeps P (let! _ := act_ (AcAnswered e) in let! _ := on_book (answered (en_ID e)) in k).
Proof. intros K c Hc. apply (bo_answered e) in Hc. by apply K. Qed.
Lemma keeps_answer e : keeps P (on_answer dp env e).
Proof.
  unfold on_answer. cbv zeta. apply keeps_answered.
  do 2 (apply keeps_seq; [by apply keeps_handed|intros _]). apply keeps_seq; [apply keeps_get|intros lookup].
  do 2 (apply keeps_seq; [apply keeps_talk; intros ?; first [done | by case_match]|intros _]).
  apply keeps_settle. keepr; by apply keeps_handed.
Qed.
Lemma keeps_line line : keeps P (on_line dp env line).
Proof.
  unfold on_line. destruct (dp_ReadOnly dp); [by apply keeps_act|]. destruct (ParseCommand line) as [cmd|]; [|by apply keeps_act].
  intros c Hc. unfold refusing. pose proof (keeps_Command_Envelope cmd (vw_active (cl_view c)) c Hc) as K. unfold mwp in K.
  unfold try_bind at 1, get. destruct (Command_Envelope env cmd (vw_active (cl_view c)) c) as [c' [[e mutation]|err]]; [|by apply ne_act].
  destruct K as (K & N & D). cbn [fst] in N, D. revert c' K. change (keeps P
    (let! _ := (if mutation then on_book (pend e) else ok tt) in
     let! _ := (if String.eqb (en_Method e) "members" then on_talk (with_lookup (en_ID e) "members") else ok tt) in
     let! _ := send e in touch env)). keep; [|apply keeps_touch].
  intros c1 H1. apply bo_step; [by constructor|done].
Qed.
End booked.

Lemma submission_methods s e : submission_envelope s = Ok e -> en_Method e <> "ack".
Proof.
  unfold submission_envelope. set (m := if String.eqb _ _ then _ else _). destruct (submission_body s m) as [body|] eqn:B; [|done].
  cbn [result_bind]. destruct (_ <? _); [done|]. intros [= <-]. cbn [en_Method]. intros E. rewrite E in B. done.
Qed.
Lemma methods_accept e w b : en_Method e <> "ack" -> methods_ok b -> methods_ok (accept_submission e w b).1.
Proof.
  intros N H. unfold accept_submission. cbv zeta. repeat case_match; try done; cbn [fst]; by apply map_Forall_insert_2.
Qed.
(** What a submission leaves, by what became of it. *)
Lemma submission_leaves s expired c : (forall err, P (record_act (AcResolve (sb_Result s) err) c)) ->
  (forall e, submission_envelope s = Ok e -> en_Method e <> "ack" ->
     let x := accept_submission e (sb_Result s) (cl_book c) in
     match x.2 with Some err => P (record_act (AcResolve (sb_Result s) (Some err)) (set_book x.1 c)) | None => P (set_book x.1 c) end) ->
  P (on_submission env s expired c).1.
Proof.
  intros R K. unfold on_submission. destruct expired; [apply R|]. destruct (submission_envelope s) as [e|err] eqn:E; [|apply R].
  specialize (K e eq_refl (submission_methods s e E)). cbv zeta in K. unfold try_bind at 1, get.
  destruct (accept_submission e (sb_Result s) (cl_book c)) as [b [err|]]; [exact K|]. cbn [fst snd] in K.
  apply (keeps_seq P (send e)); [by apply keeps_send_n, (submission_methods s)|intros _; apply keeps_touch|exact K].
Qed.
Lemma keeps_submission {HL : Bookless} s expired : keeps P (on_submission env s expired).
Proof.
  intros c H. apply submission_leaves; [intros err; by apply ne_resolve|]. intros e E N. cbv zeta.
  pose proof (methods_accept e (sb_Result s) _ N (ne_methods c H)) as M. assert (K : P (set_book (accept_submission e (sb_Result s) (cl_book c)).1 c)) by by apply ne_book.
  destruct (accept_submission _ _ _).2; [by apply ne_resolve|done].
Qed.
End neutral.
#[export] Existing Instance Bookless_Booked.
