(* ===== verification/TerminalSafety.v ===== *)
(** * What a terminal client applies, saves and acknowledges

    The trace of a client is lawful: an event is shown only when it is newer than
    the cursor that was saved last, a cursor moves to an event only after the event
    was shown and every callback has taken it, and only saved events are
    acknowledged.  This holds across every reconnection of a run. *)
From S2P Require Import Prelude GoStrings Json RoomTypes Projection StrictJson GoDecode Wire Messages.
From S2P Require Import TerminalText TerminalView TerminalPrint Terminal TerminalLogic.

#[export] Instance Neutral_and P Q : Neutral P -> Neutral Q -> Neutral (fun c => P c /\ Q c).
Proof. intros [] []. split; intros; destruct_and!; auto. Qed.
#[export] Instance Bookless_and P Q : Bookless P -> Bookless Q -> Bookless (fun c => P c /\ Q c).
Proof. intros [] []. split; intros; destruct_and!; auto. Qed.

(** ** The saved cursor *)

Definition last_saved (c0 : Cursor) (tr : list act) : Cursor := foldl (fun c a => match a with AcSave x true => x | _ => c end) c0 tr.
Definition is_save (a : act) : Prop := match a with AcSave _ _ => True | _ => False end.
Lemma last_saved_snoc c0 tr a : last_saved c0 (tr ++ [a]) = match a with AcSave x true => x | _ => last_saved c0 tr end.
Proof. unfold last_saved. rewrite foldl_app. destruct a; try done; by case_match. Qed.
Lemma quiet_no_save a : quiet a -> ~ is_save a.
Proof. destruct a; cbn; tauto. Qed.
Definition event_seq (d : RoomEvent) : Z := Projection.u64 (re_Seq d).

Section safety.
Context (dp : Deps) (env : outside) (c0 : Cursor).

(** The callbacks took the event. *)
Definition handled (d : RoomEvent) (mid : list act) : Prop :=
  (dp_OnEvent dp = true -> AcEvent d true ∈ mid)
  /\ (dp_OnAnswer dp = true -> exists text, answerText d = Ok text /\ (text = "" \/ AcAnswer d text true ∈ mid)).
(** What may follow the trace [pre]. *)
Definition orderly (pre : list act) (a : act) : Prop :=
  match a with
  | AcApply d => cu_LastAppliedSeq (last_saved c0 pre) < event_seq d
  | AcSave x _ =>
      cu_LastAppliedSeq x = 0 \/ cu_LastAppliedSeq x = cu_LastAppliedSeq (last_saved c0 pre)
      \/ exists d pre' mid, pre = pre' ++ AcApply d :: mid /\ event_seq d = cu_LastAppliedSeq x /\ handled d mid /\ Forall (fun b => ~ is_save b) mid
  | AcSend e => en_Method e = "ack" -> en_Body e = marshal (ack_json (cu_LastAppliedSeq (last_saved c0 pre)))
  | _ => True
  end.
Definition lawful (tr : list act) : Prop := forall pre a post, tr = pre ++ a :: post -> orderly pre a.
Lemma lawful_nil : lawful [].
Proof. by intros [|] ? ?. Qed.
Lemma rules_snoc tr a : lawful tr -> orderly tr a -> lawful (tr ++ [a]).
Proof.
  intros H Ha pre b post E. destruct post as [|x post _] using rev_ind.
  - apply app_inj_tail in E as [-> ->]. done.
  - rewrite app_comm_cons, app_assoc in E. apply app_inj_tail in E as [-> _]. by eapply H.
Qed.
Lemma orderly_quiet tr a : quiet a -> orderly tr a.
Proof. destruct a; cbn; tauto. Qed.

(** ** Invariants *)

(** [tracks]: the client's cursor is the saved one; before the welcome it may have
    been set back to the start. *)
Definition decent (c : client) : Prop := lawful (cl_trace c) /\ methods_ok (cl_book c).
Definition saved_seq (c : client) : Z := cu_LastAppliedSeq (last_saved c0 (cl_trace c)).
Definition tracks (c : client) : Prop :=
  (cu_LastAppliedSeq (cl_cursor c) = 0 \/ cu_LastAppliedSeq (cl_cursor c) = saved_seq c)
  /\ (tk_welcomed (cl_talk c) = true -> cl_cursor c = last_saved c0 (cl_trace c)).
Lemma last_saved_act a c : ~ is_save a -> last_saved c0 (cl_trace (record_act a c)) = last_saved c0 (cl_trace c).
Proof. intros N. cbn. rewrite last_saved_snoc. by destruct a. Qed.
#[local] Instance decent_neutral : Neutral decent.
Proof. split; try done. intros a c Q [L M]. split; [|done]. apply rules_snoc; [done|]. by apply orderly_quiet. Qed.
#[local] Instance decent_bookless : Bookless decent.
Proof. split; unfold decent; cbn; [naive_solver..|]. intros w e c [L M]. split; [|done]. by apply rules_snoc. Qed.
#[local] Instance tracks_neutral : Neutral tracks.
Proof.
  split; try done; [intros t c E _; unfold tracks; cbn; by rewrite E|]. intros a c Q%quiet_no_save. unfold tracks, saved_seq.
  by rewrite last_saved_act.
Qed.
Definition steady (c : client) : Prop := decent c /\ tracks c.
#[local] Instance steady_neutral : Neutral steady := Neutral_and _ _ _ _.
#[local] Instance steady_bookless : Bookless steady.
Proof.
  split; [unfold steady, decent, tracks; cbn; naive_solver..|]. intros w e c [[L M] T]. split; [split; [by apply rules_snoc|done]|].
  unfold tracks, saved_seq. by rewrite last_saved_act by (by intros []).
Qed.

(** The event [d] was shown and nothing was saved since; [ev] and [an]: the
    callbacks were called. *)
Definition underway (d : RoomEvent) (ev an : bool) (c : client) : Prop :=
  exists pre mid, cl_trace c = pre ++ AcApply d :: mid /\ Forall (fun b => ~ is_save b) mid
    /\ (ev = true -> dp_OnEvent dp = true -> AcEvent d true ∈ mid)
    /\ (an = true -> dp_OnAnswer dp = true -> exists text, answerText d = Ok text /\ (text = "" \/ AcAnswer d text true ∈ mid)).
Lemma underway_act d ev an ev' an' a c : ~ is_save a -> underway d ev an c ->
  (ev' = true -> ev = true \/ a = AcEvent d true \/ dp_OnEvent dp = false) ->
  (an' = true -> an = true \/ dp_OnAnswer dp = false
    \/ (exists text, answerText d = Ok text /\ (text = "" \/ a = AcAnswer d text true))) ->
  underway d ev' an' (record_act a c).
Proof.
  intros N (pre & mid & E & F & V & A) Hev Han. exists pre, (mid ++ [a]). split_and!.
  - cbn. by rewrite E, <- app_assoc.
  - apply Forall_app. split; [done|]. by constructor.
  - intros H1 H2. destruct (Hev H1) as [H|[->|H]]; [| |congruence]; apply elem_of_app; [left; auto|right; left].
  - intros H1 H2. destruct (Han H1) as [H|[H|(text & T & H)]]; [|congruence|].
    + destruct (A H H2) as (text & T & H3). exists text. split; [done|]. rewrite elem_of_app. tauto.
    + exists text. split; [done|]. destruct H as [-> | ->]; [by left|right]. apply elem_of_app. right. left.
Qed.
#[local] Instance underway_neutral d ev an : Neutral (underway d ev an).
Proof.
  split; try done. intros a c Q H. apply (underway_act d ev an); [by apply quiet_no_save|done|tauto|tauto].
Qed.
Lemma underway_handled d c : underway d true true c -> exists pre mid, cl_trace c = pre ++ AcApply d :: mid /\ handled d mid /\ Forall (fun b => ~ is_save b) mid.
Proof. intros (pre & mid & E & F & V & A). exists pre, mid. split_and!; [done| |done]. split; auto. Qed.

(** ** Events *)

Abbreviation ends P := (fun (_ : terr) => P).
(** What ends a session after the cursor moved ends the run. *)
Definition rested (c : client) : Prop := decent c /\ (cu_LastAppliedSeq (cl_cursor c) = 0 \/ cu_LastAppliedSeq (cl_cursor c) = saved_seq c).
Definition mortal (e : terr) (c : client) : Prop := decent c /\ (rested c \/ exists e', e = TFatal e').
#[local] Instance rested_neutral : Neutral rested.
Proof.
  apply Neutral_and; [apply _|]. split; try done. intros a c Q%quiet_no_save. unfold saved_seq. by rewrite last_saved_act.
Qed.
Lemma steady_rested c : steady c -> rested c.
Proof. intros [D [N _]]. by split. Qed.
Lemma keeps_both {A} (P : client -> Prop) (m : M A) (Q : A -> client -> Prop) (E : terr -> client -> Prop) c :
  keeps P m -> P c -> (forall a c', P c' -> Q a c') -> (forall e c', P c' -> E e c') -> mwp m Q E c.
Proof. intros K H HQ HE. eapply mwp_mono; [by apply keeps_mwp| |]; auto. Qed.
Lemma mortal_steady e c : steady c -> mortal e c.
Proof. intros S. split; [apply S|]. left. by apply steady_rested. Qed.

Lemma save_spec (Q : unit -> client -> Prop) (E : terr -> client -> Prop) c : decent c ->
  orderly (cl_trace c) (AcSave (cl_cursor c) true) ->
  (forall c', steady c' -> cl_cursor c' = cl_cursor c -> cl_talk c' = cl_talk c -> cl_cursor c' = last_saved c0 (cl_trace c') ->
     cl_view c' = cl_view c -> cl_book c' = cl_book c -> Q tt c') ->
  (forall e c', decent c' -> E e c') -> mwp (save_cursor env) Q E c.
Proof.
  intros [L M] O HQ HE. unfold save_cursor. mstep. mstep. mstep. mstep. mstep.
  - mstep. mstep. mstep. apply HE. split; [by apply rules_snoc|done].
  - mstep. cbn. apply HQ; try done.
    + split; [split; [by apply rules_snoc|done]|]. unfold tracks, saved_seq. cbn. rewrite last_saved_snoc. auto.
    + cbn. by rewrite last_saved_snoc.
Qed.

Lemma saved_neutral z : Neutral (fun c => saved_seq c = z).
Proof. split; try done. intros a c Q%quiet_no_save H. unfold saved_seq. by rewrite last_saved_act. Qed.
Lemma request_spec (P : client -> Prop) {HP : Neutral P} method body (Q : Envelope -> client -> Prop) (E : terr -> client -> Prop) c : P c ->
  (forall id c', P c' -> Q {| en_Version := 1; en_Kind := KindRequest; en_ID := id; en_Method := method; en_Requires := []; en_Seq := None;
                               en_Body := marshal body |} c') ->
  (forall e c', P c' -> E e c') -> mwp (request env method body) Q E c.
Proof.
  intros H HQ HE. unfold request. mstep. apply (keeps_both P); [by apply keeps_NewID|done| |done]. intros id c' H'. mstep. by apply HQ.
Qed.

(** In the middle of an event: the cursor is still [x]. *)
Definition midway (x : Cursor) (d : RoomEvent) (ev an : bool) (c : client) : Prop :=
  steady c /\ (tk_welcomed (cl_talk c) = true /\ cl_cursor c = x) /\ underway d ev an c.
Definition here (x : Cursor) (c : client) : Prop := tk_welcomed (cl_talk c) = true /\ cl_cursor c = x.
#[local] Instance here_neutral x : Neutral (here x).
Proof. split; unfold here; cbn; try done. by intros t c -> _. Qed.
#[local] Instance midway_neutral x d ev an : Neutral (midway x d ev an).
Proof. apply Neutral_and; [apply _|]. apply (Neutral_and (here x)); apply _. Qed.
Lemma steady_act a c : ~ is_save a -> orderly (cl_trace c) a -> steady c -> steady (record_act a c).
Proof.
  intros N O [[L M] T]. split; [split; [by apply rules_snoc|done]|].
  unfold tracks, saved_seq. by rewrite last_saved_act.
Qed.
Lemma midway_act x d ev an ev' an' a c : ~ is_save a -> (forall pre, orderly pre a) -> midway x d ev an c ->
  (ev' = true -> ev = true \/ a = AcEvent d true \/ dp_OnEvent dp = false) ->
  (an' = true -> an = true \/ dp_OnAnswer dp = false
    \/ (exists text, answerText d = Ok text /\ (text = "" \/ a = AcAnswer d text true))) ->
  midway x d ev' an' (record_act a c).
Proof. intros N O (S & H & U) Hev Han. split; [by apply steady_act|]. split; [exact H|]. by eapply underway_act. Qed.

Lemma show_event_spec x d c : steady c -> here x c -> cu_LastAppliedSeq x < event_seq d ->
  mwp (show_event env d) (fun _ => midway x d false false) (fun _ => decent) c.
Proof.
  intros S H O. unfold show_event. mstep. mstep. mstep; [|by mstep; apply S]. mstep. mstep. mstep. mstep.
  apply (keeps_both (midway x d false false)); [apply keeps_print; [apply _|apply event_line_printable]| |done|by intros e c' [[? _] _]].
  assert (C : cl_cursor c = last_saved c0 (cl_trace c)) by (apply S; apply H).
  split; [|split; [exact H|by exists (cl_trace c), []]].
  apply steady_act; [by intros []| |by apply (ne_view (P:=steady))].
  change (cu_LastAppliedSeq (last_saved c0 (cl_trace c)) < event_seq d). by rewrite <- C, (proj2 H).
Qed.
Lemma handler_spec x d ev an ev' an' a (E : terr -> client -> Prop) c : midway x d ev an c ->
  (forall b, ~ is_save (a b) /\ forall pre, orderly pre (a b)) ->
  (ev' = true -> ev = true \/ a true = AcEvent d true) ->
  (an' = true -> an = true \/ (exists text, answerText d = Ok text /\ (text = "" \/ a true = AcAnswer d text true))) ->
  (forall e c', decent c' -> E e c') -> mwp (handler env a) (fun _ => midway x d ev' an') E c.
Proof.
  intros H A Hev Han HE. apply (ne_calls (P:=midway x d ev an) (S (cl_calls c))) in H. unfold handler. mstep. mstep. mstep.
  - mstep. mstep. mstep. apply HE. apply (steady_act (a false)); [apply A|apply A|apply H].
  - mstep. apply (midway_act x d ev an); [apply A|apply A|done|naive_solver|naive_solver].
Qed.
Lemma durable_spec e seq c : steady c -> tk_welcomed (cl_talk c) = true ->
  mwp (on_durable dp env e seq) (fun _ => steady) mortal c.
Proof.
  intros S W. unfold on_durable. mstep. mstep. set (x := cl_cursor c). assert (H : here x c) by done. clearbody x.
  mstep; [by mstep|]. mstep; [|mstep; by apply mortal_steady]. mstep; [mstep; by apply mortal_steady|].
  bool_props. assert (Es : event_seq r = seq) by done. mstep. mstep. eapply mwp_mono; [apply (show_event_spec x); [done|done|lia]| |].
  2: { intros e' c' D. split; [done|]. eauto. }
  clear c S W H. intros [] c H. mstep. mstep. mstep.
  assert (B : forall ev an b a c, quiet a -> midway x r ev an c -> mwp (callback b a) (fun _ => midway x r ev an) mortal c).
  { intros ev an b a c1 Q H1. apply (keeps_both (midway x r ev an)); [by apply keeps_callback; [apply _|]|done|done|]. intros ? ? [? _]. by apply mortal_steady. }
  eapply mwp_mono; [by apply B| |done]. clear c H. intros [] c H. mstep.
  assert (H1 : mwp (if dp_OnEvent dp then or_fatal (handler env (AcEvent r)) else ok tt) (fun _ => midway x r true false) mortal c).
  { mstep.
    - mstep. eapply handler_spec; [done|intros b; split; [by intros []|done]|auto|done|]. intros e' c' D. split; [done|]. eauto.
    - mstep. destruct H as (S & Hh & (pre & mid & E1 & E2 & _ & E4)). split; [done|]. split; [done|]. exists pre, mid.
      split_and!; [done|done|intros _ ?; congruence|done]. }
  eapply mwp_mono; [exact H1| |done]. clear c H H1. intros [] c H. mstep.
  assert (H1 : mwp (if dp_OnAnswer dp then let! text := or_fatal (lift (answerText r)) in
                      if String.eqb text "" then ok tt else or_fatal (handler env (AcAnswer r text)) else ok tt)
                 (fun _ => midway x r true true) mortal c).
  { mstep.
    - mstep. mstep. apply mwp_lift; [|intros e' _; split; [apply H|eauto]]. intros text T. mstep.
      + mstep. destruct H as (S & Hh & (pre & mid & E1 & E2 & E3 & _)). split; [done|]. split; [done|]. exists pre, mid.
        split_and!; [done|done|done|]. intros _ _. exists text. split; [done|]. left. by apply String.eqb_eq.
      + mstep. eapply handler_spec; [done|intros b; split; [by intros []|done]|auto| |]; [intros _; right; by exists text; auto|]. intros e' c' D. split; [done|]. eauto.
    - mstep. destruct H as (S & Hh & (pre & mid & E1 & E2 & E3 & _)). split; [done|]. split; [done|]. exists pre, mid.
      split_and!; [done|done|done|intros _ ?; congruence]. }
  eapply mwp_mono; [exact H1| |done]. clear c H H1. intros [] c H. mstep. mstep. mstep.
  assert (K : forall b kind c, kind <> "ack" -> midway x r true true c ->
    mwp (if b : bool then look_up env kind else ok tt) (fun _ => midway x r true true) mortal c).
  { intros b kind c1 N H1. apply (keeps_both (midway x r true true)); [|done|done|intros ? ? [? _]; by apply mortal_steady].
    destruct b; [apply keeps_look_up; [apply _|done]|apply keeps_ok]. }
  eapply mwp_mono; [by apply K| |done]. intros [] c1 H1. mstep. eapply mwp_mono; [by apply K| |done]. intros [] c2 H2.
  mstep. unfold move_cursor. mstep. mstep. mstep. destruct H2 as (S2 & [W2 C2] & U2). apply save_spec; [apply S2| | |].
  - right. right. apply underway_handled in U2 as (pre & mid & E & Hh & F). exists r, pre, mid. by rewrite Es.
  - intros c3 S3 Ec Et El Ev Eb. mstep. mstep.
    assert (R : mwp (request env "ack" (ack_json seq)) (fun e c => steady c /\ en_Body e = marshal (ack_json (saved_seq c)))
                  (fun e => mortal (TFatal e)) c3).
    { assert (N : Neutral (fun c => steady c /\ saved_seq c = seq)) by (apply Neutral_and; [apply _|apply saved_neutral]).
      apply (request_spec (fun c => steady c /\ saved_seq c = seq)).
      - split; [done|]. unfold saved_seq. by rewrite <- El, Ec.
      - intros id c4 [S4 E4]. split; [done|]. cbn. by rewrite E4.
      - intros e' c4 [S4 _]. by apply mortal_steady. }
    eapply mwp_mono; [exact R| |done]. intros a c4 [S4 B4]. mstep; [|by mstep]. apply mwp_send; [|by apply mortal_steady].
    cbv beta zeta. apply steady_act; [by intros []|by intros _|]. by apply (ne_link (P:=steady)).
  - intros e' c3 D. split; [done|]. eauto.
Qed.

(** ** The welcome, frames and rounds *)

Lemma steady_before c : decent c -> cu_LastAppliedSeq (cl_cursor c) = 0 \/ cu_LastAppliedSeq (cl_cursor c) = saved_seq c ->
  tk_welcomed (cl_talk c) = false -> steady c.
Proof. intros D N W. split; [done|]. split; [done|congruence]. Qed.
Lemma welcome_spec target e c : steady c -> tk_welcomed (cl_talk c) = false ->
  mwp (on_welcome dp env target e) (fun _ => steady) mortal c.
Proof.
  intros S W. pose proof S as [D [N _]]. unfold on_welcome. mstep. mstep. mstep.
  { mstep. mstep; mstep; mstep; by apply mortal_steady. }
  mstep; [|mstep; by apply mortal_steady]. mstep; [mstep; by apply mortal_steady|]. mstep.
  - mstep; [mstep; by apply mortal_steady|]. mstep. unfold move_cursor. mstep. mstep. mstep. mstep. mstep. mstep. mstep.
    apply save_spec; [done|by left| |].
    + intros c' S' _ _ _ _ _. mstep. by apply mortal_steady.
    + intros e' c' D'. split; [done|eauto].
  - mstep. unfold move_cursor. mstep. mstep. mstep.
    set (cu := {| cu_Target := target; cu_RoomID := we_RoomID a; cu_LastAppliedSeq := _ |}).
    assert (Nc : cu_LastAppliedSeq cu = 0 \/ cu_LastAppliedSeq cu = saved_seq c) by (cbn; case_match; [by left|done]).
    mstep.
    { mstep. mstep. mstep. apply mortal_steady. by apply steady_before. }
    mstep. mstep. apply save_spec; [done|naive_solver| |intros e' c' D'; split; [done|eauto]].
    intros c' S' _ _ El _ _. mstep. mstep.
    apply (keeps_both (fun c => steady c /\ cl_cursor c = last_saved c0 (cl_trace c))).
    { apply keeps_print; [|printable_line]. apply Neutral_and; [apply _|]. split; try done. intros x c1 Q%quiet_no_save H1. by rewrite last_saved_act. }
    { done. }
    2: { intros e' c1 [S1 _]. by apply mortal_steady. }
    intros [] c1 [S1 E1]. mstep. apply (keeps_both (fun c => steady c /\ cl_cursor c = last_saved c0 (cl_trace c))).
    { apply keeps_callback; [|done]. apply Neutral_and; [apply _|]. split; try done. intros x c2 Q%quiet_no_save H1. by rewrite last_saved_act. }
    { done. }
    2: { intros e' c2 [S2 _]. by apply mortal_steady. }
    intros [] c2 [S2 E2]. mstep. mstep. apply (keeps_both steady); [by apply keeps_callback; [apply _|]| |done|].
    + destruct S2 as [D2 [N2 _]]. split; [done|]. by split.
    + intros ? ? ?. by apply mortal_steady.
Qed.
Lemma steady_mwp {A} (m : M A) c : keeps steady m -> steady c -> mwp m (fun _ => steady) mortal c.
Proof. intros K S. apply (keeps_both steady); try done. intros ? ? ?. by apply mortal_steady. Qed.
Lemma frame_spec target e c : steady c -> mwp (on_frame dp env target e) (fun _ => steady) mortal c.
Proof.
  intros S. unfold on_frame, now. mstep. mstep. mstep. mstep. mstep. mstep.
  set (c1 := set_talk _ _). assert (S1 : steady c1). { apply (ne_talk (P:=steady)); [done..|]. by apply (ne_calls (P:=steady)). }
  clearbody c1. clear c S. mstep.
  - bool_props. by apply welcome_spec.
  - bool_props. mstep; [apply steady_mwp; [|done]; apply keeps_answer; apply _|]. mstep; [mstep; by apply mortal_steady|].
    mstep; [apply steady_mwp; [|done]; apply keeps_snapshot; [apply _..|by intros c2]|]. mstep; [by apply durable_spec|].
    mstep; [mstep; by apply mortal_steady|]. apply steady_mwp; [|done]. apply keeps_transient; apply _.
Qed.
Lemma terminal_round_spec target x c : steady c -> mwp (round dp env target x) (fun _ => steady) mortal c.
Proof.
  intros S. destruct x; cbn [round].
  - apply steady_mwp; [|done]. apply keeps_roster; apply _.
  - mstep. mstep. mstep; mstep; [by apply mortal_steady|done].
  - apply steady_mwp; [|done]. apply keeps_timer; apply _.
  - mstep. mstep. mstep; [|by mstep]. apply steady_mwp; [|done]. apply keeps_submission; apply _.
  - mstep. apply (keeps_both steady); [by apply keeps_read_frame|done| |].
    + intros e c1 S1. by apply frame_spec.
    + intros ? ? ?. by apply mortal_steady.
Qed.

(** ** Runs *)

Definition sound (r : run) : Prop :=
  match ru_phase r with
  | PhDone _ => decent (ru_client r)
  | PhSession => steady (ru_client r)
  | _ => rested (ru_client r)
  end.
Lemma begin_session_spec con src c : rested c -> mwp (begin_session env con src) (fun _ => steady) (fun _ => rested) c.
Proof.
  intros R. unfold begin_session. mstep. mstep. mstep. mstep. mstep. mstep.
  apply (request_spec rested); [exact R| |done].
  intros id c1 R1. mstep. apply mwp_send; [|done]. cbv beta zeta. unfold now. mstep. mstep. mstep. split; [|split; [|done]].
  - split; [|apply R1]. apply (rules_snoc); [apply R1|]. done.
  - unfold saved_seq. cbn. rewrite last_saved_snoc. apply R1.
Qed.
Lemma session_over_spec e r : decent (ru_client r) -> (ru_cancelled r = false -> (forall e', e <> TFatal e') -> rested (ru_client r)) ->
  sound (session_over dp env e r).
Proof.
  intros D R. unfold session_over. set (c := if dp_OnConnection dp then _ else _).
  assert (Dc : decent c) by (subst c; destruct (dp_OnConnection dp); [by apply (ne_act (P:=decent))|done]).
  assert (Rc : ru_cancelled r = false -> (forall e', e <> TFatal e') -> rested c).
  { intros H1 H2. specialize (R H1 H2). subst c. destruct (dp_OnConnection dp); [by apply (ne_act (P:=rested))|done]. }
  clearbody c. destruct (ru_cancelled r) eqn:C; cbn; rewrite C; [done|].
  assert (W : (forall e', e <> TFatal e') -> sound
    (match jitter env (ru_backoff r) (record_act (AcLost e) c) with
     | (c0, Ok delay) => set_phase (PhWaiting delay) (set_client c0 (set_client c r))
     | (c0, Err err) => set_phase (PhDone (Some err)) (set_client c0 (set_client c r))
     end)).
  { intros N. specialize (Rc eq_refl N).
    assert (K : rested (jitter env (ru_backoff r) (record_act (AcLost e) c)).1).
    { apply (ne_act (P:=rested) (AcLost e)) in Rc; [|done]. revert Rc. apply keeps_seq; [apply keeps_read_random; apply _|intros b; apply keeps_ok]. }
    destruct (jitter env (ru_backoff r) (record_act (AcLost e) c)) as [c1 [d|err]]; [exact K|apply K]. }
  destruct e; try (apply W; discriminate); try done. by apply Rc.
Qed.
Lemma in_session_spec m r : mwp m (fun _ => steady) mortal (ru_client r) -> ru_phase r = PhSession -> sound (in_session dp env m r).
Proof.
  unfold mwp, in_session, sound at 1. intros H Ph. destruct (m (ru_client r)) as [c [u|e]].
  - unfold sound. cbn. by rewrite Ph.
  - destruct H as [D F]. apply session_over_spec; cbn; [done|]. intros _ N. destruct F as [|[e' E]]; [done|]. by destruct (N e').
Qed.

Lemma report_keeps (P : client -> Prop) {HP : Neutral P} r : P (ru_client r) -> P (ru_client (report r)) /\ ru_phase (report r) = ru_phase r.
Proof. intros H. unfold report. destruct (0 <? _); cbn; [|done]. split; [|done]. by apply ne_act. Qed.
Lemma sound_report r : sound r -> sound (report r).
Proof.
  unfold sound. intros H. destruct (ru_phase r) eqn:Ph.
  - destruct (report_keeps rested r H) as [K ->]. by rewrite Ph.
  - destruct (report_keeps steady r H) as [K ->]. by rewrite Ph.
  - destruct (report_keeps rested r H) as [K ->]. by rewrite Ph.
  - destruct (report_keeps decent r H) as [K ->]. by rewrite Ph.
Qed.
Lemma sound_phase r : sound r -> decent (ru_client r).
Proof. unfold sound. destruct (ru_phase r); [by intros []..|done]. Qed.
Lemma sound_step target r m : sound r -> sound (move_step dp env target r m).
Proof.
  intros H. pose proof (sound_phase r H) as D.
  assert (T : ru_phase r = PhSession -> steady (ru_client r)) by (unfold sound in H; by destruct (ru_phase r)).
  assert (O : forall e, ru_phase r = PhSession -> sound (session_over dp env e r)).
  { intros e Ph. apply session_over_spec; [done|]. intros _ _. apply steady_rested. by apply T. }
  assert (V : sound (take_overflow r)) by (unfold take_overflow; destruct (in_overflow _); [by apply sound_report|done]).
  destruct m; cbn [move_step].
  - destruct (ru_phase r) eqn:Ph; try done. destruct (ru_cancelled r); [done|]. unfold sound in H. rewrite Ph in H. destruct r0 as [[con src]|e].
    + apply in_session_spec; [|done]. cbn. eapply mwp_mono; [by apply begin_session_spec|done|]. intros e c R. split; [apply R|by left].
    + by apply session_over_spec.
  - destruct (ru_phase r) eqn:Ph; try done. apply in_session_spec; [|done]. apply terminal_round_spec. by apply T.
  - destruct (ru_phase r) eqn:Ph; try done. unfold take_line. destruct (negb _); [done|]. destruct (in_lines _) as [|line rest].
    + destruct (in_scanning _); [done|]. by apply O.
    + apply in_session_spec; [|done]. cbn. apply steady_mwp; [apply keeps_line; apply _|by apply T].
  - destruct (ru_phase r) eqn:Ph; done.
  - destruct (ru_phase r) eqn:Ph; try done; destruct (ru_cancelled r); [by apply O|done|done|done].
  - unfold sound in *. destruct (ru_phase r) eqn:Ph; try done; by rewrite ?Ph.
  - destruct (ru_phase r) eqn:Ph; try done. unfold sound. cbn. rewrite Ph. apply keeps_write_next; [apply _|by apply T].
  - destruct (negb _); [done|]. destruct (is_quit _); done.
  - destruct (in_scanning _); done.
  - done.
  - destruct (ru_phase r) eqn:Ph; try done. destruct (in_scanning _); [done|]. by apply sound_report.
Qed.
End safety.

(** in every run, whatever the server sends and however often the connection is
    lost, a durable event is shown only when it is newer than the cursor saved
    last; the cursor that is saved is the old one, the start, or the event that was
    just shown and that every callback has taken without error; and the
    acknowledgement that is sent names the cursor saved last. *)
Theorem cursor_follows_events dp env target c0 r0 moves :
  Run target (Ok c0) = Ok r0 -> lawful dp c0 (cl_trace (ru_client (run_moves dp env target r0 moves))).
Proof.
  intros R. assert (S0 : sound dp c0 r0).
  { unfold Run in R. destruct (ValidateTarget target); [|done]. cbn in R. simplify_eq. split; [split; [apply lawful_nil|by intros ? ?]|by right]. }
  assert (S : sound dp c0 (run_moves dp env target r0 moves)).
  { clear R. unfold run_moves. revert r0 S0. induction moves as [|m l IH]; intros r S0; cbn; [done|]. apply IH. by apply sound_step. }
  apply (sound_phase dp c0 _ S).
Qed.
Lemma cursor_follows_events_witness :
  let r := run_moves demo_deps demo_outside "host" demo_start demo_moves in
  Run "host" (Ok demo_cursor) = Ok demo_start
  /\ lawful demo_deps demo_cursor (cl_trace (ru_client r))
  /\ cu_LastAppliedSeq (last_saved demo_cursor (cl_trace (ru_client r))) = 1.
Proof.
  split; [vm_compute; reflexivity|]. split; [|vm_compute; reflexivity].
  apply (cursor_follows_events demo_deps demo_outside "host" demo_cursor demo_start demo_moves). vm_compute. reflexivity.
Defined.
