(* ===== verification/TerminalBook.v ===== *)
(** * Requests of a terminal client

    What becomes of the requests of users and of the browser window: each
    submission is answered at most once and waits until then, a request that was
    not answered is kept through every reconnection and sent again. *)
From S2P Require Import Prelude GoStrings Json RoomTypes Projection StrictJson GoDecode Wire Messages.
From S2P Require Import TerminalText TerminalView TerminalPrint Terminal TerminalLogic.

(** ** Properties of requests only *)

Definition plain (a : act) : Prop := match a with AcResolve _ _ => False | AcPrint text => printable text | _ => True end.
Class Loose (P : client -> Prop) : Prop := {
  lo_calls : forall n c, P c -> P (set_calls n c);
  lo_link : forall l c, P c -> P (set_link l c);
  lo_view : forall v c, P c -> P (set_view v c);
  lo_talk : forall t c, tk_ready t = tk_ready (cl_talk c) -> P c -> P (set_talk t c);
  lo_fresh : forall t c, tk_ready t = false -> P c -> P (set_talk t c);
  lo_cursor : forall x c, P c -> P (set_cursor x c);
  lo_probe : forall b c, P c -> P (set_probe b c);
  lo_act : forall a c, plain a -> P c -> P (record_act a c) }.
Section loose.
Context (dp : Deps) (env : outside) (P : client -> Prop) {HL : Loose P}.
#[local] Instance Loose_Neutral : Neutral P.
Proof.
  split; [apply lo_calls|intros l c _; apply lo_link|apply lo_view|intros t c _; apply lo_talk|]. intros a c Q. apply lo_act. by destruct a.
Qed.
Lemma keeps_plain a : plain a -> keeps P (act_ a).
Proof. intros H c Hc. by apply lo_act. Qed.
Lemma keeps_any_talk f : (forall t, tk_ready (f t) = tk_ready t) -> keeps P (on_talk f).
Proof. intros H c Hc. by apply lo_talk. Qed.
Lemma keeps_move_cursor room target seq : keeps P (move_cursor room target seq).
Proof. intros c Hc. by apply lo_cursor. Qed.
Lemma keeps_set_probe b : keeps P (change (set_probe b)).
Proof. intros c Hc. by apply lo_probe. Qed.
Lemma keeps_any_link l : keeps P (change (set_link l)).
Proof. intros c Hc. by apply lo_link. Qed.
Lemma keeps_any_send e : keeps P (send e).
Proof. apply keeps_send; [intros l c _; apply lo_link|]. intros c Hc. by apply lo_act. Qed.
Lemma keeps_any_view f : keeps P (change (fun c => set_view (f c) c)).
Proof. intros c Hc. by apply lo_view. Qed.
Lemma keeps_one_view v : keeps P (change (set_view v)).
Proof. intros c Hc. by apply lo_view. Qed.
#[local] Hint Extern 1 (keeps P (on_talk _)) => apply keeps_any_talk; by intros ? : keeps.
#[local] Hint Resolve keeps_move_cursor keeps_set_probe keeps_any_link keeps_any_send keeps_any_view keeps_one_view : keeps.
#[local] Hint Extern 1 (keeps P (act_ _)) => apply keeps_plain; exact I : keeps.
#[local] Hint Extern 1 (keeps P (callback _ _)) => apply keeps_callback; [apply _|exact I] : keeps.
#[local] Hint Extern 1 (keeps P (ask _)) => apply keeps_ask, lo_calls : keeps.
#[local] Hint Extern 1 (keeps P (print _ _)) => apply keeps_print; [apply _|solve [printable_line]] : keeps.
#[local] Hint Extern 1 (keeps P (request _ _ _)) => apply keeps_request; apply _ : keeps.
Lemma keeps_save : keeps P (save_cursor env).
Proof. unfold save_cursor. keep. Qed.
#[local] Hint Resolve keeps_save : keeps.
Lemma keeps_any_look_up kind : keeps P (look_up env kind).
Proof. unfold look_up. keep. Qed.
Lemma keeps_handler a : (forall b, plain (a b)) -> keeps P (handler env a).
Proof. intros H. unfold handler. keep; by apply keeps_plain. Qed.
#[local] Hint Resolve keeps_any_look_up : keeps.
Lemma keeps_durable e seq : keeps P (on_durable dp env e seq).
Proof. unfold on_durable, show_event. keep; by apply keeps_handler. Qed.
Lemma keeps_welcome target e : keeps P (on_welcome dp env target e).
Proof. unfold on_welcome. keep. Qed.
Lemma keeps_begin con src : keeps P (begin_session env con src).
Proof. unfold begin_session, now. keep. intros c Hc. by apply lo_fresh. Qed.
Lemma keeps_jitter b : keeps P (jitter env b).
Proof. unfold jitter. keep. apply keeps_read_random; apply _. Qed.

Context {HB : Booked env P}.
(** The first snapshot apart. *)
Lemma keeps_frame_but target e : (en_Method e = "runtime-snapshot" -> keeps P (on_snapshot dp env e)) -> keeps P (on_frame dp env target e).
Proof.
  intros S. unfold on_frame, now. keep;
    first [by apply keeps_welcome | by apply keeps_answer; apply _ | by apply S, String.eqb_eq | by apply keeps_durable | by apply keeps_transient; apply _].
Qed.
Definition hard (x : choice) : Prop := match x with OnSubmission _ _ | OnFrame => True | _ => False end.
Lemma keeps_round target x : ~ hard x -> keeps P (round dp env target x).
Proof.
  intros N. destruct x; cbn [round]; [apply keeps_roster; apply _| |apply keeps_timer; apply _|by destruct N..]. keep.
Qed.
Lemma session_over_keeps e r : P (ru_client r) -> P (ru_client (session_over dp env e r)).
Proof.
  intros H. unfold session_over. set (c := if dp_OnConnection dp then _ else _).
  assert (Hc : P c) by (subst c; destruct (dp_OnConnection dp); [by apply lo_act|done]). clearbody c.
  cbn. destruct (ru_cancelled r); [done|].
  pose proof (keeps_jitter (ru_backoff r) (record_act (AcLost e) c) (lo_act (AcLost e) c I Hc)) as K.
  destruct e; try done; by destruct (jitter env _ _) as [c1 [d|err]].
Qed.
Lemma in_session_keeps m r : P (m (ru_client r)).1 -> P (ru_client (in_session dp env m r)).
Proof.
  intros H. unfold in_session. destruct (m (ru_client r)) as [c [u|e]]; [done|]. by apply session_over_keeps.
Qed.
Lemma report_keeps_loose r : P (ru_client r) -> P (ru_client (report r)).
Proof. intros H. unfold report. destruct (0 <? _); cbn; [|done]. by apply lo_act. Qed.
(** A move keeps what frames and submissions keep. *)
Lemma move_keeps target r m : (forall x, m = MvRound x -> hard x -> P (round dp env target x (ru_client r)).1) ->
  P (ru_client r) -> P (ru_client (move_step dp env target r m)).
Proof.
  intros N H. destruct m; cbn [move_step].
  - destruct (ru_phase r); try done. destruct (ru_cancelled r); [done|]. destruct r0 as [[con src]|e]; [|by apply session_over_keeps].
    apply in_session_keeps. by apply keeps_begin.
  - destruct (ru_phase r); try done. apply in_session_keeps. destruct x; first [by apply N | apply keeps_round; [by intros []|done]].
  - destruct (ru_phase r); try done. unfold take_line. destruct (negb _); [done|]. destruct (in_lines _) as [|line rest].
    + destruct (in_scanning _); [done|]. by apply session_over_keeps.
    + apply in_session_keeps. cbn. apply keeps_line; [apply _..|done].
  - destruct (ru_phase r); try done; unfold take_overflow; destruct (in_overflow _); try done; by apply report_keeps_loose.
  - destruct (ru_phase r); try done; destruct (ru_cancelled r); try done. by apply session_over_keeps.
  - by destruct (ru_phase r).
  - destruct (ru_phase r); try done. apply keeps_write_next; [apply _|done].
  - destruct (negb _); [done|]. by destruct (is_quit _).
  - by destruct (in_scanning _).
  - done.
  - destruct (ru_phase r); try done. destruct (in_scanning _); [done|]. by apply report_keeps_loose.
Qed.
Lemma keeps_frame_round {HR : Readable P} target : keeps P (round dp env target OnFrame).
Proof.
  cbn [round]. apply keeps_seq; [apply keeps_read_frame, lo_link|intros e]. apply keeps_frame_but. intros _. by apply keeps_snapshot; [apply _..|].
Qed.
Lemma keeps_submission_round target s expired : keeps P (on_submission env s expired) -> keeps P (round dp env target (OnSubmission s expired)).
Proof. intros K. cbn [round]. keep. Qed.
Lemma moves_keep {HR : Readable P} target r l : (forall s expired, keeps P (on_submission env s expired)) ->
  P (ru_client r) -> P (ru_client (run_moves dp env target r l)).
Proof.
  intros K. revert r. induction l as [|m l IH]; intros r H; [done|]. apply IH. apply move_keeps; [|done]. intros x _ Hx.
  destruct x; try done; [by apply keeps_submission_round|by apply keeps_frame_round].
Qed.
End loose.
#[export] Existing Instance Loose_Neutral.

(** ** Every submission is accounted for *)

Section submissions.
Context (dp : Deps) (env : outside).

Definition answers_to (w : nat) (a : act) : bool := match a with AcResolve x _ => Nat.eqb x w | _ => false end.
(** How often [w] was answered, and how often it waits. *)
Definition answered_count (w : nat) (tr : list act) : nat := length (List.filter (answers_to w) tr).
Definition waiting_in (w : nat) (m : gmap string (list nat)) : nat := map_fold (fun _ l n => (count_occ Nat.eq_dec l w + n)%nat) 0%nat m.
Definition waiting_count (w : nat) (b : book) : nat := waiting_in w (bk_replies b).
Definition tally (w : nat) (c : client) : nat := (answered_count w (cl_trace c) + waiting_count w (cl_book c))%nat.
Definition counts (w n : nat) (c : client) : Prop := methods_ok (cl_book c) /\ tally w c = n.

Lemma answered_snoc w tr a : answered_count w (tr ++ [a]) = (answered_count w tr + if answers_to w a then 1 else 0)%nat.
Proof. unfold answered_count. rewrite List.filter_app, length_app. cbn. by destruct (answers_to w a). Qed.
Lemma waiting_fresh w m id l : m !! id = None -> waiting_in w (<[id := l]> m) = (count_occ Nat.eq_dec l w + waiting_in w m)%nat.
Proof. intros H. unfold waiting_in. rewrite map_fold_insert_L; [done| |done]. intros. lia. Qed.
Lemma waiting_delete w m id : (waiting_in w (delete id m) + count_occ Nat.eq_dec (default [] (m !! id)) w = waiting_in w m)%nat.
Proof.
  destruct (m !! id) as [l|] eqn:E; cbn.
  - rewrite <- (insert_delete_id m id l E) at 2. rewrite waiting_fresh by apply lookup_delete_eq. cbn. lia.
  - rewrite delete_id by done. cbn. lia.
Qed.
Lemma waiting_insert w m id l : (waiting_in w (<[id := l]> m) + count_occ Nat.eq_dec (default [] (m !! id)) w = waiting_in w m + count_occ Nat.eq_dec l w)%nat.
Proof.
  rewrite <- insert_delete_eq. rewrite waiting_fresh by apply lookup_delete_eq. pose proof (waiting_delete w m id). lia.
Qed.
Lemma answered_resolved w err l c : answered_count w (cl_trace (resolved err l c)) = (answered_count w (cl_trace c) + count_occ Nat.eq_dec l w)%nat.
Proof.
  revert c. induction l as [|x l IH]; intros c; [cbn; lia|].
  change (resolved err (x :: l) c) with (resolved err l (record_act (AcResolve x err) c)).
  rewrite IH. cbn [record_act cl_trace]. rewrite answered_snoc. cbn [answers_to count_occ].
  destruct (Nat.eqb_spec x w), (Nat.eq_dec x w); try congruence; lia.
Qed.
Lemma resolved_book err l c : cl_book (resolved err l c) = cl_book c.
Proof. revert c. induction l as [|x l IH]; intros c; [done|]. apply (IH (record_act (AcResolve x err) c)). Qed.
Lemma resolved_talk err l c : cl_talk (resolved err l c) = cl_talk c.
Proof. revert c. induction l as [|x l IH]; intros c; [done|]. apply (IH (record_act (AcResolve x err) c)). Qed.
#[local] Instance counts_loose w n : Loose (counts w n).
Proof.
  split; try done. intros a c Q [M T]. split; [done|]. unfold tally in *. cbn [record_act cl_trace cl_book]. rewrite answered_snoc.
  assert (answers_to w a = false) as -> by by destruct a. cbn in T. lia.
Qed.
#[local] Instance counts_booked w n : Booked env (counts w n).
Proof.
  split; [|unfold counts, tally, waiting_count..].
  - intros b c S [M T]. split; [by eapply methods_step|]. by destruct S.
  - intros e c [M T]. split; [by apply map_Forall_delete|]. cbn [set_book record_act cl_trace cl_book answered bk_replies].
    rewrite answered_snoc. cbn [answers_to]. lia.
  - by intros c [M _].
  - intros id err c [M T]. unfold settle. cbv zeta.
    split; [cbn; by rewrite resolved_book|]. cbn [set_book cl_trace cl_book forget_waiters bk_replies]. rewrite answered_resolved, resolved_book.
    unfold waiters. pose proof (waiting_delete w (bk_replies (cl_book c)) id). lia.
Qed.
#[local] Instance counts_readable w n : Readable (counts w n).
Proof. by intros c. Qed.
Lemma accept_waiting w e x b :
  waiting_count w (accept_submission e x b).1
  = (waiting_count w b + match (accept_submission e x b).2 with Some _ => 0 | None => if Nat.eqb x w then 1 else 0 end)%nat.
Proof.
  assert (R : forall l, waiting_in w (<[en_ID e := default [] (bk_replies b !! en_ID e) ++ [x]]> l) =
    (waiting_in w l + if Nat.eqb x w then 1 else 0)%nat \/ l <> bk_replies b).
  { intros l. destruct (decide (l = bk_replies b)) as [->|]; [left|by right]. pose proof (waiting_insert w (bk_replies b) (en_ID e) (default [] (bk_replies b !! en_ID e) ++ [x])) as I.
    rewrite count_occ_app in I. cbn [count_occ] in I. destruct (Nat.eqb_spec x w), (Nat.eq_dec x w); try congruence; lia. }
  specialize (R (bk_replies b)) as [R|R]; [|done]. unfold accept_submission, waiting_count, waiters. cbv zeta. cbn [bk_pending bk_replies].
  destruct (bk_pending b !! en_ID e); (destruct (negb _) || destruct (Nat.leb _ _)); try (cbn; lia);
    destruct (Nat.leb _ _); cbn [fst snd bk_replies]; lia.
Qed.

(** A submission that the loop takes. *)
Definition reads (r : run) (w : nat) (m : move) : nat :=
  match m, ru_phase r with
  | MvRound (OnSubmission s _), PhSession =>
      if tk_ready (cl_talk (ru_client r)) && negb (dp_ReadOnly dp) && Nat.eqb (sb_Result s) w then 1%nat else 0%nat
  | _, _ => 0%nat
  end.
Fixpoint all_reads (target : string) (r : run) (w : nat) (l : list move) : nat :=
  match l with [] => 0%nat | m :: rest => (reads r w m + all_reads target (move_step dp env target r m) w rest)%nat end.
Lemma submission_counts w n s expired c : counts w n c ->
  counts w (n + if Nat.eqb (sb_Result s) w then 1 else 0)%nat (on_submission env s expired c).1.
Proof.
  intros H.
  assert (R : forall e, counts w (n + if Nat.eqb (sb_Result s) w then 1 else 0)%nat (record_act (AcResolve (sb_Result s) e) c)).
  { intros e. destruct H as [M T]. split; [done|]. unfold tally in *. cbn [record_act cl_trace cl_book]. rewrite answered_snoc. cbn [answers_to]. lia. }
  apply submission_leaves; [apply _|exact R|]. intros e _ N. cbv zeta. pose proof (accept_waiting w e (sb_Result s) (cl_book c)) as A.
  pose proof (methods_accept e (sb_Result s) _ N (proj1 H)) as M. destruct (accept_submission e (sb_Result s) (cl_book c)) as [b refusal].
  cbn [fst snd] in *. destruct H as [_ T]. unfold tally in T. destruct refusal as [err|]; (split; [exact M|]);
    unfold tally; cbn [record_act set_book cl_trace cl_book]; rewrite ?answered_snoc; cbn [answers_to]; lia.
Qed.
Lemma move_counts target r w n m : counts w n (ru_client r) -> counts w (n + reads r w m)%nat (ru_client (move_step dp env target r m)).
Proof.
  intros H. assert (D : (exists s x, m = MvRound (OnSubmission s x)) \/ forall s x, m <> MvRound (OnSubmission s x)).
  { destruct m as [|[| | |s x|]| | | | | | | | |]; eauto. all: by right. }
  destruct D as [(s & x & ->)|N].
  - cbn [reads move_step]. destruct (ru_phase r); rewrite ?Nat.add_0_r; try done. apply in_session_keeps; [apply _..|].
    cbn [round]. unfold try_bind at 1, get. destruct (tk_ready _ && _); cbn [andb]; [|by rewrite Nat.add_0_r].
    by apply submission_counts.
  - assert (reads r w m = 0%nat) as ->.
    { destruct m as [|[| | |s x|]| | | | | | | | |]; try done. by destruct (N s x). }
    rewrite Nat.add_0_r. apply move_keeps; [apply _..| |done]. intros x -> Hx. destruct x; try done; [by destruct (N s expired)|].
    by apply keeps_frame_round; [apply _..|].
Qed.
Lemma moves_count target r w n l : counts w n (ru_client r) -> counts w (n + all_reads target r w l)%nat (ru_client (run_moves dp env target r l)).
Proof.
  revert r n. induction l as [|m l IH]; intros r n H; cbn; [by rewrite Nat.add_0_r|]. apply (move_counts target _ _ _ m), IH in H.
  by rewrite Nat.add_assoc.
Qed.
End submissions.

(** ** A request is kept until it is answered *)

Section kept.
Context (dp : Deps) (env : outside) (id body : string) (tr0 : list act).
Definition pends (b : book) : Prop := exists e, bk_pending b !! id = Some e /\ en_Body e = body.
Definition came (new : list act) : Prop := exists e, AcAnswered e ∈ new /\ en_ID e = id.
Definition kept (c : client) : Prop :=
  methods_ok (cl_book c) /\ exists new, cl_trace c = tr0 ++ new /\ (pends (cl_book c) \/ came new).
Lemma kept_act a c : kept c -> kept (record_act a c).
Proof.
  intros (M & new & E & H). split; [done|]. exists (new ++ [a]). cbn. rewrite E, app_assoc. split; [done|].
  destruct H as [H|(e & He & Ee)]; [by left|right]. exists e. split; [|done]. apply elem_of_app. by left.
Qed.
Lemma kept_resolved err l c : kept c -> kept (resolved err l c).
Proof. revert c. induction l as [|w l IH]; intros c H; [done|]. by apply (IH (record_act (AcResolve w err) c)), kept_act. Qed.
#[local] Instance kept_loose : Loose kept.
Proof. split; try done. intros a c _. apply kept_act. Qed.
#[local] Instance kept_readable : Readable kept.
Proof. by intros c. Qed.
Hypothesis fresh : ~ drawn env id.
#[local] Instance kept_booked : Booked env kept.
Proof.
  split.
  - intros b c S (M & new & E & H). split; [by eapply methods_step|]. exists new. split; [done|].
    destruct H as [(e & He & Eb)|H]; [left|by right]. exists e. split; [|done]. destruct S as [e' N D|o O]; [|done].
    cbn. rewrite lookup_insert_ne; [done|]. by intros <-.
  - intros e c (M & new & E & H). split; [by apply map_Forall_delete|]. exists (new ++ [AcAnswered e]). cbn. rewrite E, app_assoc.
    split; [done|]. destruct (decide (en_ID e = id)) as [Ee|N].
    { right. exists e. split; [|done]. apply elem_of_app. right. left. }
    destruct H as [(x & Hx & Eb)|(x & Hx & Ex)]; [left; exists x|right; exists x].
    + cbn. by rewrite lookup_delete_ne.
    + split; [|done]. apply elem_of_app. by left.
  - by intros c [M _].
  - intros i err c H. unfold settle. cbv zeta. apply (kept_resolved err (waiters i (cl_book c))) in H. exact H.
Qed.
Lemma submission_kept s expired : keeps kept (on_submission env s expired).
Proof.
  intros c H. apply submission_leaves; [apply _|intros e; by apply kept_act|]. intros e _ N. cbv zeta.
  assert (K : kept (set_book (accept_submission e (sb_Result s) (cl_book c)).1 c)).
  { destruct H as (M & new & Et & H). split; [by apply methods_accept|]. exists new. split; [done|]. destruct H as [(x & Hx & Eb)|H]; [left|by right].
    cbn. unfold accept_submission. cbv zeta. destruct (decide (en_ID e = id)) as [Ei|Ni].
    - rewrite Ei, Hx. destruct (String.eqb_spec (en_Body x) (en_Body e)) as [Ee|]; cbn [negb]; [|by exists x].
      destruct (Nat.leb _ _); exists e; cbn; rewrite lookup_insert_eq; by rewrite <- Ee.
    - destruct (bk_pending (cl_book c) !! en_ID e); (destruct (negb _) || destruct (Nat.leb _ _)); try (by exists x);
        destruct (Nat.leb _ _); exists x; cbn; by rewrite lookup_insert_ne. }
  destruct (accept_submission _ _ _).2; [by apply kept_act|done].
Qed.
Lemma moves_kept target r l : kept (ru_client r) -> kept (ru_client (run_moves dp env target r l)).
Proof. apply moves_keep; [apply _..|]. apply submission_kept. Qed.
End kept.

(** ** What waits is in the order of the requests *)

Section ordered.
Context (dp : Deps) (env : outside).
Definition ordered (c : client) : Prop :=
  methods_ok (cl_book c) /\ forall id, is_Some (bk_pending (cl_book c) !! id) -> id ∈ bk_order (cl_book c).
Lemma remove_first_other id x l : x ∈ l -> x <> id -> x ∈ remove_first id l.
Proof.
  induction l as [|y l IH]; intros H N; [done|]. cbn. destruct (String.eqb_spec y id) as [->|].
  - by apply elem_of_cons in H as [|].
  - apply elem_of_cons in H as [->|H]; [left|right; by apply IH].
Qed.
#[local] Instance ordered_loose : Loose ordered.
Proof. by split. Qed.
#[local] Instance ordered_readable : Readable ordered.
Proof. by intros c. Qed.
#[local] Instance ordered_booked : Booked env ordered.
Proof.
  split.
  - intros b c S [M O]. split; [by eapply methods_step|]. intros id H. destruct S as [e N D|o Ho]; cbn in *.
    + destruct (decide (en_ID e = id)) as [->|Ne]; [apply elem_of_app; right; left|]. rewrite lookup_insert_ne in H by done.
      apply elem_of_app. left. by apply O.
    + apply Ho; [by apply O|done].
  - intros e c [M O]. split; [by apply map_Forall_delete|]. intros id H. cbn in *.
    destruct (decide (en_ID e = id)) as [Ee|Ne]; [rewrite Ee, lookup_delete_eq in H; by destruct H|]. rewrite lookup_delete_ne in H by done.
    apply remove_first_other; [by apply O|done].
  - by intros c [M _].
  - intros id err c [M O]. unfold settle. cbv zeta. split; cbn; rewrite resolved_book; [exact M|exact O].
Qed.
Lemma accept_ordered e x c : ordered c -> en_Method e <> "ack" -> ordered (set_book (accept_submission e x (cl_book c)).1 c).
Proof.
  intros [M O] N. split; [by apply methods_accept|]. intros id H. cbn in *. revert H. unfold accept_submission. cbv zeta.
  destruct (bk_pending (cl_book c) !! en_ID e) as [old|] eqn:E.
  - destruct (negb _); [apply O|]. destruct (Nat.leb _ _); cbn; (destruct (decide (en_ID e = id)) as [<-|Ne]; [intros _; apply O; by rewrite E|]);
      rewrite lookup_insert_ne by done; apply O.
  - destruct (Nat.leb _ _); [apply O|]. destruct (Nat.leb _ _); cbn; (destruct (decide (en_ID e = id)) as [<-|Ne];
      [intros _; apply elem_of_app; right; left|]); rewrite lookup_insert_ne by done; intros H; apply elem_of_app; left; by apply O.
Qed.
Lemma moves_ordered target r l : ordered (ru_client r) -> ordered (ru_client (run_moves dp env target r l)).
Proof.
  apply moves_keep; [apply _..|]. intros s expired c H. apply submission_leaves; [apply _|by intros err; apply H|].
  intros x _ N. cbv zeta. pose proof (accept_ordered x (sb_Result s) _ H N) as K. by destruct (accept_submission _ _ _).2.
Qed.

(** ** A session that becomes ready sends it all *)

Definition unready (c : client) : Prop := methods_ok (cl_book c) /\ tk_ready (cl_talk c) = false.
#[local] Instance unready_loose : Loose unready.
Proof. split; try done; intros t c E [M R]; split; try done; cbn; congruence. Qed.
#[local] Instance unready_booked : Booked env unready.
Proof.
  split.
  - intros b c S [M R]. split; [by eapply methods_step|done].
  - intros e c [M R]. split; [by apply map_Forall_delete|done].
  - by intros c [M _].
  - intros id err c [M R]. unfold settle. cbv zeta. split; cbn; [by rewrite resolved_book|by rewrite resolved_talk].
Qed.
(** The queue takes every request that waits, in their order. *)
Lemma send_ok e c c' : send e c = (c', Ok tt) -> cl_trace c' = cl_trace c ++ [AcSend e] /\ cl_book c' = cl_book c.
Proof. unfold send. destruct (Nat.ltb _ _); [|done]. by intros [= <-]. Qed.
Lemma resend_sends l kept c c' : resend l kept c = (c', Ok tt) ->
  cl_trace c' = cl_trace c ++ (AcSend <$> omap (fun id => bk_pending (cl_book c) !! id) l)
  /\ bk_pending (cl_book c') = bk_pending (cl_book c)
  /\ bk_order (cl_book c') = kept ++ List.filter (fun id => bool_decide (is_Some (bk_pending (cl_book c) !! id))) l.
Proof.
  revert kept c. induction l as [|id l IH]; intros kept c H; cbn [resend] in H.
  - injection H as <-. cbn. by rewrite !app_nil_r.
  - unfold try_bind at 1, get in H. cbn [omap list_omap List.filter]. destruct (bk_pending (cl_book c) !! id) as [e|] eqn:E; [|by apply IH].
    rewrite bool_decide_true by done.
    set (c1 := if String.eqb (en_Method e) "members" then set_talk (with_lookup (en_ID e) "members" (cl_talk c)) c else c).
    assert (H1 : (let (d, r) := send e c1 in match r with Ok _ => resend l (kept ++ [id]) d | Err err =>
       (set_book (mkBook (bk_pending (cl_book d)) ((kept ++ [id]) ++ drop (length (kept ++ [id])) (bk_order (cl_book d))) (bk_replies (cl_book d))) d, Err err) end)
       = (c', Ok tt)) by (subst c1; unfold try_bind in H; by destruct (String.eqb _ _)).
    clear H. destruct (send e c1) as [d [[]|]] eqn:S; [|done]. apply send_ok in S as [T B]. apply IH in H1 as (T' & B' & O').
    assert (B1 : cl_book c1 = cl_book c) by (subst c1; by destruct (String.eqb _ _)).
    assert (T1 : cl_trace c1 = cl_trace c) by (subst c1; by destruct (String.eqb _ _)).
    rewrite T', B', O', T, T1, B, B1. cbn. by rewrite <- !app_assoc.
Qed.
(** A trace and a book, up to what is said meanwhile. *)
Definition says (tr : list act) (b : book) (c : client) : Prop := cl_book c = b /\ exists new, cl_trace c = tr ++ new.
#[local] Instance says_neutral tr b : Neutral (says tr b).
Proof. split; try done. intros a c _ [E (new & T)]. split; [done|]. exists (new ++ [a]). cbn. by rewrite T, app_assoc. Qed.
Definition sent_all (tr : list act) (b : book) (c : client) : Prop :=
  exists pre, cl_trace c = tr ++ pre ++ (AcSend <$> omap (fun id => bk_pending b !! id) (bk_order b)) /\ bk_pending (cl_book c) = bk_pending b.
#[local] Instance says_readable tr b : Readable (says tr b).
Proof. by intros c. Qed.
(** Whatever fails on the way ends the session. *)
Abbreviation often m Q c := (mwp m Q (fun _ _ => True) c).
Lemma often_through {A B} P (m : M A) (k : A -> M B) (Q : B -> client -> Prop) c : keeps P m -> P c ->
  (forall a c', P c' -> often (k a) Q c') -> often (try_bind m k) Q c.
Proof. intros K H HQ. apply mwp_bind. eapply mwp_mono; [by apply keeps_mwp|cbv beta; apply HQ|done]. Qed.
Lemma ready_sends tr b c : says tr b c -> often (become_ready dp env) (fun _ => sent_all tr b) c.
Proof.
  intros H. unfold become_ready. apply (often_through (says tr b)); [apply keeps_greet; apply _|done|].
  intros [] c1 [B (new & T)]. mstep. mstep. rewrite B. unfold mwp. destruct (resend _ _ c1) as [c2 [[]|]] eqn:E; [|done].
  apply resend_sends in E as (T2 & P2 & _). exists new. rewrite T2, T, B, <- app_assoc. split; [done|]. by rewrite P2, B.
Qed.
Lemma snapshot_sends e tr b c : says tr b c -> tk_ready (cl_talk c) = false -> often (on_snapshot dp env e) (fun _ => sent_all tr b) c.
Proof.
  intros H R. unfold on_snapshot. mstep; [|done]. mstep. mstep. mstep. mstep.
  assert (H1 : says tr b (set_view (view_snapshot a) c) /\ tk_ready (cl_talk (set_view (view_snapshot a) c)) = false) by done. revert H1.
  generalize (set_view (view_snapshot a) c). clear c H R. intros c H1.
  assert (N : Neutral (fun c => says tr b c /\ tk_ready (cl_talk c) = false)).
  { destruct (says_neutral tr b). split; intros; destruct_and!; split; auto. cbn. congruence. }
  apply (often_through (fun c => says tr b c /\ tk_ready (cl_talk c) = false)); [by apply keeps_callback|done|]. intros [] c1 H2.
  apply (often_through (fun c => says tr b c /\ tk_ready (cl_talk c) = false));
    [destruct (vw_truncated _); [apply keeps_print_only; [apply _|apply truncated_line_printable]|apply keeps_ok]|done|]. intros [] c2 H3.
  apply (often_through (fun c => says tr b c /\ tk_ready (cl_talk c) = false)); [by apply keeps_print_items|done|]. intros [] c3 [H R].
  mstep. mstep. rewrite R. by apply ready_sends.
Qed.
Lemma frame_sends target e tr b c : says tr b c -> unready c ->
  often (on_frame dp env target e) (fun _ c' => tk_ready (cl_talk c') = true -> sent_all tr b c') c.
Proof.
  intros H U. unfold on_frame, now. do 6 mstep.
  set (c1 := set_talk _ _). assert (U1 : unready c1) by done. assert (H1 : says tr b c1) by done. clearbody c1. clear c H U.
  assert (K : forall m : M unit, keeps unready m -> often m (fun _ c' => tk_ready (cl_talk c') = true -> sent_all tr b c') c1).
  { intros m K. apply (mwp_mono _ (fun _ => unready) _ (fun _ => unready)); [by apply keeps_mwp| |done]. intros ? c' [_ R]. congruence. }
  mstep; [apply K, keeps_welcome; apply _|]. mstep; [apply K, keeps_answer; apply _|]. mstep; [by mstep|].
  mstep; [|mstep; [apply K, keeps_durable; apply _|]; mstep; [by mstep|]; apply K, keeps_transient; apply _].
  eapply mwp_mono; [by apply snapshot_sends; [|apply U1]|auto|done].
Qed.
Lemma session_over_phase e r : ru_phase (session_over dp env e r) <> PhSession.
Proof.
  unfold session_over. cbn. destruct (ru_cancelled r); [done|]. destruct e; try done; by destruct (jitter env _ _) as [? [|]].
Qed.
Lemma in_session_phase m r : ru_phase (in_session dp env m r) = PhSession -> exists c, m (ru_client r) = (c, Ok tt) /\ ru_client (in_session dp env m r) = c.
Proof.
  unfold in_session. destruct (m (ru_client r)) as [c [[]|e]]; [by exists c|]. intros H. by apply session_over_phase in H.
Qed.
Lemma move_sends target r m : unready (ru_client r) ->
  let r' := move_step dp env target r m in ru_phase r' = PhSession -> tk_ready (cl_talk (ru_client r')) = true ->
  sent_all (cl_trace (ru_client r)) (cl_book (ru_client r)) (ru_client r').
Proof.
  intros U r' Ph Rd. assert (K : (forall x, m = MvRound x -> hard x -> unready (round dp env target x (ru_client r)).1) -> unready (ru_client r'))
    by (intros K; by apply move_keeps; [apply _..| |]).
  assert (D : m = MvRound OnFrame \/ forall x, m = MvRound x -> hard x -> exists s e, x = OnSubmission s e).
  { destruct m as [|[| | |s x|]| | | | | | | | |]; try (right; intros ? [= <-]; done); [right|by left|right..]; try done. intros x' [= <-] _. eauto. }
  destruct D as [->|D].
  - subst r'. cbn [move_step] in *. destruct (ru_phase r) eqn:P0; try done; try (by rewrite P0 in Ph).
    apply in_session_phase in Ph as (c & E & Ec). rewrite Ec in *. cbn [round] in E.
    assert (R : often (let! e := read_frame in on_frame dp env target e)
      (fun _ c' => tk_ready (cl_talk c') = true -> sent_all (cl_trace (ru_client r)) (cl_book (ru_client r)) c') (ru_client r)).
    { apply (often_through (fun c => says (cl_trace (ru_client r)) (cl_book (ru_client r)) c /\ unready c)).
      - intros c1 [H1 U1]. unfold read_frame. by destruct (Read _ _).
      - split; [|done]. split; [done|]. exists []. by rewrite app_nil_r.
      - intros e c1 [H1 U1]. by apply frame_sends. }
    unfold mwp in R. rewrite E in R. by apply R.
  - assert (U' : unready (ru_client r')); [|destruct U' as [_ U']; congruence]. apply K. intros x -> Hx. destruct (D x eq_refl Hx) as (s & e & ->).
    cbn [round]. unfold try_bind at 1, get. by rewrite (proj2 U).
Qed.
End ordered.

(** Whatever happens to the connection, no submission of the browser window is
    lost or answered twice: a result channel was given an answer, or waits for one
    at a pending request, exactly as often as the client took a submission with it. *)
Theorem submissions_accounted dp env target c0 r0 moves w : Run target (Ok c0) = Ok r0 ->
  let c := ru_client (run_moves dp env target r0 moves) in
  (answered_count w (cl_trace c) + waiting_count w (cl_book c))%nat = all_reads dp env target r0 w moves.
Proof.
  intros R c. assert (H : counts w 0 (ru_client r0)).
  { unfold Run in R. destruct (ValidateTarget target); [|done]. cbn in R. simplify_eq. by split; [intros ? ?|]. }
  by apply (moves_count dp env target _ _ _ moves) in H as [_ H].
Qed.

(** a request that waits for its answer is kept, with the same body, until a
    response or an error with its id arrives, whatever else happens: lines,
    submissions, lost connections, new sessions.  The id is not one the client
    draws for another request. *)
Theorem unanswered_kept dp env target c0 r0 before after id e : Run target (Ok c0) = Ok r0 ->
  let c1 := ru_client (run_moves dp env target r0 before) in
  let c2 := ru_client (run_moves dp env target r0 (before ++ after)) in
  (forall n, hex_EncodeToString (take_bytes 16 (ou_random env n)) <> id) ->
  bk_pending (cl_book c1) !! id = Some e ->
  exists new, cl_trace c2 = cl_trace c1 ++ new
    /\ ((exists e', bk_pending (cl_book c2) !! id = Some e' /\ en_Body e' = en_Body e) \/ exists a, AcAnswered a ∈ new /\ en_ID a = id).
Proof.
  intros R c1 c2 F H. assert (O : ordered c1).
  { apply moves_ordered. unfold Run in R. destruct (ValidateTarget target); [|done]. cbn in R. simplify_eq. split; [by intros ? ?|].
    intros i. cbn. rewrite lookup_empty. by intros []. }
  assert (K : kept id (en_Body e) (cl_trace c1) c2).
  { subst c2. unfold run_moves. rewrite foldl_app. apply moves_kept; [intros [n E]; by destruct (F n)|].
    split; [apply O|]. exists []. rewrite app_nil_r. split; [done|]. left. by exists e. }
  apply K.
Qed.

(** when a new session becomes ready, everything that was not answered is sent
    again, in the order it was requested: no request that waits is left out. *)
Theorem reconnection_resends dp env target c0 r0 moves m : Run target (Ok c0) = Ok r0 ->
  let r1 := run_moves dp env target r0 moves in
  let r2 := move_step dp env target r1 m in
  let b := cl_book (ru_client r1) in
  tk_ready (cl_talk (ru_client r1)) = false -> tk_ready (cl_talk (ru_client r2)) = true -> ru_phase r2 = PhSession ->
  bk_pending (cl_book (ru_client r2)) = bk_pending b
  /\ (exists hello, cl_trace (ru_client r2) = cl_trace (ru_client r1) ++ hello ++ (AcSend <$> omap (fun id => bk_pending b !! id) (bk_order b)))
  /\ forall id e, bk_pending b !! id = Some e -> AcSend e ∈ cl_trace (ru_client r2).
Proof.
  intros R r1 r2 b N Y Ph. assert (O : ordered (ru_client r1)).
  { apply moves_ordered. unfold Run in R. destruct (ValidateTarget target); [|done]. cbn in R. simplify_eq. split; [by intros ? ?|].
    intros i. cbn. rewrite lookup_empty. by intros []. }
  destruct (move_sends dp env target r1 m) as (pre & T & P); [split; [apply O|done]|done..|]. subst b. split_and!; [done|by exists pre|].
  intros id e E. subst r2. rewrite T, !elem_of_app. right. right. apply list_elem_of_fmap. exists e. split; [done|].
  apply list_elem_of_omap. exists id. split; [|done]. apply O. by rewrite E.
Qed.

Abbreviation demo_run l := (run_moves demo_deps demo_outside "host" demo_start l).
Abbreviation demo_id := (browser_request_id "0123456789abcdef0123456789abcdef").
Lemma demo_starts : Run "host" (Ok demo_cursor) = Ok demo_start.
Proof. vm_compute. reflexivity. Qed.
Lemma submissions_accounted_witness :
  all_reads demo_deps demo_outside "host" demo_start 5 demo_moves = 1%nat
  /\ (let c := ru_client (demo_run demo_moves) in
      (answered_count 5 (cl_trace c) + waiting_count 5 (cl_book c))%nat = all_reads demo_deps demo_outside "host" demo_start 5 demo_moves).
Proof.
  split; [vm_compute; reflexivity|].
  apply (submissions_accounted demo_deps demo_outside "host" demo_cursor demo_start demo_moves 5). exact demo_starts.
Defined.
Lemma demo_id_fresh n : hex_EncodeToString (take_bytes 16 (ou_random demo_outside n)) <> demo_id.
Proof.
  intros H. assert (E : take_bytes 2 demo_id = "68") by (vm_compute; reflexivity). rewrite <- H in E. cbn in E. discriminate.
Qed.
Lemma unanswered_kept_witness :
  let r1 := demo_run (take 6 demo_first) in let r2 := demo_run (take 6 demo_first ++ drop 6 demo_first ++ demo_second) in
  exists e new, bk_pending (cl_book (ru_client r1)) !! demo_id = Some e
    /\ cl_trace (ru_client r2) = cl_trace (ru_client r1) ++ new
    /\ ((exists e', bk_pending (cl_book (ru_client r2)) !! demo_id = Some e' /\ en_Body e' = en_Body e)
        \/ exists a, AcAnswered a ∈ new /\ en_ID a = demo_id).
Proof.
  set (e := {| en_Version := 1; en_Kind := KindRequest; en_ID := demo_id; en_Method := "submit"; en_Requires := []; en_Seq := None;
               en_Body := bq "{`clientMessageId`:`0123456789abcdef0123456789abcdef`,`text`:`hi`}" |}).
  assert (H : bk_pending (cl_book (ru_client (demo_run (take 6 demo_first)))) !! demo_id = Some e) by (vm_compute; reflexivity).
  destruct (unanswered_kept demo_deps demo_outside "host" demo_cursor demo_start (take 6 demo_first) (drop 6 demo_first ++ demo_second) demo_id e
    demo_starts demo_id_fresh H) as (new & K). exists e, new. split; [exact H|exact K].
Defined.
Lemma reconnection_resends_witness :
  let r1 := demo_run demo_moves in let r2 := move_step demo_deps demo_outside "host" r1 (MvRound OnFrame) in
  let b := cl_book (ru_client r1) in
  is_Some (bk_pending b !! demo_id)
  /\ bk_pending (cl_book (ru_client r2)) = bk_pending b
  /\ (exists hello, cl_trace (ru_client r2) = cl_trace (ru_client r1) ++ hello ++ (AcSend <$> omap (fun id => bk_pending b !! id) (bk_order b)))
  /\ forall id e, bk_pending b !! id = Some e -> AcSend e ∈ cl_trace (ru_client r2).
Proof.
  cbv zeta. split; [eexists; vm_compute; reflexivity|].
  assert (A : tk_ready (cl_talk (ru_client (demo_run demo_moves))) = false) by (vm_compute; reflexivity).
  assert (B : tk_ready (cl_talk (ru_client (move_step demo_deps demo_outside "host" (demo_run demo_moves) (MvRound OnFrame)))) = true)
    by (vm_compute; reflexivity).
  assert (C : ru_phase (move_step demo_deps demo_outside "host" (demo_run demo_moves) (MvRound OnFrame)) = PhSession) by (vm_compute; reflexivity).
  exact (reconnection_resends demo_deps demo_outside "host" demo_cursor demo_start demo_moves (MvRound OnFrame) demo_starts A B C).
Defined.
