(* ===== verification/TerminalDelivery.v ===== *)
(** * From the log of the room to the terminal

    A session of the daemon and the client at its other end together: the events
    that the client shows are the events of the room's log after its cursor, one by
    one and without gaps, whatever both sides do besides. *)
From S2P Require Import Prelude GoStrings Json RoomTypes Projection StrictJson GoDecode Wire WireSafety Messages.
From S2P Require Import StoreSchema StoreInvariant Hub Session SessionSafety TerminalText TerminalView TerminalPrint Terminal TerminalLogic TerminalBook.

(** ** What a client has shown *)

Definition applies (tr : list act) : list RoomEvent := omap (fun a => match a with AcApply d => Some d | _ => None end) tr.
Lemma applies_snoc tr a : applies (tr ++ [a]) = applies tr ++ match a with AcApply d => [d] | _ => [] end.
Proof. unfold applies. rewrite omap_app. by destruct a. Qed.
Definition shown_seq (d : RoomEvent) : Z := Projection.u64 (re_Seq d).
(** What a session of the client does. *)
Inductive session_move := SmRound (x : choice) | SmLine (line : string) | SmWrite.

Section client.
Context (dp : Deps) (cenv : outside) (target : string).
Definition session_step (m : session_move) : M unit :=
  match m with
  | SmRound x => round dp cenv target x
  | SmLine line => on_line dp cenv line
  | SmWrite => change write_next
  end.
Fixpoint session_run (l : list session_move) : M unit :=
  match l with [] => ok tt | m :: r => let! _ := session_step m in session_run r end.

Section frames.
Context (src : source).
(** [q] was shown in this session, the cursor is at [z], and [src] is still to be read. *)
Definition at_event (q : list RoomEvent) (z : Z) (c : client) : Prop :=
  methods_ok (cl_book c) /\ (tk_welcomed (cl_talk c) = true /\ lk_source (cl_link c) = src) /\ cu_LastAppliedSeq (cl_cursor c) = z /\ applies (cl_trace c) = q.
#[local] Instance at_event_neutral q z : Neutral (at_event q z).
Proof.
  split; try done.
  - intros l c E (M & [W S] & R). split; [done|]. split; [split; [done|cbn; congruence]|done].
  - intros t c E _ (M & [W S] & R). split; [done|]. split; [split; [cbn; congruence|done]|done].
  - intros a c Q (M & [W S] & C & A). split_and!; try done. cbn. rewrite applies_snoc, A. destruct a; try done; by rewrite app_nil_r.
Qed.
#[local] Instance at_event_bookless q z : Bookless (at_event q z).
Proof.
  split; [by intros b c M (_ & R)|by intros c [M _]|]. intros w e c (M & [W S] & C & A). split_and!; try done. cbn. by rewrite applies_snoc, A, app_nil_r.
Qed.
#[local] Instance at_event_readable q z : Readable (at_event q z).
Proof. by intros c. Qed.

(** The event of a frame: it decodes, and it has the frame's number. *)
Definition event_of (e : Envelope) (s : Z) (d : RoomEvent) : Prop := decode_event (en_Body e) = Some d /\ shown_seq d = s.
Definition shown (q : list RoomEvent) (c : client) : Prop := applies (cl_trace c) = q.
Lemma at_shown q z c : at_event q z c -> shown q c.
Proof. by intros (_ & _ & _ & A). Qed.
Lemma at_event_act q z a c : (forall d, a <> AcApply d) -> at_event q z c -> at_event q z (record_act a c).
Proof.
  intros N (M & [W S] & C & A). split_and!; try done. cbn. rewrite applies_snoc, A. destruct a; rewrite ?app_nil_r; try done. by destruct (N e).
Qed.
Lemma keeps_handler_at q z a : (forall b d, a b <> AcApply d) -> keeps (at_event q z) (handler cenv a).
Proof.
  intros N. unfold handler. apply keeps_seq; [apply keeps_ask, ne_calls|intros [err|]].
  - apply keeps_seq; [intros c; by apply at_event_act|intros _; apply keeps_stop].
  - intros c. by apply at_event_act.
Qed.
Lemma keeps_save_at q z : keeps (at_event q z) (save_cursor cenv).
Proof.
  unfold save_cursor. apply keeps_seq; [apply keeps_get|intros x]. apply keeps_seq; [apply keeps_ask, ne_calls|intros [err|]].
  - apply keeps_seq; [intros c; by apply at_event_act|intros _; apply keeps_stop].
  - intros c. by apply at_event_act.
Qed.
(** What a frame did: [q] was shown before, and the cursor was at [z]. *)
Definition took (e : Envelope) (q : list RoomEvent) (z : Z) (c : client) : Prop :=
  match en_Seq e with
  | Some s => if s <=? z then at_event q z c else exists d, event_of e s d /\ at_event (q ++ [d]) s c
  | None => at_event q z c
  end.
Definition broke (e : Envelope) (q : list RoomEvent) (z : Z) (c : client) : Prop :=
  shown q c \/ exists s d, en_Seq e = Some s /\ z < s /\ event_of e s d /\ shown (q ++ [d]) c.
Lemma durable_takes e s q z c : at_event q z c ->
  mwp (on_durable dp cenv e s) (fun _ c' => if s <=? z then at_event q z c' else exists d, event_of e s d /\ at_event (q ++ [d]) s c')
    (fun _ c' => shown q c' \/ z < s /\ exists d, event_of e s d /\ shown (q ++ [d]) c') c.
Proof.
  intros H. pose proof H as (_ & _ & Ez & _). unfold on_durable. mstep. mstep. rewrite Ez. destruct (s <=? z) eqn:Hs; [by mstep|].
  mstep; [|mstep; left; by eapply at_shown]. rename r into d. mstep; [mstep; left; by eapply at_shown|]. bool_props.
  assert (V : event_of e s d) by done.
  set (Err' := fun (_ : terr) c' => shown q c' \/ z < s /\ exists d, event_of e s d /\ shown (q ++ [d]) c').
  assert (X : forall z' c', at_event (q ++ [d]) z' c' -> forall e', Err' e' c').
  { intros z' c' K e'. right. split; [lia|]. exists d. split; [done|by eapply at_shown]. }
  assert (T : forall A z' (m : M A) c', keeps (at_event (q ++ [d]) z') m -> at_event (q ++ [d]) z' c' ->
    mwp m (fun _ => at_event (q ++ [d]) z') Err' c').
  { intros A z' m c' K K'. apply (mwp_mono _ (fun _ => at_event (q ++ [d]) z') _ (fun _ => at_event (q ++ [d]) z')); [by apply keeps_mwp|done|].
    intros e' c2 K2. by eapply X. }
  assert (L : forall z' (b : bool) kind c', kind <> "ack" -> at_event (q ++ [d]) z' c' ->
    mwp (if b then look_up cenv kind else ok tt) (fun _ => at_event (q ++ [d]) z') Err' c').
  { intros z' b kind c' N K. apply T; [|done]. destruct b; [by apply keeps_look_up; [apply _|]|apply keeps_ok]. }
  mstep. mstep. apply (mwp_mono _ (fun _ => at_event (q ++ [d]) z) _ Err').
  { unfold show_event. mstep. mstep. mstep; [|mstep; left; by eapply at_shown]. mstep. mstep. mstep. mstep.
    apply T; [apply keeps_print; [apply _|apply event_line_printable]|]. destruct H as (M & [W S] & C & A). split_and!; try done. cbn. by rewrite applies_snoc, A. }
  2: done.
  intros [] c1 H1. mstep. mstep. mstep. eapply mwp_mono; [apply (T _ z); [by apply keeps_callback; [apply _|]|done]| |done].
  intros [] c2 H2. mstep. apply (mwp_mono _ (fun _ => at_event (q ++ [d]) z) _ Err'); [|clear c1 H1 c2 H2|done].
  { apply T; [|done]. destruct (dp_OnEvent dp); [apply keeps_fatal; by apply keeps_handler_at|apply keeps_ok]. }
  intros [] c3 H3. mstep. apply (mwp_mono _ (fun _ => at_event (q ++ [d]) z) _ Err'); [|clear c3 H3|done].
  { apply T; [|done]. destruct (dp_OnAnswer dp); [|apply keeps_ok]. apply keeps_seq; [apply keeps_fatal, keeps_lift|intros text].
    destruct (String.eqb text ""); [apply keeps_ok|apply keeps_fatal; by apply keeps_handler_at]. }
  intros [] c4 H4. mstep. mstep. mstep. eapply mwp_mono; [by apply L| |done]. intros [] c5 H5.
  mstep. eapply mwp_mono; [by apply L| |done]. intros [] c6 H6. mstep. unfold move_cursor. mstep.
  assert (H7 : at_event (q ++ [d]) s (set_cursor {| cu_Target := cu_Target (cl_cursor c); cu_RoomID := cu_RoomID (cl_cursor c); cu_LastAppliedSeq := s |} c6)).
  { destruct H6 as (M & [W S] & C & A). by split_and!. }
  mstep. mstep. eapply mwp_mono; [by apply (T _ s); [apply keeps_save_at|]| |done]. intros [] c8 H8. mstep. mstep.
  eapply mwp_mono; [by apply (T _ s); [by apply keeps_request; apply _|]| |done]. intros a c9 H9. mstep; [|mstep; by exists d].
  apply mwp_send; [|exact (X s c9 H9 TProbe)]. cbv beta zeta. exists d. split; [done|]. by apply at_event_act.
Qed.

Definition numbered (e : Envelope) : Prop := forall s, en_Seq e = Some s -> en_Kind e = KindEvent /\ en_Method e <> "runtime-snapshot".
Lemma frame_takes e q z c : numbered e -> at_event q z c ->
  mwp (on_frame dp cenv target e) (fun _ => took e q z) (fun _ => broke e q z) c.
Proof.
  intros N H. unfold on_frame, now. do 6 mstep. set (c1 := set_talk _ _). assert (H1 : at_event q z c1).
  { destruct H as (M & [W S] & C & A). by split_and!. }
  clearbody c1. clear c H.
  assert (K : forall m : M unit, en_Seq e = None -> keeps (at_event q z) m -> mwp m (fun _ => took e q z) (fun _ => broke e q z) c1).
  { intros m E K. unfold took. rewrite E. apply (mwp_mono _ (fun _ => at_event q z) _ (fun _ => at_event q z)); [by apply keeps_mwp|done|].
    intros ? c2 K2. left. by eapply at_shown. }
  assert (B : broke e q z c1) by (left; by eapply at_shown). rewrite (proj1 (proj1 (proj2 H1))). cbn [negb].
  destruct (en_Seq e) as [s|] eqn:Es.
  - destruct (N s Es) as [Ek Em]. unfold is_kind. rewrite Ek. cbn. rewrite (proj2 (String.eqb_neq _ _) Em).
    eapply mwp_mono; [by apply durable_takes| |].
    + unfold took. intros [] c2 K2. by rewrite Es.
    + intros e' c2 [K2|(L & d & V & K2)]; [by left|right]. exists s, d. by rewrite Es.
  - destruct (is_kind KindResponse e || is_kind KindError e); [apply K; [done|]; apply keeps_answer; apply _|].
    mstep; [by mstep|]. mstep; [apply K; [done|]; apply keeps_snapshot; apply _|]. mstep; [by mstep|].
    apply K; [done|]. apply keeps_transient; apply _.
Qed.
End frames.
#[local] Existing Instances at_event_neutral at_event_bookless at_event_readable.

(** ** A session of the client *)

Definition is_frame (m : session_move) : bool := match m with SmRound OnFrame => true | _ => false end.
Definition frames_of (l : list session_move) : nat := length (List.filter is_frame l).
(** Other steps only talk. *)
Lemma other_keeps src q z m : is_frame m = false -> keeps (at_event src q z) (session_step m).
Proof.
  intros N. destruct m as [[| | |s x|]|line|]; try done; cbn [session_step round].
  - apply keeps_roster; apply _.
  - apply keeps_seq; [apply keeps_get|intros l]. destruct (lk_writeErr l); [apply keeps_stop|apply keeps_ok].
  - apply keeps_timer; apply _.
  - apply keeps_seq; [apply keeps_get|intros t]. destruct (_ && _); [apply keeps_submission; apply _|apply keeps_ok].
  - apply keeps_line; apply _.
  - intros c Hc. apply (keeps_write_next (at_event src q z) c Hc).
Qed.
Lemma read_all_cons maximum n src src' fs : read_all maximum (S n) src = (src', Ok fs) ->
  exists e src1 rest, Read maximum src = (src1, Ok e) /\ read_all maximum n src1 = (src', Ok rest) /\ fs = e :: rest.
Proof.
  cbn [read_all]. destruct (Read maximum src) as [src1 [e|]]; [|done]. destruct (read_all maximum n src1) as [src2 [l|]] eqn:E; [|done].
  intros [= <- <-]. by exists e, src1, l.
Qed.
Lemma took_applied src e q z c : took src e q z c -> exists ds z', at_event src (q ++ ds) z' c
  /\ (forall fs, applied z (omap en_Seq (e :: fs)) = (shown_seq <$> ds) ++ applied z' (omap en_Seq fs))
  /\ Forall (fun d => exists s, en_Seq e = Some s /\ event_of e s d) ds.
Proof.
  unfold took. cbn [omap list_omap]. destruct (en_Seq e) as [s|] eqn:Es; [|intros H; exists [], z; by rewrite app_nil_r].
  cbn [applied]. destruct (s <=? z); [intros H; exists [], z; by rewrite app_nil_r|].
  intros (d & V & H). exists [d], s. split; [done|]. split; [intros fs; cbn; by rewrite (proj2 V)|]. constructor; [by exists s|done].
Qed.
Lemma broke_applied e q z c : broke e q z c -> exists ds, shown (q ++ ds) c
  /\ (forall fs, (shown_seq <$> ds) `prefix_of` applied z (omap en_Seq (e :: fs)))
  /\ Forall (fun d => exists s, en_Seq e = Some s /\ event_of e s d) ds.
Proof.
  intros [H|(s & d & Es & L & V & H)]; [exists []; rewrite app_nil_r; split; [done|]; split; [intros fs; apply prefix_nil|done]|].
  exists [d]. split; [done|]. split; [|constructor; [by exists s|done]]. intros fs. cbn [omap list_omap]. rewrite Es. cbn [applied].
  rewrite (proj2 (Z.leb_gt s z)) by done. cbn. rewrite (proj2 V). apply prefix_cons, prefix_nil.
Qed.
(** What is shown of the frames [fs], from the cursor [z] on. *)
Definition shows (fs : list Envelope) (z : Z) (ds : list RoomEvent) : Prop :=
  (shown_seq <$> ds) `prefix_of` applied z (omap en_Seq fs) /\ Forall (fun d => exists f s, f ∈ fs /\ en_Seq f = Some s /\ event_of f s d) ds.
Lemma from_head e fs ds : Forall (fun d => exists s, en_Seq e = Some s /\ event_of e s d) ds ->
  Forall (fun d => exists f s, f ∈ e :: fs /\ en_Seq f = Some s /\ event_of f s d) ds.
Proof. intros F. eapply Forall_impl; [exact F|]. intros d (s & Es & V). exists e, s. split; [left|done]. Qed.
Lemma session_shows l fs src src' q z c : Forall numbered fs -> read_all (reader_maximum MaxFrameBytes) (length fs) src = (src', Ok fs) ->
  (frames_of l <= length fs)%nat -> at_event src q z c -> exists ds, shows fs z ds /\ shown (q ++ ds) (session_run l c).1
    /\ ((session_run l c).2 = Ok tt -> shown_seq <$> ds = applied z (omap en_Seq (firstn (frames_of l) fs))).
Proof.
  revert fs src q z c. induction l as [|m l IH]; intros fs src q z c N R Hl H.
  { exists []. split; [split; [apply prefix_nil|done]|]. rewrite app_nil_r. split; [by eapply at_shown|done]. }
  assert (U : session_run (m :: l) c = match session_step m c with (c', Ok _) => session_run l c' | (c', Err e) => (c', Err e) end) by done.
  rewrite U. clear U. destruct (is_frame m) eqn:Em.
  - destruct m as [[| | | |]| |]; try done. unfold frames_of in *. cbn [List.filter is_frame length] in *. destruct fs as [|e fs]; [cbn in Hl; lia|].
    apply Forall_cons in N as [Ne N]. cbn [length] in R. apply read_all_cons in R as (e' & src1 & rest & R1 & R2 & [= <- <-]).
    set (c1 := set_link (mkLink (lk_writes (cl_link c)) (lk_conn (cl_link c)) src1 (lk_writeErr (cl_link c))) c).
    assert (St : session_step (SmRound OnFrame) c = on_frame dp cenv target e c1).
    { cbn [session_step round]. unfold try_bind, read_frame. by rewrite (proj2 (proj1 (proj2 H))), R1. }
    rewrite St. assert (H1 : at_event src1 q z c1) by (destruct H as (M & [W _] & C & A); by split_and!).
    pose proof (frame_takes src1 e q z c1 Ne H1) as T. unfold mwp in T. destruct (on_frame dp cenv target e c1) as [c2 [[]|err]].
    + apply took_applied in T as (ds & z' & H2 & E & F).
      destruct (IH fs src1 (q ++ ds) z' c2 N R2 ltac:(cbn in Hl; lia) H2) as (ds' & [P F'] & Q & G). exists (ds ++ ds'). split; [split|split].
      * rewrite E, fmap_app. by apply prefix_app.
      * apply Forall_app. split; [by apply from_head|]. eapply Forall_impl; [exact F'|]. intros d (f & s & Hf & V). exists f, s. split; [by right|done].
      * by rewrite app_assoc.
      * intros Ok'. rewrite fmap_app, (G Ok'). cbn [firstn]. by rewrite E.
    + apply broke_applied in T as (ds & Q & P & F). exists ds. split; [split; [apply P|by apply from_head]|]. by split.
  - pose proof (other_keeps src q z m Em c H) as K. unfold frames_of in *. cbn [List.filter] in *. rewrite Em in *.
    destruct (session_step m c) as [c1 [[]|err]]; [by apply (IH fs src)|]. exists []. rewrite app_nil_r. split; [split; [apply prefix_nil|done]|].
    split; [by eapply at_shown|done].
Qed.
End client.

(** ** Both ends *)

Definition frames (w : world) : list Envelope := omap (fun a => match a with ActFrame e => Some e | _ => None end) (sw_trace w).
Definition proper_kinds (cfg : Config) (w : world) : Prop := Forall (fun e => ev_Kind e <> "runtime-snapshot") (log cfg w).

(** A frame with a number is the frame of an event of the log. *)
Definition from_log (cfg : Config) (w : world) (f : Envelope) : Prop :=
  match en_Seq f with Some _ => exists e, e ∈ log cfg w /\ f = durable_frame e | None => True end.
Lemma from_log_numbered cfg w f : proper_kinds cfg w -> from_log cfg w f -> numbered f.
Proof.
  intros PK L s Es. unfold from_log in L. rewrite Es in L. destruct L as (e & He & ->). split; [done|].
  unfold proper_kinds in PK. rewrite Forall_forall in PK. by apply PK.
Qed.
Lemma seen_frames w : seen (sw_trace w) = omap en_Seq (frames w).
Proof.
  unfold seen, frames. induction (sw_trace w) as [|a tr IH]; [done|]. cbn [omap list_omap].
  destruct a; [|exact IH..]. cbn [omap list_omap]. by destruct (en_Seq e); rewrite IH.
Qed.
Lemma applied_prefix z l k : applied z l `prefix_of` applied z (l ++ k).
Proof.
  revert z. induction l as [|x l IH]; intros z; cbn; [apply prefix_nil|]. destruct (x <=? z); [apply IH|]. by apply prefix_cons.
Qed.
Lemma applied_reaches z l x : x ∈ l -> z < x -> exists y, y ∈ applied z l /\ x <= y.
Proof.
  revert z. induction l as [|u l IH]; intros z; [by intros ?%elem_of_nil|]. intros [<-|H]%elem_of_cons L; cbn.
  - rewrite (proj2 (Z.leb_gt x z)) by done. exists x. split; [left|lia].
  - destruct (Z.leb_spec u z); [by apply IH|]. destruct (Z.le_gt_cases x u) as [|G]; [exists u; split; [left|done]|].
    destruct (IH u H G) as (y & Hy & Ly). exists y. split; [by right|done].
Qed.
Lemma prefix_seqZ (k : list Z) a n : k `prefix_of` seqZ a n -> k = seqZ a (Z.of_nat (length k)).
Proof.
  revert a n. induction k as [|x k IH]; intros a n P; [done|]. destruct P as [r E].
  assert (0 < n) by (destruct (Z.le_gt_cases n 0); [rewrite seqZ_nil in E by lia; done|lia]).
  rewrite seqZ_cons in E by lia. injection E as -> E. rewrite seqZ_cons by (cbn; lia). f_equal.
  rewrite (IH (Z.succ x) (Z.pred n)) at 1 by (exists r; exact E). f_equal. cbn [length]. lia.
Qed.

(** C12: from the log of the room to the terminal.  Let a session of the daemon serve
    a client from the cursor the client has saved, and let the client, once
    welcomed, read what the session wrote, in whatever chunks it arrives, mixed with
    timers, lines, submissions and writes of its own.  Then the events it shows are
    events of the room's log, with consecutive numbers right after its cursor; and
    while the session goes on, none of those that its frames carried is missing. *)
Theorem client_shows_the_log cfg env member choices w dp cenv target l c first fs rest src src' :
  fresh cfg w -> let '(w', go) := ServeMember cfg env member choices w in
  timely cfg w' -> proper_kinds cfg w' ->
  frames w' = first :: fs ++ rest -> en_Kind first = KindResponse ->
  read_all (reader_maximum MaxFrameBytes) (length fs) src = (src', Ok fs) -> (frames_of l <= length fs)%nat ->
  at_event src (applies (cl_trace c)) (requested cfg w) c ->
  exists ds, applies (cl_trace (session_run dp cenv target l c).1) = applies (cl_trace c) ++ ds
    /\ shown_seq <$> ds = seqZ (requested cfg w + 1) (Z.of_nat (length ds))
    /\ Forall (fun d => exists e, e ∈ log cfg w' /\ ev_Seq e = shown_seq d /\ decode_event (marshal (durable_json e)) = Some d) ds
    /\ ((session_run dp cenv target l c).2 = Ok tt -> forall e, durable_frame e ∈ firstn (frames_of l) fs -> requested cfg w < ev_Seq e ->
         ev_Seq e ∈ shown_seq <$> ds).
Proof.
  intros F. destruct (ServeMember cfg env member choices w) as [w' go] eqn:E. intros T PK Fw Kf R Hl H.
  pose proof (session_outcome cfg env member choices w F) as S. rewrite E in S. specialize (S T). cbn in S.
  assert (K : exists h c', Inv cfg (requested cfg w) h c' w').
  { destruct go; [destruct S as (i & c' & I & _); by exists c', c'|]. destruct S as (h & c' & I). by exists h, c'. }
  destruct K as (h & top & [_ _ Lt A Fr _]). clear S E go. assert (Nu : forall f, f ∈ frames w' -> from_log cfg w' f).
  { intros f (a & Ha & Ea)%list_elem_of_omap. rewrite Forall_forall in Fr. specialize (Fr a Ha). by destruct a; simplify_eq. }
  assert (Nf : Forall numbered fs).
  { apply Forall_forall. intros f Hf. apply (from_log_numbered cfg w'); [done|]. apply Nu. rewrite Fw. right. apply elem_of_app. by left. }
  assert (N0 : en_Seq first = None).
  { destruct (en_Seq first) as [s|] eqn:Es; [|done]. assert (from_log cfg w' first) as G by (apply Nu; rewrite Fw; left).
    unfold from_log in G. rewrite Es in G. by destruct G as (e & _ & ->). }
  rewrite seen_frames, Fw in A. cbn [omap list_omap] in A. rewrite N0, omap_app in A.
  destruct (session_shows dp cenv target l fs src src' _ _ c Nf R Hl H) as (ds & [P V] & Q & G).
  exists ds. split; [exact Q|]. assert (C : forall k, (shown_seq <$> ds) `prefix_of` k -> k `prefix_of` seqZ (requested cfg w + 1) (top - requested cfg w) ->
    shown_seq <$> ds = seqZ (requested cfg w + 1) (Z.of_nat (length ds))).
  { intros k P1 P2. rewrite <- (length_fmap shown_seq ds). apply (prefix_seqZ _ _ (top - requested cfg w)). by etrans. }
  assert (P2 : applied (requested cfg w) (omap en_Seq fs) `prefix_of` seqZ (requested cfg w + 1) (top - requested cfg w)).
  { rewrite <- A. apply applied_prefix. }
  split; [by eapply C|]. split.
  - eapply Forall_impl; [exact V|]. intros d (f & s & Hf & Es & De & Sd). assert (from_log cfg w' f) as W.
    { apply Nu. rewrite Fw. right. apply elem_of_app. by left. }
    unfold from_log in W. rewrite Es in W. destruct W as (e & He & ->). exists e. split; [done|]. cbn in Es, De. split; [congruence|done].
  - intros Ok' e He L. rewrite (G Ok'). destruct (applied_reaches (requested cfg w) (omap en_Seq (firstn (frames_of l) fs)) (ev_Seq e)) as (y & Hy & Ly); [|done|].
    + apply list_elem_of_omap. by exists (durable_frame e).
    + rewrite <- (G Ok') in *. rewrite (C _ P P2) in *. apply elem_of_seqZ in Hy. apply elem_of_seqZ. lia.
Qed.

(** The session of the demo room goes on with the first events of its buffer, an old
    one among them, for a client that came with cursor 1. *)
Definition demo_choices : list Session.choice := replicate 3 Session.OnEvent.
Abbreviation demo_served := (ServeMember demo_config demo_environment demo_bob demo_choices demo_world).
Abbreviation demo_frames := (frames demo_served.1).
Definition demo_stream : source :=
  let t := concat_strings (Terminal.demo_frame <$> List.tl demo_frames) in [take_bytes 5 t; drop_bytes 5 t].
Definition demo_terminal_on (stream : source) : client :=
  mkClient 0 {| cu_Target := "host"; cu_RoomID := cg_RoomID demo_config; cu_LastAppliedSeq := 1 |} false no_view no_book
    (mkTalk "" ∅ true true false 0 0) (mkLink [] demo_conn stream None) [].
Abbreviation demo_terminal := (demo_terminal_on demo_stream).
Lemma demo_terminal_at stream : at_event stream [] 1 (demo_terminal_on stream).
Proof. split; [by intros ? ?|]. by split_and!. Qed.
Definition demo_session : list session_move :=
  [SmRound OnFrame; SmRound OnTimer; SmRound OnFrame; SmWrite; SmRound OnFrame; SmLine "hello"; SmRound OnFrame; SmRound OnFrame; SmRound OnFrame].
Definition demo_kinds (w : world) : bool := forallb (fun e => negb (String.eqb (ev_Kind e) "runtime-snapshot")) (log demo_config w).
Lemma demo_kinds_ok w : demo_kinds w = true -> proper_kinds demo_config w.
Proof.
  unfold demo_kinds. rewrite forallb_forall. intros H. apply Forall_forall. intros e He. apply String.eqb_neq. apply negb_true_iff.
  by apply H, list_elem_of_In.
Qed.
#[local] Instance Envelope_eq_dec : EqDecision Envelope.
Proof. solve_decision. Defined.
(** The stream carries the frames after the first one. *)
Definition demo_carried (w : world) : bool :=
  match frames w with
  | first :: fs =>
      bool_decide (en_Kind first = KindResponse) && Nat.eqb (length fs) 6
      && match (read_all (reader_maximum MaxFrameBytes) (length fs) demo_stream).2 with Ok l => bool_decide (l = fs) | Err _ => false end
  | [] => false
  end.
Lemma demo_carried_ok w : demo_carried w = true -> exists first fs src', frames w = first :: fs ++ [] /\ en_Kind first = KindResponse
  /\ read_all (reader_maximum MaxFrameBytes) (length fs) demo_stream = (src', Ok fs) /\ length fs = 6%nat.
Proof.
  unfold demo_carried. intros H. destruct (frames w) as [|first fs]; [done|]. bool_props.
  destruct (read_all (reader_maximum MaxFrameBytes) (length fs) demo_stream) as [src' [l|]] eqn:R; cbn [snd] in *; [|done]. bool_props.
  exists first, fs, src'. rewrite app_nil_r. subst l. split_and!; try done. by apply Nat.eqb_eq.
Qed.
Lemma client_shows_the_log_witness :
  let c := (session_run demo_deps demo_outside "host" demo_session demo_terminal).1 in
  exists ds, applies (cl_trace c) = ds /\ shown_seq <$> ds = seqZ (requested demo_config demo_world + 1) (Z.of_nat (length ds)) /\ length ds = 2%nat.
Proof.
  assert (N : length (applies (cl_trace (session_run demo_deps demo_outside "host" demo_session demo_terminal).1)) = 2%nat) by (vm_compute; reflexivity).
  assert (B : let '(w', go) := demo_served in all_timely w' = true /\ demo_kinds w' = true /\ demo_carried w' = true)
    by (vm_compute; repeat split).
  assert (A : at_event demo_stream [] (requested demo_config demo_world) demo_terminal).
  { assert (Rq : requested demo_config demo_world = 1) by (vm_compute; reflexivity). rewrite Rq. apply demo_terminal_at. }
  pose proof (fun first fs rest src' => client_shows_the_log demo_config demo_environment demo_bob demo_choices demo_world demo_deps demo_outside "host" demo_session
    demo_terminal first fs rest demo_stream src' demo_fresh) as H.
  destruct (ServeMember demo_config demo_environment demo_bob demo_choices demo_world) as [w' go].
  destruct B as (T & K & (first & fs & src' & Fr & Ki & R & Le)%demo_carried_ok).
  destruct (H first fs [] src' (all_timely_ok w' T) (demo_kinds_ok w' K) Fr Ki R ltac:(rewrite Le; exact (le_n 6)) A) as (ds & E & S & _).
  exists ds. split; [exact E|]. split; [exact S|]. rewrite E in N. exact N.
Defined.

(** ** The output of a terminal client

    What the client prints is safe whatever the room sends, and its reports account
    for every line of the input. *)

(** ** Output *)

Definition printed_safely (a : act) : Prop := match a with AcPrint text => printable text | _ => True end.
Section output.
Context (dp : Deps) (env : outside).
Definition clean (c : client) : Prop := methods_ok (cl_book c) /\ Forall printed_safely (cl_trace c).
Lemma clean_act a c : printed_safely a -> clean c -> clean (record_act a c).
Proof. intros Q [M F]. split; [done|]. cbn. apply Forall_app. by split; [|constructor]. Qed.
#[local] Instance clean_loose : Loose clean.
Proof. split; try done. intros a c Q. apply clean_act. by destruct a. Qed.
Lemma clean_resolved err l c : clean c -> clean (resolved err l c).
Proof. revert c. induction l as [|w l IH]; intros c H; [done|]. apply IH. by apply clean_act. Qed.
#[local] Instance clean_booked : Booked env clean.
Proof.
  split.
  - intros b c S [M F]. split; [by eapply methods_step|done].
  - intros e c [M F]. split; [by apply map_Forall_delete|]. by apply clean_act.
  - by intros c [M _].
  - intros id err c H. unfold settle. cbv zeta. by destruct (clean_resolved err (waiters id (cl_book c)) c H).
Qed.
#[local] Instance clean_readable : Readable clean.
Proof. by intros c. Qed.
Lemma clean_submission s expired : keeps clean (on_submission env s expired).
Proof.
  intros c H. apply submission_leaves; [apply _|intros e; by apply clean_act|]. intros e _ N. cbv zeta.
  pose proof (methods_accept e (sb_Result s) _ N (proj1 H)) as M. destruct (accept_submission e (sb_Result s) (cl_book c)) as [b refusal].
  cbn [fst snd] in *. destruct refusal; (split; [exact M|]); cbn; [apply Forall_app; split; [apply H|by constructor]|apply H].
Qed.
Lemma moves_clean target r l : clean (ru_client r) -> clean (ru_client (run_moves dp env target r l)).
Proof. apply moves_keep; [apply _..|apply clean_submission]. Qed.
End output.

(** Nothing the room sends can take over the terminal.  Whatever a client is
    sent, typed and asked to do, every text it writes to its output is made only of
    runes that are neither control nor format characters, but for the end of a line
    and the tab: no escape sequence, no carriage return, no change of the direction
    of the text. *)
Theorem terminal_prints_safely dp env target c0 r0 moves text : Run target (Ok c0) = Ok r0 ->
  AcPrint text ∈ cl_trace (ru_client (run_moves dp env target r0 moves)) -> printable text.
Proof.
  intros R H. assert (C : clean (ru_client r0)).
  { unfold Run in R. destruct (ValidateTarget target); [|done]. cbn in R. simplify_eq. split; [by intros ? ?|constructor]. }
  apply (moves_clean dp env target r0 moves) in C as [_ F]. rewrite Forall_forall in F. by apply (F (AcPrint text)).
Qed.
Lemma terminal_prints_safely_witness :
  let text := nth 0 (omap (fun a => match a with AcPrint t => Some t | _ => None end) (cl_trace (ru_client (demo_run demo_moves)))) "" in
  text <> "" /\ printable text.
Proof.
  cbv zeta. split; [by vm_compute|]. apply (terminal_prints_safely demo_deps demo_outside "host" demo_cursor demo_start demo_moves _ demo_starts).
  apply list_elem_of_In. assert (H : forall l : list act, (omap (fun a => match a with AcPrint t => Some t | _ => None end) l) <> [] ->
    In (AcPrint (nth 0 (omap (fun a => match a with AcPrint t => Some t | _ => None end) l) "")) l).
  { induction l as [|a l IH]; [done|]. cbn. destruct a; cbn; auto. }
  apply H. by vm_compute.
Defined.
