(* ===== verification/GoUrl.v ===== *)
(** * Cutting strings, and [net/url]

    The functions of [strings] that cut a text, and as much of [url.Parse] as a
    caller can see who asks for scheme, user, host, path, query and fragment. *)
From S2P Require Import Prelude GoStrings.

(** ** [strings] *)

Fixpoint Contains (s sub : string) : bool :=
  HasPrefix s sub || match s with "" => false | String _ r => Contains r sub end.
Definition HasSuffix (s p : string) : bool := HasPrefix (str_rev s) (str_rev p).
(** [strings.ContainsAny] for ASCII characters, given by their codes *)
Definition ContainsAny (s : string) (l : list Z) : bool := existsb (fun c => existsb (Z.eqb (code c)) l) (bytes s).
(** [strings.Cut] at a character, [None] where it is not found *)
Fixpoint Cut (sep : ascii) (s : string) : option (string * string) :=
  match s with
  | "" => None
  | String c r => if Ascii.eqb c sep then Some ("", r) else '(a, b) ← Cut sep r; Some (String c a, b)
  end.
(** Around the last one. *)
Fixpoint CutLast (sep : ascii) (s : string) : option (string * string) :=
  match s with
  | "" => None
  | String c r =>
      match CutLast sep r with
      | Some (a, b) => Some (String c a, b)
      | None => if Ascii.eqb c sep then Some ("", r) else None
      end
  end.
(** [strings.Split] at a character *)
Fixpoint Split (sep : ascii) (s : string) : list string :=
  match s with
  | "" => [""]
  | String c r =>
      match Split sep r with
      | x :: l => if Ascii.eqb c sep then "" :: x :: l else String c x :: l
      | [] => []
      end
  end.
(** [strings.Trim] of one character *)
Fixpoint trim_char (sep : ascii) (s : string) : string :=
  match s with String c r => if Ascii.eqb c sep then trim_char sep r else s | "" => "" end.
Definition Trim (sep : ascii) (s : string) : string := str_rev (trim_char sep (str_rev (trim_char sep s))).
Definition count_char (sep : ascii) (s : string) : nat := length (List.filter (Ascii.eqb sep) (bytes s)).
(** [strings.ToLower], as far as a comparison with ASCII texts can tell: apart from
    the capitals, only the Kelvin sign and the dotted capital I have lower case
    letters in ASCII. *)
Definition lower1 (c : ascii) : ascii := if between 65 90 (code c) then chr (code c + 32) else c.
Fixpoint ToLower (s : string) : string :=
  match s with
  | String a ((String b ((String c r) as s2)) as s1) =>
      if (code a =? 0xE2) && (code b =? 0x84) && (code c =? 0xAA) then String "k" (ToLower r)
      else if (code a =? 0xC4) && (code b =? 0xB0) then String "i" (ToLower s2)
      else String (lower1 a) (ToLower s1)
  | String a ((String b r) as s1) =>
      if (code a =? 0xC4) && (code b =? 0xB0) then String "i" (ToLower r) else String (lower1 a) (ToLower s1)
  | String a r => String (lower1 a) (ToLower r)
  | "" => ""
  end.

(** ** Characters of a pattern *)

Definition is_digit_char (c : ascii) : bool := between 48 57 (code c).
Definition is_letter (c : ascii) : bool := between 65 90 (code c) || between 97 122 (code c).
Definition is_alnum (c : ascii) : bool := is_letter c || is_digit_char c.
Definition one_of_chars (l : list ascii) (c : ascii) : bool := existsb (Ascii.eqb c) l.
(** [^class{lo,hi}$] *)
Definition repeated (p : ascii -> bool) (lo hi : Z) (s : string) : bool := str_forallb p s && between lo hi (len s).

(** ** [net/url] *)

Record URL := mkURL
  { url_Scheme : string; url_User : bool; url_Host : string; url_Path : string; url_RawQuery : string; url_Fragment : string }.
(** What may stand unescaped in a host. *)
Definition host_char (c : ascii) : bool :=
  is_alnum c || (128 <=? code c)
  || existsb (fun d => code c =? d) [33; 36; 38; 39; 40; 41; 42; 43; 44; 59; 61; 58; 91; 93; 60; 62; 34; 45; 95; 46; 126].
Definition hex_byte (a b : ascii) : option Z := x ← hex_value a; y ← hex_value b; Some (16 * x + y).
(** [unescape]; a host may escape only bytes that are not ASCII, and the percent sign. *)
Fixpoint unescape (host : bool) (s : string) : option string :=
  match s with
  | "" => Some ""
  | String c r =>
      if code c =? 37 then
        match r with
        | String a (String b r') =>
            z ← hex_byte a b;
            if host && (z <? 128) && negb (z =? 37) then None else String (chr z) <$> unescape host r'
        | _ => None
        end
      else if host && negb (host_char c) then None else String c <$> unescape host r
  end.
(** [getScheme]: [None] is an error, no scheme is the empty one. *)
Fixpoint scheme_rest (acc : string) (s : string) : option (string * string) :=
  match s with
  | "" => None
  | String c r =>
      if is_letter c || (negb (String.eqb acc "") && (is_digit_char c || one_of_chars ["+"; "-"; "."]%char c)) then scheme_rest (acc +:+ String c "") r
      else if Ascii.eqb c ":" then Some (acc, r) else None
  end.
Definition getScheme (s : string) : option (string * string) :=
  if HasPrefix s ":" then None else match scheme_rest "" s with Some x => Some x | None => Some ("", s) end.
Definition validOptionalPort (s : string) : bool :=
  match s with "" => true | String c r => Ascii.eqb c ":" && str_forallb is_digit_char r end.
Definition bracketed (host : string) : option (string * string) :=
  if HasPrefix host "[" then CutLast "]" host else None.
(** [parseHost]: between brackets a zone may follow [%25]. *)
Fixpoint zone_cut (s : string) : option (string * string) :=
  match s with
  | "" => None
  | String c r => if HasPrefix s "%25" then Some ("", s) else '(a, b) ← zone_cut r; Some (String c a, b)
  end.
Fixpoint zone_text (s : string) : option string :=
  match s with
  | "" => Some ""
  | String c r =>
      if code c =? 37 then
        match r with
        | String a (String b r') =>
            z ← hex_byte a b;
            if negb (z =? 37) && negb (z =? 32) && negb (host_char (chr z)) then None else String (chr z) <$> zone_text r'
        | _ => None
        end
      else if negb (host_char c) then None else String c <$> zone_text r
  end.
Definition parseHost (host : string) : option string :=
  if HasPrefix host "[" then
    '(inside, port) ← CutLast "]" host;
    if negb (validOptionalPort port) then None else
    match zone_cut inside with
    | Some (a, zone) => a ← unescape true a; z ← zone_text zone; p ← unescape true ("]" +:+ port); Some (a +:+ z +:+ p)
    | None => unescape true host
    end
  else
    match CutLast ":" host with
    | Some (_, port) => if validOptionalPort (String ":" port) then unescape true host else None
    | None => unescape true host
    end.
(** [validUserinfo] *)
Definition user_char (c : ascii) : bool :=
  is_alnum c || existsb (fun d => code c =? d) [45; 46; 95; 58; 126; 33; 36; 38; 39; 40; 41; 42; 43; 44; 59; 61; 37; 64].
Definition parseAuthority (s : string) : option (bool * string) :=
  match CutLast "@" s with
  | None => host ← parseHost s; Some (false, host)
  | Some (user, host) =>
      host ← parseHost host;
      if negb (str_forallb user_char user) then None else
      _ ← match Cut ":" user with
          | None => unescape false user
          | Some (name, password) => _ ← unescape false name; unescape false password
          end;
      Some (true, host)
  end.
Definition is_control_byte (c : ascii) : bool := (code c <? 32) || (code c =? 127).
(** [parse] without the fragment *)
Definition parse_url (raw : string) : option URL :=
  if existsb is_control_byte (bytes raw) then None else
  if String.eqb raw "*" then Some (mkURL "" false "" "*" "" "") else
  '(scheme, rest) ← getScheme raw;
  let scheme := ToLower scheme in
  let '(rest, query) :=
    if HasSuffix rest "?" && Nat.eqb (count_char "?" rest) 1 then (take_bytes (String.length rest - 1) rest, "")
    else default (rest, "") (Cut "?" rest) in
  let with_path user host path := p ← unescape false path; Some (mkURL scheme user host p query "") in
  if negb (HasPrefix rest "/") then
    if negb (String.eqb scheme "") then Some (mkURL scheme false "" "" query "")
    else if Contains (default (rest, "") (Cut "/" rest)).1 ":" then None else with_path false "" rest
  else if (negb (String.eqb scheme "") || negb (HasPrefix rest "///")) && HasPrefix rest "//" then
    let authority := drop_bytes 2 rest in
    let '(authority, path) := match Cut "/" authority with Some (a, p) => (a, "/" +:+ p) | None => (authority, "") end in
    '(user, host) ← parseAuthority authority;
    with_path user host path
  else with_path false "" rest.
(** [url.Parse] *)
Definition url_Parse (raw : string) : option URL :=
  let '(u, fragment) := default (raw, "") (Cut "#" raw) in
  url ← parse_url u;
  f ← unescape false fragment;
  Some (mkURL (url_Scheme url) (url_User url) (url_Host url) (url_Path url) (url_RawQuery url) f).
(** [URL.Hostname] and [URL.Port] *)
Definition host_port (host : string) : string * string :=
  match CutLast ":" host with
  | Some (h, p) => if validOptionalPort (String ":" p) then (h, p) else (host, "")
  | None => (host, "")
  end.
Definition Hostname (u : URL) : string :=
  let h := (host_port (url_Host u)).1 in
  if HasPrefix h "[" && HasSuffix h "]" then take_bytes (String.length h - 2) (drop_bytes 1 h) else h.
Definition Port (u : URL) : string := (host_port (url_Host u)).2.

Example url_plain : url_Parse "HTTPS://a.feishu.cn:443/docx/abc%20d?x=1#f" = Some (mkURL "https" false "a.feishu.cn:443" "/docx/abc d" "x=1" "f").
Proof. vm_compute. reflexivity. Qed.
Example url_user : url_Parse "https://bob:pw@h/p" = Some (mkURL "https" true "h" "/p" "" "") /\ url_Parse "https://h%41/p" = None.
Proof. by vm_compute. Qed.
Example url_parts : let u := mkURL "https" false "[::1]:80" "/" "" "" in Hostname u = "::1" /\ Port u = "80".
Proof. by vm_compute. Qed.
Example lower_ex : ToLower "Ab-K" = "ab-k" /\ HasSuffix "abc" "bc" = true /\ Split "/" "a//b" = ["a"; ""; "b"].
Proof. by vm_compute. Qed.

(** ** Escapes *)

Definition upper1 (c : ascii) : ascii := if between 97 122 (code c) then chr (code c - 32) else c.
(** [url.QueryEscape] *)
Definition query_char (c : ascii) : bool := is_alnum c || existsb (fun d => code c =? d) [45; 95; 46; 126].
Definition percent (c : ascii) : string := of_bytes ["%"%char; upper1 (hex_digit (code c / 16)); upper1 (hex_digit (code c mod 16))].
Fixpoint QueryEscape (s : string) : string :=
  match s with
  | "" => ""
  | String c r => (if query_char c then String c "" else if code c =? 32 then "+" else percent c) +:+ QueryEscape r
  end.
(** [url.PathEscape] *)
Definition path_char (c : ascii) : bool := query_char c || existsb (fun d => code c =? d) [36; 38; 43; 61; 58; 64].
Fixpoint PathEscape (s : string) : string :=
  match s with "" => "" | String c r => (if path_char c then String c "" else percent c) +:+ PathEscape r end.

(** ** [path/filepath] on Unix *)

(** The elements kept, the last first. *)
Definition path_step (rooted : bool) (seen : list string) (e : string) : list string :=
  if String.eqb e "" || String.eqb e "." then seen
  else if String.eqb e ".." then
    match seen with
    | x :: r => if String.eqb x ".." then ".." :: seen else r
    | [] => if rooted then [] else [".."]
    end
  else e :: seen.
Definition Clean (path : string) : string :=
  let rooted := HasPrefix path "/" in
  let l := rev (foldl (path_step rooted) [] (Split "/" path)) in
  if rooted then "/" +:+ join "/" l else match l with [] => "." | _ => join "/" l end.
Definition Join (a b : string) : string :=
  if String.eqb a "" then (if String.eqb b "" then "" else Clean b) else if String.eqb b "" then Clean a else Clean (a +:+ "/" +:+ b).
Definition Dir (path : string) : string := Clean (match CutLast "/" path with Some (d, _) => d +:+ "/" | None => "" end).
Definition IsAbs (path : string) : bool := HasPrefix path "/".
Example paths : Clean "a//b/../c/." = "a/c" /\ Clean "../.." = "../.." /\ Clean "/../x" = "/x" /\ Clean "" = "." /\ Dir "a/b" = "a" /\ Dir "a" = "."
  /\ Dir "/a" = "/" /\ Join "/r" "a/../b" = "/r/b".
Proof. by vm_compute. Qed.

(** ** Addresses of mail, as [net/mail] reads them

    [mail.ParseAddress] returns an address text as it was given, and without a
    name, exactly for a bare address: an atom, the at sign, and an atom or an IP
    address between brackets.  Whatever else it accepts (names, angle brackets,
    comments, quoted parts, spaces) comes back as a different text. *)

(** [isAtext] with dots, for characters and bytes of longer runes *)
Definition atext (c : ascii) : bool :=
  (128 <=? code c) || (between 33 126 (code c) && negb (existsb (Z.eqb (code c)) [40; 41; 60; 62; 91; 93; 58; 59; 64; 92; 44; 34])).
(** [consumeAtom] of the whole text *)
Definition dot_atom (s : string) : bool :=
  negb (String.eqb s "") && utf8_valid s && str_forallb atext s && negb (HasPrefix s ".") && negb (Contains s "..") && negb (HasSuffix s ".").

(** ** [net.ParseIP] *)

Definition ipv4_part (s : string) : option Z :=
  if repeated is_digit_char 1 3 s && negb (HasPrefix s "0" && (1 <? len s)) then z ← digits 0 s; if z <=? 255 then Some z else None else None.
Definition ipv4 (s : string) : option (list Z) :=
  match Split "." s with
  | [a; b; c; d] => a ← ipv4_part a; b ← ipv4_part b; c ← ipv4_part c; d ← ipv4_part d; Some [256 * a + b; 256 * c + d]
  | _ => None
  end.
Definition hex_char_value (c : ascii) : option Z := hex_value (lower1 c).
Definition ipv6_group (s : string) : option Z :=
  if between 1 4 (len s) then foldl (fun acc c => a ← acc; x ← hex_char_value c; Some (16 * a + x)) (Some 0) (bytes s) else None.
(** The groups of a side; the last of all may be an IPv4 address, which counts for two. *)
Fixpoint ipv6_groups (last : bool) (l : list string) : option (list Z) :=
  match l with
  | [] => Some []
  | g :: r =>
      match ipv6_group g, r with
      | Some z, _ => cons z <$> ipv6_groups last r
      | None, [] => if last then ipv4 g else None
      | None, _ => None
      end
  end.
Definition side (last : bool) (s : string) : option (list Z) := if String.eqb s "" then Some [] else ipv6_groups last (Split ":" s).
Fixpoint cut_double (s : string) : option (string * string) :=
  match s with
  | "" => None
  | String c r => if HasPrefix s "::" then Some ("", drop_bytes 2 s) else '(a, b) ← cut_double r; Some (String c a, b)
  end.
Definition ipv6 (s : string) : option (list Z) :=
  match cut_double s with
  | Some (a, b) =>
      l ← side false a; r ← side true b;
      let n := (length l + length r)%nat in if Nat.ltb n 8 then Some (l ++ replicate (8 - n) 0 ++ r) else None
  | None => l ← side true s; if Nat.eqb (length l) 8 then Some l else None
  end.
(** The eight groups of an address; those of an IPv4 address are mapped. *)
Definition ParseIP (s : string) : option (list Z) :=
  match ipv4 s with Some l => Some ([0; 0; 0; 0; 0; 0xFFFF] ++ l) | None => ipv6 s end.
Definition To4 (l : list Z) : bool := bool_decide (take 6 l = [0; 0; 0; 0; 0; 0xFFFF]).

(** [consumeDomainLiteral] of the whole text *)
Definition ipv6_prefix : string := "IPv6:".
Definition domain_literal (s : string) : bool :=
  HasPrefix s "[" && HasSuffix s "]" &&
  let d := take_bytes (String.length s - 2) (drop_bytes 1 s) in
  if HasPrefix d ipv6_prefix then bool_decide (is_Some (ParseIP (TrimPrefix d ipv6_prefix)))
  else match ParseIP d with Some l => To4 l | None => false end.
Definition bare_address (s : string) : bool :=
  match Cut "@" s with Some (l, d) => dot_atom l && (dot_atom d || domain_literal d) | None => false end.

Example bare_ex : bare_address "a.b@c.d" = true /\ bare_address "a b@c" = false /\ bare_address "A <a@b>" = false /\ bare_address "a@b@c" = false.
Proof. by vm_compute. Qed.
Example literal_ex : bare_address "a@[10.0.0.1]" = true /\ bare_address "a@[IPv6:::1]" = true /\ bare_address "a@[::FFFF:a00:1]" = true
  /\ bare_address "a@[::1]" = false /\ bare_address "a@[1.2.3.04]" = false.
Proof. by vm_compute. Qed.
