(* ===== verification/ResourceRequest.v ===== *)
(** * Resource requests and push offers ([internal/resources], [internal/gitpush/types.go])

    What the host may ask of a member's machine, and the receipts that come back.
    The validators decide what reaches a local tool. *)
From S2P Require Import Prelude GoStrings Sha256 Json GoUrl.

Definition verr := string.
Definition refused_if (bad : bool) (e : verr) : result verr unit := if bad then Err e else Ok tt.

(** ** Resources ([resources.go], [append.go]) *)

Record ResourceRequest := mkResourceRequest
  { rr_Title : string; rr_Content : string; rr_RequestID : string; rr_AccountID : string;
    rr_Action : string; rr_Target : string; rr_Query : string }.
Definition name_char (c : ascii) : bool := is_alnum c || one_of_chars ["_"; "."; "-"]%char c.
Definition named (s : string) : bool := negb (String.eqb s "") && str_forallb name_char s.
(** [identifier], [token], [issue], [requestID], [accountID] *)
Definition identifier (s : string) : bool := match Cut "/" s with Some (a, b) => named a && named b | None => false end.
Definition resource_token (s : string) : bool := repeated is_alnum 10 100 s.
Definition issue_number (s : string) : bool :=
  match s with String c r => between 49 57 (code c) && repeated is_digit_char 0 9 r | "" => false end.
Definition issue (s : string) : bool := match Cut "#" s with Some (a, n) => identifier a && issue_number n | None => false end.
Definition requestID (s : string) : bool := repeated is_lower_hex 32 32 s.
Definition accountID (s : string) : bool := HasPrefix s "ou_" && repeated is_alnum 8 100 (TrimPrefix s "ou_").
Definition document_hosts : list string := ["feishu.cn"; "larkoffice.com"; "larksuite.com"; "doubao.com"].
Definition validDocument (target : string) : bool :=
  resource_token target ||
  match url_Parse target with
  | None => false
  | Some u =>
      if negb (String.eqb (url_Scheme u) "https") || url_User u || negb (String.eqb (Port u) "") then false else
      let host := ToLower (Hostname u) in
      let allowed := existsb (fun d => String.eqb host d || HasSuffix host ("." +:+ d)) document_hosts in
      match Split "/" (Trim "/" (url_Path u)) with
      | [a; b] => allowed && (String.eqb a "docx" || String.eqb a "wiki") && resource_token b
      | _ => false
      end
  end.
Definition ValidAppendTarget (target : string) : bool :=
  match url_Parse target with
  | None => false
  | Some u =>
      validDocument target && String.eqb (url_Scheme u) "https" && String.eqb (url_RawQuery u) "" && String.eqb (url_Fragment u) ""
      && HasPrefix (url_Path u) "/docx/" && negb (HasSuffix (url_Path u) "/")
  end.
Definition ContentDigest (content : string) : string := sha256_hex content.
Definition IsWrite (r : ResourceRequest) : bool := String.eqb (rr_Action r) "feishu.create" || String.eqb (rr_Action r) "feishu.append".
(** A document holds no control characters but ends of lines and tabs, and no
    noncharacters. *)
Definition document_rune (c : Z) : bool := ((32 <=? c) || existsb (Z.eqb c) [9; 10; 13]) && negb (existsb (Z.eqb c) [0xFFFE; 0xFFFF]).
(** [filepath.IsLocal] on Unix: no step leads above the start. *)
Fixpoint stays_inside (depth : nat) (parts : list string) : bool :=
  match parts with
  | [] => true
  | p :: r =>
      if String.eqb p "" || String.eqb p "." then stays_inside depth r
      else if String.eqb p ".." then match depth with O => false | S d => stays_inside d r end
      else stays_inside (S depth) r
  end.
Definition IsLocal (path : string) : bool := negb (String.eqb path "") && negb (HasPrefix path "/") && stays_inside 0 (Split "/" path).
Definition upper_text (s : string) : string := of_bytes (upper1 <$> bytes s).
Definition bad_resource : verr := "unsupported resource or invalid target".
Definition project_file (target : string) : result verr unit :=
  if negb (String.eqb target "") && IsLocal target && negb (Contains target "\")
  then refused_if (existsb (fun p => HasPrefix p "." || String.eqb p "node_modules") (Split "/" target))
         "hidden and dependency files are not allowed"
  else Err bad_resource.
Definition write_fields_ok (r : ResourceRequest) : bool :=
  negb (blank (rr_Title r)) && (len (rr_Title r) <=? 240) && (len (rr_Content r) <=? 24000) && negb (blank (rr_Content r))
  && utf8_valid (rr_Title r +:+ rr_Content r) && negb (ContainsAny (rr_Title r) [0; 13; 10]) && negb (ContainsAny (rr_Content r) [0])
  && requestID (rr_RequestID r) && accountID (rr_AccountID r)
  && negb (String.eqb (rr_Action r) "feishu.create" && negb (String.eqb (rr_Target r) ""))
  && negb (String.eqb (rr_Action r) "feishu.append" && negb (ValidAppendTarget (rr_Target r)))
  && String.eqb (rr_Query r) "".
(** [Request.Validate] *)
Definition ResourceRequest_Validate (r : ResourceRequest) : result verr unit :=
  let both := rr_Target r +:+ rr_Query r in
  if (1024 <? len (rr_Target r)) || (500 <? len (rr_Query r)) || negb (utf8_valid both) || ContainsAny both [0; 13; 10]
  then Err "invalid resource request"
  else if IsWrite r then
    if negb (forallb document_rune (runes (rr_Title r +:+ rr_Content r))) then Err "文档包含不支持的控制字符"
    else refused_if (negb (write_fields_ok r)) "文档标题、正文、账号或请求标识无效"
  else if negb (forallb (String.eqb "") [rr_Title r; rr_Content r; rr_RequestID r; rr_AccountID r])
  then Err "read operation contains write fields"
  else if existsb (String.eqb (rr_Action r)) ["github.repo"; "github.issues"; "github.search"] then
    if String.eqb (rr_Action r) "github.search"
       && (blank (rr_Query r) || ContainsAny (rr_Query r) [58; 34; 40; 41] || Contains (" " +:+ upper_text (rr_Query r) +:+ " ") " OR ")
    then Err "搜索词请使用普通关键词，不包含查询限定符"
    else refused_if (negb (identifier (rr_Target r) && negb (Contains (rr_Target r) ".."))) bad_resource
  else if String.eqb (rr_Action r) "github.issue" then refused_if (negb (issue (rr_Target r) && negb (Contains (rr_Target r) ".."))) bad_resource
  else if String.eqb (rr_Action r) "feishu.document" then refused_if (negb (validDocument (rr_Target r))) bad_resource
  else if String.eqb (rr_Action r) "feishu.search" then refused_if (negb (negb (blank (rr_Query r)) && String.eqb (rr_Target r) "")) bad_resource
  else if String.eqb (rr_Action r) "project.file" then project_file (rr_Target r)
  else Err bad_resource.

(** Receipts of documents ([create.go]) *)
Record FeishuIdentity := mkFeishuIdentity { fe_Name : string; fe_OpenID : string }.
Record CreateReceipt := mkCreateReceipt
  { cr_Action : string; cr_Target : string; cr_ContentSHA256 : string; cr_RequestID : string; cr_Title : string;
    cr_Account : FeishuIdentity; cr_State : string; cr_URL : string; cr_DocumentID : string; cr_CreatedAt : string }.

(** ** Pushes ([gitpush/types.go]) *)

Definition MaxPack : Z := Z.shiftl 32 20.
Definition ChunkSize : Z := Z.shiftl 128 10.
Definition git_oid (s : string) : bool := repeated is_lower_hex 40 40 s.
(** [repo], [branch], [login] *)
Definition login_char (c : ascii) : bool := is_alnum c || Ascii.eqb c "-".
Definition first_then (p : ascii -> bool) (more : Z) (s : string) : bool :=
  match s with String c r => is_alnum c && repeated p 0 more r | "" => false end.
Definition git_login (s : string) : bool := first_then login_char 38 s.
Definition git_repo (s : string) : bool := match Cut "/" s with Some (a, b) => git_login a && repeated name_char 1 100 b | None => false end.
Definition git_branch (s : string) : bool := first_then (fun c => name_char c || Ascii.eqb c "/") 199 s.
Record PushInput := mkPushInput { pi_Repository : string; pi_Branch : string; pi_Commit : string }.
#[export] Instance PushInput_eq_dec : EqDecision PushInput.
Proof. solve_decision. Defined.
Definition branch_part (p : string) : bool := negb (String.eqb p "" || HasPrefix p "." || HasSuffix p "." || HasSuffix p ".lock").
Definition PushInput_Validate (i : PushInput) : result verr unit :=
  let r := pi_Repository i in let b := pi_Branch i in
  if negb (git_repo r) || HasSuffix r "/." || Contains r ".." || HasSuffix (ToLower r) ".git" || negb (git_branch b) || Contains b ".."
     || Contains b "//" || negb (git_oid (pi_Commit i))
  then Err "推送需要 github.com 的 owner/repo、明确分支和完整 SHA-1 commit"
  else refused_if (negb (forallb branch_part (Split "/" b))) "无效的分支名称".
Definition PushInput_Ref (i : PushInput) : string := "refs/heads/" +:+ pi_Branch i.
Definition PushInput_URL (i : PushInput) : string := "https://github.com/" +:+ pi_Repository i +:+ ".git".
Record Offer := mkOffer { of_Input : PushInput; of_PackSize : Z; of_PackSHA256 : string; of_Summary : string }.
#[export] Instance Offer_eq_dec : EqDecision Offer.
Proof. solve_decision. Defined.
Definition Offer_Validate (o : Offer) : result verr unit :=
  let? _ := PushInput_Validate (of_Input o) in
  let decodes := match hex_DecodeString (of_PackSHA256 o) with Some b => len b =? 32 | None => false end in
  refused_if (negb decodes || negb (len (of_PackSHA256 o) =? 64) || (of_PackSize o <? 32) || (MaxPack <? of_PackSize o) || (12000 <? len (of_Summary o)))
    "无效或过大的提交包".
Definition CheckPack (o : Offer) (pack : string) : result verr unit :=
  let? _ := Offer_Validate o in
  refused_if (negb (len pack =? of_PackSize o) || negb (String.eqb (sha256_hex pack) (of_PackSHA256 o))) "提交包长度或校验值不匹配，未推送".
Record Account := mkAccount { ac_ID : Z; ac_Login : string }.
#[export] Instance Account_eq_dec : EqDecision Account.
Proof. solve_decision. Defined.
Definition Account_Valid (a : Account) : bool := (0 <? ac_ID a) && git_login (ac_Login a).
Record PushReceipt := mkPushReceipt
  { pr_ID : string; pr_Input : PushInput; pr_Account : Account; pr_ExpectedRemote : string; pr_State : string; pr_URL : string; pr_Error : string }.
#[export] Instance PushReceipt_eq_dec : EqDecision PushReceipt.
Proof. solve_decision. Defined.
Definition commit_url (i : PushInput) : string := "https://github.com/" +:+ pi_Repository i +:+ "/commit/" +:+ pi_Commit i.
Definition PushReceipt_Valid (r : PushReceipt) (id : string) (i : PushInput) : bool :=
  is_ok (PushInput_Validate i) && requestID id && String.eqb (pr_ID r) id && bool_decide (pr_Input r = i) && Account_Valid (pr_Account r)
  && (String.eqb (pr_ExpectedRemote r) "" || git_oid (pr_ExpectedRemote r))
  && existsb (String.eqb (pr_State r)) ["completed"; "unknown"; "rejected"]
  && (negb (String.eqb (pr_State r) "completed") || String.eqb (pr_URL r) (commit_url i))
  && (String.eqb (pr_URL r) "" || String.eqb (pr_URL r) (commit_url i)) && (len (pr_Error r) <=? 1000).

Example append_target : ValidAppendTarget "https://team.feishu.cn/docx/abcdefghij" = true /\ ValidAppendTarget "https://feishu.cn.evil.com/docx/abcdefghij" = false
  /\ ValidAppendTarget "https://a@feishu.cn/docx/abcdefghij" = false /\ ValidAppendTarget "https://feishu.cn/wiki/abcdefghij" = false.
Proof. by vm_compute. Qed.
Example local_files : IsLocal "a/../b" = true /\ IsLocal "a/../../b" = false /\ project_file "src/.env" = Err "hidden and dependency files are not allowed".
Proof. by vm_compute. Qed.
Example push_input : is_ok (PushInput_Validate (mkPushInput "o/r" "feature/x" (of_bytes (replicate 40 "a"%char)))) = true
  /\ is_ok (PushInput_Validate (mkPushInput "o/r" "a.lock" (of_bytes (replicate 40 "a"%char)))) = false.
Proof. by vm_compute. Qed.
