(* ===== verification/PersonalBroker.v ===== *)
(** * The personal broker ([internal/personal/broker.go], [push.go], [git.go])

    While a turn of a member runs in personal mode, the agent may ask that member's
    own client to write under the member's accounts.  The broker binds these
    requests to the sender of the turn, hands each to one client and brings the
    result back.  Its mutex makes every operation one step; a caller of the agent
    that waits is a point on which the moves of others act. *)
From S2P Require Import Prelude GoStrings Sha256 Json GoUrl RoomTypes ResourceRequest.

(** ** Data *)

Record GitIdentity := mkGitIdentity { gi_Name : string; gi_Email : string }.
#[export] Instance GitIdentity_eq_dec : EqDecision GitIdentity.
Proof. solve_decision. Defined.
Definition GitIdentity_Validate (i : GitIdentity) : result verr unit :=
  let both := gi_Name i +:+ gi_Email i in
  if negb (String.eqb (TrimSpace (gi_Name i)) (gi_Name i)) || String.eqb (gi_Name i) "" || (120 <? len (gi_Name i)) || (254 <? len (gi_Email i))
     || negb (utf8_valid both) || ContainsAny (gi_Name i) [60; 62]
  then Err "请填写有效的 Git 姓名和邮箱"
  else if existsb IsControl (runes both) then Err "Git 身份不能包含控制字符"
  else refused_if (negb (bare_address (gi_Email i))) "请填写有效的 Git 邮箱".

Record PersonalRequest := mkPersonalRequest
  { pq_Target : string; pq_Push : option Offer; pq_Action : string; pq_ID : string; pq_Title : string; pq_Content : string; pq_Sender : string }.
Record PersonalResult := mkPersonalResult
  { ps_PushReceipt : option PushReceipt; ps_GitIdentity : option GitIdentity; ps_ID : string; ps_Receipt : option CreateReceipt; ps_Error : string }.
Definition failed_result (id error : string) : PersonalResult := mkPersonalResult None None id None error.
(** [pending]; [pd_closed] counts how often its channel was closed. *)
Record Pending := mkPending
  { pd_pack : string; pd_Request : PersonalRequest; pd_uid : UID; pd_client : string; pd_result : option PersonalResult; pd_closed : nat }.
(** Requests are shared by reference: those of the turn by their id, and every one
    that a caller still holds. *)
Record Broker := mkBroker
  { br_mode : string; br_capability : string; br_message : ClientMessageID; br_actor : Actor;
    br_pending : gmap string nat; br_heap : list Pending; br_commitCancel : option nat; br_cancelled : list nat }.
Definition New : Broker := mkBroker "host" "" "" {| ac_UID := 0; ac_Name := "" |} ∅ [] None [].
Definition set_heap (h : list Pending) (b : Broker) : Broker :=
  mkBroker (br_mode b) (br_capability b) (br_message b) (br_actor b) (br_pending b) h (br_commitCancel b) (br_cancelled b).
Definition set_mode (m : string) (b : Broker) : Broker :=
  mkBroker m (br_capability b) (br_message b) (br_actor b) (br_pending b) (br_heap b) (br_commitCancel b) (br_cancelled b).
Definition set_commitCancel (k : option nat) (b : Broker) : Broker :=
  mkBroker (br_mode b) (br_capability b) (br_message b) (br_actor b) (br_pending b) (br_heap b) k (br_cancelled b).
Definition with_result (r : PersonalResult) (p : Pending) : Pending :=
  mkPending (pd_pack p) (pd_Request p) (pd_uid p) (pd_client p) (Some r) (S (pd_closed p)).
Definition with_client (c : string) (p : Pending) : Pending :=
  mkPending (pd_pack p) (pd_Request p) (pd_uid p) c (pd_result p) (pd_closed p).
(** [if p.result == nil { p.result = &r; close(p.ready) }] *)
Definition unless_answered (r : PersonalResult) (p : Pending) : Pending := match pd_result p with None => with_result r p | Some _ => p end.
Definition pending_at (b : Broker) (id : string) : option (nat * Pending) :=
  ptr ← br_pending b !! id; p ← br_heap b !! ptr; Some (ptr, p).

(** ** Turns *)

Definition turn_over : string := "本轮已结束、中断或授权模式已改变；没有改用 Host。若创建已经开始，请查看本机回执。".
Definition drop_pending (h : list Pending) (ptr : nat) : list Pending :=
  alter (fun p => unless_answered (failed_result (pq_ID (pd_Request p)) turn_over) p) ptr h.
Definition invalidateLocked (b : Broker) : Broker :=
  mkBroker (br_mode b) "" (br_message b) (br_actor b) ∅ (foldl drop_pending (br_heap b) (map_to_list (br_pending b)).*2)
    None (match br_commitCancel b with Some k => k :: br_cancelled b | None => br_cancelled b end).
Definition SetMode (mode : string) (b : Broker) : Broker :=
  if String.eqb (br_mode b) mode then b else set_mode mode (invalidateLocked b).
(** [ChangeMode]; [changed] is what [change] returns. *)
Definition ChangeMode (mode : string) (changed : option verr) (b : Broker) : Broker * option verr :=
  match changed with Some e => (b, Some e) | None => (SetMode mode b, None) end.
Definition InvalidateSender (uid : UID) (b : Broker) : Broker := if ac_UID (br_actor b) =? uid then invalidateLocked b else b.
(** [nonce] is what the random source gives. *)
Definition Bind (nonce : result verr string) (id : ClientMessageID) (actor : Actor) (b : Broker) : Broker * result verr string :=
  match nonce with
  | Err e => (b, Err e)
  | Ok n =>
      let b := invalidateLocked b in
      let cap := if String.eqb (br_mode b) "personal" then hex_EncodeToString n else "" in
      (mkBroker (br_mode b) cap id actor (br_pending b) (br_heap b) (br_commitCancel b) (br_cancelled b), Ok cap)
  end.

(** ** Requests of the agent *)

(** [checked] is the answer of the store, whether the member may still act. *)
Definition valid (checked : option verr) (b : Broker) : option verr :=
  if negb (String.eqb (br_mode b) "personal") || String.eqb (br_capability b) "" then Some "个人创建通道不可用；禁止回退 Host" else checked.
Definition zero_byte : string := String (chr 0) "".
Definition request_id (message action title content target : string) : string :=
  hex_EncodeToString (take_bytes 16 (Sha256.Sum256 (join zero_byte [message; action; title; content; target]))).
Definition git_action (action : string) : bool := String.eqb action "git.commit" || String.eqb action "git.push".
(** What a caller asks for. *)
Record ask := mkAsk { as_action : string; as_title : string; as_content : string; as_target : string; as_offer : option Offer; as_pack : string }.
Definition ask_id (b : Broker) (a : ask) : string := request_id (br_message b) (as_action a) (as_title a) (as_content a) (as_target a).
Definition validated (id : string) (a : ask) : result verr unit :=
  if git_action (as_action a) then Ok tt
  else ResourceRequest_Validate (mkResourceRequest (as_title a) (as_content a) id "ou_validation000" (as_action a) (as_target a) "").
Definition new_pending (b : Broker) (id : string) (a : ask) : Pending :=
  mkPending (as_pack a) (mkPersonalRequest (as_target a) (as_offer a) (as_action a) id (as_title a) (as_content a) (ac_Name (br_actor b)))
    (ac_UID (br_actor b)) "" None 0.
(** [callTarget] up to its wait: the request to wait for, and whether it is new. *)
Definition callTarget (checked : option verr) (capability : string) (a : ask) (b : Broker) : Broker * result verr (nat * bool) :=
  if String.eqb capability "" || negb (String.eqb capability (br_capability b)) then (b, Err "创建请求不属于当前发送者或本轮凭证已失效") else
  match valid checked b with
  | Some e => (b, Err e)
  | None =>
      let id := ask_id b a in
      match validated id a with
      | Err e => (b, Err e)
      | Ok _ =>
          match br_pending b !! id with
          | Some ptr => (b, Ok (ptr, false))
          | None =>
              if Nat.leb 8 (size (br_pending b)) then (b, Err "本轮创建请求数量已达上限") else
              let ptr := length (br_heap b) in
              (mkBroker (br_mode b) (br_capability b) (br_message b) (br_actor b) (<[id := ptr]> (br_pending b))
                 (br_heap b ++ [new_pending b id a]) (br_commitCancel b) (br_cancelled b), Ok (ptr, true))
          end
      end
  end.
Definition call_cancelled : string := "请求已中断；可能已开始创建，请检查本机回执，禁止重复创建或使用 Host。".
Definition call_expired : string := "等待发送者授权超时；原请求已停止。请询问发送者检查本机回执，禁止回退 Host 或自动重新创建。".
(** A caller that stops waiting gives the request up for everyone. *)
Definition stop_waiting (ptr : nat) (why : string) (b : Broker) : Broker :=
  set_heap (alter (fun p => unless_answered (failed_result (pq_ID (pd_Request p)) why) p) ptr (br_heap b)) b.

(** ** Requests of the sender's client *)

(** The map is ranged over in the order [ids]. *)
Definition claimable (uid : UID) (client : string) (fresh : bool) (p : Pending) : bool :=
  (pd_uid p =? uid) && bool_decide (pd_result p = None) && (String.eqb (pd_client p) client || (fresh && String.eqb (pd_client p) "")).
Definition first_of (b : Broker) (ids : list string) (ok : Pending -> bool) : option (nat * Pending) :=
  head (omap (fun id => match pending_at b id with Some x => if ok x.2 then Some x else None | None => None end) ids).
Definition Next (checked : option verr) (uid : UID) (client : string) (ids : list string) (b : Broker) : Broker * result verr (option (nat * PersonalRequest)) :=
  if negb (len client =? 32) then (b, Err "invalid client instance") else
  match valid checked b with
  | Some _ => (b, Ok None)
  | None =>
      if negb (uid =? ac_UID (br_actor b)) then (b, Ok None) else
      match first_of b ids (claimable uid client false) with
      | Some (ptr, p) => (b, Ok (Some (ptr, pd_Request p)))
      | None =>
          match first_of b ids (claimable uid client true) with
          | Some (ptr, p) => (set_heap (<[ptr := with_client client p]> (br_heap b)) b, Ok (Some (ptr, pd_Request p)))
          | None => (b, Ok None)
          end
      end
  end.
(** A receipt is kept as it passes through JSON. *)
Definition through_json (s : string) : string := unquote (quote_body (String.length s) s).
Definition clean_receipt (r : CreateReceipt) : CreateReceipt :=
  mkCreateReceipt (through_json (cr_Action r)) (through_json (cr_Target r)) (through_json (cr_ContentSHA256 r)) (through_json (cr_RequestID r))
    (through_json (cr_Title r)) (mkFeishuIdentity (through_json (fe_Name (cr_Account r))) (through_json (fe_OpenID (cr_Account r))))
    (through_json (cr_State r)) (through_json (cr_URL r)) (through_json (cr_DocumentID r)) (through_json (cr_CreatedAt r)).
Definition receipt_answers (q : PersonalRequest) (r : CreateReceipt) : bool :=
  String.eqb (cr_RequestID r) (pq_ID q) && String.eqb (cr_Title r) (pq_Title q)
  && (String.eqb (cr_State r) "completed" || String.eqb (cr_State r) "unknown") && negb (String.eqb (fe_OpenID (cr_Account r)) "").
Definition append_answers (q : PersonalRequest) (r : CreateReceipt) : bool :=
  String.eqb (cr_Target r) (pq_Target q) && String.eqb (cr_ContentSHA256 r) (ContentDigest (pq_Content q)) && String.eqb (cr_Action r) (pq_Action q)
  && negb (String.eqb (cr_State r) "completed" && negb (String.eqb (cr_URL r) (pq_Target q))).
Definition refused_text : string := "发送者尚未授权、拒绝创建或本机创建失败。请询问该发送者处理；禁止使用 Host 或其他成员账号。".
(** What [Resolve] makes of a result for a request. *)
Definition judge (q : PersonalRequest) (r : PersonalResult) : result verr PersonalResult :=
  let error := negb (String.eqb (ps_Error r) "") in
  let action := pq_Action q in
  if error && (bool_decide (is_Some (ps_GitIdentity r)) || bool_decide (is_Some (ps_Receipt r)) || bool_decide (is_Some (ps_PushReceipt r)))
  then Err "ambiguous result"
  else match ps_PushReceipt r, ps_GitIdentity r, ps_Receipt r with
  | Some push, None, None =>
      if String.eqb action "git.push" then
        match pq_Push q with
        | Some o => if PushReceipt_Valid push (pq_ID q) (of_Input o) then Ok r else Err "invalid push receipt"
        | None => Err "invalid push receipt"
        end
      else Err "missing result"
  | None, Some author, None =>
      if String.eqb action "git.commit" then
        match GitIdentity_Validate author with
        | Err e => Err e
        | Ok _ => Ok (mkPersonalResult None (Some author) (ps_ID r) None "")
        end
      else Err "missing result"
  | None, None, Some receipt =>
      if existsb (String.eqb action) ["feishu.create"; "feishu.append"; ""] then
        if negb (receipt_answers q receipt) then Err "invalid creation receipt"
        else if String.eqb action "feishu.append" && negb (append_answers q receipt) then Err "invalid append receipt"
        else Ok (mkPersonalResult None None (ps_ID r) (Some (clean_receipt receipt)) "")
      else Err "missing result"
  | _, _, _ => if error then Ok (failed_result (ps_ID r) refused_text) else Err "missing result"
  end.
(** [Resolve]; [Some] is the request that got its result. *)
Definition Resolve (checked : option verr) (uid : UID) (client : string) (r : PersonalResult) (b : Broker) : Broker * result verr (option (nat * PersonalResult)) :=
  match valid checked b with
  | Some e => (b, Err e)
  | None =>
      match pending_at b (ps_ID r) with
      | None => (b, Err "创建回执不属于本客户端")
      | Some (ptr, p) =>
          if negb (pd_uid p =? uid) || String.eqb (pd_client p) "" || negb (String.eqb (pd_client p) client) then (b, Err "创建回执不属于本客户端") else
          match pd_result p with
          | Some _ => (b, Ok None)
          | None =>
              match judge (pd_Request p) r with
              | Err e => (b, Err e)
              | Ok r => (set_heap (<[ptr := with_result r p]> (br_heap b)) b, Ok (Some (ptr, r)))
              end
          end
      end
  end.
(** [PushChunk] *)
Definition PushChunk (checked : option verr) (uid : UID) (client id : string) (offset : Z) (b : Broker) : result verr (nat * string) :=
  match valid checked b with
  | Some e => Err e
  | None =>
      match pending_at b id with
      | None => Err "提交包不属于本次发送者请求或已经失效"
      | Some (ptr, p) =>
          if negb (String.eqb (pq_Action (pd_Request p)) "git.push") || negb (pd_uid p =? uid) || String.eqb (pd_client p) ""
             || negb (String.eqb (pd_client p) client) || bool_decide (is_Some (pd_result p)) || (offset <? 0) || (len (pd_pack p) <=? offset)
             || negb (offset mod ChunkSize =? 0)
          then Err "提交包不属于本次发送者请求或已经失效"
          else Ok (ptr, take_bytes (Z.to_nat ChunkSize) (drop_bytes (Z.to_nat offset) (pd_pack p)))
      end
  end.

(** ** Callers *)

(** [CommitInput.Validate]; a clean local path has no empty, dot or parent element. *)
Record CommitInput := mkCommitInput { ci_Message : string; ci_Paths : list string; ci_ExpectedHead : string }.
Definition gitOID (s : string) : bool := repeated is_lower_hex 40 40 s || repeated is_lower_hex 64 64 s.
Definition clean_local (p : string) : bool := forallb (fun e => negb (existsb (String.eqb e) [""; "."; ".."])) (Split "/" p).
Definition commit_path (p : string) : bool := clean_local p && (len p <=? 512) && negb (ContainsAny p [0; 13; 10; 92]) && utf8_valid p.
Fixpoint commit_paths (seen l : list string) : result verr unit :=
  match l with
  | [] => Ok tt
  | p :: r =>
      if negb (commit_path p) || existsb (String.eqb p) seen then Err "提交路径必须是明确的项目相对文件路径，不能使用目录或通配规则"
      else if existsb (fun e => EqualFold e ".git") (Split "/" p) then Err "不能提交 Git 内部路径"
      else commit_paths (p :: seen) r
  end.
Definition CommitInput_Validate (i : CommitInput) : result verr unit :=
  let m := ci_Message i in
  if blank m || (2000 <? len m) || negb (utf8_valid m) || ContainsAny m [0] || Nat.eqb (length (ci_Paths i)) 0 || Nat.ltb 100 (length (ci_Paths i))
     || (negb (String.eqb (ci_ExpectedHead i) "unborn") && negb (gitOID (ci_ExpectedHead i)))
  then Err "commit 需要提交说明、明确文件列表和当前 HEAD（空仓库使用 unborn）"
  else commit_paths [] (ci_Paths i).
Record CommitReceipt := mkCommitReceipt
  { cm_ID : string; cm_State : string; cm_Commit : string; cm_Branch : string; cm_Author : GitIdentity; cm_Error : string }.

(** What is done with the result of a request. *)
Inductive after := ThenReturn | ThenPush | ThenCommit (capability : string).
(** Where a call of the agent is: between the sections of [Push] or [Commit] that
    hold the broker's mutex, waiting, or at the commit itself. *)
Inductive point :=
| PWaiting (ptr : nat) (a : after)
| PPushing (capability : string) (i : PushInput) (previous : option (option Offer))
| PPlanning (capability : string) (i : CommitInput)
| PAuthorizing (capability : string) (ptr : nat) (author : GitIdentity)
| PApplying (ptr : nat) (author : GitIdentity)
| PDone (r : result verr PersonalResult)
| PCommitted (r : result verr CommitReceipt).
Inductive act :=
| AcBound (capability : string) (actor : Actor) (message : ClientMessageID)
| AcOver
| AcAsked (ptr : nat) (capability : string) (uid : UID) (q : PersonalRequest)
| AcHanded (ptr : nat) (uid : UID) (client : string) (q : PersonalRequest)
| AcChunk (ptr : nat) (uid : UID) (client : string) (offset : Z) (data : string)
| AcAnswered (ptr : nat) (uid : UID) (client : string) (r : PersonalResult)
| AcReturned (k ptr : nat) (r : PersonalResult)
| AcAuthorized (k ptr : nat) (capability : string) (author : GitIdentity).
Record office := mkOffice { ow_broker : Broker; ow_callers : gmap nat point; ow_commitMu : option nat; ow_trace : list act }.
Definition set_broker (b : Broker) (o : office) : office := mkOffice b (ow_callers o) (ow_commitMu o) (ow_trace o).
Definition goto (k : nat) (p : point) (o : office) : office := mkOffice (ow_broker o) (<[k := p]> (ow_callers o)) (ow_commitMu o) (ow_trace o).
Definition lock (k : nat) (o : office) : office := mkOffice (ow_broker o) (ow_callers o) (Some k) (ow_trace o).
Definition unlock (o : office) : office := mkOffice (ow_broker o) (ow_callers o) None (ow_trace o).
Definition record (l : list act) (o : office) : office := mkOffice (ow_broker o) (ow_callers o) (ow_commitMu o) (ow_trace o ++ l).

(** A request is asked for, and waited for. *)
Definition call (k : nat) (checked : option verr) (capability : string) (a : ask) (next : after) (failed : verr -> office -> office) (o : office) : office :=
  match callTarget checked capability a (ow_broker o) with
  | (b, Err e) => failed e (set_broker b o)
  | (b, Ok (ptr, fresh)) =>
      let o := set_broker b o in
      let o := match fresh, br_heap b !! ptr with
               | true, Some p => record [AcAsked ptr capability (pd_uid p) (pd_Request p)] o
               | _, _ => o
               end in
      goto k (PWaiting ptr next) o
  end.
Definition done (k : nat) (r : result verr PersonalResult) (o : office) : office := goto k (PDone r) o.
Definition push_done (k : nat) (r : result verr PersonalResult) (o : office) : office := unlock (done k r o).
Definition commit_done (k : nat) (r : result verr CommitReceipt) (o : office) : office := unlock (goto k (PCommitted r) o).
(** [Call], [Append] *)
Definition create_ask (title content : string) : ask := mkAsk "feishu.create" title content "" None "".
Definition append_ask (target title content : string) : ask := mkAsk "feishu.append" title content target None "".
(** [Push] *)
Definition push_title (i : PushInput) : string := "推送 " +:+ pi_Repository i +:+ " · " +:+ pi_Branch i.
Definition push_content (i : PushInput) : string :=
  "目标仓库：https://github.com/" +:+ pi_Repository i +:+ nl +:+ "目标分支：" +:+ pi_Branch i +:+ nl +:+ "固定提交：" +:+ pi_Commit i +:+ nl
  +:+ "将传送该提交及其可达历史。仅允许快进或创建分支，不覆盖远端历史。".
Definition push_ask (i : PushInput) (offer : option Offer) (pack : string) : ask := mkAsk "git.push" (push_title i) (push_content i) "" offer pack.
Definition is_push (b : Broker) (ptr : nat) : bool :=
  match br_heap b !! ptr with Some p => String.eqb (pq_Action (pd_Request p)) "git.push" | None => false end.
Definition previous_push (b : Broker) : option (option Offer) :=
  ptr ← head (List.filter (is_push b) (map_to_list (br_pending b)).*2); (fun p => pq_Push (pd_Request p)) <$> br_heap b !! ptr.
Definition begin_push (k : nat) (checked : option verr) (capability : string) (i : PushInput) (o : office) : office :=
  let b := ow_broker o in
  if String.eqb capability "" || negb (String.eqb capability (br_capability b)) then push_done k (Err "本轮推送凭证失效") o else
  match valid checked b with
  | Some e => push_done k (Err e) o
  | None =>
      match PushInput_Validate i with
      | Err e => push_done k (Err e) o
      | Ok _ => goto k (PPushing capability i (previous_push b)) (lock k o)
      end
  end.
(** [prepared] is what [gitpush.Prepare] makes of the repository. *)
Definition continue_push (k : nat) (checked : option verr) (prepared : result verr (Offer * string)) (capability : string) (i : PushInput)
    (previous : option (option Offer)) (o : office) : office :=
  let ask_for offer pack := call k checked capability (push_ask i offer pack) ThenPush (fun e => push_done k (Err e)) o in
  match previous with
  | Some offer =>
      match offer with
      | Some x => if bool_decide (of_Input x = i) then ask_for (Some x) "" else push_done k (Err "每轮仅允许一个明确的推送目标，请另发消息") o
      | None => push_done k (Err "每轮仅允许一个明确的推送目标，请另发消息") o
      end
  | None => match prepared with Err e => push_done k (Err e) o | Ok (offer, pack) => ask_for (Some offer) pack end
  end.
(** [Commit]: the first section, what the files say, and the request; [planned] is
    a receipt found on disk or the summary of the prepared commit. *)
Definition begin_commit (k : nat) (checked : option verr) (capability : string) (i : CommitInput) (o : office) : office :=
  let b := ow_broker o in
  match CommitInput_Validate i with
  | Err e => commit_done k (Err e) o
  | Ok _ =>
      if String.eqb capability "" || negb (String.eqb capability (br_capability b)) then commit_done k (Err "提交凭证已失效") o else
      match valid checked b with
      | Some e => commit_done k (Err e) o
      | None => goto k (PPlanning capability i) (lock k o)
      end
  end.
Definition commit_ask (i : CommitInput) (summary : string) : ask := mkAsk "git.commit" (ci_Message i) summary "" None "".
Definition continue_commit (k : nat) (checked : option verr) (planned : result verr (CommitReceipt + string)) (capability : string) (i : CommitInput)
    (o : office) : office :=
  match planned with
  | Err e => commit_done k (Err e) o
  | Ok (inl found) => commit_done k (Ok found) o
  | Ok (inr summary) => call k checked capability (commit_ask i summary) (ThenCommit capability) (fun e => commit_done k (Err e)) o
  end.
Definition authorize (k : nat) (checked : option verr) (capability : string) (ptr : nat) (author : GitIdentity) (o : office) : office :=
  let b := ow_broker o in
  if negb (String.eqb capability (br_capability b)) then commit_done k (Err "任务已变化，没有提交") o else
  match valid checked b with
  | Some e => commit_done k (Err e) o
  | None => record [AcAuthorized k ptr capability author] (goto k (PApplying ptr author) (set_broker (set_commitCancel (Some k) b) o))
  end.
(** The result of a request reaches who waits for it. *)
Definition receive (k ptr : nat) (a : after) (r : result verr PersonalResult) (o : office) : office :=
  let o := match r with Ok x => record [AcReturned k ptr x] o | Err _ => o end in
  match a with
  | ThenReturn => done k r o
  | ThenPush => push_done k r o
  | ThenCommit capability =>
      match r with
      | Err e => commit_done k (Err e) o
      | Ok x =>
          match ps_GitIdentity x with
          | None => commit_done k (Err "发送者未确认 Git 署名；没有提交") o
          | Some author => goto k (PAuthorizing capability ptr author) o
          end
      end
  end.

(** ** Moves *)

Inductive move :=
| MvBind (nonce : result verr string) (id : ClientMessageID) (actor : Actor)
| MvInvalidate
| MvInvalidateSender (uid : UID)
| MvSetMode (mode : string)
| MvChangeMode (mode : string) (changed : option verr)
| MvCall (k : nat) (checked : option verr) (capability title content : string)
| MvAppend (k : nat) (checked : option verr) (capability target title content : string)
| MvPush (k : nat) (checked : option verr) (capability : string) (i : PushInput)
| MvPrepared (k : nat) (checked : option verr) (prepared : result verr (Offer * string))
| MvCommit (k : nat) (checked : option verr) (capability : string) (i : CommitInput)
| MvPlanned (k : nat) (checked : option verr) (planned : result verr (CommitReceipt + string))
| MvReady (k : nat)
| MvCancelled (k : nat) (e : verr)
| MvExpired (k : nat)
| MvAuthorize (k : nat) (checked : option verr)
| MvApplied (k : nat) (r : result verr CommitReceipt)
| MvNext (checked : option verr) (uid : UID) (client : string) (ids : list string)
| MvResolve (checked : option verr) (uid : UID) (client : string) (r : PersonalResult)
| MvPushChunk (checked : option verr) (uid : UID) (client id : string) (offset : Z).
Definition turn_ends (b : Broker) (o : office) : office := record [AcOver] (set_broker b o).
Definition change_mode (mode : string) (o : office) : office :=
  let b := ow_broker o in if String.eqb (br_mode b) mode then o else turn_ends (SetMode mode b) o.
(** A new call takes a number of its own. *)
Definition starts (k : nat) (mutex : bool) (o : office) (f : office) : office :=
  match ow_callers o !! k with
  | Some _ => o
  | None => if mutex && bool_decide (is_Some (ow_commitMu o)) then o else f
  end.
Definition personal_step (o : office) (m : move) : office :=
  let b := ow_broker o in
  match m with
  | MvBind nonce id actor =>
      match Bind nonce id actor b with
      | (b', Ok cap) => record [AcBound cap actor id] (turn_ends b' o)
      | (b', Err _) => o
      end
  | MvInvalidate => turn_ends (invalidateLocked b) o
  | MvInvalidateSender uid => if ac_UID (br_actor b) =? uid then turn_ends (InvalidateSender uid b) o else o
  | MvSetMode mode => change_mode mode o
  | MvChangeMode mode changed => match changed with Some _ => o | None => change_mode mode o end
  | MvCall k checked cap title content => starts k false o (call k checked cap (create_ask title content) ThenReturn (fun e => done k (Err e)) o)
  | MvAppend k checked cap target title content =>
      starts k false o (call k checked cap (append_ask target title content) ThenReturn (fun e => done k (Err e)) o)
  | MvPush k checked cap i => starts k true o (begin_push k checked cap i o)
  | MvCommit k checked cap i => starts k true o (begin_commit k checked cap i o)
  | MvPrepared k checked prepared =>
      match ow_callers o !! k with Some (PPushing cap i previous) => continue_push k checked prepared cap i previous o | _ => o end
  | MvPlanned k checked planned =>
      match ow_callers o !! k with Some (PPlanning cap i) => continue_commit k checked planned cap i o | _ => o end
  | MvReady k =>
      match ow_callers o !! k with
      | Some (PWaiting ptr a) =>
          match br_heap b !! ptr with Some p => match pd_result p with Some r => receive k ptr a (Ok r) o | None => o end | None => o end
      | _ => o
      end
  | MvCancelled k e =>
      match ow_callers o !! k with
      | Some (PWaiting ptr a) => receive k ptr a (Err e) (set_broker (stop_waiting ptr call_cancelled b) o)
      | _ => o
      end
  | MvExpired k =>
      match ow_callers o !! k with
      | Some (PWaiting ptr a) =>
          let b' := stop_waiting ptr call_expired b in
          match br_heap b' !! ptr with
          | Some p => match pd_result p with Some r => receive k ptr a (Ok r) (set_broker b' o) | None => o end
          | None => o
          end
      | _ => o
      end
  | MvAuthorize k checked =>
      match ow_callers o !! k with Some (PAuthorizing cap ptr author) => authorize k checked cap ptr author o | _ => o end
  | MvApplied k r =>
      match ow_callers o !! k with
      | Some (PApplying _ _) => commit_done k r (set_broker (set_commitCancel None b) o)
      | _ => o
      end
  | MvNext checked uid client ids =>
      match Next checked uid client ids b with
      | (b', Ok (Some (ptr, q))) => record [AcHanded ptr uid client q] (set_broker b' o)
      | (b', _) => set_broker b' o
      end
  | MvResolve checked uid client r =>
      match Resolve checked uid client r b with
      | (b', Ok (Some (ptr, r))) => record [AcAnswered ptr uid client r] (set_broker b' o)
      | (b', _) => set_broker b' o
      end
  | MvPushChunk checked uid client id offset =>
      match PushChunk checked uid client id offset b with
      | Ok (ptr, data) => record [AcChunk ptr uid client offset data] o
      | Err _ => o
      end
  end.
Definition personal_run (o : office) (l : list move) : office := foldl personal_step o l.
Definition new_office : office := mkOffice New ∅ None [].
