(* ===== verification/PersonalSafety.v ===== *)
(** * What the personal broker lets happen

    Every step of the broker is lawful with respect to what happened before it: a
    request is handed only to one client of the member whose turn asked for it, and
    a result that carries a receipt comes from that client, during that turn. *)
From S2P Require Import Prelude GoStrings Sha256 Json GoUrl RoomTypes ResourceRequest PersonalBroker.

(** ** The law of a trace *)

(** Since the last end of a turn. *)
Definition in_turn (tr : list act) (a : act) : Prop := exists before since, tr = before ++ a :: since /\ AcOver ∉ since.
Definition unanswered (tr : list act) (ptr : nat) : Prop := forall uid client r, AcAnswered ptr uid client r ∉ tr.
Definition empty_handed (r : PersonalResult) : Prop := ps_PushReceipt r = None /\ ps_GitIdentity r = None /\ ps_Receipt r = None.
Definition lawful (tr : list act) (a : act) : Prop :=
  match a with
  | AcBound _ _ _ | AcOver => True
  | AcAsked ptr cap uid q =>
      cap <> "" /\ (forall uid' client' q', AcHanded ptr uid' client' q' ∉ tr) /\ unanswered tr ptr
      /\ exists actor message, in_turn tr (AcBound cap actor message) /\ uid = ac_UID actor /\ pq_Sender q = ac_Name actor
           /\ pq_ID q = request_id message (pq_Action q) (pq_Title q) (pq_Content q) (pq_Target q)
  | AcHanded ptr uid client q =>
      (exists cap, in_turn tr (AcAsked ptr cap uid q)) /\ len client = 32 /\ unanswered tr ptr
      /\ forall uid' client' q', AcHanded ptr uid' client' q' ∈ tr -> client' = client
  | AcChunk ptr uid client _ _ => exists cap q, in_turn tr (AcAsked ptr cap uid q) /\ AcHanded ptr uid client q ∈ tr /\ unanswered tr ptr
  | AcAnswered ptr uid client r =>
      exists cap q sent, in_turn tr (AcAsked ptr cap uid q) /\ AcHanded ptr uid client q ∈ tr /\ judge q sent = Ok r /\ unanswered tr ptr
  | AcReturned _ ptr r => empty_handed r \/ exists uid client, AcAnswered ptr uid client r ∈ tr
  | AcAuthorized _ ptr cap author =>
      (exists actor message, in_turn tr (AcBound cap actor message))
      /\ exists uid q client r, AcAsked ptr cap uid q ∈ tr /\ AcAnswered ptr uid client r ∈ tr /\ ps_GitIdentity r = Some author
  end.
Definition law_abiding (tr : list act) : Prop := forall t1 a t2, tr = t1 ++ a :: t2 -> lawful t1 a.
Lemma law_abiding_snoc tr a : law_abiding tr -> lawful tr a -> law_abiding (tr ++ [a]).
Proof.
  intros L La t1 x t2 E. destruct (decide (t2 = [])) as [->|N].
  - apply app_inj_tail in E as [-> ->]. done.
  - destruct (exists_last N) as (t & y & ->). rewrite app_comm_cons, app_assoc in E. apply app_inj_tail in E as [E _]. by eapply L.
Qed.
Lemma in_turn_here tr a : in_turn (tr ++ [a]) a.
Proof. exists tr, []. split; [done|apply not_elem_of_nil]. Qed.
Lemma in_turn_later tr a x : in_turn tr a -> x <> AcOver -> in_turn (tr ++ [x]) a.
Proof.
  intros (b & s & -> & N) Hx. exists b, (s ++ [x]). split; [by rewrite <- app_assoc|]. intros [?|E%list_elem_of_singleton]%elem_of_app; [done|congruence].
Qed.
Lemma in_turn_elem tr a : in_turn tr a -> a ∈ tr.
Proof. intros (b & s & -> & _). rewrite elem_of_app. right. left. Qed.

(** ** The invariant of the broker *)

Record entry_ok (tr : list act) (pending : gmap string nat) (ptr : nat) (p : Pending) : Prop := mk_entry
  { en_closed : pd_closed p = match pd_result p with None => 0%nat | Some _ => 1%nat end;
    en_open : pd_result p = None -> pending !! pq_ID (pd_Request p) = Some ptr;
    en_handed : forall uid c q, AcHanded ptr uid c q ∈ tr -> uid = pd_uid p /\ c = pd_client p /\ q = pd_Request p /\ c <> "";
    en_claimed : pd_client p <> "" -> AcHanded ptr (pd_uid p) (pd_client p) (pd_Request p) ∈ tr;
    en_asked : forall cap uid q, AcAsked ptr cap uid q ∈ tr -> uid = pd_uid p;
    en_answered : forall uid c r, AcAnswered ptr uid c r ∈ tr -> pd_result p = Some r;
    en_result : forall r, pd_result p = Some r -> empty_handed r \/ AcAnswered ptr (pd_uid p) (pd_client p) r ∈ tr }.
Definition about (a : act) : option nat :=
  match a with AcAsked ptr _ _ _ | AcHanded ptr _ _ _ | AcAnswered ptr _ _ _ => Some ptr | _ => None end.
Record binv (b : Broker) (tr : list act) : Prop := mk_binv
  { bi_law : law_abiding tr;
    bi_bound : br_capability b <> "" -> in_turn tr (AcBound (br_capability b) (br_actor b) (br_message b));
    bi_pending : forall id ptr, br_pending b !! id = Some ptr -> exists p, br_heap b !! ptr = Some p /\ pq_ID (pd_Request p) = id
      /\ pd_uid p = ac_UID (br_actor b) /\ in_turn tr (AcAsked ptr (br_capability b) (pd_uid p) (pd_Request p));
    bi_heap : forall ptr p, br_heap b !! ptr = Some p -> entry_ok tr (br_pending b) ptr p;
    bi_known : forall a ptr, a ∈ tr -> about a = Some ptr -> (ptr < length (br_heap b))%nat }.

Definition neutral (a : act) : Prop := about a = None /\ a <> AcOver.
Lemma entry_neutral tr pending ptr p a : about a <> Some ptr -> entry_ok tr pending ptr p -> entry_ok (tr ++ [a]) pending ptr p.
Proof.
  intros N [C O H K S A R]. split; [done|done| | | | |].
  - intros uid c q [Hin| <-%list_elem_of_singleton]%elem_of_app; [by eapply H|by destruct N].
  - intros Hc. apply elem_of_app. left. by apply K.
  - intros cap uid q [Hin| <-%list_elem_of_singleton]%elem_of_app; [by eapply S|by destruct N].
  - intros uid c r [Hin| <-%list_elem_of_singleton]%elem_of_app; [by eapply A|by destruct N].
  - intros r Hr. destruct (R r Hr); [by left|right]. apply elem_of_app. by left.
Qed.
Lemma binv_neutral b tr a : neutral a -> lawful tr a -> binv b tr -> binv b (tr ++ [a]).
Proof.
  intros [N NO] L [La Bo P H K]. split.
  - by apply law_abiding_snoc.
  - intros Hc. apply in_turn_later; auto.
  - intros id ptr E. destruct (P id ptr E) as (p & E1 & E2 & E3 & E4). exists p. split_and!; try done. by apply in_turn_later.
  - intros ptr p E. apply entry_neutral; [congruence|auto].
  - intros x ptr [Hx|E%list_elem_of_singleton]%elem_of_app Hp; [by eapply K|subst x; congruence].
Qed.

(** ** Ends of turns *)

Definition dropped (p : Pending) : Pending := unless_answered (failed_result (pq_ID (pd_Request p)) turn_over) p.
Lemma dropped_twice p : dropped (dropped p) = dropped p.
Proof.
  assert (S : pd_result p <> None -> dropped p = p) by (unfold dropped, unless_answered; by destruct (pd_result p)).
  destruct (pd_result p) eqn:E; [by rewrite !S by done|]. unfold dropped at 2 3, unless_answered. rewrite E. done.
Qed.
Lemma drop_all l h ptr : foldl drop_pending h l !! ptr = if decide (ptr ∈ l) then dropped <$> h !! ptr else h !! ptr.
Proof.
  revert h. induction l as [|x l IH]; intros h; cbn [foldl]; [case_decide as D; [by apply not_elem_of_nil in D|done]|]. rewrite IH. unfold drop_pending.
  fold dropped. destruct (decide (ptr = x)) as [->|N].
  - rewrite list_lookup_alter_eq, (decide_True (P := _ ∈ _ :: _)) by left. case_decide; [|done]. destruct (h !! x); cbn; by rewrite ?dropped_twice.
  - rewrite list_lookup_alter_ne by done. apply decide_ext. rewrite elem_of_cons. naive_solver.
Qed.
Lemma drop_length l h : length (foldl drop_pending h l) = length h.
Proof. revert h. induction l as [|x l IH]; intros h; [done|]. cbn. rewrite IH. apply length_alter. Qed.
Lemma empty_failed id e : empty_handed (failed_result id e).
Proof. done. Qed.
Lemma entry_given_up tr pending pending' ptr p r : empty_handed r ->
  entry_ok tr pending ptr p -> entry_ok tr pending' ptr (unless_answered r p).
Proof.
  intros Er [C O H K S A R]. unfold unless_answered. destruct (pd_result p) as [r0|] eqn:E.
  - split; rewrite ?E; auto. done.
  - split; cbn; [by rewrite C|done|done|done|done| |].
    + intros uid c r1 Hin. by specialize (A _ _ _ Hin).
    + intros r1 [= <-]. by left.
Qed.
Lemma give_up_frame r p : pd_uid (unless_answered r p) = pd_uid p /\ pd_Request (unless_answered r p) = pd_Request p /\ pd_client (unless_answered r p) = pd_client p.
Proof. unfold unless_answered. by destruct (pd_result p). Qed.
Lemma binv_over b tr mode cap actor message cancel cancelled :
  binv b tr -> cap = "" -> binv (mkBroker mode cap message actor ∅ (br_heap (invalidateLocked b)) cancel cancelled) (tr ++ [AcOver]).
Proof.
  intros [La Bo P H K] ->. split; cbn [br_capability br_pending br_heap]; try done.
  - by apply law_abiding_snoc.
  - intros ptr p. cbn. rewrite drop_all. case_decide as D.
    + intros E. apply fmap_Some in E as (p0 & E & ->). apply entry_neutral; [done|]. eapply entry_given_up; [done|by apply H].
    + intros E. apply entry_neutral; [done|]. destruct (H ptr p E) as [C O Hh Kc S A R]. split; try done. intros Hr. destruct D.
      apply list_elem_of_fmap. exists (pq_ID (pd_Request p), ptr). split; [done|]. apply elem_of_map_to_list. by apply O.
  - intros a ptr [Ha|E%list_elem_of_singleton]%elem_of_app Hp; [|by subst a]. cbn. rewrite drop_length. by eapply K.
Qed.
Lemma binv_same b b' tr : br_capability b' = br_capability b -> br_actor b' = br_actor b -> br_message b' = br_message b ->
  br_pending b' = br_pending b -> br_heap b' = br_heap b -> binv b tr -> binv b' tr.
Proof. intros E1 E2 E3 E4 E5 [La Bo P H K]. split; rewrite ?E1, ?E2, ?E3, ?E4, ?E5; auto. Qed.
Lemma binv_bound b tr mode cap actor message : binv b tr -> br_pending b = ∅ ->
  binv (mkBroker mode cap message actor ∅ (br_heap b) (br_commitCancel b) (br_cancelled b)) (tr ++ [AcBound cap actor message]).
Proof.
  intros [La Bo P H K] Ep. split; cbn [br_capability br_pending br_heap br_actor br_message]; try done.
  - by apply law_abiding_snoc.
  - intros _. apply in_turn_here.
  - intros ptr p E. apply entry_neutral; [done|]. rewrite <- Ep. by apply H.
  - intros a ptr [Ha|E%list_elem_of_singleton]%elem_of_app Hp; [by eapply K|by subst a].
Qed.

(** ** Requests *)

Lemma binv_unknown b tr ptr a : binv b tr -> (length (br_heap b) <= ptr)%nat -> about a = Some ptr -> a ∉ tr.
Proof. intros [_ _ _ _ K] L A Ha. specialize (K a ptr Ha A). lia. Qed.
Lemma binv_asked b tr cap a id :
  let ptr := length (br_heap b) in let p := new_pending b id a in
  binv b tr -> cap <> "" -> cap = br_capability b -> id = ask_id b a -> br_pending b !! id = None ->
  binv (mkBroker (br_mode b) (br_capability b) (br_message b) (br_actor b) (<[id := ptr]> (br_pending b)) (br_heap b ++ [p])
          (br_commitCancel b) (br_cancelled b)) (tr ++ [AcAsked ptr cap (pd_uid p) (pd_Request p)]).
Proof.
  intros ptr p I Nc Ec Ei En. pose proof (fun a => binv_unknown b tr ptr a I (le_n _)) as U. destruct I as [La Bo P H K].
  assert (Ho : forall ptr' x, br_heap b !! ptr' = Some x -> ptr' <> ptr) by (intros ptr' x Hx%lookup_lt_Some; subst ptr; lia).
  split; cbn [br_capability br_pending br_heap br_actor br_message].
  - apply law_abiding_snoc; [done|]. cbn. split_and!; [done|intros; by apply U|intros ? ? ?; by apply U|].
    exists (br_actor b), (br_message b). rewrite Ec in *. split_and!; try done. by apply Bo.
  - intros _. apply in_turn_later; [by apply Bo; congruence|done].
  - intros id' ptr' [[<- <-]|[Ne E]]%lookup_insert_Some.
    + exists p. split_and!; [by apply list_lookup_middle|done|done|]. rewrite <- Ec. apply in_turn_here.
    + destruct (P id' ptr' E) as (x & E1 & E2 & E3 & E4). exists x. split_and!; try done; [by apply lookup_app_l_Some|by apply in_turn_later].
  - intros ptr' x [E|[Hl E]]%lookup_app_Some.
    + assert (Np : ptr' <> ptr) by by eapply Ho. apply entry_neutral; [cbn; congruence|]. destruct (H ptr' x E) as [C O Hh Kc S A R].
      split; try done. intros Hr. rewrite lookup_insert_ne; [by apply O|]. intros E2. specialize (O Hr). congruence.
    + apply list_lookup_singleton_Some in E as [Ez <-]. assert (ptr' = ptr) as -> by (subst ptr; lia).
      assert (V : forall x, x ∈ tr ++ [AcAsked ptr cap (pd_uid p) (pd_Request p)] -> about x = Some ptr -> x = AcAsked ptr cap (pd_uid p) (pd_Request p)).
      { intros y [Hy|Hy%list_elem_of_singleton]%elem_of_app Ay; [by destruct (U y Ay)|done]. }
      split; try done.
      * intros _. apply lookup_insert_eq.
      * intros uid c q Hy. by specialize (V _ Hy eq_refl).
      * intros cap' uid q Hy. specialize (V _ Hy eq_refl). congruence.
      * intros uid c r Hy. by specialize (V _ Hy eq_refl).
  - intros y ptr' [Hy|Hy%list_elem_of_singleton]%elem_of_app Hp; rewrite length_app; cbn.
    + specialize (K y ptr' Hy Hp). lia.
    + subst y. injection Hp as <-. subst ptr. lia.
Qed.
Lemma pending_at_facts b tr id ptr p : binv b tr -> pending_at b id = Some (ptr, p) ->
  br_heap b !! ptr = Some p /\ br_pending b !! id = Some ptr /\ pq_ID (pd_Request p) = id /\ pd_uid p = ac_UID (br_actor b)
  /\ in_turn tr (AcAsked ptr (br_capability b) (pd_uid p) (pd_Request p)) /\ entry_ok tr (br_pending b) ptr p.
Proof.
  intros [La Bo P H K] E. unfold pending_at in E. destruct (br_pending b !! id) as [ptr'|] eqn:E1; [|done]. cbn in E.
  destruct (br_heap b !! ptr') as [p'|] eqn:E2; [|done]. cbn in E. injection E as -> ->.
  destruct (P id ptr E1) as (x & Ex & A1 & A2 & A3). rewrite E2 in Ex. injection Ex as ->. split_and!; auto.
Qed.
(** Changing one entry. *)
Lemma binv_update b tr a ptr p p' :
  binv b tr -> br_heap b !! ptr = Some p -> pd_uid p' = pd_uid p -> pd_Request p' = pd_Request p -> a <> AcOver ->
  (about a = None \/ about a = Some ptr) -> lawful tr a -> (entry_ok tr (br_pending b) ptr p -> entry_ok (tr ++ [a]) (br_pending b) ptr p') ->
  binv (set_heap (<[ptr := p']> (br_heap b)) b) (tr ++ [a]).
Proof.
  intros [La Bo P H K] E Eu Eq No Ab Lw En. pose proof (lookup_lt_Some _ _ _ E) as Lt. split; cbn [set_heap br_capability br_pending br_heap br_actor br_message].
  - by apply law_abiding_snoc.
  - intros Hc. apply in_turn_later; auto.
  - intros id ptr' Ep. destruct (P id ptr' Ep) as (x & Ex & A1 & A2 & A3). destruct (decide (ptr' = ptr)) as [->|Ne].
    + exists p'. rewrite Ex in E. injection E as ->. rewrite list_lookup_insert_eq by done. rewrite Eu, Eq. split_and!; try done. by apply in_turn_later.
    + exists x. rewrite list_lookup_insert_ne by done. split_and!; try done. by apply in_turn_later.
  - intros ptr' x Ex. destruct (decide (ptr' = ptr)) as [->|Ne].
    + rewrite list_lookup_insert_eq in Ex by done. injection Ex as <-. apply En. by apply H.
    + rewrite list_lookup_insert_ne in Ex by done. apply entry_neutral; [|by apply H]. destruct Ab as [-> | ->]; congruence.
  - intros y ptr' [Hy|Hy%list_elem_of_singleton]%elem_of_app Hp; rewrite length_insert; [by eapply K|]. subst y. destruct Ab; congruence.
Qed.
Lemma binv_give_up b tr ptr why : binv b tr -> binv (stop_waiting ptr why b) tr.
Proof.
  intros [La Bo P H K]. unfold stop_waiting. split; cbn [set_heap br_capability br_pending br_heap br_actor br_message]; try done.
  - intros id ptr' Ep. destruct (P id ptr' Ep) as (x & Ex & A1 & A2 & A3). destruct (decide (ptr' = ptr)) as [->|Ne].
    + rewrite list_lookup_alter_eq, Ex. cbn. eexists. split; [done|]. destruct (give_up_frame (failed_result (pq_ID (pd_Request x)) why) x) as (-> & -> & _). done.
    + exists x. by rewrite list_lookup_alter_ne.
  - intros ptr' x Ex. destruct (decide (ptr' = ptr)) as [->|Ne].
    + rewrite list_lookup_alter_eq in Ex. apply fmap_Some in Ex as (y & Ey & ->). eapply entry_given_up; [done|by apply H].
    + rewrite list_lookup_alter_ne in Ex by done. by apply H.
  - intros a ptr' Ha Hp. rewrite length_alter. by eapply K.
Qed.
Lemma entry_unanswered tr pending ptr p : entry_ok tr pending ptr p -> pd_result p = None -> unanswered tr ptr.
Proof. intros E N uid c r Hin. pose proof (en_answered _ _ _ _ E _ _ _ Hin). congruence. Qed.
Lemma binv_handed b tr id ptr p client : binv b tr -> pending_at b id = Some (ptr, p) -> pd_result p = None ->
  pd_client p = client \/ pd_client p = "" -> len client = 32 ->
  binv (set_heap (<[ptr := with_client client p]> (br_heap b)) b) (tr ++ [AcHanded ptr (pd_uid p) client (pd_Request p)]).
Proof.
  intros I Ep Nr Hc Lc. destruct (pending_at_facts b tr id ptr p I Ep) as (Eh & Epd & Ei & Eu & Ea & En).
  assert (Ne : client <> "") by (intros ->; done).
  assert (Old : forall uid c q, AcHanded ptr uid c q ∈ tr -> c = client).
  { intros uid c q Hin. destruct (en_handed _ _ _ _ En _ _ _ Hin) as (_ & -> & _ & N). destruct Hc as [E|E]; [done|by rewrite E in N]. }
  apply (binv_update b tr _ ptr p); try done; [by right| |].
  - cbn. split_and!; [by eexists|done|by eapply entry_unanswered|done].
  - intros [C O Hh Kc S A R]. split; cbn [with_client pd_closed pd_result pd_client pd_uid pd_Request about]; try done.
    + intros uid c q [Hin|Hin%list_elem_of_singleton]%elem_of_app.
      * destruct (Hh _ _ _ Hin) as (-> & _ & -> & _). by rewrite (Old _ _ _ Hin).
      * by injection Hin as -> -> ->.
    + intros _. apply elem_of_app. right. by apply list_elem_of_singleton.
    + intros cap uid q [Hin|Hin%list_elem_of_singleton]%elem_of_app; [by eapply S|done].
    + intros uid c r [Hin|Hin%list_elem_of_singleton]%elem_of_app; [by eapply A|done].
    + intros r Hr. congruence.
Qed.
Lemma binv_answered b tr id ptr p client sent r : binv b tr -> pending_at b id = Some (ptr, p) -> pd_result p = None ->
  pd_client p = client -> client <> "" -> judge (pd_Request p) sent = Ok r ->
  binv (set_heap (<[ptr := with_result r p]> (br_heap b)) b) (tr ++ [AcAnswered ptr (pd_uid p) client r]).
Proof.
  intros I Ep Nr Hc Ne J. destruct (pending_at_facts b tr id ptr p I Ep) as (Eh & Epd & Ei & Eu & Ea & En).
  apply (binv_update b tr _ ptr p); try done; [by right| |].
  - cbn. exists (br_capability b), (pd_Request p), sent. split_and!; [done| |done|by eapply entry_unanswered].
    rewrite <- Hc. apply (en_claimed _ _ _ _ En). by rewrite Hc.
  - intros [C O Hh Kc S A R]. split; cbn [with_result pd_closed pd_result pd_client pd_uid pd_Request about].
    + by rewrite C, Nr.
    + done.
    + intros uid c q [Hin|Hin%list_elem_of_singleton]%elem_of_app; [by eapply Hh|done].
    + intros N. apply elem_of_app. left. by apply Kc.
    + intros cap uid q [Hin|Hin%list_elem_of_singleton]%elem_of_app; [by eapply S|done].
    + intros uid c x [Hin|Hin%list_elem_of_singleton]%elem_of_app; [by specialize (A _ _ _ Hin); congruence|]. by injection Hin as -> -> ->.
    + intros x [= <-]. right. apply elem_of_app. right. apply list_elem_of_singleton. by rewrite Hc.
Qed.

(** ** Callers *)

Definition asked_for (tr : list act) (ptr : nat) (cap : string) : Prop := exists uid q, AcAsked ptr cap uid q ∈ tr.
Definition confirmed (tr : list act) (ptr : nat) (cap : string) (author : GitIdentity) : Prop :=
  exists uid q client r, AcAsked ptr cap uid q ∈ tr /\ AcAnswered ptr uid client r ∈ tr /\ ps_GitIdentity r = Some author.
Definition point_ok (tr : list act) (known : nat) (pt : point) : Prop :=
  match pt with
  | PWaiting ptr a => (ptr < known)%nat /\ match a with ThenCommit cap => asked_for tr ptr cap | _ => True end
  | PAuthorizing cap ptr author => confirmed tr ptr cap author
  | _ => True
  end.
Record inv (o : office) : Prop := mk_inv
  { iv_broker : binv (ow_broker o) (ow_trace o);
    iv_callers : forall k pt, ow_callers o !! k = Some pt -> point_ok (ow_trace o) (length (br_heap (ow_broker o))) pt }.
Lemma point_grows tr tr' n n' pt : (forall x, x ∈ tr -> x ∈ tr') -> (n <= n')%nat -> point_ok tr n pt -> point_ok tr' n' pt.
Proof.
  intros T L. destruct pt as [ptr a| | |cap ptr author| | |]; cbn; try done.
  - intros [Hp Ha]. split; [lia|]. destruct a; try done. destruct Ha as (uid & q & Hin). exists uid, q. auto.
  - intros (uid & q & client & r & A & B & C). exists uid, q, client, r. auto.
Qed.
Lemma inv_grows o b' callers' mu tr' : inv o -> binv b' tr' -> (forall x, x ∈ ow_trace o -> x ∈ tr') ->
  (length (br_heap (ow_broker o)) <= length (br_heap b'))%nat ->
  (forall k pt, callers' !! k = Some pt -> ow_callers o !! k = Some pt \/ point_ok tr' (length (br_heap b')) pt) -> inv (mkOffice b' callers' mu tr').
Proof.
  intros [B C] B' T L K. split; [done|]. cbn. intros k pt E. destruct (K k pt E) as [E'|]; [|done]. eapply point_grows; [done|done|by eapply C].
Qed.
Lemma inv_goto k pt o : inv o -> point_ok (ow_trace o) (length (br_heap (ow_broker o))) pt -> inv (goto k pt o).
Proof.
  intros I P. apply (inv_grows o); [done|apply I|done|done|]. intros k' pt' [[-> <-]|[_ E]]%lookup_insert_Some; [by right|by left].
Qed.
Lemma inv_unlock o : inv o -> inv (unlock o).
Proof. intros [B C]. by split. Qed.
Lemma inv_lock k o : inv o -> inv (lock k o).
Proof. intros [B C]. by split. Qed.
Lemma inv_done k r o : inv o -> inv (done k r o).
Proof. intros I. by apply inv_goto. Qed.
Lemma inv_push_done k r o : inv o -> inv (push_done k r o).
Proof. intros I. by apply inv_unlock, inv_done. Qed.
Lemma inv_commit_done k r o : inv o -> inv (commit_done k r o).
Proof. intros I. by apply inv_unlock, inv_goto. Qed.
Lemma inv_broker b' l o : inv o -> binv b' (ow_trace o ++ l) -> (length (br_heap (ow_broker o)) <= length (br_heap b'))%nat ->
  inv (record l (set_broker b' o)).
Proof. intros I B L. apply (inv_grows o); [done|done|intros x Hx; apply elem_of_app; by left|done|by left]. Qed.
Lemma inv_quiet_broker b' o : inv o -> binv b' (ow_trace o) -> (length (br_heap (ow_broker o)) <= length (br_heap b'))%nat -> inv (set_broker b' o).
Proof. intros I B L. apply (inv_grows o); [done|done|done|done|by left]. Qed.

Lemma callTarget_cases checked cap a b :
  let '(b', r) := callTarget checked cap a b in
  match r with
  | Err _ => b' = b
  | Ok (ptr, fresh) =>
      cap <> "" /\ cap = br_capability b /\
      if fresh then
        ptr = length (br_heap b) /\ br_pending b !! ask_id b a = None /\ validated (ask_id b a) a = Ok tt
        /\ b' = mkBroker (br_mode b) (br_capability b) (br_message b) (br_actor b) (<[ask_id b a := ptr]> (br_pending b))
                  (br_heap b ++ [new_pending b (ask_id b a) a]) (br_commitCancel b) (br_cancelled b)
      else b' = b /\ br_pending b !! ask_id b a = Some ptr
  end.
Proof.
  unfold callTarget. destruct (String.eqb cap "" || _) eqn:E; [done|]. destruct (valid checked b); [done|]. destruct (validated _ a) as [[]|] eqn:V; [|done].
  assert (N : cap <> "" /\ cap = br_capability b).
  { apply orb_false_iff in E as [E1 E2]. apply String.eqb_neq in E1. apply negb_false_iff, String.eqb_eq in E2. done. }
  destruct N as [N1 N2].
  destruct (br_pending b !! ask_id b a) eqn:P; [by split_and!|]. destruct (Nat.leb 8 _); [done|]. by split_and!.
Qed.
Lemma inv_call k checked cap a next failed o : inv o -> (forall e, inv (failed e (set_broker (ow_broker o) o))) ->
  match next with ThenCommit c => c = cap | _ => True end -> inv (call k checked cap a next failed o).
Proof.
  intros I F N. unfold call. pose proof (callTarget_cases checked cap a (ow_broker o)) as C. destruct (callTarget checked cap a (ow_broker o)) as [b' [[ptr fresh]|e]]; [|by subst b'].
  destruct C as (Nc & Ec & C). destruct fresh.
  - destruct C as (Ep & En & _ & Eb). assert (Eh : br_heap b' !! ptr = Some (new_pending (ow_broker o) (ask_id (ow_broker o) a) a)).
    { rewrite Eb, Ep. by apply list_lookup_middle. }
    rewrite Eh. pose proof (binv_asked (ow_broker o) (ow_trace o) cap a _ (iv_broker o I) Nc Ec eq_refl En) as B. rewrite <- Ep in B. rewrite <- Eb in B.
    apply inv_goto.
    + apply inv_broker; [done|done|]. rewrite Eb. cbn. rewrite length_app. lia.
    + cbn. split; [by apply lookup_lt_Some in Eh|]. destruct next; try done. subst. eexists _, _. apply elem_of_app. right. by apply list_elem_of_singleton.
  - destruct C as [-> Ep]. destruct (bi_pending _ _ (iv_broker o I) _ _ Ep) as (p & Eh & _ & _ & Ea). apply inv_goto; [by apply inv_quiet_broker; [done|apply I|lia]|].
    cbn. split; [by apply lookup_lt_Some in Eh|]. destruct next; try done. subst. eexists _, _. by eapply in_turn_elem.
Qed.

(** ** Every move *)

Lemma first_of_some b ids ok ptr p : first_of b ids ok = Some (ptr, p) -> exists id, pending_at b id = Some (ptr, p) /\ ok p = true.
Proof.
  unfold first_of. intros E. apply head_Some_elem_of, list_elem_of_omap in E as (id & _ & E). exists id.
  destruct (pending_at b id) as [[x y]|]; [|done]. cbn in E. destruct (ok y) eqn:O; [|done]. by injection E as -> ->.
Qed.
Lemma with_client_same p : with_client (pd_client p) p = p.
Proof. by destruct p. Qed.
Lemma set_heap_same b : set_heap (br_heap b) b = b.
Proof. by destruct b. Qed.
Lemma invalidate_length b : length (br_heap (invalidateLocked b)) = length (br_heap b).
Proof. apply drop_length. Qed.
Lemma inv_turn_ends b' o : inv o -> br_capability b' = "" -> br_pending b' = ∅ -> br_heap b' = br_heap (invalidateLocked (ow_broker o)) ->
  inv (turn_ends b' o).
Proof.
  intros I Ec Ep Eh. apply inv_broker; [done| |rewrite Eh, invalidate_length; lia].
  pose proof (binv_over (ow_broker o) (ow_trace o) (br_mode b') "" (br_actor b') (br_message b') (br_commitCancel b') (br_cancelled b') (iv_broker o I) eq_refl) as B.
  by eapply binv_same; [..|exact B].
Qed.
Lemma inv_change_mode mode o : inv o -> inv (change_mode mode o).
Proof.
  intros I. unfold change_mode, SetMode. destruct (String.eqb _ _) eqn:E; [done|]. by apply inv_turn_ends.
Qed.
Lemma inv_bind nonce id actor o : inv o -> inv (personal_step o (MvBind nonce id actor)).
Proof.
  intros I. cbn [personal_step]. unfold Bind. destruct nonce as [n|e]; [|done].
  set (b0 := invalidateLocked (ow_broker o)). set (cap := if String.eqb (br_mode b0) "personal" then hex_EncodeToString n else "").
  pose proof (inv_turn_ends b0 o I eq_refl eq_refl eq_refl) as I1.
  pose proof (binv_bound b0 (ow_trace o ++ [AcOver]) (br_mode b0) cap actor id (iv_broker _ I1) eq_refl) as B.
  apply (inv_grows (turn_ends b0 o)); [done|exact B|intros x Hx; apply elem_of_app; by left|cbn; lia|by left].
Qed.
Lemma inv_receive k ptr a r o : inv o -> (ptr < length (br_heap (ow_broker o)))%nat ->
  match a with ThenCommit cap => asked_for (ow_trace o) ptr cap | _ => True end ->
  (forall x, r = Ok x -> exists p, br_heap (ow_broker o) !! ptr = Some p /\ pd_result p = Some x) -> inv (receive k ptr a r o).
Proof.
  intros I L A R. unfold receive.
  set (o1 := match r with Ok x => record [AcReturned k ptr x] o | Err _ => o end).
  assert (I1 : inv o1).
  { subst o1. destruct r as [x|e]; [|done]. destruct (R x eq_refl) as (p & Eh & Er).
    apply (inv_grows o); [done| |intros y Hy; apply elem_of_app; by left|done|by left].
    apply binv_neutral; [done| |apply I]. cbn. destruct (en_result _ _ _ _ (bi_heap _ _ (iv_broker o I) _ _ Eh) x Er) as [|Hin]; [by left|right; by eexists _, _]. }
  destruct a as [| |cap]; [by apply inv_done|by apply inv_push_done|]. destruct r as [x|e]; [|by apply inv_commit_done].
  destruct (ps_GitIdentity x) as [author|] eqn:G; [|by apply inv_commit_done]. apply inv_goto; [done|].
  destruct (R x eq_refl) as (p & Eh & Er). destruct A as (uid & q & Ha). pose proof (bi_heap _ _ (iv_broker o I) _ _ Eh) as En.
  destruct (en_result _ _ _ _ En x Er) as [(_ & G' & _)|Hin]; [congruence|].
  rewrite (en_asked _ _ _ _ En _ _ _ Ha) in Ha. exists (pd_uid p), q, (pd_client p), x. subst o1. cbn. split_and!; [..|done]; apply elem_of_app; by left.
Qed.
Lemma inv_next checked uid client ids o : inv o -> inv (personal_step o (MvNext checked uid client ids)).
Proof.
  intros I. cbn [personal_step]. unfold Next. destruct (negb (len client =? 32)) eqn:Lc; [by apply inv_quiet_broker; [|apply I|]|].
  apply negb_false_iff, Z.eqb_eq in Lc. destruct (valid checked _); [by apply inv_quiet_broker; [|apply I|]|].
  destruct (negb (uid =? _)); [by apply inv_quiet_broker; [|apply I|]|].
  assert (G : forall fresh ptr p, first_of (ow_broker o) ids (claimable uid client fresh) = Some (ptr, p) ->
    inv (record [AcHanded ptr uid client (pd_Request p)] (set_broker (set_heap (<[ptr := with_client client p]> (br_heap (ow_broker o))) (ow_broker o)) o))
    /\ (fresh = false -> pd_client p = client) /\ br_heap (ow_broker o) !! ptr = Some p).
  { intros fresh ptr p (id & Ep & Cl)%first_of_some. unfold claimable in Cl.
    apply andb_prop in Cl as [[Cu Cr]%andb_prop Cc]. apply Z.eqb_eq in Cu. apply bool_decide_eq_true in Cr.
    assert (Hc : pd_client p = client \/ pd_client p = "").
    { apply orb_prop in Cc as [Cc|Cc]; [left; by apply String.eqb_eq|right]. by apply andb_prop in Cc as [_ ->%String.eqb_eq]. }
    destruct (pending_at_facts _ _ _ _ _ (iv_broker o I) Ep) as (Eh & _). split_and!; [|intros ->; by rewrite orb_false_r in Cc; apply String.eqb_eq|done].
    apply inv_broker; [done| |cbn; by rewrite length_insert]. rewrite <- Cu. by eapply binv_handed; [apply I|..]. }
  destruct (first_of _ ids (claimable uid client false)) as [[ptr p]|] eqn:F1.
  - destruct (G false ptr p F1) as (Ih & Ec & Eh). rewrite <- (Ec eq_refl) in Ih at 2. rewrite with_client_same in Ih.
    rewrite list_insert_id in Ih by done. by rewrite set_heap_same in Ih.
  - destruct (first_of _ ids (claimable uid client true)) as [[ptr p]|] eqn:F2; [by destruct (G true ptr p F2)|]. by apply inv_quiet_broker; [|apply I|].
Qed.
Lemma inv_resolve checked uid client r o : inv o -> inv (personal_step o (MvResolve checked uid client r)).
Proof.
  intros I. cbn [personal_step]. assert (Q : inv (set_broker (ow_broker o) o)) by by apply inv_quiet_broker; [|apply I|].
  unfold Resolve. destruct (valid checked _); [done|]. destruct (pending_at _ _) as [[ptr p]|] eqn:Ep; [|done].
  destruct (negb _ || _ || _) eqn:C; [done|]. apply orb_false_iff in C as [[C1 C2]%orb_false_iff C3].
  apply negb_false_iff in C1, C3. apply Z.eqb_eq in C1. apply String.eqb_eq in C3. apply String.eqb_neq in C2.
  destruct (pd_result p) eqn:R; [done|]. destruct (judge _ r) as [r'|] eqn:J; [|done]. apply inv_broker; [done| |cbn; by rewrite length_insert].
  rewrite <- C1. eapply binv_answered; [apply I|done|done|done|congruence|done].
Qed.
Lemma inv_chunk checked uid client id offset o : inv o -> inv (personal_step o (MvPushChunk checked uid client id offset)).
Proof.
  intros I. cbn [personal_step]. unfold PushChunk. destruct (valid checked _); [done|]. destruct (pending_at _ _) as [[ptr p]|] eqn:Ep; [|done].
  destruct (_ || negb (offset mod ChunkSize =? 0)) eqn:C; [done|]. repeat (apply orb_false_iff in C as [C ?]).
  destruct (pending_at_facts _ _ _ _ _ (iv_broker o I) Ep) as (Eh & _ & _ & _ & Ea & En).
  apply (inv_grows o); [done| |intros y Hy; apply elem_of_app; by left|done|by left]. apply binv_neutral; [done| |apply I]. cbn.
  assert (Eu : uid = pd_uid p) by lia. assert (Ec : client = pd_client p) by (symmetry; by apply String.eqb_eq, negb_false_iff).
  exists (br_capability (ow_broker o)), (pd_Request p). split_and!; [by rewrite Eu| |].
  - rewrite Eu, Ec. apply (en_claimed _ _ _ _ En). by apply String.eqb_neq.
  - eapply entry_unanswered; [done|]. destruct (pd_result p); [|done]. done.
Qed.
Lemma inv_here o : inv o -> inv (set_broker (ow_broker o) o).
Proof. intros I. by apply inv_quiet_broker; [|apply I|]. Qed.
Lemma inv_begin_push k checked cap i o : inv o -> inv (begin_push k checked cap i o).
Proof.
  intros I. unfold begin_push. destruct (_ || _); [by apply inv_push_done|]. destruct (valid _ _); [by apply inv_push_done|].
  destruct (PushInput_Validate i); [|by apply inv_push_done]. apply inv_goto; [by apply inv_lock|done].
Qed.
Lemma inv_continue_push k checked prepared cap i previous o : inv o -> inv (continue_push k checked prepared cap i previous o).
Proof.
  intros I. assert (C : forall offer pack, inv (call k checked cap (push_ask i offer pack) ThenPush (fun e => push_done k (Err e)) o)).
  { intros. apply inv_call; [done|intros e; by apply inv_push_done, inv_here|done]. }
  unfold continue_push. destruct previous as [[x|]|]; [|by apply inv_push_done|].
  - destruct (bool_decide _); [apply C|by apply inv_push_done].
  - destruct prepared as [[offer pack]|e]; [apply C|by apply inv_push_done].
Qed.
Lemma inv_begin_commit k checked cap i o : inv o -> inv (begin_commit k checked cap i o).
Proof.
  intros I. unfold begin_commit. destruct (CommitInput_Validate i); [|by apply inv_commit_done]. destruct (_ || _); [by apply inv_commit_done|].
  destruct (valid _ _); [by apply inv_commit_done|]. apply inv_goto; [by apply inv_lock|done].
Qed.
Lemma inv_continue_commit k checked planned cap i o : inv o -> inv (continue_commit k checked planned cap i o).
Proof.
  intros I. unfold continue_commit. destruct planned as [[found|summary]|e]; [by apply inv_commit_done| |by apply inv_commit_done].
  apply inv_call; [done|intros e; by apply inv_commit_done, inv_here|done].
Qed.
Lemma inv_authorize k checked cap ptr author o : inv o -> ow_callers o !! k = Some (PAuthorizing cap ptr author) ->
  inv (authorize k checked cap ptr author o).
Proof.
  intros I E. unfold authorize. destruct (negb (String.eqb cap _)) eqn:C; [by apply inv_commit_done|]. apply negb_false_iff, String.eqb_eq in C.
  destruct (valid checked (ow_broker o)) eqn:V; [by apply inv_commit_done|].
  assert (Nc : br_capability (ow_broker o) <> "").
  { unfold valid in V. destruct (_ || _) eqn:B; [done|]. apply orb_false_iff in B as [_ B]. by apply String.eqb_neq. }
  pose proof (iv_callers o I _ _ E) as P. cbn in P.
  apply (inv_grows o); [done| |intros y Hy; apply elem_of_app; by left|done|].
  - apply binv_neutral; [done| |eapply binv_same; [..|apply I]; done]. cbn. split; [|exact P]. rewrite C. do 2 eexists. by apply (bi_bound _ _ (iv_broker o I)).
  - cbn. intros k' pt [[<- <-]|[_ H]]%lookup_insert_Some; [by right|by left].
Qed.
Lemma inv_give_up ptr why o : inv o -> inv (set_broker (stop_waiting ptr why (ow_broker o)) o).
Proof. intros I. apply inv_quiet_broker; [done|by apply binv_give_up, I|]. cbn. by rewrite length_alter. Qed.
Lemma inv_cancel_point k o : inv o -> inv (set_broker (set_commitCancel k (ow_broker o)) o).
Proof. intros I. apply inv_quiet_broker; [done|eapply binv_same; [..|apply I]; done|done]. Qed.
Lemma inv_wait k pt o : inv o -> ow_callers o !! k = Some pt -> point_ok (ow_trace o) (length (br_heap (ow_broker o))) pt.
Proof. intros I. apply I. Qed.
Lemma inv_starts k mutex o f : inv o -> inv f -> inv (starts k mutex o f).
Proof. intros I F. unfold starts. destruct (ow_callers o !! k); [done|]. by destruct (_ && _). Qed.
Lemma personal_step_inv o m : inv o -> inv (personal_step o m).
Proof.
  intros I. destruct m; try (by apply inv_next || by apply inv_resolve || by apply inv_chunk || by apply inv_bind); cbn [personal_step].
  - by apply inv_turn_ends.
  - unfold InvalidateSender. destruct (_ =? _) eqn:E; [|done]. by apply inv_turn_ends.
  - by apply inv_change_mode.
  - destruct changed; [done|by apply inv_change_mode].
  - apply inv_starts; [done|]. apply inv_call; [done|intros e; by apply inv_done, inv_here|done].
  - apply inv_starts; [done|]. apply inv_call; [done|intros e; by apply inv_done, inv_here|done].
  - apply inv_starts; [done|by apply inv_begin_push].
  - destruct (ow_callers o !! k) as [[]|]; try done. by apply inv_continue_push.
  - apply inv_starts; [done|by apply inv_begin_commit].
  - destruct (ow_callers o !! k) as [[]|]; try done. by apply inv_continue_commit.
  - destruct (ow_callers o !! k) as [[ptr a| | | | | |]|] eqn:E; try done. destruct (br_heap _ !! ptr) as [p|] eqn:Eh; [|done].
    destruct (pd_result p) as [r|] eqn:Er; [|done]. destruct (inv_wait _ _ _ I E) as [L A]. apply inv_receive; [done|done|done|]. intros x [= <-]. by exists p.
  - destruct (ow_callers o !! k) as [[ptr a| | | | | |]|] eqn:E; try done. destruct (inv_wait _ _ _ I E) as [L A].
    apply inv_receive; [by apply inv_give_up|cbn; by rewrite length_alter|done|done].
  - destruct (ow_callers o !! k) as [[ptr a| | | | | |]|] eqn:E; try done. destruct (inv_wait _ _ _ I E) as [L A].
    destruct (br_heap _ !! ptr) as [p|] eqn:Eh; [|done]. destruct (pd_result p) as [r|] eqn:Er; [|done].
    apply inv_receive; [by apply inv_give_up|cbn; by rewrite length_alter|done|]. intros x [= <-]. by exists p.
  - destruct (ow_callers o !! k) as [[]|] eqn:E; try done. by apply inv_authorize.
  - destruct (ow_callers o !! k) as [[]|]; try done. by apply inv_commit_done, inv_cancel_point.
Qed.
Lemma new_office_inv : inv new_office.
Proof.
  split; [|cbn; intros k pt E; by rewrite lookup_empty in E]. split; try done.
  - intros t1 a t2 E. by destruct t1.
  - intros a ptr Ha. by apply not_elem_of_nil in Ha.
Qed.
Lemma personal_run_inv o l : inv o -> inv (personal_run o l).
Proof. revert o. induction l as [|m l IH]; intros o I; [done|]. by apply IH, personal_step_inv. Qed.

(** ** Properties *)

(** C22: the agent writes only as the member whose turn it is.  Whatever the agent,
    the clients, the turns and the clock do, every step of the broker is lawful in
    view of the steps before it: a request exists only under the capability of the
    running turn and in the name of its sender; it is handed out only within that
    turn, only to the sender, to one client instance and to no other; its result is
    accepted once, from that client, within the turn, and only if it answers the
    request; a receipt that a call returns was accepted so; and a commit starts only
    under the capability of the running turn with an author that the sender's client
    confirmed for the same capability. *)
Theorem personal_writes_are_the_senders l t1 a t2 : ow_trace (personal_run new_office l) = t1 ++ a :: t2 -> lawful t1 a.
Proof. apply bi_law with (b := ow_broker (personal_run new_office l)). apply personal_run_inv, new_office_inv. Qed.

(** The request at [ptr] has its result; call [k] waits for nothing; it returned the
    result [r]. *)
Definition answered (o : office) (ptr : nat) : Prop := exists p r, br_heap (ow_broker o) !! ptr = Some p /\ pd_result p = Some r.
Definition released (o : office) (k : nat) : Prop := forall ptr a, ow_callers o !! k <> Some (PWaiting ptr a).
Definition returned (o : office) (k ptr : nat) (r : PersonalResult) : Prop := AcReturned k ptr r ∈ ow_trace o.
(** The moves after which no turn runs, or another. *)
Definition ends_turn (b : Broker) (m : move) : Prop :=
  match m with
  | MvBind (Ok _) _ _ | MvInvalidate => True
  | MvInvalidateSender uid => uid = ac_UID (br_actor b)
  | MvSetMode mode | MvChangeMode mode None => br_mode b <> mode
  | _ => False
  end.
Lemma receive_released k ptr a r o : released (receive k ptr a r o) k.
Proof.
  intros ptr' a'. unfold receive, push_done, commit_done, done. destruct a; repeat case_match; cbn; rewrite lookup_insert_eq; congruence.
Qed.
Lemma receive_heap k ptr a r o : br_heap (ow_broker (receive k ptr a r o)) = br_heap (ow_broker o).
Proof. unfold receive, push_done, commit_done, done. destruct a; repeat case_match; done. Qed.
Lemma receive_returned k ptr a r o : returned (receive k ptr a (Ok r) o) k ptr r.
Proof.
  assert (H : forall t, AcReturned k ptr r ∈ t ++ [AcReturned k ptr r]) by (intros t; apply elem_of_app; right; by apply list_elem_of_singleton).
  unfold receive, push_done, commit_done, done. destruct a; repeat case_match; apply H.
Qed.
Lemma stop_answers ptr why b p : br_heap b !! ptr = Some p -> exists p' r, br_heap (stop_waiting ptr why b) !! ptr = Some p' /\ pd_result p' = Some r.
Proof.
  intros E. unfold stop_waiting. cbn. rewrite list_lookup_alter_eq, E. cbn. unfold unless_answered. destruct (pd_result p) as [r|] eqn:Er; eexists _, _; by split.
Qed.
Lemma ready_released o k ptr a : ow_callers o !! k = Some (PWaiting ptr a) -> answered o ptr ->
  released (personal_step o (MvReady k)) k /\ exists r, returned (personal_step o (MvReady k)) k ptr r.
Proof.
  intros E (p & r & Eh & Er). cbn [personal_step]. rewrite E, Eh, Er. split; [apply receive_released|]. exists r. apply receive_returned.
Qed.
Lemma expired_released o k ptr a : ow_callers o !! k = Some (PWaiting ptr a) -> (ptr < length (br_heap (ow_broker o)))%nat ->
  released (personal_step o (MvExpired k)) k /\ answered (personal_step o (MvExpired k)) ptr.
Proof.
  intros E [p Eh]%lookup_lt_is_Some. destruct (stop_answers ptr call_expired (ow_broker o) p Eh) as (p' & r & E' & R').
  cbn [personal_step]. rewrite E. cbv zeta. rewrite E', R'. split; [apply receive_released|]. exists p', r. by rewrite receive_heap.
Qed.
Lemma cancelled_released o k e ptr a : ow_callers o !! k = Some (PWaiting ptr a) -> (ptr < length (br_heap (ow_broker o)))%nat ->
  released (personal_step o (MvCancelled k e)) k /\ answered (personal_step o (MvCancelled k e)) ptr.
Proof.
  intros E [p Eh]%lookup_lt_is_Some. destruct (stop_answers ptr call_cancelled (ow_broker o) p Eh) as (p' & r & E' & R').
  cbn [personal_step]. rewrite E. split; [apply receive_released|]. exists p', r. by rewrite receive_heap.
Qed.
Lemma resolved_answered o checked uid client r b' ptr r' : Resolve checked uid client r (ow_broker o) = (b', Ok (Some (ptr, r'))) ->
  let o' := personal_step o (MvResolve checked uid client r) in
  ow_callers o' = ow_callers o /\ exists p, br_heap (ow_broker o') !! ptr = Some p /\ pd_result p = Some r'.
Proof.
  intros E. cbn [personal_step]. rewrite E. split; [done|]. cbn. revert E. unfold Resolve. destruct (valid _ _); [done|].
  destruct (pending_at _ _) as [[q p]|] eqn:P; [|done]. destruct (_ || _); [done|]. destruct (pd_result p); [done|]. destruct (judge _ _) as [r1|]; [|done].
  intros [= <- <- <-]. unfold pending_at in P. apply bind_Some in P as (q' & _ & P). apply bind_Some in P as (p' & Ep & P). injection P as -> ->.
  eexists. cbn. rewrite list_lookup_insert_eq by (by eapply lookup_lt_Some). by split.
Qed.
(** What is not among the requests of the running turn has its result. *)
Lemma over_answered o ptr : inv o -> (ptr < length (br_heap (ow_broker o)))%nat -> (forall id, br_pending (ow_broker o) !! id <> Some ptr) -> answered o ptr.
Proof.
  intros I [p Eh]%lookup_lt_is_Some N. pose proof (bi_heap _ _ (iv_broker o I) _ _ Eh) as En. destruct (pd_result p) as [r|] eqn:Er; [by exists p, r|].
  exfalso. by eapply N, (en_open _ _ _ _ En).
Qed.
Lemma turn_end_step o m : ends_turn (ow_broker o) m ->
  let o' := personal_step o m in ow_callers o' = ow_callers o /\ br_pending (ow_broker o') = ∅ /\ length (br_heap (ow_broker o')) = length (br_heap (ow_broker o)).
Proof.
  destruct m as [[n|]| | |mode|mode []| | | | | | | | | | | | | |]; try (by intros []); cbn [ends_turn personal_step Bind]; unfold change_mode, SetMode, InvalidateSender; intros H.
  all: try (rewrite (proj2 (String.eqb_neq _ _) H)). all: try (rewrite H, Z.eqb_refl). all: cbn; by rewrite drop_length.
Qed.
(** C24: no call of the agent waits for ever, and no channel is closed twice.  In every
    reachable state a request has its result exactly when its channel was closed,
    once.  A call that waits for a request returns when the time allowed is over and
    when it is cancelled, and both give the request a result for whoever else waits
    for it; it returns the answer as soon as the sender's client has given it, within
    the running turn; and every end of the turn gives the request a result, so that a
    call for a request of a turn that is over finds its channel closed. *)
Theorem personal_waits_end l :
  let o := personal_run new_office l in
  (forall ptr p, br_heap (ow_broker o) !! ptr = Some p -> pd_closed p = match pd_result p with None => 0%nat | Some _ => 1%nat end)
  /\ forall k ptr a, ow_callers o !! k = Some (PWaiting ptr a) ->
      (answered o ptr -> released (personal_step o (MvReady k)) k /\ exists r, returned (personal_step o (MvReady k)) k ptr r)
      /\ (released (personal_step o (MvExpired k)) k /\ answered (personal_step o (MvExpired k)) ptr)
      /\ (forall e, released (personal_step o (MvCancelled k e)) k /\ answered (personal_step o (MvCancelled k e)) ptr)
      /\ (forall checked uid client r b' r', Resolve checked uid client r (ow_broker o) = (b', Ok (Some (ptr, r'))) ->
           let o' := personal_step (personal_step o (MvResolve checked uid client r)) (MvReady k) in released o' k /\ returned o' k ptr r')
      /\ ((forall id, br_pending (ow_broker o) !! id <> Some ptr) -> answered o ptr)
      /\ (forall m, ends_turn (ow_broker o) m -> answered (personal_step o m) ptr /\ released (personal_step (personal_step o m) (MvReady k)) k).
Proof.
  intros o. pose proof (personal_run_inv _ l new_office_inv) as I. fold o in I. split; [intros ptr p E; apply (bi_heap _ _ (iv_broker o I) ptr p E)|].
  intros k ptr a E. pose proof (iv_callers o I _ _ E) as [L _]. split; [|split; [|split; [|split; [|split]]]].
  - by eapply ready_released.
  - by eapply expired_released.
  - intros e. by eapply cancelled_released.
  - intros checked uid client r b' r' Rs. destruct (resolved_answered _ _ _ _ _ _ _ _ Rs) as (Ec & p & Eh & Er). cbv zeta in *.
    rewrite <- Ec in E. set (o1 := personal_step o _) in *. cbn [personal_step]. rewrite E, Eh, Er. split; [apply receive_released|apply receive_returned].
  - by apply over_answered.
  - intros m En. destruct (turn_end_step o m En) as (Ec & Ep & El). assert (A : answered (personal_step o m) ptr).
    { apply over_answered; [by apply personal_step_inv|by rewrite El|]. intros id. by rewrite Ep, lookup_empty. }
    split; [done|]. rewrite <- Ec in E. by eapply ready_released.
Qed.

(** A result that is accepted answers the request.  A push receipt is a valid one
    for the very repository, branch, commit and request; an author has a valid name
    and address and comes only for a commit; a document receipt has the id, the title
    and an account, and for an addition the target and the digest of the text that
    was asked for; anything else is one fixed refusal without a receipt, so no text
    of the member's tools reaches the agent. *)
Theorem results_answer_requests q sent r : judge q sent = Ok r ->
  match ps_PushReceipt r, ps_GitIdentity r, ps_Receipt r with
  | Some x, None, None => pq_Action q = "git.push" /\ (exists o, pq_Push q = Some o /\ PushReceipt_Valid x (pq_ID q) (of_Input o) = true) /\ ps_Error r = ""
  | None, Some author, None => pq_Action q = "git.commit" /\ GitIdentity_Validate author = Ok tt /\ ps_Error r = ""
  | None, None, Some x => ps_Error r = "" /\ pq_Action q ∈ ["feishu.create"; "feishu.append"; ""]
      /\ exists given, x = clean_receipt given /\ cr_RequestID given = pq_ID q /\ cr_Title given = pq_Title q /\ fe_OpenID (cr_Account given) <> ""
           /\ (pq_Action q = "feishu.append" -> cr_Target given = pq_Target q /\ cr_ContentSHA256 given = ContentDigest (pq_Content q)
                 /\ (cr_State given = "completed" -> cr_URL given = pq_Target q))
  | None, None, None => ps_Error r = refused_text
  | _, _, _ => False
  end.
Proof.
  unfold judge. set (error := negb (String.eqb (ps_Error sent) "")).
  destruct (error && _) eqn:Amb; [done|]. destruct (ps_PushReceipt sent) as [x|] eqn:P, (ps_GitIdentity sent) as [author|] eqn:G, (ps_Receipt sent) as [c|] eqn:D;
    try (destruct error; [|done]; by cbn in Amb).
  - destruct (String.eqb_spec (pq_Action q) "git.push") as [Ea|]; [|done]. destruct (pq_Push q) as [o|] eqn:Eo; [|done].
    destruct (PushReceipt_Valid x _ _) eqn:V; [|done]. intros [= <-]. rewrite P, G, D. split_and!; [done|by eexists|].
    rewrite !orb_true_r, andb_true_r in Amb. by apply negb_false_iff, String.eqb_eq in Amb.
  - destruct (String.eqb_spec (pq_Action q) "git.commit"); [|done]. destruct (GitIdentity_Validate author) as [[]|] eqn:V; [|done]. intros [= <-]. by cbn.
  - destruct (existsb _ _) eqn:Ea; [|done]. destruct (negb (receipt_answers q c)) eqn:A; [done|]. destruct (_ && negb (append_answers q c)) eqn:B; [done|]. intros [= <-]. cbn.
    apply negb_false_iff in A. unfold receipt_answers in A. repeat (apply andb_prop in A as [A ?]).
    split_and!; [done| |].
    + apply existsb_exists in Ea as (y & Hy & ->%String.eqb_eq). by apply list_elem_of_In.
    + exists c. split_and!; [done|by apply String.eqb_eq|by apply String.eqb_eq|by apply String.eqb_neq, negb_true_iff|].
      intros Eq. rewrite Eq in B. cbn [String.eqb] in B. apply negb_false_iff in B. unfold append_answers in B. rewrite Eq in B.
      repeat (apply andb_prop in B as [B ?]). split_and!; [by apply String.eqb_eq|by apply String.eqb_eq|]. intros Ec. rewrite Ec in *.
      match goal with H : negb (_ && negb _) = true |- _ => apply negb_true_iff in H; cbn [String.eqb andb] in H; apply negb_false_iff, String.eqb_eq in H end. done.
  - destruct error eqn:Ee; [|done]. intros [= <-]. by cbn.
Qed.

(** ** A run *)

Definition demo_sender : Actor := {| ac_UID := 1001; ac_Name := "alice" |}.
Definition demo_client : string := of_bytes (replicate 32 "c"%char).
Definition demo_request : PersonalRequest :=
  mkPersonalRequest "" None "feishu.create" (request_id "m" "feishu.create" "Plan" "body" "") "Plan" "body" "alice".
Definition demo_receipt : CreateReceipt :=
  mkCreateReceipt "" "" "" (pq_ID demo_request) "Plan" (mkFeishuIdentity "Alice" "ou_alice123456") "completed" "https://a.feishu.cn/docx/Doc123456789" "" "".
Definition demo_sent : PersonalResult := mkPersonalResult None None (pq_ID demo_request) (Some demo_receipt) "".
Definition demo_capability : string := hex_EncodeToString "nonce".
Definition demo_office_moves : list move :=
  [MvSetMode "personal"; MvBind (Ok "nonce") "m" demo_sender; MvCall 1 None demo_capability "Plan" "body";
   MvNext None 1002 demo_client [pq_ID demo_request]; MvNext None 1001 demo_client [pq_ID demo_request];
   MvResolve None 1001 demo_client demo_sent; MvReady 1].
Definition demo_history : list act :=
  [AcOver; AcOver; AcBound demo_capability demo_sender "m"; AcAsked 0 demo_capability 1001 demo_request; AcHanded 0 1001 demo_client demo_request;
   AcAnswered 0 1001 demo_client demo_sent].
Lemma personal_writes_are_the_senders_witness :
  ow_trace (personal_run new_office demo_office_moves) = demo_history ++ [AcReturned 1 0 demo_sent] /\ lawful demo_history (AcReturned 1 0 demo_sent).
Proof.
  assert (E : ow_trace (personal_run new_office demo_office_moves) = demo_history ++ [AcReturned 1 0 demo_sent]) by (vm_compute; reflexivity).
  split; [exact E|]. exact (personal_writes_are_the_senders demo_office_moves demo_history (AcReturned 1 0 demo_sent) [] E).
Defined.
(** Alice's client has the request and the call waits; then each of the ends. *)
Lemma personal_waits_end_witness :
  let o := personal_run new_office (take 5 demo_office_moves) in
  ow_callers o !! 1%nat = Some (PWaiting 0 ThenReturn)
  /\ (released (personal_step o (MvExpired 1)) 1 /\ answered (personal_step o (MvExpired 1)) 0)
  /\ (released (personal_step o (MvCancelled 1 "gone")) 1 /\ answered (personal_step o (MvCancelled 1 "gone")) 0)
  /\ returned (personal_step (personal_step o (MvResolve None 1001 demo_client demo_sent)) (MvReady 1)) 1 0 demo_sent
  /\ released (personal_step (personal_step o MvInvalidate) (MvReady 1)) 1.
Proof.
  intros o. assert (E : ow_callers o !! 1%nat = Some (PWaiting 0 ThenReturn)) by (vm_compute; reflexivity).
  assert (R : exists b', Resolve None 1001 demo_client demo_sent (ow_broker o) = (b', Ok (Some (0%nat, demo_sent)))) by (eexists; vm_compute; reflexivity).
  destruct R as [b' R]. destruct (proj2 (personal_waits_end (take 5 demo_office_moves)) 1%nat 0%nat ThenReturn E) as (_ & X & C & A & _ & T).
  split; [exact E|]. split; [exact X|]. split; [exact (C "gone")|]. split; [exact (proj2 (A _ _ _ _ _ _ R))|]. exact (proj2 (T MvInvalidate Logic.I)).
Defined.
Lemma results_answer_requests_witness :
  judge demo_request demo_sent = Ok demo_sent /\ pq_Action demo_request ∈ ["feishu.create"; "feishu.append"; ""].
Proof.
  assert (J : judge demo_request demo_sent = Ok demo_sent) by (vm_compute; reflexivity). split; [exact J|].
  exact (proj1 (proj2 (results_answer_requests demo_request demo_sent demo_sent J))).
Defined.

(** ** Packs *)

Lemma take_drop_split n s : s = take_bytes n s +:+ drop_bytes n s.
Proof. symmetry. revert s. induction n as [|n IH]; intros [|c s]; try done. cbn. change (String c (take_bytes n s) +:+ drop_bytes n s) with (String c (take_bytes n s +:+ drop_bytes n s)). by rewrite IH. Qed.
Lemma drop_drop_bytes n m s : drop_bytes n (drop_bytes m s) = drop_bytes (m + n) s.
Proof. revert s. induction m as [|m IH]; intros [|c s]; try done; [by destruct n|]. apply IH. Qed.
Lemma drop_all_bytes n s : (String.length s <= n)%nat -> drop_bytes n s = "".
Proof. revert s. induction n as [|n IH]; intros [|c s] L; try done; cbn in *; [lia|]. apply IH. lia. Qed.
Definition piece (n : nat) (s : string) (i : nat) : string := take_bytes n (drop_bytes (i * n) s).
Lemma pieces_join n k s : (String.length s <= k * n)%nat -> concat_strings (map (piece n s) (seq 0 k)) = s.
Proof.
  intros L. assert (G : forall j i, (i + j = k)%nat -> concat_strings (map (piece n s) (seq i j)) = drop_bytes (i * n) s).
  { induction j as [|j IH]; intros i E; cbn [seq map concat_strings].
    - symmetry. apply drop_all_bytes. replace i with k by lia. done.
    - rewrite IH by lia. unfold piece. rewrite (take_drop_split n (drop_bytes (i * n) s)) at 2. rewrite drop_drop_bytes.
      f_equal. f_equal. cbn. lia. }
  by rewrite (G k 0%nat).
Qed.
Definition chunk_at (checked : option verr) (uid : UID) (client id : string) (b : Broker) (i : nat) : option string :=
  match PushChunk checked uid client id (Z.of_nat i * ChunkSize) b with Ok (_, data) => Some data | Err _ => None end.
(** The sender's client gets the whole pack.  While its push request is open and
    claimed, asking for one chunk after the other up to the size of the pack
    succeeds each time, and the chunks joined are the pack of the request, byte for
    byte, as the checksum of the offer has it. *)
Theorem push_chunks_reassemble checked uid client id b ptr p k :
  valid checked b = None -> pending_at b id = Some (ptr, p) -> pq_Action (pd_Request p) = "git.push" -> pd_uid p = uid ->
  pd_client p = client -> client <> "" -> pd_result p = None ->
  (Z.of_nat k - 1) * ChunkSize < len (pd_pack p) <= Z.of_nat k * ChunkSize ->
  exists chunks, map (chunk_at checked uid client id b) (seq 0 k) = map Some chunks /\ concat_strings chunks = pd_pack p.
Proof.
  intros V P A U C N R [L1 L2]. exists (map (piece (Z.to_nat ChunkSize) (pd_pack p)) (seq 0 k)). split.
  - rewrite map_map. apply map_ext_in. intros i Hi. apply in_seq in Hi. unfold chunk_at, PushChunk. rewrite V, P, A, U, C, R.
    change (String.eqb "git.push" "git.push") with true. rewrite Z.eqb_refl, String.eqb_refl, (proj2 (String.eqb_neq _ _) N).
    assert (B : 0 < ChunkSize) by by vm_compute. rewrite (proj2 (Z.ltb_ge _ _)) by nia. rewrite (proj2 (Z.leb_gt _ _)) by nia.
    rewrite Z.mod_mul by lia. cbn -[ChunkSize]. unfold piece. do 3 f_equal. rewrite Z2Nat.inj_mul by lia. by rewrite Nat2Z.id.
  - apply pieces_join. unfold len in L2. assert (B : 0 < ChunkSize) by by vm_compute. lia.
Qed.
Definition demo_push : PushInput := mkPushInput "owner/repo" "main" (of_bytes (replicate 40 "a"%char)).
Definition demo_pack : string := "PACK and its objects".
Definition demo_offer : Offer := mkOffer demo_push (len demo_pack) (sha256_hex demo_pack) "1 file".
Definition demo_push_id : string := request_id "m" "git.push" (push_title demo_push) (push_content demo_push) "".
Definition demo_push_office : office :=
  personal_run new_office
    [MvSetMode "personal"; MvBind (Ok "nonce") "m" demo_sender; MvPush 1 None demo_capability demo_push; MvPrepared 1 None (Ok (demo_offer, demo_pack));
     MvNext None 1001 demo_client [demo_push_id]].
Lemma push_chunks_reassemble_witness :
  exists chunks, map (chunk_at None 1001 demo_client demo_push_id (ow_broker demo_push_office)) (seq 0 1) = map Some chunks
    /\ concat_strings chunks = demo_pack.
Proof.
  set (p := mkPending demo_pack (mkPersonalRequest "" (Some demo_offer) "git.push" demo_push_id (push_title demo_push) (push_content demo_push) "alice")
              1001 demo_client None 0).
  assert (E : pending_at (ow_broker demo_push_office) demo_push_id = Some (0%nat, p)) by (vm_compute; reflexivity).
  assert (V : valid None (ow_broker demo_push_office) = None) by (vm_compute; reflexivity).
  exact (push_chunks_reassemble None 1001 demo_client demo_push_id (ow_broker demo_push_office) 0 p 1 V E eq_refl eq_refl eq_refl
           ltac:(discriminate) eq_refl ltac:(split; vm_compute; congruence)).
Defined.
