(* ===== verification/Programs.v ===== *)
(** * Programs of the member's machine

    A push or a document is written by a short program: it looks for the receipt of
    the request, checks the account again, reserves the request in a local ledger
    and only then writes.  Such programs are values of a free monad over what they
    ask of the machine: the login, the web, git, a command line tool, the clock and
    the ledger.  [hwp] is their program logic: what is required of each thing asked,
    given what was asked before, and what holds at the end. *)
From S2P Require Import Prelude GoStrings Json GoDecode ResourceRequest.

(** ** Effects and programs *)

Inductive got := GotText (text : string) | GotMissing | GotError (e : verr).
Inductive xtoken := XStart (name : string) | XEnd (name : string) | XText (text : string) | XOther.
(** What is at a path. *)
Inductive file_stat := StMissing | StError (e : verr) | StFile | StDir | StLink | StOther.
(** What a program asks, and the type of the answer. *)
Inductive eff :=
| EOpen                                                   (* the ledger's directory and database *)
| EQuery (id : string)
| ERecent                                                 (* the receipts of the last ten rows *)
| EInsert (id digest receipt : string)                    (* [INSERT OR IGNORE]: the rows affected *)
| EUpdate (id receipt : string)
| EClock
| ECancelled                                              (* [ctx.Err] *)
| EToken                                                  (* [gh auth token] *)
| EGet (token path : string)                              (* the web interface, with the text of the answer *)
| ETemp (pattern : string) | EWrite (path content : string) | ERemove (root : string) | EExecutable
| EGit (root input : string) (env args : list string)
| ELark (args : list string) (input : string)             (* output and error *)
| ERoot (root : string) | EFile (root target : string) | EStat (root target : string) | ERead (root target : string) (limit : Z)
| EGitHub                                                 (* [AGENT_ROOM_GITHUB_CLI] *)
| ETool (name : string) (args : list string)              (* a command that reads *)
| EGitRepo (root index input : string) (identity : option (string * string)) (args : list string)   (* git in a checkout *)
| EStatPath (follow : bool) (path : string) | EReadFile (path : string)
| EMkdirAll (path : string) | EExclusive (path : string) | EAppend (path content : string) | ESync (path : string) | EClose (path : string)
| ERename (from to : string) | ETempFile (dir pattern : string)
| EXml (source : string).                                 (* the tokens of a text, read by the library *)
Definition ans (e : eff) : Type :=
  match e with
  | EOpen | EUpdate _ _ | ECancelled | EWrite _ _ | ERoot _ | EFile _ _
  | EMkdirAll _ | EExclusive _ | EAppend _ _ | ESync _ | EClose _ | ERename _ _ => option verr
  | EGitRepo _ _ _ _ _ => option string                    (* [None]: it failed *)
  | EStatPath _ _ => file_stat
  | EReadFile _ => result verr (option string)            (* [None]: there is no such file *)
  | ETempFile _ _ => result verr string
  | EStat _ _ => result verr (bool * Z)                   (* a regular file, and its size *)
  | ERead _ _ _ | ETool _ _ => result verr string
  | EClock => Z
  | EGitHub => string
  | EQuery _ => result verr (option (string * string))
  | EInsert _ _ _ => result verr Z
  | EToken | ETemp _ | EExecutable | EGit _ _ _ _ => result verr string
  | EXml _ => result verr (list xtoken)
  | ERecent => result verr (list string)
  | EGet _ _ => got
  | ERemove _ => unit
  | ELark _ _ => string * option verr
  end.
Inductive prog (A : Type) := Ret (a : A) | Do (e : eff) (k : ans e -> prog A).
Arguments Ret {A} a.
Arguments Do {A} e k.
#[export] Instance prog_ret : MRet prog := fun A a => Ret a.
#[export] Instance prog_bind : MBind prog :=
  fun A B f => fix go m := match m with Ret a => f a | Do e k => Do e (fun x => go (k x)) end.
Definition perform (e : eff) : prog (ans e) := Do e Ret.
(** A call that may fail ends the caller. *)
Definition attempt {A B} (m : prog (result verr A)) (k : A -> prog (result verr B)) : prog (result verr B) :=
  x ← m; match x with Ok a => k a | Err e => mret (Err e) end.
Notation "'let*' x := m 'in' k" := (attempt m (fun x => k)) (at level 200, x pattern, k at level 200).
Definition fail {A} (e : verr) : prog (result verr A) := mret (Err e).
Definition demand {A} (ok : bool) (e : verr) (k : prog (result verr A)) : prog (result verr A) := if ok then k else fail e.
Definition given {A} (r : result verr A) : prog (result verr A) := mret r.
Definition unless_error {A} (m : prog (option verr)) (k : prog (result verr A)) : prog (result verr A) :=
  x ← m; match x with Some e => fail e | None => k end.
(** Every row, or the first error. *)
Fixpoint each {A} (dec : string -> result verr A) (l : list string) : result verr (list A) :=
  match l with [] => Ok [] | raw :: r => let? x := dec raw in let? xs := each dec r in Ok (x :: xs) end.

(** ** JSON of structs in structs *)

Definition omit_empty (name s : string) : list (string * json) := if String.eqb s "" then [] else [(name, JStr s)].
(** A struct inside a struct is decoded into what is there; [null] leaves it. *)
Definition set_struct {T} (dec : list (string * string) -> T -> option T) (raw : string) (x : T) : option T :=
  match parse raw with Some JNull => Some x | Some (JObj _) => l ← members_of raw; dec l x | _ => None end.
Definition set_bool (raw : string) (x : bool) : option bool :=
  match parse raw with Some (JBool b) => Some b | Some JNull => Some x | _ => None end.
Definition bool_of : string -> list (string * string) -> option bool := decode_field set_bool false.

(** ** What happened, and the logic of programs *)

Inductive event := Asked (e : eff) (x : ans e).
(** The latest first. *)
Definition history := list event.
Fixpoint hwp {A} (ok : history -> eff -> Prop) (m : prog A) (h : history) (Q : history -> A -> Prop) : Prop :=
  match m with Ret a => Q h a | Do e k => ok h e /\ forall x, hwp ok (k x) (Asked e x :: h) Q end.
(** A machine answers as it likes, knowing what happened. *)
Definition machine := history -> forall e, ans e.
Fixpoint run {A} (o : machine) (m : prog A) (h : history) : history * A :=
  match m with Ret a => (h, a) | Do e k => let x := o h e in run o (k x) (Asked e x :: h) end.
(** Everything asked was allowed when it was asked. *)
Fixpoint allowed (ok : history -> eff -> Prop) (h : history) : Prop :=
  match h with [] => True | Asked e _ :: r => ok r e /\ allowed ok r end.

Lemma hwp_bind {A B} ok (m : prog A) (f : A -> prog B) h Q : hwp ok m h (fun h' a => hwp ok (f a) h' Q) -> hwp ok (m ≫= f) h Q.
Proof. revert h. induction m as [a|e k IH]; intros h W; [done|]. destruct W as [O W]. split; [done|]. intros x. by apply IH. Qed.
Lemma hwp_mono {A} ok (m : prog A) h (P Q : history -> A -> Prop) : hwp ok m h P -> (forall h' a, P h' a -> Q h' a) -> hwp ok m h Q.
Proof. intros W I. revert h W. induction m as [a|e k IH]; intros h W; [by apply I|]. destruct W as [O W]. split; [done|]. intros x. by apply IH. Qed.
(** Run one part with its own specification. *)
Lemma hwp_call {A B} ok (m : prog A) (f : A -> prog B) h (P : history -> A -> Prop) Q :
  hwp ok m h P -> (forall h' a, P h' a -> hwp ok (f a) h' Q) -> hwp ok (m ≫= f) h Q.
Proof. intros W I. apply hwp_bind. by eapply hwp_mono. Qed.
Lemma hwp_run {A} ok o (m : prog A) h Q : hwp ok m h Q -> allowed ok h -> allowed ok (run o m h).1 /\ Q (run o m h).1 (run o m h).2.
Proof. revert h. induction m as [a|e k IH]; intros h W L; [done|]. destruct W as [O W]. by apply IH; cbn. Qed.
Lemma allowed_split ok new e x old : allowed ok (new ++ Asked e x :: old) -> ok old e.
Proof. induction new as [|[e' x'] new IH]; intros L; [apply L|]. apply IH, L. Qed.
Lemma hwp_ok_mono {A} (ok ok' : history -> eff -> Prop) (m : prog A) h Q : (forall h' e, ok h' e -> ok' h' e) -> hwp ok m h Q -> hwp ok' m h Q.
Proof. intros I. revert h. induction m as [a|e k IH]; intros h W; [done|]. destruct W as [O W]. split; [by apply I|]. intros x. by apply IH. Qed.

(** A part that only adds harmless events. *)
Definition grows (p : eff -> bool) (h h' : history) : Prop := exists new, h' = new ++ h /\ Forall (fun a => match a with Asked e _ => p e end) new.
Definition quiet {A} (p : eff -> bool) (m : prog A) : Prop := forall h, hwp (fun _ e => p e) m h (fun h' _ => grows p h h').
Lemma grows_refl p h : grows p h h.
Proof. by exists []. Qed.
Lemma grows_trans p a b c : grows p a b -> grows p b c -> grows p a c.
Proof. intros (n & -> & F) (n' & -> & F'). exists (n' ++ n). split; [by rewrite app_assoc|]. by apply Forall_app. Qed.
Lemma grows_elem p h h' a : grows p h h' -> a ∈ h -> a ∈ h'.
Proof. intros (n & -> & _) H. apply elem_of_app. by right. Qed.
#[export] Instance grows_preorder p : PreOrder (grows p).
Proof. split; [intros ?; apply grows_refl|intros a b c; apply grows_trans]. Qed.

(** ** Quiet parts *)

Section quiet.
Context (p : eff -> bool).

Lemma quiet_ret {A} (a : A) : quiet p (Ret a).
Proof. intros h. apply grows_refl. Qed.
Lemma quiet_mret {A} (a : A) : quiet p (mret a).
Proof. apply quiet_ret. Qed.
Lemma grows_cons e x h : p e = true -> grows p h (Asked e x :: h).
Proof. intros H. exists [Asked e x]. split; [done|]. constructor; [by rewrite H|constructor]. Qed.
Lemma quiet_do {A} e (k : ans e -> prog A) : p e = true -> (forall x, quiet p (k x)) -> quiet p (Do e k).
Proof.
  intros H K h. split; [by rewrite H|]. intros x. eapply hwp_mono; [apply K|]. intros h' a G. etrans; [|exact G]. by apply grows_cons.
Qed.
Lemma quiet_perform e : p e = true -> quiet p (perform e).
Proof. intros H. apply quiet_do; [done|]. intros x. apply quiet_ret. Qed.
Lemma quiet_bind {A B} (m : prog A) (f : A -> prog B) : quiet p m -> (forall a, quiet p (f a)) -> quiet p (m ≫= f).
Proof. intros M F h. eapply hwp_call; [apply M|]. intros h' a G. eapply hwp_mono; [apply F|]. intros h2 b G2.
exact (grows_trans _ _ _ _ G G2). Qed.
Lemma quiet_fail {A} e : quiet p (@fail A e).
Proof. apply quiet_ret. Qed.
Lemma quiet_given {A} r : quiet p (@given A r).
Proof. apply quiet_ret. Qed.
Lemma quiet_attempt {A B} (m : prog (result verr A)) (k : A -> prog (result verr B)) : quiet p m -> (forall a, quiet p (k a)) -> quiet p (attempt m k).
Proof. intros M K. apply quiet_bind; [done|]. intros [a|e]; [apply K|apply quiet_fail]. Qed.
Lemma quiet_demand {A} b e (k : prog (result verr A)) : quiet p k -> quiet p (demand b e k).
Proof. intros K. destruct b; [done|apply quiet_fail]. Qed.
Lemma quiet_unless {A} (m : prog (option verr)) (k : prog (result verr A)) : quiet p m -> quiet p k -> quiet p (unless_error m k).
Proof. intros M K. apply quiet_bind; [done|]. intros [e|]; [apply quiet_fail|done]. Qed.
End quiet.
Create HintDb quiet.
#[export] Hint Resolve quiet_ret quiet_mret quiet_perform quiet_fail quiet_given : quiet.
Ltac quiet_step :=
  match goal with
  | |- forall _, _ => intros ?
  | |- quiet _ (_ ≫= _) => apply quiet_bind
  | |- quiet _ (attempt _ _) => apply quiet_attempt
  | |- quiet _ (demand _ _ _) => apply quiet_demand
  | |- quiet _ (unless_error _ _) => apply quiet_unless
  | |- quiet _ (match _ with _ => _ end) => case_match
  | |- quiet _ _ => solve [auto with quiet]
  end.
Ltac solve_quiet := repeat quiet_step.
