(* ===== verification/Executors.v ===== *)
(** * Pushes under the member's account ([internal/gitpush])

    The offer prepared from a checkout, the check of the account, and the program
    that pushes an approved offer once. *)
From S2P Require Import Prelude GoStrings Sha256 Json StrictJson GoDecode GoUrl RoomTypes ResourceRequest Programs.

(** ** JSON of the ledger *)

Definition input_json (i : PushInput) : json :=
  JObj [("repository", JStr (pi_Repository i)); ("branch", JStr (pi_Branch i)); ("commit", JStr (pi_Commit i))].
Definition offer_json (o : Offer) : json :=
  JObj [("input", input_json (of_Input o)); ("packSize", JInt (of_PackSize o)); ("packSha256", JStr (of_PackSHA256 o)); ("summary", JStr (of_Summary o))].
Definition account_json (a : Account) : json := JObj [("id", JInt (ac_ID a)); ("login", JStr (ac_Login a))].
Definition push_receipt_json (r : PushReceipt) : json :=
  JObj ([("id", JStr (pr_ID r)); ("input", input_json (pr_Input r)); ("account", account_json (pr_Account r));
         ("expectedRemote", JStr (pr_ExpectedRemote r)); ("state", JStr (pr_State r))]
        ++ omit_empty "url" (pr_URL r) ++ omit_empty "error" (pr_Error r)).
Definition dec_input (l : list (string * string)) (i : PushInput) : option PushInput :=
  r ← decode_field set_string (pi_Repository i) "repository" l;
  b ← decode_field set_string (pi_Branch i) "branch" l;
  c ← decode_field set_string (pi_Commit i) "commit" l;
  Some (mkPushInput r b c).
Definition dec_account (l : list (string * string)) (a : Account) : option Account :=
  id ← decode_field (set_int 64) (ac_ID a) "id" l;
  login ← decode_field set_string (ac_Login a) "login" l;
  Some (mkAccount id login).
Definition dec_push_receipt (text : string) : option PushReceipt :=
  l ← members_of text;
  id ← string_of "id" l;
  i ← decode_field (set_struct dec_input) (mkPushInput "" "" "") "input" l;
  a ← decode_field (set_struct dec_account) (mkAccount 0 "") "account" l;
  old ← string_of "expectedRemote" l;
  state ← string_of "state" l;
  url ← string_of "url" l;
  error ← string_of "error" l;
  Some (mkPushReceipt id i a old state url error).
Definition offerDigest (o : Offer) : string := sha256_hex (marshal (offer_json o)).
(** [SameOffer] *)
Definition SameOffer (a b : Offer) : bool := String.eqb (marshal (offer_json a)) (marshal (offer_json b)).

(** ** Accounts and branches ([executor.go]) *)

Definition login_help : verr := "请在自己的终端安装 GitHub CLI 并执行 gh auth login --hostname github.com --web".
Definition localToken : prog (result verr string) :=
  x ← perform EToken;
  match x with
  | Err _ => fail login_help
  | Ok b => let token := TrimSpace b in demand (negb (String.eqb token "" || ContainsAny token [13; 10; 0])) login_help (given (Ok token))
  end.
Definition user_of (text : string) : option (Account * string) :=
  l ← members_of text;
  id ← decode_field (set_int 64) 0 "id" l;
  login ← string_of "login" l;
  type ← string_of "type" l;
  Some (mkAccount id login, type).
Definition account (token : string) : prog (result verr Account) :=
  x ← perform (EGet token "user");
  match x with
  | GotText text =>
      match user_of text with
      | Some (a, type) => demand (String.eqb type "User" && Account_Valid a) "没有可验证的本机 GitHub 用户身份，请本人重新登录" (given (Ok a))
      | None => fail "没有可验证的本机 GitHub 用户身份，请本人重新登录"
      end
  | _ => fail "没有可验证的本机 GitHub 用户身份，请本人重新登录"
  end.
Definition ref_of (text : string) : option (string * string) :=
  l ← members_of text;
  decode_field (set_struct (fun m x => sha ← decode_field set_string x.1 "sha" m; type ← decode_field set_string x.2 "type" m; Some (sha, type))) ("", "") "object" l.
Definition bad_json : verr := "invalid JSON".
(** The commit of the remote branch, the empty text when there is none. *)
Definition remote (token : string) (i : PushInput) : prog (result verr string) :=
  x ← perform (EGet token ("repos/" +:+ pi_Repository i +:+ "/git/ref/heads/" +:+ PathEscape (pi_Branch i)));
  match x with
  | GotMissing => given (Ok "")
  | GotError e => fail e
  | GotText text =>
      match ref_of text with
      | None => fail bad_json
      | Some (sha, type) => demand (String.eqb type "commit" && git_oid sha) "远端分支响应无效" (given (Ok sha))
      end
  end.

(** ** Git ([git.go]) *)

Definition git_error : verr := "本机 Git/GitHub 操作未完成，请检查登录、分支规则或仓库权限".
Definition config (l : list string) : list string := flat_map (fun c => ["-c"; c]) l.
Definition git_prefix (root : string) : list string :=
  config ["core.hooksPath=/dev/null"; "core.fsmonitor=false"; "credential.helper="; "credential.useHttpPath=true"; "http.followRedirects=false";
          "http.sslVerify=true"; "push.followTags=false"; "push.recurseSubmodules=no"; "protocol.allow=never"; "protocol.https.allow=always"; "gc.auto=0"]
  ++ ["-C"; root].
Definition git (root input : string) (env args : list string) : prog (result verr string) := perform (EGit root input env (git_prefix root ++ args)).
Definition dq : string := String (chr 34) "".
Fixpoint quoted_body (s : string) : string :=
  match s with "" => "" | String c r => if Ascii.eqb c "'" then "'" +:+ dq +:+ "'" +:+ dq +:+ "'" +:+ quoted_body r else String c (quoted_body r) end.
Definition shellQuote (s : string) : string := "'" +:+ quoted_body s +:+ "'".
Definition pushArguments (executable : string) (i : PushInput) (old : string) : list string :=
  ["-c"; "credential.helper=!" +:+ shellQuote executable +:+ " personal-git-credential"; "push"; "--porcelain"; "--no-verify"; "--no-signed";
   "--force-with-lease=" +:+ PushInput_Ref i +:+ ":" +:+ old; PushInput_URL i; pi_Commit i +:+ ":" +:+ PushInput_Ref i].
Definition probe_config : string := "[agentroomprobe]" +:+ nl +:+ " value = isolated" +:+ nl.
Definition isolated_body (dir : string) : prog (result verr unit) :=
  unless_error (perform (EWrite (dir +:+ "/config") probe_config))
    (x ← git dir "" ["GIT_CONFIG_GLOBAL=" +:+ dir +:+ "/config"] ["config"; "--get"; "agentroomprobe.value"];
     match x with
     | Ok b => demand (String.eqb (TrimSpace b) "isolated") "个人推送需要本机 Git 2.32 或更新版本，以隔离已有的凭据和网络配置；请升级 Git 后重试" (given (Ok tt))
     | Err _ => fail "个人推送需要本机 Git 2.32 或更新版本，以隔离已有的凭据和网络配置；请升级 Git 后重试"
     end).
(** [defer os.RemoveAll] *)
Definition removing {A} (root : string) (m : prog A) : prog A := r ← m; _ ← perform (ERemove root); mret r.
Definition isolatedGit : prog (result verr unit) :=
  let* dir := perform (ETemp "agent-room-git-probe-") in removing dir (isolated_body dir).
Definition is_ancestor (root old : string) (i : PushInput) (e : verr) : prog (result verr unit) :=
  x ← git root "" [] ["merge-base"; "--is-ancestor"; old; pi_Commit i];
  match x with Ok _ => given (Ok tt) | Err _ => fail e end.
Definition moved_on (old : string) (i : PushInput) : bool := negb (String.eqb old "") && negb (String.eqb old (pi_Commit i)).
(** [push] *)
Definition push (root : string) (i : PushInput) (old token : string) : prog (result verr unit) :=
  let* _ := isolatedGit in
  let* _ := (if moved_on old i then is_ancestor root old i "远端历史不是本次 commit 的祖先，拒绝覆盖；请先合并远端变更" else given (Ok tt)) in
  if String.eqb old (pi_Commit i) then given (Ok tt) else
  let* executable := perform EExecutable in
  actual ← git root "" [] ["ls-remote"; "--get-url"; PushInput_URL i];
  match actual with
  | Ok u =>
      demand (String.eqb (TrimSpace u) (PushInput_URL i)) "Git URL 重写与确认的 GitHub 仓库不一致"
        (let* _ := git root "" ["AGENT_ROOM_PUSH_TOKEN=" +:+ token; "AGENT_ROOM_PUSH_REPOSITORY=" +:+ pi_Repository i] (pushArguments executable i old) in
         given (Ok tt))
  | Err _ => fail "Git URL 重写与确认的 GitHub 仓库不一致"
  end.
(** [importPack]; a failure removes the directory. *)
Definition import_body (root pack : string) (o : Offer) : prog (result verr unit) :=
  let* _ := git root "" [] ["init"; "--bare"; "--template="; root] in
  let* _ := git root pack [] ["index-pack"; "--stdin"; "--strict"] in
  typ ← git root "" [] ["cat-file"; "-t"; pi_Commit (of_Input o)];
  match typ with
  | Ok t =>
      demand (String.eqb (TrimSpace t) "commit") "提交包不包含所确认的 commit"
        (let* _ := git root "" [] ["rev-list"; "--objects"; "--quiet"; pi_Commit (of_Input o)] in given (Ok tt))
  | Err _ => fail "提交包不包含所确认的 commit"
  end.
Definition importPack (pack : string) (o : Offer) : prog (result verr string) :=
  let* _ := given (CheckPack o pack) in
  let* root := perform (ETemp "agent-room-push-") in
  x ← import_body root pack o;
  match x with
  | Ok _ => given (Ok root)
  | Err e => _ ← perform (ERemove root); fail e
  end.

(** ** The push ([executor.go]) *)

Record Approval := mkApproval
  { ap_ID : string; ap_Offer : Offer; ap_Account : Account; ap_ExpectedRemote : string; ap_token : string; ap_checked : Z }.
Definition repo_of (text : string) : option (string * bool * bool) :=
  l ← members_of text;
  name ← string_of "full_name" l;
  archived ← bool_of "archived" l;
  push ← decode_field (set_struct (fun m x => decode_field set_bool x "push" m)) false "permissions" l;
  Some (name, archived, push).
Definition get_text (token path : string) : prog (result verr string) :=
  x ← perform (EGet token path);
  given (match x with GotText t => Ok t | GotMissing => Err "GitHub ref not found" | GotError e => Err e end).
Definition Check (id : string) (o : Offer) : prog (result verr Approval) :=
  demand (requestID id) "invalid request ID"
    (let* _ := given (Offer_Validate o) in
     let* _ := isolatedGit in
     let* token := localToken in
     let* a := account token in
     let* text := get_text token ("repos/" +:+ pi_Repository (of_Input o)) in
     match repo_of text with
     | None => fail bad_json
     | Some (name, archived, may) =>
         demand (EqualFold name (pi_Repository (of_Input o)) && negb archived && may) "该 GitHub 用户没有目标仓库写权限，或仓库已经归档"
           (let* old := remote token (of_Input o) in
            now ← perform EClock;
            given (Ok (mkApproval id o a old token now)))
     end).
(** [Receipt] *)
Definition Receipt (id : string) (o : Offer) : prog (result verr (option PushReceipt)) :=
  unless_error (perform EOpen)
    (let* row := perform (EQuery id) in
     match row with
     | None => given (Ok None)
     | Some (digest, raw) =>
         match dec_push_receipt raw with
         | Some r =>
             demand (String.eqb digest (offerDigest o) && PushReceipt_Valid r id (of_Input o)) "推送回执与当前请求不一致，不能重试" (given (Ok (Some r)))
         | None => fail "推送回执与当前请求不一致，不能重试"
         end
     end).
Definition five_minutes : Z := 300 * second_ns.
Definition unknown_push : string := "推送结果待核实；请检查远端分支，不会自动重试".
Definition initial_receipt (a : Approval) (old : string) : PushReceipt :=
  mkPushReceipt (ap_ID a) (of_Input (ap_Offer a)) (ap_Account a) old "unknown" "" unknown_push.
Definition completed_receipt (a : Approval) (old : string) : PushReceipt :=
  mkPushReceipt (ap_ID a) (of_Input (ap_Offer a)) (ap_Account a) old "completed" (commit_url (of_Input (ap_Offer a))) "".
Definition unsaved_receipt (r : PushReceipt) : PushReceipt :=
  mkPushReceipt (pr_ID r) (pr_Input r) (pr_Account r) (pr_ExpectedRemote r) "unknown" "" "回执保存失败，请检查远端分支".
(** The reservation is won: push, look at the branch, and save what is known. *)
Definition write_push (a : Approval) (root old : string) : prog (result verr PushReceipt) :=
  let i := of_Input (ap_Offer a) in
  sent ← push root i old (ap_token a);
  r ← match sent with
      | Ok _ =>
          current ← remote (ap_token a) i;
          mret (match current with Ok c => if String.eqb c (pi_Commit i) then completed_receipt a old else initial_receipt a old | Err _ => initial_receipt a old end)
      | Err _ => mret (initial_receipt a old)
      end;
  saved ← perform (EUpdate (ap_ID a) (marshal (push_receipt_json r)));
  given (Ok (match saved with Some _ => unsaved_receipt r | None => r end)).
Definition reserve_push (a : Approval) (root : string) : prog (result verr PushReceipt) :=
  let o := ap_Offer a in
  let* old := remote (ap_token a) (of_Input o) in
  demand (String.eqb old (ap_ExpectedRemote a)) "确认后远端分支已变化，请重新核对"
    (unless_error (perform ECancelled)
      (unless_error (perform EOpen)
        (let* n := perform (EInsert (ap_ID a) (offerDigest o) (marshal (push_receipt_json (initial_receipt a old)))) in
         if n =? 0 then
           let* saved := Receipt (ap_ID a) o in
           match saved with Some r => given (Ok r) | None => fail "回执不可用" end
         else write_push a root old))).
Definition Execute (a : Approval) (pack : string) : prog (result verr PushReceipt) :=
  let o := ap_Offer a in
  now ← perform EClock;
  demand (requestID (ap_ID a) && Account_Valid (ap_Account a) && negb (String.eqb (ap_token a) "") && (now - ap_checked a <=? five_minutes))
    "请重新核对并确认 GitHub 账号"
    (let* found := Receipt (ap_ID a) o in
     match found with
     | Some r => given (Ok r)
     | None =>
         let* _ := given (CheckPack o pack) in
         token ← localToken;
         demand (match token with Ok t => String.eqb t (ap_token a) | Err _ => false end) "本机 GitHub 登录已变化，请重新核对账号"
           (who ← account (ap_token a);
            demand (match who with Ok x => bool_decide (x = ap_Account a) | Err _ => false end) "GitHub 身份已变化，未推送"
              (let* root := importPack pack o in
               removing root
                 (let* _ := (if moved_on (ap_ExpectedRemote a) (of_Input o)
                             then is_ancestor root (ap_ExpectedRemote a) (of_Input o) "远端包含本次提交未合并的历史，拒绝覆盖" else given (Ok tt)) in
                  reserve_push a root)))
     end).

(** [Recent] *)
Definition recent_receipt (raw : string) : result verr PushReceipt :=
  match dec_push_receipt raw with
  | Some r => if PushReceipt_Valid r (pr_ID r) (pr_Input r) then Ok r else Err "推送回执损坏"
  | None => Err "推送回执损坏"
  end.
Definition Recent : prog (result verr (list PushReceipt)) :=
  unless_error (perform EOpen) (let* rows := perform ERecent in given (each recent_receipt rows)).

(** ** The offer, and the credential helper ([git.go]) *)

Definition offline (args : list string) : list string := ["-c"; "protocol.https.allow=never"] ++ args.
(** [Prepare] *)
Definition Prepare (root : string) (i : PushInput) : prog (result verr (Offer * string)) :=
  let* _ := given (PushInput_Validate i) in
  head ← git root "" [] (offline ["rev-parse"; "--verify"; "HEAD"]);
  demand (match head with Ok h => String.eqb (TrimSpace h) (pi_Commit i) | Err _ => false end) "HEAD 已变化，请核对要推送的 commit"
    (let* summary := git root "" [] (offline ["show"; "--no-ext-diff"; "--no-textconv"; "--stat"; "--format=fuller"; pi_Commit i; "--"]) in
     packed ← git root (pi_Commit i +:+ nl) [] (offline ["pack-objects"; "--stdout"; "--revs"]);
     match packed with
     | Err _ => fail "提交包生成失败或超过 32 MiB；请缩小仓库历史后在本机推送"
     | Ok pack => given (Ok (mkOffer i (len pack) (sha256_hex pack) summary, pack))
     end).
(** The lines of a credential request up to an empty one; a key is given once. *)
Fixpoint credential_values (lines : list string) (values : gmap string string) : option (gmap string string) :=
  match lines with
  | [] => Some values
  | line :: r =>
      if String.eqb line "" then Some values else
      '(k, v) ← Cut "=" line;
      if String.eqb (default "" (values !! k)) "" then credential_values r (<[k := v]> values) else None
  end.
(** [Credential]: what is written, given all that can be read. *)
Definition Credential (input : result verr string) (op token repository : string) : result verr string :=
  if negb (String.eqb op "get") then Ok "" else
  if String.eqb token "" || ContainsAny token [13; 10; 0] || negb (git_repo repository) then Err "credential unavailable" else
  match input with
  | Err _ => Err "invalid credential request"
  | Ok b =>
      if 8192 <? len b then Err "invalid credential request" else
      match credential_values (Split (chr 10) b) ∅ with
      | None => Err "invalid credential request"
      | Some values =>
          let value k := default "" (values !! k) in
          if String.eqb (value "protocol") "https" && String.eqb (value "host") "github.com" && String.eqb (value "path") (repository +:+ ".git")
          then Ok ("username=x-access-token" +:+ nl +:+ "password=" +:+ token +:+ nl +:+ nl)
          else Err "credential target refused"
      end
  end.
Example credential_given :
  let ask path := of_bytes (flat_map (fun l => bytes l ++ [chr 10]) ["protocol=https"; "host=github.com"; "path=" +:+ path; ""]) in
  is_ok (Credential (Ok (ask "o/r.git")) "get" "secret" "o/r") = true /\ Credential (Ok (ask "o/x.git")) "get" "secret" "o/r" = Err "credential target refused".
Proof. by vm_compute. Qed.
