(* ===== verification/Documents.v ===== *)
(** * Documents under the member's account ([internal/resources/{resources,create,append}.go])

    Reading resources with the member's own tools, and writing a document once:
    created, or extended at its end, with the text taken as text. *)
From S2P Require Import Prelude GoStrings Sha256 Json StrictJson GoDecode GoUrl RoomTypes ResourceRequest Programs.

(** ** Text as XML *)

(** [xml.EscapeText], rune by rune *)
Definition character (r : Z) : bool :=
  existsb (Z.eqb r) [9; 10; 13] || between 0x20 0xD7FF r || between 0xE000 0xFFFD r || between 0x10000 0x10FFFF r.
Definition escaped_runes : list (Z * string) :=
  [(34, "&#34;"); (39, "&#39;"); (38, "&amp;"); (60, "&lt;"); (62, "&gt;"); (9, "&#x9;"); (10, "&#xA;"); (13, "&#xD;")].
Definition escape_rune (r : Z) : string :=
  match List.find (fun p => p.1 =? r) escaped_runes with
  | Some p => p.2
  | None => if character r then encode_rune r else encode_rune 0xFFFD
  end.
Definition EscapeText (s : string) : string := concat_strings (escape_rune <$> runes s).
(** Ends of lines of other systems *)
Fixpoint unix_lines (s : string) : string :=
  match s with
  | String c ((String d r) as t) => if (code c =? 13) && (code d =? 10) then String d (unix_lines r) else String c (unix_lines t)
  | _ => s
  end.
Definition paragraph (line : string) : string := "<p>" +:+ EscapeText line +:+ "</p>".
Definition documentXML (title content : string) : string :=
  "<title>" +:+ EscapeText title +:+ "</title>" +:+ concat_strings (paragraph <$> Split (chr 10) (unix_lines content)).
Definition paragraphXML (content : string) : string := TrimPrefix (documentXML "" content) "<title></title>".
(** [documentBody]: the words outside the title, of the tokens the library finds. *)
Definition break_after : list string := ["p"; "h1"; "h2"; "h3"; "li"].
Fixpoint body_text (depth : nat) (l : list xtoken) : string :=
  match l with
  | [] => ""
  | XStart name :: r => body_text (if String.eqb name "title" || negb (Nat.eqb depth 0) then S depth else depth) r
  | XEnd name :: r =>
      match depth with
      | S d => body_text d r
      | O => (if existsb (String.eqb name) break_after then nl else "") +:+ body_text 0 r
      end
  | XText t :: r => (if Nat.eqb depth 0 then t else "") +:+ body_text depth r
  | XOther :: r => body_text depth r
  end.
Definition words (s : string) : string := join " " (Fields s).
Definition documentBody (source : string) : prog (result verr string) :=
  let* l := perform (EXml ("<root>" +:+ source +:+ "</root>")) in given (Ok (words (body_text 0 l))).

(** ** JSON *)

Definition request_json (r : ResourceRequest) : json :=
  JObj (omit_empty "title" (rr_Title r) ++ omit_empty "content" (rr_Content r) ++ omit_empty "requestId" (rr_RequestID r)
        ++ omit_empty "accountId" (rr_AccountID r) ++ [("action", JStr (rr_Action r)); ("target", JStr (rr_Target r))]
        ++ omit_empty "query" (rr_Query r)).
Definition identity_json (i : FeishuIdentity) : json := JObj [("name", JStr (fe_Name i)); ("openId", JStr (fe_OpenID i))].
Definition create_receipt_json (r : CreateReceipt) : json :=
  JObj (omit_empty "action" (cr_Action r) ++ omit_empty "target" (cr_Target r) ++ omit_empty "contentSHA256" (cr_ContentSHA256 r)
        ++ [("requestId", JStr (cr_RequestID r)); ("title", JStr (cr_Title r)); ("account", identity_json (cr_Account r)); ("state", JStr (cr_State r))]
        ++ omit_empty "url" (cr_URL r) ++ omit_empty "documentId" (cr_DocumentID r) ++ [("createdAt", JStr (cr_CreatedAt r))]).
Definition receipt_text (r : CreateReceipt) : string := marshal (create_receipt_json r).
Definition dec_identity (l : list (string * string)) (i : FeishuIdentity) : option FeishuIdentity :=
  name ← decode_field set_string (fe_Name i) "name" l;
  id ← decode_field set_string (fe_OpenID i) "openId" l;
  Some (mkFeishuIdentity name id).
Definition dec_create_receipt (text : string) : option CreateReceipt :=
  l ← members_of text;
  action ← string_of "action" l; target ← string_of "target" l; digest ← string_of "contentSHA256" l;
  id ← string_of "requestId" l; title ← string_of "title" l;
  account ← decode_field (set_struct dec_identity) (mkFeishuIdentity "" "") "account" l;
  state ← string_of "state" l; url ← string_of "url" l; document ← string_of "documentId" l; created ← string_of "createdAt" l;
  Some (mkCreateReceipt action target digest id title account state url document created).

(** ** The login of the member *)

Record whoami := mkWhoami { wh_Identity : string; wh_Available : bool; wh_TokenStatus : string; wh_UserName : string; wh_OpenID : string }.
Definition dec_whoami (text : string) : option whoami :=
  l ← members_of text;
  identity ← string_of "identity" l; available ← bool_of "available" l; status ← string_of "tokenStatus" l;
  who ← decode_field (set_struct (fun m x => name ← decode_field set_string x.1 "userName" m; id ← decode_field set_string x.2 "openId" m; Some (name, id)))
          ("", "") "onBehalfOf" l;
  Some (mkWhoami identity available status who.1 who.2).
Definition whoami_args : list string := ["whoami"; "--as"; "user"].
Definition user_login (w : whoami) : bool :=
  String.eqb (wh_Identity w) "user" && wh_Available w && String.eqb (wh_TokenStatus w) "ready" && accountID (wh_OpenID w).
Definition no_login : verr := "本机没有可用的飞书用户登录；不会使用 bot 或 Host 身份".
Definition who_is (out : string * option verr) : result verr FeishuIdentity :=
  match out with
  | (_, Some _) => Err "无法读取本机飞书用户登录，请先在本机登录"
  | (b, None) =>
      match dec_whoami b with
      | Some w => if user_login w then Ok (mkFeishuIdentity (wh_UserName w) (wh_OpenID w)) else Err no_login
      | None => Err no_login
      end
  end.
(** [Executor.FeishuIdentity] *)
Definition Executor_FeishuIdentity : prog (result verr FeishuIdentity) := out ← perform (ELark whoami_args ""); given (who_is out).

(** ** Reading a document *)

Definition fetch_args (target format : string) : list string := ["docs"; "+fetch"; "--as"; "user"; "--doc"; target; "--doc-format"; format; "--json"].
Definition in_document {T} (set : string -> T -> option T) (zero : T) (name : string) (l : list (string * string)) : option T :=
  decode_field (set_struct (fun d x => decode_field (set_struct (fun m y => decode_field set y name m)) x "document" d)) zero "data" l.
Definition dec_fetched (text : string) : option (bool * string * string) :=
  l ← members_of text;
  ok ← bool_of "ok" l; identity ← string_of "identity" l; content ← in_document set_string "" "content" l;
  Some (ok, identity, content).
Definition unreadable : verr := "无法读取完整正文".
Definition fetched_content (out : string * option verr) : result verr string :=
  match out with
  | (_, Some _) => Err unreadable
  | (b, None) =>
      match dec_fetched b with
      | Some (ok, identity, content) => if ok && String.eqb identity "user" then Ok content else Err unreadable
      | None => Err unreadable
      end
  end.
Definition readDocumentBody (target : string) : prog (result verr string) :=
  out ← perform (ELark (fetch_args target "xml") "");
  let* content := given (fetched_content out) in documentBody content.
Definition documentHasContent (target content : string) : prog bool :=
  body ← readDocumentBody target;
  mret (match body with Ok b => negb (String.eqb (words content) "") && Contains b (words content) | Err _ => false end).

(** ** Writing a document once ([create.go]) *)

(** [Executor.Receipt] *)
Definition no_rows : verr := "sql: no rows in result set".
Definition decoded_receipt (raw : string) : result verr CreateReceipt :=
  match dec_create_receipt raw with Some r => Ok r | None => Err "invalid JSON" end.
Definition Executor_Receipt (id : string) : prog (result verr CreateReceipt) :=
  demand (requestID id) "invalid receipt ID"
    (unless_error (perform EOpen)
      (let* row := perform (EQuery id) in
       match row with Some (_, raw) => given (decoded_receipt raw) | None => fail no_rows end)).
(** [RecentDocuments] *)
Definition RecentDocuments : prog (result verr (list CreateReceipt)) :=
  unless_error (perform EOpen) (let* rows := perform ERecent in given (each decoded_receipt rows)).

Definition request_digest (r : ResourceRequest) : string := sha256_hex (marshal (request_json r)).
Definition is_append (r : ResourceRequest) : bool := String.eqb (rr_Action r) "feishu.append".
Definition create_args : list string := ["docs"; "+create"; "--as"; "user"; "--doc-format"; "xml"; "--content"; "-"; "--json"].
Definition append_args (target : string) : list string :=
  ["docs"; "+update"; "--as"; "user"; "--doc"; target; "--command"; "append"; "--doc-format"; "xml"; "--content"; "-"; "--json"].
Definition previous (r : ResourceRequest) : prog (result verr (option string)) :=
  let* row := perform (EQuery (rr_RequestID r)) in
  match row with
  | None => given (Ok None)
  | Some (digest, receipt) =>
      demand (String.eqb digest (request_digest r)) "创建请求标识与原内容冲突，请查看原回执" (given (Ok (Some receipt)))
  end.
Definition last_step (target : string) : string := match CutLast "/" target with Some (_, b) => b | None => target end.
Definition new_receipt (r : ResourceRequest) (who : FeishuIdentity) (now : Z) : CreateReceipt :=
  mkCreateReceipt (rr_Action r) (rr_Target r) (ContentDigest (rr_Content r)) (rr_RequestID r) (rr_Title r) who "unknown" "" "" (format_time now).
Definition set_result (url document state : string) (c : CreateReceipt) : CreateReceipt :=
  mkCreateReceipt (cr_Action c) (cr_Target c) (cr_ContentSHA256 c) (cr_RequestID c) (cr_Title c) (cr_Account c) state url document (cr_CreatedAt c).
Definition already_there : string := "{`ok`:true,`identity`:`user`}".
Definition cancelled_now : prog bool := x ← perform ECancelled; mret (bool_decide (is_Some x)).
(** The write itself: text that an unreadable document may already hold is not
    written again. *)
Definition write_append (r : ResourceRequest) : prog (string * option verr) :=
  existing ← readDocumentBody (rr_Target r);
  match existing with
  | Err e => mret ("", Some e)
  | Ok body =>
      if Contains body (words (rr_Content r)) then mret (bq already_there, None) else
      who ← Executor_FeishuIdentity;
      match who with
      | Ok i =>
          if String.eqb (fe_OpenID i) (rr_AccountID r) then
            cancelled ← cancelled_now;
            if (cancelled : bool) then mret ("", Some "账号变化或请求已取消")
            else perform (ELark (append_args (rr_Target r)) (paragraphXML (rr_Content r)))
          else mret ("", Some "账号变化或请求已取消")
      | Err _ => mret ("", Some "账号变化或请求已取消")
      end
  end.
Definition write_document (r : ResourceRequest) : prog (string * option verr) :=
  if is_append r then write_append r else perform (ELark create_args (documentXML (rr_Title r) (rr_Content r))).
Record written := mkWritten { wr_OK : bool; wr_Identity : string; wr_ID : string; wr_URL : string }.
Definition dec_written (text : string) : option written :=
  l ← members_of text;
  ok ← bool_of "ok" l; identity ← string_of "identity" l;
  id ← in_document set_string "" "document_id" l; url ← in_document set_string "" "url" l;
  Some (mkWritten ok identity id url).
Definition started_receipt (r : ResourceRequest) (c : CreateReceipt) : CreateReceipt :=
  if is_append r then set_result (rr_Target r) (last_step (rr_Target r)) (cr_State c) c else c.
(** What the answer of the tool says of a new document. *)
Definition located (r : ResourceRequest) (w : written) (c : CreateReceipt) : CreateReceipt :=
  set_result (if negb (is_append r) && HasPrefix (wr_URL w) "https://" && validDocument (wr_URL w) then wr_URL w else cr_URL c)
             (if negb (is_append r) && resource_token (wr_ID w) then wr_ID w else cr_DocumentID c) (cr_State c) c.
Definition confirmed (r : ResourceRequest) (out : string * option verr) (c : CreateReceipt) : prog CreateReceipt :=
  match dec_written out.1 with
  | None => mret c
  | Some w =>
      let c := located r w c in
      if bool_decide (out.2 = None) && wr_OK w && String.eqb (wr_Identity w) "user" && negb (String.eqb (cr_URL c) "") && negb (String.eqb (cr_DocumentID c) "") then
        has ← documentHasContent (cr_URL c) (rr_Content r);
        mret (if (has : bool) then set_result (cr_URL c) (cr_DocumentID c) "completed" c else c)
      else mret c
  end.
Definition write_once (r : ResourceRequest) (first : CreateReceipt) : prog (result verr string) :=
  out ← write_document r;
  last ← confirmed r out (started_receipt r first);
  saved ← perform (EUpdate (rr_RequestID r) (receipt_text last));
  given (Ok (match saved with Some _ => receipt_text first | None => receipt_text last end)).
Definition createDocument (r : ResourceRequest) : prog (result verr string) :=
  unless_error (perform EOpen)
    (let* found := previous r in
     match found with
     | Some receipt => given (Ok receipt)
     | None =>
         let* who := Executor_FeishuIdentity in
         demand (String.eqb (fe_OpenID who) (rr_AccountID r)) "本机飞书账号已变化，请重新核对；没有创建文档"
           (now ← perform EClock;
            let first := new_receipt r who now in
            let* n := perform (EInsert (rr_RequestID r) (request_digest r) (receipt_text first)) in
            if n =? 0 then
              let* saved := previous r in
              match saved with Some receipt => given (Ok receipt) | None => fail no_rows end
            else write_once r first)
     end).

(** ** Reading resources, and the whole executor ([resources.go]) *)

Definition MaxResult : Z := 48000.
Definition tool_failed : verr := "本机工具调用失败：请检查 CLI 安装、登录、资源权限或结果大小；未改用其他身份".
Definition github_args (path : string) : list string := ["api"; "--hostname"; "github.com"; "--method"; "GET"; path].
Definition issue_path (target : string) : string :=
  match Split "#" target with a :: b :: _ => "repos/" +:+ a +:+ "/issues/" +:+ b | _ => "" end.
(** The command line of a request that reads. *)
Definition read_command (r : ResourceRequest) : string * list string :=
  let repository := "repos/" +:+ rr_Target r in
  if String.eqb (rr_Action r) "github.repo" then ("gh", github_args repository)
  else if String.eqb (rr_Action r) "github.issues" then ("gh", github_args (repository +:+ "/issues?state=open&per_page=20"))
  else if String.eqb (rr_Action r) "github.search" then
    ("gh", github_args ("search/issues?per_page=20&q=" +:+ QueryEscape ("repo:" +:+ rr_Target r +:+ " " +:+ rr_Query r)))
  else if String.eqb (rr_Action r) "github.issue" then ("gh", github_args (issue_path (rr_Target r)))
  else if String.eqb (rr_Action r) "feishu.document" then ("lark-cli", fetch_args (rr_Target r) "markdown")
  else if String.eqb (rr_Action r) "feishu.search" then
    ("lark-cli", ["drive"; "+search"; "--as"; "user"; "--query"; rr_Query r; "--page-size"; "10"; "--json"])
  else ("gh", []).
Definition has_nul (s : string) : bool := existsb (fun c => code c =? 0) (bytes s).
Definition not_text : verr := "文件不是可读取的文本".
Definition read_file (root target : string) : prog (result verr string) :=
  demand (HasPrefix root "/") "请先在本机选择项目目录"
    (opened ← perform (ERoot root);
     match opened with Some _ => fail "无法打开已授权项目目录" | None =>
       found ← perform (EFile root target);
       match found with Some _ => fail "文件不存在或不在授权目录内" | None =>
         st ← perform (EStat root target);
         demand (match st with Ok (regular, size) => regular && (size <=? MaxResult) | Err _ => false end) "仅支持小于 48 KB 的普通文本文件"
           (b ← perform (ERead root target (MaxResult + 1));
            match b with
            | Ok text => demand ((len text <=? MaxResult) && utf8_valid text && negb (has_nul text)) not_text (given (Ok text))
            | Err _ => fail not_text
            end)
       end
     end).
Definition run_tool (r : ResourceRequest) : prog (result verr string) :=
  let (name, args) := read_command r in
  other ← (if String.eqb name "gh" then perform EGitHub else mret "");
  out ← perform (ETool (if String.eqb other "" then name else other) args);
  match out with
  | Ok text =>
      demand (len text <=? MaxResult) tool_failed (demand (utf8_valid text) "resource output is not UTF-8" (given (Ok text)))
  | Err _ => fail tool_failed
  end.
(** [Executor.Run] *)
Definition Executor_Run (root : string) (r : ResourceRequest) : prog (result verr string) :=
  let* _ := given (ResourceRequest_Validate r) in
  if IsWrite r then createDocument r
  else if String.eqb (rr_Action r) "project.file" then read_file root (rr_Target r)
  else run_tool r.

Example document_text : documentXML "a<b" ("x & y" +:+ of_bytes [chr 13] +:+ nl +:+ "<p>") = "<title>a&lt;b</title><p>x &amp; y</p><p>&lt;p&gt;</p>".
Proof. by vm_compute. Qed.
