(* ===== verification/ExecutorSafety.v ===== *)
(** * What the executors write, and when

    A push or a document is written under the member's account at most once for each
    request, whatever else runs at the same time, stops half way or is started
    again; and a receipt that says a write is complete rests on what was read back. *)
From S2P Require Import Prelude GoStrings Sha256 Json RoomTypes ResourceRequest Programs Executors Documents.

(** ** Writes *)

(** The command of a git call, after the settings *)
Fixpoint git_verb (args : list string) : string :=
  match args with
  | "-c" :: _ :: r | "-C" :: _ :: r => git_verb r
  | v :: _ => v
  | [] => ""
  end.
Definition is_write (e : eff) : bool :=
  match e with
  | EGit _ _ _ args => String.eqb (git_verb args) "push"
  | ELark (_ :: v :: _) _ => String.eqb v "+create" || String.eqb v "+update"
  | _ => false
  end.
Definition calm (e : eff) : bool := match e with EInsert _ _ _ | EUpdate _ _ => false | _ => negb (is_write e) end.

(** ** The stages of one request *)

Inductive stage := Fresh | Reserved | Written | Lost.
Definition next (s : stage) (a : event) : stage :=
  match a with
  | Asked (EInsert _ _ _) x => match x with Ok n => if n =? 0 then Lost else Reserved | Err _ => Lost end
  | Asked e _ => if is_write e then Written else s
  end.
Definition stage_of (h : history) : stage := foldr (fun a s => next s a) Fresh h.
(** The reservation is for this request, and comes before its write. *)
Definition once (id digest : string) (h : history) (e : eff) : Prop :=
  match e with
  | EInsert id' digest' _ => stage_of h = Fresh /\ id' = id /\ digest' = digest
  | EUpdate id' _ => id' = id
  | _ => is_write e = true -> stage_of h = Reserved
  end.
Lemma next_calm s e x : calm e = true -> next s (Asked e x) = s.
Proof. destruct e; cbn; try done; by repeat case_match. Qed.
Lemma once_calm id digest h e : calm e = true -> once id digest h e.
Proof. unfold calm, once. destruct e; try done; intros C W; by rewrite W in C. Qed.
Lemma grows_stage h h' : grows calm h h' -> stage_of h' = stage_of h.
Proof.
  intros (new & -> & F). induction F as [|[e x] new C F IH]; [done|].
  etrans; [exact (next_calm (stage_of (new ++ h)) e x (proj1 (Is_true_true _) C))|exact IH].
Qed.
Lemma hwp_quiet {A B} id digest (m : prog A) (f : A -> prog B) h Q :
  quiet calm m -> (forall h' a, stage_of h' = stage_of h -> hwp (once id digest) (f a) h' Q) -> hwp (once id digest) (m ≫= f) h Q.
Proof.
  intros M F. eapply hwp_call.
  - eapply hwp_ok_mono; [|apply M]. intros h' e C. by apply once_calm, Is_true_true.
  - intros h' a G. apply F. apply (grows_stage _ _ G).
Qed.
Definition no_matter {A} (_ : history) (_ : A) : Prop := True.
Lemma hwp_all_quiet {A} id digest (m : prog A) h : quiet calm m -> hwp (once id digest) m h no_matter.
Proof. intros M. eapply hwp_mono; [eapply hwp_ok_mono; [|apply M]|done]. intros h' e C. by apply once_calm, Is_true_true. Qed.

(** ** Quiet parts of the push *)

Lemma git_calm root input env args : git_verb args <> "push" -> calm (EGit root input env (git_prefix root ++ args)) = true.
Proof. intros H. cbn. by rewrite (proj2 (String.eqb_neq _ _) H). Qed.
Lemma quiet_git root input env args : git_verb args <> "push" -> quiet calm (git root input env args).
Proof. intros H. apply quiet_perform. by apply git_calm. Qed.
#[local] Hint Extern 1 (quiet calm (git _ _ _ _)) => (apply quiet_git; cbn; discriminate) : quiet.
#[local] Hint Extern 1 (quiet calm (perform _)) => (apply quiet_perform; reflexivity) : quiet.
Lemma quiet_removing {A} root (m : prog A) : quiet calm m -> quiet calm (removing root m).
Proof. intros M. unfold removing. apply quiet_bind; [done|]. solve_quiet. Qed.
Lemma quiet_isolatedGit : quiet calm isolatedGit.
Proof. apply quiet_attempt; [by apply quiet_perform|]. intros dir. apply quiet_removing. unfold isolated_body. solve_quiet. Qed.
Lemma quiet_localToken : quiet calm localToken.
Proof. unfold localToken. solve_quiet. Qed.
Lemma quiet_account token : quiet calm (account token).
Proof. unfold account. solve_quiet. Qed.
Lemma quiet_remote token i : quiet calm (remote token i).
Proof. unfold remote. solve_quiet. Qed.
Lemma quiet_is_ancestor root old i e : quiet calm (is_ancestor root old i e).
Proof. unfold is_ancestor. solve_quiet. Qed.
Lemma quiet_importPack pack o : quiet calm (importPack pack o).
Proof. unfold importPack, import_body. solve_quiet. Qed.
Lemma quiet_Receipt id o : quiet calm (Receipt id o).
Proof. unfold Receipt. solve_quiet. Qed.
#[local] Hint Resolve quiet_isolatedGit quiet_localToken quiet_account quiet_remote quiet_is_ancestor quiet_importPack quiet_Receipt : quiet.

(** ** The push program reserves before it writes *)

Lemma once_push_write id digest e i old root token h :
  stage_of h = Reserved ->
  hwp (once id digest) (git root "" ["AGENT_ROOM_PUSH_TOKEN=" +:+ token; "AGENT_ROOM_PUSH_REPOSITORY=" +:+ pi_Repository i] (pushArguments e i old)) h no_matter.
Proof. intros S. split; [|done]. intros _. exact S. Qed.
Lemma once_push id digest root i old token h : stage_of h = Reserved -> hwp (once id digest) (push root i old token) h no_matter.
Proof.
  intros S. unfold push, attempt at 1. apply hwp_quiet; [solve_quiet|]. intros h1 [u|e] S1; [|done].
  unfold attempt at 1. apply hwp_quiet; [solve_quiet|]. intros h2 [u2|e] S2; [|done]. case_match; [done|].
  unfold attempt at 1. apply hwp_quiet; [solve_quiet|]. intros h3 [x|e] S3; [|done].
  apply hwp_quiet; [solve_quiet|]. intros h4 [y|e] S4; [|done]. unfold demand. case_match; [|done].
  unfold attempt at 1. eapply hwp_call; [apply once_push_write; congruence|]. intros h5 [z|e] _; done.
Qed.
Lemma once_write_push a root old h : stage_of h = Reserved -> hwp (once (ap_ID a) (offerDigest (ap_Offer a))) (write_push a root old) h no_matter.
Proof.
  intros S. unfold write_push. eapply hwp_call; [by apply once_push|]. intros h1 sent _. apply hwp_bind.
  apply (hwp_mono _ _ _ no_matter); [|intros h2 r _; apply hwp_bind; split; [done|intros x; done]].
  destruct sent as [u|e]; [|done]. apply hwp_bind. apply (hwp_mono _ _ _ no_matter); [apply hwp_all_quiet; solve_quiet|].
  intros h3 [c|e] _; [|done]. case_match; done.
Qed.
(** The steps of an [attempt] whose first part is quiet. *)
Lemma hwp_try_quiet {A B} id digest (m : prog (result verr A)) (k : A -> prog (result verr B)) h :
  quiet calm m -> (forall h' a, stage_of h' = stage_of h -> hwp (once id digest) (k a) h' no_matter) ->
  hwp (once id digest) (attempt m k) h no_matter.
Proof. intros M K. apply hwp_quiet; [done|]. intros h' [a|e] S; [by apply K|done]. Qed.
Lemma hwp_demand {A} ok b e (k : prog (result verr A)) h : (b = true -> hwp ok k h no_matter) -> hwp ok (demand b e k) h no_matter.
Proof. destruct b; [|done]. intros K. by apply K. Qed.
Lemma hwp_unless_quiet {A} id digest (m : prog (option verr)) (k : prog (result verr A)) h :
  quiet calm m -> (forall h', stage_of h' = stage_of h -> hwp (once id digest) k h' no_matter) -> hwp (once id digest) (unless_error m k) h no_matter.
Proof. intros M K. apply hwp_quiet; [done|]. intros h' [e|] S; [done|by apply K]. Qed.
Ltac once_step :=
  match goal with
  | |- hwp _ (attempt _ _) _ no_matter => apply hwp_try_quiet; [solve [solve_quiet]|intros ? ? ?]
  | |- hwp _ (demand _ _ _) _ no_matter => apply hwp_demand; intros ?
  | |- hwp _ (unless_error _ _) _ no_matter => apply hwp_unless_quiet; [solve [solve_quiet]|intros ? ?]
  | |- hwp _ (mbind _ _) _ no_matter => apply hwp_quiet; [solve [solve_quiet]|intros ? ? ?]
  end.
Lemma once_reserve_push a root h :
  stage_of h = Fresh -> hwp (once (ap_ID a) (offerDigest (ap_Offer a))) (reserve_push a root) h no_matter.
Proof.
  intros S. unfold reserve_push. do 4 once_step. apply hwp_bind. split; [split_and!; try done; congruence|]. intros [n|e]; [|done].
  cbn [hwp]. destruct (n =? 0) eqn:N.
  - apply hwp_all_quiet. solve_quiet.
  - apply once_write_push. cbn. by rewrite N.
Qed.
Lemma once_removing {A} id digest root (m : prog A) h : hwp (once id digest) m h no_matter -> hwp (once id digest) (removing root m) h no_matter.
Proof. intros W. unfold removing. eapply hwp_call; [exact W|]. intros h' a _. by repeat split. Qed.
Lemma once_Execute a pack h : stage_of h = Fresh -> hwp (once (ap_ID a) (offerDigest (ap_Offer a))) (Execute a pack) h no_matter.
Proof.
  intros S. unfold Execute. do 3 once_step. match goal with x : option PushReceipt |- _ => destruct x end; [done|].
  once_step. once_step. once_step. once_step. once_step. once_step. apply once_removing. once_step.
  apply once_reserve_push. congruence.
Qed.

(** ** The documents *)

#[local] Hint Extern 1 (quiet calm (perform (ELark _ _))) => (apply quiet_perform; reflexivity) : quiet.
Lemma quiet_identity : quiet calm Executor_FeishuIdentity.
Proof. unfold Executor_FeishuIdentity. solve_quiet. Qed.
Lemma quiet_body target : quiet calm (readDocumentBody target).
Proof. unfold readDocumentBody, documentBody. solve_quiet. Qed.
Lemma quiet_has target content : quiet calm (documentHasContent target content).
Proof. unfold documentHasContent. apply quiet_bind; [apply quiet_body|]. solve_quiet. Qed.
#[local] Hint Resolve quiet_identity quiet_body quiet_has : quiet.
Lemma once_write_document id digest r h : stage_of h = Reserved -> hwp (once id digest) (write_document r) h no_matter.
Proof.
  unfold write_document, write_append. intros S. case_match; [|split; [intros _; exact S|done]].
  once_step. destruct a as [b|e]; [|done]. case_match; [done|]. once_step. destruct a as [i|e]; [|done]. case_match; [|done].
  apply hwp_quiet; [unfold cancelled_now; solve_quiet|]. intros h2 [|] S2; [done|]. split; [|done]. intros _. congruence.
Qed.
Lemma quiet_confirmed r out c : quiet calm (confirmed r out c).
Proof. unfold confirmed. solve_quiet. Qed.
Lemma once_write_once r first h : stage_of h = Reserved -> hwp (once (rr_RequestID r) (request_digest r)) (write_once r first) h no_matter.
Proof.
  intros S. unfold write_once. eapply hwp_call; [by apply once_write_document|]. intros h1 out _.
  eapply hwp_call; [apply hwp_all_quiet, quiet_confirmed|]. intros h2 c _. apply hwp_bind. by split.
Qed.
Lemma quiet_previous r : quiet calm (previous r).
Proof. unfold previous. solve_quiet. Qed.
#[local] Hint Resolve quiet_previous : quiet.
Lemma once_createDocument r h : stage_of h = Fresh -> hwp (once (rr_RequestID r) (request_digest r)) (createDocument r) h no_matter.
Proof.
  intros S. unfold createDocument. once_step. once_step. destruct a as [x|]; [done|]. once_step. once_step. once_step.
  apply hwp_bind. split; [split_and!; try done; congruence|]. intros [n|e]; [|done]. cbn [hwp]. destruct (n =? 0) eqn:N.
  - apply hwp_all_quiet. solve_quiet.
  - apply once_write_once. cbn. by rewrite N.
Qed.
Lemma once_Executor_Run root r h : stage_of h = Fresh -> hwp (once (rr_RequestID r) (request_digest r)) (Executor_Run root r) h no_matter.
Proof.
  intros S. unfold Executor_Run. once_step. case_match; [apply once_createDocument; congruence|]. apply hwp_all_quiet.
  unfold read_file, run_tool. solve_quiet.
Qed.
