(* ===== verification/ExecutorEvidence.v ===== *)
(** * What a push rests on

    Nothing is pushed that was not approved, and a receipt that calls a push complete
    was given by a ledger row or by reading the branch back. *)
From S2P Require Import Prelude GoStrings Sha256 Json RoomTypes ResourceRequest Programs Executors Documents ExecutorSafety.

(** ** What the outside said *)

Definition said_login (h : history) (t : string) : Prop := exists b, Asked EToken (Ok b) ∈ h /\ TrimSpace b = t.
Definition said_account (h : history) (token : string) (x : Account) : Prop :=
  exists text, Asked (EGet token "user") (GotText text) ∈ h /\ user_of text = Some (x, "User").
Definition ref_path (i : PushInput) : string := "repos/" +:+ pi_Repository i +:+ "/git/ref/heads/" +:+ GoUrl.PathEscape (pi_Branch i).
(** The branch is at a commit, or does not exist. *)
Definition said_remote (h : history) (token : string) (i : PushInput) (c : string) : Prop :=
  (c = "" /\ Asked (EGet token (ref_path i)) GotMissing ∈ h)
  \/ exists text, Asked (EGet token (ref_path i)) (GotText text) ∈ h /\ ref_of text = Some (c, "commit").
Definition git_call (root input : string) (env args : list string) : eff := EGit root input env (git_prefix root ++ args).
Definition git_said (h : history) (root input : string) (args : list string) : Prop := exists out, Asked (git_call root input [] args) (Ok out) ∈ h.
Definition said_ancestor (h : history) (root old commit : string) : Prop := git_said h root "" ["merge-base"; "--is-ancestor"; old; commit].
Definition said_packed (h : history) (root pack : string) : Prop := git_said h root pack ["index-pack"; "--stdin"; "--strict"].

(** A part that is quiet, and what is said during it. *)
Definition during (h : history) (P : history -> Prop) (h' : history) : Prop := exists new, h' = new ++ h /\ P new.
Definition tells {A} (m : prog A) (P : history -> A -> Prop) : Prop :=
  forall h, hwp (fun _ e => calm e) m h (fun h' a => during h (fun new => P new a) h').
Lemma tells_do {A} e (k : ans e -> prog A) (P : history -> A -> Prop) :
  calm e = true -> (forall x, tells (k x) (fun new a => P (new ++ [Asked e x]) a)) -> tells (Do e k) P.
Proof.
  intros C K h. split; [by rewrite C|]. intros x. eapply hwp_mono; [apply K|]. intros h' a (new & -> & H).
  exists (new ++ [Asked e x]). by rewrite <- app_assoc.
Qed.
Lemma tells_ret {A} (a : A) (P : history -> A -> Prop) : P [] a -> tells (Ret a) P.
Proof. intros H h. by exists []. Qed.
Lemma tells_quiet {A} (m : prog A) (P : history -> A -> Prop) : quiet calm m -> (forall new a, P new a) -> tells m P.
Proof. intros M H h. eapply hwp_mono; [apply M|]. intros h' a (new & -> & _). by exists new. Qed.
Lemma tells_mono {A} (m : prog A) (P Q : history -> A -> Prop) : tells m P -> (forall new a, P new a -> Q new a) -> tells m Q.
Proof. intros T I h. eapply hwp_mono; [apply T|]. intros h' a (new & -> & H). exists new. split; [done|by apply I]. Qed.
Lemma tells_bind {A B} (m : prog A) (f : A -> prog B) (P : history -> A -> Prop) (Q : history -> B -> Prop) :
  tells m P -> (forall n1 a, P n1 a -> tells (f a) (fun n2 b => Q (n2 ++ n1) b)) -> tells (m ≫= f) Q.
Proof.
  intros M F h. eapply hwp_call; [apply M|]. intros h' a (n1 & -> & H1). eapply hwp_mono; [exact (F n1 a H1 (n1 ++ h))|].
  intros h2 b (n2 & -> & H2). exists (n2 ++ n1). by rewrite <- app_assoc.
Qed.
(** Under any requirement that calm parts meet. *)
Lemma hwp_tells_ok {A B} (ok : history -> eff -> Prop) (m : prog A) (f : A -> prog B) h P Q :
  (forall h e, calm e = true -> ok h e) -> tells m P -> (forall new x, P new x -> hwp ok (f x) (new ++ h) Q) -> hwp ok (m ≫= f) h Q.
Proof.
  intros C M F. eapply hwp_call.
  - eapply hwp_ok_mono; [|apply M]. intros h' e Ce. by apply C, Is_true_true.
  - intros h' x (new & -> & H). by apply F.
Qed.
Definition ok_then {A} (P : history -> A -> Prop) (h : history) (r : result verr A) : Prop := match r with Ok a => P h a | Err _ => True end.
Lemma tells_fail {A} e (P : history -> A -> Prop) : tells (fail e) (ok_then P).
Proof. by apply tells_ret. Qed.
Lemma tells_try {A B} (m : prog (result verr A)) (k : A -> prog (result verr B)) (P : history -> A -> Prop) (Q : history -> B -> Prop) :
  tells m (ok_then P) -> (forall n1 a, P n1 a -> tells (k a) (fun n2 => ok_then (fun h => Q h) (n2 ++ n1))) -> tells (attempt m k) (ok_then Q).
Proof. intros M K. eapply tells_bind; [exact M|]. intros n1 [a|e] H1; [by apply K|by apply tells_ret]. Qed.
Lemma tells_demand {A} b e (k : prog (result verr A)) (P : history -> A -> Prop) : (b = true -> tells k (ok_then P)) -> tells (demand b e k) (ok_then P).
Proof. destruct b; [|intros _; by apply tells_ret]. intros K. by apply K. Qed.

Lemma tells_localToken : tells localToken (ok_then said_login).
Proof.
  apply tells_do; [done|]. intros [b|e]; [|by apply tells_ret]. cbn. unfold demand. case_match; apply tells_ret; [|done]. exists b. split; [by left|done].
Qed.
Lemma tells_account token : tells (account token) (ok_then (fun h => said_account h token)).
Proof.
  apply tells_do; [done|]. intros [text| |e]; try by apply tells_ret. cbn. destruct (user_of text) as [[x type]|] eqn:E; [|by apply tells_ret].
  unfold demand. destruct (String.eqb type "User") eqn:T; [|by apply tells_ret]. apply String.eqb_eq in T as ->. cbn.
  destruct (Account_Valid x); apply tells_ret; [|done]. exists text. split; [by left|done].
Qed.
Lemma tells_remote token i : tells (remote token i) (ok_then (fun h => said_remote h token i)).
Proof.
  apply tells_do; [done|]. intros [text| |e]; [|apply tells_ret; left; split; [done|by left]|by apply tells_ret]. cbn.
  destruct (ref_of text) as [[sha type]|] eqn:E; [|by apply tells_ret]. unfold demand. destruct (String.eqb type "commit") eqn:T; [|by apply tells_ret].
  apply String.eqb_eq in T as ->. cbn. destruct (git_oid sha); apply tells_ret; [|done]. right. exists text. split; [by left|done].
Qed.
Lemma tells_git root input args : git_verb args <> "push" -> tells (git root input [] args) (ok_then (fun h _ => git_said h root input args)).
Proof. intros N. apply tells_do; [by apply git_calm|]. intros [out|e]; apply tells_ret; [|done]. exists out. by left. Qed.
Lemma tells_is_ancestor root old i e : tells (is_ancestor root old i e) (ok_then (fun h _ => said_ancestor h root old (pi_Commit i))).
Proof.
  eapply tells_bind; [apply (tells_git root "" ["merge-base"; "--is-ancestor"; old; pi_Commit i]); discriminate|]. intros n1 [out|x] H; by apply tells_ret.
Qed.
Lemma tells_importPack pack o :
  tells (importPack pack o) (ok_then (fun h root => CheckPack o pack = Ok tt /\ said_packed h root pack)).
Proof.
  unfold importPack. eapply (tells_try _ _ (fun _ _ => CheckPack o pack = Ok tt)).
  { destruct (CheckPack o pack) as [[]|e] eqn:C; by apply tells_ret. }
  intros n1 _ C. eapply (tells_try _ _ (fun _ _ => True)); [by apply tells_quiet; [by apply quiet_perform|intros ? []]|]. intros n2 root _.
  eapply (tells_bind _ _ (ok_then (fun h _ => said_packed h root pack))).
  - unfold import_body. eapply (tells_try _ _ (fun _ _ => True)); [eapply tells_mono; [by apply tells_git|by intros ? []]|]. intros n3 _ _.
    eapply tells_try; [by apply (tells_git root pack ["index-pack"; "--stdin"; "--strict"])|]. intros n4 x [out H].
    apply tells_quiet; [unfold given; solve_quiet; by apply quiet_git|]. intros new [u|e]; [|done]. exists out.
    rewrite !elem_of_app. auto.
  - intros n3 [u|e] H.
    + apply tells_ret. cbn. split; [done|]. destruct H as [out H]. exists out. rewrite !elem_of_app. auto.
    + apply tells_do; [done|]. intros ?. by apply tells_ret.
Qed.
(** A receipt of the ledger, for exactly this offer *)
Definition from_row (h : history) (id : string) (o : Offer) (r : PushReceipt) : Prop :=
  exists raw, Asked (EQuery id) (Ok (Some (offerDigest o, raw))) ∈ h /\ dec_push_receipt raw = Some r /\ PushReceipt_Valid r id (of_Input o) = true.
Lemma tells_Receipt id o : tells (Receipt id o) (ok_then (fun h found => forall r, found = Some r -> from_row h id o r)).
Proof.
  unfold Receipt. apply tells_do; [done|]. intros [e|]; [by apply tells_ret|]. apply tells_do; [done|]. intros [[[digest raw]|]|e]; [|by apply tells_ret|by apply tells_ret].
  cbn. destruct (dec_push_receipt raw) as [r|] eqn:E; [|by apply tells_ret]. unfold demand.
  destruct (String.eqb digest (offerDigest o)) eqn:D; [|by apply tells_ret]. apply String.eqb_eq in D as ->. cbn.
  destruct (PushReceipt_Valid r id (of_Input o)) eqn:V; [|by apply tells_ret]. apply tells_ret. intros r' [= <-]. exists raw. split; [by left|done].
Qed.

(** ** What a write needs *)

Definition reserved (h : history) (a : Approval) : Prop :=
  exists receipt n, Asked (EInsert (ap_ID a) (offerDigest (ap_Offer a)) receipt) (Ok n) ∈ h /\ n <> 0.
Record grounds (a : Approval) (pack root : string) (h : history) : Prop := mk_grounds
  { gr_pack : CheckPack (ap_Offer a) pack = Ok tt;
    gr_login : said_login h (ap_token a);
    gr_account : said_account h (ap_token a) (ap_Account a);
    gr_packed : said_packed h root pack;
    gr_ancestor : moved_on (ap_ExpectedRemote a) (of_Input (ap_Offer a)) = true ->
      said_ancestor h root (ap_ExpectedRemote a) (pi_Commit (of_Input (ap_Offer a)));
    gr_remote : said_remote h (ap_token a) (of_Input (ap_Offer a)) (ap_ExpectedRemote a);
    gr_reserved : reserved h a }.
Definition push_call (a : Approval) (root executable : string) : eff :=
  git_call root "" ["AGENT_ROOM_PUSH_TOKEN=" +:+ ap_token a; "AGENT_ROOM_PUSH_REPOSITORY=" +:+ pi_Repository (of_Input (ap_Offer a))]
    (pushArguments executable (of_Input (ap_Offer a)) (ap_ExpectedRemote a)).
Definition approved (a : Approval) (pack : string) (h : history) (e : eff) : Prop :=
  is_write e = true -> exists root executable, e = push_call a root executable /\ grounds a pack root h.
(** The branch was read back after the reservation. *)
Definition confirmed_push (h : history) (a : Approval) (r : PushReceipt) : Prop :=
  r = completed_receipt a (ap_ExpectedRemote a)
  /\ exists after before, h = after ++ before /\ reserved before a
       /\ said_remote after (ap_token a) (of_Input (ap_Offer a)) (pi_Commit (of_Input (ap_Offer a))).
Definition proven (a : Approval) (h : history) (x : result verr PushReceipt) : Prop :=
  forall r, x = Ok r -> pr_State r = "completed" -> from_row h (ap_ID a) (ap_Offer a) r \/ confirmed_push h a r.

Lemma calm_approved a pack h e : calm e = true -> approved a pack h e.
Proof. unfold calm. intros C W. destruct e; try discriminate; by rewrite W in C. Qed.
Lemma hwp_tells {A B} a pack (m : prog A) (f : A -> prog B) h P Q :
  tells m P -> (forall new x, P new x -> hwp (approved a pack) (f x) (new ++ h) Q) -> hwp (approved a pack) (m ≫= f) h Q.
Proof. apply hwp_tells_ok, calm_approved. Qed.
Lemma proven_err a h e : proven a h (Err e).
Proof. by intros r. Qed.
#[local] Hint Resolve proven_err : core.
Lemma hwp_try_tells {A B} a pack (m : prog (result verr A)) (k : A -> prog (result verr B)) h P Q :
  tells m (ok_then P) -> (forall new x, P new x -> hwp (approved a pack) (k x) (new ++ h) Q) -> (forall h' e, Q h' (Err e)) ->
  hwp (approved a pack) (attempt m k) h Q.
Proof. intros M F E. eapply hwp_tells; [exact M|]. intros new [x|e] H; [by apply F|apply E]. Qed.
Lemma hwp_demand_Q {A} ok b e (k : prog (result verr A)) h Q : (b = true -> hwp ok k h Q) -> (forall h' e, Q h' (Err e)) -> hwp ok (demand b e k) h Q.
Proof. intros K E. destruct b; [by apply K|apply E]. Qed.

Lemma said_login_mono h h' t : h ⊆ h' -> said_login h t -> said_login h' t.
Proof. intros S (b & H & E). exists b. auto. Qed.
Lemma said_account_mono h h' t x : h ⊆ h' -> said_account h t x -> said_account h' t x.
Proof. intros S (b & H & E). exists b. auto. Qed.
Lemma said_remote_mono h h' t i c : h ⊆ h' -> said_remote h t i c -> said_remote h' t i c.
Proof. intros S [[E H]|(b & H & E)]; [by left; auto|right; exists b; auto]. Qed.
Lemma git_said_mono h h' root input args : h ⊆ h' -> git_said h root input args -> git_said h' root input args.
Proof. intros S (b & H). exists b. auto. Qed.
Lemma reserved_mono h h' a : h ⊆ h' -> reserved h a -> reserved h' a.
Proof. intros S (b & n & H & N). exists b, n. auto. Qed.
Lemma from_row_mono h h' id o r : h ⊆ h' -> from_row h id o r -> from_row h' id o r.
Proof. intros S (raw & H & E). exists raw. auto. Qed.
Lemma grounds_mono a pack root h h' : h ⊆ h' -> grounds a pack root h -> grounds a pack root h'.
Proof.
  intros S []. split; eauto using said_login_mono, said_account_mono, said_remote_mono, reserved_mono.
  - by eapply git_said_mono.
  - intros M. eapply git_said_mono; [exact S|]. by apply gr_ancestor0.
Qed.
Lemma later_subseteq (new h : history) : h ⊆ new ++ h.
Proof. intros x H. apply elem_of_app. by right. Qed.
Lemma proven_mono a new h x : proven a h x -> proven a (new ++ h) x.
Proof.
  intros P r E C. destruct (P r E C) as [R|(-> & after & before & -> & B & A)].
  - left. eapply from_row_mono; [apply later_subseteq|done].
  - right. split; [done|]. exists (new ++ after), before. split_and!; [by rewrite app_assoc|done|]. eapply said_remote_mono; [apply later_subseteq|done].
Qed.

(** ** The programs *)

Definition later (h h' : history) : Prop := exists new, h' = new ++ h.
Lemma hwp_later {A} ok (m : prog A) h Q : hwp ok m h Q -> hwp ok m h (fun h' a => later h h' /\ Q h' a).
Proof.
  revert h. induction m as [a|e k IH]; intros h H; [split; [by exists []|done]|]. destruct H as [O H]. split; [done|]. intros x.
  eapply hwp_mono; [apply IH, H|]. intros h' a [[n ->] Hq]. split; [|done]. exists (n ++ [Asked e x]). by rewrite <- app_assoc.
Qed.
Lemma tells_true {A} (m : prog (result verr A)) : quiet calm m -> tells m (ok_then (fun _ _ => True)).
Proof. intros M. apply tells_quiet; [done|]. by intros ? [].    Qed.
Section written.
Context (a : Approval) (pack : string).
Let i := of_Input (ap_Offer a).
Let expected := ap_ExpectedRemote a.
Let W := approved a pack.

Lemma hwp_try_calm {A B} (m : prog (result verr A)) (k : A -> prog (result verr B)) h :
  quiet calm m -> (forall new x, hwp W (k x) (new ++ h) no_matter) -> hwp W (attempt m k) h no_matter.
Proof. intros M K. eapply hwp_try_tells; [exact (tells_true m M)|intros new x _; apply K|done]. Qed.
Lemma hwp_push root h : grounds a pack root h -> hwp W (push root i expected (ap_token a)) h no_matter.
Proof.
  intros G. unfold push. apply hwp_try_calm; [apply quiet_isolatedGit|]. intros n1 _.
  apply hwp_try_calm; [destruct (moved_on expected i); [apply quiet_is_ancestor|apply quiet_given]|]. intros n2 _. case_match; [done|].
  apply hwp_try_calm; [by apply quiet_perform|]. intros n3 x.
  eapply hwp_tells; [by apply tells_true, quiet_git|]. intros n4 [y|e] _; [|done].
  apply hwp_demand_Q; [intros _|done]. unfold attempt at 1. apply hwp_bind. split; [|by intros []].
  intros _. exists root, x. split; [done|]. eapply grounds_mono; [|exact G]. intros z Hz. rewrite !elem_of_app. auto.
Qed.
Lemma hwp_write_push root h : grounds a pack root h -> hwp W (write_push a root expected) h (proven a).
Proof.
  intros G. unfold write_push. eapply hwp_call; [apply hwp_later, hwp_push, G|]. intros h1 sent [[n1 ->] _].
  set (P := fun h' (r : PushReceipt) => pr_State r = "completed" -> confirmed_push h' a r).
  apply (hwp_call _ _ _ _ P).
  - assert (U : forall h', P h' (initial_receipt a expected)) by (intros h' X; discriminate X).
    destruct sent as [u|e]; [|apply U]. eapply hwp_tells; [apply tells_remote|]. intros n2 [c|e] Hc; [|apply U].
    destruct (String.eqb c (pi_Commit (of_Input (ap_Offer a)))) eqn:E; [|apply U]. apply String.eqb_eq in E as ->. intros _. split; [done|].
    exists n2, (n1 ++ h). split_and!; [done| |done]. eapply reserved_mono; [apply later_subseteq|apply G].
  - intros h2 r Hr. apply hwp_bind. split; [by intros X|]. intros saved.
    destruct saved as [e|]; intros r' E C; injection E as <-; [discriminate|]. right.
    destruct (Hr C) as (-> & n3 & before & -> & B & R). split; [done|]. eexists (_ :: n3), before. split_and!; [done|done|].
    eapply said_remote_mono; [|exact R]. intros z Hz. by right.
Qed.
Lemma hwp_reserve_push root h :
  CheckPack (ap_Offer a) pack = Ok tt -> said_login h (ap_token a) -> said_account h (ap_token a) (ap_Account a) -> said_packed h root pack ->
  (moved_on expected i = true -> said_ancestor h root expected (pi_Commit i)) ->
  hwp W (reserve_push a root) h (proven a).
Proof.
  intros C L A P M. unfold reserve_push. eapply hwp_try_tells; [apply tells_remote| |intros; apply proven_err]. intros n1 old R.
  apply hwp_demand_Q; [intros E; apply String.eqb_eq in E as ->|intros; apply proven_err].
  apply hwp_bind. split; [by apply calm_approved|]. intros [e|]; [apply proven_err|].
  apply hwp_bind. split; [by apply calm_approved|]. intros [e|]; [apply proven_err|].
  apply hwp_bind. split; [done|]. intros [n|e]; [|apply proven_err]. cbn [hwp]. destruct (n =? 0) eqn:N.
  - eapply hwp_try_tells; [apply tells_Receipt| |intros; apply proven_err]. intros n2 [r|] F; [|apply proven_err].
    intros r' [= <-] _. left. eapply from_row_mono; [|apply F; done]. intros z Hz. apply elem_of_app. by left.
  - set (h' := Asked (EInsert _ _ _) _ :: _). assert (S : h ⊆ h') by (intros z Hz; unfold h'; rewrite !elem_of_cons, elem_of_app; auto).
    apply hwp_write_push. split; [done|..].
    + by eapply said_login_mono.
    + by eapply said_account_mono.
    + by eapply git_said_mono.
    + intros Hm. eapply git_said_mono; [exact S|]. by apply M.
    + eapply said_remote_mono; [|exact R]. intros z Hz. unfold h'. rewrite !elem_of_cons, elem_of_app. auto.
    + eexists _, n. split; [by left|]. apply Z.eqb_neq in N. done.
Qed.
Lemma hwp_removing root (m : prog (result verr PushReceipt)) h : hwp W m h (proven a) -> hwp W (removing root m) h (proven a).
Proof.
  intros H. unfold removing. eapply hwp_call; [exact H|]. intros h' x P. apply hwp_bind. split; [by apply calm_approved|]. intros ?.
  exact (proven_mono a [_] h' x P).
Qed.
Lemma hwp_Execute h : hwp W (Execute a pack) h (proven a).
Proof.
  unfold Execute. apply hwp_bind. split; [by apply calm_approved|]. intros now. apply hwp_demand_Q; [intros V|intros; apply proven_err].
  eapply hwp_try_tells; [apply tells_Receipt| |intros; apply proven_err]. intros n1 [r|] F.
  { intros r' [= <-] _. left. eapply from_row_mono; [|apply F; done]. intros z Hz. apply elem_of_app. by left. }
  eapply (hwp_try_tells _ _ _ _ _ (fun _ _ => CheckPack (ap_Offer a) pack = Ok tt)); [| |intros; apply proven_err].
  { destruct (CheckPack (ap_Offer a) pack) as [[]|e] eqn:C; by apply tells_ret. }
  intros n2 _ C. eapply hwp_tells; [apply tells_localToken|]. intros n3 token L.
  apply hwp_demand_Q; [intros T|intros; apply proven_err]. destruct token as [t|e]; [|done]. apply String.eqb_eq in T as ->. cbn in L.
  eapply hwp_tells; [apply tells_account|]. intros n4 who A.
  apply hwp_demand_Q; [intros T|intros; apply proven_err]. destruct who as [x|e]; [|done]. apply bool_decide_eq_true in T as ->. cbn in A.
  eapply hwp_try_tells; [apply tells_importPack| |intros; apply proven_err]. intros n5 root [_ P]. apply hwp_removing.
  eapply (hwp_try_tells _ _ _ _ _ (fun h' _ => moved_on expected i = true -> said_ancestor h' root expected (pi_Commit i)));
    [| |intros; apply proven_err].
  { unfold expected, i. destruct (moved_on _ _); [|by apply tells_ret]. eapply tells_mono; [apply tells_is_ancestor|]. intros new [[]|e] H; [intros _; exact H|done]. }
  intros n6 _ M. apply hwp_reserve_push; [done|..].
  - eapply said_login_mono; [|exact L]. intros z Hz. rewrite !elem_of_app. auto.
  - eapply said_account_mono; [|exact A]. intros z Hz. rewrite !elem_of_app. auto.
  - eapply git_said_mono; [|exact P]. intros z Hz. rewrite !elem_of_app. auto.
  - intros Hm. eapply git_said_mono; [|by apply M]. intros z Hz. rewrite !elem_of_app. auto.
Qed.
End written.

(** C19: what is pushed was approved, and what is called complete was read back.
    Whatever the outside answers, the only write of the program is the push of the
    approved commit to the approved branch, forced only over the commit the member
    saw there; and before it the login was found to be the one approved and to be the
    approved account, the pack to be the one offered, the branch to be where the
    member saw it and to lead to the new commit, and the request was reserved in the
    ledger.  A receipt that says the push is complete is a valid row of the ledger
    for this very offer, or comes with the branch read back, after the reservation,
    as the approved commit. *)
Theorem push_approved_and_proven (o : machine) a pack :
  let h := (run o (Execute a pack) []).1 in
  (forall after e x before, h = after ++ Asked e x :: before -> is_write e = true ->
     exists root executable, e = push_call a root executable /\ grounds a pack root before)
  /\ (forall r, (run o (Execute a pack) []).2 = Ok r -> pr_State r = "completed" ->
        from_row h (ap_ID a) (ap_Offer a) r \/ confirmed_push h a r).
Proof.
  destruct (hwp_run (approved a pack) o (Execute a pack) [] (proven a) (hwp_Execute a pack []) I) as [L P]. split; [|exact P].
  intros later_ e x before E W. cbn zeta in E. rewrite E in L. exact (allowed_split _ _ _ _ _ L W).
Qed.

(** A machine where all goes well. *)
Definition demo_commit : string := of_bytes (replicate 40 "a"%char).
Definition demo_input : PushInput := mkPushInput "o/r" "main" demo_commit.
Definition demo_pack : string := "PACK0123456789012345678901234567890123456789".
Definition demo_offer : Offer := mkOffer demo_input (len demo_pack) (sha256_hex demo_pack) "1 file changed".
Definition demo_approval : Approval := mkApproval (of_bytes (replicate 32 "b"%char)) demo_offer (mkAccount 7 "alice") "" "secret" 0.
Definition demo_push (h : history) : bool := existsb (fun a => match a with Asked e _ => is_write e end) h.
Definition demo_machine : machine := fun h e =>
  match e return ans e with
  | EOpen | EUpdate _ _ | ECancelled | EWrite _ _ | ERoot _ | EFile _ _
  | EMkdirAll _ | EExclusive _ | EAppend _ _ | ESync _ | EClose _ | ERename _ _ => None
  | EGitRepo _ _ _ _ _ => None
  | EStatPath _ _ => StMissing
  | EReadFile _ => Ok None
  | ETempFile _ _ => Ok "/tmp/y"
  | EQuery _ => Ok None
  | EInsert _ _ _ => Ok 1
  | EClock => 5
  | EToken => Ok ("secret" +:+ nl)
  | EGet _ path =>
      if String.eqb path "user" then GotText (bq "{`id`:7,`login`:`alice`,`type`:`User`}")
      else if demo_push h then GotText (bq ("{`object`:{`sha`:`" +:+ demo_commit +:+ "`,`type`:`commit`}}")) else GotMissing
  | ETemp _ => Ok "/tmp/x"
  | EExecutable => Ok "/usr/bin/agent-room"
  | EGit _ _ _ args =>
      let v := git_verb args in
      if String.eqb v "config" then Ok "isolated" else if String.eqb v "cat-file" then Ok "commit"
      else if String.eqb v "ls-remote" then Ok (PushInput_URL demo_input) else Ok ""
  | ELark _ _ => ("", Some "no tool")
  | EXml _ => Ok []
  | ERecent => Ok []
  | EStat _ _ => Ok (true, 0)
  | ERead _ _ _ | ETool _ _ => Ok ""
  | ERemove _ => tt
  | EGitHub => ""
  end.
Example demo_pushes :
  let (h, x) := run demo_machine (Execute demo_approval demo_pack) [] in
  x = Ok (completed_receipt demo_approval "") /\ demo_push h = true.
Proof. by vm_compute. Qed.
Lemma push_approved_and_proven_witness :
  let h := (run demo_machine (Execute demo_approval demo_pack) []).1 in
  confirmed_push h demo_approval (completed_receipt demo_approval "")
  \/ from_row h (ap_ID demo_approval) (ap_Offer demo_approval) (completed_receipt demo_approval "").
Proof.
  pose proof (proj2 (push_approved_and_proven demo_machine demo_approval demo_pack) (completed_receipt demo_approval "")) as H.
  assert (E : (run demo_machine (Execute demo_approval demo_pack) []).2 = Ok (completed_receipt demo_approval "")) by (vm_compute; reflexivity).
  destruct (H E eq_refl) as [K|K]; [right; exact K|left; exact K].
Defined.

(** ** Many executors over one ledger

    Any number of writes run at the same time on a machine, each at its own pace;
    any of them may stop for good after any step, a program may be started again for
    a request that was tried before, and an operation on the ledger may fail with or
    without having taken effect.  The ledger is the only thing they share. *)

Section pool.
Context {Req A : Type} (id_of digest_of : Req -> string) (start : Req -> prog A).

(** The rows of the ledger, what is running, and what was written, the last first. *)
Record pool := mkPool { po_rows : gmap string (string * string); po_running : list (Req * prog A); po_written : list (Req * eff) }.
Definition empty_pool : pool := mkPool ∅ [] [].
(** What the ledger makes of an operation whose answer would be [x]; an operation
    that fails may still have happened. *)
Definition ledger (rows : gmap string (string * string)) (late : bool) (e : eff) : ans e -> ans e * gmap string (string * string) :=
  match e return ans e -> ans e * _ with
  | EQuery id => fun x => (match x with Ok _ => Ok (rows !! id) | Err r => Err r end, rows)
  | EInsert id d r => fun x =>
      let rows' := match rows !! id with Some _ => rows | None => <[id := (d, r)]> rows end in
      match x with
      | Ok _ => (Ok (match rows !! id with Some _ => 0 | None => 1 end), rows')
      | Err f => (Err f, if late then rows' else rows)
      end
  | EUpdate id r => fun x =>
      let rows' := alter (fun row => (row.1, r)) id rows in
      match x with None => (None, rows') | Some f => (Some f, if late then rows' else rows) end
  | _ => fun x => (x, rows)
  end.
Inductive pool_act :=
| PlStart (r : Req)
| PlStep (i : nat) (o : forall e, ans e) (late : bool)
| PlStop (i : nat).
Definition pool_step (p : pool) (a : pool_act) : pool :=
  match a with
  | PlStart r => mkPool (po_rows p) (po_running p ++ [(r, start r)]) (po_written p)
  | PlStop i => mkPool (po_rows p) (delete i (po_running p)) (po_written p)
  | PlStep i o late =>
      match po_running p !! i with
      | Some (r, Do e k) =>
          let (x, rows) := ledger (po_rows p) late e (o e) in
          mkPool rows (<[i := (r, k x)]> (po_running p)) (if is_write e then (r, e) :: po_written p else po_written p)
      | _ => p
      end
  end.
Definition pool_run (acts : list pool_act) : pool := foldl pool_step empty_pool acts.

(** ** The invariant *)

Context (starts : forall r, hwp (once (id_of r) (digest_of r)) (start r) [] no_matter).
Definition at_stage (r : Req) (m : prog A) (s : stage) : Prop := exists h, stage_of h = s /\ hwp (once (id_of r) (digest_of r)) m h no_matter.
Definition recorded (rows : gmap string (string * string)) (r : Req) : Prop := exists receipt, rows !! id_of r = Some (digest_of r, receipt).
Definition writes_of (p : pool) : list string := (fun w => id_of w.1) <$> po_written p.
(** Each running program is at a stage that its history gives it; who holds the
    reservation of a request is alone, and has not written. *)
Record pool_ok (p : pool) (stages : list stage) : Prop := mk_pool_ok
  { po_stages : Forall2 (fun m s => at_stage m.1 m.2 s) (po_running p) stages;
    po_reserved : forall i r m, po_running p !! i = Some (r, m) -> stages !! i = Some Reserved ->
      recorded (po_rows p) r /\ id_of r ∉ writes_of p;
    po_alone : forall i j r m r' m', po_running p !! i = Some (r, m) -> po_running p !! j = Some (r', m') ->
      stages !! i = Some Reserved -> stages !! j = Some Reserved -> id_of r = id_of r' -> i = j;
    po_once : NoDup (writes_of p);
    po_rows_of : forall r e, (r, e) ∈ po_written p -> recorded (po_rows p) r }.

(** Rows stay, with their digest. *)
Definition keeps (rows rows' : gmap string (string * string)) : Prop :=
  forall id d x, rows !! id = Some (d, x) -> exists x', rows' !! id = Some (d, x').
Lemma keeps_refl rows : keeps rows rows.
Proof. intros id d x H. by exists x. Qed.
Lemma recorded_keeps rows rows' r : keeps rows rows' -> recorded rows r -> recorded rows' r.
Proof. intros K [x H]. by apply (K _ _ _ H). Qed.
Lemma ledger_keeps rows late e x : keeps rows (ledger rows late e x).2.
Proof.
  assert (I : forall id d r, keeps rows match rows !! id with Some _ => rows | None => <[id := (d, r)]> rows end).
  { intros id d r. destruct (rows !! id) eqn:E; [apply keeps_refl|]. intros id' d' y H. exists y. rewrite lookup_insert_ne; [done|congruence]. }
  assert (U : forall id r, keeps rows (alter (fun row => (row.1, r)) id rows)).
  { intros id r id' d y H. destruct (decide (id = id')) as [->|N].
    - exists r. by rewrite lookup_alter_eq, H.
    - exists y. by rewrite lookup_alter_ne. }
  destruct e; try apply keeps_refl; destruct x; cbn; try destruct late; auto using keeps_refl.
Qed.
(** What a step does to the stage of who takes it. *)
Lemma step_stage rows late e x (k : ans e -> prog A) r s :
  at_stage r (Do e k) s ->
  let y := (ledger rows late e x).1 in
  let s' := next s (Asked e y) in
  at_stage r (k y) s'
  /\ (is_write e = true -> s = Reserved /\ s' = Written)
  /\ (s' = Reserved -> s = Reserved \/ (rows !! id_of r = None /\ recorded (ledger rows late e x).2 r)).
Proof.
  intros (h & S & O & W) y s'. split; [|split].
  - exists (Asked e y :: h). split; [|apply W]. unfold s'. by rewrite <- S.
  - intros Hw. split; [|unfold s'; destruct e; cbn in *; try done; by rewrite ?Hw].
    rewrite <- S. destruct e; try discriminate; by apply O.
  - intros Hs. subst y s'. destruct e as [| | |id d rc| | | | | | | | | | | | | | | | | | | | | | | | | | | |]; cbn in Hs; try (by left);
      try (destruct (is_write _) eqn:?; [discriminate|by left]); try (repeat case_match; try discriminate; by left).
    right. destruct O as (F & -> & ->). cbn in Hs |- *. destruct x as [n|f]; [|done]. destruct (rows !! id_of r) eqn:E; [done|].
    split; [done|]. cbn. exists rc. by rewrite lookup_insert_eq.
Qed.

(** ** Its preservation *)

Lemma pool_ok_start p st r : pool_ok p st -> pool_ok (pool_step p (PlStart r)) (st ++ [Fresh]).
Proof.
  intros K. pose proof (Forall2_length _ _ _ (po_stages _ _ K)) as L.
  assert (R : forall i x, (po_running p ++ [(r, start r)]) !! i = Some x -> (st ++ [Fresh]) !! i = Some Reserved ->
                po_running p !! i = Some x /\ st !! i = Some Reserved).
  { intros i x Hi Hs. destruct (decide (i < length st)%nat) as [I|I].
    - by rewrite !lookup_app_l in * by lia.
    - rewrite lookup_app_r in Hs by lia. apply list_lookup_singleton_Some in Hs as [_ [=]]. }
  split; cbn [pool_step po_running po_rows po_written].
  - apply Forall2_app; [apply K|]. repeat constructor. exists []. split; [done|apply starts].
  - intros i r' m Hi Hs. destruct (R _ _ Hi Hs) as [Hi' Hs']. by apply (po_reserved _ _ K i r' m).
  - intros i j ? ? ? ? Hi Hj Si Sj E. destruct (R _ _ Hi Si), (R _ _ Hj Sj). by eapply (po_alone _ _ K).
  - apply K.
  - apply K.
Qed.
Definition skip (i j : nat) : nat := if decide (j < i)%nat then j else S j.
Lemma skip_lookup {T} i j (l : list T) : delete i l !! j = l !! skip i j.
Proof. unfold skip. case_decide; [by apply list_lookup_delete_lt|apply list_lookup_delete_ge; lia]. Qed.
Lemma skip_inj i j k : skip i j = skip i k -> j = k.
Proof. unfold skip. repeat case_decide; lia. Qed.
Lemma pool_ok_stop p st i : pool_ok p st -> pool_ok (pool_step p (PlStop i)) (delete i st).
Proof.
  intros K. split; cbn [pool_step po_running po_rows po_written].
  - apply Forall2_delete, K.
  - intros j r m. rewrite !skip_lookup. apply (po_reserved _ _ K).
  - intros j k ? ? ? ?. rewrite !skip_lookup. intros. eapply skip_inj, (po_alone _ _ K); eassumption.
  - apply K.
  - apply K.
Qed.
Lemma pool_ok_step p st i o late : pool_ok p st -> exists st', pool_ok (pool_step p (PlStep i o late)) st'.
Proof.
  intros K. cbn [pool_step]. destruct (po_running p !! i) as [[r [a|e k]]|] eqn:Hi; [by exists st| |by exists st].
  destruct (Forall2_lookup_l _ _ _ _ _ (po_stages _ _ K) Hi) as (s & Hs & T). cbn [fst snd] in T.
  destruct (step_stage (po_rows p) late e (o e) k r s T) as (T' & Wr & Re). pose proof (ledger_keeps (po_rows p) late e (o e)) as Kp.
  destruct (ledger (po_rows p) late e (o e)) as [x rows] eqn:G. cbn [fst snd] in *. set (s' := next s (Asked e x)) in *.
  set (w := is_write e) in *. clearbody w s'.
  exists (<[i := s']> st).
  assert (Ls : (i < length st)%nat) by (by eapply lookup_lt_Some). assert (Lr : (i < length (po_running p))%nat) by (by eapply lookup_lt_Some).
  (* who is reserved after the step was reserved before, or has just found no row *)
  assert (V : forall j q m, <[i := (r, k x)]> (po_running p) !! j = Some (q, m) -> <[i := s']> st !! j = Some Reserved ->
                (exists m0, po_running p !! j = Some (q, m0) /\ st !! j = Some Reserved /\ (j = i -> w = false))
                \/ (j = i /\ q = r /\ po_rows p !! id_of r = None /\ recorded rows r /\ w = false)).
  { intros j q m Hj Sj. destruct (decide (j = i)) as [->|N].
    - rewrite list_lookup_insert_eq in Hj by done. rewrite list_lookup_insert_eq in Sj by done. injection Hj as <- <-. injection Sj as Sj.
      assert (Nw : w = false) by (destruct w; [destruct (Wr eq_refl); congruence|done]).
      destruct (Re Sj) as [-> | [N R]]; [left; by eexists|by right].
    - rewrite list_lookup_insert_ne in Hj by done. rewrite list_lookup_insert_ne in Sj by done. left. exists m. by split_and!. }
  set (p' := mkPool _ _ _). assert (Wn : writes_of p' = if w then id_of r :: writes_of p else writes_of p) by (unfold writes_of, p'; cbn; by case_match).
  assert (F : w = true -> recorded (po_rows p) r /\ id_of r ∉ writes_of p).
  { intros Hw. destruct (Wr Hw) as [-> _]. by eapply (po_reserved _ _ K). }
  split; cbn [p' po_running po_rows].
  - apply Forall2_insert; [apply K|done].
  - intros j q m Hj Sj. destruct (V j q m Hj Sj) as [(m0 & Hj0 & Sj0 & Nw)|(-> & -> & N & R & Nw)].
    + destruct (po_reserved _ _ K _ _ _ Hj0 Sj0) as [R N]. split; [by eapply recorded_keeps|]. rewrite Wn. destruct w; [|done].
      intros [E|E]%elem_of_cons; [|done]. destruct (Wr eq_refl) as [-> _].
      discriminate (Nw (po_alone _ _ K _ _ _ _ _ _ Hj0 Hi Sj0 Hs E)).
    + split; [done|]. rewrite Wn, Nw. intros E. apply list_elem_of_fmap in E as ([q e'] & E & Hq).
      destruct (po_rows_of _ _ K _ _ Hq) as [rc Hrc]. cbn in E. congruence.
  - intros j l q m q' m' Hj Hl Sj Sl E.
    destruct (V _ _ _ Hj Sj) as [(m0 & Hj0 & Sj0 & _)|(-> & -> & N & _)], (V _ _ _ Hl Sl) as [(m1 & Hl0 & Sl0 & _)|(-> & -> & N' & _)].
    + by eapply (po_alone _ _ K).
    + destruct (po_reserved _ _ K _ _ _ Hj0 Sj0) as [[rc R] _]. congruence.
    + destruct (po_reserved _ _ K _ _ _ Hl0 Sl0) as [[rc R] _]. congruence.
    + done.
  - rewrite Wn. destruct w; [|apply K]. apply NoDup_cons. split; [by apply F|apply K].
  - intros q e'. cbn [po_written p']. destruct w.
    + intros [[= -> ->]|H]%elem_of_cons; eapply recorded_keeps; eauto; [by apply F|by eapply (po_rows_of _ _ K)].
    + intros H. eapply recorded_keeps; [exact Kp|]. by eapply (po_rows_of _ _ K).
Qed.
Lemma pool_run_ok acts : exists st, pool_ok (pool_run acts) st.
Proof.
  unfold pool_run. assert (I : exists st, pool_ok empty_pool st).
  { exists []. split; [constructor|intros ? ? ? [=]|intros ? ? ? ? ? ? [=]|apply NoDup_nil; done|intros ? ? []%not_elem_of_nil]. }
  revert I. generalize empty_pool. induction acts as [|a acts IH]; intros p [st K]; [by exists st|]. apply IH.
  destruct a as [r|i o late|i]; [eexists; by apply pool_ok_start|by apply (pool_ok_step _ _ i o late) in K|eexists; by apply pool_ok_stop].
Qed.
End pool.
Arguments pool : clear implicits.
Arguments mkPool {Req A}.

(** ** Pushes and documents *)

(** A push is asked for with an approval and a pack. *)
Definition push_job : Type := Approval * string.
Definition push_pool_run (acts : list pool_act) : pool push_job (result verr PushReceipt) :=
  pool_run (fun j : push_job => Execute j.1 j.2) acts.
Definition document_job : Type := string * ResourceRequest.
Definition document_pool_run (acts : list pool_act) : pool document_job (result verr string) :=
  pool_run (fun j : document_job => Executor_Run j.1 j.2) acts.
(** C18: a push is sent at most once for each request, and a document is written at
    most once: any number of executors over the same ledger, in any interleaving,
    with any answers of the outside, any of them stopping at any point, started
    again as often as one likes, and with failing operations on the ledger.  Of each
    request that was written the ledger has a row that carries the digest of exactly
    what was written. *)
Theorem written_at_most_once push_acts document_acts :
  let p := push_pool_run push_acts in
  let d := document_pool_run document_acts in
  NoDup ((fun w => ap_ID w.1.1) <$> po_written p)
  /\ (forall j e, (j, e) ∈ po_written p -> exists receipt, po_rows p !! ap_ID j.1 = Some (offerDigest (ap_Offer j.1), receipt))
  /\ NoDup ((fun w => rr_RequestID w.1.2) <$> po_written d)
  /\ (forall j e, (j, e) ∈ po_written d -> exists receipt, po_rows d !! rr_RequestID j.2 = Some (request_digest j.2, receipt)).
Proof.
  destruct (pool_run_ok (fun j : push_job => ap_ID j.1) (fun j => offerDigest (ap_Offer j.1)) (fun j => Execute j.1 j.2)
              (fun j => once_Execute j.1 j.2 [] eq_refl) push_acts) as [st P].
  destruct (pool_run_ok (fun j : document_job => rr_RequestID j.2) (fun j => request_digest j.2) (fun j => Executor_Run j.1 j.2)
              (fun j => once_Executor_Run j.1 j.2 [] eq_refl) document_acts) as [st' D].
  split_and!; [apply P|intros j e; apply P|apply D|intros j e; apply D].
Qed.
(** Two executors with the same approval, in turns: one push, and the loser of the
    reservation answers that the result is unknown. *)
Definition demo_steps : list pool_act :=
  let job := (demo_approval, demo_pack) in
  PlStart job :: PlStart job :: concat (replicate 45 [PlStep 0 (demo_machine []) false; PlStep 1 (demo_machine []) false]).
Example pool_writes_once :
  let p := push_pool_run demo_steps in
  length (po_written p) = 1%nat /\ (fun m => match m.2 with Ret (Ok r) => pr_State r | _ => "" end) <$> po_running p = ["unknown"; "unknown"].
Proof. by vm_compute. Qed.
