(* ===== verification/DocumentEvidence.v ===== *)
(** * What a document write rests on

    A document is written under the account the member confirmed, as plain text, and
    its receipt is complete only when the text was read back. *)
From S2P Require Import Prelude GoStrings Sha256 Json RoomTypes ResourceRequest GoUrl Programs Executors Documents ExecutorSafety ExecutorEvidence JsonFacts TerminalPrint.

(** ** What the tool said *)

Definition said_identity (h : history) (who : FeishuIdentity) : Prop :=
  exists out, Asked (ELark whoami_args "") out ∈ h /\ who_is out = Ok who.
(** The words of the document, outside its title *)
Definition said_body (h : history) (target body : string) : Prop :=
  exists out source l, Asked (ELark (fetch_args target "xml") "") out ∈ h /\ fetched_content out = Ok source
    /\ Asked (EXml ("<root>" +:+ source +:+ "</root>")) (Ok l) ∈ h /\ body = words (body_text 0 l).
Lemma tells_identity : tells Executor_FeishuIdentity (ok_then said_identity).
Proof. apply tells_do; [done|]. intros out. apply tells_ret. destruct (who_is out) eqn:E; [|done]. exists out. split; [by left|done]. Qed.
Lemma tells_body target : tells (readDocumentBody target) (ok_then (fun h => said_body h target)).
Proof.
  apply tells_do; [done|]. intros out. cbn. destruct (fetched_content out) as [source|e] eqn:E; [|by apply tells_ret].
  apply tells_do; [done|]. intros [l|e]; apply tells_ret; [|done]. exists out, source, l. split_and!; [right; by left|done|by left|done].
Qed.
Lemma tells_has target content :
  tells (documentHasContent target content) (fun h b => b = true -> exists body, said_body h target body /\ words content <> "" /\ Contains body (words content) = true).
Proof.
  eapply tells_bind; [apply tells_body|]. intros n1 [b|e] H; apply tells_ret; [|discriminate]. cbn. intros (N & C)%andb_prop. exists b.
  split_and!; [done| |done]. intros X. by rewrite X in N.
Qed.
Lemma said_identity_mono h h' who : h ⊆ h' -> said_identity h who -> said_identity h' who.
Proof. intros S (out & H & E). exists out. auto. Qed.
Lemma said_body_mono h h' target body : h ⊆ h' -> said_body h target body -> said_body h' target body.
Proof. intros S (out & source & l & H & E & X & B). exists out, source, l. auto. Qed.

(** ** What a write needs *)

Section document.
Context (r : ResourceRequest).
Definition reserved_document (h : history) : Prop :=
  exists receipt n, Asked (EInsert (rr_RequestID r) (request_digest r) receipt) (Ok n) ∈ h /\ n <> 0.
Definition own_account (h : history) : Prop := exists who, said_identity h who /\ fe_OpenID who = rr_AccountID r.
(** Nothing but these two commands writes; text is added only where it was read
    that it is not there yet. *)
Definition document_call (h : history) (e : eff) : Prop :=
  (is_append r = false /\ e = ELark create_args (documentXML (rr_Title r) (rr_Content r)))
  \/ (is_append r = true /\ e = ELark (append_args (rr_Target r)) (paragraphXML (rr_Content r))
      /\ exists body, said_body h (rr_Target r) body /\ Contains body (words (rr_Content r)) = false).
Definition document_allowed (h : history) (e : eff) : Prop :=
  is_write e = true -> ResourceRequest_Validate r = Ok tt /\ own_account h /\ reserved_document h /\ document_call h e.
Definition saved_document (h : history) (text : string) : Prop := Asked (EQuery (rr_RequestID r)) (Ok (Some (request_digest r, text))) ∈ h.
(** The receipt names the account that was found, and is complete only when the
    text was read back from where the receipt says it is. *)
Record document_receipt (h : history) (c : CreateReceipt) : Prop := mk_document_receipt
  { dr_request : cr_RequestID c = rr_RequestID r /\ cr_Title c = rr_Title r /\ cr_Action c = rr_Action r;
    dr_digest : cr_ContentSHA256 c = ContentDigest (rr_Content r);
    dr_account : said_identity h (cr_Account c) /\ fe_OpenID (cr_Account c) = rr_AccountID r;
    dr_place : is_append r = true -> cr_URL c = "" \/ cr_URL c = rr_Target r;
    dr_complete : cr_State c = "completed" ->
      exists body, said_body h (cr_URL c) body /\ words (rr_Content r) <> "" /\ Contains body (words (rr_Content r)) = true }.
Definition document_proven (h : history) (x : result verr string) : Prop :=
  forall text, x = Ok text -> saved_document h text \/ exists c, text = receipt_text c /\ document_receipt h c.

Lemma calm_document h e : calm e = true -> document_allowed h e.
Proof. unfold calm. intros C W. destruct e; try discriminate; by rewrite W in C. Qed.
Lemma document_err h e : document_proven h (Err e).
Proof. by intros text. Qed.
Lemma reserved_document_mono h h' : h ⊆ h' -> reserved_document h -> reserved_document h'.
Proof. intros S (x & n & H & N). exists x, n. auto. Qed.
Lemma own_account_mono h h' : h ⊆ h' -> own_account h -> own_account h'.
Proof. intros S (who & H & E). exists who. split; [by eapply said_identity_mono|done]. Qed.
Lemma document_receipt_mono h h' c : h ⊆ h' -> document_receipt h c -> document_receipt h' c.
Proof.
  intros S [R D [A O] P K]. split; try done; [split; [by eapply said_identity_mono|done]|]. intros C. destruct (K C) as (b & B & X). exists b.
  split; [by eapply said_body_mono|done].
Qed.

(** ** The programs *)

Let W := document_allowed.
Lemma hwp_document_tells {A B} (m : prog A) (f : A -> prog B) h P Q :
  tells m P -> (forall new x, P new x -> hwp W (f x) (new ++ h) Q) -> hwp W (m ≫= f) h Q.
Proof. apply hwp_tells_ok, calm_document. Qed.
Lemma hwp_write_document h :
  ResourceRequest_Validate r = Ok tt -> own_account h -> reserved_document h -> hwp W (write_document r) h no_matter.
Proof.
  intros V O R. unfold write_document, write_append. destruct (is_append r) eqn:Ap.
  - eapply hwp_document_tells; [apply tells_body|]. intros n1 [body|e] B; [|done]. destruct (Contains body (words (rr_Content r))) eqn:C; [done|].
    eapply hwp_document_tells; [apply tells_identity|]. intros n2 [who|e] Wh; [|done]. destruct (String.eqb (fe_OpenID who) (rr_AccountID r)) eqn:E; [|done].
    apply hwp_bind, hwp_bind. split; [by apply calm_document|]. intros x. cbn [hwp mret prog_ret]. case_bool_decide; [done|]. split; [|done].
    intros _. set (h' := Asked ECancelled x :: _). assert (S : h ⊆ h') by (intros z Hz; unfold h'; rewrite !elem_of_cons, !elem_of_app; auto).
    split_and!; [done|by eapply own_account_mono|by eapply reserved_document_mono|]. right. split_and!; [done|done|]. exists body. split; [|done].
    eapply said_body_mono; [|exact B]. intros z Hz. unfold h'. rewrite !elem_of_cons, !elem_of_app. auto.
  - split; [|done]. intros _. split_and!; try done. by left.
Qed.
Lemma hwp_confirmed h out c :
  document_receipt h c -> cr_State c = "unknown" -> hwp W (confirmed r out c) h (fun h' c' => later h h' /\ document_receipt h' c').
Proof.
  intros D U. apply hwp_later. unfold confirmed.
  destruct (dec_written out.1) as [w|]; [|exact D]. set (c' := located r w c).
  assert (D' : document_receipt h c').
  { destruct D as [R Dg A P K]. split; try done; cbn; [|intros X; congruence]. intros Ap. rewrite Ap. cbn. by apply P. }
  case_match; [|exact D']. eapply hwp_document_tells; [apply tells_has|]. intros new [|] Hh; cbn [hwp mret prog_ret].
  - apply (document_receipt_mono _ (new ++ h)) in D'; [|apply later_subseteq]. destruct D' as [R Dg A P K]. split; try done. intros _. cbn.
    destruct (Hh eq_refl) as (b & B & X). exists b. split; [|done]. eapply said_body_mono; [|exact B]. intros z Hz. apply elem_of_app. by left.
  - eapply document_receipt_mono; [apply later_subseteq|exact D'].
Qed.
Lemma hwp_write_once who now h :
  ResourceRequest_Validate r = Ok tt -> said_identity h who -> fe_OpenID who = rr_AccountID r -> reserved_document h ->
  hwp W (write_once r (new_receipt r who now)) h document_proven.
Proof.
  intros V S O R. unfold write_once. assert (Ow : own_account h) by by exists who.
  assert (D : document_receipt h (started_receipt r (new_receipt r who now)) /\ document_receipt h (new_receipt r who now)).
  { split; [unfold started_receipt; destruct (is_append r) eqn:Ap|]; split; cbn; auto; discriminate. }
  assert (U : cr_State (started_receipt r (new_receipt r who now)) = "unknown") by (unfold started_receipt; by case_match).
  destruct D as [D D0]. eapply hwp_call; [apply hwp_later, hwp_write_document; done|]. intros h1 out [[n1 ->] _].
  eapply hwp_call; [apply hwp_confirmed; [eapply document_receipt_mono; [apply later_subseteq|exact D]|exact U]|].
  intros h2 c [[n2 ->] Dc]. apply hwp_bind. split; [by intros X|]. intros saved.
  assert (M : forall (c : CreateReceipt) h, document_receipt h c -> document_proven (Asked (EUpdate (rr_RequestID r) (receipt_text c)) saved :: h) (Ok (receipt_text c))).
  { intros c' h' D' text E. injection E as <-. right. exists c'. split; [done|]. eapply document_receipt_mono; [|exact D']. intros z Hz. by right. }
  destruct saved as [e|]; intros text E; injection E as <-; right; eexists; (split; [done|]).
  - eapply document_receipt_mono; [|exact D0]. intros z Hz. rewrite elem_of_cons, !elem_of_app. auto.
  - eapply document_receipt_mono; [|exact Dc]. intros z Hz. by right.
Qed.
Lemma tells_previous : tells (previous r) (ok_then (fun h found => forall text, found = Some text -> saved_document h text)).
Proof.
  apply tells_do; [done|]. intros [[[digest text]|]|e]; try by apply tells_ret. cbn. unfold demand.
  destruct (String.eqb digest (request_digest r)) eqn:E; apply tells_ret; [|done]. apply String.eqb_eq in E as ->. intros text' [= <-]. by left.
Qed.
Lemma hwp_createDocument h : ResourceRequest_Validate r = Ok tt -> hwp W (createDocument r) h document_proven.
Proof.
  intros V. unfold createDocument. apply hwp_bind. split; [by apply calm_document|]. intros [e|]; [apply document_err|].
  eapply hwp_document_tells; [apply tells_previous|]. intros n1 [[text|]|e] F; [| |apply document_err].
  { intros text' E. injection E as <-. left. apply elem_of_app. left. by apply F. }
  eapply hwp_document_tells; [apply tells_identity|]. intros n2 [who|e] S; [|apply document_err].
  apply hwp_demand_Q; [intros E; apply String.eqb_eq in E|intros; apply document_err].
  apply hwp_bind. split; [by apply calm_document|]. intros now. apply hwp_bind. split; [done|]. intros [n|e]; [|apply document_err]. cbn [hwp].
  destruct (n =? 0) eqn:N.
  - eapply hwp_document_tells; [apply tells_previous|]. intros n3 [[text|]|e] F'; [|apply document_err|apply document_err].
    intros text' E'. injection E' as <-. left. apply elem_of_app. left. by apply F'.
  - apply hwp_write_once; [done| |done|].
    + eapply said_identity_mono; [|exact S]. intros z Hz. rewrite !elem_of_cons, elem_of_app. auto.
    + eexists _, n. split; [by left|]. by apply Z.eqb_neq in N.
Qed.
Lemma hwp_Executor_Run root : IsWrite r = true -> hwp W (Executor_Run root r) [] document_proven.
Proof.
  intros Wr. unfold Executor_Run. eapply (hwp_document_tells _ _ _ (fun _ x => x = ResourceRequest_Validate r)); [by apply tells_ret|].
  intros new [u|e] E; [|apply document_err]. rewrite Wr. apply hwp_createDocument. rewrite <- E. by destruct u.
Qed.
End document.

(** C20: a document is written under the confirmed account, as it was confirmed, and
    complete means read back.  Whatever the outside answers, the only write is one
    command that hands the tool the title and the content with all markup taken as
    text, or for an extension the content, after the document was read and found
    without it; before it the request was found valid, the login to be the account of
    the request, and the request was reserved.  What is returned is the row that the
    ledger has for this very request, or a receipt of this request with the account
    that was found, which says it is complete only when the whole text was found in
    the document it names. *)
Theorem document_approved_and_proven (o : machine) root r :
  IsWrite r = true ->
  let h := (run o (Executor_Run root r) []).1 in
  (forall after e x before, h = after ++ Asked e x :: before -> is_write e = true ->
     ResourceRequest_Validate r = Ok tt /\ own_account r before /\ reserved_document r before /\ document_call r before e)
  /\ (forall text, (run o (Executor_Run root r) []).2 = Ok text ->
        saved_document r h text \/ exists c, text = receipt_text c /\ document_receipt r h c).
Proof.
  intros Wr. destruct (hwp_run (document_allowed r) o (Executor_Run root r) [] (document_proven r) (hwp_Executor_Run r root Wr) I) as [L P].
  split; [|exact P]. intros after e x before E W. cbn zeta in E. rewrite E in L. exact (allowed_split _ _ _ _ _ L W).
Qed.

(** A machine where a document is created and read back. *)
Definition demo_document : ResourceRequest :=
  mkResourceRequest "Notes" "first line" (of_bytes (replicate 32 "c"%char)) "ou_abcdefgh" "feishu.create" "" "".
Definition demo_url : string := "https://team.feishu.cn/docx/abcdefghij".
Definition document_machine : machine := fun h e =>
  match e return ans e with
  | ELark args _ =>
      match args with
      | "whoami" :: _ => (bq "{`identity`:`user`,`available`:true,`tokenStatus`:`ready`,`onBehalfOf`:{`userName`:`Alice`,`openId`:`ou_abcdefgh`}}", None)
      | _ :: "+create" :: _ => (bq ("{`ok`:true,`identity`:`user`,`data`:{`document`:{`document_id`:`abcdefghij`,`url`:`" +:+ demo_url +:+ "`}}}"), None)
      | _ => (bq "{`ok`:true,`identity`:`user`,`data`:{`document`:{`content`:`<title>Notes</title><p>first line</p>`}}}", None)
      end
  | EXml _ => Ok [XStart "root"; XStart "title"; XText "Notes"; XEnd "title"; XStart "p"; XText "first line"; XEnd "p"; XEnd "root"]
  | e => demo_machine h e
  end.
Definition demo_document_receipt : CreateReceipt :=
  set_result demo_url "abcdefghij" "completed" (new_receipt demo_document (mkFeishuIdentity "Alice" "ou_abcdefgh") 5).
Lemma document_approved_and_proven_witness :
  IsWrite demo_document = true
  /\ let h := (run document_machine (Executor_Run "" demo_document) []).1 in
     saved_document demo_document h (receipt_text demo_document_receipt)
     \/ exists c, receipt_text demo_document_receipt = receipt_text c /\ document_receipt demo_document h c.
Proof.
  split; [reflexivity|].
  assert (E : (run document_machine (Executor_Run "" demo_document) []).2 = Ok (receipt_text demo_document_receipt)) by (vm_compute; reflexivity).
  exact (proj2 (document_approved_and_proven document_machine "" demo_document eq_refl) _ E).
Defined.

(** ** The text of a document stays text

    Whatever the title and the content hold, the document written has the tags of
    the program and no other, and reading its paragraphs gives the lines back. *)

(** ** Characters of markup *)

Definition markup_chars : list Z := [34; 38; 39; 60; 62].
Definition opens (s : string) : nat := count_char "<" s.
Definition plain_rune (r : Z) : bool := negb (existsb (fun p => r =? p.1) escaped_runes).
Lemma opens_app s t : opens (s +:+ t) = (opens s + opens t)%nat.
Proof. unfold opens, count_char. rewrite bytes_app, List.filter_app. apply length_app. Qed.
Lemma character_scalar r : character r = true -> scalar r.
Proof. unfold character, scalar, between. cbn [existsb]. lia. Qed.
(** The bytes of a rune above ASCII are above ASCII. *)
Lemma encoded_high z l : encoded z l -> 128 <= z -> Forall (fun b => 128 <= b < 256) l.
Proof. intros H L. destruct H; repeat constructor; lia. Qed.
Lemma encode_plain r : scalar r -> plain_rune r = true -> Forall (fun c => code c <> 38 /\ code c <> 60) (bytes (encode_rune r)).
Proof.
  intros S P. destruct (Z.ltb_spec r 128) as [L|L].
  - assert (B : 0 <= r) by (unfold scalar in S; lia). unfold encode_rune. rewrite (proj2 (Z.ltb_lt _ _) L), bytes_of_bytes. 
    constructor; [|constructor]. rewrite code_chr by lia. split; intros ->; discriminate.
  - destruct (encode_encoded r S) as (l & E & ->). rewrite bytes_of_bytes. apply Forall_fmap. eapply Forall_impl; [by eapply encoded_high|].
    intros b [Hb1 Hb2]. cbn. rewrite code_chr by lia. lia.
Qed.
Lemma escape_rune_cases r :
  (exists c text, (code c, text) ∈ escaped_runes /\ r = code c /\ escape_rune r = text)
  \/ (plain_rune r = true /\ escape_rune r = encode_rune (if character r then r else 0xFFFD)).
Proof.
  unfold escape_rune. destruct (List.find (fun p => p.1 =? r) escaped_runes) as [p|] eqn:F.
  - apply List.find_some in F as [I E]. apply Z.eqb_eq in E. left. apply list_elem_of_In in I.
    exists (chr r), p.2. assert (B : 0 <= r < 256) by (rewrite <- E; revert I; clear; intros I; repeat (apply elem_of_cons in I as [-> |I]; [cbn; lia|]); by apply not_elem_of_nil in I).
    rewrite code_chr by done. split_and!; try done. rewrite <- E. by destruct p.
  - right. split; [|by case_match]. unfold plain_rune. apply negb_true_iff. apply Bool.not_true_iff_false. intros E.
    apply existsb_exists in E as (p & I & E). pose proof (List.find_none _ _ F p I) as N. cbn in N. rewrite Z.eqb_sym in E. congruence.
Qed.
Lemma replacement_plain r : plain_rune r = true -> plain_rune (if character r then r else 0xFFFD) = true /\ scalar (if character r then r else 0xFFFD).
Proof. intros P. destruct (character r) eqn:C; [split; [done|by apply character_scalar]|]. split; [done|right; lia]. Qed.

(** ** No tag comes from the text *)

Lemma forall_opens t : Forall (fun c => code c <> 38 /\ code c <> 60) (bytes t) -> opens t = 0%nat.
Proof.
  unfold opens, count_char. generalize (bytes t) as l. induction 1 as [|c l [_ N] F IH]; [done|]. cbn [List.filter].
  destruct (Ascii.eqb_spec "<" c) as [<-|_]; [by vm_compute in N|done].
Qed.
Lemma opens_escape_rune r : opens (escape_rune r) = 0%nat.
Proof.
  destruct (escape_rune_cases r) as [(c & text & I & _ & ->)|[P ->]].
  - revert I. unfold escaped_runes. intros I. repeat (apply elem_of_cons in I as [[= _ ->]|I]; [by vm_compute|]). by apply not_elem_of_nil in I.
  - apply replacement_plain in P as [P S]. by apply forall_opens, encode_plain.
Qed.
Lemma opens_concat l : Forall (fun s => opens s = 0%nat) l -> opens (concat_strings l) = 0%nat.
Proof. induction 1 as [|s l H F IH]; [done|]. cbn [concat_strings]. by rewrite opens_app, H, IH. Qed.
Lemma opens_EscapeText s : opens (EscapeText s) = 0%nat.
Proof. apply opens_concat, Forall_fmap, Forall_forall. intros r _. apply opens_escape_rune. Qed.
Lemma opens_paragraphs l : opens (concat_strings (paragraph <$> l)) = (2 * length l)%nat.
Proof.
  induction l as [|s l IH]; [done|]. cbn [fmap list_fmap concat_strings length]. rewrite opens_app, IH. unfold paragraph. rewrite !opens_app, opens_EscapeText.
  change (opens "<p>") with 1%nat. change (opens "</p>") with 1%nat. lia.
Qed.

(** ** Reading it back *)

(** The text of characters and references; [skip] characters are part of a
    reference. *)
Fixpoint read_text (skip : nat) (s : string) : string :=
  match s with
  | "" => ""
  | String c r =>
      match skip with
      | S n => read_text n r
      | O =>
          match List.find (fun p => HasPrefix s p.2) escaped_runes with
          | Some p => String (chr p.1) (read_text (String.length p.2 - 1) r)
          | None => String c (read_text 0 r)
          end
      end
  end.
Lemma find_reference c r : code c <> 38 -> List.find (fun p => HasPrefix (String c r) p.2) escaped_runes = None.
Proof.
  intros N. assert (A : "&"%char <> c) by (intros <-; by vm_compute in N). unfold HasPrefix. cbn [List.find escaped_runes snd String.prefix].
  by destruct (Ascii.ascii_dec "&" c).
Qed.
Lemma read_plain t w : Forall (fun c => code c <> 38 /\ code c <> 60) (bytes t) -> read_text 0 (t +:+ w) = t +:+ read_text 0 w.
Proof.
  induction t as [|c t IH]; intros F; [done|]. inversion F as [|? ? [N _] F']. subst. rewrite !sapp_cons. cbn [read_text]. rewrite find_reference by done.
  f_equal. by apply IH.
Qed.
Lemma read_reference c text w : (code c, text) ∈ escaped_runes -> read_text 0 (text +:+ w) = String c (read_text 0 w).
Proof.
  intros I. unfold escaped_runes in I.
  repeat (apply elem_of_cons in I as [E|I]; [apply pair_equal_spec in E as [E ->]; rewrite <- (chr_code c), E; cbn; by destruct w|]).
  by apply not_elem_of_nil in I.
Qed.
Lemma low_encode c : (exists text, (code c, text) ∈ escaped_runes) -> encode_rune (code c) = String c "".
Proof.
  intros [text I]. apply encode_low. unfold escaped_runes in I.
  repeat (apply elem_of_cons in I as [E|I]; [apply pair_equal_spec in E as [-> _]; lia|]). by apply not_elem_of_nil in I.
Qed.
Lemma read_escaped l : Forall (fun r => character r = true) l -> read_text 0 (concat_strings (escape_rune <$> l)) = concat_strings (encode_rune <$> l).
Proof.
  induction 1 as [|r l C F IH]; [done|]. cbn [fmap list_fmap concat_strings]. destruct (escape_rune_cases r) as [(c & text & I & -> & ->)|[P ->]].
  - rewrite (read_reference c) by done. rewrite IH, low_encode by by exists text. done.
  - rewrite C. rewrite read_plain; [by rewrite IH|]. apply encode_plain; [by apply character_scalar|done].
Qed.
(** The text of a document stays text.  The document that is written has the
    title's tags and one pair of tags for every line, and no other, whatever the
    title and the content hold; and what stands between the tags reads back as the
    line itself, when that is valid UTF-8 of XML characters, as [Request.Validate]
    requires. *)
Theorem document_text_stays_text title content line :
  utf8_valid line = true -> forallb character (runes line) = true ->
  opens (documentXML title content) = (2 + 2 * length (Split (chr 10) (unix_lines content)))%nat
  /\ opens (EscapeText line) = 0%nat
  /\ read_text 0 (EscapeText line) = line.
Proof.
  intros V C. split_and!; [|apply opens_EscapeText|].
  - unfold documentXML. rewrite !opens_app, opens_EscapeText, opens_paragraphs. by change (opens "<title>") with 1%nat; change (opens "</title>") with 1%nat.
  - unfold EscapeText. rewrite read_escaped by by apply Forall_forall; intros r Hr; eapply forallb_forall in C; [exact C|apply list_elem_of_In].
    by apply runes_valid.
Qed.
Lemma document_text_stays_text_witness :
  let line := "a < b & c" in
  utf8_valid line = true /\ forallb character (runes line) = true /\ read_text 0 (EscapeText line) = line.
Proof.
  assert (V : utf8_valid "a < b & c" = true) by (vm_compute; reflexivity).
  assert (C : forallb character (runes "a < b & c") = true) by (vm_compute; reflexivity).
  split; [exact V|]. split; [exact C|]. exact (proj2 (proj2 (document_text_stays_text "t" "x" "a < b & c" V C))).
Defined.
