(* ===== verification/CommitProgram.v ===== *)
(** * Commits with the sender's name ([internal/personal/git.go])

    A commit of named files is prepared in an index of its own, shown to the sender,
    and made once the sender gave a name: the tree that was shown becomes a commit,
    and the branch moves from the commit it was prepared on. *)
From S2P Require Import Prelude GoStrings Sha256 Json GoDecode GoUrl RoomTypes ResourceRequest PersonalBroker Programs.

Record commitPlan := mkCommitPlan
  { cp_root : string; cp_temp : string; cp_index : string; cp_ref : string; cp_base : string; cp_tree : string; cp_summary : string;
    cp_input : CommitInput; cp_indexBytes : string; cp_indexExists : bool }.
(** [gitCommand] *)
Definition git_failed (verb : string) : verr := "Git 操作未完成：" +:+ verb +:+ "；请检查仓库状态，不会切换提交身份".
Definition gitCommand (root index input : string) (identity : option GitIdentity) (args : list string) : prog (result verr string) :=
  out ← perform (EGitRepo root index input ((fun i => (gi_Name i, gi_Email i)) <$> identity) args);
  given (match out with Some text => Ok text | None => Err (git_failed (default "" (head args))) end).
Definition git_read (root : string) (args : list string) : prog (result verr string) := gitCommand root "" "" None args.
(** [gitPath] *)
Definition gitPath (root name : string) : prog (result verr string) :=
  let* v := git_read root ["rev-parse"; "--git-path"; name] in
  let p := TrimSpace v in given (Ok (if IsAbs p then p else Join root p)).
(** [readIndex] *)
Definition readIndex (path : string) : prog (result verr (string * bool)) :=
  let* b := perform (EReadFile path) in given (Ok (match b with Some bytes => (bytes, true) | None => ("", false) end)).
Definition is_missing (s : file_stat) : bool := match s with StMissing | StError _ => true | _ => false end.
(** Nothing is under way in the checkout. *)
Definition busy_names : list string := ["MERGE_HEAD"; "CHERRY_PICK_HEAD"; "REVERT_HEAD"; "rebase-merge"; "rebase-apply"].
Fixpoint no_operation (root : string) (names : list string) : prog (result verr unit) :=
  match names with
  | [] => given (Ok tt)
  | name :: r =>
      let* v := gitPath root name in
      st ← perform (EStatPath true v);
      demand (is_missing st) "请先完成或退出当前 merge/rebase/cherry-pick 操作" (no_operation root r)
  end.
(** The directories above a path, the nearest first. *)
Fixpoint parents (fuel : nat) (p : string) : list string :=
  match fuel with
  | O => []
  | S f => let d := Dir p in if String.eqb d "." then [] else d :: parents f d
  end.
Fixpoint no_links (root : string) (dirs : list string) : prog (result verr unit) :=
  match dirs with
  | [] => given (Ok tt)
  | d :: r =>
      st ← perform (EStatPath false (Join root d));
      demand (match st with StLink => false | _ => true end) "提交路径父目录不能是符号链接" (no_links root r)
  end.
Definition file_or_link (st : file_stat) : result verr unit :=
  match st with
  | StFile | StLink | StMissing => Ok tt
  | StDir | StOther => Err "请逐个指定普通文件或符号链接"
  | StError e => Err e
  end.
Fixpoint plain_paths (root : string) (paths : list string) : prog (result verr unit) :=
  match paths with
  | [] => given (Ok tt)
  | name :: r =>
      let* _ := no_links root (parents (String.length name) name) in
      st ← perform (EStatPath false (Join root name));
      let* _ := given (file_or_link st) in plain_paths root r
  end.
Definition read_base (base : string) : list string := if String.eqb base "" then ["read-tree"; "--empty"] else ["read-tree"; base].
(** The snapshot of the named files, in an index of its own. *)
Definition snapshot (root temp base : string) (paths : list string) : prog (result verr (string * string)) :=
  let index := Join temp "snapshot-index" in
  let* _ := gitCommand root index "" None (read_base base) in
  let* _ := gitCommand root index "" None (["add"; "-A"; "--"] ++ paths) in
  let* tree := gitCommand root index "" None ["write-tree"] in
  let* diff := gitCommand root index "" None ["diff"; "--cached"; "--no-ext-diff"; "--no-textconv"; "--stat"] in
  demand (negb (String.eqb diff "")) "指定文件没有可提交的修改" (given (Ok (TrimSpace tree, diff))).
Definition plan_summary (ref : string) (i : CommitInput) (tree diff : string) : string :=
  "分支：" +:+ ref +:+ nl +:+ "基础 HEAD：" +:+ ci_ExpectedHead i +:+ nl +:+ "提交快照：" +:+ tree +:+ nl +:+ "文件范围：" +:+ nl
  +:+ join nl (ci_Paths i) +:+ nl +:+ nl +:+ diff.
Definition head_moved : verr := "HEAD 已变化，请重新检查提交范围".
(** The commit the branch is at; an empty repository has none. *)
Definition expected_base (root : string) (i : CommitInput) : prog (result verr string) :=
  base ← git_read root ["rev-parse"; "--verify"; "HEAD"];
  match base with
  | Err _ => demand (String.eqb (ci_ExpectedHead i) "unborn") head_moved (given (Ok ""))
  | Ok b => demand (String.eqb (TrimSpace b) (ci_ExpectedHead i)) head_moved (given (Ok (TrimSpace b)))
  end.
(** A failure removes the directory. *)
Definition cleaning {A} (temp : string) (m : prog (result verr A)) : prog (result verr A) :=
  x ← m; match x with Ok a => given (Ok a) | Err e => _ ← perform (ERemove temp); fail e end.
Definition prepareCommit (root : string) (i : CommitInput) : prog (result verr commitPlan) :=
  let* _ := given (CommitInput_Validate i) in
  top ← git_read root ["rev-parse"; "--show-toplevel"];
  demand (match top with Ok t => String.eqb (Clean (TrimSpace t)) (Clean root) | Err _ => false end) "Host 项目目录需要是 Git 仓库根目录"
    (ref ← git_read root ["symbolic-ref"; "--quiet"; "HEAD"];
     match ref with
     | Err _ => fail "请先切换到本地分支，不能在 detached HEAD 上提交"
     | Ok ref =>
         let ref := TrimSpace ref in
         demand (HasPrefix ref "refs/heads/") "请先切换到本地分支，不能在 detached HEAD 上提交"
           (let* base := expected_base root i in
            let* index := gitPath root "index" in
            let* _ := no_operation root busy_names in
            let* now := readIndex index in
            unmerged ← git_read root ["ls-files"; "-u"];
            demand (match unmerged with Ok u => String.eqb u "" | Err _ => false end) "请先处理索引冲突"
              (let* _ := plain_paths root (ci_Paths i) in
               let* temp := perform (ETemp "agent-room-commit-") in
               cleaning temp
                 (let* shot := snapshot root temp base (ci_Paths i) in
                  let summary := plan_summary ref i shot.1 shot.2 in
                  demand (len summary <=? 24000) "提交范围过大，请分批提交"
                    (given (Ok (mkCommitPlan root temp index ref base shot.1 summary i now.1 now.2))))))
     end).

(** ** Making the commit *)

(** The hash made so far, and the error. *)
Definition made : Type := string * option verr.
Definition not_made {A} (m : prog (result verr A)) (k : A -> prog made) : prog made :=
  x ← m; match x with Ok a => k a | Err e => mret ("", Some e) end.
Definition unless_made (hash : string) (m : prog (option verr)) (k : prog made) : prog made :=
  x ← m; match x with Some e => mret (hash, Some e) | None => k end.
(** A row of [ls-tree], turned into a row for [update-index]. *)
Definition tab : string := String (chr 9) "".
Definition index_entry (tree path row : string) : result verr string :=
  if String.eqb row "" then Ok ("0 " +:+ zeros (String.length tree) +:+ tab +:+ path +:+ zero_byte) else
  match Cut (chr 9) row with
  | None => Err "invalid tree entry"
  | Some (meta, rest) =>
      match Fields meta with
      | [mode; kind; id] => if String.eqb kind "blob" then Ok (mode +:+ " " +:+ id +:+ tab +:+ rest) else Err "暂不支持提交子模块变更"
      | _ => Err "暂不支持提交子模块变更"
      end
  end.
Fixpoint index_entries (root tree : string) (paths : list string) : prog (result verr string) :=
  match paths with
  | [] => given (Ok "")
  | path :: r =>
      let* row := git_read root ["ls-tree"; "-z"; tree; "--"; path] in
      let* entry := given (index_entry tree path row) in
      let* rest := index_entries root tree r in
      given (Ok (entry +:+ rest))
  end.
Definition merged_index (p : commitPlan) (merged now : string) (exists_ : bool) : prog (result verr unit) :=
  if exists_ then unless_error (perform (EWrite merged now)) (given (Ok tt))
  else let* _ := gitCommand (cp_root p) merged "" None (read_base (cp_base p)) in given (Ok tt).
Definition lock_path (p : commitPlan) : string := cp_index p +:+ ".lock".
Definition commit_args (p : commitPlan) : list string :=
  ["commit-tree"; cp_tree p; "--no-gpg-sign"] ++ (if String.eqb (cp_base p) "" then [] else ["-p"; cp_base p]).
Definition old_commit (p : commitPlan) (hash : string) : string := if String.eqb (cp_base p) "" then zeros (String.length hash) else cp_base p.
Definition update_args (p : commitPlan) (hash : string) : list string :=
  ["update-ref"; "-m"; "agent_room personal commit"; cp_ref p; hash; old_commit p hash].
(** The commit is made, the branch moved, and the index put in place. *)
Definition move_branch (p : commitPlan) (author : GitIdentity) : prog made :=
  not_made (gitCommand (cp_root p) "" (ci_Message (cp_input p) +:+ nl) (Some author) (commit_args p)) (fun raw =>
    let hash := TrimSpace raw in
    if negb (gitOID hash) then mret ("", Some "invalid commit ID") else
    moved ← gitCommand (cp_root p) "" "" (Some author) (update_args p hash);
    match moved with
    | Err e => mret (hash, Some e)
    | Ok _ =>
        unless_made hash (perform (EClose (lock_path p)))
          (unless_made hash (perform (ERename (lock_path p) (cp_index p))) (mret (hash, None)))
    end).
Definition stage_entries (p : commitPlan) (now : string) (exists_ : bool) (author : GitIdentity) : prog made :=
  let merged := Join (cp_temp p) "merged-index" in
  not_made (merged_index p merged now exists_) (fun _ =>
    not_made (index_entries (cp_root p) (cp_tree p) (ci_Paths (cp_input p))) (fun entries =>
      not_made (gitCommand (cp_root p) merged entries None ["update-index"; "-z"; "--index-info"]) (fun _ =>
        not_made (perform (EReadFile merged)) (fun data =>
          match data with
          | None => mret ("", Some "file does not exist")
          | Some data =>
              unless_made "" (perform (EAppend (lock_path p) data))
                (unless_made "" (perform (ESync (lock_path p))) (move_branch p author))
          end)))).
Definition locked_apply (p : commitPlan) (author : GitIdentity) : prog made :=
  now ← readIndex (cp_index p);
  match now with
  | Ok (bytes, exists_) =>
      if Bool.eqb exists_ (cp_indexExists p) && String.eqb bytes (cp_indexBytes p) then
        ref ← git_read (cp_root p) ["symbolic-ref"; "--quiet"; "HEAD"];
        match ref with
        | Ok r => if String.eqb (TrimSpace r) (cp_ref p) then stage_entries p bytes exists_ author else mret ("", Some "当前分支已变化，未提交")
        | Err _ => mret ("", Some "当前分支已变化，未提交")
        end
      else mret ("", Some "等待授权期间暂存区已变化，未提交")
  | Err _ => mret ("", Some "等待授权期间暂存区已变化，未提交")
  end.
(** [commitPlan.apply]; the lock of the index is removed at the end. *)
Definition commitPlan_apply (p : commitPlan) (author : GitIdentity) : prog made :=
  match GitIdentity_Validate author with
  | Err e => mret ("", Some e)
  | Ok _ =>
      locked ← perform (EExclusive (lock_path p));
      match locked with
      | Some _ => mret ("", Some "Git 索引正被其他操作使用")
      | None =>
          r ← locked_apply p author;
          _ ← perform (ERemove (lock_path p));
          _ ← perform (EClose (lock_path p));
          mret r
      end
  end.

(** ** Receipts on disk ([Broker.Commit]) *)

Definition author_json (i : GitIdentity) : json := JObj [("name", JStr (gi_Name i)); ("email", JStr (gi_Email i))].
Definition commit_input_json (i : CommitInput) : json :=
  JObj [("message", JStr (ci_Message i)); ("paths", JArr (JStr <$> ci_Paths i)); ("expectedHead", JStr (ci_ExpectedHead i))].
Definition commit_receipt_json (r : CommitReceipt) : json :=
  JObj ([("id", JStr (cm_ID r)); ("state", JStr (cm_State r))] ++ omit_empty "commit" (cm_Commit r)
        ++ [("branch", JStr (cm_Branch r)); ("author", author_json (cm_Author r))] ++ omit_empty "error" (cm_Error r)).
Definition dec_author (l : list (string * string)) (i : GitIdentity) : option GitIdentity :=
  name ← decode_field set_string (gi_Name i) "name" l;
  email ← decode_field set_string (gi_Email i) "email" l;
  Some (mkGitIdentity name email).
Definition dec_commit_receipt (text : string) : option CommitReceipt :=
  l ← members_of text;
  id ← string_of "id" l; state ← string_of "state" l; commit ← string_of "commit" l; branch ← string_of "branch" l;
  author ← decode_field (set_struct dec_author) (mkGitIdentity "" "") "author" l;
  error ← string_of "error" l;
  Some (mkCommitReceipt id state commit branch author error).
Definition commit_id (message : ClientMessageID) (uid : UID) (i : CommitInput) : string :=
  take_bytes 32 (sha256_hex (message +:+ ":" +:+ itoa uid +:+ ":" +:+ marshal (commit_input_json i))).
Definition receipt_path (dir id : string) : string := Join dir (id +:+ ".json").
(** Until the sender is asked: the receipt that is there, or the plan. *)
Definition plan_commit (root dir id : string) (i : CommitInput) : prog (result verr (CommitReceipt + commitPlan)) :=
  demand (IsAbs dir) "回执目录不可用"
    (unless_error (perform (EMkdirAll dir))
      (let* data := perform (EReadFile (receipt_path dir id)) in
       match data with
       | Some text =>
           match dec_commit_receipt text with Some r => given (Ok (inl r)) | None => fail "提交回执损坏，请手动核对" end
       | None => let* p := prepareCommit root i in given (Ok (inr p))
       end)).
Definition open_receipt (id : string) (p : commitPlan) (author : GitIdentity) : CommitReceipt :=
  mkCommitReceipt id "unknown" "" (cp_ref p) author "提交结果待核实，请检查分支和暂存区；不会自动重试".
Definition reserve_file (path text : string) : prog (result verr unit) :=
  unless_error (perform (EExclusive path))
    (wrote ← perform (EAppend path text);
     synced ← (match wrote with Some e => mret (Some e) | None => perform (ESync path) end);
     closed ← perform (EClose path);
     given (match (synced : option verr) with Some e => Err e | None => match closed with Some e => Err e | None => Ok tt end end)).
(** [os.CreateTemp], and a rename over the receipt; failures leave the first one. *)
Definition replace_receipt (dir path text : string) : prog unit :=
  made ← perform (ETempFile dir ".commit-");
  match made with
  | Err _ => mret tt
  | Ok f =>
      wrote ← perform (EAppend f text);
      synced ← (match wrote with Some e => mret (Some e) | None => perform (ESync f) end);
      _ ← perform (EClose f);
      _ ← (match (synced : option verr) with None => perform (ERename f path) | Some e => mret (Some e) end);
      perform (ERemove f)
  end.
Definition final_receipt (first : CommitReceipt) (m : made) : CommitReceipt :=
  match m.2 with
  | Some e => mkCommitReceipt (cm_ID first) "unknown" m.1 (cm_Branch first) (cm_Author first) (e +:+ "；请核对分支及暂存区，不能据此自动重试")
  | None => mkCommitReceipt (cm_ID first) "completed" m.1 (cm_Branch first) (cm_Author first) ""
  end.
(** After the sender gave the name: the receipt is reserved, the commit made, and
    the receipt replaced.  [os.RemoveAll] of the plan's directory comes last. *)
Definition finish_commit (dir id : string) (p : commitPlan) (author : GitIdentity) : prog (result verr CommitReceipt) :=
  let path := receipt_path dir id in
  let first := open_receipt id p author in
  x ← (let* _ := reserve_file path (marshal (commit_receipt_json first)) in
       m ← commitPlan_apply p author;
       let last := final_receipt first m in
       _ ← replace_receipt dir path (marshal (commit_receipt_json last));
       given (Ok last));
  _ ← perform (ERemove (cp_temp p));
  mret x.
