(* ===== verification/CommitEvidence.v ===== *)
(** * What a commit rests on

    The branch moves only to a commit of the tree that was shown, made with the
    sender's name, from the commit it was prepared on, while nothing the preparation
    saw has changed. *)
From S2P Require Import Prelude GoStrings Sha256 Json GoUrl RoomTypes ResourceRequest PersonalBroker Programs CommitProgram.

(** ** Moves of a branch *)

Definition moves_branch (e : eff) : bool := match e with EGitRepo _ _ _ _ (v :: _) => String.eqb v "update-ref" | _ => false end.
Definition keeps_branch (e : eff) : bool := negb (moves_branch e).
Lemma quiet_gitCommand root index input who args :
  String.eqb (default "" (head args)) "update-ref" = false -> quiet keeps_branch (gitCommand root index input who args).
Proof. intros N. apply quiet_bind; [apply quiet_perform; unfold keeps_branch; by destruct args as [|v r]; [|cbn in *; rewrite N]|]. intros [t|]; apply quiet_given. Qed.
#[local] Hint Extern 1 (quiet keeps_branch (gitCommand _ _ _ _ _)) => (apply quiet_gitCommand; reflexivity) : quiet.
#[local] Hint Extern 1 (quiet keeps_branch (git_read _ _)) => (apply quiet_gitCommand; reflexivity) : quiet.
#[local] Hint Extern 1 (quiet keeps_branch (perform _)) => (apply quiet_perform; reflexivity) : quiet.
Lemma quiet_merged_index p merged now x : quiet keeps_branch (merged_index p merged now x).
Proof. unfold merged_index, read_base. destruct (String.eqb (cp_base p) ""); solve_quiet. Qed.
Lemma quiet_index_entries root tree paths : quiet keeps_branch (index_entries root tree paths).
Proof. induction paths as [|path r IH]; [apply quiet_given|]. cbn [index_entries]. solve_quiet; try apply IH. Qed.
Lemma quiet_replace_receipt dir path text : quiet keeps_branch (replace_receipt dir path text).
Proof. unfold replace_receipt. solve_quiet. Qed.

(** ** What was seen *)

Section commit.
Context (dir id : string) (p : commitPlan) (author : GitIdentity).
Let who : option (string * string) := Some (gi_Name author, gi_Email author).

Definition file_reserved (h : history) : Prop := Asked (EExclusive (receipt_path dir id)) None ∈ h.
Definition index_locked (h : history) : Prop := Asked (EExclusive (lock_path p)) None ∈ h.
Definition index_unchanged (h : history) : Prop :=
  exists x, Asked (EReadFile (cp_index p)) (Ok x) ∈ h
    /\ match x with Some b => cp_indexExists p = true /\ b = cp_indexBytes p | None => cp_indexExists p = false /\ cp_indexBytes p = "" end.
Definition branch_unchanged (h : history) : Prop :=
  exists r, Asked (EGitRepo (cp_root p) "" "" None ["symbolic-ref"; "--quiet"; "HEAD"]) (Some r) ∈ h /\ TrimSpace r = cp_ref p.
Definition commit_made (h : history) (hash : string) : Prop :=
  exists raw, Asked (EGitRepo (cp_root p) "" (ci_Message (cp_input p) +:+ nl) who (commit_args p)) (Some raw) ∈ h
    /\ TrimSpace raw = hash /\ gitOID hash = true.
Record commit_grounds (h : history) (hash : string) : Prop := mk_commit_grounds
  { cg_author : GitIdentity_Validate author = Ok tt;
    cg_reserved : file_reserved h; cg_locked : index_locked h; cg_index : index_unchanged h; cg_branch : branch_unchanged h; cg_made : commit_made h hash }.
Definition branch_move (hash : string) : eff := EGitRepo (cp_root p) "" "" who (update_args p hash).
Definition commit_allowed (h : history) (e : eff) : Prop :=
  moves_branch e = true -> exists hash, e = branch_move hash /\ commit_grounds h hash.
(** The branch was moved and the index put in place. *)
Definition commit_done_in (h : history) (hash : string) : Prop :=
  (exists out, Asked (branch_move hash) (Some out) ∈ h) /\ Asked (ERename (lock_path p) (cp_index p)) None ∈ h /\ commit_made h hash.
Definition receipt_true (h : history) (x : result verr CommitReceipt) : Prop :=
  forall r, x = Ok r -> cm_ID r = id /\ cm_Branch r = cp_ref p /\ cm_Author r = author
    /\ (cm_State r = "completed" \/ cm_State r = "unknown") /\ (cm_State r = "completed" -> commit_done_in h (cm_Commit r)).

Let W := commit_allowed.
Lemma keeps_allowed h e : keeps_branch e = true -> W h e.
Proof. unfold keeps_branch. intros K M. by rewrite M in K. Qed.
Lemma hwp_keeps {A B} (m : prog A) (f : A -> prog B) h Q :
  quiet keeps_branch m -> (forall new x, hwp W (f x) (new ++ h) Q) -> hwp W (m ≫= f) h Q.
Proof.
  intros M F. eapply hwp_call.
  - eapply hwp_ok_mono; [|apply M]. intros h' e Ce. by apply keeps_allowed, Is_true_true.
  - intros h' x (new & -> & _). apply F.
Qed.
Definition made_true (h : history) (m : made) : Prop := m.2 = None -> commit_done_in h m.1.
Lemma made_err h hash e : made_true h (hash, Some e).
Proof. by intros X. Qed.
Lemma commit_grounds_mono h h' hash : h ⊆ h' -> commit_grounds h hash -> commit_grounds h' hash.
Proof.
  intros S [V R L (x & I & X) (r & B & E) (raw & M & G)]. split; try done; [by apply S|by apply S|exists x; auto|exists r; auto|exists raw; auto].
Qed.
Lemma commit_done_mono h h' hash : h ⊆ h' -> commit_done_in h hash -> commit_done_in h' hash.
Proof. intros S ([out U] & R & (raw & M & G)). split_and!; [exists out; auto|auto|exists raw; auto]. Qed.

(** ** The programs *)

Lemma hwp_move_branch h :
  GitIdentity_Validate author = Ok tt -> file_reserved h -> index_locked h -> index_unchanged h -> branch_unchanged h ->
  hwp W (move_branch p author) h made_true.
Proof.
  intros V R L I B. unfold move_branch, not_made, gitCommand. apply hwp_bind, hwp_bind. split; [done|]. intros [raw|]; [|apply made_err].
  cbn [hwp mret prog_ret given]. destruct (gitOID (TrimSpace raw)) eqn:G; [|apply made_err]. cbn [negb].
  set (h1 := Asked _ _ :: h). assert (M : commit_made h1 (TrimSpace raw)) by (exists raw; split_and!; [by left|done|done]).
  assert (S : h ⊆ h1) by (intros z Hz; by right).
  apply hwp_bind, hwp_bind. split.
  - intros _. exists (TrimSpace raw). split; [done|]. destruct I as (x & I & X), B as (r & B & E).
    split; [done|by apply S|by apply S|exists x; auto|exists r; auto|done].
  - intros [out|]; [|apply made_err]. cbn [hwp mret prog_ret given]. apply hwp_bind. split; [done|]. intros [e|]; [apply made_err|].
    apply hwp_bind. split; [done|]. intros [e|]; [apply made_err|]. intros _. split_and!.
    + exists out. right. right. by left.
    + by left.
    + destruct M as (raw' & M & E). exists raw'. split; [|done]. by do 3 right.
Qed.
Lemma hwp_stage_entries now x h :
  GitIdentity_Validate author = Ok tt -> file_reserved h -> index_locked h -> index_unchanged h -> branch_unchanged h ->
  hwp W (stage_entries p now x author) h made_true.
Proof.
  intros V R L I B. unfold stage_entries, not_made.
  apply hwp_keeps; [apply quiet_merged_index|]. intros n1 [u|e]; [|apply made_err].
  apply hwp_keeps; [apply quiet_index_entries|]. intros n2 [entries|e]; [|apply made_err].
  apply hwp_keeps; [by apply quiet_gitCommand|]. intros n3 [out|e]; [|apply made_err].
  apply hwp_bind. split; [done|]. intros [[data|]|e]; [|apply made_err|apply made_err].
  unfold unless_made. apply hwp_bind. split; [done|]. intros [e|]; [apply made_err|]. apply hwp_bind. split; [done|]. intros [e|]; [apply made_err|].
  set (h' := Asked (ESync _) _ :: _). assert (S : h ⊆ h') by (intros z Hz; unfold h'; rewrite !elem_of_cons, !elem_of_app; tauto).
  destruct I as (y & I & Y), B as (r & B & E).
  apply hwp_move_branch; [done|by apply S|by apply S|exists y; auto|exists r; auto].
Qed.
Lemma hwp_locked_apply h : GitIdentity_Validate author = Ok tt -> file_reserved h -> index_locked h -> hwp W (locked_apply p author) h made_true.
Proof.
  intros V R L. unfold locked_apply, readIndex, attempt. apply hwp_bind, hwp_bind. split; [done|]. intros [x|e]; [|apply made_err].
  cbn [hwp mret prog_ret given]. set (h1 := Asked (EReadFile _) _ :: h).
  assert (K : forall b y, x = (if y : bool then Some b else None) -> (y = false -> b = "") ->
                hwp W (if Bool.eqb y (cp_indexExists p) && String.eqb b (cp_indexBytes p)
                      then ref ← git_read (cp_root p) ["symbolic-ref"; "--quiet"; "HEAD"];
                           match ref with
                           | Ok r => if String.eqb (TrimSpace r) (cp_ref p) then stage_entries p b y author else mret ("", Some "当前分支已变化，未提交")
                           | Err _ => mret ("", Some "当前分支已变化，未提交")
                           end
                      else mret ("", Some "等待授权期间暂存区已变化，未提交")) h1 made_true).
  { intros b y -> Z. destruct (Bool.eqb y (cp_indexExists p) && String.eqb b (cp_indexBytes p)) eqn:E; [|apply made_err].
    apply andb_prop in E as [E1 E2]. apply Bool.eqb_prop in E1 as ->. apply String.eqb_eq in E2.
    apply hwp_bind, hwp_bind. split; [done|]. intros [r|]; [|apply made_err]. cbn [hwp mret prog_ret given].
    destruct (String.eqb (TrimSpace r) (cp_ref p)) eqn:F; [|apply made_err]. apply String.eqb_eq in F.
    apply hwp_stage_entries; [done|by do 2 right|by do 2 right| |].
    - eexists. split; [right; by left|]. destruct (cp_indexExists p); [done|]. split; [done|]. rewrite <- E2. by apply Z.
    - exists r. split; [by left|done]. }
  destruct x as [b|]; [by apply (K b true)|by apply (K "" false)].
Qed.
Lemma hwp_apply h : file_reserved h -> hwp W (commitPlan_apply p author) h made_true.
Proof.
  intros R. unfold commitPlan_apply. destruct (GitIdentity_Validate author) as [[]|e] eqn:V; [|apply made_err].
  apply hwp_bind. split; [done|]. intros [e|]; [apply made_err|]. eapply hwp_call; [apply hwp_locked_apply; [done|by right|by left]|].
  intros h' m M. apply hwp_bind. split; [done|]. intros []. apply hwp_bind. split; [done|]. intros x N.
  eapply commit_done_mono; [|by apply M]. intros z Hz. by do 2 right.
Qed.
Lemma hwp_finish_commit : hwp W (finish_commit dir id p author) [] receipt_true.
Proof.
  unfold finish_commit. assert (Er : forall h e, receipt_true h (Err e)) by (by intros h e r).
  apply (hwp_call _ _ _ _ receipt_true).
  - unfold reserve_file, attempt, unless_error. apply hwp_bind, hwp_bind. split; [done|]. intros [e|]; [apply Er|].
    apply hwp_bind. split; [done|]. intros wrote.
    assert (T : forall h, file_reserved h -> hwp W
              (m ← commitPlan_apply p author; (let last := final_receipt (open_receipt id p author) m in
                _ ← replace_receipt dir (receipt_path dir id) (marshal (commit_receipt_json last)); given (Ok last))) h receipt_true).
    { intros h R. eapply hwp_call; [by apply hwp_apply|]. intros h' m M. cbn zeta. apply hwp_keeps; [apply quiet_replace_receipt|]. intros new _ r E.
      injection E as <-. unfold final_receipt. destruct m as [hash [e|]]; cbn; split_and!; auto; [discriminate|]. intros _.
      eapply commit_done_mono; [|by apply M]. intros z Hz. apply elem_of_app. by right. }
    destruct wrote as [e|]; cbn [hwp mret mbind prog_bind prog_ret].
    + apply hwp_bind. split; [done|]. intros closed. apply Er.
    + split; [done|]. intros [e|]; cbn [hwp mret mbind prog_bind prog_ret]; (split; [done|]); intros [e'|]; try apply Er. apply T. by do 3 right; left.
  - intros h x X. apply hwp_bind. split; [done|]. intros [] r E. destruct (X r E) as (A1 & A2 & A3 & A4 & A5). split_and!; try done. intros C.
    eapply commit_done_mono; [|by apply A5]. intros z Hz. by right.
Qed.
End commit.

(** ** What was shown *)

Record plan_true (root : string) (i : CommitInput) (h : history) (p : commitPlan) : Prop := mk_plan_true
  { pt_input : cp_root p = root /\ cp_input p = i /\ CommitInput_Validate i = Ok tt;
    pt_base : cp_base p = ci_ExpectedHead i \/ (cp_base p = "" /\ ci_ExpectedHead i = "unborn");
    pt_fresh : exists out, Asked (EGitRepo root (Join (cp_temp p) "snapshot-index") "" None (read_base (cp_base p))) (Some out) ∈ h;
    pt_added : exists out, Asked (EGitRepo root (Join (cp_temp p) "snapshot-index") "" None (["add"; "-A"; "--"] ++ ci_Paths i)) (Some out) ∈ h;
    pt_shown : exists raw diff,
      Asked (EGitRepo root (Join (cp_temp p) "snapshot-index") "" None ["write-tree"]) (Some raw) ∈ h /\ TrimSpace raw = cp_tree p
      /\ Asked (EGitRepo root (Join (cp_temp p) "snapshot-index") "" None ["diff"; "--cached"; "--no-ext-diff"; "--no-textconv"; "--stat"]) (Some diff) ∈ h
      /\ diff <> "" /\ cp_summary p = plan_summary (cp_ref p) i (cp_tree p) diff }.
Definition anything (_ : history) (_ : eff) : Prop := True.
Lemma hwp_any {A B} (m : prog A) (f : A -> prog B) h Q : (forall new a, hwp anything (f a) (new ++ h) Q) -> hwp anything (m ≫= f) h Q.
Proof.
  intros F. eapply (hwp_call _ _ _ _ (fun h' _ => exists new, h' = new ++ h)); [|by intros h' a [new ->]].
  clear F. revert h. induction m as [a|e k IH]; intros h; [by exists []|]. split; [done|]. intros x. eapply hwp_mono; [apply IH|].
  intros h' a [new ->]. exists (new ++ [Asked e x]). by rewrite <- app_assoc.
Qed.
Section prepare.
Context (root : string) (i : CommitInput).
Definition ok_plan (h : history) (x : result verr commitPlan) : Prop := forall p, x = Ok p -> plan_true root i h p.
Lemma ok_plan_err h e : ok_plan h (Err e).
Proof. by intros p. Qed.
Lemma hwp_any_try {A} (m : prog (result verr A)) k h : (forall new a, hwp anything (k a) (new ++ h) ok_plan) -> hwp anything (attempt m k) h ok_plan.
Proof. intros K. apply hwp_any. intros new [a|e]; [apply K|apply ok_plan_err]. Qed.
Lemma hwp_any_demand b e k h : (b = true -> hwp anything k h ok_plan) -> hwp anything (demand b e k) h ok_plan.
Proof. destruct b; intros K; [by apply K|apply ok_plan_err]. Qed.
Definition shot_ok (temp base : string) (h : history) (x : result verr (string * string)) : Prop :=
  forall shot, x = Ok shot -> exists raw out fresh,
    Asked (EGitRepo root (Join temp "snapshot-index") "" None (read_base base)) (Some fresh) ∈ h
    /\ Asked (EGitRepo root (Join temp "snapshot-index") "" None (["add"; "-A"; "--"] ++ ci_Paths i)) (Some out) ∈ h
    /\ Asked (EGitRepo root (Join temp "snapshot-index") "" None ["write-tree"]) (Some raw) ∈ h /\ TrimSpace raw = shot.1
    /\ Asked (EGitRepo root (Join temp "snapshot-index") "" None ["diff"; "--cached"; "--no-ext-diff"; "--no-textconv"; "--stat"]) (Some shot.2) ∈ h
    /\ shot.2 <> "".
Lemma hwp_snapshot temp base h : hwp anything (snapshot root temp base (ci_Paths i)) h (shot_ok temp base).
Proof.
  assert (Er : forall h e, shot_ok temp base h (Err e)) by by intros ? ? ?.
  unfold snapshot, gitCommand, attempt. apply hwp_bind, hwp_bind. split; [done|]. intros [o1|]; [|apply Er]. cbn [hwp mret prog_ret given].
  apply hwp_bind, hwp_bind. split; [done|]. intros [o2|]; [|apply Er]. cbn [hwp mret prog_ret given].
  apply hwp_bind, hwp_bind. split; [done|]. intros [raw|]; [|apply Er]. cbn [hwp mret prog_ret given].
  apply hwp_bind, hwp_bind. split; [done|]. intros [diff|]; [|apply Er]. cbn [hwp mret prog_ret given].
  unfold demand. destruct (String.eqb diff "") eqn:D; [apply Er|]. apply String.eqb_neq in D. intros shot E. injection E as <-. exists raw, o2, o1.
  split_and!; [do 3 right; by left|right; right; by left|right; by left|done|by left|done].
Qed.
Lemma hwp_base h (Q := fun (_ : history) x => forall b, x = Ok b -> b = ci_ExpectedHead i \/ (b = "" /\ ci_ExpectedHead i = "unborn")) :
  hwp anything (expected_base root i) h Q.
Proof.
  unfold expected_base. apply hwp_any. intros new [b|e]; unfold demand; case_match eqn:E; try by intros ? ?.
  - apply String.eqb_eq in E. intros b' X. injection X as <-. by left.
  - apply String.eqb_eq in E. intros b' X. injection X as <-. by right.
Qed.
Lemma hwp_prepareCommit h : hwp anything (prepareCommit root i) h ok_plan.
Proof.
  unfold prepareCommit. destruct (CommitInput_Validate i) as [[]|e] eqn:V; [|apply ok_plan_err]. unfold attempt at 1. cbn [given mret prog_ret mbind prog_bind].
  apply hwp_any. intros n1 top. apply hwp_any_demand. intros _. apply hwp_any. intros n2 [ref|e]; [|apply ok_plan_err]. apply hwp_any_demand. intros _.
  eapply hwp_call; [apply hwp_base|]. intros h1 [base|e] B; [|apply ok_plan_err].
  apply hwp_any_try. intros n3 index. apply hwp_any_try. intros n4 _. apply hwp_any_try. intros n5 now.
  apply hwp_any. intros n6 unmerged. apply hwp_any_demand. intros _. apply hwp_any_try. intros n7 _. apply hwp_any_try. intros n8 temp.
  unfold cleaning. eapply (hwp_call _ _ _ _ ok_plan).
  - eapply hwp_call; [apply hwp_snapshot|]. intros h2 [[tree diff]|e] S; [|apply ok_plan_err]. cbn [fst snd]. apply hwp_any_demand. intros _ p E. injection E as <-.
    destruct (S _ eq_refl) as (raw & out & fresh & Fr & A & T & R & D & N). split; cbn; [done|by apply B|by exists fresh|by exists out|by exists raw, diff].
  - intros h2 [p|e] P; [exact P|]. by split.
Qed.
End prepare.

(** C21: a commit is what was shown, under the name that was given.  A plan holds the
    files that were asked for and no other, on the commit that was expected; what the
    sender is shown names the branch, the commit, the snapshot and the files of the
    plan.  Once a name was given, and whatever the outside answers, the only move of
    a branch is one from the commit of the plan to a commit of its tree, with that
    name; and before it the receipt's file was new, the index was locked, the index
    and the branch were as when the plan was made.  A receipt says completed only
    when the branch was moved and the index put in place. *)
Theorem commit_is_what_was_shown (o o' : machine) root dir id author i p :
  (run o (prepareCommit root i) []).2 = Ok p ->
  let h := (run o' (finish_commit dir id p author) []).1 in
  plan_true root i (run o (prepareCommit root i) []).1 p
  /\ (forall after e x before, h = after ++ Asked e x :: before -> moves_branch e = true ->
        exists hash, e = branch_move p author hash /\ commit_grounds dir id p author before hash)
  /\ receipt_true id p author h (run o' (finish_commit dir id p author) []).2.
Proof.
  intros E. destruct (hwp_run anything o (prepareCommit root i) [] _ (hwp_prepareCommit root i []) I) as [_ P].
  destruct (hwp_run _ o' (finish_commit dir id p author) [] _ (hwp_finish_commit dir id p author) I) as [L R].
  split_and!; [by apply P| |exact R]. intros after e x before X M. cbn zeta in X. rewrite X in L. exact (allowed_split _ _ _ _ _ L M).
Qed.

(** A checkout where all goes well. *)
Definition demo_head : string := of_bytes (replicate 40 "d"%char).
Definition demo_tree : string := of_bytes (replicate 40 "e"%char).
Definition demo_hash : string := of_bytes (replicate 40 "f"%char).
Definition demo_commit_input : CommitInput := mkCommitInput "Fix the reader" ["src/reader.go"] demo_head.
Definition demo_author : GitIdentity := mkGitIdentity "Alice" "alice@example.org".
Definition demo_git (args : list string) : string :=
  match args with
  | "symbolic-ref" :: _ => "refs/heads/main" +:+ nl
  | ["rev-parse"; "--show-toplevel"] => "/work" +:+ nl
  | ["rev-parse"; "--verify"; _] => demo_head +:+ nl
  | "rev-parse" :: _ => ".git/x" +:+ nl
  | "write-tree" :: _ => demo_tree +:+ nl
  | "diff" :: _ => " 1 file changed"
  | "commit-tree" :: _ => demo_hash +:+ nl
  | _ => ""
  end.
Definition demo_checkout : machine := fun _ e =>
  match e return ans e with
  | EGitRepo _ _ _ _ args => Some (demo_git args)
  | EReadFile path => if String.eqb path "/tmp/c/merged-index" then Ok (Some "merged") else Ok (Some "index")
  | EStatPath _ _ => StMissing
  | ETemp _ | ETempFile _ _ => Ok "/tmp/c"
  | EOpen | EUpdate _ _ | ECancelled | EWrite _ _ | ERoot _ | EFile _ _
  | EMkdirAll _ | EExclusive _ | EAppend _ _ | ESync _ | EClose _ | ERename _ _ => None
  | EQuery _ => Ok None
  | ERecent => Ok []
  | EInsert _ _ _ => Ok 1
  | EClock => 0
  | EToken | EExecutable | EGit _ _ _ _ => Ok ""
  | EGet _ _ => GotMissing
  | ERemove _ => tt
  | ELark _ _ => ("", None)
  | EXml _ => Ok []
  | EStat _ _ => Ok (true, 0)
  | ERead _ _ _ | ETool _ _ => Ok ""
  | EGitHub => ""
  end.
Definition demo_plan : commitPlan :=
  mkCommitPlan "/work" "/tmp/c" "/work/.git/x" "refs/heads/main" demo_head demo_tree
    (plan_summary "refs/heads/main" demo_commit_input demo_tree " 1 file changed") demo_commit_input "index" true.
Lemma commit_is_what_was_shown_witness :
  (run demo_checkout (prepareCommit "/work" demo_commit_input) []).2 = Ok demo_plan
  /\ commit_done_in demo_plan demo_author (run demo_checkout (finish_commit "/receipts" "id" demo_plan demo_author) []).1 demo_hash.
Proof.
  assert (E : (run demo_checkout (prepareCommit "/work" demo_commit_input) []).2 = Ok demo_plan) by (vm_compute; reflexivity).
  split; [exact E|].
  destruct (commit_is_what_was_shown demo_checkout demo_checkout "/work" "/receipts" "id" demo_author demo_commit_input demo_plan E) as (_ & _ & R).
  assert (F : (run demo_checkout (finish_commit "/receipts" "id" demo_plan demo_author) []).2
              = Ok (mkCommitReceipt "id" "completed" demo_hash "refs/heads/main" demo_author "")) by (vm_compute; reflexivity).
  exact (proj2 (proj2 (proj2 (proj2 (R _ F)))) eq_refl).
Defined.
