(* ===== verification/Workspace.v ===== *)
(** * Workspaces of remote members ([internal/workgroup/workspace.go])

    A member's machine works on a copy of the project and sends back what it
    changed.  A snapshot is a list of files ordered by path; changes name the hash
    of what they replace, so that they apply only to what they were made for. *)
From S2P Require Import Prelude GoStrings Sha256 Json RoomTypes Ports GoUrl ResourceRequest Workgroup WorkgroupRun.

(** ** Data *)

Definition WorkspaceLimit : Z := Z.shiftl 32 20.
Definition WorkspaceFileLimit : Z := 10000.
#[export] Instance WorkspaceFile_eq_dec : EqDecision WorkspaceFile.
Proof. solve_decision. Defined.
#[export] Instance WorkspaceChange_eq_dec : EqDecision WorkspaceChange.
Proof. solve_decision. Defined.
(** [WorkspaceSnapshot] *)
Definition Snapshot : Type := list WorkspaceFile.
Definition private_parts : list string := [".git"; ".agent_room"; "node_modules"; ".ssh"; ".aws"; ".npmrc"; ".env"; "__pycache__"].
(** [fs.ValidPath] *)
Definition valid_path (p : string) : bool :=
  utf8_valid p && (String.eqb p "." || forallb (fun e => negb (existsb (String.eqb e) [""; "."; ".."])) (Split "/" p)).
Definition workspacePath (p : string) : bool :=
  negb (String.eqb p "") && valid_path p && negb (GoUrl.Contains p "\") && negb (ContainsAny p [0; 13; 10])
  && forallb (fun e => negb (existsb (String.eqb e) private_parts || HasPrefix e ".env.")) (Split "/" p).
Definition fileHash (f : WorkspaceFile) : string :=
  sha256_hex (wf_Data f +:+ String (chr (if wf_Executable f then 1 else 0)) "").

(** ** Snapshots *)

(** The directories above a path, the nearest first. *)
Fixpoint directories (fuel : nat) (p : string) : list string :=
  match fuel with
  | O => []
  | S n => let d := Dir p in if String.eqb d "." then [] else d :: directories n d
  end.
Definition above (p : string) : list string := directories (String.length p) p.
Fixpoint check_files (seen : list string) (total : Z) (files : list WorkspaceFile) : result verr unit :=
  match files with
  | [] => Ok tt
  | f :: r =>
      let total := total + len (wf_Data f) in
      if negb (workspacePath (wf_Path f)) || Workgroup.in_list (wf_Path f) seen || (WorkspaceLimit <? total)
      then Err ("无效项目文件或快照超过 32 MiB：" +:+ wf_Path f)
      else check_files (wf_Path f :: seen) total r
  end.
(** [Validate]; of several paths in conflict the first is named. *)
Definition Snapshot_Validate (s : Snapshot) : result verr unit :=
  if WorkspaceFileLimit <? Z.of_nat (length s) then Err "项目文件超过 10000 个" else
  let? _ := check_files [] 0 s in
  match List.find (fun f => existsb (fun d => Workgroup.in_list d (wf_Path <$> s)) (above (wf_Path f))) s with
  | Some f => Err ("文件路径冲突：" +:+ wf_Path f)
  | None => Ok tt
  end.
(** By path; of two files with one path the later. *)
Definition by_path (s : Snapshot) : gmap string WorkspaceFile := list_to_map (reverse ((fun f => (wf_Path f, f)) <$> s)).
Definition text_le (a b : string) : Prop := str_ltb b a = false.
Definition text_lt (a b : string) : Prop := str_ltb a b = true.
Definition file_le (a b : WorkspaceFile) : Prop := text_le (wf_Path a) (wf_Path b).
Definition change_le (a b : WorkspaceChange) : Prop := text_le (wf_Path (wc_File a)) (wf_Path (wc_File b)).
#[export] Instance text_le_dec : RelDecision text_le.
Proof. intros a b. unfold text_le. apply _. Defined.
#[export] Instance file_le_dec : RelDecision file_le.
Proof. intros a b. unfold file_le. apply _. Defined.
#[export] Instance change_le_dec : RelDecision change_le.
Proof. intros a b. unfold change_le. apply _. Defined.
Definition in_order (m : gmap string WorkspaceFile) : Snapshot := merge_sort file_le (map_to_list m).*2.

(** ** Differences *)

Definition added (f : WorkspaceFile) : WorkspaceChange := {| wc_File := f; wc_Before := ""; wc_Delete := false |}.
Definition replaced (old f : WorkspaceFile) : WorkspaceChange := {| wc_File := f; wc_Before := fileHash old; wc_Delete := false |}.
Definition removed_file (f : WorkspaceFile) : WorkspaceChange :=
  {| wc_File := {| wf_Path := wf_Path f; wf_Data := ""; wf_Executable := false |}; wc_Before := fileHash f; wc_Delete := true |}.
Fixpoint diff_from (before : gmap string WorkspaceFile) (after : Snapshot) : list WorkspaceChange :=
  match after with
  | [] => removed_file <$> (map_to_list before).*2
  | f :: r =>
      match before !! wf_Path f with
      | None => [added f]
      | Some old => if String.eqb (fileHash old) (fileHash f) then [] else [replaced old f]
      end ++ diff_from (delete (wf_Path f) before) r
  end.
Definition WorkspaceDiff (base after : Snapshot) : list WorkspaceChange := merge_sort change_le (diff_from (by_path base) after).

(** ** Changes *)

Definition hash_at (files : gmap string WorkspaceFile) (p : string) : string :=
  match files !! p with Some f => fileHash f | None => "" end.
Fixpoint apply_from (seen : list string) (files : gmap string WorkspaceFile) (changes : list WorkspaceChange) : result verr (gmap string WorkspaceFile) :=
  match changes with
  | [] => Ok files
  | c :: r =>
      let p := wf_Path (wc_File c) in
      if negb (workspacePath p) || Workgroup.in_list p seen then Err ("无效或重复变更路径：" +:+ p) else
      if negb (String.eqb (hash_at files p) (wc_Before c)) then Err ("工作副本冲突：" +:+ p +:+ " 的基线已变化") else
      if wc_Delete c then
        if bool_decide (files !! p = None) || (0 <? len (wf_Data (wc_File c))) then Err ("无效删除：" +:+ p)
        else apply_from (p :: seen) (delete p files) r
      else apply_from (p :: seen) (<[p := wc_File c]> files) r
  end.
Definition ApplyWorkspaceChanges (base : Snapshot) (changes : list WorkspaceChange) : result verr Snapshot :=
  if WorkspaceFileLimit <? Z.of_nat (length changes) then Err "变更文件过多" else
  let? files := apply_from [] (by_path base) changes in
  let out := in_order files in
  let? _ := Snapshot_Validate out in Ok out.

Example workspace_paths : workspacePath "src/a.go" = true /\ workspacePath "../a" = false /\ workspacePath "x/.env.local" = false /\ workspacePath ".git/config" = false.
Proof. by vm_compute. Qed.

(** ** Order *)

#[export] Instance text_lt_trans : Transitive text_lt.
Proof. intros a b c. apply str_ltb_trans. Qed.
#[export] Instance text_le_trans : Transitive text_le.
Proof.
  intros a b c Hab Hbc. unfold text_le in *. destruct (str_ltb c a) eqn:E; [|done].
  destruct (str_ltb b c) eqn:F; [by rewrite (str_ltb_trans _ _ _ F E) in Hab|]. by rewrite (str_ltb_total _ _ F Hbc), E in Hab.
Qed.
#[export] Instance text_le_total : Total text_le.
Proof.
  intros a b. unfold text_le. destruct (str_ltb b a) eqn:E; [|by left]. right. destruct (str_ltb a b) eqn:F; [|done].
  pose proof (str_ltb_trans _ _ _ E F) as G. by rewrite str_ltb_irrefl in G.
Qed.
#[export] Instance file_le_trans : Transitive file_le.
Proof. intros a b c. apply text_le_trans. Qed.
#[export] Instance file_le_total : Total file_le.
Proof. intros a b. apply text_le_total. Qed.
Lemma text_le_eq a b : text_le a b -> text_le b a -> a = b.
Proof. intros H1 H2. by apply str_ltb_total. Qed.
Definition sorted_files (s : Snapshot) : Prop := StronglySorted (fun a b => text_lt (wf_Path a) (wf_Path b)) s.
Lemma sorted_files_NoDup s : sorted_files s -> NoDup (wf_Path <$> s).
Proof.
  induction 1 as [|f s H IH F]; [constructor|]. cbn. constructor; [|done]. intros (g & E & Hg)%list_elem_of_fmap.
  rewrite Forall_forall in F. specialize (F g Hg). unfold text_lt in F. rewrite E in F. by rewrite str_ltb_irrefl in F.
Qed.
Lemma by_path_lookup s p f : NoDup (wf_Path <$> s) -> by_path s !! p = Some f <-> f ∈ s /\ wf_Path f = p.
Proof.
  intros N. unfold by_path. set (l := (fun f => (wf_Path f, f)) <$> s). assert (Nl : NoDup (reverse l).*1).
  { rewrite fmap_reverse, reverse_Permutation. unfold l. rewrite <- list_fmap_compose. exact N. }
  rewrite <- elem_of_list_to_map by done. rewrite elem_of_reverse. unfold l. rewrite list_elem_of_fmap. split.
  - intros (g & [= -> ->] & H). done.
  - intros [H <-]. by exists f.
Qed.
(** A snapshot in order is the list of its map. *)
Lemma in_order_by_path s : sorted_files s -> in_order (by_path s) = s.
Proof.
  intros S. pose proof (sorted_files_NoDup s S) as N. unfold in_order. apply (StronglySorted_unique_strong file_le).
  - intros x y Hx Hy H1 H2. rewrite merge_sort_Permutation in Hx. apply list_elem_of_fmap in Hx as ([p z] & -> & Hx). cbn in *.
    apply elem_of_map_to_list, by_path_lookup in Hx as [Hx Ex]; [|done]. pose proof (text_le_eq _ _ H1 H2) as E.
    assert (A : by_path s !! wf_Path z = Some z) by by apply by_path_lookup. assert (B : by_path s !! wf_Path z = Some y) by (apply by_path_lookup; [done|by rewrite E]).
    congruence.
  - apply StronglySorted_merge_sort; apply _.
  - induction S as [|f s S IH F]; [constructor|]. constructor; [apply IH; by inversion N|]. eapply Forall_impl; [exact F|]. intros g G. unfold file_le, text_le, text_lt in *.
    destruct (str_ltb (wf_Path g) (wf_Path f)) eqn:E; [|done]. pose proof (str_ltb_trans _ _ _ G E) as X. by rewrite str_ltb_irrefl in X.
  - rewrite merge_sort_Permutation. apply NoDup_Permutation.
    + apply (NoDup_fmap_1 wf_Path). rewrite <- list_fmap_compose. rewrite (list_fmap_ext _ fst).
      * apply NoDup_fst_map_to_list.
      * intros j [p f] H%list_elem_of_lookup_2. apply elem_of_map_to_list, by_path_lookup in H as [_ <-]; done.
    + by apply NoDup_fmap_1 in N.
    + intros f. rewrite list_elem_of_fmap. split.
      * intros ([p g] & -> & H). by apply elem_of_map_to_list, by_path_lookup in H as [H _].
      * intros H. exists (wf_Path f, f). split; [done|]. by apply elem_of_map_to_list, by_path_lookup.
Qed.

(** ** What applying does *)

Definition change_path (c : WorkspaceChange) : string := wf_Path (wc_File c).
Definition change_at (cs : list WorkspaceChange) (p : string) : option WorkspaceChange := List.find (fun c => String.eqb (change_path c) p) cs.
(** The file that a change leaves at its path. *)
Definition leaves (c : WorkspaceChange) : option WorkspaceFile := if wc_Delete c then None else Some (wc_File c).
(** A change that applies: its path may be written, and it was made for what is
    there. *)
Record fits (files : gmap string WorkspaceFile) (c : WorkspaceChange) : Prop := mk_fits
  { ft_path : workspacePath (change_path c) = true;
    ft_before : hash_at files (change_path c) = wc_Before c;
    ft_delete : wc_Delete c = true -> files !! change_path c <> None /\ wf_Data (wc_File c) = "" }.
Definition applied (files : gmap string WorkspaceFile) (cs : list WorkspaceChange) (p : string) : option WorkspaceFile :=
  match change_at cs p with Some c => leaves c | None => files !! p end.
Lemma in_list_path s l : Workgroup.in_list s l = true <-> s ∈ l.
Proof.
  unfold Workgroup.in_list. rewrite existsb_exists. split.
  - intros (x & H & E%String.eqb_eq). subst. by apply list_elem_of_In.
  - intros H. exists s. split; [by apply list_elem_of_In|apply String.eqb_refl].
Qed.
Lemma not_in_list s l : Workgroup.in_list s l = false <-> s ∉ l.
Proof. rewrite <- in_list_path. by destruct (Workgroup.in_list s l). Qed.
Lemma change_at_cons c cs p : change_at (c :: cs) p = if String.eqb (change_path c) p then Some c else change_at cs p.
Proof. done. Qed.
Lemma change_at_None cs p : change_at cs p = None <-> p ∉ change_path <$> cs.
Proof.
  unfold change_at. induction cs as [|c cs IH]; cbn; [split; [intros _; apply not_elem_of_nil|done]|].
  destruct (String.eqb_spec (change_path c) p) as [<-|N]; [split; [done|intros H; exfalso; apply H; by left]|]. rewrite IH, not_elem_of_cons. split; [|tauto]. intros H. split; [congruence|done].
Qed.
Lemma change_at_Some cs p c : NoDup (change_path <$> cs) -> change_at cs p = Some c <-> c ∈ cs /\ change_path c = p.
Proof.
  unfold change_at. induction cs as [|d cs IH]; cbn; intros N; [split; [done|by intros [?%not_elem_of_nil _]]|].
  apply NoDup_cons in N as [Nd N]. destruct (String.eqb_spec (change_path d) p) as [<-|E]; split.
  - intros [= <-]. split; [by left|done].
  - intros [[-> |H]%elem_of_cons E]; [done|]. exfalso. apply Nd. rewrite <- E. by apply list_elem_of_fmap_2.
  - rewrite IH by done. intros [H <-]. split; [by right|done].
  - rewrite IH by done. intros [[-> |H]%elem_of_cons E']; [done|]. done.
Qed.
Lemma applied_cons files c cs p : ~ change_path c ∈ change_path <$> cs ->
  applied match leaves c with Some f => <[change_path c := f]> files | None => delete (change_path c) files end cs p = applied files (c :: cs) p.
Proof.
  intros N. unfold applied. rewrite change_at_cons. destruct (String.eqb_spec (change_path c) p) as [<-|E].
  - rewrite (proj2 (change_at_None cs (change_path c)) N). destruct (leaves c); [by rewrite lookup_insert_eq|by rewrite lookup_delete_eq].
  - destruct (change_at cs p); [done|]. destruct (leaves c); [by rewrite lookup_insert_ne|by rewrite lookup_delete_ne].
Qed.
Lemma fits_other files c d x : change_path d <> change_path c ->
  fits match (x : option WorkspaceFile) with Some f => <[change_path c := f]> files | None => delete (change_path c) files end d <-> fits files d.
Proof.
  intros N. assert (E : match x with Some f => <[change_path c := f]> files | None => delete (change_path c) files end !! change_path d = files !! change_path d).
  { destruct x; [by rewrite lookup_insert_ne|by rewrite lookup_delete_ne]. }
  split; intros [P B D]; split; try done; unfold hash_at in *; rewrite ?E in *; done.
Qed.
Definition after_change (files : gmap string WorkspaceFile) (c : WorkspaceChange) : gmap string WorkspaceFile :=
  match leaves c with Some f => <[change_path c := f]> files | None => delete (change_path c) files end.
Lemma apply_from_cons seen files c cs out :
  apply_from seen files (c :: cs) = Ok out <-> change_path c ∉ seen /\ fits files c /\ apply_from (change_path c :: seen) (after_change files c) cs = Ok out.
Proof.
  cbn [apply_from]. fold (change_path c). rewrite <- not_in_list. unfold after_change, leaves.
  destruct (workspacePath (change_path c)) eqn:P, (Workgroup.in_list (change_path c) seen) eqn:S; cbn [negb orb]; try (split; [done|intros (? & [] & ?); congruence]).
  destruct (String.eqb_spec (hash_at files (change_path c)) (wc_Before c)) as [B|B]; cbn [negb]; [|split; [done|intros (? & [] & ?); done]].
  destruct (wc_Delete c) eqn:D; [|split; [intros H; split_and!; [done|constructor; [done|done|congruence]|done]|by intros (_ & _ & H)]].
  case_bool_decide as L; cbn [orb]; [split; [done|intros (_ & [_ _ H] & _); by destruct (H D)]|].
  destruct (Z.ltb_spec 0 (len (wf_Data (wc_File c)))) as [Z0|Z0].
  - split; [done|]. intros (_ & [_ _ H] & _). destruct (H D) as [_ E]. rewrite E in Z0. by vm_compute in Z0.
  - split; [|by intros (_ & _ & H)]. intros H. split_and!; [done| |done]. constructor; [done|done|]. intros _. split; [done|].
    destruct (wf_Data (wc_File c)); [done|]. unfold len in Z0. cbn in Z0. lia.
Qed.
(** Applying succeeds exactly when the changes have paths of their own and each was
    made for what is there; the result is what they leave. *)
Lemma apply_from_spec seen files cs out :
  apply_from seen files cs = Ok out <->
  NoDup (change_path <$> cs) /\ (forall p, p ∈ change_path <$> cs -> p ∉ seen) /\ (forall c, c ∈ cs -> fits files c)
  /\ forall p, out !! p = applied files cs p.
Proof.
  revert seen files. induction cs as [|c cs IH]; intros seen files.
  { cbn. split; [intros [= ->]; split_and!; [constructor|intros p []%not_elem_of_nil|intros c []%not_elem_of_nil|done]|].
    intros (_ & _ & _ & H). f_equal. apply map_eq. intros p. by rewrite H. }
  rewrite apply_from_cons, IH. cbn [fmap list_fmap]. rewrite NoDup_cons. split.
  - intros (S & Fc & N & Sn & F & O). assert (Nc : change_path c ∉ change_path <$> cs) by (intros H; apply (Sn _ H); by left).
    split_and!; [done|done| | |].
    + intros p [-> |H]%elem_of_cons; [done|]. specialize (Sn p H). by apply not_elem_of_cons in Sn as [_ ?].
    + intros d [-> |H]%elem_of_cons; [done|]. apply (fits_other files c d (leaves c)); [|by apply F]. intros E. apply Nc. rewrite <- E. by apply list_elem_of_fmap_2.
    + intros p. rewrite O. by apply applied_cons.
  - intros ([Nc N] & Sn & F & O). split_and!; [apply Sn; by left|apply F; by left|done| | |].
    + intros p H. apply not_elem_of_cons. split; [intros ->; done|]. apply Sn. by right.
    + intros d H. apply (fits_other files c d (leaves c)); [|apply F; by right]. intros E. apply Nc. rewrite <- E. by apply list_elem_of_fmap_2.
    + intros p. rewrite O. symmetry. by apply applied_cons.
Qed.

(** ** Differences apply *)

Definition no_collision (base after : Snapshot) : Prop :=
  forall f g, f ∈ base -> g ∈ after -> wf_Path f = wf_Path g -> fileHash f = fileHash g -> f = g.
(** What a change of the difference says, with what is left of the base. *)
Definition explains (before : gmap string WorkspaceFile) (after : Snapshot) (c : WorkspaceChange) : Prop :=
  (exists f, f ∈ after /\ before !! wf_Path f = None /\ c = added f)
  \/ (exists old f, f ∈ after /\ before !! wf_Path f = Some old /\ fileHash old <> fileHash f /\ c = replaced old f)
  \/ (exists old p, before !! p = Some old /\ p ∉ wf_Path <$> after /\ c = removed_file old).
Lemma diff_from_spec before after c : NoDup (wf_Path <$> after) -> c ∈ diff_from before after <-> explains before after c.
Proof.
  revert before. induction after as [|g after IH]; intros before N; cbn [diff_from].
  - rewrite list_elem_of_fmap. split.
    + intros (old & -> & ([p x] & -> & H)%list_elem_of_fmap). apply elem_of_map_to_list in H. right. right. exists x, p. split_and!; [done|apply not_elem_of_nil|done].
    + intros [(f & []%not_elem_of_nil & _)|[(? & f & []%not_elem_of_nil & _)|(old & p & H & _ & ->)]]. exists old. split; [done|].
      apply list_elem_of_fmap. exists (p, old). split; [done|]. by apply elem_of_map_to_list.
  - cbn in N. apply NoDup_cons in N as [Ng N]. rewrite elem_of_app, IH by done.
    assert (Other : forall f, f ∈ after -> wf_Path f <> wf_Path g) by (intros f Hf E; apply Ng; rewrite <- E; by apply list_elem_of_fmap_2).
    split.
    + intros [H|[(f & Hf & B & ->)|[(old & f & Hf & B & X & ->)|(old & p & B & Np & ->)]]].
      * destruct (before !! wf_Path g) as [old|] eqn:B; [|apply list_elem_of_singleton in H as ->; left; exists g; split_and!; [by left|done|done]].
        destruct (String.eqb_spec (fileHash old) (fileHash g)) as [E|E]; [by apply not_elem_of_nil in H|]. apply list_elem_of_singleton in H as ->.
        right. left. exists old, g. split_and!; [by left|done|done|done].
      * rewrite lookup_delete_ne in B by (intros E; by apply (Other f Hf)). left. exists f. split_and!; [by right|done|done].
      * rewrite lookup_delete_ne in B by (intros E; by apply (Other f Hf)). right. left. exists old, f. split_and!; [by right|done|done|done].
      * apply lookup_delete_Some in B as [E B]. right. right. exists old, p. split_and!; [done| |done]. cbn. by apply not_elem_of_cons.
    + intros [(f & [-> |Hf]%elem_of_cons & B & ->)|[(old & f & [-> |Hf]%elem_of_cons & B & X & ->)|(old & p & B & Np & ->)]].
      * left. rewrite B. by left.
      * right. left. exists f. split_and!; [done| |done]. rewrite lookup_delete_ne; [done|]. intros E. by apply (Other f Hf).
      * left. rewrite B. destruct (String.eqb_spec (fileHash old) (fileHash g)); [done|by left].
      * right. right. left. exists old, f. split_and!; [done| |done|done]. rewrite lookup_delete_ne; [done|]. intros E. by apply (Other f Hf).
      * right. right. right. cbn in Np. apply not_elem_of_cons in Np as [E Np]. exists old, p. split_and!; [|done|done]. by rewrite lookup_delete_ne.
Qed.

(** ** Valid snapshots *)

Fixpoint snapshot_size (s : Snapshot) : Z :=
  match s with
  | [] => 0
  | f :: r => len (wf_Data f) + snapshot_size r
  end.
Lemma check_files_ok seen total s : check_files seen total s = Ok tt ->
  NoDup (wf_Path <$> s) /\ (forall f, f ∈ s -> workspacePath (wf_Path f) = true /\ wf_Path f ∉ seen)
  /\ (s <> [] -> total + snapshot_size s <= WorkspaceLimit).
Proof.
  revert seen total. induction s as [|f s IH]; intros seen total; cbn [check_files].
  { intros _. split_and!; [constructor|by intros ? ?%not_elem_of_nil|done]. }
  destruct (workspacePath (wf_Path f)) eqn:P, (Workgroup.in_list (wf_Path f) seen) eqn:S; cbn [negb orb]; try done.
  destruct (Z.ltb_spec WorkspaceLimit (total + len (wf_Data f))) as [L|L]; [done|]. intros H.
  destruct (IH _ _ H) as (N & F & T). apply not_in_list in S. split_and!.
  - cbn. apply NoDup_cons. split; [|done]. intros (g & E & Hg)%list_elem_of_fmap. destruct (F g Hg) as [_ []]. rewrite <- E. by left.
  - intros g [-> |Hg]%elem_of_cons; [done|]. destruct (F g Hg) as [? ?%not_elem_of_cons]. tauto.
  - intros _. destruct s as [|g s]; [cbn; lia|]. specialize (T ltac:(done)). cbn [snapshot_size] in *. lia.
Qed.
Lemma validate_ok s : Snapshot_Validate s = Ok tt ->
  Z.of_nat (length s) <= WorkspaceFileLimit /\ NoDup (wf_Path <$> s) /\ (forall f, f ∈ s -> workspacePath (wf_Path f) = true)
  /\ snapshot_size s <= WorkspaceLimit
  /\ (forall f d, f ∈ s -> d ∈ above (wf_Path f) -> d ∉ wf_Path <$> s).
Proof.
  unfold Snapshot_Validate. destruct (Z.ltb_spec WorkspaceFileLimit (Z.of_nat (length s))) as [L|L]; [done|].
  destruct (check_files [] 0 s) as [[]|] eqn:C; cbn [result_bind]; [|done]. destruct (check_files_ok _ _ _ C) as (N & F & T).
  destruct (List.find _ s) as [|] eqn:X; [done|]. intros _. split_and!; [lia|done|intros f Hf; by apply F| |].
  - destruct s; [by vm_compute|]. specialize (T ltac:(done)). lia.
  - intros f d Hf Hd Hin. pose proof (List.find_none _ _ X f) as Y. cbn in Y.
    assert (E : existsb (fun d => Workgroup.in_list d (wf_Path <$> s)) (above (wf_Path f)) = true); [|specialize (Y ltac:(by apply list_elem_of_In)); congruence].
    apply existsb_exists. exists d. split; [by apply list_elem_of_In|]. by apply in_list_path.
Qed.

(** ** The difference of two snapshots *)

Definition keyed (m : gmap string WorkspaceFile) : Prop := forall p f, m !! p = Some f -> wf_Path f = p.
Lemma by_path_keyed s : NoDup (wf_Path <$> s) -> keyed (by_path s).
Proof. intros N p f H. by apply by_path_lookup in H as [_ ?]. Qed.
Lemma keyed_delete m p : keyed m -> keyed (delete p m).
Proof. intros K q f [_ H]%lookup_delete_Some. by apply K. Qed.
(** Where a change of the difference writes: at a path of the new snapshot, or at one
    only the old has. *)
Lemma explains_path before after c : keyed before -> explains before after c ->
  change_path c ∈ wf_Path <$> after \/ exists old, before !! change_path c = Some old /\ c = removed_file old.
Proof.
  intros K [(f & Hf & _ & ->)|[(old & f & Hf & _ & _ & ->)|(old & p & B & _ & ->)]]; [left; change (wf_Path f ∈ wf_Path <$> after); by apply list_elem_of_fmap_2..|].
  right. exists old. cbn. by rewrite (K _ _ B).
Qed.
Lemma diff_from_NoDup before after : keyed before -> NoDup (wf_Path <$> after) -> NoDup (change_path <$> diff_from before after).
Proof.
  revert before. induction after as [|g after IH]; intros before K N; cbn [diff_from].
  - rewrite <- list_fmap_compose. rewrite <- list_fmap_compose. rewrite (list_fmap_ext _ fst); [apply NoDup_fst_map_to_list|].
    intros j [p f] H%list_elem_of_lookup_2. apply elem_of_map_to_list in H. by apply K.
  - cbn in N. apply NoDup_cons in N as [Ng N]. specialize (IH _ (keyed_delete before (wf_Path g) K) N).
    assert (Nh : wf_Path g ∉ change_path <$> diff_from (delete (wf_Path g) before) after).
    { intros (c & E & Hc)%list_elem_of_fmap. apply diff_from_spec in Hc; [|done].
      apply explains_path in Hc as [H|(old & H & _)]; [by rewrite <- E in H| |by apply keyed_delete]. rewrite <- E in H. by rewrite lookup_delete_eq in H. }
    destruct (before !! wf_Path g) as [old|]; [destruct (String.eqb (fileHash old) (fileHash g)); [done|]|]; cbn; by apply NoDup_cons.
Qed.
Lemma WorkspaceDiff_elem base after c : NoDup (wf_Path <$> after) -> c ∈ WorkspaceDiff base after <-> explains (by_path base) after c.
Proof. intros N. unfold WorkspaceDiff. by rewrite merge_sort_Permutation, diff_from_spec. Qed.
Lemma WorkspaceDiff_NoDup base after : NoDup (wf_Path <$> base) -> NoDup (wf_Path <$> after) -> NoDup (change_path <$> WorkspaceDiff base after).
Proof. intros Nb Na. unfold WorkspaceDiff. rewrite merge_sort_Permutation. apply diff_from_NoDup; [by apply by_path_keyed|done]. Qed.
Lemma difference_fits base after c : Snapshot_Validate base = Ok tt -> Snapshot_Validate after = Ok tt ->
  explains (by_path base) after c -> fits (by_path base) c.
Proof.
  intros (_ & Nb & Pb & _)%validate_ok (_ & _ & Pa & _)%validate_ok.
  intros [(f & Hf & B & ->)|[(old & f & Hf & B & _ & ->)|(old & p & B & _ & ->)]].
  - constructor; [exact (Pa f Hf)|unfold hash_at, change_path; cbn; by rewrite B|done].
  - constructor; [exact (Pa f Hf)|unfold hash_at, change_path; cbn; by rewrite B|done].
  - pose proof (by_path_keyed base Nb _ _ B) as <-. apply by_path_lookup in B as X; [|done]. destruct X as [X _].
    constructor; [exact (Pb old X)|unfold hash_at, change_path; cbn; by rewrite B|]. intros _. split; [|done]. unfold change_path. cbn. congruence.
Qed.
Lemma difference_applied base after p : NoDup (wf_Path <$> base) -> NoDup (wf_Path <$> after) -> no_collision base after ->
  by_path after !! p = applied (by_path base) (WorkspaceDiff base after) p.
Proof.
  intros Nb Na C. pose proof (WorkspaceDiff_NoDup base after Nb Na) as N.
  assert (At : forall c, explains (by_path base) after c -> change_path c = p -> by_path after !! p = leaves c ->
    by_path after !! p = applied (by_path base) (WorkspaceDiff base after) p).
  { intros c H E ->. unfold applied. by rewrite (proj2 (change_at_Some _ p c N)) by (by rewrite WorkspaceDiff_elem). }
  assert (None_at : (forall c, explains (by_path base) after c -> change_path c <> p) -> by_path after !! p = by_path base !! p ->
    by_path after !! p = applied (by_path base) (WorkspaceDiff base after) p).
  { intros H ->. unfold applied. rewrite (proj2 (change_at_None _ p)); [done|]. intros (c & E & Hc)%list_elem_of_fmap.
    apply (H c); [|done]. by rewrite <- WorkspaceDiff_elem. }
  destruct (by_path after !! p) as [f|] eqn:A.
  - pose proof A as A'. apply by_path_lookup in A as [Hf E]; [|done]. destruct (by_path base !! p) as [old|] eqn:B.
    + destruct (decide (fileHash old = fileHash f)) as [X|X]; [|apply (At (replaced old f)); [right; left; exists old, f; rewrite E; done|done|done]].
      pose proof B as B'. apply by_path_lookup in B' as [Ho Eo]; [|done]. assert (old = f) as -> by (apply (C old f); [done|done|congruence|done]).
      apply None_at; [|done]. intros c [(g & Hg & Bg & ->)|[(o & g & Hg & Bg & Xg & ->)|(o & q & Bg & Ng & ->)]] Ec; unfold change_path in Ec; cbn in Ec.
      * rewrite Ec in Bg. congruence.
      * rewrite Ec in Bg. assert (o = f) as -> by congruence. apply Xg. assert (by_path after !! p = Some g) by by apply by_path_lookup. congruence.
      * rewrite (by_path_keyed base Nb _ _ Bg) in Ec. subst q. apply Ng. rewrite <- E. by apply list_elem_of_fmap_2.
    + apply (At (added f)); [left; exists f; rewrite E; done|done|done].
  - assert (Na' : p ∉ wf_Path <$> after).
    { intros (f & E & Hf)%list_elem_of_fmap. assert (by_path after !! p = Some f) by by apply by_path_lookup. congruence. }
    destruct (by_path base !! p) as [old|] eqn:B.
    + apply (At (removed_file old)); [right; right; by exists old, p|exact (by_path_keyed base Nb _ _ B)|done].
    + apply None_at; [|done]. intros c H%explains_path Ec; [|by apply by_path_keyed]. rewrite Ec in H. destruct H as [H|(o & H & _)]; congruence.
Qed.

(** ** The snapshots that applying gives *)

Lemma in_order_elem m f : f ∈ in_order m <-> exists p, m !! p = Some f.
Proof.
  unfold in_order. rewrite merge_sort_Permutation, list_elem_of_fmap. split.
  - intros ([p g] & -> & H). exists p. by apply elem_of_map_to_list.
  - intros [p H]. exists (p, f). split; [done|]. by apply elem_of_map_to_list.
Qed.
Lemma in_order_NoDup m : keyed m -> NoDup (wf_Path <$> in_order m).
Proof.
  intros K. unfold in_order. rewrite merge_sort_Permutation, <- list_fmap_compose, (list_fmap_ext _ fst); [apply NoDup_fst_map_to_list|].
  intros j [p f] H%list_elem_of_lookup_2. apply elem_of_map_to_list in H. by apply K.
Qed.
Lemma by_path_in_order m : keyed m -> by_path (in_order m) = m.
Proof.
  intros K. apply map_eq. intros p. apply option_eq. intros f. rewrite by_path_lookup, in_order_elem by by apply in_order_NoDup. split.
  - intros [[q H] <-]. by rewrite (K _ _ H).
  - intros H. split; [by exists p|by apply K].
Qed.
Lemma sorted_by_le s : NoDup (wf_Path <$> s) -> StronglySorted file_le s -> sorted_files s.
Proof.
  intros N. induction 1 as [|f s S IH F]; [constructor|]. cbn in N. apply NoDup_cons in N as [Nf N]. constructor; [by apply IH|].
  apply Forall_forall. intros g Hg. rewrite Forall_forall in F. specialize (F g Hg). unfold file_le, text_le, text_lt in *.
  destruct (str_ltb (wf_Path f) (wf_Path g)) eqn:L; [done|]. exfalso. apply Nf. rewrite (str_ltb_total _ _ L F). by apply list_elem_of_fmap_2.
Qed.
Lemma in_order_sorted m : keyed m -> sorted_files (in_order m).
Proof. intros K. apply sorted_by_le; [by apply in_order_NoDup|]. apply StronglySorted_merge_sort; apply _. Qed.
Lemma applied_keyed files cs out : keyed files -> (forall p, out !! p = applied files cs p) -> keyed out.
Proof.
  intros K O p f H. rewrite O in H. unfold applied, change_at in H. destruct (List.find _ cs) as [c|] eqn:F; [|by apply K].
  apply List.find_some in F as [_ E%String.eqb_eq]. unfold leaves in H. destruct (wc_Delete c); [done|]. by injection H as <-.
Qed.
(** What applying changes to a snapshot promises. *)
Record applied_to (base : Snapshot) (cs : list WorkspaceChange) (out : Snapshot) : Prop := mk_applied_to
  { ap_count : Z.of_nat (length cs) <= WorkspaceFileLimit;
    ap_distinct : NoDup (change_path <$> cs);
    ap_fits : forall c, c ∈ cs -> fits (by_path base) c;
    ap_files : forall p, by_path out !! p = applied (by_path base) cs p;
    ap_sorted : sorted_files out;
    ap_valid : Snapshot_Validate out = Ok tt }.

(** C37: changes apply exactly when there are at most 10000 of them, no two have one
    path, each path may be written, each was made for what the snapshot has there
    (nothing, or the file of that hash), each deletion is of a file that is there,
    and the outcome is a valid snapshot; the outcome is then the snapshot, in order,
    whose files are those the changes leave and, elsewhere, those that were there. *)
Theorem changes_apply_iff base cs out : Snapshot_Validate base = Ok tt ->
  ApplyWorkspaceChanges base cs = Ok out <-> applied_to base cs out.
Proof.
  intros (_ & N & _)%validate_ok. pose proof (by_path_keyed base N) as K. unfold ApplyWorkspaceChanges. split.
  - destruct (Z.ltb_spec WorkspaceFileLimit (Z.of_nat (length cs))) as [L|L]; [done|].
    destruct (apply_from [] (by_path base) cs) as [files|] eqn:A; cbn [result_bind]; [|done].
    apply apply_from_spec in A as (Nc & _ & F & O). pose proof (applied_keyed _ _ _ K O) as Kf.
    destruct (Snapshot_Validate (in_order files)) as [[]|] eqn:V; cbn [result_bind]; [|done]. intros [= <-].
    constructor; [done|done|done|intros p; by rewrite by_path_in_order|by apply in_order_sorted|done].
  - intros [L Nc F O S V]. destruct (Z.ltb_spec WorkspaceFileLimit (Z.of_nat (length cs))) as [L'|_]; [lia|].
    assert (A : apply_from [] (by_path base) cs = Ok (by_path out)) by (apply apply_from_spec; split_and!; [done|intros p _; apply not_elem_of_nil|done|done]).
    rewrite A. cbn [result_bind]. rewrite in_order_by_path by done. by rewrite V.
Qed.
(** The order of the files does not matter to their validity. *)
Lemma snapshot_size_nonneg s : 0 <= snapshot_size s.
Proof. induction s as [|f s IH]; cbn [snapshot_size]; [done|]. pose proof (len_nonneg (wf_Data f)). lia. Qed.
Lemma check_files_complete s : forall seen total,
  NoDup (wf_Path <$> s) -> (forall f, f ∈ s -> workspacePath (wf_Path f) = true /\ wf_Path f ∉ seen) -> total + snapshot_size s <= WorkspaceLimit ->
  check_files seen total s = Ok tt.
Proof.
  induction s as [|f s IH]; intros seen total N F T; [done|]. cbn [check_files snapshot_size] in *. cbn in N. apply NoDup_cons in N as [Nf N].
  destruct (F f ltac:(by left)) as [P Nin]. rewrite P. cbn [negb orb]. pose proof (snapshot_size_nonneg s).
  rewrite (proj2 (not_in_list _ _) Nin). cbn [orb]. rewrite (proj2 (Z.ltb_ge _ _)) by lia. apply IH; [done| |lia].
  intros g Hg. destruct (F g ltac:(by right)) as [Pg Ng]. split; [done|]. apply not_elem_of_cons. split; [|done].
  intros E. apply Nf. rewrite <- E. by apply list_elem_of_fmap_2.
Qed.
Lemma validate_complete s : Z.of_nat (length s) <= WorkspaceFileLimit -> NoDup (wf_Path <$> s) -> (forall f, f ∈ s -> workspacePath (wf_Path f) = true) ->
  snapshot_size s <= WorkspaceLimit -> (forall f d, f ∈ s -> d ∈ above (wf_Path f) -> d ∉ wf_Path <$> s) -> Snapshot_Validate s = Ok tt.
Proof.
  intros L N F T A. unfold Snapshot_Validate. rewrite (proj2 (Z.ltb_ge _ _)) by lia.
  rewrite check_files_complete; [|done|intros f Hf; split; [by apply F|apply not_elem_of_nil]|lia]. cbn [result_bind].
  destruct (List.find _ s) as [f|] eqn:X; [|done]. apply List.find_some in X as [Hf (d & Hd & E)%existsb_exists].
  exfalso. apply (A f d); [by apply list_elem_of_In|by apply list_elem_of_In|by apply in_list_path].
Qed.
Lemma snapshot_size_perm s s' : Permutation s s' -> snapshot_size s = snapshot_size s'.
Proof. induction 1; cbn [snapshot_size]; lia. Qed.
Lemma validate_perm s s' : Permutation s s' -> Snapshot_Validate s = Ok tt -> Snapshot_Validate s' = Ok tt.
Proof.
  intros P (L & N & F & T & A)%validate_ok. apply validate_complete.
  - by rewrite <- P.
  - by rewrite <- P.
  - intros f Hf. apply F. by rewrite P.
  - by rewrite <- (snapshot_size_perm _ _ P).
  - intros f d Hf Hd. rewrite <- P. apply (A f); [by rewrite P|done].
Qed.
Lemma in_order_perm s : NoDup (wf_Path <$> s) -> Permutation (in_order (by_path s)) s.
Proof.
  intros N. apply NoDup_Permutation.
  - eapply NoDup_fmap_1, in_order_NoDup. by apply by_path_keyed.
  - by eapply NoDup_fmap_1.
  - intros f. rewrite in_order_elem. split; [by intros (p & [H _]%by_path_lookup)|]. intros H. exists (wf_Path f). by apply by_path_lookup.
Qed.

(** C36: the difference of two valid snapshots applied to the first gives back the
    second, file for file and in the order of the paths, when two files of one path
    in them never share a hash unless they are the same; a second snapshot that is
    in this order, as every one that is taken or applied is, comes back as it is.
    When more than 10000 paths differ, and then only, the difference is refused. *)
Theorem workspace_round_trip base after :
  Snapshot_Validate base = Ok tt -> Snapshot_Validate after = Ok tt -> no_collision base after ->
  if WorkspaceFileLimit <? Z.of_nat (length (WorkspaceDiff base after))
  then ApplyWorkspaceChanges base (WorkspaceDiff base after) = Err "变更文件过多"
  else exists out, ApplyWorkspaceChanges base (WorkspaceDiff base after) = Ok out /\ Permutation out after /\ sorted_files out /\
         (sorted_files after -> out = after).
Proof.
  intros Vb Va C. pose proof (validate_ok _ Vb) as (_ & Nb & _). pose proof (validate_ok _ Va) as (_ & Na & _).
  unfold ApplyWorkspaceChanges. destruct (WorkspaceFileLimit <? _); [done|].
  assert (A : apply_from [] (by_path base) (WorkspaceDiff base after) = Ok (by_path after)).
  { apply apply_from_spec. split_and!; [by apply WorkspaceDiff_NoDup|intros p _; apply not_elem_of_nil| |].
    - intros c Hc%WorkspaceDiff_elem; [|done]. by apply (difference_fits base after).
    - intros p. by apply difference_applied. }
  pose proof (in_order_perm after Na) as P. exists (in_order (by_path after)). rewrite A. cbn [result_bind].
  rewrite (validate_perm after); [|by symmetry|done]. cbn [result_bind]. split_and!; [done|done|by apply in_order_sorted, by_path_keyed|].
  apply in_order_by_path.
Qed.
Definition a_file (p d : string) : WorkspaceFile := {| wf_Path := p; wf_Data := d; wf_Executable := false |}.
Lemma no_collision_dec base after :
  forallb (fun f => forallb (fun g => negb (String.eqb (fileHash f) (fileHash g)) || bool_decide (f = g)) after) base = true -> no_collision base after.
Proof.
  intros H f g Hf Hg _ E. rewrite forallb_forall in H. specialize (H f ltac:(by apply list_elem_of_In)). rewrite forallb_forall in H.
  specialize (H g ltac:(by apply list_elem_of_In)). rewrite E, String.eqb_refl in H. cbn in H. by apply bool_decide_eq_true in H.
Qed.
Lemma workspace_round_trip_witness :
  let base := [a_file "README" "old"; a_file "src/a.go" "a"; a_file "src/b.go" "b"] in
  let after := [a_file "src/c.go" "c"; a_file "README" "new"; a_file "src/b.go" "b"] in
  length (WorkspaceDiff base after) = 3%nat /\
  exists out, ApplyWorkspaceChanges base (WorkspaceDiff base after) = Ok out /\ Permutation out after /\ sorted_files out.
Proof.
  intros base after. assert (L : length (WorkspaceDiff base after) = 3%nat) by by vm_compute. split; [exact L|].
  pose proof (workspace_round_trip base after ltac:(by vm_compute) ltac:(by vm_compute) ltac:(apply no_collision_dec; by vm_compute)) as H.
  rewrite L in H. destruct H as (out & H1 & H2 & H3 & _). exists out. exact (conj H1 (conj H2 H3)).
Defined.
Lemma changes_apply_iff_witness :
  let base := [a_file "README" "old"] in
  Snapshot_Validate base = Ok tt /\ applied_to base [removed_file (a_file "README" "old"); added (a_file "x" "1")] [a_file "x" "1"].
Proof.
  intros base. assert (V : Snapshot_Validate base = Ok tt) by by vm_compute. split; [exact V|].
  apply (changes_apply_iff base _ _ V). by vm_compute.
Defined.
