(* ===== verification/RemoteWorkers.v ===== *)
(** * Agents on the machines of members ([internal/workgroup/remote.go])

    A member invites an agent of their own machine to the room.  The machine polls
    for work, so an assignment is handed over in the answer to a poll, and its result
    comes back in a later request.  [HandleMember] and the parts of [Run] between two
    places where it does not hold the mutex are single steps; the clock only
    advances.  Workers and jobs are shared by pointer: a number is a place in
    [rb_heap] or [rb_jobs].  What lies outside (the snapshot of the project, random
    bytes, the copy on disk, the moment a context ends) is an argument. *)
From S2P Require Import Prelude GoStrings Sha256 Json RoomTypes Ports TerminalText GoUrl ResourceRequest Workgroup WorkgroupRun Workspace.

(** ** Data *)

Record WorkerRequest := mkWorkerRequest
  { wq_Healthy : bool; wq_AgentName : string; wq_WorkspaceScope : string; wq_Changes : list WorkspaceChange; wq_Action : string;
    wq_ID : string; wq_Provider : string; wq_Mode : string; wq_JobID : string; wq_Text : string; wq_Failed : bool }.
(** The assignment with its workspace. *)
Definition Work : Type := Assignment * option Snapshot.
Record WorkerReply := mkWorkerReply
  { wy_Name : string; wy_ID : string; wy_State : string; wy_JobID : string; wy_Assignment : option Work; wy_Cancel : bool }.
Definition reply (id state : string) : WorkerReply := mkWorkerReply "" id state "" None false.
Record remoteJob := mkJob
  { rj_id : string; rj_work : Work; rj_claimed : bool; rj_cancel : bool; rj_done : option Result; rj_failed : bool; rj_received : bool }.
(** A time is [None] when it is the zero time, before every other. *)
Record remoteWorker := mkWorker
  { rw_healthyUntil : option Z; rw_healthy : bool; rw_scope : string; rw_invitation : string; rw_uid : UID; rw_member : Workgroup.Member;
    rw_lease : option Z; rw_job : option nat }.
Record RemoteBroker := mkRemote
  { rb_root : string; rb_workspaceDir : string; rb_workers : gmap string nat; rb_heap : list remoteWorker; rb_jobs : list remoteJob }.
Definition NewRemoteBroker : RemoteBroker := mkRemote "" "" ∅ [] [].
Definition NewProjectRemoteBroker (root dir : string) : RemoteBroker := mkRemote root dir ∅ [] [].

Definition set_heap (h : list remoteWorker) (b : RemoteBroker) : RemoteBroker := mkRemote (rb_root b) (rb_workspaceDir b) (rb_workers b) h (rb_jobs b).
Definition set_jobs (j : list remoteJob) (b : RemoteBroker) : RemoteBroker := mkRemote (rb_root b) (rb_workspaceDir b) (rb_workers b) (rb_heap b) j.
Definition put_worker (ptr : nat) (w : remoteWorker) (b : RemoteBroker) : RemoteBroker := set_heap (<[ptr := w]> (rb_heap b)) b.
Definition alter_job (f : remoteJob -> remoteJob) (j : nat) (b : RemoteBroker) : RemoteBroker := set_jobs (alter f j (rb_jobs b)) b.
Definition with_lease (l : option Z) (w : remoteWorker) : remoteWorker :=
  mkWorker (rw_healthyUntil w) (rw_healthy w) (rw_scope w) (rw_invitation w) (rw_uid w) (rw_member w) l (rw_job w).
Definition with_job (j : option nat) (w : remoteWorker) : remoteWorker :=
  mkWorker (rw_healthyUntil w) (rw_healthy w) (rw_scope w) (rw_invitation w) (rw_uid w) (rw_member w) (rw_lease w) j.
Definition unhealthy (w : remoteWorker) : remoteWorker :=
  mkWorker (rw_healthyUntil w) false (rw_scope w) (rw_invitation w) (rw_uid w) (rw_member w) (rw_lease w) (rw_job w).
Definition with_health (ok : bool) (until : Z) (w : remoteWorker) : remoteWorker :=
  mkWorker (Some until) ok (rw_scope w) (rw_invitation w) (rw_uid w) (rw_member w) (rw_lease w) (rw_job w).
Definition cancelled_job (j : remoteJob) : remoteJob :=
  mkJob (rj_id j) (rj_work j) (rj_claimed j) true (rj_done j) (rj_failed j) (rj_received j).
Definition claimed_job (j : remoteJob) : remoteJob :=
  mkJob (rj_id j) (rj_work j) true (rj_cancel j) (rj_done j) (rj_failed j) (rj_received j).
Definition received_job (r : Result) (failed : bool) (j : remoteJob) : remoteJob :=
  mkJob (rj_id j) (rj_work j) (rj_claimed j) (rj_cancel j) (Some r) failed true.
Definition taken_job (j : remoteJob) : remoteJob :=
  mkJob (rj_id j) (rj_work j) (rj_claimed j) (rj_cancel j) None (rj_failed j) (rj_received j).

(** ** Time *)

Definition seconds (n : Z) : Z := n * 1000000000.
Definition After (now : Z) (t : option Z) : bool := match t with None => true | Some t => t <? now end.
Definition Before (now : Z) (t : option Z) : bool := match t with None => false | Some t => now <? t end.
Definition lease_until (now : Z) : option Z := Some (now + seconds 90).
Definition healthy_until (now : Z) : Z := now + seconds 1800.

(** ** Members *)

(** [Members]; the three readings of the clock are one. *)
Definition available (now : Z) (w : remoteWorker) : bool := rw_healthy w && Before now (rw_healthyUntil w) && Before now (rw_lease w).
Definition id_le (a b : Workgroup.Member) : Prop := text_le (wm_ID a) (wm_ID b).
#[export] Instance id_le_dec : RelDecision id_le.
Proof. intros a b. unfold id_le. apply _. Defined.
Definition Members (now : Z) (b : RemoteBroker) : list Workgroup.Member :=
  merge_sort id_le (rw_member <$> List.filter (available now) (omap (fun ptr => rb_heap b !! ptr) (map_to_list (rb_workers b)).*2)).
Definition display_name (provider : string) : string :=
  if String.eqb provider "codex" then "Codex" else if String.eqb provider "cursor" then "Cursor"
  else if String.eqb provider "claude-code" then "Claude Code" else "".
Definition AgentName (provider name : string) : result verr string :=
  let name := TrimSpace name in
  let name := if String.eqb name "" then display_name provider else name in
  if String.eqb name "" || negb (utf8_valid name) || (40 <? Z.of_nat (length (runes name))) || existsb (fun r => IsControl r || IsFormat r) (runes name)
  then Err "Agent 名称需为 1–40 个字符，不能包含控制字符" else Ok name.
Definition anonymous (uid : UID) : string := "成员" +:+ itoa uid.

(** ** Requests of a member's machine *)

Definition worker_id (uid : UID) (invitation : string) : string := "w" +:+ itoa uid +:+ "-" +:+ take_bytes 12 invitation.
Definition same_invitation (name : string) (uid : UID) (req : WorkerRequest) (w : remoteWorker) : bool :=
  String.eqb (wm_Name (rw_member w)) name && String.eqb (rw_scope w) (wq_WorkspaceScope req) && String.eqb (rw_invitation w) (wq_ID req)
  && (rw_uid w =? uid) && String.eqb (wm_Description (rw_member w)) (wq_Provider req) && String.eqb (wm_Mode (rw_member w)) (wq_Mode req).
Definition new_worker (now : Z) (name : string) (uid : UID) (req : WorkerRequest) : remoteWorker :=
  mkWorker None false (wq_WorkspaceScope req) (wq_ID req) uid
    {| wm_Mode := wq_Mode req; wm_ID := worker_id uid (wq_ID req); wm_Name := name; wm_Provider := "remote"; wm_Description := wq_Provider req;
       wm_Instructions := ""; wm_Command := []; wm_TimeoutSeconds := 1800 |} (lease_until now) None.
(** The workers of which the lease is over and who have nothing to do are dropped. *)
Definition lapsed (now : Z) (w : remoteWorker) : bool := After now (rw_lease w) && bool_decide (rw_job w = None).
Definition kept (now : Z) (b : RemoteBroker) (ptr : nat) : bool := match rb_heap b !! ptr with Some w => negb (lapsed now w) | None => true end.
Definition drop_lapsed (now : Z) (b : RemoteBroker) : gmap string nat := filter (fun x => kept now b x.2 = true) (rb_workers b).
Definition worker_at (b : RemoteBroker) (id : string) : option (nat * remoteWorker) := ptr ← rb_workers b !! id; w ← rb_heap b !! ptr; Some (ptr, w).
Definition joined (id name : string) : WorkerReply := mkWorkerReply name id "joined" "" None false.
Definition invite_checked (now : Z) (name : string) (uid : UID) (req : WorkerRequest) (b : RemoteBroker) : RemoteBroker * result verr WorkerReply :=
  let id := worker_id uid (wq_ID req) in
  match worker_at b id with
  | Some (ptr, w) =>
      if negb (same_invitation name uid req w) then (b, Err "invitation conflict")
      else if After now (rw_lease w) && bool_decide (is_Some (rw_job w)) then (b, Err "过期邀请存在未确认任务，请核对后重新邀请")
      else let w := if After now (rw_lease w) then unhealthy w else w in
           (put_worker ptr (with_lease (lease_until now) w) b, Ok (joined id name))
  | None =>
      let workers := drop_lapsed now b in
      let b := mkRemote (rb_root b) (rb_workspaceDir b) workers (rb_heap b) (rb_jobs b) in
      if Nat.leb 32 (size workers) then (b, Err "Room 本机 Agent 数量已达上限")
      else (mkRemote (rb_root b) (rb_workspaceDir b) (<[id := length (rb_heap b)]> workers) (rb_heap b ++ [new_worker now name uid req]) (rb_jobs b),
            Ok (joined id name))
  end.
Definition invite (now : Z) (owner : RoomTypes.Member) (req : WorkerRequest) (b : RemoteBroker) : RemoteBroker * result verr WorkerReply :=
  let uid := mb_UID owner in
  let scope := wq_WorkspaceScope req in
  if negb (existsb (String.eqb scope) [""; "local"; "host"]) then (b, Err "invalid workspace scope")
  else if String.eqb scope "host" && String.eqb (rb_root b) "" then (b, Err "Host 不支持项目隔离副本，请更新 Host")
  else if (uid =? 0) || negb (ValidClientMessageID (wq_ID req)) || negb (existsb (String.eqb (wq_Provider req)) ["cursor"; "claude-code"; "codex"])
          || negb (existsb (String.eqb (wq_Mode req)) ["review"; "work"]) then (b, Err "invalid invitation")
  else match AgentName (wq_Provider req) (wq_AgentName req) with
  | Err e => (b, Err e)
  | Ok agent =>
      let name := TrimSpace (mb_Name owner) in
      let name := (if String.eqb name "" then anonymous uid else name) +:+ "-" +:+ agent in
      if 120 <? len name then (b, Err "组合后的成员名称过长，请缩短 Agent 名称") else invite_checked now name uid req b
  end.
Definition leave (ptr : nat) (w : remoteWorker) (req : WorkerRequest) (b : RemoteBroker) : RemoteBroker * result verr WorkerReply :=
  let b := put_worker ptr (with_lease None (unhealthy w)) b in
  (match rw_job w with Some j => alter_job cancelled_job j b | None => b end, Ok (reply (wq_ID req) "left")).
Definition health (now : Z) (ptr : nat) (w : remoteWorker) (req : WorkerRequest) (b : RemoteBroker) : RemoteBroker * result verr WorkerReply :=
  match rw_job w with
  | Some _ => (b, Ok (reply (wq_ID req) "busy"))
  | None => (put_worker ptr (with_health (wq_Healthy req) (healthy_until now) w) b, Ok (reply (wq_ID req) "health-accepted"))
  end.
Definition reported (req : WorkerRequest) : Result :=
  {| re_WorkspacePath := ""; re_Changes := wq_Changes req; re_StepID := ""; re_AgentID := wq_ID req; re_Text := wq_Text req |}.
Definition is_nil {A} (l : list A) : bool := match l with [] => true | _ => false end.
Definition job_at (b : RemoteBroker) (w : remoteWorker) : option (nat * remoteJob) := j ← rw_job w; x ← rb_jobs b !! j; Some (j, x).
Definition take_result (now : Z) (ptr : nat) (w : remoteWorker) (req : WorkerRequest) (b : RemoteBroker) : RemoteBroker * result verr WorkerReply :=
  if negb (is_nil (wq_Changes req)) && (negb (String.eqb (rw_scope w) "host") || negb (String.eqb (wm_Mode (rw_member w)) "work") || wq_Failed req)
  then (b, Err "当前成员不允许回传文件修改") else
  match job_at b w with
  | None => (b, Err "unknown assignment receipt")
  | Some (j, x) =>
      if negb (String.eqb (wq_JobID req) (rj_id x)) then (b, Err "unknown assignment receipt")
      else if rj_received x then (b, Err "result already received")
      else if (maxOutput <? len (wq_Text req)) || (negb (wq_Failed req) && blank (wq_Text req)) then (b, Err "invalid result")
      else match rj_done x with
      | Some _ => (b, Err "result already received")
      | None =>
          (alter_job (received_job (reported req) (wq_Failed req)) j (put_worker ptr (with_health (negb (wq_Failed req)) (healthy_until now) w) b),
           Ok (reply (wq_ID req) "received"))
      end
  end.
Definition poll (ptr : nat) (w : remoteWorker) (req : WorkerRequest) (b : RemoteBroker) : RemoteBroker * result verr WorkerReply :=
  match job_at b w with
  | None => (b, Ok (reply (wq_ID req) (if rw_healthy w then "idle" else "checking")))
  | Some (j, x) =>
      if rj_received x then (b, Ok (reply (wq_ID req) "finishing"))
      else if negb (rj_claimed x) && negb (rj_cancel x)
      then (alter_job claimed_job j b, Ok (mkWorkerReply "" (wq_ID req) "working" (rj_id x) (Some (rj_work x)) (rj_cancel x)))
      else (b, Ok (mkWorkerReply "" (wq_ID req) "working" (rj_id x) None (rj_cancel x)))
  end.
Definition HandleMember (now : Z) (owner : RoomTypes.Member) (req : WorkerRequest) (b : RemoteBroker) : RemoteBroker * result verr WorkerReply :=
  let action := wq_Action req in
  if String.eqb action "invite" then invite now owner req b else
  match worker_at b (wq_ID req) with
  | None => (b, Err "worker not owned by sender")
  | Some (ptr, w) =>
      if negb (rw_uid w =? mb_UID owner) then (b, Err "worker not owned by sender")
      else if String.eqb action "leave" then leave ptr w req b
      else if After now (rw_lease w) then (b, Err "worker lease expired; invite again")
      else let w := with_lease (lease_until now) w in
           let b := put_worker ptr w b in
           if String.eqb action "health" then health now ptr w req b
           else if String.eqb action "result" then take_result now ptr w req b
           else if negb (String.eqb action "poll") then (b, Err "invalid worker operation")
           else poll ptr w req b
  end.
(** [Handle] *)
Definition Handle (now : Z) (uid : UID) (req : WorkerRequest) (b : RemoteBroker) : RemoteBroker * result verr WorkerReply :=
  HandleMember now {| mb_UID := uid; mb_Name := anonymous uid |} req b.

(** ** Runs of assignments *)

(** [filepath.Base]: the last element that is not empty. *)
Definition Base (path : string) : string :=
  if String.eqb path "" then "." else match last (List.filter (fun e => negb (String.eqb e "")) (Split "/" path)) with Some e => e | None => "/" end.
Definition same_change (a b : WorkspaceChange) : bool :=
  String.eqb (wc_Before a) (wc_Before b) && Bool.eqb (wc_Delete a) (wc_Delete b) && String.eqb (fileHash (wc_File a)) (fileHash (wc_File b)).
(** The changes of the steps before, by path; equal changes count once. *)
Fixpoint combine_changes (combined : gmap string WorkspaceChange) (l : list WorkspaceChange) : result error (gmap string WorkspaceChange) :=
  match l with
  | [] => Ok combined
  | c :: r =>
      let p := change_path c in
      match combined !! p with
      | Some old => if same_change old c then combine_changes combined r else Err (ErrText ("依赖成员修改冲突：" +:+ p))
      | None => combine_changes (<[p := c]> combined) r
      end
  end.
Definition prior_changes (a : Assignment) : list WorkspaceChange := concat (re_Changes <$> as_Prior a).
Definition texted {A} (r : result verr A) : result error A := match r with Ok x => Ok x | Err e => Err (ErrText e) end.
(** What a run works on: the project as it is with the changes of the steps before;
    they apply in any order. *)
Definition merge_prior (original : Snapshot) (a : Assignment) : result error Snapshot :=
  let? combined := combine_changes ∅ (prior_changes a) in
  texted (ApplyWorkspaceChanges original (map_to_list combined).*2).
Definition remote_rule : string :=
  nl +:+ "[远程工作约束] 你在受邀成员本机运行，只处理本机获准项目。不得修改工作目录以外的文件；不得调用 Host 个人授权命令、提交、推送或代替发送者操作外部账号。结果回传 Room 等待人类验收。".
(** What leaves the host. *)
Definition for_member (a : Assignment) : Assignment :=
  {| as_StepID := as_StepID a; as_StepPrompt := as_StepPrompt a; as_DependsOn := as_DependsOn a; as_Version := as_Version a; as_ID := as_ID a;
     as_AgentID := as_AgentID a; as_HumanUID := as_HumanUID a; as_ProjectRoot := ""; as_TaskID := as_TaskID a; as_HumanPrompt := as_HumanPrompt a;
     as_Prompt := as_HumanPrompt a +:+ remote_rule; as_Instructions := ""; as_Prior := as_Prior a |}.
Definition usable (now : Z) (w : remoteWorker) : bool :=
  rw_healthy w && negb (After now (rw_healthyUntil w)) && negb (After now (rw_lease w)) && bool_decide (rw_job w = None).
(** What a host-scoped run keeps to check the result with. *)
Record files := mkFiles { fi_original : Snapshot; fi_workspace : Snapshot }.
Definition receipt_path (dir : string) : string := Join (Dir dir) (Base dir +:+ "-receipt.json").
Definition with_copy (dir : string) (changes : list WorkspaceChange) (r : Result) : Result :=
  {| re_WorkspacePath := dir; re_Changes := changes; re_StepID := re_StepID r; re_AgentID := re_AgentID r;
     re_Text := re_Text r +:+ nl +:+ nl +:+ "Host 隔离工作副本：" +:+ dir +:+ nl +:+ "变更回执：" +:+ receipt_path dir +:+ nl +:+ "主项目未被覆盖；请在此副本验收。" |}.
(** The end of a host-scoped run: [ended] is the error of its context, [made] the
    copy written to disk, [saved] the failure to write the receipt. *)
Definition keep_copy (m : Workgroup.Member) (f : files) (ended : option error) (made : Snapshot -> result error string) (saved : option error) (r : Result) : result error Result :=
  match ended with
  | Some e => Err e
  | None =>
      if String.eqb (wm_Mode m) "review" && negb (is_nil (re_Changes r)) then Err (ErrText "只读 Agent 返回了文件修改，已拒绝") else
      let? after := texted (ApplyWorkspaceChanges (fi_workspace f) (re_Changes r)) in
      let? dir := made after in
      match saved with
      | Some e => Err e
      | None => Ok (with_copy dir (WorkspaceDiff (fi_original f) after) r)
      end
  end.
(** Where a run is: before the section that assigns (for the scope of the host with
    the snapshot to come), waiting for the result, keeping the copy, waiting for a
    claimed job after the end of its context, before the deferred section, over. *)
Inductive run_point :=
| RSnapshot (ptr : nat) (m : Workgroup.Member) (a : Assignment)
| RReady (ptr : nat) (m : Workgroup.Member) (a : Assignment) (f : option files)
| RWaiting (ptr j : nat) (m : Workgroup.Member) (f : option files)
| RKeeping (ptr j : nat) (m : Workgroup.Member) (f : files) (r : Result)
| RStopping (ptr j : nat) (e : error)
| RLeaving (ptr j : nat) (r : result error Result)
| ROver (r : result error Result).
Inductive remote_act :=
| RaAssigned (k j ptr : nat) (uid : UID) (a : Assignment) (f : option files)
| RaHanded (j : nat) (uid : UID) (w : Work)
| RaReported (j : nat) (uid : UID) (failed : bool) (r : Result)
| RaReturned (k j : nat) (r : result error Result).
Record desk := mkDesk { dk_broker : RemoteBroker; dk_now : Z; dk_runs : gmap nat run_point; dk_trace : list remote_act }.
Definition set_broker (b : RemoteBroker) (d : desk) : desk := mkDesk b (dk_now d) (dk_runs d) (dk_trace d).
Definition goto (k : nat) (p : run_point) (d : desk) : desk := mkDesk (dk_broker d) (dk_now d) (<[k := p]> (dk_runs d)) (dk_trace d).
Definition record (l : list remote_act) (d : desk) : desk := mkDesk (dk_broker d) (dk_now d) (dk_runs d) (dk_trace d ++ l).
Definition at_time (now : Z) (d : desk) : desk := mkDesk (dk_broker d) (Z.max (dk_now d) now) (dk_runs d) (dk_trace d).

Definition offline : error := ErrText "本机 Agent 离线或忙碌".
Definition begin_run (k : nat) (m : Workgroup.Member) (a : Assignment) (d : desk) : desk :=
  match worker_at (dk_broker d) (wm_ID m) with
  | Some (ptr, w) =>
      if usable (dk_now d) w then goto k (if String.eqb (rw_scope w) "host" then RSnapshot ptr m a else RReady ptr m a None) d
      else goto k (ROver (Err offline)) d
  | None => goto k (ROver (Err offline)) d
  end.
Definition take_snapshot (k ptr : nat) (m : Workgroup.Member) (a : Assignment) (snapshot : result error Snapshot) (d : desk) : desk :=
  match (let? original := snapshot in let? merged := merge_prior original a in Ok (mkFiles original merged)) with
  | Ok f => goto k (RReady ptr m a (Some f)) d
  | Err e => goto k (ROver (Err e)) d
  end.
Definition assign (k ptr : nat) (m : Workgroup.Member) (a : Assignment) (f : option files) (nonce : result error string) (d : desk) : desk :=
  let b := dk_broker d in
  match worker_at b (wm_ID m) with
  | Some (ptr', w) =>
      if Nat.eqb ptr' ptr && usable (dk_now d) w then
        match nonce with
        | Err e => goto k (ROver (Err e)) d
        | Ok n =>
            let j := length (rb_jobs b) in
            let job := mkJob (hex_EncodeToString n) (for_member a, fi_workspace <$> f) false false None false false in
            goto k (RWaiting ptr j m f) (record [RaAssigned k j ptr (rw_uid w) a f]
              (set_broker (set_jobs (rb_jobs b ++ [job]) (put_worker ptr (with_job (Some j) w) b)) d))
        end
      else goto k (ROver (Err (ErrText "Agent 已离线或忙碌"))) d
  | None => goto k (ROver (Err (ErrText "Agent 已离线或忙碌"))) d
  end.
(** A result is received. *)
Definition receive (k ptr j : nat) (m : Workgroup.Member) (f : option files) (d : desk) : desk :=
  match rb_jobs (dk_broker d) !! j with
  | Some x =>
      match rj_done x with
      | Some r =>
          let d := set_broker (alter_job taken_job j (dk_broker d)) d in
          if rj_failed x then goto k (RLeaving ptr j (Err (ErrText "本机 Agent 未完成工作"))) d
          else goto k (match f with Some f => RKeeping ptr j m f r | None => RLeaving ptr j (Ok r) end) d
      | None => d
      end
  | None => d
  end.
Definition cancel_run (k ptr j : nat) (e : error) (d : desk) : desk :=
  match rb_jobs (dk_broker d) !! j with
  | Some x => goto k (if rj_claimed x then RStopping ptr j e else RLeaving ptr j (Err e)) (set_broker (alter_job cancelled_job j (dk_broker d)) d)
  | None => d
  end.
Definition lease_over (d : desk) (ptr : nat) : bool := match rb_heap (dk_broker d) !! ptr with Some w => After (dk_now d) (rw_lease w) | None => false end.
Definition tick (k ptr j : nat) (d : desk) : desk :=
  match rb_jobs (dk_broker d) !! j with
  | Some x =>
      if lease_over d ptr
      then goto k (RLeaving ptr j (Err (if rj_claimed x then Sentinel ErrDeliveryUnknown else ErrText "本机 Agent 已断开"))) d
      else d
  | None => d
  end.
Definition detach (j : nat) (w : remoteWorker) : remoteWorker := if bool_decide (rw_job w = Some j) then with_job None w else w.
Definition release (k ptr j : nat) (r : result error Result) (d : desk) : desk :=
  record [RaReturned k j r] (goto k (ROver r) (set_broker (set_heap (alter (detach j) ptr (rb_heap (dk_broker d))) (dk_broker d)) d)).

(** ** Moves *)

Inductive remote_move :=
| RmHandle (now : Z) (owner : RoomTypes.Member) (req : WorkerRequest)
| RmRun (k : nat) (now : Z) (m : Workgroup.Member) (a : Assignment)
| RmSnapshot (k : nat) (snapshot : result error Snapshot)
| RmAssign (k : nat) (now : Z) (nonce : result error string)
| RmResult (k : nat)
| RmKeep (k : nat) (ended : option error) (made : Snapshot -> result error string) (saved : option error)
| RmCancelled (k : nat) (e : error)
| RmReceipt (k : nat)
| RmOverdue (k : nat)
| RmTick (k : nat) (now : Z)
| RmRelease (k : nat).
(** What a request did, for the trace. *)
Definition handled (b : RemoteBroker) (owner : RoomTypes.Member) (req : WorkerRequest) (r : result verr WorkerReply) : list remote_act :=
  match worker_at b (wq_ID req) with
  | Some (_, w) =>
      match rw_job w, r with
      | Some j, Ok y =>
          match wy_Assignment y with
          | Some work => [RaHanded j (mb_UID owner) work]
          | None => if String.eqb (wq_Action req) "result" then [RaReported j (mb_UID owner) (wq_Failed req) (reported req)] else []
          end
      | _, _ => []
      end
  | None => []
  end.
Definition remote_step (d : desk) (mv : remote_move) : desk :=
  match mv with
  | RmHandle now owner req =>
      let d := at_time now d in
      let '(b, r) := HandleMember (dk_now d) owner req (dk_broker d) in
      record (handled (dk_broker d) owner req r) (set_broker b d)
  | RmRun k now m a => match dk_runs d !! k with None => begin_run k m a (at_time now d) | Some _ => d end
  | RmSnapshot k snapshot => match dk_runs d !! k with Some (RSnapshot ptr m a) => take_snapshot k ptr m a snapshot d | _ => d end
  | RmAssign k now nonce => match dk_runs d !! k with Some (RReady ptr m a f) => assign k ptr m a f nonce (at_time now d) | _ => d end
  | RmResult k => match dk_runs d !! k with Some (RWaiting ptr j m f) => receive k ptr j m f d | _ => d end
  | RmKeep k ended made saved =>
      match dk_runs d !! k with Some (RKeeping ptr j m f r) => goto k (RLeaving ptr j (keep_copy m f ended made saved r)) d | _ => d end
  | RmCancelled k e => match dk_runs d !! k with Some (RWaiting ptr j _ _) => cancel_run k ptr j e d | _ => d end
  | RmReceipt k =>
      match dk_runs d !! k with
      | Some (RStopping ptr j e) =>
          match rb_jobs (dk_broker d) !! j with
          | Some x => if bool_decide (is_Some (rj_done x)) then goto k (RLeaving ptr j (Err e)) (set_broker (alter_job taken_job j (dk_broker d)) d) else d
          | None => d
          end
      | _ => d
      end
  | RmOverdue k => match dk_runs d !! k with Some (RStopping ptr j _) => goto k (RLeaving ptr j (Err (Sentinel ErrDeliveryUnknown))) d | _ => d end
  | RmTick k now => match dk_runs d !! k with Some (RWaiting ptr j _ _) => tick k ptr j (at_time now d) | _ => d end
  | RmRelease k => match dk_runs d !! k with Some (RLeaving ptr j r) => release k ptr j r d | _ => d end
  end.
Definition remote_run (d : desk) (l : list remote_move) : desk := foldl remote_step d l.
Definition new_desk (root dir : string) (now : Z) : desk := mkDesk (NewProjectRemoteBroker root dir) now ∅ [].
