(* ===== verification/RemoteSafety.v ===== *)
(** * What the remote broker lets happen

    Every act of the broker is lawful with respect to what happened before it: an
    assignment is handed out once, to the member whose agent it was assigned to and
    without what belongs to the host; and what a run returns is true of it. *)
From S2P Require Import Prelude GoStrings Json RoomTypes ResourceRequest Workgroup WorkgroupRun Workspace RemoteWorkers.

(** ** The law of a trace *)

Definition job_of (a : remote_act) : nat :=
  match a with RaAssigned _ j _ _ _ _ | RaHanded j _ _ | RaReported j _ _ _ | RaReturned _ j _ => j end.
Definition is_handed (a : remote_act) : bool := match a with RaHanded _ _ _ => true | _ => false end.
Definition is_reported (a : remote_act) : bool := match a with RaReported _ _ _ _ => true | _ => false end.
Definition is_returned (a : remote_act) : bool := match a with RaReturned _ _ _ => true | _ => false end.
(** No act of one kind about a job. *)
Definition none_of (kind : remote_act -> bool) (tr : list remote_act) (j : nat) : Prop := forall a, a ∈ tr -> job_of a = j -> kind a = false.
(** What a run makes of a result: the result itself or, in the scope of the host, the
    difference between the project and what the reported changes make of the
    workspace. *)
Definition made_of (f : option files) (r x : Result) : Prop :=
  match f with
  | None => x = r
  | Some f => exists dir after, ApplyWorkspaceChanges (fi_workspace f) (re_Changes r) = Ok after
      /\ x = with_copy dir (WorkspaceDiff (fi_original f) after) r
  end.
Definition answer_ok (tr : list remote_act) (j : nat) (f : option files) (r : result error Result) : Prop :=
  match r with
  | Ok x => exists uid r0, RaReported j uid false r0 ∈ tr /\ made_of f r0 x
  | Err e => e = Sentinel ErrDeliveryUnknown \/ exists uid failed r0, RaReported j uid failed r0 ∈ tr
  end.
Definition merged_files (a : Assignment) (f : option files) : Prop :=
  match f with Some f => merge_prior (fi_original f) a = Ok (fi_workspace f) | None => True end.
Definition lawful (tr : list remote_act) (x : remote_act) : Prop :=
  match x with
  | RaAssigned _ j _ _ a f => (forall y, y ∈ tr -> job_of y <> j) /\ merged_files a f
  | RaHanded j uid w =>
      (exists k ptr a f, RaAssigned k j ptr uid a f ∈ tr /\ w = (for_member a, fi_workspace <$> f))
      /\ none_of is_handed tr j /\ none_of is_returned tr j
  | RaReported j uid _ _ =>
      (exists k ptr a f, RaAssigned k j ptr uid a f ∈ tr) /\ none_of is_reported tr j /\ none_of is_returned tr j
  | RaReturned k j r =>
      exists ptr uid a f, RaAssigned k j ptr uid a f ∈ tr /\ none_of is_returned tr j
        /\ (answer_ok tr j f r \/ (exists e, r = Err e) /\ none_of is_handed tr j)
  end.
Definition law_abiding (tr : list remote_act) : Prop := forall t1 a t2, tr = t1 ++ a :: t2 -> lawful t1 a.
Lemma remote_law_snoc tr a : law_abiding tr -> lawful tr a -> law_abiding (tr ++ [a]).
Proof.
  intros L La t1 x t2 E. destruct (decide (t2 = [])) as [->|N].
  - apply app_inj_tail in E as [-> ->]. done.
  - destruct (exists_last N) as (t & y & ->). rewrite app_comm_cons, app_assoc in E. apply app_inj_tail in E as [E _]. by eapply L.
Qed.
(** A job is assigned once. *)
Lemma assigned_unique tr j k ptr uid a f k' ptr' uid' a' f' : law_abiding tr ->
  RaAssigned k j ptr uid a f ∈ tr -> RaAssigned k' j ptr' uid' a' f' ∈ tr ->
  RaAssigned k j ptr uid a f = RaAssigned k' j ptr' uid' a' f'.
Proof.
  intros L H1 H2. apply list_elem_of_lookup in H1 as [i1 E1], H2 as [i2 E2].
  assert (Before : forall i i' x y, (i < i')%nat -> tr !! i = Some x -> tr !! i' = Some y -> job_of x = job_of y ->
            (exists k ptr uid a f, y = RaAssigned k j ptr uid a f) -> False).
  { intros i i' x y Hi Ex Ey Ej (k0 & p0 & u0 & a0 & f0 & ->). pose proof (L _ _ _ (eq_sym (take_drop_middle _ _ _ Ey))) as [Fr _].
    apply (Fr x); [|done]. apply list_elem_of_lookup. exists i. by rewrite lookup_take_lt. }
  destruct (decide (i1 = i2)) as [->|N]; [congruence|]. exfalso. destruct (decide (i1 < i2)%nat).
  - eapply (Before i1 i2); [done..|by eauto 10].
  - eapply (Before i2 i1); [lia|done|done|done|by eauto 10].
Qed.

(** ** The invariant *)

Record job_ok (tr : list remote_act) (j : nat) (x : remoteJob) : Prop := mk_job_ok
  { jo_assigned : exists k ptr uid a f, RaAssigned k j ptr uid a f ∈ tr /\ rj_work x = (for_member a, fi_workspace <$> f);
    jo_handed : rj_claimed x = false -> none_of is_handed tr j;
    jo_open : rj_received x = false -> none_of is_reported tr j;
    jo_done : forall r, rj_done x = Some r -> exists uid, RaReported j uid (rj_failed x) r ∈ tr }.
(** A run and its job, with the worker that has it. *)
Definition owns (d : desk) (k ptr j : nat) (f : option files) : Prop :=
  exists uid a w, RaAssigned k j ptr uid a f ∈ dk_trace d /\ none_of is_returned (dk_trace d) j
    /\ rb_heap (dk_broker d) !! ptr = Some w /\ rw_job w = Some j /\ rw_uid w = uid.
(** A job that nobody can claim any more. *)
Definition frozen (b : RemoteBroker) (now : Z) (ptr j : nat) : Prop :=
  exists x w, rb_jobs b !! j = Some x /\ rb_heap b !! ptr = Some w /\ rj_claimed x = false
    /\ (rj_cancel x = true \/ After now (rw_lease w) = true).
Definition point_ok (d : desk) (k : nat) (p : run_point) : Prop :=
  match p with
  | RSnapshot _ _ _ | ROver _ => True
  | RReady _ _ a f => merged_files a f
  | RWaiting ptr j _ f => owns d k ptr j f
  | RKeeping ptr j _ f r => owns d k ptr j (Some f) /\ exists uid, RaReported j uid false r ∈ dk_trace d
  | RStopping ptr j _ => exists f, owns d k ptr j f
  | RLeaving ptr j r => exists f, owns d k ptr j f
      /\ (answer_ok (dk_trace d) j f r \/ (exists e, r = Err e) /\ frozen (dk_broker d) (dk_now d) ptr j)
  end.
Record rinv (d : desk) : Prop := mk_rinv
  { ri_law : law_abiding (dk_trace d);
    ri_known : forall a, a ∈ dk_trace d -> (job_of a < length (rb_jobs (dk_broker d)))%nat;
    ri_jobs : forall j x, rb_jobs (dk_broker d) !! j = Some x -> job_ok (dk_trace d) j x;
    ri_heap : forall ptr w j, rb_heap (dk_broker d) !! ptr = Some w -> rw_job w = Some j ->
      exists k a f, RaAssigned k j ptr (rw_uid w) a f ∈ dk_trace d /\ none_of is_returned (dk_trace d) j;
    ri_map : forall id ptr, rb_workers (dk_broker d) !! id = Some ptr -> is_Some (rb_heap (dk_broker d) !! ptr);
    ri_runs : forall k p, dk_runs d !! k = Some p -> point_ok d k p }.
Lemma none_of_snoc kind tr a j : none_of kind tr j -> (job_of a = j -> kind a = false) -> none_of kind (tr ++ [a]) j.
Proof. intros N H x [Hx| ->%list_elem_of_singleton]%elem_of_app; [by apply N|done]. Qed.
Lemma none_of_app kind tr l j : none_of kind tr j -> none_of kind l j -> none_of kind (tr ++ l) j.
Proof. intros N M x [Hx|Hx]%elem_of_app; [by apply N|by apply M]. Qed.
Lemma answer_ok_app tr l j f r : answer_ok tr j f r -> answer_ok (tr ++ l) j f r.
Proof. destruct r as [x|e]; cbn; setoid_rewrite elem_of_app; naive_solver. Qed.

(** ** What changes keep *)

Definition point_job (p : run_point) : option nat :=
  match p with RWaiting _ j _ _ | RKeeping _ j _ _ _ | RStopping _ j _ | RLeaving _ j _ => Some j | _ => None end.
(** A change keeps what the runs of the jobs [P] rely on. *)
Record keeps (P : nat -> Prop) (d d' : desk) (l : list remote_act) : Prop := mk_keeps
  { kp_trace : dk_trace d' = dk_trace d ++ l;
    kp_acts : forall j, P j -> none_of is_returned l j;
    kp_heap : forall ptr w j, P j -> rb_heap (dk_broker d) !! ptr = Some w -> rw_job w = Some j ->
      exists w', rb_heap (dk_broker d') !! ptr = Some w' /\ rw_job w' = Some j /\ rw_uid w' = rw_uid w;
    kp_frozen : forall ptr w j, P j -> rb_heap (dk_broker d) !! ptr = Some w -> rw_job w = Some j ->
      frozen (dk_broker d) (dk_now d) ptr j -> frozen (dk_broker d') (dk_now d') ptr j }.
Lemma owns_keeps P d d' l k ptr j f : keeps P d d' l -> P j -> owns d k ptr j f -> owns d' k ptr j f.
Proof.
  intros [T A H F] Pj (uid & a & w & X & R & E & J & U). destruct (H ptr w j Pj E J) as (w' & E' & J' & U').
  exists uid, a, w'. rewrite T. split_and!; [by apply elem_of_app; left|apply none_of_app; auto|done|done|congruence].
Qed.
Lemma point_ok_keeps P d d' l k p : keeps P d d' l -> (forall j, point_job p = Some j -> P j) -> point_ok d k p -> point_ok d' k p.
Proof.
  intros K Pp. pose proof (kp_trace _ _ _ _ K) as T. destruct p as [| |ptr j m f|ptr j m f r|ptr j e|ptr j r|]; cbn in *; try done.
  - intros O. eapply owns_keeps; eauto.
  - intros [O [uid R]]. split; [eapply owns_keeps; eauto|]. exists uid. rewrite T. by apply elem_of_app; left.
  - intros [f O]. exists f. eapply owns_keeps; eauto.
  - intros (f & O & A). pose proof O as (uid & a & w & _ & _ & E & J & _). exists f. split; [eapply owns_keeps; eauto|].
    destruct A as [A|[X F]]; [left; rewrite T; by apply answer_ok_app|right; split; [done|]]. eapply (kp_frozen _ _ _ _ K); eauto.
Qed.
Lemma job_ok_app tr l j x : (forall a, a ∈ l -> job_of a <> j) -> job_ok tr j x -> job_ok (tr ++ l) j x.
Proof.
  intros N [A H O D]. assert (M : forall kind, none_of kind l j) by (intros kind a Ha Ej; by destruct (N a Ha)). split.
  - destruct A as (k & ptr & uid & a & f & Ha & E). exists k, ptr, uid, a, f. split; [by apply elem_of_app; left|done].
  - intros C. apply none_of_app; auto.
  - intros C. apply none_of_app; auto.
  - intros r E. destruct (D r E) as [uid R]. exists uid. by apply elem_of_app; left.
Qed.
Lemma rinv_goto d k p : rinv d -> point_ok d k p -> rinv (goto k p d).
Proof.
  intros [L K J H M R] Pk. split; try done. cbn [goto dk_runs]. intros k' p' [[<- <-]|[_ E]]%lookup_insert_Some; [exact Pk|exact (R k' p' E)].
Qed.
Lemma After_later now now' t : now <= now' -> After now t = true -> After now' t = true.
Proof. destruct t; cbn; [|done]. lia. Qed.
Lemma rinv_at_time d now : rinv d -> rinv (at_time now d).
Proof.
  intros [L K J H M R]. split; try done. intros k p E. eapply (point_ok_keeps (fun _ => True) d _ []); [|done|by apply R].
  split; cbn; [by rewrite app_nil_r|by intros j _ a Ha%not_elem_of_nil|by eauto|].
  intros ptr w j _ _ _ (x & w' & Ex & Ew & C & D). exists x, w'. split_and!; try done. destruct D as [D|D]; [by left|right].
  eapply After_later; [|done]. lia.
Qed.
Lemma rinv_put d ptr w w' : rinv d -> rb_heap (dk_broker d) !! ptr = Some w -> rw_uid w' = rw_uid w -> rw_job w' = rw_job w ->
  (rw_job w <> None -> After (dk_now d) (rw_lease w) = true -> After (dk_now d) (rw_lease w') = true) ->
  rinv (set_broker (put_worker ptr w' (dk_broker d)) d).
Proof.
  intros [L K J H M R] E Eu Ej El. pose proof (lookup_lt_Some _ _ _ E) as Lt.
  split; cbn [set_broker dk_trace dk_broker put_worker set_heap rb_heap rb_jobs rb_workers dk_runs]; try done.
  - intros p y j [(<- & -> & _)|[_ Ey]]%list_lookup_insert_Some Hj; [|by eauto]. rewrite Eu. apply (H ptr w j E). congruence.
  - intros id p Ep. destruct (decide (ptr = p)) as [<-|N]; [by rewrite list_lookup_insert_eq by done|rewrite list_lookup_insert_ne by done; by eauto].
  - intros k p Ep. eapply (point_ok_keeps (fun _ => True) d _ []); [|done|by apply R].
    split; cbn [set_broker dk_trace dk_broker put_worker set_heap rb_heap rb_jobs dk_now]; [by rewrite app_nil_r|by intros j _ a Ha%not_elem_of_nil| |].
    + intros q y j _ Ey Hj. destruct (decide (ptr = q)) as [<-|N].
      * exists w'. rewrite list_lookup_insert_eq by done. rewrite E in Ey. injection Ey as <-. split_and!; [done|congruence|done].
      * exists y. by rewrite list_lookup_insert_ne.
    + intros q y j _ Ey Hj (x & y' & Ex & Ey' & C & D). destruct (decide (ptr = q)) as [<-|N].
      * rewrite E in Ey, Ey'. injection Ey as <-. injection Ey' as <-. exists x, w'. cbn. rewrite list_lookup_insert_eq by done. split_and!; [done|done|done|].
        destruct D as [D|D]; [by left|right]. apply El; [congruence|done].
      * exists x, y'. cbn. by rewrite list_lookup_insert_ne.
Qed.
Lemma rinv_job d j x x' l : rinv d -> rb_jobs (dk_broker d) !! j = Some x ->
  (rj_claimed x' = true -> rj_claimed x = false -> forall ptr w, rb_heap (dk_broker d) !! ptr = Some w -> rw_job w = Some j ->
     rj_cancel x = false /\ After (dk_now d) (rw_lease w) = false) ->
  (rj_cancel x = true -> rj_cancel x' = true) ->
  (forall a, a ∈ l -> job_of a = j /\ is_returned a = false) ->
  law_abiding (dk_trace d ++ l) -> job_ok (dk_trace d ++ l) j x' ->
  rinv (record l (set_broker (set_jobs (<[j := x']> (rb_jobs (dk_broker d))) (dk_broker d)) d)).
Proof.
  intros [L K J H M R] E Ec Ek Al La Ok. pose proof (lookup_lt_Some _ _ _ E) as Lt.
  assert (Nr : forall i, none_of is_returned l i) by (intros i a Ha _; by apply Al).
  split; cbn [record set_broker dk_trace dk_broker set_jobs rb_heap rb_jobs rb_workers dk_runs]; try done.
  - intros a [Ha|Ha]%elem_of_app; rewrite length_insert; [by apply K|]. by destruct (Al a Ha) as [-> _].
  - intros i y [(<- & -> & _)|[N Ey]]%list_lookup_insert_Some; [done|]. apply job_ok_app; [|by apply J]. intros a Ha. destruct (Al a Ha) as [-> _]. done.
  - intros ptr w i Ew Hi. destruct (H ptr w i Ew Hi) as (k & a & f & Ha & Na). exists k, a, f. split; [by apply elem_of_app; left|by apply none_of_app].
  - intros k p Ep. eapply (point_ok_keeps (fun _ => True) d _ l); [|done|by apply R].
    split; cbn [record set_broker dk_trace dk_broker set_jobs rb_heap rb_jobs dk_now]; [done|by intros|by eauto|].
    intros ptr w i _ Ew Hi (y & w' & Ey & Ew' & C & D). rewrite Ew in Ew'. injection Ew' as <-. destruct (decide (j = i)) as [<-|N].
    + rewrite E in Ey. injection Ey as <-. exists x', w. cbn. rewrite list_lookup_insert_eq by done. split_and!; [done|done| |].
      * destruct (rj_claimed x') eqn:C'; [|done]. destruct (Ec eq_refl C ptr w Ew Hi) as [D1 D2]. destruct D; congruence.
      * destruct D as [D|D]; [left; by apply Ek|by right].
    + exists y, w. cbn. by rewrite list_lookup_insert_ne.
Qed.

(** ** Requests *)

Lemma record_nil d : record [] d = d.
Proof. destruct d. unfold record. cbn. by rewrite app_nil_r. Qed.
Lemma set_broker_same d : set_broker (dk_broker d) d = d.
Proof. by destruct d. Qed.
Lemma alter_job_insert f j b x : rb_jobs b !! j = Some x -> alter_job f j b = set_jobs (<[j := f x]> (rb_jobs b)) b.
Proof.
  intros E. unfold alter_job, set_jobs. f_equal. apply list_eq. intros i. destruct (decide (j = i)) as [<-|N].
  - rewrite list_lookup_alter_eq, E, list_lookup_insert_eq; [done|]. by eapply lookup_lt_Some.
  - by rewrite list_lookup_alter_ne, list_lookup_insert_ne.
Qed.
Lemma worker_at_Some b id ptr w : worker_at b id = Some (ptr, w) -> rb_workers b !! id = Some ptr /\ rb_heap b !! ptr = Some w.
Proof.
  unfold worker_at. destruct (rb_workers b !! id) as [p|] eqn:E1; [|done]. cbn. destruct (rb_heap b !! p) as [y|] eqn:E2; [|done]. cbn. by intros [= <- <-].
Qed.
Lemma job_at_Some b w j x : job_at b w = Some (j, x) -> rw_job w = Some j /\ rb_jobs b !! j = Some x.
Proof.
  unfold job_at. destruct (rw_job w) as [i|]; [|done]. cbn. destruct (rb_jobs b !! i) as [y|] eqn:E; [|done]. cbn. by intros [= <- <-].
Qed.
Lemma worker_job d ptr w j : rinv d -> rb_heap (dk_broker d) !! ptr = Some w -> rw_job w = Some j -> exists x, rb_jobs (dk_broker d) !! j = Some x.
Proof. intros [L K J H M R] E Ej. destruct (H ptr w j E Ej) as (k & a & f & Ha & _). apply lookup_lt_is_Some. exact (K _ Ha). Qed.
(** A job has one worker. *)
Lemma job_worker d ptr w ptr' w' j : rinv d -> rb_heap (dk_broker d) !! ptr = Some w -> rw_job w = Some j ->
  rb_heap (dk_broker d) !! ptr' = Some w' -> rw_job w' = Some j -> ptr = ptr'.
Proof.
  intros [L K J H M R] E Ej E' Ej'. destruct (H _ _ _ E Ej) as (k & a & f & Ha & _), (H _ _ _ E' Ej') as (k' & a' & f' & Ha' & _).
  pose proof (assigned_unique _ _ _ _ _ _ _ _ _ _ _ _ L Ha Ha'). congruence.
Qed.
Lemma law_nil tr : law_abiding tr -> law_abiding (tr ++ []).
Proof. by rewrite app_nil_r. Qed.
Lemma rinv_cancel d j x : rinv d -> rb_jobs (dk_broker d) !! j = Some x -> rinv (set_broker (alter_job cancelled_job j (dk_broker d)) d).
Proof.
  intros I E. rewrite (alter_job_insert _ _ _ _ E), <- record_nil. apply (rinv_job d j x); try done.
  - cbn. congruence.
  - by intros a Ha%not_elem_of_nil.
  - apply law_nil, I.
  - rewrite app_nil_r. pose proof (ri_jobs d I j x E) as [A H O D]. by split.
Qed.
Lemma rinv_taken d j x : rinv d -> rb_jobs (dk_broker d) !! j = Some x -> rinv (set_broker (alter_job taken_job j (dk_broker d)) d).
Proof.
  intros I E. rewrite (alter_job_insert _ _ _ _ E), <- record_nil. apply (rinv_job d j x); try done.
  - cbn. congruence.
  - by intros a Ha%not_elem_of_nil.
  - apply law_nil, I.
  - rewrite app_nil_r. pose proof (ri_jobs d I j x E) as [A H O D]. by split.
Qed.
Lemma rinv_leave d ptr w req : rinv d -> rb_heap (dk_broker d) !! ptr = Some w -> rinv (set_broker (leave ptr w req (dk_broker d)).1 d).
Proof.
  intros I E. assert (I' : rinv (set_broker (put_worker ptr (with_lease None (unhealthy w)) (dk_broker d)) d)) by by apply (rinv_put d ptr w).
  unfold leave. destruct (rw_job w) as [j|] eqn:J; [|exact I']. destruct (worker_job d ptr w j I E J) as [x Ex]. exact (rinv_cancel _ j x I' Ex).
Qed.
Lemma rinv_health d ptr w req now : rinv d -> rb_heap (dk_broker d) !! ptr = Some w -> rinv (set_broker (health now ptr w req (dk_broker d)).1 d).
Proof.
  intros I E. unfold health. destruct (rw_job w) as [j|] eqn:J; cbn [fst]; [by rewrite set_broker_same|]. apply (rinv_put d ptr w); [done..|congruence].
Qed.
Lemma rinv_result d now ptr w req b r : rinv d -> rb_heap (dk_broker d) !! ptr = Some w ->
  take_result now ptr w req (dk_broker d) = (b, r) ->
  rinv (record match rw_job w, r with Some j, Ok _ => [RaReported j (rw_uid w) (wq_Failed req) (reported req)] | _, _ => [] end (set_broker b d)).
Proof.
  intros I E. unfold take_result. assert (Same : forall e : verr, rinv (record match rw_job w, @Err verr WorkerReply e with Some j, Ok _ => [RaReported j (rw_uid w) (wq_Failed req) (reported req)] | _, _ => [] end (set_broker (dk_broker d) d))).
  { intros e. rewrite set_broker_same. destruct (rw_job w); by rewrite record_nil. }
  destruct (_ && _); [intros [= <- <-]; exact (Same "")|].
  destruct (job_at _ w) as [[j x]|] eqn:J; [|intros [= <- <-]; exact (Same "")]. apply job_at_Some in J as [J Ex].
  destruct (negb _); [intros [= <- <-]; exact (Same "")|]. destruct (rj_received x) eqn:Rx; [intros [= <- <-]; exact (Same "")|]. destruct (_ || _); [intros [= <- <-]; exact (Same "")|].
  destruct (rj_done x) eqn:Dx; [intros [= <- <-]; exact (Same "")|]. intros [= <- <-]. rewrite J. set (w1 := with_health _ _ w).
  assert (I1 : rinv (set_broker (put_worker ptr w1 (dk_broker d)) d)) by by apply (rinv_put d ptr w).
  rewrite (alter_job_insert _ _ _ x) by done. destruct (ri_heap d I ptr w j E J) as (k & a & f & Ha & Na). pose proof (ri_jobs d I j x Ex) as [A H O D].
  apply (rinv_job _ j x (received_job (reported req) (wq_Failed req) x) _ I1); cbn [set_broker dk_trace dk_broker put_worker set_heap rb_jobs]; try done.
  - cbn. congruence.
  - by intros a0 ->%list_elem_of_singleton.
  - apply remote_law_snoc; [apply I|]. cbn. split_and!; [by exists k, ptr, a, f|by apply O|done].
  - split; cbn.
    + destruct A as (k0 & p0 & u0 & a0 & f0 & H0 & W0). exists k0, p0, u0, a0, f0. split; [by apply elem_of_app; left|done].
    + intros C. apply none_of_snoc; [by apply H|done].
    + done.
    + intros r0 [= <-]. exists (rw_uid w). apply elem_of_app. right. by apply list_elem_of_singleton.
Qed.
Lemma rinv_poll d ptr w req b r : rinv d -> rb_heap (dk_broker d) !! ptr = Some w -> After (dk_now d) (rw_lease w) = false ->
  poll ptr w req (dk_broker d) = (b, r) ->
  rinv (record match rw_job w, r with
               | Some j, Ok y => match wy_Assignment y with Some work => [RaHanded j (rw_uid w) work] | None => [] end
               | _, _ => []
               end (set_broker b d)).
Proof.
  intros I E Le. unfold poll.
  assert (Same : forall y, wy_Assignment y = None -> rinv (record match rw_job w, @Ok verr WorkerReply y with
               | Some j, Ok y => match wy_Assignment y with Some work => [RaHanded j (rw_uid w) work] | None => [] end
               | _, _ => [] end (set_broker (dk_broker d) d))).
  { intros y Y. rewrite set_broker_same. destruct (rw_job w); by rewrite ?Y, record_nil. }
  destruct (job_at _ w) as [[j x]|] eqn:J; [|intros [= <- <-]; by apply Same]. apply job_at_Some in J as [J Ex].
  destruct (rj_received x) eqn:Rx; [intros [= <- <-]; by apply Same|].
  destruct (rj_claimed x) eqn:Cx, (rj_cancel x) eqn:Kx; cbn [negb andb]; try (intros [= <- <-]; by apply Same). intros [= <- <-]. rewrite J. cbn [wy_Assignment].
  rewrite (alter_job_insert _ _ _ x) by done. destruct (ri_heap d I ptr w j E J) as (k & a & f & Ha & Na). pose proof (ri_jobs d I j x Ex) as [A H O D].
  apply (rinv_job _ j x (claimed_job x)); try done.
  - intros _ _ ptr' w' E' J'. pose proof (job_worker d _ _ _ _ _ I E J E' J') as <-. split; [done|congruence].
  - by intros a0 ->%list_elem_of_singleton.
  - apply remote_law_snoc; [apply I|]. cbn. split_and!; [|by apply H|done]. exists k, ptr, a, f. split; [done|].
    destruct A as (k0 & p0 & u0 & a0 & f0 & H0 & W0). pose proof (assigned_unique _ _ _ _ _ _ _ _ _ _ _ _ (ri_law d I) Ha H0). congruence.
  - split; cbn.
    + destruct A as (k0 & p0 & u0 & a0 & f0 & H0 & W0). exists k0, p0, u0, a0, f0. split; [by apply elem_of_app; left|done].
    + done.
    + intros C. apply none_of_snoc; [by apply O|done].
    + intros r0 Er. destruct (D r0 Er) as [u Hu]. exists u. by apply elem_of_app; left.
Qed.
(** Changes of the directory that leave every worker with a job as it is. *)
Lemma rinv_directory d workers extra : rinv d ->
  (forall id ptr, workers !! id = Some ptr -> is_Some ((rb_heap (dk_broker d) ++ extra) !! ptr)) -> (forall w, w ∈ extra -> rw_job w = None) ->
  rinv (set_broker (mkRemote (rb_root (dk_broker d)) (rb_workspaceDir (dk_broker d)) workers (rb_heap (dk_broker d) ++ extra) (rb_jobs (dk_broker d))) d).
Proof.
  intros [L K J H M R] W X. split; try done; cbn [set_broker dk_broker rb_heap rb_jobs dk_trace dk_runs].
  - intros ptr w j [E|[_ E]]%lookup_app_Some Ej; [by eauto|]. apply list_elem_of_lookup_2 in E. rewrite (X w E) in Ej. done.
  - intros k p E. eapply (point_ok_keeps (fun _ => True) d _ []); [|done|by apply R].
    split; cbn; [by rewrite app_nil_r|by intros j _ a Ha%not_elem_of_nil| |].
    + intros ptr w j _ Ew Ej. exists w. split; [by apply lookup_app_l_Some|done].
    + intros ptr w j _ Ew Ej (x & w' & Ex & Ew' & C & D). exists x, w'. split_and!; [done|by apply lookup_app_l_Some|done|done].
Qed.
Lemma rinv_invite d owner req b r : rinv d -> invite (dk_now d) owner req (dk_broker d) = (b, r) ->
  rinv (set_broker b d) /\ forall y, r = Ok y -> wy_Assignment y = None.
Proof.
  intros I. unfold invite. repeat (case_match; [intros [= <- <-]; by rewrite set_broker_same|]).
  destruct (AgentName _ _) as [agent|e]; [|intros [= <- <-]; by rewrite set_broker_same]. cbv zeta.
  generalize ((if String.eqb (TrimSpace (mb_Name owner)) "" then anonymous (mb_UID owner) else TrimSpace (mb_Name owner)) +:+ "-" +:+ agent). intros name.
  destruct (120 <? len name); [intros [= <- <-]; by rewrite set_broker_same|]. unfold invite_checked. destruct (worker_at _ _) as [[ptr w]|] eqn:W.
  - apply worker_at_Some in W as [_ Ew].
    destruct (negb (same_invitation _ _ _ _)); [intros [= <- <-]; by rewrite set_broker_same|].
    destruct (After (dk_now d) (rw_lease w)) eqn:A; cbn [andb].
    + case_bool_decide as Y; [intros [= <- <-]; by rewrite set_broker_same|]. intros [= <- <-]. split; [|by intros y [= <-]].
      apply (rinv_put d ptr w); [done..|]. intros N. destruct Y. by destruct (rw_job w).
    + intros [= <- <-]. split; [|by intros y [= <-]]. apply (rinv_put d ptr w); [done..|]. by rewrite A.
  - assert (Kept : forall id ptr, drop_lapsed (dk_now d) (dk_broker d) !! id = Some ptr -> is_Some (rb_heap (dk_broker d) !! ptr)).
    { intros id ptr [E _]%map_lookup_filter_Some. by apply (ri_map d I id). }
    cbv zeta. destruct (Nat.leb _ _).
    + intros [= <- <-]. split; [|done]. rewrite <- (app_nil_r (rb_heap (dk_broker d))). apply rinv_directory; [done| |by intros w ?%not_elem_of_nil].
      intros id ptr E. rewrite app_nil_r. by eapply Kept.
    + intros [= <- <-]. split; [|by intros y [= <-]]. apply rinv_directory; [done| |by intros w ->%list_elem_of_singleton].
      cbn [rb_heap]. intros id ptr [[_ <-]|[_ E]]%lookup_insert_Some; [by rewrite lookup_app_r, Nat.sub_diag by lia|].
      destruct (Kept _ _ E) as [w Ew]. exists w. by apply lookup_app_l_Some.
Qed.
Lemma rinv_handle d owner req b r : rinv d -> HandleMember (dk_now d) owner req (dk_broker d) = (b, r) ->
  rinv (record (handled (dk_broker d) owner req r) (set_broker b d)).
Proof.
  intros I. unfold HandleMember. destruct (String.eqb_spec (wq_Action req) "invite") as [Ai|_].
  { intros [I' Y]%rinv_invite; [|done]. assert (E : handled (dk_broker d) owner req r = []); [|by rewrite E, record_nil].
    unfold handled. rewrite Ai. destruct (worker_at _ _) as [[? w]|]; [|done]. destruct (rw_job w), r; try done. by rewrite (Y _ eq_refl). }
  unfold handled. destruct (worker_at (dk_broker d) (wq_ID req)) as [[ptr w]|] eqn:W; [|intros [= <- <-]; by rewrite set_broker_same, record_nil].
  assert (Same : forall e : verr, rinv (record match rw_job w, @Err verr WorkerReply e with Some j, Ok y => match wy_Assignment y with
      | Some work => [RaHanded j (mb_UID owner) work] | None => if String.eqb (wq_Action req) "result" then [RaReported j (mb_UID owner) (wq_Failed req) (reported req)] else [] end
      | _, _ => [] end (set_broker (dk_broker d) d))) by (intros e; rewrite set_broker_same; destruct (rw_job w); by rewrite record_nil).
  apply worker_at_Some in W as [_ E]. destruct (Z.eqb_spec (rw_uid w) (mb_UID owner)) as [U|U]; cbn [negb]; [|intros [= <- <-]; exact (Same "")].
  destruct (String.eqb_spec (wq_Action req) "leave") as [Al|_].
  { intros Lv. pose proof (rinv_leave d ptr w req I E) as I'. rewrite Lv in I'. cbn in I'. rewrite Al. unfold leave in Lv. injection Lv as _ <-.
    destruct (rw_job w); by rewrite record_nil. }
  destruct (After (dk_now d) (rw_lease w)) eqn:A; [intros [= <- <-]; exact (Same "")|]. cbv zeta. set (w1 := with_lease (lease_until (dk_now d)) w).
  set (d1 := set_broker (put_worker ptr w1 (dk_broker d)) d).
  assert (I1 : rinv d1) by (apply (rinv_put d ptr w); [done..|]; by rewrite A).
  assert (E1 : rb_heap (dk_broker d1) !! ptr = Some w1) by (cbn; apply list_lookup_insert_eq; by eapply lookup_lt_Some).
  change (put_worker ptr w1 (dk_broker d)) with (dk_broker d1). change (rw_job w) with (rw_job w1).
  assert (Old : forall b l, record l (set_broker b d) = record l (set_broker b d1)) by done.
  assert (Same1 : rinv (record [] (set_broker (dk_broker d1) d1))) by by rewrite set_broker_same, record_nil.
  destruct (String.eqb_spec (wq_Action req) "health") as [Ah|_].
  { intros Hh. pose proof (rinv_health d1 ptr w1 req (dk_now d) I1 E1) as I'. rewrite Hh in I'. cbn in I'. rewrite Old, Ah.
    unfold health in Hh. destruct (rw_job w1); injection Hh as _ <-; by rewrite record_nil. }
  destruct (String.eqb_spec (wq_Action req) "result") as [Ar|_].
  { intros Rr. pose proof (rinv_result d1 _ ptr w1 req b r I1 E1 Rr) as I'. rewrite Old. destruct (rw_job w1) as [j|]; [|done].
    destruct r as [y|]; [|done]. assert (Y : wy_Assignment y = None); [|rewrite Y; by rewrite <- U].
    unfold take_result in Rr. repeat (case_match; try done); by injection Rr as _ <-. }
  destruct (negb (String.eqb (wq_Action req) "poll")); [intros [= <- <-]; destruct (rw_job w1); exact Same1|].
  intros Pp. assert (A1 : After (dk_now d1) (rw_lease w1) = false) by (cbn; unfold seconds; lia).
  pose proof (rinv_poll d1 ptr w1 req b r I1 E1 A1 Pp) as I'. rewrite Old, <- U. exact I'.
Qed.

(** ** Runs *)

Lemma usable_free now w : usable now w = true -> rw_job w = None.
Proof. unfold usable. intros H. apply andb_prop in H as [_ H]. by apply bool_decide_eq_true in H. Qed.
Lemma rinv_begin d k m a : rinv d -> rinv (begin_run k m a d).
Proof.
  intros I. unfold begin_run. destruct (worker_at _ _) as [[ptr w]|]; [|by apply rinv_goto].
  destruct (usable _ w); [|by apply rinv_goto]. destruct (String.eqb _ _); by apply rinv_goto.
Qed.
Lemma rinv_snapshot d k ptr m a s : rinv d -> rinv (take_snapshot k ptr m a s d).
Proof.
  intros I. unfold take_snapshot. destruct s as [o|e]; cbn [result_bind]; [|by apply rinv_goto].
  destruct (merge_prior o a) as [w|e] eqn:E; cbn [result_bind]; by apply rinv_goto.
Qed.
Lemma rinv_assign d k ptr m a f nonce : rinv d -> merged_files a f -> rinv (assign k ptr m a f nonce d).
Proof.
  intros I Mf. unfold assign. destruct (worker_at _ _) as [[ptr' w]|] eqn:W; [|by apply rinv_goto].
  destruct (Nat.eqb_spec ptr' ptr) as [->|]; cbn [andb]; [|by apply rinv_goto]. destruct (usable _ w) eqn:U; [|by apply rinv_goto].
  destruct nonce as [n|e]; [|by apply rinv_goto]. apply worker_at_Some in W as [_ E]. apply usable_free in U. pose proof (lookup_lt_Some _ _ _ E) as Lt.
  destruct I as [L K J H M R]. set (j := length (rb_jobs (dk_broker d))). set (x := mkJob _ _ _ _ _ _ _). set (act := RaAssigned _ _ _ _ _ _).
  assert (Fr : forall y, y ∈ dk_trace d -> job_of y <> j) by (intros y Hy Ey; specialize (K y Hy); subst j; lia).
  assert (Nn : forall kind, none_of kind (dk_trace d) j) by (intros kind y Hy Ey; by destruct (Fr y Hy)).
  assert (In : act ∈ dk_trace d ++ [act]) by (apply elem_of_app; right; by apply list_elem_of_singleton).
  apply rinv_goto.
  2: { cbn. exists (rw_uid w), a, (with_job (Some j) w). cbn. split_and!; [exact In|by apply none_of_snoc| |done|done]. by rewrite list_lookup_insert_eq. }
  split; cbn [record set_broker put_worker set_heap set_jobs dk_trace dk_broker dk_runs rb_heap rb_jobs rb_workers].
  - apply remote_law_snoc; [done|]. by cbn.
  - intros y [Hy| ->%list_elem_of_singleton]%elem_of_app; rewrite length_app; cbn; [specialize (K y Hy); lia|subst j; lia].
  - intros i y [Ey|[Hi Ey]]%lookup_app_Some.
    + apply job_ok_app; [|by apply J]. intros z ->%list_elem_of_singleton. cbn. apply lookup_lt_Some in Ey. subst j. lia.
    + apply list_lookup_singleton_Some in Ey as [Ez <-]. assert (i = j) as -> by (subst j; lia). split; cbn.
      * exists k, ptr, (rw_uid w), a, f. done.
      * intros _. by apply none_of_snoc.
      * intros _. by apply none_of_snoc.
      * done.
  - intros q y i [(<- & <- & _)|[N Ey]]%list_lookup_insert_Some Hi.
    + cbn in Hi. injection Hi as <-. exists k, a, f. split; [exact In|by apply none_of_snoc].
    + destruct (H q y i Ey Hi) as (k' & a' & f' & Ha & Na). exists k', a', f'. split; [by apply elem_of_app; left|by apply none_of_snoc].
  - intros id p Ep. destruct (decide (ptr = p)) as [<-|N]; [by rewrite list_lookup_insert_eq|rewrite list_lookup_insert_ne by done; by eauto].
  - intros k' p Ep. eapply (point_ok_keeps (fun _ => True) d _ [act]); [|done|by apply R].
    split; cbn [record set_broker put_worker set_heap set_jobs dk_trace dk_broker dk_now rb_heap rb_jobs]; [done|by intros i _ y ->%list_elem_of_singleton| |].
    + intros q y i _ Ey Hi. exists y. rewrite list_lookup_insert_ne by (intros <-; congruence). done.
    + intros q y i _ Ey Hi (z & y' & Ez & Ey' & C & D). exists z, y'. cbn. rewrite list_lookup_insert_ne by (intros <-; congruence).
      split_and!; [by apply lookup_app_l_Some|done|done|done].
Qed.
Lemma owns_job d k ptr j f : rinv d -> owns d k ptr j f -> exists x, rb_jobs (dk_broker d) !! j = Some x.
Proof. intros I (uid & a & w & _ & _ & E & Ej & _). by eapply worker_job. Qed.
Lemma rinv_receive d k ptr j m f : rinv d -> owns d k ptr j f -> rinv (receive k ptr j m f d).
Proof.
  intros I O. unfold receive. destruct (rb_jobs (dk_broker d) !! j) as [x|] eqn:Ex; [|done]. destruct (rj_done x) as [r|] eqn:Dx; [|done].
  pose proof (rinv_taken d j x I Ex) as I'. destruct (jo_done _ _ _ (ri_jobs d I j x Ex) r Dx) as [uid Rp]. cbv zeta. destruct (rj_failed x).
  - apply rinv_goto; [done|]. exists f. split; [exact O|]. left. right. by exists uid, true, r.
  - apply rinv_goto; [done|]. destruct f as [f|].
    + split; [exact O|]. by exists uid.
    + exists None. split; [exact O|]. left. by exists uid, r.
Qed.
Lemma rinv_cancel_run d k ptr j f e : rinv d -> owns d k ptr j f -> rinv (cancel_run k ptr j e d).
Proof.
  intros I O. unfold cancel_run. destruct (rb_jobs (dk_broker d) !! j) as [x|] eqn:Ex; [|done].
  apply rinv_goto; [by eapply rinv_cancel|]. destruct (rj_claimed x) eqn:C; [by exists f|]. exists f. split; [exact O|]. right. split; [by exists e|].
  destruct O as (uid & a & w & _ & _ & E & _). exists (cancelled_job x), w. cbn. split_and!; [|done|done|by left].
  by rewrite list_lookup_alter_eq, Ex.
Qed.
Lemma rinv_tick d k ptr j f : rinv d -> owns d k ptr j f -> rinv (tick k ptr j d).
Proof.
  intros I O. unfold tick. destruct (rb_jobs (dk_broker d) !! j) as [x|] eqn:Ex; [|done]. destruct (lease_over d ptr) eqn:Lo; [|done].
  apply rinv_goto; [done|]. exists f. split; [exact O|]. destruct (rj_claimed x) eqn:C; [left; by left|]. right. split; [by eexists|].
  destruct O as (uid & a & w & _ & _ & E & _). unfold lease_over in Lo. rewrite E in Lo. exists x, w. split_and!; [done|done|done|by right].
Qed.
Lemma kept_answer tr j m f ended made saved uid r : RaReported j uid false r ∈ tr -> answer_ok tr j (Some f) (keep_copy m f ended made saved r).
Proof.
  intros Rp. assert (Er : forall e : error, answer_ok tr j (Some f) (Err e)) by (intros e; right; by exists uid, false, r).
  unfold keep_copy. destruct ended; [apply Er|]. destruct (_ && _); [apply Er|].
  destruct (ApplyWorkspaceChanges _ _) as [after|] eqn:A; cbn [texted result_bind]; [|apply Er]. destruct (made after) as [dir|]; cbn [result_bind]; [|apply Er].
  destruct saved; [apply Er|]. exists uid, r. split; [done|]. by exists dir, after.
Qed.
Lemma point_owns d k p j : point_ok d k p -> point_job p = Some j -> exists ptr f, owns d k ptr j f.
Proof.
  destruct p as [| |ptr i m f|ptr i m f r|ptr i e|ptr i r|]; try done; cbn; intros P [= ->]; [by eauto|destruct P; eauto|destruct P; eauto|]. destruct P as (f & O & _). eauto.
Qed.
Lemma rinv_release d k ptr j r : rinv d -> dk_runs d !! k = Some (RLeaving ptr j r) -> rinv (release k ptr j r d).
Proof.
  intros I Ek. destruct (ri_runs d I k _ Ek) as (f & O & A). pose proof (owns_job d k ptr j f I O) as [x Ex]. pose proof O as (uid & a & w & Ha & Na & E & Ej & Eu).
  assert (Other : forall q y, q <> ptr -> rb_heap (dk_broker d) !! q = Some y -> rw_job y <> Some j).
  { intros q y N Ey Hy. apply N. by eapply (job_worker d q y ptr w j). }
  assert (Own : forall k' p i, dk_runs d !! k' = Some p -> point_job p = Some i -> k' <> k -> i <> j).
  { intros k' p i Ep Hp N ->. destruct (point_owns d k' p j (ri_runs d I k' p Ep) Hp) as (q & f' & u & a' & w' & Ha' & _).
    pose proof (assigned_unique _ _ _ _ _ _ _ _ _ _ _ _ (ri_law d I) Ha Ha'). congruence. }
  pose proof I as [L K J H M R]. set (act := RaReturned k j r).
  assert (Nn : forall i, i <> j -> none_of is_returned [act] i) by (intros i N y ->%list_elem_of_singleton; cbn; congruence).
  assert (Heap : forall q y, alter (detach j) ptr (rb_heap (dk_broker d)) !! q = Some y -> forall i, rw_job y = Some i -> q <> ptr /\ rb_heap (dk_broker d) !! q = Some y).
  { intros q y Ey i Hi. destruct (decide (q = ptr)) as [->|N]; [|by rewrite list_lookup_alter_ne in Ey]. exfalso.
    rewrite list_lookup_alter_eq, E in Ey. injection Ey as <-. unfold detach in Hi. rewrite bool_decide_true in Hi by done. done. }
  unfold release. split; cbn [record set_broker goto set_heap dk_trace dk_broker dk_runs rb_heap rb_jobs rb_workers].
  - apply remote_law_snoc; [done|]. exists ptr, uid, a, f. split_and!; [done|done|]. destruct A as [A|[Xe F]]; [by left|right]. split; [done|].
    destruct F as (y & w' & Ey & _ & C & _). exact (jo_handed _ _ _ (J j y Ey) C).
  - intros y [Hy| ->%list_elem_of_singleton]%elem_of_app; [by apply K|]. by eapply lookup_lt_Some.
  - intros i y Ey. destruct (decide (i = j)) as [->|N]; [|apply job_ok_app; [|by apply J]; intros z ->%list_elem_of_singleton; cbn; congruence].
    destruct (J j y Ey) as [Ja Jh Jo Jd]. split.
    + destruct Ja as (k0 & p0 & u0 & a0 & f0 & H0 & W0). exists k0, p0, u0, a0, f0. split; [by apply elem_of_app; left|done].
    + intros C. by apply none_of_snoc; [apply Jh|].
    + intros C. by apply none_of_snoc; [apply Jo|].
    + intros z Ez. destruct (Jd z Ez) as [u Hu]. exists u. by apply elem_of_app; left.
  - intros q y i Ey Hi. destruct (Heap q y Ey i Hi) as [N Ey']. destruct (H q y i Ey' Hi) as (k' & a' & f' & Hb & Nb). exists k', a', f'.
    split; [by apply elem_of_app; left|]. apply none_of_app; [done|]. apply Nn. intros ->. by apply (Other q y).
  - intros id p Ep. destruct (M id p Ep) as [y Ey]. destruct (decide (p = ptr)) as [->|N]; [rewrite list_lookup_alter_eq, Ey; by eexists|].
    rewrite list_lookup_alter_ne by done. by eexists.
  - intros k' p [[<- <-]|[N Ep]]%lookup_insert_Some; [done|]. eapply (point_ok_keeps (fun i => i <> j) d _ [act]); [|intros i Hi; by eapply Own|by apply R].
    assert (Ne : forall q y i, i <> j -> rb_heap (dk_broker d) !! q = Some y -> rw_job y = Some i -> q <> ptr) by (intros q y i Ni Ey Hi ->; congruence).
    split; cbn [record set_broker goto set_heap dk_trace dk_broker dk_now rb_heap rb_jobs]; [done|done| |].
    + intros q y i Ni Ey Hi. exists y. rewrite list_lookup_alter_ne by (by apply not_eq_sym, (Ne q y i)). done.
    + intros q y i Ni Ey Hi (z & y' & Ez & Ey' & C & D). exists z, y'. cbn. by rewrite list_lookup_alter_ne by (by apply not_eq_sym, (Ne q y i)).
Qed.
Lemma rinv_step d mv : rinv d -> rinv (remote_step d mv).
Proof.
  intros I. pose proof (ri_runs d I) as R.
  destruct mv as [now owner req|k now m a|k s|k now n|k|k e made sv|k e|k|k|k now|k]; cbn [remote_step].
  - destruct (HandleMember _ _ _ _) as [b r] eqn:H. apply (rinv_handle (at_time now d)); [by apply rinv_at_time|done].
  - destruct (dk_runs d !! k); [done|]. by apply rinv_begin, rinv_at_time.
  - destruct (dk_runs d !! k) as [[ptr m a|ptr m a f|ptr j m f|ptr j m f r|ptr j e|ptr j r|r]|]; try done. by apply rinv_snapshot.
  - destruct (dk_runs d !! k) as [[ptr m a|ptr m a f|ptr j m f|ptr j m f r|ptr j e|ptr j r|r]|] eqn:E; try done. apply rinv_assign; [by apply rinv_at_time|]. exact (R k _ E).
  - destruct (dk_runs d !! k) as [[ptr m a|ptr m a f|ptr j m f|ptr j m f r|ptr j e|ptr j r|r]|] eqn:E; try done. apply rinv_receive; [done|]. exact (R k _ E).
  - destruct (dk_runs d !! k) as [[ptr m a|ptr m a f|ptr j m f|ptr j m f r|ptr j e0|ptr j r|r]|] eqn:E; try done.
    destruct (R k _ E) as [O [uid Rp]]. apply rinv_goto; [done|]. exists (Some f). split; [exact O|]. left. by eapply kept_answer.
  - destruct (dk_runs d !! k) as [[ptr m a|ptr m a f|ptr j m f|ptr j m f r|ptr j e0|ptr j r|r]|] eqn:E; try done. apply (rinv_cancel_run d k ptr j f e I). exact (R k _ E).
  - destruct (dk_runs d !! k) as [[ptr m a|ptr m a f|ptr j m f|ptr j m f r|ptr j e0|ptr j r|r]|] eqn:E; try done. destruct (R k _ E) as [f O].
    destruct (rb_jobs (dk_broker d) !! j) as [x|] eqn:Ex; [|done]. case_bool_decide as Dn; [|done]. destruct Dn as [r Dr].
    apply rinv_goto; [by eapply rinv_taken|]. exists f. split; [exact O|]. left. right. destruct (jo_done _ _ _ (ri_jobs d I j x Ex) r Dr) as [uid Rp].
    by exists uid, (rj_failed x), r.
  - destruct (dk_runs d !! k) as [[ptr m a|ptr m a f|ptr j m f|ptr j m f r|ptr j e0|ptr j r|r]|] eqn:E; try done. destruct (R k _ E) as [f O].
    apply rinv_goto; [done|]. exists f. split; [exact O|]. left. by left.
  - destruct (dk_runs d !! k) as [[ptr m a|ptr m a f|ptr j m f|ptr j m f r|ptr j e0|ptr j r|r]|] eqn:E; try done.
    apply (rinv_tick (at_time now d) k ptr j f); [by apply rinv_at_time|]. exact (ri_runs _ (rinv_at_time d now I) k _ E).
  - destruct (dk_runs d !! k) as [[ptr m a|ptr m a f|ptr j m f|ptr j m f r|ptr j e0|ptr j r|r]|] eqn:E; try done. by apply rinv_release.
Qed.
Lemma remote_reachable root dir now moves : rinv (remote_run (new_desk root dir now) moves).
Proof.
  unfold remote_run. assert (I : rinv (new_desk root dir now)); [|revert I; generalize (new_desk root dir now); induction moves as [|mv l IH]; cbn; eauto using rinv_step].
  split; try done.
  - intros t1 a t2 E. by destruct t1.
  - by intros a Ha%not_elem_of_nil.
Qed.
Lemma law_split tr t1 a t2 : law_abiding tr -> tr = t1 ++ a :: t2 -> lawful t1 a.
Proof. intros L E. by eapply L. Qed.
(** Nothing is handed out of a job whose run has returned. *)
Lemma none_handed_later tr t1 k j r t2 : law_abiding tr -> tr = t1 ++ RaReturned k j r :: t2 -> none_of is_handed t1 j -> none_of is_handed tr j.
Proof.
  intros L -> N a Ha Ej. apply elem_of_app in Ha as [Ha|[-> |Ha]%elem_of_cons]; [by apply N|done|].
  destruct a as [| j' uid w| |]; try done. cbn in Ej. subst j'. apply list_elem_of_split in Ha as (u1 & u2 & ->).
  specialize (L (t1 ++ RaReturned k j r :: u1) (RaHanded j uid w) u2). destruct L as (_ & _ & X); [by rewrite <- app_assoc|].
  specialize (X (RaReturned k j r)). cbn in X. apply X; [|done]. apply elem_of_app. right. left.
Qed.

(** C33: in any course of requests and runs, an assignment is handed out at most once
    and before its run returned, to the member whose agent the run was given to; it
    carries the text of the human and the rule for remote work, no root of the
    host's project and no instructions of the host, and in the scope of the host the
    workspace made of the project and the changes of the steps before. *)
Theorem remote_work_is_the_owners root dir now moves t1 j uid w t2 :
  dk_trace (remote_run (new_desk root dir now) moves) = t1 ++ RaHanded j uid w :: t2 ->
  (exists k ptr a f, RaAssigned k j ptr uid a f ∈ t1 /\ merged_files a f /\ w.2 = fi_workspace <$> f
     /\ as_HumanPrompt w.1 = as_HumanPrompt a /\ as_Prompt w.1 = as_HumanPrompt a +:+ remote_rule /\ as_ProjectRoot w.1 = "" /\ as_Instructions w.1 = "")
  /\ none_of is_handed t1 j /\ none_of is_handed t2 j /\ none_of is_returned t1 j.
Proof.
  intros E. pose proof (ri_law _ (remote_reachable root dir now moves)) as L. rewrite E in L.
  destruct (L _ _ _ eq_refl) as ((k & ptr & a & f & Ha & ->) & N & M). split_and!; [|done| |done].
  - exists k, ptr, a, f. split_and!; try done. apply list_elem_of_split in Ha as (u1 & u2 & ->).
    destruct (L u1 (RaAssigned k j ptr uid a f) (u2 ++ RaHanded j uid (for_member a, fi_workspace <$> f) :: t2)) as [_ Mf]; [by rewrite <- app_assoc|done].
  - intros x Hx Ej. destruct x as [| j' uid' w'| |]; try done. cbn in Ej. subst j'. apply list_elem_of_split in Hx as (u1 & u2 & ->).
    specialize (L (t1 ++ RaHanded j uid (for_member a, fi_workspace <$> f) :: u1) (RaHanded j uid' w') u2).
    destruct L as (_ & X & _); [by rewrite <- app_assoc|]. specialize (X (RaHanded j uid (for_member a, fi_workspace <$> f))). apply X; [|done].
    apply elem_of_app. right. left.
Qed.
(** C34: what a run of an assignment returns is true: a result is what the member whose
    agent it was given to reported of this job as not failed (in the scope of the
    host, with the difference between the project and what the reported changes make
    of the workspace handed out); an error that is not an uncertain delivery means
    that the job was reported on, or that its assignment never leaves the host, not
    even later. *)
Theorem remote_answers_true root dir now moves t1 k j r t2 :
  let tr := dk_trace (remote_run (new_desk root dir now) moves) in
  tr = t1 ++ RaReturned k j r :: t2 ->
  match r with
  | Ok x => exists ptr uid a f r0, RaAssigned k j ptr uid a f ∈ t1 /\ RaReported j uid false r0 ∈ t1 /\ made_of f r0 x
  | Err e => e = Sentinel ErrDeliveryUnknown \/ (exists uid failed r0, RaReported j uid failed r0 ∈ t1) \/ none_of is_handed tr j
  end.
Proof.
  intros tr E. pose proof (ri_law _ (remote_reachable root dir now moves)) as L. fold tr in L.
  destruct (law_split _ _ _ _ L E) as (ptr & uid & a & f & Ha & _ & [A|[[e ->] N]]).
  - destruct r as [x|e]; [|destruct A; eauto]. destruct A as (uid' & r0 & Rp & Mk). exists ptr, uid, a, f, r0. split_and!; [done| |done].
    pose proof Rp as Rs. apply list_elem_of_split in Rs as (u1 & u2 & E1).
    destruct (L u1 (RaReported j uid' false r0) (u2 ++ RaReturned k j (Ok x) :: t2)) as ((k1 & p1 & a1 & f1 & Ha1) & _); [rewrite E, E1; by rewrite <- app_assoc|].
    assert (Ha1' : RaAssigned k1 j p1 uid' a1 f1 ∈ tr) by (rewrite E, E1; apply elem_of_app; left; by apply elem_of_app; left).
    assert (Ha' : RaAssigned k j ptr uid a f ∈ tr) by (rewrite E; by apply elem_of_app; left).
    pose proof (assigned_unique _ _ _ _ _ _ _ _ _ _ _ _ L Ha' Ha1') as [=]. by subst.
  - right. right. by eapply none_handed_later.
Qed.

(** ** The directory *)

Record agent_ok (id : string) (w : remoteWorker) : Prop := mk_agent_ok
  { ak_id : wm_ID (rw_member w) = id /\ id = worker_id (rw_uid w) (rw_invitation w);
    ak_uid : rw_uid w <> 0;
    ak_name : len (wm_Name (rw_member w)) <= 120;
    ak_member : wm_Provider (rw_member w) = "remote" /\ wm_Command (rw_member w) = [] /\ wm_Instructions (rw_member w) = "" }.
Definition directory_ok (b : RemoteBroker) : Prop :=
  (size (rb_workers b) <= 32)%nat
  /\ forall id ptr, rb_workers b !! id = Some ptr -> exists w, rb_heap b !! ptr = Some w /\ agent_ok id w.
(** What of a worker never changes. *)
Definition same_agent (w w' : remoteWorker) : Prop :=
  rw_uid w' = rw_uid w /\ rw_invitation w' = rw_invitation w /\ rw_member w' = rw_member w.
Definition same_directory (b b' : RemoteBroker) : Prop :=
  rb_workers b' = rb_workers b /\ forall ptr w, rb_heap b !! ptr = Some w -> exists w', rb_heap b' !! ptr = Some w' /\ same_agent w w'.
#[export] Instance same_agent_preorder : PreOrder same_agent.
Proof. split; [by intros w|intros a b c (A1 & A2 & A3) (B1 & B2 & B3); unfold same_agent; by rewrite B1, B2, B3]. Qed.
#[export] Instance same_directory_preorder : PreOrder same_directory.
Proof.
  split; [intros b; split; [done|]; intros ptr w E; by exists w|]. intros a b c [W1 H1] [W2 H2]. split; [congruence|]. intros ptr w E.
  destruct (H1 ptr w E) as (w1 & E1 & S1), (H2 ptr w1 E1) as (w2 & E2 & S2). exists w2. split; [done|]. by etrans.
Qed.
Lemma same_directory_ok b b' : same_directory b b' -> directory_ok b -> directory_ok b'.
Proof.
  intros [W H] [Sz D]. split; [by rewrite W|]. rewrite W. intros id ptr E. destruct (D id ptr E) as (w & Ew & [A1 A2 A3 A4]).
  destruct (H ptr w Ew) as (w' & Ew' & U & Iv & Mm). exists w'. split; [done|]. split; by rewrite ?U, ?Iv, ?Mm.
Qed.
Lemma same_put b ptr w w' : rb_heap b !! ptr = Some w -> same_agent w w' -> same_directory b (put_worker ptr w' b).
Proof.
  intros E S. split; [done|]. intros p y Ey. cbn. destruct (decide (ptr = p)) as [<-|N].
  - exists w'. rewrite list_lookup_insert_eq by (by eapply lookup_lt_Some). rewrite E in Ey. injection Ey as <-. done.
  - exists y. by rewrite list_lookup_insert_ne.
Qed.
Lemma same_jobs b f j : same_directory b (alter_job f j b).
Proof. split; [done|]. intros ptr w E. by exists w. Qed.
Lemma same_handle_owned b ptr w req now : rb_heap b !! ptr = Some w ->
  same_directory b (leave ptr w req b).1 /\ same_directory b (health now ptr w req b).1 /\ same_directory b (take_result now ptr w req b).1
  /\ same_directory b (poll ptr w req b).1.
Proof.
  intros E. assert (P : forall w', same_agent w w' -> same_directory b (put_worker ptr w' b)) by (intros w'; by apply same_put).
  unfold leave, health, take_result, poll. split_and!.
  - destruct (rw_job w); cbn; [etrans; [|apply same_jobs]|]; by apply P.
  - destruct (rw_job w); [done|by apply P].
  - repeat case_match; try done. cbn. etrans; [|apply same_jobs]. by apply P.
  - repeat case_match; try done. apply same_jobs.
Qed.
Lemma directory_handle now owner req b : directory_ok b -> directory_ok (HandleMember now owner req b).1.
Proof.
  intros D. unfold HandleMember. destruct (String.eqb _ "invite").
  - unfold invite. destruct (negb _); [done|]. destruct (_ && _); [done|]. destruct ((mb_UID owner =? 0) || _ || _ || _) eqn:G; [done|].
    destruct (AgentName _ _) as [agent|e]; [|done]. cbv zeta.
    generalize ((if String.eqb (TrimSpace (mb_Name owner)) "" then anonymous (mb_UID owner) else TrimSpace (mb_Name owner)) +:+ "-" +:+ agent). intros name.
    destruct (Z.ltb_spec 120 (len name)) as [|Ln]; [done|]. unfold invite_checked. destruct (worker_at b _) as [[ptr w]|] eqn:W.
    + apply worker_at_Some in W as [_ E]. repeat (case_match; try done); apply (same_directory_ok b); try done; by apply (same_put b ptr w).
    + destruct D as [Sz D]. assert (Kept : forall id ptr, drop_lapsed now b !! id = Some ptr -> exists w, rb_heap b !! ptr = Some w /\ agent_ok id w).
      { intros id ptr [E _]%map_lookup_filter_Some. by apply D. }
      cbv zeta. destruct (Nat.leb_spec 32 (size (drop_lapsed now b))) as [Full|Room].
      * split; [cbn; etrans; [apply map_subseteq_size, map_filter_subseteq|done]|exact Kept].
      * split; cbn; [rewrite map_size_insert; destruct (drop_lapsed now b !! _); cbn; lia|].
        intros id ptr [[<- <-]|[_ E]]%lookup_insert_Some.
        -- eexists. split; [by rewrite lookup_app_r, Nat.sub_diag by lia|]. split; cbn; [done| |done|done]. intros Z0. by rewrite Z0 in G.
        -- destruct (Kept id ptr E) as (w & Ew & A). exists w. split; [by apply lookup_app_l_Some|done].
  - destruct (worker_at b _) as [[ptr w]|] eqn:W; [|done]. apply worker_at_Some in W as [_ E].
    destruct (negb _); [done|]. destruct (String.eqb _ "leave"); [apply (same_directory_ok b); [|done]; by apply (same_handle_owned b ptr w req now)|].
    destruct (After _ _); [done|]. cbv zeta. set (w1 := with_lease _ w). set (b1 := put_worker ptr w1 b).
    assert (S1 : same_directory b b1) by by apply (same_put b ptr w).
    assert (E1 : rb_heap b1 !! ptr = Some w1) by (cbn; apply list_lookup_insert_eq; by eapply lookup_lt_Some).
    destruct (same_handle_owned b1 ptr w1 req now E1) as (_ & Hh & Hr & Hp). apply (same_directory_ok b); [|done]. etrans; [exact S1|].
    destruct (String.eqb _ "health"); [done|]. destruct (String.eqb _ "result"); [done|]. by destruct (negb _).
Qed.
Lemma directory_step d mv : directory_ok (dk_broker d) -> directory_ok (dk_broker (remote_step d mv)).
Proof.
  intros D. assert (Jobs : forall f j, directory_ok (alter_job f j (dk_broker d))) by (intros f j; eapply same_directory_ok; [apply same_jobs|done]).
  destruct mv as [now owner req|k now m a|k s|k now n|k|k e made sv|k e|k|k|k now|k]; cbn [remote_step].
  1: { pose proof (directory_handle (dk_now (at_time now d)) owner req (dk_broker d) D) as H. cbn in *. by destruct (HandleMember _ _ _ _). }
  all: destruct (dk_runs d !! k) as [[ptr m' a'|ptr m' a' f|ptr j m' f|ptr j m' f r|ptr j e0|ptr j r|r]|]; try done.
  - unfold begin_run. by repeat case_match.
  - unfold take_snapshot. by case_match.
  - unfold assign. destruct (worker_at _ _) as [[p w]|] eqn:W; [|done]. apply worker_at_Some in W as [_ E]. cbn [at_time dk_broker] in *.
    destruct (Nat.eqb_spec p ptr) as [->|]; cbn [andb]; [|done]. destruct (usable _ w); [|done]. destruct n as [n|]; [|done]. cbn.
    eapply same_directory_ok; [|exact D]. exact (same_put (dk_broker d) ptr w (with_job _ w) E ltac:(done)).
  - unfold receive. repeat case_match; cbn; try done; apply Jobs.
  - unfold cancel_run. repeat case_match; cbn; try done; apply Jobs.
  - repeat case_match; cbn; try done; apply Jobs.
  - unfold tick. by repeat case_match.
  - unfold release. cbn. eapply same_directory_ok; [|exact D]. split; [done|]. cbn. intros p w E. destruct (decide (ptr = p)) as [<-|N].
    + exists (detach j w). rewrite list_lookup_alter_eq, E. split; [done|]. unfold detach. by case_bool_decide.
    + exists w. by rewrite list_lookup_alter_ne.
Qed.
(** The room never lists more than 32 agents of members; each is listed under the
    id made of the member who invited it and the invitation, has a name of at most
    120 bytes, and no command and no instructions. *)
Theorem remote_directory_bounded root dir now moves :
  directory_ok (dk_broker (remote_run (new_desk root dir now) moves)).
Proof.
  unfold remote_run. assert (D : directory_ok (dk_broker (new_desk root dir now))) by (split; [cbn; rewrite map_size_empty; lia|done]).
  revert D. generalize (new_desk root dir now). induction moves as [|mv l IH]; cbn; [done|]. intros d D. by apply IH, directory_step.
Qed.

(** ** A course *)

Definition ann : RoomTypes.Member := {| mb_UID := 3; mb_Name := "ann" |}.
Definition ann_asks (action id job text : string) : WorkerRequest := mkWorkerRequest true "" "local" [] action id "codex" "work" job text false.
Definition ann_agent : Workgroup.Member :=
  {| wm_Mode := "work"; wm_ID := "w3-0123456789ab"; wm_Name := "ann-Codex"; wm_Provider := "remote"; wm_Description := "codex"; wm_Instructions := "";
     wm_Command := []; wm_TimeoutSeconds := 1800 |}.
Definition some_work : Assignment :=
  {| as_StepID := "s"; as_StepPrompt := "review"; as_DependsOn := []; as_Version := 1; as_ID := "A"; as_AgentID := "w3-0123456789ab"; as_HumanUID := 2;
     as_ProjectRoot := "/srv/project"; as_TaskID := 0; as_HumanPrompt := "please review"; as_Prompt := "host only"; as_Instructions := "host only"; as_Prior := [] |}.
Definition course : list remote_move :=
  let asks action job text := RmHandle 1 ann (ann_asks action "w3-0123456789ab" job text) in
  [RmHandle 0 ann (ann_asks "invite" "0123456789abcdef0123456789abcdef" "" ""); asks "health" "" ""; RmRun 0 2 ann_agent some_work; RmAssign 0 2 (Ok "abc");
   asks "poll" "" ""; asks "result" "616263" "looks good"; RmResult 0; RmRelease 0].
Lemma remote_work_is_the_owners_witness :
  let t1 := [RaAssigned 0 0 0 3 some_work None] in
  exists t2, dk_trace (remote_run (new_desk "" "" 0) course) = t1 ++ RaHanded 0 3 (for_member some_work, None) :: t2
  /\ none_of is_handed t1 0 /\ none_of is_handed t2 0.
Proof.
  intros t1. eexists. assert (E : dk_trace (remote_run (new_desk "" "" 0) course) = t1 ++ RaHanded 0 3 (for_member some_work, None) :: drop 2 (dk_trace (remote_run (new_desk "" "" 0) course))) by by vm_compute.
  split; [exact E|]. destruct (remote_work_is_the_owners "" "" 0 course _ _ _ _ _ E) as (_ & N1 & N2 & _). by split.
Defined.
Lemma remote_answers_true_witness :
  let tr := dk_trace (remote_run (new_desk "" "" 0) course) in
  let x := reported (ann_asks "result" "w3-0123456789ab" "616263" "looks good") in
  length tr = 4%nat /\ exists ptr uid a f r0, RaAssigned 0 0 ptr uid a f ∈ take 3 tr /\ RaReported 0 uid false r0 ∈ take 3 tr /\ made_of f r0 x.
Proof.
  intros tr x. split; [by vm_compute|]. assert (E : tr = take 3 tr ++ RaReturned 0 0 (Ok x) :: []) by by vm_compute.
  exact (remote_answers_true "" "" 0 course (take 3 tr) 0 0 (Ok x) [] E).
Defined.
