(* ===== verification/Questions.v ===== *)
(** * Questions of askers ([internal/questions/service.go])

    A table of questions beside the room: one generation at a time, each question of
    a member asked once, whatever is repeated or restarted.  The rows are in the
    order of their numbers.  What a query does and what the model answers is an
    argument of the step; a query that fails may have been carried out or not. *)
From S2P Require Import Prelude GoStrings RoomTypes Coordinator ResourceRequest.

(** ** Data *)

Record Entry := mkEntry
  { en_CreatedAt : string; en_CompletedAt : string; en_Seq : Z; en_Session : string; en_UID : UID; en_Name : string; en_Question : string;
    en_Answer : string; en_State : string }.
(** A row is an entry with the identifier of its request. *)
Record QuestionRow := mkRow { qr_entry : Entry; qr_request : string }.
#[export] Instance Entry_eq_dec : EqDecision Entry.
Proof. solve_decision. Defined.
#[export] Instance QuestionRow_eq_dec : EqDecision QuestionRow.
Proof. solve_decision. Defined.
(** [qt_next] is the counter of AUTOINCREMENT. *)
Record Table := mkTable { qt_rows : list QuestionRow; qt_next : Z }.
(** What a query reports, and whether it was carried out. *)
Inductive outcome := Done | Failed (e : error) (carried_out : bool).

(** ** Queries *)

Definition of_member (uid : UID) (id : string) (r : QuestionRow) : bool := (en_UID (qr_entry r) =? uid) && String.eqb (qr_request r) id.
Definition max_int64 : Z := 9223372036854775807.
(** [List] *)
Definition listed (uid : UID) (all : bool) (before : Z) (r : QuestionRow) : bool :=
  (all || (en_UID (qr_entry r) =? uid)) && (en_Seq (qr_entry r) <? (if before <=? 0 then max_int64 else before)).
Definition List_ (uid : UID) (all : bool) (before : Z) (t : Table) : list Entry := take 50 (reverse (qr_entry <$> List.filter (listed uid all before) (qt_rows t))).
Definition set_outcome (answer state session completed : string) (e : Entry) : Entry :=
  mkEntry (en_CreatedAt e) completed (en_Seq e) session (en_UID e) (en_Name e) (en_Question e) answer state.
(** [Open]: a question that was being asked when the host stopped has failed. *)
Definition restart_text : string := "host 重启，请重新提问".
Definition stopped (e : Entry) : Entry :=
  if String.eqb (en_State e) "running"
  then mkEntry (en_CreatedAt e) (en_CompletedAt e) (en_Seq e) (en_Session e) (en_UID e) (en_Name e) (en_Question e) restart_text "failed" else e.
Definition on_entry (f : Entry -> Entry) (r : QuestionRow) : QuestionRow := mkRow (f (qr_entry r)) (qr_request r).
Definition Open (t : Table) : Table := mkTable (on_entry stopped <$> qt_rows t) (qt_next t).
(** [INSERT], with [UNIQUE(uid,request_id)]. *)
Definition insert_question (e : Entry) (id : string) (t : Table) : Table :=
  if existsb (of_member (en_UID e) id) (qt_rows t) then t
  else mkTable (qt_rows t ++ [mkRow (mkEntry (en_CreatedAt e) "" (qt_next t) (en_Session e) (en_UID e) (en_Name e) (en_Question e) "" "running") id]) (qt_next t + 1).
Definition update_answer (seq : Z) (answer state session completed : string) (t : Table) : Table :=
  mkTable (update_where (fun r => en_Seq (qr_entry r) =? seq) (on_entry (set_outcome answer state session completed)) (qt_rows t)) (qt_next t).

(** ** Asking *)

(** Where a call of [Ask] is. *)
Inductive asking := Generating (e : Entry) (id : string) | Answered (r : result error Entry).
Inductive question_act :=
| QuAsked (uid : UID) (name id text : string)          (* the runner is called *)
| QuReturned (uid : UID) (id text : string) (e : Entry).
Record Service := mkService
  { sv_table : Table; sv_ready : bool; sv_mu : option nat; sv_calls : gmap nat asking; sv_trace : list question_act }.
Definition with_call (k : nat) (p : asking) (s : Service) : Service := mkService (sv_table s) (sv_ready s) (sv_mu s) (<[k := p]> (sv_calls s)) (sv_trace s).
Definition with_table (t : Table) (s : Service) : Service := mkService t (sv_ready s) (sv_mu s) (sv_calls s) (sv_trace s).
Definition with_mu (m : option nat) (s : Service) : Service := mkService (sv_table s) (sv_ready s) m (sv_calls s) (sv_trace s).
Definition acted (a : question_act) (s : Service) : Service := mkService (sv_table s) (sv_ready s) (sv_mu s) (sv_calls s) (sv_trace s ++ [a]).
Definition refuse_ask (k : nat) (e : error) (s : Service) : Service := with_call k (Answered (Err e)) s.
Definition valid_question (id text : string) : bool :=
  match hex_DecodeString id with Some raw => (len raw =? 16) && negb (6000 <? len text) && negb (blank text) | None => false end.
Definition new_entry (m : Member) (text : string) (now : Z) : Entry := mkEntry (format_time now) "" 0 "" (mb_UID m) (mb_Name m) text "" "running".
(** [Ask] up to the call of the model. *)
Definition begin_ask (k : nat) (m : Member) (id text : string) (now : Z) (selected inserted : outcome) (s : Service) : Service :=
  if negb (sv_ready s) then refuse_ask k (ErrText "Host 尚未提供 Codex 只读问答") s
  else if negb (valid_question id text) then refuse_ask k (ErrText "问题不能为空且最多 6000 字节") s
  else if bool_decide (is_Some (sv_mu s)) then refuse_ask k (ErrText "问答正在处理请求，请稍后重试") s
  else match selected with
  | Failed e _ => refuse_ask k e s
  | Done =>
      match List.find (of_member (mb_UID m) id) (qt_rows (sv_table s)) with
      | Some r =>
          if negb (String.eqb (en_Question (qr_entry r)) text) then refuse_ask k (ErrText "request ID conflict") s
          else acted (QuReturned (mb_UID m) id text (qr_entry r)) (with_call k (Answered (Ok (qr_entry r))) s)
      | None =>
          let e := new_entry m text now in
          let t := insert_question e id (sv_table s) in
          match inserted with
          | Failed err carried => refuse_ask k err (with_table (if carried then t else sv_table s) s)
          | Done =>
              let e := mkEntry (en_CreatedAt e) "" (qt_next (sv_table s)) "" (en_UID e) (en_Name e) text "" "running" in
              acted (QuAsked (mb_UID m) (mb_Name m) id text) (with_call k (Generating e id) (with_mu (Some k) (with_table t s)))
          end
      end
  end.
Definition answer_limit : nat := 32000.
Definition finished (e : Entry) (answer : QuestionAnswer) (failed : option error) (now : Z) : Entry :=
  let text := match failed with Some x => error_text x | None => qa_Text answer end in
  set_outcome (take_bytes answer_limit text) (match failed with Some _ => "failed" | None => "completed" end) (qa_Session answer) (format_time now) e.
(** The rest of [Ask]: the model has answered. *)
Definition end_ask (k : nat) (e : Entry) (id : string) (answer : QuestionAnswer) (failed : option error) (now : Z) (updated : outcome) (s : Service) : Service :=
  let e' := finished e answer failed now in
  let t := update_answer (en_Seq e') (en_Answer e') (en_State e') (en_Session e') (en_CompletedAt e') (sv_table s) in
  let s := with_mu None s in
  match updated with
  | Done => acted (QuReturned (en_UID e) id (en_Question e) e') (with_call k (Answered (Ok e')) (with_table t s))
  | Failed err carried => refuse_ask k err (with_table (if carried then t else sv_table s) s)
  end.

(** ** Moves *)

Inductive question_move :=
| QmAsk (k : nat) (m : Member) (id text : string) (now : Z) (selected inserted : outcome)
| QmAnswer (k : nat) (answer : QuestionAnswer) (failed : option error) (now : Z) (updated : outcome)
| QmRestart (ready : bool).
Definition question_step (s : Service) (mv : question_move) : Service :=
  match mv with
  | QmAsk k m id text now selected inserted => match sv_calls s !! k with None => begin_ask k m id text now selected inserted s | Some _ => s end
  | QmAnswer k answer failed now updated =>
      match sv_calls s !! k with Some (Generating e id) => end_ask k e id answer failed now updated s | _ => s end
  | QmRestart ready => mkService (Open (sv_table s)) ready None ∅ (sv_trace s)
  end.
Definition question_run (s : Service) (l : list question_move) : Service := foldl question_step s l.
Definition new_service (ready : bool) : Service := mkService (mkTable [] 1) ready None ∅ [].

(** ** What stays true *)

Definition key (r : QuestionRow) : UID * string := (en_UID (qr_entry r), qr_request r).
Definition settled (r : QuestionRow) : bool := negb (String.eqb (en_State (qr_entry r)) "running").
Definition asked_key (a : question_act) : option (UID * string) := match a with QuAsked uid _ id _ => Some (uid, id) | QuReturned _ _ _ _ => None end.
Definition asked_keys (tr : list question_act) : list (UID * string) := omap asked_key tr.
Record questions_inv (s : Service) : Prop := mk_qinv
  { qi_keys : NoDup (key <$> qt_rows (sv_table s));
    qi_seqs : NoDup ((fun r => en_Seq (qr_entry r)) <$> qt_rows (sv_table s));
    qi_next : forall r, r ∈ qt_rows (sv_table s) -> en_Seq (qr_entry r) < qt_next (sv_table s);
    qi_asked : NoDup (asked_keys (sv_trace s));
    qi_known : forall k, k ∈ asked_keys (sv_trace s) -> k ∈ key <$> qt_rows (sv_table s);
    qi_running : forall k e id, sv_calls s !! k = Some (Generating e id) -> sv_mu s = Some k
      /\ exists r, r ∈ qt_rows (sv_table s) /\ key r = (en_UID e, id) /\ en_Seq (qr_entry r) = en_Seq e /\ en_Question (qr_entry r) = en_Question e
           /\ settled r = false;
    qi_returned : forall uid id text e, QuReturned uid id text e ∈ sv_trace s -> en_UID e = uid /\ en_Question e = text }.
Lemma of_memberP uid id r : of_member uid id r = true <-> key r = (uid, id).
Proof.
  unfold of_member, key. rewrite andb_true_iff, Z.eqb_eq, String.eqb_eq. split; [by intros [-> ->]|by intros [= -> ->]].
Qed.
Lemma no_row uid id l : List.find (of_member uid id) l = None -> (uid, id) ∉ key <$> l.
Proof.
  intros N (r & E & H)%list_elem_of_fmap. apply list_elem_of_In in H. pose proof (List.find_none _ _ N r H) as F.
  assert (T : of_member uid id r = true) by by apply of_memberP. congruence.
Qed.
Lemma stopped_same r : key (on_entry stopped r) = key r /\ en_Seq (qr_entry (on_entry stopped r)) = en_Seq (qr_entry r).
Proof. unfold on_entry, stopped, key. cbn. by destruct (String.eqb _ _). Qed.
Lemma update_rows seq answer state session completed l :
  key <$> update_where (fun r => en_Seq (qr_entry r) =? seq) (on_entry (set_outcome answer state session completed)) l = key <$> l
  /\ (fun r => en_Seq (qr_entry r)) <$> update_where (fun r => en_Seq (qr_entry r) =? seq) (on_entry (set_outcome answer state session completed)) l
     = (fun r => en_Seq (qr_entry r)) <$> l.
Proof. split; by rewrite update_where_fmap. Qed.
Lemma insert_fresh e id t : List.find (of_member (en_UID e) id) (qt_rows t) = None ->
  insert_question e id t = mkTable (qt_rows t ++ [mkRow (mkEntry (en_CreatedAt e) "" (qt_next t) (en_Session e) (en_UID e) (en_Name e) (en_Question e) "" "running") id]) (qt_next t + 1).
Proof.
  intros N. unfold insert_question. destruct (existsb _ _) eqn:X; [|done]. apply existsb_exists in X as (r & H & F).
  pose proof (List.find_none _ _ N r H). congruence.
Qed.
Lemma inv_insert s e id : questions_inv s -> sv_mu s = None -> List.find (of_member (en_UID e) id) (qt_rows (sv_table s)) = None ->
  questions_inv (with_table (insert_question e id (sv_table s)) s).
Proof.
  intros [K S N A Kn R Q] M F. rewrite (insert_fresh _ _ _ F). pose proof (no_row _ _ _ F) as Nk.
  split; cbn [with_table sv_table qt_rows qt_next sv_trace sv_calls sv_mu]; try done.
  - rewrite fmap_app. by apply NoDup_snoc.
  - rewrite fmap_app. apply NoDup_snoc; [done|]. cbn. intros (r & E & H)%list_elem_of_fmap. specialize (N r H). lia.
  - intros r [H| ->%list_elem_of_singleton]%elem_of_app; [specialize (N r H); lia|cbn; lia].
  - intros k Hk. rewrite fmap_app. apply elem_of_app. left. by apply Kn.
  - intros k e0 id0 E. destruct (R k e0 id0 E) as [Mk _]. congruence.
Qed.
Lemma inv_answered s k r : questions_inv s -> (sv_mu s = None \/ sv_calls s !! k = None) -> questions_inv (with_call k (Answered r) s).
Proof.
  intros [K S N A Kn R Q] M. split; cbn [with_call sv_table sv_trace sv_calls sv_mu]; try done.
  intros k' e id [[_ E]|[_ E]]%lookup_insert_Some; [done|by apply R].
Qed.
Lemma inv_returned s uid id text e : questions_inv s -> en_UID e = uid -> en_Question e = text -> questions_inv (acted (QuReturned uid id text e) s).
Proof.
  intros [K S N A Kn R Q] U T. assert (E : asked_keys (sv_trace s ++ [QuReturned uid id text e]) = asked_keys (sv_trace s)) by (unfold asked_keys; rewrite omap_app; apply app_nil_r).
  split; cbn [acted sv_table sv_trace sv_calls sv_mu]; rewrite ?E; try done. intros u i t x [H|[= -> -> -> ->]%list_elem_of_singleton]%elem_of_app; [by eapply Q|done].
Qed.
Lemma inv_begin s k m id text now selected inserted : questions_inv s -> sv_calls s !! k = None -> questions_inv (begin_ask k m id text now selected inserted s).
Proof.
  intros I C. unfold begin_ask, refuse_ask. assert (Ref : forall r, questions_inv (with_call k (Answered r) s)) by (intros r; apply inv_answered; [done|by right]).
  destruct (negb (sv_ready s)); [done|]. destruct (negb (valid_question id text)); [done|]. case_bool_decide as M; [done|].
  assert (Mu : sv_mu s = None) by (destruct (sv_mu s); [by destruct M|done]). destruct selected as [|e c]; [|done].
  destruct (List.find _ _) as [r|] eqn:F.
  - destruct (String.eqb_spec (en_Question (qr_entry r)) text) as [T|T]; cbn [negb]; [|done]. apply find_some in F as [_ O]. apply of_memberP in O as [= U _].
    by apply inv_returned.
  - pose proof (inv_insert s (new_entry m text now) id I Mu F) as I'. cbv zeta. destruct inserted as [|e c].
    + pose proof I' as [K S N A Kn R Q]. set (e := new_entry m text now) in *. rewrite (insert_fresh e id _ F) in *. cbn [with_table sv_table qt_rows qt_next] in *.
      pose proof (no_row _ _ _ F) as Nk.
      split; cbn [acted with_call with_mu with_table sv_table qt_rows qt_next sv_trace sv_calls sv_mu]; try done.
      * unfold asked_keys. rewrite omap_app. apply NoDup_snoc; [exact A|]. intros H. apply Nk. by apply (qi_known s I).
      * intros x. unfold asked_keys. rewrite omap_app. intros [H| ->%list_elem_of_singleton]%elem_of_app; [by apply Kn|].
        rewrite fmap_app. apply elem_of_app. right. by apply list_elem_of_singleton.
      * intros k' e' id' [[<- [= <- <-]]|[_ E]]%lookup_insert_Some; [|destruct (qi_running s I k' e' id' E); congruence].
        split; [done|]. eexists. split; [apply elem_of_app; right; by apply list_elem_of_singleton|done].
      * intros u i t x [H|H%list_elem_of_singleton]%elem_of_app; [by eapply Q|done].
    + destruct c; apply inv_answered; try (by left); [exact I'|by destruct s].
Qed.
Lemma running_row s k e id : questions_inv s -> sv_calls s !! k = Some (Generating e id) ->
  forall r, r ∈ qt_rows (sv_table s) -> en_Seq (qr_entry r) = en_Seq e -> settled r = false.
Proof.
  intros I C r H E. destruct (qi_running s I k e id C) as (_ & r' & H' & _ & E' & _ & S').
  assert (r = r') as ->; [|done]. apply (NoDup_fmap_inj (fun r => en_Seq (qr_entry r)) (qt_rows (sv_table s))); [apply I|done|done|congruence].
Qed.
Lemma inv_end s k e id answer failed now updated : questions_inv s -> sv_calls s !! k = Some (Generating e id) ->
  questions_inv (end_ask k e id answer failed now updated s).
Proof.
  intros I C. destruct (qi_running s I k e id C) as [Mu _]. unfold end_ask. cbv zeta. set (e' := finished e answer failed now).
  set (t := update_answer _ _ _ _ _ _).
  assert (Free : forall t', key <$> qt_rows t' = key <$> qt_rows (sv_table s) -> (fun r => en_Seq (qr_entry r)) <$> qt_rows t' = (fun r => en_Seq (qr_entry r)) <$> qt_rows (sv_table s) ->
            qt_next t' = qt_next (sv_table s) -> forall r, questions_inv (with_call k (Answered r) (with_table t' (with_mu None s)))).
  { intros t' Ek Es En r. destruct I as [K S N A Kn R Q]. split; cbn [with_call with_mu with_table sv_table sv_trace sv_calls sv_mu]; rewrite ?Ek, ?Es, ?En; try done.
    - intros x Hx. assert (Hs : en_Seq (qr_entry x) ∈ (fun r => en_Seq (qr_entry r)) <$> qt_rows t') by (by apply (list_elem_of_fmap_2 (fun r => en_Seq (qr_entry r)))).
      rewrite Es in Hs. apply list_elem_of_fmap in Hs as (y & -> & Hy). by apply N.
    - intros k' e0 id0 [[_ X]|[Ne X]]%lookup_insert_Some; [done|]. destruct (R k' e0 id0 X) as [M' _]. congruence. }
  destruct (update_rows (en_Seq e') (en_Answer e') (en_State e') (en_Session e') (en_CompletedAt e') (qt_rows (sv_table s))) as [Ek Es].
  destruct updated as [|err c].
  - apply inv_returned; [|done|done]. by apply Free.
  - unfold refuse_ask. destruct c; by apply Free.
Qed.
Lemma inv_restart s ready : questions_inv s -> questions_inv (mkService (Open (sv_table s)) ready None ∅ (sv_trace s)).
Proof.
  intros [K S N A Kn R Q]. assert (Ek : key <$> qt_rows (Open (sv_table s)) = key <$> qt_rows (sv_table s)).
  { cbn. rewrite <- list_fmap_compose. apply list_fmap_ext. intros i r _. apply stopped_same. }
  assert (Es : (fun r => en_Seq (qr_entry r)) <$> qt_rows (Open (sv_table s)) = (fun r => en_Seq (qr_entry r)) <$> qt_rows (sv_table s)).
  { cbn. rewrite <- list_fmap_compose. apply list_fmap_ext. intros i r _. apply stopped_same. }
  split; cbn [sv_table sv_trace sv_calls sv_mu]; rewrite ?Ek, ?Es; try done.
  intros r (x & -> & Hx)%list_elem_of_fmap. destruct (stopped_same x) as [_ ->]. by apply N.
Qed.
Lemma inv_step s mv : questions_inv s -> questions_inv (question_step s mv).
Proof.
  intros I. destruct mv as [k m id text now sel ins|k answer failed now upd|ready]; cbn [question_step].
  - destruct (sv_calls s !! k) eqn:C; [done|]. by apply inv_begin.
  - destruct (sv_calls s !! k) as [[e id|r]|] eqn:C; try done. by apply inv_end.
  - by apply inv_restart.
Qed.
Lemma inv_run s l : questions_inv s -> questions_inv (question_run s l).
Proof. revert s. induction l as [|mv l IH]; intros s I; [done|]. cbn. by apply IH, inv_step. Qed.
Lemma inv_new ready : questions_inv (new_service ready).
Proof. split; cbn; try (by constructor); by intros ? []%not_elem_of_nil || by intros ? ? ? ? []%not_elem_of_nil. Qed.
Lemma settled_step s mv r : questions_inv s -> r ∈ qt_rows (sv_table s) -> settled r = true -> r ∈ qt_rows (sv_table (question_step s mv)).
Proof.
  intros I H S. destruct mv as [k m id text now sel ins|k answer failed now upd|ready]; cbn [question_step].
  - destruct (sv_calls s !! k); [done|]. unfold begin_ask, refuse_ask. assert (X : forall e, r ∈ qt_rows (insert_question e id (sv_table s))).
    { intros e. unfold insert_question. destruct (existsb _ _); [done|]. cbn. by apply elem_of_app; left. }
    repeat case_match; cbn; auto.
  - destruct (sv_calls s !! k) as [[e id|x]|] eqn:C; try done. assert (X : forall a st se c, r ∈ qt_rows (update_answer (en_Seq e) a st se c (sv_table s))).
    { intros a st se c. cbn. apply elem_of_update_where. exists r. split; [done|]. destruct (Z.eqb_spec (en_Seq (qr_entry r)) (en_Seq e)) as [E|_]; [|done].
      by rewrite (running_row s k e id I C r H E) in S. }
    unfold end_ask, refuse_ask. destruct upd as [|err [|]]; cbn [acted with_call with_table with_mu sv_table]; [apply X|apply X|done].
  - cbn. apply list_elem_of_fmap. exists r. split; [|done]. unfold settled in S. apply negb_true_iff in S. unfold on_entry, stopped. rewrite S. by destruct r.
Qed.

(** Whatever is asked, repeated, refused or lost in any order, with failing
    queries and restarts of the host, the model is asked at most once for each request
    of a member, and an entry that is returned for a request is the member's own and
    of the same text. *)
Theorem questions_asked_once ready moves :
  let tr := sv_trace (question_run (new_service ready) moves) in
  NoDup (asked_keys tr) /\ forall uid id text e, QuReturned uid id text e ∈ tr -> en_UID e = uid /\ en_Question e = text.
Proof. intros tr. pose proof (inv_run _ moves (inv_new ready)) as I. split; [apply I|apply (qi_returned _ I)]. Qed.
(** A question that was answered or has failed is never changed or lost. *)
Theorem settled_answers_stay ready moves later r :
  r ∈ qt_rows (sv_table (question_run (new_service ready) moves)) -> settled r = true ->
  r ∈ qt_rows (sv_table (question_run (new_service ready) (moves ++ later))).
Proof.
  intros H S. unfold question_run in *. rewrite foldl_app. pose proof (inv_run _ moves (inv_new ready)) as I. unfold question_run in I.
  revert H I. generalize (foldl question_step (new_service ready) moves). induction later as [|mv l IH]; intros s H I; [done|].
  cbn. apply IH; [by apply settled_step|by apply inv_step].
Qed.
Lemma settled_answers_stay_witness :
  let ask k text := QmAsk k {| mb_UID := 7; mb_Name := "eve" |} "00112233445566778899aabbccddeeff" text 0 Done Done in
  let moves := [ask 0%nat "why?"; QmAnswer 0 {| Coordinator.qa_Session := "t"; Coordinator.qa_Text := "because" |} None 1000000000 Done] in
  let r := mkRow (mkEntry "1970-01-01T00:00:00Z" "1970-01-01T00:00:01Z" 1 "t" 7 "eve" "why?" "because" "completed") "00112233445566778899aabbccddeeff" in
  r ∈ qt_rows (sv_table (question_run (new_service true) moves))
  /\ r ∈ qt_rows (sv_table (question_run (new_service true) (moves ++ [QmRestart true; ask 1%nat "why?"]))).
Proof.
  intros ask moves r. assert (E : qt_rows (sv_table (question_run (new_service true) moves)) = [r]) by by vm_compute.
  assert (H : r ∈ qt_rows (sv_table (question_run (new_service true) moves))) by (rewrite E; by apply list_elem_of_singleton).
  split; [exact H|]. apply settled_answers_stay; [exact H|by vm_compute].
Defined.
