(* ===== verification/NetworkWire.v ===== *)
(** * Frames and names of the network ([internal/network/wire.go], [client.go],
      [upload.go], [resources.go], [workers.go])

    Each request and reply is one JSON value behind its length.  A reader refuses
    names it does not know, and more than one value. *)
From S2P Require Import Prelude GoStrings Sha256 Json StrictJson JsonFacts Wire WireSafety GoUrl ResourceRequest Workgroup.

(** ** Frames *)

Definition maxHello : Z := 8192.
Definition max_worker : Z := Z.shiftl 48 20.
Definition max_resource : Z := 384000.
Definition max_reply : Z := Z.shiftl 2 20.
(** The loop of [writeJSON]; a round that goes on wrote at least one byte. *)
Fixpoint write_packet (fuel : nat) (c : conn) (packet : string) : conn * result perr unit :=
  match fuel with
  | O => (c, Ok tt)
  | S f =>
      if String.eqb packet "" then (c, Ok tt) else
      let '(c', (count, err)) := conn_write c packet in
      match err with
      | Some e => (c', Err e)
      | None => if count =? 0 then (c', Err PShortWrite) else write_packet f c' (drop_bytes (Z.to_nat count) packet)
      end
  end.
(** [writeJSON], [writeWorkerJSON], [writeQuery]: a value within the maximum. *)
Definition write_value (maximum : Z) (c : conn) (v : json) : conn * result perr unit :=
  let b := marshal v in
  if maximum <? len b then (c, Err PFrameTooLarge)
  else let packet := put_uint32 (len b) +:+ b in write_packet (S (String.length packet)) c packet.
Definition writeJSON : conn -> json -> conn * result perr unit := write_value maxHello.
(** [readJSON], [readWorkerJSON], [readResource]: [decode] is the strict decoding of
    the struct; the bytes are one value and blanks. *)
Definition read_value {T} (maximum : Z) (decode : json -> option T) (src : source) : source * result perr T :=
  match read_full 4 "" src with
  | (src, Err e) => (src, Err e)
  | (src, Ok prefix) =>
      let size := uint32 prefix in
      if (size =? 0) || (maximum <? size) then (src, Err PFrameTooLarge) else
      match read_full (Z.to_nat size) "" src with
      | (src, Err e) => (src, Err e)
      | (src, Ok body) => (src, match (j ← parse body; decode j) with Some v => Ok v | None => Err PJSON end)
      end
  end.

(** ** Hello and reply *)

Record Hello := mkHello { nh_Operation : string; nh_Session : string; nh_Token : string; nh_Name : string }.
Record Reply := mkReply { nr_State : string; nr_RequestID : string }.
Definition hello_json (h : Hello) : json :=
  JObj (optional_string "operation" (nh_Operation h) ++ [("session", JStr (nh_Session h)); ("token", JStr (nh_Token h)); ("name", JStr (nh_Name h))]).
Definition set_hello (n : string) (v : json) (h : Hello) : option Hello :=
  if String.eqb n "operation" then (fun s => mkHello s (nh_Session h) (nh_Token h) (nh_Name h)) <$> dec_text (nh_Operation h) v
  else if String.eqb n "session" then (fun s => mkHello (nh_Operation h) s (nh_Token h) (nh_Name h)) <$> dec_text (nh_Session h) v
  else if String.eqb n "token" then (fun s => mkHello (nh_Operation h) (nh_Session h) s (nh_Name h)) <$> dec_text (nh_Token h) v
  else (fun s => mkHello (nh_Operation h) (nh_Session h) (nh_Token h) s) <$> dec_text (nh_Name h) v.
Definition dec_hello_value : json -> option Hello := dec_struct ["operation"; "session"; "token"; "name"] set_hello (mkHello "" "" "" "").
Definition reply_json (r : Reply) : json := JObj (("state", JStr (nr_State r)) :: optional_string "request_id" (nr_RequestID r)).
Definition set_reply (n : string) (v : json) (r : Reply) : option Reply :=
  if String.eqb n "state" then (fun s => mkReply s (nr_RequestID r)) <$> dec_text (nr_State r) v
  else (fun s => mkReply (nr_State r) s) <$> dec_text (nr_RequestID r) v.
Definition dec_reply_value : json -> option Reply := dec_struct ["state"; "request_id"] set_reply (mkReply "" "").
Definition readHello : source -> source * result perr Hello := read_value maxHello dec_hello_value.
Definition readReply : source -> source * result perr Reply := read_value maxHello dec_reply_value.

(** ** Sessions, addresses and file names *)

Definition session_part (n : Z) (p : string) : bool :=
  match hex_DecodeString p with Some b => (len b =? n) && String.eqb (ToLower p) p | None => false end.
Definition ParseSession (s : string) : result verr (string * string) :=
  match Split "." s with
  | [rid; pin] => if session_part 16 rid && session_part 32 pin then Ok (rid, pin) else Err "invalid session_id"
  | _ => Err "use the complete session_id printed by host"
  end.
Definition DefaultPort : string := "7443".
(** [net.JoinHostPort], [net.SplitHostPort] *)
Definition JoinHostPort (host port : string) : string :=
  if GoUrl.Contains host ":" then "[" +:+ host +:+ "]:" +:+ port else host +:+ ":" +:+ port.
Definition SplitHostPort (s : string) : option (string * string) :=
  match CutLast ":" s with
  | None => None
  | Some (before, port) =>
      if HasPrefix s "[" then
        match Cut "]" (TrimPrefix s "[") with
        | Some (host, rest) =>
            if String.eqb rest (":" +:+ port) && negb (GoUrl.Contains (TrimPrefix s "[") "[") && negb (GoUrl.Contains rest "]") then Some (host, port) else None
        | None => None
        end
      else if GoUrl.Contains before ":" || GoUrl.Contains s "[" || GoUrl.Contains s "]" then None else Some (before, port)
  end.
Definition Address (value : string) : result verr string :=
  if ContainsAny value [47; 32; 9; 13; 10] || String.eqb value "" then Err "host must be an IP or hostname, optionally with :port"
  else if bool_decide (is_Some (ParseIP value)) then Ok (JoinHostPort value DefaultPort)
  else if negb (GoUrl.Contains value ":") then Ok (JoinHostPort value DefaultPort)
  else match SplitHostPort value with
  | Some (host, port) => if String.eqb host "" || String.eqb port "" then Err "invalid host:port" else Ok value
  | None => Err "invalid host:port"
  end.

Example addresses : Address "10.0.0.1" = Ok "10.0.0.1:7443" /\ Address "::1" = Ok "[::1]:7443" /\ Address "host:80" = Ok "host:80"
  /\ Address "[::1]:80" = Ok "[::1]:80" /\ is_ok (Address "a:b:c") = false /\ is_ok (Address "host:") = false.
Proof. by vm_compute. Qed.

(** ** What is written is read *)

Lemma write_packet_all fuel c packet c' : (String.length packet < fuel)%nat -> (forall n e, (n, e) ∈ script c -> 0 <= n) ->
  write_packet fuel c packet = (c', Ok tt) -> out c' = out c +:+ packet.
Proof.
  induction fuel as [|fuel IH] in c, packet |- *; [lia|]. intros Hf Hs. cbn [write_packet].
  destruct (String.eqb_spec packet "") as [->|Hb]; [intros [= <-]; by rewrite sapp_nil|].
  destruct (conn_write c packet) as [c1 [count err]] eqn:Ew. destruct err as [e|]; [done|]. destruct (Z.eqb_spec count 0) as [Z0|Nz]; [done|].
  assert (O1 : out c1 = out c +:+ take_bytes (Z.to_nat count) packet /\ 0 <= count /\ forall n e, (n, e) ∈ script c1 -> 0 <= n).
  { unfold conn_write in Ew. destruct (script c) as [|[n e] sc] eqn:Sc.
    - injection Ew as <- <-. cbn [out script]. split_and!; [|unfold len; lia|by intros ? ? ?%not_elem_of_nil]. unfold len. by rewrite Nat2Z.id, take_bytes_all.
    - injection Ew as <- <- ->. cbn [out script]. split_and!; [done|eapply Hs; by left|]. intros m e' H. eapply Hs. by right. }
  destruct O1 as (O1 & P & S1). intros Hw. apply IH in Hw; [|rewrite drop_bytes_length; destruct packet; [done|simpl in *; lia]|done].
  by rewrite Hw, O1, sapp_assoc, take_drop_bytes.
Qed.
Definition text_ok (h : Hello) : Prop := utf8 (nh_Operation h) /\ utf8 (nh_Session h) /\ utf8 (nh_Token h) /\ utf8 (nh_Name h).
Lemma utf8_name s : utf8_valid s = true -> utf8 s.
Proof. apply utf8_valid_utf8. Qed.
Lemma hello_wf h : text_ok h -> wfj (hello_json h) /\ json_depth (hello_json h) <= max_nesting_depth.
Proof.
  intros (O & S & T & N). split.
  - unfold hello_json, optional_string. destruct (String.eqb _ ""); cbn; repeat (constructor || split); try done; by apply utf8_name.
  - unfold hello_json, optional_string. destruct (String.eqb _ ""); cbn; unfold max_nesting_depth; lia.
Qed.

(** The strict decoding of a hello gives it back. *)
Lemma dec_hello_json h : dec_hello_value (hello_json h) = Some h.
Proof. destruct h as [o s t n]. unfold hello_json, optional_string. cbn [nh_Operation]. destruct (String.eqb_spec o "") as [->|N]; by cbn. Qed.
Lemma read_value_frame {T} maximum (decode : json -> option T) body rest src : 1 <= len body <= maximum -> maximum < 2 ^ 32 ->
  text src = frame body +:+ rest ->
  exists src', read_value maximum decode src = (src', match (j ← parse body; decode j) with Some v => Ok v | None => Err PJSON end) /\ text src' = rest.
Proof.
  intros [L1 L2] M E. unfold frame in E. rewrite sapp_assoc in E. unfold read_value.
  destruct (read_full_enough 4 "" src) as (src1 & E1 & E2); [rewrite E, sapp_length, put_uint32_length; lia|].
  rewrite E1, E. rewrite E in E2. rewrite <- (put_uint32_length (len body)) in E2 at 1. rewrite drop_bytes_app in E2.
  assert (T4 : take_bytes 4 (put_uint32 (len body) +:+ body +:+ rest) = put_uint32 (len body))
    by (rewrite <- (put_uint32_length (len body)) at 1; apply take_bytes_app).
  rewrite T4, sapp_empty, uint32_put by lia. rewrite (proj2 (Z.eqb_neq _ _)), (proj2 (Z.ltb_ge _ _)) by lia. cbn [orb].
  destruct (read_full_enough (Z.to_nat (len body)) "" src1) as (src2 & E3 & E4); [rewrite E2, sapp_length; unfold len; lia|].
  exists src2. rewrite E3, E4, E2. unfold len. by rewrite Nat2Z.id, take_bytes_app, drop_bytes_app.
Qed.
Lemma marshal_nonempty fs : 1 <= len (marshal (JObj fs)).
Proof. unfold len. rewrite marshal_obj. cbn. lia. Qed.

(** A hello that was written without an error is read back as it was, whatever
    the connection takes and delivers at a time, and what follows it is left. *)
Theorem hello_round_trip h c c' src rest : text_ok h -> (forall n e, (n, e) ∈ script c -> 0 <= n) -> out c = "" ->
  writeJSON c (hello_json h) = (c', Ok tt) -> text src = out c' +:+ rest ->
  exists src', readHello src = (src', Ok h) /\ text src' = rest.
Proof.
  intros T S O W E. unfold writeJSON, write_value in W. destruct (Z.ltb_spec maxHello (len (marshal (hello_json h)))) as [L|L]; [done|].
  cbv zeta in W. apply write_packet_all in W; [|lia|done]. rewrite O, sapp_empty in W. rewrite W in E. destruct (hello_wf h T) as [Wf D].
  destruct (read_value_frame maxHello dec_hello_value (marshal (hello_json h)) rest src) as (src' & R & Rest); [|done|done|].
  { split; [apply marshal_nonempty|done]. }
  exists src'. split; [|done]. unfold readHello. rewrite R, parse_marshal by done. unfold mbind, option_bind. by rewrite dec_hello_json.
Qed.
Lemma hello_round_trip_witness :
  let h := mkHello "upload" "s" "t" "ann" in
  let c := {| out := ""; script := [(3, None)] |} in
  let '(c', r) := writeJSON c (hello_json h) in
  r = Ok tt /\ exists src', readHello [take_bytes 7 (out c'); drop_bytes 7 (out c') +:+ "more"] = (src', Ok h) /\ text src' = "more".
Proof.
  intros h c. destruct (writeJSON c (hello_json h)) as [c' r] eqn:W. assert (R : r = Ok tt) by (vm_compute in W; by injection W as _ <-). split; [exact R|].
  rewrite R in W. apply (hello_round_trip h c c' _ "more").
  - repeat split; by apply utf8_name.
  - intros n e [= -> _]%list_elem_of_singleton. lia.
  - done.
  - exact W.
  - vm_compute in W. injection W as <-. by vm_compute.
Defined.
