(* ===== verification/NetworkHost.v ===== *)
(** * The network host ([internal/network/server.go], [workers.go], [tasks.go],
      [personal.go], [resources.go], [questions.go], [upload.go], [bot.go])

    One record for what the connections of a host share: the store, the connections
    with the member each was admitted as, the broker of remote agents, the broker of
    personal requests, the questions and the uploads.  Each part of a handler that
    holds the mutex of the server, and each part between two waits, is one step; the
    steps of all connections, of the host's own commands and of everything else that
    uses the store interleave as they like.  What is read from a connection, failing
    queries and the outcome of files and models are arguments. *)
From S2P Require Import Prelude GoStrings Json RoomTypes StoreSchema StoreBase StoreTasks StoreRepository StoreRecovery StoreAdmission StoreOps.
From S2P Require Import ResourceRequest Workgroup WorkgroupRun RemoteWorkers PersonalBroker Questions NetworkWire.

(** ** Data *)

(** A request on a connection for resources. *)
Inductive personal_ask :=
| PaPending (client : string)
| PaResult (client : string) (r : PersonalResult)
| PaChunk (client id : string) (offset : Z).
Record resource_query := mkQuery { rq_Action : string; rq_Mode : string; rq_Resource : ResourceRequest; rq_Question : string }.
Inductive resource_request := RrPersonal (a : personal_ask) | RrQuery (q : resource_query).
Record question_query := mkQuestion { qq_UID : UID; qq_Action : string; qq_ID : string; qq_Text : string; qq_Before : Z }.
(** [up_named]: the name is as [uploadName] leaves it. *)
Record uploadRequest := mkUpload { up_Name : string; up_Size : Z; up_SHA256 : string; up_named : bool }.
(** Where the handler of a connection is. *)
Inductive stage :=
| StHello
| StReply (operation : string) (m : RoomTypes.Member)    (* admitted; the reply is being written *)
| StServe (operation : string) (m : RoomTypes.Member)    (* reading what is asked *)
| StSession (m : RoomTypes.Member)                       (* in [ServeMember] *)
| StPersonal (m : RoomTypes.Member) (a : personal_ask) (mode : string)
| StQuery (m : RoomTypes.Member) (q : resource_query) (mode : string)
| StExecuted (m : RoomTypes.Member) (mode : string)
| StRelease (m : RoomTypes.Member)
| StAsking (m : RoomTypes.Member)
| StUpload (m : RoomTypes.Member) (u : uploadRequest)
| StEnd
| StReplying (m : RoomTypes.Member)                      (* about to answer about questions *)
| StSender (m : RoomTypes.Member) (a : personal_ask)     (* the role was read, the broker not asked yet *)
| StQuestion (m : RoomTypes.Member) (q : question_query) (role : string).
(** [cn_token] is the token the connection presented. *)
Record connection := mkConn { cn_open : bool; cn_uid : UID; cn_token : string; cn_at : stage }.
(** What was done for a connection; [HaRole] is a role that was read outside the mutex. *)
Inductive host_act :=
| HaRole (m : RoomTypes.Member) (role : string)
| HaSession (m : RoomTypes.Member)
| HaWork (conn m : RoomTypes.Member) (req : WorkerRequest)
| HaTask (m : RoomTypes.Member) (q : TaskRequest)
| HaTaskRead (m : RoomTypes.Member)
| HaPersonal (m : RoomTypes.Member) (a : personal_ask)
| HaAdmitted (m : RoomTypes.Member) (q : resource_query) (mode role : string)
| HaExecute (m : RoomTypes.Member) (q : resource_query)
| HaResource (m : RoomTypes.Member) (mode : string)
| HaQuestions (m : RoomTypes.Member) (uid : UID) (all : bool)
| HaAsk (m : RoomTypes.Member) (id text : string)
| HaReplied (m : RoomTypes.Member)
| HaFile (m : RoomTypes.Member) (u : uploadRequest)
| HaDecided (uid : UID) (action : string)
| HaBot (m : RoomTypes.Member).
(** An act with the database and the connection of its moment, and which one that is. *)
Record moment := mkMoment { mo_db : DB; mo_of : option nat; mo_conn : connection; mo_act : host_act }.
Definition no_conn : connection := mkConn false 0 "" StEnd.
Record Host := mkHost
  { ho_db : DB; ho_room : RoomID; ho_session : string; ho_conns : gmap nat connection; ho_agents : option desk; ho_personal : option office;
    ho_mode : string; ho_busy : list UID; ho_held : list nat; ho_questions : Service; ho_uploadMu : option nat; ho_files : gmap string Z;
    ho_closed : bool; ho_trace : list moment }.

Definition with_db (d : DB) (h : Host) : Host :=
  mkHost d (ho_room h) (ho_session h) (ho_conns h) (ho_agents h) (ho_personal h) (ho_mode h) (ho_busy h) (ho_held h) (ho_questions h) (ho_uploadMu h) (ho_files h) (ho_closed h) (ho_trace h).
Definition with_conns (m : gmap nat connection) (h : Host) : Host :=
  mkHost (ho_db h) (ho_room h) (ho_session h) m (ho_agents h) (ho_personal h) (ho_mode h) (ho_busy h) (ho_held h) (ho_questions h) (ho_uploadMu h) (ho_files h) (ho_closed h) (ho_trace h).
Definition with_agents (a : option desk) (h : Host) : Host :=
  mkHost (ho_db h) (ho_room h) (ho_session h) (ho_conns h) a (ho_personal h) (ho_mode h) (ho_busy h) (ho_held h) (ho_questions h) (ho_uploadMu h) (ho_files h) (ho_closed h) (ho_trace h).
Definition with_personal (p : option office) (h : Host) : Host :=
  mkHost (ho_db h) (ho_room h) (ho_session h) (ho_conns h) (ho_agents h) p (ho_mode h) (ho_busy h) (ho_held h) (ho_questions h) (ho_uploadMu h) (ho_files h) (ho_closed h) (ho_trace h).
Definition set_mode (m : string) (h : Host) : Host :=
  mkHost (ho_db h) (ho_room h) (ho_session h) (ho_conns h) (ho_agents h) (ho_personal h) m (ho_busy h) (ho_held h) (ho_questions h) (ho_uploadMu h) (ho_files h) (ho_closed h) (ho_trace h).
Definition with_busy (busy : list UID) (held : list nat) (h : Host) : Host :=
  mkHost (ho_db h) (ho_room h) (ho_session h) (ho_conns h) (ho_agents h) (ho_personal h) (ho_mode h) busy held (ho_questions h) (ho_uploadMu h) (ho_files h) (ho_closed h) (ho_trace h).
Definition with_questions (s : Service) (h : Host) : Host :=
  mkHost (ho_db h) (ho_room h) (ho_session h) (ho_conns h) (ho_agents h) (ho_personal h) (ho_mode h) (ho_busy h) (ho_held h) s (ho_uploadMu h) (ho_files h) (ho_closed h) (ho_trace h).
Definition with_uploads (mu : option nat) (files : gmap string Z) (h : Host) : Host :=
  mkHost (ho_db h) (ho_room h) (ho_session h) (ho_conns h) (ho_agents h) (ho_personal h) (ho_mode h) (ho_busy h) (ho_held h) (ho_questions h) mu files (ho_closed h) (ho_trace h).
Definition shut (h : Host) : Host :=
  mkHost (ho_db h) (ho_room h) (ho_session h) (ho_conns h) (ho_agents h) (ho_personal h) (ho_mode h) (ho_busy h) (ho_held h) (ho_questions h) (ho_uploadMu h) (ho_files h) true (ho_trace h).
Definition did (whose : option nat) (x : connection) (a : host_act) (h : Host) : Host :=
  mkHost (ho_db h) (ho_room h) (ho_session h) (ho_conns h) (ho_agents h) (ho_personal h) (ho_mode h) (ho_busy h) (ho_held h) (ho_questions h) (ho_uploadMu h) (ho_files h) (ho_closed h)
    (ho_trace h ++ [mkMoment (ho_db h) whose x a]).
Definition at_stage (p : stage) (x : connection) : connection := mkConn (cn_open x) (cn_uid x) (cn_token x) p.
Definition closed_conn (x : connection) : connection := mkConn false (cn_uid x) (cn_token x) (cn_at x).
Definition move_to (c : nat) (p : stage) (h : Host) : Host := with_conns (alter (at_stage p) c (ho_conns h)) h.
(** A store call whose hook and commit behave as [w] says. *)
Definition weather : Type := option error * option error.
Definition store_of (w : weather) (h : Host) : Store := mkStore (ho_db h) w.1 w.2.
Definition reading (h : Host) : Store := mkStore (ho_db h) None None.
(** A query of the store that may fail. *)
Definition query {A} (failed : option error) (r : result error A) : result error A := match failed with Some e => Err e | None => r end.
Definition is_role (r : result error string) (role : string) : bool := match r with Ok x => String.eqb x role | Err _ => false end.

(** ** Connections *)

Definition max_slots : nat := 64.
(** [accept] *)
Definition accept (c : nat) (h : Host) : Host :=
  if ho_closed h || bool_decide (is_Some (ho_conns h !! c)) || Nat.leb max_slots (size (ho_conns h)) then h
  else with_conns (<[c := mkConn true 0 "" StHello]> (ho_conns h)) h.
Definition operations : list string := [""; "upload"; "download"; "questions"; "tasks"; "resources"; "agents"].
(** [handle] from the hello to the reply, which is kept for the caller to write. *)
Definition hello (c : nat) (x : Hello) (now : Z) (address : string) (random : result error string) (w : weather) (failed : option error) (h : Host) : Host * Reply :=
  if negb (existsb (String.eqb (nh_Operation x)) operations) then (move_to c StEnd h, mkReply "unsupported-operation" "")
  else if negb (String.eqb (nh_Session x) (ho_session h)) then (move_to c StEnd h, mkReply "invalid-session" "")
  else match RequestJoin (store_of w h) now (ho_room h) (nh_Token x) (nh_Name x) address random with
  | (s, Err _) => (move_to c StEnd (with_db (db s) h), mkReply "unavailable" "")
  | (s, Ok r) =>
      let h := with_db (db s) h in
      if String.eqb (jn_State r) "approved" then
        match query failed (AuthenticateJoin (reading h) (ho_room h) (nh_Token x)) with
        | Ok m =>
            (with_conns (alter (fun y => mkConn (cn_open y) (mb_UID m) (nh_Token x) (StReply (nh_Operation x) m)) c (ho_conns h)) h, mkReply (jn_State r) (jn_ID r))
        | Err _ => (move_to c StEnd h, mkReply "unavailable" "")
        end
      else (move_to c StEnd h, mkReply (jn_State r) (jn_ID r))
  end.
(** The reply was written, or not. *)
Definition replied (c : nat) (written : bool) (failed : option error) (h : Host) : Host :=
  match ho_conns h !! c with
  | Some x =>
      match cn_at x with
      | StReply op m =>
          if negb written then move_to c StEnd h
          else if String.eqb op "" then did (Some c) x (HaSession m) (move_to c (StSession m) h)
          else if String.eqb op "upload" && negb (is_role (query failed (MemberRole (reading h) (ho_room h) (mb_UID m))) "roommate") then move_to c StEnd h
          else move_to c (StServe op m) h
      | _ => h
      end
  | None => h
  end.
(** The deferred end of a connection. *)
Definition remove (c : nat) (h : Host) : Host :=
  match ho_conns h !! c with Some x => match cn_at x with StEnd => with_conns (delete c (ho_conns h)) h | _ => h end | None => h end.

(** ** Agents and tasks *)

(** [serveWorkers] *)
Definition serveWorkers (c : nat) (m : RoomTypes.Member) (x : connection) (req : option WorkerRequest) (now : Z) (failed : option error) (h : Host) : Host :=
  let h' := move_to c StEnd h in
  match req with
  | None => h'
  | Some req =>
      match query failed (AuthenticateJoin (reading h) (ho_room h) (cn_token x)) with
      | Err _ => h'
      | Ok authenticated =>
          if is_role (query failed (MemberRole (reading h) (ho_room h) (mb_UID m))) "roommate" then
            match ho_agents h with
            | Some d => did (Some c) x (HaWork m authenticated req) (with_agents (Some (remote_step d (RmHandle now authenticated req))) h')
            | None => h'
            end
          else h'
      end
  end.
(** [serveTasks] *)
Definition serveTasks (c : nat) (m : RoomTypes.Member) (x : connection) (req : option TaskRequest) (now : Z) (w : weather) (failed : option error) (h : Host) : Host :=
  let h' := move_to c StEnd h in
  match req with
  | None => h'
  | Some q =>
      match query failed (AuthenticateJoin (reading h) (ho_room h) (cn_token x)) with
      | Err _ => h'
      | Ok _ =>
          if String.eqb (tq_Action q) "list" || String.eqb (tq_Action q) "get" then did (Some c) x (HaTaskRead m) h'
          else let s := (ChangeTask (store_of w h) now (ho_room h) {| ac_UID := mb_UID m; ac_Name := mb_Name m |} q).1 in
               with_db (db s) (did (Some c) x (HaTask m q) h')
      end
  end.

(** ** Resources *)

(** What the store answers the broker of personal requests. *)
Definition personal_check (b : Broker) (h : Host) : option verr :=
  match CheckPersonalSender (reading h) (ho_room h) (ac_UID (br_actor b)) (br_message b) with Ok _ => None | Err e => Some (error_text e) end.
Definition personal_move (h : Host) (b : Broker) (uid : UID) (ids : list string) (a : personal_ask) : move :=
  match a with
  | PaPending client => MvNext (personal_check b h) uid client ids
  | PaResult client r => MvResolve (personal_check b h) uid client r
  | PaChunk client id offset => MvPushChunk (personal_check b h) uid client id offset
  end.
(** [servePersonalResource] after it read the mode: it reads the role, and asks the
    broker at a later moment ([hand_personal]). *)
Definition servePersonalResource (c : nat) (m : RoomTypes.Member) (x : connection) (a : personal_ask) (mode : string) (failed : option error) (h : Host) : Host :=
  match query failed (MemberRole (reading h) (ho_room h) (mb_UID m)) with
  | Err _ => move_to c StEnd h
  | Ok role =>
      did (Some c) x (HaRole m role)
        (move_to c (if bool_decide (is_Some (ho_personal h)) && String.eqb mode "personal" && String.eqb role "roommate" then StSender m a else StEnd) h)
  end.
Definition hand_personal (c : nat) (ids : list string) (h : Host) : Host :=
  match ho_conns h !! c with
  | Some x =>
      match cn_at x, ho_personal h with
      | StSender m a, Some o =>
          did (Some c) x (HaPersonal m a) (with_personal (Some (personal_step o (personal_move h (ow_broker o) (mb_UID m) ids a))) (move_to c StEnd h))
      | StSender _ _, None => move_to c StEnd h
      | _, _ => h
      end
  | None => h
  end.
Definition query_allowed (mode role : string) (q : resource_query) : bool :=
  (String.eqb role "roommate" || String.eqb role "asker") && String.eqb (rq_Action q) "query" && String.eqb (rq_Mode q) mode
  && is_ok (ResourceRequest_Validate (rq_Resource q)) && (len (rq_Question q) <=? 6000) && negb (String.eqb role "asker" && String.eqb mode "host")
  && negb (IsWrite (rq_Resource q) && (negb (String.eqb role "roommate") || negb (String.eqb mode "personal") || negb (String.eqb (rq_Question q) ""))).
Definition max_busy : nat := 4.
Definition busy_with (uid : UID) (h : Host) : bool := existsb (Z.eqb uid) (ho_busy h).
(** [serveResources] up to the call. *)
Definition serveResources (c : nat) (m : RoomTypes.Member) (x : connection) (req : option resource_request) (failed : option error) (h : Host) : Host :=
  match req with
  | None => move_to c StEnd h
  | Some (RrPersonal a) => move_to c (StPersonal m a (ho_mode h)) h
  | Some (RrQuery q) =>
      match query failed (MemberRole (reading h) (ho_room h) (mb_UID m)) with
      | Ok role =>
          if negb (query_allowed (ho_mode h) role q) then move_to c StEnd h
          else if busy_with (mb_UID m) h || Nat.leb max_busy (length (ho_busy h)) then move_to c StEnd h
          else did (Some c) x (HaAdmitted m q (ho_mode h) role)
                 (with_busy (mb_UID m :: ho_busy h) (c :: ho_held h) (move_to c (StQuery m q (ho_mode h)) h))
      | Err _ => move_to c StEnd h
      end
  end.
(** The resource is read by the host itself, or by the client of the sender. *)
Definition execute (c : nat) (h : Host) : Host :=
  match ho_conns h !! c with
  | Some x =>
      match cn_at x with
      | StQuery m q mode =>
          let h' := move_to c (StExecuted m mode) h in
          if String.eqb mode "host" then did (Some c) x (HaExecute m q) h' else h'
      | _ => h
      end
  | None => h
  end.
(** The end of a resource request: [ended] when its context has. *)
Definition answer_resource (c : nat) (ended : bool) (failed : option error) (h : Host) : Host :=
  match ho_conns h !! c with
  | Some x =>
      match cn_at x with
      | StExecuted m mode =>
          let h' := move_to c (StRelease m) h in
          if is_ok (query failed (AuthenticateJoin (reading h) (ho_room h) (cn_token x))) && String.eqb (ho_mode h) mode && negb ended
          then did (Some c) x (HaResource m mode) h' else h'
      | _ => h
      end
  | None => h
  end.
Definition without_uid (uid : UID) (l : list UID) : list UID := List.filter (fun u => negb (u =? uid)) l.
Definition without_conn (c : nat) (l : list nat) : list nat := List.filter (fun d => negb (Nat.eqb d c)) l.
Definition release_resource (c : nat) (h : Host) : Host :=
  match ho_conns h !! c with
  | Some x =>
      match cn_at x with
      | StRelease m => with_busy (without_uid (mb_UID m) (ho_busy h)) (without_conn c (ho_held h)) (move_to c StEnd h)
      | _ => h
      end
  | None => h
  end.

(** ** Questions *)

(** [serveQuestions] reads the role, and uses it at a later moment ([consult]). *)
Definition serveQuestions (c : nat) (m : RoomTypes.Member) (x : connection) (req : option question_query) (failed : option error) (h : Host) : Host :=
  match req with
  | None => move_to c StEnd h
  | Some q =>
      match query failed (MemberRole (reading h) (ho_room h) (mb_UID m)) with
      | Err _ => move_to c StEnd h
      | Ok role => did (Some c) x (HaRole m role) (move_to c (StQuestion m q role) h)
      end
  end.
(** Up to its reply; a question is asked as call [c]. *)
Definition consult (c : nat) (now : Z) (selected inserted : outcome) (h : Host) : Host :=
  match ho_conns h !! c with
  | Some x =>
      match cn_at x with
      | StQuestion m q role =>
          let h' := move_to c (StReplying m) h in
          if String.eqb (qq_Action q) "list" then
            if String.eqb role "visitor" then h'
            else let all := String.eqb role "roommate" in
                 let named := all && (0 <? qq_UID q) in
                 did (Some c) x (HaQuestions m (if named then qq_UID q else mb_UID m) (all && negb named)) h'
          else if String.eqb (qq_Action q) "ask" then
            if negb (String.eqb role "asker") then h'
            else did (Some c) x (HaAsk m (qq_ID q) (qq_Text q))
                   (with_questions (question_step (ho_questions h) (QmAsk c m (qq_ID q) (qq_Text q) now selected inserted)) (move_to c (StAsking m) h))
          else h'
      | _ => h
      end
  | None => h
  end.
Definition asked (c : nat) (h : Host) : Host :=
  match ho_conns h !! c with
  | Some x => match cn_at x, sv_calls (ho_questions h) !! c with StAsking m, Some (Answered _) => move_to c (StReplying m) h | _, _ => h end
  | None => h
  end.
(** Its end: the reply, whatever it says, is only for the token of a member. *)
Definition reply_questions (c : nat) (failed : option error) (h : Host) : Host :=
  match ho_conns h !! c with
  | Some x =>
      match cn_at x with
      | StReplying m =>
          let h' := move_to c StEnd h in
          if is_ok (query failed (AuthenticateJoin (reading h) (ho_room h) (cn_token x))) then did (Some c) x (HaReplied m) h' else h'
      | _ => h
      end
  | None => h
  end.

(** ** Uploads *)

Definition MaxUploadBytes : Z := Z.shiftl 20 20.
Definition maxRoomUploadBytes : Z := Z.shiftl 1 30.
Definition valid_upload (u : uploadRequest) : bool :=
  negb (up_Size u <? 0) && (up_Size u <=? MaxUploadBytes)
  && match hex_DecodeString (up_SHA256 u) with Some d => (len d =? 32) && String.eqb (hex_EncodeToString d) (up_SHA256 u) | None => false end && up_named u.
Definition used (files : gmap string Z) : Z := map_fold (fun _ n acc => n + acc) 0 files.
(** [receiveUpload] up to the bytes of the file, which are checked against their
    hash before it goes on; [others] is what else the directory holds. *)
Definition receiveUpload (c : nat) (m : RoomTypes.Member) (req : option uploadRequest) (others : Z) (h : Host) : Host :=
  match req with
  | None => move_to c StEnd h
  | Some u =>
      if negb (valid_upload u) then move_to c StEnd h
      else match ho_uploadMu h with
      | Some _ => h
      | None =>
          if maxRoomUploadBytes <? used (ho_files h) + Z.max 0 others + up_Size u then move_to c StEnd h
          else with_uploads (Some c) (ho_files h) (move_to c (StUpload m u) h)
      end
  end.
Definition upload_target (u : uploadRequest) : string := up_SHA256 u +:+ "-" +:+ up_Name u.
(** The file arrived whole with its hash, or not. *)
Definition finish_upload (c : nat) (whole renamed : bool) (failed : option error) (h : Host) : Host :=
  match ho_conns h !! c with
  | Some x =>
      match cn_at x with
      | StUpload _ u =>
          let h' := with_uploads None (ho_files h) (move_to c StEnd h) in
          if negb whole then h' else
          match query failed (AuthenticateJoin (reading h) (ho_room h) (cn_token x)) with
          | Ok m =>
              if is_role (query failed (MemberRole (reading h) (ho_room h) (mb_UID m))) "roommate" && renamed
              then did (Some c) x (HaFile m u) (with_uploads None (<[upload_target u := up_Size u]> (ho_files h)) h')
              else h'
          | Err _ => h'
          end
      | _ => h
      end
  | None => h
  end.

(** ** The host's own commands *)

Definition close_member (uid : UID) (h : Host) : Host :=
  with_conns ((fun x => if cn_uid x =? uid then closed_conn x else x) <$> ho_conns h) h.
(** [manage]: a decision about a request for admission. *)
Definition manage (now : Z) (id action role : string) (w : weather) (h : Host) : Host :=
  match DecideJoinRole (store_of w h) now (ho_room h) id action role with
  | (s, Err _) => with_db (db s) h
  | (s, Ok r) =>
      let h := did None no_conn (HaDecided (jn_UID r) action) (with_db (db s) h) in
      if String.eqb action "revoke" || String.eqb action "role"
      then close_member (jn_UID r) (with_personal ((fun o => personal_step o (MvInvalidateSender (jn_UID r))) <$> ho_personal h) h)
      else h
  end.
Definition close_held (h : Host) : Host :=
  with_conns (map_imap (fun c x => Some (if bool_decide (c ∈ ho_held h) then closed_conn x else x)) (ho_conns h)) h.
Definition switch_error : error := ErrText "请先停止或等待当前工作结束，再切换资源身份，避免同一轮混用账号".
(** [manageResourceMode]; [written] is the outcome of writing the file. *)
Definition manageResourceMode (mode : string) (written : option error) (failed : option error) (h : Host) : Host :=
  if negb (String.eqb mode "host" || String.eqb mode "personal") then h else
  let busy := bool_decide (is_Some (ho_personal h)) && negb (String.eqb mode (ho_mode h))
              && (bool_decide (is_Some failed) || HasActiveWork (reading h) (ho_room h)) in
  match (if busy then Some switch_error else written) with
  | Some _ => h
  | None => close_held (set_mode mode (with_personal ((fun o => personal_step o (MvChangeMode mode None)) <$> ho_personal h) h))
  end.
(** [Close] up to its waits. *)
Definition Close (h : Host) : Host :=
  let h := shut (with_personal ((fun o => personal_step o MvInvalidate) <$> ho_personal h) h) in
  with_conns (closed_conn <$> ho_conns h) h.
(** [WithBotMember] *)
Definition WithBotMember (uid : UID) (work : bool) (h : Host) : Host :=
  match BotMember (reading h) (ho_room h) uid work with Ok m => did None no_conn (HaBot m) h | Err _ => h end.

(** ** Moves *)

Inductive host_move :=
| HmAccept (c : nat)
| HmHello (c : nat) (x : option Hello) (now : Z) (address : string) (random : result error string) (w : weather) (failed : option error)
| HmReplied (c : nat) (written : bool) (failed : option error)
| HmAgents (c : nat) (req : option WorkerRequest) (now : Z) (failed : option error)
| HmTasks (c : nat) (req : option TaskRequest) (now : Z) (w : weather) (failed : option error)
| HmResources (c : nat) (req : option resource_request) (failed : option error)
| HmPersonal (c : nat) (failed : option error)
| HmHand (c : nat) (ids : list string)
| HmExecute (c : nat)
| HmAnswer (c : nat) (ended : bool) (failed : option error)
| HmRelease (c : nat)
| HmQuestions (c : nat) (req : option question_query) (failed : option error)
| HmConsult (c : nat) (now : Z) (selected inserted : outcome)
| HmAnswered (c : nat) (answer : Coordinator.QuestionAnswer) (error : option error) (now : Z) (updated : outcome)
| HmAsked (c : nat)
| HmReplyQuestions (c : nat) (failed : option error)
| HmUpload (c : nat) (req : option uploadRequest) (others : Z)
| HmUploaded (c : nat) (whole renamed : bool) (failed : option error)
| HmDownload (c : nat)
| HmSessionEnds (c : nat)
| HmRemove (c : nat)
| HmManage (now : Z) (id action role : string) (w : weather)
| HmMode (mode : string) (written failed : option error)
| HmBot (uid : UID) (work : bool)
| HmClose
| HmStore (k : StoreOps.call)              (* any other use of the store *)
| HmAgent (mv : remote_move)      (* the runs of remote agents *)
| HmBroker (mv : move).           (* the turns and their calls *)
(** What the others may do: decide about members only through the host, handle the
    requests of members only through their connections. *)
Definition not_handle (mv : remote_move) : bool := match mv with RmHandle _ _ _ => false | _ => true end.
Definition serving (c : nat) (op : string) (h : Host) (f : RoomTypes.Member -> connection -> Host) : Host :=
  match ho_conns h !! c with
  | Some x => match cn_at x with StServe o m => if String.eqb o op then f m x else h | _ => h end
  | None => h
  end.
Definition host_step (h : Host) (mv : host_move) : Host :=
  match mv with
  | HmAccept c => accept c h
  | HmHello c x now address random w failed =>
      match ho_conns h !! c with
      | Some y =>
          match cn_at y, x with
          | StHello, Some x => (hello c x now address random w failed h).1
          | StHello, None => move_to c StEnd h
          | _, _ => h
          end
      | None => h
      end
  | HmReplied c written failed => replied c written failed h
  | HmAgents c req now failed => serving c "agents" h (fun m x => serveWorkers c m x req now failed h)
  | HmTasks c req now w failed => serving c "tasks" h (fun m x => serveTasks c m x req now w failed h)
  | HmResources c req failed => serving c "resources" h (fun m x => serveResources c m x req failed h)
  | HmPersonal c failed =>
      match ho_conns h !! c with
      | Some x => match cn_at x with StPersonal m a mode => servePersonalResource c m x a mode failed h | _ => h end
      | None => h
      end
  | HmHand c ids => hand_personal c ids h
  | HmExecute c => execute c h
  | HmAnswer c ended failed => answer_resource c ended failed h
  | HmRelease c => release_resource c h
  | HmQuestions c req failed => serving c "questions" h (fun m x => serveQuestions c m x req failed h)
  | HmConsult c now selected inserted => consult c now selected inserted h
  | HmAnswered c answer e now updated => with_questions (question_step (ho_questions h) (QmAnswer c answer e now updated)) h
  | HmAsked c => asked c h
  | HmReplyQuestions c failed => reply_questions c failed h
  | HmUpload c req others => serving c "upload" h (fun m _ => receiveUpload c m req others h)
  | HmUploaded c whole renamed failed => finish_upload c whole renamed failed h
  | HmDownload c => serving c "download" h (fun _ _ => move_to c StEnd h)
  | HmSessionEnds c =>
      match ho_conns h !! c with Some x => match cn_at x with StSession _ => move_to c StEnd h | _ => h end | None => h end
  | HmRemove c => remove c h
  | HmManage now id action role w => manage now id action role w h
  | HmMode mode written failed => manageResourceMode mode written failed h
  | HmBot uid work => WithBotMember uid work h
  | HmClose => Close h
  | HmStore k => match c_op k with OpDecideJoin _ _ _ _ _ => h | _ => with_db (StoreOps.step (ho_db h) k) h end
  | HmAgent mv => if not_handle mv then with_agents ((fun d => remote_step d mv) <$> ho_agents h) h else h
  | HmBroker mv => with_personal ((fun o => personal_step o mv) <$> ho_personal h) h
  end.
Definition host_run (h : Host) (l : list host_move) : Host := foldl host_step h l.
(** [Start] with its collaborators, over a database. *)
Definition new_host (d : DB) (room : RoomID) (session mode root dir : string) (ready : bool) (now : Z) : Host :=
  mkHost d room session ∅ (Some (new_desk root dir now)) (Some new_office) mode [] [] (new_service ready) None ∅ false [].
