(* ===== verification/NetworkSafety.v ===== *)
(** * What the network host lets happen

    Whoever a connection was admitted as is admitted as long as the connection is
    open; every act that matters is done for a member who is admitted, or whose
    connection is open, at that moment and has the role it takes. *)
From S2P Require Import Prelude GoStrings Json RoomTypes StoreSchema StoreBase StoreTasks StoreRepository StoreRecovery StoreAdmission StoreInvariant StoreOps.
From S2P Require Import StoreAdmissionSafety ResourceRequest Workgroup WorkgroupRun RemoteWorkers RemoteSafety PersonalBroker Questions NetworkWire NetworkHost.

(** ** Admission, seen from a connection *)

(** The approved or revoked request behind a token and a member. *)
Definition grant_of (d : DB) (rid : RoomID) (token : string) (m : RoomTypes.Member) (j : JoinRow) : Prop :=
  j ∈ join_requests d /\ granted j = true /\ j_room j = rid /\ tokenHash token = Ok (j_token_hash j) /\ j_uid j = mb_UID m /\ j_name j = mb_Name m.
Definition admitted (d : DB) (rid : RoomID) (token : string) (m : RoomTypes.Member) : Prop := AuthenticateJoin (store_at d) rid token = Ok m.
Lemma admitted_grant d rid token m : wf None None d -> joins_wf d -> admitted d rid token m ->
  exists j, grant_of d rid token m j /\ j_state j = "approved".
Proof.
  intros W J (h & j & T & I & S & R & H & U & N)%authenticated; [|done|done]. exists j. split; [|done]. unfold grant_of. split_and!; try done.
  - by apply (state_granted "approved"); auto.
  - congruence.
Qed.
Lemma grant_admitted d rid token m j : wf None None d -> joins_wf d -> grant_of d rid token m j -> j_state j = "approved" -> admitted d rid token m.
Proof.
  intros W J (I & G & R & T & U & N) S. unfold admitted, AuthenticateJoin. rewrite T. cbn [result_bind store_at db].
  destruct (jw_member _ J j I G) as (x & Hx & Rx & Ux & Nx).
  assert (F : existsb (is_member (j_room j) (j_uid j)) (members d) = true).
  { apply existsb_exists. exists x. split; [by apply list_elem_of_In|]. unfold is_member. rewrite (proj2 (in_roomP m_room _ _) Rx). by rewrite Ux, Z.eqb_refl. }
  destruct (List.find _ (join_requests d)) as [j'|] eqn:E.
  2: { pose proof (List.find_none _ _ E j) as X. cbn in X. unfold has_hash in X. rewrite (proj2 (in_roomP j_room _ _) R), String.eqb_refl, S, F in X.
       specialize (X ltac:(by apply list_elem_of_In)). done. }
  apply find_some_elem in E as [Ij E]. bool_props. unfold has_hash in *. bool_props.
  repeat match goal with H : String.eqb _ _ = true |- _ => apply String.eqb_eq in H end.
  rename select (in_room j_room _ _ = true) into Rj. apply in_roomP in Rj.
  assert (j' = j) as -> by (apply (by_hash d); [done..|congruence|congruence]).
  unfold StoreSchema.find_member. destruct (List.find (is_member (j_room j) (j_uid j)) (members d)) as [y|] eqn:Y.
  - apply find_some_elem in Y as [Hy Y]. unfold is_member in Y. bool_props. rename select (in_room m_room _ _ = true) into Ry. apply in_roomP in Ry.
    assert (y = x) as ->; [|destruct m; cbn in *; f_equal; f_equal; congruence].
    apply (NoDup_fmap_inj (fun u => (m_room u, m_uid u)) (members d)); [apply (wf_members _ _ _ W)|done|done|]. cbn. f_equal; [congruence|lia].
  - apply existsb_exists in F as (y & Hy & Fy). pose proof (List.find_none _ _ Y y Hy). congruence.
Qed.
Lemma admitted_unique d rid token m m' : admitted d rid token m -> admitted d rid token m' -> m = m'.
Proof. unfold admitted. congruence. Qed.
(** The member of a token never changes. *)
Lemma admitted_member d rid token m j m' : wf None None d -> joins_wf d -> grant_of d rid token m j -> admitted d rid token m' -> m' = m.
Proof.
  intros W J (I & G & R & T & U & N) (j' & (I' & G' & R' & T' & U' & N') & _)%admitted_grant; [|done|done].
  assert (j' = j) as -> by (apply (by_hash d); [done..|congruence|congruence]). destruct m, m'. cbn in *. congruence.
Qed.

(** ** What store calls do to admission *)

(** Nothing that was approved or revoked changes. *)
Definition same_admission (d d' : DB) : Prop := forall j, granted j = true -> j ∈ join_requests d -> j ∈ join_requests d'.
#[export] Instance same_admission_preorder : PreOrder same_admission.
Proof. split; [by intros d j|intros a b c H1 H2 j G Hj; by apply H2, H1]. Qed.
Record store_ok (d d' : DB) : Prop := mk_store_ok { so_wf : wf None None d'; so_joins : joins_wf d' }.
Lemma exec_store s op : wf None None (db s) -> joins_wf (db s) -> store_ok (db s) (db (exec s op)).
Proof. intros W J. split; [apply (exec_ok s op W)|apply (exec_joins s op W J)]. Qed.
Lemma exec_admission s op : (forall now rid id a r, op <> OpDecideJoin now rid id a r) -> same_admission (db s) (db (exec s op)).
Proof.
  intros N. destruct (admits op) eqn:A; [|intros j _ Hj; by rewrite exec_aside]. destruct op; try discriminate A; [|by edestruct N].
  cbn [exec]. unfold RequestJoin. destruct (tokenHash token) as [h|]; [|done]. destruct (negb _ || _); [done|].
  destruct (transact s _) as [s' r] eqn:E. apply transact_cases in E. destruct r as [r|]; [|by subst]. destruct E as (d & E & -> & _).
  pose proof (wp_ok _ _ _ _ _ (RequestJoin_same _ _ _ _ _ _ _) E) as [_ _ _ G]. intros j Gj Hj. by apply G.
Qed.
(** A decision that failed changes nothing; another changes, of what was approved or
    revoked, at most the request of the member it names, and only by a revocation. *)
Lemma decide_admission s now rid id action role s' r : joins_wf (db s) -> DecideJoinRole s now rid id action role = (s', r) ->
  match r with
  | Err _ => db s' = db s
  | Ok q => forall j, granted j = true -> j ∈ join_requests (db s) -> j ∈ join_requests (db s') \/ (action = "revoke" /\ j_uid j = jn_UID q)
  end.
Proof.
  intros J. assert (T : forall X (w : StoreTx X) (P : X -> DB -> Prop) s' r, wp w P (db s) -> transact s w = (s', r) ->
    match r with Err _ => db s' = db s | Ok q => P q (db s') end).
  { intros X w P s1 r1 Hw E. apply transact_cases in E. destruct r1 as [q|]; [|by subst]. destruct E as (d & E & -> & _). exact (wp_ok _ _ _ _ _ Hw E). }
  assert (D : forall role' s' r, transact s (decideJoin_tx rid id action role' now) = (s', r) ->
    match r with
    | Err _ => db s' = db s
    | Ok q => forall j, granted j = true -> j ∈ join_requests (db s) -> j ∈ join_requests (db s') \/ (action = "revoke" /\ j_uid j = jn_UID q)
    end).
  { intros role' s1 r1 E. pose proof (T _ _ _ _ _ (decideJoin_decides rid id action role' now _ (jw_ids _ J)) E) as H. destruct r1 as [q|]; [|done].
    destruct H as (j0 & j1 & Dc & _ & _ & U & _). intros j G Hj. destruct (decide (j = j0)) as [->|N]; [|left; apply (dc_rows _ _ _ _ _ Dc); by right].
    right. destruct (dc_action _ _ _ _ _ Dc) as [(_ & S & _)|[(_ & S & _)|(A & _ & _ & Uj)]]; [by rewrite pending_not_granted in G..|]. split; [done|congruence]. }
  unfold DecideJoinRole, DecideJoin, decideJoin. destruct (String.eqb role ""); [apply D|]. destruct (negb _ || _); [by intros [= <- <-]|].
  destruct (String.eqb action "approve"); [apply D|]. intros E. pose proof (T _ _ _ _ _ (changeRole_same rid id role _) E) as H.
  destruct r as [q|]; [|done]. intros j _ Hj. left. cbv beta in H. destruct H as [-> _]. done.
Qed.

(** ** The invariant of the connections *)

Definition stage_member (p : stage) : option RoomTypes.Member :=
  match p with
  | StHello | StEnd => None
  | StReply _ m | StServe _ m | StSession m | StPersonal m _ _ | StQuery m _ _ | StExecuted m _ | StRelease m | StAsking m | StReplying m | StUpload m _ | StSender m _ | StQuestion m _ _ => Some m
  end.
(** A connection that was admitted has a grant behind it, still approved while the
    connection is open. *)
Record conn_ok (d : DB) (rid : RoomID) (x : connection) : Prop := mk_conn_ok
  { ck_grant : cn_token x <> "" -> exists m j, grant_of d rid (cn_token x) m j /\ mb_UID m = cn_uid x
      /\ (cn_open x = true -> j_state j = "approved") /\ (forall m', stage_member (cn_at x) = Some m' -> m' = m);
    ck_stage : forall m, stage_member (cn_at x) = Some m -> cn_token x <> "" }.
Record conns_inv (h : Host) : Prop := mk_conns_inv
  { ci_store : store_ok (ho_db h) (ho_db h);
    ci_conns : forall c x, ho_conns h !! c = Some x -> conn_ok (ho_db h) (ho_room h) x }.
Lemma conn_ok_same d d' rid x : same_admission d d' -> conn_ok d rid x -> conn_ok d' rid x.
Proof.
  intros S [G T]. split; [|done]. intros N. destruct (G N) as (m & j & (I & Gr & R) & U & O & M). exists m, j. split_and!; try done.
  split; [by apply S|done].
Qed.
Lemma conn_ok_evolves d d' rid x : grants_evolve d d' -> conn_ok d rid x -> conn_ok d' rid (closed_conn x).
Proof.
  intros E [G T]. split; [|done]. intros N. destruct (G N) as (m & j & (I & Gr & R & H & U' & Nm) & U & O & M).
  destruct (E j I Gr) as (j' & I' & V). pose proof (grant_evolves_granted _ _ Gr V) as G'. exists m, j'.
  assert (F : j_room j' = j_room j /\ j_token_hash j' = j_token_hash j /\ j_uid j' = j_uid j /\ j_name j' = j_name j) by (destruct V as [->|[_ ->]]; done).
  destruct F as (F1 & F2 & F3 & F4). split_and!; [|done|done|done]. unfold grant_of. rewrite F1, F2, F3, F4. done.
Qed.
Lemma conn_ok_open d rid x m : conn_ok d rid x -> wf None None d -> joins_wf d -> stage_member (cn_at x) = Some m -> cn_open x = true -> admitted d rid (cn_token x) m.
Proof.
  intros [G T] W J Sm O. destruct (G (T m Sm)) as (m' & j & Gr & U & A & M). rewrite (M m Sm). apply (grant_admitted _ _ _ _ j); [done|done|done|by apply A].
Qed.
(** A move of a connection to a stage of the same member, or of none. *)
Definition steps_to (x : connection) (p : stage) : Prop := stage_member p = None \/ stage_member p = stage_member (cn_at x).
Lemma conn_ok_stage d rid x p : steps_to x p -> conn_ok d rid x -> conn_ok d rid (at_stage p x).
Proof.
  intros S [G T]. split; cbn.
  - intros N. destruct (G N) as (m & j & Gr & U & O & M). exists m, j. split_and!; try done. intros m' Hm. destruct S as [S|S]; [congruence|]. apply M. congruence.
  - intros m Hm. destruct S as [S|S]; [congruence|]. apply (T m). congruence.
Qed.
Lemma conn_ok_closed d rid x : conn_ok d rid x -> conn_ok d rid (closed_conn x).
Proof. intros [G T]. split; cbn; [|done]. intros N. destruct (G N) as (m & j & Gr & U & O & M). exists m, j. by split_and!. Qed.
Lemma conns_frame h h' : ho_db h' = ho_db h -> ho_room h' = ho_room h -> ho_conns h' = ho_conns h -> conns_inv h -> conns_inv h'.
Proof. intros E1 E2 E3 [S C]. split; rewrite ?E1, ?E2, ?E3; done. Qed.
Lemma conns_move h c p : (forall x, ho_conns h !! c = Some x -> steps_to x p) -> conns_inv h -> conns_inv (move_to c p h).
Proof.
  intros S [St C]. split; [done|]. cbn. intros c' x E. destruct (decide (c = c')) as [<-|N].
  - rewrite lookup_alter_eq in E. apply fmap_Some in E as (y & E & ->). apply conn_ok_stage; [by apply S|by apply (C c)].
  - rewrite lookup_alter_ne in E by done. by apply (C c').
Qed.
Lemma conns_end h c : conns_inv h -> conns_inv (move_to c StEnd h).
Proof. apply conns_move. intros x _. by left. Qed.
Lemma conns_db h d : store_ok (ho_db h) d -> same_admission (ho_db h) d -> conns_inv h -> conns_inv (with_db d h).
Proof. intros [W J] S [_ C]. split; [by split|]. cbn. intros c x E. eapply conn_ok_same; [done|by eapply C]. Qed.
Lemma conns_did n x a h : conns_inv h -> conns_inv (did n x a h).
Proof. by apply conns_frame. Qed.
Lemma conns_personal p h : conns_inv h -> conns_inv (with_personal p h).
Proof. by apply conns_frame. Qed.
Lemma conns_agents a h : conns_inv h -> conns_inv (with_agents a h).
Proof. by apply conns_frame. Qed.
Lemma conns_busy u l h : conns_inv h -> conns_inv (with_busy u l h).
Proof. by apply conns_frame. Qed.
Lemma conns_service s h : conns_inv h -> conns_inv (with_questions s h).
Proof. by apply conns_frame. Qed.
Lemma conns_files mu f h : conns_inv h -> conns_inv (with_uploads mu f h).
Proof. by apply conns_frame. Qed.
Create HintDb conns discriminated.
#[export] Hint Resolve conns_did conns_end conns_personal conns_agents conns_busy conns_service conns_files : conns.
Lemma read_authentic h rid token failed m : query failed (AuthenticateJoin (reading h) rid token) = Ok m -> admitted (ho_db h) rid token m.
Proof. unfold query. by destruct failed. Qed.
Lemma conns_hello c x now address random w failed h y : conns_inv h -> ho_conns h !! c = Some y -> cn_at y = StHello ->
  conns_inv (hello c x now address random w failed h).1.
Proof.
  intros I Ey Sy. unfold hello. destruct (negb (existsb _ _)); [by apply conns_end|]. destruct (negb (String.eqb _ _)); [by apply conns_end|].
  destruct (RequestJoin _ _ _ _ _ _ _) as [s r] eqn:R. pose proof (ci_store h I) as [W J].
  assert (E : db s = db (exec (store_of w h) (OpRequestJoin now (ho_room h) (nh_Token x) (nh_Name x) address random))) by (cbn [exec]; by rewrite R).
  assert (I1 : conns_inv (with_db (db s) h)).
  { apply conns_db; [rewrite E; by apply (exec_store (store_of w h))|rewrite E; by apply (exec_admission (store_of w h))|done]. }
  destruct r as [q|e]; cbn [fst]; [|by apply conns_end]. destruct (String.eqb (jn_State q) "approved"); [|by apply conns_end].
  destruct (query _ _) as [m|e] eqn:A; cbn [fst]; [|by apply conns_end]. apply read_authentic in A.
  pose proof (ci_store _ I1) as [W1 J1]. destruct (admitted_grant _ _ _ _ W1 J1 A) as (j & G & S).
  split; [by split|]. cbn. intros c' z Ez. destruct (decide (c = c')) as [<-|N]; [|rewrite lookup_alter_ne in Ez by done; by apply (ci_conns _ I1 c')].
  rewrite lookup_alter_eq, Ey in Ez. injection Ez as <-. split; cbn.
  - intros _. exists m, j. split_and!; try done. by intros m' [= <-].
  - intros m' _ E0. destruct G as (_ & _ & _ & T & _). rewrite E0 in T. done.
Qed.
Lemma conns_replied c written failed h : conns_inv h -> conns_inv (replied c written failed h).
Proof.
  intros I. unfold replied. destruct (ho_conns h !! c) as [x|] eqn:Ex; [|done]. destruct (cn_at x) as [| op m | | | | | | | | | | | |] eqn:S; try done.
  assert (M : forall p, stage_member p = Some m -> conns_inv (move_to c p h)).
  { intros p Hp. apply conns_move; [|done]. intros y Ey. rewrite Ex in Ey. injection Ey as <-. right. by rewrite S, Hp. }
  destruct (negb written); [by apply conns_end|]. destruct (String.eqb op ""); [apply conns_did; by apply M|]. destruct (_ && _); [by apply conns_end|by apply M].
Qed.
Lemma serving_inv (P : Host -> Prop) c op h f : P h ->
  (forall x m, ho_conns h !! c = Some x -> cn_at x = StServe op m -> P (f m x)) -> P (serving c op h f).
Proof.
  intros H F. unfold serving. destruct (ho_conns h !! c) as [x|] eqn:E; [|done]. destruct (cn_at x) as [| | o m | | | | | | | | | | |] eqn:S; try done.
  destruct (String.eqb_spec o op) as [->|]; [|done]. by apply F.
Qed.
Lemma conns_at c h x m p : conns_inv h -> ho_conns h !! c = Some x -> stage_member (cn_at x) = Some m -> stage_member p = Some m -> conns_inv (move_to c p h).
Proof. intros I E S Sp. apply conns_move; [|done]. intros y Ey. rewrite E in Ey. injection Ey as <-. right. congruence. Qed.
Lemma conns_workers c m x req now failed h : conns_inv h -> conns_inv (serveWorkers c m x req now failed h).
Proof. intros I. unfold serveWorkers. repeat case_match; auto 6 with conns. Qed.
Lemma conns_tasks c m x req now w failed h : conns_inv h -> conns_inv (serveTasks c m x req now w failed h).
Proof.
  intros I. unfold serveTasks. destruct req as [q|]; [|auto with conns]. destruct (query _ _); [|auto with conns].
  destruct (_ || _); [auto with conns|]. pose proof (ci_store h I) as [W J].
  apply conns_db; [|exact (exec_admission (store_of w h) (OpChangeTask now (ho_room h) {| ac_UID := mb_UID m; ac_Name := mb_Name m |} q) ltac:(done))|auto with conns].
  exact (exec_store (store_of w h) (OpChangeTask now (ho_room h) {| ac_UID := mb_UID m; ac_Name := mb_Name m |} q) W J).
Qed.
Lemma conns_resources c m x req failed h : conns_inv h -> ho_conns h !! c = Some x -> cn_at x = StServe "resources" m ->
  conns_inv (serveResources c m x req failed h).
Proof.
  intros I E S. assert (M : forall p, stage_member p = Some m -> conns_inv (move_to c p h)) by (intros p; eapply conns_at; [done|done|by rewrite S]).
  unfold serveResources. destruct req as [[a|q]|]; [by apply M| |by apply conns_end].
  destruct (query _ _) as [role|]; [|by apply conns_end]. destruct (negb _); [by apply conns_end|]. destruct (_ || _); [by apply conns_end|].
  apply conns_did, conns_busy. by apply M.
Qed.
Lemma conns_personal_resource c m x a mode failed h : conns_inv h -> ho_conns h !! c = Some x -> cn_at x = StPersonal m a mode ->
  conns_inv (servePersonalResource c m x a mode failed h).
Proof.
  intros I E S. unfold servePersonalResource. destruct (query _ _) as [role|]; [|auto with conns]. apply conns_did.
  destruct (_ && _); [|auto with conns]. eapply conns_at; [done|done|by rewrite S|done].
Qed.
Lemma conns_hand c ids h : conns_inv h -> conns_inv (hand_personal c ids h).
Proof. intros I. unfold hand_personal. repeat case_match; auto 6 with conns. Qed.
Lemma conns_questions c m x req failed h : conns_inv h -> ho_conns h !! c = Some x -> cn_at x = StServe "questions" m ->
  conns_inv (serveQuestions c m x req failed h).
Proof.
  intros I E S. unfold serveQuestions. destruct req as [q|]; [|auto with conns]. destruct (query _ _) as [role|]; [|auto with conns].
  apply conns_did. eapply conns_at; [done|done|by rewrite S|done].
Qed.
Lemma conns_consult c now selected inserted h : conns_inv h -> conns_inv (consult c now selected inserted h).
Proof.
  intros I. unfold consult. destruct (ho_conns h !! c) as [x|] eqn:E; [|done]. destruct (cn_at x) as [| | | | | | | | | | | | |m q role] eqn:S; try done. cbv zeta.
  assert (M : forall p, stage_member p = Some m -> conns_inv (move_to c p h)) by (intros p; eapply conns_at; [done|done|by rewrite S]).
  destruct (String.eqb (qq_Action q) "list"); [destruct (String.eqb role "visitor"); auto with conns|].
  destruct (String.eqb (qq_Action q) "ask"); [|auto with conns]. destruct (negb _); [auto with conns|]. apply conns_did, conns_service. by apply M.
Qed.
Lemma conns_upload c m x req others h : conns_inv h -> ho_conns h !! c = Some x -> cn_at x = StServe "upload" m -> conns_inv (receiveUpload c m req others h).
Proof.
  intros I E S. unfold receiveUpload. destruct req as [u|]; [|auto with conns]. destruct (negb _); [auto with conns|]. destruct (ho_uploadMu h); [done|].
  destruct (maxRoomUploadBytes <? _); [auto with conns|]. apply conns_files. eapply conns_at; [done|done|by rewrite S|done].
Qed.
Lemma conns_finish_upload c whole renamed failed h : conns_inv h -> conns_inv (finish_upload c whole renamed failed h).
Proof. intros I. unfold finish_upload. repeat case_match; auto 8 with conns. Qed.
Lemma conns_execute c h : conns_inv h -> conns_inv (execute c h).
Proof.
  intros I. unfold execute. destruct (ho_conns h !! c) as [x|] eqn:E; [|done]. destruct (cn_at x) as [| | | | |m q mode| | | | | | | |] eqn:S; try done.
  assert (M : conns_inv (move_to c (StExecuted m mode) h)) by (eapply conns_at; [done|done|by rewrite S|done]). cbv zeta. destruct (String.eqb mode "host"); auto with conns.
Qed.
Lemma conns_answer c ended failed h : conns_inv h -> conns_inv (answer_resource c ended failed h).
Proof.
  intros I. unfold answer_resource. destruct (ho_conns h !! c) as [x|] eqn:E; [|done]. destruct (cn_at x) as [| | | | | |m mode| | | | | | |] eqn:S; try done.
  assert (M : conns_inv (move_to c (StRelease m) h)) by (eapply conns_at; [done|done|by rewrite S|done]). cbv zeta. destruct (_ && _); auto with conns.
Qed.
Lemma conns_asked c h : conns_inv h -> conns_inv (asked c h).
Proof.
  intros I. unfold asked. destruct (ho_conns h !! c) as [x|] eqn:E; [|done]. destruct (cn_at x) eqn:S, (sv_calls (ho_questions h) !! c) as [[]|]; try done.
  eapply conns_at; [done|done|by rewrite S|done].
Qed.
Lemma conns_reply_questions c failed h : conns_inv h -> conns_inv (reply_questions c failed h).
Proof. intros I. unfold reply_questions. repeat case_match; auto with conns. Qed.
Lemma decide_conn h s now id action role w q x : conns_inv h -> conn_ok (ho_db h) (ho_room h) x ->
  DecideJoinRole (store_of w h) now (ho_room h) id action role = (s, Ok q) ->
  conn_ok (db s) (ho_room h) x \/ (action = "revoke" /\ cn_uid x = jn_UID q).
Proof.
  intros I [G T] D. pose proof (ci_store h I) as [W J]. pose proof (decide_admission (store_of w h) _ _ _ _ _ _ _ J D) as A. cbv beta in A. cbn [store_of db] in A.
  destruct (decide (cn_token x = "")) as [E|N]; [left; split; [done|by intros m Hm; destruct (T m Hm)]|].
  destruct (G N) as (m & j & (Ij & Gr & R) & U & O & M). destruct (A j Gr Ij) as [Hj|[Ha Hu]].
  - left. split; [|done]. intros _. exists m, j. split_and!; done.
  - right. split; [done|]. destruct R as (_ & _ & Uj & _). congruence.
Qed.
Lemma decide_evolves h s now id action role w r : conns_inv h -> DecideJoinRole (store_of w h) now (ho_room h) id action role = (s, r) ->
  store_ok (ho_db h) (db s) /\ grants_evolve (ho_db h) (db s).
Proof.
  intros I D. pose proof (ci_store h I) as [W J].
  assert (E : db s = db (exec (store_of w h) (OpDecideJoin now (ho_room h) id action role))) by (cbn [exec]; by rewrite D).
  rewrite E. split; [by apply (exec_store (store_of w h))|]. apply (exec_joins (store_of w h) (OpDecideJoin now (ho_room h) id action role) W J).
Qed.
Lemma conns_manage now id action role w h : conns_inv h -> conns_inv (manage now id action role w h).
Proof.
  intros I. unfold manage. destruct (DecideJoinRole _ _ _ _ _ _) as [s r] eqn:D. pose proof (ci_store h I) as [W J].
  destruct (decide_evolves h s _ _ _ _ _ _ I D) as [So Ev]. destruct r as [q|e].
  2: { pose proof (decide_admission (store_of w h) _ _ _ _ _ _ _ J D) as E. cbn [store_of db] in E. rewrite E. by apply conns_db. }
  cbv zeta. destruct (String.eqb action "revoke" || String.eqb action "role") eqn:A.
  - split; [destruct So; by split|]. cbn. intros c x E. rewrite lookup_fmap in E. apply fmap_Some in E as (y & E & ->). pose proof (ci_conns h I c y E) as O.
    destruct (decide_conn h s _ _ _ _ _ _ y I O D) as [K|[_ U]].
    + destruct (cn_uid y =? jn_UID q); [by apply conn_ok_closed|done].
    + rewrite U, Z.eqb_refl. by eapply conn_ok_evolves.
  - apply conns_did. split; [destruct So; by split|]. cbn. intros c x E. pose proof (ci_conns h I c x E) as O.
    destruct (decide_conn h s _ _ _ _ _ _ x I O D) as [K|[-> _]]; [done|discriminate A].
Qed.
Lemma conns_close_held h : conns_inv h -> conns_inv (close_held h).
Proof.
  intros [S C]. split; [done|]. cbn. intros c x E. rewrite map_lookup_imap in E. destruct (ho_conns h !! c) as [y|] eqn:Ey; [|done]. cbn in E.
  specialize (C c y Ey). case_bool_decide; injection E as <-; [by apply conn_ok_closed|done].
Qed.
Lemma conns_mode m h : conns_inv h -> conns_inv (set_mode m h).
Proof. by apply conns_frame. Qed.
Lemma conns_resource_mode mode written failed h : conns_inv h -> conns_inv (manageResourceMode mode written failed h).
Proof.
  intros I. unfold manageResourceMode. destruct (negb _); [done|]. cbv zeta. destruct (_ && _ && _); [done|]. destruct written; [done|]. by apply conns_close_held, conns_mode, conns_personal.
Qed.
Lemma conns_Close h : conns_inv h -> conns_inv (Close h).
Proof.
  intros [S C]. split; [done|]. cbn. intros c x E. rewrite lookup_fmap in E. apply fmap_Some in E as (y & E & ->). by apply conn_ok_closed, (C c).
Qed.
Lemma conns_store h (k : StoreOps.call) : conns_inv h -> conns_inv (host_step h (HmStore k)).
Proof.
  intros I. pose proof (ci_store h I) as [W J]. cbn [host_step].
  assert (K : (forall now rid id a r, c_op k <> OpDecideJoin now rid id a r) -> conns_inv (with_db (StoreOps.step (ho_db h) k) h)).
  { intros N. apply conns_db; [exact (exec_store (mkStore (ho_db h) (c_hook k) (c_fault k)) (c_op k) W J)| |done].
    exact (exec_admission (mkStore (ho_db h) (c_hook k) (c_fault k)) (c_op k) N). }
  destruct (c_op k); first [done|by apply K].
Qed.
Lemma conns_accept c h : conns_inv h -> conns_inv (accept c h).
Proof.
  intros I. unfold accept. destruct (_ || _); [done|]. split; [apply I|]. cbn. intros c' x [[<- <-]|[_ E]]%lookup_insert_Some; [|by apply (ci_conns h I c')].
  split; cbn; done.
Qed.
Lemma conns_remove c h : conns_inv h -> conns_inv (remove c h).
Proof.
  intros I. unfold remove. destruct (ho_conns h !! c) as [x|]; [|done]. destruct (cn_at x); try done. split; [apply I|]. cbn.
  intros c' y [_ E]%lookup_delete_Some. by apply (ci_conns h I c').
Qed.
Lemma conns_step h mv : conns_inv h -> conns_inv (host_step h mv).
Proof.
  intros I. destruct mv; cbn [host_step]; try (by apply conns_store).
  - by apply conns_accept.
  - destruct (ho_conns h !! c) as [y|] eqn:E; [|done]. destruct (cn_at y) eqn:S; try done. destruct x as [x|]; [by eapply conns_hello|by apply conns_end].
  - by apply conns_replied.
  - apply serving_inv; [done|]. intros x m _ _. by apply conns_workers.
  - apply serving_inv; [done|]. intros x m _ _. by apply conns_tasks.
  - apply serving_inv; [done|]. intros x m E S. by apply conns_resources.
  - destruct (ho_conns h !! c) as [x|] eqn:E; [|done]. destruct (cn_at x) eqn:S; try done. by apply conns_personal_resource.
  - by apply conns_hand.
  - by apply conns_execute.
  - by apply conns_answer.
  - unfold release_resource. destruct (ho_conns h !! c) as [x|]; [|done]. destruct (cn_at x); try done. auto with conns.
  - apply serving_inv; [done|]. intros x m E S. by apply conns_questions.
  - by apply conns_consult.
  - by apply conns_service.
  - by apply conns_asked.
  - by apply conns_reply_questions.
  - apply serving_inv; [done|]. intros x m E S. by eapply conns_upload.
  - by apply conns_finish_upload.
  - apply serving_inv; [done|]. intros x m _ _. by apply conns_end.
  - destruct (ho_conns h !! c) as [x|]; [|done]. destruct (cn_at x); auto with conns.
  - by apply conns_remove.
  - by apply conns_manage.
  - by apply conns_resource_mode.
  - unfold WithBotMember. destruct (BotMember _ _ _ _); auto with conns.
  - by apply conns_Close.
  - destruct (not_handle mv); auto with conns.
  - auto with conns.
Qed.
Lemma conns_new d room session mode root dir ready now : store_ok d d -> conns_inv (new_host d room session mode root dir ready now).
Proof. intros S. by split. Qed.
Lemma conns_run h l : conns_inv h -> conns_inv (host_run h l).
Proof. revert h. induction l as [|mv l IH]; intros h I; [done|]. cbn. by apply IH, conns_step. Qed.
Lemma reachable_store l : store_ok (run empty_db l) (run empty_db l).
Proof. split; [apply reachable_wf|apply reachable_joins]. Qed.

(** C8: whatever connections, decisions, commands and other uses of the store
    interleave on a host, a connection that was admitted and is still open belongs to
    a token that authenticates, at this very moment, as the member it was admitted
    as; so a revocation leaves no open connection of the member it concerned. *)
Theorem open_connections_admitted calls room session mode root dir ready now moves c x :
  let h := host_run (new_host (run empty_db calls) room session mode root dir ready now) moves in
  ho_conns h !! c = Some x -> cn_open x = true -> cn_token x <> "" ->
  exists m, AuthenticateJoin (store_at (ho_db h)) (ho_room h) (cn_token x) = Ok m /\ mb_UID m = cn_uid x
    /\ forall m', stage_member (cn_at x) = Some m' -> m' = m.
Proof.
  intros h E O N. assert (I : conns_inv h) by (apply conns_run, conns_new, reachable_store). pose proof (ci_store h I) as [W J].
  destruct (ck_grant _ _ _ (ci_conns h I c x E) N) as (m & j & G & U & A & M). exists m. split_and!; [|done|done].
  by apply (grant_admitted _ _ _ _ j); [done|done|done|apply A].
Qed.

(** ** The law of the acts *)

Definition role_is (d : DB) (rid : RoomID) (m : RoomTypes.Member) (role : string) : Prop := MemberRole (store_at d) rid (mb_UID m) = Ok role.
(** Admitted, while the connection is open. *)
Definition present (rid : RoomID) (mo : moment) (m : RoomTypes.Member) : Prop :=
  cn_open (mo_conn mo) = true -> admitted (mo_db mo) rid (cn_token (mo_conn mo)) m.
Definition admitted_now (rid : RoomID) (mo : moment) (m : RoomTypes.Member) : Prop := admitted (mo_db mo) rid (cn_token (mo_conn mo)) m.
(** The last thing that was done for a connection. *)
Definition last_of (c : nat) (tr : list moment) : option moment := last (List.filter (fun mo => bool_decide (mo_of mo = Some c)) tr).
Definition just_did (tr : list moment) (c : nat) (x : connection) (a : host_act) : Prop :=
  exists mo, last_of c tr = Some mo /\ mo_act mo = a /\ cn_token (mo_conn mo) = cn_token x.
Definition after_act (tr : list moment) (mo : moment) (a : host_act) : Prop := exists c, mo_of mo = Some c /\ just_did tr c (mo_conn mo) a.
Definition lawful_moment (rid : RoomID) (tr : list moment) (mo : moment) : Prop :=
  match mo_act mo with
  | HaRole m role => present rid mo m /\ role_is (mo_db mo) rid m role
  | HaSession m => present rid mo m
  | HaWork conn m _ => conn = m /\ admitted_now rid mo m /\ role_is (mo_db mo) rid m "roommate"
  | HaTask m _ | HaTaskRead m | HaResource m _ | HaReplied m => admitted_now rid mo m
  | HaPersonal m _ => present rid mo m /\ after_act tr mo (HaRole m "roommate")
  | HaAdmitted m q mode role => present rid mo m /\ role_is (mo_db mo) rid m role /\ query_allowed mode role q = true
  | HaExecute m q => present rid mo m /\ after_act tr mo (HaAdmitted m q "host" "roommate")
  | HaQuestions m uid all => present rid mo m /\ exists role, after_act tr mo (HaRole m role) /\ role <> "visitor" /\ (all = true \/ uid <> mb_UID m -> role = "roommate")
  | HaAsk m _ _ => present rid mo m /\ after_act tr mo (HaRole m "asker")
  | HaFile m u => admitted_now rid mo m /\ role_is (mo_db mo) rid m "roommate" /\ valid_upload u = true
  | HaDecided _ _ => True
  | HaBot m => exists uid work, BotMember (store_at (mo_db mo)) rid uid work = Ok m
  end.
Definition acts_lawful (rid : RoomID) (tr : list moment) : Prop := forall t1 mo t2, tr = t1 ++ mo :: t2 -> lawful_moment rid t1 mo.
Definition stage_ok (tr : list moment) (c : nat) (x : connection) : Prop :=
  match cn_at x with
  | StQuery m q mode => exists role, just_did tr c x (HaAdmitted m q mode role) /\ query_allowed mode role q = true
  | StSender m _ => just_did tr c x (HaRole m "roommate")
  | StQuestion m _ role => just_did tr c x (HaRole m role)
  | StUpload _ u => valid_upload u = true
  | _ => True
  end.
Record acts_inv (h : Host) : Prop := mk_acts_inv
  { ai_law : acts_lawful (ho_room h) (ho_trace h);
    ai_stages : forall c x, ho_conns h !! c = Some x -> stage_ok (ho_trace h) c x }.
Lemma last_of_other c tr mo : mo_of mo <> Some c -> last_of c (tr ++ [mo]) = last_of c tr.
Proof. intros N. unfold last_of. rewrite List.filter_app. cbn. rewrite bool_decide_eq_false_2 by done. by rewrite app_nil_r. Qed.
Lemma last_of_this c tr mo : mo_of mo = Some c -> last_of c (tr ++ [mo]) = Some mo.
Proof. intros E. unfold last_of. rewrite List.filter_app. cbn. rewrite bool_decide_eq_true_2 by done. apply last_snoc. Qed.
Lemma just_did_now tr c x d a p : just_did (tr ++ [mkMoment d (Some c) x a]) c (at_stage p x) a.
Proof. eexists. split; [by apply last_of_this|done]. Qed.
Lemma stage_ok_other tr c x mo : mo_of mo <> Some c -> stage_ok tr c x -> stage_ok (tr ++ [mo]) c x.
Proof. intros N. unfold stage_ok, just_did. by rewrite last_of_other. Qed.
(** A connection that keeps its token and its stage. *)
Lemma stage_ok_same tr c x y : cn_token y = cn_token x -> cn_at y = cn_at x -> stage_ok tr c x -> stage_ok tr c y.
Proof. unfold stage_ok, just_did. by intros -> ->. Qed.
Lemma acts_frame h h' : ho_room h' = ho_room h -> ho_trace h' = ho_trace h -> ho_conns h' = ho_conns h -> acts_inv h -> acts_inv h'.
Proof. intros E1 E2 E3 [L S]. split; rewrite ?E1, ?E2, ?E3; done. Qed.
Lemma acts_conns m h : (forall c x, m !! c = Some x -> stage_ok (ho_trace h) c x) -> acts_inv h -> acts_inv (with_conns m h).
Proof. intros H [L S]. by split. Qed.
Lemma acts_move c p h : (forall x, ho_conns h !! c = Some x -> stage_ok (ho_trace h) c (at_stage p x)) -> acts_inv h -> acts_inv (move_to c p h).
Proof.
  intros P I. apply acts_conns; [|done]. intros c' x E. destruct (decide (c = c')) as [<-|N].
  - rewrite lookup_alter_eq in E. apply fmap_Some in E as (y & E & ->). by apply P.
  - rewrite lookup_alter_ne in E by done. by apply (ai_stages h I c').
Qed.
Lemma acts_end c h : acts_inv h -> acts_inv (move_to c StEnd h).
Proof. by apply acts_move. Qed.
Lemma law_snoc rid tr mo : acts_lawful rid tr -> lawful_moment rid tr mo -> acts_lawful rid (tr ++ [mo]).
Proof.
  intros L La t1 x t2 E. destruct (decide (t2 = [])) as [->|N].
  - by apply app_inj_tail in E as [<- <-].
  - destruct (exists_last N) as (t & y & ->). rewrite app_comm_cons, app_assoc in E. apply app_inj_tail in E as [E _]. by eapply L.
Qed.
(** An act for a connection, which goes on at a stage. *)
Lemma acts_did c x a p h h1 : ho_conns h !! c = Some x -> ho_conns h1 = alter (at_stage p) c (ho_conns h) -> ho_trace h1 = ho_trace h -> ho_room h1 = ho_room h ->
  lawful_moment (ho_room h) (ho_trace h) (mkMoment (ho_db h1) (Some c) x a) ->
  stage_ok (ho_trace h ++ [mkMoment (ho_db h1) (Some c) x a]) c (at_stage p x) -> acts_inv h -> acts_inv (did (Some c) x a h1).
Proof.
  intros E Ec Et Er La St [L S]. split; cbn.
  - rewrite Et, Er. by apply law_snoc.
  - rewrite Ec, Et. intros c' y Ey. destruct (decide (c = c')) as [<-|N].
    + rewrite lookup_alter_eq, E in Ey. injection Ey as <-. exact St.
    + rewrite lookup_alter_ne in Ey by done. apply stage_ok_other; [cbn; congruence|by apply S].
Qed.
Lemma acts_decided x a h : lawful_moment (ho_room h) (ho_trace h) (mkMoment (ho_db h) None x a) -> acts_inv h -> acts_inv (did None x a h).
Proof. intros La [L S]. split; cbn; [by apply law_snoc|]. intros c y E. apply stage_ok_other; [done|by apply S]. Qed.
Lemma acts_db d h : acts_inv h -> acts_inv (with_db d h).
Proof. by apply acts_frame. Qed.
Lemma acts_agents a h : acts_inv h -> acts_inv (with_agents a h).
Proof. by apply acts_frame. Qed.
Lemma acts_personal p h : acts_inv h -> acts_inv (with_personal p h).
Proof. by apply acts_frame. Qed.
Lemma acts_busy u l h : acts_inv h -> acts_inv (with_busy u l h).
Proof. by apply acts_frame. Qed.
Lemma acts_service s h : acts_inv h -> acts_inv (with_questions s h).
Proof. by apply acts_frame. Qed.
Lemma acts_files mu f h : acts_inv h -> acts_inv (with_uploads mu f h).
Proof. by apply acts_frame. Qed.
Lemma acts_mode m h : acts_inv h -> acts_inv (set_mode m h).
Proof. by apply acts_frame. Qed.
Create HintDb acts discriminated.
#[export] Hint Resolve acts_end acts_db acts_agents acts_personal acts_busy acts_service acts_files acts_mode : acts.
Lemma present_conn h c n x m a : conns_inv h -> ho_conns h !! c = Some x -> stage_member (cn_at x) = Some m ->
  present (ho_room h) (mkMoment (ho_db h) n x a) m.
Proof. intros I E S O. cbn in *. pose proof (ci_store h I) as [W J]. eapply conn_ok_open; [by apply (ci_conns h I c)|done..]. Qed.
Lemma member_conn h c x m m' : conns_inv h -> ho_conns h !! c = Some x -> stage_member (cn_at x) = Some m -> admitted (ho_db h) (ho_room h) (cn_token x) m' -> m' = m.
Proof.
  intros I E S A. pose proof (ci_store h I) as [W J]. destruct (ci_conns h I c x E) as [G T]. destruct (G (T m S)) as (m0 & j & Gr & _ & _ & M).
  rewrite (M m S). by eapply admitted_member.
Qed.
Lemma read_role h m failed role : is_role (query failed (MemberRole (reading h) (ho_room h) (mb_UID m))) role = true -> role_is (ho_db h) (ho_room h) m role.
Proof.
  unfold is_role, query, role_is. destruct failed; [done|]. change (reading h) with (store_at (ho_db h)).
  destruct (MemberRole _ _ _) as [r|]; [|done]. by intros ->%String.eqb_eq.
Qed.
Lemma acts_replied c written failed h : conns_inv h -> acts_inv h -> acts_inv (replied c written failed h).
Proof.
  intros I A. unfold replied. destruct (ho_conns h !! c) as [x|] eqn:E; [|done]. destruct (cn_at x) as [|op m| | | | | | | | | | | |] eqn:S; try done.
  destruct (negb written); [auto with acts|]. destruct (String.eqb op ""); [|destruct (_ && _); [auto with acts|by apply acts_move]].
  eapply (acts_did c x _ (StSession m) h); try done. cbn. eapply (present_conn h c); [done|done|by rewrite S].
Qed.
Lemma acts_workers c m x req now failed h : conns_inv h -> acts_inv h -> ho_conns h !! c = Some x -> cn_at x = StServe "agents" m ->
  acts_inv (serveWorkers c m x req now failed h).
Proof.
  intros I A E S. unfold serveWorkers. destruct req as [req|]; [|auto with acts]. destruct (query failed (AuthenticateJoin _ _ _)) as [m'|] eqn:Q; [|auto with acts].
  apply read_authentic in Q. pose proof (member_conn h c x m m' I E ltac:(by rewrite S) Q) as ->.
  destruct (is_role _ _) eqn:R; [|auto with acts]. apply read_role in R. destruct (ho_agents h); [|auto with acts]. by eapply (acts_did c x _ StEnd h).
Qed.
Lemma acts_tasks c m x req now w failed h : conns_inv h -> acts_inv h -> ho_conns h !! c = Some x -> cn_at x = StServe "tasks" m ->
  acts_inv (serveTasks c m x req now w failed h).
Proof.
  intros I A E S. unfold serveTasks. destruct req as [q|]; [|auto with acts]. destruct (query failed (AuthenticateJoin _ _ _)) as [m'|] eqn:Q; [|auto with acts].
  apply read_authentic in Q. pose proof (member_conn h c x m m' I E ltac:(by rewrite S) Q) as ->.
  destruct (_ || _); [|apply acts_db]; by eapply (acts_did c x _ StEnd h).
Qed.
Lemma acts_resources c m x req failed h : conns_inv h -> acts_inv h -> ho_conns h !! c = Some x -> cn_at x = StServe "resources" m ->
  acts_inv (serveResources c m x req failed h).
Proof.
  intros I A E S. unfold serveResources. destruct req as [[a|q]|]; [by apply acts_move| |auto with acts].
  destruct (query failed (MemberRole _ _ _)) as [role|] eqn:Q; [|auto with acts]. destruct (query_allowed (ho_mode h) role q) eqn:Al; cbn [negb]; [|auto with acts].
  destruct (_ || _); [auto with acts|]. eapply (acts_did c x _ (StQuery m q (ho_mode h)) h); try done.
  - cbn. split_and!; [eapply (present_conn h c); [done|done|by rewrite S]|by destruct failed|done].
  - exists role. split; [apply just_did_now|done].
Qed.
Lemma acts_personal_resource c m x a mode failed h : conns_inv h -> acts_inv h -> ho_conns h !! c = Some x -> cn_at x = StPersonal m a mode ->
  acts_inv (servePersonalResource c m x a mode failed h).
Proof.
  intros I A E S. unfold servePersonalResource. destruct (query failed _) as [role|] eqn:Q; [|auto with acts]. set (p := if _ && _ then _ else _).
  eapply (acts_did c x _ p h); try done.
  - cbn. split; [eapply (present_conn h c); [done|done|by rewrite S]|by destruct failed].
  - unfold p. destruct (_ && _) eqn:R; [|done]. apply andb_prop in R as [_ ->%String.eqb_eq]. apply just_did_now.
Qed.
Lemma acts_hand c ids h : conns_inv h -> acts_inv h -> acts_inv (hand_personal c ids h).
Proof.
  intros I A. unfold hand_personal. destruct (ho_conns h !! c) as [x|] eqn:E; [|done]. destruct (cn_at x) as [| | | | | | | | | | | |m a|] eqn:S; try done.
  destruct (ho_personal h); [|auto with acts]. eapply (acts_did c x _ StEnd h); try done. cbn. split; [eapply (present_conn h c); [done|done|by rewrite S]|].
  exists c. split; [done|]. pose proof (ai_stages h A c x E) as St. unfold stage_ok in St. by rewrite S in St.
Qed.
Lemma acts_execute c h : conns_inv h -> acts_inv h -> acts_inv (execute c h).
Proof.
  intros I A. unfold execute. destruct (ho_conns h !! c) as [x|] eqn:E; [|done]. destruct (cn_at x) as [| | | | |m q mode| | | | | | | |] eqn:S; try done. cbv zeta.
  destruct (String.eqb_spec mode "host") as [->|]; [|by apply acts_move]. eapply (acts_did c x _ (StExecuted m "host") h); try done.
  cbn. split; [eapply (present_conn h c); [done|done|by rewrite S]|]. exists c. split; [done|].
  pose proof (ai_stages h A c x E) as St. unfold stage_ok in St. rewrite S in St. destruct St as (role & J & Al).
  unfold query_allowed in Al. cbn in Al. destruct (String.eqb_spec role "roommate") as [->|]; [done|]. exfalso.
  destruct (String.eqb_spec role "asker") as [->|]; [|done]. cbn in Al. rewrite !andb_false_r in Al. done.
Qed.
Lemma acts_answer c ended failed h : conns_inv h -> acts_inv h -> acts_inv (answer_resource c ended failed h).
Proof.
  intros I A. unfold answer_resource. destruct (ho_conns h !! c) as [x|] eqn:E; [|done]. destruct (cn_at x) as [| | | | | |m mode| | | | | | |] eqn:S; try done. cbv zeta.
  destruct (is_ok _ && _ && _) eqn:Q; [|by apply acts_move]. apply andb_prop in Q as [Q _]. apply andb_prop in Q as [Q _].
  destruct (query failed (AuthenticateJoin _ _ _)) as [m'|] eqn:R; [|done]. apply read_authentic in R.
  pose proof (member_conn h c x m m' I E ltac:(by rewrite S) R) as ->. by eapply (acts_did c x _ (StRelease m) h).
Qed.
Lemma acts_reply_questions c failed h : conns_inv h -> acts_inv h -> acts_inv (reply_questions c failed h).
Proof.
  intros I A. unfold reply_questions. destruct (ho_conns h !! c) as [x|] eqn:E; [|done]. destruct (cn_at x) as [| | | | | | | | | | |m| |] eqn:S; try done. cbv zeta.
  destruct (query failed (AuthenticateJoin _ _ _)) as [m'|] eqn:R; cbn [is_ok]; [|auto with acts]. apply read_authentic in R.
  pose proof (member_conn h c x m m' I E ltac:(by rewrite S) R) as ->. by eapply (acts_did c x _ StEnd h).
Qed.
Lemma acts_questions c m x req failed h : conns_inv h -> acts_inv h -> ho_conns h !! c = Some x -> cn_at x = StServe "questions" m ->
  acts_inv (serveQuestions c m x req failed h).
Proof.
  intros I A E S. unfold serveQuestions. destruct req as [q|]; [|auto with acts]. destruct (query failed (MemberRole _ _ _)) as [role|] eqn:Q; [|auto with acts].
  eapply (acts_did c x _ (StQuestion m q role) h); try done; [|apply just_did_now]. cbn. split; [eapply (present_conn h c); [done|done|by rewrite S]|by destruct failed].
Qed.
Lemma acts_consult c now selected inserted h : conns_inv h -> acts_inv h -> acts_inv (consult c now selected inserted h).
Proof.
  intros I A. unfold consult. destruct (ho_conns h !! c) as [x|] eqn:E; [|done]. destruct (cn_at x) as [| | | | | | | | | | | | |m q role] eqn:S; try done. cbv zeta.
  assert (P : forall n a, present (ho_room h) (mkMoment (ho_db h) n x a) m) by (intros n a; eapply (present_conn h c); [done|done|by rewrite S]).
  assert (R : forall a, after_act (ho_trace h) (mkMoment (ho_db h) (Some c) x a) (HaRole m role)).
  { intros a. exists c. split; [done|]. pose proof (ai_stages h A c x E) as St. unfold stage_ok in St. by rewrite S in St. }
  assert (Rp : acts_inv (move_to c (StReplying m) h)) by by apply acts_move.
  destruct (String.eqb (qq_Action q) "list").
  - destruct (String.eqb_spec role "visitor") as [|V]; [done|]. eapply (acts_did c x _ (StReplying m) h); try done. cbn. split; [apply P|]. exists role. split_and!; [apply R|done|].
    destruct (String.eqb_spec role "roommate") as [->|]; [done|]. cbn. intros [?|?]; done.
  - destruct (String.eqb (qq_Action q) "ask"); [|done]. destruct (String.eqb_spec role "asker") as [->|]; cbn [negb]; [|done].
    eapply (acts_did c x _ (StAsking m) h); try done.
Qed.
Lemma acts_upload c m x req others h : acts_inv h -> ho_conns h !! c = Some x -> acts_inv (receiveUpload c m req others h).
Proof.
  intros A E. unfold receiveUpload. destruct req as [u|]; [|auto with acts]. destruct (valid_upload u) eqn:V; cbn [negb]; [|auto with acts]. destruct (ho_uploadMu h); [done|].
  destruct (maxRoomUploadBytes <? _); [auto with acts|]. apply acts_files. by apply acts_move.
Qed.
Lemma acts_finish_upload c whole renamed failed h : conns_inv h -> acts_inv h -> acts_inv (finish_upload c whole renamed failed h).
Proof.
  intros I A. unfold finish_upload. destruct (ho_conns h !! c) as [x|] eqn:E; [|done]. destruct (cn_at x) as [| | | | | | | | |m0 u| | | |] eqn:S; try done. cbv zeta.
  destruct (negb whole); [auto with acts|]. destruct (query failed (AuthenticateJoin _ _ _)) as [m|] eqn:Q; [|auto with acts]. apply read_authentic in Q.
  destruct (is_role _ _) eqn:R; cbn [andb]; [|auto with acts]. apply read_role in R. destruct renamed; [|auto with acts].
  pose proof (ai_stages h A c x E) as St. unfold stage_ok in St. rewrite S in St. by eapply (acts_did c x _ StEnd h).
Qed.
Lemma acts_closing (f : nat -> connection -> connection) h : (forall c x, cn_at (f c x) = cn_at x /\ cn_token (f c x) = cn_token x) -> acts_inv h ->
  acts_inv (with_conns (map_imap (fun c x => Some (f c x)) (ho_conns h)) h).
Proof.
  intros F A. apply acts_conns; [|done]. intros c x E. rewrite map_lookup_imap in E. destruct (ho_conns h !! c) as [y|] eqn:Ey; [|done]. injection E as <-.
  eapply stage_ok_same; [apply F|apply F|by apply (ai_stages h A c)].
Qed.
Lemma acts_closing_all (f : connection -> connection) h : (forall x, cn_at (f x) = cn_at x /\ cn_token (f x) = cn_token x) -> acts_inv h ->
  acts_inv (with_conns (f <$> ho_conns h) h).
Proof.
  intros F A. apply acts_conns; [|done]. intros c x E. rewrite lookup_fmap in E. apply fmap_Some in E as (y & E & ->).
  eapply stage_ok_same; [apply F|apply F|by apply (ai_stages h A c)].
Qed.
Lemma acts_step h mv : conns_inv h -> acts_inv h -> acts_inv (host_step h mv).
Proof.
  intros I A. destruct mv; cbn [host_step].
  - unfold accept. destruct (_ || _); [done|]. apply acts_conns; [|done]. intros c' x [[<- <-]|[_ E]]%lookup_insert_Some; [done|by apply (ai_stages h A c')].
  - destruct (ho_conns h !! c) as [y|] eqn:E; [|done]. destruct (cn_at y) eqn:S; try done. destruct x as [x|]; [|auto with acts].
    unfold hello. destruct (negb (existsb _ _)); cbn [fst]; [auto with acts|]. destruct (negb (String.eqb _ _)); cbn [fst]; [auto with acts|].
    destruct (RequestJoin _ _ _ _ _ _ _) as [s [q|e]]; cbn [fst]; [|auto with acts].
    destruct (String.eqb _ "approved"); cbn [fst]; [|auto with acts]. destruct (query _ _) as [m|]; cbn [fst]; [|auto with acts].
    apply acts_conns; [|auto with acts]. intros c' z Ez. cbn in Ez. destruct (decide (c = c')) as [<-|N].
    + rewrite lookup_alter_eq in Ez. by apply fmap_Some in Ez as (u & _ & ->).
    + rewrite lookup_alter_ne in Ez by done. by apply (ai_stages h A c').
  - by apply acts_replied.
  - apply serving_inv; [done|]. intros x m E S. by apply acts_workers.
  - apply serving_inv; [done|]. intros x m E S. by apply acts_tasks.
  - apply serving_inv; [done|]. intros x m E S. by apply acts_resources.
  - destruct (ho_conns h !! c) as [x|] eqn:E; [|done]. destruct (cn_at x) eqn:S; try done. by apply acts_personal_resource.
  - by apply acts_hand.
  - by apply acts_execute.
  - by apply acts_answer.
  - unfold release_resource. destruct (ho_conns h !! c) as [x|]; [|done]. destruct (cn_at x); try done. auto with acts.
  - apply serving_inv; [done|]. intros x m E S. by apply acts_questions.
  - by apply acts_consult.
  - auto with acts.
  - unfold asked. destruct (ho_conns h !! c) as [x|]; [|done]. destruct (cn_at x), (sv_calls (ho_questions h) !! c) as [[]|]; try done. by apply acts_move.
  - by apply acts_reply_questions.
  - apply serving_inv; [done|]. intros x m E S. by eapply acts_upload.
  - by apply acts_finish_upload.
  - apply serving_inv; [done|]. intros x m _ _. auto with acts.
  - destruct (ho_conns h !! c) as [x|]; [|done]. destruct (cn_at x); auto with acts.
  - unfold remove. destruct (ho_conns h !! c) as [x|]; [|done]. destruct (cn_at x); try done. apply acts_conns; [|done].
    intros c' y [_ E]%lookup_delete_Some. by apply (ai_stages h A c').
  - unfold manage. destruct (DecideJoinRole _ _ _ _ _ _) as [s [q|e]]; [|auto with acts]. cbv zeta.
    assert (A1 : acts_inv (did None no_conn (HaDecided (jn_UID q) action) (with_db (db s) h))) by (apply acts_decided; [done|auto with acts]).
    destruct (_ || _); [|done]. apply (acts_closing_all (fun x => if cn_uid x =? jn_UID q then closed_conn x else x)); [|auto with acts].
    intros x. by destruct (cn_uid x =? jn_UID q).
  - unfold manageResourceMode. destruct (negb _); [done|]. cbv zeta. destruct (_ && _ && _); [done|]. destruct written; [done|].
    unfold close_held. apply acts_closing; [intros c x; by case_bool_decide|]. auto with acts.
  - unfold WithBotMember. destruct (BotMember _ _ _ _) eqn:B; [|done]. apply acts_decided; [|done]. by exists uid, work.
  - unfold Close. apply (acts_closing_all closed_conn (shut _)); [done|]. by apply (acts_frame h).
  - destruct (c_op k); auto with acts.
  - destruct (not_handle mv); auto with acts.
  - auto with acts.
Qed.
Lemma acts_run h l : conns_inv h -> acts_inv h -> conns_inv (host_run h l) /\ acts_inv (host_run h l).
Proof. revert h. induction l as [|mv l IH]; intros h I A; [done|]. cbn. apply IH; [by apply conns_step|by apply acts_step]. Qed.
Lemma acts_new d room session mode root dir ready now : acts_inv (new_host d room session mode root dir ready now).
Proof. split; cbn; [intros [] mo t2 E; discriminate E|done]. Qed.
Lemma room_step h mv : ho_room (host_step h mv) = ho_room h.
Proof.
  destruct mv; cbn [host_step]; unfold accept, hello, replied, serving, serveWorkers, serveTasks, serveResources, servePersonalResource, hand_personal, execute, answer_resource,
    release_resource, serveQuestions, consult, asked, reply_questions, receiveUpload, finish_upload, remove, manage, manageResourceMode, WithBotMember; repeat case_match; try done.
Qed.
Lemma room_run h l : ho_room (host_run h l) = ho_room h.
Proof. revert h. induction l as [|mv l IH]; intros h; [done|]. cbn. by rewrite IH, room_step. Qed.


(** ** Bounds *)

Lemma used_nonneg files : (forall t n, files !! t = Some n -> 0 <= n) -> 0 <= used files.
Proof.
  unfold used. induction files as [|t n files Ht IH] using map_ind; [by rewrite map_fold_empty|]. intros P. rewrite map_fold_insert_L by (done || lia).
  assert (0 <= n) by (apply (P t); apply lookup_insert_eq). assert (0 <= map_fold (fun _ n acc => n + acc) 0 files); [|lia].
  apply IH. intros t' n' E. apply (P t'). rewrite lookup_insert_ne; [done|]. congruence.
Qed.
Lemma used_insert t n files : (forall t n, files !! t = Some n -> 0 <= n) -> used (<[t := n]> files) <= used files + n.
Proof.
  intros P. rewrite <- insert_delete_eq. unfold used. rewrite map_fold_insert_L; [|intros; lia|apply lookup_delete_eq]. fold (used (delete t files)) (used files).
  destruct (files !! t) as [o|] eqn:E; [|rewrite delete_id by done; lia]. pose proof (P t o E).
  assert (U : used files = o + used (delete t files)); [|lia]. rewrite <- (insert_delete_id files t o) at 1 by done.
  unfold used. rewrite map_fold_insert_L; [done|intros; lia|apply lookup_delete_eq].
Qed.
Record bounds_inv (h : Host) : Prop := mk_bounds_inv
  { bo_slots : (size (ho_conns h) <= max_slots)%nat;
    bo_busy : (length (ho_busy h) <= max_busy)%nat /\ NoDup (ho_busy h);
    bo_sizes : forall t n, ho_files h !! t = Some n -> 0 <= n;
    bo_used : used (ho_files h) <= maxRoomUploadBytes;
    bo_upload : forall c x m u, ho_conns h !! c = Some x -> cn_at x = StUpload m u ->
      ho_uploadMu h = Some c /\ 0 <= up_Size u /\ used (ho_files h) + up_Size u <= maxRoomUploadBytes }.
Definition is_upload (p : stage) : bool := match p with StUpload _ _ => true | _ => false end.
Lemma bounds_frame h h' : ho_conns h' = ho_conns h -> ho_busy h' = ho_busy h -> ho_files h' = ho_files h -> ho_uploadMu h' = ho_uploadMu h ->
  bounds_inv h -> bounds_inv h'.
Proof. intros E1 E2 E3 E4 [S B Z U P]. split; rewrite ?E1, ?E2, ?E3, ?E4; done. Qed.
Lemma bounds_conns m h : (size m <= size (ho_conns h))%nat ->
  (forall c x, m !! c = Some x -> is_upload (cn_at x) = true -> exists y, ho_conns h !! c = Some y /\ cn_at y = cn_at x) -> bounds_inv h -> bounds_inv (with_conns m h).
Proof.
  intros Sz F [S B Z U P]. split; cbn; try done; [lia|]. intros c x mm u E Eu. destruct (F c x E) as (y & Ey & A); [by rewrite Eu|].
  apply (P c y mm u Ey). congruence.
Qed.
Lemma size_alter (f : connection -> connection) (c : nat) (m : gmap nat connection) : size (alter f c m) = size m.
Proof. rewrite <- !size_dom. by rewrite dom_alter_L. Qed.
Lemma bounds_alter f c h : (forall x, is_upload (cn_at (f x)) = false) -> bounds_inv h -> bounds_inv (with_conns (alter f c (ho_conns h)) h).
Proof.
  intros F. apply bounds_conns; [by rewrite size_alter|]. intros c' x E. destruct (decide (c = c')) as [<-|N].
  - rewrite lookup_alter_eq in E. apply fmap_Some in E as (y & _ & ->). by rewrite F.
  - rewrite lookup_alter_ne in E by done. intros _. by exists x.
Qed.
Lemma bounds_move c p h : is_upload p = false -> bounds_inv h -> bounds_inv (move_to c p h).
Proof. intros P. by apply bounds_alter. Qed.
Lemma bounds_did n x a h : bounds_inv h -> bounds_inv (did n x a h).
Proof. by apply bounds_frame. Qed.
Lemma bounds_db d h : bounds_inv h -> bounds_inv (with_db d h).
Proof. by apply bounds_frame. Qed.
Lemma bounds_agents a h : bounds_inv h -> bounds_inv (with_agents a h).
Proof. by apply bounds_frame. Qed.
Lemma bounds_personal p h : bounds_inv h -> bounds_inv (with_personal p h).
Proof. by apply bounds_frame. Qed.
Lemma bounds_service s h : bounds_inv h -> bounds_inv (with_questions s h).
Proof. by apply bounds_frame. Qed.
Lemma bounds_mode m h : bounds_inv h -> bounds_inv (set_mode m h).
Proof. by apply bounds_frame. Qed.
Create HintDb bounds discriminated.
#[export] Hint Resolve bounds_did bounds_db bounds_agents bounds_personal bounds_service bounds_mode : bounds.
#[export] Hint Extern 1 (bounds_inv (move_to _ _ _)) => (apply bounds_move; [reflexivity|]) : bounds.
Lemma bounds_map f h : (forall x, cn_at (f x) = cn_at x) -> bounds_inv h -> bounds_inv (with_conns (f <$> ho_conns h) h).
Proof.
  intros F. apply bounds_conns; [by rewrite map_size_fmap|]. intros c x E _. rewrite lookup_fmap in E. apply fmap_Some in E as (y & E & ->). exists y. by rewrite F.
Qed.
Lemma bounds_step h mv : bounds_inv h -> bounds_inv (host_step h mv).
Proof.
  intros B. destruct mv; cbn [host_step].
  - unfold accept. destruct (_ || Nat.leb _ _) eqn:G; [done|]. apply orb_false_iff in G as [G Full]. apply Nat.leb_gt in Full. destruct B as [S Bu Z U P].
    split; cbn; try done.
    + rewrite map_size_insert. destruct (ho_conns h !! c); cbn; lia.
    + intros c' x m u [[<- <-]|[_ E]]%lookup_insert_Some; [done|by apply P].
  - destruct (ho_conns h !! c) as [y|]; [|done]. destruct (cn_at y); try done. destruct x as [x|]; [|auto with bounds].
    unfold hello. repeat case_match; cbn [fst]; auto with bounds. apply bounds_alter; auto with bounds.
  - unfold replied. repeat case_match; auto with bounds.
  - apply serving_inv; [done|]. intros x m _ _. unfold serveWorkers. repeat case_match; auto with bounds.
  - apply serving_inv; [done|]. intros x m _ _. unfold serveTasks. repeat case_match; auto with bounds.
  - apply serving_inv; [done|]. intros x m _ _. unfold serveResources. destruct req as [[a|q]|]; auto with bounds. destruct (query _ _) as [role|]; auto with bounds.
    destruct (negb _); auto with bounds. destruct (_ || _) eqn:G; auto with bounds. apply orb_false_iff in G as [Nb Full]. apply Nat.leb_gt in Full.
    apply bounds_did. assert (B1 : bounds_inv (move_to c (StQuery m q (ho_mode h)) h)) by auto with bounds. destruct B1 as [S [Bl Bn] Z U P]. split; cbn in *; try done.
    split; [unfold max_busy in *; lia|]. apply NoDup_cons. split; [|done]. intros Hin. apply list_elem_of_In in Hin.
    assert (X : existsb (Z.eqb (mb_UID m)) (ho_busy h) = true) by (apply existsb_exists; exists (mb_UID m); split; [done|apply Z.eqb_refl]). unfold busy_with in Nb. congruence.
  - repeat case_match; auto with bounds. unfold servePersonalResource. repeat case_match; auto with bounds.
  - unfold hand_personal. repeat case_match; auto with bounds.
  - unfold execute. repeat case_match; auto with bounds.
  - unfold answer_resource. repeat case_match; auto with bounds.
  - unfold release_resource. repeat case_match; auto with bounds. assert (B1 : bounds_inv (move_to c StEnd h)) by auto with bounds. destruct B1 as [S [Bl Bn] Z U P].
    split; cbn in *; try done. unfold without_uid. split; [etrans; [apply List.filter_length_le|done]|]. by apply NoDup_ListNoDup, List.NoDup_filter, NoDup_ListNoDup.
  - apply serving_inv; [done|]. intros x m _ _. unfold serveQuestions. repeat case_match; auto 6 with bounds.
  - unfold consult. repeat case_match; auto 6 with bounds.
  - auto with bounds.
  - unfold asked. repeat case_match; auto with bounds.
  - unfold reply_questions. repeat case_match; auto with bounds.
  - apply serving_inv; [done|]. intros x m E S. unfold receiveUpload. destruct req as [u|]; auto with bounds. destruct (valid_upload u) eqn:V; cbn [negb]; auto with bounds.
    destruct (ho_uploadMu h) eqn:Mu; [done|]. destruct (Z.ltb_spec maxRoomUploadBytes (used (ho_files h) + Z.max 0 others + up_Size u)) as [L|L]; auto with bounds.
    assert (V0 : 0 <= up_Size u) by (unfold valid_upload in V; destruct (Z.ltb_spec (up_Size u) 0); [done|lia]).
    destruct B as [Sl Bu Z U P]. split; cbn; try done; [by rewrite size_alter|]. intros c' y m' u' E' Eu. destruct (decide (c = c')) as [<-|N].
    + rewrite lookup_alter_eq, E in E'. injection E' as <-. cbn in Eu. injection Eu as <- <-. split_and!; [done|done|lia].
    + rewrite lookup_alter_ne in E' by done. destruct (P c' y m' u' E' Eu) as [X _]. congruence.
  - unfold finish_upload. destruct (ho_conns h !! c) as [x|] eqn:E; [|done]. destruct (cn_at x) as [| | | | | | | | |m u| | | |] eqn:S; try done. cbv zeta.
    destruct (bo_upload h B c x m u E S) as (Mu & Pz & Fit).
    assert (B1 : bounds_inv (with_uploads None (ho_files h) (move_to c StEnd h))).
    { destruct B as [Sl Bu Z U P]. split; cbn; try done; [by rewrite size_alter|]. intros c' y m' u' E' Eu. exfalso. destruct (decide (c = c')) as [<-|N].
      - rewrite lookup_alter_eq in E'. apply fmap_Some in E' as (z & _ & ->). done.
      - rewrite lookup_alter_ne in E' by done. destruct (P c' y m' u' E' Eu) as [X _]. congruence. }
    destruct (negb whole); [done|]. destruct (query _ _); [|done]. destruct (_ && _); [|done]. apply bounds_did. destruct B1 as [Sl Bu Z U P].
    split; cbn in *; try done.
    + intros t n [[_ <-]|[_ Et]]%lookup_insert_Some; [done|by eapply Z].
    + pose proof (used_insert (upload_target u) (up_Size u) (ho_files h) Z). lia.
    + intros c' y m' u' E' Eu. destruct (P c' y m' u' E' Eu) as [X _]. done.
  - apply serving_inv; [done|]. intros x m _ _. auto with bounds.
  - repeat case_match; auto with bounds.
  - unfold remove. repeat case_match; try done. apply bounds_conns; [|intros c' x [_ E]%lookup_delete_Some _; by exists x|done].
    apply map_subseteq_size, delete_subseteq.
  - unfold manage. destruct (DecideJoinRole _ _ _ _ _ _) as [s [q|e]]; [|auto with bounds]. cbv zeta. destruct (_ || _); [|auto with bounds].
    apply (bounds_map (fun x => if cn_uid x =? jn_UID q then closed_conn x else x)); [intros x; by destruct (cn_uid x =? jn_UID q)|auto with bounds].
  - unfold manageResourceMode. repeat case_match; try done. unfold close_held. apply bounds_conns; [| |auto with bounds].
    + cbn. rewrite <- !size_dom. apply subseteq_size. intros c Hc. apply elem_of_dom in Hc as [x Hx]. rewrite map_lookup_imap in Hx. apply elem_of_dom.
      cbn in Hx. destruct (ho_conns h !! c); [by eexists|done].
    + cbn. intros c x E _. rewrite map_lookup_imap in E. destruct (ho_conns h !! c) as [y|]; [|done]. cbn in E. injection E as <-.
      exists y. split; [done|]. by destruct (bool_decide (c ∈ ho_held h)).
  - unfold WithBotMember. destruct (BotMember _ _ _ _); auto with bounds.
  - unfold Close. apply (bounds_map closed_conn (shut _)); [done|]. by apply (bounds_frame h).
  - destruct (c_op k); auto with bounds.
  - destruct (not_handle mv); auto with bounds.
  - auto with bounds.
Qed.
Lemma bounds_run h l : bounds_inv h -> bounds_inv (host_run h l).
Proof. revert h. induction l as [|mv l IH]; intros h B; [done|]. cbn. by apply IH, bounds_step. Qed.
Lemma bounds_new d room session mode root dir ready now : bounds_inv (new_host d room session mode root dir ready now).
Proof. split; cbn; try done; [rewrite map_size_empty; unfold max_slots; lia|split; [unfold max_busy; lia|constructor]]. Qed.

(** Whatever arrives at a host, it keeps at most 64 connections, at most four
    resource requests run, each of another member, and the uploaded files take at
    most one gigabyte; a file that is arriving already has its room. *)
Theorem host_bounds d room session mode root dir ready now moves :
  let h := host_run (new_host d room session mode root dir ready now) moves in
  (size (ho_conns h) <= 64)%nat /\ (length (ho_busy h) <= 4)%nat /\ NoDup (ho_busy h) /\ used (ho_files h) <= 1073741824
  /\ (forall c x m u, ho_conns h !! c = Some x -> cn_at x = StUpload m u -> used (ho_files h) + up_Size u <= 1073741824).
Proof.
  intros h. destruct (bounds_run _ moves (bounds_new d room session mode root dir ready now)) as [S [B N] _ U P]. fold h in S, B, N, U, P.
  split_and!; [exact S|exact B|exact N|exact U|]. intros c x m u E Eu. by destruct (P c x m u E Eu) as (_ & _ & F).
Qed.

(** ** Work and members *)

Definition by_member (a : remote_act) : option UID := match a with RaHanded _ uid _ | RaReported _ uid _ _ => Some uid | _ => None end.
Lemma run_moves_act d mv : not_handle mv = true -> exists l, dk_trace (remote_step d mv) = dk_trace d ++ l /\ forall a, a ∈ l -> by_member a = None.
Proof.
  assert (N : forall d' : desk, dk_trace d' = dk_trace d -> exists l, dk_trace d' = dk_trace d ++ l /\ forall a, a ∈ l -> by_member a = None).
  { intros d' E. exists []. rewrite app_nil_r. split; [done|]. by intros a Ha%not_elem_of_nil. }
  assert (S : forall (d' : desk) a, dk_trace d' = dk_trace d ++ [a] -> by_member a = None -> exists l, dk_trace d' = dk_trace d ++ l /\ forall a, a ∈ l -> by_member a = None).
  { intros d' a E Ha. exists [a]. split; [done|]. by intros x ->%list_elem_of_singleton. }
  intros H. destruct mv; try discriminate H; cbn [remote_step]; unfold begin_run, take_snapshot, assign, RemoteWorkers.receive, cancel_run, tick, release; cbv zeta;
    repeat case_match; first [by apply N | by (eapply S; [reflexivity|])].
Qed.
(** Only a poll hands an assignment out. *)
Lemma poll_hands now owner req b b' y : HandleMember now owner req b = (b', Ok y) -> is_Some (wy_Assignment y) -> wq_Action req = "poll".
Proof.
  unfold HandleMember, invite, invite_checked, leave, health, take_result. intros E Ew.
  destruct (String.eqb_spec (wq_Action req) "poll") as [->|N]; [done|]. exfalso. revert E.
  repeat case_match; intros ?; simplify_eq/=; by destruct Ew.
Qed.
Lemma requests_act d now owner req : exists l, dk_trace (remote_step d (RmHandle now owner req)) = dk_trace d ++ l
  /\ forall a uid, a ∈ l -> by_member a = Some uid -> uid = mb_UID owner /\ (forall j w, a = RaHanded j uid w -> wq_Action req = "poll").
Proof.
  cbn [remote_step]. destruct (HandleMember _ _ _ _) as [b r] eqn:E. exists (handled (dk_broker (at_time now d)) owner req r). split; [done|].
  intros a uid. unfold handled. destruct (worker_at _ _) as [[ptr k]|]; [|by intros []%not_elem_of_nil]. destruct (rw_job k) as [j|]; [|by intros []%not_elem_of_nil].
  destruct r as [y|]; [|by intros []%not_elem_of_nil]. destruct (wy_Assignment y) as [work|] eqn:Wy.
  - intros ->%list_elem_of_singleton [= <-]. split; [done|]. intros _ _ _. eapply poll_hands; [exact E|by rewrite Wy].
  - destruct (String.eqb _ _); [|by intros []%not_elem_of_nil]. intros ->%list_elem_of_singleton [= <-]. by split.
Qed.
Lemma agents_same h mv : (forall c req now failed, mv <> HmAgents c req now failed) -> (forall m, mv <> HmAgent m) -> ho_agents (host_step h mv) = ho_agents h.
Proof.
  intros H1 H2. destruct mv; cbn [host_step]; try (by edestruct H1); try (by edestruct H2);
    unfold accept, hello, replied, serving, serveTasks, serveResources, servePersonalResource, hand_personal, execute, answer_resource,
    release_resource, serveQuestions, consult, asked, reply_questions, receiveUpload, finish_upload, remove, manage, manageResourceMode, WithBotMember; cbv zeta;
    repeat case_match; done.
Qed.
(** The move that handed an assignment out: the poll of a member, at a moment at which
    the token of the connection authenticates as them and they are a collaborator; the
    broker answered this very poll with the assignment. *)
Definition handing (room : RoomID) (h : Host) (mv : host_move) (j : nat) (uid : UID) (w : Work) : Prop :=
  exists c x m req now d acts,
    mv = HmAgents c (Some req) now None /\ wq_Action req = "poll" /\ mb_UID m = uid
    /\ ho_conns h !! c = Some x /\ cn_at x = StServe "agents" m
    /\ AuthenticateJoin (store_at (ho_db h)) room (cn_token x) = Ok m /\ MemberRole (store_at (ho_db h)) room uid = Ok "roommate"
    /\ ho_agents h = Some d /\ ho_agents (host_step h mv) = Some (remote_step d (RmHandle now m req))
    /\ dk_trace (remote_step d (RmHandle now m req)) = dk_trace d ++ acts /\ RaHanded j uid w ∈ acts.
Definition desk_sound (h : Host) : Prop := forall d, ho_agents h = Some d -> rinv d.
Lemma workers_agents c m x req now failed h : ho_agents (serveWorkers c m x req now failed h) = ho_agents h
  \/ exists q m' d, req = Some q /\ failed = None /\ admitted (ho_db h) (ho_room h) (cn_token x) m' /\ role_is (ho_db h) (ho_room h) m "roommate"
       /\ ho_agents h = Some d /\ ho_agents (serveWorkers c m x req now failed h) = Some (remote_step d (RmHandle now m' q)).
Proof.
  unfold serveWorkers. destruct req as [q|]; [|by left]. destruct (query failed (AuthenticateJoin _ _ _)) as [m'|] eqn:Q; [|by left].
  destruct (is_role _ _) eqn:R; [|by left]. destruct (ho_agents h) as [d|] eqn:Ed; [|by left]. right. exists q, m', d.
  split_and!; try done; [by destruct failed|by apply read_authentic in Q|by apply read_role in R].
Qed.
Lemma desk_step h mv : desk_sound h -> desk_sound (host_step h mv).
Proof.
  intros D. destruct mv; try (intros d Ed; rewrite agents_same in Ed by done; by apply D).
  - cbn [host_step]. apply serving_inv; [done|]. intros x m _ _ d. destruct (workers_agents c m x req now failed h) as [->|(q & m' & d0 & _ & _ & _ & _ & E & ->)].
    + apply D.
    + intros E2%(inj Some); subst d; by apply rinv_step, D.
  - cbn [host_step]. destruct (not_handle mv); [|done]. intros d. cbn. destruct (ho_agents h) as [d0|] eqn:E; [|done]. intros E2%(inj Some); subst d; by apply rinv_step, D.
Qed.
Lemma desk_run h l : desk_sound h -> desk_sound (host_run h l).
Proof. revert h. induction l as [|mv l IH]; intros h D; [done|]. cbn. by apply IH, desk_step. Qed.
Lemma desk_new d room session mode root dir ready now : desk_sound (new_host d room session mode root dir ready now).
Proof. intros d' [= <-]. apply (remote_reachable root dir now []). Qed.
(** What the desk's trace has more than before a move. *)
Lemma handed_step h mv d' j uid w : conns_inv h -> ho_agents (host_step h mv) = Some d' -> RaHanded j uid w ∈ dk_trace d' ->
  (exists d, ho_agents h = Some d /\ RaHanded j uid w ∈ dk_trace d) \/ handing (ho_room h) h mv j uid w.
Proof.
  intros I Ed H. assert (Same : ho_agents (host_step h mv) = ho_agents h -> exists d, ho_agents h = Some d /\ RaHanded j uid w ∈ dk_trace d).
  { intros E. exists d'. split; [congruence|done]. }
  destruct mv; try (left; by apply Same, agents_same).
  - cbn [host_step] in *. unfold serving in *. destruct (ho_conns h !! c) as [x|] eqn:E; [|left; by apply Same].
    destruct (cn_at x) as [| |o m| | | | | | | | | | |] eqn:S; try (left; by apply Same). destruct (String.eqb_spec o "agents") as [->|N]; [|left; by apply Same].
    destruct (workers_agents c m x req now failed h) as [E'|(q & m' & d & -> & -> & Ad & Ro & Eh & Eh')]; [left; by apply Same|].
    pose proof (member_conn h c x m m' I E ltac:(by rewrite S) Ad) as ->. rewrite Eh' in Ed. apply (inj Some) in Ed as <-.
    destruct (requests_act d now m q) as (l & El & Hl). rewrite El in H. apply elem_of_app in H as [H|H]; [left; by exists d|right].
    destruct (Hl _ uid H eq_refl) as [-> Po]. exists c, x, m, q, now, d, l. split_and!; try done; [by eapply Po|].
    cbn [host_step]. unfold serving. rewrite E, S. exact Eh'.
  - cbn [host_step] in *. destruct (not_handle mv) eqn:Nh; [|left; by apply Same]. cbn in Ed. destruct (ho_agents h) as [d|] eqn:Eh; [|done]. apply (inj Some) in Ed as <-.
    destruct (run_moves_act d mv Nh) as (l & El & Hl). rewrite El in H. apply elem_of_app in H as [H|H]; [left; by exists d|]. by apply Hl in H.
Qed.
Lemma handed_run h l d j uid w : conns_inv h -> (forall d0, ho_agents h = Some d0 -> RaHanded j uid w ∉ dk_trace d0) ->
  ho_agents (host_run h l) = Some d -> RaHanded j uid w ∈ dk_trace d ->
  exists l1 mv l2, l = l1 ++ mv :: l2 /\ handing (ho_room h) (host_run h l1) mv j uid w.
Proof.
  intros I N. revert d. induction l as [|mv l IH] using rev_ind; intros d Ed H; [by destruct (N d Ed)|].
  unfold host_run in Ed. rewrite foldl_snoc in Ed. destruct (handed_step (host_run h l) mv d j uid w) as [(d0 & E0 & H0)|Ha]; [by apply conns_run|done|done| |].
  - destruct (IH d0 E0 H0) as (l1 & mv' & l2 & -> & Ha). exists l1, mv', (l2 ++ [mv]). split; [by rewrite <- app_assoc|done].
  - exists l, mv, []. split; [done|]. by rewrite room_run in Ha.
Qed.

(** C9: whatever interleaves on a host, an assignment that left it was given by a run
    to an agent of the member it went to, and it left as the answer to a poll of that
    member: at the moment of this very poll the token of its connection authenticated
    as the member and the member was a collaborator of the room. *)
Theorem work_reaches_only_roommates calls room session mode root dir ready now moves d j uid w :
  let h0 := new_host (run empty_db calls) room session mode root dir ready now in
  ho_agents (host_run h0 moves) = Some d -> RaHanded j uid w ∈ dk_trace d ->
  (exists k ptr a f, RaAssigned k j ptr uid a f ∈ dk_trace d /\ w = (for_member a, fi_workspace <$> f))
  /\ exists before mv after, moves = before ++ mv :: after /\ handing room (host_run h0 before) mv j uid w.
Proof.
  intros h0 Ed H. split.
  - apply list_elem_of_split in H as (t1 & t2 & E). pose proof (desk_run _ moves (desk_new (run empty_db calls) room session mode root dir ready now) d Ed) as R.
    destruct (ri_law _ R _ _ _ E) as ((k & ptr & a & f & Ha & Ew) & _).
    exists k, ptr, a, f. split; [|done]. rewrite E. by apply elem_of_app; left.
  - apply (handed_run h0 moves d j uid w); [apply conns_new, reachable_store| |done|done]. intros d0 [= <-]. by intros []%not_elem_of_nil.
Qed.

(** ** A host with a collaborator and a visitor *)

Definition weather_fine : weather := (None, None).
Definition cat_connects (c : nat) (op : string) : list host_move :=
  [HmAccept c; HmHello c (Some (mkHello op "sess" (token_of "b") "cat")) 1 "" (Err (ErrText "unused")) weather_fine None; HmReplied c true None].
Definition cat_agent : string := "w1000000001-0123456789ab".
Definition cat_asks (c : nat) (action id : string) : list host_move :=
  cat_connects c "agents" ++ [HmAgents c (Some (mkWorkerRequest true "" "local" [] action id "codex" "work" "" "" false)) 1 None; HmRemove c].
Definition cat_work : Assignment :=
  {| as_StepID := "s"; as_StepPrompt := "review"; as_DependsOn := []; as_Version := 1; as_ID := "A"; as_AgentID := cat_agent; as_HumanUID := 1000;
     as_ProjectRoot := "/srv/project"; as_TaskID := 0; as_HumanPrompt := "please review"; as_Prompt := "host only"; as_Instructions := "host only"; as_Prior := [] |}.
Definition host_course : list host_move :=
  cat_connects 9 "" ++ cat_asks 0 "invite" "0123456789abcdef0123456789abcdef" ++ cat_asks 1 "health" cat_agent
  ++ [HmAgent (RmRun 0 2 {| wm_Mode := "work"; wm_ID := cat_agent; wm_Name := "cat-Codex"; wm_Provider := "remote"; wm_Description := "codex"; wm_Instructions := "";
                            wm_Command := []; wm_TimeoutSeconds := 1800 |} cat_work); HmAgent (RmAssign 0 2 (Ok "abc"))]
  ++ cat_asks 2 "poll" cat_agent.
Definition host_at_first : Host := new_host (run empty_db guest_calls) "team" "sess" "host" "" "" true 0.
Lemma open_connections_admitted_witness :
  exists m, AuthenticateJoin (store_at (ho_db (host_run host_at_first host_course))) "team" (token_of "b") = Ok m /\ mb_UID m = 1000000001
    /\ forall m', stage_member (StSession {| mb_UID := 1000000001; mb_Name := "cat" |}) = Some m' -> m' = m.
Proof.
  assert (E : ho_conns (host_run host_at_first host_course) !! 9%nat
              = Some (mkConn true 1000000001 (token_of "b") (StSession {| mb_UID := 1000000001; mb_Name := "cat" |}))) by by vm_compute.
  assert (N : token_of "b" <> "") by by vm_compute.
  destruct (open_connections_admitted guest_calls "team" "sess" "host" "" "" true 0 host_course 9 _ E eq_refl N) as (m & A & U & M).
  exists m. split_and!; [|exact U|exact M]. rewrite room_run in A. exact A.
Defined.
(** Work, tasks, a read with the host's account and a page of questions; then the
    host changes to personal accounts, the role of cat changes after it was read for
    a personal request, and cat asks a question in the new role. *)
Definition cat : RoomTypes.Member := {| mb_UID := 1000000001; mb_Name := "cat" |}.
Definition cat_reads : resource_query := mkQuery "query" "host" (mkResourceRequest "" "" "" "" "project.file" "go.mod" "") "".
Definition cat_lists : TaskRequest :=
  {| tq_Action := "list"; tq_RequestID := ""; tq_TaskID := 0; tq_SourceSeq := 0; tq_Title := ""; tq_Acceptance := ""; tq_ExpectedRevision := 0; tq_Note := ""; tq_Before := 0 |}.
Definition cat_becomes_asker : host_move := HmManage 3 (hex_EncodeToString "bytes of cat") "role" "asker" weather_fine.
Definition acts_course : list host_move :=
  cat_connects 9 "" ++ cat_asks 0 "invite" "0123456789abcdef0123456789abcdef"
  ++ cat_connects 1 "tasks" ++ [HmTasks 1 (Some cat_lists) 1 weather_fine None]
  ++ cat_connects 2 "resources" ++ [HmResources 2 (Some (RrQuery cat_reads)) None; HmExecute 2; HmAnswer 2 false None; HmRelease 2]
  ++ cat_connects 3 "questions" ++ [HmQuestions 3 (Some (mkQuestion 1000000000 "list" "" "" 0)) None; HmConsult 3 1 Done Done; HmReplyQuestions 3 None]
  ++ [HmMode "personal" None None]
  ++ cat_connects 4 "resources" ++ [HmResources 4 (Some (RrPersonal (PaPending "client"))) None; HmPersonal 4 None; cat_becomes_asker; HmHand 4 []]
  ++ cat_connects 5 "questions" ++ [HmQuestions 5 (Some (mkQuestion 0 "ask" "0123456789abcdef0123456789abcdef" "why?" 0)) None; HmConsult 5 1 Done Done].
Definition no_desk : desk := new_desk "" "" 0.
Lemma work_reaches_only_roommates_witness :
  exists before mv after, host_course = before ++ mv :: after
    /\ handing "team" (host_run host_at_first before) mv 0 1000000001 (for_member cat_work, None).
Proof.
  set (h := host_run host_at_first host_course). assert (E : ho_agents h = Some (default no_desk (ho_agents h))) by by vm_compute.
  assert (T : dk_trace (default no_desk (ho_agents h)) !! 1%nat = Some (RaHanded 0 1000000001 (for_member cat_work, None))) by by vm_compute.
  apply (work_reaches_only_roommates guest_calls "team" "sess" "host" "" "" true 0 host_course (default no_desk (ho_agents h)) 0 _ (for_member cat_work, None) E).
  apply list_elem_of_lookup. by exists 1%nat.
Defined.
