(* ===== verification/NetworkClient.v ===== *)
(** * The network client ([internal/network/client.go], [resources.go], [upload.go],
      [download.go], [questions.go], [tasks.go], [workers.go])

    The credential of a session, one connection per operation, waiting for approval,
    the loop that reads a resource on the member's machine, and the names of
    attachments.  Files, connections and what the host says are arguments. *)
From S2P Require Import Prelude GoStrings Sha256 Json StrictJson JsonFacts StrictFacts GoDecode Wire WireSafety GoUrl ResourceRequest Workgroup RemoteWorkers.
From S2P Require Import TerminalText TerminalPrint Programs Documents DocumentEvidence NetworkWire NetworkHost.

(** ** Names of attachments *)

Section names.
(** [unicode.IsLetter] or [IsDigit]; the tables are not in the source. *)
Context (letter : Z -> bool).
Definition name_rune (r : Z) : Z := if letter r || existsb (Z.eqb r) [46; 95; 45] then r else 95.
Definition map_runes (f : Z -> Z) (s : string) : string := concat_strings ((fun r => encode_rune (f r)) <$> runes s).
Definition slashes (s : string) : string := of_bytes ((fun c => if code c =? 92 then chr 47 else c) <$> bytes s).
Definition uploadName (name : string) : string :=
  let name := map_runes name_rune (Base (slashes name)) in
  if (180 <? len name) || existsb (String.eqb name) [""; "."; ".."] then "attachment" else name.
Definition validFileID (id : string) : bool :=
  (66 <=? len id) && (len id <=? 245) && String.eqb (take_bytes 1 (drop_bytes 64 id)) "-" && String.eqb (Base id) id
  && match hex_DecodeString (take_bytes 64 id) with Some b => len b =? 32 | None => false end
  && String.eqb (drop_bytes 65 id) (uploadName (drop_bytes 65 id)).
End names.

(** ** Credentials *)

Record Credential := mkCredential { cd_Address : string; cd_Session : string; cd_Name : string; cd_Token : string }.
Definition credential_json (c : Credential) : json :=
  JObj [("address", JStr (cd_Address c)); ("session", JStr (cd_Session c)); ("name", JStr (cd_Name c)); ("token", JStr (cd_Token c))].
Definition dec_credential (text : string) : option Credential :=
  l ← members_of text; a ← string_of "address" l; s ← string_of "session" l; n ← string_of "name" l; t ← string_of "token" l; Some (mkCredential a s n t).
Definition credential_file (address session name : string) : string :=
  sha256_hex (address +:+ nl +:+ session +:+ nl +:+ name) +:+ ".json".
(** A credential that is not there is made of 32 random bytes; [None]: it is there. *)
Definition make_credential (address session name random : string) : Credential := mkCredential address session name (hex_EncodeToString random).
Definition check_credential (address session name text : string) : result verr Credential :=
  match dec_credential text with
  | None => Err "invalid client credential"
  | Some saved =>
      if match hex_DecodeString (cd_Token saved) with Some b => len b =? 32 | None => false end
         && String.eqb (cd_Address saved) address && String.eqb (cd_Session saved) session && String.eqb (cd_Name saved) name
      then Ok saved else Err "client credential identity mismatch"
  end.
(** [CredentialFor] over one file: what is there, and the outcomes of the random
    source, of linking the new file (another may be there by now) and of the checks
    of the directory and the file. *)
Definition CredentialFor (address session name : string) (dir : option verr) (there : option string) (random : result verr string) (linked : result verr (option string)) (file : option verr) : option string * result verr Credential :=
  match ParseSession session with
  | Err e => (there, Err e)
  | Ok _ =>
      match dir with
      | Some e => (there, Err e)
      | None =>
          let made := match there with
                      | Some text => Ok text
                      | None => let? b := random in
                                let? other := linked in
                                Ok (default (marshal (credential_json (make_credential address session name b))) other)
                      end in
          match made with
          | Err e => (there, Err e)
          | Ok text =>
              (Some text, match file with
                          | Some e => Err e
                          | None => if 8192 <? len text then Err "invalid client credential file" else check_credential address session name text
                          end)
          end
      end
  end.

(** ** One connection per operation *)

Inductive dial_error := DeText (e : verr) | DeWire (e : perr).
(** [dialOperation]: [dialled] is the outcome of the pinned connection. *)
Definition dialOperation (l : Credential) (operation : string) (dialled : option verr) (c : conn) (src : source) : conn * source * result dial_error Reply :=
  match ParseSession (cd_Session l) with
  | Err e => (c, src, Err (DeText e))
  | Ok _ =>
      match dialled with
      | Some e => (c, src, Err (DeText e))
      | None =>
          match writeJSON c (hello_json (mkHello operation (cd_Session l) (cd_Token l) (cd_Name l))) with
          | (c, Err e) => (c, src, Err (DeWire e))
          | (c, Ok _) => let '(src, r) := readReply src in (c, src, match r with Ok r => Ok r | Err e => Err (DeWire e) end)
          end
      end
  end.
(** [WaitApproval]: the replies of its connections, each with the end of the context
    during the wait after it; what it prints, and its result when it has one. *)
Definition approval_notice (id : string) : string :=
  "Join request: " +:+ id +:+ nl +:+ "Waiting for host approval. Host: agent_room approve " +:+ id +:+ nl.
Definition approved_notice : string := "Approved. Connecting to shared session..." +:+ nl.
Fixpoint WaitApproval (printed : bool) (l : list (result dial_error Reply * option dial_error)) : list string * option (result dial_error unit) :=
  match l with
  | [] => ([], None)
  | (Err e, _) :: _ => ([], Some (Err e))
  | (Ok r, ended) :: rest =>
      if String.eqb (nr_State r) "approved" then ([approved_notice], Some (Ok tt))
      else if String.eqb (nr_State r) "pending" then
        let text := if printed then [] else [approval_notice (nr_RequestID r)] in
        match ended with
        | Some e => (text, Some (Err e))
        | None => let '(t, o) := WaitApproval true rest in (text ++ t, o)
        end
      else ([], Some (Err (DeText ("join " +:+ nr_State r +:+ "; ask the host to review your request"))))
  end.
(** [Launcher.Start]: the connection is for a member only. *)
Definition start_session (r : result dial_error Reply) : result dial_error unit :=
  let? r := r in if String.eqb (nr_State r) "approved" then Ok tt else Err (DeText ("membership " +:+ nr_State r)).
(** [Query], [Tasks], [Worker] and the ends of [Upload] and [Download]: the reply of an
    approved connection, and the error it carries. *)
Definition operate {T} (refused : verr) (hello : result dial_error Reply) (answer : result dial_error T) (carried : T -> string) : result dial_error T :=
  let? r := hello in
  if negb (String.eqb (nr_State r) "approved") then Err (DeText refused)
  else let? x := answer in if String.eqb (carried x) "" then Ok x else Err (DeText (carried x)).
Record Upload := mkUploaded { ul_Name : string; ul_Path : string; ul_Size : Z }.
Definition uploadReply : Type := Upload * string.
Definition uploaded (size : Z) (r : result dial_error uploadReply) : result dial_error Upload :=
  let? x := r in if String.eqb (ul_Path x.1) "" || negb (ul_Size x.1 =? size) then Err (DeText "invalid upload confirmation") else Ok x.1.
Definition downloadable (r : result dial_error uploadReply) : result dial_error Upload :=
  let? x := r in if (ul_Size x.1 <? 0) || (MaxUploadBytes <? ul_Size x.1) then Err (DeText "invalid file size") else Ok x.1.

(** ** Resources on the member's machine *)

#[export] Instance ResourceRequest_eq_dec : EqDecision ResourceRequest.
Proof. solve_decision. Defined.
Record resource_reply := mkResourceReply
  { ry_Type : string; ry_Mode : string; ry_Role : string; ry_Resource : ResourceRequest; ry_Text : string; ry_Answer : string; ry_SummaryError : string; ry_Error : string }.
Definition with_own_text (text : string) (r : resource_reply) : resource_reply :=
  mkResourceReply (ry_Type r) (ry_Mode r) (ry_Role r) (ry_Resource r) text "" (ry_SummaryError r) (ry_Error r).
(** What arrives, with the outcome of writing the answer to it. *)
Inductive incoming := InReply (r : resource_reply) (written : option verr) | InError (e : verr) | InDone (e : verr).
Record own_call := mkOwn { oc_called : bool; oc_local : string; oc_executed : list ResourceRequest; oc_sent : list (string * bool) }.
(** [execute]: the text and the error of the local tool. *)
Definition own_step (req : resource_query) (execute : option (ResourceRequest -> string * option verr)) (s : own_call) (m : incoming) : own_call * option (result verr resource_reply) :=
  match m with
  | InDone e | InError e => (s, Some (Err e))
  | InReply reply written =>
      if negb (String.eqb (ry_Error reply) "") then (s, Some (Err (ry_Error reply)))
      else if String.eqb (ry_Type reply) "execute" then
        match execute with
        | Some run =>
            if oc_called s || negb (String.eqb (rq_Action req) "query") || negb (String.eqb (rq_Mode req) "personal")
               || negb (String.eqb (ry_Mode reply) "personal") || negb (bool_decide (ry_Resource reply = rq_Resource req))
            then (s, Some (Err "Host 请求超出本次本机授权"))
            else
              let '(text, err) := run (rq_Resource req) in
              let failed := bool_decide (is_Some err) in
              let s := mkOwn true (if IsWrite (rq_Resource req) && negb failed then text else oc_local s) (oc_executed s ++ [rq_Resource req]) (oc_sent s) in
              if MaxResult <? len text then (s, Some (Err "resource too large"))
              else match written with
              | Some e => (s, Some (Err e))
              | None => (mkOwn (oc_called s) (oc_local s) (oc_executed s) (oc_sent s ++ [(if failed then "" else text, failed)]), None)
              end
        | None => (s, Some (Err "Host 请求超出本次本机授权"))
        end
      else if negb (String.eqb (ry_Type reply) "done") && negb (String.eqb (ry_Type reply) "info") then (s, Some (Err "invalid resource response"))
      else if IsWrite (rq_Resource req) then
        if negb (oc_called s) || String.eqb (oc_local s) "" then (s, Some (Err "没有本机创建回执，不能确认文档已创建"))
        else (s, Some (Ok (with_own_text (oc_local s) reply)))
      else (s, Some (Ok reply))
  end.
(** The loop of [Launcher.Resources]; [None]: it still waits. *)
Fixpoint own_run (req : resource_query) (execute : option (ResourceRequest -> string * option verr)) (s : own_call) (l : list incoming) : own_call * option (result verr resource_reply) :=
  match l with
  | [] => (s, None)
  | m :: r => match own_step req execute s m with (s', None) => own_run req execute s' r | x => x end
  end.
Definition no_call : own_call := mkOwn false "" [] [].

(** ** An attachment keeps its name *)

Definition no_byte (n : Z) (s : string) : Prop := Forall (fun c => code c <> n) (bytes s).
Lemma no_byte_app n s t : no_byte n (s +:+ t) <-> no_byte n s /\ no_byte n t.
Proof. unfold no_byte. by rewrite bytes_app, Forall_app. Qed.
Lemma encode_no_byte n z : scalar z -> 0 <= n < 128 -> z <> n -> no_byte n (encode_rune z).
Proof.
  intros S B N. unfold no_byte. destruct (Z.ltb_spec z 128) as [L|L].
  - assert (B0 : 0 <= z) by (unfold scalar in S; lia). unfold encode_rune. rewrite (proj2 (Z.ltb_lt _ _) L), bytes_of_bytes.
    constructor; [|constructor]. by rewrite code_chr by lia.
  - destruct (encode_encoded z S) as (l & E & ->). rewrite bytes_of_bytes. apply Forall_fmap. eapply Forall_impl; [by eapply encoded_high|].
    intros b [Hb1 Hb2]. cbn. rewrite code_chr by lia. lia.
Qed.
Lemma map_runes_no_byte n f s : (forall r, scalar r -> scalar (f r) /\ f r <> n) -> 0 <= n < 128 -> no_byte n (map_runes f s).
Proof.
  intros F B. unfold map_runes. pose proof (runes_scalar s) as S. induction S as [|r l Hr S IH]; [by constructor|]. cbn. apply no_byte_app. split; [|exact IH].
  destruct (F r Hr). by apply encode_no_byte.
Qed.
Lemma runes_map f s : (forall r, scalar r -> scalar (f r)) -> runes (map_runes f s) = f <$> runes s.
Proof.
  intros F. unfold map_runes. pose proof (runes_scalar s) as S. induction S as [|r l Hr S IH]; [done|]. cbn [fmap list_fmap concat_strings]. rewrite runes_encode by by apply F. by rewrite IH.
Qed.
Lemma map_runes_again f s : (forall r, scalar r -> scalar (f r) /\ f (f r) = f r) -> map_runes f (map_runes f s) = map_runes f s.
Proof.
  intros F. unfold map_runes at 1 3. rewrite runes_map by (intros r Hr; by apply F). f_equal. rewrite <- list_fmap_compose. pose proof (runes_scalar s) as S.
  induction S as [|r l Hr S IH]; [done|]. cbn. rewrite (proj2 (F r Hr)). by f_equal.
Qed.
Lemma slashes_none s : no_byte 92 s -> slashes s = s.
Proof.
  intros N. unfold slashes. rewrite <- (of_bytes_bytes s) at 2. f_equal. unfold no_byte in N. induction N as [|c l Hc N IH]; [done|]. rewrite fmap_cons, IH.
  by rewrite (proj2 (Z.eqb_neq _ _) Hc).
Qed.
Lemma split_none s : no_byte 47 s -> Split "/" s = [s].
Proof.
  unfold no_byte. induction s as [|c s IH]; [done|]. cbn. intros [Hc N]%Forall_cons. rewrite (IH N). destruct (Ascii.eqb_spec c "/") as [->|]; [done|done].
Qed.
Lemma base_none s : s <> "" -> no_byte 47 s -> Base s = s.
Proof.
  intros Ne N. unfold Base. rewrite (proj2 (String.eqb_neq _ _) Ne), split_none by done. cbn. by rewrite (proj2 (String.eqb_neq _ _) Ne).
Qed.

Lemma attachment_plain n : n < 97 -> no_byte n "attachment".
Proof. intros L. unfold no_byte. assert (B : code <$> bytes "attachment" = [97; 116; 116; 97; 99; 104; 109; 101; 110; 116]) by by vm_compute.
  apply (Forall_fmap code (fun z => z <> n)). rewrite B. repeat constructor; lia.
Qed.
Section settled_names.
Context (letter : Z -> bool) (slash : letter 47 = false) (backslash : letter 92 = false) (lower : forall r, 97 <= r <= 122 -> letter r = true).
Lemma name_rune_scalar r : scalar r -> scalar (name_rune letter r).
Proof. intros S. unfold name_rune. destruct (_ || _); [done|]. unfold scalar. lia. Qed.
Lemma name_rune_again r : name_rune letter (name_rune letter r) = name_rune letter r.
Proof. unfold name_rune. destruct (letter r || existsb (Z.eqb r) [46; 95; 45]) eqn:E; [by rewrite E|]. cbn. by rewrite !orb_true_r. Qed.
Lemma name_rune_not n r : letter n = false -> existsb (Z.eqb n) [46; 95; 45] = false -> name_rune letter r <> n.
Proof.
  intros L N E. unfold name_rune in E. destruct (letter r || existsb (Z.eqb r) [46; 95; 45]) eqn:O.
  - subst r. by rewrite L, N in O.
  - subst n. done.
Qed.
Lemma mapped_settled s : let m := map_runes (name_rune letter) s in m <> "" -> map_runes (name_rune letter) (Base (slashes m)) = m.
Proof using slash backslash.
  intros m Ne. assert (N : forall n, letter n = false -> existsb (Z.eqb n) [46; 95; 45] = false -> 0 <= n < 128 -> no_byte n m).
  { intros n L E B. apply map_runes_no_byte; [|done]. intros r Hr. split; [by apply name_rune_scalar|by apply name_rune_not]. }
  rewrite slashes_none by by apply N. rewrite base_none; [|done|by apply N]. apply map_runes_again. intros r Hr. split; [by apply name_rune_scalar|apply name_rune_again].
Qed.
Lemma attachment_kept : map_runes (name_rune letter) "attachment" = "attachment".
Proof using lower.
  assert (R : runes "attachment" = [97; 116; 116; 97; 99; 104; 109; 101; 110; 116]) by by vm_compute. unfold map_runes. rewrite R. unfold name_rune. cbn [fmap list_fmap].
  rewrite !lower by lia. by vm_compute.
Qed.
(** The name an attachment gets is settled: naming it again gives the same name,
    so the host accepts the name that a client sends; it has at most 180 bytes, is
    not empty and holds no separator of paths. *)
Theorem upload_names_settle s : let name := uploadName letter s in
  uploadName letter name = name /\ len name <= 180 /\ name <> "" /\ name <> "." /\ name <> ".." /\ no_byte 47 name /\ no_byte 92 name.
Proof using slash backslash lower.
  intros name. unfold name. unfold uploadName at 2 3 4 5 6 7 8 9. cbv zeta. set (m := map_runes (name_rune letter) (Base (slashes s))).
  destruct ((180 <? len m) || existsb (String.eqb m) [""; "."; ".."]) eqn:E.
  - split_and!; [|vm_compute; congruence|done..|by apply attachment_plain; lia|by apply attachment_plain; lia]. unfold uploadName.
    assert (B : Base (slashes "attachment") = "attachment") by by vm_compute. rewrite B, attachment_kept. by vm_compute.
  - pose proof E as E'. apply orb_false_iff in E as [L%Z.ltb_ge E]. cbn in E. rewrite orb_false_r in E. apply orb_false_iff in E as [E1%String.eqb_neq E].
    apply orb_false_iff in E as [E2%String.eqb_neq E3%String.eqb_neq].
    assert (N : forall n, letter n = false -> existsb (Z.eqb n) [46; 95; 45] = false -> 0 <= n < 128 -> no_byte n m).
    { intros n Ln En B. apply map_runes_no_byte; [|done]. intros r Hr. split; [by apply name_rune_scalar|by apply name_rune_not]. }
    split_and!; [|done..|by apply N|by apply N]. unfold uploadName. unfold m in E1 |- *. rewrite (mapped_settled _ E1). fold m. by rewrite E'.
Qed.
End settled_names.

(** ** Reading on the member's machine *)

(** What was executed was asked for, once; a text of a write is that of its execution. *)
Definition own_ok (req : resource_query) (execute : option (ResourceRequest -> string * option verr)) (s : own_call) : Prop :=
  (if oc_called s
   then exists run, execute = Some run /\ oc_executed s = [rq_Resource req] /\ rq_Action req = "query" /\ rq_Mode req = "personal"
     /\ (IsWrite (rq_Resource req) = true -> oc_local s = "" \/ run (rq_Resource req) = (oc_local s, None))
   else oc_executed s = [] /\ oc_local s = "" /\ oc_sent s = [])
  /\ (forall t, (t, false) ∈ oc_sent s -> exists run, execute = Some run /\ run (rq_Resource req) = (t, None))
  /\ (forall t, (t, true) ∈ oc_sent s -> t = "").
Lemma own_step_ok req execute s m s' r : own_ok req execute s -> own_step req execute s m = (s', r) ->
  own_ok req execute s' /\
  forall reply, r = Some (Ok reply) -> ry_Error reply = "" /\
    (IsWrite (rq_Resource req) = true -> exists run, execute = Some run /\ oc_executed s' = [rq_Resource req] /\ run (rq_Resource req) = (ry_Text reply, None)
       /\ ry_Text reply <> "" /\ ry_Answer reply = "").
Proof.
  intros O. pose proof O as (C & T & Fl). destruct m as [x w|e|e]; cbn [own_step]; try (by intros [= <- <-]).
  destruct (String.eqb_spec (ry_Error x) "") as [Ex|]; cbn [negb]; [|by intros [= <- <-]].
  destruct (String.eqb (ry_Type x) "execute").
  - destruct execute as [run|]; [|by intros [= <- <-]].
    destruct (oc_called s || _ || _ || _ || _) eqn:G; [by intros [= <- <-]|].
    apply orb_false_iff in G as [G _]. apply orb_false_iff in G as [G _]. apply orb_false_iff in G as [G Gm%negb_false_iff]. apply orb_false_iff in G as [Gc Ga%negb_false_iff].
    apply String.eqb_eq in Ga, Gm. rewrite Gc in C. destruct C as (Ce & Cl & _). destruct (run (rq_Resource req)) as [text err] eqn:R.
    set (s1 := mkOwn _ _ _ _).
    assert (O1 : own_ok req (Some run) s1).
    { split; cbn; [|done]. exists run. split_and!; [done|by rewrite Ce|done|done|]. intros W. rewrite W. destruct err as [e|]; cbn; [by left|by right]. }
    destruct (MaxResult <? len text); [by intros [= <- <-]|]. destruct w as [e|]; [by intros [= <- <-]|]. intros [= <- <-]. split; [|done].
    destruct O1 as (A & B & D). split; [exact A|]. split; cbn in *; intros t; rewrite elem_of_app, list_elem_of_singleton; (intros [H|H]; [by eauto|]).
    + destruct err as [e|]; cbn in H; [done|]. injection H as ->. by exists run.
    + destruct err as [e|]; cbn in H; [by injection H|done].
  - destruct (negb (String.eqb (ry_Type x) "done") && _); [by intros [= <- <-]|]. destruct (IsWrite (rq_Resource req)) eqn:W; [|by intros [= <- <-]; split; [done|intros reply [= <-]]].
    destruct (negb (oc_called s) || String.eqb (oc_local s) "") eqn:L; intros [= <- <-]; (split; [exact O|]); [done|].
    apply orb_false_iff in L as [Cs%negb_false_iff Nl%String.eqb_neq]. intros reply [= <-]. split; [exact Ex|]. intros _. rewrite Cs in C.
    destruct C as (run & Er & Ee & _ & _ & Lo). exists run. split_and!; try done. by destruct (Lo eq_refl).
Qed.
(** A request for a resource runs the member's own tool at most once, for the
    resource that was asked and in the personal mode only, whatever the host sends;
    what goes to the host is the text of that run, and nothing when it failed; a
    write is reported as done only with the receipt of its own execution. *)
Theorem own_resource_only req execute l s r : own_run req execute no_call l = (s, r) ->
  (oc_executed s = [] \/ oc_executed s = [rq_Resource req] /\ rq_Action req = "query" /\ rq_Mode req = "personal")
  /\ (forall t failed, (t, failed) ∈ oc_sent s -> exists run, execute = Some run /\ (failed = false -> run (rq_Resource req) = (t, None)) /\ (failed = true -> t = ""))
  /\ forall reply, r = Some (Ok reply) -> ry_Error reply = "" /\
       (IsWrite (rq_Resource req) = true -> exists run, execute = Some run /\ oc_executed s = [rq_Resource req] /\ run (rq_Resource req) = (ry_Text reply, None)
          /\ ry_Text reply <> "" /\ ry_Answer reply = "").
Proof.
  assert (K : forall l s0, own_ok req execute s0 -> own_run req execute s0 l = (s, r) -> own_ok req execute s /\
    forall reply, r = Some (Ok reply) -> ry_Error reply = "" /\
      (IsWrite (rq_Resource req) = true -> exists run, execute = Some run /\ oc_executed s = [rq_Resource req] /\ run (rq_Resource req) = (ry_Text reply, None)
         /\ ry_Text reply <> "" /\ ry_Answer reply = "")).
  { clear l. induction l as [|m l IH]; intros s0 O; cbn [own_run]; [by intros [= <- <-]|]. destruct (own_step req execute s0 m) as [s1 [o|]] eqn:E.
    - intros [= <- <-]. by eapply own_step_ok.
    - apply IH. by eapply own_step_ok in E as [E _]. }
  intros H. destruct (K l no_call) as ((C & T & Fl) & R); [|done|].
  { split; [done|]. by split; intros t ?%not_elem_of_nil. }
  split; [|split; [|exact R]].
  - destruct (oc_called s); [right; by destruct C as (run & _ & E & A & M & _)|left; apply C].
  - intros t failed Ht. destruct failed; [|destruct (T t Ht) as (run & E & X); by exists run].
    destruct (oc_called s); [destruct C as (run & E & _)|destruct C as (_ & _ & E); rewrite E in Ht; by apply not_elem_of_nil in Ht].
    exists run. split_and!; [done|done|]. intros _. by apply Fl.
Qed.

(** ** Waiting and credentials *)

(** Waiting for approval ends well only when the last connection was told
    "approved" and every one before it "pending"; the request is shown once. *)
Theorem approval_is_waited_for l out r : WaitApproval false l = (out, r) ->
  (length (List.filter (fun t => negb (String.eqb t approved_notice)) out) <= 1)%nat
  /\ (r = Some (Ok tt) -> exists l1 x e l2, l = l1 ++ (Ok x, e) :: l2 /\ nr_State x = "approved"
        /\ Forall (fun y => exists z, y = (Ok z, None) /\ nr_State z = "pending") l1).
Proof.
  assert (Waited : forall l b out r, WaitApproval b l = (out, r) ->
    (length (List.filter (fun t => negb (String.eqb t approved_notice)) out) <= if b then 0 else 1)%nat
    /\ (r = Some (Ok tt) -> exists l1 x e l2, l = l1 ++ (Ok x, e) :: l2 /\ nr_State x = "approved"
          /\ Forall (fun y => exists z, y = (Ok z, None) /\ nr_State z = "pending") l1)); [|by apply Waited].
  clear. induction l as [|[[x|e] ended] l IH]; intros b out r; cbn [WaitApproval].
  - intros [= <- <-]. split; [cbn; lia|done].
  - destruct (String.eqb_spec (nr_State x) "approved") as [A|_].
    { intros [= <- <-]. split; [cbn; rewrite String.eqb_refl; cbn; lia|]. intros _. by exists [], x, ended, l. }
    destruct (String.eqb_spec (nr_State x) "pending") as [P|_]; [|intros [= <- <-]; split; [cbn; lia|done]].
    assert (Tx : (length (List.filter (fun t => negb (String.eqb t approved_notice)) (if b then [] else [approval_notice (nr_RequestID x)])) <= if b then 0 else 1)%nat).
    { destruct b; cbn; [done|]. destruct (negb _); cbn; lia. }
    destruct ended as [e|]; [intros [= <- <-]; split; [exact Tx|done]|].
    destruct (WaitApproval true l) as [t o] eqn:E. intros [= <- <-]. destruct (IH true t o E) as [L R]. split; [rewrite List.filter_app, length_app; lia|].
    intros Ho. destruct (R Ho) as (l1 & y & e' & l2 & -> & A & F). exists ((Ok x, None) :: l1), y, e', l2. split_and!; [done|done|]. constructor; [by exists x|done].
  - intros [= <- <-]. split; [cbn; lia|done].
Qed.

Lemma credential_decodes c : utf8 (cd_Address c) -> utf8 (cd_Session c) -> utf8 (cd_Name c) -> utf8 (cd_Token c) ->
  dec_credential (marshal (credential_json c)) = Some c.
Proof.
  intros Ua Us Un Ut. unfold dec_credential, credential_json. rewrite members_marshal; [|by repeat constructor|by vm_compute].
  cbn [raw_texts map fst snd mbind option_bind]. unfold string_of, decode_field. cbn [foldl fst snd].
  assert (N : forall a b, a ∈ ["address"; "session"; "name"; "token"] -> b ∈ ["address"; "session"; "name"; "token"] -> EqualFold a b = String.eqb a b).
  { intros a b Ha Hb. rewrite !elem_of_cons in Ha, Hb. destruct Ha as [->|[->|[->|[->|[]%not_elem_of_nil]]]], Hb as [->|[->|[->|[->|[]%not_elem_of_nil]]]]; by vm_compute. }
  rewrite !N by (repeat (try (left; done); right)). cbn [String.eqb Ascii.eqb Bool.eqb andb]. cbn [mbind option_bind].
  unfold set_string. rewrite !parse_string by done. by destruct c.
Qed.
Lemma hex_value_digit z : 0 <= z < 16 -> hex_value (hex_digit z) = Some z.
Proof.
  intros B. unfold hex_value, hex_digit, between. destruct (Z.ltb_spec z 10); rewrite code_chr by lia.
  - destruct ((48 <=? 48 + z) && (48 + z <=? 57)) eqn:E; [f_equal; lia|exfalso; lia].
  - destruct ((48 <=? 87 + z) && (87 + z <=? 57)) eqn:E; [exfalso; lia|].
    destruct ((97 <=? 87 + z) && (87 + z <=? 102)) eqn:E2; [f_equal; lia|exfalso; lia].
Qed.
Lemma hex_decode_encode s : hex_DecodeString (hex_EncodeToString s) = Some s.
Proof.
  induction s as [|c s IH]; [done|]. cbn. pose proof (code_bounds c). assert (B : 0 <= code c / 16 < 16) by (split; [apply Z.div_pos; lia|apply Z.div_lt_upper_bound; lia]).
  pose proof (Z.mod_pos_bound (code c) 16). rewrite !hex_value_digit, IH by lia. do 2 f_equal. rewrite <- (chr_code c) at 3. f_equal.
  pose proof (Z.div_mod (code c) 16). lia.
Qed.
Lemma utf8_hex s : utf8 (hex_EncodeToString s).
Proof.
  apply utf8_low. induction s as [|c s IH]; [constructor|]. cbn. pose proof (code_bounds c).
  assert (D : forall z, 0 <= z < 16 -> code (hex_digit z) < 128) by (intros z B; unfold hex_digit; destruct (z <? 10); rewrite code_chr; lia).
  constructor; [apply D; split; [apply Z.div_pos; lia|apply Z.div_lt_upper_bound; lia]|]. constructor; [apply D, Z.mod_pos_bound; lia|exact IH].
Qed.
(** The credential of a session is made once: the first call writes one whose token
    is 32 random bytes, and every later call, whatever its random source gives, reads
    back this credential and leaves the file as it is; the file of another address,
    session or name is refused. *)
Theorem credential_is_made_once address session name b pin : ParseSession session = Ok pin -> len b = 32 ->
  utf8 address -> utf8 session -> utf8 name ->
  let c := make_credential address session name b in
  let text := marshal (credential_json c) in
  len text <= 8192 ->
  CredentialFor address session name None None (Ok b) (Ok None) None = (Some text, Ok c) /\
  (forall random linked, CredentialFor address session name None (Some text) random linked None = (Some text, Ok c)) /\
  forall a s n, check_credential a s n text = Ok c <-> (a, s, n) = (address, session, name).
Proof.
  intros P B Ua Us Un c text L. assert (D : dec_credential text = Some c) by (apply credential_decodes; [done..|apply utf8_hex]).
  assert (K : forall a s n, check_credential a s n text = Ok c <-> (a, s, n) = (address, session, name)).
  { intros a s n. unfold check_credential. rewrite D. cbn [cd_Token c make_credential cd_Address cd_Session cd_Name]. rewrite hex_decode_encode, B. cbn [Z.eqb Pos.eqb andb].
    destruct (String.eqb_spec address a) as [<-|]; [|split; [done|congruence]]. destruct (String.eqb_spec session s) as [<-|]; [|split; [done|congruence]].
    by destruct (String.eqb_spec name n) as [<-|]; [|split; [done|congruence]]. }
  split_and!; [| |exact K]; unfold CredentialFor; rewrite P; cbn [result_bind default]; fold c text.
  - change (default text None) with text. rewrite (proj2 (Z.ltb_ge _ _)) by exact L. f_equal. by apply K.
  - intros _ _. rewrite (proj2 (Z.ltb_ge _ _)) by exact L. f_equal. by apply K.
Qed.

(** ** Concrete clients *)

Definition ascii_letter (r : Z) : bool := between 65 90 r || between 97 122 r || between 48 57 r.
Lemma upload_names_settle_witness :
  uploadName ascii_letter "../a b\c d?.txt" = "c_d_.txt" /\ uploadName ascii_letter (uploadName ascii_letter "../a b\c d?.txt") = uploadName ascii_letter "../a b\c d?.txt".
Proof.
  split; [by vm_compute|].
  assert (W : forall r, 97 <= r <= 122 -> ascii_letter r = true) by (intros r B; unfold ascii_letter, between; lia).
  exact (proj1 (upload_names_settle ascii_letter eq_refl eq_refl W "../a b\c d?.txt")).
Defined.
Definition create_request : resource_query := mkQuery "query" "personal" (mkResourceRequest "t" "c" "" "" "feishu.create" "" "") "".
Definition says_execute : resource_reply := mkResourceReply "execute" "personal" "roommate" (rq_Resource create_request) "" "" "" "".
Definition says_done : resource_reply := mkResourceReply "done" "personal" "roommate" (rq_Resource create_request) "made up" "made up" "" "".
Definition local_tool (r : ResourceRequest) : string * option verr := ("receipt 7", None).
Lemma own_resource_only_witness :
  let run := own_run create_request (Some local_tool) no_call [InReply says_execute None; InReply says_done None] in
  run.2 = Some (Ok (with_own_text "receipt 7" says_done)) /\ oc_executed run.1 = [rq_Resource create_request] /\
  let again := own_run create_request (Some local_tool) no_call [InReply says_execute None; InReply says_execute None] in
  oc_executed again.1 = [] \/ oc_executed again.1 = [rq_Resource create_request] /\ rq_Action create_request = "query" /\ rq_Mode create_request = "personal".
Proof.
  intros run. split; [by vm_compute|]. split.
  - destruct (own_resource_only create_request (Some local_tool) _ run.1 run.2 (surjective_pairing run)) as (_ & _ & R).
    assert (E : run.2 = Some (Ok (with_own_text "receipt 7" says_done))) by by vm_compute. destruct (R _ E) as [_ W]. by destruct (W eq_refl) as (? & _ & X & _).
  - intros again. exact (proj1 (own_resource_only create_request (Some local_tool) _ again.1 again.2 (surjective_pairing again))).
Defined.
Lemma approval_is_waited_for_witness :
  let l := [(Ok (mkReply "pending" "r1"), None); (Ok (mkReply "pending" "r1"), None); (Ok (mkReply "approved" ""), None)] in
  let run := WaitApproval false l in
  run.1 = [approval_notice "r1"; approved_notice] /\ run.2 = Some (Ok tt) /\ exists l1 x e l2, l = l1 ++ (Ok x, e) :: l2 /\ nr_State x = "approved".
Proof.
  intros l run. split; [by vm_compute|]. split; [by vm_compute|].
  destruct (approval_is_waited_for l run.1 run.2 (surjective_pairing run)) as [_ R]. assert (E : run.2 = Some (Ok tt)) by by vm_compute.
  destruct (R E) as (l1 & x & e & l2 & El & A & _). by exists l1, x, e, l2.
Defined.
Definition sample_session : string := hex_EncodeToString (of_bytes (replicate 16 (chr 17))) +:+ "." +:+ hex_EncodeToString (of_bytes (replicate 32 (chr 34))).
Definition sample_random : string := of_bytes (replicate 32 (chr 51)).
Lemma credential_is_made_once_witness :
  let c := make_credential "host:7443" sample_session "ann" sample_random in
  let text := marshal (credential_json c) in
  CredentialFor "host:7443" sample_session "ann" None (Some text) (Err "no entropy") (Ok None) None = (Some text, Ok c).
Proof.
  intros c text. assert (P : ParseSession sample_session = Ok (take_bytes 32 sample_session, drop_bytes 33 sample_session)) by by vm_compute.
  assert (L : len text <= 8192) by by vm_compute.
  destruct (credential_is_made_once "host:7443" sample_session "ann" sample_random _ P eq_refl ltac:(by apply utf8_text) ltac:(by apply utf8_text) ltac:(by apply utf8_text) L) as (_ & G & _).
  exact (G (Err "no entropy") (Ok None)).
Defined.
