(* ===== verification/ChatBot.v ===== *)
(** * The chat bot ([internal/feishubot/bridge.go], [config.go], [lark.go], [internal/cli/feishubot.go])

    A bot of a chat service answers commands of members who are bound to a user of
    the service.  Events arrive one after the other; [Handle] takes its decisions
    between calls of the ledger, of the room and of the service, and the process may
    die at each of them.  The clock only advances, and what a call answers is an
    argument of its step; authorization is read from the database of that moment. *)
From S2P Require Import Prelude GoStrings Sha256 Json StrictJson GoUrl RoomTypes StoreSchema StoreBase StoreRepository StoreRecovery StoreAdmission StoreAdmissionSafety ResourceRequest NetworkHost.

(** ** Configuration *)

Record Binding := mkBinding { bd_OpenID : string; bd_UID : UID; bd_AllowWork : bool; bd_OriginChats : list string; bd_ReadableChats : list string }.
Record BotConfig := mkBotConfig { bc_RoomID : string; bc_Profile : string; bc_AppID : string; bc_Name : string; bc_Bindings : list Binding }.
Definition in_texts (s : string) (l : list string) : bool := existsb (String.eqb s) l.
Definition id_char (c : ascii) : bool := is_alnum c || (code c =? 95) || (code c =? 45).
(** The regular expressions: a prefix, then so many characters of a class. *)
Definition matches (prefix : string) (chars : ascii -> bool) (least most : Z) (s : string) : bool :=
  HasPrefix s prefix && let r := TrimPrefix s prefix in (least <=? len r) && (len r <=? most) && str_forallb chars r.
Definition openID : string -> bool := matches "ou_" id_char 8 100.
Definition chatID : string -> bool := matches "oc_" id_char 8 100.
Definition messageID : string -> bool := matches "om_" id_char 8 150.
Fixpoint check_bindings (seen : list string) (uids : list UID) (l : list Binding) : result verr unit :=
  match l with
  | [] => Ok tt
  | b :: r =>
      if negb (openID (bd_OpenID b)) || (bd_UID b =? 0) || in_texts (bd_OpenID b) seen || existsb (Z.eqb (bd_UID b)) uids
      then Err "bot bindings require unique open IDs and Room UIDs"
      else if negb (forallb chatID (bd_OriginChats b ++ bd_ReadableChats b)) then Err "invalid allowed chat"
      else check_bindings (bd_OpenID b :: seen) (bd_UID b :: uids) r
  end.
Definition BotConfig_Validate (c : BotConfig) : result verr unit :=
  if negb (matches "" is_lower_hex 32 32 (bc_RoomID c)) then Err "explicit Room ID required"
  else if negb (matches "" id_char 1 80 (bc_Profile c)) then Err "explicit lark-cli profile required"
  else if negb (matches "cli_" is_alnum 8 100 (bc_AppID c)) || String.eqb (bc_Name c) "" || (80 <? len (bc_Name c))
          || bool_decide (bc_Bindings c = []) || (100 <? Z.of_nat (length (bc_Bindings c))) then Err "invalid bot app, name or bindings"
  else check_bindings [] [] (bc_Bindings c).

(** ** Events and commands *)

Record BotEvent := mkEvent
  { be_Type : string; be_EventID : string; be_MessageID : string; be_SenderID : string; be_ChatID : string; be_ChatType : string;
    be_MessageType : string; be_Content : string; be_CreateTime : string }.
Definition event_json (e : BotEvent) : json :=
  JObj [("type", JStr (be_Type e)); ("event_id", JStr (be_EventID e)); ("message_id", JStr (be_MessageID e)); ("sender_id", JStr (be_SenderID e));
        ("chat_id", JStr (be_ChatID e)); ("chat_type", JStr (be_ChatType e)); ("message_type", JStr (be_MessageType e)); ("content", JStr (be_Content e));
        ("create_time", JStr (be_CreateTime e))].
(** [strings.Index]: the text from the first place, when that is not the start. *)
Fixpoint from_later (sub s : string) : option string :=
  match s with "" => None | String _ r => if HasPrefix r sub then Some r else from_later sub r end.
Definition command_text (content : string) : string :=
  let text := TrimSpace content in
  if negb (HasPrefix text "/room ") && HasPrefix text "@" then default text (from_later "/room " text) else text.
(** What follows [/room], when the text is a command. *)
Definition room_command (content : string) : option string :=
  let text := command_text content in
  if String.eqb text "/room" || HasPrefix text "/room " then Some (TrimSpace (TrimPrefix text "/room")) else None.
Inductive bot_command :=
| BcHelp | BcStatus | BcHistory (q : string) | BcWork (body : string) | BcChat (chat : string) | BcUnknown.
Definition parse_command (command : string) : bot_command :=
  if in_texts command [""; "帮助"; "help"] then BcHelp
  else if in_texts command ["状态"; "status"] then BcStatus
  else if String.eqb command "历史" || HasPrefix command "历史 " then BcHistory (TrimSpace (TrimPrefix command "历史"))
  else if HasPrefix command "工作 " then BcWork (TrimSpace (TrimPrefix command "工作 "))
  else if HasPrefix command "群消息 " then BcChat (TrimSpace (TrimPrefix command "群消息 "))
  else BcUnknown.
Definition minutes (n : Z) : Z := n * 60000000000.
Definition days (n : Z) : Z := n * 86400000000000.
(** The moment a message was written, and whether it is near enough. *)
Definition written_at (e : BotEvent) : option Z := (fun ms => ms * 1000000) <$> ParseInt 64 (be_CreateTime e).
Definition timely (now : Z) (e : BotEvent) : bool :=
  match written_at e with Some t => (now - t <=? minutes 10) && (t - now <=? minutes 1) | None => false end.
Definition well_formed (e : BotEvent) : bool :=
  String.eqb (be_Type e) "im.message.receive_v1" && String.eqb (be_MessageType e) "text" && openID (be_SenderID e) && messageID (be_MessageID e)
  && chatID (be_ChatID e) && (len (be_Content e) <=? 16000) && utf8_valid (be_Content e).
Definition binding_of (c : BotConfig) (e : BotEvent) : option Binding := List.find (fun b => String.eqb (bd_OpenID b) (be_SenderID e)) (bc_Bindings c).
Definition from_allowed_chat (b : Binding) (e : BotEvent) : bool :=
  String.eqb (be_ChatType e) "p2p" || String.eqb (be_ChatType e) "group" && in_texts (be_ChatID e) (bd_OriginChats b).
(** An event that is acted on: whose it is and what it says. *)
Definition actionable (c : BotConfig) (now : Z) (e : BotEvent) : option (Binding * string) :=
  if well_formed e && timely now e then
    match binding_of c e with
    | Some b => if from_allowed_chat b e then (fun cmd => (b, cmd)) <$> room_command (be_Content e) else None
    | None => None
    end
  else None.
Definition event_key (c : BotConfig) (e : BotEvent) : string := sha256_hex (bc_AppID c +:+ String (chr 0) (be_MessageID e)).
Definition request_id (c : BotConfig) (e : BotEvent) : string := take_bytes 32 (event_key c e).

(** ** The bridge *)

Record bot_row := mkBotRow { br_id : string; br_digest : string; br_state : string; br_created : Z; br_sender : string }.
Inductive bot_deed :=
| BdStatus | BdHistory (q : string) | BdWork (uid : UID) (id body : string) | BdChat (chat : string) | BdAllowed | BdSend (to text id : string).
(** A deed with the event it is done for and the database of its moment. *)
Record bot_act := mkBotAct { ba_db : DB; ba_event : BotEvent; ba_deed : bot_deed }.
(** Where [Handle] is: [started] is when its look at the clock was. *)
Inductive bot_point :=
| BIdle
| BCount (e : BotEvent) (b : Binding) (command : string) (started : Z)
| BInsert (e : BotEvent) (b : Binding) (command : string) (started : Z)
| BPrune (e : BotEvent) (b : Binding) (command : string)
| BExecute (e : BotEvent) (b : Binding) (command : string)
| BReveal (e : BotEvent) (b : Binding) (response : string) (failed : bool)
| BSend (e : BotEvent) (b : Binding) (response : string) (failed : bool)
| BSave (e : BotEvent) (state : string).
Record bridge := mkBridge { bt_now : Z; bt_rows : list bot_row; bt_at : bot_point; bt_trace : list bot_act }.
Definition at_point (p : bot_point) (s : bridge) : bridge := mkBridge (bt_now s) (bt_rows s) p (bt_trace s).
Definition with_rows (l : list bot_row) (s : bridge) : bridge := mkBridge (bt_now s) l (bt_at s) (bt_trace s).
Definition clock (now : Z) (s : bridge) : bridge := mkBridge (Z.max (bt_now s) now) (bt_rows s) (bt_at s) (bt_trace s).
Definition act_for (d : DB) (e : BotEvent) (x : bot_deed) (s : bridge) : bridge := mkBridge (bt_now s) (bt_rows s) (bt_at s) (bt_trace s ++ [mkBotAct d e x]).

Section bot.
(** [earlier] compares two times as the texts the ledger keeps of them. *)
Context (c : BotConfig) (earlier : Z -> Z -> bool).

(** [botBackend.Authorize] *)
Definition Authorize (d : DB) (failed : option error) (b : Binding) (work : bool) : bool :=
  is_ok (query failed (BotMember (store_at d) (bc_RoomID c) (bd_UID b) work)).
(** The time an event has, over which its context ends. *)
Definition patience : Z := 40000000000.
Definition in_time (started : Z) (s : bridge) : bool := bt_now s - started <=? patience.
Definition receive_event (d : DB) (failed : option error) (e : BotEvent) (s : bridge) : bridge :=
  match actionable c (bt_now s) e with
  | Some (b, command) => if Authorize d failed b false then at_point (BCount e b command (bt_now s)) s else s
  | None => s
  end.
Definition recent (sender : string) (s : bridge) : Z :=
  Z.of_nat (length (List.filter (fun r => String.eqb (br_sender r) sender && earlier (bt_now s - minutes 1) (br_created r)) (bt_rows s))).
Definition count_recent (e : BotEvent) (b : Binding) (command : string) (started : Z) (failed : bool) (s : bridge) : bridge :=
  if failed || (10 <=? recent (be_SenderID e) s) then at_point BIdle s else at_point (BInsert e b command started) s.
(** [INSERT OR IGNORE]; a query that fails may have been carried out, but not when
    the context had ended before it. *)
Definition reserve (e : BotEvent) (b : Binding) (command : string) (started : Z) (failed carried : bool) (s : bridge) : bridge :=
  let row := mkBotRow (event_key c e) (sha256_hex (marshal (event_json e))) "reserved" (bt_now s) (be_SenderID e) in
  if negb (in_time started s) then at_point BIdle s
  else if existsb (fun r => String.eqb (br_id r) (event_key c e)) (bt_rows s) then at_point BIdle s
  else if failed then at_point BIdle (if carried then with_rows (bt_rows s ++ [row]) s else s)
  else at_point (BPrune e b command) (with_rows (bt_rows s ++ [row]) s).
Definition prune_rows (s : bridge) : list bot_row := List.filter (fun r => negb (earlier (br_created r) (bt_now s - days 30))) (bt_rows s).
Definition prune (e : BotEvent) (b : Binding) (command : string) (failed carried : bool) (s : bridge) : bridge :=
  let s' := if failed && negb carried then s else with_rows (prune_rows s) s in
  if failed then at_point BIdle s' else at_point (BExecute e b command) s'.
Definition help_text : string := "我是此项目的 Codex 虚拟成员。" +:+ nl +:+ "/room 状态" +:+ nl +:+ "/room 历史 [关键词]" +:+ nl +:+ "/room 工作 <明确要求>" +:+ nl
  +:+ "/room 群消息 <oc_群ID>" +:+ nl +:+ "结果只私聊回复发送者。工作进入项目共享队列，不自动提交或推送代码。".
Definition failure_text (id : string) : string := "操作未完成，可能需要检查权限或连接。派工结果不明时请先在 Room 核实，勿重复提交。" +:+ nl +:+ "请求：" +:+ id.
(** [execute]: [answer] is what the room or the service answers. *)
Definition execute_command (d : DB) (failed : option error) (answer : result error string) (e : BotEvent) (b : Binding) (command : string) (s : bridge) : bridge * result error string :=
  match parse_command command with
  | BcHelp => (s, Ok help_text)
  | BcStatus => (act_for d e BdStatus s, answer)
  | BcHistory q => (act_for d e (BdHistory q) s, answer)
  | BcWork body =>
      if negb (bd_AllowWork b) || String.eqb body "" then (s, Ok "未启用你的飞书派工权限，请由 Host 维护者核对绑定；查询权限不代表派工权限。")
      else if Authorize d failed b true then (act_for d e (BdWork (bd_UID b) (request_id c e) body) s, answer)
      else (s, Ok "当前 Room 身份不能安排工作。")
  | BcChat ch =>
      if negb (chatID ch) || negb (in_texts ch (bd_ReadableChats b)) then (s, Ok "该群未在你的可读群列表中，不能读取。")
      else (act_for d e (BdChat ch) s, answer)
  | BcUnknown => (s, Ok "请使用 /room 帮助 查看支持的命令；普通聊天不会自动派工。")
  end.
Definition run_command (d : DB) (failed : option error) (answer : result error string) (e : BotEvent) (b : Binding) (command : string) (s : bridge) : bridge :=
  match execute_command d failed answer e b command s with
  | (s, Ok response) => at_point (BReveal e b response false) s
  | (s, Err _) => at_point (BReveal e b (failure_text (request_id c e)) true) s
  end.
Definition shortened (response : string) : string :=
  if 6000 <? Z.of_nat (length (runes response))
  then concat_strings (encode_rune <$> take (Z.to_nat 6000) (runes response)) +:+ nl +:+ "…内容已截断，请在 Room 查看完整结果。" else response.
Definition reveal (d : DB) (failed : option error) (e : BotEvent) (b : Binding) (response : string) (work_failed : bool) (s : bridge) : bridge :=
  if Authorize d failed b false then at_point (BSend e b (shortened response) work_failed) (act_for d e BdAllowed s) else at_point BIdle s.
Definition send (d : DB) (sent : option error) (e : BotEvent) (response : string) (work_failed : bool) (s : bridge) : bridge :=
  at_point (BSave e (if bool_decide (is_Some sent) || work_failed then "unknown" else "completed"))
    (act_for d e (BdSend (be_SenderID e) (bc_Name c +:+ nl +:+ response) (request_id c e)) s).
Definition save_state (e : BotEvent) (state : string) (carried : bool) (s : bridge) : bridge :=
  at_point BIdle (if carried then with_rows (update_where (fun r => String.eqb (br_id r) (event_key c e))
                                               (fun r => mkBotRow (br_id r) (br_digest r) state (br_created r) (br_sender r)) (bt_rows s)) s else s).

Inductive bot_move :=
| BmEvent (now : Z) (d : DB) (failed : option error) (e : BotEvent)
| BmCount (now : Z) (failed : bool)
| BmInsert (now : Z) (failed carried : bool)
| BmPrune (now : Z) (failed carried : bool)
| BmExecute (d : DB) (failed : option error) (answer : result error string)
| BmReveal (d : DB) (failed : option error)
| BmSend (d : DB) (sent : option error)
| BmSave (carried : bool)
| BmRestart.
Definition bot_step (s : bridge) (mv : bot_move) : bridge :=
  match mv, bt_at s with
  | BmEvent now d failed e, BIdle => receive_event d failed e (clock now s)
  | BmCount now failed, BCount e b cmd t => count_recent e b cmd t failed (clock now s)
  | BmInsert now failed carried, BInsert e b cmd t => reserve e b cmd t failed carried (clock now s)
  | BmPrune now failed carried, BPrune e b cmd => prune e b cmd failed carried (clock now s)
  | BmExecute d failed answer, BExecute e b cmd => run_command d failed answer e b cmd s
  | BmReveal d failed, BReveal e b r f => reveal d failed e b r f s
  | BmSend d sent, BSend e b r f => send d sent e r f s
  | BmSave carried, BSave e st => save_state e st carried s
  | BmRestart, _ => at_point BIdle s
  | _, _ => s
  end.
Definition bot_run (s : bridge) (l : list bot_move) : bridge := foldl bot_step s l.
End bot.
Definition new_bridge : bridge := mkBridge 0 [] BIdle [].
Definition events_of (l : list bot_move) : list BotEvent := omap (fun mv => match mv with BmEvent _ _ _ e => Some e | _ => None end) l.

(** ** Once for each message, and for its sender *)

(** The three things done for a message: its command, the second check, the reply. *)
Definition deed_kind (x : bot_deed) : nat := match x with BdAllowed => 1 | BdSend _ _ _ => 2 | _ => 0 end.
Definition act_key (a : bot_act) : string * nat := (be_MessageID (ba_event a), deed_kind (ba_deed a)).
Definition nothing_from (k : nat) (e : BotEvent) (tr : list bot_act) : Prop :=
  forall a, a ∈ tr -> be_MessageID (ba_event a) = be_MessageID e -> (deed_kind (ba_deed a) < k)%nat.

Section safety.
Context (c : BotConfig) (earlier : Z -> Z -> bool) (seen : BotEvent -> Prop).
Context (texts_order : forall a b, earlier a b = true -> a < b + 1000000000).
Context (same_times : forall e e', seen e -> seen e' -> be_MessageID e = be_MessageID e' -> be_CreateTime e = be_CreateTime e').

(** The sender is bound, and allowed to write from there. *)
Definition bound (e : BotEvent) (b : Binding) : Prop := b ∈ bc_Bindings c /\ bd_OpenID b = be_SenderID e /\ from_allowed_chat b e = true.
Definition says (e : BotEvent) (command : string) : Prop := room_command (be_Content e) = Some command.
Definition lawful_deed (tr : list bot_act) (a : bot_act) : Prop :=
  let e := ba_event a in
  exists b, bound e b /\
  match ba_deed a with
  | BdWork uid id body => uid = bd_UID b /\ bd_AllowWork b = true /\ id = request_id c e
      /\ (exists m, BotMember (store_at (ba_db a)) (bc_RoomID c) uid true = Ok m)
      /\ exists command, says e command /\ parse_command command = BcWork body
  | BdChat ch => ch ∈ bd_ReadableChats b /\ exists command, says e command /\ parse_command command = BcChat ch
  | BdHistory q => exists command, says e command /\ parse_command command = BcHistory q
  | BdStatus => exists command, says e command /\ parse_command command = BcStatus
  | BdAllowed => exists m, BotMember (store_at (ba_db a)) (bc_RoomID c) (bd_UID b) false = Ok m
  | BdSend to _ id => to = be_SenderID e /\ id = request_id c e
      /\ exists a', a' ∈ tr /\ ba_event a' = e /\ ba_deed a' = BdAllowed
  end.
Definition lawful_trace (tr : list bot_act) : Prop := forall t1 a t2, tr = t1 ++ a :: t2 -> lawful_deed t1 a.
(** A message that was taken stays in the ledger until it is too old to be taken. *)
Definition taken (s : bridge) (e : BotEvent) : Prop :=
  exists w, written_at e = Some w /\
    ((exists r, r ∈ bt_rows s /\ br_id r = event_key c e /\ w - minutes 1 <= br_created r) \/ w - minutes 1 + days 30 - 1000000000 < bt_now s).
Definition point_fine (s : bridge) : Prop :=
  match bt_at s with
  | BIdle | BSave _ _ => True
  | BCount e b cmd t | BInsert e b cmd t => seen e /\ bound e b /\ says e cmd /\ timely t e = true /\ t <= bt_now s
  | BPrune e b cmd | BExecute e b cmd => seen e /\ bound e b /\ says e cmd /\ taken s e /\ nothing_from 0 e (bt_trace s)
  | BReveal e b _ _ => seen e /\ bound e b /\ taken s e /\ nothing_from 1 e (bt_trace s)
  | BSend e b _ _ => seen e /\ bound e b /\ taken s e /\ nothing_from 2 e (bt_trace s) /\ exists a, a ∈ bt_trace s /\ ba_event a = e /\ ba_deed a = BdAllowed
  end.
Record bot_inv (s : bridge) : Prop := mk_bot_inv
  { bv_law : lawful_trace (bt_trace s);
    bv_once : NoDup (act_key <$> bt_trace s);
    bv_taken : forall a, a ∈ bt_trace s -> seen (ba_event a) /\ taken s (ba_event a);
    bv_point : point_fine s }.
Lemma taken_clock now s e : taken s e -> taken (clock now s) e.
Proof. intros (w & W & [R|T]); exists w; (split; [done|]); [by left|right; cbn; lia]. Qed.
Lemma taken_point p s e : taken s e -> taken (at_point p s) e.
Proof. done. Qed.
(** What is kept when the clock or the ledger moves on. *)
Lemma point_fine_mono s s' : bt_at s' = bt_at s -> bt_trace s' = bt_trace s -> bt_now s <= bt_now s' -> (forall e, taken s e -> taken s' e) -> point_fine s -> point_fine s'.
Proof. intros A Tr N K. unfold point_fine. rewrite A, Tr. destruct (bt_at s); naive_solver lia. Qed.
Lemma inv_mono s s' : bt_at s' = bt_at s -> bt_trace s' = bt_trace s -> bt_now s <= bt_now s' -> (forall e, taken s e -> taken s' e) -> bot_inv s -> bot_inv s'.
Proof.
  intros A Tr N K [L O T P]. split; try by rewrite Tr.
  - rewrite Tr. intros a Ha. destruct (T a Ha). auto.
  - by eapply point_fine_mono.
Qed.
Lemma inv_clock now s : bot_inv s -> bot_inv (clock now s).
Proof. apply inv_mono; [done|done|cbn; lia|apply taken_clock]. Qed.
Lemma inv_idle s : bot_inv s -> bot_inv (at_point BIdle s).
Proof. by intros [L O T P]. Qed.
Lemma inv_rows l s : (forall e, taken s e -> taken (with_rows l s) e) -> bot_inv s -> bot_inv (with_rows l s).
Proof. intros K. by apply inv_mono. Qed.
Lemma inv_point p s : bot_inv s -> point_fine (at_point p s) -> bot_inv (at_point p s).
Proof. by intros [L O T P]. Qed.
Lemma taken_more l s e : taken s e -> taken (with_rows (bt_rows s ++ l) s) e.
Proof. intros (w & W & [(r & Hr & R)|T]); exists w; (split; [done|]); [left; exists r; split; [by apply elem_of_app; left|done]|by right]. Qed.
Lemma taken_pruned s e : taken s e -> taken (with_rows (prune_rows earlier s) s) e.
Proof using texts_order.
  intros (w & W & [(r & Hr & I & B)|T]); exists w; (split; [done|]); [|by right]. cbn. destruct (earlier (br_created r) (bt_now s - days 30)) eqn:E.
  - right. apply texts_order in E. lia.
  - left. exists r. split; [|done]. apply list_elem_of_In, filter_In. split; [by apply list_elem_of_In|by rewrite E].
Qed.
Lemma taken_saved f l s e : (forall r, br_id (f r) = br_id r /\ br_created (f r) = br_created r) -> taken s e -> taken (with_rows (update_where l f (bt_rows s)) s) e.
Proof.
  intros F (w & W & [(r & Hr & I & B)|T]); exists w; (split; [done|]); [|by right]. left. unfold update_where. exists (if l r then f r else r).
  split; [by apply (list_elem_of_fmap_2 (fun r => if l r then f r else r))|]. destruct (l r); [|done]. destruct (F r) as [-> ->]. done.
Qed.
Lemma nothing_key k e tr : nothing_from k e tr -> forall k', (k <= k')%nat -> (be_MessageID e, k') ∉ act_key <$> tr.
Proof. intros N k' L H. apply list_elem_of_fmap in H as (a & E & Ha). injection E as Em Ek. pose proof (N a Ha (eq_sym Em)). lia. Qed.
(** A deed for the message in progress, and the next point. *)
Lemma inv_deed d e x s p : bot_inv s -> seen e -> taken s e -> nothing_from (deed_kind x) e (bt_trace s) -> lawful_deed (bt_trace s) (mkBotAct d e x) ->
  point_fine (at_point p (act_for d e x s)) -> bot_inv (at_point p (act_for d e x s)).
Proof.
  intros [L O T P] S Tk N La F.
  assert (L' : lawful_trace (bt_trace s ++ [mkBotAct d e x])).
  { intros t1 a t2 E. destruct (decide (t2 = [])) as [->|Ne].
    - apply app_inj_tail in E as [<- <-]. done.
    - destruct (exists_last Ne) as (t & y & ->). rewrite app_comm_cons, app_assoc in E. apply app_inj_tail in E as [E _]. by eapply L. }
  assert (O' : NoDup (act_key <$> bt_trace s ++ [mkBotAct d e x])).
  { rewrite fmap_app. apply NoDup_snoc; [done|]. by apply (nothing_key (deed_kind x)). }
  assert (T' : forall a, a ∈ bt_trace s ++ [mkBotAct d e x] -> seen (ba_event a) /\ taken s (ba_event a)).
  { intros a [Ha|Ha%list_elem_of_singleton]%elem_of_app; [by apply T|by subst a]. }
  split; [exact L'|exact O'|exact T'|exact F].
Qed.
Lemma nothing_weaker k k' e tr : (k <= k')%nat -> nothing_from k e tr -> nothing_from k' e tr.
Proof. intros L N a Ha Em. pose proof (N a Ha Em). lia. Qed.
Lemma nothing_more k d e x tr : nothing_from (deed_kind x) e tr -> k = S (deed_kind x) -> nothing_from k e (tr ++ [mkBotAct d e x]).
Proof. intros N -> a [Ha|Ha%list_elem_of_singleton]%elem_of_app Em; [pose proof (N a Ha Em); lia|subst a; cbn; lia]. Qed.
Lemma actionable_bound now e b cmd : actionable c now e = Some (b, cmd) -> bound e b /\ says e cmd /\ timely now e = true.
Proof.
  unfold actionable, bound, says, binding_of. destruct (well_formed e && timely now e) eqn:W; [|done]. cbn. apply andb_prop in W as [_ Ti].
  destruct (List.find _ _) as [b'|] eqn:F; [|done]. cbn. apply find_some_elem in F as [F1 F2].
  destruct (from_allowed_chat b' e) eqn:A; [|done]. cbn. destruct (room_command (be_Content e)); [|done]. cbn. intros E. injection E as <- <-.
  apply String.eqb_eq in F2. by split_and!.
Qed.
Lemma inv_receive_event d failed e s : seen e -> bot_inv s -> bot_inv (receive_event c d failed e s).
Proof.
  intros Se I. unfold receive_event. destruct (actionable c (bt_now s) e) as [[b cmd]|] eqn:A; [|done]. destruct (Authorize c d failed b false); [|done].
  apply inv_point; [done|]. apply actionable_bound in A as (B & Sa & Ti). unfold point_fine. cbn. split_and!; try done; lia.
Qed.
Lemma inv_count e b cmd t failed s : bt_at s = BCount e b cmd t -> bot_inv s -> bot_inv (count_recent earlier e b cmd t failed s).
Proof.
  intros A I. unfold count_recent. destruct (failed || _); [by apply inv_idle|]. apply inv_point; [done|].
  pose proof (bv_point s I) as P. unfold point_fine in P |- *. rewrite A in P. exact P.
Qed.
(** A message that is free in the ledger and timely was not acted on before. *)
Lemma free_is_new e t s : bot_inv s -> seen e -> timely t e = true -> bt_now s - t <= patience ->
  existsb (fun r => String.eqb (br_id r) (event_key c e)) (bt_rows s) = false -> nothing_from 0 e (bt_trace s).
Proof.
  intros I Se Ti Pa Ex a Ha Em. exfalso. destruct (bv_taken s I a Ha) as (Sa & w & W & [(r & Hr & Id & _)|Old]).
  - assert (existsb (fun r => String.eqb (br_id r) (event_key c e)) (bt_rows s) = true) as X; [|by rewrite X in Ex].
    apply existsb_exists. exists r. split; [by apply list_elem_of_In|]. apply String.eqb_eq. rewrite Id. unfold event_key. by rewrite Em.
  - unfold written_at in W. rewrite (same_times _ _ Sa Se Em) in W. unfold timely, written_at in Ti. rewrite W in Ti.
    unfold minutes, days, patience in *. lia.
Qed.
Lemma inv_reserve e b cmd t failed carried s : bt_at s = BInsert e b cmd t -> bot_inv s -> bot_inv (reserve c e b cmd t failed carried s).
Proof using texts_order same_times.
  intros A I. pose proof (bv_point s I) as P. unfold point_fine in P. rewrite A in P. destruct P as (Se & B & Sa & Ti & Le). unfold reserve, in_time.
  destruct (bt_now s - t <=? patience) eqn:Pa; cbn [negb]; [|by apply inv_idle].
  destruct (existsb _ (bt_rows s)) eqn:Ex; [by apply inv_idle|].
  assert (New : nothing_from 0 e (bt_trace s)) by (eapply free_is_new; [done|done|done|lia|done]).
  destruct failed; [destruct carried; [|by apply inv_idle]; by apply inv_idle, inv_rows; [apply taken_more|]|].
  apply inv_point; [apply inv_rows; [apply taken_more|done]|]. unfold point_fine. cbn. split_and!; try done.
  unfold timely in Ti. destruct (written_at e) as [w|] eqn:W; [|done]. exists w. split; [done|left]. eexists. split; [apply elem_of_app; right; by apply list_elem_of_singleton|].
  cbn. split; [done|]. unfold minutes in *. lia.
Qed.
Lemma inv_prune e b cmd failed carried s : bt_at s = BPrune e b cmd -> bot_inv s -> bot_inv (prune earlier e b cmd failed carried s).
Proof using texts_order.
  intros A I. pose proof (bv_point s I) as P. unfold point_fine in P. rewrite A in P. destruct P as (Se & B & Sa & Tk & N). unfold prune.
  assert (I' : bot_inv (if failed && negb carried then s else with_rows (prune_rows earlier s) s)).
  { destruct (failed && negb carried); [done|]. apply inv_rows; [apply taken_pruned|done]. }
  destruct failed; [by apply inv_idle|]. apply inv_point; [done|]. unfold point_fine. cbn. split_and!; try done. by apply taken_pruned.
Qed.
(** The command is run once; a refused one answers without a deed. *)
Lemma inv_run_command d failed answer e b cmd s : bt_at s = BExecute e b cmd -> bot_inv s -> bot_inv (run_command c d failed answer e b cmd s).
Proof using Type.
  intros A I. pose proof (bv_point s I) as P. unfold point_fine in P. rewrite A in P. destruct P as (Se & B & Sa & Tk & N). unfold run_command.
  assert (Done : forall r f, bot_inv (at_point (BReveal e b r f) s)).
  { intros r f. apply inv_point; [done|]. unfold point_fine. cbn. split_and!; try done. by eapply nothing_weaker; [|exact N]; lia. }
  assert (Act : forall x r f, deed_kind x = 0%nat -> lawful_deed (bt_trace s) (mkBotAct d e x) -> bot_inv (at_point (BReveal e b r f) (act_for d e x s))).
  { intros x r f K La. apply inv_deed; [done|done|done|by rewrite K|done|]. unfold point_fine. cbn. split_and!; try done. apply nothing_more; by rewrite K. }
  destruct (execute_command c d failed answer e b cmd s) as [s' res] eqn:X. unfold execute_command in X.
  destruct (parse_command cmd) as [| |q|body|ch|] eqn:Pc.
  - injection X as <- <-. apply Done.
  - injection X as <- <-. destruct answer; apply Act; try done; exists b; (split; [done|]); cbn; eauto.
  - injection X as <- <-. destruct answer; apply Act; try done; exists b; (split; [done|]); cbn; eauto.
  - destruct (negb (bd_AllowWork b) || String.eqb body "") eqn:Al; [injection X as <- <-; apply Done|]. apply orb_false_elim in Al as [Al%negb_false_iff _].
    destruct (Authorize c d failed b true) eqn:Au; injection X as <- <-; [|apply Done].
    assert (M : exists m, BotMember (store_at d) (bc_RoomID c) (bd_UID b) true = Ok m).
    { unfold Authorize, query in Au. destruct failed; [done|]. destruct (BotMember _ _ _ true); [by eexists|done]. }
    destruct answer; apply Act; try done; (exists b; split; [done|]); cbn; split_and!; eauto.
  - destruct (negb (chatID ch) || negb (in_texts ch (bd_ReadableChats b))) eqn:Al; [injection X as <- <-; apply Done|].
    apply orb_false_elim in Al as [_ Al%negb_false_iff].
    assert (R : ch ∈ bd_ReadableChats b) by (apply existsb_exists in Al as (y & Hy & ->%String.eqb_eq); by apply list_elem_of_In).
    injection X as <- <-. destruct answer; apply Act; try done; (exists b; split; [done|]); cbn; split; eauto.
  - injection X as <- <-. apply Done.
Qed.
Lemma inv_reveal d failed e b r f s : bt_at s = BReveal e b r f -> bot_inv s -> bot_inv (reveal c d failed e b r f s).
Proof.
  intros A I. pose proof (bv_point s I) as P. unfold point_fine in P. rewrite A in P. destruct P as (Se & B & Tk & N). unfold reveal.
  destruct (Authorize c d failed b false) eqn:Au; [|by apply inv_idle]. apply inv_deed; try done.
  - exists b. split; [done|]. unfold Authorize, query in Au. cbn. destruct failed; [done|]. destruct (BotMember _ _ _ false); [by eexists|done].
  - unfold point_fine. cbn. split_and!; try done; [by apply nothing_more|]. eexists. split; [apply elem_of_app; right; by apply list_elem_of_singleton|done].
Qed.
Lemma inv_send d sent e b r f s : bt_at s = BSend e b r f -> bot_inv s -> bot_inv (send c d sent e r f s).
Proof.
  intros A I. pose proof (bv_point s I) as P. unfold point_fine in P. rewrite A in P. destruct P as (Se & B & Tk & N & a & Ha). unfold send.
  apply inv_deed; try done. exists b. split; [done|]. split_and!; try done. by exists a.
Qed.
Lemma inv_save e state carried s : bot_inv s -> bot_inv (save_state c e state carried s).
Proof.
  intros I. unfold save_state. apply inv_idle. destruct carried; [|done]. apply inv_rows; [|done]. intros e'. by apply taken_saved.
Qed.
Lemma inv_bot_step s mv : (forall now d failed e, mv = BmEvent now d failed e -> seen e) -> bot_inv s -> bot_inv (bot_step c earlier s mv).
Proof using texts_order same_times.
  intros Se I. destruct mv; cbn [bot_step]; [| | | | | | | |by apply inv_idle]; destruct (bt_at s) eqn:A; try done.
  - apply inv_receive_event; [by eapply Se|by apply inv_clock].
  - apply inv_count; [done|by apply inv_clock].
  - apply inv_reserve; [done|by apply inv_clock].
  - apply inv_prune; [done|by apply inv_clock].
  - by apply inv_run_command.
  - by apply inv_reveal.
  - by eapply inv_send.
  - by apply inv_save.
Qed.
Lemma inv_bot_run l s : (forall e, e ∈ events_of l -> seen e) -> bot_inv s -> bot_inv (bot_run c earlier s l).
Proof using texts_order same_times.
  revert s. induction l as [|mv l IH]; intros s Se I; [done|]. cbn. apply IH.
  - intros e He. apply Se. unfold events_of. cbn. destruct mv; try done. by apply elem_of_cons; right.
  - apply inv_bot_step; [|done]. intros now d failed e ->. apply Se. unfold events_of. cbn. by apply elem_of_cons; left.
Qed.
Lemma inv_new_bridge : bot_inv new_bridge.
Proof. split; [intros [|] a t2 E; discriminate|apply NoDup_nil_2|intros a Ha; by apply elem_of_nil in Ha|done]. Qed.
End safety.

(** C25: Whatever events arrive, and wherever the process dies, a message the bot takes has its command run, its second check made and its
    reply sent at most once each.  Work is arranged only for the member bound to the sender, when the binding and the room allow it, under
    the identifier of the message and with what it says; only a chat the binding lists is read; and the reply goes to the sender alone,
    after the member was found active again. *)
Theorem bot_acts_once c earlier l :
  (forall a b, earlier a b = true -> a < b + 1000000000) ->
  (forall e e', e ∈ events_of l -> e' ∈ events_of l -> be_MessageID e = be_MessageID e' -> be_CreateTime e = be_CreateTime e') ->
  let tr := bt_trace (bot_run c earlier new_bridge l) in
  NoDup (act_key <$> tr) /\ forall t1 a t2, tr = t1 ++ a :: t2 -> lawful_deed c t1 a.
Proof.
  intros Or Ti tr. pose proof (inv_bot_run c earlier (fun e => e ∈ events_of l) Or Ti l new_bridge (fun e H => H) (inv_new_bridge _ _)) as I.
  split; [exact (bv_once _ _ _ I)|exact (bv_law _ _ _ I)].
Qed.

(** ** A member who asks for work, twice *)

Definition cat_binding : Binding := mkBinding "ou_cat45678" 1000000001 true [] ["oc_project1"].
Definition bot_config : BotConfig := mkBotConfig "team" "bot" "cli_12345678" "Room" [cat_binding].
Definition cat_says (id text : string) : BotEvent :=
  mkEvent "im.message.receive_v1" "ev" id "ou_cat45678" "oc_private1" "p2p" "text" text "1000".
Definition handled (e : BotEvent) (answer : result error string) : list bot_move :=
  let d := guests in
  [BmEvent 2000000000 d None e; BmCount 2000000000 false; BmInsert 2000000000 false true; BmPrune 2000000000 false true;
   BmExecute d None answer; BmReveal d None; BmSend d None; BmSave true].
Definition bot_course : list bot_move :=
  handled (cat_says "om_00000001" "/room 工作 review") (Ok "accepted") ++ handled (cat_says "om_00000001" "/room 工作 review") (Ok "accepted")
  ++ handled (cat_says "om_00000002" "@bot /room 群消息 oc_project1") (Ok "[]").
Lemma bot_acts_once_witness :
  let tr := bt_trace (bot_run bot_config Z.ltb new_bridge bot_course) in
  (ba_deed <$> tr !! 0%nat) = Some (BdWork 1000000001 (request_id bot_config (cat_says "om_00000001" "")) "review")
  /\ length tr = 6%nat /\ NoDup (act_key <$> tr) /\ forall t1 a t2, tr = t1 ++ a :: t2 -> lawful_deed bot_config t1 a.
Proof.
  intros tr. split; [by vm_compute|]. split; [by vm_compute|]. apply (bot_acts_once bot_config Z.ltb bot_course); [intros; lia|].
  assert (S : forall e, e ∈ events_of bot_course -> be_CreateTime e = "1000").
  { intros e He. cbn in He. repeat (apply elem_of_cons in He as [->|He]; [done|]). by apply elem_of_nil in He. }
  intros e e' He He' _. by rewrite (S e He), (S e' He').
Defined.
(** A configuration that is accepted binds a sender to one member and a member to one sender. *)
Lemma bindings_distinct l : forall seen uids, check_bindings seen uids l = Ok tt ->
  NoDup (bd_OpenID <$> l) /\ NoDup (bd_UID <$> l) /\ (forall b, b ∈ l -> bd_OpenID b ∉ seen /\ bd_UID b ∉ uids).
Proof.
  induction l as [|b l IH]; intros seen uids H; cbn in H.
  { split_and!; try apply NoDup_nil_2. intros b Hb. by apply elem_of_nil in Hb. }
  destruct (negb (openID (bd_OpenID b)) || (bd_UID b =? 0) || in_texts (bd_OpenID b) seen || existsb (Z.eqb (bd_UID b)) uids) eqn:C; [done|].
  destruct (negb (forallb chatID (bd_OriginChats b ++ bd_ReadableChats b))); [done|]. apply IH in H as (N1 & N2 & F).
  apply orb_false_elim in C as [C C4]. apply orb_false_elim in C as [_ C3]. cbn. split_and!.
  - apply NoDup_cons. split; [|done]. intros (b' & E & Hb)%list_elem_of_fmap. apply (proj1 (F b' Hb)). rewrite <- E. by apply elem_of_cons; left.
  - apply NoDup_cons. split; [|done]. intros (b' & E & Hb)%list_elem_of_fmap. apply (proj2 (F b' Hb)). rewrite <- E. by apply elem_of_cons; left.
  - intros b' [->|Hb]%elem_of_cons.
    + split; intros Hin%list_elem_of_In.
      * assert (in_texts (bd_OpenID b) seen = true) as X by (apply existsb_exists; eexists; split; [exact Hin|apply String.eqb_refl]). by rewrite X in C3.
      * assert (existsb (Z.eqb (bd_UID b)) uids = true) as X by (apply existsb_exists; eexists; split; [exact Hin|apply Z.eqb_refl]). by rewrite X in C4.
    + destruct (F b' Hb) as [A B]. split; intros Hin; [apply A|apply B]; by apply elem_of_cons; right.
Qed.
Lemma valid_bindings c : BotConfig_Validate c = Ok tt -> NoDup (bd_OpenID <$> bc_Bindings c) /\ NoDup (bd_UID <$> bc_Bindings c).
Proof.
  unfold BotConfig_Validate. repeat (case_match; [done|]). intros Hv%bindings_distinct. tauto.
Qed.
