(* ===== verification/ApprovalWindow.v ===== *)
(** * Approvals on the member's own machine ([internal/answerwindow/personal.go], [push.go],
      [resources.go], the guards of [window.go])

    A member's client serves a page to the browser of the same machine.  A loop asks
    the host for what the agent wants to be written under the member's accounts, and
    does it once the member has agreed on the page.  Loop and handlers of the page run
    side by side and share the window under its mutex: a move is what one of them does
    from one wait to the next.  What the host answers, what the local tools find and
    what the programs return are arguments of the moves. *)
From S2P Require Import Prelude GoStrings Json GoUrl RoomTypes ResourceRequest PersonalBroker Programs Executors Documents.

(** ** Requests of the browser *)

Record http_request := mkHttp { ht_Host : string; ht_Origin : string; ht_Method : string; ht_Path : string }.
(** The body of a decision about the personal request, and of one about resources. *)
Record decision := mkDecision { dn_GitHubID : Z; dn_GitIdentity : option GitIdentity; dn_Action : string; dn_ID : string; dn_AccountID : string }.
Record resource_form := mkForm
  { rf_Action : string; rf_Enabled : bool; rf_Root : string; rf_Confirmed : bool; rf_Mode : string; rf_Resource : ResourceRequest; rf_Question : string }.
Definition posts : list string := ["personal"; "resources"; "tasks"; "questions"; "draft"; "submit"; "cancel"; "upload"].
(** [serve], before it looks at the path: [addr] is the listener's address, [token] the path that cannot be guessed. *)
Definition guard_request (addr token : string) (r : http_request) : option (Z * string) :=
  if negb (String.eqb (ht_Host r) addr) then Some (403, "invalid host")
  else if negb (String.eqb (ht_Origin r) "") && negb (String.eqb (ht_Origin r) ("http://" +:+ ht_Host r)) then Some (403, "invalid origin")
  else if negb (String.eqb (ht_Method r) "GET")
          && negb (String.eqb (ht_Method r) "POST" && existsb (fun p => String.eqb (ht_Path r) (token +:+ p)) posts) then Some (405, "read-only")
  else None.
Definition same_page (r : http_request) : bool := String.eqb (ht_Origin r) ("http://" +:+ ht_Host r).

(** ** State *)

(** What the member has agreed to: [gr_push] points to an approval. *)
Record grants := mkGrants { gr_account : string; gr_append : string; gr_git : option GitIdentity; gr_push : option nat; gr_pushGranted : string }.
Definition no_grants : grants := mkGrants "" "" None None "".
Definition grant_account (a append : string) (g : grants) : grants := mkGrants a append (gr_git g) (gr_push g) (gr_pushGranted g).
Definition grant_git (i : GitIdentity) (g : grants) : grants := mkGrants (gr_account g) (gr_append g) (Some i) (gr_push g) (gr_pushGranted g).
Definition grant_push (p : option nat) (id : string) (g : grants) : grants := mkGrants (gr_account g) (gr_append g) (gr_git g) p id.
(** Reading under one's own name: whether it is on, for which project, and the context of a query that runs. *)
Record own_resources := mkOwnResources { or_enabled : bool; or_root : string; or_query : option bool }.

(** What was decided, and what was done with it. *)
Inductive window_act :=
| WaAccount (r : http_request) (id account : string) (append : bool)
| WaGit (r : http_request) (id : string) (i : GitIdentity)
| WaChecked (r : http_request) (id : string) (ptr : nat)
| WaPushGrant (r : http_request) (id : string) (github : Z)
| WaEnabled (r : http_request) (root : string)
| WaWithdrawn (off : bool) | WaAccountCleared | WaPushCleared
| WaRun (q : ResourceRequest)
| WaIdentity (id : string) (i : GitIdentity)
| WaPushStart (id : string) (ptr : nat) (offer : Offer)
| WaPushed (ptr : nat) (pack : string) (live : bool)
| WaQuery (r : http_request) (mode : string) (q : ResourceRequest) (root : string).
Inductive loop_point :=
| LIdle | LAsked (client : string)
| LSendGit (p : PersonalRequest) (i : GitIdentity)
| LRun (p : PersonalRequest) (q : ResourceRequest)
| LSendReceipt (p : PersonalRequest) (c : CreateReceipt)
| LPush (p : PersonalRequest)
| LReceipt (p : PersonalRequest) (o : Offer) (granted : option nat)
| LStart (p : PersonalRequest) (o : Offer) (ptr : nat)
| LChunks (p : PersonalRequest) (o : Offer) (ptr : nat) (pack : string)
| LDeliver (p : PersonalRequest) (r : PushReceipt)
| LFree | LEnded.
Inductive handler_point :=
| HHistory
| HCheck (r : http_request) (p : PersonalRequest)
| HPushGrant (r : http_request) (p : PersonalRequest) (github : Z)
| HGit (r : http_request) (p : PersonalRequest) (i : GitIdentity)
| HIdentity (r : http_request) (p : PersonalRequest) (account : string)
| HDecline (p : PersonalRequest)
| HQuery (f : resource_form)
| HDone (status : Z) (text : string).
(** [aw_client]: the name under which the window asks, once resources are enabled;
    [aw_run]: the context of a running write, and whether it was cancelled. *)
Record Window := mkWindow
  { aw_client : option string; aw_own : own_resources; aw_pending : option PersonalRequest; aw_grants : grants; aw_run : option bool;
    aw_failed : string; aw_last : option PushReceipt; aw_heap : list Approval; aw_status : string; aw_closed : bool;
    aw_loop : loop_point; aw_handlers : gmap nat handler_point; aw_trace : list window_act }.
Definition new_window : Window := mkWindow None (mkOwnResources false "" None) None no_grants None "" None [] "" false LIdle ∅ [].
Definition set_pending (p : option PersonalRequest) (w : Window) : Window :=
  mkWindow (aw_client w) (aw_own w) p (aw_grants w) (aw_run w) (aw_failed w) (aw_last w) (aw_heap w) (aw_status w) (aw_closed w) (aw_loop w) (aw_handlers w) (aw_trace w).
Definition set_own (o : own_resources) (w : Window) : Window :=
  mkWindow (aw_client w) o (aw_pending w) (aw_grants w) (aw_run w) (aw_failed w) (aw_last w) (aw_heap w) (aw_status w) (aw_closed w) (aw_loop w) (aw_handlers w) (aw_trace w).
Definition set_run (c : option bool) (w : Window) : Window :=
  mkWindow (aw_client w) (aw_own w) (aw_pending w) (aw_grants w) c (aw_failed w) (aw_last w) (aw_heap w) (aw_status w) (aw_closed w) (aw_loop w) (aw_handlers w) (aw_trace w).
Definition set_push_record (failed : string) (last : option PushReceipt) (w : Window) : Window :=
  mkWindow (aw_client w) (aw_own w) (aw_pending w) (aw_grants w) (aw_run w) failed last (aw_heap w) (aw_status w) (aw_closed w) (aw_loop w) (aw_handlers w) (aw_trace w).
Definition set_status (t : string) (w : Window) : Window :=
  mkWindow (aw_client w) (aw_own w) (aw_pending w) (aw_grants w) (aw_run w) (aw_failed w) (aw_last w) (aw_heap w) t (aw_closed w) (aw_loop w) (aw_handlers w) (aw_trace w).
Definition at_loop (l : loop_point) (w : Window) : Window :=
  mkWindow (aw_client w) (aw_own w) (aw_pending w) (aw_grants w) (aw_run w) (aw_failed w) (aw_last w) (aw_heap w) (aw_status w) (aw_closed w) l (aw_handlers w) (aw_trace w).
Definition at_handler (k : nat) (h : handler_point) (w : Window) : Window :=
  mkWindow (aw_client w) (aw_own w) (aw_pending w) (aw_grants w) (aw_run w) (aw_failed w) (aw_last w) (aw_heap w) (aw_status w) (aw_closed w) (aw_loop w) (<[k := h]> (aw_handlers w)) (aw_trace w).
(** A change of the grants is written down with its reason; an approval gets its place when it is kept. *)
Definition change (x : window_act) (g : grants) (w : Window) : Window :=
  mkWindow (aw_client w) (aw_own w) (aw_pending w) g (aw_run w) (aw_failed w) (aw_last w) (aw_heap w) (aw_status w) (aw_closed w) (aw_loop w) (aw_handlers w) (aw_trace w ++ [x]).
Definition did (x : window_act) (w : Window) : Window := change x (aw_grants w) w.
Definition keep (a : Approval) (w : Window) : Window :=
  mkWindow (aw_client w) (aw_own w) (aw_pending w) (aw_grants w) (aw_run w) (aw_failed w) (aw_last w) (aw_heap w ++ [a]) (aw_status w) (aw_closed w) (aw_loop w) (aw_handlers w) (aw_trace w).
(** Everything agreed to is taken back; [off] also turns reading off. *)
Definition withdraw (off : bool) (w : Window) : Window := change (WaWithdrawn off) no_grants w.
Definition clear_push (w : Window) : Window := change WaPushCleared (grant_push None "" (aw_grants w)) w.
Definition clear_account (w : Window) : Window := change WaAccountCleared (grant_account "" "" (aw_grants w)) w.
(** [personalRunCancel()] when there is one *)
Definition cancel_run (w : Window) : Window := match aw_run w with Some _ => set_run (Some true) w | None => w end.

(** ** The loop *)

(** What the host answers to a question of the window, or why it did not. *)
Record host_info := mkInfo { hi_Mode : string; hi_Role : string; hi_Personal : option PersonalRequest; hi_PushData : string }.
Definition own_mode (i : host_info) : bool := String.eqb (hi_Mode i) "personal" && String.eqb (hi_Role i) "roommate".
Definition tick (w : Window) : Window := match aw_client w with Some c => at_loop (LAsked c) w | None => w end.
(** The document that is written for [p] under [account]. *)
Definition document_request (p : PersonalRequest) (account : string) : ResourceRequest :=
  mkResourceRequest (pq_Title p) (pq_Content p) (pq_ID p) account (if String.eqb (pq_Action p) "" then "feishu.create" else pq_Action p) (pq_Target p) "".
(** [personalStep] from the host's answer on. *)
Definition personalStep (reply : result verr host_info) (w : Window) : Window :=
  match reply with
  | Err _ => at_loop LIdle (set_pending None (withdraw false w))
  | Ok i =>
      if negb (own_mode i) then at_loop LIdle (set_pending None (withdraw false w)) else
      let w := set_pending (hi_Personal i) w in
      match hi_Personal i with
      | None => at_loop LIdle (clear_push w)
      | Some p =>
          if String.eqb (pq_Action p) "git.push" then at_loop (LPush p) w
          else if String.eqb (pq_Action p) "git.commit" then
            match gr_git (aw_grants w) with
            | None => at_loop LIdle (set_status "你要求的代码提交正在等待 Git 署名确认，请本人填写姓名和邮箱。" w)
            | Some i => at_loop (LSendGit p i) (did (WaIdentity (pq_ID p) i) w)
            end
          else if negb (existsb (String.eqb (pq_Action p)) [""; "feishu.create"; "feishu.append"]) then at_loop LIdle (set_status "不支持该个人操作，请更新客户端" w)
          else
            let account := gr_account (aw_grants w) in
            if String.eqb account "" || String.eqb (pq_Action p) "feishu.append" && negb (String.eqb (gr_append (aw_grants w)) (pq_ID p))
            then at_loop LIdle (set_status "你要求创建的飞书文档正在等待本机授权。请核对账号后继续；不会使用 Host 账号。" w)
            else let q := document_request p account in
                 at_loop (LRun p q) (did (WaRun q) (set_run (Some false) (set_status "正在使用你的个人飞书账号写入并核验正文…" w)))
      end
  end.
Definition identity_sent (ok : bool) (w : Window) : Window :=
  at_loop LIdle (if ok then set_pending None (set_status "已将本人确认的 Git 署名交给本次提交，结果由模型回复。" w) else w).
(** The writer of documents has returned; its text is a receipt. *)
Definition document_run (p : PersonalRequest) (text : result verr string) (w : Window) : Window :=
  match match text with Ok t => dec_create_receipt t | Err _ => None end with
  | Some c => at_loop (LSendReceipt p c) w
  | None => at_loop LFree (set_status "本机飞书登录、账号或权限不可用，请重新核对并授权。不会使用 Host 或其他成员的账号。" (clear_account w))
  end.
Definition receipt_sent (c : CreateReceipt) (ok : bool) (w : Window) : Window :=
  at_loop LFree
    (if negb ok then set_status "本机已保存创建回执，等待 Host 确认；不会重复创建。" w
     else set_pending None (set_status (if String.eqb (cr_State c) "completed" then "已用你的个人飞书账号写入并核验正文，结果已返回模型。"
                                        else "创建结果待核实，本机已保存回执；不会自动重试。") w)).
(** While a write runs, its request must stay the one the host has. *)
Definition still_asked (p : PersonalRequest) (reply : result verr host_info) : bool :=
  match reply with
  | Ok i => own_mode i && match hi_Personal i with
                          | Some q => String.eqb (pq_ID q) (pq_ID p)
                                      && match pq_Push p with
                                         | Some o => match pq_Push q with Some o' => SameOffer o' o | None => false end
                                         | None => true
                                         end
                          | None => false
                          end
  | Err _ => false
  end.
(** A document is watched by its identifier alone. *)
Definition without_push (p : PersonalRequest) : PersonalRequest :=
  mkPersonalRequest (pq_Target p) None (pq_Action p) (pq_ID p) (pq_Title p) (pq_Content p) (pq_Sender p).
Definition monitor (reply : result verr host_info) (w : Window) : Window :=
  match aw_loop w with
  | LRun p _ => if still_asked (without_push p) reply then w else cancel_run w
  | LChunks p _ _ _ => if still_asked p reply then w else cancel_run w
  | _ => w
  end.
(** [personalPushStep] up to its look at the ledger *)
Definition push_granted (p : PersonalRequest) (o : Offer) (w : Window) : option nat :=
  ptr ← gr_push (aw_grants w); a ← aw_heap w !! ptr;
  if String.eqb (ap_ID a) (pq_ID p) && String.eqb (gr_pushGranted (aw_grants w)) (pq_ID p) && SameOffer (ap_Offer a) o then Some ptr else None.
Definition push_begin (p : PersonalRequest) (w : Window) : Window :=
  match pq_Push p with
  | Some o => if is_ok (Offer_Validate o) then at_loop (LReceipt p o (push_granted p o w)) w else at_loop LIdle (set_status "无效的 GitHub 推送请求" w)
  | None => at_loop LIdle (set_status "无效的 GitHub 推送请求" w)
  end.
Definition push_receipt (p : PersonalRequest) (o : Offer) (granted : option nat) (saved : result verr (option PushReceipt)) (w : Window) : Window :=
  match saved with
  | Err _ => at_loop LIdle (set_status "本机推送回执不可用，已停止；不会重新推送" w)
  | Ok (Some r) => at_loop (LDeliver p r) w
  | Ok None =>
      match granted with
      | Some ptr => at_loop (LStart p o ptr) w
      | None => at_loop LIdle (if String.eqb (aw_failed w) (pq_ID p) then w else set_status "推送正在等待本人核对 GitHub 账号、仓库、分支和 commit。" w)
      end
  end.
(** The grant is looked at again, now with the run in place. *)
Definition push_start (p : PersonalRequest) (o : Offer) (ptr : nat) (w : Window) : Window :=
  if negb (bool_decide (gr_push (aw_grants w) = Some ptr)) || negb (String.eqb (gr_pushGranted (aw_grants w)) (pq_ID p)) then at_loop LIdle w
  else at_loop (LChunks p o ptr "") (did (WaPushStart (pq_ID p) ptr o) (set_run (Some false) (set_status "正在通过本机 GitHub 账号推送…" w))).
Definition push_failed (p : PersonalRequest) (why : verr) (w : Window) : Window :=
  at_loop LFree (set_status (why +:+ "；请重新核对授权。") (set_push_record (pq_ID p) (aw_last w) (clear_push w))).
Definition chunk_size (o : Offer) (pack : string) : Z := Z.min ChunkSize (of_PackSize o - len pack).
Definition push_chunk (p : PersonalRequest) (o : Offer) (ptr : nat) (pack : string) (reply : result verr host_info) (w : Window) : Window :=
  if of_PackSize o <=? len pack then w else
  match reply with
  | Ok i => if own_mode i && (len (hi_PushData i) =? chunk_size o pack) then at_loop (LChunks p o ptr (pack +:+ hi_PushData i)) w
            else push_failed p "提交包传输中断或连接权限已变化，未推送" w
  | Err _ => push_failed p "提交包传输中断或连接权限已变化，未推送" w
  end.
(** [Execute] has returned; it got the context of the run, live or not. *)
Definition push_execute (p : PersonalRequest) (o : Offer) (ptr : nat) (pack : string) (res : result verr PushReceipt) (w : Window) : Window :=
  if len pack <? of_PackSize o then w else
  let w := did (WaPushed ptr pack (bool_decide (aw_run w = Some false))) w in
  match res with Ok r => at_loop (LDeliver p r) w | Err e => push_failed p e w end.
Definition deliverPush (r : PushReceipt) (ok : bool) (w : Window) : Window :=
  let w := set_push_record (aw_failed w) (Some r) (clear_push w) in
  at_loop LFree
    (if negb ok then set_status "本机已保存推送回执，等待 Host 确认；不会重复执行" w
     else set_pending None (set_status (if String.eqb (pr_State r) "completed" then "已使用你的 GitHub 账号完成推送，结果已返回模型。"
                                        else "推送结果待核实，请在资源授权中查看本机回执；不会自动重试。") w)).
Inductive loop_event :=
| LeTick | LeReply (r : result verr host_info) | LeSent (ok : bool) | LeRan (text : result verr string)
| LeReceipt (saved : result verr (option PushReceipt)) | LeNext | LeChunk (r : result verr host_info) | LeExecuted (r : result verr PushReceipt) | LeEnd.
Definition loop_step (ev : loop_event) (w : Window) : Window :=
  match ev, aw_loop w with
  | LeTick, LIdle => tick w
  | LeEnd, LIdle => if aw_closed w then at_loop LEnded w else w
  | LeReply r, LAsked _ => personalStep r w
  | LeSent ok, LSendGit _ _ => identity_sent ok w
  | LeRan t, LRun p _ => document_run p t w
  | LeSent ok, LSendReceipt _ c => receipt_sent c ok w
  | LeNext, LPush p => push_begin p w
  | LeReceipt s, LReceipt p o g => push_receipt p o g s w
  | LeNext, LStart p o ptr => push_start p o ptr w
  | LeChunk r, LChunks p o ptr pack => push_chunk p o ptr pack r w
  | LeExecuted r, LChunks p o ptr pack => push_execute p o ptr pack r w
  | LeSent ok, LDeliver _ r => deliverPush r ok w
  | LeNext, LFree => at_loop LIdle (set_run None w)
  | _, _ => w
  end.

(** ** The pages *)

Section pages.
Context (addr token : string).

(** [servePersonal] up to its first wait; [body] is the decoded body. *)
Definition stale : string := "请求已变化或正在创建，请刷新查看".
Definition decide_point (r : http_request) (p : PersonalRequest) (d : decision) : handler_point :=
  let act := dn_Action d in
  if String.eqb act "push-check" then
    if negb (String.eqb (pq_Action p) "git.push") || bool_decide (pq_Push p = None) then HDone 400 "请求不是 GitHub 推送" else HCheck r p
  else if String.eqb act "push-grant" then HPushGrant r p (dn_GitHubID d)
  else if String.eqb act "git-grant" then
    match dn_GitIdentity d with
    | Some i => if String.eqb (pq_Action p) "git.commit" && is_ok (GitIdentity_Validate i) then HGit r p i else HDone 400 "请填写有效的 Git 姓名和邮箱"
    | None => HDone 400 "请填写有效的 Git 姓名和邮箱"
    end
  else if String.eqb act "grant" then
    if existsb (String.eqb (pq_Action p)) ["feishu.create"; "feishu.append"; ""] then HIdentity r p (dn_AccountID d)
    else HDone 400 "Git 提交需要单独确认姓名和邮箱，不能复用飞书授权"
  else if String.eqb act "decline" then HDecline p
  else HDone 400 "invalid action".
Definition servePersonal (r : http_request) (body : option decision) (w : Window) : handler_point :=
  if String.eqb (ht_Method r) "GET" then HDone 200 (aw_status w)
  else if negb (String.eqb (ht_Method r) "POST") || negb (same_page r) then HDone 403 "invalid origin or method"
  else match body with
  | None => HDone 400 "invalid request"
  | Some d =>
      if existsb (String.eqb (dn_Action d)) ["document-history"; "push-history"] then HHistory else
      match aw_pending w with
      | Some p => if negb (String.eqb (pq_ID p) (dn_ID d)) || bool_decide (aw_client w = None) || bool_decide (is_Some (aw_run w)) then HDone 409 stale
                  else decide_point r p d
      | None => HDone 409 stale
      end
  end.
(** The same request is still pending. *)
Definition still_pending (p : PersonalRequest) (w : Window) : bool :=
  match aw_pending w with Some q => String.eqb (pq_ID q) (pq_ID p) | None => false end.
Definition land_check (k : nat) (r : http_request) (p : PersonalRequest) (res : result verr Approval) (w : Window) : Window :=
  match res with
  | Err e => at_handler k (HDone 409 e) w
  | Ok a =>
      let same := match aw_pending w with
                  | Some q => String.eqb (pq_ID q) (pq_ID p) && match pq_Push q with Some o => SameOffer o (ap_Offer a) | None => false end
                  | None => false
                  end in
      if negb same then at_handler k (HDone 409 "请求已变化") w
      else let ptr := length (aw_heap w) in
           at_handler k (HDone 200 "approval")
             (set_push_record "" (aw_last w) (change (WaChecked r (pq_ID p) ptr) (grant_push (Some ptr) "" (aw_grants w)) (keep a w)))
  end.
Definition land_push_grant (k : nat) (r : http_request) (p : PersonalRequest) (github : Z) (w : Window) : Window :=
  let fits := match gr_push (aw_grants w) ≫= (fun ptr => aw_heap w !! ptr) with
              | Some a => String.eqb (ap_ID a) (pq_ID p) && (ac_ID (ap_Account a) =? github)
              | None => false
              end in
  if negb (String.eqb (pq_Action p) "git.push") || negb (still_pending p w) || negb fits
  then at_handler k (HDone 409 "请重新核对本机 GitHub 账号和推送目标") w
  else at_handler k (HDone 200 "{}") (set_status "已确认本次推送，正在下载并校验提交包。"
         (change (WaPushGrant r (pq_ID p) github) (grant_push (gr_push (aw_grants w)) (pq_ID p) (aw_grants w)) w)).
Definition land_git (k : nat) (r : http_request) (p : PersonalRequest) (i : GitIdentity) (w : Window) : Window :=
  if negb (still_pending p w) then at_handler k (HDone 409 "请求已失效") w
  else at_handler k (HDone 200 "{}") (set_status "已确认本次连接的 Git 署名，正在继续提交。" (change (WaGit r (pq_ID p) i) (grant_git i (aw_grants w)) w)).
Definition land_identity (k : nat) (r : http_request) (p : PersonalRequest) (account : string) (who : result verr FeishuIdentity) (w : Window) : Window :=
  let same := match who with Ok i => String.eqb (fe_OpenID i) account | Err _ => false end in
  if negb same then at_handler k (HDone 409 "本机账号不可用或已变化，请重新核对账号后授权") w
  else if negb (still_pending p w) then at_handler k (HDone 409 "请求已失效") w
  else
    let append := String.eqb (pq_Action p) "feishu.append" in
    let o := aw_own w in
    at_handler k (HDone 200 "{}") (set_status "已授权本次连接使用该账号创建你要求的飞书文档，正在继续。"
      (set_own (mkOwnResources true (or_root o) (or_query o))
         (change (WaAccount r (pq_ID p) account append)
            (grant_account account (if append then pq_ID p else gr_append (aw_grants w)) (aw_grants w)) w))).
Definition land_decline (k : nat) (sent : bool) (w : Window) : Window :=
  if negb sent then at_handler k (HDone 409 "请求已失效或未收到确认") w
  else at_handler k (HDone 200 "{}") (set_status "已拒绝本次操作；模型不会得到执行成功的结果。" (set_pending None (clear_push w))).

(** [serveResources]; the tools it only looks at are the outside. *)
Definition grant_resources (r : http_request) (enabled : bool) (root : string) (w : Window) : Window :=
  let query := (fun _ => true) <$> or_query (aw_own w) in
  if enabled then did (WaEnabled r root) (set_own (mkOwnResources true root query) w)
  else set_own (mkOwnResources false "" query) (cancel_run (withdraw true w)).
Definition serveResources (k : nat) (r : http_request) (form : option resource_form) (w : Window) : Window :=
  if bool_decide (aw_client w = None) then at_handler k (HDone 503 "当前连接不支持资源授权，请更新 Host 和客户端") w
  else if String.eqb (ht_Method r) "GET" then at_handler k HHistory w
  else if negb (same_page r) then at_handler k (HDone 403 "invalid origin") w
  else match form with
  | None => at_handler k (HDone 400 "invalid request") w
  | Some f =>
      let mode := rf_Mode f in let q := rf_Resource f in
      if existsb (String.eqb (rf_Action f)) ["feishu-identity"; "receipt"] then at_handler k HHistory w
      else if String.eqb (rf_Action f) "grant" then
        if rf_Enabled f && negb (String.eqb (rf_Root f) "") && negb (HasPrefix (rf_Root f) "/") then at_handler k (HDone 400 "项目目录必须是本机绝对路径") w
        else at_handler k (HDone 200 "{}") (grant_resources r (rf_Enabled f) (rf_Root f) w)
      else if negb (String.eqb (rf_Action f) "query") || negb (rf_Confirmed f) || negb (is_ok (ResourceRequest_Validate q)) || (6000 <? len (rf_Question f))
              || negb (existsb (String.eqb mode) ["host"; "personal"]) then at_handler k (HDone 400 "请确认具体资源操作") w
      else if IsWrite q && (negb (String.eqb mode "personal") || negb (String.eqb (rf_Question f) ""))
      then at_handler k (HDone 403 "创建文档必须使用个人模式，且不能附带模型执行要求") w
      else if bool_decide (is_Some (or_query (aw_own w))) || String.eqb mode "personal" && negb (or_enabled (aw_own w))
      then at_handler k (HDone 409 "请先开启个人授权，或等待当前请求结束") w
      else at_handler k (HQuery f) (did (WaQuery r mode q (or_root (aw_own w)))
             (set_own (mkOwnResources (or_enabled (aw_own w)) (or_root (aw_own w)) (Some false)) w))
  end.
(** The end of a query: [reply] is what came back, [saved] the receipt the ledger has of a write that is not confirmed. *)
Definition query_failed (q : ResourceRequest) : string :=
  if IsWrite q then "未收到创建确认，请查询本机回执或在自己的飞书中核对。可能尚未执行，也可能结果未知；不会自动重试或使用 Host 账号。"
  else "资源调用未完成。请检查登录、授权模式和连接；没有切换身份。".
Definition land_query (k : nat) (f : resource_form) (reply : result verr string) (saved : option string) (w : Window) : Window :=
  let point := match reply with
               | Ok text => HDone 200 text
               | Err _ => match saved with
                          | Some receipt => if IsWrite (rf_Resource f) then HDone 200 receipt else HDone 400 (query_failed (rf_Resource f))
                          | None => HDone 400 (query_failed (rf_Resource f))
                          end
               end in
  at_handler k point (set_own (mkOwnResources (or_enabled (aw_own w)) (or_root (aw_own w)) None) w).

(** [serve]: a handler starts. *)
Inductive form := FmPersonal (d : option decision) | FmResources (f : option resource_form).
Definition serve (k : nat) (r : http_request) (body : form) (w : Window) : Window :=
  match guard_request addr token r with
  | Some (status, text) => at_handler k (HDone status text) w
  | None =>
      match body with
      | FmPersonal d => if String.eqb (ht_Path r) (token +:+ "personal") then at_handler k (servePersonal r d w) w else at_handler k HHistory w
      | FmResources f => if String.eqb (ht_Path r) (token +:+ "resources") then serveResources k r f w else at_handler k HHistory w
      end
  end.
Inductive answer :=
| AnHistory (status : Z) (text : string) | AnApproval (res : result verr Approval) | AnLock | AnIdentity (who : result verr FeishuIdentity)
| AnSent (ok : bool) | AnQuery (reply : result verr string) (saved : option string).
Definition handler_step (k : nat) (a : answer) (w : Window) : Window :=
  match aw_handlers w !! k, a with
  | Some HHistory, AnHistory s t => at_handler k (HDone s t) w
  | Some (HCheck r p), AnApproval res => land_check k r p res w
  | Some (HPushGrant r p g), AnLock => land_push_grant k r p g w
  | Some (HGit r p i), AnLock => land_git k r p i w
  | Some (HIdentity r p account), AnIdentity who => land_identity k r p account who w
  | Some (HDecline _), AnSent ok => land_decline k ok w
  | Some (HQuery f), AnQuery reply saved => land_query k f reply saved w
  | _, _ => w
  end.

(** ** The window *)

Definition EnableResources (client : string) (w : Window) : Window :=
  match aw_client w with
  | Some _ => w
  | None => mkWindow (Some client) (aw_own w) (aw_pending w) (aw_grants w) (aw_run w) (aw_failed w) (aw_last w) (aw_heap w) (aw_status w) (aw_closed w) (aw_loop w) (aw_handlers w) (aw_trace w)
  end.
Definition mark_closed (w : Window) : Window :=
  mkWindow (aw_client w) (aw_own w) (aw_pending w) (aw_grants w) (aw_run w) (aw_failed w) (aw_last w) (aw_heap w) (aw_status w) true (aw_loop w) (aw_handlers w) (aw_trace w).
Definition Close (w : Window) : Window :=
  set_own (mkOwnResources false (or_root (aw_own w)) ((fun _ => true) <$> or_query (aw_own w))) (mark_closed (cancel_run (withdraw true w))).
Inductive window_move :=
| WmEnable (client : string)
| WmLoop (ev : loop_event)
| WmMonitor (reply : result verr host_info)
| WmExpire
| WmServe (k : nat) (r : http_request) (body : form)
| WmHandler (k : nat) (a : answer)
| WmClose.
(** The time allowed to a run cancels it like the monitor does; a handler number is used once. *)
Definition window_step (w : Window) (m : window_move) : Window :=
  match m with
  | WmEnable c => EnableResources c w
  | WmLoop ev => loop_step ev w
  | WmMonitor reply => monitor reply w
  | WmExpire => match aw_loop w with LRun _ _ | LChunks _ _ _ _ => cancel_run w | _ => w end
  | WmServe k r body => match aw_handlers w !! k with None => serve k r body w | Some _ => w end
  | WmHandler k a => handler_step k a w
  | WmClose => Close w
  end.
Definition window_run (w : Window) (l : list window_move) : Window := foldl window_step w l.
End pages.

(** ** What stands *)

(** The abstract view: what stands after a list of acts. *)
Record standing := mkStanding { st_grants : grants; st_used : bool; st_on : bool }.
Definition stand (s : standing) (x : window_act) : standing :=
  let g := st_grants s in let u := st_used s in let on := st_on s in
  match x with
  | WaAccount _ id a ap => mkStanding (grant_account a (if ap then id else gr_append g) g) u true
  | WaGit _ _ i => mkStanding (grant_git i g) u on
  | WaChecked _ _ ptr => mkStanding (grant_push (Some ptr) "" g) u on
  | WaPushGrant _ id _ => mkStanding (grant_push (gr_push g) id g) u on
  | WaEnabled _ _ => mkStanding g u true
  | WaWithdrawn off => mkStanding no_grants false (negb off && on)
  | WaAccountCleared => mkStanding (grant_account "" "" g) u on
  | WaPushCleared => mkStanding (grant_push None "" g) false on
  | WaPushStart _ _ _ => mkStanding g true on
  | _ => s
  end.
Definition stands (t : list window_act) : standing := foldl stand (mkStanding no_grants false false) t.
Lemma stands_snoc t x : stands (t ++ [x]) = stand (stands t) x.
Proof. unfold stands. by rewrite foldl_app. Qed.
(** Whatever holds of a fold in the end, and not at its start, began to hold with some act and has held since. *)
Lemma held_since {A B} (f : B -> A -> B) (P : B -> Prop) `{forall b, Decision (P b)} b l : P (foldl f b l) -> ~ P b ->
  exists l1 x l2, l = l1 ++ x :: l2 /\ ~ P (foldl f b l1) /\ forall l3 l4, l2 = l3 ++ l4 -> P (foldl f b (l1 ++ x :: l3)).
Proof.
  intros Pl Nb. induction l as [|y l IH] using rev_ind; [done|]. destruct (decide (P (foldl f b l))) as [Pm|Nm].
  - destruct (IH Pm) as (l1 & x & l2 & -> & N & F). exists l1, x, (l2 ++ [y]). split; [by rewrite <- app_assoc|]. split; [done|].
    intros l3 l4 E. destruct l4 as [|z l4 _] using rev_ind.
    + rewrite app_nil_r in E. subst l3. by rewrite app_comm_cons, app_assoc.
    + rewrite app_assoc in E. apply app_inj_tail in E as [E _]. by eapply F.
  - exists l, y, []. split_and!; [done|done|]. intros l3 l4 E. symmetry in E. apply app_eq_nil in E as [-> _]. done.
Qed.
(** An act after which [P] never holds did not happen since. *)
Lemma never_since (P : standing -> Prop) (bad : window_act -> Prop) l1 x l2 :
  (forall l3 l4, l2 = l3 ++ l4 -> P (stands (l1 ++ x :: l3))) -> (forall s y, bad y -> ~ P (stand s y)) -> Forall (fun y => ~ bad y) l2.
Proof.
  intros F B. apply Forall_forall. intros y Hy By. apply list_elem_of_split in Hy as (l3 & l4 & ->).
  assert (Py : P (stands (l1 ++ x :: l3 ++ [y]))) by (apply (F _ l4); by rewrite <- app_assoc).
  rewrite app_comm_cons, app_assoc, stands_snoc in Py. by eapply B.
Qed.

Section approvals.
Context (addr token : string).
(** A decision came from the page with the token, on this machine. *)
Definition from_page (r : http_request) : Prop :=
  ht_Host r = addr /\ ht_Origin r = "http://" +:+ addr /\ ht_Method r = "POST" /\ (ht_Path r = token +:+ "personal" \/ ht_Path r = token +:+ "resources").
(** The approval at [ptr] is for this request, and for the offer [o]. *)
Definition approves (heap : list Approval) (ptr : nat) (id : string) (o : Offer) : Prop :=
  exists a, heap !! ptr = Some a /\ ap_ID a = id /\ SameOffer (ap_Offer a) o = true.
Definition push_act (x : window_act) : bool := match x with WaPushStart _ _ _ | WaPushed _ _ _ => true | _ => false end.
Definition withdrawn (x : window_act) : bool := match x with WaWithdrawn _ => true | _ => false end.
(** The push of [ptr] has started and was not carried out; while its context lives nothing was withdrawn. *)
Definition under_way (t : list window_act) (id : string) (ptr : nat) (o : Offer) (live : bool) : Prop :=
  exists u1 u2, t = u1 ++ WaPushStart id ptr o :: u2 /\ Forall (fun y => push_act y = false) u2 /\ (live = true -> Forall (fun y => withdrawn y = false) u2).
Definition lawful (heap : list Approval) (t : list window_act) (x : window_act) : Prop :=
  let s := stands t in let g := st_grants s in
  match x with
  | WaAccount r _ _ _ | WaGit r _ _ | WaChecked r _ _ | WaEnabled r _ => from_page r
  | WaPushGrant r id gh => from_page r /\ exists ptr a, gr_push g = Some ptr /\ heap !! ptr = Some a /\ ap_ID a = id /\ ac_ID (ap_Account a) = gh
  | WaWithdrawn _ | WaAccountCleared | WaPushCleared => True
  | WaRun q => gr_account g = rr_AccountID q /\ rr_AccountID q <> "" /\ (rr_Action q = "feishu.append" -> gr_append g = rr_RequestID q)
  | WaIdentity _ i => gr_git g = Some i
  | WaPushStart id ptr o => gr_push g = Some ptr /\ gr_pushGranted g = id /\ st_used s = false /\ approves heap ptr id o
  | WaPushed ptr pack live => exists id o, under_way t id ptr o live /\ len pack = of_PackSize o
  | WaQuery r mode _ root => from_page r /\ (mode = "personal" -> st_on s = true) /\ (root = "" \/ exists r', WaEnabled r' root ∈ t)
  end.
Record core (heap : list Approval) (t : list window_act) (g : grants) (o : own_resources) : Prop := mk_core
  { co_grants : g = st_grants (stands t);
    co_on : or_enabled o = st_on (stands t);
    co_root : or_root o = "" \/ exists r, WaEnabled r (or_root o) ∈ t;
    co_law : forall t1 x t2, t = t1 ++ x :: t2 -> lawful heap t1 x }.
Definition loop_ok (l : loop_point) (heap : list Approval) (t : list window_act) (run : option bool) : Prop :=
  (st_used (stands t) = true -> match l with LChunks _ _ _ _ | LDeliver _ _ => True | _ => False end) /\
  match l with
  | LReceipt p o (Some ptr) | LStart p o ptr => approves heap ptr (pq_ID p) o /\ 0 <= of_PackSize o
  | LReceipt p o None => 0 <= of_PackSize o
  | LChunks p o ptr pack => len pack <= of_PackSize o /\ exists cancelled, run = Some cancelled /\ under_way t (pq_ID p) ptr o (negb cancelled)
  | _ => True
  end.
Definition handler_ok (h : handler_point) : Prop :=
  match h with HCheck r _ | HPushGrant r _ _ | HGit r _ _ | HIdentity r _ _ => from_page r | _ => True end.
Record window_inv (w : Window) : Prop := mk_window_inv
  { wv_core : core (aw_heap w) (aw_trace w) (aw_grants w) (aw_own w);
    wv_loop : loop_ok (aw_loop w) (aw_heap w) (aw_trace w) (aw_run w);
    wv_handlers : map_Forall (fun _ => handler_ok) (aw_handlers w) }.

Lemma approves_more heap h ptr id o : approves heap ptr id o -> approves (heap ++ h) ptr id o.
Proof. intros (a & Ha & R). exists a. split; [|done]. by apply lookup_app_l_Some. Qed.
Lemma lawful_more heap h t x : lawful heap t x -> lawful (heap ++ h) t x.
Proof.
  destruct x; cbn; try done.
  - intros (P & q & a & G & Ha & R). split; [done|]. exists q, a. split; [done|]. split; [by apply lookup_app_l_Some|done].
  - intros (G & I & U & A). split_and!; try done. by apply approves_more.
Qed.
(** One more act. *)
Lemma core_act heap h t x g o o' : core heap t g o -> lawful (heap ++ h) t x -> or_enabled o' = st_on (stand (stands t) x) ->
  (or_root o' = or_root o \/ or_root o' = "" \/ exists r, x = WaEnabled r (or_root o')) ->
  core (heap ++ h) (t ++ [x]) (st_grants (stand (stands t) x)) o'.
Proof.
  intros [G On R L] La E Ro. split.
  - by rewrite stands_snoc.
  - by rewrite stands_snoc.
  - destruct Ro as [->|[->|[r ->]]]; [|by left|right; exists r; apply elem_of_app; right; by apply list_elem_of_singleton].
    destruct R as [R|[r R]]; [by left|right; exists r; by apply elem_of_app; left].
  - intros t1 y t2 Et. destruct t2 as [|z t2 _] using rev_ind.
    + by apply app_inj_tail in Et as [<- <-].
    + rewrite app_comm_cons, app_assoc in Et. apply app_inj_tail in Et as [Et _]. apply lawful_more. by eapply L.
Qed.
Lemma core_did heap t x g o : core heap t g o -> lawful heap t x -> st_grants (stand (stands t) x) = st_grants (stands t) ->
  st_on (stand (stands t) x) = st_on (stands t) -> core heap (t ++ [x]) g o.
Proof.
  intros C La E On. rewrite (co_grants _ _ _ _ C), <- E, <- (app_nil_r heap). eapply core_act; [exact C|by rewrite app_nil_r|rewrite On; by apply C|by left].
Qed.
(** What is under way stays so, whatever a page does; what is withdrawn cancels it. *)
Lemma under_way_more t id ptr o live live' x : under_way t id ptr o live -> push_act x = false -> (live' = true -> live = true /\ withdrawn x = false) ->
  under_way (t ++ [x]) id ptr o live'.
Proof.
  intros (u1 & u2 & -> & N & W) P L. exists u1, (u2 ++ [x]). split; [by rewrite <- app_assoc|]. split; [apply Forall_app; by repeat constructor|].
  intros E. destruct (L E) as [L1 L2]. apply Forall_app. split; [by apply W|by repeat constructor].
Qed.
Lemma loop_ok_act l heap h t run run' x : loop_ok l heap t run -> push_act x = false ->
  (run' = run /\ withdrawn x = false \/ run' = (fun _ => true) <$> run) -> loop_ok l (heap ++ h) (t ++ [x]) run'.
Proof.
  intros [U K] P R. split.
  - rewrite stands_snoc. intros H. apply U. destruct x; cbn in H |- *; done.
  - destruct l; try done.
    + destruct granted; [|done]. destruct K as [A S]. split; [by apply approves_more|done].
    + destruct K as [A S]. split; [by apply approves_more|done].
    + destruct K as [S (cancelled & E & Uw)]. split; [done|]. subst run. destruct R as [[-> W]| ->].
      * exists cancelled. split; [done|]. eapply under_way_more; [exact Uw|done|done].
      * exists true. split; [done|]. eapply under_way_more; [exact Uw|done|]. cbn. done.
Qed.
Definition simple (l : loop_point) : bool := match l with LReceipt _ _ _ | LStart _ _ _ | LChunks _ _ _ _ => false | _ => true end.
Lemma simple_ok l heap t run : simple l = true -> st_used (stands t) = false -> loop_ok l heap t run.
Proof. intros S U. split; [by rewrite U|by destruct l]. Qed.
Lemma not_used l heap t run : loop_ok l heap t run -> match l with LChunks _ _ _ _ | LDeliver _ _ => False | _ => True end -> st_used (stands t) = false.
Proof. intros [U _] N. destruct (st_used (stands t)); [|done]. specialize (U eq_refl). by destruct l. Qed.
(** Only the core of a window is a matter of what its fields are. *)
Lemma core_withdraw heap t g o o' off : core heap t g o -> or_enabled o' = negb off && or_enabled o -> or_root o' = or_root o \/ or_root o' = "" ->
  core heap (t ++ [WaWithdrawn off]) no_grants o'.
Proof.
  intros C E R. change no_grants with (st_grants (stand (stands t) (WaWithdrawn off))). rewrite <- (app_nil_r heap).
  eapply core_act; [exact C|done|by rewrite E, (co_on _ _ _ _ C)|tauto].
Qed.
Lemma core_clear_push heap t g o : core heap t g o -> core heap (t ++ [WaPushCleared]) (grant_push None "" g) o.
Proof.
  intros C. rewrite (co_grants _ _ _ _ C), <- (app_nil_r heap). change (grant_push None "" ?g) with (st_grants (stand (stands t) WaPushCleared)).
  eapply core_act; [exact C|done|by apply C|by left].
Qed.
Lemma core_clear_account heap t g o : core heap t g o -> core heap (t ++ [WaAccountCleared]) (grant_account "" "" g) o.
Proof.
  intros C. rewrite (co_grants _ _ _ _ C), <- (app_nil_r heap). change (grant_account "" "" ?g) with (st_grants (stand (stands t) WaAccountCleared)).
  eapply core_act; [exact C|done|by apply C|by left].
Qed.
Lemma window_personalStep c reply w : aw_loop w = LAsked c -> window_inv w -> window_inv (personalStep reply w).
Proof.
  intros A [C L H]. rewrite A in L. pose proof (not_used _ _ _ _ L I) as U.
  assert (W : window_inv (at_loop LIdle (set_pending None (withdraw false w)))).
  { split; [|apply simple_ok; [done|]; cbn; by rewrite stands_snoc|done]. eapply core_withdraw; [exact C|done|by left]. }
  assert (S : forall l t p, simple l = true -> window_inv (at_loop l (set_status t (set_pending p w)))) by (intros l t p Sl; split; [done|by apply simple_ok|done]).
  unfold personalStep. destruct reply as [i|e]; [|exact W]. destruct (own_mode i); cbn [negb]; [|exact W]. destruct (hi_Personal i) as [p|].
  - destruct (String.eqb (pq_Action p) "git.push"); [by apply (S (LPush p) (aw_status w) (Some p))|].
    destruct (String.eqb (pq_Action p) "git.commit").
    { cbn [set_pending aw_grants]. destruct (gr_git (aw_grants w)) as [i'|] eqn:G; [|by apply S].
      split; [|apply simple_ok; [done|]; cbn; by rewrite stands_snoc|done].
      eapply core_did; [exact C|unfold lawful; cbv zeta; cbn [set_pending aw_trace]; by rewrite <- (co_grants _ _ _ _ C)|done|done]. }
    destruct (existsb (String.eqb (pq_Action p)) ["" ; "feishu.create"; "feishu.append"]); cbn [negb]; [|by apply S].
    cbn [set_pending aw_grants]. destruct (String.eqb (gr_account (aw_grants w)) "") eqn:Ac; cbn [orb]; [by apply S|].
    destruct (String.eqb (pq_Action p) "feishu.append" && negb (String.eqb (gr_append (aw_grants w)) (pq_ID p))) eqn:Ap; [by apply S|].
    split; [|apply simple_ok; [done|]; cbn; by rewrite stands_snoc|done].
    eapply core_did; [exact C| |done|done]. unfold lawful; cbv zeta; cbn [set_pending set_status set_run aw_trace]; rewrite <- (co_grants _ _ _ _ C). split; [done|]. split; [by intros E; cbn in E; rewrite E in Ac|].
    cbn [document_request rr_Action rr_RequestID]. destruct (String.eqb (pq_Action p) "") eqn:E0; [done|]. intros E. rewrite E in Ap. cbn in Ap. by apply negb_false_iff, String.eqb_eq in Ap.
  - split; [|apply simple_ok; [done|]; cbn; by rewrite stands_snoc|done]. by eapply core_clear_push.
Qed.
Lemma push_granted_approves p o w ptr : push_granted p o w = Some ptr -> approves (aw_heap w) ptr (pq_ID p) o.
Proof.
  unfold push_granted. destruct (gr_push (aw_grants w)) as [q|]; cbn [mbind option_bind]; [|done]. destruct (aw_heap w !! q) as [a|] eqn:Ha; cbn [mbind option_bind]; [|done].
  destruct (String.eqb (ap_ID a) (pq_ID p)) eqn:E; cbn [andb]; [|done]. destruct (String.eqb (gr_pushGranted _) _); cbn [andb]; [|done]. destruct (SameOffer (ap_Offer a) o) eqn:So; [|done].
  intros X. injection X as <-. exists a. apply String.eqb_eq in E. done.
Qed.
Lemma offer_size o : is_ok (Offer_Validate o) = true -> 0 <= of_PackSize o.
Proof. unfold Offer_Validate, result_bind, refused_if. destruct (PushInput_Validate (of_Input o)); [|done]. case_match eqn:E; [done|]. intros _. lia. Qed.
Lemma window_push_begin p w : aw_loop w = LPush p -> window_inv w -> window_inv (push_begin p w).
Proof.
  intros A [C L H]. rewrite A in L. pose proof (not_used _ _ _ _ L I) as U. unfold push_begin.
  destruct (pq_Push p) as [o|]; [destruct (is_ok (Offer_Validate o)) eqn:V|]; (split; [done| |done]); try (by apply simple_ok).
  cbn. split; [by rewrite U|]. apply offer_size in V. destruct (push_granted p o w) eqn:G; [|done]. split; [by apply push_granted_approves|done].
Qed.
Lemma window_push_receipt p o granted saved w : aw_loop w = LReceipt p o granted -> window_inv w -> window_inv (push_receipt p o granted saved w).
Proof.
  intros A [C L H]. rewrite A in L. pose proof (not_used _ _ _ _ L I) as U. unfold push_receipt.
  destruct saved as [[r|]|e]; try (split; [done|by apply simple_ok|done]). destruct granted as [ptr|].
  - split; [done| |done]. cbn. split; [by rewrite U|]. by destruct L.
  - destruct (String.eqb (aw_failed w) (pq_ID p)); (split; [done|by apply simple_ok|done]).
Qed.
Lemma window_push_start p o ptr w : aw_loop w = LStart p o ptr -> window_inv w -> window_inv (push_start p o ptr w).
Proof.
  intros A [C L H]. rewrite A in L. pose proof (not_used _ _ _ _ L I) as U. destruct L as [_ [Ap Sz]]. unfold push_start.
  case_bool_decide as G; cbn [negb orb]; [|split; [done|by apply simple_ok|done]].
  destruct (String.eqb (gr_pushGranted (aw_grants w)) (pq_ID p)) eqn:E; cbn [negb]; [|split; [done|by apply simple_ok|done]]. apply String.eqb_eq in E.
  split; [| |done].
  - eapply core_did; [exact C| |done|done]. unfold lawful; cbv zeta; cbn [set_pending set_status set_run aw_trace]; rewrite <- (co_grants _ _ _ _ C). by split_and!.
  - cbn. split; [done|]. split; [done|]. exists false. split; [done|]. exists (aw_trace w), []. split_and!; [done|constructor|constructor].
Qed.
(** The end of a push clears the grant, however it went. *)
Lemma window_push_failed p why w : core (aw_heap w) (aw_trace w) (aw_grants w) (aw_own w) -> map_Forall (fun _ => handler_ok) (aw_handlers w) -> window_inv (push_failed p why w).
Proof. intros C H. split; [by apply core_clear_push|apply simple_ok; [done|]; cbn; by rewrite stands_snoc|done]. Qed.
Lemma window_deliver p r ok w : aw_loop w = LDeliver p r -> window_inv w -> window_inv (deliverPush r ok w).
Proof.
  intros A [C L H]. assert (U : st_used (stands (aw_trace w ++ [WaPushCleared])) = false) by by rewrite stands_snoc.
  unfold deliverPush. destruct ok; cbn [negb]; (split; [by apply core_clear_push|by apply simple_ok|done]).
Qed.
Lemma window_push_chunk p o ptr pack reply w : aw_loop w = LChunks p o ptr pack -> window_inv w -> window_inv (push_chunk p o ptr pack reply w).
Proof.
  intros A I. pose proof I as [C L H]. rewrite A in L. unfold push_chunk. destruct (of_PackSize o <=? len pack) eqn:Sz; [done|].
  destruct reply as [i|e]; [|by apply window_push_failed]. destruct (own_mode i); cbn [andb]; [|by apply window_push_failed].
  destruct (len (hi_PushData i) =? chunk_size o pack) eqn:Cs; [|by apply window_push_failed].
  split; [done| |done]. destruct L as [U (S & R)]. split; [done|]. cbn. split; [|done]. rewrite len_app. unfold chunk_size in Cs. lia.
Qed.
Lemma window_push_execute p o ptr pack res w : aw_loop w = LChunks p o ptr pack -> window_inv w -> window_inv (push_execute p o ptr pack res w).
Proof.
  intros A I. pose proof I as [C L H]. rewrite A in L. unfold push_execute. destruct (len pack <? of_PackSize o) eqn:Sz; [done|].
  destruct L as [U (S & cancelled & R & Uw)].
  assert (C' : core (aw_heap w) (aw_trace w ++ [WaPushed ptr pack (bool_decide (aw_run w = Some false))]) (aw_grants w) (aw_own w)).
  { eapply core_did; [exact C| |done|done]. exists (pq_ID p), o. split; [|lia]. rewrite R. destruct cancelled; exact Uw. }
  destruct res as [r|e]; [|by apply window_push_failed]. split; [exact C'| |done]. split; [done|done].
Qed.
Lemma window_document_run p q text w : aw_loop w = LRun p q -> window_inv w -> window_inv (document_run p text w).
Proof.
  intros A [C L H]. rewrite A in L. pose proof (not_used _ _ _ _ L I) as U. unfold document_run.
  destruct (match text with Ok t => dec_create_receipt t | Err _ => None end) as [c|].
  - split; [done|by apply simple_ok|done].
  - split; [by apply core_clear_account|apply simple_ok; [done|]; cbn; by rewrite stands_snoc|done].
Qed.
Lemma cancel_run_cases w : aw_run (cancel_run w) = (fun _ => true) <$> aw_run w.
Proof. unfold cancel_run. by destruct (aw_run w) eqn:E. Qed.
Lemma cancel_run_same w : aw_heap (cancel_run w) = aw_heap w /\ aw_trace (cancel_run w) = aw_trace w /\ aw_grants (cancel_run w) = aw_grants w
  /\ aw_own (cancel_run w) = aw_own w /\ aw_loop (cancel_run w) = aw_loop w /\ aw_handlers (cancel_run w) = aw_handlers w.
Proof. unfold cancel_run. by destruct (aw_run w). Qed.
Lemma loop_ok_cancelled l heap t run : loop_ok l heap t run -> loop_ok l heap t ((fun _ => true) <$> run).
Proof.
  intros [U K]. split; [done|]. destruct l; try done. destruct K as [S (c & -> & u1 & u2 & E & N & _)]. split; [done|]. exists true. split; [done|].
  exists u1, u2. done.
Qed.
Lemma window_cancel w : window_inv w -> window_inv (cancel_run w).
Proof.
  intros [C L H]. destruct (cancel_run_same w) as (Eh & Et & Eg & Eo & El & Ehs). split; rewrite ?Eh, ?Et, ?Eg, ?Eo, ?El, ?Ehs; [done| |done].
  rewrite cancel_run_cases. by apply loop_ok_cancelled.
Qed.
Lemma window_loop_step ev w : window_inv w -> window_inv (loop_step ev w).
Proof.
  intros I. assert (Q : forall l r, match aw_loop w with LChunks _ _ _ _ | LDeliver _ _ => False | _ => True end -> simple l = true -> window_inv (at_loop l (set_run r w))).
  { intros l r N S. pose proof I as [C L H]. split; [done|apply simple_ok; [done|by eapply not_used]|done]. }
  destruct ev; cbn [loop_step]; destruct (aw_loop w) eqn:A; try exact I.
  - unfold tick. destruct (aw_client w); [|exact I]. by apply (Q (LAsked _) (aw_run w)).
  - by eapply window_personalStep.
  - unfold identity_sent. destruct ok; pose proof (Q LIdle (aw_run w) Logic.I eq_refl) as [C L H]; by split.
  - unfold receipt_sent. destruct ok; pose proof (Q LFree (aw_run w) Logic.I eq_refl) as [C L H]; by split.
  - by eapply window_deliver.
  - by eapply window_document_run.
  - by eapply window_push_receipt.
  - by apply window_push_begin.
  - by apply window_push_start.
  - by apply (Q LIdle None).
  - by apply window_push_chunk.
  - by apply window_push_execute.
  - destruct (aw_closed w); [|exact I]. by apply (Q LEnded (aw_run w)).
Qed.
Lemma window_monitor reply w : window_inv w -> window_inv (monitor reply w).
Proof. intros I. unfold monitor. destruct (aw_loop w); try exact I; destruct (still_asked _ reply); try exact I; by apply window_cancel. Qed.
(** ** The invariant on the pages *)

Lemma window_act_more h x w w' : window_inv w -> aw_heap w' = aw_heap w ++ h -> aw_trace w' = aw_trace w ++ [x] ->
  aw_grants w' = st_grants (stand (stands (aw_trace w)) x) -> or_enabled (aw_own w') = st_on (stand (stands (aw_trace w)) x) ->
  (or_root (aw_own w') = or_root (aw_own w) \/ or_root (aw_own w') = "" \/ exists r, x = WaEnabled r (or_root (aw_own w'))) ->
  push_act x = false -> (aw_run w' = aw_run w /\ withdrawn x = false \/ aw_run w' = (fun _ => true) <$> aw_run w) -> aw_loop w' = aw_loop w ->
  lawful (aw_heap w ++ h) (aw_trace w) x -> map_Forall (fun _ => handler_ok) (aw_handlers w') -> window_inv w'.
Proof.
  intros [C L H] Eh Et Eg On Ro P R El La H'. split; [| |done].
  - rewrite Eh, Et, Eg. by eapply core_act.
  - rewrite Eh, Et, El. by eapply loop_ok_act.
Qed.
Lemma window_handler k h w : window_inv w -> handler_ok h -> window_inv (at_handler k h w).
Proof. intros [C L H] O. split; [done|done|]. by apply map_Forall_insert_2. Qed.
Lemma handler_of w k h : window_inv w -> aw_handlers w !! k = Some h -> handler_ok h.
Proof. intros [_ _ H] E. exact (H k h E). Qed.
Lemma done_ok w k s t : window_inv w -> map_Forall (fun _ => handler_ok) (<[k := HDone s t]> (aw_handlers w)).
Proof. intros [_ _ H]. by apply map_Forall_insert_2. Qed.
Ltac page_act x h := eapply (window_act_more h x); try done; try (match goal with J : window_inv ?w |- map_Forall _ _ => exact (done_ok w _ _ _ J) end); try (by rewrite app_nil_r); auto.
Lemma window_land_check k r p res w : from_page r -> window_inv w -> window_inv (land_check k r p res w).
Proof.
  intros Pg I. pose proof I as [C L H]. unfold land_check. destruct res as [a|e]; [|by apply window_handler].
  destruct (negb _); [by apply window_handler|]. page_act (WaChecked r (pq_ID p) (length (aw_heap w))) [a].
  - cbn. by rewrite <- (co_grants _ _ _ _ C).
  - cbn. by rewrite (co_on _ _ _ _ C).
Qed.
Lemma window_land_push_grant k r p gh w : from_page r -> window_inv w -> window_inv (land_push_grant k r p gh w).
Proof.
  intros Pg I. pose proof I as [C L H]. unfold land_push_grant. destruct (negb (String.eqb _ _) || _ || _) eqn:G; [by apply window_handler|].
  apply orb_false_elim in G as [_ G%negb_false_iff].
  page_act (WaPushGrant r (pq_ID p) gh) (@nil Approval).
  - cbn. by rewrite <- (co_grants _ _ _ _ C).
  - cbn. by rewrite (co_on _ _ _ _ C).
  - split; [done|]. rewrite <- (co_grants _ _ _ _ C), app_nil_r. destruct (gr_push (aw_grants w)) as [ptr|]; [|done]. cbn in G.
    destruct (aw_heap w !! ptr) as [a|] eqn:Ha; [|done]. apply andb_prop in G as [E%String.eqb_eq F%Z.eqb_eq]. by exists ptr, a.
Qed.
Lemma window_land_git k r p i w : from_page r -> window_inv w -> window_inv (land_git k r p i w).
Proof.
  intros Pg I. pose proof I as [C L H]. unfold land_git. destruct (negb _); [by apply window_handler|]. page_act (WaGit r (pq_ID p) i) (@nil Approval).
  - cbn. by rewrite <- (co_grants _ _ _ _ C).
  - cbn. by rewrite (co_on _ _ _ _ C).
Qed.
Lemma window_land_identity k r p a who w : from_page r -> window_inv w -> window_inv (land_identity k r p a who w).
Proof.
  intros Pg I. pose proof I as [C L H]. unfold land_identity. destruct (negb _); [by apply window_handler|]. destruct (negb _); [by apply window_handler|].
  page_act (WaAccount r (pq_ID p) a (String.eqb (pq_Action p) "feishu.append")) (@nil Approval). cbn. by rewrite <- (co_grants _ _ _ _ C).
Qed.
Lemma window_land_decline k sent w : window_inv w -> window_inv (land_decline k sent w).
Proof.
  intros I. pose proof I as [C L H]. unfold land_decline. destruct sent; cbn [negb]; [|by apply window_handler]. page_act WaPushCleared (@nil Approval).
  - cbn. by rewrite <- (co_grants _ _ _ _ C).
  - cbn. by rewrite (co_on _ _ _ _ C).
Qed.
Lemma window_land_query k f reply saved w : window_inv w -> window_inv (land_query k f reply saved w).
Proof.
  intros [C L H]. unfold land_query.
  assert (O : forall h, handler_ok h -> window_inv (at_handler k h (set_own (mkOwnResources (or_enabled (aw_own w)) (or_root (aw_own w)) None) w))).
  { intros h Oh. apply window_handler; [|done]. split; [|done|done]. destruct C as [G On R La]. by split. }
  destruct reply as [t|e]; [by apply O|]. destruct saved; [destruct (IsWrite _)|]; by apply O.
Qed.
Lemma window_handler_step k a w : window_inv w -> window_inv (handler_step k a w).
Proof.
  intros I. unfold handler_step. destruct (aw_handlers w !! k) as [h|] eqn:E; [|done]. pose proof (handler_of w k h I E) as O.
  destruct h, a; try exact I.
  - by apply window_handler.
  - by apply window_land_check.
  - by apply window_land_push_grant.
  - by apply window_land_git.
  - by apply window_land_identity.
  - by apply window_land_decline.
  - by apply window_land_query.
Qed.
Lemma guarded_page r path : guard_request addr token r = None -> String.eqb (ht_Method r) "GET" = false -> same_page r = true ->
  ht_Path r = token +:+ path -> path = "personal" \/ path = "resources" -> from_page r.
Proof.
  unfold guard_request, same_page. intros G M S P Pp. destruct (String.eqb (ht_Host r) addr) eqn:Eh; [|done]. cbn [negb] in G. apply String.eqb_eq in Eh.
  destruct (negb (String.eqb (ht_Origin r) "") && negb (String.eqb (ht_Origin r) ("http://" +:+ ht_Host r))); [done|].
  rewrite M in G. cbn [negb andb] in G. destruct (String.eqb (ht_Method r) "POST") eqn:Em; [|done]. apply String.eqb_eq in Em, S.
  rewrite Eh in S. split_and!; try done. destruct Pp as [->| ->]; [by left|by right].
Qed.
Lemma decide_point_ok r p d : from_page r -> handler_ok (decide_point r p d).
Proof. intros Pg. unfold decide_point. repeat case_match; done. Qed.
Lemma servePersonal_ok r d w : guard_request addr token r = None -> ht_Path r = token +:+ "personal" -> handler_ok (servePersonal r d w).
Proof.
  intros G P. unfold servePersonal. destruct (String.eqb (ht_Method r) "GET") eqn:M; [done|]. destruct (negb (String.eqb _ _) || negb (same_page r)) eqn:S; [done|].
  apply orb_false_elim in S as [_ S%negb_false_iff]. destruct d as [d|]; [|done]. destruct (existsb _ _); [done|]. destruct (aw_pending w) as [p|]; [|done].
  destruct (_ || _ || _); [done|]. apply decide_point_ok. eapply guarded_page; eauto.
Qed.
Lemma window_grant_resources k r en root s t w : from_page r -> window_inv w -> window_inv (at_handler k (HDone s t) (grant_resources r en root w)).
Proof.
  intros Pg I. pose proof I as [C L H]. unfold grant_resources. destruct (cancel_run_same (withdraw true w)) as (Eh & Et & Eg & Eo & El & Ehs). destruct en.
  - page_act (WaEnabled r root) (@nil Approval).
    + cbn. by rewrite <- (co_grants _ _ _ _ C).
    + right. right. by exists r.
  - eapply (window_act_more [] (WaWithdrawn true) w); cbn -[cancel_run]; rewrite ?Eh, ?Et, ?Eg, ?El, ?Ehs, ?app_nil_r; try done; auto.
    + right. rewrite cancel_run_cases. done.
    + by apply (done_ok w).
Qed.
Lemma window_serveResources k r f w : guard_request addr token r = None -> ht_Path r = token +:+ "resources" -> window_inv w -> window_inv (serveResources k r f w).
Proof.
  intros G P I. pose proof I as [C L H]. unfold serveResources. case_bool_decide; [by apply window_handler|].
  destruct (String.eqb (ht_Method r) "GET") eqn:M; [by apply window_handler|]. destruct (same_page r) eqn:S; cbn [negb]; [|by apply window_handler].
  assert (Pg : from_page r) by (eapply guarded_page; eauto). destruct f as [f|]; [|by apply window_handler].
  destruct (existsb _ _); [by apply window_handler|]. destruct (String.eqb (rf_Action f) "grant").
  { destruct (_ && _ && _); [by apply window_handler|]. by apply window_grant_resources. }
  destruct (_ || _); [by apply window_handler|]. destruct (_ && _); [by apply window_handler|].
  destruct (bool_decide _ || _) eqn:Bu; [by apply window_handler|]. apply orb_false_elim in Bu as [_ Bu].
  page_act (WaQuery r (rf_Mode f) (rf_Resource f) (or_root (aw_own w))) (@nil Approval).
  - cbn. by rewrite <- (co_grants _ _ _ _ C).
  - cbn. by rewrite (co_on _ _ _ _ C).
  - rewrite app_nil_r. split; [done|]. split; [|exact (co_root _ _ _ _ C)]. intros E. rewrite E in Bu. cbn in Bu. apply negb_false_iff in Bu. by rewrite <- (co_on _ _ _ _ C).
  - by apply map_Forall_insert_2.
Qed.
Lemma window_serve k r b w : window_inv w -> window_inv (serve addr token k r b w).
Proof.
  intros I. unfold serve. destruct (guard_request addr token r) as [[s t]|] eqn:G; [by apply window_handler|]. destruct b as [d|f].
  - destruct (String.eqb _ _) eqn:P; [|by apply window_handler]. apply String.eqb_eq in P. apply window_handler; [done|]. by apply servePersonal_ok.
  - destruct (String.eqb _ _) eqn:P; [|by apply window_handler]. apply String.eqb_eq in P. by apply window_serveResources.
Qed.
Lemma window_Close w : window_inv w -> window_inv (Close w).
Proof.
  intros I. pose proof I as [C L H]. destruct (cancel_run_same (withdraw true w)) as (Eh & Et & Eg & Eo & El & Ehs).
  eapply (window_act_more [] (WaWithdrawn true) w); unfold Close; cbn -[cancel_run]; rewrite ?Eh, ?Et, ?Eg, ?Eo, ?El, ?Ehs, ?app_nil_r; try done; auto.
  right. rewrite cancel_run_cases. done.
Qed.
Lemma window_inv_step w m : window_inv w -> window_inv (window_step addr token w m).
Proof.
  intros I. destruct m; cbn [window_step].
  - unfold EnableResources. destruct (aw_client w); [done|]. by destruct I.
  - by apply window_loop_step.
  - by apply window_monitor.
  - destruct (aw_loop w); try exact I; by apply window_cancel.
  - destruct (aw_handlers w !! k); [done|]. by apply window_serve.
  - by apply window_handler_step.
  - by apply window_Close.
Qed.
Lemma window_inv_run l w : window_inv w -> window_inv (window_run addr token w l).
Proof. revert w. induction l as [|m l IH]; intros w I; [done|]. by apply IH, window_inv_step. Qed.
Lemma window_inv_new : window_inv new_window.
Proof.
  split; [|by apply simple_ok|apply map_Forall_empty]. split; [done|done|by left|]. intros t1 x t2 E. by destruct t1.
Qed.

(** ** Nothing is done that was not agreed to *)

(** Something was decided, and since then nothing that takes it back. *)
Definition agreed_since (t : list window_act) (made bad : window_act -> Prop) : Prop :=
  exists u1 y u2, t = u1 ++ y :: u2 /\ made y /\ Forall (fun z => ~ bad z) u2.
Definition ends_account (a : string) (y : window_act) : Prop := match y with WaWithdrawn _ | WaAccountCleared => True | WaAccount _ _ b _ => b <> a | _ => False end.
Definition ends_append (y : window_act) : Prop := match y with WaWithdrawn _ | WaAccountCleared => True | _ => False end.
Definition ends_git (i : GitIdentity) (y : window_act) : Prop := match y with WaWithdrawn _ => True | WaGit _ _ j => j <> i | _ => False end.
Definition ends_push (y : window_act) : Prop := match y with WaChecked _ _ _ | WaPushCleared | WaWithdrawn _ | WaPushStart _ _ _ => True | _ => False end.
Definition agreed (heap : list Approval) (t : list window_act) (x : window_act) : Prop :=
  match x with
  | WaAccount r _ _ _ | WaGit r _ _ | WaChecked r _ _ | WaPushGrant r _ _ | WaEnabled r _ => from_page r
  | WaWithdrawn _ | WaAccountCleared | WaPushCleared => True
  | WaRun q =>
      agreed_since t (fun y => exists r id ap, y = WaAccount r id (rr_AccountID q) ap /\ from_page r) (ends_account (rr_AccountID q))
      /\ (rr_Action q = "feishu.append" -> rr_RequestID q <> "" ->
          agreed_since t (fun y => exists r a, y = WaAccount r (rr_RequestID q) a true /\ from_page r) ends_append)
  | WaIdentity _ i => agreed_since t (fun y => exists r id, y = WaGit r id i /\ from_page r) (ends_git i)
  | WaPushStart id ptr o => id <> "" -> exists a, heap !! ptr = Some a /\ ap_ID a = id /\ SameOffer (ap_Offer a) o = true
      /\ agreed_since t (fun y => exists r, y = WaPushGrant r id (ac_ID (ap_Account a)) /\ from_page r) ends_push
  | WaPushed ptr pack live => exists id o, len pack = of_PackSize o
      /\ agreed_since t (fun y => y = WaPushStart id ptr o) (fun y => push_act y = true \/ live = true /\ withdrawn y = true)
  | WaQuery r mode _ root => from_page r /\ (root = "" \/ exists r', WaEnabled r' root ∈ t)
      /\ (mode = "personal" -> agreed_since t (fun y => exists r', from_page r' /\ ((exists root', y = WaEnabled r' root') \/ exists id a ap, y = WaAccount r' id a ap))
                                  (fun y => y = WaWithdrawn true))
  end.
Lemma agreed_by (P : standing -> Prop) `{forall s, Decision (P s)} heap t made bad :
  (forall t1 x t2, t = t1 ++ x :: t2 -> lawful heap t1 x) -> P (stands t) -> ~ P (stands []) ->
  (forall l y, ~ P (stands l) -> P (stand (stands l) y) -> lawful heap l y -> made y) -> (forall s y, bad y -> ~ P (stand s y)) -> agreed_since t made bad.
Proof.
  intros La Pt N0 M B. destruct (held_since stand P _ t Pt N0) as (l1 & x & l2 & E & N & F). exists l1, x, l2. split; [done|]. split.
  - apply (M l1); [done| |by eapply La]. rewrite <- stands_snoc. by apply (F [] l2).
  - eapply (never_since P bad); [exact F|exact B].
Qed.
Lemma lawful_agreed heap t x : (forall t1 y t2, t = t1 ++ y :: t2 -> lawful heap t1 y) -> lawful heap t x -> agreed heap t x.
Proof.
  intros La. destruct x; cbn -[stands]; try done.
  - tauto.
  - intros (A & Ne & Ap). split.
    + apply (agreed_by (fun s => gr_account (st_grants s) = rr_AccountID q) heap); [done|done|by apply not_eq_sym| |].
      * intros l y N Py Ly. destruct y; cbn -[stands] in *; try done; try congruence. exists r, id, append. split; [by f_equal|done].
      * intros s y By. destruct y; cbn in *; try done; by apply not_eq_sym.
    + intros Act Ni. apply (agreed_by (fun s => gr_append (st_grants s) = rr_RequestID q) heap); [done|by apply Ap|by apply not_eq_sym| |].
      * intros l y N Py Ly. destruct y; cbn -[stands] in *; try done; try congruence. destruct append; [|done]. exists r, account. split; [by f_equal|done].
      * intros s y By. destruct y; cbn in *; try done; by apply not_eq_sym.
  - intros G. apply (agreed_by (fun s => gr_git (st_grants s) = Some i) heap); [done|done|done| |].
    + intros l y N Py Ly. destruct y; cbn -[stands] in *; try done. injection Py as ->. by exists r, id0.
    + intros s y By. destruct y; cbn in *; try done; congruence.
  - intros (G & Gi & U & a & Ha & Ia & So) Ni. exists a. split_and!; try done.
    apply (agreed_by (fun s => gr_push (st_grants s) = Some ptr /\ gr_pushGranted (st_grants s) = id /\ st_used s = false) heap); [done|done|by intros (? & _)| |].
    + intros l y N Py Ly. destruct y; cbn -[stands] in *; try done; try (by destruct Py as (? & ? & ?)); try (destruct Py as (? & E & ?); congruence).
      destruct Ly as (Pg & q & b & Gq & Hb & Ib & Ac). destruct Py as (E1 & E2 & E3). exists r. split; [|done].
      rewrite E1 in Gq. injection Gq as <-. rewrite Ha in Hb. injection Hb as <-. by rewrite Ac, E2.
    + intros s y By. destruct y; cbn in *; try done; intros (E1 & E2 & E3); congruence.
  - intros (id & o & (u1 & u2 & E & N & W) & S). exists id, o. split; [done|]. exists u1, (WaPushStart id ptr o), u2. split_and!; [done|done|].
    apply Forall_forall. intros y Hy. rewrite Forall_forall in N. intros [B|[L B]]; [by rewrite (N y Hy) in B|].
    specialize (W L). rewrite Forall_forall in W. by rewrite (W y Hy) in B.
  - intros (Pg & On & R). split_and!; [done|done|]. intros M.
    apply (agreed_by (fun s => st_on s = true) heap); [done|by apply On|done| |].
    + intros l y N Py Ly. destruct y; cbn -[stands] in *; try done.
      * exists r0. split; [done|right]. by eexists _, _, _.
      * exists r0. split; [done|left]. by eexists.
      * apply andb_prop in Py as [_ Py]. done.
    + intros s y ->. done.
Qed.
End approvals.

(** C23: Whatever the host answers and whatever order loop, pages and the end of the window take, a client writes under its member's accounts only
    as the member agreed on the page of this machine with its secret path.  A document is written under an account the member chose, and an
    extension was agreed to for this very request; a Git name is the one the member gave; a push starts only from an approval that was
    checked for the request and its offer, after a grant for its GitHub account that nothing came in between with, is carried out at most
    once per start with the whole pack, and not live once the grants were withdrawn; a query under the member's own name needs reading
    to be switched on. *)
Theorem window_does_what_was_agreed addr token l :
  let w := window_run addr token new_window l in
  forall t1 x t2, aw_trace w = t1 ++ x :: t2 -> agreed addr token (aw_heap w) t1 x.
Proof.
  intros w t1 x t2 E. pose proof (window_inv_run addr token l _ (window_inv_new addr token)) as [C _ _]. fold w in C.
  apply lawful_agreed; [|by eapply (co_law _ _ _ _ _ _ C)].
  intros u1 y u2 ->. apply (co_law _ _ _ _ _ _ C _ _ (u2 ++ x :: t2)). by rewrite E, <- app_assoc.
Qed.

(** ** A push that the member agrees to *)

Definition push_pack : string := "PACK0123456789012345678901234567890123456789".
Definition push_offer : Offer := mkOffer (mkPushInput "o/r" "main" (of_bytes (replicate 40 "a"%char))) (len push_pack) (of_bytes (replicate 64 "b"%char)) "1 file changed".
Definition push_id : string := of_bytes (replicate 32 "c"%char).
Definition push_wanted : PersonalRequest := mkPersonalRequest "" (Some push_offer) "git.push" push_id "" "" "ann".
Definition push_approval : Approval := mkApproval push_id push_offer (mkAccount 7 "alice") "" "secret" 0.
Definition page_post (path : string) : http_request := mkHttp "127.0.0.1:5000" "http://127.0.0.1:5000" "POST" ("/secret/" +:+ path).
Definition host_wants : result verr host_info := Ok (mkInfo "personal" "roommate" (Some push_wanted) "").
Definition asked_and_looked : list window_move := [WmLoop LeTick; WmLoop (LeReply host_wants); WmLoop LeNext; WmLoop (LeReceipt (Ok None))].
Definition push_course : list window_move :=
  [WmEnable "client"] ++ asked_and_looked
  ++ [WmServe 0 (page_post "personal") (FmPersonal (Some (mkDecision 0 None "push-check" push_id ""))); WmHandler 0 (AnApproval (Ok push_approval));
      WmServe 1 (mkHttp "127.0.0.1:5000" "http://evil.example" "POST" "/secret/personal") (FmPersonal (Some (mkDecision 7 None "push-grant" push_id "")));
      WmServe 2 (page_post "personal") (FmPersonal (Some (mkDecision 7 None "push-grant" push_id ""))); WmHandler 2 AnLock]
  ++ asked_and_looked
  ++ [WmLoop LeNext; WmLoop (LeChunk (Ok (mkInfo "personal" "roommate" None push_pack)));
      WmLoop (LeExecuted (Ok (mkPushReceipt push_id (of_Input push_offer) (mkAccount 7 "alice") "" "completed" (commit_url (of_Input push_offer)) "")));
      WmLoop (LeSent true); WmLoop LeNext].
Lemma window_does_what_was_agreed_witness :
  let w := window_run "127.0.0.1:5000" "/secret/" new_window push_course in
  length (aw_trace w) = 5%nat /\ aw_loop w = LIdle /\ aw_handlers w !! 1%nat = Some (HDone 403 "invalid origin")
  /\ exists t1 t2, aw_trace w = t1 ++ WaPushStart push_id 0 push_offer :: t2
     /\ agreed "127.0.0.1:5000" "/secret/" (aw_heap w) t1 (WaPushStart push_id 0 push_offer).
Proof.
  intros w. split; [by vm_compute|]. split; [by vm_compute|]. split; [by vm_compute|]. exists (take 2 (aw_trace w)), (drop 3 (aw_trace w)).
  assert (E : aw_trace w = take 2 (aw_trace w) ++ WaPushStart push_id 0 push_offer :: drop 3 (aw_trace w)) by (vm_compute; reflexivity).
  split; [exact E|]. exact (window_does_what_was_agreed "127.0.0.1:5000" "/secret/" push_course _ _ _ E).
Defined.
