(* ===== verification/ChatWindow.v ===== *)
(** * The chat page ([internal/answerwindow/window.go], [history.go], [progress.go], [chat.go],
      [attachments.go], [tasks.go], [questions.go])

    A client hands the events of the room to a page on the member's own machine.  The
    page keeps them in a table that is made anew for each window, and a short tail of
    it in memory; a member reads the table page by page and submits messages.  The
    statements of the table may fail, which is an argument of the operations; rows
    hold the messages themselves where the source holds their JSON. *)
From S2P Require Import ApprovalWindow.
From S2P Require Import Prelude GoStrings Json RoomTypes StrictJson GoDecode GoUrl TerminalText Programs RemoteWorkers NetworkHost StoreTasks.

(** ** Messages *)

Record Attachment := mkAttachment { at_ID : string; at_Name : string }.
#[export] Instance Attachment_eq_dec : EqDecision Attachment.
Proof. solve_decision. Defined.
Record Answer := mkAnswer
  { an_Attachments : list Attachment; an_TaskStatus : string; an_Owner : option UID; an_Ack : string; an_Turn : string; an_Seq : Z; an_Text : string;
    an_Role : string; an_Author : string; an_UID : UID; an_Kind : string; an_ClientID : string; an_Time : string }.
Definition with_owner (o : option UID) (a : Answer) : Answer :=
  mkAnswer (an_Attachments a) (an_TaskStatus a) o (an_Ack a) (an_Turn a) (an_Seq a) (an_Text a) (an_Role a) (an_Author a) (an_UID a) (an_Kind a) (an_ClientID a) (an_Time a).
Definition with_ack (ack turn : string) (a : Answer) : Answer :=
  mkAnswer (an_Attachments a) (an_TaskStatus a) (an_Owner a) ack turn (an_Seq a) (an_Text a) (an_Role a) (an_Author a) (an_UID a) (an_Kind a) (an_ClientID a) (an_Time a).
Definition with_task_status (t : string) (a : Answer) : Answer :=
  mkAnswer (an_Attachments a) t (an_Owner a) (an_Ack a) (an_Turn a) (an_Seq a) (an_Text a) (an_Role a) (an_Author a) (an_UID a) (an_Kind a) (an_ClientID a) (an_Time a).
Definition with_author (n : string) (a : Answer) : Answer :=
  mkAnswer (an_Attachments a) (an_TaskStatus a) (an_Owner a) (an_Ack a) (an_Turn a) (an_Seq a) (an_Text a) (an_Role a) n (an_UID a) (an_Kind a) (an_ClientID a) (an_Time a).
Definition maxAnswers : Z := 100.
Definition maxTextBytes : Z := Z.shiftl 8 20.

(** [strings.LastIndex], as the text before and the text after. *)
Fixpoint last_cut (sub s : string) : option (string * string) :=
  match match s with "" => None | String c r => (fun x => (String c x.1, x.2)) <$> last_cut sub r end with
  | Some x => Some x
  | None => if HasPrefix s sub then Some ("", TrimPrefix s sub) else None
  end.
Definition attachment_marker : string := "附件已上传到 host，请根据需要读取文件；图片可用图片查看工具打开：" +:+ nl.
(** One line: an upload, by its name and its path. *)
Definition dec_uploaded (line : string) : option (string * string) :=
  match parse line with
  | Some JNull => Some ("", "")
  | Some (JObj _) =>
      l ← members_of line; name ← string_of "name" l; path ← string_of "path" l; _ ← decode_field (set_int 64) 0 "size" l; Some (name, path)
  | _ => None
  end.
Fixpoint attachments (files : list Attachment) (lines : list string) : option (list Attachment) :=
  match lines with
  | [] => Some files
  | line :: r =>
      match dec_uploaded line with
      | None => None
      | Some (name, path) =>
          if String.eqb name "" || String.eqb path "" then None else
          let id := Base path in
          if (len id <? 66) || Nat.leb 10 (length files) then None else attachments (files ++ [mkAttachment id name]) r
      end
  end.
Definition splitAttachments (text : string) : string * list Attachment :=
  match last_cut attachment_marker text with
  | None => (text, [])
  | Some (before, after) =>
      match attachments [] (Split (chr 10) (TrimSpace after)) with
      | Some files => (TrimSpace before, files)
      | None => (text, [])
      end
  end.
(** [Format(time.RFC3339)] of the time that was read from a text: to the second. *)
Definition shown_time (s : string) : string :=
  let clock := span is_digit (drop_bytes 11 s) in
  let hour := if len clock.1 =? 1 then "0" +:+ clock.1 else clock.1 in
  let zone := skip_fraction (drop_bytes 6 clock.2) in
  take_bytes 11 s +:+ hour +:+ take_bytes 6 clock.2 +:+ (if existsb (String.eqb zone) ["+00:00"; "-00:00"] then "Z" else zone).

(** ** The window *)

Record history_row := mkHistoryRow { hw_seq : Z; hw_body : Answer; hw_client : string; hw_turn : string; hw_role : string }.
Record ChatWindow := mkChat
  { ch_room : string; ch_names : gmap Z string; ch_answers : list Answer; ch_bytes : Z; ch_dropped : bool; ch_rows : list history_row;
    ch_owners : gmap string UID; ch_states : gmap string string; ch_turnMessages : gmap string string; ch_messageTurns : gmap string string;
    ch_order : list string; ch_connected : bool; ch_status : string; ch_active : string; ch_role : string; ch_askReady : bool; ch_revision : Z }.
Definition new_chat : ChatWindow := mkChat "" ∅ [] 0 false [] ∅ ∅ ∅ ∅ [] false "正在连接" "" "" false 0.
Definition set_tail (l : list Answer) (bytes : Z) (dropped : bool) (w : ChatWindow) : ChatWindow :=
  mkChat (ch_room w) (ch_names w) l bytes dropped (ch_rows w) (ch_owners w) (ch_states w) (ch_turnMessages w) (ch_messageTurns w) (ch_order w)
    (ch_connected w) (ch_status w) (ch_active w) (ch_role w) (ch_askReady w) (ch_revision w).
Definition set_rows (l : list history_row) (w : ChatWindow) : ChatWindow :=
  mkChat (ch_room w) (ch_names w) (ch_answers w) (ch_bytes w) (ch_dropped w) l (ch_owners w) (ch_states w) (ch_turnMessages w) (ch_messageTurns w) (ch_order w)
    (ch_connected w) (ch_status w) (ch_active w) (ch_role w) (ch_askReady w) (ch_revision w).
Definition set_turns (o : gmap string UID) (s m t : gmap string string) (l : list string) (w : ChatWindow) : ChatWindow :=
  mkChat (ch_room w) (ch_names w) (ch_answers w) (ch_bytes w) (ch_dropped w) (ch_rows w) o s m t l
    (ch_connected w) (ch_status w) (ch_active w) (ch_role w) (ch_askReady w) (ch_revision w).
Definition show_status (connected : bool) (s : string) (w : ChatWindow) : ChatWindow :=
  mkChat (ch_room w) (ch_names w) (ch_answers w) (ch_bytes w) (ch_dropped w) (ch_rows w) (ch_owners w) (ch_states w) (ch_turnMessages w) (ch_messageTurns w) (ch_order w)
    connected s (ch_active w) (ch_role w) (ch_askReady w) (ch_revision w).
Definition touch (w : ChatWindow) : ChatWindow :=
  mkChat (ch_room w) (ch_names w) (ch_answers w) (ch_bytes w) (ch_dropped w) (ch_rows w) (ch_owners w) (ch_states w) (ch_turnMessages w) (ch_messageTurns w) (ch_order w)
    (ch_connected w) (ch_status w) (ch_active w) (ch_role w) (ch_askReady w) (ch_revision w + 1).

(** [INSERT OR IGNORE] *)
Definition saveAnswer (a : Answer) (w : ChatWindow) : option ChatWindow :=
  if existsb (fun r => hw_seq r =? an_Seq a) (ch_rows w) then None
  else Some (set_rows (ch_rows w ++ [mkHistoryRow (an_Seq a) a (an_ClientID a) (an_Turn a) (an_Role a)]) w).
(** The tail in memory: the oldest go while there are too many. *)
Fixpoint trim (l : list Answer) (bytes : Z) (dropped : bool) : list Answer * Z * bool :=
  match l with
  | a :: r =>
      match r with
      | [] => (l, bytes, dropped)
      | _ :: _ => if (maxAnswers <? Z.of_nat (length l)) || (maxTextBytes <? bytes) then trim r (bytes - len (an_Text a)) true else (l, bytes, dropped)
      end
  | [] => (l, bytes, dropped)
  end.
Definition owned (a : Answer) (w : ChatWindow) : Answer :=
  if String.eqb (an_Role a) "user" then with_owner (Some (an_UID a)) a
  else match ch_owners w !! an_Turn a with Some uid => with_owner (Some uid) a | None => a end.
(** [add]: whether the statement fails is [failed]. *)
Definition add (a : Answer) (failed : option error) (w : ChatWindow) : ChatWindow * option error :=
  let a := owned a w in
  match failed with
  | Some e => (w, Some e)
  | None =>
      match saveAnswer a w with
      | None => (w, None)
      | Some w =>
          let '(l, bytes, dropped) := trim (ch_answers w ++ [a]) (ch_bytes w + len (an_Text a)) (ch_dropped w) in
          (touch (show_status (ch_connected w) "已连接 · 等待下一条完整回答" (set_tail l bytes dropped w)), None)
      end
  end.
(** [agentId] in the payload of a payload, when that can be read. *)
Definition attributed (payload : string) : bool :=
  match l ← members_of payload; decode_field (set_struct (fun m x => decode_field set_string x "agentId" m)) "" "payload" l with
  | Some id => negb (String.eqb id "")
  | None => false
  end.
Definition author_of (payload : string) : string := if attributed payload then "工作组" else "模型".
Definition unmarshalled : error := ErrText "json".
(** [Add]: an answer that is complete. *)
Definition Add (e : RoomEvent) (text : string) (failed : option error) (w : ChatWindow) : ChatWindow * option error :=
  match if String.eqb (re_Payload e) "" then Some "" else l ← members_of (re_Payload e); string_of "turn_id" l with
  | None => (w, Some unmarshalled)
  | Some turn => add (mkAnswer [] "" None "" turn (re_Seq e) text "assistant" (author_of (re_Payload e)) 0 "" "" (shown_time (re_CreatedAt e))) failed w
  end.
Definition Room (id : string) (failed : bool) (w : ChatWindow) : ChatWindow :=
  if String.eqb (ch_room w) id then w else
  touch (mkChat id ∅ [] 0 false (if failed then ch_rows w else []) ∅ ∅ ∅ ∅ [] (ch_connected w) (if failed then "历史缓存重置失败" else ch_status w) "" (ch_role w) (ch_askReady w) (ch_revision w)).
Definition Connection (connected : bool) (w : ChatWindow) : ChatWindow :=
  touch (show_status connected (if connected then "已连接" else "与 host 的连接中断 · 正在重连") w).
Definition Status (s : string) (w : ChatWindow) : ChatWindow := touch (show_status (ch_connected w) s w).
Definition ActiveTurn (turn : string) (w : ChatWindow) : ChatWindow :=
  if String.eqb (ch_active w) turn then w else
  touch (mkChat (ch_room w) (ch_names w) (ch_answers w) (ch_bytes w) (ch_dropped w) (ch_rows w) (ch_owners w) (ch_states w) (ch_turnMessages w) (ch_messageTurns w) (ch_order w)
    (ch_connected w) (ch_status w) turn (ch_role w) (ch_askReady w) (ch_revision w)).
Definition Members (l : list (Z * string)) (w : ChatWindow) : ChatWindow :=
  touch (mkChat (ch_room w) (foldl (fun m x => <[x.1 := x.2]> m) (ch_names w) l) (ch_answers w) (ch_bytes w) (ch_dropped w) (ch_rows w) (ch_owners w) (ch_states w)
    (ch_turnMessages w) (ch_messageTurns w) (ch_order w) (ch_connected w) (ch_status w) (ch_active w) (ch_role w) (ch_askReady w) (ch_revision w)).
(** [RefreshRole]: what the host says about the member; nothing when it does not. *)
Definition RefreshRole (reply : option (string * bool)) (w : ChatWindow) : ChatWindow :=
  match reply with
  | Some (role, ready) =>
      touch (mkChat (ch_room w) (ch_names w) (ch_answers w) (ch_bytes w) (ch_dropped w) (ch_rows w) (ch_owners w) (ch_states w)
        (ch_turnMessages w) (ch_messageTurns w) (ch_order w) (ch_connected w) (ch_status w) (ch_active w) role ready (ch_revision w))
  | None => w
  end.

(** ** What became of a task *)

Record progress_body := mkProgress
  { pg_ID : string; pg_Target : string; pg_Turn : string; pg_Type : string; pg_Phase : string; pg_Text : string; pg_Status : string }.
Definition dec_progress (payload : string) : option progress_body :=
  l ← members_of payload;
  id ← string_of "client_message_id" l; target ← string_of "target_message_id" l; turn ← string_of "turn_id" l;
  x ← decode_field (set_struct (fun m x =>
        ty ← decode_field set_string x.1.1.1 "type" m; ph ← decode_field set_string x.1.1.2 "phase" m;
        tx ← decode_field set_string x.1.2 "text" m; st ← decode_field set_string x.2 "status" m; Some (ty, ph, tx, st))) ("", "", "", "") "payload" l;
  Some (mkProgress id target turn x.1.1.1 x.1.1.2 x.1.2 x.2).
(** The state a kind of event stands for. *)
Definition kind_state (kind : string) : string :=
  let kd := String.eqb kind in
  if kd "recovery/skipped" then "已跳过该任务。"
  else if kd "recovery/continued" then "已继续处理，后续结果见新的任务。"
  else if kd "recovery/retried" then "已重新排队，等待模型处理。"
  else if kd "turn/running" then "已接收，模型正在处理。"
  else if kd "turn/completed" then "处理完成。"
  else if kd "turn/failed" || kd "message/failed" then "处理失败，请查看原终端的错误提示。"
  else if kd "turn/interrupted" || kd "message/interrupted" then "任务已中断。"
  else if kd "turn/needs-review" || kd "message/needs-review" then "任务需要确认，请查看原终端。"
  else "".
Definition is_recovery (kind : string) : bool := existsb (String.eqb kind) ["recovery/skipped"; "recovery/continued"; "recovery/retried"].
Definition maxTurns : nat := 4096.
(** A turn that runs is remembered with its owner and its message; the oldest is forgotten. *)
Definition forget_oldest (w : ChatWindow) : ChatWindow :=
  match ch_order w with
  | [] => w
  | old :: rest =>
      let messageTurns := match ch_turnMessages w !! old with
                          | Some id => if negb (String.eqb id "") && bool_decide (ch_messageTurns w !! id = Some old) then delete id (ch_messageTurns w) else ch_messageTurns w
                          | None => ch_messageTurns w
                          end in
      set_turns (delete old (ch_owners w)) (delete old (ch_states w)) (delete old (ch_turnMessages w)) messageTurns rest w
  end.
Definition remember_turn (turn id : string) (actor : UID) (w : ChatWindow) : ChatWindow :=
  let order := if bool_decide (is_Some (ch_owners w !! turn)) then ch_order w else ch_order w ++ [turn] in
  let named := negb (String.eqb id "") in
  let w := set_turns (<[turn := actor]> (ch_owners w)) (ch_states w)
             (if named then <[turn := id]> (ch_turnMessages w) else ch_turnMessages w)
             (if named then <[id := turn]> (ch_messageTurns w) else ch_messageTurns w) order w in
  if Nat.ltb maxTurns (length (ch_order w)) then forget_oldest w else w.
(** The prompt a state is about, in memory and in the table. *)
Definition concerns (id turn : string) (a_id a_turn : string) : bool :=
  negb (String.eqb id "") && String.eqb a_id id || negb (String.eqb turn "") && String.eqb a_turn turn.
Definition acked (state turn : string) (a : Answer) : Answer := with_ack state (if String.eqb turn "" then an_Turn a else turn) a.
Definition ack_tail (id turn state : string) (l : list Answer) : list Answer :=
  update_where (fun a => String.eqb (an_Role a) "user" && existsb (String.eqb (an_Kind a)) ["prompt"; "recovery-prompt"] && concerns id turn (an_ClientID a) (an_Turn a))
    (acked state turn) l.
Definition ack_rows (id turn state : string) (l : list history_row) : list history_row :=
  update_where (fun r => String.eqb (hw_role r) "user" && concerns id turn (hw_client r) (hw_turn r))
    (fun r => let t := if String.eqb turn "" then hw_turn r else turn in
              mkHistoryRow (hw_seq r) (with_ack state t (hw_body r)) (hw_client r) t (hw_role r)) l.
Definition status_rows (turn state : string) (l : list history_row) : list history_row :=
  update_where (fun r => String.eqb (hw_turn r) turn)
    (fun r => mkHistoryRow (hw_seq r) (with_task_status state (hw_body r)) (hw_client r) (hw_turn r) (hw_role r)) l.
(** Which statement of an operation fails. *)
Record luck := mkLuck { lk_ack : option error; lk_status : option error; lk_insert : option error }.
Definition note_state (kind : string) (actor : UID) (id turn state : string) (k : luck) (w : ChatWindow) : ChatWindow * option error :=
  let turn := if String.eqb turn "" && negb (String.eqb id "") then default "" (ch_messageTurns w !! id) else turn in
  let w := if String.eqb kind "turn/running" && negb (String.eqb turn "") then remember_turn turn id actor w else w in
  let w := if bool_decide (is_Some (ch_owners w !! turn))
           then set_turns (ch_owners w) (<[turn := state]> (ch_states w)) (ch_turnMessages w) (ch_messageTurns w) (ch_order w) w else w in
  let w := set_tail (ack_tail id turn state (ch_answers w)) (ch_bytes w) (ch_dropped w) w in
  match lk_ack k with
  | Some e => (w, Some e)
  | None =>
      let w := set_rows (ack_rows id turn state (ch_rows w)) w in
      if String.eqb turn "" then (touch w, None) else
      match lk_status k with
      | Some e => (w, Some e)
      | None => (touch (set_rows (status_rows turn state (ch_rows w)) w), None)
      end
  end.
(** What is told of a finished step; the rest of what an agent does is not shown. *)
Definition step_text (b : progress_body) : string :=
  let kd := String.eqb (pg_Type b) in
  if kd "agentMessage" then if String.eqb (pg_Phase b) "commentary" then pg_Text b else ""
  else if kd "commandExecution" then if String.eqb (pg_Status b) "failed" then "命令执行失败。" else "命令执行已结束。"
  else if kd "fileChange" then "文件变更步骤已结束。"
  else if kd "webSearch" then "检索步骤已结束。"
  else "".
Definition progress (e : RoomEvent) (k : luck) (w : ChatWindow) : ChatWindow * option error :=
  match dec_progress (re_Payload e) with
  | None => (w, Some unmarshalled)
  | Some b =>
      let id := if is_recovery (re_Kind e) then pg_Target b else pg_ID b in
      let state := kind_state (re_Kind e) in
      if negb (String.eqb state "") then note_state (re_Kind e) (re_ActorUID e) id (pg_Turn b) state k w
      else if negb (String.eqb (re_Kind e) "item/completed") || String.eqb (step_text b) "" then (w, None)
      else add (mkAnswer [] "" None "" (pg_Turn b) (re_Seq e) (step_text b) "assistant" (author_of (re_Payload e)) 0 "progress" "" (shown_time (re_CreatedAt e))) (lk_insert k) w
  end.
(** What a member wrote: a message, a note, or a text that steers the turn. *)
Definition accepted_kinds : list string := ["message/accepted"; "note/accepted"; "control/accepted"].
Definition written_text (e : RoomEvent) : option (option (string * string * string)) :=
  l ← members_of (re_Payload e);
  body ← string_of "body" l; kind ← string_of "kind" l; id ← string_of "client_message_id" l;
  if String.eqb (re_Kind e) "control/accepted" then
    if negb (String.eqb kind "steer") then Some None else
    m ← members_of body; text ← string_of "text" m; Some (Some (text, kind, id))
  else Some (Some (body, kind, id)).
Definition Event (e : RoomEvent) (k : luck) (w : ChatWindow) : ChatWindow * option error :=
  match progress e k w with
  | (w, Some err) => (w, Some err)
  | (w, None) =>
      if negb (existsb (String.eqb (re_Kind e)) accepted_kinds) then (w, None) else
      match written_text e with
      | None => (w, Some unmarshalled)
      | Some None => (w, None)
      | Some (Some (body, kind, id)) =>
          let '(text, files) := splitAttachments body in
          add (mkAnswer files "" None (if String.eqb (re_Kind e) "message/accepted" then "已接收，等待模型处理。" else "") "" (re_Seq e) text "user" "" (re_ActorUID e) kind id
                 (shown_time (re_CreatedAt e))) (lk_insert k) w
      end
  end.

(** ** Reading *)

Definition max_cursor : Z := 9223372036854775807.
(** [WHERE seq < before ORDER BY seq DESC] *)
Definition rows_before (before : Z) (l : list history_row) : list history_row :=
  order_by (fun r => - hw_seq r) (List.filter (fun r => hw_seq r <? before) l).
Fixpoint scan_rows (result : list Answer) (total : Z) (rows : list history_row) : list Answer * bool :=
  match rows with
  | [] => (result, false)
  | r :: rest =>
      let a := hw_body r in
      if negb (bool_decide (result = [])) && (maxTextBytes <? total + len (an_Text a)) then (result, true)
      else scan_rows (result ++ [a]) (total + len (an_Text a)) rest
  end.
Definition historyPage (before : Z) (l : list history_row) : list Answer * bool :=
  let before := if before =? 0 then max_cursor else before in
  let (result, limited) := scan_rows [] 0 (take 51 (rows_before before l)) in
  (rev (take 50 result), Nat.ltb 50 (length result) || limited).
Definition member_name (names : gmap Z string) (uid : Z) : string :=
  match names !! uid with Some n => if String.eqb n "" then "成员 " +:+ itoa uid else n | None => "成员 " +:+ itoa uid end.
Definition named_answer (names : gmap Z string) (a : Answer) : Answer := if String.eqb (an_Role a) "user" then with_author (member_name names (an_UID a)) a else a.
(** [serveHistory]; [raw] is the cursor of the query. *)
Definition serveHistory (raw : string) (failed : bool) (w : ChatWindow) : result (Z * string) (list Answer * bool * string) :=
  match ParseUint 63 raw with
  | None => Err (400, "invalid history cursor")
  | Some before =>
      if before =? 0 then Err (400, "invalid history cursor")
      else if failed then Err (500, "cannot read history")
      else let (l, more) := historyPage before (ch_rows w) in Ok (named_answer (ch_names w) <$> l, more, ch_room w)
  end.
(** [searchHistory]; [holds q text] is what the database says of [instr(lower(text), lower(q))]. *)
Definition searchHistory (holds : string -> string -> bool) (q raw : string) (failed : bool) (w : ChatWindow) : result (Z * string) (list Answer * bool) :=
  if (256 <? len q) || String.eqb q "" then Err (400, "请输入 1–256 字节关键词") else
  match if String.eqb raw "" then Some max_cursor else ParseUint 63 raw with
  | None => Err (400, "invalid cursor")
  | Some before =>
      if failed then Err (500, "搜索失败") else
      let found := take 51 (List.filter (fun r => holds q (an_Text (hw_body r))) (rows_before before (ch_rows w))) in
      Ok (take 50 (hw_body <$> found), Nat.ltb 50 (length found))
  end.
(** The page of [answers]: the last messages, with the state of their turns. *)
Definition shown_answer (w : ChatWindow) (a : Answer) : Answer :=
  let a := match ch_states w !! an_Turn a with Some s => if String.eqb s "" then a else with_task_status s a | None => a end in
  named_answer (ch_names w) a.
Definition answers_page (w : ChatWindow) : list Answer * bool :=
  let (l, more) := historyPage 0 (ch_rows w) in (shown_answer w <$> l, more).

(** ** Writing *)

Record post_body := mkPost { po_TaskID : Z; po_ExpectedTurn : string; po_ID : string; po_Text : string }.
(** [post] up to the hand-over: [is_json] is about the content type, [chat] whether there is a client that takes
    submissions, [channel] the channel its answer comes on. *)
Definition post_submission (token : string) (r : http_request) (is_json : bool) (body : option post_body) (chat : bool) (channel : nat) (w : ChatWindow)
  : result (Z * string) Submission :=
  if existsb (String.eqb (ch_role w)) ["visitor"; "asker"] then Err (403, "此身份不能向主会话提交或控制任务")
  else if negb (same_page r) then Err (403, "same-origin request required")
  else if negb is_json then Err (415, "JSON required")
  else match body with
  | None => Err (400, "invalid message")
  | Some b =>
      let cancel := String.eqb (ht_Path r) (token +:+ "cancel") in
      let s := {| sb_TaskID := po_TaskID b; sb_Method := if cancel then "cancel" else if 0 <? po_TaskID b then "task_submit" else "";
                  sb_ExpectedTurnID := if cancel then po_ExpectedTurn b else ""; sb_ID := po_ID b; sb_Text := po_Text b; sb_Result := channel |} in
      if cancel && (negb (ch_connected w) || String.eqb (ch_active w) "" || negb (String.eqb (ch_active w) (po_ExpectedTurn b)))
      then Err (409, "当前任务已变化或连接中断，请等待状态同步后重试。")
      else match Submission_Validate s with
      | Err _ => Err (400, "请求无效或消息过长")
      | Ok _ => if chat then Ok s else Err (503, "chat unavailable")
      end
  end.
(** How the hand-over ended: the client took it and answered, did not take it in time, or did not answer in time. *)
Inductive handed := HandedOver (err : option terr) | NotTaken | NotAnswered.
Definition post_answer (h : handed) : Z * string :=
  match h with
  | HandedOver None => (200, bq "{`accepted`:true}" +:+ nl)
  | HandedOver (Some _) => (409, "host 未接受请求；任务可能已结束，请刷新状态后重试。")
  | NotTaken => (503, "连接不可用，尚未提交。请重试。")
  | NotAnswered => (504, "确认超时，可能已提交。重试会使用同一消息 ID。")
  end.
(** The value [strconv.ParseInt] returns, whatever its error: the nearest number, or 0 for another text. *)
Definition nearest_int (s : string) : Z :=
  let sign := match s with String c r => if code c =? 45 then (-1, r) else if code c =? 43 then (1, r) else (1, s) | "" => (1, s) end in
  match digits 0 sign.2 with
  | Some n => if String.eqb sign.2 "" then 0 else Z.max (- 2 ^ 63) (Z.min (2 ^ 63 - 1) (sign.1 * n))
  | None => 0
  end.
Definition nearest_uint32 (s : string) : Z :=
  match digits 0 s with Some n => if String.eqb s "" then 0 else Z.min (2 ^ 32 - 1) n | None => 0 end.
(** [serveTasks]: what is asked of the host. *)
Definition task_form (q : TaskRequest) : bool := existsb (String.eqb (tq_Action q)) ["convert"; "complete"; "reopen"].
Definition plain_task (action : string) (id before : Z) : TaskRequest :=
  {| tq_Action := action; tq_RequestID := ""; tq_TaskID := id; tq_SourceSeq := 0; tq_Title := ""; tq_Acceptance := ""; tq_ExpectedRevision := 0; tq_Note := ""; tq_Before := before |}.
Definition tasks_request (there : bool) (r : http_request) (body : option TaskRequest) (id before : string) (w : ChatWindow) : result (Z * string) TaskRequest :=
  if negb there then Err (503, "项目任务不可用，请更新 Host 和客户端")
  else if String.eqb (ht_Method r) "POST" then
    if negb (same_page r) || negb (String.eqb (ch_role w) "roommate") then Err (403, "只有协作成员可以修改任务")
    else match body with
    | None => Err (400, "invalid task request")
    | Some q => if task_form q then Ok q else Err (400, "invalid task action")
    end
  else Ok (if String.eqb id "" then plain_task "list" 0 (nearest_int before) else plain_task "get" (nearest_int id) (nearest_int before)).
(** [serveQuestions] *)
Definition questions_request (there : bool) (r : http_request) (body : option (string * string)) (before uid : string) (w : ChatWindow)
  : result (Z * string) question_query :=
  if negb there || String.eqb (ch_role w) "visitor" then Err (403, "独立问答不可用")
  else if String.eqb (ht_Method r) "POST" then
    if negb (same_page r) || negb (String.eqb (ch_role w) "asker") then Err (403, "仅询问者可以提问")
    else match body with
    | None => Err (400, "invalid question")
    | Some (id, text) => Ok (mkQuestion 0 "ask" id text 0)
    end
  else Ok (mkQuestion (nearest_uint32 uid) "list" "" "" (nearest_int before)).

(** ** What the window keeps *)

Inductive chat_op :=
| CoRoom (id : string) (failed : bool) | CoConnection (b : bool) | CoStatus (s : string) | CoActive (turn : string) | CoMembers (l : list (Z * string))
| CoRole (reply : option (string * bool)) | CoAdd (e : RoomEvent) (text : string) (failed : option error) | CoEvent (e : RoomEvent) (k : luck).
Definition chat_step (w : ChatWindow) (o : chat_op) : ChatWindow :=
  match o with
  | CoRoom id f => Room id f w | CoConnection b => Connection b w | CoStatus s => Status s w | CoActive t => ActiveTurn t w | CoMembers l => Members l w
  | CoRole r => RefreshRole r w | CoAdd e t f => (Add e t f w).1 | CoEvent e k => (Event e k w).1
  end.
Definition chat_run (w : ChatWindow) (l : list chat_op) : ChatWindow := foldl chat_step w l.
Definition step_texts : list string := ["命令执行失败。"; "命令执行已结束。"; "文件变更步骤已结束。"; "检索步骤已结束。"].
(** What may be shown of an event: a comment the agent makes publicly, that a step was made, or what a member wrote. *)
Definition public (e : RoomEvent) (text : string) : Prop :=
  (exists b, dec_progress (re_Payload e) = Some b /\ re_Kind e = "item/completed" /\ pg_Type b = "agentMessage" /\ pg_Phase b = "commentary" /\ text = pg_Text b)
  \/ (re_Kind e = "item/completed" /\ text ∈ step_texts)
  \/ (re_Kind e ∈ accepted_kinds /\ exists body kind id, written_text e = Some (Some (body, kind, id)) /\ text = (splitAttachments body).1).
Definition texts_size (l : list Answer) : Z := foldr (fun a n => len (an_Text a) + n) 0 l.
Record tail_fine (l : list Answer) (bytes : Z) : Prop := mk_tail_fine
  { tf_count : Z.of_nat (length l) <= maxAnswers; tf_size : bytes = texts_size l; tf_bound : (length l <= 1)%nat \/ bytes <= maxTextBytes }.
Record turns_fine (o : gmap string UID) (s m : gmap string string) (l : list string) : Prop := mk_turns_fine
  { tu_distinct : NoDup l; tu_few : (length l <= maxTurns)%nat; tu_owners : forall t, is_Some (o !! t) <-> t ∈ l;
    tu_states : forall t, is_Some (s !! t) -> t ∈ l; tu_messages : forall t, is_Some (m !! t) -> t ∈ l }.
Section kept.
Context (said : Z -> string -> Prop).
Definition row_fine (r : history_row) : Prop := said (hw_seq r) (an_Text (hw_body r)) /\ an_Seq (hw_body r) = hw_seq r.
Record chat_inv (w : ChatWindow) : Prop := mk_chat_inv
  { ci_once : NoDup (hw_seq <$> ch_rows w); ci_rows : Forall row_fine (ch_rows w); ci_tail : tail_fine (ch_answers w) (ch_bytes w);
    ci_turns : turns_fine (ch_owners w) (ch_states w) (ch_turnMessages w) (ch_order w) }.
Lemma trim_fine l bytes dropped : bytes = texts_size l -> tail_fine (trim l bytes dropped).1.1 (trim l bytes dropped).1.2.
Proof.
  revert bytes dropped. induction l as [|a l IH]; intros bytes dropped E; [split; cbn; [done|done|left; lia]|].
  cbn [trim]. destruct l as [|b l]; [split; cbn in *; [done|done|left; lia]|].
  destruct ((maxAnswers <? Z.of_nat (length (a :: b :: l))) || (maxTextBytes <? bytes)) eqn:C.
  - apply IH. cbn in *. lia.
  - apply orb_false_elim in C as [C1 C2]. split; [cbn [fst]; lia|exact E|right; cbn [fst snd]; lia].
Qed.
Lemma texts_size_snoc l a : texts_size (l ++ [a]) = texts_size l + len (an_Text a).
Proof. unfold texts_size. rewrite foldr_app. cbn. induction l as [|b l IH]; cbn; lia. Qed.
Lemma owned_keeps a w : an_Text (owned a w) = an_Text a /\ an_Seq (owned a w) = an_Seq a.
Proof. unfold owned. destruct (String.eqb _ _); [done|]. by destruct (ch_owners w !! an_Turn a). Qed.
Lemma chat_add a failed w : said (an_Seq a) (an_Text a) -> chat_inv w -> chat_inv (add a failed w).1.
Proof.
  intros Sa I. pose proof I as [O R T U]. unfold add. destruct failed; [done|]. unfold saveAnswer. destruct (owned_keeps a w) as [Et Es].
  destruct (existsb _ (ch_rows w)) eqn:Ex; [done|]. cbn [ch_answers ch_bytes ch_dropped set_rows].
  destruct (trim (ch_answers w ++ [owned a w]) (ch_bytes w + len (an_Text (owned a w))) (ch_dropped w)) as [[l b] d] eqn:Tr.
  split; cbn [fst snd ch_rows ch_answers ch_bytes ch_owners ch_states ch_turnMessages ch_order touch show_status set_tail set_rows].
  - rewrite fmap_app. apply NoDup_snoc; [done|]. intros (r & E & Hr)%list_elem_of_fmap. cbn in E.
    assert (existsb (fun r => hw_seq r =? an_Seq (owned a w)) (ch_rows w) = true) as X; [|by rewrite X in Ex].
    apply existsb_exists. exists r. split; [by apply list_elem_of_In|lia].
  - apply Forall_app. split; [done|]. constructor; [|constructor]. split; cbn; [by rewrite Et, Es|done].
  - assert (F : tail_fine (trim (ch_answers w ++ [owned a w]) (ch_bytes w + len (an_Text (owned a w))) (ch_dropped w)).1.1
                  (trim (ch_answers w ++ [owned a w]) (ch_bytes w + len (an_Text (owned a w))) (ch_dropped w)).1.2)
      by (apply trim_fine; rewrite texts_size_snoc, (tf_size _ _ T); lia).
    by rewrite Tr in F.
  - done.
Qed.
(** [remember_turn] before it looks whether there are too many. *)
Lemma remember_turn_unforgotten turn id actor w (w1 := set_turns (<[turn := actor]> (ch_owners w)) (ch_states w)
    (if negb (String.eqb id "") then <[turn := id]> (ch_turnMessages w) else ch_turnMessages w)
    (if negb (String.eqb id "") then <[id := turn]> (ch_messageTurns w) else ch_messageTurns w)
    (if bool_decide (is_Some (ch_owners w !! turn)) then ch_order w else ch_order w ++ [turn]) w) :
  turns_fine (ch_owners w) (ch_states w) (ch_turnMessages w) (ch_order w) ->
  NoDup (ch_order w1) /\ (length (ch_order w1) <= S maxTurns)%nat /\ (forall t, is_Some (ch_owners w1 !! t) <-> t ∈ ch_order w1)
  /\ (forall t, is_Some (ch_states w1 !! t) -> t ∈ ch_order w1) /\ (forall t, is_Some (ch_turnMessages w1 !! t) -> t ∈ ch_order w1).
Proof.
  intros [D F O S M].
  assert (Sub : forall t, t ∈ ch_order w -> t ∈ ch_order w1) by (intros t H; cbn; case_bool_decide; [done|]; apply elem_of_app; by left).
  assert (Own : forall t, is_Some (<[turn := actor]> (ch_owners w) !! t) <-> t ∈ ch_order w1).
  { intros t. rewrite lookup_insert_is_Some, O. cbn. case_bool_decide as B.
    - rewrite O in B. split; [by intros [<-|[_ H]]|]. intros H. destruct (decide (turn = t)); [by left|by right].
    - rewrite elem_of_app, list_elem_of_singleton. destruct (decide (turn = t)) as [->|N]; naive_solver. }
  cbn [ch_owners ch_states ch_turnMessages ch_order set_turns w1]. split_and!; try done.
  - case_bool_decide as B; [done|]. apply NoDup_snoc; [done|]. by rewrite <- O.
  - case_bool_decide; [lia|]. rewrite length_app. cbn. lia.
  - intros t H. by apply Sub, S.
  - intros t H. destruct (negb (String.eqb id "")); [|by apply Sub, M]. apply lookup_insert_is_Some in H as [<-|[_ H]]; [|by apply Sub, M].
    apply Own. rewrite lookup_insert_eq. by eexists.
Qed.
Lemma forget_oldest_short w (D : NoDup (ch_order w)) (F : (length (ch_order w) <= S maxTurns)%nat) (O : forall t, is_Some (ch_owners w !! t) <-> t ∈ ch_order w)
  (S' : forall t, is_Some (ch_states w !! t) -> t ∈ ch_order w) (M : forall t, is_Some (ch_turnMessages w !! t) -> t ∈ ch_order w) (old : string) (rest : list string) :
  ch_order w = old :: rest ->
  turns_fine (ch_owners (forget_oldest w)) (ch_states (forget_oldest w)) (ch_turnMessages (forget_oldest w)) (ch_order (forget_oldest w)).
Proof.
  intros E. unfold forget_oldest. rewrite E. rewrite E in D, F, O, S', M. apply NoDup_cons in D as [Nin D]. cbn. split; [done|cbn in F; lia| | |].
  - intros t. destruct (decide (t = old)) as [->|N].
    + rewrite lookup_delete_eq. split; [by intros [? ?]|done].
    + rewrite lookup_delete_ne by done. rewrite O, elem_of_cons. naive_solver.
  - intros t H. destruct (decide (t = old)) as [->|N]; [rewrite lookup_delete_eq in H; by destruct H|].
    rewrite lookup_delete_ne in H by done. apply S', elem_of_cons in H. naive_solver.
  - intros t H. destruct (decide (t = old)) as [->|N]; [rewrite lookup_delete_eq in H; by destruct H|].
    rewrite lookup_delete_ne in H by done. apply M, elem_of_cons in H. naive_solver.
Qed.
Lemma turns_remember turn id actor w (w' := remember_turn turn id actor w) : turns_fine (ch_owners w) (ch_states w) (ch_turnMessages w) (ch_order w) ->
  turns_fine (ch_owners w') (ch_states w') (ch_turnMessages w') (ch_order w').
Proof.
  intros T. destruct (remember_turn_unforgotten turn id actor w T) as (D & F & O & St & M). subst w'. unfold remember_turn.
  match goal with |- context [Nat.ltb maxTurns (length (ch_order ?x))] => set (w1 := x) in * end.
  destruct (Nat.ltb maxTurns (length (ch_order w1))) eqn:C.
  - destruct (ch_order w1) as [|old rest] eqn:E; [by apply Nat.ltb_lt in C; cbn in C; lia|]. by eapply (forget_oldest_short w1); rewrite ?E.
  - apply Nat.ltb_ge in C. by split.
Qed.
Lemma remember_turn_rest turn id actor w (w' := remember_turn turn id actor w) :
  ch_rows w' = ch_rows w /\ ch_answers w' = ch_answers w /\ ch_bytes w' = ch_bytes w /\ ch_dropped w' = ch_dropped w.
Proof. subst w'. unfold remember_turn. destruct (Nat.ltb _ _); [|done]. unfold forget_oldest. by destruct (ch_order _). Qed.
Lemma texts_size_update p f l : (forall a, an_Text (f a) = an_Text a) -> texts_size (update_where p f l) = texts_size l.
Proof.
  intros F. induction l as [|a l IH]; [done|].
  change (texts_size (update_where p f (a :: l))) with (len (an_Text (if p a then f a else a)) + texts_size (update_where p f l)).
  rewrite IH. destruct (p a); [by rewrite F|done].
Qed.
Lemma tail_ack id turn state l b : tail_fine l b -> tail_fine (ack_tail id turn state l) b.
Proof. intros [C S B]. unfold ack_tail. split; rewrite ?update_where_length; [done| |done]. by rewrite texts_size_update. Qed.
Lemma rows_update p f l : (forall r, hw_seq (f r) = hw_seq r /\ an_Text (hw_body (f r)) = an_Text (hw_body r) /\ an_Seq (hw_body (f r)) = an_Seq (hw_body r)) ->
  (NoDup (hw_seq <$> l) -> NoDup (hw_seq <$> update_where p f l)) /\ (Forall row_fine l -> Forall row_fine (update_where p f l)).
Proof.
  intros F. split.
  - rewrite update_where_fmap; [done|apply F].
  - intros H. apply Forall_forall. intros y (x & Hx & ->)%elem_of_update_where. rewrite Forall_forall in H. specialize (H x Hx).
    destruct (p x); [|done]. destruct (F x) as (E1 & E2 & E3). unfold row_fine. by rewrite E1, E2, E3.
Qed.
Lemma chat_note_state kind actor id turn state k w : chat_inv w -> chat_inv (note_state kind actor id turn state k w).1.
Proof.
  intros [O R T U]. unfold note_state. set (turn' := if _ && _ then _ else turn).
  set (w1 := if _ && _ then remember_turn turn' id actor w else w).
  assert (W1 : ch_rows w1 = ch_rows w /\ ch_answers w1 = ch_answers w /\ ch_bytes w1 = ch_bytes w
    /\ turns_fine (ch_owners w1) (ch_states w1) (ch_turnMessages w1) (ch_order w1)).
  { subst w1. destruct (String.eqb kind "turn/running" && negb (String.eqb turn' "")); [|by split_and!]. destruct (remember_turn_rest turn' id actor w) as (E1 & E2 & E3 & _). split_and!; try done. by apply turns_remember. }
  destruct W1 as (E1 & E2 & E3 & U1).
  set (w2 := if bool_decide (is_Some (ch_owners w1 !! turn')) then _ else w1).
  assert (W2 : ch_rows w2 = ch_rows w /\ ch_answers w2 = ch_answers w /\ ch_bytes w2 = ch_bytes w
    /\ turns_fine (ch_owners w2) (ch_states w2) (ch_turnMessages w2) (ch_order w2)).
  { subst w2. case_bool_decide as K; [|done]. cbn. split_and!; try done. destruct U1 as [D F Ow St M]. split; try done.
    intros t H. apply lookup_insert_is_Some in H as [<-|[_ H]]; [by apply Ow|by apply St]. }
  destruct W2 as (F1 & F2 & F3 & U2). clearbody w2. rewrite <- F1 in O, R. rewrite <- F2, <- F3 in T.
  assert (A : NoDup (hw_seq <$> ack_rows id turn' state (ch_rows w2)) /\ Forall row_fine (ack_rows id turn' state (ch_rows w2)))
    by (split; [apply rows_update|apply rows_update]; done).
  destruct A as [A1 A2].
  destruct (lk_ack k); [split; [exact O|exact R|by apply tail_ack|exact U2]|].
  destruct (String.eqb turn' ""); [split; [exact A1|exact A2|by apply tail_ack|exact U2]|].
  destruct (lk_status k); [split; [exact A1|exact A2|by apply tail_ack|exact U2]|].
  split; [by apply rows_update|by apply rows_update|by apply tail_ack|exact U2].
Qed.
Definition op_said (o : chat_op) : Prop :=
  match o with
  | CoAdd e text _ => said (re_Seq e) text
  | CoEvent e _ => forall text, public e text -> said (re_Seq e) text
  | _ => True
  end.
Lemma step_text_public e b : dec_progress (re_Payload e) = Some b -> re_Kind e = "item/completed" -> step_text b <> "" -> public e (step_text b).
Proof.
  intros D K. unfold step_text. destruct (String.eqb (pg_Type b) "agentMessage") eqn:T1.
  - destruct (String.eqb (pg_Phase b) "commentary") eqn:P; [|done]. intros _. left. exists b. apply String.eqb_eq in T1, P. done.
  - intros N. right. left. split; [done|]. unfold step_texts. repeat case_match; try done; repeat ((by left) || right).
Qed.
Lemma chat_progress e k w : (forall text, public e text -> said (re_Seq e) text) -> chat_inv w -> chat_inv (progress e k w).1.
Proof.
  intros P I. unfold progress. destruct (dec_progress (re_Payload e)) as [b|] eqn:D; [|done].
  destruct (negb (String.eqb (kind_state (re_Kind e)) "")); [by apply chat_note_state|].
  destruct (negb (String.eqb (re_Kind e) "item/completed") || String.eqb (step_text b) "") eqn:C; [done|].
  apply orb_false_elim in C as [C1%negb_false_iff%String.eqb_eq C2%String.eqb_neq]. apply chat_add; [|done]. by apply P, step_text_public.
Qed.
Lemma chat_event e k w : (forall text, public e text -> said (re_Seq e) text) -> chat_inv w -> chat_inv (Event e k w).1.
Proof.
  intros P I. pose proof (chat_progress e k w P I) as I'. unfold Event. destruct (progress e k w) as [w' [err|]]; cbn in I'; [done|].
  destruct (existsb (String.eqb (re_Kind e)) accepted_kinds) eqn:K; cbn [negb]; [|done].
  destruct (written_text e) as [[[[body kind] id]|]|] eqn:W; [|done|done]. destruct (splitAttachments body) as [text files] eqn:Sp.
  apply chat_add; [|done]. apply P. right. right. split.
  - apply existsb_exists in K as (x & Hx & ->%String.eqb_eq). by apply list_elem_of_In.
  - exists body, kind, id. cbn. by rewrite Sp.
Qed.
Lemma turns_none : turns_fine ∅ ∅ ∅ [].
Proof. split; [constructor|cbn; unfold maxTurns; lia|..]; intros t; rewrite lookup_empty; (split || idtac); by intros [? ?] || (intros H; by apply elem_of_nil in H). Qed.
Lemma chat_inv_step w o : op_said o -> chat_inv w -> chat_inv (chat_step w o).
Proof.
  intros So I. pose proof I as [O R T U]. destruct o; cbn [chat_step].
  - unfold Room. destruct (String.eqb _ _); [done|]. split; [by destruct failed; [|constructor]|by destruct failed; [|constructor]|split; cbn; [done|done|left; lia]|exact turns_none].
  - by split.
  - by split.
  - unfold ActiveTurn. destruct (String.eqb _ _); [done|]. by split.
  - by split.
  - unfold RefreshRole. destruct reply as [[r a]|]; [|done]. by split.
  - unfold Add. destruct (if String.eqb (re_Payload e) "" then _ else _); [|done]. by apply chat_add.
  - by apply chat_event.
Qed.
Lemma chat_inv_run l w : Forall op_said l -> chat_inv w -> chat_inv (chat_run w l).
Proof. intros F. revert w. induction F as [|o l So F IH]; intros w I; [done|]. by apply IH, chat_inv_step. Qed.
Lemma chat_inv_new : chat_inv new_chat.
Proof. split; [constructor|constructor|split; cbn; [done|done|left; lia]|exact turns_none]. Qed.
End kept.

(** ** The turn of a message

    A turn is remembered under its message too.  That map is as small as the others
    when each turn runs for one message, as the host binds them. *)
Section bound.
Context (message_of : string -> string).
Definition runs_for_one (o : chat_op) : Prop :=
  match o with
  | CoEvent e _ => re_Kind e = "turn/running" -> forall b, dec_progress (re_Payload e) = Some b ->
      pg_Turn b <> "" -> pg_ID b <> "" -> pg_ID b = message_of (pg_Turn b)
  | _ => True
  end.
Record linked (m t : gmap string string) : Prop := mk_linked
  { ln_back : forall id turn, t !! id = Some turn -> m !! turn = Some id;
    ln_one : forall turn id, m !! turn = Some id -> id = message_of turn;
    ln_named : t !! "" = None }.
Abbreviation links w := (linked (ch_turnMessages w) (ch_messageTurns w)).
Lemma links_insert turn id m t : id <> "" -> id = message_of turn -> linked m t -> linked (<[turn := id]> m) (<[id := turn]> t).
Proof.
  intros Ne E [A B C]. split; [| |by rewrite lookup_insert_ne].
  - intros i x. destruct (decide (i = id)) as [->|N].
    + rewrite lookup_insert_eq. intros [= <-]. apply lookup_insert_eq.
    + rewrite lookup_insert_ne by done. intros H. destruct (decide (x = turn)) as [->|Nt]; [|rewrite lookup_insert_ne by done; by apply A].
      destruct N. rewrite E. by apply B, A.
  - intros x i. destruct (decide (x = turn)) as [->|N]; [rewrite lookup_insert_eq; by intros [= <-]|]. rewrite lookup_insert_ne by done. apply B.
Qed.
Lemma links_delete old id m t : m !! old = Some id -> t !! id = Some old -> linked m t -> linked (delete old m) (delete id t).
Proof.
  intros Mo To [A B C]. split.
  - intros i x [N H]%lookup_delete_Some. rewrite lookup_delete_ne; [by apply A|]. intros ->. apply A in H. congruence.
  - intros x i [_ H]%lookup_delete_Some. by apply B.
  - rewrite lookup_delete_None. by right.
Qed.
Lemma links_forget w : links w -> links (forget_oldest w).
Proof.
  intros L. pose proof L as [A B C]. unfold forget_oldest. destruct (ch_order w) as [|old rest]; [done|]. cbn.
  assert (Keep : (forall i, ch_messageTurns w !! i <> Some old) -> linked (delete old (ch_turnMessages w)) (ch_messageTurns w)).
  { intros K. split; [|intros x i [_ H]%lookup_delete_Some; by apply B|done]. intros i x H. rewrite lookup_delete_ne; [by apply A|]. intros ->. by apply (K i). }
  destruct (ch_turnMessages w !! old) as [id|] eqn:M; [|apply Keep; intros i H; apply A in H; congruence].
  destruct (decide (ch_messageTurns w !! id = Some old)) as [T|T].
  - rewrite bool_decide_eq_true_2, andb_true_r by done. destruct (String.eqb_spec id "") as [->|_]; [congruence|]. by apply links_delete.
  - rewrite bool_decide_eq_false_2, andb_false_r by done. apply Keep. intros i H. pose proof (A _ _ H). congruence.
Qed.
Lemma links_remember turn id actor w : (id <> "" -> id = message_of turn) -> links w -> links (remember_turn turn id actor w).
Proof.
  intros E L. unfold remember_turn. match goal with |- context [Nat.ltb maxTurns (length (ch_order ?x))] => set (w1 := x) in * end.
  assert (L1 : links w1) by (subst w1; cbn; destruct (String.eqb_spec id ""); cbn [negb]; [done|]; by apply links_insert; auto).
  destruct (Nat.ltb _ _); [by apply links_forget|done].
Qed.
Lemma add_links a failed w : links w -> links (add a failed w).1.
Proof. intros L. unfold add, saveAnswer. destruct failed; [done|]. destruct (existsb _ _); [done|]. by destruct (trim _ _ _) as [[? ?] ?]. Qed.
Lemma note_state_links kind actor id turn state k w : (kind = "turn/running" -> turn <> "" -> id <> "" -> id = message_of turn) -> links w ->
  links (note_state kind actor id turn state k w).1.
Proof.
  intros E L. unfold note_state. set (turn' := if _ && _ then _ else turn). set (w1 := if _ && _ then remember_turn turn' id actor w else w).
  assert (L1 : links w1).
  { subst w1. destruct (String.eqb_spec kind "turn/running") as [Ek|_]; [|done]. destruct (String.eqb_spec turn' "") as [_|Ne]; [done|]. cbn [negb andb].
    apply links_remember; [|done]. intros Ni. subst turn'. destruct (String.eqb_spec turn "") as [Et|Nt]; [|by apply E].
    destruct (String.eqb_spec id "") as [|_]; [done|]. cbn [negb andb] in *. destruct (ch_messageTurns w !! id) as [t|] eqn:T; [|done].
    cbn. by apply (ln_one _ _ L), (ln_back _ _ L). }
  set (w2 := if bool_decide (is_Some (ch_owners w1 !! turn')) then _ else w1).
  assert (L2 : links w2) by (subst w2; by case_bool_decide). clearbody w2.
  destruct (lk_ack k); [done|]. destruct (String.eqb turn' ""); [done|]. by destruct (lk_status k).
Qed.
Lemma chat_links_step w o : runs_for_one o -> links w -> links (chat_step w o).
Proof.
  intros R L. destruct o; cbn [chat_step]; try done.
  - unfold Room. destruct (String.eqb _ _); [done|]. by split.
  - unfold ActiveTurn. by destruct (String.eqb _ _).
  - unfold RefreshRole. by destruct reply as [[? ?]|].
  - unfold Add. destruct (if String.eqb (re_Payload e) "" then _ else _); [by apply add_links|done].
  - assert (P : links (progress e k w).1).
    { unfold progress. destruct (dec_progress (re_Payload e)) as [b|] eqn:D; [|done].
      destruct (negb (String.eqb (kind_state (re_Kind e)) "")).
      - apply note_state_links; [|done]. intros K. unfold is_recovery. rewrite K. cbn. by apply R.
      - destruct (_ || _); [done|by apply add_links]. }
    unfold Event. destruct (progress e k w) as [w' [err|]]; [done|]. destruct (negb _); [done|].
    destruct (written_text e) as [[[[body kind] id]|]|]; [|done|done]. destruct (splitAttachments body). by apply add_links.
Qed.
Lemma links_size w : links w -> (size (ch_messageTurns w) <= size (ch_turnMessages w))%nat.
Proof.
  intros [A _ _]. rewrite <- (length_map_to_list (ch_turnMessages w)), <- size_dom. unfold size, set_size. cbn.
  rewrite <- (length_fmap snd). apply submseteq_length, NoDup_submseteq; [apply NoDup_elements|].
  intros id [t H]%elem_of_elements%elem_of_dom. apply list_elem_of_fmap. exists (t, id). split; [done|]. by apply elem_of_map_to_list, A.
Qed.
End bound.
(** The names that members were told of. *)
Lemma chat_names_step w o uid : is_Some (ch_names (chat_step w o) !! uid) ->
  is_Some (ch_names w !! uid) \/ exists ms, o = CoMembers ms /\ uid ∈ ms.*1.
Proof.
  assert (Ad : forall a failed w, ch_names (add a failed w).1 = ch_names w).
  { intros a failed w'. unfold add, saveAnswer. destruct failed; [done|]. destruct (existsb _ _); [done|]. by destruct (trim _ _ _) as [[? ?] ?]. }
  assert (Re : forall turn id actor w, ch_names (remember_turn turn id actor w) = ch_names w).
  { intros. unfold remember_turn. destruct (Nat.ltb _ _); [|done]. unfold forget_oldest. by destruct (ch_order _). }
  destruct o; cbn [chat_step]; try (by left).
  - unfold Room. destruct (String.eqb _ _); [by left|]. cbn. rewrite lookup_empty. by intros [? ?].
  - unfold ActiveTurn. destruct (String.eqb _ _); by left.
  - cbn. intros H. assert (G : is_Some (ch_names w !! uid) \/ uid ∈ l.*1); [|destruct G; [by left|right; by exists l]]. revert H. generalize (ch_names w).
    induction l as [|[u n] l IH]; intros m H; [by left|]. destruct (IH _ H) as [[<-|[_ K]]%lookup_insert_is_Some|K]; [right; left|by left|by right; right].
  - unfold RefreshRole. destruct reply as [[? ?]|]; by left.
  - unfold Add. destruct (if String.eqb (re_Payload e) "" then _ else _); [rewrite Ad|]; by left.
  - assert (P : ch_names (progress e k w).1 = ch_names w).
    { unfold progress. destruct (dec_progress (re_Payload e)) as [b|]; [|done]. destruct (negb (String.eqb _ "")); [|destruct (_ || _); [done|apply Ad]].
      unfold note_state. repeat case_match; cbn; rewrite ?Re; done. }
    unfold Event. destruct (progress e k w) as [w' [err|]]; cbn in P; [rewrite <- P; by left|]. destruct (negb _); [rewrite <- P; by left|].
    destruct (written_text e) as [[[[body kind] id]|]|]; [|rewrite <- P; by left..]. destruct (splitAttachments body). rewrite Ad, P. by left.
Qed.
Lemma chat_run_snoc w l o : chat_run w (l ++ [o]) = chat_step (chat_run w l) o.
Proof. apply foldl_snoc. Qed.

(** Where a text of the page comes from. *)
Definition told (l : list chat_op) (seq : Z) (text : string) : Prop :=
  (exists e failed, CoAdd e text failed ∈ l /\ re_Seq e = seq) \/ (exists e k, CoEvent e k ∈ l /\ re_Seq e = seq /\ public e text).
(** C15: Whatever a room tells a page and whichever statements of its table fail, the table has at most one message for an event; a message
    is a finished answer, a comment the agent made publicly, the fact of a step, or what a member wrote, never what the agent reasoned
    or streamed; and the page keeps at most a hundred messages and eight megabytes of text in memory, but for a single long one, four
    thousand turns, as many messages of turns when each turn runs for one message, and names only of the members it was told of. *)
Theorem chat_page_is_public_and_bounded l :
  let w := chat_run new_chat l in
  NoDup (hw_seq <$> ch_rows w)
  /\ (forall r, r ∈ ch_rows w -> told l (hw_seq r) (an_Text (hw_body r)))
  /\ Z.of_nat (length (ch_answers w)) <= maxAnswers /\ ((length (ch_answers w) <= 1)%nat \/ texts_size (ch_answers w) <= maxTextBytes)
  /\ (size (ch_owners w) <= maxTurns)%nat /\ (size (ch_states w) <= maxTurns)%nat /\ (size (ch_turnMessages w) <= maxTurns)%nat
  /\ (forall message_of, Forall (runs_for_one message_of) l -> (size (ch_messageTurns w) <= maxTurns)%nat)
  /\ (forall uid, is_Some (ch_names w !! uid) -> exists ms, CoMembers ms ∈ l /\ uid ∈ ms.*1).
Proof.
  intros w. destruct (chat_inv_run (told l) l new_chat) as [O R T U]; [|apply chat_inv_new|].
  { apply Forall_forall. intros o Ho. destruct o; cbn; try done; [left; by exists e, failed|intros t P; right; by exists e, k]. }
  fold w in O, R, T, U. destruct T as [C E B]. destruct U as [D F Ow St M].
  assert (Few : forall A (m : gmap string A), (forall t, is_Some (m !! t) -> t ∈ ch_order w) -> (size m <= maxTurns)%nat).
  { intros A m Sub. rewrite <- size_dom. etrans; [|exact F]. rewrite <- (size_list_to_set (C := gset string) (ch_order w)) by done.
    apply subseteq_size. intros t Ht. apply elem_of_list_to_set, Sub. by apply elem_of_dom. }
  split_and!; try done.
  - intros r Hr. rewrite Forall_forall in R. by apply R.
  - rewrite <- E. exact B.
  - apply Few. intros t H. by apply Ow.
  - by apply Few.
  - by apply Few.
  - intros message_of One. etrans; [|by apply (Few _ (ch_turnMessages w))]. apply (links_size message_of). subst w. clear -One.
    induction l as [|o l IH] using rev_ind; [by split|]. apply Forall_app in One as [One Ro]. apply Forall_cons in Ro as [Ro _]. rewrite chat_run_snoc. apply chat_links_step; [exact Ro|exact (IH One)].
  - subst w. clear. induction l as [|o l IH] using rev_ind; intros uid; [cbn; rewrite lookup_empty; by intros [? ?]|]. rewrite chat_run_snoc.
    intros [H|(ms & -> & H)]%chat_names_step; [destruct (IH uid H) as (ms & Hm & Hu)|]; exists ms; (split; [|done]); apply elem_of_app; [by left|right; by left].
Qed.

(** ** Paging *)

Definition newer_first : history_row -> Z := fun r => - hw_seq r.
Lemma strictly_sorted_distinct {A} (key : A -> Z) l : StronglySorted (key_lt key) l -> NoDup l.
Proof.
  induction 1 as [|x l H IH F]; constructor; [|done]. intros Hx. rewrite Forall_forall in F. specialize (F x Hx). unfold key_lt in F. lia.
Qed.
Lemma strictly_sorted_unique {A} (key : A -> Z) l l' : StronglySorted (key_lt key) l -> StronglySorted (key_lt key) l' -> (forall x, x ∈ l <-> x ∈ l') -> l = l'.
Proof.
  intros S S' E. apply (StronglySorted_unique_strong (key_le key)).
  - intros x y Hx Hy H1 H2. apply (StronglySorted_lt_inj key l); [done|done|by apply E|]. unfold key_le in *. lia.
  - by apply StronglySorted_lt_le.
  - by apply StronglySorted_lt_le.
  - apply NoDup_Permutation; [by eapply strictly_sorted_distinct|by eapply strictly_sorted_distinct|done].
Qed.
Lemma order_by_strict {A} (key : A -> Z) l : NoDup (key <$> l) -> StronglySorted (key_lt key) (order_by key l).
Proof.
  intros N. assert (N' : NoDup (key <$> order_by key l)) by (by rewrite (order_by_Permutation key l)).
  assert (S : StronglySorted (key_le key) (order_by key l)) by (apply StronglySorted_merge_sort; apply _).
  clear N. induction S as [|x m S IH F]; [constructor|]. cbn in N'. apply NoDup_cons in N' as [Nx N']. constructor; [by apply IH|].
  rewrite Forall_forall in F |- *. intros y Hy. specialize (F y Hy). unfold key_le, key_lt in *. assert (key x <> key y); [|lia].
  intros E. apply Nx. apply list_elem_of_fmap. by exists y.
Qed.
Lemma rows_before_elem b l r : r ∈ rows_before b l <-> r ∈ l /\ hw_seq r < b.
Proof. unfold rows_before. rewrite (order_by_Permutation newer_first), filter_elem_of. rewrite Z.ltb_lt. done. Qed.
Lemma rows_before_sorted b l : NoDup (hw_seq <$> l) -> StronglySorted (key_lt newer_first) (rows_before b l).
Proof.
  intros N. apply (order_by_strict newer_first).
  assert (E : newer_first <$> List.filter (fun r => hw_seq r <? b) l = Z.opp <$> (hw_seq <$> List.filter (fun r => hw_seq r <? b) l)) by (rewrite <- list_fmap_compose; done).
  assert (Inj (=) (=) Z.opp) by (intros x y H; lia). rewrite E. apply (NoDup_fmap_2 Z.opp). clear E.
  induction l as [|r l IH]; [constructor|]. cbn in N |- *. apply NoDup_cons in N as [Nr N]. destruct (hw_seq r <? b); [|by apply IH].
  cbn. apply NoDup_cons. split; [|by apply IH]. intros (r' & Er & [Hr _]%filter_elem_of)%list_elem_of_fmap. apply Nr, list_elem_of_fmap. by exists r'.
Qed.
Lemma scan_rows_spec rows : forall result total, exists k, scan_rows result total rows = (result ++ (hw_body <$> take k rows), bool_decide (k < length rows)%nat)
  /\ (k <= length rows)%nat /\ (result = [] -> rows <> [] -> (1 <= k)%nat).
Proof.
  induction rows as [|r rows IH]; intros result total; cbn [scan_rows].
  - exists 0%nat. cbn. rewrite app_nil_r. split_and!; [done|lia|done].
  - destruct (negb (bool_decide (result = [])) && (maxTextBytes <? total + len (an_Text (hw_body r)))) eqn:C.
    + exists 0%nat. cbn. rewrite app_nil_r. split_and!; [done|lia|]. intros ->. by rewrite bool_decide_eq_true_2 in C.
    + destruct (IH (result ++ [hw_body r]) (total + len (an_Text (hw_body r)))) as (k & E & Le & _). exists (S k). rewrite E. split_and!; [|cbn; lia|lia].
      cbn [take fmap list_fmap]. rewrite <- app_assoc. cbn [app length]. f_equal. apply bool_decide_ext. lia.
Qed.
(** A page is the newest rows before the cursor, at most fifty and at least one, in the order they came; and there are more exactly when there are. *)
Lemma history_page_spec before l (R := rows_before (if before =? 0 then max_cursor else before) l) :
  exists k, historyPage before l = (rev (hw_body <$> take k R), bool_decide (k < length R)%nat) /\ (k <= 50)%nat /\ (k <= length R)%nat /\ (R <> [] -> (1 <= k)%nat).
Proof.
  unfold historyPage. fold R. destruct (scan_rows_spec (take 51 R) [] 0) as (k & E & Le & One). rewrite E. cbn [app]. rewrite length_take in *.
  exists (Nat.min 50 k). assert (Lk : length (hw_body <$> take k (take 51 R)) = k) by (rewrite length_fmap, !length_take; lia). rewrite Lk. split_and!; [|lia|lia|].
  - f_equal.
    + rewrite <- fmap_take, !take_take. do 3 f_equal. lia.
    + destruct (Nat.ltb 50 k) eqn:C; [apply Nat.ltb_lt in C|apply Nat.ltb_ge in C]; cbn [orb]; [symmetry; apply bool_decide_eq_true_2; lia|apply bool_decide_ext; lia].
  - intros N. assert (take 51 R <> []) by (destruct R; done). specialize (One eq_refl H). lia.
Qed.
(** A reader who asks for the page before the oldest message shown, while there are more; whether it came to the end. *)
Fixpoint read_back (fuel : nat) (before : Z) (l : list history_row) : list Answer * bool :=
  match fuel with
  | O => ([], false)
  | S f =>
      let (page, more) := historyPage before l in
      if more then match page with a :: _ => let (older, complete) := read_back f (an_Seq a) l in (older ++ page, complete) | [] => ([], false) end
      else (page, true)
  end.
(** What is before the last row of a page is what the page left. *)
Lemma rows_before_rest b l k r (R := rows_before b l) : NoDup (hw_seq <$> l) -> R !! k = Some r -> rows_before (hw_seq r) l = drop (S k) R.
Proof.
  intros N Hr. pose proof (rows_before_sorted b l N) as S. fold R in S. apply (strictly_sorted_unique newer_first).
  - by apply rows_before_sorted.
  - rewrite <- (take_drop (Datatypes.S k) R) in S. by apply StronglySorted_app_1_r in S.
  - intros x. rewrite rows_before_elem. rewrite <- (take_drop (Datatypes.S k) R) in S. rewrite (take_S_r _ _ _ Hr) in S.
    assert (Rb : hw_seq r < b) by (apply (rows_before_elem b l); apply list_elem_of_lookup; by exists k).
    split.
    + intros [Hx Lt]. assert (Hx' : x ∈ R) by (apply rows_before_elem; split; [done|lia]).
      rewrite <- (take_drop (Datatypes.S k) R), (take_S_r _ _ _ Hr) in Hx'. apply elem_of_app in Hx' as [Hx'|Hx']; [|done]. exfalso.
      apply elem_of_app in Hx' as [Hx'|Hx'%list_elem_of_singleton]; [|subst; lia].
      apply StronglySorted_app_1_l in S. assert (key_lt newer_first x r) as K; [|unfold key_lt, newer_first in K; lia].
      eapply StronglySorted_app_1_elem_of; [exact S|done|by apply list_elem_of_singleton].
    + intros Hx. split; [apply (rows_before_elem b); by eapply subseteq_drop|].
      assert (key_lt newer_first r x) as K; [|unfold key_lt, newer_first in K; lia].
      eapply StronglySorted_app_1_elem_of; [exact S|apply elem_of_app; right; by apply list_elem_of_singleton|done].
Qed.
Lemma read_back_all l : NoDup (hw_seq <$> l) -> Forall (fun r => an_Seq (hw_body r) = hw_seq r /\ 0 < hw_seq r) l ->
  forall fuel b (R := rows_before (if b =? 0 then max_cursor else b) l), (length R < fuel)%nat -> read_back fuel b l = (rev (hw_body <$> R), true).
Proof.
  intros N F. induction fuel as [|fuel IH]; intros b R Le; [lia|]. cbn [read_back].
  destruct (history_page_spec b l) as (k & E & K50 & Kr & One). fold R in E, Kr, One. rewrite E. case_bool_decide as More.
  - assert (Ne : R <> []) by (intros X; rewrite X in More; cbn in More; lia). specialize (One Ne).
    destruct k as [|k]; [lia|]. destruct (R !! k) as [r|] eqn:Hr; [|apply lookup_ge_None in Hr; lia].
    rewrite (take_S_r _ _ _ Hr), fmap_app, rev_app_distr. cbn [fmap list_fmap rev app].
    assert (Hl : r ∈ l) by (apply (rows_before_elem (if b =? 0 then max_cursor else b)); apply list_elem_of_lookup; by exists k).
    rewrite Forall_forall in F. destruct (F r Hl) as [Es Pos]. rewrite Es.
    assert (Z0 : (hw_seq r =? 0) = false) by lia. specialize (IH (hw_seq r)). cbv zeta in IH. rewrite Z0, (rows_before_rest _ _ _ _ N Hr) in IH. fold R in IH.
    rewrite IH by (rewrite length_drop; lia). f_equal. rewrite <- (take_drop (S k) R) at 3. rewrite (take_S_r _ _ _ Hr), !fmap_app, !rev_app_distr. done.
  - f_equal. by rewrite take_ge by lia.
Qed.
(** C14: Paging shows the whole history: a reader who goes back page by page comes to the end, and has then seen every message of the table
    exactly once and in the order of the events. *)
Theorem history_pages_complete l :
  NoDup (hw_seq <$> l) -> Forall (fun r => an_Seq (hw_body r) = hw_seq r /\ 0 < hw_seq r /\ hw_seq r < max_cursor) l ->
  read_back (S (length l)) 0 l = (hw_body <$> order_by hw_seq l, true).
Proof.
  intros N F. assert (All : List.filter (fun r => hw_seq r <? max_cursor) l = l).
  { rewrite Forall_forall in F. clear N. induction l as [|r l IH]; [done|]. cbn. destruct (F r) as (_ & _ & B); [by apply elem_of_cons; left|].
    rewrite (proj2 (Z.ltb_lt _ _) B). f_equal. apply IH. intros x Hx. apply F. by apply elem_of_cons; right. }
  assert (E : rev (rows_before max_cursor l) = order_by hw_seq l).
  { apply (strictly_sorted_unique hw_seq).
    - pose proof (rows_before_sorted max_cursor l N) as S. induction S as [|x m S IH Fx]; [constructor|]. cbn. apply StronglySorted_snoc; [done|].
      intros y Hy. apply list_elem_of_In, in_rev, list_elem_of_In in Hy. rewrite Forall_forall in Fx. specialize (Fx y Hy). unfold key_lt, newer_first in *. lia.
    - by apply order_by_strict.
    - intros x. rewrite list_elem_of_In, <- in_rev, <- list_elem_of_In. unfold rows_before. by rewrite !order_by_Permutation, All. }
  rewrite (read_back_all l N).
  - change (if 0 =? 0 then max_cursor else 0) with max_cursor. rewrite <- E. unfold fmap. by rewrite <- map_rev.
  - eapply Forall_impl; [exact F|]. cbn. tauto.
  - change (if 0 =? 0 then max_cursor else 0) with max_cursor. unfold rows_before. rewrite (Permutation_length (order_by_Permutation newer_first _)), All. lia.
Qed.

(** ** Answers and submissions *)

(** A state that was noted is the state of every prompt it is about. *)
Lemma state_is_noted kind actor id turn state w w' : note_state kind actor id turn state (mkLuck None None None) w = (w', None) -> turn <> "" ->
  forall r, r ∈ ch_rows w' -> hw_role r = "user" -> hw_turn r = turn -> an_Ack (hw_body r) = state /\ an_TaskStatus (hw_body r) = state.
Proof.
  intros E Nt r Hr Ur Tr. unfold note_state in E. assert (T0 : String.eqb turn "" = false) by by apply String.eqb_neq.
  rewrite T0 in E. cbn [andb lk_ack lk_status] in E. rewrite T0 in E. injection E as <-.
  cbn [ch_rows touch set_rows] in Hr. apply elem_of_update_where in Hr as (r1 & Hr1 & ->).
  apply elem_of_update_where in Hr1 as (r0 & Hr0 & ->).
  destruct (String.eqb (hw_role r0) "user" && concerns id turn (hw_client r0) (hw_turn r0)) eqn:C.
  - cbn [hw_turn] in *. rewrite T0 in *. rewrite String.eqb_refl in *. done.
  - destruct (String.eqb (hw_turn r0) turn) eqn:Et; cbn in Ur, Tr |- *.
    + rewrite Ur in C. cbn in C. unfold concerns in C. rewrite Et, T0 in C. cbn in C. by rewrite orb_true_r in C.
    + by rewrite Tr, String.eqb_refl in Et.
Qed.
(** What a page hands to the client is what a member who may write asked for on this page, under the identifier they gave it; a
    cancellation is for the turn that is shown as running. *)
Lemma post_is_the_members token r is_json body chat channel w s : post_submission token r is_json body chat channel w = Ok s ->
  same_page r = true /\ ch_role w <> "visitor" /\ ch_role w <> "asker" /\ is_ok (Submission_Validate s) = true
  /\ (exists b, body = Some b /\ sb_ID s = po_ID b /\ sb_Text s = po_Text b /\ sb_TaskID s = po_TaskID b)
  /\ (sb_Method s = "cancel" -> ch_connected w = true /\ ch_active w <> "" /\ sb_ExpectedTurnID s = ch_active w).
Proof.
  unfold post_submission. destruct (existsb _ _) eqn:Ro; [done|]. destruct (same_page r); [|done]. cbn [negb]. destruct is_json; [|done]. cbn [negb].
  destruct body as [b|]; [|done].
  match goal with |- context [Submission_Validate ?x] => set (sub := x) end.
  destruct (_ && (negb (ch_connected w) || _ || _)) eqn:C; [done|]. destruct (Submission_Validate sub) eqn:V; [|done]. destruct chat; [|done].
  intros E. injection E as <-. cbn in Ro. apply orb_false_elim in Ro as [R1 R2]. apply orb_false_elim in R2 as [R2 _].
  split_and!; [done|by apply String.eqb_neq|by apply String.eqb_neq|by rewrite V|by exists b|]. subst sub. cbn.
  destruct (String.eqb (ht_Path r) (token +:+ "cancel")); [|by destruct (0 <? po_TaskID b)]. intros _. cbn in C.
  apply orb_false_elim in C as [C C3]. apply orb_false_elim in C as [C1 C2]. apply negb_false_iff in C1, C3. apply String.eqb_eq in C3. apply String.eqb_neq in C2. done.
Qed.

(** ** A conversation *)

Definition room_event (seq : Z) (kind : string) (actor : Z) (payload : string) : RoomEvent :=
  {| re_Seq := seq; re_Kind := kind; re_ActorUID := actor; re_Payload := payload; re_CreatedAt := "2024-05-06T07:08:09.5Z" |}.
Definition fine : luck := mkLuck None None None.
Definition conversation : list chat_op :=
  [CoRoom "team" false; CoMembers [(7, "ann")];
   CoEvent (room_event 1 "message/accepted" 7 (bq "{`body`:`please look`,`kind`:`prompt`,`client_message_id`:`m1`}")) fine;
   CoEvent (room_event 2 "turn/running" 7 (bq "{`turn_id`:`t1`,`client_message_id`:`m1`}")) fine;
   CoEvent (room_event 3 "item/completed" 7 (bq "{`turn_id`:`t1`,`payload`:{`type`:`reasoning`,`text`:`private`}}")) fine;
   CoEvent (room_event 4 "item/completed" 7 (bq "{`turn_id`:`t1`,`payload`:{`type`:`agentMessage`,`phase`:`commentary`,`text`:`looking`}}")) fine;
   CoEvent (room_event 4 "item/completed" 7 (bq "{`turn_id`:`t1`,`payload`:{`type`:`agentMessage`,`phase`:`commentary`,`text`:`looking`}}")) fine;
   CoAdd (room_event 5 "item/completed" 7 (bq "{`turn_id`:`t1`,`payload`:{`agentId`:`a`}}")) "done" None;
   CoEvent (room_event 6 "turn/completed" 7 (bq "{`turn_id`:`t1`}")) fine].
Example conversation_shown :
  let w := chat_run new_chat conversation in
  (fun a => (an_Seq a, an_Text a, an_Author a, an_Ack a, an_TaskStatus a, an_Owner a, an_Time a)) <$> (answers_page w).1
  = [(1, "please look", "ann", "处理完成。", "处理完成。", Some 7, "2024-05-06T07:08:09Z");
     (4, "looking", "模型", "", "处理完成。", Some 7, "2024-05-06T07:08:09Z"); (5, "done", "工作组", "", "处理完成。", Some 7, "2024-05-06T07:08:09Z")].
Proof. vm_compute. reflexivity. Qed.
Lemma chat_page_is_public_and_bounded_witness :
  let w := chat_run new_chat conversation in
  (hw_seq <$> ch_rows w) = [1; 4; 5] /\ size (ch_messageTurns w) = 1%nat /\ (size (ch_messageTurns w) <= maxTurns)%nat
  /\ forall r, r ∈ ch_rows w -> told conversation (hw_seq r) (an_Text (hw_body r)).
Proof.
  split; [by vm_compute|]. split; [by vm_compute|]. pose proof (chat_page_is_public_and_bounded conversation) as H.
  split; [|apply H]. destruct H as (_ & _ & _ & _ & _ & _ & _ & H & _). apply (H (fun _ => "m1")).
  unfold conversation. repeat (constructor; [first [exact I|cbn [runs_for_one]; intros K b D; first [discriminate K|vm_compute in D; injection D as <-; done]]|]). constructor.
Defined.
Definition old_row (n : Z) : history_row :=
  mkHistoryRow n (mkAnswer [] "" None "" "" n (itoa n) "assistant" "" 0 "" "" "") "" "" "assistant".
Definition sixty : list history_row := old_row <$> (Z.of_nat <$> seq 1 60).
Lemma history_pages_complete_witness :
  (historyPage 0 sixty).2 = true /\ length (historyPage 0 sixty).1 = 50%nat /\ read_back 61 0 sixty = (hw_body <$> order_by hw_seq sixty, true).
Proof.
  split; [by vm_compute|]. split; [by vm_compute|]. apply (history_pages_complete sixty).
  - apply (bool_decide_unpack (NoDup (hw_seq <$> sixty))). vm_compute. done.
  - apply Forall_forall. intros r (z & -> & (n & -> & Hn%elem_of_seq)%list_elem_of_fmap)%list_elem_of_fmap. unfold max_cursor. cbn. lia.
Defined.
