(* ===== verification/Dashboard.v ===== *)
(** * The rooms and agents of one machine ([internal/dashboard/server.go], [agents.go],
      [agent_health.go], [catalog.go])

    A dashboard keeps the connections of this machine to rooms, and the agents that
    work here for them.  Its mutex makes every request one step; a connection and an
    agent have goroutines, and an agent is at a point between two waits.  What the
    host answers, what an agent's program returns and what the catalog of credentials
    says are arguments of the moves. *)
From S2P Require Import Prelude GoStrings Sha256 Json RoomTypes TerminalText GoUrl ResourceRequest Workgroup WorkgroupRun Workspace RemoteWorkers.

(** ** Rooms *)

Record DashRoom := mkDashRoom { dr_ID : string; dr_Address : string; dr_Session : string; dr_Name : string; dr_Kind : string; dr_Project : string;
  dr_Status : string; dr_Detail : string; dr_URL : string }.
Definition with_state (status detail url : string) (r : DashRoom) : DashRoom :=
  mkDashRoom (dr_ID r) (dr_Address r) (dr_Session r) (dr_Name r) (dr_Kind r) (dr_Project r) status detail url.
Definition identity (address session name : string) : string := sha256_hex (address +:+ nl +:+ session +:+ nl +:+ name).
(** [Catalog.Add]: the name a member may take. *)
Definition room_name (name : string) : result verr string :=
  let name := TrimSpace name in
  if String.eqb name "" || (64 <? len name) || ContainsAny name [0; 13; 10; 9] then Err "请输入 1–64 字节的昵称"
  else if existsb (fun r => IsControl r || IsFormat r) (runes name) then Err "昵称不能包含控制字符"
  else Ok name.
Definition project_name (project : string) : string :=
  let trimmed := str_rev ((fix go (s : string) := match s with String c r => if (code c =? 47) || (code c =? 92) then go r else s | "" => "" end) (str_rev project)) in
  Base (of_bytes ((fun c => if code c =? 92 then chr 47 else c) <$> bytes trimmed)).

(** ** State *)

(** A connection: [dc_running] is [cancel != nil], [dc_ended] its context. *)
Record dash_conn := mkDashConn { dc_room : DashRoom; dc_running : bool; dc_ended : bool }.
(** A job of an agent: its context, and what its program returned. *)
Record dash_job := mkDashJob { dj_work : Work; dj_cancelled : bool; dj_done : option (result verr Result) }.
Inductive agent_act :=
| AaTake (id : string)
| AaRun (id : string) (root : string) (w : Work)
| AaEnd (id : string) (r : result verr Result)
| AaReport (id : string) (text : string) (changes : list WorkspaceChange) (failed : bool)
| AaLeave.
Inductive check_point := CkProbe | CkConfirm | CkWait.
Inductive agent_point :=
| AgTop | AgHealth | AgCheck (c : check_point) | AgPoll | AgSelect | AgReport (failed : bool) (text : string) | AgEnding | AgLeaving | AgGone.
(** [la_needs], [la_healthy], [la_seen], [la_jobID] and [la_job] are the variables of
    its goroutine; [la_recheck] is a channel of one place. *)
Record local_agent := mkLocalAgent
  { la_key : string; la_room : string; la_conn : nat; la_agentName : string; la_scope : string; la_provider : string; la_project : string; la_mode : string;
    la_worker : string; la_state : string; la_detail : string; la_recheck : bool; la_cancelled : bool;
    la_needs : bool; la_healthy : option Z; la_seen : list string; la_jobID : string; la_job : option dash_job; la_at : agent_point; la_log : list agent_act }.
Definition agent_at (p : agent_point) (a : local_agent) : local_agent :=
  mkLocalAgent (la_key a) (la_room a) (la_conn a) (la_agentName a) (la_scope a) (la_provider a) (la_project a) (la_mode a) (la_worker a) (la_state a) (la_detail a)
    (la_recheck a) (la_cancelled a) (la_needs a) (la_healthy a) (la_seen a) (la_jobID a) (la_job a) p (la_log a).
Definition agent_status (state detail : string) (a : local_agent) : local_agent :=
  mkLocalAgent (la_key a) (la_room a) (la_conn a) (la_agentName a) (la_scope a) (la_provider a) (la_project a) (la_mode a) (la_worker a) state detail
    (la_recheck a) (la_cancelled a) (la_needs a) (la_healthy a) (la_seen a) (la_jobID a) (la_job a) (la_at a) (la_log a).
Definition set_recheck (b : bool) (a : local_agent) : local_agent :=
  mkLocalAgent (la_key a) (la_room a) (la_conn a) (la_agentName a) (la_scope a) (la_provider a) (la_project a) (la_mode a) (la_worker a) (la_state a) (la_detail a)
    b (la_cancelled a) (la_needs a) (la_healthy a) (la_seen a) (la_jobID a) (la_job a) (la_at a) (la_log a).
Definition end_agent (a : local_agent) : local_agent :=
  mkLocalAgent (la_key a) (la_room a) (la_conn a) (la_agentName a) (la_scope a) (la_provider a) (la_project a) (la_mode a) (la_worker a) (la_state a) (la_detail a)
    (la_recheck a) true (la_needs a) (la_healthy a) (la_seen a) (la_jobID a) (la_job a) (la_at a) (la_log a).
Definition set_health (needs : bool) (h : option Z) (a : local_agent) : local_agent :=
  mkLocalAgent (la_key a) (la_room a) (la_conn a) (la_agentName a) (la_scope a) (la_provider a) (la_project a) (la_mode a) (la_worker a) (la_state a) (la_detail a)
    (la_recheck a) (la_cancelled a) needs h (la_seen a) (la_jobID a) (la_job a) (la_at a) (la_log a).
Definition set_job (id : string) (j : option dash_job) (a : local_agent) : local_agent :=
  mkLocalAgent (la_key a) (la_room a) (la_conn a) (la_agentName a) (la_scope a) (la_provider a) (la_project a) (la_mode a) (la_worker a) (la_state a) (la_detail a)
    (la_recheck a) (la_cancelled a) (la_needs a) (la_healthy a) (la_seen a) id j (la_at a) (la_log a).
Definition see (id : string) (a : local_agent) : local_agent :=
  mkLocalAgent (la_key a) (la_room a) (la_conn a) (la_agentName a) (la_scope a) (la_provider a) (la_project a) (la_mode a) (la_worker a) (la_state a) (la_detail a)
    (la_recheck a) (la_cancelled a) (la_needs a) (la_healthy a) (id :: la_seen a) (la_jobID a) (la_job a) (la_at a) (la_log a).
Definition log_act (x : agent_act) (a : local_agent) : local_agent :=
  mkLocalAgent (la_key a) (la_room a) (la_conn a) (la_agentName a) (la_scope a) (la_provider a) (la_project a) (la_mode a) (la_worker a) (la_state a) (la_detail a)
    (la_recheck a) (la_cancelled a) (la_needs a) (la_healthy a) (la_seen a) (la_jobID a) (la_job a) (la_at a) (la_log a ++ [x]).

(** ** An agent ([runLocalAgent], [checkAgent]) *)

Definition half_hour : Z := 1800000000000.
(** The goroutine returns with a state; the deferred calls follow. *)
Definition fails_with (detail : string) (a : local_agent) : local_agent := agent_at AgEnding (agent_status "error" detail a).
Definition agent_top (now : Z) (a : local_agent) : local_agent :=
  let needs := la_needs a || la_recheck a in
  let a := set_recheck false (set_health needs (la_healthy a) a) in
  let stale := match la_healthy a with Some t => half_hour <? now - t | None => true end in
  agent_at (if String.eqb (la_jobID a) "" && (needs || stale) then AgHealth else AgPoll) a.
Definition checking_detail : string := "正在验证模型响应和工具权限（最长 90 秒）".
Definition begin_check (a : local_agent) : local_agent := agent_at (AgCheck CkProbe) (agent_status "checking" checking_detail a).
Definition agent_health (r : result verr WorkerReply) (a : local_agent) : local_agent :=
  match r with
  | Ok y =>
      if String.eqb (wy_State y) "busy" then agent_at AgPoll a
      else if negb (String.eqb (wy_State y) "health-accepted") then fails_with "Host 不支持健康检查，请更新 Host" a
      else begin_check a
  | Err e => fails_with ("Host 健康检查协议或连接失败，请更新 Host 并重新邀请：" +:+ e) a
  end.
(** The probe has ended, or was stopped because the context or the host was gone. *)
Definition check_failed (why : verr) (a : local_agent) : local_agent := agent_at (AgCheck CkWait) (agent_status "error" why a).
Definition probe_ended (alive : bool) (failed : option verr) (a : local_agent) : local_agent :=
  if negb alive then agent_at AgEnding a else
  match failed with Some e => check_failed e a | None => agent_at (AgCheck CkConfirm) a end.
Definition check_confirmed (now : Z) (r : result verr WorkerReply) (a : local_agent) : local_agent :=
  match r with
  | Err e => fails_with ("健康回执未确认，请重新邀请：" +:+ e) a
  | Ok y => if negb (String.eqb (wy_State y) "health-accepted") then check_failed "Host 未确认健康状态，请更新 Host" a
            else agent_at AgPoll (set_health false (Some now) (agent_status "idle" "" a))
  end.
Inductive waiting := WtDone | WtRecheck | WtPolled (r : option verr).
Definition check_waits (x : waiting) (alive : bool) (a : local_agent) : local_agent :=
  match x with
  | WtDone => if alive then a else agent_at AgEnding a
  | WtRecheck => if la_recheck a then begin_check (set_recheck false a) else a
  | WtPolled None => a
  | WtPolled (Some _) => fails_with "连接已断开，请移除后重新邀请 Agent" a
  end.
(** The program of an agent is started where the member said, or in a copy of the host's project. *)
Definition start_work (id : string) (w : Work) (a : local_agent) : local_agent :=
  let w := ({| as_StepID := as_StepID w.1; as_StepPrompt := as_StepPrompt w.1; as_DependsOn := as_DependsOn w.1; as_Version := as_Version w.1; as_ID := as_ID w.1;
               as_AgentID := as_AgentID w.1; as_HumanUID := as_HumanUID w.1; as_ProjectRoot := la_project a; as_TaskID := as_TaskID w.1; as_HumanPrompt := as_HumanPrompt w.1;
               as_Prompt := as_Prompt w.1; as_Instructions := as_Instructions w.1; as_Prior := as_Prior w.1 |}, w.2) in
  let a := agent_status "working" "" (log_act (AaTake id) (see id a)) in
  if String.eqb (la_scope a) "host" && bool_decide (w.2 = None)
  then let e := Err "Host 未提供项目副本，不执行任务" in log_act (AaEnd id e) (set_job id (Some (mkDashJob w false (Some e))) a)
  else log_act (AaRun id (la_project a) w) (set_job id (Some (mkDashJob w false None)) a).
Definition stop_job (a : local_agent) : local_agent :=
  match la_job a with Some j => set_job (la_jobID a) (Some (mkDashJob (dj_work j) true (dj_done j))) a | None => a end.
Definition agent_polled (alive : bool) (r : result verr WorkerReply) (a : local_agent) : local_agent :=
  match r with
  | Err _ => if alive then fails_with "连接中断，本次工作结果需核对；不会自动重跑" a else agent_at AgEnding a
  | Ok y =>
      let free := String.eqb (la_jobID a) "" in
      if negb (String.eqb (wy_JobID y) "") && bool_decide (wy_Assignment y = None) && free && negb (wy_Cancel y)
      then fails_with "派发回执丢失或已被领取，请核对任务；不会重复执行" a else
      let a := if wy_Cancel y then stop_job a else a in
      match wy_Assignment y with
      | Some w => if negb free then agent_at AgSelect a
                  else if existsb (String.eqb (wy_JobID y)) (la_seen a) then fails_with "Host 重复投递已处理任务，已停止以避免重复执行" a
                  else agent_at AgSelect (start_work (wy_JobID y) w a)
      | None => agent_at AgSelect a
      end
  end.
Inductive selected := SlDone | SlResult | SlTick.
Definition work_failed : string := "本机 Agent 执行未完成，请在本机核对登录、连接和权限".
Definition agent_selects (x : selected) (alive : bool) (a : local_agent) : local_agent :=
  match x with
  | SlDone => if alive then a else agent_at AgEnding a
  | SlTick => agent_at AgTop a
  | SlResult =>
      match la_job a with
      | Some j =>
          match dj_done j with
          | Some r =>
              let '(text, changes, failed) := match r with Ok r => (re_Text r, re_Changes r, false) | Err _ => (work_failed, [], true) end in
              agent_at (AgReport failed text) (log_act (AaReport (la_jobID a) text changes failed) (set_job (la_jobID a) None a))
          | None => a
          end
      | None => a
      end
  end.
Definition agent_reported (now : Z) (r : option verr) (failed : bool) (text : string) (a : local_agent) : local_agent :=
  match r with
  | Some _ => fails_with "回执未确认，请核对 Room；不会自动重复执行" a
  | None =>
      let a := set_job "" None a in
      agent_at AgTop (if failed then agent_status "idle" text (set_health true (la_healthy a) a)
                      else agent_status "idle" "" (set_health (la_needs a) (Some now) a))
  end.
(** The deferred calls: stop the job and wait for it, then leave. *)
Definition agent_ends (a : local_agent) : local_agent :=
  match la_job a with
  | Some j => match dj_done j with Some _ => agent_at AgLeaving (log_act AaLeave (set_job (la_jobID a) None a)) | None => stop_job a end
  | None => agent_at AgLeaving (log_act AaLeave a)
  end.
(** A program ends on its own time; what it says counts only once. *)
Definition job_ends (r : result verr Result) (a : local_agent) : local_agent :=
  match la_job a with
  | Some j => match dj_done j with
              | None => log_act (AaEnd (la_jobID a) r) (set_job (la_jobID a) (Some (mkDashJob (dj_work j) (dj_cancelled j) (Some r))) a)
              | Some _ => a
              end
  | None => a
  end.
Inductive agent_event :=
| AeTop (now : Z) | AeHealth (r : result verr WorkerReply) | AeProbe (failed : option verr) | AeConfirm (now : Z) (r : result verr WorkerReply) | AeWait (x : waiting)
| AePoll (r : result verr WorkerReply) | AeSelect (x : selected) | AeReported (now : Z) (r : option verr) | AeEnd | AeLeft | AeJob (r : result verr Result).
Definition agent_step (alive : bool) (ev : agent_event) (a : local_agent) : local_agent :=
  match ev, la_at a with
  | AeJob r, _ => job_ends r a
  | AeTop now, AgTop => agent_top now a
  | AeHealth r, AgHealth => agent_health r a
  | AeProbe f, AgCheck CkProbe => probe_ended alive f a
  | AeConfirm now r, AgCheck CkConfirm => check_confirmed now r a
  | AeWait x, AgCheck CkWait => check_waits x alive a
  | AePoll r, AgPoll => agent_polled alive r a
  | AeSelect x, AgSelect => agent_selects x alive a
  | AeReported now r, AgReport failed text => agent_reported now r failed text a
  | AeEnd, AgEnding => agent_ends a
  | AeLeft, AgLeaving => agent_at AgGone (agent_status "offline" (la_detail a) a)
  | _, _ => a
  end.

(** ** The server *)

Record dash := mkDash { ds_active : gmap string nat; ds_conns : list dash_conn; ds_agents : gmap string nat; ds_heap : list local_agent; ds_closed : bool }.
Definition new_dash : dash := mkDash ∅ [] ∅ [] false.
Definition put_conns (l : list dash_conn) (s : dash) : dash := mkDash (ds_active s) l (ds_agents s) (ds_heap s) (ds_closed s).
Definition put_heap (l : list local_agent) (s : dash) : dash := mkDash (ds_active s) (ds_conns s) (ds_agents s) l (ds_closed s).
(** The context of a connection ends, and with it those of its agents. *)
Definition end_conn (ptr : nat) (s : dash) : dash :=
  put_heap ((fun a => if Nat.eqb (la_conn a) ptr then end_agent a else a) <$> ds_heap s)
    (put_conns (alter (fun c => mkDashConn (dc_room c) (dc_running c) true) ptr (ds_conns s)) s).
Definition cancel_conn (ptr : nat) (s : dash) : dash :=
  match ds_conns s !! ptr with Some c => if dc_running c then end_conn ptr s else s | None => s end.
Definition is_running (l : list dash_conn) (ptr : nat) : bool := match l !! ptr with Some c => dc_running c | None => false end.
Definition running_conns (s : dash) : nat := size (filter (fun x => is_running (ds_conns s) x.2 = true) (ds_active s)).
Definition maxRooms : nat := 16.
Definition maxAgents : nat := 32.
(** [connect]; [hidden] is what the catalog says. *)
Definition connect (hidden : bool) (r : DashRoom) (s : dash) : dash * option verr :=
  if hidden then (s, Some "room 已删除，请重新添加")
  else if ds_closed s then (s, Some "dashboard 已关闭")
  else
    let running := match ds_active s !! dr_ID r with Some ptr => is_running (ds_conns s) ptr | None => false end in
    if running then (s, None)
    else if Nat.leb maxRooms (running_conns s) then (s, Some "最多同时连接 16 个 room，请先断开一个连接")
    else (mkDash (<[dr_ID r := length (ds_conns s)]> (ds_active s)) (ds_conns s ++ [mkDashConn (with_state "connecting" "正在连接 host" "" r) true false])
            (ds_agents s) (ds_heap s) (ds_closed s), None).
Definition set_room (ptr : nat) (f : DashRoom -> DashRoom) (s : dash) : dash :=
  put_conns (alter (fun c => mkDashConn (f (dc_room c)) (dc_running c) (dc_ended c)) ptr (ds_conns s)) s.
(** What the connector reports while its context lives, and its return. *)
Definition conn_update (ptr : nat) (status detail url : string) (s : dash) : dash :=
  match ds_conns s !! ptr with Some c => if dc_ended c then s else set_room ptr (with_state status detail url) s | None => s end.
Definition conn_returns (ptr : nat) (err : option verr) (s : dash) : dash :=
  match ds_conns s !! ptr with
  | Some c =>
      if negb (dc_running c) then s else
      let shown := match err with Some e => if dc_ended c then with_state "disconnected" "" "" else with_state "error" (SafeText e) "" | None => with_state "disconnected" "" "" end in
      end_conn ptr (put_conns (alter (fun c => mkDashConn (shown (dc_room c)) false (dc_ended c)) ptr (ds_conns s)) s)
  | None => s
  end.
Definition disconnect (id : string) (s : dash) : dash :=
  match ds_active s !! id with
  | Some ptr => match ds_conns s !! ptr with
                | Some c => if dc_running c then end_conn ptr (set_room ptr (fun r => with_state "disconnecting" (dr_Detail r) (dr_URL r) r) s) else s
                | None => s
                end
  | None => s
  end.
(** A room is taken off the list; [removed] is what the catalog says. *)
Definition remove_room (id : string) (removed : option verr) (s : dash) : dash * option verr :=
  match removed with
  | Some e => (s, Some e)
  | None => match ds_active s !! id with
            | Some ptr => let s := cancel_conn ptr s in (mkDash (delete id (ds_active s)) (ds_conns s) (ds_agents s) (ds_heap s) (ds_closed s), None)
            | None => (s, None)
            end
  end.
(** [list]: the rooms of the catalog with their state, and the active ones it does not have. *)
Definition shown_room (s : dash) (r : DashRoom) : DashRoom :=
  match ds_active s !! dr_ID r ≫= (fun ptr => ds_conns s !! ptr) with
  | Some c => with_state (dr_Status (dc_room c)) (dr_Detail (dc_room c)) (dr_URL (dc_room c)) r
  | None => r
  end.
Definition list_rooms (catalog : list DashRoom) (s : dash) : list DashRoom :=
  (shown_room s <$> catalog)
  ++ omap (fun x => if existsb (fun r => String.eqb (dr_ID r) x.1) catalog then None else dc_room <$> ds_conns s !! x.2) (map_to_list (ds_active s)).

(** *** Agents *)

Record invite_body := mkInvite { iv_AgentName : string; iv_Scope : string; iv_ID : string; iv_Invitation : string; iv_Provider : string; iv_Project : string; iv_Mode : string }.
(** What is checked before the lock: [installed] are the programs of this machine, [resolved] the directory, [random] a new invitation. *)
Definition invite_scope (b : invite_body) : string :=
  if String.eqb (iv_Scope b) "" then if String.eqb (iv_Project b) "" then "host" else "local" else iv_Scope b.
Definition check_invite (installed : list string) (resolved : result verr string) (random : string) (b : invite_body) : result verr (invite_body * string) :=
  if negb (existsb (String.eqb (iv_Provider b)) ["cursor"; "claude-code"; "codex"]) then Err "请选择 Codex、Cursor 或 Claude Code" else
  let? name := AgentName (iv_Provider b) (iv_AgentName b) in
  if negb (existsb (String.eqb (iv_Mode b)) ["review"; "work"]) then Err "请选择只读或编辑权限"
  else if negb (existsb (String.eqb (iv_Provider b)) installed) then Err "本机未检测到此 Agent CLI" else
  let scope := invite_scope b in
  if negb (existsb (String.eqb scope) ["host"; "local"]) then Err "请选择 Host 隔离副本或本机项目" else
  let? root := if String.eqb scope "local" then if HasPrefix (iv_Project b) "/" then resolved else Err "请填写本机项目绝对路径" else Ok "" in
  Ok (mkInvite name scope (iv_ID b) (if String.eqb (iv_Invitation b) "" then hex_EncodeToString random else iv_Invitation b) (iv_Provider b) (iv_Project b) (iv_Mode b), root).
Definition invite_key (b : invite_body) : string := iv_ID b +:+ ":" +:+ iv_Invitation b.
Definition same_agent (b : invite_body) (root : string) (a : local_agent) : bool :=
  String.eqb (la_agentName a) (iv_AgentName b) && String.eqb (la_scope a) (iv_Scope b) && String.eqb (la_provider a) (iv_Provider b)
  && String.eqb (la_project a) root && String.eqb (la_mode a) (iv_Mode b).
Definition new_agent (b : invite_body) (root worker : string) (conn : nat) : local_agent :=
  mkLocalAgent (invite_key b) (iv_ID b) conn (iv_AgentName b) (iv_Scope b) (iv_Provider b) root (iv_Mode b) worker "checking" "" false false
    true None [] "" None AgTop [].
(** Under the lock, the call of the host included; [answer] is what it says, or why there is no credential. *)
Definition invite_locked (b : invite_body) (root : string) (answer : result verr WorkerReply) (s : dash) : dash * result verr nat :=
  if ds_closed s then (s, Err "Dashboard 已关闭") else
  match ptr ← ds_active s !! iv_ID b; c ← ds_conns s !! ptr; if String.eqb (dr_Status (dc_room c)) "connected" then Some (ptr, c) else None with
  | None => (s, Err "请先以已批准的协作成员身份连接 Room")
  | Some (ptr, c) =>
      match i ← ds_agents s !! invite_key b; a ← ds_heap s !! i; Some (i, a) with
      | Some (i, a) =>
          if existsb (String.eqb (la_state a)) ["offline"; "error"] then (s, Err "本次邀请已结束，请关闭窗口后重新邀请")
          else if negb (same_agent b root a) then (s, Err "邀请参数冲突") else (s, Ok i)
      | None =>
          if Nat.leb maxAgents (size (ds_agents s)) then (s, Err "请先移除已有 Agent") else
          match answer with
          | Err e => (s, Err e)
          | Ok y =>
              let i := length (ds_heap s) in
              let a := new_agent b root (wy_ID y) ptr in
              let a := if dc_ended c then end_agent a else a in
              (mkDash (ds_active s) (ds_conns s) (<[invite_key b := i]> (ds_agents s)) (ds_heap s ++ [a]) (ds_closed s), Ok i)
          end
      end
  end.
Definition agent_leave (key : string) (s : dash) : dash :=
  match ds_agents s !! key with
  | Some i => mkDash (ds_active s) (ds_conns s) (delete key (ds_agents s)) (alter end_agent i (ds_heap s)) (ds_closed s)
  | None => s
  end.
Definition agent_recheck (key : string) (s : dash) : dash * bool :=
  match i ← ds_agents s !! key; a ← ds_heap s !! i; Some (i, a) with
  | Some (i, a) => if existsb (String.eqb (la_state a)) ["offline"; "working"; "checking"] then (s, false) else (put_heap (alter (set_recheck true) i (ds_heap s)) s, true)
  | None => (s, false)
  end.
(** [Close]: every context ends; what it waits for are the moves that follow. *)
Definition dash_close (s : dash) : dash :=
  mkDash (ds_active s) ((fun c => mkDashConn (dc_room c) (dc_running c) true) <$> ds_conns s) (ds_agents s) (end_agent <$> ds_heap s) true.
Inductive dash_move :=
| DmConnect (hidden : bool) (r : DashRoom) | DmUpdate (ptr : nat) (status detail url : string) | DmReturns (ptr : nat) (err : option verr)
| DmDisconnect (id : string) | DmRemove (id : string) (removed : option verr)
| DmInvite (b : invite_body) (installed : list string) (resolved : result verr string) (random : string) (answer : result verr WorkerReply)
| DmLeave (key : string) | DmRecheck (key : string) | DmAgent (i : nat) (ev : agent_event) | DmClose.
Definition dash_step (s : dash) (m : dash_move) : dash :=
  match m with
  | DmConnect h r => (connect h r s).1
  | DmUpdate ptr a b c => conn_update ptr a b c s
  | DmReturns ptr err => conn_returns ptr err s
  | DmDisconnect id => disconnect id s
  | DmRemove id r => (remove_room id r s).1
  | DmInvite b inst res rnd answer => match check_invite inst res rnd b with Ok (b, root) => (invite_locked b root answer s).1 | Err _ => s end
  | DmLeave key => agent_leave key s
  | DmRecheck key => (agent_recheck key s).1
  | DmAgent i ev => match ds_heap s !! i with Some a => put_heap (<[i := agent_step (negb (la_cancelled a)) ev a]> (ds_heap s)) s | None => s end
  | DmClose => dash_close s
  end.
Definition dash_run (s : dash) (l : list dash_move) : dash := foldl dash_step s l.

(** ** What an agent of this machine does *)

(** The protocol of an agent, as an automaton over its acts: a job is taken once and only when no other is open, run
    where the member said, its end reported once and truthfully; an agent leaves when nothing runs, and then is silent. *)
Record open_job := mkOpenJob { oj_id : string; oj_started : bool; oj_end : option (result verr Result) }.
Record protocol := mkProtocol { pt_taken : list string; pt_open : option open_job; pt_left : bool }.
Definition tells (r : result verr Result) (text : string) (changes : list WorkspaceChange) (failed : bool) : Prop :=
  match r with Ok x => text = re_Text x /\ changes = re_Changes x /\ failed = false | Err _ => text = work_failed /\ changes = [] /\ failed = true end.
Inductive follows (scope project : string) : protocol -> agent_act -> protocol -> Prop :=
| FwTake taken id : id ∉ taken -> follows scope project (mkProtocol taken None false) (AaTake id) (mkProtocol (id :: taken) (Some (mkOpenJob id false None)) false)
| FwRun taken id w : as_ProjectRoot w.1 = project -> (scope = "host" -> w.2 <> None) ->
    follows scope project (mkProtocol taken (Some (mkOpenJob id false None)) false) (AaRun id project w) (mkProtocol taken (Some (mkOpenJob id true None)) false)
| FwEnd taken id started r : (started = false -> exists e, r = Err e) ->
    follows scope project (mkProtocol taken (Some (mkOpenJob id started None)) false) (AaEnd id r) (mkProtocol taken (Some (mkOpenJob id started (Some r))) false)
| FwReport taken id started r text changes failed : tells r text changes failed ->
    follows scope project (mkProtocol taken (Some (mkOpenJob id started (Some r))) false) (AaReport id text changes failed) (mkProtocol taken None false)
| FwLeave taken o : match o with Some j => oj_end j <> None | None => True end ->
    follows scope project (mkProtocol taken o false) AaLeave (mkProtocol taken None true).
Inductive follows_all (scope project : string) : list agent_act -> protocol -> Prop :=
| FwNil : follows_all scope project [] (mkProtocol [] None false)
| FwSnoc l x p p' : follows_all scope project l p -> follows scope project p x p' -> follows_all scope project (l ++ [x]) p'.
Definition ended (p : agent_point) : bool := match p with AgLeaving | AgGone => true | _ => false end.
(** What the record of an agent says of the protocol. *)
Definition open_of (a : local_agent) (started : bool) : option open_job := (fun j => mkOpenJob (la_jobID a) started (dj_done j)) <$> la_job a.
Record agent_inv (a : local_agent) : Prop := mk_agent_inv
  { ai_log : exists started, follows_all (la_scope a) (la_project a) (la_log a) (mkProtocol (la_seen a) (open_of a started) (ended (la_at a)))
      /\ (started = false -> match la_job a with Some j => dj_done j <> None | None => True end);
    ai_named : la_job a <> None -> la_jobID a <> "";
    ai_report : match la_at a with AgReport _ _ | AgLeaving | AgGone => la_job a = None | _ => True end }.
(** A step that changes neither the job nor the log. *)
Lemma agent_quiet a a' : la_scope a' = la_scope a -> la_project a' = la_project a -> la_log a' = la_log a -> la_seen a' = la_seen a -> la_jobID a' = la_jobID a ->
  la_job a' = la_job a -> ended (la_at a') = ended (la_at a) -> match la_at a' with AgReport _ _ | AgLeaving | AgGone => la_job a = None | _ => True end ->
  agent_inv a -> agent_inv a'.
Proof.
  intros E1 E2 E3 E4 E5 E6 E7 R [L N Rp]. split; unfold open_of in *; rewrite ?E1, ?E2, ?E3, ?E4, ?E5, ?E6, ?E7; [done|done|].
  destruct (la_at a'); done.
Qed.
Ltac quiet := eapply agent_quiet; [..|eassumption]; try done; try (match goal with L : ended (la_at _) = false |- _ => cbn; by rewrite L end).
Abbreviation live a := (ended (la_at a) = false).
Lemma inv_agent_gives_up why a : live a -> agent_inv a -> agent_inv (fails_with why a).
Proof. intros Li I. quiet. Qed.
Lemma inv_begin_check a : live a -> agent_inv a -> agent_inv (begin_check a).
Proof. intros Li I. quiet. Qed.
Lemma inv_check_failed why a : live a -> agent_inv a -> agent_inv (check_failed why a).
Proof. intros Li I. quiet. Qed.
Lemma inv_point_to p a : live a -> ended p = false -> match p with AgReport _ _ => False | _ => True end -> agent_inv a -> agent_inv (agent_at p a).
Proof. intros Li E R I. quiet. cbn. by destruct p. Qed.
Lemma inv_stop_job a : agent_inv a -> agent_inv (stop_job a).
Proof.
  unfold stop_job. destruct (la_job a) as [j|] eqn:J; [|done]. intros [L N R]. split.
  - unfold open_of in *. cbn. rewrite J in L. exact L.
  - intros _. cbn. apply N. by rewrite J.
  - cbn. destruct (la_at a); congruence.
Qed.
Lemma inv_start id w a : live a -> match la_at a with AgReport _ _ => False | _ => True end -> id <> "" -> la_jobID a = "" -> id ∉ la_seen a -> agent_inv a ->
  agent_inv (agent_at AgSelect (start_work id w a)).
Proof.
  intros Li NR Nid Free New [L N R]. assert (J : la_job a = None) by (destruct (la_job a); [exfalso; by apply N|done]).
  destruct L as (st & L & _). unfold open_of in L. rewrite J in L. cbn in L. rewrite Li in L.
  assert (T : follows_all (la_scope a) (la_project a) (la_log a ++ [AaTake id]) (mkProtocol (id :: la_seen a) (Some (mkOpenJob id false None)) false))
    by (eapply FwSnoc; [exact L|by constructor]).
  unfold start_work. cbn [la_scope agent_status log_act see]. destruct (String.eqb (la_scope a) "host") eqn:H; cbn [andb].
  - case_bool_decide as Nw.
    + split; [|done|done]. exists false. split; [|done]. unfold open_of. cbn. eapply FwSnoc; [exact T|]. apply FwEnd. intros _. by eexists.
    + split; [|done|done]. exists true. split; [|done]. unfold open_of. cbn. eapply FwSnoc; [exact T|]. apply FwRun; [done|]. intros _. exact Nw.
  - split; [|done|done]. exists true. split; [|done]. unfold open_of. cbn. eapply FwSnoc; [exact T|]. apply FwRun; [done|]. intros E. by rewrite E in H.
Qed.
Lemma inv_polled alive r a : la_at a = AgPoll -> (forall y, r = Ok y -> wy_Assignment y <> None -> wy_JobID y <> "") -> agent_inv a -> agent_inv (agent_polled alive r a).
Proof.
  intros A Nm I. assert (Li : live a) by by rewrite A. unfold agent_polled. destruct r as [y|e]; [|destruct alive; [by apply inv_agent_gives_up|by apply inv_point_to]].
  destruct (_ && _ && _ && _); [by apply inv_agent_gives_up|].
  set (a1 := if wy_Cancel y then stop_job a else a).
  assert (A1 : agent_inv a1 /\ live a1 /\ la_at a1 = AgPoll /\ la_jobID a1 = la_jobID a /\ la_seen a1 = la_seen a).
  { subst a1. destruct (wy_Cancel y); [|done]. split; [by apply inv_stop_job|]. unfold stop_job in *. by destruct (la_job a). }
  destruct A1 as (I1 & Li1 & At1 & Id1 & Se1). clearbody a1. destruct (wy_Assignment y) as [w|] eqn:As; [|by apply inv_point_to].
  destruct (String.eqb (la_jobID a) "") eqn:Fr; cbn [negb]; [|by apply inv_point_to]. apply String.eqb_eq in Fr.
  destruct (existsb (String.eqb (wy_JobID y)) (la_seen a1)) eqn:Sn; [by apply inv_agent_gives_up|].
  apply inv_start; [done|by rewrite At1|apply (Nm y); [done|by rewrite As]|congruence| |done].
  intros Hin. assert (existsb (String.eqb (wy_JobID y)) (la_seen a1) = true) as X; [|by rewrite X in Sn].
  apply existsb_exists. eexists. split; [by apply list_elem_of_In|apply String.eqb_refl].
Qed.
Lemma inv_selects x alive a : la_at a = AgSelect -> agent_inv a -> agent_inv (agent_selects x alive a).
Proof.
  intros A I. assert (Li : live a) by by rewrite A. destruct x; cbn [agent_selects]; [destruct alive; [done|by apply inv_point_to]| |by apply inv_point_to].
  destruct (la_job a) as [j|] eqn:J; [|done]. destruct (dj_done j) as [r|] eqn:D; [|done]. destruct I as [(st & L & _) N R].
  unfold open_of in L. rewrite J in L. cbn in L. rewrite D, Li in L.
  destruct (match r with Ok r => (re_Text r, re_Changes r, false) | Err _ => (work_failed, [], true) end) as [[text changes] failed] eqn:T.
  split; [|done|done]. exists true. split; [|done]. unfold open_of. cbn. eapply FwSnoc; [exact L|]. apply FwReport. destruct r; injection T as <- <- <-; done.
Qed.
Lemma inv_ends a : la_at a = AgEnding -> agent_inv a -> agent_inv (agent_ends a).
Proof.
  intros A I. assert (Li : live a) by by rewrite A. unfold agent_ends. destruct (la_job a) as [j|] eqn:J.
  - destruct (dj_done j) as [r|] eqn:D; [|by apply inv_stop_job]. destruct I as [(st & L & _) N R]. unfold open_of in L. rewrite J in L. cbn in L. rewrite D, Li in L.
    split; [|done|done]. exists true. split; [|done]. unfold open_of. cbn. eapply FwSnoc; [exact L|]. by apply FwLeave.
  - destruct I as [(st & L & _) N R]. unfold open_of in L. rewrite J in L. cbn in L. rewrite Li in L.
    split; [|cbn; by rewrite J|cbn; by rewrite J]. exists true. split; [|done]. unfold open_of. cbn. rewrite J. eapply FwSnoc; [exact L|]. by apply FwLeave.
Qed.
Lemma inv_job_ends r a : agent_inv a -> agent_inv (job_ends r a).
Proof.
  intros I. unfold job_ends. destruct (la_job a) as [j|] eqn:J; [|done]. destruct (dj_done j) as [r'|] eqn:D; [done|].
  destruct I as [(st & L & S) N R]. unfold open_of in L. rewrite J in L, S. cbn in L. rewrite D in L, S.
  assert (E : ended (la_at a) = false) by (destruct (la_at a); cbn; congruence). rewrite E in L.
  split.
  - exists st. unfold open_of. cbn. rewrite E. split; [|done]. eapply FwSnoc; [exact L|]. apply FwEnd. intros F. by specialize (S F).
  - intros _. cbn. apply N. by rewrite J.
  - cbn. destruct (la_at a); congruence.
Qed.
Lemma inv_free a : match la_at a with AgReport _ _ => True | _ => False end -> agent_inv a -> agent_inv (set_job "" None a) /\ ended (la_at a) = false.
Proof.
  intros A [(st & L & S) N R]. assert (J : la_job a = None) by by destruct (la_at a). split; [|by destruct (la_at a)].
  split; [|done|cbn; by destruct (la_at a)]. exists true. split; [|done]. unfold open_of in *. rewrite J in L. exact L.
Qed.
Definition ev_named (ev : agent_event) : Prop := forall y, ev = AePoll (Ok y) -> wy_Assignment y <> None -> wy_JobID y <> "".
Lemma inv_agent_step alive ev a : ev_named ev -> agent_inv a -> agent_inv (agent_step alive ev a).
Proof.
  intros Nm I. destruct ev; cbn [agent_step]; [| | | | | | | | | |by apply inv_job_ends]; destruct (la_at a) as [| |[| |]| | |failed' text'| | |] eqn:A; try exact I.
  - unfold agent_top. destruct (String.eqb _ _ && _); (quiet; cbn; by rewrite A).
  - assert (Li : live a) by by rewrite A. unfold agent_health. destruct r as [y|e]; [|by apply inv_agent_gives_up]. destruct (String.eqb _ _); [by apply inv_point_to|].
    destruct (negb _); [by apply inv_agent_gives_up|by apply inv_begin_check].
  - assert (Li : live a) by by rewrite A. unfold probe_ended. destruct alive; cbn [negb]; [|by apply inv_point_to]. destruct failed; [by apply inv_check_failed|by apply inv_point_to].
  - assert (Li : live a) by by rewrite A. unfold check_confirmed. destruct r as [y|e]; [|by apply inv_agent_gives_up]. destruct (negb _); [by apply inv_check_failed|quiet].
  - assert (Li : live a) by by rewrite A. unfold check_waits. destruct x as [| |[e|]]; [destruct alive; [done|by apply inv_point_to]| |by apply inv_agent_gives_up|done].
    destruct (la_recheck a); [quiet|done].
  - apply inv_polled; [done| |done]. intros y ->. by apply Nm.
  - by apply inv_selects.
  - destruct (inv_free a) as [I' Li]; [by rewrite A|done|]. unfold agent_reported. destruct r as [e|]; [by apply inv_agent_gives_up; [rewrite A|]|].
    destruct failed'; (eapply agent_quiet; [..|exact I']; try done; cbn; by rewrite A).
  - by apply inv_ends.
  - destruct I as [L N R]. rewrite A in R, L. split; [exact L|exact N|exact R].
Qed.
Lemma inv_marks f a : (forall b, la_scope (f b) = la_scope b /\ la_project (f b) = la_project b /\ la_log (f b) = la_log b /\ la_seen (f b) = la_seen b
    /\ la_jobID (f b) = la_jobID b /\ la_job (f b) = la_job b /\ la_at (f b) = la_at b) -> agent_inv a -> agent_inv (f a).
Proof.
  intros F I. destruct (F a) as (E1 & E2 & E3 & E4 & E5 & E6 & E7). apply (agent_quiet a); try done; [by rewrite E7|]. rewrite E7. by destruct I.
Qed.
Lemma inv_end_agent a : agent_inv a -> agent_inv (end_agent a).
Proof. by apply inv_marks. Qed.
Lemma inv_set_recheck b a : agent_inv a -> agent_inv (set_recheck b a).
Proof. by apply inv_marks. Qed.
Lemma inv_new_agent b root w c : agent_inv (new_agent b root w c).
Proof. split; [|done|done]. exists true. split; [|done]. constructor. Qed.

(** ** The dashboard *)

Record dash_inv (s : dash) : Prop := mk_dash_inv
  { di_agents : forall i a, ds_heap s !! i = Some a -> agent_inv a;
    di_conns : forall id ptr, ds_active s !! id = Some ptr -> (ptr < length (ds_conns s))%nat;
    di_rooms : (running_conns s <= maxRooms)%nat;
    di_few : (size (ds_agents s) <= maxAgents)%nat }.
Definition move_named (m : dash_move) : Prop := match m with DmAgent _ ev => ev_named ev | _ => True end.
(** A step after which no connection runs that did not before. *)
Lemma dash_less s s' : dash_inv s -> (forall i a, ds_heap s' !! i = Some a -> agent_inv a) -> length (ds_conns s') = length (ds_conns s) ->
  (forall id ptr, ds_active s' !! id = Some ptr -> ds_active s !! id = Some ptr) ->
  (forall ptr, is_running (ds_conns s') ptr = true -> is_running (ds_conns s) ptr = true) -> (size (ds_agents s') <= size (ds_agents s))%nat -> dash_inv s'.
Proof.
  intros [A C R F] A' L Sub Run Sz. split; [done|intros id ptr H; rewrite L; by eapply C, Sub| |lia].
  etrans; [|exact R]. unfold running_conns. apply map_subseteq_size. apply map_subseteq_spec. intros id ptr H.
  apply map_lookup_filter_Some in H as [H1 H2]. apply map_lookup_filter_Some. split; [by apply Sub|by apply Run].
Qed.
Lemma is_running_alter f l ptr n : (forall c, dc_running (f c) = true -> dc_running c = true) -> is_running (alter f n l) ptr = true -> is_running l ptr = true.
Proof.
  intros F. unfold is_running. destruct (decide (n = ptr)) as [->|N].
  - rewrite list_lookup_alter_eq. destruct (l !! ptr); [|done]. apply F.
  - by rewrite list_lookup_alter_ne.
Qed.
Lemma agents_map f (s : dash) : (forall a, agent_inv a -> agent_inv (f a)) -> (forall i a, ds_heap s !! i = Some a -> agent_inv a) ->
  forall i a, (f <$> ds_heap s) !! i = Some a -> agent_inv a.
Proof. intros F A i a H. apply list_lookup_fmap_Some in H as (b & -> & Hb). by eapply F, A. Qed.
Lemma agents_alter f n (s : dash) : (forall a, agent_inv a -> agent_inv (f a)) -> (forall i a, ds_heap s !! i = Some a -> agent_inv a) ->
  forall i a, alter f n (ds_heap s) !! i = Some a -> agent_inv a.
Proof.
  intros F A i a H. destruct (decide (n = i)) as [->|N].
  - rewrite list_lookup_alter_eq in H. destruct (ds_heap s !! i) eqn:E; [|done]. injection H as <-. by eapply F, A.
  - rewrite list_lookup_alter_ne in H by done. by eapply A.
Qed.
Lemma dash_end_conn ptr s : dash_inv s -> dash_inv (end_conn ptr s).
Proof.
  intros I. apply (dash_less s); try done.
  - eapply (agents_map (fun a => if Nat.eqb (la_conn a) ptr then end_agent a else a) s); [|by apply I]. intros a Ha. destruct (Nat.eqb _ _); [by apply inv_end_agent|done].
  - cbn. by rewrite length_alter.
  - intros q. cbn. by apply is_running_alter.
Qed.
Lemma dash_set_room ptr f s : dash_inv s -> dash_inv (set_room ptr f s).
Proof.
  intros I. apply (dash_less s); try done; [by apply I|cbn; by rewrite length_alter|]. intros q. cbn. by apply is_running_alter.
Qed.
Lemma dash_connect h r s : dash_inv s -> dash_inv (connect h r s).1.
Proof.
  intros I. unfold connect. destruct h; [done|]. destruct (ds_closed s); [done|].
  destruct (match ds_active s !! dr_ID r with Some ptr => is_running (ds_conns s) ptr | None => false end); [done|].
  destruct (Nat.leb maxRooms (running_conns s)) eqn:Few; [done|]. apply Nat.leb_gt in Few. destruct I as [A C R F].
  split; cbn [fst ds_heap ds_active ds_conns ds_agents]; [done| | |done].
  - intros id ptr H. rewrite length_app. cbn. destruct (decide (id = dr_ID r)) as [->|N]; [rewrite lookup_insert_eq in H; injection H as <-; lia|].
    rewrite lookup_insert_ne in H by done. specialize (C id ptr H). lia.
  - unfold running_conns in *. cbn [ds_active ds_conns].
    set (c := mkDashConn _ true false). set (n := length (ds_conns s)).
    assert (Sub : filter (fun x => is_running (ds_conns s ++ [c]) x.2 = true) (<[dr_ID r := n]> (ds_active s))
                  ⊆ <[dr_ID r := n]> (filter (fun x => is_running (ds_conns s) x.2 = true) (ds_active s))).
    { apply map_subseteq_spec. intros id ptr H. apply map_lookup_filter_Some in H as [H1 H2]. destruct (decide (id = dr_ID r)) as [->|N].
      - rewrite lookup_insert_eq in H1 |- *. done.
      - rewrite lookup_insert_ne in H1 |- * by done. apply map_lookup_filter_Some. split; [done|]. cbn in *. unfold is_running in *.
        by rewrite lookup_app_l in H2 by by eapply C. }
    apply map_subseteq_size in Sub. etrans; [exact Sub|]. rewrite map_size_insert. unfold maxRooms in *. destruct (filter _ _ !! _); cbn in *; lia.
Qed.
Lemma dash_invite b root answer s : dash_inv s -> dash_inv (invite_locked b root answer s).1.
Proof.
  intros I. unfold invite_locked. destruct (ds_closed s); [done|]. destruct (ds_active s !! iv_ID b ≫= _) as [[ptr c]|]; [|done].
  destruct (ds_agents s !! invite_key b ≫= _) as [[i a]|]; [destruct (existsb _ _); [done|]; by destruct (negb _)|].
  destruct (Nat.leb maxAgents (size (ds_agents s))) eqn:Few; [done|]. apply Nat.leb_gt in Few. destruct answer as [y|e]; [|done]. destruct I as [A C R F].
  split; cbn [fst ds_heap ds_active ds_conns ds_agents]; [|done|done|].
  - intros i a H. apply lookup_app_Some in H as [H|[_ H]]; [by eapply A|]. apply list_lookup_singleton_Some in H as [_ <-].
    destruct (dc_ended c); [apply inv_end_agent|]; apply inv_new_agent.
  - rewrite map_size_insert. unfold maxAgents in *. destruct (ds_agents s !! invite_key b); cbn; lia.
Qed.
Lemma dash_inv_step s m : move_named m -> dash_inv s -> dash_inv (dash_step s m).
Proof.
  intros Nm I. destruct m; cbn [dash_step].
  - by apply dash_connect.
  - unfold conn_update. destruct (ds_conns s !! ptr) as [x|]; [|done]. destruct (dc_ended x); [done|by apply dash_set_room].
  - unfold conn_returns. destruct (ds_conns s !! ptr) as [x|]; [|done]. destruct (dc_running x); [|done]. cbn [negb]. apply dash_end_conn.
    apply (dash_less s); try done; [by apply I|cbn; by rewrite length_alter|]. intros q. cbn. by apply is_running_alter.
  - unfold disconnect. destruct (ds_active s !! id) as [ptr|]; [|done]. destruct (ds_conns s !! ptr) as [x|]; [|done]. destruct (dc_running x); [|done].
    by apply dash_end_conn, dash_set_room.
  - unfold remove_room. destruct removed; [done|]. destruct (ds_active s !! id) as [ptr|]; [|done].
    assert (I' : dash_inv (cancel_conn ptr s)) by (unfold cancel_conn; destruct (ds_conns s !! ptr) as [x|]; [destruct (dc_running x); [by apply dash_end_conn|]|]; done).
    apply (dash_less (cancel_conn ptr s)); try done; [by apply I'|]. intros id' p. cbn. by intros [_ H]%lookup_delete_Some.
  - destruct (check_invite installed resolved random b) as [[b' root]|e]; [|done]. by apply dash_invite.
  - unfold agent_leave. destruct (ds_agents s !! key) as [i|]; [|done]. apply (dash_less s); try done.
    + cbn. eapply (agents_alter end_agent); [apply inv_end_agent|by apply I].
    + cbn. apply map_subseteq_size, delete_subseteq.
  - unfold agent_recheck. destruct (ds_agents s !! key ≫= _) as [[i a]|]; [|done]. destruct (existsb _ _); [done|]. apply (dash_less s); try done.
    cbn. eapply (agents_alter (set_recheck true)); [apply inv_set_recheck|by apply I].
  - destruct (ds_heap s !! i) as [a|] eqn:Ha; [|done]. apply (dash_less s); try done. cbn. intros j b H. destruct (decide (i = j)) as [->|N].
    + rewrite list_lookup_insert_eq in H by (by eapply lookup_lt_Some). injection H as <-. apply inv_agent_step; [done|]. by eapply I.
    + rewrite list_lookup_insert_ne in H by done. by eapply I.
  - apply (dash_less s); try done.
    + cbn. eapply (agents_map end_agent); [apply inv_end_agent|by apply I].
    + cbn. by rewrite length_fmap.
    + intros ptr. unfold is_running. cbn. rewrite list_lookup_fmap. by destruct (ds_conns s !! ptr).
Qed.
Lemma dash_inv_run l s : Forall move_named l -> dash_inv s -> dash_inv (dash_run s l).
Proof. intros F. revert s. induction F as [|m l Nm F IH]; intros s I; [done|]. by apply IH, dash_inv_step. Qed.
Lemma dash_inv_new : dash_inv new_dash.
Proof. split; [done|done|by apply Nat.leb_le; vm_compute|by apply Nat.leb_le; vm_compute]. Qed.

Definition taken_ids (l : list agent_act) : list string := omap (fun x => match x with AaTake id => Some id | _ => None end) l.
Definition report_ids (l : list agent_act) : list string := omap (fun x => match x with AaReport id _ _ _ => Some id | _ => None end) l.
Lemma follows_once scope project l p : follows_all scope project l p ->
  taken_ids l = rev (pt_taken p) /\ NoDup (pt_taken p) /\ NoDup (report_ids l) /\ (forall id, id ∈ report_ids l -> id ∈ pt_taken p /\ forall j, pt_open p = Some j -> oj_id j <> id)
  /\ (forall j, pt_open p = Some j -> oj_id j ∈ pt_taken p).
Proof.
  induction 1 as [|l x p p' H (T & N & Nr & R & O) F]; [cbn; split_and!; try constructor; intros; by try (by apply elem_of_nil in H)|].
  unfold taken_ids, report_ids in *. rewrite !omap_app. destruct F; cbn [pt_taken pt_open] in *; cbn; rewrite ?app_nil_r.
  - split_and!; [by rewrite T|by apply NoDup_cons|done| |intros j E; injection E as <-; cbn; by apply elem_of_cons; left].
    intros i Hi. split; [apply elem_of_cons; right; by apply R|]. intros j E. injection E as <-. cbn. intros ->. by destruct (R _ Hi).
  - split_and!; try done; [intros i Hi; split; [by apply R|]; intros j E; injection E as <-; by apply (proj2 (R i Hi) _ eq_refl)|].
    intros j E. injection E as <-. by apply (O _ eq_refl).
  - split_and!; try done; [intros i Hi; split; [by apply R|]; intros j E; injection E as <-; by apply (proj2 (R i Hi) _ eq_refl)|].
    intros j E. injection E as <-. by apply (O _ eq_refl).
  - split_and!; try done.
    + apply NoDup_snoc; [done|]. intros Hi. by apply (proj2 (R _ Hi) _ eq_refl).
    + intros i [Hi|Hi%list_elem_of_singleton]%elem_of_app; [by split; [apply R|]|subst i]. split; [by apply (O _ eq_refl)|done].
  - split_and!; try done. intros i Hi. split; [by apply R|done].
Qed.

(** C35: As long as the hosts name the jobs they assign, and whatever rooms, hosts and requests do otherwise, an agent of this machine keeps
    its protocol: a job is taken at most once, only after the job before it was reported, run only in the directory the member named or in a
    copy of the host's project, and reported at most once, with what its program returned; the agent leaves when nothing of it runs, and does
    nothing after.  At most sixteen rooms are connected and thirty-two agents are listed.  The name is needed: an agent takes a job without a
    name to be none ([unnamed_job_is_overtaken]). *)
Theorem local_agents_keep_the_protocol l : Forall move_named l ->
  let s := dash_run new_dash l in
  (forall i a, ds_heap s !! i = Some a -> (exists p, follows_all (la_scope a) (la_project a) (la_log a) p)
      /\ NoDup (taken_ids (la_log a)) /\ NoDup (report_ids (la_log a)))
  /\ (running_conns s <= maxRooms)%nat /\ (size (ds_agents s) <= maxAgents)%nat.
Proof.
  intros F s. destruct (dash_inv_run l new_dash F dash_inv_new) as [A C R Sz]. fold s in A, R, Sz. split; [|done].
  intros i a Ha. destruct (A i a Ha) as [(st & L & _) _ _]. destruct (follows_once _ _ _ _ L) as (T & N & Nr & _).
  split; [by eexists|]. split; [|done]. rewrite T. by apply NoDup_ListNoDup, NoDup_rev, NoDup_ListNoDup.
Qed.

(** ** An agent that works once *)

Definition team_room : DashRoom := mkDashRoom "team" "host:1" "session" "ann" "joined" "" "disconnected" "" "".
Definition cat_invites : invite_body := mkInvite "" "" "team" "0123" "codex" "/home/ann/p" "work".
Definition one_work : Work :=
  ({| as_StepID := "s"; as_StepPrompt := "review"; as_DependsOn := []; as_Version := 1; as_ID := "A"; as_AgentID := "w1"; as_HumanUID := 7;
      as_ProjectRoot := ""; as_TaskID := 0; as_HumanPrompt := "please review"; as_Prompt := ""; as_Instructions := ""; as_Prior := [] |}, None).
Definition accepted_health : result verr WorkerReply := Ok (RemoteWorkers.reply "w1" "health-accepted").
Definition job_offer : result verr WorkerReply := Ok (mkWorkerReply "" "w1" "" "job1" (Some one_work) false).
Definition done_work : Result := {| re_WorkspacePath := ""; re_Changes := []; re_StepID := ""; re_AgentID := ""; re_Text := "reviewed" |}.
Definition dash_course : list dash_move :=
  [DmConnect false team_room; DmUpdate 0 "connected" "" ""; DmInvite cat_invites ["codex"] (Ok "/home/ann/p") "" (Ok (RemoteWorkers.reply "w1" "joined"))]
  ++ (DmAgent 0 <$> [AeTop 0; AeHealth accepted_health; AeProbe None; AeConfirm 1 accepted_health; AePoll job_offer; AeJob (Ok done_work);
                     AeSelect SlResult; AeReported 2 None; AeTop 3; AePoll job_offer; AeEnd; AeLeft]).
(** The agent does not refuse a job whose name is empty, and takes the next one while it runs. *)
Example unnamed_job_is_overtaken :
  let offer id : result verr WorkerReply := Ok (mkWorkerReply "" "w1" "" id (Some one_work) false) in
  let course := take 7 dash_course ++ (DmAgent 0 <$> [AePoll (offer ""); AeSelect SlTick; AeTop 2; AePoll (offer "job1")]) in
  (fun a => omap (fun x => match x with AaTake id => Some ("take", id) | AaRun id _ _ => Some ("run", id) | AaEnd id _ => Some ("end", id)
                                      | AaReport id _ _ _ => Some ("report", id) | AaLeave => Some ("leave", "") end) (la_log a))
    <$> ds_heap (dash_run new_dash course) !! 0%nat = Some [("take", ""); ("run", ""); ("take", "job1"); ("run", "job1")].
Proof. vm_compute. reflexivity. Qed.
Lemma local_agents_keep_the_protocol_witness :
  let s := dash_run new_dash dash_course in
  exists a, ds_heap s !! 0%nat = Some a /\ length (la_log a) = 5%nat /\ la_detail a = "Host 重复投递已处理任务，已停止以避免重复执行"
    /\ (exists p, follows_all (la_scope a) (la_project a) (la_log a) p) /\ NoDup (report_ids (la_log a)).
Proof.
  intros s. assert (E : is_Some (ds_heap s !! 0%nat)) by (vm_compute; by eexists). destruct E as [a Ha]. exists a. split; [exact Ha|].
  assert (V : (fun a => (length (la_log a), la_detail a)) <$> ds_heap s !! 0%nat = Some (5%nat, "Host 重复投递已处理任务，已停止以避免重复执行")) by by vm_compute.
  rewrite Ha in V. cbn in V. injection V as V1 V2. split; [exact V1|]. split; [exact V2|].
  assert (F : Forall move_named dash_course).
  { unfold dash_course. cbn [fmap list_fmap app]. repeat (apply Forall_cons; split; [first [exact I|intros y Ey; (discriminate Ey || (injection Ey as <-; done))]|]).
    apply Forall_nil_2. }
  destruct (proj1 (local_agents_keep_the_protocol dash_course F) 0%nat a Ha) as (P & _ & R). exact (conj P R).
Defined.
